(* ===== verification/_CoqProject ===== *)
-Q . S2P
Prelude.v
PyFloat.v
Stats.v
PyText.v
Glob.v
Config.v
Hardware.v
Wire.v
Catalog.v
Rbe.v
Batcher.v
Queues.v
Nmea.v
Um980.v
RawLog.v
SerialCollector.v
CanCollector.v
HostMetrics.v
Pipeline.v
TimingCore.v
Distance.v
ReferenceLap.v
TimingApp.v
StateRes.v
Numpy.v
Geodesy.v
Ins.v
FusionEngine.v
EngineRuns.v
FusionApp.v
FusionRuns.v
Publisher.v
PublisherLink.v
RegistryCache.v
Laps.v
IngestWriter.v
Framing.v
WebSocket.v
Extrapolator.v
Reconcile.v
FieldModel.v
FieldRuns.v
FieldShapes.v
FieldService.v
Notifier.v
NotifierRuns.v
Limiter.v
Session.v
Agent.v
AgentRuns.v
SessionState.v
RacePlan.v
SessionDatabase.v
SessionQueue.v
SessionControl.v
Strategy.v
TimingDisplay.v
MqttSink.v
PitSettings.v
LiveService.v
ExtraService.v
Ntrip.v
Migrate.v
PitMonitor.v
StrategyService.v
Watch.v
WatchEngine.v
WatchService.v
