(* ===== verification/Prelude.v ===== *)
(** openlaps: a verification library for the telemetry chain of a racing car.

    The program. A vehicle agent collects samples from CAN buses and serial
    devices, times laps from GPS fixes, batches samples into protobuf
    messages and publishes them over NATS JetStream. Pit services read the
    stream: a writer into TimescaleDB, a decoder for live gauges, an
    extrapolator of the lap clock, the timing-feed reader, the strategy
    arithmetic, the watch that looks for slow drifts, the notifier that
    announces alerts. The library models the Python of [src/src] that carries
    this logic, each definition after the function it is named for.

    Layers, in the order [_CoqProject] lists the files.

    - [Prelude]: results and exceptions, ordered dictionaries, Python's stable
      sort, text helpers, tactics and hint databases. [PyFloat]: binary64
      through [SpecFloat], Python's int/float conversions and comparisons
      (the class [PyEq] is [==], under which NaN differs from itself), dates
      as microseconds, the [forder] decision tactic. [Stats]: [fsum],
      [median], [stdev], and floats as text ([repr], ["%g"]). [PyText]:
      [str]'s methods, the number syntax of [int] and [float]. [Glob]:
      [fnmatchcase].
    - Configuration and wire: [Config] ([core/config.py]), [Wire]
      ([core/samples.py], [telemetry.proto]; the protobuf codec is the class
      [Codec] with its laws [CodecLaws]), [Catalog] ([core/catalog.py]),
      [Hardware] ([core/hardware.py]).
    - The collectors ([collectors]): [Nmea] (sentences), [Um980] (the
      receiver's commands and corrections), [RawLog] (capture files and the
      candump relay), [SerialCollector], [CanCollector] (connections, backoff
      and samples), [HostMetrics]. A port, a bus, a disk and psutil are what
      they answer to each call.
    - The agent: [Rbe] ([core/rbe.py]), [Batcher] ([core/batcher.py]),
      [Queues] ([agent/queues.py]), [Pipeline] ([agent/pipeline.py]), where an
      application is an instance of [TapApp]; the timing application in
      [TimingCore], [Distance], [ReferenceLap], [TimingApp]
      ([timing/*.py], [agent/timing_app.py]); [Publisher] (the buffer and the
      window) and [PublisherLink] (the connection and the streams) of
      [agent/publisher.py]; [Session] ([agent/session.py]). Sensor fusion, the
      other application: [StateRes] (the monad of methods that change an
      object and may raise, with its [wp] rules), [Numpy] (vectors and
      matrices; libm and BLAS/LAPACK as the classes [MathLib] and [NumPy]),
      [Geodesy], [Ins], [FusionEngine] ([fusion/geodesy.py], [ins.py],
      [engine.py]), [EngineRuns] (runs of the engine), [FusionApp]
      ([agent/fusion_app.py] and the profile's fusion models) and
      [FusionRuns] (runs of the application). [Agent] and
      [AgentRuns] ([agent/agent.py]) put them together: the threads as
      interleaved steps, supervision, health samples, shutdown.
    - The pit: [RegistryCache] ([pit/registry_cache.py]), [Laps] and
      [IngestWriter] ([pit/ingest_writer]), [Strategy] and [StrategyService]
      ([pit/strategy]: the arithmetic, and the polls, rows and messages around
      it), [TimingDisplay] ([pit/timing_display.py]),
      [PitSettings] (the [from_env] of every service, [pit/db/dsn.py]),
      [Migrate] ([pit/db/migrate.py]), [PitMonitor] ([pit/pit_monitor]),
      [Ntrip] ([pit/ntrip_client]).
    - The live decoder ([pit/live_decoder]): [Limiter], [MqttSink] (the queue
      to the broker and the health page), [LiveService] (messages, reloads and
      the sink, composed). The clocks between laps
      ([pit/timing_extrapolator]): [Extrapolator] (the engine), [ExtraService]
      (messages, ticks, outbox).
    - The timing feed ([pit/timing_feed]): [Framing] (bytes to documents),
      [WebSocket] (frames and messages of a peer),
      [FieldModel] (the standings, lines, flags and statistics of
      [FieldState]), [FieldRuns] (what holds over whole runs of it),
      [FieldShapes] (the snapshots other sources post), [Reconcile] (our laps
      against the official ones) and [FieldService] (the endpoints, the ingest
      loop and the findings table, composed).
    - The watch ([pit/watch]): [Watch] (envelopes, balances, trends and their
      baselines), [WatchEngine] (gate, finding lifecycle, one second of every
      monitor), [WatchService] (ticks, persistence and restart).
    - The notifier ([pit/notifier]): [Notifier] (Grafana's webhook, the alert
      book, the dispatcher with its repeats and retries, the ledger, the
      endpoints) and [NotifierRuns] (runs of them).
    - Session control ([pit/session_control]): [SessionState] (the state
      machine and its stored form), [RacePlan] (the plan file),
      [SessionDatabase] (rows, tables and the queue of writes to retry),
      [SessionQueue] (runs of the queue), [SessionControl] (the controller,
      against the interface [DatabaseRecorder], and the publisher to the car).
      One action reads the clock once and an outcome of the transaction is a
      parameter of the step; a cancelled request is one of its outcomes.

    How state and errors are written. An object is a record, a method a
    function from the record to the record and a result; [res] holds the
    value or the exception raised, so a method that raises still shows the
    state it leaves. Concurrency is explicit: the operations of two threads
    or of a redelivering broker are lists of steps, and theorems quantify over
    every list. A step is one whole handler: the services hold a lock or run
    on one event loop between their awaits, and where a handler hands work to
    a thread (the feed's reconciliation) its step is that work done at once.
    What the outside answers (a broker's ack, a commit, a channel's delivery,
    a clock) is a parameter of the step or a stream the state indexes.
    Loops whose end is not structural take fuel and either a
    theorem gives a sufficient amount ([Pipeline.ingest] by rank,
    [Framing.feed_loop] by bytes) or the source's own bound is the fuel
    ([Strategy.walk_stops]).

    What the theorems show. End to end: what the pit decodes is what the car
    captured ([RegistryCache]), and what the database holds is each batch once
    under ordered delivery ([IngestWriter]), with the orders that break it.
    Timing: the executable engine refines a relation on accepted crossings,
    from which lap validity, splits, numbering and the best lap follow
    ([TimingCore]); the application never loses a fix and re-enters the
    pipeline at most once ([TimingApp]). Fusion: the engine navigates only
    with what it needs, its failovers, outages and alignments balance, it
    raises arithmetic errors only, and dead reckoning ends at the configured
    outage ([EngineRuns]); what the engine is told was observed, what is
    published is paced, and with both applications re-entry is at most three
    deep ([FusionRuns]). How near the filter's estimate is to the truth is
    not stated: its numerics are those of the parameters. Losses are counted: queue, publisher,
    filter, limiter, feed and dispatcher account for every item they do not
    pass on. The agent: every sample a collector put is fed, queued, dropped
    or left by an exception that is counted, a stop that has run leaves
    nothing, restarts are paced, and the lap timer follows the session
    ([AgentRuns]); the publisher's dials are paced, a session that sends has
    its streams, a stop sends what is queued ([PublisherLink]). Live values:
    each is accounted for from batch to broker, leaves in the order it came,
    and stays under one car ([LiveService], [MqttSink]); the newest clock is
    never what a full outbox gives up ([ExtraService]); a lap time shown reads
    back as the time, rounded ([TimingDisplay]). The pit's own: corrections
    reach the car as they were read ([Ntrip]), migrations land once and in
    order whatever races or dies ([Migrate]), a poll of the monitor is stored
    whole or not at all ([PitMonitor]), settings that are accepted name one
    vehicle and protect what is exposed ([PitSettings]). Round trips and bounds: the feed's framing under any
    fragmentation ([Framing]), sessions across restarts ([Session]), the watch
    across restarts ([WatchService]), WebSocket messages under any
    fragmentation ([WebSocket]). The collectors: every line and frame is
    accounted for, what a sentence gives is in range and was not corrupted on
    the way, a configured receiver has acknowledged every command, a power cut
    costs the capture one fsync interval and the capture costs telemetry
    nothing ([Nmea], [Um980], [RawLog], [SerialCollector], [CanCollector]); an
    overlay changes the wiring and nothing else ([Hardware]). The timing feed: no lap row without a
    lap in the standings, the database's view is the standings held, repeated
    documents are silent ([FieldRuns]), foreign snapshots are bounded
    ([FieldShapes]), a committed reconciliation leaves open exactly the
    findings of this pass ([FieldService]). The watch: a finding is one life
    from open to close, a baseline is the first seconds and never moves, a
    closed gate has no opinion ([Watch], [WatchEngine]). Strategy: the stop
    plan never runs a stint past its fuel ([Strategy]), no change of lap, plan
    or session is missed by the polls ([StrategyService]). The notifier: an
    alert's events are whole lives, every message ends delivered, failed,
    expired or queued, the ledger holds what the book remembers
    ([NotifierRuns]). Session control: an answered action is in the database
    or in the queue that retries it, a refused one changes nothing, a restart
    resumes the session the car was told of, and the queue, however its writes
    fail, ends at the newest snapshot ([SessionQueue], [SessionControl]).

    Examples named for the behaviour they show ([..._escapes], [..._leaks],
    and the like) evaluate the model on inputs where the code does something
    its comments or docs do not say.

    Not modelled, with the reason: NATS, MQTT, SQL and HTTP calls (their
    outcomes are parameters of the steps; the retained-catalog scans and the
    subscriptions around them are the messages delivered); the timeouts of
    thread joins; YAML and pydantic parsing; KML files; the watch's whole-car
    monitor (numpy linear algebra, with no contract short of its numerics);
    [fusion/simulate.py] (drives made up for tests); log lines; DBC decoding (a function of each
    message); push-message formats; SQL text; session control's roster, authorisation and worker cap
    (request handling around the modelled actions); static assets and
    [src/tools] (bench scripts that print, plot and shell out). Functions of
    the platform the code relies on (libm, BLAS and LAPACK, [json], [hashlib], [base64],
    [ipaddress], [psycopg.conninfo], the protobuf codec, [fromisoformat]) are
    parameters with the documented laws as hypotheses where a theorem needs
    them. *)

From Stdlib Require Export ZArith Lia Ascii.
From stdpp Require Export base numbers strings pretty gmap list.

Declare Scope py_scope.
Delimit Scope py_scope with py.

(** [x is not None]. *)
Definition is_some {A : Type} (o : option A) : bool := match o with Some _ => true | None => false end.

(** * Exceptions and fallible results *)

(** The classes of the exceptions the source raises or catches by name. *)
Inductive exn_class :=
  | TypeError
  | ValueError
  | KeyError
  | AttributeError
  | AssertionError
  | IndexError
  | OverflowError
  | ZeroDivisionError
  | PacketError
  | ConfigError
  | ConnectionFailure
  | DatabaseError
  | DecodeError
  | DocumentError
  | ShapeError
  | SessionError
  | SessionPersistenceError
  | PlanError
  | PlanUnavailable
  | OSError
  | ConfigurationError
  | RuntimeError.

(** A raised exception: its class and the text [str(exc)] gives. *)
Record exn := Exn { exn_kind : exn_class; exn_msg : string }.

Inductive res (A : Type) :=
  | Ok (a : A)
  | Raise (e : exn).
Arguments Ok {A} _.
Arguments Raise {A} _.

#[export] Instance exn_class_eq_dec : EqDecision exn_class.
Proof. solve_decision. Defined.

#[export] Instance exn_eq_dec : EqDecision exn.
Proof. solve_decision. Defined.

#[export] Instance res_ret : MRet res := fun A a => Ok a.
#[export] Instance res_bind : MBind res :=
  fun A B k r => match r with Ok a => k a | Raise e => Raise e end.
#[export] Instance res_fmap : FMap res :=
  fun A B f r => match r with Ok a => Ok (f a) | Raise e => Raise e end.

Definition raise {A : Type} (c : exn_class) (msg : string) : res A := Raise (Exn c msg).

Definition is_ok {A : Type} (r : res A) : bool :=
  match r with Ok _ => true | Raise _ => false end.

Fixpoint res_map {A B : Type} (f : A -> res B) (l : list A) : res (list B) :=
  match l with
  | [] => Ok []
  | a :: l => b ← f a; bs ← res_map f l; Ok (b :: bs)
  end.

Lemma res_bind_Ok {A B : Type} (r : res A) (k : A -> res B) b :
  (r ≫= k) = Ok b -> exists a, r = Ok a /\ k a = Ok b.
Proof. destruct r as [a|e]; [eauto | discriminate]. Qed.

Lemma res_map_length {A B : Type} (f : A -> res B) l l' :
  res_map f l = Ok l' -> length l' = length l.
Proof.
  revert l'; induction l as [|a l IH]; intros l'; [by intros [= <-]|].
  simpl; intros (b & Hb & (bs & Hbs & [= <-])%res_bind_Ok)%res_bind_Ok.
  simpl; f_equal; auto.
Qed.

Lemma res_map_Forall2 {A B : Type} (f : A -> res B) (P : A -> B -> Prop) l l' :
  (forall a b, f a = Ok b -> P a b) -> res_map f l = Ok l' -> Forall2 P l l'.
Proof.
  intros HP; revert l'; induction l as [|a l IH]; intros l'; simpl; [intros [= <-]; constructor|].
  intros (b & Hb & (bs & Hbs & [= <-])%res_bind_Ok)%res_bind_Ok. constructor; auto.
Qed.

(** * Dictionaries that keep insertion order

    A Python [dict] whose iteration order the source relies on (items are
    emitted or serialised in insertion order): a list of pairs with unique
    keys; assigning to a present key keeps its position. *)
Section OrderedDict.
Context {K V : Type} `{EqDecision K}.

Fixpoint od_get (k : K) (d : list (K * V)) : option V :=
  match d with
  | [] => None
  | (k', v) :: d => if decide (k = k') then Some v else od_get k d
  end.

Fixpoint od_set (k : K) (v : V) (d : list (K * V)) : list (K * V) :=
  match d with
  | [] => [(k, v)]
  | (k', v') :: d => if decide (k = k') then (k', v) :: d else (k', v') :: od_set k v d
  end.

Definition od_del (k : K) (d : list (K * V)) : list (K * V) :=
  filter (fun kv => kv.1 <> k) d.

Definition od_mem (k : K) (d : list (K * V)) : bool :=
  match od_get k d with Some _ => true | None => false end.

Definition od_keys (d : list (K * V)) : list K := d.*1.

Definition od_wf (d : list (K * V)) : Prop := NoDup (od_keys d).

Lemma od_get_set_eq k v d : od_get k (od_set k v d) = Some v.
Proof. induction d as [|[k' v'] d IH]; simpl; repeat (case_decide; simpl); congruence. Qed.

Lemma od_get_set_ne k k' v d : k <> k' -> od_get k (od_set k' v d) = od_get k d.
Proof.
  intros Hne; induction d as [|[k1 v1] d IH]; simpl.
  - by rewrite decide_False.
  - case_decide; simpl; repeat case_decide; congruence.
Qed.

Lemma od_set_set k v w d : od_set k v (od_set k w d) = od_set k v d.
Proof. induction d as [|[k' v'] d IH]; simpl; repeat (case_decide; simpl); congruence. Qed.

Lemma od_get_In k v d : od_get k d = Some v -> (k, v) ∈ d.
Proof.
  induction d as [|[k' v'] d IH]; simpl; [done|].
  case_decide; [intros [= <-]; subst; left | right; auto].
Qed.

Lemma od_get_None k d : od_get k d = None <-> k ∉ od_keys d.
Proof.
  induction d as [|[k' v'] d IH]; simpl; [split; [intros _; apply not_elem_of_nil | done]|].
  rewrite not_elem_of_cons; case_decide; naive_solver.
Qed.

Lemma od_In_get k v d : od_wf d -> (k, v) ∈ d -> od_get k d = Some v.
Proof.
  unfold od_wf, od_keys; induction d as [|[k' v'] d IH]; [by intros _ ?%elem_of_nil|].
  simpl; intros [Hni Hnd]%NoDup_cons [[= -> ->]|Hin]%elem_of_cons; [by rewrite decide_True|].
  rewrite decide_False; [auto|].
  intros ->; apply Hni, list_elem_of_fmap; by exists (k', v).
Qed.

Lemma od_keys_set k v d :
  od_keys (od_set k v d) = if decide (k ∈ od_keys d) then od_keys d else od_keys d ++ [k].
Proof.
  induction d as [|[k' v'] d IH]; simpl; [done|].
  destruct (decide (k = k')) as [->|Hne]; simpl.
  - rewrite decide_True; [done | left].
  - rewrite IH. repeat case_decide; rewrite ->?elem_of_cons in *; naive_solver.
Qed.

Lemma od_set_wf k v d : od_wf d -> od_wf (od_set k v d).
Proof.
  unfold od_wf; rewrite od_keys_set; case_decide; [done|]; intros Hnd.
  apply NoDup_app; repeat split; [done | | apply NoDup_singleton].
  intros x Hx ->%list_elem_of_singleton; done.
Qed.
Lemma od_get_del_eq k d : od_get k (od_del k d) = None.
Proof.
  apply od_get_None. unfold od_keys, od_del. intros ([k' v] & -> & Hin)%list_elem_of_fmap.
  by apply list_elem_of_filter in Hin as [? _].
Qed.

Lemma od_get_del_ne k k' d :
  k <> k' -> od_get k (od_del k' d) = od_get k d.
Proof.
  intros Hne; unfold od_del; induction d as [|[k1 v] d IH]; [done|]. rewrite filter_cons; cbn [fst].
  destruct (decide (k1 <> k')) as [H|H]; cbn [od_get]; [by rewrite IH|].
  rewrite decide_False; [done|]. intros <-; by apply H.
Qed.

Lemma od_del_wf k d : od_wf d -> od_wf (od_del k d).
Proof.
  unfold od_wf, od_keys, od_del; induction d as [|[k1 v] d IH]; [done|]. rewrite filter_cons.
  cbn [fmap list_fmap fst]. intros [Hni Hnd]%NoDup_cons. destruct (decide _); [|by apply IH].
  cbn [fmap list_fmap fst]. apply NoDup_cons; split; [|by apply IH].
  intros ([k2 w] & Hk & Hin)%list_elem_of_fmap. apply Hni, list_elem_of_fmap. exists (k2, w).
  by apply list_elem_of_filter in Hin as [_ Hin].
Qed.
End OrderedDict.

(** * Stable sorting ([list.sort] and [sorted] with a key)

    [ins] places an element before the first one it may precede, so elements
    with equal keys keep their order, which is Python's guarantee. *)
Section StableSort.
Context {A : Type} (leb : A -> A -> bool).

Fixpoint ins (x : A) (l : list A) : list A :=
  match l with
  | [] => [x]
  | y :: l => if leb x y then x :: y :: l else y :: ins x l
  end.

Fixpoint sort_by (l : list A) : list A :=
  match l with
  | [] => []
  | x :: l => ins x (sort_by l)
  end.

Definition leb_total := forall x y, leb x y = true \/ leb y x = true.
Definition leb_trans := forall x y z, leb x y = true -> leb y z = true -> leb x z = true.

Fixpoint sorted_by (l : list A) : Prop :=
  match l with
  | [] => True
  | x :: l => Forall (fun y => leb x y = true) l /\ sorted_by l
  end.

Lemma ins_perm x l : ins x l ≡ₚ x :: l.
Proof.
  induction l as [|y l IH]; simpl; [done|].
  destruct (leb x y); [done|]. rewrite IH; apply Permutation_swap.
Qed.

Lemma sort_by_perm l : sort_by l ≡ₚ l.
Proof. induction l as [|x l IH]; simpl; [done|]. by rewrite ins_perm, IH. Qed.

Lemma sort_by_length l : length (sort_by l) = length l.
Proof. by rewrite sort_by_perm. Qed.

Lemma sort_by_elem x l : x ∈ sort_by l <-> x ∈ l.
Proof. by rewrite sort_by_perm. Qed.

Lemma ins_sorted x l : leb_total -> leb_trans -> sorted_by l -> sorted_by (ins x l).
Proof.
  intros Htot Htr; induction l as [|y l IH]; simpl; [by intros _; split|].
  intros [Hy Hl]; destruct (leb x y) eqn:E; simpl; repeat split; auto.
  - constructor; [done|]. eapply Forall_impl; [exact Hy|]; simpl; eauto.
  - rewrite ins_perm; constructor; [|done].
    destruct (Htot x y); congruence.
Qed.

Lemma sort_by_sorted l : leb_total -> leb_trans -> sorted_by (sort_by l).
Proof. intros Htot Htr; induction l; simpl; [done|]; by apply ins_sorted. Qed.

(** Stability: within a class of mutually comparable keys, order is kept. *)
Lemma ins_filter (P : A -> Prop) `{!forall x, Decision (P x)} x l :
  (forall y, P x -> P y -> leb x y = true) ->
  filter P (ins x l) = filter P (x :: l).
Proof.
  intros HP; induction l as [|y l IH]; [done|]; simpl ins.
  destruct (leb x y) eqn:E; [done|].
  rewrite (filter_cons P y), IH, !filter_cons.
  repeat case_decide; try done.
  by rewrite HP in E.
Qed.

Lemma sort_by_stable (P : A -> Prop) `{!forall x, Decision (P x)} l :
  (forall x y, P x -> P y -> leb x y = true) ->
  filter P (sort_by l) = filter P l.
Proof.
  intros HP; induction l as [|x l IH]; [done|]; simpl sort_by.
  rewrite ins_filter by auto. by rewrite !filter_cons, IH.
Qed.

Lemma sort_by_id l : sorted_by l -> sort_by l = l.
Proof.
  induction l as [|x l IH]; [done|]; simpl; intros [Hx Hl].
  rewrite IH by done. destruct l as [|y l]; [done|]; simpl.
  inversion Hx as [|? ? Hxy ?]; by rewrite Hxy.
Qed.
End StableSort.

(** * Lists *)

(** Python's [l[-n:]] for [n > 0]. *)
Definition last_n {A : Type} (n : nat) (l : list A) : list A := drop (length l - n) l.

Lemma last_n_length {A : Type} n (l : list A) : length (last_n n l) = n `min` length l.
Proof. unfold last_n; rewrite length_drop; lia. Qed.

Lemma last_n_all {A : Type} n (l : list A) : length l <= n -> last_n n l = l.
Proof. intros H; unfold last_n. by replace (length l - n) with 0 by lia. Qed.

(** A bounded queue keeps the last [n], however the rest arrives. *)
Lemma last_n_app {A : Type} n (l k : list A) : last_n n (last_n n l ++ k) = last_n n (l ++ k).
Proof.
  unfold last_n. rewrite !length_app, length_drop.
  destruct (decide (length k < n)) as [Hk|Hk].
  - rewrite !drop_app, drop_drop. rewrite length_drop. f_equal; f_equal; lia.
  - rewrite !drop_app_ge by (rewrite ?length_drop; lia). rewrite length_drop. f_equal; lia.
Qed.

(** Elements told apart by a key. *)
Lemma NoDup_map_inj {A B : Type} (f : A -> B) l x y :
  NoDup (map f l) -> x ∈ l -> y ∈ l -> f x = f y -> x = y.
Proof.
  induction l as [|a l IH]; cbn [map]; [by intros _ ?%elem_of_nil|]. intros [Hni Hnd]%NoDup_cons.
  assert (Hin : forall z, z ∈ l -> f z ∈ map f l) by (intros z Hz; apply list_elem_of_fmap; by exists z).
  intros [->|Hx]%elem_of_cons [->|Hy]%elem_of_cons Heq; [done| | |by apply IH];
    exfalso; apply Hni; [rewrite Heq | rewrite <- Heq]; by apply Hin.
Qed.

(** The element of an option, as a list. *)
Definition opt_list {A : Type} (o : option A) : list A := match o with Some a => [a] | None => [] end.

(** [l[-1]], when there is one. *)
Definition last_opt {A : Type} (l : list A) : option A := last l.

(** * Decimal text

    [pretty] prints an integer as [str] does; the text holds no colon, so a
    ["name:number"] key can be read back. *)
Fixpoint no_colon (s : string) : bool :=
  match s with
  | EmptyString => true
  | String c s => negb (Ascii.eqb c ":"%char) && no_colon s
  end.
Lemma pretty_N_go_no_colon x s : no_colon s = true -> no_colon (pretty_N_go x s) = true.
Proof.
  revert s; induction (N.lt_wf_0 x) as [x _ IH]; intros s Hs.
  destruct (decide (x = 0)%N) as [->|Hx]; [done|].
  rewrite pretty_N_go_step by lia. apply IH.
  - apply N.div_lt; lia.
  - simpl. rewrite Hs, andb_true_r. unfold pretty_N_char. by repeat case_match.
Qed.
Lemma pretty_Z_no_colon (z : Z) : no_colon (pretty z) = true.
Proof.
  assert (HN : forall n : N, no_colon (pretty n) = true).
  { intros n; unfold pretty, pretty_N. case_decide; [done|].
    by apply pretty_N_go_no_colon. }
  destruct z; [done | |]; unfold pretty, pretty_Z; simpl; try apply HN.
Qed.
Lemma colon_split a b x y :
  no_colon x = true -> no_colon y = true ->
  a +:+ ":" +:+ x = b +:+ ":" +:+ y -> a = b /\ x = y.
Proof.
  assert (Hno : forall s t, no_colon (s +:+ String ":"%char t) = false).
  { intros s t; induction s as [|d s IH]; [done|]. change (no_colon (String d s +:+ String ":"%char t))
      with (negb (Ascii.eqb d ":"%char) && no_colon (s +:+ String ":"%char t)).
    by rewrite IH, andb_false_r. }
  change (":" +:+ x) with (String ":"%char x); change (":" +:+ y) with (String ":"%char y).
  revert b; induction a as [|c a IH]; intros [|d b] Hx Hy Heq.
  - by injection Heq as ->.
  - injection Heq as _ ->. by rewrite Hno in Hx.
  - injection Heq as _ <-. by rewrite Hno in Hy.
  - injection Heq as -> Heq. by destruct (IH b Hx Hy Heq) as [-> ->].
Qed.

(** * Text: [str.lower] and [in], on ASCII *)

Definition ascii_lower (c : ascii) : ascii :=
  let n := N_of_ascii c in
  if (65 <=? n)%N && (n <=? 90)%N then ascii_of_N (n + 32) else c.

Fixpoint str_lower (s : string) : string :=
  match s with EmptyString => EmptyString | String c s => String (ascii_lower c) (str_lower s) end.

Fixpoint str_in (sub s : string) : bool :=
  String.prefix sub s || match s with EmptyString => false | String _ s => str_in sub s end.

(** * Tactics shared by the components *)


(** Split on the discriminees of the matches and tests in the goal. *)
Ltac break_step :=
  match goal with
  | |- context [match ?x with _ => _ end] =>
      lazymatch x with context [match _ with _ => _ end] => fail | _ => destruct x eqn:? end
  end.
Ltac breaks := repeat (break_step; simplify_eq/=; try done).

(** The same in a hypothesis. *)
Ltac break_in H :=
  repeat match type of H with
  | context [match ?x with _ => _ end] =>
      lazymatch x with context [match _ with _ => _ end] => fail | _ => destruct x eqn:? end;
      simplify_eq/=; try done
  end.

Create HintDb openlaps.
Create Rewrite HintDb openlaps_rw.
#[export] Hint Resolve od_set_wf od_get_set_eq od_get_In sort_by_perm : openlaps.
#[export] Hint Rewrite @od_get_set_eq @sort_by_length @last_n_length : openlaps_rw.
