(* ===== verification/PyFloat.v ===== *)
(** Python numbers.

    [float] is IEEE-754 binary64, computed by the Standard Library's
    executable [SpecFloat] (no axioms, no primitive floats), so every
    rounding the source performs is performed here; [int] is [Z].  The file
    also holds the conversions the source uses ([int], [float], [round],
    [math.floor], [math.ceil], [min], [max], [/] on ints), dates and
    durations as integer microseconds, and an order theory of floats that
    [forder] decides. *)

From Stdlib Require Export SpecFloat.
From S2P Require Import Prelude.

Local Open Scope Z_scope.

Abbreviation float := spec_float.

(** * Arithmetic: binary64, round to nearest even *)

Definition fadd : float -> float -> float := SFadd 53 1024.
Definition fsub : float -> float -> float := SFsub 53 1024.
Definition fmul : float -> float -> float := SFmul 53 1024.
Definition fdiv_ieee : float -> float -> float := SFdiv 53 1024.
Definition fsqrt : float -> float := SFsqrt 53 1024.
Definition fopp : float -> float := SFopp.
Definition fabs : float -> float := SFabs.

(** Comparisons; every one is false on a NaN. *)
Definition feqb : float -> float -> bool := SFeqb.
Definition fltb : float -> float -> bool := SFltb.
Definition fleb : float -> float -> bool := SFleb.

Definition f0 : float := S754_zero false.
Definition finf : float := S754_infinity false.
Definition fninf : float := S754_infinity true.

Definition is_nan (x : float) : bool := match x with S754_nan => true | _ => false end.
Definition is_finite (x : float) : bool :=
  match x with S754_zero _ | S754_finite _ _ _ => true | _ => false end.

(** Python's [/] on floats: a zero divisor raises. *)
Definition fdiv (x y : float) : res float :=
  match y with
  | S754_zero _ => raise ZeroDivisionError "float division by zero"
  | _ => Ok (fdiv_ieee x y)
  end.

(** The truth value of a float: false exactly for the two zeros. *)
Definition ftruthy (x : float) : bool := match x with S754_zero _ => false | _ => true end.

(** [max(a, b)] and [min(a, b)] keep the first argument unless the second
    compares strictly beyond it. *)
Definition fmax (a b : float) : float := if fltb a b then b else a.
Definition fmin (a b : float) : float := if fltb b a then b else a.

(** The nearest binary64 to an integer (infinite beyond the range). *)
Definition f_of_Z (z : Z) : float := binary_normalize 53 1024 z 0 false.

(** [float(n)] of an int: out of range raises. *)
Definition float_of_int (z : Z) : res float :=
  let x := f_of_Z z in
  if is_finite x then Ok x else raise OverflowError "int too large to convert to float".

(** The nearest binary64 to the quotient of two integers: what a decimal
    literal denotes, and what [/] computes on ints in range. *)
Definition f_of_ratio (n d : Z) : float :=
  match n, d with
  | 0, _ => f0
  | _, Zpos dp =>
      let '(mz, ez, lz) := SFdiv_core_binary 53 1024 (Z.abs n) 0 (Zpos dp) 0 in
      binary_round_aux 53 1024 (n <? 0) mz ez lz
  | _, _ => S754_nan
  end.

(** The decimal literals of a source. *)
Definition lit (n d : Z) : float := f_of_ratio n d.

(** * Exact values: a finite float is [num / 2 ^ den] *)

Definition fnum (x : float) : Z :=
  match x with
  | S754_finite s m e => cond_Zopp s (Zpos m) * 2 ^ Z.max e 0
  | _ => 0
  end.
Definition fden (x : float) : Z :=
  match x with
  | S754_finite _ _ e => 2 ^ Z.max (- e) 0
  | _ => 1
  end.

(** Round-half-to-even of the rational [n / d], [d > 0]. *)
Definition rne_div (n d : Z) : Z :=
  let q := n / d in
  let r := n mod d in
  match 2 * r ?= d with
  | Lt => q
  | Gt => q + 1
  | Eq => if Z.even q then q else q + 1
  end.

(** What every float-to-int conversion does with a non-finite operand. *)
Definition int_guard (x : float) (z : Z) : res Z :=
  match x with
  | S754_nan => raise ValueError "cannot convert float NaN to integer"
  | S754_infinity _ => raise OverflowError "cannot convert float infinity to integer"
  | _ => Ok z
  end.

(** [int(x)], [math.floor(x)], [math.ceil(x)], [round(x)]. *)
Definition f_trunc (x : float) : res Z := int_guard x (Z.quot (fnum x) (fden x)).
Definition f_floor (x : float) : res Z := int_guard x (fnum x / fden x).
Definition f_ceil (x : float) : res Z := int_guard x (- ((- fnum x) / fden x)).
Definition f_round (x : float) : res Z := int_guard x (rne_div (fnum x) (fden x)).

Definition is_integer (x : float) : bool := is_finite x && (fnum x mod fden x =? 0).

Definition fsign (x : float) : bool :=
  match x with
  | S754_zero s | S754_infinity s | S754_finite s _ _ => s
  | S754_nan => false
  end.

(** [round(x, digits)] for [digits >= 0]: the nearest double to the decimal
    nearest to the exact value. *)
Definition f_round_digits (x : float) (digits : Z) : float :=
  match x with
  | S754_finite s _ _ =>
      match rne_div (fnum x * 10 ^ digits) (fden x) with
      | 0 => S754_zero s
      | n => f_of_ratio n (10 ^ digits)
      end
  | _ => x
  end.

(** * Ints and floats together *)

Inductive num :=
  | NInt (z : Z)
  | NFloat (x : float).

Definition num_float (n : num) : res float :=
  match n with NInt z => float_of_int z | NFloat x => Ok x end.

Definition num_sub (a b : num) : res num :=
  match a, b with
  | NInt x, NInt y => Ok (NInt (x - y))
  | _, _ => x ← num_float a; y ← num_float b; Ok (NFloat (fsub x y))
  end.

Definition num_abs (a : num) : num :=
  match a with NInt x => NInt (Z.abs x) | NFloat x => NFloat (fabs x) end.

(** Comparison of an int with a float is exact in Python. *)
Definition Z_cmp_float (z : Z) (x : float) : option comparison :=
  match x with
  | S754_nan => None
  | S754_infinity s => Some (if s then Gt else Lt)
  | _ => Some (z * fden x ?= fnum x)
  end.

Definition num_cmp (a b : num) : option comparison :=
  match a, b with
  | NInt x, NInt y => Some (x ?= y)
  | NFloat x, NFloat y => SFcompare x y
  | NInt x, NFloat y => Z_cmp_float x y
  | NFloat x, NInt y => CompOpp <$> Z_cmp_float y x
  end.

Definition num_leb (a b : num) : bool :=
  match num_cmp a b with Some (Lt | Eq) => true | _ => false end.
Definition num_ltb (a b : num) : bool :=
  match num_cmp a b with Some Lt => true | _ => false end.
Definition num_eqb (a b : num) : bool :=
  match num_cmp a b with Some Eq => true | _ => false end.

(** * Python objects that come out of JSON *)

#[warnings="-register-all"]
Inductive obj :=
  | ONone
  | OBool (b : bool)
  | OInt (z : Z)
  | OFloat (x : float)
  | OStr (s : string)
  | OList (l : list obj)
  | ODict (d : list (string * obj)).

(** [d.get(key)] on a decoded object; an absent key is [None]. *)
Definition ogetd (key : string) (default : obj) (d : list (string * obj)) : obj :=
  match od_get key d with Some v => v | None => default end.
Definition oget (key : string) (d : list (string * obj)) : obj := ogetd key ONone d.

(** The numbers: [isinstance(v, (int, float)) and not isinstance(v, bool)]. *)
Definition obj_num (v : obj) : option num :=
  match v with OInt z => Some (NInt z) | OFloat x => Some (NFloat x) | _ => None end.

(** [bool(v)]. *)
Definition obj_truthy (v : obj) : bool :=
  match v with
  | ONone => false
  | OBool b => b
  | OInt z => negb (z =? 0)
  | OFloat x => ftruthy x
  | OStr s => negb (String.eqb s "")
  | OList l => match l with [] => false | _ => true end
  | ODict d => match d with [] => false | _ => true end
  end.

(** * Dates and durations: integer microseconds *)

(** The fractional part [math.modf] gives, exact. *)
Definition f_modf (x : float) : Z * float :=
  let i := Z.quot (fnum x) (fden x) in
  (i, fsub x (f_of_Z i)).

(** [timedelta(seconds=x)]: the whole seconds exactly, the fraction scaled in
    binary64 and rounded half to even; a magnitude of more than 999999999
    days raises. *)
Definition seconds_us (x : float) : res Z :=
  let '(i, frac) := f_modf x in
  us ← f_round (fmul (f_of_Z 1000000) frac);
  int_guard x (i * 1000000 + us).

Definition timedelta_us (x : float) : res Z :=
  us ← seconds_us x;
  if Z.abs us <=? 999999999 * 86400 * 1000000 then Ok us
  else raise OverflowError "days out of range".

(** [timedelta.total_seconds()], and [datetime.timestamp()] of an aware date. *)
Definition total_seconds (us : Z) : float := f_of_ratio us 1000000.

(** The years 1 to 9999, in microseconds since the epoch. *)
Definition datetime_min_us : Z := -62135596800 * 1000000.
Definition datetime_max_us : Z := 253402300800 * 1000000 - 1.

(** [datetime.fromtimestamp(x, tz=UTC)], in microseconds since the epoch. *)
Definition fromtimestamp (x : float) : res Z :=
  us ← seconds_us x;
  if (datetime_min_us <=? us) && (us <=? datetime_max_us) then Ok us
  else raise ValueError "year is out of range".

(** * The order of floats

    Every comparison is the lexicographic order of three integers, so a
    linear-arithmetic decision procedure settles any goal about
    comparisons. *)

Definition kclass (x : float) : Z :=
  match x with
  | S754_infinity true => -2
  | S754_finite true _ _ => -1
  | S754_zero _ | S754_nan => 0
  | S754_finite false _ _ => 1
  | S754_infinity false => 2
  end.
Definition kexp (x : float) : Z :=
  match x with S754_finite s _ e => cond_Zopp s e | _ => 0 end.
Definition kman (x : float) : Z :=
  match x with S754_finite s m _ => cond_Zopp s (Zpos m) | _ => 0 end.

Definition lex_ltb (a b c a' b' c' : Z) : bool :=
  (a <? a') || ((a =? a') && ((b <? b') || ((b =? b') && (c <? c')))).
Definition lex_eqb (a b c a' b' c' : Z) : bool := (a =? a') && (b =? b') && (c =? c').

(** Split a goal on every integer comparison it mentions. *)
Ltac zcases :=
  repeat match goal with
  | |- context [Z.ltb ?a ?b] => destruct (Z.ltb_spec a b)
  | |- context [Z.eqb ?a ?b] => destruct (Z.eqb_spec a b)
  | |- context [Z.leb ?a ?b] => destruct (Z.leb_spec a b)
  end.

Lemma lex_compare b c b' c' :
  match b ?= b' with Eq => c ?= c' | r => r end =
  if (b <? b') || ((b =? b') && (c <? c')) then Lt
  else if (b =? b') && (c =? c') then Eq else Gt.
Proof.
  destruct (Z.compare_spec b b'); [destruct (Z.compare_spec c c')|..];
    zcases; try reflexivity; lia.
Qed.

Lemma compare_lex (x y : float) :
  SFcompare x y =
  if is_nan x || is_nan y then None
  else if lex_ltb (kclass x) (kexp x) (kman x) (kclass y) (kexp y) (kman y) then Some Lt
  else if lex_eqb (kclass x) (kexp x) (kman x) (kclass y) (kexp y) (kman y) then Some Eq
  else Some Gt.
Proof.
  unfold lex_ltb, lex_eqb.
  destruct x as [[]|[]| |[] mx ex], y as [[]|[]| |[] my ey]; try reflexivity;
    cbn [is_nan orb kexp kman].
  - pose proof (lex_compare (- ex) (Zneg mx) (- ey) (Zneg my)) as E.
    rewrite Z.compare_opp in E.
    change (Zneg mx ?= Zneg my) with (CompOpp (PosDef.Pos.compare_cont Eq mx my)) in E.
    rewrite (Z.compare_antisym ex ey) in E.
    change (kclass (S754_finite true mx ex)) with (-1);
      change (kclass (S754_finite true my ey)) with (-1); cbn [cond_Zopp].
    change (- Zpos mx) with (Zneg mx); change (- Zpos my) with (Zneg my).
    change (-1 <? -1) with false; change (-1 =? -1) with true; cbn [orb andb SFcompare].
    revert E; repeat match goal with |- context [if ?b then _ else _] => destruct b end;
      destruct (ex ?= ey); simpl; congruence.
  - pose proof (lex_compare ex (Zpos mx) ey (Zpos my)) as E.
    change (Zpos mx ?= Zpos my) with (PosDef.Pos.compare_cont Eq mx my) in E.
    change (kclass (S754_finite false mx ex)) with 1;
      change (kclass (S754_finite false my ey)) with 1; cbn [cond_Zopp].
    change (1 <? 1) with false; change (1 =? 1) with true; cbn [orb andb SFcompare].
    revert E; repeat match goal with |- context [if ?b then _ else _] => destruct b end;
      destruct (ex ?= ey); simpl; congruence.
Qed.

Lemma fltb_lex x y :
  fltb x y = negb (is_nan x) && negb (is_nan y)
             && lex_ltb (kclass x) (kexp x) (kman x) (kclass y) (kexp y) (kman y).
Proof.
  unfold fltb, SFltb; rewrite compare_lex.
  destruct (is_nan x), (is_nan y); try reflexivity; simpl.
  destruct (lex_ltb _ _ _ _ _ _); [reflexivity|]. by destruct (lex_eqb _ _ _ _ _ _).
Qed.

Lemma feqb_lex x y :
  feqb x y = negb (is_nan x) && negb (is_nan y)
             && lex_eqb (kclass x) (kexp x) (kman x) (kclass y) (kexp y) (kman y).
Proof.
  unfold feqb, SFeqb; rewrite compare_lex; unfold lex_ltb, lex_eqb.
  destruct (is_nan x), (is_nan y); try reflexivity; simpl.
  destruct (Z.ltb_spec (kclass x) (kclass y)), (Z.eqb_spec (kclass x) (kclass y)),
    (Z.ltb_spec (kexp x) (kexp y)), (Z.eqb_spec (kexp x) (kexp y)),
    (Z.ltb_spec (kman x) (kman y)), (Z.eqb_spec (kman x) (kman y)); simpl; try reflexivity; lia.
Qed.

Lemma fleb_lex x y :
  fleb x y = negb (is_nan x) && negb (is_nan y)
             && negb (lex_ltb (kclass y) (kexp y) (kman y) (kclass x) (kexp x) (kman x)).
Proof.
  unfold fleb, SFleb; rewrite compare_lex; unfold lex_ltb, lex_eqb.
  destruct (is_nan x), (is_nan y); try reflexivity; simpl.
  destruct (Z.ltb_spec (kclass x) (kclass y)), (Z.eqb_spec (kclass x) (kclass y)),
    (Z.ltb_spec (kexp x) (kexp y)), (Z.eqb_spec (kexp x) (kexp y)),
    (Z.ltb_spec (kman x) (kman y)), (Z.eqb_spec (kman x) (kman y)); simpl;
  repeat match goal with |- context [Z.ltb ?a ?b] => destruct (Z.ltb_spec a b) end;
  repeat match goal with |- context [Z.eqb ?a ?b] => destruct (Z.eqb_spec a b) end;
  simpl; try reflexivity; lia.
Qed.

Definition lex_lt (x y : float) : Prop :=
  kclass x < kclass y \/ kclass x = kclass y /\
  (kexp x < kexp y \/ kexp x = kexp y /\ kman x < kman y).

Lemma lex_ltb_lt x y :
  lex_ltb (kclass x) (kexp x) (kman x) (kclass y) (kexp y) (kman y) = true <-> lex_lt x y.
Proof. unfold lex_ltb, lex_lt. rewrite !orb_true_iff, !andb_true_iff, !orb_true_iff, !andb_true_iff. lia. Qed.

Definition numeric (x : float) : Prop := is_nan x = false.

Lemma fltb_true x y : fltb x y = true <-> numeric x /\ numeric y /\ lex_lt x y.
Proof. rewrite fltb_lex, !andb_true_iff, lex_ltb_lt, !negb_true_iff; unfold numeric; tauto. Qed.

Lemma fltb_false x y : fltb x y = false <-> ~ (numeric x /\ numeric y /\ lex_lt x y).
Proof. rewrite <- fltb_true; by destruct (fltb x y). Qed.

Lemma fleb_true x y : fleb x y = true <-> numeric x /\ numeric y /\ ~ lex_lt y x.
Proof.
  rewrite fleb_lex, !andb_true_iff, !negb_true_iff, <- lex_ltb_lt, not_true_iff_false.
  unfold numeric; tauto.
Qed.

Lemma fleb_false x y : fleb x y = false <-> ~ (numeric x /\ numeric y /\ ~ lex_lt y x).
Proof. rewrite <- fleb_true; by destruct (fleb x y). Qed.

Lemma feqb_true x y :
  feqb x y = true <-> numeric x /\ numeric y /\ ~ lex_lt x y /\ ~ lex_lt y x.
Proof.
  rewrite feqb_lex, !andb_true_iff, !negb_true_iff; unfold lex_eqb, lex_lt, numeric.
  rewrite !andb_true_iff, !Z.eqb_eq. intuition lia.
Qed.

Lemma feqb_false x y :
  feqb x y = false <-> ~ (numeric x /\ numeric y /\ ~ lex_lt x y /\ ~ lex_lt y x).
Proof. rewrite <- feqb_true; by destruct (feqb x y). Qed.

(** Decide a goal about float comparisons from comparisons in the context. *)
Ltac forder_prep :=
  repeat match goal with
  | H : fltb _ _ = true |- _ => apply fltb_true in H
  | H : fltb _ _ = false |- _ => apply fltb_false in H
  | H : fleb _ _ = true |- _ => apply fleb_true in H
  | H : fleb _ _ = false |- _ => apply fleb_false in H
  | H : feqb _ _ = true |- _ => apply feqb_true in H
  | H : feqb _ _ = false |- _ => apply feqb_false in H
  | |- fltb _ _ = true => apply fltb_true
  | |- fltb _ _ = false => apply fltb_false
  | |- fleb _ _ = true => apply fleb_true
  | |- fleb _ _ = false => apply fleb_false
  | |- feqb _ _ = true => apply feqb_true
  | |- feqb _ _ = false => apply feqb_false
  end; unfold lex_lt, numeric in *.
Ltac forder := forder_prep; intuition (congruence || lia).

Lemma fltb_irrefl x : fltb x x = false.
Proof. forder. Qed.

Lemma fltb_trans x y z : fltb x y = true -> fltb y z = true -> fltb x z = true.
Proof. intros; forder. Qed.

Lemma fleb_trans x y z : fleb x y = true -> fleb y z = true -> fleb x z = true.
Proof. intros; forder. Qed.

Lemma fleb_refl x : is_nan x = false -> fleb x x = true.
Proof. intros; forder. Qed.

Lemma fltb_fleb x y : fltb x y = true -> fleb x y = true.
Proof. intros; forder. Qed.

Lemma fleb_total x y : is_nan x = false -> is_nan y = false -> fleb x y = true \/ fleb y x = true.
Proof. intros; destruct (fleb x y) eqn:?; [by left | right; forder]. Qed.

Lemma fltb_nan_l x y : fltb x y = true -> is_nan x = false /\ is_nan y = false.
Proof. intros; split; forder. Qed.

Lemma fleb_nan_l x y : fleb x y = true -> is_nan x = false /\ is_nan y = false.
Proof. intros; split; forder. Qed.

Lemma not_fltb_fleb x y :
  is_nan x = false -> is_nan y = false -> fltb x y = false -> fleb y x = true.
Proof. intros; forder. Qed.

Lemma fmax_nan a b : is_nan a = false -> is_nan b = false -> is_nan (fmax a b) = false.
Proof. unfold fmax; by destruct (fltb a b). Qed.

Lemma fmax_ge_l a b : is_nan a = false -> fleb a (fmax a b) = true.
Proof. unfold fmax; intros; destruct (fltb a b) eqn:?; forder. Qed.

Lemma fmax_ge_r a b : is_nan a = false -> is_nan b = false -> fleb b (fmax a b) = true.
Proof. unfold fmax; intros; destruct (fltb a b) eqn:?; forder. Qed.

Lemma fmin_le_l a b : is_nan a = false -> fleb (fmin a b) a = true.
Proof. unfold fmin; intros; destruct (fltb b a) eqn:?; forder. Qed.

Lemma fmin_le_r a b : is_nan a = false -> is_nan b = false -> fleb (fmin a b) b = true.
Proof. unfold fmin; intros; destruct (fltb b a) eqn:?; forder. Qed.

Lemma f0_not_nan : is_nan f0 = false.
Proof. done. Qed.

(** * Signs and NaNs of results

    Rounding never makes a NaN and never changes the sign, so the sign rules
    of the exact operations carry over. *)

Lemma iter_pos_ind {A : Type} (P : A -> Prop) (f : A -> A) (n : positive) (x : A) :
  (forall y, P y -> P (f y)) -> P x -> P (SpecFloat.iter_pos f n x).
Proof. intros Hf; revert x; induction n; simpl; auto. Qed.

Lemma shr_nonneg mrs e n : 0 <= shr_m mrs -> 0 <= shr_m (shr mrs e n).1.
Proof.
  intros Hm; destruct n; simpl; [done| |done].
  apply (iter_pos_ind (fun r => 0 <= shr_m r)); [|done].
  intros [[|[]|] r s]; simpl; lia.
Qed.

Lemma shr_fexp_nonneg m e l : 0 <= m -> 0 <= shr_m (shr_fexp 53 1024 m e l).1.
Proof. intros Hm; apply shr_nonneg. destruct l as [|[]]; simpl; lia. Qed.

Lemma binary_round_aux_ok s m e l :
  0 <= m ->
  is_nan (binary_round_aux 53 1024 s m e l) = false /\ fsign (binary_round_aux 53 1024 s m e l) = s.
Proof.
  intros Hm; unfold binary_round_aux.
  pose proof (shr_fexp_nonneg m e l Hm) as H1. destruct (shr_fexp 53 1024 m e l) as [r e1]; simpl in H1.
  assert (Hr : 0 <= round_nearest_even (shr_m r) (loc_of_shr_record r)).
  { unfold round_nearest_even; destruct (loc_of_shr_record r) as [|[]]; try lia.
    destruct (Z.even _); lia. }
  pose proof (shr_fexp_nonneg _ e1 loc_Exact Hr) as H2.
  destruct (shr_fexp _ _ _ e1 _) as [r2 e2]; simpl in H2.
  destruct (shr_m r2); [done| |lia]. by destruct (_ <=? _).
Qed.

Lemma binary_round_ok s m e :
  is_nan (binary_round 53 1024 s m e) = false /\ fsign (binary_round 53 1024 s m e) = s.
Proof.
  unfold binary_round; destruct (shl_align _ _ _). by apply binary_round_aux_ok.
Qed.

Definition finite (x : float) : Prop := is_finite x = true.

Lemma fmul_ok x y :
  finite x -> finite y -> is_nan (fmul x y) = false /\ fsign (fmul x y) = xorb (fsign x) (fsign y).
Proof.
  unfold finite, fmul, SFmul; destruct x as [s|s| |s m e], y as [s'|s'| |s' m' e']; try done.
  intros _ _. by apply binary_round_aux_ok.
Qed.

Lemma fmul_sign x y :
  is_nan (fmul x y) = true \/ fsign (fmul x y) = xorb (fsign x) (fsign y).
Proof.
  unfold fmul, SFmul; destruct x as [s|s| |s m e], y as [s'|s'| |s' m' e']; try (by left); try (by right).
  right; by apply binary_round_aux_ok.
Qed.

Lemma div_core_nonneg m1 e1 m2 e2 :
  0 <= m1 -> 0 <= (SFdiv_core_binary 53 1024 m1 e1 (Zpos m2) e2).1.1.
Proof.
  intros H1; unfold SFdiv_core_binary.
  set (m0 := match _ - _ with Zneg _ => _ | _ => _ end).
  assert (Hm : 0 <= m0).
  { unfold m0; destruct (_ - _); try lia. rewrite Z.shiftl_nonneg; lia. }
  pose proof (Z_div_pos m0 (Zpos m2) ltac:(lia) Hm) as Hq. unfold Z.div in Hq.
  by destruct (Z.div_eucl m0 (Zpos m2)) as [q r].
Qed.

(** A quotient of integers is a number with the quotient's sign. *)
Lemma f_of_ratio_ok n d :
  0 < d -> is_nan (f_of_ratio n d) = false /\ fsign (f_of_ratio n d) = (n <? 0).
Proof.
  destruct d as [|d|]; [lia| |lia]. intros _; unfold f_of_ratio.
  destruct n as [|n|n]; [done|..];
    pose proof (div_core_nonneg (Zpos n) 0 d 0 ltac:(lia)) as Hq; cbn [Z.abs];
    destruct (SFdiv_core_binary _ _ _ _ _ _) as [[q e] l]; by apply binary_round_aux_ok.
Qed.

Lemma fdiv_sign x y :
  is_nan (fdiv_ieee x y) = true \/ fsign (fdiv_ieee x y) = xorb (fsign x) (fsign y).
Proof.
  unfold fdiv_ieee, SFdiv; destruct x as [s|s| |s m e], y as [s'|s'| |s' m' e']; try (by left); try (by right).
  right. pose proof (div_core_nonneg (Zpos m) e m' e' ltac:(lia)) as Hq.
  destruct (SFdiv_core_binary _ _ _ _ _ _) as [[q e1] l]. by apply binary_round_aux_ok.
Qed.

Lemma fdiv_numeric x y :
  finite x -> is_nan y = false -> feqb y f0 = false -> is_nan (fdiv_ieee x y) = false.
Proof.
  unfold finite, fdiv_ieee, SFdiv; destruct x as [s|s| |s m e], y as [s'|s'| |s' m' e']; try done.
  intros _ _ _. pose proof (div_core_nonneg (Zpos m) e m' e' ltac:(lia)) as Hq.
  destruct (SFdiv_core_binary _ _ _ _ _ _) as [[q e1] l]. by apply binary_round_aux_ok.
Qed.

(** Sums of numbers that are not negative. *)
Lemma fadd_nonneg x y :
  is_nan x = false -> fsign x = false -> fleb f0 y = true ->
  is_nan (fadd x y) = false /\ fsign (fadd x y) = false.
Proof.
  unfold fadd, SFadd; destruct x as [s|s| |s m e], y as [[]|[]| |[] m' e']; simpl; try done;
    intros _ -> _; try done.
  apply (binary_round_ok false).
Qed.

Lemma fadd_numeric x y : is_nan x = false -> finite y -> is_nan (fadd x y) = false.
Proof.
  unfold fadd, SFadd, finite; destruct x as [s|s| |s m e], y as [s'|s'| |s' m' e']; try done; intros _ _;
    [by destruct s, s'|].
  unfold binary_normalize. match goal with |- context [match ?z with Z0 => _ | Zpos _ => _ | Zneg _ => _ end] => destruct z end; [done|by apply binary_round_ok..].
Qed.

(** The delay after this one: doubled, up to a maximum. *)
Definition doubled (delay most : float) : float := fmin (fmul delay (f_of_Z 2)) most.

Lemma doubled_bounded delay most : fleb delay most = true -> fleb (doubled delay most) most = true.
Proof.
  intros H. pose proof (fleb_nan_l _ _ H) as [Hd Hm]. apply fmin_le_r; [|done].
  destruct (is_finite delay) eqn:E; [by apply fmul_ok|]. by destruct delay as [|[]| |].
Qed.

Lemma fsqrt_sign x : fsign x = false -> is_nan (fsqrt x) = true \/ fsign (fsqrt x) = false.
Proof.
  unfold fsqrt, SFsqrt; destruct x as [s|s| |s m e]; simpl; try (by right); intros ->; try (by left); try (by right).
  right. unfold SFsqrt_core_binary.
  set (m0 := match _ - _ with Zneg _ => _ | _ => _ end).
  pose proof (Z.sqrt_nonneg m0) as Hq. rewrite <- Z.sqrtrem_sqrt in Hq.
  destruct (Z.sqrtrem m0) as [q r]. by apply binary_round_aux_ok.
Qed.

Lemma sign_nonneg x : is_nan x = false -> fsign x = false -> fleb f0 x = true.
Proof. destruct x as [[]|[]| |[] m e]; done. Qed.

Lemma fnum_nonneg x : fsign x = false -> 0 <= fnum x.
Proof. destruct x as [s|s| |s m e]; simpl; try lia. intros ->; simpl. apply Z.mul_nonneg_nonneg; lia. Qed.

Lemma fden_pos x : 0 < fden x.
Proof. destruct x as [s|s| |s m e]; simpl; try lia. Qed.

Lemma f_trunc_nonneg x z : fsign x = false -> f_trunc x = Ok z -> 0 <= z.
Proof.
  intros Hs; pose proof (fnum_nonneg _ Hs). pose proof (fden_pos x). unfold f_trunc, int_guard.
  assert (0 <= Z.quot (fnum x) (fden x)) by (apply Z.quot_pos; lia).
  destruct x; try done; by intros [= <-].
Qed.

Lemma f_of_Z_sign z : 0 <= z -> is_nan (f_of_Z z) = false /\ fsign (f_of_Z z) = false.
Proof.
  unfold f_of_Z, binary_normalize; destruct z; [done| |lia]. intros _; apply binary_round_ok.
Qed.

Lemma float_of_int_sign z x : 0 <= z -> float_of_int z = Ok x -> fsign x = false.
Proof.
  unfold float_of_int; destruct (is_finite (f_of_Z z)); [|done]. intros Hz [= <-].
  by apply f_of_Z_sign.
Qed.

(** ** Integers a double holds *)

Lemma digits2_iter_xO m n : digits2_pos (Pos.iter xO m n) = (digits2_pos m + n)%positive.
Proof.
  induction n as [|n IH] using Pos.peano_ind; [cbn; lia|]. rewrite Pos.iter_succ. cbn. rewrite IH. lia.
Qed.

Lemma iter_xO_value m n : Z.pos (Pos.iter xO m n) = Z.pos m * 2 ^ Z.pos n.
Proof.
  induction n as [|n IH] using Pos.peano_ind; [cbn; lia|]. rewrite Pos.iter_succ.
  replace (Z.pos (Pos.succ n)) with (Z.succ (Z.pos n)) by lia. rewrite Z.pow_succ_r by lia.
  change (Z.pos (Pos.iter xO m n)~0) with (2 * Z.pos (Pos.iter xO m n)). lia.
Qed.

Lemma digits2_bound m : Z.pos m < 2 ^ Z.pos (digits2_pos m) /\ 2 ^ (Z.pos (digits2_pos m) - 1) <= Z.pos m.
Proof.
  induction m as [m [IH IH']|m [IH IH']|]; [| |cbn; lia]; cbn [digits2_pos];
    replace (Z.pos (Pos.succ (digits2_pos m)) - 1) with (Z.succ (Z.pos (digits2_pos m) - 1)) by lia;
    replace (Z.pos (Pos.succ (digits2_pos m))) with (Z.succ (Z.pos (digits2_pos m))) by lia;
    rewrite !Z.pow_succ_r by lia; lia.
Qed.

(** A mantissa that fits is kept as it is. *)
Lemma round_aux_exact s m e :
  Z.pos (digits2_pos m) = 53 -> -1074 <= e <= 971 ->
  binary_round_aux 53 1024 s (Z.pos m) e loc_Exact = S754_finite s m e.
Proof.
  intros Hd He.
  assert (H : shr_fexp 53 1024 (Z.pos m) e loc_Exact = ({| shr_m := Z.pos m; shr_r := false; shr_s := false |}, e)).
  { unfold shr_fexp, fexp, emin. cbn [Zdigits2 shr_record_of_loc]. rewrite Hd.
    replace (Z.max (53 + e - 53) (3 - 1024 - 53) - e) with 0 by lia. done. }
  unfold binary_round_aux. rewrite H. cbn [shr_m loc_of_shr_record round_nearest_even]. rewrite H. cbn [shr_m].
  by rewrite (proj2 (Z.leb_le e (1024 - 53))) by lia.
Qed.

Lemma f_of_Z_finite s p :
  Z.pos p < 2 ^ 53 -> let d := Z.pos (digits2_pos p) in
  exists m, binary_round 53 1024 s p 0 = S754_finite s m (d - 53) /\ d <= 53 /\ Z.pos m = Z.pos p * 2 ^ (53 - d).
Proof.
  intros Hp d. assert (Hd : d <= 53).
  { destruct (Z.le_gt_cases d 53); [done|]. pose proof (digits2_bound p) as [_ H1].
    assert (2 ^ 53 <= 2 ^ (d - 1)) by (apply Z.pow_le_mono_r; lia). fold d in H1. lia. }
  assert (E : fexp 53 1024 (d + 0) = d - 53) by (unfold fexp, emin; lia).
  unfold binary_round. fold d. rewrite E. unfold shl_align. rewrite Z.sub_0_r.
  destruct (d - 53) as [|q|q] eqn:Eq; [| lia |].
  - exists p. rewrite round_aux_exact by (fold d; lia). replace (53 - d) with 0 by lia. split_and!; [done|lia|lia].
  - exists (Pos.iter xO p q). rewrite round_aux_exact; [|rewrite digits2_iter_xO; fold d; lia|lia].
    rewrite iter_xO_value. replace (53 - d) with (Z.pos q) by lia. split_and!; [done|lia|done].
Qed.

(** An integer below [2 ^ 53] is a double, and converts back to itself. *)
Lemma f_of_Z_exact z :
  Z.abs z < 2 ^ 53 ->
  is_finite (f_of_Z z) = true /\ fnum (f_of_Z z) = z * fden (f_of_Z z).
Proof.
  intros Hz. unfold f_of_Z, binary_normalize. destruct z as [|p|p]; [done| |];
    [destruct (f_of_Z_finite false p) as (m & -> & Hd & Hm)|destruct (f_of_Z_finite true p) as (m & -> & Hd & Hm)]; try lia;
    (split; [done|]); cbn [fnum fden cond_Zopp]; rewrite Hm;
    replace (Z.max (Z.pos (digits2_pos p) - 53) 0) with 0 by lia;
    replace (Z.max (- (Z.pos (digits2_pos p) - 53)) 0) with (53 - Z.pos (digits2_pos p)) by lia; lia.
Qed.

Lemma f_of_Z_trunc z : Z.abs z < 2 ^ 53 -> is_integer (f_of_Z z) = true /\ f_trunc (f_of_Z z) = Ok z.
Proof.
  intros [Hf Hn]%f_of_Z_exact. pose proof (fden_pos (f_of_Z z)). unfold is_integer, f_trunc. rewrite Hf, Hn.
  rewrite Z.mod_mul, Z.quot_mul by lia. split; [done|]. unfold int_guard. by destruct (f_of_Z z).
Qed.

(** A product of numbers that are not negative is not negative, or a NaN. *)
Lemma fmul_nonneg x y :
  fleb f0 x = true -> fleb f0 y = true -> is_nan (fmul x y) = true \/ fleb f0 (fmul x y) = true.
Proof.
  intros Hx Hy. destruct (is_nan (fmul x y)) eqn:En; [by left | right].
  destruct x as [[]|[]| |[] m e], y as [[]|[]| |[] m' e']; try done.
  apply sign_nonneg; [done|]. by destruct (fmul_sign (S754_finite false m e) (S754_finite false m' e')) as [H|H];
    [rewrite En in H|].
Qed.

(** * Python's [==] on the fields of dataclasses and models

    Numbers compare as numbers ([-0.0 == 0.0], a NaN differs from itself). *)
Class PyEq (A : Type) := py_eqb : A -> A -> bool.
#[export] Instance float_pyeq : PyEq float := feqb.
#[export] Instance string_pyeq : PyEq string := String.eqb.
#[export] Instance bool_pyeq : PyEq bool := Bool.eqb.
#[export] Instance Z_pyeq : PyEq Z := Z.eqb.
#[export] Instance option_pyeq {A : Type} `{PyEq A} : PyEq (option A) := fun a b =>
  match a, b with None, None => true | Some a, Some b => py_eqb a b | _, _ => false end.
#[export] Instance prod_pyeq {A B : Type} `{PyEq A} `{PyEq B} : PyEq (A * B) :=
  fun a b => py_eqb a.1 b.1 && py_eqb a.2 b.2.
#[export] Instance list_pyeq {A : Type} `{PyEq A} : PyEq (list A) := fix go l m :=
  match l, m with [], [] => true | a :: l, b :: m => py_eqb a b && go l m | _, _ => false end.

(** The values [==] holds of themselves: those without a NaN. *)
Definition py_refl {A : Type} `{PyEq A} (a : A) : Prop := py_eqb a a = true.

Lemma float_refl (x : float) : is_nan x = false -> py_refl x.
Proof. intros H; unfold py_refl, py_eqb, float_pyeq. forder. Qed.
Lemma string_refl (s : string) : py_refl s.
Proof. apply String.eqb_refl. Qed.
Lemma bool_refl (b : bool) : py_refl b.
Proof. by destruct b. Qed.
Lemma Z_refl (z : Z) : py_refl z.
Proof. apply Z.eqb_refl. Qed.
Lemma option_refl {A : Type} `{PyEq A} (o : option A) : (forall a, o = Some a -> py_refl a) -> py_refl o.
Proof. destruct o as [a|]; [intros Ha; by apply (Ha a) | done]. Qed.
Lemma pair_refl {A B : Type} `{PyEq A} `{PyEq B} (a : A) (b : B) : py_refl a -> py_refl b -> py_refl (a, b).
Proof. intros Ha Hb. apply andb_true_iff; by split. Qed.
#[export] Hint Resolve string_refl bool_refl Z_refl pair_refl : openlaps.

#[export] Hint Resolve fltb_irrefl fleb_refl fltb_fleb fmax_nan f0_not_nan : openlaps.
