(* ===== verification/Stats.v ===== *)
(** The parts of Python's [statistics] and [math] the strategy arithmetic
    uses, on binary64: [fsum], [fmean], [median], [stdev], the built-in [sum]
    of floats, and fixed-point formatting.

    [fsum] and [stdev] are exact until their one final rounding, which is what
    CPython computes; sums are kept as a numerator and a denominator. *)

From S2P Require Import Prelude PyFloat.

Local Open Scope Z_scope.

(** * Exact sums *)

Definition q_add (a b : Z * Z) : Z * Z := (a.1 * b.2 + b.1 * a.2, a.2 * b.2).
Definition q_of (x : float) : Z * Z := (fnum x, fden x).
Definition q_sum (l : list float) : Z * Z := fold_left (fun acc x => q_add acc (q_of x)) l (0, 1).

(** [math.fsum]: exact on finite data; infinities and NaNs are summed on the
    side, and opposite infinities raise. *)
Definition fsum (l : list float) : res float :=
  if forallb is_finite l then
    let '(n, d) := q_sum l in
    let x := f_of_ratio n d in
    if is_finite x then Ok x else raise OverflowError "intermediate overflow in fsum"
  else
    let special := List.filter (fun x => negb (is_finite x)) l in
    let infinite := List.filter (fun x => negb (is_nan x)) special in
    if is_nan (fold_left fadd infinite f0) then raise ValueError "-inf + inf in fsum"
    else Ok (fold_left fadd special f0).

(** [statistics.fmean]. *)
Definition fmean (l : list float) : res float :=
  total ← fsum l;
  match l with
  | [] => raise ValueError "fmean requires at least one data point"
  | _ => n ← float_of_int (Z.of_nat (length l)); fdiv total n
  end.

(** [statistics.median]. *)
Definition median (l : list float) : res float :=
  let sorted := sort_by (fun a b => negb (fltb b a)) l in
  let n := length l in
  match n with
  | O => raise ValueError "no median for empty data"
  | _ =>
      if Nat.odd n then Ok (nth (n / 2) sorted f0)
      else Ok (fdiv_ieee (fadd (nth (n / 2 - 1) sorted f0) (nth (n / 2) sorted f0)) (f_of_Z 2))
  end.

(** * The square root of a fraction, rounded once *)

Definition bit_length (z : Z) : Z := if z =? 0 then 0 else Z.log2 (Z.abs z) + 1.

Definition _integer_sqrt_of_frac_rto (n m : Z) : Z :=
  let a := Z.sqrt (n / m) in
  Z.lor a (if a * a * m =? n then 0 else 1).

Definition _float_sqrt_of_frac (n m : Z) : res float :=
  let q := (bit_length n - bit_length m - 109) / 2 in
  let '(numerator, denominator) :=
    if 0 <=? q then (Z.shiftl (_integer_sqrt_of_frac_rto n (Z.shiftl m (2 * q))) q, 1)
    else (_integer_sqrt_of_frac_rto (Z.shiftl n (-2 * q)) m, Z.shiftl 1 (- q)) in
  let x := f_of_ratio numerator denominator in
  if is_finite x then Ok x else raise OverflowError "integer division result too large for a float".

(** [statistics.stdev] of at least two points. *)
Definition stdev (l : list float) : res float :=
  let n := Z.of_nat (length l) in
  if n <? 2 then raise ValueError "stdev requires at least two data points"
  else if negb (forallb is_finite l) then raise AttributeError "'float' object has no attribute 'numerator'"
  else
    let '(sn, sd) := q_sum l in
    let '(xn, xd) := fold_left (fun acc x => q_add acc (fnum x * fnum x, fden x * fden x)) l (0, 1) in
    (* (n * sum of squares - square of the sum) / (n * (n - 1)) *)
    let num := n * xn * (sd * sd) - sn * sn * xd in
    let den := xd * (sd * sd) * (n * (n - 1)) in
    let g := Z.gcd num den in
    _float_sqrt_of_frac (num / g) (den / g).

(** * The built-in [sum] of floats: Neumaier's compensated summation *)

Definition cs_add (acc : float * float) (x : float) : float * float :=
  let '(hi, c) := acc in
  let t := fadd hi x in
  let d := if fleb (fabs x) (fabs hi) then fadd (fsub hi t) x else fadd (fsub x t) hi in
  (t, fadd c d).

(** The first term is added to the integer 0. *)
Definition sum_floats (l : list float) : float :=
  match l with
  | [] => f0
  | x :: l =>
      let '(hi, c) := fold_left cs_add l (fadd f0 x, f0) in
      if ftruthy c && is_finite c then fadd hi c else hi
  end.

(** * [f"{x:.<digits>f}"] *)

Fixpoint pad_zeros (n : nat) (s : string) : string :=
  match n with O => s | S n => String "0"%char (pad_zeros n s) end.

Definition fmt_fixed (x : float) (digits : nat) : string :=
  let sign := if fsign x then "-" else "" in
  match x with
  | S754_nan => "nan"
  | S754_infinity _ => sign +:+ "inf"
  | _ =>
      let scale := 10 ^ Z.of_nat digits in
      let n := rne_div (Z.abs (fnum x) * scale) (fden x) in
      let whole : string := pretty (n / scale) in
      let part : string := pretty (n mod scale) in
      sign +:+ whole +:+
        match digits with
        | O => ""
        | _ => "." +:+ pad_zeros (digits - String.length part) part
        end
  end.

(** [f"{n:+d}"]. *)
Definition fmt_plus (n : Z) : string := if n <? 0 then pretty n else "+" +:+ pretty n.

(** * Decimal digits of a finite float *)

(** Whether [10 ^ e <= n / d]. *)
Definition pow10_le (e n d : Z) : bool :=
  if 0 <=? e then d * 10 ^ e <=? n else d <=? n * 10 ^ (- e).

(** The decimal exponent of [n / d > 0]: the greatest [e] with
    [10 ^ e <= n / d], from an estimate on the binary one. *)
Definition exponent10 (n d : Z) : Z :=
  let e := (Z.log2 n - Z.log2 d) * 30103 / 100000 in
  if pow10_le (e + 1) n d then e + 1 else if pow10_le e n d then e else if pow10_le (e - 1) n d then e - 1 else e - 2.

(** [n / d > 0] to [p] significant digits: the digits as an integer, and the
    exponent of the first. *)
Definition significant (p n d : Z) : Z * Z :=
  let e := exponent10 n d in
  let shift := p - 1 - e in
  let m := if 0 <=? shift then rne_div (n * 10 ^ shift) d else rne_div n (d * 10 ^ (- shift)) in
  if m =? 10 ^ p then (10 ^ (p - 1), e + 1) else (m, e).

(** Drop the trailing zeros of an integer of at most [fuel] digits, counting
    them. *)
Fixpoint strip_zeros (fuel : nat) (m : Z) : Z * Z :=
  match fuel with
  | O => (m, 0)
  | S fuel =>
      if (m =? 0) || negb (m mod 10 =? 0) then (m, 0)
      else let '(m, k) := strip_zeros fuel (m / 10) in (m, k + 1)
  end.

(** [m * 10 ^ (- places)] in positional notation. *)
Definition positional (m places : Z) : string :=
  if places <=? 0 then pretty (m * 10 ^ (- places))
  else
    let scale := 10 ^ places in
    let part : string := pretty (m mod scale) in
    pretty (m / scale) +:+ "." +:+ pad_zeros (Z.to_nat places - String.length part) part.

(** An exponent of at least two digits, with its sign. *)
Definition exponent_text (e : Z) : string :=
  let digits : string := pretty (Z.abs e) in
  (if e <? 0 then "e-" else "e+") +:+ pad_zeros (2 - String.length digits) digits.

Definition scientific (m digits e : Z) : string := positional m (digits - 1) +:+ exponent_text e.

(** [f"{x:.<p>g}"], [0 < p]; [f"{x:g}"] is the one with six digits. *)
Definition fmt_g (p : Z) (x : float) : string :=
  let sign := if fsign x then "-" else "" in
  match x with
  | S754_nan => "nan"
  | S754_infinity _ => sign +:+ "inf"
  | S754_zero _ => sign +:+ "0"
  | S754_finite _ _ _ =>
      let '(m, e) := significant p (Z.abs (fnum x)) (fden x) in
      let '(m, zeros) := strip_zeros (Z.to_nat p) m in
      let digits := p - zeros in
      sign +:+ (if (-4 <=? e) && (e <? p) then positional m (digits - 1 - e) else scientific m digits e)
  end.

(** The value a decimal denotes. *)
Definition of_decimal (m places : Z) : float :=
  if 0 <=? places then f_of_ratio m (10 ^ places) else f_of_ratio (m * 10 ^ (- places)) 1.

(** The least number of digits, from [p] on, whose nearest decimal reads back
    as the number; seventeen always do. *)
Fixpoint shortest (fuel : nat) (p : Z) (x : float) : Z * Z * Z :=
  let '(m, e) := significant p (Z.abs (fnum x)) (fden x) in
  match fuel with
  | O => (p, m, e)
  | S fuel => if feqb (of_decimal m (p - 1 - e)) (fabs x) then (p, m, e) else shortest fuel (p + 1) x
  end.

(** [repr(x)] and [f"{x}"]. *)
Definition py_repr (x : float) : string :=
  let sign := if fsign x then "-" else "" in
  match x with
  | S754_nan => "nan"
  | S754_infinity _ => sign +:+ "inf"
  | S754_zero _ => sign +:+ "0.0"
  | S754_finite _ _ _ =>
      let '(p, m, e) := shortest 16 1 x in
      sign +:+ (if (-4 <=? e) && (e <? 16)
                then positional m (p - 1 - e) +:+ (if p - 1 - e <=? 0 then ".0" else "")
                else scientific m p e)
  end.

(** [statistics.pstdev]. *)
Definition pstdev (l : list float) : res float :=
  let n := Z.of_nat (length l) in
  if n <? 1 then raise ValueError "pstdev requires at least one data point"
  else if negb (forallb is_finite l) then raise AttributeError "'float' object has no attribute 'numerator'"
  else
    let '(sn, sd) := q_sum l in
    let '(xn, xd) := fold_left (fun acc x => q_add acc (fnum x * fnum x, fden x * fden x)) l (0, 1) in
    let num := n * xn * (sd * sd) - sn * sn * xd in
    let den := xd * (sd * sd) * (n * n) in
    let g := Z.gcd num den in
    _float_sqrt_of_frac (num / g) (den / g).
