(* ===== verification/PyText.v ===== *)
(** Python text: [str.strip], [upper], [split], the number syntax of [int] and
    [float], and [str] of the objects that come out of JSON.

    A [str] is a list of ASCII characters. The number parsers follow the
    language: blanks around the literal, an underscore only between two digits,
    [inf], [infinity] and [nan] in any case, and the decimal read to the
    nearest double. *)

From S2P Require Import Prelude PyFloat Stats.

Local Open Scope Z_scope.

(** * Characters and blanks *)

Definition is_space (c : ascii) : bool :=
  let n := N_of_ascii c in
  ((9 <=? n)%N && (n <=? 13)%N) || ((28 <=? n)%N && (n <=? 32)%N).

Definition is_digit (c : ascii) : bool :=
  let n := N_of_ascii c in (48 <=? n)%N && (n <=? 57)%N.

Definition ascii_upper (c : ascii) : ascii :=
  let n := N_of_ascii c in
  if (97 <=? n)%N && (n <=? 122)%N then ascii_of_N (n - 32) else c.

Fixpoint str_upper (s : string) : string :=
  match s with EmptyString => EmptyString | String c s => String (ascii_upper c) (str_upper s) end.

Fixpoint str_filter (f : ascii -> bool) (s : string) : string :=
  match s with
  | EmptyString => EmptyString
  | String c s => if f c then String c (str_filter f s) else str_filter f s
  end.

(** [s.lstrip(chars)], the set of characters as a predicate. *)
Fixpoint lstrip (f : ascii -> bool) (s : string) : string :=
  match s with
  | EmptyString => EmptyString
  | String c s' => if f c then lstrip f s' else s
  end.

Fixpoint rstrip (f : ascii -> bool) (s : string) : string :=
  match s with
  | EmptyString => EmptyString
  | String c s =>
      match rstrip f s with
      | EmptyString => if f c then EmptyString else String c EmptyString
      | s => String c s
      end
  end.

Definition strip (s : string) : string := rstrip is_space (lstrip is_space s).

Lemma lstrip_cons f c s : f c = false -> lstrip f (String c s) = String c s.
Proof. cbn. by intros ->. Qed.

Lemma lstrip_head f s : lstrip f s = EmptyString \/ exists c s', lstrip f s = String c s' /\ f c = false.
Proof. induction s as [|c s IH]; cbn; [by left|]. destruct (f c) eqn:E; [done|]. right; eauto. Qed.

Lemma rstrip_cons f c s : f c = false -> rstrip f (String c s) = String c (rstrip f s).
Proof. intros Hc; cbn. destruct (rstrip f s); [by rewrite Hc|done]. Qed.

Lemma rstrip_idem f s : rstrip f (rstrip f s) = rstrip f s.
Proof.
  induction s as [|c s IH]; cbn; [done|]. destruct (rstrip f s) as [|d t] eqn:E.
  - destruct (f c) eqn:Hc; [done|]. cbn. by rewrite Hc.
  - cbn in *. by rewrite IH.
Qed.

Lemma rstrip_app f s t : rstrip f t <> EmptyString -> rstrip f (s +:+ t) = s +:+ rstrip f t.
Proof.
  intros Ht; induction s as [|c s IH]; [done|].
  change (rstrip f (String c s +:+ t)) with
    (match rstrip f (s +:+ t) with EmptyString => if f c then EmptyString else String c EmptyString | u => String c u end).
  rewrite IH. destruct s as [|d s]; [|done]. cbn. by destruct (rstrip f t).
Qed.

Lemma str_app_assoc (s t u : string) : (s +:+ t) +:+ u = s +:+ t +:+ u.
Proof. induction s as [|c s IH]; [done|]. change (String c ((s +:+ t) +:+ u) = String c (s +:+ t +:+ u)). by rewrite IH. Qed.

(** A text without blanks at its ends. *)
Definition trimmed (s : string) : Prop := strip s = s.

Lemma strip_trimmed s : trimmed (strip s).
Proof.
  unfold trimmed, strip. destruct (lstrip_head is_space s) as [->|(c & s' & -> & Hc)]; [done|].
  by rewrite (rstrip_cons _ c s' Hc), (lstrip_cons _ c _ Hc), (rstrip_cons _ c _ Hc), rstrip_idem.
Qed.

Lemma app_trimmed c s t : is_space c = false -> rstrip is_space t = t -> t <> EmptyString -> trimmed (String c s +:+ t).
Proof.
  intros Hc Ht Hne. unfold trimmed, strip. change (String c s +:+ t) with (String c (s +:+ t)).
  rewrite (lstrip_cons _ c _ Hc). change (String c (s +:+ t)) with (String c s +:+ t).
  by rewrite rstrip_app, Ht by congruence.
Qed.

(** [s.split(sep)] on one character: at least one part. *)
Fixpoint str_split (sep : ascii) (s : string) : list string :=
  match s with
  | EmptyString => [EmptyString]
  | String c s =>
      let parts := str_split sep s in
      if Ascii.eqb c sep then EmptyString :: parts
      else match parts with [] => [String c EmptyString] | p :: parts => String c p :: parts end
  end.

Definition char_in (c : ascii) (s : string) : bool := str_in (String c EmptyString) s.

Fixpoint ends_with (c : ascii) (s : string) : bool :=
  match s with
  | EmptyString => false
  | String d EmptyString => Ascii.eqb c d
  | String _ s => ends_with c s
  end.

(** [s[:n]]. *)
Fixpoint str_take (n : nat) (s : string) : string :=
  match n, s with
  | S n, String c s => String c (str_take n s)
  | _, _ => EmptyString
  end.

Lemma str_take_length n s : (String.length (str_take n s) <= n)%nat.
Proof. revert s; induction n as [|n IH]; intros [|c s]; cbn; try lia. specialize (IH s); lia. Qed.

(** [s.partition(sep)], [sep] not empty: what stands before and after its first
    occurrence; [rpartition] splits at the last. *)
Fixpoint str_drop (n : nat) (s : string) : string :=
  match n, s with
  | S n, String _ s => str_drop n s
  | _, _ => s
  end.
Fixpoint str_partition (sep s : string) : option (string * string) :=
  if String.prefix sep s then Some ("", str_drop (String.length sep) s)
  else match s with
       | EmptyString => None
       | String c s => '(a, b) ← str_partition sep s; Some (String c a, b)
       end.
Fixpoint str_rpartition (sep s : string) : option (string * string) :=
  match s with
  | EmptyString => None
  | String c s' =>
      match str_rpartition sep s' with
      | Some (a, b) => Some (String c a, b)
      | None => if String.prefix sep s then Some ("", str_drop (String.length sep) s) else None
      end
  end.

Lemma prefix_char c d a : String.prefix (String c "") (String d a) = Ascii.eqb c d.
Proof.
  cbn. destruct (Ascii.eqb_spec c d) as [->|Hne]; destruct (Ascii.ascii_dec _ _); by try destruct a.
Qed.

Lemma char_in_cons c d a : char_in c (String d a) = Ascii.eqb c d || char_in c a.
Proof.
  unfold char_in. change (str_in (String c "") (String d a)) with (String.prefix (String c "") (String d a) || str_in (String c "") a).
  by rewrite prefix_char.
Qed.

Lemma partition_cons c d a :
  str_partition (String c "") (String d a) =
  if Ascii.eqb c d then Some ("", a) else '(x, y) ← str_partition (String c "") a; Some (String d x, y).
Proof.
  change (str_partition (String c "") (String d a)) with
    (if String.prefix (String c "") (String d a) then Some ("", a) else '(x, y) ← str_partition (String c "") a; Some (String d x, y)).
  by rewrite prefix_char.
Qed.

Lemma rpartition_cons c d a :
  str_rpartition (String c "") (String d a) =
  match str_rpartition (String c "") a with
  | Some (x, y) => Some (String d x, y)
  | None => if Ascii.eqb c d then Some ("", a) else None
  end.
Proof.
  change (str_rpartition (String c "") (String d a)) with
    (match str_rpartition (String c "") a with
     | Some (x, y) => Some (String d x, y)
     | None => if String.prefix (String c "") (String d a) then Some ("", a) else None end).
  by rewrite prefix_char.
Qed.

Lemma str_cons_app d (a b : string) : String d a +:+ b = String d (a +:+ b).
Proof. done. Qed.

Lemma str_app_nil (s : string) : s +:+ "" = s.
Proof. induction s as [|c s IH]; [done|]. rewrite str_cons_app. by rewrite IH. Qed.

Lemma str_app_length (a b : string) : String.length (a +:+ b) = (String.length a + String.length b)%nat.
Proof. induction a as [|c a IH]; [done|]. rewrite str_cons_app. cbn. by rewrite IH. Qed.

Lemma take_drop_str n s : str_take n s +:+ str_drop n s = s.
Proof. revert s; induction n as [|n IH]; intros [|c s]; try done. cbn [str_take str_drop]. by rewrite str_cons_app, IH. Qed.

Lemma str_drop_length n s : String.length (str_drop n s) = (String.length s - n)%nat.
Proof. revert s; induction n as [|n IH]; intros [|c s]; cbn; done. Qed.

(** ["".join(l)]. *)
Fixpoint str_concat (l : list string) : string := match l with [] => "" | s :: l => s +:+ str_concat l end.

Lemma str_concat_app l k : str_concat (l ++ k) = str_concat l +:+ str_concat k.
Proof. induction l as [|s l IH]; [done|]. cbn. by rewrite IH, str_app_assoc. Qed.

Lemma partition_char c a b :
  char_in c a = false -> str_partition (String c "") (a +:+ String c b) = Some (a, b).
Proof.
  induction a as [|d a IH]; [intros _|rewrite char_in_cons, orb_false_iff; intros [Hd H]; rewrite str_cons_app].
  - change ("" +:+ String c b) with (String c b). by rewrite partition_cons, Ascii.eqb_refl.
  - by rewrite partition_cons, Hd, IH.
Qed.

Lemma partition_char_none c a : char_in c a = false -> str_partition (String c "") a = None.
Proof.
  induction a as [|d a IH]; [done|rewrite char_in_cons, orb_false_iff; intros [Hd H]]. by rewrite partition_cons, Hd, IH.
Qed.

Lemma rpartition_char_none c a : char_in c a = false -> str_rpartition (String c "") a = None.
Proof.
  induction a as [|d a IH]; [done|rewrite char_in_cons, orb_false_iff; intros [Hd H]]. by rewrite rpartition_cons, Hd, IH.
Qed.

Lemma rpartition_char c a b :
  char_in c b = false -> str_rpartition (String c "") (a +:+ String c b) = Some (a, b).
Proof.
  intros H. induction a as [|d a IH]; [|by rewrite str_cons_app, rpartition_cons, IH].
  change ("" +:+ String c b) with (String c b). by rewrite rpartition_cons, rpartition_char_none, Ascii.eqb_refl.
Qed.

(** * The checksum of a line: the exclusive or of its characters, in two
    hexadecimal digits *)

Fixpoint xor_checksum (body : string) : N :=
  match body with EmptyString => 0%N | String c s => N.lxor (N_of_ascii c) (xor_checksum s) end.

Definition hex_upper (n : N) : ascii := ascii_of_N (if (n <? 10)%N then n + 48 else n + 55).
(** [f"{n:02X}"], [n < 256]. *)
Definition hex2 (n : N) : string := String (hex_upper (n / 16)) (String (hex_upper (n mod 16)) EmptyString).

Lemma xor_checksum_app a b : xor_checksum (a +:+ b) = N.lxor (xor_checksum a) (xor_checksum b).
Proof.
  induction a as [|c a IH]; [done|].
  change (N.lxor (N_of_ascii c) (xor_checksum (a +:+ b)) = N.lxor (N.lxor (N_of_ascii c) (xor_checksum a)) (xor_checksum b)).
  by rewrite IH, N.lxor_assoc.
Qed.

Lemma lxor_bound a b : (a < 256 -> b < 256 -> N.lxor a b < 256)%N.
Proof.
  intros Ha Hb. destruct (N.eq_dec (N.lxor a b) 0%N) as [->|Hne]; [done|].
  change 256%N with (2 ^ 8)%N in *. apply N.log2_lt_pow2; [lia|].
  eapply N.le_lt_trans; [apply N.log2_lxor|]. apply N.max_lub_lt; [destruct (N.eq_dec a 0%N) as [->|]|destruct (N.eq_dec b 0%N) as [->|]];
    try done; apply N.log2_lt_pow2; lia.
Qed.

Lemma xor_checksum_bound s : (xor_checksum s < 256)%N.
Proof. induction s as [|c s IH]; cbn [xor_checksum]; [done|]. by apply lxor_bound; [apply N_ascii_bounded|]. Qed.

Lemma hex_upper_inj a b : (a < 16)%N -> (b < 16)%N -> hex_upper a = hex_upper b -> a = b.
Proof.
  intros Ha Hb. unfold hex_upper. intros H. apply (f_equal N_of_ascii) in H.
  destruct (N.ltb_spec a 10), (N.ltb_spec b 10); rewrite !N_ascii_embedding in H by lia; lia.
Qed.

Lemma hex2_inj a b : (a < 256)%N -> (b < 256)%N -> hex2 a = hex2 b -> a = b.
Proof.
  intros Ha Hb [= H1 H2]. apply hex_upper_inj in H1, H2; try (apply N.mod_lt; done); try (apply N.Div0.div_lt_upper_bound; lia).
  rewrite (N.div_mod a 16), (N.div_mod b 16) by done. by rewrite H1, H2.
Qed.

(** [x or y] on texts: the empty text is false. *)
Definition str_or (s t : string) : string := match s with EmptyString => t | _ => s end.

(** * Numbers *)

(** Every underscore stands between two digits. *)
Fixpoint underscores_ok (after_digit : bool) (s : string) : bool :=
  match s with
  | EmptyString => true
  | String c s =>
      if Ascii.eqb c "_"%char then
        after_digit && match s with String d _ => is_digit d | EmptyString => false end && underscores_ok false s
      else underscores_ok (is_digit c) s
  end.

Definition drop_underscores : string -> string := str_filter (fun c => negb (Ascii.eqb c "_"%char)).

Fixpoint span_digits (s : string) : string * string :=
  match s with
  | EmptyString => (EmptyString, EmptyString)
  | String c s' =>
      if is_digit c then let '(d, r) := span_digits s' in (String c d, r) else (EmptyString, s)
  end.

Fixpoint digits_value (acc : Z) (s : string) : Z :=
  match s with
  | EmptyString => acc
  | String c s => digits_value (10 * acc + (Z.of_N (N_of_ascii c) - 48)) s
  end.

(** An optional sign, [true] for minus. *)
Definition take_sign (s : string) : bool * string :=
  match s with
  | String c r => if Ascii.eqb c "-"%char then (true, r) else if Ascii.eqb c "+"%char then (false, r) else (false, s)
  | EmptyString => (false, s)
  end.

(** A non-empty run of digits and nothing else. *)
Definition all_digits (s : string) : option string :=
  match span_digits s with (String _ _ as d, EmptyString) => Some d | _ => None end.

(** The interpreter's limit on the digits of an integer literal. *)
Definition _MAX_STR_DIGITS : Z := 4300.

(** [int(text)]; [None] where it raises [ValueError]. *)
Definition py_int (text : string) : option Z :=
  let s := strip text in
  if negb (underscores_ok false s) then None
  else
    let '(minus, s) := take_sign (drop_underscores s) in
    d ← all_digits s;
    if _MAX_STR_DIGITS <? Z.of_nat (String.length d) then None
    else Some (if minus then - digits_value 0 d else digits_value 0 d).

(** The exponent part, [e] and a signed integer, or nothing. *)
Definition exponent_part (s : string) : option Z :=
  match s with
  | EmptyString => Some 0
  | String c s =>
      if Ascii.eqb (ascii_lower c) "e"%char then
        let '(minus, s) := take_sign s in
        d ← all_digits s;
        Some (if minus then - digits_value 0 d else digits_value 0 d)
      else None
  end.

Definition decimal_text (s : string) : option float :=
  let '(whole, rest) := span_digits s in
  let '(part, rest) :=
    match rest with
    | String c r => if Ascii.eqb c "."%char then span_digits r else ("", rest)
    | EmptyString => ("", rest)
    end in
  match whole +:+ part with
  | EmptyString => None
  | digits => e ← exponent_part rest; Some (of_decimal (digits_value 0 digits) (Z.of_nat (String.length part) - e))
  end.

(** [float(text)]; [None] where it raises [ValueError]. *)
Definition py_float (text : string) : option float :=
  let s := strip text in
  if negb (underscores_ok false s) then None
  else
    let '(minus, s) := take_sign (drop_underscores s) in
    x ← (let low := str_lower s in
         if String.eqb low "inf" || String.eqb low "infinity" then Some finf
         else if String.eqb low "nan" then Some S754_nan
         else decimal_text s);
    Some (if minus then fopp x else x).

(** * [str] of an object *)

Definition hex_digit (n : N) : ascii := ascii_of_N (if (n <? 10)%N then n + 48 else n + 87).

Definition repr_char (quote c : ascii) : string :=
  let n := N_of_ascii c in
  if Ascii.eqb c quote || (n =? 92)%N then String "\"%char (String c EmptyString)
  else if (n =? 9)%N then "\t" else if (n =? 10)%N then "\n" else if (n =? 13)%N then "\r"
  else if (n <? 32)%N || (127 <=? n)%N then
    "\x" +:+ String (hex_digit (n / 16)) (String (hex_digit (n mod 16)) EmptyString)
  else String c EmptyString.

Fixpoint repr_chars (quote : ascii) (s : string) : string :=
  match s with EmptyString => EmptyString | String c s => repr_char quote c +:+ repr_chars quote s end.

Definition single_quote : ascii := "'"%char.
Definition double_quote : ascii := ascii_of_N 34.

Definition repr_str (s : string) : string :=
  let quote := if char_in single_quote s && negb (char_in double_quote s) then double_quote else single_quote in
  String quote (repr_chars quote s +:+ String quote EmptyString).

Fixpoint join (sep : string) (l : list string) : string :=
  match l with [] => "" | [s] => s | s :: l => s +:+ sep +:+ join sep l end.

Fixpoint py_repr_obj (v : obj) : string :=
  match v with
  | ONone => "None"
  | OBool b => if b then "True" else "False"
  | OInt z => pretty z
  | OFloat x => py_repr x
  | OStr s => repr_str s
  | OList l => "[" +:+ join ", " (map py_repr_obj l) +:+ "]"
  | ODict d => "{" +:+ join ", " (map (fun '(k, v) => repr_str k +:+ ": " +:+ py_repr_obj v) d) +:+ "}"
  end.

(** [str(v)]. *)
Definition py_str (v : obj) : string := match v with OStr s => s | v => py_repr_obj v end.

(** * Objects are decidably equal *)

#[export] Instance float_eq_dec : EqDecision float.
Proof. solve_decision. Defined.

Fixpoint obj_eqb (x y : obj) : bool :=
  let list_eqb := fix go l l' := match l, l' with [], [] => true | a :: l, b :: l' => obj_eqb a b && go l l' | _, _ => false end in
  let dict_eqb := fix go (d d' : list (string * obj)) :=
    match d, d' with
    | [], [] => true
    | (k, a) :: d, (k', b) :: d' => String.eqb k k' && obj_eqb a b && go d d'
    | _, _ => false
    end in
  match x, y with
  | ONone, ONone => true
  | OBool a, OBool b => Bool.eqb a b
  | OInt a, OInt b => a =? b
  | OFloat a, OFloat b => bool_decide (a = b)
  | OStr a, OStr b => String.eqb a b
  | OList l, OList l' => list_eqb l l'
  | ODict d, ODict d' => dict_eqb d d'
  | _, _ => false
  end.

Fixpoint obj_eqb_spec (x y : obj) {struct x} : obj_eqb x y = true <-> x = y.
Proof.
  destruct x as [|a|a|a|a|l|d], y as [|b|b|b|b|l'|d']; cbn [obj_eqb]; try (split; [discriminate|discriminate]).
  - done.
  - rewrite Bool.eqb_true_iff. split; congruence.
  - rewrite Z.eqb_eq. split; congruence.
  - rewrite bool_decide_eq_true. split; congruence.
  - rewrite String.eqb_eq. split; congruence.
  - assert (H : (fix go l l' := match l, l' with [], [] => true | a :: l, b :: l' => obj_eqb a b && go l l' | _, _ => false end) l l' = true <-> l = l').
    { revert l'; induction l as [|a l IH]; intros [|b l']; try (split; [discriminate|discriminate]); [done|].
      rewrite andb_true_iff, IH, (obj_eqb_spec a b). split; [by intros [-> ->]|by intros [= -> ->]]. }
    rewrite H. split; congruence.
  - assert (H : (fix go (d d' : list (string * obj)) :=
        match d, d' with
        | [], [] => true
        | (k, a) :: d, (k', b) :: d' => String.eqb k k' && obj_eqb a b && go d d'
        | _, _ => false
        end) d d' = true <-> d = d').
    { revert d'; induction d as [|[k a] d IH]; intros [|[k' b] d']; try (split; [discriminate|discriminate]); [done|].
      rewrite !andb_true_iff, IH, String.eqb_eq, (obj_eqb_spec a b). split; [by intros [[-> ->] ->]|by intros [= -> -> ->]]. }
    rewrite H. split; congruence.
Qed.

#[export] Instance obj_eq_dec : EqDecision obj.
Proof. refine (fun x y => match obj_eqb x y as b return (obj_eqb x y = b -> Decision (x = y)) with true => fun E => left (proj1 (obj_eqb_spec x y) E) | false => fun E => right (fun H => _) end eq_refl). apply obj_eqb_spec in H. congruence. Defined.
