(* ===== verification/Glob.v ===== *)
(** Shell-style patterns: Python's [fnmatch.fnmatchcase], used to select
    channels by name ([src/agent/timing_app.py], [src/pit/live_decoder]). *)

From S2P Require Import Prelude.

Inductive glob :=
  | GLit (c : ascii)
  | GAny
  | GStar
  | GClass (negated : bool) (ranges : list (ascii * ascii)).

Definition code (c : ascii) : N := N_of_ascii c.

Definition in_range (c : ascii) (r : ascii * ascii) : bool :=
  ((code r.1 <=? code c) && (code c <=? code r.2))%N.

(** The contents of a bracket, up to the closing one. *)
Fixpoint until_close (l : list ascii) : option (list ascii * list ascii) :=
  match l with
  | [] => None
  | c :: l =>
      if Ascii.eqb c "]" then Some ([], l)
      else match until_close l with Some (body, rest) => Some (c :: body, rest) | None => None end
  end.

Fixpoint class_ranges (l : list ascii) : list (ascii * ascii) :=
  match l with
  | [] => []
  | a :: l' =>
      match l' with
      | d :: b :: l'' =>
          if Ascii.eqb d "-" then (a, b) :: class_ranges l'' else (a, a) :: class_ranges l'
      | _ => (a, a) :: class_ranges l'
      end
  end.

(** What follows an opening bracket; none when it is never closed. *)
Definition parse_class (l : list ascii) : option (glob * list ascii) :=
  let '(negated, l) :=
    match l with
    | c :: l' => if Ascii.eqb c "!" then (true, l') else (false, l)
    | [] => (false, l)
    end in
  let '(pre, l) :=
    match l with
    | c :: l' => if Ascii.eqb c "]" then ([c], l') else ([], l)
    | [] => ([], l)
    end in
  match until_close l with
  | Some (body, rest) => Some (GClass negated (class_ranges (pre ++ body)), rest)
  | None => None
  end.

Fixpoint parse_glob (fuel : nat) (l : list ascii) : list glob :=
  match fuel, l with
  | S fuel, c :: l =>
      if Ascii.eqb c "*" then GStar :: parse_glob fuel l
      else if Ascii.eqb c "?" then GAny :: parse_glob fuel l
      else if Ascii.eqb c "[" then
        match parse_class l with
        | Some (g, rest) => g :: parse_glob fuel rest
        | None => GLit c :: parse_glob fuel l
        end
      else GLit c :: parse_glob fuel l
  | _, _ => []
  end.

Fixpoint glob_match (g : list glob) (s : list ascii) : bool :=
  match g with
  | [] => match s with [] => true | _ => false end
  | GStar :: g =>
      (fix star (s : list ascii) : bool :=
         glob_match g s || match s with [] => false | _ :: s => star s end) s
  | GLit c :: g => match s with x :: s => Ascii.eqb c x && glob_match g s | [] => false end
  | GAny :: g => match s with _ :: s => glob_match g s | [] => false end
  | GClass neg rs :: g =>
      match s with
      | x :: s => xorb neg (existsb (in_range x) rs) && glob_match g s
      | [] => false
      end
  end.

Definition fnmatchcase (name pattern : string) : bool :=
  let p := String.list_ascii_of_string pattern in
  glob_match (parse_glob (length p) p) (String.list_ascii_of_string name).

(** A star matches exactly the splits of the name it precedes. *)
Lemma glob_star g s :
  glob_match (GStar :: g) s = true <-> exists a b, s = a ++ b /\ glob_match g b = true.
Proof.
  simpl. induction s as [|x s IH].
  - rewrite orb_false_r. split; [by exists [], [] | by intros ([|] & [|] & ? & ?)].
  - rewrite orb_true_iff, IH. split.
    + intros [Hg|(a & b & -> & Hb)]; [by exists [], (x :: s) | by exists (x :: a), b].
    + intros ([|y a] & b & Heq & Hb); simpl in *; subst; [by left|].
      injection Heq as -> ->; right; eauto.
Qed.

Example fnmatch_gps : map (fun n => fnmatchcase n "gps.*") ["gps.lat"; "gps"; "imu.lat"] = [true; false; false].
Proof. reflexivity. Qed.
Example fnmatch_class : map (fun n => fnmatchcase n "tyre.[fr][!x].t?mp") ["tyre.fl.temp"; "tyre.fx.temp"] = [true; false].
Proof. reflexivity. Qed.
