(* ===== verification/Config.v ===== *)
(** Profile configuration ([src/core/config.py]): durations, report-by-exception
    and encoding policies, and the cross-checks between [vehicle.yaml] and
    [catalog.yaml].

    Parsing the YAML, field types and defaults are pydantic's business; what is
    modelled here is the constraints and validators the source writes, each as
    a function that returns the validated value or the [ValueError] /
    [ConfigError] it raises. [validate_vehicle] is [VehicleConfig.model_validate]
    on values of the right types: the first constraint that fails, in field
    order. *)

From S2P Require Import Prelude PyFloat Stats PyText.

Local Open Scope Z_scope.

(** * Character classes and the two small regular expressions *)

Definition is_digit (c : ascii) : bool :=
  let n := Z.of_N (N_of_ascii c) in (48 <=? n) && (n <=? 57).
Definition is_lower (c : ascii) : bool :=
  let n := Z.of_N (N_of_ascii c) in (97 <=? n) && (n <=? 122).
Definition digit_val (c : ascii) : Z := Z.of_N (N_of_ascii c) - 48.

Abbreviation chars := (list ascii).
Definition to_chars : string -> chars := String.list_ascii_of_string.
Definition of_chars : chars -> string := String.string_of_list_ascii.

(** The longest prefix of digits and what follows it. *)
Fixpoint span_digits (l : chars) : chars * chars :=
  match l with
  | c :: r => if is_digit c then let '(d, r') := span_digits r in (c :: d, r') else ([], l)
  | [] => ([], [])
  end.

Definition digits_val (l : chars) : Z := foldl (fun acc c => 10 * acc + digit_val c) 0 l.

Definition dot : ascii := "."%char.

Definition ascii_eqb (a b : ascii) : bool := Ascii.eqb a b.

(** [l.split(sep)]. *)
Fixpoint split_on (sep : ascii) (l : chars) : list chars :=
  match l with
  | [] => [[]]
  | c :: r =>
      let parts := split_on sep r in
      if ascii_eqb c sep then [] :: parts
      else match parts with p :: ps => (c :: p) :: ps | [] => [[c]] end
  end.

(** The text before and after the first [sep], if there is one. *)
Fixpoint cut (sep : ascii) (l : chars) : option (chars * chars) :=
  match l with
  | [] => None
  | c :: r =>
      if ascii_eqb c sep then Some ([], r)
      else '(a, b) ← cut sep r; Some (c :: a, b)
  end.

(** * Durations *)

(** The decimal part of a duration: digits, optionally a point and more
    digits, or a point and at least one digit. Gives the decimal as an
    integer and a power of ten, and the text that follows. *)
Definition scan_decimal (l : chars) : option (Z * Z * chars) :=
  match span_digits l with
  | ([], c :: r) =>
      if ascii_eqb c dot then
        match span_digits r with
        | ([], _) => None
        | (frac, rest) => Some (digits_val frac, 10 ^ Z.of_nat (length frac), rest)
        end
      else None
  | ([], []) => None
  | (whole, c :: r) =>
      if ascii_eqb c dot then
        let '(frac, rest) := span_digits r in
        Some (digits_val (whole ++ frac), 10 ^ Z.of_nat (length frac), rest)
      else Some (digits_val whole, 1, c :: r)
  | (whole, []) => Some (digits_val whole, 1, [])
  end.

Definition _DURATION_FACTORS (unit : string) : option Z :=
  if String.eqb unit "ns" then Some 1
  else if String.eqb unit "us" then Some 1000
  else if String.eqb unit "ms" then Some 1000000
  else if String.eqb unit "s" then Some 1000000000
  else if String.eqb unit "m" then Some 60000000000
  else if String.eqb unit "h" then Some 3600000000000
  else None.

Definition _DURATION_RE (value : string) : option (float * Z) :=
  '(n, d, rest) ← scan_decimal (to_chars value);
  factor ← _DURATION_FACTORS (of_chars rest);
  Some (f_of_ratio n d, factor).

Definition parse_duration_ns (value : string) : res Z :=
  match _DURATION_RE value with
  | None => raise ValueError "must be a duration such as '20ms', '5s', or '1m'"
  | Some (number, factor) =>
      let duration := fmul number (f_of_Z factor) in
      if negb (is_finite duration) then raise ValueError "duration is too large"
      else if fleb duration f0 then raise ValueError "duration must be greater than zero"
      else f_round duration
  end.

(** * Report-by-exception policy *)

Record RbeConfig := mkRbeConfig {
  deadband : option float;
  min_interval : option string;
  max_interval : option string;
  min_interval_ns : option Z;
  max_interval_ns : option Z
}.

Definition opt_res {A B : Type} (f : A -> res B) (o : option A) : res (option B) :=
  match o with None => Ok None | Some a => b ← f a; Ok (Some b) end.

(** [RbeConfig.parse_intervals], after the field constraint [deadband >= 0]. *)
Definition parse_intervals (deadband : option float) (min_interval max_interval : option string)
    : res RbeConfig :=
  match deadband with
  | Some d => if fleb f0 d then Ok tt else raise ValueError "greater than or equal to 0"
  | None => Ok tt
  end ≫= fun _ =>
  min_ns ← opt_res parse_duration_ns min_interval;
  max_ns ← opt_res parse_duration_ns max_interval;
  match min_ns, max_ns with
  | Some a, Some b =>
      if b <? a then raise ValueError "min_interval must not exceed max_interval"
      else Ok (mkRbeConfig deadband min_interval max_interval min_ns max_ns)
  | _, _ => Ok (mkRbeConfig deadband min_interval max_interval min_ns max_ns)
  end.

(** * Encoding and channels *)

Inductive encode_type := enc_double | enc_float | enc_uint | enc_int.
Inductive channel_type := ch_double | ch_int | ch_bool | ch_string.

Record EncodeConfig := mkEncodeConfig {
  enc_type : encode_type;
  enc_scale : float;
  enc_offset : float
}.

Definition is_int_encoding (t : encode_type) : bool :=
  match t with enc_uint | enc_int => true | _ => false end.

Definition coefficients_only_for_integer_types (self : EncodeConfig) : res EncodeConfig :=
  let zero (x : float) := negb (ftruthy x) in
  if negb (is_finite (enc_scale self)) then raise ValueError "scale must be finite"
  else if negb (is_finite (enc_offset self)) then raise ValueError "offset must be finite"
  else if zero (enc_scale self) && negb (zero (enc_offset self))
    then raise ValueError "offset must be zero when scale is zero"
  else if negb (is_int_encoding (enc_type self))
          && (negb (zero (enc_scale self)) || negb (zero (enc_offset self)))
    then raise ValueError "scale/offset are only valid for uint or int encoding"
  else if fltb (enc_scale self) f0 then raise ValueError "scale must be non-negative"
  else Ok self.

Record ChannelConfig := mkChannelConfig {
  source_ref : string;
  units : string;
  ch_type : channel_type;
  rbe : option RbeConfig;
  encode : option EncodeConfig
}.

Definition channel_type_name (t : channel_type) : string :=
  match t with ch_double => "double" | ch_int => "int" | ch_bool => "bool" | ch_string => "string" end.

Definition encoding_matches_value_kind (self : ChannelConfig) : res ChannelConfig :=
  match ch_type self, encode self with
  | (ch_bool | ch_string) as t, Some _ =>
      raise ValueError (channel_type_name t +:+ " channels cannot override their wire encoding")
  | _, _ => Ok self
  end.

(** The shorthand [encode: float32] for [encode: {type: float}]. *)
Definition expand_encoding_shorthand (value : obj) : obj :=
  match value with
  | OStr s =>
      let t := if String.eqb s "float32" then "float"
               else if String.eqb s "int64" then "int" else s in
      ODict [("type", OStr t)]
  | _ => value
  end.

(** * Buses, serial sources, the host *)

Definition _require_unique_aux (description : string) :=
  fix go (seen : list string) (values : list string) : res unit :=
    match values with
    | [] => Ok tt
    | v :: vs =>
        if decide (v ∈ seen) then raise ValueError ("duplicate " +:+ description +:+ " '" +:+ v +:+ "'")
        else go (v :: seen) vs
    end.
Definition _require_unique (values : list string) (description : string) : res unit :=
  _require_unique_aux description [] values.

Record DbcConfig := mkDbcConfig { dbc_device : string; dbc_file : string }.
Record BusConfig := mkBusConfig {
  bus_name : string;
  bus_interface : string;
  bus_bitrate : Z;
  bus_dbcs : list DbcConfig
}.

Definition unique_devices (self : BusConfig) : res BusConfig :=
  _ ← _require_unique (map dbc_device (bus_dbcs self)) "DBC device alias"; Ok self.

(** [CONFIG PPS] of the UM980. *)
Inductive PpsMode := ENABLE | ENABLE2 | ENABLE3.
Inductive TimeReference := GPS | BDS | GAL | GLO.
Inductive Polarity := POSITIVE | NEGATIVE.
Record PpsConfig := mkPpsConfig {
  mode : PpsMode;
  time_reference : TimeReference;
  polarity : Polarity;
  width_us : Z;
  period_ms : Z;
  rf_delay_ns : Z;
  user_delay_ns : Z
}.

Definition width_is_shorter_than_period (self : PpsConfig) : res PpsConfig :=
  if period_ms self * 1000 <=? width_us self
  then raise ValueError "PPS width_us must be smaller than period_ms"
  else Ok self.

Inductive ComPort := COM1 | COM2 | COM3.
Record TimingOutputConfig := mkTimingOutput { to_port : ComPort; to_baud : Z }.
Definition TIMING_BAUDS : list Z := [9600; 19200; 38400; 57600; 115200; 230400; 460800; 921600].

(** [sentence_rates_hz] is a dict: its keys differ, though perhaps only in
    their capitals. *)
Record Um980Settings := mkUm980Settings {
  rate_hz : Z;
  sentences : list string;
  sentence_rates_hz : list (string * Z);
  configure_on_start : bool;
  pps : option PpsConfig;
  timing_output : option TimingOutputConfig
}.

Definition rate_overrides_name_configured_sentences (self : Um980Settings) : res Um980Settings :=
  let configured := map str_upper (sentences self) in
  let unknown := List.filter (fun s => negb (bool_decide (str_upper s ∈ configured))) (sentence_rates_hz self).*1 in
  match unknown with
  | [] => Ok self
  | _ => raise ValueError ("sentence_rates_hz names sentences not in `sentences`: " +:+ join ", " (sort_by String.leb unknown))
  end.

(** [Um980DriverConfig]; [driver_name] is the literal ["um980"]. *)
Record DriverConfig := mkDriverConfig { driver_name : string; driver_config : Um980Settings }.

Record SerialConfig := mkSerialConfig {
  ser_name : string;
  ser_port : string;
  ser_baud : Z;
  ser_decoder : string;
  ser_driver : option DriverConfig;
  ser_raw_log : bool
}.

Record HostConfig := mkHostConfig { host_enabled : bool; host_interval : string; host_temperatures : list (string * string) }.

Record VehicleConfig := mkVehicleConfig {
  vehicle_id : string;
  buses : list BusConfig;
  serial : list SerialConfig;
  host : HostConfig
}.

Definition unique_transports (self : VehicleConfig) : res VehicleConfig :=
  let bus_names := map bus_name (buses self) in
  let serial_names := map ser_name (serial self) in
  _ ← _require_unique bus_names "bus name";
  _ ← _require_unique serial_names "serial source name";
  _ ← _require_unique (bus_names ++ serial_names) "transport name";
  Ok self.

(** * Channel names and source references *)

Definition is_alias_char (c : ascii) : bool := is_lower c || is_digit c || ascii_eqb c "_"%char.

(** [[a-z0-9_]+], as a whole-string match. *)
Definition alias_re (l : chars) : bool :=
  match l with [] => false | _ => forallb is_alias_char l end.

Fixpoint strip_prefix (p l : chars) : option chars :=
  match p, l with
  | [], _ => Some l
  | c :: p, d :: l => if ascii_eqb c d then strip_prefix p l else None
  | _ :: _, [] => None
  end.

Definition _CHANNEL_RE (name : string) : bool :=
  let l := to_chars name in
  match strip_prefix (to_chars "car.") l with
  | Some r => alias_re r
  | None =>
      match strip_prefix (to_chars "position.") l with
      | Some r => alias_re r
      | None =>
          match strip_prefix (to_chars "sys.") l with
          | Some [] | None => false
          | Some r => forallb (fun c => is_alias_char c || ascii_eqb c dot) r
          end
      end
  end.

(** [transport:device.MESSAGE.SIGNAL]: the transport and the device. *)
Definition _CAN_SOURCE_RE (ref : string) : option (string * string) :=
  '(transport, rest) ← cut ":"%char (to_chars ref);
  match transport, split_on dot rest with
  | _ :: _, [(_ :: _) as device; _ :: _; _ :: _] => Some (of_chars transport, of_chars device)
  | _, _ => None
  end.

Definition _TEMPERATURE_ALIAS_RE (s : string) : bool := alias_re (to_chars s).
Definition _TEMPERATURE_SENSOR_RE (s : string) : bool :=
  match split_on dot (to_chars s) with
  | [chip; label] => alias_re chip && alias_re label
  | _ => false
  end.

Fixpoint temperature_aliases_are_well_formed (temperatures : list (string * string)) : res unit :=
  match temperatures with
  | [] => Ok tt
  | (alias, sensor) :: rest =>
      if negb (_TEMPERATURE_ALIAS_RE alias) then
        raise ValueError ("temperature alias '" +:+ alias +:+
                          "' must be lowercase letters, digits and '_'")
      else if negb (_TEMPERATURE_SENSOR_RE sensor) then
        raise ValueError ("temperature sensor '" +:+ sensor +:+ "' for '" +:+ alias +:+
                          "' must be '<chip>.<label>'")
      else temperature_aliases_are_well_formed rest
  end.

(** [parse_interval], after which [interval_ns] is set. *)
Definition interval_ns (self : HostConfig) : res Z := parse_duration_ns (host_interval self).

(** * [VehicleConfig.model_validate] *)

Definition holds_b (b : bool) (why : string) : res () := if b then Ok tt else raise ValueError why.
Definition gt0 (z : Z) : res () := holds_b (0 <? z) "Input should be greater than 0".
Definition min_length {A : Type} (l : list A) : res () :=
  holds_b (negb (bool_decide (l = []%list))) "List should have at least 1 item after validation".
Definition non_empty (s : string) : res () := holds_b (negb (String.eqb s "")) "String should have at least 1 character".
Definition each_ok {A : Type} (f : A -> res ()) (l : list A) : res () := _ ← res_map f l; Ok tt.
Definition some_ok {A : Type} (f : A -> res ()) (o : option A) : res () := match o with Some a => f a | None => Ok tt end.

Definition validate_dbc (d : DbcConfig) : res () := _ ← non_empty (dbc_device d); non_empty (dbc_file d).
Definition validate_bus (b : BusConfig) : res () :=
  _ ← non_empty (bus_name b); _ ← non_empty (bus_interface b); _ ← gt0 (bus_bitrate b);
  _ ← min_length (bus_dbcs b); _ ← each_ok validate_dbc (bus_dbcs b);
  _ ← unique_devices b; Ok tt.

Definition delay_ok (z : Z) : res () :=
  _ ← holds_b (-32768 <=? z) "Input should be greater than or equal to -32768";
  holds_b (z <=? 32767) "Input should be less than or equal to 32767".
Definition validate_pps (p : PpsConfig) : res () :=
  _ ← gt0 (width_us p);
  _ ← holds_b (50 <=? period_ms p) "Input should be greater than or equal to 50";
  _ ← holds_b (period_ms p <=? 20000) "Input should be less than or equal to 20000";
  _ ← holds_b (period_ms p mod 50 =? 0) "Input should be a multiple of 50";
  _ ← delay_ok (rf_delay_ns p); _ ← delay_ok (user_delay_ns p);
  _ ← width_is_shorter_than_period p; Ok tt.
Definition validate_settings (s : Um980Settings) : res () :=
  _ ← gt0 (rate_hz s);
  _ ← min_length (sentences s); _ ← each_ok non_empty (sentences s);
  _ ← each_ok (fun '(name, rate) => _ ← non_empty name; gt0 rate) (sentence_rates_hz s);
  _ ← some_ok validate_pps (pps s);
  _ ← some_ok (fun t => holds_b (bool_decide (to_baud t ∈ TIMING_BAUDS)) "Input should be one of the baud rates") (timing_output s);
  _ ← rate_overrides_name_configured_sentences s; Ok tt.
Definition validate_driver (d : DriverConfig) : res () :=
  _ ← holds_b (String.eqb (driver_name d) "um980") "Input should be 'um980'"; validate_settings (driver_config d).
Definition validate_serial (s : SerialConfig) : res () :=
  _ ← non_empty (ser_name s); _ ← non_empty (ser_port s); _ ← gt0 (ser_baud s); _ ← non_empty (ser_decoder s);
  some_ok validate_driver (ser_driver s).
Definition validate_host (h : HostConfig) : res () :=
  _ ← interval_ns h; temperature_aliases_are_well_formed (host_temperatures h).

Definition validate_vehicle (v : VehicleConfig) : res VehicleConfig :=
  _ ← non_empty (vehicle_id v);
  _ ← each_ok validate_bus (buses v);
  _ ← each_ok validate_serial (serial v);
  _ ← validate_host (host v);
  unique_transports v.

(** The channels of [catalog.yaml], in file order. *)
Abbreviation channels_t := (list (string * ChannelConfig)).

Fixpoint validate_channel_names (channels : channels_t) : res channels_t :=
  match channels with
  | [] => Ok []
  | (name, cfg) :: rest =>
      if _CHANNEL_RE name then r ← validate_channel_names rest; Ok ((name, cfg) :: r)
      else raise ValueError ("channel '" +:+ name +:+ "' uses an invalid or reserved namespace")
  end.

Definition starts_with (p s : string) : bool :=
  match strip_prefix (to_chars p) (to_chars s) with Some _ => true | None => false end.

(** The devices of the bus named [transport], the last of that name winning
    as it does in the dict comprehension. *)
Definition bus_devices (vehicle : VehicleConfig) (transport : string) : option (list string) :=
  (fun b => map dbc_device (bus_dbcs b)) <$>
  last (filter (fun b => bus_name b = transport) (buses vehicle)).

Definition serial_device (vehicle : VehicleConfig) (transport : string) : option string :=
  (fun s => match ser_driver s with Some d => driver_name d | None => ser_decoder s end) <$>
  last (filter (fun s => ser_name s = transport) (serial vehicle)).

Definition check_source_ref (vehicle : VehicleConfig) (name ref : string) : res unit :=
  let err msg := raise ConfigError ("channels." +:+ name +:+ ".from: " +:+ msg) in
  if starts_with "host:" ref then
    if String.eqb ref "host:" then err "host metric is missing" else Ok tt
  else
    match _CAN_SOURCE_RE ref with
    | None => err ("invalid source reference '" +:+ ref +:+ "'")
    | Some (transport, device) =>
        match bus_devices vehicle transport with
        | Some devices =>
            if decide (device ∈ devices) then Ok tt
            else err ("unknown device '" +:+ device +:+ "' on bus '" +:+ transport +:+ "'")
        | None =>
            match serial_device vehicle transport with
            | Some d =>
                if String.eqb device d then Ok tt
                else err ("unknown driver '" +:+ device +:+ "' on serial source '" +:+ transport +:+ "'")
            | None => err ("unknown transport '" +:+ transport +:+ "'")
            end
        end
    end.

Fixpoint _validate_source_refs (vehicle : VehicleConfig) (channels : channels_t) : res unit :=
  match channels with
  | [] => Ok tt
  | (name, channel) :: rest =>
      _ ← check_source_ref vehicle name (source_ref channel);
      _validate_source_refs vehicle rest
  end.

(** * What the validators establish *)

Lemma require_unique_aux_spec description seen values :
  _require_unique_aux description seen values = Ok tt <->
  NoDup values /\ forall v, v ∈ values -> v ∉ seen.
Proof.
  revert seen; induction values as [|v vs IH]; intros seen; simpl.
  - split; [intros _ | done]. split; [constructor | intros v Hv; by apply not_elem_of_nil in Hv].
  - case_decide as Hin.
    + split; [discriminate | intros [_ H]; exfalso; apply (H v); [left | done]].
    + rewrite IH, NoDup_cons; split.
      * intros [Hnd H]; repeat split; [intros Hv; apply (H v Hv); left | done |].
        intros w [->|Hw]%elem_of_cons; [done|]. intros Hs; apply (H w Hw); by right.
      * intros [[Hv Hnd] H]; split; [done|].
        intros w Hw [->|Hs]%elem_of_cons; [done|]. apply (H w); [by right | done].
Qed.

Lemma require_unique_NoDup description values :
  _require_unique values description = Ok tt <-> NoDup values.
Proof.
  unfold _require_unique; rewrite require_unique_aux_spec; split; [tauto|].
  intros; split; [done | intros v _; apply not_elem_of_nil].
Qed.

(** A rounded non-negative number is non-negative. *)
Lemma rne_div_nonneg n d : 0 <= n -> 0 < d -> 0 <= rne_div n d.
Proof.
  intros Hn Hd; unfold rne_div.
  assert (0 <= n / d) by (apply Z.div_pos; lia).
  destruct (2 * (n mod d) ?= d); [destruct (Z.even _)|..]; lia.
Qed.

Lemma fnum_nonneg_ltb x : fltb x f0 = false -> 0 <= fnum x.
Proof.
  destruct x as [| | |[] m e]; simpl; try done.
  intros _; cbn [cond_Zopp]. apply Z.mul_nonneg_nonneg; [lia | apply Z.pow_nonneg; lia].
Qed.

Lemma f_round_nonneg x z : fltb x f0 = false -> f_round x = Ok z -> 0 <= z.
Proof.
  intros Hx; unfold f_round, int_guard. pose proof (fnum_nonneg_ltb x Hx).
  pose proof (rne_div_nonneg (fnum x) (fden x) ltac:(done) (fden_pos x)).
  destruct x; try discriminate; congruence.
Qed.

Lemma parse_duration_ns_nonneg value n : parse_duration_ns value = Ok n -> 0 <= n.
Proof.
  unfold parse_duration_ns. destruct (_DURATION_RE value) as [[x factor]|]; [|discriminate].
  destruct (negb _); [discriminate|]. destruct (fleb _ f0) eqn:E; [discriminate|].
  apply f_round_nonneg. forder.
Qed.

Definition opt_le (a b : option Z) : Prop :=
  match a, b with Some a, Some b => a <= b | _, _ => True end.
Definition opt_nonneg (a : option Z) : Prop := match a with Some a => 0 <= a | None => True end.

(** What every later component may assume of a loaded RBE policy. *)
Definition rbe_wf (p : RbeConfig) : Prop :=
  opt_nonneg (min_interval_ns p) /\ opt_nonneg (max_interval_ns p) /\
  opt_le (min_interval_ns p) (max_interval_ns p) /\
  match deadband p with Some d => fleb f0 d = true | None => True end.

Lemma opt_res_duration o r : opt_res parse_duration_ns o = Ok r -> opt_nonneg r.
Proof.
  destruct o as [s|]; simpl; [|by intros [= <-]].
  intros (n & Hn & [= <-])%res_bind_Ok. by apply parse_duration_ns_nonneg in Hn.
Qed.

Lemma parse_intervals_wf d mn mx p : parse_intervals d mn mx = Ok p -> rbe_wf p.
Proof.
  unfold parse_intervals; intros (u & Hd & (a & Ha & (b & Hb & H)%res_bind_Ok)%res_bind_Ok)%res_bind_Ok.
  apply opt_res_duration in Ha, Hb.
  assert (Hd' : match d with Some d => fleb f0 d = true | None => True end)
    by (destruct d as [d|]; [by destruct (fleb f0 d) | done]).
  destruct a as [a|], b as [b|]; try (injection H as <-; repeat split; done).
  destruct (Z.ltb_spec b a); [discriminate|]. injection H as <-. repeat split; simpl in *; done.
Qed.

(** A source reference resolves when it names a host metric, a device of a
    declared bus, or the driver (else the decoder) of a serial source whose
    name no bus takes. *)
Inductive resolves (vehicle : VehicleConfig) (ref : string) : Prop :=
  | resolves_host :
      starts_with "host:" ref = true -> ref <> "host:" -> resolves vehicle ref
  | resolves_bus transport device devices :
      starts_with "host:" ref = false ->
      _CAN_SOURCE_RE ref = Some (transport, device) ->
      bus_devices vehicle transport = Some devices -> device ∈ devices ->
      resolves vehicle ref
  | resolves_serial transport device :
      starts_with "host:" ref = false ->
      _CAN_SOURCE_RE ref = Some (transport, device) ->
      bus_devices vehicle transport = None ->
      serial_device vehicle transport = Some device ->
      resolves vehicle ref.

Lemma check_source_ref_resolves vehicle name ref :
  check_source_ref vehicle name ref = Ok tt <-> resolves vehicle ref.
Proof.
  unfold check_source_ref; split.
  - destruct (starts_with _ _) eqn:Hh.
    + destruct (String.eqb_spec ref "host:"); [discriminate|]. by constructor.
    + destruct (_CAN_SOURCE_RE ref) as [[t d]|] eqn:Hre; [|discriminate].
      destruct (bus_devices vehicle t) as [ds|] eqn:Hb.
      * case_decide; [intros _; by eapply resolves_bus | discriminate].
      * destruct (serial_device vehicle t) as [d'|] eqn:Hs; [|discriminate].
        destruct (String.eqb_spec d d') as [<-|]; [intros _; by eapply resolves_serial | discriminate].
  - intros [Hh Hne | t d ds Hh Hre Hb Hd | t d Hh Hre Hb Hs]; rewrite Hh; simpl.
    + destruct (String.eqb_spec ref "host:"); done.
    + by rewrite Hre, Hb, decide_True.
    + by rewrite Hre, Hb, Hs, String.eqb_refl.
Qed.

(** The catalog's source references are accepted exactly when every channel's
    reference resolves against the vehicle. *)
Theorem validate_source_refs_spec (vehicle : VehicleConfig) (channels : channels_t) :
  _validate_source_refs vehicle channels = Ok tt <->
  Forall (fun nc => resolves vehicle (source_ref nc.2)) channels.
Proof.
  induction channels as [|[name ch] rest IH]; simpl; [split; [constructor | done]|].
  rewrite Forall_cons, <- IH, <- (check_source_ref_resolves vehicle name); simpl.
  destruct (check_source_ref _ _ _) as [[]|e]; simpl; split; try done; intros []; done.
Qed.

(** Transports are addressable by name: the check passes exactly when bus and
    serial names together have no duplicate. *)
Theorem unique_transports_spec (v : VehicleConfig) :
  unique_transports v = Ok v <->
  NoDup (map bus_name (buses v) ++ map ser_name (serial v)).
Proof.
  unfold unique_transports.
  destruct (_require_unique (map bus_name (buses v)) _) as [[]|e] eqn:H1; simpl.
  2: { split; [discriminate|]. intros (Hb & _ & _)%NoDup_app.
       apply (require_unique_NoDup "bus name") in Hb; congruence. }
  destruct (_require_unique (map ser_name (serial v)) _) as [[]|e] eqn:H2; simpl.
  2: { split; [discriminate|]. intros (_ & _ & Hs)%NoDup_app.
       apply (require_unique_NoDup "serial source name") in Hs; congruence. }
  destruct (_require_unique _ "transport name") as [[]|e] eqn:H3; simpl.
  - split; [intros _; by eapply require_unique_NoDup | done].
  - split; [discriminate|]. intros H%(require_unique_NoDup "transport name"); congruence.
Qed.
