(* ===== verification/Hardware.v ===== *)
(** The host-wiring overlay of a board ([src/core/hardware.py]): which interface
    and port stand behind the transports a profile names. *)

From S2P Require Import Prelude PyFloat Stats PyText Config.

Local Open Scope Z_scope.

(** * The overlay *)

Record CanLinkConfig := mkLink { fd : bool; dbitrate : option Z }.
Definition data_bitrate_needs_fd (self : CanLinkConfig) : res CanLinkConfig :=
  match dbitrate self with
  | Some _ => if fd self then Ok self else raise ValueError "dbitrate is only meaningful with fd: true"
  | None => Ok self
  end.

Record BusHardware := mkBusHardware { bh_interface : option string; bh_bitrate : option Z; bh_link : option CanLinkConfig }.
Record SerialDriverHardware := mkDriverHardware { dh_configure_on_start : option bool }.
Record SerialHardware := mkSerialHardware { sh_port : option string; sh_baud : option Z; sh_driver : option SerialDriverHardware }.
Record HostHardware := mkHostHardware { hh_temperatures : option (list (string * string)) }.
Record HardwareConfig := mkHardware {
  target : string;
  hw_buses : list (string * BusHardware);
  hw_serial : list (string * SerialHardware);
  hw_host : option HostHardware
}.

(** [HardwareConfig.link]: the arguments to bring a bus up. *)
Definition link (self : HardwareConfig) (bus : string) : CanLinkConfig :=
  match od_get bus (hw_buses self) with
  | Some overlay => default (mkLink false None) (bh_link overlay)
  | None => mkLink false None
  end.

(** * Applying it *)

Definition _require_known (named known : list string) (description path : string) : res () :=
  match sort_by String.leb (List.filter (fun n => negb (bool_decide (n ∈ known))) named) with
  | [] => Ok tt
  | unknown :: _ =>
      raise ConfigError (path +:+ ": " +:+ description +:+ " " +:+ repr_str unknown +:+ " is not defined by the profile; the profile defines: "
                         +:+ str_or (join ", " (sort_by String.leb known)) "none")
  end.

(** [_apply] on a bus and on a serial source: the fields the overlay sets. *)
Definition _apply_bus (bus : BusConfig) (overlay : option BusHardware) : BusConfig :=
  match overlay with
  | None => bus
  | Some o => mkBusConfig (bus_name bus) (default (bus_interface bus) (bh_interface o)) (default (bus_bitrate bus) (bh_bitrate o)) (bus_dbcs bus)
  end.
Definition _apply_serial (source : SerialConfig) (overlay : option SerialHardware) : SerialConfig :=
  match overlay with
  | None => source
  | Some o => mkSerialConfig (ser_name source) (default (ser_port source) (sh_port o)) (default (ser_baud source) (sh_baud o))
                (ser_decoder source) (ser_driver source) (ser_raw_log source)
  end.

Definition set_configure (s : Um980Settings) (on : bool) : Um980Settings :=
  mkUm980Settings (rate_hz s) (sentences s) (sentence_rates_hz s) on (pps s) (timing_output s).
Definition set_driver (source : SerialConfig) (d : DriverConfig) : SerialConfig :=
  mkSerialConfig (ser_name source) (ser_port source) (ser_baud source) (ser_decoder source) (Some d) (ser_raw_log source).

Definition _apply_driver (source : SerialConfig) (overlay : option SerialHardware) (path : string) : res SerialConfig :=
  match o ← overlay; d ← sh_driver o; dh_configure_on_start d with
  | None => Ok source
  | Some on =>
      match ser_driver source with
      | None => raise ConfigError (path +:+ ": serial source " +:+ repr_str (ser_name source)
                                   +:+ " has no driver to configure; the profile attaches none to it")
      | Some d => Ok (set_driver source (mkDriverConfig (driver_name d) (set_configure (driver_config d) on)))
      end
  end.

Definition rewire_serial (hardware : HardwareConfig) (path : string) (source : SerialConfig) : res SerialConfig :=
  let overlay := od_get (ser_name source) (hw_serial hardware) in
  _apply_driver (_apply_serial source overlay) overlay path.

Definition _apply_host (h : HostConfig) (overlay : option HostHardware) : HostConfig :=
  match o ← overlay; hh_temperatures o with
  | None => h
  | Some temperatures => mkHostConfig (host_enabled h) (host_interval h) temperatures
  end.

(** The profile rebuilt and validated again; of pydantic's message only the
    failed constraint is kept, not the path of its field. *)
Definition apply_hardware (vehicle : VehicleConfig) (hardware : HardwareConfig) (path : string) : res VehicleConfig :=
  _ ← _require_known (od_keys (hw_buses hardware)) (map bus_name (buses vehicle)) "bus" path;
  _ ← _require_known (od_keys (hw_serial hardware)) (map ser_name (serial vehicle)) "serial source" path;
  let bs := map (fun bus => _apply_bus bus (od_get (bus_name bus) (hw_buses hardware))) (buses vehicle) in
  ss ← res_map (rewire_serial hardware path) (serial vehicle);
  match validate_vehicle (mkVehicleConfig (vehicle_id vehicle) bs ss (_apply_host (host vehicle) (hw_host hardware))) with
  | Ok v => Ok v
  | Raise e => raise ConfigError (path +:+ ": " +:+ exn_msg e)
  end.

(** * What it changes *)

Record bus_rewired (h : HardwareConfig) (b b' : BusConfig) : Prop := BusRewired {
  br_name : bus_name b' = bus_name b;
  br_dbcs : bus_dbcs b' = bus_dbcs b;
  br_interface : bus_interface b' = default (bus_interface b) (o ← od_get (bus_name b) (hw_buses h); bh_interface o);
  br_bitrate : bus_bitrate b' = default (bus_bitrate b) (o ← od_get (bus_name b) (hw_buses h); bh_bitrate o)
}.

Definition asked_configure (h : HardwareConfig) (s : SerialConfig) : option bool :=
  o ← od_get (ser_name s) (hw_serial h); d ← sh_driver o; dh_configure_on_start d.

Record serial_rewired (h : HardwareConfig) (s s' : SerialConfig) : Prop := SerialRewired {
  sr_name : ser_name s' = ser_name s;
  sr_decoder : ser_decoder s' = ser_decoder s;
  sr_raw_log : ser_raw_log s' = ser_raw_log s;
  sr_port : ser_port s' = default (ser_port s) (o ← od_get (ser_name s) (hw_serial h); sh_port o);
  sr_baud : ser_baud s' = default (ser_baud s) (o ← od_get (ser_name s) (hw_serial h); sh_baud o);
  sr_driver : ser_driver s' =
    (fun d => mkDriverConfig (driver_name d) (set_configure (driver_config d) (default (configure_on_start (driver_config d)) (asked_configure h s)))) <$> ser_driver s;
  sr_applies : is_Some (asked_configure h s) -> is_Some (ser_driver s)
}.

Record rewired (h : HardwareConfig) (v v' : VehicleConfig) : Prop := Rewired {
  rw_id : vehicle_id v' = vehicle_id v;
  rw_buses : Forall2 (bus_rewired h) (buses v) (buses v');
  rw_serial : Forall2 (serial_rewired h) (serial v) (serial v');
  rw_enabled : host_enabled (host v') = host_enabled (host v);
  rw_interval : host_interval (host v') = host_interval (host v);
  rw_temperatures : host_temperatures (host v') = default (host_temperatures (host v)) (o ← hw_host h; hh_temperatures o)
}.

Lemma require_known_Ok named known description path u :
  _require_known named known description path = Ok u <-> forall n, n ∈ named -> n ∈ known.
Proof.
  unfold _require_known. set (l := List.filter _ _). pose proof (sort_by_perm String.leb l) as Hp.
  assert (Hl : forall n, n ∈ l <-> n ∈ named /\ n ∉ known).
  { intros n. unfold l. rewrite !list_elem_of_In, List.filter_In, negb_true_iff, bool_decide_eq_false. by rewrite <- !list_elem_of_In. }
  destruct (sort_by String.leb l) as [|x k].
  - apply Permutation_nil in Hp. destruct u. split; [|done]. intros _ n Hn. destruct (decide (n ∈ known)) as [|Hk]; [done|].
    assert (Hin : n ∈ l) by (by apply Hl). rewrite Hp in Hin. by apply elem_of_nil in Hin.
  - split; [discriminate|]. intros H. assert (x ∈ l) as [Hx Hk]%Hl by (rewrite <- Hp; left). destruct (Hk (H x Hx)).
Qed.

Lemma apply_bus_rewired h b : bus_rewired h b (_apply_bus b (od_get (bus_name b) (hw_buses h))).
Proof. unfold _apply_bus. destruct (od_get _ _) as [o|] eqn:E; split; cbn; rewrite ?E; done. Qed.

Lemma settings_eta s : set_configure s (configure_on_start s) = s.
Proof. by destruct s. Qed.

Lemma rewire_serial_rewired h path s s' : rewire_serial h path s = Ok s' -> serial_rewired h s s'.
Proof.
  unfold rewire_serial. intros H.
  unfold _apply_driver in H. fold (asked_configure h s) in H.
  assert (Hfields : ser_name (_apply_serial s (od_get (ser_name s) (hw_serial h))) = ser_name s /\
    ser_decoder (_apply_serial s (od_get (ser_name s) (hw_serial h))) = ser_decoder s /\
    ser_raw_log (_apply_serial s (od_get (ser_name s) (hw_serial h))) = ser_raw_log s /\
    ser_driver (_apply_serial s (od_get (ser_name s) (hw_serial h))) = ser_driver s /\
    ser_port (_apply_serial s (od_get (ser_name s) (hw_serial h))) = default (ser_port s) (o ← od_get (ser_name s) (hw_serial h); sh_port o) /\
    ser_baud (_apply_serial s (od_get (ser_name s) (hw_serial h))) = default (ser_baud s) (o ← od_get (ser_name s) (hw_serial h); sh_baud o))
    by (unfold _apply_serial; by destruct (od_get _ _)).
  destruct Hfields as (Hn & Hde & Hr & Hd & Hp & Hb). revert Hn Hde Hr Hd Hp Hb H.
  generalize (_apply_serial s (od_get (ser_name s) (hw_serial h))). intros t Hn Hde Hr Hd Hp Hb H.
  destruct (asked_configure h s) as [on|] eqn:Ea.
  - rewrite Hd in H. destruct (ser_driver s) as [d|] eqn:Ed; [|discriminate]. injection H as <-.
    split; cbn; rewrite ?Ea, ?Ed; cbn; done.
  - injection H as <-. split; rewrite ?Ea; try done.
    rewrite Hd. destruct (ser_driver s) as [[n c]|]; [|done]. cbn. by rewrite settings_eta.
Qed.

Lemma validate_same v v' : validate_vehicle v = Ok v' -> v' = v.
Proof.
  unfold validate_vehicle, unique_transports. intros H.
  repeat apply res_bind_Ok in H as (? & ? & H). by injection H as <-.
Qed.

Lemma apply_rewires v h path v' :
  apply_hardware v h path = Ok v' ->
  rewired h v v' /\ validate_vehicle v' = Ok v' /\
  (forall n, n ∈ od_keys (hw_buses h) -> n ∈ map bus_name (buses v)) /\ (forall n, n ∈ od_keys (hw_serial h) -> n ∈ map ser_name (serial v)).
Proof.
  unfold apply_hardware. intros (u1 & H1 & H)%res_bind_Ok. apply res_bind_Ok in H as (u2 & H2 & H).
  pose proof (proj1 (require_known_Ok _ _ _ _ _) H1) as Hb. pose proof (proj1 (require_known_Ok _ _ _ _ _) H2) as Hs.
  apply res_bind_Ok in H as (ss & Hss & H). destruct (validate_vehicle _) as [w|e] eqn:E; [|discriminate]. injection H as ->.
  pose proof (validate_same _ _ E) as ->. split_and!; [|exact E|done|done].
  split; cbn [buses serial host vehicle_id]; [done| | | | |].
  - clear. induction (buses v) as [|b l IH]; cbn; [constructor|]; constructor; [apply apply_bus_rewired|exact IH].
  - eapply res_map_Forall2; [|exact Hss]. intros s s'. apply rewire_serial_rewired.
  - unfold _apply_host. by destruct (o ← hw_host h; _).
  - unfold _apply_host. by destruct (o ← hw_host h; _).
  - unfold _apply_host. by destruct (o ← hw_host h; _).
Qed.

Lemma last_filter_Forall2 {A B : Type} (R : A -> A -> Prop) (P : A -> Prop) `{!forall a, Decision (P a)} (f : A -> B) l l' :
  (forall a a', R a a' -> (P a' <-> P a) /\ f a' = f a) -> Forall2 R l l' ->
  f <$> last (filter P l') = f <$> last (filter P l).
Proof.
  intros HR HF. assert (Hm : map f (filter P l') = map f (filter P l)).
  { induction HF as [|a a' l l' Ha HF IH]; [done|]. destruct (HR a a' Ha) as [HP Hf]. rewrite !filter_cons.
    destruct (decide (P a)), (decide (P a')); cbn; rewrite ?IH, ?Hf; naive_solver. }
  revert Hm. generalize (filter P l') (filter P l). clear. intros k k' Hm. rewrite <- !fmap_last. by f_equal.
Qed.

Lemma rewired_refs h v v' channels : rewired h v v' -> _validate_source_refs v' channels = _validate_source_refs v channels.
Proof.
  intros Hr. assert (Hb : forall t, bus_devices v' t = bus_devices v t).
  { intros t. unfold bus_devices. eapply last_filter_Forall2; [|exact (rw_buses _ _ _ Hr)].
    intros b b' [Hn Hd _ _]. by rewrite Hn, Hd. }
  assert (Hs : forall t, serial_device v' t = serial_device v t).
  { intros t. unfold serial_device. eapply last_filter_Forall2; [|exact (rw_serial _ _ _ Hr)].
    intros s s' [Hn Hd _ _ _ Hdr _]. rewrite Hn, Hd, Hdr. by destruct (ser_driver s). }
  assert (Hc : forall name ref, check_source_ref v' name ref = check_source_ref v name ref).
  { intros name ref. unfold check_source_ref. destruct (starts_with _ _); [done|]. destruct (_CAN_SOURCE_RE ref) as [[t d]|]; [|done].
    by rewrite Hb, Hs. }
  induction channels as [|[name ch] rest IH]; [done|]. cbn [_validate_source_refs]. by rewrite Hc, IH.
Qed.

(** An overlay the profile accepts changes the wiring and nothing else: every
    transport keeps its name, devices, decoder and driver, takes exactly the
    interface, bitrate, port, baud and driver start the overlay sets for it,
    and a catalog's source references resolve as they did before. No key of the
    overlay is passed over, and what comes out passes the profile's own
    validation. *)
Theorem overlay_changes_only_the_wiring (vehicle vehicle' : VehicleConfig) (hardware : HardwareConfig) (path : string) :
  apply_hardware vehicle hardware path = Ok vehicle' ->
  rewired hardware vehicle vehicle' /\ validate_vehicle vehicle' = Ok vehicle' /\
  (forall n, n ∈ od_keys (hw_buses hardware) -> n ∈ map bus_name (buses vehicle)) /\
  (forall n, n ∈ od_keys (hw_serial hardware) -> n ∈ map ser_name (serial vehicle)) /\
  (forall channels, _validate_source_refs vehicle' channels = _validate_source_refs vehicle channels).
Proof.
  intros (Hr & Hv & Hb & Hs)%apply_rewires. split_and!; try done. intros channels. by eapply rewired_refs.
Qed.

Lemma bus_rewired_again h b b' : bus_rewired h b b' -> _apply_bus b' (od_get (bus_name b') (hw_buses h)) = b'.
Proof.
  intros [Hn Hd Hi Hb]. unfold _apply_bus. rewrite Hn. destruct (od_get (bus_name b) (hw_buses h)) as [o|]; [|done].
  destruct b' as [n i r d]. cbn in *. subst. by destruct (bh_interface o), (bh_bitrate o).
Qed.

Lemma serial_rewired_again h path s s' : serial_rewired h s s' -> rewire_serial h path s' = Ok s'.
Proof.
  intros [Hn Hd Hr Hp Hb Hdr Ha]. unfold rewire_serial, _apply_driver. rewrite Hn. fold (asked_configure h s).
  assert (Hsame : _apply_serial s' (od_get (ser_name s) (hw_serial h)) = s').
  { unfold _apply_serial. destruct (od_get (ser_name s) (hw_serial h)) as [o|]; [|done]. destruct s' as [n p r d dr l].
    cbn in *. subst. by destruct (sh_port o), (sh_baud o). }
  rewrite Hsame. destruct (asked_configure h s) as [on|]; [|done]. destruct (ser_driver s) as [d|]; [|by destruct (Ha ltac:(eauto))].
  rewrite Hdr. cbn. unfold set_driver. destruct s'. cbn in *. by rewrite Hdr.
Qed.

Lemma res_map_id {A : Type} (f : A -> res A) l : Forall (fun a => f a = Ok a) l -> res_map f l = Ok l.
Proof. induction 1 as [|a l Ha _ IH]; cbn; [done|]. rewrite Ha. cbn. by rewrite IH. Qed.

(** Wiring a wired profile to the same board again changes nothing. *)
Theorem overlay_is_idempotent (vehicle vehicle' : VehicleConfig) (hardware : HardwareConfig) (path : string) :
  apply_hardware vehicle hardware path = Ok vehicle' -> apply_hardware vehicle' hardware path = Ok vehicle'.
Proof.
  intros (Hr & Hv & Hb & Hs)%apply_rewires. destruct Hr as [Hid Hbs Hss Hen Hin Ht].
  assert (Hbn : map bus_name (buses vehicle') = map bus_name (buses vehicle))
    by (clear -Hbs; induction Hbs as [|b b' l l' Hbb _ IH]; cbn; [done|]; by rewrite (br_name _ _ _ Hbb), IH).
  assert (Hsn : map ser_name (serial vehicle') = map ser_name (serial vehicle))
    by (clear -Hss; induction Hss as [|b b' l l' Hbb _ IH]; cbn; [done|]; by rewrite (sr_name _ _ _ Hbb), IH).
  unfold apply_hardware. rewrite Hbn, Hsn.
  rewrite (proj2 (require_known_Ok (od_keys (hw_buses hardware)) _ "bus" path tt) Hb). cbn [mbind res_bind].
  rewrite (proj2 (require_known_Ok (od_keys (hw_serial hardware)) _ "serial source" path tt) Hs). cbn [mbind res_bind].
  assert (Hbus : map (fun bus => _apply_bus bus (od_get (bus_name bus) (hw_buses hardware))) (buses vehicle') = buses vehicle').
  { clear -Hbs. induction Hbs as [|b b' l l' Hbb _ IH]; cbn; [done|]. by rewrite IH, (bus_rewired_again _ _ _ Hbb). }
  rewrite Hbus, res_map_id.
  2: { eapply Forall2_Forall_r; [exact Hss|]. apply Forall_true. intros s' s Hr. by eapply serial_rewired_again. }
  assert (Hhost : _apply_host (host vehicle') (hw_host hardware) = host vehicle').
  { unfold _apply_host. destruct (o ← hw_host hardware; hh_temperatures o) as [t|]; [|done].
    destruct (host vehicle'). cbn in *. by subst. }
  rewrite Hhost. cbn [mbind res_bind]. destruct vehicle' as [i bs ss ho]. cbn [vehicle_id buses serial host] in *. by rewrite Hv.
Qed.

(** * On a board *)

Module Board.
Definition um980 : DriverConfig := mkDriverConfig "um980" (mkUm980Settings 50 ["RMC"; "GGA"] [("gga", 10)] true None None).
Definition car : VehicleConfig :=
  mkVehicleConfig "car1" [mkBusConfig "can0" "can0" 1000000 [mkDbcConfig "ecu" "ecu.dbc"]]
    [mkSerialConfig "serial0" "/dev/ttyUSB0" 115200 "nmea" (Some um980) false; mkSerialConfig "serial1" "/dev/ttyS1" 9600 "nmea" None true]
    (mkHostConfig true "5s" [("cpu", "coretemp.core_0")]).
Definition luckfox : HardwareConfig :=
  mkHardware "luckfox" [("can0", mkBusHardware None (Some 500000) (Some (mkLink true (Some 2000000))))]
    [("serial0", mkSerialHardware (Some "/dev/ttyS9") None (Some (mkDriverHardware (Some false))))] (Some (mkHostHardware (Some []))).
Definition wired : VehicleConfig :=
  mkVehicleConfig "car1" [mkBusConfig "can0" "can0" 500000 [mkDbcConfig "ecu" "ecu.dbc"]]
    [mkSerialConfig "serial0" "/dev/ttyS9" 115200 "nmea"
       (Some (mkDriverConfig "um980" (mkUm980Settings 50 ["RMC"; "GGA"] [("gga", 10)] false None None))) false;
     mkSerialConfig "serial1" "/dev/ttyS1" 9600 "nmea" None true]
    (mkHostConfig true "5s" []).
End Board.

Lemma overlay_changes_only_the_wiring_witness :
  apply_hardware Board.car Board.luckfox "hw.yaml" = Ok Board.wired /\ rewired Board.luckfox Board.car Board.wired.
Proof.
  assert (H : apply_hardware Board.car Board.luckfox "hw.yaml" = Ok Board.wired) by (vm_compute; reflexivity).
  split; [exact H|]. apply (overlay_changes_only_the_wiring Board.car Board.wired Board.luckfox "hw.yaml" H).
Defined.

Lemma overlay_is_idempotent_witness : apply_hardware Board.wired Board.luckfox "hw.yaml" = Ok Board.wired.
Proof. apply (overlay_is_idempotent Board.car Board.wired Board.luckfox "hw.yaml"). vm_compute; reflexivity. Defined.

(** A misspelt transport, a driver setting for a source without a driver, and a
    bitrate of zero are refused, each naming the file. *)
Example bad_overlays_are_refused :
  let asks bs ss := apply_hardware Board.car (mkHardware "x" bs ss None) "hw.yaml" in
  asks [("can1", mkBusHardware None None None)] [] =
    raise ConfigError "hw.yaml: bus 'can1' is not defined by the profile; the profile defines: can0" /\
  asks [] [("serial1", mkSerialHardware None None (Some (mkDriverHardware (Some true))))] =
    raise ConfigError "hw.yaml: serial source 'serial1' has no driver to configure; the profile attaches none to it" /\
  match asks [("can0", mkBusHardware None (Some 0) None)] [] with Raise e => exn_kind e = ConfigError | Ok _ => False end.
Proof. vm_compute. split_and!; reflexivity. Qed.
