(* ===== verification/Wire.v ===== *)
(** Samples and wire messages ([src/core/samples.py], [proto/telemetry.proto]).

    The protobuf runtime is not part of the repository: [Codec] is its
    contract (a payload type, a serialiser and a parser), with the one law
    the consumers rely on.  Field widths are the ones the schema declares;
    the runtime refuses an integer that does not fit with a [ValueError]. *)

From S2P Require Import Prelude PyFloat.

Local Open Scope Z_scope.

(** * Samples *)

Inductive SampleValue :=
  | VFloat (x : float)
  | VInt (z : Z)
  | VBool (b : bool)
  | VStr (s : string).

Record Sample := mkSample {
  s_source_ref : string;
  s_t_mono_ns : Z;
  s_t_wall_ms : float;
  s_value : SampleValue
}.

(** [isinstance(v, (int, float)) and not isinstance(v, bool)]. *)
Definition numeric_value (v : SampleValue) : option num :=
  match v with VFloat x => Some (NFloat x) | VInt z => Some (NInt z) | _ => None end.

(** * The wire schema *)

Inductive ValueType := UNSPECIFIED | DOUBLE | INT64 | BOOL | STRING | FLOAT | UINT.

#[export] Instance ValueType_eq_dec : EqDecision ValueType.
Proof. solve_decision. Defined.

Record Channel := mkChannel {
  c_id : Z;
  c_name : string;
  c_source_ref : string;
  c_units : string;
  c_type : ValueType;
  c_scale : float;
  c_offset : float
}.

Record ChannelRegistry := mkRegistry {
  r_registry_seq : Z;
  r_vehicle_id : string;
  r_created_unix_ms : Z;
  r_channels : list Channel
}.

(** The [oneof value] of a wire sample. *)
Inductive wire_value :=
  | W_d (x : float)
  | W_i (z : Z)
  | W_b (b : bool)
  | W_s (s : string)
  | W_f (x : float)
  | W_u (z : Z).

Record PbSample := mkPbSample {
  p_channel_id : Z;
  p_t_offset_us : Z;
  p_value : option wire_value
}.

Record SampleBatch := mkSampleBatch {
  b_registry_seq : Z;
  b_epoch_unix_ms : Z;
  b_epoch_mono_ns : Z;
  b_samples : list PbSample;
  b_format_version : Z
}.

Inductive pb_kind := uint32 | uint64 | sint64 | fixed64.

Definition pb_fits (k : pb_kind) (z : Z) : bool :=
  match k with
  | uint32 => (0 <=? z) && (z <? 2 ^ 32)
  | uint64 | fixed64 => (0 <=? z) && (z <? 2 ^ 64)
  | sint64 => (- 2 ^ 63 <=? z) && (z <? 2 ^ 63)
  end.

(** Assigning an integer field. *)
Definition pb_int (k : pb_kind) (z : Z) : res Z :=
  if pb_fits k z then Ok z else raise ValueError ("Value out of range: " +:+ pretty z).

(** The binary32 nearest to a double, held as a double: what a [float] field
    stores. *)
Definition f32_of (x : float) : float :=
  match x with
  | S754_finite s m e =>
      match binary_round 24 128 s m e with
      | S754_finite s m e => binary_round 53 1024 s m e
      | y => y
      end
  | _ => x
  end.

(** * The protobuf runtime *)

Class Codec := {
  payload : Type;
  serialize_batch : SampleBatch -> payload;
  parse_batch : payload -> option SampleBatch;
  serialize_registry : ChannelRegistry -> payload;
  parse_registry : payload -> option ChannelRegistry
}.

(** Parsing what was serialised gives the message back. *)
Class CodecLaws `{Codec} : Prop := {
  parse_serialize_batch b : parse_batch (serialize_batch b) = Some b;
  parse_serialize_registry r : parse_registry (serialize_registry r) = Some r
}.

(** A concrete codec, for evaluating the model: the message itself. *)
Definition TaggedCodec : Codec := {|
  payload := SampleBatch + ChannelRegistry;
  serialize_batch := inl;
  parse_batch p := match p with inl b => Some b | inr _ => None end;
  serialize_registry := inr;
  parse_registry p := match p with inr r => Some r | inl _ => None end
|}.

Lemma TaggedCodecLaws : @CodecLaws TaggedCodec.
Proof. split; reflexivity. Qed.

Lemma pb_int_Ok k z z' : pb_int k z = Ok z' -> z' = z /\ pb_fits k z = true.
Proof. unfold pb_int; destruct (pb_fits k z); [by intros [= <-] | discriminate]. Qed.
