(* ===== verification/Catalog.v ===== *)
(** The runtime catalog ([src/core/catalog.py]): the mapping from source
    references to channel ids and policies, the channel registry, and the
    persisted registry generation.

    [build] is the loop of [build_runtime_catalog]; [catalog_wf] is the
    consistency the mapper, the batcher and the timing app rely on, and
    [build_wf] proves it of every catalog that is built. *)

From S2P Require Import Prelude PyFloat Config Wire.

Local Open Scope Z_scope.

Definition DERIVED_ID_START : Z := 2 ^ 31.

Record ChannelPolicy := mkPolicy {
  pol_name : string;
  pol_value_type : ValueType;
  pol_rbe : option RbeConfig;
  pol_scale : float;
  pol_offset : float
}.

Record DerivedChannel := mkDerived {
  der_name : string;
  der_value_type : ValueType;
  der_units : string
}.

Definition DEFAULT_DERIVED_CHANNELS : list DerivedChannel := [
  mkDerived "lap.event" STRING "";
  mkDerived "lap.number" INT64 "";
  mkDerived "lap.sector" INT64 "";
  mkDerived "lap.last_time" DOUBLE "s";
  mkDerived "lap.best_time" DOUBLE "s";
  mkDerived "timing.delta_best" DOUBLE "s";
  mkDerived "timing.predicted_lap" DOUBLE "s";
  mkDerived "timing.distance" DOUBLE "m";
  mkDerived "timing.lap_elapsed" DOUBLE "s"
].

(** The table [_VALUE_TYPES], split over the two enumerations that index it. *)
Definition encode_value_type (t : encode_type) : ValueType :=
  match t with enc_double => DOUBLE | enc_float => FLOAT | enc_uint => UINT | enc_int => INT64 end.
Definition channel_value_type (t : channel_type) : ValueType :=
  match t with ch_double => DOUBLE | ch_int => INT64 | ch_bool => BOOL | ch_string => STRING end.

Definition _channel_policy (name : string) (channel : ChannelConfig) : ChannelPolicy :=
  match encode channel with
  | None => mkPolicy name (channel_value_type (ch_type channel)) (rbe channel) f0 f0
  | Some e => mkPolicy name (encode_value_type (enc_type e)) (rbe channel) (enc_scale e) (enc_offset e)
  end.

(** The lookups under construction, and the registry's channels in order. *)
Record RuntimeCatalog := mkCatalog {
  source_map : gmap string (Z * ChannelPolicy);
  channel_ids : gmap string Z;
  policies_by_id : gmap Z ChannelPolicy;
  registry_channels : list Channel
}.

Definition empty_catalog : RuntimeCatalog := mkCatalog ∅ ∅ ∅ [].

Definition _add_mapping (m : gmap string (Z * ChannelPolicy)) (source_ref : string) (channel_id : Z)
    (policy : ChannelPolicy) : res (gmap string (Z * ChannelPolicy)) :=
  match m !! source_ref with
  | Some other =>
      raise ConfigError ("channels." +:+ pol_name policy +:+ ".from: source reference '" +:+ source_ref
                         +:+ "' is already mapped by '" +:+ pol_name other.2 +:+ "'")
  | None => Ok (<[source_ref := (channel_id, policy)]> m)
  end.

(** One loop body: map the reference, then register the channel. *)
Definition add_entry (c : RuntimeCatalog) (channel_id : Z) (ref units : string)
    (policy : ChannelPolicy) : res RuntimeCatalog :=
  sm ← _add_mapping (source_map c) ref channel_id policy;
  Ok (mkCatalog sm
        (<[pol_name policy := channel_id]> (channel_ids c))
        (<[channel_id := policy]> (policies_by_id c))
        (registry_channels c ++
         [mkChannel channel_id (pol_name policy) ref units (pol_value_type policy)
            (pol_scale policy) (pol_offset policy)])).

Fixpoint add_channels (c : RuntimeCatalog) (channel_id : Z) (channels : channels_t)
    : res RuntimeCatalog :=
  match channels with
  | [] => Ok c
  | (name, config) :: rest =>
      c ← add_entry c channel_id (source_ref config) (units config) (_channel_policy name config);
      add_channels c (channel_id + 1) rest
  end.

Fixpoint add_derived (c : RuntimeCatalog) (channel_id : Z) (derived : list DerivedChannel)
    : res RuntimeCatalog :=
  match derived with
  | [] => Ok c
  | d :: rest =>
      match channel_ids c !! der_name d with
      | Some _ => raise ConfigError ("duplicate derived channel '" +:+ der_name d +:+ "'")
      | None =>
          c ← add_entry c channel_id ("derived:" +:+ der_name d) (der_units d)
                (mkPolicy (der_name d) (der_value_type d) None f0 f0);
          add_derived c (channel_id + 1) rest
      end
  end.

(** The loops of [build_runtime_catalog]. *)
Definition build (channels : channels_t) (derived : list DerivedChannel) : res RuntimeCatalog :=
  c ← add_channels empty_catalog 1 channels;
  add_derived c DERIVED_ID_START derived.

(** * The persisted registry generation *)

(** What reading the state file can find. *)
Inductive state_file :=
  | file_missing
  | file_unreadable (reason : string)
  | file_text (text : string).

Section RegistryState.
(** [json.loads] and [json.dumps]: the text of a JSON value and back. *)
Context (json_loads : string -> option obj) (json_dumps : obj -> string).

Definition registry_state_obj (catalog_hash : string) (registry_seq : Z) : obj :=
  ODict [("catalog_hash", OStr catalog_hash); ("registry_seq", OInt registry_seq)].

(** The previous hash and generation; [None] and 0 when there is no file. *)
Definition read_registry_state (f : state_file) : res (option string * Z) :=
  match f with
  | file_missing => Ok (None, 0)
  | file_unreadable reason => raise ConfigError ("unable to read registry state: " +:+ reason)
  | file_text text =>
      match json_loads text with
      | Some (ODict d) =>
          match od_get "catalog_hash" d, od_get "registry_seq" d with
          | Some (OStr h), Some (OInt n) => Ok (Some h, n)
          | _, _ => raise ConfigError "invalid registry state"
          end
      | _ => raise ConfigError "invalid registry state"
      end
  end.

(** The generation for this catalog and the file afterwards; [can_write]
    says whether the atomic replacement succeeds. *)
Definition _update_registry_state_locked (f : state_file) (catalog_hash : string) (can_write : bool)
    : state_file * res Z :=
  match read_registry_state f with
  | Raise e => (f, Raise e)
  | Ok (previous_hash, previous_seq) =>
      let same := bool_decide (previous_hash = Some catalog_hash) in
      let registry_seq := if same then previous_seq else previous_seq + 1 in
      if negb ((1 <=? registry_seq) && (registry_seq <=? 2 ^ 32 - 1)) then
        (f, raise ConfigError "registry_seq exhausted uint32 range")
      else if same then (f, Ok registry_seq)
      else if can_write then
        (file_text (json_dumps (registry_state_obj catalog_hash registry_seq)), Ok registry_seq)
      else (f, raise ConfigError "unable to persist registry state")
  end.
End RegistryState.

(** * Consistency of a built catalog *)

(** Every mapped reference leads to a channel whose policy and id the other
    tables agree on; the registry lists exactly the mapped channels, each id
    once; the batcher knows exactly the registered ids. *)
Record catalog_wf (c : RuntimeCatalog) : Prop := {
  wf_policy ref id pol :
    source_map c !! ref = Some (id, pol) ->
    policies_by_id c !! id = Some pol /\ channel_ids c !! pol_name pol = Some id;
  wf_registry ch :
    ch ∈ registry_channels c ->
    exists pol, source_map c !! c_source_ref ch = Some (c_id ch, pol) /\
      ch = mkChannel (c_id ch) (pol_name pol) (c_source_ref ch) (c_units ch)
             (pol_value_type pol) (pol_scale pol) (pol_offset pol);
  wf_registered ref id pol :
    source_map c !! ref = Some (id, pol) ->
    exists ch, ch ∈ registry_channels c /\ c_id ch = id /\ c_source_ref ch = ref;
  wf_ids : NoDup (map c_id (registry_channels c));
  wf_known id : is_Some (policies_by_id c !! id) -> id ∈ map c_id (registry_channels c);
  wf_names name id :
    channel_ids c !! name = Some id -> exists pol, policies_by_id c !! id = Some pol /\ pol_name pol = name
}.

Definition ids_of (c : RuntimeCatalog) : list Z := map c_id (registry_channels c).

Lemma empty_catalog_wf : catalog_wf empty_catalog.
Proof.
  split; cbn [empty_catalog source_map channel_ids policies_by_id registry_channels].
  - intros ref id pol; rewrite lookup_empty; done.
  - intros ch H; by apply not_elem_of_nil in H.
  - intros ref id pol; rewrite lookup_empty; done.
  - constructor.
  - intros id [pol Hpol]; by rewrite lookup_empty in Hpol.
  - intros name id; rewrite lookup_empty; done.
Qed.

Lemma add_entry_inv c id ref u pol c' :
  add_entry c id ref u pol = Ok c' ->
  source_map c !! ref = None /\
  c' = mkCatalog (<[ref := (id, pol)]> (source_map c)) (<[pol_name pol := id]> (channel_ids c))
         (<[id := pol]> (policies_by_id c))
         (registry_channels c ++ [mkChannel id (pol_name pol) ref u (pol_value_type pol)
                                    (pol_scale pol) (pol_offset pol)]).
Proof.
  unfold add_entry, _add_mapping; intros (sm & Hsm & [= <-])%res_bind_Ok.
  destruct (source_map c !! ref); [discriminate | injection Hsm as <-; done].
Qed.

Lemma mapped_id_known c ref id pol :
  catalog_wf c -> source_map c !! ref = Some (id, pol) -> id ∈ ids_of c.
Proof.
  intros Hwf (ch & Hch & <- & _)%(wf_registered _ Hwf).
  unfold ids_of; apply list_elem_of_In, in_map, list_elem_of_In, Hch.
Qed.

Lemma add_entry_wf c id ref u pol c' :
  catalog_wf c -> id ∉ ids_of c -> channel_ids c !! pol_name pol = None ->
  add_entry c id ref u pol = Ok c' -> catalog_wf c'.
Proof.
  intros Hwf Hid Hname (Href & ->)%add_entry_inv.
  split; simpl.
  - intros r i q; rewrite lookup_insert; case_decide as Hr.
    + intros [= <- <-]; by rewrite !lookup_insert_eq.
    + intros Hq; pose proof (mapped_id_known _ _ _ _ Hwf Hq) as Hk.
      apply (wf_policy _ Hwf) in Hq as [Hp Hn].
      rewrite !lookup_insert_ne by congruence; done.
  - intros ch [Hch| ->%list_elem_of_singleton]%elem_of_app; simpl.
    + destruct (wf_registry _ Hwf ch Hch) as (q & Hq & Hch').
      exists q; split; [|done]. rewrite lookup_insert_ne; [done | congruence].
    + exists pol; by rewrite lookup_insert_eq.
  - intros r i q; rewrite lookup_insert; case_decide as Hr.
    + intros [= <- <-]; eexists; split; [apply elem_of_app; right; apply list_elem_of_singleton|]; done.
    + intros (ch & Hch & ?)%(wf_registered _ Hwf). exists ch; split; [|done].
      apply elem_of_app; by left.
  - rewrite map_app; apply NoDup_app; split_and!; [apply (wf_ids _ Hwf) | | apply NoDup_singleton].
    intros x Hx ->%list_elem_of_singleton; done.
  - intros i; rewrite map_app, elem_of_app, lookup_insert; case_decide as Hi.
    + subst; intros _; right; apply list_elem_of_singleton; done.
    + intros H; left; by apply (wf_known _ Hwf).
  - intros x i; rewrite lookup_insert; case_decide as Hx.
    + intros [= <-]. exists pol; by rewrite lookup_insert_eq.
    + intros (q & Hq & Hqn)%(wf_names _ Hwf). exists q; split; [|done].
      rewrite lookup_insert_ne; [done|]. intros <-. apply Hid, (wf_known _ Hwf); by exists q.
Qed.

(** Consecutive ids from [n]. *)
Fixpoint number (n : Z) (names : list string) : list (Z * string) :=
  match names with [] => [] | x :: r => (n, x) :: number (n + 1) r end.

Definition id_names (c : RuntimeCatalog) : list (Z * string) :=
  map (fun ch => (c_id ch, c_name ch)) (registry_channels c).

Lemma ids_of_id_names c : ids_of c = map fst (id_names c).
Proof. unfold ids_of, id_names; rewrite map_map; done. Qed.

Lemma number_bounds n names i : i ∈ map fst (number n names) -> n <= i < n + Z.of_nat (length names).
Proof.
  revert n; induction names as [|x r IH]; intros n; simpl; [intros H; by apply not_elem_of_nil in H|].
  intros [->|H%IH]%elem_of_cons; lia.
Qed.

Lemma add_channels_id_names channels c n c' :
  add_channels c n channels = Ok c' -> id_names c' = id_names c ++ number n channels.*1.
Proof.
  revert c n; induction channels as [|[name cfg] rest IH]; intros c n; simpl.
  - intros [= <-]; by rewrite app_nil_r.
  - intros (c1 & (_ & ->)%add_entry_inv & ->%IH)%res_bind_Ok.
    unfold id_names; simpl. rewrite map_app, <- app_assoc; simpl.
    by unfold _channel_policy; destruct (encode cfg).
Qed.

Lemma add_derived_id_names derived c n c' :
  add_derived c n derived = Ok c' -> id_names c' = id_names c ++ number n (map der_name derived).
Proof.
  revert c n; induction derived as [|d rest IH]; intros c n; simpl.
  - intros [= <-]; by rewrite app_nil_r.
  - destruct (channel_ids c !! der_name d); [discriminate|].
    intros (c1 & (_ & ->)%add_entry_inv & ->%IH)%res_bind_Ok.
    unfold id_names; simpl. by rewrite map_app, <- app_assoc.
Qed.

(** Ids are compact from one in catalog order, and derived channels are
    numbered from [2^31] in their own order: adding a catalog entry never
    renumbers a derived channel. *)
Theorem build_ids (channels : channels_t) (derived : list DerivedChannel) (c : RuntimeCatalog)
    (Hbuild : build channels derived = Ok c) :
  id_names c = number 1 channels.*1 ++ number DERIVED_ID_START (map der_name derived).
Proof.
  apply res_bind_Ok in Hbuild as (c1 & H1 & H2).
  apply add_channels_id_names in H1; apply add_derived_id_names in H2. by rewrite H2, H1.
Qed.

Lemma channel_policy_name name cfg : pol_name (_channel_policy name cfg) = name.
Proof. unfold _channel_policy; by destruct (encode cfg). Qed.

Lemma add_channels_wf channels c n c' :
  catalog_wf c -> (forall i, i ∈ ids_of c -> i < n) ->
  NoDup channels.*1 -> (forall name, name ∈ channels.*1 -> channel_ids c !! name = None) ->
  add_channels c n channels = Ok c' -> catalog_wf c'.
Proof.
  revert c n; induction channels as [|[name cfg] rest IH]; intros c n Hwf Hlt; simpl.
  - by intros _ _ [= <-].
  - intros [Hni Hnd]%NoDup_cons Hfresh (c1 & Hadd & Hrest)%res_bind_Ok.
    pose proof (channel_policy_name name cfg) as Hpn.
    assert (Hwf1 : catalog_wf c1).
    { eapply add_entry_wf; [exact Hwf | | | exact Hadd].
      - intros Hi%Hlt; lia.
      - rewrite Hpn; apply Hfresh; left. }
    apply add_entry_inv in Hadd as (_ & ->).
    eapply IH; [exact Hwf1 | | exact Hnd | | exact Hrest].
    + unfold ids_of; simpl; intros i; rewrite map_app, elem_of_app.
      intros [Hi%Hlt| ->%list_elem_of_singleton]; simpl; lia.
    + simpl; intros x Hx; rewrite Hpn, lookup_insert_ne by (intros ->; done).
      apply Hfresh; by right.
Qed.

Lemma add_derived_wf derived c n c' :
  catalog_wf c -> (forall i, i ∈ ids_of c -> i < n) ->
  add_derived c n derived = Ok c' -> catalog_wf c'.
Proof.
  revert c n; induction derived as [|d rest IH]; intros c n Hwf Hlt; simpl.
  - by intros [= <-].
  - destruct (channel_ids c !! der_name d) eqn:Hname; [discriminate|].
    intros (c1 & Hadd & Hrest)%res_bind_Ok.
    assert (Hwf1 : catalog_wf c1).
    { eapply add_entry_wf; [exact Hwf | | | exact Hadd]; [intros Hi%Hlt; lia | done]. }
    apply add_entry_inv in Hadd as (_ & ->).
    eapply IH; [exact Hwf1 | | exact Hrest].
    unfold ids_of; simpl; intros i; rewrite map_app, elem_of_app.
    intros [Hi%Hlt| ->%list_elem_of_singleton]; simpl; lia.
Qed.

Lemma build_consistent (channels : channels_t) (derived : list DerivedChannel) (c : RuntimeCatalog)
    (Hkeys : NoDup channels.*1) (Hfew : Z.of_nat (length channels) < DERIVED_ID_START)
    (Hbuild : build channels derived = Ok c) :
  catalog_wf c.
Proof.
  apply res_bind_Ok in Hbuild as (c1 & H1 & H2).
  assert (catalog_wf c1) as Hwf1.
  { eapply add_channels_wf; [apply empty_catalog_wf | | exact Hkeys | | exact H1].
    - intros i Hi; by apply not_elem_of_nil in Hi.
    - intros; apply lookup_empty. }
  eapply add_derived_wf; [exact Hwf1 | | exact H2].
  intros i; rewrite ids_of_id_names, (add_channels_id_names _ _ _ _ H1); simpl.
  intros Hi%number_bounds. rewrite length_fmap in Hi. lia.
Qed.

(** Whatever the profile, a catalog that is built is consistent. *)
Theorem build_wf (channels : channels_t) (derived : list DerivedChannel) (c : RuntimeCatalog)
    (Hkeys : NoDup channels.*1) (Hfew : Z.of_nat (length channels) < DERIVED_ID_START)
    (Hbuild : build channels derived = Ok c) :
  catalog_wf c.
Proof. by eapply build_consistent. Qed.

(** A derived channel is mapped from its own reference to its own policy. *)
Lemma add_derived_keeps derived c n c' ref x :
  source_map c !! ref = Some x -> add_derived c n derived = Ok c' -> source_map c' !! ref = Some x.
Proof.
  revert c n; induction derived as [|d rest IH]; intros c n Hx; simpl; [by intros [= <-]|].
  destruct (channel_ids c !! der_name d); [discriminate|].
  intros (c1 & (Hn & ->)%add_entry_inv & Hrest)%res_bind_Ok. eapply IH; [|exact Hrest].
  simpl. rewrite lookup_insert_ne; [done | congruence].
Qed.

Lemma build_derived_mapped channels derived c d :
  build channels derived = Ok c -> d ∈ derived ->
  exists id, source_map c !! ("derived:" +:+ der_name d) =
    Some (id, mkPolicy (der_name d) (der_value_type d) None f0 f0).
Proof.
  intros (c1 & _ & Hd)%res_bind_Ok; revert c1 Hd. generalize DERIVED_ID_START as n.
  induction derived as [|d' rest IH]; intros n c1; simpl; [by intros _ ?%not_elem_of_nil|].
  destruct (channel_ids c1 !! der_name d'); [discriminate|].
  intros (c2 & (_ & ->)%add_entry_inv & Hrest)%res_bind_Ok [->|Hin]%elem_of_cons; [|by eapply IH].
  eexists; eapply add_derived_keeps; [|exact Hrest]. simpl; by rewrite lookup_insert_eq.
Qed.

(** No derived channel has the name of a profile's channel. *)
Lemma add_channels_names channels c n c' name :
  add_channels c n channels = Ok c' -> is_Some (channel_ids c !! name) \/ name ∈ channels.*1 ->
  is_Some (channel_ids c' !! name).
Proof.
  revert c n; induction channels as [|[x cfg] rest IH]; intros c n; simpl.
  - by intros [= <-] [?|?%not_elem_of_nil].
  - intros (c1 & (_ & ->)%add_entry_inv & Hrest)%res_bind_Ok Hn. eapply IH; [exact Hrest|]; simpl.
    rewrite channel_policy_name, lookup_insert. case_decide; [left; by eexists|].
    destruct Hn as [?|[->|?]%elem_of_cons]; [by left|done|by right].
Qed.

Lemma build_derived_new channels derived c d :
  build channels derived = Ok c -> d ∈ derived -> der_name d ∉ channels.*1.
Proof.
  intros (c1 & Hc & Hd)%res_bind_Ok Hin Hname.
  pose proof (add_channels_names _ _ _ _ _ Hc (or_intror Hname)) as Hs. clear Hc Hname.
  revert c1 Hd Hs. generalize DERIVED_ID_START as n.
  induction derived as [|d' rest IH]; intros n c1; simpl; [by apply not_elem_of_nil in Hin|].
  destruct (channel_ids c1 !! der_name d') eqn:E; [discriminate|].
  intros (c2 & (_ & ->)%add_entry_inv & Hrest)%res_bind_Ok Hs.
  apply elem_of_cons in Hin as [->|Hin]; [rewrite E in Hs; by destruct Hs|].
  eapply (IH Hin); [exact Hrest|]; simpl. rewrite lookup_insert; case_decide; [by eexists|done].
Qed.

(** * The generation a consumer decodes against *)

Section RegistryStateTheorems.
Context (json_loads : string -> option obj) (json_dumps : obj -> string).

(** Restarting on an unchanged catalog keeps the generation; a changed
    catalog takes the next one. Both stay within uint32. ([Hjson]: [json.loads]
    reads back the state object [json.dumps] wrote.) *)
Theorem registry_seq_bumps (f f' : state_file) (h h' : string) (n n' : Z)
    (Hjson : json_loads (json_dumps (registry_state_obj h n)) = Some (registry_state_obj h n))
    (Hfirst : _update_registry_state_locked json_loads json_dumps f h true = (f', Ok n))
    (Hsecond : (_update_registry_state_locked json_loads json_dumps f' h' true).2 = Ok n') :
  1 <= n < 2 ^ 32 /\ n' = (if String.eqb h h' then n else n + 1) /\ n' < 2 ^ 32.
Proof.
  assert (Hread : read_registry_state json_loads f' = Ok (Some h, n) /\ 1 <= n <= 2 ^ 32 - 1).
  { unfold _update_registry_state_locked in Hfirst.
    destruct (read_registry_state json_loads f) as [[ph ps]|e] eqn:Hr; [|discriminate].
    case_bool_decide as Hp; destruct (negb _) eqn:Hb; try discriminate; injection Hfirst as <- <-.
    - subst; split; [done | lia].
    - split; [|lia]. unfold read_registry_state; by rewrite Hjson. }
  destruct Hread as [Hread Hn]. unfold _update_registry_state_locked in Hsecond; rewrite Hread in Hsecond.
  destruct (String.eqb_spec h h') as [->|Hne].
  - rewrite bool_decide_true in Hsecond by done.
    destruct (negb _); [discriminate|]. injection Hsecond as <-; lia.
  - rewrite bool_decide_false in Hsecond by congruence.
    destruct (negb _) eqn:Hb; [discriminate|]. injection Hsecond as <-; lia.
Qed.
End RegistryStateTheorems.

(** A profile with one channel, and the agent's own channels. *)
Module Garage.
Definition rpm : ChannelConfig :=
  mkChannelConfig "can0:ecu.RPM" "rpm" ch_int None None.
Definition channels : channels_t := [("engine.rpm", rpm)].
Definition built : RuntimeCatalog :=
  match build channels DEFAULT_DERIVED_CHANNELS with Ok c => c | Raise _ => empty_catalog end.
(** A JSON codec that knows the one state file the example writes. *)
Definition dumps (o : obj) : string := "state".
Definition loads (s : string) : option obj :=
  if String.eqb s "state" then Some (registry_state_obj "abc" 1) else None.
Definition first : state_file := (_update_registry_state_locked loads dumps file_missing "abc" true).1.
End Garage.

Lemma build_wf_witness : is_ok (build Garage.channels DEFAULT_DERIVED_CHANNELS) = true /\ catalog_wf Garage.built.
Proof.
  split; [vm_compute; reflexivity|].
  apply (build_wf Garage.channels DEFAULT_DERIVED_CHANNELS Garage.built).
  - repeat constructor; set_solver.
  - vm_compute; reflexivity.
  - vm_compute; reflexivity.
Defined.

Lemma registry_seq_bumps_witness :
  1 <= 1 < 2 ^ 32 /\ 2 = (if String.eqb "abc" "def" then 1 else 1 + 1) /\ 2 < 2 ^ 32.
Proof.
  apply (registry_seq_bumps Garage.loads Garage.dumps file_missing Garage.first "abc" "def" 1 2); reflexivity.
Defined.
