(* ===== verification/Rbe.v ===== *)
(** Report by exception ([src/core/rbe.py]).

    [RbeFilter] is the filter object, [accept] its one operation; an exception
    leaves the object as it was.  The theorems say what a consumer may
    conclude from a silence: no suppressed sample is outside the deadband of
    the last one sent unless it came too soon, and a heartbeat is never
    suppressed. *)

From S2P Require Import Prelude PyFloat Config Wire.

Local Open Scope Z_scope.

Record _SentState := mkSent { sent_value : SampleValue; sent_t_mono_ns : Z }.

Record RbeFilter := mkRbeFilter {
  rbe_state : gmap Z _SentState;
  suppressed_count : Z
}.

Definition rbe_init : RbeFilter := mkRbeFilter ∅ 0.

Definition _deadband_value (value : SampleValue) : res num :=
  match numeric_value value with
  | Some n => Ok n
  | None => raise TypeError "deadband requires numeric sample values"
  end.

Definition _record (self : RbeFilter) (channel_id : Z) (sample : Sample) : RbeFilter :=
  mkRbeFilter (<[channel_id := mkSent (s_value sample) (s_t_mono_ns sample)]> (rbe_state self))
              (suppressed_count self).

Definition _suppress (self : RbeFilter) : RbeFilter :=
  mkRbeFilter (rbe_state self) (suppressed_count self + 1).

Definition opt_test (o : option Z) (p : Z -> bool) : bool :=
  match o with Some z => p z | None => false end.

(** [abs(current - previous) <= deadband]. *)
Definition within_deadband (current previous : SampleValue) (deadband : float) : res bool :=
  c ← _deadband_value current;
  p ← _deadband_value previous;
  d ← num_sub c p;
  Ok (num_leb (num_abs d) (NFloat deadband)).

Definition accept (self : RbeFilter) (channel_id : Z) (sample : Sample) (policy : option RbeConfig)
    : RbeFilter * res bool :=
  match policy with
  | None => (self, Ok true)
  | Some policy =>
      match rbe_state self !! channel_id with
      | None =>
          match deadband policy, _deadband_value (s_value sample) with
          | Some _, Raise e => (self, Raise e)
          | _, _ => (_record self channel_id sample, Ok true)
          end
      | Some previous =>
          let elapsed_ns := s_t_mono_ns sample - sent_t_mono_ns previous in
          if opt_test (max_interval_ns policy) (fun m => m <=? elapsed_ns) then
            (_record self channel_id sample, Ok true)
          else if opt_test (min_interval_ns policy) (fun m => elapsed_ns <? m) then
            (_suppress self, Ok false)
          else
            match deadband policy with
            | None => (_record self channel_id sample, Ok true)
            | Some d =>
                match within_deadband (s_value sample) (sent_value previous) d with
                | Raise e => (self, Raise e)
                | Ok true => (_suppress self, Ok false)
                | Ok false => (_record self channel_id sample, Ok true)
                end
            end
      end
  end.

(** * Decisions of one step *)

Lemma accept_no_policy self ch s : accept self ch s None = (self, Ok true).
Proof. done. Qed.

(** Another channel's sample changes nothing here. *)
Lemma accept_frame self ch ch' s p :
  ch <> ch' -> rbe_state (accept self ch s p).1 !! ch' = rbe_state self !! ch'.
Proof.
  intros Hne; unfold accept. destruct p as [p|]; [|done].
  repeat case_match; simpl; try done; by rewrite lookup_insert_ne.
Qed.

(** A decision to send records exactly the sample sent. *)
Lemma accept_sent self ch s p :
  (accept self ch s (Some p)).2 = Ok true ->
  (accept self ch s (Some p)).1 = _record self ch s.
Proof. unfold accept; repeat case_match; simpl; congruence. Qed.

Lemma accept_suppressed self ch s p :
  (accept self ch s p).2 = Ok false -> (accept self ch s p).1 = _suppress self.
Proof. unfold accept; repeat case_match; simpl; congruence. Qed.

Lemma accept_raised self ch s p e :
  (accept self ch s p).2 = Raise e -> (accept self ch s p).1 = self.
Proof. unfold accept; repeat case_match; simpl; congruence. Qed.

(** Why a sample may be withheld, relative to the last one sent. *)
Definition may_withhold (p : RbeConfig) (previous : _SentState) (s : Sample) : Prop :=
  let elapsed := s_t_mono_ns s - sent_t_mono_ns previous in
  opt_test (max_interval_ns p) (fun m => m <=? elapsed) = false /\
  (opt_test (min_interval_ns p) (fun m => elapsed <? m) = true \/
   exists d, deadband p = Some d /\ within_deadband (s_value s) (sent_value previous) d = Ok true).

Lemma accept_suppressed_iff self ch s p :
  (accept self ch s (Some p)).2 = Ok false <->
  exists previous, rbe_state self !! ch = Some previous /\ may_withhold p previous s.
Proof.
  unfold accept, may_withhold; split.
  - destruct (rbe_state self !! ch) as [prev|].
    2: { repeat case_match; simpl; congruence. }
    destruct (opt_test (max_interval_ns p) _) eqn:E1; [discriminate|].
    destruct (opt_test (min_interval_ns p) _) eqn:E2; [eauto 6|].
    destruct (deadband p) as [d|]; [|discriminate].
    destruct (within_deadband _ _ d) as [[]|] eqn:E3; try discriminate.
    intros _. exists prev; repeat split; eauto.
  - intros (prev & -> & -> & [->|(d & -> & E)]); [done|].
    destruct (opt_test (min_interval_ns p) _); [done|]. by rewrite E.
Qed.

#[local] Arguments accept : simpl never.

(** * A channel's stream *)

(** Feed a channel's samples in order. *)
Fixpoint accept_all (self : RbeFilter) (ch : Z) (p : RbeConfig) (ss : list Sample)
    : RbeFilter * list (res bool) :=
  match ss with
  | [] => (self, [])
  | s :: ss =>
      let '(self, d) := accept self ch s (Some p) in
      let '(self, ds) := accept_all self ch p ss in
      (self, d :: ds)
  end.

(** The last sample of the stream that was sent. *)
Fixpoint last_sent (acc : option _SentState) (ss : list Sample) (ds : list (res bool))
    : option _SentState :=
  match ss, ds with
  | s :: ss, Ok true :: ds => last_sent (Some (mkSent (s_value s) (s_t_mono_ns s))) ss ds
  | _ :: ss, _ :: ds => last_sent acc ss ds
  | _, _ => acc
  end.

Fixpoint count_suppressed (ds : list (res bool)) : Z :=
  match ds with
  | [] => 0
  | Ok false :: ds => 1 + count_suppressed ds
  | _ :: ds => count_suppressed ds
  end.

Lemma accept_all_state self ch p ss :
  let '(self', ds) := accept_all self ch p ss in
  rbe_state self' !! ch = last_sent (rbe_state self !! ch) ss ds /\
  suppressed_count self' = suppressed_count self + count_suppressed ds /\
  length ds = length ss.
Proof.
  revert self; induction ss as [|s ss IH]; intros self; simpl; [repeat split; lia|].
  destruct (accept self ch s (Some p)) as [self1 d] eqn:E.
  specialize (IH self1). destruct (accept_all self1 ch p ss) as [self2 ds].
  destruct IH as (H1 & H2 & H3). simpl.
  destruct d as [[]|e].
  - assert (self1 = _record self ch s) as ->
      by (rewrite <- (accept_sent self ch s p); rewrite E; done).
    simpl in *. rewrite lookup_insert_eq in H1. (split; [done | split; lia]).
  - assert (self1 = _suppress self) as ->
      by (rewrite <- (accept_suppressed self ch s (Some p)); rewrite E; done).
    simpl in *. (split; [done | split; lia]).
  - assert (self1 = self) as ->
      by (rewrite <- (accept_raised self ch s (Some p) e); rewrite E; done).
    (split; [done | split; lia]).
Qed.

(** C31. What a consumer who fills forward may conclude: whatever the stream, when
    its latest sample was withheld, the value the consumer holds was sent
    less than [max_interval] before it, and either the sample came within
    [min_interval] of it or the two differ by at most the deadband. *)
Theorem rbe_fill_forward (p : RbeConfig) (ch : Z) (ss : list Sample) (s : Sample) :
  let '(self, ds) := accept_all rbe_init ch p ss in
  (accept self ch s (Some p)).2 = Ok false ->
  exists held, last_sent None ss ds = Some held /\
    opt_test (max_interval_ns p) (fun m => m <=? s_t_mono_ns s - sent_t_mono_ns held) = false /\
    (opt_test (min_interval_ns p) (fun m => s_t_mono_ns s - sent_t_mono_ns held <? m) = true \/
     exists d c v diff, deadband p = Some d /\
       numeric_value (s_value s) = Some c /\ numeric_value (sent_value held) = Some v /\
       num_sub c v = Ok diff /\ num_leb (num_abs diff) (NFloat d) = true).
Proof.
  pose proof (accept_all_state rbe_init ch p ss) as H.
  destruct (accept_all rbe_init ch p ss) as [self ds]. destruct H as (Hst & _).
  intros (prev & Hprev & Hmax & Hw)%accept_suppressed_iff.
  exists prev; split; [|split; [done|]].
  { rewrite Hst in Hprev. simpl in Hprev. by rewrite lookup_empty in Hprev. }
  destruct Hw as [?|(d & Hd & Hw)]; [by left | right].
  unfold within_deadband, _deadband_value in Hw.
  apply res_bind_Ok in Hw as (c & Hc & Hw); apply res_bind_Ok in Hw as (v & Hv & Hw).
  apply res_bind_Ok in Hw as (diff & Hdiff & [= Hle]).
  destruct (numeric_value (s_value s)) as [c'|] eqn:Ec; [|discriminate].
  destruct (numeric_value (sent_value prev)) as [v'|] eqn:Ev; [|discriminate].
  injection Hc as ->; injection Hv as ->. eauto 10.
Qed.

(** The heartbeat: once [max_interval] has elapsed since the last sample sent,
    the next one is sent, whatever its value, and becomes the reference. *)
Theorem rbe_heartbeat (p : RbeConfig) (self : RbeFilter) (ch : Z) (s : Sample)
    (held : _SentState) (m : Z)
    (Hheld : rbe_state self !! ch = Some held)
    (Hmax : max_interval_ns p = Some m)
    (Hdue : m <= s_t_mono_ns s - sent_t_mono_ns held) :
  accept self ch s (Some p) = (_record self ch s, Ok true).
Proof.
  unfold accept; rewrite Hheld, Hmax; simpl.
  by destruct (Z.leb_spec m (s_t_mono_ns s - sent_t_mono_ns held)); [|lia].
Qed.

(** The counter surfaced as [sys.agent.rbe_suppressed] counts the withheld
    samples, no more and no fewer. *)
Theorem rbe_suppressed_count_exact (p : RbeConfig) (ch : Z) (ss : list Sample) :
  let '(self, ds) := accept_all rbe_init ch p ss in
  suppressed_count self = count_suppressed ds /\ length ds = length ss.
Proof.
  pose proof (accept_all_state rbe_init ch p ss) as H.
  destruct (accept_all rbe_init ch p ss) as [self ds]; simpl in H; intuition lia.
Qed.

(** A temperature that moves by 0.5 with a deadband of 1 is withheld. *)
Module Probe.
Definition policy : RbeConfig := mkRbeConfig (Some (f_of_Z 1)) None None None (Some 1000).
Definition at_ns (t : Z) (v : float) : Sample := mkSample "can0:ecu.T" t f0 (VFloat v).
Definition sent : Sample := at_ns 0 (f_of_Z 20).
Definition next : Sample := at_ns 100 (f_of_ratio 41 2).
Definition seen : RbeFilter * list (res bool) := accept_all rbe_init 1 policy [sent].
End Probe.

Lemma rbe_fill_forward_witness :
  (accept Probe.seen.1 1 Probe.next (Some Probe.policy)).2 = Ok false /\
  exists held, last_sent None [Probe.sent] Probe.seen.2 = Some held.
Proof.
  assert (H : (accept Probe.seen.1 1 Probe.next (Some Probe.policy)).2 = Ok false) by (vm_compute; reflexivity).
  split; [exact H|].
  destruct (rbe_fill_forward Probe.policy 1 [Probe.sent] Probe.next H) as (held & Hheld & _).
  exists held. exact Hheld.
Defined.
