(* ===== verification/Batcher.v ===== *)
(** Tick batching ([src/core/batcher.py]): samples accumulate per source
    class, and one tick turns each class into one serialised [SampleBatch],
    or fails as a whole. *)

From S2P Require Import Prelude PyFloat Config Wire Catalog.

Local Open Scope Z_scope.

Section Batcher.
Context `{Codec}.

(** The batcher object; [_pending] keeps the order in which source classes
    were first seen since the last tick. *)
Record Batcher := mkBatcher {
  bt_registry_seq : Z;
  bt_policies : gmap Z ChannelPolicy;
  bt_tick_us : Z;
  bt_tick_ns : Z;
  bt_pending : list (string * list (Z * Sample))
}.

Definition batcher_init (registry_seq : Z) (policies : gmap Z ChannelPolicy) (tick_ms : Z)
    : res Batcher :=
  if (10 <=? tick_ms) && (tick_ms <=? 50) then
    Ok (mkBatcher registry_seq policies (tick_ms * 1000) (tick_ms * 1000000) [])
  else raise ValueError "tick_ms must be between 10 and 50 ms".

Definition set_pending (self : Batcher) (p : list (string * list (Z * Sample))) : Batcher :=
  mkBatcher (bt_registry_seq self) (bt_policies self) (bt_tick_us self) (bt_tick_ns self) p.

(** [defaultdict(list)]: append under a key, creating it if absent. *)
Definition append_pending (p : list (string * list (Z * Sample))) (k : string) (x : Z * Sample)
    : list (string * list (Z * Sample)) :=
  od_set k (default [] (od_get k p) ++ [x]) p.

Definition add (self : Batcher) (source_class : string) (channel_id : Z) (sample : Sample)
    : Batcher * res unit :=
  match bt_policies self !! channel_id with
  | None => (self, raise KeyError ("unknown channel_id " +:+ pretty channel_id))
  | Some _ => (set_pending self (append_pending (bt_pending self) source_class (channel_id, sample)), Ok tt)
  end.

(** * Values *)

Definition needs (what : string) (policy : ChannelPolicy) {A : Type} : res A :=
  raise TypeError (pol_name policy +:+ " requires a " +:+ what +:+ " value").

(** The integer a scaled or unscaled INT64/UINT channel puts on the wire. *)
Definition wire_int (n : num) (policy : ChannelPolicy) : res Z :=
  if ftruthy (pol_scale policy) then
    d ← num_sub n (NFloat (pol_offset policy));
    x ← num_float d;
    q ← fdiv x (pol_scale policy);
    f_round q
  else
    match n with
    | NInt z => Ok z
    | NFloat x =>
        if is_integer x then f_trunc x
        else raise TypeError ("unscaled " +:+ pol_name policy +:+ " requires an integer value")
    end.

Definition num_truthy (n : num) : bool :=
  match n with NInt z => negb (z =? 0) | NFloat x => ftruthy x end.

Definition _encode_value (value : SampleValue) (policy : ChannelPolicy) : res wire_value :=
  match pol_value_type policy with
  | DOUBLE =>
      match numeric_value value with
      | Some n => x ← num_float n; Ok (W_d x)
      | None => needs "numeric" policy
      end
  | FLOAT =>
      match numeric_value value with
      | Some n => x ← num_float n; Ok (W_f (f32_of x))
      | None => needs "numeric" policy
      end
  | INT64 =>
      match numeric_value value with
      | Some n => z ← wire_int n policy; z ← pb_int sint64 z; Ok (W_i z)
      | None => needs "numeric" policy
      end
  | UINT =>
      match numeric_value value with
      | Some n =>
          z ← wire_int n policy;
          if z <? 0 then raise ValueError (pol_name policy +:+ " encoded to a negative UINT value")
          else z ← pb_int uint64 z; Ok (W_u z)
      | None => needs "numeric" policy
      end
  | BOOL =>
      match value with
      | VBool b => Ok (W_b b)
      | _ =>
          match numeric_value value with
          | Some n =>
              if num_eqb n (NInt 0) || num_eqb n (NInt 1) then Ok (W_b (num_truthy n))
              else needs "bool" policy
          | None => needs "bool" policy
          end
      end
  | STRING =>
      match value with
      | VStr s => Ok (W_s s)
      | _ => needs "string" policy
      end
  | UNSPECIFIED => raise ValueError "unsupported value type 0"
  end.

(** * The tick *)

(** The body of the inner loop: one wire sample. *)
Definition encode_sample (self : Batcher) (epoch_mono_ns : Z) (item : Z * Sample) : res PbSample :=
  let '(channel_id, sample) := item in
  let offset_ns := s_t_mono_ns sample - epoch_mono_ns in
  let offset_us := offset_ns / 1000 in
  if negb ((0 <=? offset_ns) && (offset_ns <? bt_tick_ns self)) then
    raise ValueError ("sample timestamp offset " +:+ pretty offset_us +:+
      " us falls outside tick window [0, " +:+ pretty (bt_tick_us self) +:+ ") us")
  else
    cid ← pb_int uint32 channel_id;
    off ← pb_int uint32 offset_us;
    match bt_policies self !! channel_id with
    | None => raise KeyError (pretty channel_id)
    | Some policy => v ← _encode_value (s_value sample) policy; Ok (mkPbSample cid off (Some v))
    end.

(** One source class: the message, then its samples in order. *)
Definition encode_class (self : Batcher) (epoch_unix_ms epoch_mono_ns : Z)
    (entry : string * list (Z * Sample)) : res (string * SampleBatch) :=
  seq ← pb_int uint32 (bt_registry_seq self);
  unix ← pb_int fixed64 epoch_unix_ms;
  mono ← pb_int fixed64 epoch_mono_ns;
  samples ← res_map (encode_sample self epoch_mono_ns) entry.2;
  Ok (entry.1, mkSampleBatch seq unix mono samples 1).

(** Every class or none; the pending samples are gone either way. *)
Definition tick (self : Batcher) (epoch_unix_ms epoch_mono_ns : Z)
    : Batcher * res (list (string * payload)) :=
  (set_pending self [],
   batches ← res_map (encode_class self epoch_unix_ms epoch_mono_ns) (bt_pending self);
   Ok (map (fun b => (b.1, serialize_batch b.2)) batches)).

(** * What one batch says *)

(** A wire sample is faithful to the sample captured: the same channel, the
    offset to the microsecond below, the value the policy encodes. *)
Definition wire_of (policies : gmap Z ChannelPolicy) (tick_ns epoch_mono_ns : Z) (item : Z * Sample)
    (w : PbSample) : Prop :=
  p_channel_id w = item.1 /\
  0 <= s_t_mono_ns item.2 - epoch_mono_ns < tick_ns /\
  epoch_mono_ns + p_t_offset_us w * 1000 <= s_t_mono_ns item.2
    < epoch_mono_ns + (p_t_offset_us w + 1) * 1000 /\
  exists policy v, policies !! item.1 = Some policy /\
    _encode_value (s_value item.2) policy = Ok v /\ p_value w = Some v.

Lemma encode_sample_wire self epoch item w :
  encode_sample self epoch item = Ok w -> wire_of (bt_policies self) (bt_tick_ns self) epoch item w.
Proof.
  destruct item as [ch s]; unfold encode_sample, wire_of; simpl.
  destruct (negb _) eqn:Hw; [discriminate|].
  intros (cid & (-> & _)%pb_int_Ok & (off & (-> & _)%pb_int_Ok & Hv)%res_bind_Ok)%res_bind_Ok.
  destruct (bt_policies self !! ch) as [policy|]; [|discriminate].
  apply res_bind_Ok in Hv as (v & Hv & [= <-]); simpl.
  pose proof (Z.mul_div_le (s_t_mono_ns s - epoch) 1000 ltac:(lia)).
  pose proof (Z.mul_succ_div_gt (s_t_mono_ns s - epoch) 1000 ltac:(lia)).
  repeat split; try lia. eauto.
Qed.

(** The batch a source class's samples become. *)
Definition batch_of (self : Batcher) (epoch_unix_ms epoch_mono_ns : Z)
    (entry : string * list (Z * Sample)) (out : string * SampleBatch) : Prop :=
  out.1 = entry.1 /\
  b_registry_seq out.2 = bt_registry_seq self /\
  b_epoch_unix_ms out.2 = epoch_unix_ms /\ b_epoch_mono_ns out.2 = epoch_mono_ns /\
  b_format_version out.2 = 1 /\
  Forall2 (wire_of (bt_policies self) (bt_tick_ns self) epoch_mono_ns) entry.2 (b_samples out.2).

Lemma encode_class_batch self unix mono entry out :
  encode_class self unix mono entry = Ok out -> batch_of self unix mono entry out.
Proof.
  intros (s & (-> & _)%pb_int_Ok & (u & (-> & _)%pb_int_Ok & H1)%res_bind_Ok)%res_bind_Ok.
  apply res_bind_Ok in H1 as (m & (-> & _)%pb_int_Ok & (ws & Hws & [= <-])%res_bind_Ok).
  repeat split; simpl.
  eapply res_map_Forall2; [|exact Hws]. apply encode_sample_wire.
Qed.

Context `{!CodecLaws}.

(** A successful tick emits one payload per pending source class, in the order
    the classes appeared, and the consumer that parses a payload finds every
    sample of that class, in order, with its channel, its capture time to the
    microsecond and its encoded value. *)
Lemma tick_emitted self unix mono emitted :
  (tick self unix mono).2 = Ok emitted ->
  Forall2 (fun entry out => exists b, parse_batch out.2 = Some b /\
             batch_of self unix mono entry (out.1, b))
    (bt_pending self) emitted.
Proof.
  simpl; intros (bs & Hbs & [= <-])%res_bind_Ok. apply Forall2_fmap_r.
  eapply res_map_Forall2; [|exact Hbs]. intros entry out Hout; simpl.
  exists out.2; split; [apply parse_serialize_batch|].
  destruct out; by apply encode_class_batch.
Qed.

(** The samples waiting, in the order they were added. *)
Definition pending_count (self : Batcher) : nat := length (concat (map snd (bt_pending self))).

(** Nothing survives a tick, emitted or not: a bad window is discarded, never
    replayed. *)
Lemma tick_clears self unix mono : bt_pending (tick self unix mono).1 = [].
Proof. done. Qed.
End Batcher.

Arguments add : simpl never.
