(* ===== verification/Queues.v ===== *)
(** Bounded drop-oldest queues ([src/agent/queues.py]).

    Each operation runs under the queue's lock, so a concurrent execution is
    a sequence of operations: [qstep] is one of them, and the theorems hold of
    every interleaving of a collector's puts and the pipeline's drains. *)

From S2P Require Import Prelude PyFloat Wire.

Section Queue.
Context {A : Type}.

Record SampleQueue := mkQueue {
  q_source_class : string;
  q_maxlen : nat;
  q_queue : list A;
  q_dropped : nat
}.

Definition DEFAULT_MAXLEN : Z := 10000%Z.

Definition queue_init (source_class : string) (maxlen : Z) : res SampleQueue :=
  if (maxlen <=? 0)%Z then raise ValueError "maxlen must be positive"
  else Ok (mkQueue source_class (Z.to_nat maxlen) [] 0).

Definition put (self : SampleQueue) (sample : A) : SampleQueue :=
  if decide (q_maxlen self <= length (q_queue self)) then
    mkQueue (q_source_class self) (q_maxlen self) (tail (q_queue self) ++ [sample])
            (S (q_dropped self))
  else
    mkQueue (q_source_class self) (q_maxlen self) (q_queue self ++ [sample]) (q_dropped self).

Definition drain (self : SampleQueue) : SampleQueue * list A :=
  (mkQueue (q_source_class self) (q_maxlen self) [] (q_dropped self), q_queue self).

(** * Every interleaving *)

Inductive op := Put (sample : A) | Drain.

(** The queue and everything drained so far. *)
Definition qstep (st : SampleQueue * list A) (o : op) : SampleQueue * list A :=
  match o with
  | Put s => (put st.1 s, st.2)
  | Drain => let '(q, out) := drain st.1 in (q, st.2 ++ out)
  end.

Definition qrun (q : SampleQueue) (ops : list op) : SampleQueue * list A :=
  foldl qstep (q, []) ops.

Definition puts (ops : list op) : list A :=
  omap (fun o => match o with Put s => Some s | Drain => None end) ops.

Definition queue_wf (q : SampleQueue) : Prop :=
  0 < q_maxlen q /\ length (q_queue q) <= q_maxlen q.

Lemma queue_init_wf c m q : queue_init c m = Ok q -> queue_wf q.
Proof.
  unfold queue_init; destruct (Z.leb_spec m 0); [discriminate|].
  intros [= <-]; split; simpl; lia.
Qed.

Lemma put_wf q s : queue_wf q -> queue_wf (put q s).
Proof.
  intros [Hpos Hlen]; unfold put; case_decide; split; simpl; try done;
    rewrite length_app; simpl; [|lia].
  destruct (q_queue q); simpl in *; lia.
Qed.

Lemma drain_wf q : queue_wf q -> queue_wf (drain q).1.
Proof. intros [? ?]; split; simpl; lia. Qed.

Lemma puts_snoc ops o :
  puts (ops ++ [o]) = puts ops ++ (match o with Put s => [s] | Drain => [] end).
Proof. unfold puts; rewrite omap_app; by destruct o. Qed.

(** The accounting invariant: what was drained, then what was shed or is still
    queued, makes up every sample put, in order. *)
Definition accounted (maxlen : nat) (st : SampleQueue * list A) (all : list A) : Prop :=
  queue_wf st.1 /\ q_maxlen st.1 = maxlen /\
  length all = length st.2 + q_dropped st.1 + length (q_queue st.1) /\
  sublist (st.2 ++ q_queue st.1) all /\
  (exists older, all = older ++ q_queue st.1).

Lemma accounted_put maxlen q out all s :
  accounted maxlen (q, out) all -> accounted maxlen (put q s, out) (all ++ [s]).
Proof.
  intros (Hwf & Hm & Hlen & Hsub & older & ->); simpl in *.
  split; [by apply put_wf|]. destruct Hwf as [Hpos Hle].
  rewrite !length_app in *; simpl. unfold put; case_decide as Hfull; simpl.
  - destruct (q_queue q) as [|x r] eqn:Eq; simpl in *; [lia|].
    rewrite length_app; simpl.
    repeat split; [done | lia | | exists (older ++ [x]); by rewrite <- !app_assoc].
    rewrite app_assoc. apply sublist_app; [|done].
    etransitivity; [|exact Hsub]. apply sublist_app; [done | by apply sublist_cons].
  - rewrite length_app; simpl.
    repeat split; [done | lia | | exists older; by rewrite app_assoc].
    rewrite app_assoc. by apply sublist_app.
Qed.

Lemma accounted_drain maxlen q out all :
  accounted maxlen (q, out) all -> accounted maxlen ((drain q).1, out ++ q_queue q) all.
Proof.
  intros (Hwf & Hm & Hlen & Hsub & _); simpl in *.
  split; [by apply drain_wf|]; simpl. rewrite length_app, app_nil_r.
  repeat split; [done | lia | done | by exists all; rewrite app_nil_r].
Qed.

Lemma qrun_accounted c m q ops :
  queue_init c m = Ok q -> accounted (Z.to_nat m) (qrun q ops) (puts ops).
Proof.
  intros Hq; pose proof (queue_init_wf _ _ _ Hq) as Hwf.
  unfold queue_init in Hq; destruct (m <=? 0)%Z eqn:Hm; [discriminate|]. injection Hq as <-.
  induction ops as [|o ops IH] using rev_ind.
  - repeat split; simpl; try done; try apply Hwf. by exists [].
  - unfold qrun in *; rewrite foldl_snoc, puts_snoc.
    destruct (foldl qstep _ ops) as [q out]; destruct o as [s|]; simpl.
    + by apply accounted_put.
    + rewrite app_nil_r; by apply accounted_drain.
Qed.

(** Shedding is bounded, visible and ordered: under any interleaving the queue
    never exceeds its bound; what the pipeline drained, followed by what is
    still queued, is the put sequence with some samples removed; the drop
    counter is exactly the number removed; and what is queued is always the
    newest samples put. *)
Theorem queue_sheds_visibly (source_class : string) (maxlen : Z) (q : SampleQueue) (ops : list op)
    (Hinit : queue_init source_class maxlen = Ok q) :
  let '(q', out) := qrun q ops in
  (Z.of_nat (length (q_queue q')) <= maxlen)%Z /\
  sublist (out ++ q_queue q') (puts ops) /\
  length (puts ops) = length (out ++ q_queue q') + q_dropped q' /\
  exists older, puts ops = older ++ q_queue q'.
Proof.
  pose proof (qrun_accounted _ _ _ ops Hinit) as H.
  destruct (qrun q ops) as [q' out]. destruct H as ([_ Hle] & Hm & Hlen & Hsub & Hold); simpl in *.
  repeat split; [|done| |done].
  - unfold queue_init in Hinit; destruct (Z.leb_spec maxlen 0); [discriminate|]. lia.
  - rewrite length_app; lia.
Qed.

(** With room for what arrives between two drains, nothing is shed: every
    sample reaches the pipeline, in order. *)
Theorem queue_lossless (source_class : string) (maxlen : Z) (q : SampleQueue) (ss : list A)
    (Hinit : queue_init source_class maxlen = Ok q)
    (Hroom : (Z.of_nat (length ss) <= maxlen)%Z) :
  qrun q (map Put ss ++ [Drain]) =
  (mkQueue source_class (Z.to_nat maxlen) [] 0, ss).
Proof.
  unfold queue_init in Hinit; destruct (Z.leb_spec maxlen 0); [discriminate|]. injection Hinit as <-.
  unfold qrun; rewrite foldl_snoc.
  enough (foldl qstep (mkQueue source_class (Z.to_nat maxlen) [] 0, []) (map Put ss) =
                  (mkQueue source_class (Z.to_nat maxlen) ss 0, [])) as -> by done.
  induction ss as [|s ss IH] using rev_ind; [done|].
  rewrite length_app in Hroom; simpl in Hroom.
  rewrite map_app, foldl_app, IH by lia; simpl. unfold put; simpl.
  rewrite decide_False by lia. done.
Qed.
End Queue.

Arguments SampleQueue : clear implicits.
Arguments op : clear implicits.

(** Three puts into a queue of two. *)
Definition bench : SampleQueue nat := mkQueue "can0" 2 [] 0.

Lemma queue_sheds_visibly_witness :
  queue_init "can0" 2 = Ok bench /\
  let '(q', out) := qrun bench [Put 1; Put 2; Put 3] in
  (Z.of_nat (length (q_queue q')) <= 2)%Z /\
  sublist (out ++ q_queue q') (puts [Put 1; Put 2; Put 3]) /\
  length (puts [Put 1; Put 2; Put 3]) = length (out ++ q_queue q') + q_dropped q' /\
  exists older, puts [Put 1; Put 2; Put 3] = older ++ q_queue q'.
Proof. split; [reflexivity|]. apply (queue_sheds_visibly "can0" 2 bench [Put 1; Put 2; Put 3]); reflexivity. Defined.
