(* ===== verification/Nmea.v ===== *)
(** The NMEA decoder of the serial sources ([src/collectors/serial/nmea.py]):
    checksums, the RMC, GGA and GST sentences, and the counters the collector
    shows.

    The port hands over bytes, which have to be ASCII; a text another caller
    passes is not checked, and the blanks and capitals here are those of
    ASCII. *)

From S2P Require Import Prelude PyFloat Stats PyText Wire.

Local Open Scope Z_scope.

(** * Fields *)

Definition is_ascii (c : ascii) : bool := (N_of_ascii c <? 128)%N.
Fixpoint str_all (f : ascii -> bool) (s : string) : bool :=
  match s with EmptyString => true | String c s => f c && str_all f s end.

Definition int_of (s : string) : res Z := match py_int s with Some z => Ok z | None => raise ValueError "invalid literal for int()" end.
Definition float_of (s : string) : res float := match py_float s with Some x => Ok x | None => raise ValueError "could not convert string to float" end.
Definition field (fields : list string) (i : nat) : res string :=
  match nth_error fields i with Some s => Ok s | None => raise IndexError "list index out of range" end.
Definition check (condition : bool) (why : string) : res () := if condition then Ok tt else raise ValueError why.

Definition _validated_body (sentence : string) : res string :=
  match sentence with
  | String c payload =>
      if negb (Ascii.eqb c "$"%char) then raise ValueError "NMEA sentence must begin with '$'"
      else
        match str_partition "*" payload with
        | None => Ok payload
        | Some (body, supplied_checksum) =>
            if negb (String.length supplied_checksum =? 2)%nat then raise ValueError "invalid NMEA checksum field"
            else if negb (String.eqb (str_upper supplied_checksum) (hex2 (xor_checksum body))) then raise ValueError "NMEA checksum mismatch"
            else Ok body
        end
  | EmptyString => raise ValueError "NMEA sentence must begin with '$'"
  end.

Definition f60 : float := f_of_Z 60.

Definition _coordinate (value hemisphere : string) (degree_digits : nat) : res float :=
  if (String.length value <=? degree_digits)%nat then raise ValueError "invalid NMEA coordinate"
  else
    degrees ← int_of (str_take degree_digits value);
    minutes ← float_of (str_drop degree_digits value);
    if fltb minutes f0 || fleb f60 minutes then raise ValueError "invalid NMEA coordinate minutes"
    else
      let coordinate := fadd (f_of_Z degrees) (fdiv_ieee minutes f60) in
      let '(positive, negative) := if (degree_digits =? 2)%nat then ("N", "S") else ("E", "W") in
      if String.eqb hemisphere negative then Ok (fopp coordinate)
      else if negb (String.eqb hemisphere positive) then raise ValueError "invalid NMEA hemisphere"
      else Ok coordinate.

(** * The decoder *)

Record NmeaDecodeStats := mkStats {
  sentences : Z;
  rmc_sentences : Z;
  gga_sentences : Z;
  gst_sentences : Z;
  ignored_sentences : Z;
  malformed_sentences : Z
}.
Definition no_stats : NmeaDecodeStats := mkStats 0 0 0 0 0 0.

Record NmeaDecoder := mkDecoder { stats : NmeaDecodeStats; _prefix : string; _gga_prefix : string; _gst_prefix : string }.

Definition decoder_init (source_name device : string) : NmeaDecoder :=
  mkDecoder no_stats (source_name +:+ ":" +:+ device +:+ ".RMC.") (source_name +:+ ":" +:+ device +:+ ".GGA.")
    (source_name +:+ ":" +:+ device +:+ ".GST.").

(** The counters of one sentence: the sentence itself, and what became of it. *)
Inductive verdict := Rmc | Gga | Gst | Ignored | Malformed.
Definition counted (s : NmeaDecodeStats) (v : verdict) : NmeaDecodeStats :=
  let one w := match v, w with
    | Rmc, Rmc | Gga, Gga | Gst, Gst | Ignored, Ignored | Malformed, Malformed => 1
    | _, _ => 0 end in
  mkStats (sentences s + 1) (rmc_sentences s + one Rmc) (gga_sentences s + one Gga) (gst_sentences s + one Gst)
    (ignored_sentences s + one Ignored) (malformed_sentences s + one Malformed).

Definition readings : Type := list (string * SampleValue).

Definition _decode_gga (prefix : string) (fields : list string) : res readings :=
  _ ← check (12 <=? length fields)%nat "GGA sentence has too few fields";
  quality ← (x ← field fields 6; int_of x);
  _ ← check (negb (quality =? 0)) "GGA reports no fix";
  satellites ← (x ← field fields 7; int_of x);
  hdop ← (x ← field fields 8; float_of x);
  altitude ← (x ← field fields 9; float_of x);
  separation ← (x ← field fields 11; match x with EmptyString => Ok f0 | _ => float_of x end);
  _ ← check (is_finite hdop && is_finite altitude && is_finite separation) "GGA contains a non-finite number";
  _ ← check (negb ((satellites <? 0) || fltb hdop f0)) "GGA value is out of range";
  Ok [(prefix +:+ "alt", VFloat altitude); (prefix +:+ "geoid_sep", VFloat separation); (prefix +:+ "sats", VInt satellites);
      (prefix +:+ "hdop", VFloat hdop); (prefix +:+ "quality", VInt quality)].

Definition has_text (s : string) : bool := match s with EmptyString => false | _ => true end.

Definition _decode_gst (prefix : string) (fields : list string) : res readings :=
  _ ← check (9 <=? length fields)%nat "GST sentence has too few fields";
  f6 ← field fields 6; f7 ← field fields 7; f8 ← field fields 8;
  _ ← check (has_text f6 && has_text f7 && has_text f8) "GST has no error estimate";
  std_lat ← float_of f6; std_lon ← float_of f7; std_alt ← float_of f8;
  _ ← check (forallb (fun v => is_finite v && fleb f0 v) [std_lat; std_lon; std_alt]) "GST error estimate is out of range";
  Ok [(prefix +:+ "lat_std", VFloat std_lat); (prefix +:+ "lon_std", VFloat std_lon); (prefix +:+ "alt_std", VFloat std_alt)].

Definition KNOTS_TO_KMH : float := lit 1852 1000.

Definition decode_rmc (prefix : string) (fields : list string) : res readings :=
  _ ← check (12 <=? length fields)%nat "RMC sentence has too few fields";
  status ← field fields 2;
  _ ← check (String.eqb status "A") "RMC fix is not active";
  latitude ← (x ← field fields 3; h ← field fields 4; _coordinate x h 2);
  longitude ← (x ← field fields 5; h ← field fields 6; _coordinate x h 3);
  knots ← (x ← field fields 7; float_of x);
  let speed := fmul knots KNOTS_TO_KMH in
  heading ← (x ← field fields 8; float_of x);
  _ ← check (forallb is_finite [latitude; longitude; speed; heading]) "RMC contains a non-finite number";
  _ ← check (fleb (f_of_Z (-90)) latitude && fleb latitude (f_of_Z 90) && fleb (f_of_Z (-180)) longitude && fleb longitude (f_of_Z 180))
        "RMC coordinate is out of range";
  _ ← check (negb (fltb speed f0) && fleb f0 heading && fltb heading (f_of_Z 360)) "RMC movement value is out of range";
  let mode := match nth_error fields 12 with Some (String _ _ as m) => m | _ => status end in
  Ok [(prefix +:+ "lat", VFloat latitude); (prefix +:+ "lon", VFloat longitude); (prefix +:+ "speed", VFloat speed);
      (prefix +:+ "heading", VFloat heading); (prefix +:+ "mode", VStr mode)].

(** [s[-3:]]. *)
Definition last3 (s : string) : string := str_drop (String.length s - 3) s.

(** The text of a sentence: [bytes] are decoded strictly. *)
Inductive Sentence := SBytes (b : string) | SText (t : string).
Definition sentence_text (s : Sentence) : res string :=
  match s with
  | SBytes b => if str_all is_ascii b then Ok b else raise ValueError "'ascii' codec can't decode byte"
  | SText t => Ok t
  end.

Definition kind_of (fields : list string) : verdict :=
  let talker_type := last3 (hd "" fields) in
  if String.eqb talker_type "GGA" then Gga else if String.eqb talker_type "GST" then Gst
  else if String.eqb talker_type "RMC" then Rmc else Ignored.

Definition read_sentence (self : NmeaDecoder) (kind : verdict) (fields : list string) : res readings :=
  match kind with
  | Gga => _decode_gga (_gga_prefix self) fields
  | Gst => _decode_gst (_gst_prefix self) fields
  | Rmc => decode_rmc (_prefix self) fields
  | _ => Ok []
  end.

Definition decode (self : NmeaDecoder) (sentence : Sentence) : NmeaDecoder * readings :=
  let finish v values := (mkDecoder (counted (stats self) v) (_prefix self) (_gga_prefix self) (_gst_prefix self), values) in
  match (text ← sentence_text sentence; _validated_body (strip text)) with
  | Raise _ => finish Malformed []
  | Ok body =>
      let fields := str_split "," body in
      let kind := kind_of fields in
      match read_sentence self kind fields with
      | Ok values => finish kind values
      | Raise _ => finish Malformed []
      end
  end.

(** A run of sentences, and everything read from them. *)
Definition decode_all (self : NmeaDecoder) (l : list Sentence) : NmeaDecoder * list readings :=
  fold_left (fun st s => let '(d, values) := decode st.1 s in (d, st.2 ++ [values])) l (self, []).

(** * The checksum *)

(** A body as a receiver frames it. *)
Definition framed (body : string) : string := String "$" (body +:+ String "*" (hex2 (xor_checksum body))).

(** One character of a line is overwritten. *)
Fixpoint replace_at (i : nat) (d : ascii) (s : string) : string :=
  match i, s with
  | O, String _ s => String d s
  | S i, String c s => String c (replace_at i d s)
  | _, EmptyString => EmptyString
  end.

Lemma replace_at_checksum i d s :
  (i < String.length s)%nat -> xor_checksum (replace_at i d s) = xor_checksum s -> replace_at i d s = s.
Proof.
  revert i; induction s as [|c s IH]; intros [|i] Hi; cbn in *; try lia.
  - intros H. assert (N_of_ascii d = N_of_ascii c) as Hdc.
    { apply (f_equal (fun x => N.lxor x (xor_checksum s))) in H. by rewrite !N.lxor_assoc, N.lxor_nilpotent, !N.lxor_0_r in H. }
    by rewrite <- (ascii_N_embedding d), Hdc, ascii_N_embedding.
  - intros H. f_equal. apply IH; [lia|].
    apply (f_equal (N.lxor (N_of_ascii c))) in H. by rewrite <- !N.lxor_assoc, !N.lxor_nilpotent, !N.lxor_0_l in H.
Qed.

Lemma replace_at_app i d s t :
  replace_at i d (s +:+ t) =
  if (i <? String.length s)%nat then replace_at i d s +:+ t else s +:+ replace_at (i - String.length s) d t.
Proof.
  revert i; induction s as [|c s IH]; intros i; [cbn; by rewrite Nat.sub_0_r|]. destruct i as [|i]; [done|].
  rewrite str_cons_app. cbn [replace_at String.length]. rewrite IH.
  change (S i <? S (String.length s))%nat with (i <? String.length s)%nat. by destruct (i <? String.length s)%nat.
Qed.

Lemma hex_upper_upper n : (n < 16)%N -> ascii_upper (hex_upper n) = hex_upper n.
Proof.
  intros Hn. unfold ascii_upper, hex_upper. destruct (N.ltb_spec n 10);
    rewrite N_ascii_embedding by lia; destruct (N.leb_spec 97 (n + 48)), (N.leb_spec 97 (n + 55)); cbn; try done; lia.
Qed.

Lemma hex2_upper n : (n < 256)%N -> str_upper (hex2 n) = hex2 n.
Proof.
  intros Hn. unfold hex2. cbn [str_upper]. rewrite !hex_upper_upper; [done|by apply N.mod_lt|by apply N.Div0.div_lt_upper_bound].
Qed.

Lemma validated_partition body supplied :
  char_in "*" body = false ->
  _validated_body (String "$" (body +:+ String "*" supplied)) =
  if negb (String.length supplied =? 2)%nat then raise ValueError "invalid NMEA checksum field"
  else if negb (String.eqb (str_upper supplied) (hex2 (xor_checksum body))) then raise ValueError "NMEA checksum mismatch"
  else Ok body.
Proof. intros H. cbn [_validated_body]. rewrite Ascii.eqb_refl. cbn [negb]. by rewrite partition_char. Qed.

Lemma framed_validates body : char_in "*" body = false -> _validated_body (framed body) = Ok body.
Proof.
  intros H. unfold framed. rewrite validated_partition by done. cbn [String.length hex2 Nat.eqb negb].
  by rewrite hex2_upper, String.eqb_refl by apply xor_checksum_bound.
Qed.

Lemma replace_at_no_char i d c s : char_in c s = false -> c <> d -> char_in c (replace_at i d s) = false.
Proof.
  revert i; induction s as [|e s IH]; intros [|i] H Hne; try done; cbn [replace_at]; rewrite char_in_cons, orb_false_iff in *; destruct H as [H1 H2].
  - split; [by apply Ascii.eqb_neq|done].
  - split; [done|by apply IH].
Qed.

Lemma replace_at_length i d s : String.length (replace_at i d s) = String.length s.
Proof. revert i; induction s as [|c s IH]; intros [|i]; cbn; auto. Qed.

(** A star written over a body character splits the body there. *)
Lemma replace_star i s :
  char_in "*" s = false -> (i < String.length s)%nat ->
  exists a b, replace_at i "*" s = a +:+ String "*" b /\ char_in "*" a = false.
Proof.
  revert i; induction s as [|c s IH]; intros [|i] H Hi; cbn in Hi; try lia; cbn [replace_at]; [by exists "", s|].
  rewrite char_in_cons, orb_false_iff in H. destruct H as [H1 H2]. destruct (IH i H2 ltac:(lia)) as (a & b & -> & Ha).
  exists (String c a), b. split; [done|]. by rewrite char_in_cons, H1.
Qed.

(** A character of a framed sentence overwritten anywhere but at the star is
    found out: either the sentence is refused, or its body is the one sent. *)
Theorem corruption_is_found_out (body : string) (i : nat) (d : ascii) (read : string) :
  char_in "*" body = false -> i <> S (String.length body) ->
  _validated_body (replace_at i d (framed body)) = Ok read -> read = body.
Proof.
  intros Hb Hi. unfold framed. destruct i as [|i]; cbn [replace_at].
  - cbn [_validated_body]. destruct (Ascii.eqb_spec d "$") as [->|_]; [|discriminate]. cbn [negb].
    intros H. pose proof (framed_validates body Hb) as Hok. unfold framed in Hok. cbn [_validated_body] in Hok.
    rewrite Ascii.eqb_refl in Hok. cbn [negb] in Hok. congruence.
  - rewrite replace_at_app. destruct (Nat.ltb_spec i (String.length body)) as [Hlt|Hge].
    + destruct (decide (d = "*"%char)) as [->|Hd].
      * destruct (replace_star i body Hb Hlt) as (a & b & -> & Ha). rewrite str_app_assoc, str_cons_app, validated_partition by done.
        rewrite str_app_length. cbn [String.length hex2]. by replace (String.length b + 3 =? 2)%nat with false by (symmetry; apply Nat.eqb_neq; lia).
      * rewrite validated_partition by (by apply replace_at_no_char). cbn [String.length hex2 Nat.eqb negb].
        fold (hex2 (xor_checksum body)). rewrite hex2_upper by apply xor_checksum_bound.
        destruct (String.eqb_spec (hex2 (xor_checksum body)) (hex2 (xor_checksum (replace_at i d body)))) as [Heq|]; [|discriminate].
        intros [= <-]. apply replace_at_checksum; [done|].
        symmetry. by apply hex2_inj; [apply xor_checksum_bound..|].
    + destruct (i - String.length body)%nat as [|k] eqn:Ek; [exfalso; lia|]. cbn [replace_at].
      rewrite validated_partition by done. destruct (negb _); [discriminate|]. destruct (negb _); [discriminate|]. by intros [= <-].
Qed.

(** * What is read *)

(** [lo <= x <= hi], and neither NaN nor infinite. *)
Definition between (lo hi : Z) (x : float) : Prop := finite x /\ fleb (f_of_Z lo) x = true /\ fleb x (f_of_Z hi) = true.
(** [0 <= x], and neither NaN nor infinite. *)
Definition at_least_0 (x : float) : Prop := finite x /\ fltb x f0 = false.

(** The readings of a sentence, by what it is. *)
Inductive reads (self : NmeaDecoder) : verdict -> readings -> Prop :=
  | reads_rmc lat lon speed heading mode :
      between (-90) 90 lat -> between (-180) 180 lon -> at_least_0 speed ->
      at_least_0 heading -> fltb heading (f_of_Z 360) = true -> mode <> "" ->
      reads self Rmc [(_prefix self +:+ "lat", VFloat lat); (_prefix self +:+ "lon", VFloat lon);
        (_prefix self +:+ "speed", VFloat speed); (_prefix self +:+ "heading", VFloat heading); (_prefix self +:+ "mode", VStr mode)]
  | reads_gga alt sep sats hdop quality :
      finite alt -> finite sep -> 0 <= sats -> at_least_0 hdop -> quality <> 0 ->
      reads self Gga [(_gga_prefix self +:+ "alt", VFloat alt); (_gga_prefix self +:+ "geoid_sep", VFloat sep);
        (_gga_prefix self +:+ "sats", VInt sats); (_gga_prefix self +:+ "hdop", VFloat hdop); (_gga_prefix self +:+ "quality", VInt quality)]
  | reads_gst lat_std lon_std alt_std :
      at_least_0 lat_std -> at_least_0 lon_std -> at_least_0 alt_std ->
      reads self Gst [(_gst_prefix self +:+ "lat_std", VFloat lat_std); (_gst_prefix self +:+ "lon_std", VFloat lon_std);
        (_gst_prefix self +:+ "alt_std", VFloat alt_std)]
  | reads_ignored : reads self Ignored []
  | reads_malformed : reads self Malformed [].

Lemma check_Ok b why u : check b why = Ok u -> b = true.
Proof. unfold check. by destruct b. Qed.

Lemma finite_nonneg x : is_finite x = true -> fleb f0 x = true -> at_least_0 x.
Proof. intros Hf Hle. split; [done|]. forder. Qed.

(** One bind at a time; a test becomes its condition. *)
Ltac unbind H :=
  repeat (apply res_bind_Ok in H as (? & ? & H));
  repeat match goal with K : check _ _ = Ok _ |- _ => apply check_Ok in K end;
  repeat match goal with K : (_ && _) = true |- _ => apply andb_true_iff in K as [? ?] end.

Lemma gga_reads self fields values : _decode_gga (_gga_prefix self) fields = Ok values -> reads self Gga values.
Proof.
  unfold _decode_gga. intros H. unbind H.
  repeat match goal with K : negb _ = true |- _ => apply negb_true_iff in K end.
  repeat match goal with K : (_ || _) = false |- _ => apply orb_false_iff in K as [? ?] end.
  injection H as <-. constructor; [done|done|lia|by split|lia].
Qed.

Lemma gst_reads self fields values : _decode_gst (_gst_prefix self) fields = Ok values -> reads self Gst values.
Proof.
  unfold _decode_gst. intros H. unbind H. cbn [forallb] in *.
  repeat match goal with K : (_ && _) = true |- _ => apply andb_true_iff in K as [? ?] end.
  injection H as <-. constructor; by apply finite_nonneg.
Qed.

Lemma rmc_reads self fields values : decode_rmc (_prefix self) fields = Ok values -> reads self Rmc values.
Proof.
  unfold decode_rmc. intros H. unbind H. cbn [forallb] in *.
  repeat match goal with K : (_ && _) = true |- _ => apply andb_true_iff in K as [? ?] end.
  repeat match goal with K : negb _ = true |- _ => apply negb_true_iff in K end.
  repeat match goal with K : String.eqb _ _ = true |- _ => apply String.eqb_eq in K as -> end.
  injection H as <-. apply reads_rmc; try (by split); try done; [by apply finite_nonneg|].
  repeat case_match; simplify_eq; try done; discriminate.
Qed.

(** C40. Whatever the port delivers, a sentence is counted once, as read, ignored or
    malformed, and only a sentence that is read gives values: all of its kind,
    finite and inside their ranges. *)
Theorem sentence_reads_soundly (self : NmeaDecoder) (s : Sentence) :
  exists v, stats (decode self s).1 = counted (stats self) v /\ reads self v (decode self s).2.
Proof.
  unfold decode. destruct (text ← sentence_text s; _) as [body|e]; [|exists Malformed; split; [done|constructor]].
  destruct (read_sentence self (kind_of _) _) as [values|e] eqn:E; [|exists Malformed; split; [done|constructor]].
  exists (kind_of (str_split "," body)). split; [done|]. cbn [snd]. destruct (kind_of _) eqn:Ek; cbn [read_sentence] in E.
  - by eapply rmc_reads.
  - by eapply gga_reads.
  - by eapply gst_reads.
  - injection E as <-. constructor.
  - injection E as <-. constructor.
Qed.

(** Every sentence of a run is accounted for, and so is every value. *)
Theorem sentences_are_accounted (source_name device : string) (l : list Sentence) :
  let '(d, read) := decode_all (decoder_init source_name device) l in
  sentences (stats d) = Z.of_nat (length l) /\
  sentences (stats d) = rmc_sentences (stats d) + gga_sentences (stats d) + gst_sentences (stats d)
                        + ignored_sentences (stats d) + malformed_sentences (stats d) /\
  Z.of_nat (length (concat read)) = 5 * rmc_sentences (stats d) + 5 * gga_sentences (stats d) + 3 * gst_sentences (stats d).
Proof.
  unfold decode_all. induction l as [|s l IH] using rev_ind; [done|]. rewrite fold_left_app. cbn [fold_left].
  destruct (fold_left _ l _) as [d read]. cbn [fst snd] in *. destruct (sentence_reads_soundly d s) as (v & Hs & Hr).
  destruct (decode d s) as [d' values]. cbn [fst snd] in *. rewrite Hs, length_app, concat_app, length_app.
  destruct IH as (H1 & H2 & H3). destruct Hr; cbn; lia.
Qed.

(** * On concrete sentences *)

Module Receiver.
Definition position : string := "GPRMC,123519.00,A,4807.038,N,01131.000,E,022.4,084.4,230394,,,A".
Definition altitude : string := "GPGGA,123519.00,4807.038,N,01131.000,E,4,08,0.9,545.4,M,46.9,M,,".
Definition errors : string := "GPGST,123519.00,0.8,0.015,0.011,45.0,0.012,0.014,0.025".
Definition decoder : NmeaDecoder := decoder_init "serial0" "um980".
Definition modes (l : readings) : list SampleValue := omap (fun '(_, v) => match v with VStr _ => Some v | _ => None end) l.
End Receiver.

Example framed_fix : framed Receiver.position = "$GPRMC,123519.00,A,4807.038,N,01131.000,E,022.4,084.4,230394,,,A*52".
Proof. reflexivity. Qed.

Lemma corruption_is_found_out_witness :
  _validated_body (replace_at 65 "b" (framed Receiver.position)) = raise ValueError "NMEA checksum mismatch" /\
  _validated_body (replace_at 65 "5" (framed Receiver.position)) = Ok Receiver.position.
Proof.
  split; [reflexivity|]. assert (H : exists read, _validated_body (replace_at 65 "5" (framed Receiver.position)) = Ok read) by (eexists; reflexivity).
  destruct H as (read & H). rewrite H. f_equal.
  apply (corruption_is_found_out Receiver.position 65 "5" read); [reflexivity|discriminate|exact H].
Defined.

(** The one character the checksum does not protect is the star: without it
    there is no checksum to check, and the fix is taken with the digits in its
    mode field. *)
Example lost_star_is_accepted :
  let lost := SBytes (replace_at (S (String.length Receiver.position)) "?" (framed Receiver.position)) in
  let read l := (decode Receiver.decoder l).2 in
  length (read lost) = 5%nat /\
  Receiver.modes (read (SBytes (framed Receiver.position))) = [VStr "A"] /\ Receiver.modes (read lost) = [VStr "A?52"].
Proof. vm_compute. split_and!; reflexivity. Qed.

(** Every kind of sentence, and what is refused. *)
Example a_run_is_accounted :
  let '(d, read) := decode_all Receiver.decoder
    [SBytes (framed Receiver.position); SBytes (framed Receiver.altitude); SBytes (framed Receiver.errors); SText "$GNGSV,ignored";
     SBytes (framed "GPRMC,123519.00,V,,,,,,,230394,,,N"); SText "not nmea"] in
  stats d = mkStats 6 1 1 1 1 2 /\ map length read = [5; 5; 3; 0; 0; 0]%nat.
Proof. vm_compute. split; reflexivity. Qed.
