(* ===== verification/Um980.v ===== *)
(** The UM980 driver ([src/collectors/serial/um980.py], [drivers.py]): startup
    commands and their acknowledgements, and corrections written back.

    The port is an environment: [accepts n] is the answer to its [n]-th write,
    and for each command sent, [replies] are the lines that [readline] returns
    before the deadline of that command; the end of the list is the deadline. A
    line is what the port gave, decoded with replacement and stripped; an input
    buffer that cannot be cleared is a write that fails. *)

From S2P Require Import Prelude PyFloat Stats PyText Config.

Local Open Scope Z_scope.

(** * Acknowledgements *)

Record CommandResult := mkResult { command : string; ok : bool; response : string }.

Definition _verify_checksum (line : string) : res () :=
  match str_rpartition "*" line with
  | None => raise ValueError "invalid UM980 acknowledgement checksum field"
  | Some (body, supplied_checksum) =>
      if negb (String.length supplied_checksum =? 2)%nat then raise ValueError "invalid UM980 acknowledgement checksum field"
      else if negb (String.eqb (str_upper supplied_checksum) (hex2 (xor_checksum body))) then
        raise ValueError "invalid UM980 acknowledgement checksum"
      else Ok tt
  end.

Definition COMMAND_HEAD : string := "$command,".
Definition RESPONSE : string := ",response:".

Definition parse_command_response (line : string) (verify_checksum : bool) : res (option CommandResult) :=
  if negb (String.prefix COMMAND_HEAD line) then Ok None
  else
    let body := str_drop (String.length COMMAND_HEAD) line in
    body ← match str_rpartition "*" body with
           | Some (before, _) => _ ← (if verify_checksum then _verify_checksum line else Ok tt); Ok before
           | None => if verify_checksum then raise ValueError "missing UM980 acknowledgement checksum" else Ok body
           end;
    Ok (match str_rpartition RESPONSE body with
        | None => None
        | Some (command, response) =>
            if String.eqb (strip command) "" then None
            else let status := strip response in Some (mkResult (strip command) (String.eqb (str_upper status) "OK") status)
        end).

Definition _checksummed_command (command : string) : string := "$" +:+ command +:+ "*" +:+ hex2 (xor_checksum command).

(** * The commands of a configuration *)

Definition SUPPORTED_RATES_HZ : list (Z * string) :=
  [(1, "1"); (2, "0.5"); (5, "0.2"); (10, "0.1"); (20, "0.05"); (50, "0.02")].
Definition SENTENCE_COMMANDS : list (string * string) :=
  [("RMC", "GPRMC"); ("GGA", "GPGGA"); ("VTG", "GPVTG"); ("GSA", "GPGSA"); ("GSV", "GPGSV"); ("GST", "GPGST"); ("GLL", "GPGLL"); ("ZDA", "GPZDA")].
Definition COMMAND_FORMAT : string := "CONFIG CMDFORMAT 1".

Definition _interval (rate : Z) : res string :=
  match od_get rate SUPPORTED_RATES_HZ with
  | Some t => Ok t
  | None => raise ValueError ("unsupported UM980 rate " +:+ pretty rate +:+ " Hz; supported rates: "
                              +:+ join ", " (map (fun r => pretty r.1) SUPPORTED_RATES_HZ))
  end.

Definition sentence_command (settings : Um980Settings) (overrides : list (string * Z)) (configured_sentence : string) : res string :=
  let sentence := str_upper configured_sentence in
  match od_get sentence SENTENCE_COMMANDS with
  | None => raise ValueError ("unsupported UM980 NMEA sentence " +:+ repr_str configured_sentence)
  | Some command => interval ← _interval (default (rate_hz settings) (od_get sentence overrides)); Ok (command +:+ " " +:+ interval)
  end.

Definition port_text (p : ComPort) : string := match p with COM1 => "COM1" | COM2 => "COM2" | COM3 => "COM3" end.
Definition mode_text (m : PpsMode) : string := match m with ENABLE => "ENABLE" | ENABLE2 => "ENABLE2" | ENABLE3 => "ENABLE3" end.
Definition reference_text (t : TimeReference) : string := match t with GPS => "GPS" | BDS => "BDS" | GAL => "GAL" | GLO => "GLO" end.
Definition polarity_text (p : Polarity) : string := match p with POSITIVE => "POSITIVE" | NEGATIVE => "NEGATIVE" end.

Definition _startup_commands (settings : Um980Settings) : res (list string) :=
  _ ← _interval (rate_hz settings);
  let overrides := fold_left (fun d nr => od_set (str_upper nr.1) nr.2 d) (sentence_rates_hz settings) [] in
  output ← res_map (sentence_command settings overrides) (sentences settings);
  let timing := opt_list (timing_output settings) in
  Ok (["UNLOG"] ++ output
      ++ map (fun t => "CONFIG " +:+ port_text (to_port t) +:+ " " +:+ pretty (to_baud t) +:+ " 8 N 1") timing
      ++ map (fun p => "CONFIG PPS " +:+ mode_text (mode p) +:+ " " +:+ reference_text (time_reference p) +:+ " " +:+ polarity_text (polarity p) +:+ " "
                +:+ pretty (width_us p) +:+ " " +:+ pretty (period_ms p) +:+ " " +:+ pretty (rf_delay_ns p) +:+ " " +:+ pretty (user_delay_ns p))
             (opt_list (pps settings))
      ++ concat (map (fun t => ["GPZDA " +:+ port_text (to_port t) +:+ " 1"; "GPGGA " +:+ port_text (to_port t) +:+ " 1"]) timing)).

(** * The port *)

(** [port.write]: the bytes it took ([None] and numbers below one are no
    progress), or an error of the port. *)
Inductive write_answer := Took (count : option Z) | WriteError (why : string).
Inductive read_answer := Line (l : string) | ReadError (why : string).

(** What went out, and how many writes that took. *)
Record SerialPort := mkPort { wire : string; writes : nat }.

Section Driver.
Variables (accepts : nat -> write_answer).

(** [_write_all]: the bytes written, as the port counts them; each turn of the
    loop takes at least one byte, so [fuel] is their number. *)
Fixpoint write_loop (fuel : nat) (port : SerialPort) (payload : string) (written : Z) : SerialPort * res Z :=
  match payload with
  | EmptyString => (port, Ok written)
  | _ =>
      match fuel with
      | O => (port, Ok written)
      | S fuel =>
          let port' taken := mkPort (wire port +:+ str_take (Z.to_nat taken) payload) (S (writes port)) in
          match accepts (writes port) with
          | WriteError why => (port' 0, raise OSError why)
          | Took None => (port' 0, raise OSError "serial write made no progress")
          | Took (Some count) =>
              if count <=? 0 then (port' 0, raise OSError "serial write made no progress")
              else write_loop fuel (port' count) (str_drop (Z.to_nat count) payload) (written + count)
          end
      end
  end.
Definition _write_all (port : SerialPort) (payload : string) : SerialPort * res Z := write_loop (String.length payload) port payload 0.

Definition write_rtcm (port : SerialPort) (payload : string) : SerialPort * res Z :=
  match payload with EmptyString => (port, Ok 0) | _ => _write_all port payload end.

(** The wait for an acknowledgement. *)
Fixpoint await_ack (replies : list read_answer) (sent : string) (checksummed : bool) : res CommandResult :=
  match replies with
  | [] => Ok (mkResult sent false "timeout")
  | ReadError why :: _ => raise OSError why
  | Line line :: replies =>
      match parse_command_response line checksummed with
      | Raise e => Ok (mkResult sent false (exn_msg e))
      | Ok (Some result) => if String.eqb (str_upper (command result)) (str_upper sent) then Ok result else await_ack replies sent checksummed
      | Ok None => await_ack replies sent checksummed
      end
  end.

Definition crlf : string := String (ascii_of_nat 13) (String (ascii_of_nat 10) EmptyString).
Definition wire_command (sent : string) (checksummed : bool) : string :=
  (if checksummed then _checksummed_command sent else sent) +:+ crlf.

Definition _send_command (port : SerialPort) (replies : list read_answer) (sent : string) (checksummed : bool) : SerialPort * res CommandResult :=
  let '(port, r) := _write_all port (wire_command sent checksummed) in
  (port, _ ← r; await_ack replies sent checksummed).

Definition _require_ok (result : CommandResult) (sent : string) : res () :=
  if ok result then Ok tt
  else raise ConfigurationError ("UM980 command " +:+ repr_str sent +:+ " failed: " +:+ response result).

(** [except OSError] of [configure]. *)
Definition as_configuration_error {A : Type} (r : res A) (sent : string) : res A :=
  match r with
  | Raise e => if decide (exn_kind e = OSError) then raise ConfigurationError ("UM980 command " +:+ repr_str sent +:+ " failed: " +:+ exn_msg e) else Raise e
  | Ok a => Ok a
  end.

Fixpoint send_all (port : SerialPort) (replies : nat -> list read_answer) (n : nat) (commands : list string) : SerialPort * res () :=
  match commands with
  | [] => (port, Ok tt)
  | c :: commands =>
      let '(port, r) := _send_command port (replies n) c true in
      match as_configuration_error (result ← r; _require_ok result c) c with
      | Raise e => (port, Raise e)
      | Ok _ => send_all port replies (S n) commands
      end
  end.

(** [configure]: [replies n] answers the [n]-th command sent. *)
Definition configure (settings : Um980Settings) (commands : list string) (port : SerialPort) (replies : nat -> list read_answer)
    : SerialPort * res () :=
  if negb (configure_on_start settings) then (port, Ok tt)
  else
    let '(port, first) := _send_command port (replies 0%nat) COMMAND_FORMAT false in
    match as_configuration_error first COMMAND_FORMAT with
    | Raise e => (port, Raise e)
    | Ok first =>
        let '(port, n, r) :=
          if String.eqb (response first) "timeout" then
            let '(port, again) := _send_command port (replies 1%nat) COMMAND_FORMAT true in (port, 2%nat, again)
          else (port, 1%nat, Ok first) in
        match as_configuration_error (result ← r; _require_ok result COMMAND_FORMAT) COMMAND_FORMAT with
        | Raise e => (port, Raise e)
        | Ok _ => send_all port replies n commands
        end
    end.

(** [UM980Driver(port, settings)] and [build_driver]. *)
Definition build_driver (config : DriverConfig) : res (Um980Settings * list string) :=
  if String.eqb (driver_name config) "um980" then
    commands ← _startup_commands (driver_config config); Ok (driver_config config, commands)
  else raise ValueError ("unsupported serial driver " +:+ repr_str (driver_name config) +:+ "; supported drivers: um980").
End Driver.

(** * Writes *)

Lemma write_loop_sends accepts fuel port payload written :
  (String.length payload <= fuel)%nat -> 0 <= written ->
  match write_loop accepts fuel port payload written with
  | (port', Ok w) => wire port' = wire port +:+ payload /\ written <= w /\ (payload <> "" -> written < w)
  | (port', Raise e) => exists sent rest, payload = sent +:+ rest /\ rest <> "" /\ wire port' = wire port +:+ sent
  end.
Proof.
  revert port payload written; induction fuel as [|fuel IH]; intros port payload written Hf Hw.
  - destruct payload; [|cbn in Hf; lia]. cbn. by rewrite str_app_nil.
  - destruct payload as [|c s]; [cbn; by rewrite str_app_nil|]. cbn [write_loop].
    destruct (accepts (writes port)) as [[count|]|why].
    + destruct (Z.leb_spec count 0) as [Hc|Hc].
      * exists "", (String c s). cbn [wire str_take Z.to_nat]. done.
      * destruct (Z.to_nat count) as [|k] eqn:Ek; [lia|].
        specialize (IH (mkPort (wire port +:+ str_take (S k) (String c s)) (S (writes port))) (str_drop (S k) (String c s)) (written + count)).
        rewrite str_drop_length in IH. specialize (IH ltac:(cbn in Hf |- *; lia) ltac:(lia)).
        destruct (write_loop _ _ _ _ _) as [port' [w|e]]; cbn [wire] in IH.
        -- destruct IH as (H & Hle & _). rewrite str_app_assoc, take_drop_str in H. split; [done|]. split; [lia|]. intros _; lia.
        -- destruct IH as (sent & rest & Hp & Hr & H). exists (str_take (S k) (String c s) +:+ sent), rest.
           rewrite str_app_assoc, <- Hp, take_drop_str. split; [done|]. split; [done|]. by rewrite H, str_app_assoc.
    + exists "", (String c s). done.
    + exists "", (String c s). done.
Qed.

(** A correction goes out whole and unchanged, in however many pieces the port
    takes it; when the port stops taking bytes the call fails, having sent a
    part from its beginning. *)
Theorem corrections_go_out_whole (accepts : nat -> write_answer) (port : SerialPort) (payload : string) :
  match write_rtcm accepts port payload with
  | (port', Ok w) => wire port' = wire port +:+ payload
  | (port', Raise e) => exists sent rest, payload = sent +:+ rest /\ rest <> "" /\ wire port' = wire port +:+ sent
  end.
Proof.
  unfold write_rtcm. destruct payload as [|c s]; [by rewrite str_app_nil|]. unfold _write_all.
  pose proof (write_loop_sends accepts (String.length (String c s)) port (String c s) 0 ltac:(done) ltac:(done)) as H.
  destruct (write_loop _ _ _ _ _) as [port' [w|e]]; [by destruct H|exact H].
Qed.

(** * Configuration *)

(** An acknowledgement of [sent] arrived in time: a line that parses, names the
    command, and says OK. *)
Definition acknowledged (replies : list read_answer) (sent : string) (checksummed : bool) : Prop :=
  exists line result, Line line ∈ replies /\ parse_command_response line checksummed = Ok (Some result) /\
    ok result = true /\ str_upper (command result) = str_upper sent.

Lemma await_ack_ok replies sent checksummed result :
  await_ack replies sent checksummed = Ok result -> ok result = true -> acknowledged replies sent checksummed.
Proof.
  induction replies as [|[line|why] replies IH]; cbn [await_ack]; [by intros [= <-]| |discriminate].
  assert (Hmore : acknowledged replies sent checksummed -> acknowledged (Line line :: replies) sent checksummed).
  { intros (l & r & Hin & H). exists l, r. split; [by right|done]. }
  destruct (parse_command_response line checksummed) as [[r|]|e] eqn:E.
  - destruct (String.eqb_spec (str_upper (command r)) (str_upper sent)) as [Hn|].
    + intros [= <-] Hok. exists line, r. split; [left|]. done.
    + intros. auto.
  - intros. auto.
  - by intros [= <-].
Qed.

Lemma send_command_wire accepts port replies sent cs port' r :
  _send_command accepts port replies sent cs = (port', Ok r) ->
  wire port' = wire port +:+ wire_command sent cs /\ await_ack replies sent cs = Ok r.
Proof.
  unfold _send_command, _write_all. set (p := wire_command sent cs).
  pose proof (write_loop_sends accepts (String.length p) port p 0 ltac:(done) ltac:(done)) as H.
  destruct (write_loop _ _ _ _ _) as [q [w|e]]; cbn [mbind res_bind]; [|discriminate]. intros [= -> Ha]. by destruct H.
Qed.

Lemma as_error_Ok {A : Type} (r : res A) sent a : as_configuration_error r sent = Ok a -> r = Ok a.
Proof. unfold as_configuration_error. destruct r; [done|]. by destruct (decide _). Qed.

Lemma require_ok_Ok r sent u : _require_ok r sent = Ok u -> ok r = true.
Proof. unfold _require_ok. by destruct (ok r). Qed.

Lemma send_all_wire accepts port replies n commands port' u :
  send_all accepts port replies n commands = (port', Ok u) ->
  wire port' = wire port +:+ str_concat (map (fun c => wire_command c true) commands) /\
  forall i c, commands !! i = Some c -> acknowledged (replies (n + i)%nat) c true.
Proof.
  revert port n; induction commands as [|c commands IH]; intros port n; cbn [send_all map str_concat].
  - intros [= <- _]. rewrite str_app_nil. split; [done|]. intros i c. by rewrite lookup_nil.
  - destruct (_send_command accepts port (replies n) c true) as [q r] eqn:Es.
    destruct (as_configuration_error _ _) as [[]|e] eqn:E; [|discriminate]. apply as_error_Ok in E.
    apply res_bind_Ok in E as (result & -> & Hok%require_ok_Ok). apply send_command_wire in Es as [Hq Ha].
    intros (Hw & Hacks)%IH. rewrite Hw, Hq, str_app_assoc. split; [done|]. intros [|i] d Hd; cbn in Hd.
    + injection Hd as ->. rewrite Nat.add_0_r. by eapply await_ack_ok.
    + replace (n + S i)%nat with (S n + i)%nat by lia. by apply Hacks.
Qed.

Lemma sent_in_turn (w w1 w2 w3 a b c : string) :
  w1 = w +:+ a -> w2 = w1 +:+ b -> w3 = w2 +:+ c -> w3 = w +:+ a +:+ b +:+ c.
Proof. intros -> -> ->. by rewrite !str_app_assoc. Qed.

(** C36. When [configure] returns and the settings ask for it, the receiver was sent
    the switch to checksummed commands (again, checksummed, if the first try
    timed out) and then every startup command once, in order and checksummed,
    and it acknowledged each of them with OK before the next was sent. *)
Theorem configured_receiver_acknowledged_all (accepts : nat -> write_answer) (settings : Um980Settings) (commands : list string)
    (port port' : SerialPort) (replies : nat -> list read_answer) :
  configure accepts settings commands port replies = (port', Ok tt) -> configure_on_start settings = true ->
  exists again : bool, let n := if again then 2%nat else 1%nat in
    wire port' = wire port +:+ wire_command COMMAND_FORMAT false +:+ (if again then wire_command COMMAND_FORMAT true else "")
                 +:+ str_concat (map (fun c => wire_command c true) commands) /\
    acknowledged (replies (n - 1)%nat) COMMAND_FORMAT again /\
    forall i c, commands !! i = Some c -> acknowledged (replies (n + i)%nat) c true.
Proof.
  intros H Hon. revert H. unfold configure. rewrite Hon. cbn [negb]. generalize COMMAND_FORMAT. intros fmt.
  destruct (_send_command accepts port (replies 0%nat) fmt false) as [p0 first] eqn:E0.
  destruct (as_configuration_error first fmt) as [r0|e] eqn:Ef; [|discriminate]. apply as_error_Ok in Ef as ->.
  apply send_command_wire in E0 as [Hp0 Ha0]. destruct (String.eqb (response r0) "timeout").
  - destruct (_send_command accepts p0 (replies 1%nat) fmt true) as [p1 again] eqn:E1. cbn [fst snd].
    destruct (as_configuration_error _ _) as [[]|e] eqn:E; [|discriminate]. apply as_error_Ok in E.
    apply res_bind_Ok in E as (r1 & -> & Hok%require_ok_Ok). apply send_command_wire in E1 as [Hp1 Ha1].
    intros [Hw Hacks]%send_all_wire. exists true. split; [exact (sent_in_turn _ _ _ _ _ _ _ Hp0 Hp1 Hw)|].
    split; [by eapply await_ack_ok|exact Hacks].
  - destruct (as_configuration_error _ _) as [[]|e] eqn:E; [|discriminate]. apply as_error_Ok in E.
    apply res_bind_Ok in E as (r1 & [= <-] & Hok%require_ok_Ok).
    intros [Hw Hacks]%send_all_wire. exists false. split; [exact (sent_in_turn _ _ _ _ _ _ _ Hp0 (eq_sym (str_app_nil _)) Hw)|].
    split; [by eapply await_ack_ok|exact Hacks].
Qed.

(** * On a receiver *)

Module Rover.
Definition settings : Um980Settings := mkUm980Settings 50 ["RMC"; "gga"] [("GGA", 10)] true
  (Some (mkPpsConfig ENABLE GPS POSITIVE 500000 1000 0 0)) (Some (mkTimingOutput COM2 115200)).
Definition commands : list string :=
  ["UNLOG"; "GPRMC 0.02"; "GPGGA 0.1"; "CONFIG COM2 115200 8 N 1"; "CONFIG PPS ENABLE GPS POSITIVE 500000 1000 0 0"; "GPZDA COM2 1"; "GPGGA COM2 1"].
Definition ack (c : string) : string :=
  let line := COMMAND_HEAD +:+ c +:+ RESPONSE +:+ " OK" in line +:+ "*" +:+ hex2 (xor_checksum line).
(** The receiver talks NMEA between its acknowledgements. *)
Definition replies (n : nat) : list read_answer :=
  match n with
  | O => [Line "$GNRMC,ignored"; Line (ack COMMAND_FORMAT)]
  | S n => [Line "$GNRMC,ignored"; Line (ack (nth n commands ""))]
  end.
Definition one_by_one : nat -> write_answer := fun _ => Took (Some 1).
End Rover.

Example startup_commands_of_a_profile : _startup_commands Rover.settings = Ok Rover.commands.
Proof. vm_compute. reflexivity. Qed.

(** The acknowledgements a receiver gave on the bench check out with the dollar
    sign counted, and only so. *)
Example bench_acknowledgements_verify :
  Forall (fun line => exists c, parse_command_response line true = Ok (Some (mkResult c true "OK")))
    ["$command,CONFIG CMDFORMAT 1,response: OK*2C"; "$command,UNLOG,response: OK*01"; "$command,GPRMC 0.02,response: OK*29";
     "$command,CONFIG,response: OK*54"] /\
  parse_command_response "$command,CONFIG CMDFORMAT 1,response: OK*08" true = raise ValueError "invalid UM980 acknowledgement checksum" /\
  parse_command_response "$command,CONFIG CMDFORMAT 1,response: OK*08" false = Ok (Some (mkResult COMMAND_FORMAT true "OK")).
Proof. split; [repeat (apply Forall_cons; split; [eexists; vm_compute; reflexivity|]); by apply Forall_nil|]. vm_compute. split; reflexivity. Qed.

Lemma configured_receiver_acknowledged_all_witness :
  exists port', configure Rover.one_by_one Rover.settings Rover.commands (mkPort "" 0) Rover.replies = (port', Ok tt) /\
  exists again : bool, acknowledged (Rover.replies ((if again then 2 else 1) + 6)%nat) "GPGGA COM2 1" true.
Proof.
  assert (H : exists port', configure Rover.one_by_one Rover.settings Rover.commands (mkPort "" 0) Rover.replies = (port', Ok tt))
    by (eexists; vm_compute; reflexivity).
  destruct H as (port' & H). exists port'. split; [exact H|].
  destruct (configured_receiver_acknowledged_all Rover.one_by_one Rover.settings Rover.commands (mkPort "" 0) port' Rover.replies H eq_refl)
    as (again & _ & _ & Hacks).
  exists again. apply (Hacks 6%nat). reflexivity.
Defined.

(** A profile's driver settings are validated when it is loaded, but not against
    the rates and sentences the receiver has commands for: such a profile loads,
    and the driver is refused each time the port is opened, with an error that
    is not the one the transport retries. *)
Example unsupported_rate_passes_validation :
  let at_3_hz := mkDriverConfig "um980" (mkUm980Settings 3 ["RMC"] [] true None None) in
  let with_ths := mkDriverConfig "um980" (mkUm980Settings 5 ["THS"] [] true None None) in
  let refusal d := match build_driver d with Raise e => Some (exn_kind e) | Ok _ => None end in
  validate_driver at_3_hz = Ok tt /\ refusal at_3_hz = Some ValueError /\
  validate_driver with_ths = Ok tt /\ refusal with_ths = Some ValueError.
Proof. vm_compute. split_and!; reflexivity. Qed.
