(* ===== verification/RawLog.v ===== *)
(** Raw capture files ([src/collectors/rawlog.py]) and the service that relays
    candump into them ([src/collectors/canlog.py]).

    A run is the segments closed so far and the one being written. A line is
    [pending] until a flush and fsync reach it; a power cut keeps everything
    that was synced and any beginning of what was pending. Every write gets the
    outcome of the system calls it makes as a parameter, and the readings of
    the monotonic clock. *)

From S2P Require Import Prelude PyFloat Stats PyText.

Local Open Scope Z_scope.

(** * The writer *)

Definition DEFAULT_ROTATE_INTERVAL_S : float := f_of_Z 600.
Definition DEFAULT_FSYNC_INTERVAL_S : float := f_of_Z 1.

Record RawLogWriter := mkWriter {
  run_dir : string;
  _rotate_interval_s : float;
  _fsync_interval_s : float;
  closed_segments : list (list string);  (* earlier segments, fsynced when they were closed *)
  synced : list string;                  (* of the current segment, up to its last fsync *)
  pending : list string;                 (* of the current segment, written since *)
  _segment_open : bool;
  _segment_seq : Z;
  _closed : bool;
  _rotate_due : float;
  _fsync_due : float
}.

(** How the system calls of a write end. [WriteFailed landed]: the write itself
    raises, the line in the buffer or not. [SyncFailed]: the line is in the
    buffer, its flush or fsync raises. [OpenFailed]: a segment was closed but
    the next one cannot be opened. *)
Inductive io := Fine | WriteFailed (landed : bool) | SyncFailed | OpenFailed.

Definition _open_segment (w : RawLogWriter) (now : float) : RawLogWriter :=
  mkWriter (run_dir w) (_rotate_interval_s w) (_fsync_interval_s w) (closed_segments w) [] [] true (_segment_seq w + 1) (_closed w)
    (fadd now (_rotate_interval_s w)) (fadd now (_fsync_interval_s w)).

Definition set_lines (w : RawLogWriter) (s p : list string) : RawLogWriter :=
  mkWriter (run_dir w) (_rotate_interval_s w) (_fsync_interval_s w) (closed_segments w) s p (_segment_open w) (_segment_seq w) (_closed w)
    (_rotate_due w) (_fsync_due w).
Definition set_fsync_due (w : RawLogWriter) (due : float) : RawLogWriter :=
  mkWriter (run_dir w) (_rotate_interval_s w) (_fsync_interval_s w) (closed_segments w) (synced w) (pending w) (_segment_open w) (_segment_seq w)
    (_closed w) (_rotate_due w) due.
(** A segment closed for good: all of it is synced. *)
Definition retire (w : RawLogWriter) (closed : bool) : RawLogWriter :=
  mkWriter (run_dir w) (_rotate_interval_s w) (_fsync_interval_s w) (closed_segments w ++ [synced w ++ pending w]) [] [] false (_segment_seq w)
    closed (_rotate_due w) (_fsync_due w).

Definition _rotate (w : RawLogWriter) (reopened : float) (o : io) : RawLogWriter * res () :=
  match o with
  | SyncFailed => (w, raise OSError "fsync failed")
  | OpenFailed => (retire w (_closed w), raise OSError "cannot open segment")
  | _ => (_open_segment (retire w (_closed w)) reopened, Ok tt)
  end.

(** [now] is the clock after the write, [reopened] the one [_open_segment]
    reads if the segment is rotated. *)
Definition write_line (w : RawLogWriter) (line : string) (now reopened : float) (o : io) : RawLogWriter * res () :=
  if _closed w || negb (_segment_open w) then (w, raise OSError "raw log writer is closed")
  else
    match o with
    | WriteFailed landed => (if landed then set_lines w (synced w) (pending w ++ [line]) else w, raise OSError "write failed")
    | _ =>
        let w := set_lines w (synced w) (pending w ++ [line]) in
        if fleb (_rotate_due w) now then _rotate w reopened o
        else if fleb (_fsync_due w) now then
          match o with
          | SyncFailed => (w, raise OSError "fsync failed")
          | _ => (set_fsync_due (set_lines w (synced w ++ pending w) []) (fadd now (_fsync_interval_s w)), Ok tt)
          end
        else (w, Ok tt)
    end.

(** [close]: best effort, and nothing the second time. *)
Definition close (w : RawLogWriter) (o : io) : RawLogWriter :=
  if _closed w then w
  else if negb (_segment_open w) then
    mkWriter (run_dir w) (_rotate_interval_s w) (_fsync_interval_s w) (closed_segments w) (synced w) (pending w) false (_segment_seq w) true
      (_rotate_due w) (_fsync_due w)
  else
    match o with
    | Fine => retire w true
    | _ => mkWriter (run_dir w) (_rotate_interval_s w) (_fsync_interval_s w) (closed_segments w) (synced w) (pending w) false (_segment_seq w) true
             (_rotate_due w) (_fsync_due w)
    end.

(** [_create_run_dir]: a name no earlier run of the source has. *)
Fixpoint try_dirs (attempts attempt : nat) (stamp : string) (taken : list string) : res string :=
  match attempts with
  | O => raise OSError "cannot create a unique run directory"
  | S attempts =>
      let name := match attempt with O => stamp | _ => stamp +:+ "-" +:+ pretty attempt end in
      if bool_decide (name ∈ taken) then try_dirs attempts (S attempt) stamp taken else Ok name
  end.
Definition _create_run_dir (stamp : string) (taken : list string) : res string := try_dirs 100 0 stamp taken.

Definition writer_init (stamp : string) (taken : list string) (rotate_s fsync_s now : float) : res RawLogWriter :=
  dir ← _create_run_dir stamp taken;
  Ok (_open_segment (mkWriter dir rotate_s fsync_s [] [] [] false 0 false f0 f0) now).

(** * What a power cut costs *)

(** What is on the disk for good, and everything handed to the writer. *)
Definition durable (w : RawLogWriter) : list string := concat (closed_segments w) ++ synced w.
Definition captured (w : RawLogWriter) : list string := durable w ++ pending w.

(** A line with the clock readings around its write. *)
Record stamped := mkStamped { line : string; at_ : float; reopened_at : float }.
Definition write_all (w : RawLogWriter) (l : list stamped) : RawLogWriter * res () :=
  fold_left (fun st s => match st with (w, Ok _) => write_line w (line s) (at_ s) (reopened_at s) Fine | (w, Raise e) => (w, Raise e) end) l (w, Ok tt).

(** The clock does not run backwards. *)
Definition at_or_after (t u : float) : Prop := fleb t u = true.
Fixpoint ticking (now : float) (l : list stamped) : Prop :=
  match l with
  | [] => True
  | s :: l => at_or_after now (at_ s) /\ at_or_after (at_ s) (reopened_at s) /\ ticking (reopened_at s) l
  end.

(** The text a power cut leaves: all that is durable, and some beginning of the
    rest. *)
Definition survives (w : RawLogWriter) (text : string) : Prop :=
  exists kept lost, str_concat (pending w) = kept +:+ lost /\ text = str_concat (durable w) +:+ kept.

(** The state of a writer after [l]: everything is captured, and what is pending
    are its last lines, written from [since] on and before [since] plus the
    fsync interval. *)
Record writer_ok (w : RawLogWriter) (R F now : float) (l : list stamped) : Prop := WriterOk {
  wo_open : _segment_open w = true /\ _closed w = false;
  wo_rotate : _rotate_interval_s w = R;
  wo_fsync : _fsync_interval_s w = F;
  wo_captured : captured w = map line l;
  wo_window : exists since k, is_nan since = false /\ fleb since now = true /\ _fsync_due w = fadd since F /\ pending w = map line (drop k l) /\
    (k <= length l)%nat /\ forall s, s ∈ drop k l -> fleb since (at_ s) = true /\ fltb (at_ s) (fadd since F) = true
}.

Lemma captured_add w x : captured (set_lines w (synced w) (pending w ++ [x])) = captured w ++ [x].
Proof. unfold captured, durable. cbn. by rewrite !app_assoc. Qed.

Lemma captured_sync w due : captured (set_fsync_due (set_lines w (synced w ++ pending w) []) due) = captured w.
Proof. unfold captured, durable. cbn. by rewrite app_nil_r, app_assoc. Qed.

Lemma captured_rotate w c now : captured (_open_segment (retire w c) now) = captured w.
Proof. unfold captured, durable. cbn. rewrite concat_app. cbn. by rewrite !app_nil_r, !app_assoc. Qed.

Lemma fresh_window w (F now : float) k (l : list stamped) :
  is_nan now = false -> finite F -> _fsync_due w = fadd now F -> pending w = [] -> k = length l ->
  exists since k, is_nan since = false /\ fleb since now = true /\ _fsync_due w = fadd since F /\ pending w = map line (drop k l) /\
    (k <= length l)%nat /\ forall s, s ∈ drop k l -> fleb since (at_ s) = true /\ fltb (at_ s) (fadd since F) = true.
Proof.
  intros Hn HF Hdue Hp ->. exists now, (length l). rewrite drop_all. split; [done|]. split; [by apply fleb_refl|].
  split; [done|]. split; [done|]. split; [done|]. by intros s ?%elem_of_nil.
Qed.

Lemma write_line_ok w R F now l s :
  finite F -> writer_ok w R F now l -> at_or_after now (at_ s) -> at_or_after (at_ s) (reopened_at s) ->
  exists w', write_line w (line s) (at_ s) (reopened_at s) Fine = (w', Ok tt) /\ writer_ok w' R F (reopened_at s) (l ++ [s]).
Proof.
  unfold at_or_after. intros HF [[Ho Hc] HR HFs Hcap (since & k & Hn & Hnow & Hdue & Hp & Hk & Hwin)] H1 H2. unfold write_line. rewrite Ho, Hc. cbn [orb negb].
  set (w1 := set_lines w (synced w) (pending w ++ [line s])).
  assert (Hc1 : captured w1 = map line (l ++ [s])) by (unfold w1; by rewrite captured_add, Hcap, map_app).
  destruct (fleb_nan_l _ _ H2) as [Na Nr]. destruct (fleb (_rotate_due w1) (at_ s)) eqn:Er.
  - eexists. split; [reflexivity|]. split; [done| | | |]; try (cbn; assumption).
    + by rewrite captured_rotate.
    + apply (fresh_window _ F (reopened_at s) (length (l ++ [s]))); try done. cbn. by rewrite HFs.
  - change (_fsync_due w1) with (_fsync_due w). rewrite Hdue. destruct (fleb (fadd since F) (at_ s)) eqn:Ef.
    + eexists. split; [reflexivity|]. split; [done| | | |]; try (cbn; assumption).
      * by rewrite captured_sync.
      * cbn [_fsync_due set_fsync_due pending set_lines]. change (_fsync_interval_s w1) with (_fsync_interval_s w). rewrite HFs.
        exists (at_ s), (length (l ++ [s])). rewrite drop_all. split_and!; try done. by intros x ?%elem_of_nil.
    + eexists. split; [reflexivity|]. split; [done| | | |]; try assumption. exists since, k.
      split; [done|]. split; [eapply fleb_trans; [exact Hnow|]; by eapply fleb_trans|]. split; [done|]. split.
      { unfold w1; cbn [pending set_lines]. by rewrite Hp, drop_app_le, map_app by done. }
      split; [rewrite length_app; lia|]. intros x. rewrite drop_app_le by done. intros [Hx|Hx]%elem_of_app; [by apply Hwin|].
      apply list_elem_of_singleton in Hx as ->. split; [by eapply fleb_trans|].
      pose proof (fadd_numeric since F Hn HF). forder.
Qed.

Fixpoint last_clock (now : float) (l : list stamped) : float :=
  match l with [] => now | s :: l => last_clock (reopened_at s) l end.

Lemma ticking_app now l k : ticking now (l ++ k) <-> ticking now l /\ ticking (last_clock now l) k.
Proof. revert now; induction l as [|s l IH]; intros now; cbn [app ticking last_clock]; [naive_solver|]. rewrite IH. naive_solver. Qed.

Lemma write_line_dir w x t u o : run_dir (write_line w x t u o).1 = run_dir w.
Proof. unfold write_line, _rotate. by repeat (case_match; try done). Qed.

Lemma write_all_ok w R F now l0 l :
  finite F -> writer_ok w R F now l0 -> ticking now l ->
  exists w', write_all w l = (w', Ok tt) /\ writer_ok w' R F (last_clock now l) (l0 ++ l) /\ run_dir w' = run_dir w.
Proof.
  intros HF. revert w now l0; induction l as [|s l IH]; intros w now l0 Hw; [intros _; exists w; by rewrite app_nil_r|].
  intros (H1 & H2 & Ht). destruct (write_line_ok w R F now l0 s HF Hw H1 H2) as (w1 & Hw1 & Hok).
  destruct (IH w1 _ _ Hok Ht) as (w2 & Hw2 & Hok2 & Hd). exists w2. rewrite <- app_assoc in Hok2. split; [|split; [done|]].
  - unfold write_all in *. cbn [fold_left]. by rewrite Hw1.
  - rewrite Hd. pose proof (write_line_dir w (line s) (at_ s) (reopened_at s) Fine) as H. by rewrite Hw1 in H.
Qed.

Lemma init_ok stamp taken R F now w : writer_init stamp taken R F now = Ok w -> is_nan now = false -> writer_ok w R F now [].
Proof.
  unfold writer_init. intros (dir & _ & [= <-])%res_bind_Ok Hn. split; try done. exists now, 0%nat. split_and!; try done; [by apply fleb_refl|].
  by intros s ?%elem_of_nil.
Qed.


(** A closed run keeps everything, and takes nothing more. *)
Theorem closed_run_is_durable (stamp : string) (taken : list string) (R F now : float) (w0 : RawLogWriter) (l : list stamped) :
  writer_init stamp taken R F now = Ok w0 -> finite F -> is_nan now = false -> ticking now l ->
  exists w, write_all w0 l = (w, Ok tt) /\
    (forall text, survives (close w Fine) text -> text = str_concat (map line l)) /\
    (forall o, close (close w Fine) o = close w Fine) /\
    (forall x t u o, write_line (close w Fine) x t u o = (close w Fine, raise OSError "raw log writer is closed")).
Proof.
  intros Hinit HF Hn Ht. pose proof (init_ok _ _ _ _ _ _ Hinit Hn) as Hok.
  destruct (write_all_ok w0 R F now [] l HF Hok Ht) as (w & Hw & [[Ho Hc] _ _ Hcap _] & _). cbn [app] in *.
  exists w. split; [done|]. unfold close. rewrite Hc, Ho. cbn [negb]. split; [|done].
  intros text (kept & lost & Hkept & ->). unfold durable, captured, durable in *. cbn [pending retire closed_segments synced str_concat] in *.
  destruct kept; [|discriminate]. rewrite str_app_nil, concat_app. cbn [concat]. by rewrite !app_nil_r, app_assoc, Hcap.
Qed.

Lemma try_dirs_fresh attempts attempt stamp taken dir : try_dirs attempts attempt stamp taken = Ok dir -> dir ∉ taken.
Proof.
  revert attempt; induction attempts as [|n IH]; intros attempt; cbn [try_dirs]; [discriminate|].
  destruct (bool_decide _) eqn:E; [apply IH|]. intros [= <-]. by apply bool_decide_eq_false in E.
Qed.

(** * The relay of candump *)

Definition _BACKOFF_START_S : float := lit 5 10.
Definition _BACKOFF_MAX_S : float := f_of_Z 30.

(** A candump that could not be spawned, or one whose lines came and which then
    exited; each line with the outcome of its write. [stops] is whether the
    service was told to stop by the end of it. *)
Record child := mkChild { spawned : bool; lines : list (stamped * io); stops : bool }.

Fixpoint relay_lines (w : RawLogWriter) (l : list (stamped * io)) (relayed : bool) : RawLogWriter * res bool :=
  match l with
  | [] => (w, Ok relayed)
  | (s, o) :: l =>
      match write_line w (line s) (at_ s) (reopened_at s) o with
      | (w, Ok _) => relay_lines w l true
      | (w, Raise e) => (w, Raise e)
      end
  end.
Definition _relay_one_child (w : RawLogWriter) (c : child) : RawLogWriter * res bool :=
  if spawned c then relay_lines w (lines c) false else (w, Ok false).

(** [run] on the children so far: the writer, the delay to come, the delays
    waited, and the exit status once it has returned. *)
Record CanLogService := mkCanLog { log : RawLogWriter; delay : float; waits : list float; exited : option Z }.

Definition canlog_turn (start most : float) (v : CanLogService) (c : child) : CanLogService :=
  match exited v with
  | Some _ => v
  | None =>
      match _relay_one_child (log v) c with
      | (w, Raise _) => mkCanLog (close w SyncFailed) (delay v) (waits v) (Some 1)
      | (w, Ok relayed) =>
          if stops c then mkCanLog (close w Fine) (delay v) (waits v) (Some 0)
          else
            let b := if relayed then start else delay v in
            mkCanLog w (doubled b most) (waits v ++ [b]) None
      end
  end.
Definition canlog_run (start most : float) (w : RawLogWriter) (l : list child) : CanLogService :=
  fold_left (canlog_turn start most) l (mkCanLog w start [] None).

Definition relayed_lines (l : list child) : list stamped := concat (map (fun c => if spawned c then (lines c).*1 else []) l).
Definition all_fine (c : child) : Prop := Forall (fun so => so.2 = Fine) (lines c) /\ stops c = false.

Lemma relay_lines_write w l b w' r : 
  Forall (fun so => so.2 = Fine) l -> write_all w l.*1 = (w', Ok r) -> exists b', relay_lines w l b = (w', Ok b').
Proof.
  revert w b; induction l as [|[s o] l IH]; intros w b Hf; [cbn; intros [= <- _]; by exists b|].
  apply Forall_cons in Hf as [Ho Hf]. cbn in Ho. subst o. unfold write_all. cbn [fmap list_fmap fst fold_left relay_lines].
  destruct (write_line w _ _ _ Fine) as [w1 [[]|e]]; [by apply IH|].
  intros H. exfalso. clear -H. induction l as [|[s' o'] l IH]; cbn in H; [discriminate|auto].
Qed.

Lemma relay_one_writes w c w' : all_fine c -> write_all w (if spawned c then (lines c).*1 else []) = (w', Ok tt) ->
  exists b, _relay_one_child w c = (w', Ok b).
Proof.
  intros [Hf _]. unfold _relay_one_child. destruct (spawned c); [by apply relay_lines_write|]. cbn. intros [= <-]. by exists false.
Qed.

Lemma canlog_run_ok R F start most l : forall w now l0 b ws,
  finite F -> writer_ok w R F now l0 -> ticking now (relayed_lines l) -> Forall all_fine l ->
  fleb start most = true -> fleb b most = true -> Forall (fun x => fleb x most = true) ws ->
  let v := fold_left (canlog_turn start most) l (mkCanLog w b ws None) in
  exited v = None /\ run_dir (log v) = run_dir w /\ captured (log v) = map line (l0 ++ relayed_lines l) /\
  length (waits v) = (length ws + length l)%nat /\ Forall (fun x => fleb x most = true) (waits v).
Proof.
  induction l as [|c l IH]; intros w now l0 b ws HF Hw Ht Hf Hs Hb Hws.
  - cbn. rewrite app_nil_r, Nat.add_0_r. split_and!; try done. by apply wo_captured in Hw.
  - apply Forall_cons in Hf as [Hc Hf]. unfold relayed_lines in *. cbn [map concat] in *. apply ticking_app in Ht as [Htc Ht].
    destruct (write_all_ok w R F now l0 _ HF Hw Htc) as (w1 & Hw1 & Hok & Hd). destruct (relay_one_writes w c w1 Hc Hw1) as (rl & Hr).
    cbn [fold_left canlog_turn exited log]. rewrite Hr, (proj2 Hc). cbn [waits delay].
    set (x := if rl then start else b). assert (Hx : fleb x most = true) by (by destruct rl).
    destruct (IH w1 _ _ (doubled x most) (ws ++ [x]) HF Hok Ht Hf Hs) as (H1 & H2 & H3 & H4 & H5);
      [by apply doubled_bounded|apply Forall_app; split; [done|by apply Forall_singleton]|].
    split_and!; [done|by rewrite H2|by rewrite H3, app_assoc| |done]. rewrite H4, length_app. cbn. lia.
Qed.

(** However often candump exits and comes back, its lines go on in the one run,
    all of them and in order, and no wait for it is longer than the maximum. *)
Theorem relay_survives_candump (stamp : string) (taken : list string) (R F now : float) (w0 : RawLogWriter) (l : list child) (start most : float) :
  writer_init stamp taken R F now = Ok w0 -> finite F -> is_nan now = false -> ticking now (relayed_lines l) ->
  Forall all_fine l -> fleb start most = true ->
  let v := canlog_run start most w0 l in
  exited v = None /\ run_dir (log v) = run_dir w0 /\ captured (log v) = map line (relayed_lines l) /\
  length (waits v) = length l /\ Forall (fun b => fleb b most = true) (waits v).
Proof.
  intros Hinit HF Hn Ht Hf Hs. pose proof (init_ok _ _ _ _ _ _ Hinit Hn) as Hok.
  exact (canlog_run_ok R F start most l w0 now [] start [] HF Hok Ht Hf Hs Hs (Forall_nil_2 _)).
Qed.

(** * On a bus *)

Module Capture.
Definition at_s (x : string) (tenths : Z) : stamped := mkStamped x (lit tenths 10) (lit tenths 10).
Definition frames : list stamped := [at_s "a" 2; at_s "b" 7; at_s "c" 12; at_s "d" 15; at_s "e" 19].
Definition init : res RawLogWriter := writer_init "20260912T083000Z" ["20260912T083000Z"] DEFAULT_ROTATE_INTERVAL_S DEFAULT_FSYNC_INTERVAL_S f0.
Definition writer : RawLogWriter := match init with Ok w => w | Raise _ => mkWriter "" f0 f0 [] [] [] false 0 true f0 f0 end.
Definition run (l : list stamped) : RawLogWriter := (write_all writer l).1.
End Capture.


Lemma closed_run_is_durable_witness :
  exists w, write_all Capture.writer Capture.frames = (w, Ok tt) /\ durable (close w Fine) = ["a"; "b"; "c"; "d"; "e"] /\
    (forall text, survives (close w Fine) text -> text = "abcde").
Proof.
  destruct (closed_run_is_durable "20260912T083000Z" ["20260912T083000Z"] DEFAULT_ROTATE_INTERVAL_S DEFAULT_FSYNC_INTERVAL_S f0
    Capture.writer Capture.frames) as (w & Hw & Hs & _); [vm_compute; reflexivity|reflexivity|reflexivity|vm_compute; tauto|].
  exists w. split; [exact Hw|]. split; [|exact Hs]. vm_compute in Hw. injection Hw as <-. vm_compute. reflexivity.
Defined.

(** candump exits, cannot be spawned, and comes back. *)
Definition children : list child :=
  let ok := map (fun s => (s, Fine)) in
  [mkChild true (ok [Capture.at_s "a" 2; Capture.at_s "b" 7]) false; mkChild false [] false; mkChild true [] false;
   mkChild true (ok [Capture.at_s "c" 90]) false].

Lemma relay_survives_candump_witness :
  let v := canlog_run _BACKOFF_START_S _BACKOFF_MAX_S Capture.writer children in
  captured (log v) = ["a"; "b"; "c"] /\ waits v = [lit 5 10; f_of_Z 1; f_of_Z 2; lit 5 10] /\
  Forall (fun b => fleb b _BACKOFF_MAX_S = true) (waits v).
Proof.
  cbv zeta. split; [vm_compute; reflexivity|]. split; [vm_compute; reflexivity|].
  destruct (relay_survives_candump "20260912T083000Z" ["20260912T083000Z"] DEFAULT_ROTATE_INTERVAL_S DEFAULT_FSYNC_INTERVAL_S f0
    Capture.writer children _BACKOFF_START_S _BACKOFF_MAX_S) as (_ & _ & _ & _ & H); [vm_compute; reflexivity|reflexivity|reflexivity| | | |exact H].
  - vm_compute; tauto.
  - repeat (apply Forall_cons; split; [split; [repeat (apply Forall_cons; split; [reflexivity|]); apply Forall_nil_2|reflexivity]|]). apply Forall_nil_2.
  - reflexivity.
Defined.

(** A flush happens only while lines arrive: when the input goes quiet its last
    lines wait in the buffer, however long ago they were written. *)
Example quiet_tail_is_not_synced :
  let w := Capture.run (Capture.frames ++ [Capture.at_s "last" 20]) in
  pending w = ["d"; "e"; "last"] /\ fleb (_fsync_due w) (f_of_Z 3600) = true /\
  survives w "abc".
Proof.
  split; [vm_compute; reflexivity|]. split; [vm_compute; reflexivity|]. exists "", "delast". split; vm_compute; reflexivity.
Qed.
