(* ===== verification/SerialCollector.v ===== *)
(** The transport of a serial source ([src/collectors/serial/transport.py]):
    reconnects with backoff, line stamping, corrections, and the raw capture
    that runs beside the decoder.

    The collector's thread and the callers of [write_rtcm] meet only in the
    active driver, so an execution is a list of steps: what the port did next,
    a correction that arrives, or the request to stop. A step the collector is
    not waiting for (a line without a connection) changes nothing. *)

From S2P Require Import Prelude PyFloat Stats PyText Config Wire Nmea Um980 RawLog.

Local Open Scope Z_scope.

Definition DEFAULT_BACKOFF_START_S : float := lit 5 10.
Definition DEFAULT_BACKOFF_MAX_S : float := f_of_Z 30.
Definition MAX_SENTENCE_BYTES : nat := 1024.
Definition RAW_LOG_RETRY_S : float := f_of_Z 60.

(** * State *)

Record SerialTransportStats := mkTransport {
  open_failures : Z;
  configuration_failures : Z;
  read_errors : Z;
  reconnects : Z;
  lines : Z;
  samples : Z;
  oversized_lines : Z;
  rtcm_write_failures : Z;
  raw_log_failures : Z
}.
Definition no_transport : SerialTransportStats := mkTransport 0 0 0 0 0 0 0 0 0.

(** The system calls of one raw capture: the clock when it is tried, what
    creating a run answers, the write, and the clock after a failure. *)
Record raw_env := mkRaw {
  tried : float;
  created : option (string * list string * float);  (* stamp, runs there are, clock; [None] when it raises *)
  written_at : float;
  reopened : float;
  write_ends : io;
  failed_at : float
}.

(** The capture beside the decoder: whether there is a directory for it, the
    run being written, the runs before it, and when a failed one is retried. *)
Record raw_tee := mkTee { _raw_log_dir : bool; _raw_writer : option RawLogWriter; runs : list RawLogWriter; _raw_retry_mono : float }.

Inductive phase :=
  | Waiting
  | Connected (received : bool)
  | Returned
  | Crashed (e : exn).

Record SerialCollector := mkCollector {
  config : SerialConfig;
  decoder : NmeaDecoder;
  stats : SerialTransportStats;
  raw : raw_tee;
  _active_driver : option (SerialPort * (nat -> write_answer));
  at_phase : phase;
  backoff : float;
  waited : list float;
  emitted : list Sample
}.

(** The constructor. *)
Definition collector_init (cfg : SerialConfig) (raw_log_dir : bool) : res SerialCollector :=
  let device := match ser_driver cfg with Some d => driver_name d | None => ser_decoder cfg end in
  if negb (String.eqb (ser_decoder cfg) "nmea") then raise ValueError ("unsupported serial decoder " +:+ repr_str (ser_decoder cfg))
  else if match ser_driver cfg with Some d => negb (String.eqb (driver_name d) "um980") | None => false end then
    raise ValueError ("unsupported serial driver " +:+ repr_str device)
  else Ok (mkCollector cfg (decoder_init (ser_name cfg) device) no_transport (mkTee raw_log_dir None [] f0) None Waiting DEFAULT_BACKOFF_START_S [] []).

Definition with_stats (c : SerialCollector) (s : SerialTransportStats) : SerialCollector :=
  mkCollector (config c) (decoder c) s (raw c) (_active_driver c) (at_phase c) (backoff c) (waited c) (emitted c).
Definition with_driver (c : SerialCollector) (d : option (SerialPort * (nat -> write_answer))) (p : phase) : SerialCollector :=
  mkCollector (config c) (decoder c) (stats c) (raw c) d p (backoff c) (waited c) (emitted c).
Definition with_raw (c : SerialCollector) (t : raw_tee) (failures : Z) : SerialCollector :=
  let s := stats c in
  mkCollector (config c) (decoder c)
    (mkTransport (open_failures s) (configuration_failures s) (read_errors s) (reconnects s) (lines s) (samples s) (oversized_lines s)
       (rtcm_write_failures s) (raw_log_failures s + failures))
    t (_active_driver c) (at_phase c) (backoff c) (waited c) (emitted c).
(** [stop.wait(delay)] and the next, doubled delay. *)
Definition wait (c : SerialCollector) (delay : float) : SerialCollector :=
  mkCollector (config c) (decoder c) (stats c) (raw c) None Waiting (doubled delay DEFAULT_BACKOFF_MAX_S) (waited c ++ [delay]) (emitted c).

Inductive counter := OpenFailures | ConfigurationFailures | ReadErrors | Reconnects | Oversized | RtcmFailures.
Definition bump (s : SerialTransportStats) (which : counter) : SerialTransportStats :=
  let one w := match which, w with
    | OpenFailures, OpenFailures | ConfigurationFailures, ConfigurationFailures | ReadErrors, ReadErrors
    | Reconnects, Reconnects | Oversized, Oversized | RtcmFailures, RtcmFailures => 1
    | _, _ => 0 end in
  mkTransport (open_failures s + one OpenFailures) (configuration_failures s + one ConfigurationFailures) (read_errors s + one ReadErrors)
    (reconnects s + one Reconnects) (lines s) (samples s) (oversized_lines s + one Oversized) (rtcm_write_failures s + one RtcmFailures)
    (raw_log_failures s).
Definition count (c : SerialCollector) (which : counter) : SerialCollector := with_stats c (bump (stats c) which).

Section Collector.
Variable wall_clock : Z -> float.

(** [run]'s [finally], when the loop ends or raises. *)
Definition finish (c : SerialCollector) (p : phase) : SerialCollector :=
  let t := raw c in
  with_raw (with_driver c None p)
    (mkTee (_raw_log_dir t) None (runs t ++ opt_list ((fun w => close w Fine) <$> _raw_writer t)) (_raw_retry_mono t)) 0.

(** * Lines *)

Definition handle_line (c : SerialCollector) (bytes : string) (t_mono_ns : Z) : SerialCollector :=
  let '(d, values) := decode (decoder c) (SBytes bytes) in
  let t_wall_ms := wall_clock t_mono_ns in
  let out := map (fun rv => mkSample rv.1 t_mono_ns t_wall_ms rv.2) values in
  let s := stats c in
  mkCollector (config c) d
    (mkTransport (open_failures s) (configuration_failures s) (read_errors s) (reconnects s) (lines s + 1) (samples s + Z.of_nat (length values))
       (oversized_lines s) (rtcm_write_failures s) (raw_log_failures s))
    (raw c) (_active_driver c) (at_phase c) (backoff c) (waited c) (emitted c ++ out).

Definition newline_end (s : string) : bool := ends_with (ascii_of_nat 10) s || ends_with (ascii_of_nat 13) s.
Definition too_long (bytes : string) : bool := (MAX_SENTENCE_BYTES <? String.length bytes)%nat && negb (newline_end bytes).

(** [f"({wall / 1000:.6f}) "] before the line. *)
Definition raw_line (bytes : string) (t_mono_ns : Z) : string :=
  "(" +:+ fmt_fixed (fdiv_ieee (wall_clock t_mono_ns) (f_of_Z 1000)) 6 +:+ ") " +:+ bytes.

(** [_raw_capture]: the tee, and whether it failed. *)
Definition _raw_capture (t : raw_tee) (bytes : string) (t_mono_ns : Z) (env : raw_env) : raw_tee * Z :=
  let failed w := (mkTee (_raw_log_dir t) None (runs t ++ opt_list w) (fadd (failed_at env) RAW_LOG_RETRY_S), 1) in
  if fltb (tried env) (_raw_retry_mono t) then (t, 0)
  else
    match (match _raw_writer t with
           | Some w => Ok w
           | None => match created env with
                     | Some (stamp, taken, now) => writer_init stamp taken DEFAULT_ROTATE_INTERVAL_S DEFAULT_FSYNC_INTERVAL_S now
                     | None => raise OSError "cannot create a run"
                     end
           end) with
    | Raise _ => failed None
    | Ok w =>
        match write_line w (raw_line bytes t_mono_ns) (written_at env) (reopened env) (write_ends env) with
        | (w, Ok _) => (mkTee (_raw_log_dir t) (Some w) (runs t) (_raw_retry_mono t), 0)
        | (w, Raise _) => failed (Some (close w SyncFailed))
        end
    end.

(** A line that [_read_until_error] read: capture, then the length check, then
    the decoder. *)
Definition read_line (c : SerialCollector) (bytes : string) (t_mono_ns : Z) (env : raw_env) : SerialCollector :=
  let c := with_driver c (_active_driver c) (Connected true) in
  let c := if _raw_log_dir (raw c) then let '(t, failures) := _raw_capture (raw c) bytes t_mono_ns env in with_raw c t failures else c in
  if too_long bytes then count c Oversized else handle_line c bytes t_mono_ns.

(** * Connections *)

(** The port opened: its writes and, per command, its lines. *)
Record port_env := mkPortEnv { pe_accepts : nat -> write_answer; pe_replies : nat -> list read_answer }.

Definition connect (c : SerialCollector) (p : port_env) : SerialCollector :=
  match ser_driver (config c) with
  | None => with_driver c None (Connected false)
  | Some d =>
      match build_driver d with
      | Raise e => finish c (Crashed e)
      | Ok (settings, commands) =>
          match configure (pe_accepts p) settings commands (mkPort "" 0) (pe_replies p) with
          | (port, Ok _) => with_driver c (Some (port, pe_accepts p)) (Connected false)
          | (_, Raise e) =>
              if decide (exn_kind e = ConfigurationError) then
                let c := count (count c ConfigurationFailures) Reconnects in wait c (backoff c)
              else finish c (Crashed e)
          end
      end
  end.

(** [write_rtcm]: whether the whole correction was written. *)
Definition write_rtcm (c : SerialCollector) (payload : string) : SerialCollector * bool :=
  match _active_driver c with
  | None => (count c RtcmFailures, false)
  | Some (port, accepts) =>
      match Um980.write_rtcm accepts port payload with
      | (port, Ok written) =>
          let c := with_driver c (Some (port, accepts)) (at_phase c) in
          if written =? Z.of_nat (String.length payload) then (c, true) else (count c RtcmFailures, false)
      | (port, Raise _) => (count (with_driver c (Some (port, accepts)) (at_phase c)) RtcmFailures, false)
      end
  end.

(** * Steps *)

Inductive serial_step :=
  | SOpenFails
  | SOpens (p : port_env)
  | SLine (bytes : string) (t_mono_ns : Z) (env : raw_env)
  | SReadError
  | SRtcm (payload : string)
  | SStop
  | SStart.

Definition serial_turn (c : SerialCollector) (st : serial_step) : SerialCollector :=
  match st, at_phase c with
  | SOpenFails, Waiting => let c := count c OpenFailures in wait c (backoff c)
  | SOpens p, Waiting => connect c p
  | SLine bytes t env, Connected _ => match bytes with EmptyString => c | _ => read_line c bytes t env end
  | SReadError, Connected received =>
      let c := count (count c ReadErrors) Reconnects in
      wait c (if received then DEFAULT_BACKOFF_START_S else backoff c)
  | SRtcm payload, _ => (write_rtcm c payload).1
  | SStop, (Waiting | Connected _) => finish c Returned
  | SStart, (Returned | Crashed _) =>
      mkCollector (config c) (decoder c) (stats c) (raw c) (_active_driver c) Waiting DEFAULT_BACKOFF_START_S (waited c) (emitted c)
  | _, _ => c
  end.

Definition serial_run (c : SerialCollector) (sts : list serial_step) : SerialCollector := fold_left serial_turn sts c.
End Collector.

(** * Accounting *)

Section Accounts.
Variable wall_clock : Z -> float.

(** The lines that reached the collector: those that came over a connection. *)
Definition heard_in (c : SerialCollector) (st : serial_step) : list (string * Z) :=
  match st, at_phase c with
  | SLine EmptyString _ _, _ => []
  | SLine bytes t _, Connected _ => [(bytes, t)]
  | _, _ => []
  end.
Fixpoint heard (c : SerialCollector) (sts : list serial_step) : list (string * Z) :=
  match sts with
  | [] => []
  | st :: sts => heard_in c st ++ heard (serial_turn wall_clock c st) sts
  end.

Definition decodable (l : string * Z) : bool := negb (too_long l.1).
(** What a line becomes: its readings, stamped with its arrival. *)
Definition line_samples (d : NmeaDecoder) (l : string * Z) : list Sample :=
  map (fun rv => mkSample rv.1 l.2 (wall_clock l.2) rv.2) (decode d (SBytes l.1)).2.

Definition same_names (d d' : NmeaDecoder) : Prop := _prefix d' = _prefix d /\ _gga_prefix d' = _gga_prefix d /\ _gst_prefix d' = _gst_prefix d.

Lemma decode_names d s : same_names d (decode d s).1.
Proof. unfold decode. destruct (text ← _; _) as [b|e]; [|done]. by destruct (read_sentence d _ _). Qed.

Lemma decode_same_names d d' s : same_names d d' -> (decode d' s).2 = (decode d s).2.
Proof.
  intros (H1 & H2 & H3). unfold decode. destruct (text ← _; _) as [b|e]; [|done].
  assert (Hr : read_sentence d' (kind_of (str_split "," b)) (str_split "," b) = read_sentence d (kind_of (str_split "," b)) (str_split "," b))
    by (destruct (kind_of _); cbn [read_sentence]; by rewrite ?H1, ?H2, ?H3).
  rewrite Hr. by destruct (read_sentence d _ _).
Qed.

Record serial_inv (d0 : NmeaDecoder) (all : list (string * Z)) (c : SerialCollector) : Prop := SerialInv {
  si_names : same_names d0 (decoder c);
  si_emitted : emitted c = concat (map (line_samples d0) (List.filter decodable all));
  si_samples : samples (stats c) = Z.of_nat (length (emitted c));
  si_lines : lines (stats c) = Z.of_nat (length (List.filter decodable all));
  si_oversized : oversized_lines (stats c) = Z.of_nat (length (List.filter (fun l => too_long l.1) all));
  si_waits : Z.of_nat (length (waited c)) = open_failures (stats c) + reconnects (stats c);
  si_reconnects : reconnects (stats c) = read_errors (stats c) + configuration_failures (stats c);
  si_backoff : Forall (fun d => fleb d DEFAULT_BACKOFF_MAX_S = true) (backoff c :: waited c)
}.

(** Steps that leave the telemetry alone. *)
Lemma serial_inv_same d0 all c c' :
  serial_inv d0 all c -> decoder c' = decoder c -> emitted c' = emitted c -> samples (stats c') = samples (stats c) ->
  lines (stats c') = lines (stats c) -> oversized_lines (stats c') = oversized_lines (stats c) ->
  open_failures (stats c') = open_failures (stats c) -> reconnects (stats c') = reconnects (stats c) ->
  read_errors (stats c') = read_errors (stats c) -> configuration_failures (stats c') = configuration_failures (stats c) ->
  waited c' = waited c -> fleb (backoff c') DEFAULT_BACKOFF_MAX_S = true -> serial_inv d0 all c'.
Proof.
  intros [H1 H2 H3 H4 H5 H6 H7 H8] E1 E2 E3 E4 E5 E6 E7 E8 E9 E10 Hb. apply Forall_cons in H8 as [_ H8].
  split; rewrite ?E1, ?E2, ?E3, ?E4, ?E5, ?E6, ?E7, ?E8, ?E9, ?E10; try done. apply Forall_cons; by split.
Qed.

Lemma wait_inv d0 all c delay :
  same_names d0 (decoder c) -> emitted c = concat (map (line_samples d0) (List.filter decodable all)) ->
  samples (stats c) = Z.of_nat (length (emitted c)) -> lines (stats c) = Z.of_nat (length (List.filter decodable all)) ->
  oversized_lines (stats c) = Z.of_nat (length (List.filter (fun l => too_long l.1) all)) ->
  Z.of_nat (length (waited c)) + 1 = open_failures (stats c) + reconnects (stats c) ->
  reconnects (stats c) = read_errors (stats c) + configuration_failures (stats c) ->
  Forall (fun d => fleb d DEFAULT_BACKOFF_MAX_S = true) (waited c) -> fleb delay DEFAULT_BACKOFF_MAX_S = true ->
  serial_inv d0 all (wait c delay).
Proof.
  intros H1 H2 H3 H4 H5 H6 H7 H8 Hd. split; cbn [wait decoder emitted stats waited backoff]; try done.
  - rewrite length_app. cbn. lia.
  - apply Forall_cons. split; [by apply doubled_bounded|]. apply Forall_app. split; [done|]. by apply Forall_singleton.
Qed.

Lemma start_bounded : fleb DEFAULT_BACKOFF_START_S DEFAULT_BACKOFF_MAX_S = true.
Proof. reflexivity. Qed.

Lemma backoff_bounded d0 all c : serial_inv d0 all c -> fleb (backoff c) DEFAULT_BACKOFF_MAX_S = true.
Proof. intros H. by apply si_backoff, Forall_cons in H as [H _]. Qed.

Lemma finish_inv d0 all c p : serial_inv d0 all c -> serial_inv d0 all (finish c p).
Proof. intros H. pose proof (backoff_bounded _ _ _ H). eapply serial_inv_same; [exact H|done..]. Qed.

Ltac waits_inv H := destruct H as [? ? ? ? ? ? ? H]; apply Forall_cons in H as [? ?]; apply wait_inv; cbn; try done; try lia.

Lemma connect_inv d0 all c p : serial_inv d0 all c -> serial_inv d0 all (connect c p).
Proof.
  intros H. pose proof (backoff_bounded _ _ _ H) as Hb. unfold connect.
  destruct (ser_driver (config c)) as [d|]; [|eapply serial_inv_same; [exact H|done..]].
  destruct (build_driver d) as [[settings commands]|e]; [|by apply finish_inv].
  destruct (configure _ _ _ _ _) as [port [[]|e]]; [eapply serial_inv_same; [exact H|done..]|].
  destruct (decide _); [waits_inv H|by apply finish_inv].
Qed.

Lemma rtcm_inv d0 all c payload : serial_inv d0 all c -> serial_inv d0 all (write_rtcm c payload).1.
Proof.
  intros H. pose proof (backoff_bounded _ _ _ H) as Hb. unfold write_rtcm.
  destruct (_active_driver c) as [[port accepts]|].
  - destruct (Um980.write_rtcm _ _ _) as [port' [w|e]]; [destruct (w =? _)|]; cbn [fst]; (eapply serial_inv_same; [exact H|cbn; rewrite ?Z.add_0_r; done..]).
  - eapply serial_inv_same; [exact H|cbn; rewrite ?Z.add_0_r; done..].
Qed.

Lemma read_line_inv d0 all c bytes t env :
  serial_inv d0 all c -> serial_inv d0 (all ++ [(bytes, t)]) (read_line wall_clock c bytes t env).
Proof.
  intros H. unfold read_line. set (c1 := if _raw_log_dir _ then _ else _).
  assert (H1 : serial_inv d0 all c1).
  { pose proof (backoff_bounded _ _ _ H) as Hb. unfold c1. cbn [with_driver raw]. destruct (_raw_log_dir (raw c)); [destruct (_raw_capture _ _ _ _ _)|];
      (eapply serial_inv_same; [exact H|done..]). }
  clearbody c1. clear H. destruct H1 as [H1 H2 H3 H4 H5 H6 H7 H8].
  assert (Hf : forall f : string * Z -> bool, List.filter f (all ++ [(bytes, t)]) = List.filter f all ++ if f (bytes, t) then [(bytes, t)] else []).
  { intros f. by rewrite List.filter_app. }
  assert (Hdec : decodable (bytes, t) = negb (too_long bytes)) by done.
  destruct (too_long bytes) eqn:El; cbn [negb] in Hdec.
  - split; cbn [count with_stats bump decoder emitted stats waited backoff samples lines oversized_lines open_failures reconnects read_errors configuration_failures];
      rewrite ?Hf, ?Hdec; cbn [fst]; rewrite ?El; rewrite ?app_nil_r, ?Z.add_0_r; try done.
    rewrite length_app, H5. cbn. lia.
  - unfold handle_line. pose proof (decode_names (decoder c1) (SBytes bytes)) as Hn.
    pose proof (decode_same_names d0 (decoder c1) (SBytes bytes) H1) as Hv. destruct (decode (decoder c1) (SBytes bytes)) as [d values]. cbn [fst snd] in *.
    split; cbn [decoder emitted stats waited backoff samples lines oversized_lines open_failures reconnects read_errors configuration_failures];
      rewrite ?Hf, ?Hdec; cbn [fst]; rewrite ?El; rewrite ?app_nil_r; try done.
    + destruct H1 as (a & b & e), Hn as (a' & b' & e'). repeat split; congruence.
    + rewrite map_app, concat_app, H2. cbn [map concat]. rewrite app_nil_r. f_equal. unfold line_samples. cbn [fst snd]. by rewrite <- Hv.
    + rewrite length_app, length_map, H3. lia.
    + rewrite length_app, H4. cbn. lia.
Qed.

Lemma serial_turn_inv d0 all c st :
  serial_inv d0 all c -> serial_inv d0 (all ++ heard_in c st) (serial_turn wall_clock c st).
Proof.
  intros H. pose proof (backoff_bounded _ _ _ H) as Hb.
  destruct st as [|p|bytes t env| |payload| |]; cbn [serial_turn heard_in]; destruct (at_phase c) eqn:Ep; rewrite ?app_nil_r; try done;
    try (by apply rtcm_inv); try (by apply finish_inv); try (eapply serial_inv_same; [exact H|done..]).
  - waits_inv H.
  - by apply connect_inv.
  - by destruct bytes; rewrite app_nil_r.
  - destruct bytes; [by rewrite app_nil_r|]. by apply read_line_inv.
  - by destruct bytes; rewrite app_nil_r.
  - by destruct bytes; rewrite app_nil_r.
  - waits_inv H. by destruct received.
Qed.

Lemma serial_run_inv d0 all c sts : serial_inv d0 all c -> serial_inv d0 (all ++ heard c sts) (serial_run wall_clock c sts).
Proof.
  revert all c; induction sts as [|st sts IH]; intros all c H; cbn [heard]; [by rewrite app_nil_r|].
  rewrite app_assoc. unfold serial_run. cbn [fold_left]. apply IH. by apply serial_turn_inv.
Qed.

(** Whatever the port does and whenever corrections and stops arrive: the samples
    emitted are the readings of the lines heard that are not oversized, in
    order and stamped with their arrival; every line is counted as one or the
    other; and the collector waits once for every failed open, failed
    configuration and lost connection, never longer than the maximum. *)
Theorem serial_source_accounts (cfg : SerialConfig) (raw_log_dir : bool) (c0 : SerialCollector) (sts : list serial_step) :
  collector_init cfg raw_log_dir = Ok c0 ->
  let c := serial_run wall_clock c0 sts in
  let all := heard c0 sts in
  emitted c = concat (map (line_samples (decoder c0)) (List.filter decodable all)) /\
  samples (stats c) = Z.of_nat (length (emitted c)) /\
  lines (stats c) + oversized_lines (stats c) = Z.of_nat (length all) /\
  Z.of_nat (length (waited c)) = open_failures (stats c) + read_errors (stats c) + configuration_failures (stats c) /\
  Forall (fun d => fleb d DEFAULT_BACKOFF_MAX_S = true) (waited c).
Proof.
  intros Hinit c all.
  assert (H0 : serial_inv (decoder c0) [] c0).
  { unfold collector_init in Hinit. destruct (negb _); [discriminate|]. destruct (match ser_driver cfg with Some _ => _ | None => _ end); [discriminate|].
    injection Hinit as <-. split; try done. by apply Forall_singleton. }
  destruct (serial_run_inv _ _ _ sts H0) as [H1 H2 H3 H4 H5 H6 H7 H8]. cbn [app] in *. fold c all in H1, H2, H3, H4, H5, H6, H7, H8.
  apply Forall_cons in H8 as [_ H8]. split_and!; try done; [|lia].
  rewrite H4, H5. clear. induction all as [|[b t] l IH]; [done|]. cbn [List.filter]. unfold decodable at 1. cbn [fst].
  destruct (too_long b); cbn [negb length]; lia.
Qed.
End Accounts.

(** * Capture never touches telemetry *)

Section Capture.
Variable wall_clock : Z -> float.

(** A collector without its capture. *)
Definition without_capture (c : SerialCollector) : SerialCollector :=
  let s := stats c in
  mkCollector (config c) (decoder c)
    (mkTransport (open_failures s) (configuration_failures s) (read_errors s) (reconnects s) (lines s) (samples s) (oversized_lines s)
       (rtcm_write_failures s) 0)
    (mkTee false None [] f0) (_active_driver c) (at_phase c) (backoff c) (waited c) (emitted c).

(** The same step of the port, whatever the capture's system calls answer. *)
Inductive same_step : serial_step -> serial_step -> Prop :=
  | same_line bytes t env env' : same_step (SLine bytes t env) (SLine bytes t env')
  | same_other st : same_step st st.

Lemma finish_without c p : without_capture (finish c p) = finish (without_capture c) p.
Proof. done. Qed.

Lemma connect_without c p : without_capture (connect c p) = connect (without_capture c) p.
Proof.
  unfold connect. cbn [without_capture config]. destruct (ser_driver (config c)) as [d|]; [|done].
  destruct (build_driver d) as [[settings commands]|e]; [|done]. destruct (configure _ _ _ _ _) as [port [[]|e]]; [done|].
  by destruct (decide _).
Qed.

Lemma rtcm_without c payload : without_capture (write_rtcm c payload).1 = (write_rtcm (without_capture c) payload).1.
Proof.
  unfold write_rtcm. cbn [without_capture _active_driver]. destruct (_active_driver c) as [[port accepts]|]; [|done].
  destruct (Um980.write_rtcm _ _ _) as [port' [w|e]]; [by destruct (w =? _)|done].
Qed.

Lemma handle_without c bytes t : without_capture (handle_line wall_clock c bytes t) = handle_line wall_clock (without_capture c) bytes t.
Proof. unfold handle_line. cbn [without_capture decoder]. by destruct (decode _ _). Qed.

Lemma read_line_without c bytes t env env' :
  without_capture (read_line wall_clock c bytes t env) = read_line wall_clock (without_capture c) bytes t env'.
Proof.
  unfold read_line. cbn [with_driver raw _raw_log_dir without_capture].
  destruct (_raw_log_dir (raw c)); [destruct (_raw_capture _ _ _ _ _)|]; (destruct (too_long bytes); [done|by rewrite handle_without]).
Qed.

Lemma serial_turn_without c st st' :
  same_step st st' -> without_capture (serial_turn wall_clock c st) = serial_turn wall_clock (without_capture c) st'.
Proof.
  intros [bytes t env env'|[|p|bytes t env| |payload| |]]; cbn [serial_turn without_capture at_phase]; destruct (at_phase c) eqn:Ep; try done;
    try (by rewrite rtcm_without); try (by apply connect_without); destruct bytes; try done; by apply read_line_without.
Qed.


(** * Capture keeps every line *)

(** Every system call succeeds, and a new run finds a name of its own. *)
Definition smooth (env : raw_env) : Prop :=
  write_ends env = Fine /\ fltb (tried env) f0 = false /\ exists stamp taken now, created env = Some (stamp, taken, now) /\ stamp ∉ taken.
Definition smooth_step (st : serial_step) : Prop := match st with SLine _ _ env => smooth env | _ => True end.

Definition all_captured (t : raw_tee) : list string := concat (map captured (runs t)) ++ concat (map captured (opt_list (_raw_writer t))).

Record capturing (c : SerialCollector) (all : list (string * Z)) : Prop := Capturing {
  cp_dir : _raw_log_dir (raw c) = true;
  cp_retry : _raw_retry_mono (raw c) = f0;
  cp_open : forall w, _raw_writer (raw c) = Some w -> _segment_open w = true /\ _closed w = false;
  cp_lines : all_captured (raw c) = map (fun l => raw_line wall_clock l.1 l.2) all
}.

Lemma write_fine w x t u : _segment_open w = true -> _closed w = false ->
  exists w', write_line w x t u Fine = (w', Ok tt) /\ _segment_open w' = true /\ _closed w' = false /\ captured w' = captured w ++ [x].
Proof.
  intros Ho Hc. unfold write_line. rewrite Ho, Hc. cbn [orb negb]. destruct (fleb _ t); [|destruct (fleb _ t)].
  - eexists. split; [reflexivity|]. split; [done|]. split; [done|]. by rewrite captured_rotate, captured_add.
  - eexists. split; [reflexivity|]. split; [done|]. split; [done|]. by rewrite captured_sync, captured_add.
  - eexists. split; [reflexivity|]. split; [done|]. split; [done|]. by rewrite captured_add.
Qed.

Lemma capture_keeps c all bytes t env : smooth env -> capturing c all ->
  capturing (let '(tee, failures) := _raw_capture wall_clock (raw c) bytes t env in with_raw c tee failures) (all ++ [(bytes, t)]).
Proof.
  intros (Hw & Ht & stamp & taken & now & Hcr & Hfresh) [Hd Hr Ho Hl]. unfold _raw_capture. rewrite Hr, Ht.
  assert (Hwr : exists w, match _raw_writer (raw c) with
                          | Some w => Ok w
                          | None => match created env with
                                    | Some (stamp, taken, now) => writer_init stamp taken DEFAULT_ROTATE_INTERVAL_S DEFAULT_FSYNC_INTERVAL_S now
                                    | None => raise OSError "cannot create a run"
                                    end
                          end = Ok w /\ _segment_open w = true /\ _closed w = false /\ captured w = concat (map captured (opt_list (_raw_writer (raw c))))).
  { destruct (_raw_writer (raw c)) as [w|]; [exists w; cbn; rewrite app_nil_r; by destruct (Ho w eq_refl)|].
    rewrite Hcr. unfold writer_init, _create_run_dir. cbn [try_dirs]. rewrite bool_decide_eq_false_2 by done.
    eexists. by split. }
  destruct Hwr as (w & -> & Hwo & Hwc & Hcap). rewrite Hw.
  destruct (write_fine w (raw_line wall_clock bytes t) (written_at env) (reopened env) Hwo Hwc) as (w' & -> & Hwo' & Hwc' & Hcap').
  split; cbn [with_raw raw _raw_log_dir _raw_retry_mono _raw_writer]; try done; [by intros ? [= <-]|].
  unfold all_captured in *. cbn [runs _raw_writer opt_list map concat]. rewrite app_nil_r, Hcap', Hcap, app_assoc, Hl, map_app. done.
Qed.

Lemma captured_close w : _segment_open w = true -> _closed w = false -> captured (close w Fine) = captured w.
Proof.
  intros Ho Hc. unfold close. rewrite Hc, Ho. cbn [negb]. unfold captured, durable. cbn. rewrite concat_app. cbn. by rewrite !app_nil_r, app_assoc.
Qed.

Lemma finish_capturing c all p : capturing c all -> capturing (finish c p) all.
Proof.
  intros [Hd Hr Ho Hl]. split; cbn [finish with_raw with_driver raw _raw_log_dir _raw_retry_mono _raw_writer]; try done.
  rewrite <- Hl. unfold all_captured. cbn [runs _raw_writer opt_list map concat]. rewrite app_nil_r, map_app, concat_app. f_equal.
  destruct (_raw_writer (raw c)) as [w|]; [|done]. cbn. destruct (Ho w eq_refl). by rewrite captured_close.
Qed.

Lemma capturing_same c c' all : raw c' = raw c -> capturing c all -> capturing c' all.
Proof. intros E [H1 H2 H3 H4]. split; by rewrite E. Qed.

Lemma rtcm_capturing c payload all : capturing c all -> capturing (write_rtcm c payload).1 all.
Proof.
  intros H. unfold write_rtcm. destruct (_active_driver c) as [[port accepts]|]; [|by eapply capturing_same; [|exact H]].
  destruct (Um980.write_rtcm _ _ _) as [port' [w|e]]; [destruct (w =? _)|]; by eapply capturing_same; [|exact H].
Qed.

Lemma serial_turn_captures c st all :
  smooth_step st -> capturing c all -> capturing (serial_turn wall_clock c st) (all ++ heard_in c st).
Proof.
  intros Hs H. destruct st as [|p|bytes t env| |payload| |]; cbn [serial_turn heard_in]; destruct (at_phase c) eqn:Ep; rewrite ?app_nil_r; try done;
    try (by apply finish_capturing); try (by apply rtcm_capturing); try (by eapply capturing_same; [|exact H]);
    try (by destruct bytes; rewrite ?app_nil_r).
  - unfold connect. destruct (ser_driver (config c)) as [d|]; [|by eapply capturing_same; [|exact H]].
    destruct (build_driver d) as [[settings commands]|e]; [|by apply finish_capturing].
    destruct (configure _ _ _ _ _) as [port [[]|e]]; [by eapply capturing_same; [|exact H]|].
    destruct (decide _); [by eapply capturing_same; [|exact H]|by apply finish_capturing].
  - destruct bytes as [|ch s]; [by rewrite app_nil_r|]. unfold read_line. cbn [with_driver raw]. rewrite (cp_dir _ _ H).
    pose proof (capture_keeps (with_driver c (_active_driver c) (Connected true)) all (String ch s) t env Hs
                  ltac:(by eapply capturing_same; [|exact H])) as Hk.
    cbn [with_driver raw] in Hk. destruct (_raw_capture _ _ _ _ _) as [tee failures].
    destruct (too_long (String ch s)); [by eapply capturing_same; [|exact Hk]|]. eapply capturing_same; [|exact Hk].
    unfold handle_line. by destruct (decode _ _).
Qed.

(** While its disk works, the capture of a source holds every line heard, those
    too long to decode included, in order across reconnects and restarts, each
    behind the wall clock of its arrival. *)
Theorem capture_holds_every_line (cfg : SerialConfig) (c : SerialCollector) (sts : list serial_step) :
  collector_init cfg true = Ok c -> Forall smooth_step sts ->
  all_captured (raw (serial_run wall_clock c sts)) = map (fun l => raw_line wall_clock l.1 l.2) (heard wall_clock c sts).
Proof.
  intros Hc Hs. assert (H0 : capturing c []).
  { unfold collector_init in Hc. destruct (negb _); [discriminate|]. destruct (match ser_driver cfg with Some _ => _ | None => _ end); [discriminate|].
    injection Hc as <-. by split. }
  assert (H : forall all c, capturing c all -> capturing (serial_run wall_clock c sts) (all ++ heard wall_clock c sts)).
  { clear c Hc H0. induction Hs as [|st sts Hst _ IH]; intros all c H; cbn [heard]; [by rewrite app_nil_r|].
    rewrite app_assoc. unfold serial_run. cbn [fold_left]. apply IH. by apply serial_turn_captures. }
  by apply (H [] c).
Qed.
End Capture.

(** * A receiver on a port *)

Module Port.
Definition cfg : SerialConfig :=
  mkSerialConfig "serial0" "/dev/ttyUSB0" 115200 "nmea" (Some (mkDriverConfig "um980" Rover.settings)) true.
Definition wall (t : Z) : float := fdiv_ieee (f_of_Z t) (f_of_Z 1000000).
Definition newline : string := String (ascii_of_nat 10) "".
Definition env (t : Z) : raw_env := mkRaw (f_of_Z t) (Some ("20260912T083000Z", [], f_of_Z t)) (f_of_Z t) (f_of_Z t) Fine (f_of_Z t).
Definition disk_full (t : Z) : raw_env := mkRaw (f_of_Z t) None (f_of_Z t) (f_of_Z t) SyncFailed (f_of_Z t).
Definition receiver : port_env := mkPortEnv Rover.one_by_one Rover.replies.
Definition silent : port_env := mkPortEnv Rover.one_by_one (fun _ => []).
Definition fixed (t : Z) (e : Z -> raw_env) : serial_step := SLine (framed Receiver.position +:+ newline) (t * 1000000000) (e t).
Fixpoint noise (n : nat) : string := match n with O => "" | S n => String "x" (noise n) end.
Definition session (e : Z -> raw_env) : list serial_step :=
  [SOpenFails; SRtcm "early"; SOpens silent; SOpens receiver; fixed 10 e; SRtcm "rtcm"; SLine (noise 1025) 11000000000 (e 11); SReadError; SOpens receiver;
   fixed 20 e; SStop].
Definition start (tee : bool) : SerialCollector := match collector_init cfg tee with Ok c => c | Raise _ => mkCollector cfg (decoder_init "" "") no_transport (mkTee tee None [] f0) None Waiting f0 [] [] end.
End Port.

Lemma serial_source_accounts_witness :
  let c := serial_run Port.wall (Port.start true) (Port.session Port.env) in
  length (emitted c) = 10%nat /\ stats c = mkTransport 1 1 1 2 2 10 1 1 0 /\ waited c = [lit 5 10; f_of_Z 1; lit 5 10] /\
  Forall (fun d => fleb d DEFAULT_BACKOFF_MAX_S = true) (waited c).
Proof.
  cbv zeta. split; [vm_compute; reflexivity|]. split; [vm_compute; reflexivity|]. split; [vm_compute; reflexivity|].
  apply (serial_source_accounts Port.wall Port.cfg true (Port.start true) (Port.session Port.env)). reflexivity.
Defined.

Lemma same_session e e' : Forall2 same_step (Port.session e) (Port.session e').
Proof. unfold Port.session, Port.fixed. repeat (apply Forall2_cons; split; [constructor|]). apply Forall2_nil_2. Qed.


Lemma capture_holds_every_line_witness :
  let c := serial_run Port.wall (Port.start true) (Port.session Port.env) in
  all_captured (raw c) = map (fun l => raw_line Port.wall l.1 l.2) (heard Port.wall (Port.start true) (Port.session Port.env)) /\
  map (String.length) (all_captured (raw c)) = [80; 1037; 80]%nat.
Proof.
  split; [|vm_compute; reflexivity].
  apply (capture_holds_every_line Port.wall Port.cfg (Port.start true) (Port.session Port.env)); [reflexivity|].
  unfold Port.session, Port.fixed. repeat (apply Forall_cons; split; [first [exact I|split; [reflexivity|split; [reflexivity|]];
    eexists _, [], _; split; [reflexivity|apply not_elem_of_nil]]|]). apply Forall_nil_2.
Defined.

(** A driver the profile accepted but the receiver has no command for: the
    thread dies on every open, and each restart begins at the first delay. *)
Example unsupported_rate_kills_the_thread :
  let cfg := mkSerialConfig "serial0" "/dev/ttyUSB0" 115200 "nmea" (Some (mkDriverConfig "um980" (mkUm980Settings 3 ["RMC"] [] true None None))) false in
  validate_serial cfg = Ok tt /\
  match collector_init cfg false with
  | Ok c => at_phase (serial_run Port.wall c [SOpens Port.receiver; SStart; SOpens Port.receiver]) =
              Crashed (Exn ValueError "unsupported UM980 rate 3 Hz; supported rates: 1, 2, 5, 10, 20, 50")
  | Raise _ => False
  end.
Proof. vm_compute. split; reflexivity. Qed.
