(* ===== verification/CanCollector.v ===== *)
(** The CAN collector ([src/collectors/can.py]): frames decoded against every
    DBC of a bus, frame times on the monotonic clock, reconnects.

    A DBC's message is what cantools makes of it: an id, a name, its signals
    and a decoder of payloads, which may raise; [dbcs] are the databases as
    loaded, in the order of the profile. The collector has one thread, so an
    execution is the list of what the bus did next. *)

From S2P Require Import Prelude PyFloat Stats PyText Config Wire.

Local Open Scope Z_scope.

(** * Frame times *)

Record _FrameClock := mkClock { _epoch_ref : option float; _mono_ref : Z }.
Definition clock_reset : _FrameClock := mkClock None 0.

(** [to_mono_ns]; [now] is the monotonic clock. *)
Definition to_mono_ns (self : _FrameClock) (timestamp : float) (now : Z) : _FrameClock * res Z :=
  if negb (ftruthy timestamp) then (self, Ok now)
  else
    let self := match _epoch_ref self with None => mkClock (Some timestamp) now | Some _ => self end in
    (self, n ← f_round (fmul (fsub timestamp (default timestamp (_epoch_ref self))) (f_of_Z 1000000000)); Ok (_mono_ref self + n)).

(** * Messages and their index *)

Record DbcMessage := mkDbcMessage {
  frame_id : Z;
  is_extended_frame : bool;
  message_name : string;
  signals : list string;
  decode_payload : string -> res (list (string * SampleValue))
}.

Record Message := mkMessage {
  arbitration_id : Z;
  is_extended_id : bool;
  is_error_frame : bool;
  is_remote_frame : bool;
  data : string;
  timestamp : float
}.

Record _DeviceMessage := mkDevice { dm_device : string; dm_message : DbcMessage; source_refs : list (string * string) }.

Definition source_ref (bus device message signal : string) : string :=
  bus +:+ ":" +:+ device +:+ "." +:+ message +:+ "." +:+ signal.
Definition device_message (bus device : string) (m : DbcMessage) : _DeviceMessage :=
  mkDevice device m (fold_left (fun d s => od_set s (source_ref bus device (message_name m) s) d) (signals m) []).

Abbreviation frame_key := (Z * bool)%type.
Definition key_of (m : Message) : frame_key := (arbitration_id m, is_extended_id m).

Definition index_message (bus device : string) (d : list (frame_key * list _DeviceMessage)) (m : DbcMessage) : list (frame_key * list _DeviceMessage) :=
  let key := (frame_id m, is_extended_frame m) in
  od_set key (default [] (od_get key d) ++ [device_message bus device m]) d.
Definition build_index (bus : string) (dbcs : list (string * list DbcMessage)) : list (frame_key * list _DeviceMessage) :=
  fold_left (fun d '(device, messages) => fold_left (index_message bus device) messages d) dbcs [].

Record CanDecodeStats := mkDecodeStats {
  frames : Z;
  decoded_frames : Z;
  unknown_frames : Z;
  malformed_frames : Z;
  samples : Z
}.

Record CanDecoder := mkCanDecoder {
  bus_name : string;
  stats : CanDecodeStats;
  _by_frame : list (frame_key * list _DeviceMessage);
  _reported_unknown : list frame_key;
  _reported_malformed : list (Z * string)
}.

Definition _MAX_TRACKED_UNKNOWN_IDS : nat := 256.

Definition decoder_init (bus : string) (dbcs : list (string * list DbcMessage)) : CanDecoder :=
  mkCanDecoder bus (mkDecodeStats 0 0 0 0 0) (build_index bus dbcs) [] [].

Definition _report_unknown (reported : list frame_key) (key : frame_key) : list frame_key :=
  if bool_decide (key ∈ reported) || (_MAX_TRACKED_UNKNOWN_IDS <=? length reported)%nat then reported else reported ++ [key].
Definition _report_malformed (reported : list (Z * string)) (c : _DeviceMessage) : list (Z * string) :=
  let key := (frame_id (dm_message c), dm_device c) in
  if bool_decide (key ∈ reported) then reported else reported ++ [key].

Abbreviation readings := (list (string * SampleValue)).

(** What one device makes of a payload. *)
Definition device_values (bus : string) (c : _DeviceMessage) (payload : string) : option readings :=
  match decode_payload (dm_message c) payload with
  | Raise _ => None
  | Ok decoded =>
      Some (map (fun '(name, v) => (default (source_ref bus (dm_device c) (message_name (dm_message c)) name) (od_get name (source_refs c)), v)) decoded)
  end.

(** The loop over the candidates: values, failures and the devices reported. *)
Definition decode_candidate (bus payload : string) (st : readings * nat * list (Z * string)) (c : _DeviceMessage) : readings * nat * list (Z * string) :=
  let '(values, failures, reported) := st in
  match device_values bus c payload with
  | None => (values, S failures, _report_malformed reported c)
  | Some l => (values ++ l, failures, reported)
  end.

Inductive verdict := Decoded | Unknown | Malformed.
Definition counted (s : CanDecodeStats) (v : verdict) (n : nat) : CanDecodeStats :=
  let one w := match v, w with Decoded, Decoded | Unknown, Unknown | Malformed, Malformed => 1 | _, _ => 0 end in
  mkDecodeStats (frames s + 1) (decoded_frames s + one Decoded) (unknown_frames s + one Unknown) (malformed_frames s + one Malformed)
    (samples s + Z.of_nat n).

Definition decode (self : CanDecoder) (m : Message) : CanDecoder * readings :=
  let finish v unknown malformed values :=
    (mkCanDecoder (bus_name self) (counted (stats self) v (length values)) (_by_frame self) unknown malformed, values) in
  if is_error_frame m || is_remote_frame m then finish Malformed (_reported_unknown self) (_reported_malformed self) []
  else
    match od_get (key_of m) (_by_frame self) with
    | None => finish Unknown (_report_unknown (_reported_unknown self) (key_of m)) (_reported_malformed self) []
    | Some candidates =>
        let '(values, failures, reported) := fold_left (decode_candidate (bus_name self) (data m)) candidates ([], 0%nat, _reported_malformed self) in
        finish (if (failures =? length candidates)%nat then Malformed else Decoded) (_reported_unknown self) reported values
    end.

(** * The collector *)

Definition DEFAULT_BACKOFF_START_S : float := lit 5 10.
Definition DEFAULT_BACKOFF_MAX_S : float := f_of_Z 30.

Inductive phase := Waiting | Reading (received : bool) | Returned | Crashed (e : exn).

Record CanCollector := mkCollector {
  decoder : CanDecoder;
  _frame_clock : _FrameClock;
  open_failures : Z;
  bus_errors : Z;
  reconnects : Z;
  at_phase : phase;
  backoff : float;
  waited : list float;
  emitted : list Sample
}.
Definition collector_init (bus : string) (dbcs : list (string * list DbcMessage)) : CanCollector :=
  mkCollector (decoder_init bus dbcs) clock_reset 0 0 0 Waiting DEFAULT_BACKOFF_START_S [] [].

Definition wait (c : CanCollector) (failures errors again : Z) (delay : float) : CanCollector :=
  mkCollector (decoder c) (_frame_clock c) (open_failures c + failures) (bus_errors c + errors) (reconnects c + again) Waiting
    (doubled delay DEFAULT_BACKOFF_MAX_S) (waited c ++ [delay]) (emitted c).
Definition with_clock (c : CanCollector) (k : _FrameClock) (p : phase) : CanCollector :=
  mkCollector (decoder c) k (open_failures c) (bus_errors c) (reconnects c) p (backoff c) (waited c) (emitted c).

Section Collector.
Variable wall_clock : Z -> float.

Definition handle_message (c : CanCollector) (m : Message) (now : Z) : CanCollector * res Z :=
  match to_mono_ns (_frame_clock c) (timestamp m) now with
  | (k, Raise e) => (with_clock c k (at_phase c), Raise e)
  | (k, Ok t_mono_ns) =>
      let t_wall_ms := wall_clock t_mono_ns in
      let '(d, decoded) := decode (decoder c) m in
      (mkCollector d k (open_failures c) (bus_errors c) (reconnects c) (at_phase c) (backoff c) (waited c)
         (emitted c ++ map (fun rv => mkSample rv.1 t_mono_ns t_wall_ms rv.2) decoded), Ok (Z.of_nat (length decoded)))
  end.

Inductive can_step :=
  | COpenFails
  | COpens
  | CMessage (m : Message) (now : Z)
  | CBusError
  | CStop
  | CStart.

Definition can_turn (c : CanCollector) (st : can_step) : CanCollector :=
  match st, at_phase c with
  | COpenFails, Waiting => wait c 1 0 0 (backoff c)
  | COpens, Waiting => with_clock c clock_reset (Reading false)
  | CMessage m now, Reading _ =>
      match handle_message (with_clock c (_frame_clock c) (Reading true)) m now with
      | (c, Ok _) => c
      | (c, Raise e) => with_clock c (_frame_clock c) (Crashed e)
      end
  | CBusError, Reading received => wait c 0 1 1 (if received then DEFAULT_BACKOFF_START_S else backoff c)
  | CStop, (Waiting | Reading _) => with_clock c (_frame_clock c) Returned
  | CStart, (Returned | Crashed _) =>
      mkCollector (decoder c) (_frame_clock c) (open_failures c) (bus_errors c) (reconnects c) Waiting DEFAULT_BACKOFF_START_S (waited c) (emitted c)
  | _, _ => c
  end.
Definition can_run (c : CanCollector) (sts : list can_step) : CanCollector := fold_left can_turn sts c.

(** * Accounting *)

(** The frames that were handled, each with the time it was given. *)
Definition handled_in (c : CanCollector) (st : can_step) : list (Message * Z) :=
  match st, at_phase c with
  | CMessage m now, Reading _ => match (to_mono_ns (_frame_clock c) (timestamp m) now).2 with Ok t => [(m, t)] | Raise _ => [] end
  | _, _ => []
  end.
Fixpoint handled (c : CanCollector) (sts : list can_step) : list (Message * Z) :=
  match sts with [] => [] | st :: sts => handled_in c st ++ handled (can_turn c st) sts end.

(** The devices of a bus that define a frame id, over all its DBCs, in order. *)
Definition defining (bus : string) (dbcs : list (string * list DbcMessage)) (key : frame_key) : list _DeviceMessage :=
  concat (map (fun '(device, messages) =>
    map (device_message bus device) (List.filter (fun m => bool_decide ((frame_id m, is_extended_frame m) = key)) messages)) dbcs).

(** What a frame carries: every signal that some device can decode. *)
Definition frame_values (bus : string) (dbcs : list (string * list DbcMessage)) (m : Message) : readings :=
  if is_error_frame m || is_remote_frame m then []
  else concat (map (fun c => default [] (device_values bus c (data m))) (defining bus dbcs (key_of m))).

Definition found {A : Type} (l : list A) : option (list A) := match l with [] => None | _ => Some l end.

Lemma index_messages_get bus device key messages : forall d acc,
  od_get key d = found acc ->
  od_get key (fold_left (index_message bus device) messages d) =
  found (acc ++ map (device_message bus device) (List.filter (fun m => bool_decide ((frame_id m, is_extended_frame m) = key)) messages)).
Proof.
  induction messages as [|m messages IH]; intros d acc Hd; [cbn; by rewrite app_nil_r|]. cbn [fold_left List.filter].
  destruct (decide ((frame_id m, is_extended_frame m) = key)) as [Hk|Hk].
  - rewrite bool_decide_eq_true_2 by done. cbn [map].
    change (device_message bus device m :: ?l) with ([device_message bus device m] ++ l). rewrite app_assoc. apply IH.
    unfold index_message. rewrite Hk, od_get_set_eq, Hd. by destruct acc.
  - rewrite bool_decide_eq_false_2 by done. apply IH. unfold index_message. by rewrite od_get_set_ne by congruence.
Qed.

Lemma build_index_get bus dbcs key : od_get key (build_index bus dbcs) = found (defining bus dbcs key).
Proof.
  assert (H : forall d acc, od_get key d = found acc ->
    od_get key (fold_left (fun d '(device, messages) => fold_left (index_message bus device) messages d) dbcs d) = found (acc ++ defining bus dbcs key)).
  { unfold defining. induction dbcs as [|[device messages] dbcs IH]; intros d acc Hd; [cbn; by rewrite app_nil_r|].
    cbn [fold_left map concat]. rewrite app_assoc. apply IH. by apply index_messages_get. }
  by apply (H [] []).
Qed.

Lemma candidates_spec bus payload cands : forall values failures reported,
  exists reported', fold_left (decode_candidate bus payload) cands (values, failures, reported) =
    (values ++ concat (map (fun c => default [] (device_values bus c payload)) cands),
     (failures + length (List.filter (fun c => bool_decide (device_values bus c payload = None)) cands))%nat, reported').
Proof.
  induction cands as [|c cands IH]; intros values failures reported; [exists reported; cbn; by rewrite app_nil_r, Nat.add_0_r|].
  cbn [fold_left decode_candidate map concat List.filter]. destruct (device_values bus c payload) as [l|] eqn:E.
  - rewrite bool_decide_eq_false_2 by done. cbn. rewrite app_assoc. apply IH.
  - rewrite bool_decide_eq_true_2 by done. cbn [default from_option app length]. rewrite Nat.add_succ_r. change (S (?a + ?b))%nat with (S a + b)%nat. apply IH.
Qed.

(** The decoder of a bus with its databases. *)
Record decodes (bus : string) (dbcs : list (string * list DbcMessage)) (d : CanDecoder) : Prop := Decodes {
  dd_name : bus_name d = bus;
  dd_index : _by_frame d = build_index bus dbcs;
  dd_tracked : (length (_reported_unknown d) <= _MAX_TRACKED_UNKNOWN_IDS)%nat
}.

Lemma report_unknown_bounded reported key :
  (length reported <= _MAX_TRACKED_UNKNOWN_IDS)%nat -> (length (_report_unknown reported key) <= _MAX_TRACKED_UNKNOWN_IDS)%nat.
Proof.
  unfold _report_unknown. destruct (bool_decide _); [done|]. cbn [orb].
  destruct (Nat.leb_spec _MAX_TRACKED_UNKNOWN_IDS (length reported)); [done|]. rewrite length_app. cbn [length]. lia.
Qed.

(** One frame: its values are those of the devices that can decode it, and it
    counts as malformed only when it carries no data or no device can. *)
Lemma decode_spec bus dbcs d m : decodes bus dbcs d ->
  exists v, (decode d m).2 = frame_values bus dbcs m /\ stats (decode d m).1 = counted (stats d) v (length (frame_values bus dbcs m)) /\
    decodes bus dbcs (decode d m).1.
Proof.
  intros [Hn Hi Ht]. unfold decode, frame_values. destruct (is_error_frame m || is_remote_frame m); [by exists Malformed|].
  rewrite Hi, build_index_get. destruct (defining bus dbcs (key_of m)) as [|c cands] eqn:E; cbn [found].
  - exists Unknown. split; [done|]. split; [done|]. split; try done. by apply report_unknown_bounded.
  - rewrite Hn. destruct (candidates_spec bus (data m) (c :: cands) [] 0%nat (_reported_malformed d)) as (reported & ->).
    cbn [app]. eexists. split; [reflexivity|]. split; [reflexivity|]. by split.
Qed.

Definition frame_samples (bus : string) (dbcs : list (string * list DbcMessage)) (mt : Message * Z) : list Sample :=
  map (fun rv => mkSample rv.1 mt.2 (wall_clock mt.2) rv.2) (frame_values bus dbcs mt.1).

Record can_inv (bus : string) (dbcs : list (string * list DbcMessage)) (all : list (Message * Z)) (c : CanCollector) : Prop := CanInv {
  ci_decoder : decodes bus dbcs (decoder c);
  ci_emitted : emitted c = concat (map (frame_samples bus dbcs) all);
  ci_samples : samples (stats (decoder c)) = Z.of_nat (length (emitted c));
  ci_frames : frames (stats (decoder c)) = Z.of_nat (length all);
  ci_verdicts : frames (stats (decoder c)) =
    decoded_frames (stats (decoder c)) + unknown_frames (stats (decoder c)) + malformed_frames (stats (decoder c));
  ci_waits : Z.of_nat (length (waited c)) = open_failures c + reconnects c;
  ci_reconnects : reconnects c = bus_errors c;
  ci_backoff : Forall (fun d => fleb d DEFAULT_BACKOFF_MAX_S = true) (backoff c :: waited c)
}.

Lemma inv_clock bus dbcs all c k p : can_inv bus dbcs all c -> can_inv bus dbcs all (with_clock c k p).
Proof. by intros [H1 H2 H3 H4 H5 H6 H7 H8]; split. Qed.

Lemma can_wait_inv bus dbcs all c f e delay :
  can_inv bus dbcs all c -> 0 <= f -> 0 <= e -> f + e = 1 -> fleb delay DEFAULT_BACKOFF_MAX_S = true ->
  can_inv bus dbcs all (wait c f e e delay).
Proof.
  intros [H1 H2 H3 H4 H5 H6 H7 H8] Hf He Hfe Hd. apply Forall_cons in H8 as [_ H8]. split; cbn [wait decoder emitted waited open_failures reconnects bus_errors backoff]; try done.
  - rewrite length_app. cbn. lia.
  - lia.
  - apply Forall_cons. split; [by apply doubled_bounded|]. apply Forall_app. split; [done|]. by apply Forall_singleton.
Qed.

Lemma message_inv bus dbcs all c m now : can_inv bus dbcs all c ->
  match handle_message c m now with
  | (c', Ok _) => exists t, (to_mono_ns (_frame_clock c) (timestamp m) now).2 = Ok t /\ can_inv bus dbcs (all ++ [(m, t)]) c'
  | (c', Raise e) => (to_mono_ns (_frame_clock c) (timestamp m) now).2 = Raise e /\ can_inv bus dbcs all c'
  end.
Proof.
  intros H. unfold handle_message. destruct (to_mono_ns (_frame_clock c) (timestamp m) now) as [k [t|e]]; [|split; [done|by apply inv_clock]].
  destruct H as [H1 H2 H3 H4 H5 H6 H7 H8]. destruct (decode_spec bus dbcs (decoder c) m H1) as (v & Hv & Hs & Hd).
  destruct (decode (decoder c) m) as [d values]. cbn [fst snd] in *. subst values. exists t. split; [done|].
  split; cbn [decoder emitted waited open_failures reconnects bus_errors backoff]; try done.
  - rewrite map_app, concat_app, H2. cbn [map concat]. by rewrite app_nil_r.
  - rewrite Hs, length_app, length_map. cbn. lia.
  - rewrite Hs, length_app. cbn. lia.
  - rewrite Hs. destruct v; cbn; lia.
Qed.

Lemma can_turn_inv bus dbcs all c st : can_inv bus dbcs all c -> can_inv bus dbcs (all ++ handled_in c st) (can_turn c st).
Proof.
  intros H. pose proof (ci_backoff _ _ _ _ H) as Hb. apply Forall_cons in Hb as [Hb _].
  destruct st as [| |m now| | |]; cbn [can_turn handled_in]; destruct (at_phase c) eqn:Ep; rewrite ?app_nil_r; try done; try (by apply inv_clock).
  - by apply can_wait_inv.
  - pose proof (message_inv bus dbcs all _ m now (inv_clock _ _ _ _ (_frame_clock c) (Reading true) H)) as Hm. cbn [with_clock _frame_clock] in Hm.
    destruct (handle_message _ m now) as [c' [n|e]].
    + by destruct Hm as (t & -> & Hm).
    + destruct Hm as [-> Hm]. rewrite app_nil_r. by apply inv_clock.
  - apply can_wait_inv; try done. by destruct received.
  - destruct H as [H1 H2 H3 H4 H5 H6 H7 H8]. split; try done. apply Forall_cons in H8 as [_ H8]. apply Forall_cons; split; [reflexivity|done].
  - destruct H as [H1 H2 H3 H4 H5 H6 H7 H8]. split; try done. apply Forall_cons in H8 as [_ H8]. apply Forall_cons; split; [reflexivity|done].
Qed.

End Collector.

(** * Frame times *)

Lemma fsub_diag x : finite x -> fsub x x = f0.
Proof.
  unfold finite, fsub, SFsub. destruct x as [[]|s| |s m e]; try done. intros _. rewrite Z.sub_diag. done.
Qed.

(** Over one connection a stamped frame keeps the kernel's spacing to the first:
    its time is the monotonic reading of the first frame and the rounded
    distance between the two stamps, whatever the clock reads by then. *)
Theorem frame_times_follow_the_first (first : float) (now0 : Z) (l : list (float * Z)) (t : float) (now : Z) :
  finite first -> ftruthy first = true -> ftruthy t = true ->
  let k := fold_left (fun k sn => (to_mono_ns k sn.1 sn.2).1) l (to_mono_ns clock_reset first now0).1 in
  (to_mono_ns clock_reset first now0).2 = Ok now0 /\
  (to_mono_ns k t now).2 = (n ← f_round (fmul (fsub t first) (f_of_Z 1000000000)); Ok (now0 + n)).
Proof.
  intros Hfin Hf Ht k. assert (Hk : k = mkClock (Some first) now0).
  { unfold k, to_mono_ns at 2. rewrite Hf. cbn [negb clock_reset _epoch_ref fst]. clear k. induction l as [|[u n] l IH]; [done|].
    cbn [fold_left fst snd]. unfold to_mono_ns at 2. destruct (negb (ftruthy u)); exact IH. }
  split; [|rewrite Hk; unfold to_mono_ns; by rewrite Ht].
  unfold to_mono_ns. rewrite Hf. cbn [negb clock_reset _epoch_ref snd _mono_ref default from_option]. rewrite fsub_diag by done.
  change (f_round (fmul f0 (f_of_Z 1000000000))) with (Ok 0). cbn. by rewrite Z.add_0_r.
Qed.

(** * On a bus *)

Module Bus.
(** Two devices define the frame 360; one of them wants eight bytes. *)
Definition rpm (payload : string) : res (list (string * SampleValue)) := Ok [("RPM", VInt (Z.of_nat (String.length payload)))].
Definition wide (payload : string) : res (list (string * SampleValue)) :=
  if (String.length payload <? 8)%nat then raise ValueError "Wrong data size" else Ok [("WIDE", VInt 1)].
Definition dbcs : list (string * list DbcMessage) :=
  [("ecu", [mkDbcMessage 360 false "ENGINE" ["RPM"] rpm]); ("dash", [mkDbcMessage 360 false "DASH" ["WIDE"] wide; mkDbcMessage 361 false "DASH2" ["WIDE"] wide])].
Definition frame (id n t : Z) : can_step :=
  CMessage (mkMessage id false false false (String.substring 0 (Z.to_nat n) "01234567") (lit t 1000)) (t * 1000000 + 7).
Definition wall (t : Z) : float := f_of_Z t.
Definition session : list can_step :=
  [COpenFails; COpens; frame 360 4 1500; frame 361 4 1501; frame 999 8 1502; frame 360 8 1600; CBusError; COpens; frame 360 4 2000; CStop].
End Bus.

Example can_session :
  let c := can_run Bus.wall (collector_init "can0" Bus.dbcs) Bus.session in
  stats (decoder c) = mkDecodeStats 5 3 1 1 4 /\ _reported_malformed (decoder c) = [(360, "dash"); (361, "dash")] /\
  map (fun s => (s_source_ref s, s_t_mono_ns s)) (emitted c) =
    [("can0:ecu.ENGINE.RPM", 1500000007); ("can0:ecu.ENGINE.RPM", 1600000007); ("can0:dash.DASH.WIDE", 1600000007);
     ("can0:ecu.ENGINE.RPM", 2000000007)] /\
  waited c = [lit 5 10; lit 5 10].
Proof. vm_compute. split_and!; reflexivity. Qed.

Lemma frame_times_follow_the_first_witness :
  (to_mono_ns (to_mono_ns clock_reset (lit 1500 1000) 7).1 (lit 1501 1000) 99).2 = Ok 1000007.
Proof.
  assert (H := proj2 (frame_times_follow_the_first (lit 1500 1000) 7 [] (lit 1501 1000) 99 eq_refl eq_refl eq_refl)).
  cbn [fold_left] in H. rewrite H. vm_compute. reflexivity.
Defined.

(** A stamp that is not a number ends the thread instead of costing a frame. *)
Example infinite_stamp_kills_the_thread :
  at_phase (can_run Bus.wall (collector_init "can0" Bus.dbcs)
    [COpens; Bus.frame 360 4 1500; CMessage (mkMessage 360 false false false "" finf) 8]) =
  Crashed (Exn OverflowError "cannot convert float infinity to integer").
Proof. vm_compute. reflexivity. Qed.
