(* ===== verification/HostMetrics.v ===== *)
(** Host metrics ([src/collectors/host.py]): one snapshot of the machine as
    samples, every group of metrics probed on its own.

    What psutil, sysfs and chronyc answer is the record [machine]; a call that
    raises is a [Raise] there. Texts are ASCII. *)

From S2P Require Import Prelude PyFloat Stats PyText Config Wire.

Local Open Scope Z_scope.

(** * Texts *)

Definition is_alnum (c : ascii) : bool :=
  let n := N_of_ascii c in
  ((48 <=? n) && (n <=? 57) || (65 <=? n) && (n <=? 90) || (97 <=? n) && (n <=? 122))%N.
Fixpoint str_map (f : ascii -> ascii) (s : string) : string :=
  match s with EmptyString => EmptyString | String c s => String (f c) (str_map f s) end.
Definition underscore : ascii := "_"%char.
Definition strip_underscores (s : string) : string := rstrip (Ascii.eqb underscore) (lstrip (Ascii.eqb underscore) s).

Definition _sanitize (name : string) : string :=
  strip_underscores (str_map (fun c => if is_alnum c then c else underscore) (str_lower (strip name))).

(** [str.splitlines]. *)
Definition is_break (c : ascii) : bool :=
  let n := N_of_ascii c in ((10 <=? n) && (n <=? 13) || (28 <=? n) && (n <=? 30))%N.
Fixpoint split_breaks (s acc : string) : list string :=
  match s with
  | EmptyString => match acc with EmptyString => [] | _ => [acc] end
  | String c s' =>
      if is_break c then
        acc :: match c, s' with
               | "013"%char, String "010"%char s'' => split_breaks s'' ""
               | _, _ => split_breaks s' ""
               end
      else split_breaks s' (acc +:+ String c "")
  end.
Definition splitlines (s : string) : list string := split_breaks s "".

(** [str.split()], on blanks. *)
Fixpoint split_blanks (s acc : string) : list string :=
  match s with
  | EmptyString => match acc with EmptyString => [] | _ => [acc] end
  | String c s =>
      if is_space c then match acc with EmptyString => split_blanks s "" | _ => acc :: split_blanks s "" end
      else split_blanks s (acc +:+ String c "")
  end.
Definition words (s : string) : list string := split_blanks s "".
Definition nth_word (i : nat) (s : string) : res string :=
  match nth_error (words s) i with Some w => Ok w | None => raise IndexError "list index out of range" end.

(** * chronyc tracking *)

(** [re.search(r"\(([^()]+)\)\s*$", reference)]. *)
Definition parenthesized (reference : string) : option string :=
  let t := rstrip is_space reference in
  '(before, last) ← str_rpartition ")" t;
  if negb (String.eqb last "") then None
  else
    '(_, inner) ← str_rpartition "(" before;
    if String.eqb inner "" || char_in ")" inner then None else Some inner.

Definition text_int (s : string) : res Z := match py_int s with Some z => Ok z | None => raise ValueError "invalid literal for int()" end.
Definition text_float (s : string) : res float := match py_float s with Some x => Ok x | None => raise ValueError "could not convert string to float" end.
Definition demand {A : Type} (o : option A) (e : exn) : res A := match o with Some a => Ok a | None => Raise e end.

Definition tracking_fields (output : string) : list (string * string) :=
  fold_left (fun fields line =>
    match str_partition ":" line with
    | Some (label, value) => od_set (str_lower (strip label)) (strip value) fields
    | None => fields
    end) (splitlines output) [].

Abbreviation Reading := (string * SampleValue)%type.

Definition parse_chronyc_tracking (output : string) : res (list Reading) :=
  let fields := tracking_fields output in
  let missing := Exn ValueError "chronyc tracking output is missing required fields" in
  reference ← demand (od_get "reference id" fields) missing;
  stratum ← demand (od_get "stratum" fields) missing;
  system ← demand (od_get "system time" fields) missing;
  dispersion ← demand (od_get "root dispersion" fields) missing;
  source ← match parenthesized reference with Some s => Ok s | None => nth_word 0 reference end;
  let system_time := words system in
  match system_time with
  | amount :: _ :: direction :: _ =>
      if String.eqb direction "fast" || String.eqb direction "slow" then
        offset ← text_float amount;
        let offset := if String.eqb direction "slow" then fopp offset else offset in
        stratum ← text_int stratum;
        dispersion ← (w ← nth_word 0 dispersion; text_float w);
        Ok [("host:clock_offset_s", VFloat offset); ("host:clock_source", VStr source); ("host:clock_stratum", VInt stratum);
            ("host:clock_root_dispersion_s", VFloat dispersion)]
      else raise ValueError "chronyc tracking has an invalid System time field"
  | _ => raise ValueError "chronyc tracking has an invalid System time field"
  end.

(** * The machine *)

Record memory_info := mkMemory { mem_percent : float; mem_used : Z; mem_available : Z; mem_total : Z }.
Record swap_info := mkSwap { swap_percent : float; swap_used : Z }.
Record disk_info := mkDisk { disk_percent : float; disk_used : Z; disk_free : Z }.
Record io_info := mkIo { read_bytes : Z; write_bytes : Z }.
Record net_info := mkNet { bytes_sent : Z; bytes_recv : Z; packets_sent : Z; packets_recv : Z; errin : Z; errout : Z; dropin : Z; dropout : Z }.

Record machine := mkMachine {
  cpu_percent : res float;
  cpu_percents : res (list float);
  cpu_freq : res (option float);
  (* per policy, in the order of the directories: [related_cpus] and the clock's text; [None] when unreadable *)
  policies : list (option (string * string));
  load_avg : option (res (float * float * float));
  (* per chip, its labels and temperatures *)
  temperatures : option (res (list (string * list (string * float))));
  (* per cooling device, in the order of the directories: type, [cur_state] and [max_state] *)
  cooling : list (option (string * string * string));
  virtual_memory : res memory_info;
  swap_memory : res swap_info;
  disk_usage : res disk_info;
  disk_io : res (option io_info);
  net_io : res (option net_info);
  chronyc : res string
}.

(** * Probes

    A generator: what it yields, and the exception it ends with, if any. *)

Record gen := mkGen { yielded : list Reading; ended : option exn }.
Definition yields (l : list Reading) : gen := mkGen l None.
Definition gen_seq (g : gen) (h : gen) : gen :=
  match ended g with Some e => g | None => mkGen (yielded g ++ yielded h) (ended h) end.
Definition gen_bind {A : Type} (r : res A) (k : A -> gen) : gen := match r with Ok a => k a | Raise e => mkGen [] (Some e) end.

Definition f_reading (name : string) (x : float) : Reading := (name, VFloat x).
Definition i_reading (name : string) (z : Z) : Reading := (name, VInt z).

(** [max(values)] and [min(values)] of a list that is not empty. *)
Definition max_of (x : float) (l : list float) : float := fold_left fmax l x.
Definition min_of (x : float) (l : list float) : float := fold_left fmin l x.

Definition policy_clock (clocks : list (string * float)) (p : option (string * string)) : list (string * float) :=
  match p with
  | Some (related, khz) =>
      match py_float khz, words related with
      | Some k, cpu :: _ => od_set ("cpu" +:+ cpu) (fdiv_ieee k (f_of_Z 1000)) clocks
      | _, _ => clocks
      end
  | None => clocks
  end.
Definition _read_policy_clocks (m : machine) : gen :=
  let clocks := fold_left policy_clock (policies m) [] in
  yields (map (fun '(name, mhz) => f_reading ("host:cpu.freq_mhz." +:+ name) mhz) clocks
          ++ match clocks.*2 with
             | [] => []
             | x :: l => [f_reading "host:cpu.freq_mhz.max" (max_of x l); f_reading "host:cpu.freq_mhz.min" (min_of x l)]
             end).

Definition _read_cpu (m : machine) : gen :=
  gen_bind (cpu_percent m) (fun p => gen_seq (yields [f_reading "host:cpu.percent" p])
    (gen_bind (cpu_percents m) (fun ps => gen_seq
      (yields (imap (fun i x => f_reading ("host:cpu.percent." +:+ pretty i) x) ps))
      (gen_bind (cpu_freq m) (fun f => gen_seq
        (yields (match f with Some x => [f_reading "host:cpu.freq_mhz" x] | None => [] end))
        (_read_policy_clocks m)))))).

Definition _read_load (m : machine) : gen :=
  match load_avg m with
  | None => yields []
  | Some r => gen_bind r (fun '(one, five, fifteen) =>
      yields [f_reading "host:load.avg_1m" one; f_reading "host:load.avg_5m" five; f_reading "host:load.avg_15m" fifteen])
  end.

Definition sensor_name (chip : string) (i : nat) (label : string) : string :=
  str_or (_sanitize chip) "unknown" +:+ "." +:+ str_or (_sanitize label) (pretty i).
Definition found_sensors (chips : list (string * list (string * float))) : list (string * float) :=
  fold_left (fun found '(chip, entries) =>
    fold_left (fun found '(i, (label, current)) => od_set (sensor_name chip i label) current found)
      (imap (fun i e => (i, e)) entries) found) chips [].
Definition alias_readings (found : list (string * float)) (aliases : list (string * string)) : list Reading :=
  omap (fun '(alias, sensor) => v ← od_get sensor found; Some (f_reading ("host:temp." +:+ alias) v)) aliases.
Definition missing_aliases (found : list (string * float)) (aliases : list (string * string)) : list string :=
  map (fun a => "temp." +:+ a.1) (List.filter (fun a => negb (od_mem a.2 found)) aliases).
Definition _read_temperatures (aliases : list (string * string)) (m : machine) : gen :=
  match temperatures m with
  | None => yields []
  | Some r => gen_bind r (fun chips =>
      let found := found_sensors chips in
      yields (map (fun '(sensor, v) => f_reading ("host:temp." +:+ sensor) v) found ++ alias_readings found aliases))
  end.

Definition _THROTTLE_CLASSES : list (string * list string) :=
  [("cpu", ["cpufreq"; "processor"; "powerclamp"]); ("gpu", ["gpu"]); ("memory", ["dmc"; "ddr"; "mem"]); ("npu", ["npu"])].
Definition _throttle_class (cooling_type : string) : option string :=
  let lowered := str_lower cooling_type in
  fst <$> List.find (fun kn => existsb (fun needle => str_in needle lowered) kn.2) _THROTTLE_CLASSES.

(** A cooling device that can be read: its type and its percentage. *)
Definition cooling_percent (d : option (string * string * string)) : option (res (string * float)) :=
  '(kind, current, maximum) ← d;
  c ← py_int current; x ← py_int maximum;
  if x <=? 0 then None
  else Some (c ← float_of_int c; x ← float_of_int x; p ← fdiv (fmul (f_of_Z 100) c) x; Ok (strip kind, p)).

Definition add_device (st : list (string * float) * list (string * float)) (kp : string * float) : list (string * float) * list (string * float) :=
  let '(per_device, by_class) := st in
  let '(kind, percent) := kp in
  (od_set (str_or (_sanitize kind) "unknown") percent per_device,
   match _throttle_class kind with
   | Some k => od_set k (fmax (default f0 (od_get k by_class)) percent) by_class
   | None => by_class
   end).
Definition _read_throttle (m : machine) : gen :=
  gen_bind (res_map id (omap cooling_percent (cooling m))) (fun devices =>
    let '(per_device, by_class) := fold_left add_device devices ([], []) in
    yields (map (fun '(name, p) => f_reading ("host:throttle." +:+ name +:+ ".percent") p) per_device
            ++ map (fun '(k, p) => f_reading ("host:throttle." +:+ k +:+ ".percent") p) by_class
            ++ match per_device.*2 with [] => [] | x :: l => [f_reading "host:throttle.percent" (max_of x l)] end)).

Definition _read_memory (m : machine) : gen :=
  gen_bind (virtual_memory m) (fun v => gen_seq
    (yields [f_reading "host:mem.percent" (mem_percent v); i_reading "host:mem.used_bytes" (mem_used v);
             i_reading "host:mem.available_bytes" (mem_available v); i_reading "host:mem.total_bytes" (mem_total v)])
    (gen_bind (swap_memory m) (fun s =>
      yields [f_reading "host:swap.percent" (swap_percent s); i_reading "host:swap.used_bytes" (swap_used s)]))).

Definition _read_disk (m : machine) : gen :=
  gen_bind (disk_usage m) (fun u => gen_seq
    (yields [f_reading "host:disk.percent" (disk_percent u); i_reading "host:disk.used_bytes" (disk_used u); i_reading "host:disk.free_bytes" (disk_free u)])
    (gen_bind (disk_io m) (fun o =>
      yields (match o with
              | Some i => [i_reading "host:disk.read_bytes" (read_bytes i); i_reading "host:disk.write_bytes" (write_bytes i)]
              | None => []
              end)))).

Definition _read_network (m : machine) : gen :=
  gen_bind (net_io m) (fun o => yields
    match o with
    | None => []
    | Some n => [i_reading "host:net.bytes_sent" (bytes_sent n); i_reading "host:net.bytes_recv" (bytes_recv n);
                 i_reading "host:net.packets_sent" (packets_sent n); i_reading "host:net.packets_recv" (packets_recv n);
                 i_reading "host:net.err_in" (errin n); i_reading "host:net.err_out" (errout n);
                 i_reading "host:net.drop_in" (dropin n); i_reading "host:net.drop_out" (dropout n)]
    end).

Definition _read_clock (m : machine) : gen := gen_bind (chronyc m) (fun out => gen_bind (parse_chronyc_tracking out) yields).

(** * The reader and the collector *)

Record HostMetricsReader := mkReader {
  aliases : list (string * string);
  probe_failures : Z;
  _reported_failures : list string
}.

Definition note (reported : list string) (key : string) : list string := if bool_decide (key ∈ reported) then reported else reported ++ [key].

(** The constructor primes the CPU percentages; [primed] is the error that may end in. *)
Definition reader_init (aliases : list (string * string)) (primed : option exn) : HostMetricsReader :=
  mkReader aliases 0 (match primed with Some _ => ["prime"] | None => [] end).

Definition probes (aliases : list (string * string)) (m : machine) : list (string * gen) :=
  [("cpu", _read_cpu m); ("load", _read_load m); ("temp", _read_temperatures aliases m); ("throttle", _read_throttle m); ("mem", _read_memory m);
   ("disk", _read_disk m); ("net", _read_network m); ("clock", _read_clock m)].

Definition run_probe (st : HostMetricsReader * list Reading) (p : string * gen) : HostMetricsReader * list Reading :=
  let '(self, readings) := st in
  let '(name, g) := p in
  (match ended g with
   | None => self
   | Some _ => mkReader (aliases self) (probe_failures self + 1) (note (_reported_failures self) name)
   end, readings ++ yielded g).

(** [read]; the aliases without a sensor are reported by the temperature probe. *)
Definition note_missing (self : HostMetricsReader) (m : machine) : HostMetricsReader :=
  match temperatures m with
  | Some (Ok chips) => mkReader (aliases self) (probe_failures self)
                         (fold_left note (missing_aliases (found_sensors chips) (aliases self)) (_reported_failures self))
  | _ => self
  end.
Definition read (self : HostMetricsReader) (m : machine) : HostMetricsReader * list Reading :=
  let '(self, readings) := fold_left run_probe (probes (aliases self) m) (self, []) in (note_missing self m, readings).

Record HostCollector := mkHostCollector { reader : HostMetricsReader; polls : Z; samples : Z; stats_failures : Z }.

Definition poll (c : HostCollector) (m : machine) (t_mono_ns : Z) (wall_clock : Z -> float) : HostCollector * list Sample :=
  let '(r, readings) := read (reader c) m in
  (mkHostCollector r (polls c + 1) (samples c + Z.of_nat (length readings)) (probe_failures r),
   map (fun rv => mkSample rv.1 t_mono_ns (wall_clock t_mono_ns) rv.2) readings).

(** A turn of [run]: when the next poll is due, and the wait for it; [now] is the
    clock after the poll. *)
Definition next_wait (next_poll interval_s now now' : float) : float * float :=
  let next_poll := fadd next_poll interval_s in
  let delay := fsub next_poll now in
  if fleb delay f0 then (now', f0) else (next_poll, delay).

(** * A failing group costs only itself *)

Lemma run_probes_spec ps : forall self readings,
  exists reported, fold_left run_probe ps (self, readings) =
    (mkReader (aliases self) (probe_failures self + Z.of_nat (length (List.filter (fun p => match ended p.2 with Some _ => true | None => false end) ps))) reported,
     readings ++ concat (map (fun p => yielded p.2) ps)).
Proof.
  induction ps as [|[name g] ps IH]; intros self readings.
  - exists (_reported_failures self). cbn. rewrite app_nil_r, Z.add_0_r. by destruct self.
  - cbn [fold_left run_probe map concat List.filter snd]. destruct (ended g) as [e|].
    + destruct (IH (mkReader (aliases self) (probe_failures self + 1) (note (_reported_failures self) name)) (readings ++ yielded g)) as (r & ->).
      exists r. cbn [aliases probe_failures length]. rewrite <- app_assoc. f_equal. f_equal. lia.
    + destruct (IH self (readings ++ yielded g)) as (r & ->). exists r. by rewrite <- app_assoc.
Qed.

(** One poll: every group contributes what it yields, up to its own failure and
    whatever becomes of the others; every failed group is counted once; and the
    samples all carry the time of the poll. *)
Theorem poll_reads_every_group (c : HostCollector) (m : machine) (t : Z) (wall_clock : Z -> float) :
  let '(c', out) := poll c m t wall_clock in
  let groups := probes (aliases (reader c)) m in
  map (fun s => (s_source_ref s, s_value s)) out = concat (map (fun p => yielded p.2) groups) /\
  stats_failures c' = probe_failures (reader c) + Z.of_nat (length (List.filter (fun p => match ended p.2 with Some _ => true | None => false end) groups)) /\
  samples c' = samples c + Z.of_nat (length out) /\
  Forall (fun s => s_t_mono_ns s = t /\ s_t_wall_ms s = wall_clock t) out.
Proof.
  unfold poll, read. destruct (run_probes_spec (probes (aliases (reader c)) m) (reader c) []) as (reported & ->). cbn [app].
  set (readings := concat _). assert (Hf : forall r, probe_failures (note_missing r m) = probe_failures r)
    by (intros r; unfold note_missing; by destruct (temperatures m) as [[|]|]).
  split_and!.
  - rewrite map_map. transitivity (map (fun rv => rv) readings); [|by rewrite map_id]. apply map_ext. by intros [k v].
  - cbn [stats_failures]. by rewrite Hf.
  - cbn [samples]. by rewrite length_map.
  - apply Forall_forall. intros s (rv & -> & _)%list_elem_of_fmap. done.
Qed.

(** * Throttling *)

Lemma max_of_spec l : forall x, is_nan x = false -> Forall (fun y => is_nan y = false) l ->
  is_nan (max_of x l) = false /\ Forall (fun y => fleb y (max_of x l) = true) (x :: l) /\ max_of x l ∈ x :: l.
Proof.
  induction l as [|y l IH]; intros x Hx Hl.
  - cbn. split; [done|]. split; [apply Forall_singleton; by apply fleb_refl|left].
  - apply Forall_cons in Hl as [Hy Hl]. unfold max_of. cbn [fold_left]. fold (max_of (fmax x y) l).
    destruct (IH (fmax x y) ltac:(by apply fmax_nan) Hl) as (Hn & Hle & Hin). apply Forall_cons in Hle as [Hm Hle]. split; [done|]. split.
    + apply Forall_cons. split; [|apply Forall_cons; split; [|done]]; (eapply fleb_trans; [|exact Hm]); [by apply fmax_ge_l|by apply fmax_ge_r].
    + apply elem_of_cons in Hin as [->|Hin]; [|right; by right]. unfold fmax. destruct (fltb x y); [right; left|left].
Qed.

Lemma cooling_numeric d kp : cooling_percent d = Some (Ok kp) -> is_nan kp.2 = false.
Proof.
  unfold cooling_percent. destruct d as [[[kind cur] mx]|]; [|discriminate]. cbn.
  destruct (py_int cur) as [c|]; [|discriminate]. destruct (py_int mx) as [x|]; [|discriminate]. cbn. destruct (x <=? 0); [discriminate|].
  intros [= H]. apply res_bind_Ok in H as (cf & Hc & H). apply res_bind_Ok in H as (xf & Hx & H). apply res_bind_Ok in H as (p & Hp & [= <-]). cbn.
  assert (Hfin : forall z f, float_of_int z = Ok f -> finite f)
    by (intros z f H; unfold float_of_int in H; cbv zeta in H; destruct (is_finite (f_of_Z z)) eqn:E; [by injection H as <-|discriminate H]).
  pose proof (Hfin _ _ Hc) as Hcf. pose proof (Hfin _ _ Hx) as Hxf. assert (E0 : feqb xf f0 = false /\ p = fdiv_ieee (fmul (f_of_Z 100) cf) xf).
  { destruct xf as [s|s| |s e m']; cbn in Hp; [discriminate Hp|by injection Hp as <-..|injection Hp as <-; split; [by destruct s|done]]. }
  destruct E0 as [E0 ->].
  assert (Hxn : is_nan xf = false) by (unfold finite in Hxf; by destruct xf).
  destruct (is_finite (fmul (f_of_Z 100) cf)) eqn:Ef; [by apply fdiv_numeric|].
  destruct (fmul_ok (f_of_Z 100) cf eq_refl Hcf) as [Hn _]. unfold finite in Hxf. destruct (fmul (f_of_Z 100) cf) as [| | |]; try done. by destruct xf as [| | |].
Qed.

Definition device_name (kp : string * float) : string := str_or (_sanitize kp.1) "unknown".

Lemma od_set_fresh {V : Type} (k : string) (v : V) d : k ∉ od_keys d -> od_set k v d = d ++ [(k, v)].
Proof.
  induction d as [|[k' v'] d IH]; [done|]. cbn. rewrite not_elem_of_cons. intros [Hne Hd]. rewrite decide_False by done. by rewrite IH.
Qed.

Lemma devices_distinct l : forall per_device by_class,
  NoDup (od_keys per_device ++ map device_name l) ->
  (fold_left add_device l (per_device, by_class)).1 = per_device ++ map (fun kp => (device_name kp, kp.2)) l.
Proof.
  induction l as [|[kind p] l IH]; intros per_device by_class H; [cbn; by rewrite app_nil_r|].
  cbn [fold_left add_device map]. cbn [map] in H. apply NoDup_app in H as (H1 & H2 & H3). apply NoDup_cons in H3 as [H3 H4].
  assert (Hk : device_name (kind, p) ∉ od_keys per_device) by (intros Hin; destruct (H2 _ Hin); left).
  fold (device_name (kind, p)). rewrite od_set_fresh by done. rewrite IH; [by rewrite <- app_assoc|].
  unfold od_keys. rewrite fmap_app. cbn [fmap list_fmap fst]. rewrite <- app_assoc. cbn [app]. apply NoDup_app.
  split; [done|]. split; [|apply NoDup_cons; by split].
  intros x Hx [->|Hin]%elem_of_cons; [done|]. apply (H2 _ Hx). by right.
Qed.

(** When the cooling devices have names of their own, the overall figure is the
    worst of all of them. *)
Theorem throttle_is_the_worst_device (m : machine) (devices : list (string * float)) :
  res_map id (omap cooling_percent (cooling m)) = Ok devices -> devices <> [] -> NoDup (map device_name devices) ->
  ended (_read_throttle m) = None /\
  exists worst, ("host:throttle.percent", VFloat worst) ∈ yielded (_read_throttle m) /\
    worst ∈ devices.*2 /\ Forall (fun kp => fleb kp.2 worst = true) devices.
Proof.
  intros Hd Hne Hnd. unfold _read_throttle. rewrite Hd. cbn [gen_bind].
  pose proof (devices_distinct devices [] [] Hnd) as Hpd. destruct (fold_left add_device devices ([], [])) as [per_device by_class]. cbn [fst app] in Hpd. subst per_device.
  split; [done|]. assert (Hnum : Forall (fun y => is_nan y = false) devices.*2).
  { clear -Hd. revert devices Hd. induction (cooling m) as [|d l IH]; intros devices; cbn; [by intros [= <-]; constructor|].
    destruct (cooling_percent d) as [r|] eqn:E; [|apply IH]. cbn. intros H. apply res_bind_Ok in H as (kp & Hr & H).
    apply res_bind_Ok in H as (rest & Hrest & [= <-]). cbn. apply Forall_cons. split; [|by apply IH]. eapply cooling_numeric. by rewrite E, <- Hr. }
  assert (Hm : (map (fun kp => (device_name kp, kp.2)) devices).*2 = devices.*2).
  { clear. induction devices as [|kp l IH]; [done|]. cbn. by rewrite IH. }
  rewrite Hm. destruct devices as [|[k x] l]; [done|]. cbn [fmap list_fmap snd] in *. apply Forall_cons in Hnum as [Hx Hl].
  destruct (max_of_spec l.*2 x Hx Hl) as (_ & Hle & Hin). exists (max_of x l.*2). split; [|split; [done|]].
  - cbn [yielded yields]. apply elem_of_app. right. apply elem_of_app. right. left.
  - apply Forall_cons in Hle as [H1 H2]. apply Forall_cons. split; [done|]. by apply Forall_fmap in H2.
Qed.

(** * Temperatures *)

Lemma char_in_app c a b : char_in c (a +:+ b) = char_in c a || char_in c b.
Proof. induction a as [|d a IH]; [done|]. by rewrite str_cons_app, !char_in_cons, IH, orb_assoc. Qed.

Lemma sensor_has_dot chip i label : char_in "." (sensor_name chip i label) = true.
Proof. unfold sensor_name. rewrite !char_in_app. by rewrite orb_true_r. Qed.

Lemma alias_no_dot s : _TEMPERATURE_ALIAS_RE s = true -> char_in "." s = false.
Proof.
  unfold _TEMPERATURE_ALIAS_RE, alias_re. assert (H : forallb is_alias_char (to_chars s) = true -> char_in "." s = false).
  { induction s as [|c s IH]; [done|]. unfold to_chars in *. cbn [String.list_ascii_of_string forallb]. intros [Hc Hs]%andb_true_iff. rewrite char_in_cons, (IH Hs), orb_false_r.
    apply Ascii.eqb_neq. intros <-. discriminate Hc. }
  revert H. destruct (to_chars s) as [|c l]; [discriminate|]. auto.
Qed.

Lemma found_ok chips : forall found : list (string * float), od_wf found -> Forall (fun kv => char_in "." kv.1 = true) found ->
  let found' := fold_left (fun found '(chip, entries) =>
    fold_left (fun found '(i, (label, current)) => od_set (sensor_name chip i label) current found) (imap (fun i e => (i, e)) entries) found) chips found in
  od_wf found' /\ Forall (fun kv => char_in "." kv.1 = true) found'.
Proof.
  assert (Hset : forall k (v : float) d, char_in "." k = true -> Forall (fun kv => char_in "." kv.1 = true) d -> Forall (fun kv => char_in "." kv.1 = true) (od_set k v d)).
  { intros k v d Hk. induction 1 as [|[k' v'] d Hk' Hd IH]; cbn; [by apply Forall_singleton|]. destruct (decide _); apply Forall_cons; (split; [exact Hk'|assumption]). }
  induction chips as [|[chip entries] chips IH]; intros found Hwf Hdot; [done|]. cbn [fold_left]. 
  assert (Hin : forall l : list (nat * (string * float)), forall found : list (string * float), od_wf found -> Forall (fun kv => char_in "." kv.1 = true) found ->
    od_wf (fold_left (fun found '(i, (label, current)) => od_set (sensor_name chip i label) current found) l found) /\
    Forall (fun kv => char_in "." kv.1 = true) (fold_left (fun found '(i, (label, current)) => od_set (sensor_name chip i label) current found) l found)).
  { induction l as [|[i [label v]] l IHl]; intros f Hf Hd; [done|]. cbn [fold_left]. apply IHl; [by apply od_set_wf|]. apply Hset; [apply sensor_has_dot|done]. }
  destruct (Hin (imap (fun i e => (i, e)) entries) found Hwf Hdot) as [H1 H2]. by apply IH.
Qed.

Lemma str_app_inj (p a b : string) : p +:+ a = p +:+ b -> a = b.
Proof. induction p as [|c p IH]; [done|]. rewrite !str_cons_app. intros [= H]. auto. Qed.

Lemma aliases_checked l : temperature_aliases_are_well_formed l = Ok tt -> Forall (fun a => char_in "." a.1 = false) l.
Proof.
  induction l as [|[a s] l IH]; [constructor|]. cbn. destruct (_TEMPERATURE_ALIAS_RE a) eqn:E; [|discriminate]. cbn.
  destruct (_TEMPERATURE_SENSOR_RE s); [|discriminate]. intros H. apply Forall_cons. split; [by apply alias_no_dot|by apply IH].
Qed.

Lemma alias_readings_names found l x : x ∈ (alias_readings found l).*1 -> exists a, a ∈ l /\ x = "host:temp." +:+ a.1.
Proof.
  induction l as [|[a sensor] l IH]; [by intros ?%elem_of_nil|]. cbn. destruct (od_get sensor found) as [v|].
  - cbn. intros [->|H]%elem_of_cons; [exists (a, sensor); split; [left|done]|]. destruct (IH H) as (b & Hb & ->). exists b. split; [by right|done].
  - intros H. destruct (IH H) as (b & Hb & ->). exists b. split; [by right|done].
Qed.

(** The sensors' own names and the aliases of the profile never meet: within a
    poll no temperature is emitted under two readings of one name. *)
Theorem temperature_names_are_unique (temps : list (string * string)) (m : machine) :
  temperature_aliases_are_well_formed temps = Ok tt -> NoDup temps.*1 -> NoDup (yielded (_read_temperatures temps m)).*1.
Proof.
  intros Hal Hnd. pose proof (aliases_checked _ Hal) as Hdot. unfold _read_temperatures.
  destruct (temperatures m) as [[chips|e]|]; cbn [gen_bind yielded yields]; [|constructor|constructor].
  destruct (found_ok chips [] ltac:(constructor) ltac:(constructor)) as [Hwf Hfd]. fold (found_sensors chips) in Hwf, Hfd.
  set (found := found_sensors chips) in *. clearbody found. rewrite fmap_app. apply NoDup_app. split_and!.
  - clear -Hwf. unfold od_wf, od_keys in Hwf. assert (Hk : (map (fun '(sensor, v) => f_reading ("host:temp." +:+ sensor) v) found).*1 = (fun k => "host:temp." +:+ k) <$> found.*1)
      by (clear; induction found as [|[k v] l IH]; [done|]; cbn; by rewrite IH).
    rewrite Hk. apply NoDup_fmap_2; [|done]. intros a b. apply str_app_inj.
  - intros x (kv & -> & Hin)%list_elem_of_fmap (a & Ha & Heq)%alias_readings_names.
    apply list_elem_of_fmap in Hin as ([sensor v] & -> & Hin). cbn in Heq. apply str_app_inj in Heq as ->.
    pose proof (proj1 (Forall_forall _ _) Hdot _ Ha) as H1. pose proof (proj1 (Forall_forall _ _) Hfd _ Hin) as H2. cbn [fst] in H1, H2. congruence.
  - clear -Hnd. induction temps as [|[a sensor] l IH]; [constructor|]. apply NoDup_cons in Hnd as [Ha Hnd]. cbn. destruct (od_get sensor found) as [v|]; [|by apply IH].
    cbn. apply NoDup_cons. split; [|by apply IH]. intros (b & Hb & Heq)%alias_readings_names. apply str_app_inj in Heq as ->.
    apply Ha, list_elem_of_fmap. by exists b.
Qed.

(** * On a board *)

Module Sbc.
Definition down {A : Type} : res A := raise OSError "unavailable".
Definition quiet : machine := mkMachine down down down [] None None [] down down down down down down.
Definition with_cooling (l : list (option (string * string * string))) : machine :=
  mkMachine down down down [] None None l down down down down down down.
Definition chrony : string :=
  "Reference ID    : 50505330 (PPS0)
Stratum         : 1
System time     : 0.000000013 seconds slow of NTP time
Root dispersion : 0.000017 seconds
".
Definition board : machine :=
  mkMachine (Ok (f_of_Z 12)) (Ok [f_of_Z 10; f_of_Z 14]) (Ok None) [Some ("0 1 2 3
", "1800000
"); None; Some ("4 5
", "600000
")] None
    (Some (Ok [("soc_thermal", [("", f_of_Z 61)]); ("acpitz", [("", f_of_Z 40); ("Board 1", f_of_Z 41)])]))
    [Some ("cpufreq-cpu0", "2", "8"); Some ("devfreq-dmc", "4", "8")] down down down down down (Ok chrony).
End Sbc.

(** A board whose memory, disk and network cannot be read still gives the rest. *)
Example a_poll :
  let '(c, out) := poll (mkHostCollector (reader_init [("cpu", "soc_thermal.0"); ("gpu", "gpu_thermal.0")] None) 0 0 0) Sbc.board 5 (fun _ => f0) in
  stats_failures c = 3 /\ _reported_failures (reader c) = ["mem"; "disk"; "net"; "temp.gpu"] /\
  map s_source_ref out =
    ["host:cpu.percent"; "host:cpu.percent.0"; "host:cpu.percent.1"; "host:cpu.freq_mhz.cpu0"; "host:cpu.freq_mhz.cpu4"; "host:cpu.freq_mhz.max";
     "host:cpu.freq_mhz.min"; "host:temp.soc_thermal.0"; "host:temp.acpitz.0"; "host:temp.acpitz.board_1"; "host:temp.cpu";
     "host:throttle.cpufreq_cpu0.percent"; "host:throttle.devfreq_dmc.percent"; "host:throttle.cpu.percent"; "host:throttle.memory.percent";
     "host:throttle.percent"; "host:clock_offset_s"; "host:clock_source"; "host:clock_stratum"; "host:clock_root_dispersion_s"] /\
  parse_chronyc_tracking Sbc.chrony = Ok [("host:clock_offset_s", VFloat (lit (-13) 1000000000)); ("host:clock_source", VStr "PPS0");
    ("host:clock_stratum", VInt 1); ("host:clock_root_dispersion_s", VFloat (lit 17 1000000))].
Proof. vm_compute. split_and!; reflexivity. Qed.

Lemma throttle_is_the_worst_device_witness :
  exists worst, ("host:throttle.percent", VFloat worst) ∈ yielded (_read_throttle Sbc.board) /\ worst ∈ [f_of_Z 25; f_of_Z 50].
Proof.
  destruct (throttle_is_the_worst_device Sbc.board [("cpufreq-cpu0", f_of_Z 25); ("devfreq-dmc", f_of_Z 50)]) as (_ & worst & H & Hin & _).
  - vm_compute. reflexivity.
  - discriminate.
  - apply (bool_decide_unpack _). vm_compute. exact I.
  - by exists worst.
Defined.

Lemma temperature_names_are_unique_witness : NoDup (yielded (_read_temperatures [("cpu", "soc_thermal.0")] Sbc.board)).*1.
Proof. apply temperature_names_are_unique; [reflexivity|]. apply NoDup_singleton. Defined.

(** Cooling devices of one type share a name, and the last of them decides the
    overall figure: a machine with one processor fully clamped and one free
    reports a class at its worst and an overall figure of zero. *)
Example overall_throttle_forgets_a_device :
  yielded (_read_throttle (Sbc.with_cooling [Some ("Processor", "10", "10"); Some ("Processor", "0", "10")])) =
    [f_reading "host:throttle.processor.percent" f0; f_reading "host:throttle.cpu.percent" (f_of_Z 100); f_reading "host:throttle.percent" f0].
Proof. vm_compute. reflexivity. Qed.
