(* ===== verification/Pipeline.v ===== *)
(** The sample pipeline ([src/agent/pipeline.py]): mapper, application taps,
    report-by-exception, batcher.

    The two in-agent applications are behind the interface [TapApp]: the
    pipeline asks one which channels it subscribes to, hands it a sample and
    re-enters what it returns. [ingest] recurses through those derived
    samples; its fuel is the re-entry depth. *)

From S2P Require Import Prelude PyFloat Config Wire Catalog Rbe Batcher.

Local Open Scope Z_scope.

(** What the pipeline asks of an application. *)
Record TapApp := mkTapApp {
  app_state : Type;
  app_subscribed : app_state -> Z -> bool;
  app_observe : app_state -> Z -> Sample -> app_state * res (list Sample)
}.

Definition DERIVED_SOURCE_CLASS : string := "derived".
Definition _MAX_TRACKED_UNMAPPED_REFS : nat := 1024.
Definition _MAX_REPORTED_FAILURES : nat := 256.

(** A staged sample: source class, channel id, sample. *)
Abbreviation staged_t := (string * Z * Sample)%type.

Section Pipeline.
Context `{Codec} (fusion timing : TapApp).

Record TickBatch := mkTickBatch {
  tb_source_class : string;
  tb_payload : payload;
  tb_epoch_unix_ms : Z;
  tb_epoch_mono_ns : Z;
  tb_msg_id : string
}.

Record Pipeline := mkPipeline {
  pl_source_map : gmap string (Z * ChannelPolicy);
  pl_rbe : RbeFilter;
  pl_batcher : Batcher;
  pl_tick_ns : Z;
  pl_timing : option (app_state timing);
  pl_fusion : option (app_state fusion);
  pl_staged : list staged_t;
  pl_reported_unmapped : gset string;
  pl_reported_failures : gset string;
  pl_unmapped_refs : Z;
  pl_encode_failures : Z
}.

Definition pipeline_init (catalog : RuntimeCatalog) (registry_seq tick_ms : Z)
    (timing_app : option (app_state timing)) (fusion_app : option (app_state fusion))
    : res Pipeline :=
  b ← batcher_init registry_seq (policies_by_id catalog) tick_ms;
  Ok (mkPipeline (source_map catalog) rbe_init b (tick_ms * 1000000) timing_app fusion_app
        [] ∅ ∅ 0 0).

Definition set_rbe (p : Pipeline) (r : RbeFilter) : Pipeline :=
  mkPipeline (pl_source_map p) r (pl_batcher p) (pl_tick_ns p) (pl_timing p) (pl_fusion p)
    (pl_staged p) (pl_reported_unmapped p) (pl_reported_failures p) (pl_unmapped_refs p)
    (pl_encode_failures p).
Definition set_batcher (p : Pipeline) (b : Batcher) : Pipeline :=
  mkPipeline (pl_source_map p) (pl_rbe p) b (pl_tick_ns p) (pl_timing p) (pl_fusion p)
    (pl_staged p) (pl_reported_unmapped p) (pl_reported_failures p) (pl_unmapped_refs p)
    (pl_encode_failures p).
Definition set_timing (p : Pipeline) (a : app_state timing) : Pipeline :=
  mkPipeline (pl_source_map p) (pl_rbe p) (pl_batcher p) (pl_tick_ns p) (Some a) (pl_fusion p)
    (pl_staged p) (pl_reported_unmapped p) (pl_reported_failures p) (pl_unmapped_refs p)
    (pl_encode_failures p).
Definition set_fusion (p : Pipeline) (a : app_state fusion) : Pipeline :=
  mkPipeline (pl_source_map p) (pl_rbe p) (pl_batcher p) (pl_tick_ns p) (pl_timing p) (Some a)
    (pl_staged p) (pl_reported_unmapped p) (pl_reported_failures p) (pl_unmapped_refs p)
    (pl_encode_failures p).
Definition set_staged (p : Pipeline) (l : list staged_t) : Pipeline :=
  mkPipeline (pl_source_map p) (pl_rbe p) (pl_batcher p) (pl_tick_ns p) (pl_timing p) (pl_fusion p)
    l (pl_reported_unmapped p) (pl_reported_failures p) (pl_unmapped_refs p)
    (pl_encode_failures p).

(** Log a failure once, remembering at most 256 keys. *)
Definition _note_failure (p : Pipeline) (key : string) : Pipeline :=
  if decide (key ∈ pl_reported_failures p) then p
  else if decide (_MAX_REPORTED_FAILURES <= size (pl_reported_failures p))%nat then p
  else mkPipeline (pl_source_map p) (pl_rbe p) (pl_batcher p) (pl_tick_ns p) (pl_timing p)
         (pl_fusion p) (pl_staged p) (pl_reported_unmapped p)
         ({[key]} ∪ pl_reported_failures p) (pl_unmapped_refs p) (pl_encode_failures p).

Definition note_unmapped (p : Pipeline) (ref : string) : Pipeline :=
  let seen := pl_reported_unmapped p in
  let seen' :=
    if bool_decide (ref ∉ seen) && bool_decide (size seen < _MAX_TRACKED_UNMAPPED_REFS)%nat
    then {[ref]} ∪ seen else seen in
  mkPipeline (pl_source_map p) (pl_rbe p) (pl_batcher p) (pl_tick_ns p) (pl_timing p) (pl_fusion p)
    (pl_staged p) seen' (pl_reported_failures p) (pl_unmapped_refs p + 1) (pl_encode_failures p).

Definition note_encode_failure (p : Pipeline) : Pipeline :=
  mkPipeline (pl_source_map p) (pl_rbe p) (pl_batcher p) (pl_tick_ns p) (pl_timing p) (pl_fusion p)
    (pl_staged p) (pl_reported_unmapped p) (pl_reported_failures p) (pl_unmapped_refs p)
    (pl_encode_failures p + 1).

(** * Ingest *)

(** Thread a pipeline through a list of derived samples; an exception stops
    the loop, [None] is the fuel running out. *)
Fixpoint each (f : Pipeline -> Sample -> option (Pipeline * res unit)) (p : Pipeline)
    (l : list Sample) : option (Pipeline * res unit) :=
  match l with
  | [] => Some (p, Ok tt)
  | s :: l =>
      match f p s with
      | Some (p, Ok _) => each f p l
      | other => other
      end
  end.

(** The last stage: RBE, then staging. A [TypeError] costs the sample. *)
Definition filter_and_stage (p : Pipeline) (source_class : string) (channel_id : Z)
    (policy : ChannelPolicy) (sample : Sample) : Pipeline * res unit :=
  let '(rbe, keep) := accept (pl_rbe p) channel_id sample (pol_rbe policy) in
  let p := set_rbe p rbe in
  match keep with
  | Ok true => (set_staged p (pl_staged p ++ [(source_class, channel_id, sample)]), Ok tt)
  | Ok false => (p, Ok tt)
  | Raise e =>
      match exn_kind e with
      | TypeError => (_note_failure p ("rbe:" +:+ pol_name policy), Ok tt)
      | _ => (p, Raise e)
      end
  end.

Definition tap_fusion (p : Pipeline) (channel_id : Z) (sample : Sample)
    : Pipeline * res (list Sample) :=
  match pl_fusion p with
  | Some a =>
      if app_subscribed fusion a channel_id then
        let '(a, out) := app_observe fusion a channel_id sample in (set_fusion p a, out)
      else (p, Ok [])
  | None => (p, Ok [])
  end.

Definition tap_timing (p : Pipeline) (channel_id : Z) (sample : Sample)
    : Pipeline * res (list Sample) :=
  match pl_timing p with
  | Some a =>
      if app_subscribed timing a channel_id then
        let '(a, out) := app_observe timing a channel_id sample in (set_timing p a, out)
      else (p, Ok [])
  | None => (p, Ok [])
  end.

Fixpoint ingest (fuel : nat) (p : Pipeline) (source_class : string) (sample : Sample)
    : option (Pipeline * res unit) :=
  match fuel with
  | O => None
  | S fuel =>
      match pl_source_map p !! s_source_ref sample with
      | None => Some (note_unmapped p (s_source_ref sample), Ok tt)
      | Some (channel_id, policy) =>
          let reenter := each (fun p s => ingest fuel p DERIVED_SOURCE_CLASS s) in
          let tap (t : Pipeline -> Z -> Sample -> Pipeline * res (list Sample)) p :=
            match t p channel_id sample with
            | (p, Ok derived) => reenter p derived
            | (p, Raise e) => Some (p, Raise e)
            end in
          match tap tap_fusion p with
          | Some (p, Ok _) =>
              match tap tap_timing p with
              | Some (p, Ok _) => Some (filter_and_stage p source_class channel_id policy sample)
              | other => other
              end
          | other => other
          end
      end
  end.

(** * Flush *)

Definition staged_time (s : staged_t) : Z := s_t_mono_ns s.2.

(** The samples of the window that opens at [epoch], and the rest. *)
Fixpoint take_window (tick_ns epoch : Z) (l : list staged_t) : list staged_t * list staged_t :=
  match l with
  | s :: r =>
      if staged_time s - epoch <? tick_ns
      then let '(w, rest) := take_window tick_ns epoch r in (s :: w, rest)
      else ([], l)
  | [] => ([], [])
  end.

Fixpoint add_all (b : Batcher) (l : list staged_t) : Batcher * res unit :=
  match l with
  | [] => (b, Ok tt)
  | (source_class, channel_id, sample) :: l =>
      match Batcher.add b source_class channel_id sample with
      | (b, Ok _) => add_all b l
      | (b, Raise e) => (b, Raise e)
      end
  end.

Definition msg_id (source_class : string) (epoch_unix_ms : Z) : string :=
  source_class +:+ ":" +:+ pretty epoch_unix_ms.

Definition tick_batch (epoch_unix_ms epoch_mono_ns : Z) (out : string * payload) : TickBatch :=
  mkTickBatch out.1 out.2 epoch_unix_ms epoch_mono_ns (msg_id out.1 epoch_unix_ms).

(** The [while] loop: one window per turn; [fuel] bounds the turns and the
    number of staged samples is enough, since a window is never empty. *)
Fixpoint flush_windows (fuel : nat) (wall_clock : Z -> float) (p : Pipeline)
    (staged : list staged_t) (batches : list TickBatch) : Pipeline * res (list TickBatch) :=
  match fuel, staged with
  | _, [] => (p, Ok batches)
  | O, _ => (p, Ok batches)
  | S fuel, first :: _ =>
      let epoch_mono_ns := staged_time first in
      match f_round (wall_clock epoch_mono_ns) with
      | Raise e => (p, Raise e)
      | Ok epoch_unix_ms =>
          let '(window, rest) := take_window (pl_tick_ns p) epoch_mono_ns staged in
          match add_all (pl_batcher p) window with
          | (b, Raise e) => (set_batcher p b, Raise e)
          | (b, Ok _) =>
              let '(b, emitted) := tick b epoch_unix_ms epoch_mono_ns in
              let p := set_batcher p b in
              match emitted with
              | Ok emitted =>
                  flush_windows fuel wall_clock p rest
                    (batches ++ map (tick_batch epoch_unix_ms epoch_mono_ns) emitted)
              | Raise e =>
                  match exn_kind e with
                  | TypeError | ValueError =>
                      flush_windows fuel wall_clock
                        (note_encode_failure (_note_failure p ("encode:" +:+ exn_msg e))) rest batches
                  | _ => (p, Raise e)
                  end
              end
          end
      end
  end.

Definition staged_leb (a b : staged_t) : bool := staged_time a <=? staged_time b.

Definition flush (wall_clock : Z -> float) (p : Pipeline) : Pipeline * res (list TickBatch) :=
  let staged := pl_staged p in
  let p := set_staged p [] in
  match staged with
  | [] => (p, Ok [])
  | _ => flush_windows (length staged) wall_clock p (sort_by staged_leb staged) []
  end.

(** * Windows *)

Lemma take_window_app tick epoch l w rest :
  take_window tick epoch l = (w, rest) -> l = w ++ rest.
Proof.
  revert w rest; induction l as [|s r IH]; intros w rest; simpl; [by intros [= <- <-]|].
  destruct (_ <? _); [|by intros [= <- <-]].
  destruct (take_window tick epoch r) as [w' rest']. intros [= <- <-]; simpl; f_equal; auto.
Qed.

Lemma take_window_in tick epoch l w rest :
  take_window tick epoch l = (w, rest) -> Forall (fun s => staged_time s - epoch < tick) w.
Proof.
  revert w rest; induction l as [|s r IH]; intros w rest; simpl; [intros [= <- <-]; constructor|].
  destruct (Z.ltb_spec (staged_time s - epoch) tick); [|intros [= <- <-]; constructor].
  destruct (take_window tick epoch r) as [w' rest'] eqn:E. intros [= <- <-]; constructor; eauto.
Qed.

Lemma take_window_head tick l first r w rest :
  0 < tick -> l = first :: r -> take_window tick (staged_time first) l = (w, rest) ->
  exists w', w = first :: w'.
Proof.
  intros Ht ->; simpl. destruct (Z.ltb_spec (staged_time first - staged_time first) tick); [|lia].
  destruct (take_window _ _ r); intros [= <- <-]; eauto.
Qed.

(** * What the batcher holds *)

Definition tag (entry : string * list (Z * Sample)) : list staged_t :=
  map (fun it => (entry.1, it.1, it.2)) entry.2.
Definition flat (pending : list (string * list (Z * Sample))) : list staged_t :=
  concat (map tag pending).

Lemma flat_append pending k x :
  flat (append_pending pending k x) ≡ₚ flat pending ++ [(k, x.1, x.2)].
Proof.
  unfold append_pending, flat; induction pending as [|[k' l] r IH]; simpl; [done|].
  case_decide as Hk; simpl.
  - subst. unfold tag at 1; simpl. rewrite map_app; simpl.
    fold (tag (k', l)). by rewrite <- !app_assoc, (Permutation_app_comm [_]).
  - by rewrite IH, app_assoc.
Qed.

(** The batcher of a pipeline is ready when it knows every channel id the
    catalog maps and holds nothing over from an earlier tick. *)
Definition batcher_ready (sm : gmap string (Z * ChannelPolicy)) (tick_ns : Z) (b : Batcher) : Prop :=
  bt_pending b = [] /\ bt_tick_ns b = tick_ns /\
  forall ref id pol, sm !! ref = Some (id, pol) -> bt_policies b !! id = Some pol.

Definition known (b : Batcher) (s : staged_t) : Prop := is_Some (bt_policies b !! s.1.2).

Lemma add_all_known b l :
  Forall (known b) l ->
  exists pend, add_all b l = (set_pending b pend, Ok tt) /\ flat pend ≡ₚ flat (bt_pending b) ++ l.
Proof.
  revert b; induction l as [|[[c id] s] l IH]; intros b; simpl.
  - intros _; exists (bt_pending b); split; [by destruct b | by rewrite app_nil_r].
  - intros ([pol Hpol] & Hl)%Forall_cons; unfold Batcher.add; simpl in Hpol; rewrite Hpol.
    edestruct IH as (pend & Hadd & Hperm); [|exists pend; split; [exact Hadd|]].
    { eapply Forall_impl; [exact Hl|]; done. }
    rewrite Hperm; simpl. rewrite flat_append; simpl. by rewrite <- app_assoc.
Qed.

(** * What a flush emits *)

Context `{!CodecLaws}.

Definition wire_samples (b : TickBatch) : list PbSample :=
  match parse_batch (tb_payload b) with Some m => b_samples m | None => [] end.

Definition wire_count (l : list TickBatch) : nat := length (concat (map wire_samples l)).

(** A batch carries a staged sample: same class, and one of the wire samples
    a consumer parses out of it is that sample's. *)
Definition carries (policies : gmap Z ChannelPolicy) (tick_ns : Z) (b : TickBatch) (s : staged_t) : Prop :=
  tb_source_class b = s.1.1 /\
  exists w, w ∈ wire_samples b /\
    wire_of policies tick_ns (tb_epoch_mono_ns b) (s.1.2, s.2) w.

Lemma wire_count_app l l' : wire_count (l ++ l') = (wire_count l + wire_count l')%nat.
Proof. unfold wire_count; by rewrite map_app, concat_app, length_app. Qed.

Lemma Forall2_elem_l {A B : Type} (P : A -> B -> Prop) l k x :
  Forall2 P l k -> x ∈ l -> exists y, y ∈ k /\ P x y.
Proof.
  intros HF Hx; apply list_elem_of_lookup in Hx as [i Hi].
  destruct (Forall2_lookup_l _ _ _ _ _ HF Hi) as (y & Hy & HP).
  exists y; split; [by eapply list_elem_of_lookup_2 | done].
Qed.

Lemma tick_emits b unix mono emitted :
  (tick b unix mono).2 = Ok emitted ->
  let batches := map (tick_batch unix mono) emitted in
  wire_count batches = length (flat (bt_pending b)) /\
  forall s, s ∈ flat (bt_pending b) ->
    exists t, t ∈ batches /\ carries (bt_policies b) (bt_tick_ns b) t s.
Proof.
  intros Htick%tick_emitted; simpl; split.
  - unfold wire_count, flat; rewrite map_map.
    induction Htick as [|entry out pend em (m & Hm & Hb) _ IH]; simpl; [done|].
    rewrite !length_app, IH; f_equal. unfold wire_samples; simpl; rewrite Hm.
    destruct Hb as (_ & _ & _ & _ & _ & HF); simpl in HF. rewrite <- (Forall2_length _ _ _ HF).
    unfold tag; by rewrite length_map.
  - intros [[c id] s] Hs. unfold flat in Hs.
    apply list_elem_of_In, in_concat in Hs as (l & Hl & Hs).
    apply in_map_iff in Hl as (entry & <- & Hentry).
    apply in_map_iff in Hs as ([id' s'] & [= <- <- <-] & Hit).
    apply list_elem_of_In in Hentry, Hit.
    destruct (Forall2_elem_l _ _ _ _ Htick Hentry) as (out & Hout & m & Hm & Hb).
    destruct Hb as (Hc & _ & _ & Hep & _ & HF); simpl in *.
    destruct (Forall2_elem_l _ _ _ _ HF Hit) as (w & Hw & Hwire).
    exists (tick_batch unix mono out); split; [by apply list_elem_of_fmap_2|].
    split; [done|]. exists w; split; [|done]. unfold wire_samples; simpl; by rewrite Hm.
Qed.

(** The bookkeeping of a flush, as an invariant of its loop: the samples taken
    so far split into those some batch carries and those of failed windows. *)
Definition accounts (policies : gmap Z ChannelPolicy) (tick_ns failures failures' : Z)
    (staged : list staged_t) (batches : list TickBatch) : Prop :=
  exists sent lost,
    sent ++ lost ≡ₚ staged /\ wire_count batches = length sent /\
    (forall s, s ∈ sent -> exists t, t ∈ batches /\ carries policies tick_ns t s) /\
    failures <= failures' /\ (failures' = failures -> lost = []).

Lemma accounts_nil pol t f : accounts pol t f f [] [].
Proof.
  exists [], []; split_and!; [done | done | | lia | done].
  intros s Hs; by apply not_elem_of_nil in Hs.
Qed.

Lemma accounts_cons_sent pol t f f' w rest b1 b2 :
  wire_count b1 = length w ->
  (forall s, s ∈ w -> exists x, x ∈ b1 /\ carries pol t x s) ->
  accounts pol t f f' rest b2 -> accounts pol t f f' (w ++ rest) (b1 ++ b2).
Proof.
  intros Hc Hw (sent & lost & Hp & Hn & Hs & Hf & Hl).
  exists (w ++ sent), lost; split_and!; [by rewrite <- app_assoc, Hp | | | done | done].
  - rewrite wire_count_app, length_app; lia.
  - intros s [(x & Hx & ?)%Hw|(x & Hx & ?)%Hs]%elem_of_app; exists x; split; [|done| |done];
      apply elem_of_app; auto.
Qed.

Lemma accounts_cons_lost pol t f f' w rest b :
  accounts pol t (f + 1) f' rest b -> accounts pol t f f' (w ++ rest) b.
Proof.
  intros (sent & lost & Hp & Hn & Hs & Hf & Hl).
  exists sent, (w ++ lost); split_and!; [|done|done|lia|lia].
  by rewrite <- Hp, !app_assoc, (Permutation_app_comm sent w).
Qed.

Lemma note_failure_batcher p k :
  pl_batcher (_note_failure p k) = pl_batcher p /\
  pl_encode_failures (_note_failure p k) = pl_encode_failures p /\
  pl_tick_ns (_note_failure p k) = pl_tick_ns p.
Proof. unfold _note_failure; repeat case_decide; done. Qed.

Lemma set_pending_ready sm t b pend :
  batcher_ready sm t b -> batcher_ready sm t (set_pending (set_pending b pend) []).
Proof. intros (_ & ? & ?); done. Qed.

(** Every staged sample has an id the catalog gave it. *)
Definition mapped (sm : gmap string (Z * ChannelPolicy)) (s : staged_t) : Prop :=
  exists pol, sm !! s_source_ref s.2 = Some (s.1.2, pol).

Lemma mapped_known sm t b s : batcher_ready sm t b -> mapped sm s -> known b s.
Proof. intros (_ & _ & Hk) [pol Hp]; exists pol; eauto. Qed.

Lemma flush_windows_accounts sm fuel wall p staged batches p' out :
  batcher_ready sm (pl_tick_ns p) (pl_batcher p) -> 0 < pl_tick_ns p ->
  Forall (mapped sm) staged -> (length staged <= fuel)%nat ->
  flush_windows fuel wall p staged batches = (p', Ok out) ->
  exists more, out = batches ++ more /\
    accounts (bt_policies (pl_batcher p)) (pl_tick_ns p) (pl_encode_failures p)
      (pl_encode_failures p') staged more.
Proof.
  revert p staged batches; induction fuel as [|fuel IH]; intros p staged batches Hb Ht Hm Hlen.
  { destruct staged; simpl in *; [|lia]. intros [= <- <-].
    exists []; split; [by rewrite app_nil_r | apply accounts_nil]. }
  destruct staged as [|first r] eqn:Estaged.
  { simpl; intros [= <- <-]. exists []; split; [by rewrite app_nil_r | apply accounts_nil]. }
  cbn [flush_windows]. rewrite <- Estaged in *.
  destruct (f_round _) as [unix|e]; [|discriminate].
  destruct (take_window _ _ staged) as [w rest] eqn:Ew.
  pose proof (take_window_app _ _ _ _ _ Ew) as Happ.
  destruct (take_window_head _ _ _ _ _ _ Ht Estaged Ew) as [w' Hw'].
  rewrite Happ in Hm; apply Forall_app in Hm as [Hmw Hmr].
  assert (Hlenr : (length rest <= fuel)%nat)
    by (rewrite Happ, Hw', length_app in Hlen; simpl in Hlen; lia).
  destruct (add_all_known (pl_batcher p) w) as (pend & -> & Hflat).
  { eapply Forall_impl; [exact Hmw|]; intros s; by apply (mapped_known sm (pl_tick_ns p)). }
  rewrite (proj1 Hb) in Hflat; simpl in Hflat.
  destruct (tick (set_pending (pl_batcher p) pend) unix (staged_time first)) as [b em] eqn:Etick.
  assert (b = set_pending (set_pending (pl_batcher p) pend) []) as -> by (by injection Etick).
  pose proof (set_pending_ready _ _ _ pend Hb) as Hb'.
  destruct em as [em|e].
  - intros Hrest. eapply IH in Hrest as (more & -> & Hacc); [|exact Hb'|done|done|done].
    eexists; split; [by rewrite <- app_assoc|]. rewrite Happ.
    destruct (tick_emits (set_pending (pl_batcher p) pend) unix (staged_time first) em) as [Hc Hs];
      [by rewrite Etick|]. simpl in Hc, Hs.
    apply accounts_cons_sent; [by rewrite Hc, Hflat | | exact Hacc].
    intros s Hin. destruct (Hs s) as (x & Hx & Hcar); [by rewrite Hflat|].
    exists x; split; [done|]. by rewrite (proj1 (proj2 Hb)) in Hcar.
  - destruct (note_failure_batcher (set_batcher p (set_pending (set_pending (pl_batcher p) pend) []))
                ("encode:" +:+ exn_msg e)) as (Hnb & Hnf & Hnt).
    intros Hrest.
    assert (Hrest' : flush_windows fuel wall
              (note_encode_failure (_note_failure (set_batcher p
                 (set_pending (set_pending (pl_batcher p) pend) [])) ("encode:" +:+ exn_msg e)))
              rest batches = (p', Ok out)) by (by destruct (exn_kind e)).
    eapply IH in Hrest' as (more & -> & Hacc); simpl in *;
      [|by rewrite Hnb, Hnt | by rewrite Hnt | done | done].
    exists more; split; [done|]. rewrite Happ. apply accounts_cons_lost.
    by rewrite Hnb, Hnt, Hnf in Hacc.
Qed.

(** * The pipeline invariant *)

Record pipeline_ready (sm : gmap string (Z * ChannelPolicy)) (p : Pipeline) : Prop := {
  ready_map : pl_source_map p = sm;
  ready_tick : 0 < pl_tick_ns p;
  ready_batcher : batcher_ready sm (pl_tick_ns p) (pl_batcher p);
  ready_staged : Forall (mapped sm) (pl_staged p)
}.

Lemma pipeline_init_ready c seq tick_ms ta fa p :
  catalog_wf c -> pipeline_init c seq tick_ms ta fa = Ok p -> pipeline_ready (source_map c) p.
Proof.
  intros Hwf (b & Hb & [= <-])%res_bind_Ok. unfold batcher_init in Hb.
  destruct ((10 <=? tick_ms) && (tick_ms <=? 50)) eqn:Ht; [|discriminate].
  injection Hb as <-. split; simpl; [done | lia | | constructor].
  split_and!; simpl; [done | done|]. intros ref id pol Hr; apply (wf_policy _ Hwf _ _ _ Hr).
Qed.

(** Changing only the RBE filter, the applications or the reports keeps it. *)
Lemma pipeline_ready_same sm p q :
  pl_source_map q = pl_source_map p -> pl_tick_ns q = pl_tick_ns p ->
  pl_batcher q = pl_batcher p -> pl_staged q = pl_staged p ->
  pipeline_ready sm p -> pipeline_ready sm q.
Proof. intros H1 H2 H3 H4 [? ? ? ?]; split; congruence. Qed.

Lemma note_failure_same p k :
  pl_source_map (_note_failure p k) = pl_source_map p /\
  pl_tick_ns (_note_failure p k) = pl_tick_ns p /\
  pl_batcher (_note_failure p k) = pl_batcher p /\
  pl_staged (_note_failure p k) = pl_staged p /\
  pl_timing (_note_failure p k) = pl_timing p /\ pl_fusion (_note_failure p k) = pl_fusion p.
Proof. unfold _note_failure; repeat case_decide; done. Qed.

Lemma tap_fusion_same p ch s :
  let q := (tap_fusion p ch s).1 in
  pl_source_map q = pl_source_map p /\ pl_tick_ns q = pl_tick_ns p /\
  pl_batcher q = pl_batcher p /\ pl_staged q = pl_staged p /\ pl_timing q = pl_timing p.
Proof. unfold tap_fusion; repeat case_match; done. Qed.

Lemma tap_timing_same p ch s :
  let q := (tap_timing p ch s).1 in
  pl_source_map q = pl_source_map p /\ pl_tick_ns q = pl_tick_ns p /\
  pl_batcher q = pl_batcher p /\ pl_staged q = pl_staged p /\ pl_fusion q = pl_fusion p.
Proof. unfold tap_timing; repeat case_match; done. Qed.

Lemma filter_and_stage_ready sm p c id pol s :
  sm !! s_source_ref s = Some (id, pol) -> pipeline_ready sm p ->
  pipeline_ready sm (filter_and_stage p c id pol s).1.
Proof.
  intros Hm [H1 H2 H3 H4]; unfold filter_and_stage.
  destruct (accept _ _ _ _) as [r [[]|e]]; simpl.
  - split; simpl; try done. apply Forall_app; split; [done|].
    constructor; [by exists pol | constructor].
  - by split.
  - destruct (note_failure_same (set_rbe p r) ("rbe:" +:+ pol_name pol)) as (? & ? & ? & ? & _ & _).
    assert (Hr : pipeline_ready sm (set_rbe p r)) by (by split).
    destruct (exn_kind e); simpl; try exact Hr. by apply (pipeline_ready_same sm (set_rbe p r)).
Qed.

Lemma each_ready sm (f : Pipeline -> Sample -> option (Pipeline * res unit)) l p p' r :
  (forall p s p' r, pipeline_ready sm p -> f p s = Some (p', r) -> pipeline_ready sm p') ->
  pipeline_ready sm p -> each f p l = Some (p', r) -> pipeline_ready sm p'.
Proof.
  intros Hf; revert p; induction l as [|s l IH]; intros p Hp; simpl; [by intros [= <- <-]|].
  destruct (f p s) as [[q [u|e]]|] eqn:Eq; [|intros [= <- <-]; eauto | discriminate].
  apply IH; eauto.
Qed.

Theorem ingest_ready (sm : gmap string (Z * ChannelPolicy)) (fuel : nat) (p p' : Pipeline)
    (source_class : string) (s : Sample) (r : res unit)
    (Hready : pipeline_ready sm p) (Hrun : ingest fuel p source_class s = Some (p', r)) :
  pipeline_ready sm p'.
Proof.
  revert p source_class s p' r Hready Hrun; induction fuel as [|fuel IH];
    intros p source_class s p' r Hp; cbn [ingest]; [discriminate|].
  assert (Hf : forall q s q' r, pipeline_ready sm q ->
             ingest fuel q DERIVED_SOURCE_CLASS s = Some (q', r) -> pipeline_ready sm q')
    by (intros q s1 q' r1 Hq Hr; exact (IH q _ s1 q' r1 Hq Hr)).
  destruct (pl_source_map p !! s_source_ref s) as [[id pol]|] eqn:Hm.
  2: { intros [= <- <-]. apply (pipeline_ready_same sm p); done. }
  rewrite (ready_map _ _ Hp) in Hm.
  pose proof (tap_fusion_same p id s) as (Ha & Hb & Hc & Hd & _).
  destruct (tap_fusion p id s) as [p1 [l1|e1]]; simpl in *.
  2: { intros [= <- <-]. apply (pipeline_ready_same sm p); done. }
  assert (Hp1 : pipeline_ready sm p1) by (by apply (pipeline_ready_same sm p)).
  destruct (each _ p1 l1) as [[p2 [u|e]]|] eqn:E1; [| |discriminate].
  2: { intros [= <- <-]. eapply each_ready; [exact Hf | exact Hp1 | exact E1]. }
  assert (Hp2 : pipeline_ready sm p2).
  { eapply each_ready; [exact Hf | exact Hp1 | exact E1]. }
  pose proof (tap_timing_same p2 id s) as (Ha' & Hb' & Hc' & Hd' & _).
  destruct (tap_timing p2 id s) as [p3 [l3|e3]]; simpl in *.
  2: { intros [= <- <-]. by apply (pipeline_ready_same sm p2). }
  assert (Hp3 : pipeline_ready sm p3) by (by apply (pipeline_ready_same sm p2)).
  destruct (each _ p3 l3) as [[p4 [u'|e]]|] eqn:E3; [| |discriminate].
  - assert (Hp4 : pipeline_ready sm p4)
      by (eapply each_ready; [exact Hf | exact Hp3 | exact E3]).
    intros [= Hfs]. pose proof (filter_and_stage_ready _ _ source_class _ _ _ Hm Hp4) as Hfin.
    by rewrite Hfs in Hfin.
  - intros [= <- <-]. eapply each_ready; [exact Hf | exact Hp3 | exact E3].
Qed.

(** * The flush theorems *)


(** The exceptions an encoding can raise. *)
Lemma encode_value_raises v pol e :
  _encode_value v pol = Raise e ->
  exn_kind e = TypeError \/ exn_kind e = ValueError \/ exn_kind e = OverflowError.
Proof.
  assert (Hfl : forall n e, num_float n = Raise e -> exn_kind e = OverflowError).
  { intros [z|x] e'; simpl; [|done]. unfold float_of_int; destruct (is_finite _); [done|].
    by intros [= <-]. }
  assert (Hint : forall x z e, int_guard x z = Raise e ->
                   exn_kind e = ValueError \/ exn_kind e = OverflowError).
  { intros [] z e'; simpl; try done; intros [= <-]; auto. }
  assert (Hpb : forall k z e, pb_int k z = Raise e -> exn_kind e = ValueError).
  { intros k z e'; unfold pb_int; destruct (pb_fits k z); [done|]. by intros [= <-]. }
  assert (Hwi : forall n e, wire_int n pol = Raise e ->
            exn_kind e = TypeError \/ exn_kind e = ValueError \/ exn_kind e = OverflowError).
  { intros n e'; unfold wire_int. destruct (ftruthy (pol_scale pol)) eqn:Hs.
    - destruct (num_sub n _) as [d|e1] eqn:E1; simpl.
      2: { intros [= <-]. destruct n; simpl in E1; [|done].
           destruct (float_of_int z) eqn:E2; [done|]. injection E1 as <-.
           right; right; apply (Hfl (NInt z)); done. }
      destruct (num_float d) as [x|e1] eqn:E2; simpl; [|intros [= <-]; eauto].
      destruct (fdiv x (pol_scale pol)) as [q|e1] eqn:E3; simpl.
      + intros [?|?]%Hint; auto.
      + unfold fdiv in E3; destruct (pol_scale pol); done.
    - destruct n as [z|x]; [done|]. destruct (is_integer x); [|intros [= <-]; auto].
      intros [?|?]%Hint; auto. }
  unfold _encode_value, needs, raise. destruct (pol_value_type pol); simpl.
  - intros [= <-]; auto.
  - destruct (numeric_value v) as [n|]; [|intros [= <-]; auto].
    destruct (num_float n) eqn:E; [done|]. intros [= <-]; eauto.
  - destruct (numeric_value v) as [n|]; [|intros [= <-]; auto].
    destruct (wire_int n pol) as [z|] eqn:E; simpl; [|intros [= <-]; eauto].
    destruct (pb_int sint64 z) eqn:E'; simpl; [done|]. intros [= <-]; eauto.
  - destruct v; try done; try (intros [= <-]; by auto);
      simpl; destruct (_ || _); try done; intros [= <-]; auto.
  - destruct v; try done; intros [= <-]; auto.
  - destruct (numeric_value v) as [n|]; [|intros [= <-]; auto].
    destruct (num_float n) eqn:E; [done|]. intros [= <-]; eauto.
  - destruct (numeric_value v) as [n|]; [|intros [= <-]; auto].
    destruct (wire_int n pol) as [z|] eqn:E; simpl; [|intros [= <-]; eauto].
    destruct (z <? 0); [intros [= <-]; auto|].
    destruct (pb_int uint64 z) eqn:E'; simpl; [done|]. intros [= <-]; eauto.
Qed.

Definition caught_or_overflow (e : exn) : Prop :=
  exn_kind e = TypeError \/ exn_kind e = ValueError \/ exn_kind e = OverflowError.

Lemma pb_int_raises k z e : pb_int k z = Raise e -> caught_or_overflow e.
Proof.
  unfold pb_int, caught_or_overflow; destruct (pb_fits k z); [done|]. intros [= <-]; auto.
Qed.

Lemma res_bind_raises {A B : Type} (r : res A) (k : A -> res B) e :
  (r ≫= k) = Raise e -> r = Raise e \/ exists a, r = Ok a /\ k a = Raise e.
Proof. destruct r as [a|e']; simpl; [eauto | intros [= <-]; by left]. Qed.

Lemma res_map_raises {A B : Type} (f : A -> res B) l e :
  res_map f l = Raise e -> exists a, a ∈ l /\ f a = Raise e.
Proof.
  induction l as [|a l IH]; simpl; [done|].
  intros [Ha|(b & _ & [(x & Hx & Hf)%IH|(bs & _ & [=])]%res_bind_raises)]%res_bind_raises.
  - exists a; split; [left | done].
  - exists x; split; [by right | done].
Qed.

Lemma tick_raises b unix mono e :
  Forall (known b) (flat (bt_pending b)) ->
  (tick b unix mono).2 = Raise e -> caught_or_overflow e.
Proof.
  intros Hk; simpl; intros [Hm|(bs & _ & [=])]%res_bind_raises.
  apply res_map_raises in Hm as (entry & Hin & He); unfold encode_class in He.
  apply res_bind_raises in He as [He|(? & _ & He)]; [by eapply pb_int_raises|].
  apply res_bind_raises in He as [He|(? & _ & He)]; [by eapply pb_int_raises|].
  apply res_bind_raises in He as [He|(? & _ & He)]; [by eapply pb_int_raises|].
  apply res_bind_raises in He as [He|(? & _ & [=])].
  apply res_map_raises in He as ([id s] & His & He); unfold encode_sample in He.
  destruct (negb _); [injection He as <-; unfold caught_or_overflow; auto|].
  apply res_bind_raises in He as [He|(? & _ & He)]; [by eapply pb_int_raises|].
  apply res_bind_raises in He as [He|(? & _ & He)]; [by eapply pb_int_raises|].
  assert (Hs : known b (entry.1, id, s)).
  { eapply (proj1 (Forall_forall _ _)); [exact Hk|]. unfold flat.
    apply list_elem_of_In, in_concat. exists (tag entry); split.
    - by apply in_map, list_elem_of_In.
    - unfold tag. apply in_map_iff; exists (id, s); split; [done | by apply list_elem_of_In]. }
  destruct Hs as [pol Hpol]; simpl in Hpol; rewrite Hpol in He.
  apply res_bind_raises in He as [He|(? & _ & [=])]. by apply encode_value_raises in He.
Qed.

Lemma flush_windows_raises sm fuel wall p staged batches p' e :
  batcher_ready sm (pl_tick_ns p) (pl_batcher p) -> Forall (mapped sm) staged ->
  flush_windows fuel wall p staged batches = (p', Raise e) ->
  exn_kind e = OverflowError \/ exists t, f_round (wall t) = Raise e.
Proof.
  revert p staged batches; induction fuel as [|fuel IH]; intros p staged batches Hb Hm.
  { by destruct staged. }
  destruct staged as [|first r] eqn:Estaged; [done|].
  cbn [flush_windows]. rewrite <- Estaged in *.
  destruct (f_round _) as [unix|e1] eqn:Er; [|intros [= <- <-]; eauto].
  destruct (take_window _ _ staged) as [w rest] eqn:Ew.
  rewrite (take_window_app _ _ _ _ _ Ew) in Hm; apply Forall_app in Hm as [Hmw Hmr].
  assert (Hkw : Forall (known (pl_batcher p)) w).
  { eapply Forall_impl; [exact Hmw|]; intros s; by apply (mapped_known sm (pl_tick_ns p)). }
  destruct (add_all_known _ _ Hkw) as (pend & -> & Hflat).
  rewrite (proj1 Hb) in Hflat; simpl in Hflat.
  pose proof (set_pending_ready _ _ _ pend Hb) as Hb'.
  destruct (tick (set_pending (pl_batcher p) pend) unix (staged_time first)) as [b em] eqn:Etick.
  assert (b = set_pending (set_pending (pl_batcher p) pend) []) as -> by (by injection Etick).
  destruct em as [em|e2]; [by apply IH|].
  assert (He2 : caught_or_overflow e2).
  { eapply tick_raises; [|by rewrite Etick]. simpl. rewrite Hflat. exact Hkw. }
  destruct (note_failure_batcher (set_batcher p (set_pending (set_pending (pl_batcher p) pend) []))
              ("encode:" +:+ exn_msg e2)) as (Hnb & Hnf & Hnt).
  destruct He2 as [He|[He|He]]; rewrite He; [apply IH | apply IH | intros [= <- <-]; by left];
    simpl; rewrite ?Hnb, ?Hnt; done.
Qed.

(** A mis-typed, out-of-range or negative value costs its window and no more:
    apart from a clock that does not map the epoch to a number, the only
    exception that leaves [flush] is an [OverflowError]. *)
Theorem flush_raises_only_overflow (sm : gmap string (Z * ChannelPolicy)) (wall_clock : Z -> float)
    (p p' : Pipeline) (e : exn)
    (Hready : pipeline_ready sm p) (Hflush : flush wall_clock p = (p', Raise e))
    (Hclock : forall t, is_ok (f_round (wall_clock t)) = true) :
  exn_kind e = OverflowError.
Proof.
  destruct Hready as [Hmap Ht Hb Hst]. unfold flush in Hflush.
  destruct (pl_staged p) as [|x l] eqn:Est; [done|]. rewrite <- Est in *.
  eapply flush_windows_raises in Hflush as [He|[t He]]; [done | | exact Hb |].
  - pose proof (Hclock t) as Hc; by rewrite He in Hc.
  - by rewrite sort_by_perm.
Qed.

(** And that one does leave it: an infinite reading on a scaled integer channel
    is not caught, so the exception reaches the pipeline thread and every
    other staged sample is gone. *)
Theorem flush_overflow_escapes (sm : gmap string (Z * ChannelPolicy)) (wall_clock : Z -> float)
    (p : Pipeline) (c : string) (id unix : Z) (s : Sample) (pol : ChannelPolicy) (neg : bool)
    (Hready : pipeline_ready sm p) (Hstaged : pl_staged p = [(c, id, s)])
    (Hmap : sm !! s_source_ref s = Some (id, pol))
    (Htype : pol_value_type pol = INT64 \/ pol_value_type pol = UINT)
    (Hscale : is_finite (pol_scale pol) = true /\ ftruthy (pol_scale pol) = true)
    (Hoffset : is_finite (pol_offset pol) = true)
    (Hvalue : s_value s = VFloat (S754_infinity neg))
    (Hunix : f_round (wall_clock (s_t_mono_ns s)) = Ok unix)
    (Hfits : pb_fits fixed64 unix = true /\ pb_fits fixed64 (s_t_mono_ns s) = true /\
             pb_fits uint32 id = true /\ pb_fits uint32 (bt_registry_seq (pl_batcher p)) = true) :
  exists p', flush wall_clock p =
    (p', Raise (Exn OverflowError "cannot convert float infinity to integer")) /\
    pl_staged p' = [].
Proof.
  destruct Hready as [_ Ht (Hpend & Htick & Hpol) _].
  destruct Hscale as [Hsf Hst], Hfits as (Hf1 & Hf2 & Hf3 & Hf4).
  assert (Hwire : wire_int (NFloat (S754_infinity neg)) pol =
                  Raise (Exn OverflowError "cannot convert float infinity to integer")).
  { unfold wire_int; rewrite Hst; simpl.
    destruct (pol_offset pol) as [| | |? ? ?]; try done; simpl;
      destruct (pol_scale pol) as [| | |? ? ?]; try done. }
  assert (Henc : _encode_value (s_value s) pol =
                 Raise (Exn OverflowError "cannot convert float infinity to integer")).
  { rewrite Hvalue; unfold _encode_value.
    destruct Htype as [-> | ->]; simpl; by rewrite Hwire. }
  assert (Hes : encode_sample (set_pending (pl_batcher p) [(c, [(id, s)])]) (s_t_mono_ns s) (id, s) =
                Raise (Exn OverflowError "cannot convert float infinity to integer")).
  { unfold encode_sample; rewrite Z.sub_diag; simpl.
    rewrite Htick, (Hpol _ _ _ Hmap), Henc.
    destruct (Z.ltb_spec 0 (pl_tick_ns p)); [|lia]. unfold pb_int; by rewrite Hf3. }
  assert (Hec : encode_class (set_pending (pl_batcher p) [(c, [(id, s)])]) unix (s_t_mono_ns s)
                  (c, [(id, s)]) =
                Raise (Exn OverflowError "cannot convert float infinity to integer")).
  { unfold encode_class, pb_int; cbn [bt_registry_seq set_pending].
    rewrite Hf1, Hf2, Hf4; cbn [mbind res_bind res_map snd]. by rewrite Hes. }
  unfold flush; rewrite Hstaged; simpl. unfold staged_time at 1; simpl. rewrite Hunix.
  unfold staged_time; simpl; rewrite Z.sub_diag.
  destruct (Z.ltb_spec 0 (pl_tick_ns p)); [|lia]; simpl.
  unfold Batcher.add at 1; rewrite (Hpol _ _ _ Hmap), Hpend; simpl.
  change (set_pending (pl_batcher p) (append_pending [] c (id, s)))
    with (set_pending (pl_batcher p) [(c, [(id, s)])]).
  rewrite Hec; simpl. eexists; split; reflexivity.
Qed.

(** * Taps run before the filter *)

Definition same_apps (p q : Pipeline) : Prop :=
  pl_source_map p = pl_source_map q /\ pl_timing p = pl_timing q /\ pl_fusion p = pl_fusion q.

Lemma same_apps_trans p q r : same_apps p q -> same_apps q r -> same_apps p r.
Proof. unfold same_apps; intuition congruence. Qed.
Lemma same_apps_sym p q : same_apps p q -> same_apps q p.
Proof. unfold same_apps; intuition congruence. Qed.

Lemma tap_fusion_apps p q ch s :
  same_apps p q ->
  same_apps (tap_fusion p ch s).1 (tap_fusion q ch s).1 /\
  (tap_fusion p ch s).2 = (tap_fusion q ch s).2.
Proof.
  intros (H1 & H2 & H3); unfold tap_fusion, same_apps; rewrite ?H1, ?H2, ?H3.
  breaks; intuition congruence.
Qed.

Lemma tap_timing_apps p q ch s :
  same_apps p q ->
  same_apps (tap_timing p ch s).1 (tap_timing q ch s).1 /\
  (tap_timing p ch s).2 = (tap_timing q ch s).2.
Proof.
  intros (H1 & H2 & H3); unfold tap_timing, same_apps; rewrite ?H1, ?H2, ?H3.
  breaks; intuition congruence.
Qed.

Lemma filter_and_stage_apps p c ch pol s : same_apps (filter_and_stage p c ch pol s).1 p.
Proof.
  unfold filter_and_stage. destruct (accept _ _ _ _) as [r [[]|e]]; simpl; try done.
  destruct (note_failure_same (set_rbe p r) ("rbe:" +:+ pol_name pol)) as (? & _ & _ & _ & ? & ?).
  by destruct (exn_kind e); simpl.
Qed.

Lemma each_apps (f : Pipeline -> Sample -> option (Pipeline * res unit)) l p q p' q' u v :
  (forall p q s p' q' u v, same_apps p q -> f p s = Some (p', Ok u) -> f q s = Some (q', Ok v) ->
     same_apps p' q') ->
  same_apps p q -> each f p l = Some (p', Ok u) -> each f q l = Some (q', Ok v) -> same_apps p' q'.
Proof.
  intros Hf; revert p q; induction l as [|s l IH]; intros p q Hpq; simpl.
  - by intros [= <- _] [= <- _].
  - destruct (f p s) as [[p1 [u1|]]|] eqn:E1; try done.
    destruct (f q s) as [[q1 [v1|]]|] eqn:E2; try done. apply IH; eauto.
Qed.

(** The timing and fusion applications see the same samples whatever the RBE
    filter withholds: their states after an ingest depend on their states
    before it, never on the filter, the batcher or what is staged. *)
Theorem taps_before_rbe (fuel : nat) (p q p' q' : Pipeline) (source_class : string) (s : Sample)
    (Hsame : same_apps p q)
    (Hp : ingest fuel p source_class s = Some (p', Ok tt))
    (Hq : ingest fuel q source_class s = Some (q', Ok tt)) :
  same_apps p' q'.
Proof.
  assert (Hgen : forall u v, ingest fuel p source_class s = Some (p', Ok u) ->
            ingest fuel q source_class s = Some (q', Ok v) -> same_apps p' q'); [|eauto].
  clear Hp Hq; revert p q p' q' source_class s Hsame.
  induction fuel as [|fuel IH]; intros p q p' q' c s Hpq u v; cbn [ingest]; [done|].
  rewrite (proj1 Hpq). destruct (pl_source_map q !! s_source_ref s) as [[id pol]|].
  2: { intros [= <- _] [= <- _]. by destruct Hpq as (? & ? & ?). }
  destruct (tap_fusion_apps p q id s Hpq) as [Hf1 Hf2].
  destruct (tap_fusion p id s) as [p1 l1], (tap_fusion q id s) as [q1 l1']; simpl in *; subst l1'.
  destruct l1 as [l1|]; [|done].
  destruct (each _ p1 l1) as [[p2 [u2|]]|] eqn:E1; try done.
  destruct (each _ q1 l1) as [[q2 [v2|]]|] eqn:E2; try done.
  assert (H2 : same_apps p2 q2) by (eapply each_apps; [|exact Hf1|exact E1|exact E2]; cbv beta; eauto).
  destruct (tap_timing_apps p2 q2 id s H2) as [Ht1 Ht2].
  destruct (tap_timing p2 id s) as [p3 l3], (tap_timing q2 id s) as [q3 l3']; simpl in *; subst l3'.
  destruct l3 as [l3|]; [|done].
  destruct (each _ p3 l3) as [[p4 [u4|]]|] eqn:E3; try done.
  destruct (each _ q3 l3) as [[q4 [v4|]]|] eqn:E4; try done.
  assert (H4 : same_apps p4 q4) by (eapply each_apps; [|exact Ht1|exact E3|exact E4]; cbv beta; eauto).
  intros [= Ep] [= Eq].
  pose proof (filter_and_stage_apps p4 c id pol s) as Hfp; rewrite Ep in Hfp.
  pose proof (filter_and_stage_apps q4 c id pol s) as Hfq; rewrite Eq in Hfq. simpl in *.
  eapply same_apps_trans; [exact Hfp|]. eapply same_apps_trans; [exact H4 | by apply same_apps_sym].
Qed.

(** * Re-entry terminates *)

(** What bounds the re-entry of derived samples: a rank on source references
    that an application's outputs decrease, whatever state it has reached. *)
Definition app_descends (app : TapApp) (Inv : app_state app -> Prop) (sm : gmap string (Z * ChannelPolicy))
    (rank : string -> nat) : Prop :=
  forall a ch s pol, Inv a -> sm !! s_source_ref s = Some (ch, pol) -> app_subscribed app a ch = true ->
    let r := app_observe app a ch s in
    Inv r.1 /\
    forall out, r.2 = Ok out ->
      Forall (fun d => (rank (s_source_ref d) < rank (s_source_ref s))%nat) out.

Definition opt_inv {A : Type} (P : A -> Prop) (o : option A) : Prop :=
  match o with Some a => P a | None => True end.

Section Rank.
Context (sm : gmap string (Z * ChannelPolicy)) (rank : string -> nat).
Context (Ifus : app_state fusion -> Prop) (Itim : app_state timing -> Prop).
Context (Hfus : app_descends fusion Ifus sm rank) (Htim : app_descends timing Itim sm rank).

Definition ranked (p : Pipeline) : Prop :=
  pl_source_map p = sm /\ opt_inv Ifus (pl_fusion p) /\ opt_inv Itim (pl_timing p).

Lemma ranked_same p q :
  ranked p -> pl_source_map q = pl_source_map p -> pl_timing q = pl_timing p ->
  pl_fusion q = pl_fusion p -> ranked q.
Proof. unfold ranked; intros (? & ? & ?) -> -> ->; auto. Qed.

Lemma tap_fusion_ranked p ch pol s :
  ranked p -> sm !! s_source_ref s = Some (ch, pol) ->
  ranked (tap_fusion p ch s).1 /\
  forall out, (tap_fusion p ch s).2 = Ok out ->
    Forall (fun d => (rank (s_source_ref d) < rank (s_source_ref s))%nat) out.
Proof.
  intros Hp Hm; pose proof Hp as (H1 & H2 & H3); unfold tap_fusion.
  destruct (pl_fusion p) as [a|] eqn:Ef; [|split; [done | by intros ? [= <-]]].
  destruct (app_subscribed _ a ch) eqn:Es; [|split; [done | by intros ? [= <-]]].
  destruct (Hfus a ch s pol H2 Hm Es) as [Hi Ho].
  destruct (app_observe fusion a ch s) as [a' r]; simpl in *. split; [|exact Ho].
  split_and!; simpl; [done | exact Hi | done].
Qed.

Lemma tap_timing_ranked p ch pol s :
  ranked p -> sm !! s_source_ref s = Some (ch, pol) ->
  ranked (tap_timing p ch s).1 /\
  forall out, (tap_timing p ch s).2 = Ok out ->
    Forall (fun d => (rank (s_source_ref d) < rank (s_source_ref s))%nat) out.
Proof.
  intros Hp Hm; pose proof Hp as (H1 & H2 & H3); unfold tap_timing.
  destruct (pl_timing p) as [a|] eqn:Ef; [|split; [done | by intros ? [= <-]]].
  destruct (app_subscribed _ a ch) eqn:Es; [|split; [done | by intros ? [= <-]]].
  destruct (Htim a ch s pol H3 Hm Es) as [Hi Ho].
  destruct (app_observe timing a ch s) as [a' r]; simpl in *. split; [|exact Ho].
  split_and!; simpl; [done | done | exact Hi].
Qed.

Lemma each_total (f : Pipeline -> Sample -> option (Pipeline * res unit)) l p :
  (forall p s, s ∈ l -> ranked p -> exists p' r, f p s = Some (p', r) /\ ranked p') ->
  ranked p -> exists p' r, each f p l = Some (p', r) /\ ranked p'.
Proof.
  revert p; induction l as [|s l IH]; intros p Hf Hp; simpl; [eauto|].
  destruct (Hf p s) as (q & [u|e] & -> & Hq); [by left | done | | by eauto].
  apply IH; [|done]. intros; apply Hf; [by right | done].
Qed.

Lemma ingest_total_aux fuel p c s :
  ranked p -> (rank (s_source_ref s) < fuel)%nat ->
  exists p' r, ingest fuel p c s = Some (p', r) /\ ranked p'.
Proof.
  revert p c s; induction fuel as [|fuel IH]; intros p c s Hp Hr; [lia|]; cbn [ingest].
  destruct (pl_source_map p !! s_source_ref s) as [[ch pol]|] eqn:Hm.
  2: { eexists _, _; split; [done|]. by apply (ranked_same p). }
  rewrite (proj1 Hp) in Hm.
  assert (Hre : forall out p, Forall (fun d => (rank (s_source_ref d) < rank (s_source_ref s))%nat) out ->
            ranked p -> exists p' r,
            each (fun p s => ingest fuel p DERIVED_SOURCE_CLASS s) p out = Some (p', r) /\ ranked p').
  { intros out q Hout Hq; apply each_total; [|done]. intros q' d Hd Hq'; apply IH; [done|].
    rewrite Forall_forall in Hout; specialize (Hout d Hd); lia. }
  destruct (tap_fusion_ranked p ch pol s Hp Hm) as [Hp1 Ho1].
  destruct (tap_fusion p ch s) as [p1 [l1|e1]]; simpl in *; [|by eauto].
  destruct (Hre l1 p1) as (p2 & [u|e] & -> & Hp2); [by apply Ho1 | done | | by eauto].
  destruct (tap_timing_ranked p2 ch pol s Hp2 Hm) as [Hp3 Ho3].
  destruct (tap_timing p2 ch s) as [p3 [l3|e3]]; simpl in *; [|by eauto].
  destruct (Hre l3 p3) as (p4 & [u'|e] & -> & Hp4); [by apply Ho3 | done | | by eauto].
  destruct (filter_and_stage_apps p4 c ch pol s) as (E1 & E2 & E3).
  destruct (filter_and_stage p4 c ch pol s) as [p5 r5]; simpl in *.
  eexists _, _; split; [done|]. by apply (ranked_same p4).
Qed.
End Rank.

(** Re-entry terminates: when the applications' outputs descend in some rank
    of source references, a recursion depth above the sample's rank is enough,
    and more fuel changes nothing about that. *)
Theorem ingest_total (sm : gmap string (Z * ChannelPolicy)) (rank : string -> nat)
    (Ifus : app_state fusion -> Prop) (Itim : app_state timing -> Prop)
    (fuel : nat) (p : Pipeline) (source_class : string) (s : Sample)
    (Hfus : app_descends fusion Ifus sm rank) (Htim : app_descends timing Itim sm rank)
    (Hp : ranked sm Ifus Itim p) (Hfuel : (rank (s_source_ref s) < fuel)%nat) :
  exists p' r, ingest fuel p source_class s = Some (p', r) /\ ranked sm Ifus Itim p'.
Proof. by eapply ingest_total_aux. Qed.

(** * Message ids *)

Definition keyed (b : TickBatch) : string * Z := (tb_source_class b, tb_epoch_unix_ms b).

Definition pending_wf (b : Batcher) : Prop := od_wf (bt_pending b).

Lemma add_all_pending_wf b l : pending_wf b -> pending_wf (add_all b l).1.
Proof.
  revert b; induction l as [|[[c id] s] l IH]; intros b Hb; simpl; [done|].
  unfold Batcher.add. destruct (bt_policies b !! id); simpl; [|done].
  apply IH. unfold pending_wf, set_pending, append_pending; simpl. by apply od_set_wf.
Qed.

Lemma encode_class_key b unix mono entry out :
  encode_class b unix mono entry = Ok out -> out.1 = entry.1.
Proof. intros Ho; by apply encode_class_batch in Ho as [? _]. Qed.

Lemma tick_keys b unix mono emitted :
  pending_wf b -> (tick b unix mono).2 = Ok emitted ->
  NoDup (map fst emitted).
Proof.
  unfold pending_wf, od_wf; intros Hb; simpl; intros (bs & Hbs & [= <-])%res_bind_Ok.
  eapply res_map_Forall2 in Hbs; [|apply encode_class_key].
  assert (Heq : od_keys (bt_pending b) = map fst bs).
  { clear Hb. unfold od_keys. induction Hbs as [|x y l k Hxy HF IH]; simpl; [done|].
    by rewrite Hxy; f_equal. }
  rewrite map_map; simpl. by rewrite Heq in Hb.
Qed.

(** Nothing but what is pending changes when samples are added. *)
Lemma add_all_ready sm t b l :
  batcher_ready sm t b -> batcher_ready sm t (set_pending (add_all b l).1 []).
Proof.
  assert (Hgen : bt_tick_ns (add_all b l).1 = bt_tick_ns b /\
                 bt_policies (add_all b l).1 = bt_policies b).
  { revert b; induction l as [|[[c id] s] l IH]; intros b; simpl; [done|].
    unfold Batcher.add. destruct (bt_policies b !! id); simpl; [|done].
    by destruct (IH (set_pending b (append_pending (bt_pending b) c (id, s)))) as [-> ->]. }
  intros (_ & H1 & H2); destruct Hgen as [E1 E2]. unfold batcher_ready; simpl; rewrite E1, E2; done.
Qed.

Lemma staged_leb_total : leb_total staged_leb.
Proof. intros x y; unfold staged_leb; rewrite !Z.leb_le; lia. Qed.
Lemma staged_leb_trans : leb_trans staged_leb.
Proof. intros x y z; unfold staged_leb; rewrite !Z.leb_le; lia. Qed.

(** What is left after a window is at least a tick later than its epoch. *)
Lemma take_window_rest tick epoch l w rest :
  sorted_by staged_leb l -> take_window tick epoch l = (w, rest) ->
  sorted_by staged_leb rest /\ Forall (fun s => epoch + tick <= staged_time s) rest.
Proof.
  revert w; induction l as [|s r IH]; intros w; simpl; [intros _ [= <- <-]; by split|].
  intros [Hs Hr]; destruct (Z.ltb_spec (staged_time s - epoch) tick).
  - destruct (take_window tick epoch r) as [w' rest'] eqn:E; intros [= <- <-]; eauto.
  - intros [= <- <-]; split; [by split|]. constructor; [lia|].
    eapply Forall_impl; [exact Hs|]; intros x; unfold staged_leb; simpl; lia.
Qed.

Section MsgIds.
Context (wall : Z -> float) (tick_ns : Z).

(** The wall clock tells apart instants a tick or more apart. *)
Definition separates : Prop :=
  forall t t' m m', t + tick_ns <= t' -> f_round (wall t) = Ok m -> f_round (wall t') = Ok m' -> m < m'.

(** Every batch so far was anchored a tick or more before what is staged. *)
Definition before (staged : list staged_t) (b : TickBatch) : Prop :=
  exists t, f_round (wall t) = Ok (tb_epoch_unix_ms b) /\
    Forall (fun s => t + tick_ns <= staged_time s) staged.

Lemma flush_windows_keys sm fuel p staged batches p' out :
  separates -> 0 < tick_ns -> tick_ns = pl_tick_ns p -> pending_wf (pl_batcher p) ->
  batcher_ready sm tick_ns (pl_batcher p) ->
  sorted_by staged_leb staged -> NoDup (map keyed batches) -> Forall (before staged) batches ->
  flush_windows fuel wall p staged batches = (p', Ok out) -> NoDup (map keyed out).
Proof.
  intros Hsep Hpos. revert p staged batches; induction fuel as [|fuel IH]; intros p staged batches Ht Hb Hr Hs Hn Hf.
  { destruct staged; simpl; by intros [= <- <-]. }
  destruct staged as [|first r] eqn:Estaged; [by intros [= <- <-]|].
  cbn [flush_windows]. rewrite <- Estaged in *.
  destruct (f_round _) as [unix|e1] eqn:Er; [|done].
  destruct (take_window _ _ staged) as [w rest] eqn:Ew. rewrite <- Ht in Ew.
  destruct (take_window_rest _ _ _ _ _ Hs Ew) as [Hsr Hlate].
  assert (Hfr : Forall (before rest) batches).
  { eapply Forall_impl; [exact Hf|]; intros b (t & Hw & Hall); exists t; split; [done|].
    rewrite (take_window_app _ _ _ _ _ Ew) in Hall; by apply Forall_app in Hall as [_ ?]. }
  pose proof (add_all_pending_wf _ w Hb) as Hb'.
  pose proof (add_all_ready sm tick_ns (pl_batcher p) w Hr) as Hr'.
  destruct (add_all (pl_batcher p) w) as [b [u|e]]; [|done]; simpl in Hb', Hr'.
  destruct (tick b unix (staged_time first)) as [b' em] eqn:Etick.
  assert (b' = set_pending b []) as -> by (by injection Etick).
  assert (Hemp : pending_wf (set_pending b [])) by apply NoDup_nil_2.
  destruct em as [em|e2].
  - apply IH; try done.
    + rewrite map_app, map_map; simpl. apply NoDup_app; split_and!; [done| |].
      * intros k (x & <- & Hx%list_elem_of_In)%list_elem_of_In%in_map_iff
                 (y & Hy & _)%list_elem_of_In%in_map_iff.
        rewrite Forall_forall in Hf. destruct (Hf x Hx) as (t & Hw & Hall).
        rewrite Estaged in Hall; apply Forall_cons in Hall as [Hfirst _].
        pose proof (Hsep _ _ _ _ Hfirst Hw Er). injection Hy as _ Hy. simpl in Hy. lia.
      * replace (map _ em) with (map (fun c => (c, unix)) (map fst em)).
        2: { by rewrite map_map. }
        apply NoDup_fmap_2; [by intros ?? [=]|]. eapply tick_keys; [exact Hb'|]. by rewrite Etick.
    + apply Forall_app; split; [done|]. apply Forall_map, Forall_true; intros x; simpl.
      exists (staged_time first); split; [exact Er | exact Hlate].
  - destruct (note_failure_same (set_batcher p (set_pending b [])) ("encode:" +:+ exn_msg e2))
      as (_ & E1 & E2 & _).
    destruct (exn_kind e2); try done; apply IH; simpl; rewrite ?E1, ?E2; done.
Qed.
End MsgIds.

Lemma flush_windows_ids fuel wall p staged batches p' out :
  Forall (fun b => tb_msg_id b = msg_id (tb_source_class b) (tb_epoch_unix_ms b)) batches ->
  flush_windows fuel wall p staged batches = (p', Ok out) ->
  Forall (fun b => tb_msg_id b = msg_id (tb_source_class b) (tb_epoch_unix_ms b)) out.
Proof.
  revert p staged batches; induction fuel as [|fuel IH]; intros p staged batches Hb.
  { destruct staged; simpl; by intros [= <- <-]. }
  destruct staged as [|first r] eqn:Estaged; [by intros [= <- <-]|].
  cbn [flush_windows]. rewrite <- Estaged in *.
  destruct (f_round _) as [unix|e1]; [|done].
  destruct (take_window _ _ staged) as [w rest].
  destruct (add_all (pl_batcher p) w) as [b [u|e]]; [|done].
  destruct (tick b unix (staged_time first)) as [b' [em|e]].
  - apply IH, Forall_app; split; [done|]. by apply Forall_map, Forall_true.
  - by destruct (exn_kind e); try done; apply IH.
Qed.

Lemma msg_id_inj c c' e e' : msg_id c e = msg_id c' e' -> c = c' /\ e = e'.
Proof.
  intros [-> He]%colon_split; auto using pretty_Z_no_colon. split; [done|]. by apply (inj pretty).
Qed.

(** Two batches of one flush never share a message id, provided the wall
    clock separates instants a tick apart. *)
Theorem flush_msg_ids_unique (sm : gmap string (Z * ChannelPolicy)) (wall_clock : Z -> float)
    (p p' : Pipeline) (batches : list TickBatch)
    (Hready : pipeline_ready sm p) (Hclock : separates wall_clock (pl_tick_ns p))
    (Hflush : flush wall_clock p = (p', Ok batches)) :
  NoDup (map tb_msg_id batches).
Proof.
  destruct Hready as [Hmap Ht Hb Hst]. unfold flush in Hflush.
  destruct (pl_staged p) as [|x l]; [injection Hflush as <- <-; apply NoDup_nil_2|].
  assert (Hk : NoDup (map keyed batches)).
  { eapply flush_windows_keys in Hflush; [done|exact Hclock|done|done|..|by constructor].
    - unfold pending_wf; simpl. destruct Hb as [-> _]. apply NoDup_nil_2.
    - exact Hb.
    - apply sort_by_sorted; [apply staged_leb_total | apply staged_leb_trans].
    - apply NoDup_nil_2. }
  pose proof (flush_windows_ids _ _ _ _ _ _ _ (Forall_nil_2 _) Hflush) as Hid.
  revert Hk Hid; clear; induction batches as [|b l IH]; simpl; [intros; apply NoDup_nil_2|].
  intros [Hni Hnd]%NoDup_cons [Hb Hl]%Forall_cons; apply NoDup_cons; split; [|auto].
  intros (b' & Heq & Hin%list_elem_of_In)%list_elem_of_In%in_map_iff. apply Hni, list_elem_of_In, in_map_iff.
  exists b'; split; [|by apply list_elem_of_In].
  rewrite Forall_forall in Hl. rewrite (Hl _ Hin), Hb in Heq.
  apply msg_id_inj in Heq as [E1 E2]. by unfold keyed; rewrite E1, E2.
Qed.
End Pipeline.

(** * The wall clocks ([src/collectors/clock.py], [src/agent/clock.py])

    A mapping from monotonic nanoseconds to wall milliseconds: with an offset
    fixed at construction, or with a correlation read at each call (the two
    clock readings are arguments). An int outside the range of a double, over
    10^280 years of nanoseconds, is not considered. *)

Definition MonotonicWallClock (offset_ms : float) (t_mono_ns : Z) : float :=
  fadd offset_ms (fdiv_ieee (f_of_Z t_mono_ns) (f_of_Z 1000000)).

Definition SystemClock (realtime_ns monotonic_ns t_mono_ns : Z) : float :=
  fdiv_ieee (f_of_Z (realtime_ns + t_mono_ns - monotonic_ns)) (f_of_Z 1000000).

(** * A concrete pipeline

    Two CAN channels, the message-is-its-payload codec, and an application
    that counts the fixes of channel 1 and emits the count. *)

Definition NoApp : TapApp := mkTapApp unit (fun _ _ => false) (fun a _ _ => (a, Ok [])).

Definition CountApp : TapApp :=
  mkTapApp Z (fun _ id => id =? 1)
    (fun n _ s => (n + 1, Ok [mkSample "derived:count" (s_t_mono_ns s) (s_t_wall_ms s) (VInt (n + 1))])).

#[local] Existing Instance TaggedCodec.
#[local] Existing Instance TaggedCodecLaws.

Module Demo.
Definition speed : ChannelPolicy := mkPolicy "speed" DOUBLE None f0 f0.
Definition temp : ChannelPolicy := mkPolicy "temp" INT64 None (f_of_ratio 1 10) f0.
Definition held : ChannelPolicy :=
  mkPolicy "count" INT64 (Some (mkRbeConfig None (Some "1s") None (Some 1000000000) None)) f0 f0.
Definition maps : gmap string (Z * ChannelPolicy) :=
  <["can0:1.speed" := (1, speed)]>
    (<["derived:count" := (3, held)]> {["can0:2.temp" := (2, temp)]}).
Definition batcher : Batcher :=
  mkBatcher 7 {[1 := speed; 2 := temp; 3 := held]} 20000 20000000 [].
Definition empty : Pipeline NoApp CountApp :=
  mkPipeline NoApp CountApp maps rbe_init batcher 20000000 (Some 0) None [] ∅ ∅ 0 0.

Definition at_ns (ref : string) (t : Z) (v : SampleValue) : Sample := mkSample ref t f0 v.
Definition fix_at (t n : Z) : Sample := at_ns "can0:1.speed" t (VFloat (f_of_Z n)).
Definition staged : list staged_t := [
  ("can", 1, fix_at 100000000 42);
  ("can", 2, at_ns "can0:2.temp" 130000000 (VInt 21));
  ("can", 1, fix_at 105000000 43)].
Definition full : Pipeline NoApp CountApp := set_staged NoApp CountApp empty staged.

(** Wall time: the monotonic milliseconds, on the two instants used. *)
Definition clock (t : Z) : float :=
  if t =? 100000000 then f_of_Z 100 else if t =? 130000000 then f_of_Z 130 else finf.

Definition flushed := flush NoApp CountApp clock full.
Definition batches : list TickBatch := match flushed.2 with Ok l => l | Raise _ => [] end.

Lemma maps_inv ref id pol :
  maps !! ref = Some (id, pol) ->
  (ref, id, pol) ∈ [("can0:1.speed", 1, speed); ("derived:count", 3, held); ("can0:2.temp", 2, temp)].
Proof.
  unfold maps. rewrite !lookup_insert_Some, lookup_singleton_Some. set_solver.
Qed.

Lemma batcher_ok : batcher_ready maps 20000000 batcher.
Proof.
  split_and!; [done | done|]. intros ref id pol Hm%maps_inv.
  rewrite !elem_of_cons in Hm. destruct_or! Hm; try (injection Hm as -> -> ->; done). by apply elem_of_nil in Hm.
Qed.

Lemma ready p :
  pl_source_map NoApp CountApp p = maps -> pl_tick_ns NoApp CountApp p = 20000000 ->
  pl_batcher NoApp CountApp p = batcher -> Forall (mapped maps) (pl_staged NoApp CountApp p) ->
  pipeline_ready NoApp CountApp maps p.
Proof. intros H1 H2 H3 H4; split; rewrite ?H1, ?H2, ?H3; auto using batcher_ok. lia. Qed.

Lemma full_ready : pipeline_ready NoApp CountApp maps full.
Proof.
  apply ready; try done.
  repeat constructor; [exists speed | exists temp | exists speed]; by vm_compute.
Qed.

Lemma clock_separates : separates clock 20000000.
Proof.
  intros t t' m m' Ht. unfold clock.
  destruct (Z.eqb_spec t 100000000), (Z.eqb_spec t' 100000000),
    (Z.eqb_spec t 130000000), (Z.eqb_spec t' 130000000); try lia; try done;
    vm_compute; intros [= <-] [= <-]; done.
Qed.
End Demo.


Lemma flush_msg_ids_unique_witness :
  map tb_msg_id Demo.batches = ["can:100"; "can:130"] /\ NoDup (map tb_msg_id Demo.batches).
Proof.
  split; [by vm_compute|].
  apply (flush_msg_ids_unique NoApp CountApp Demo.maps Demo.clock Demo.full Demo.flushed.1).
  - exact Demo.full_ready.
  - exact Demo.clock_separates.
  - vm_compute; reflexivity.
Defined.

Lemma ingest_ready_witness :
  exists p', ingest NoApp CountApp 3 Demo.full "can" (Demo.fix_at 106000000 44) = Some (p', Ok tt) /\
    length (pl_staged NoApp CountApp p') = 5%nat /\ pipeline_ready NoApp CountApp Demo.maps p'.
Proof.
  eexists; split; [vm_compute; reflexivity|]. split; [reflexivity|].
  apply (ingest_ready NoApp CountApp Demo.maps 3 Demo.full _ "can" (Demo.fix_at 106000000 44) (Ok tt)).
  - exact Demo.full_ready.
  - vm_compute; reflexivity.
Defined.

(** A window the wall clock cannot date raises nothing here: the clock is
    constant. The infinite reading is what escapes. *)
Definition inf_pipeline : Pipeline NoApp CountApp :=
  set_staged NoApp CountApp Demo.empty
    [("can", 2, Demo.at_ns "can0:2.temp" 100000000 (VFloat finf))].

Lemma inf_pipeline_ready : pipeline_ready NoApp CountApp Demo.maps inf_pipeline.
Proof. apply Demo.ready; try done. repeat constructor. exists Demo.temp; by vm_compute. Qed.

Lemma flush_raises_only_overflow_witness :
  exists p' e, flush NoApp CountApp (fun _ => f_of_Z 100) inf_pipeline = (p', Raise e) /\
    exn_kind e = OverflowError.
Proof.
  eexists _, _; split; [vm_compute; reflexivity|].
  eapply (flush_raises_only_overflow NoApp CountApp Demo.maps (fun _ => f_of_Z 100) inf_pipeline).
  - exact inf_pipeline_ready.
  - vm_compute; reflexivity.
  - intros t; vm_compute; reflexivity.
Defined.

Lemma flush_overflow_escapes_witness :
  exists p', flush NoApp CountApp (fun _ => f_of_Z 100) inf_pipeline =
    (p', Raise (Exn OverflowError "cannot convert float infinity to integer")) /\
    pl_staged NoApp CountApp p' = [].
Proof.
  eapply (flush_overflow_escapes NoApp CountApp Demo.maps (fun _ => f_of_Z 100) inf_pipeline
            "can" 2 100 (Demo.at_ns "can0:2.temp" 100000000 (VFloat finf)) Demo.temp false).
  - exact inf_pipeline_ready.
  - reflexivity.
  - vm_compute; reflexivity.
  - left; reflexivity.
  - vm_compute; split; reflexivity.
  - reflexivity.
  - reflexivity.
  - vm_compute; reflexivity.
  - vm_compute; repeat split; reflexivity.
Defined.

Lemma taps_before_rbe_witness :
  exists p' q',
    ingest NoApp CountApp 3 Demo.full "can" (Demo.fix_at 106000000 44) = Some (p', Ok tt) /\
    ingest NoApp CountApp 3 Demo.empty "can" (Demo.fix_at 106000000 44) = Some (q', Ok tt) /\
    pl_timing NoApp CountApp p' = Some 1 /\ same_apps NoApp CountApp p' q'.
Proof.
  eexists _, _; split; [vm_compute; reflexivity|]. split; [vm_compute; reflexivity|].
  split; [reflexivity|].
  apply (taps_before_rbe NoApp CountApp 3 Demo.full Demo.empty _ _ "can" (Demo.fix_at 106000000 44)).
  - split; [|split]; reflexivity.
  - vm_compute; reflexivity.
  - vm_compute; reflexivity.
Defined.

Definition count_rank (ref : string) : nat := if String.eqb ref "derived:count" then 0%nat else 1%nat.

Lemma count_descends : app_descends CountApp (fun _ => True) Demo.maps count_rank.
Proof.
  intros n ch s pol _ Hm%Demo.maps_inv Hs; simpl in *; split; [done|]. intros out [= <-].
  repeat constructor. unfold count_rank at 1; simpl.
  rewrite !elem_of_cons in Hm. destruct_or! Hm; try (by apply elem_of_nil in Hm);
    injection Hm as -> -> ->; try done. vm_compute; lia.
Qed.

Lemma ingest_total_witness :
  exists p' r, ingest NoApp CountApp 2 Demo.empty "can" (Demo.fix_at 106000000 44) = Some (p', r) /\
    ranked NoApp CountApp Demo.maps (fun _ => True) (fun _ => True) p'.
Proof.
  apply (ingest_total NoApp CountApp Demo.maps count_rank (fun _ => True) (fun _ => True)).
  - intros a ch s pol _ _ Hs; discriminate Hs.
  - exact count_descends.
  - split; [|split]; done.
  - vm_compute; lia.
Defined.

(** * Across flushes *)

Definition flush_ok {A B : Type} (r : A * res (list B)) : A * list B :=
  (r.1, match r.2 with Ok l => l | Raise _ => [] end).

(** Ingest and flush, twice. *)
Definition two_flushes (clock : Z -> float) (s1 s2 : Sample) : list TickBatch * list TickBatch :=
  let run p s := match ingest NoApp CountApp 2 p "can" s with Some (p, _) => p | None => p end in
  let '(p, b1) := flush_ok (flush NoApp CountApp clock (run Demo.empty s1)) in
  let '(p, b2) := flush_ok (flush NoApp CountApp clock (run p s2)) in
  (b1, b2).

(** Message ids are not unique across flushes: two readings 0.3 ms apart that
    a flush separates are published under one id, with different payloads, so
    a stream that deduplicates on the id keeps only the first. *)
Theorem msg_id_collision :
  exists b1 b2,
    two_flushes (MonotonicWallClock f0) (Demo.at_ns "can0:2.temp" 100000000 (VInt 21))
      (Demo.at_ns "can0:2.temp" 100300000 (VInt 22)) = ([b1], [b2]) /\
    tb_msg_id b1 = tb_msg_id b2 /\ tb_epoch_mono_ns b1 <> tb_epoch_mono_ns b2 /\
    tb_payload b1 <> tb_payload b2.
Proof. eexists _, _; split; [vm_compute; reflexivity|]. vm_compute; split_and!; done. Qed.
