(* ===== verification/TimingCore.v ===== *)
(** The lap and sector timing engine ([src/timing/timing_core.py]).

    The definitions follow the class [TimingEngine]: geometry in binary64,
    [_accept] (debounce and direction gate), [_handle_pit],
    [_handle_lap_point], [process_point]. The cosine is the platform's: a
    parameter. The step relation [crosses] is the engine seen as a state
    machine over accepted crossings; [process_point_crosses] shows that the
    engine only moves along it, and the theorems are proved by induction on
    its runs. *)

From S2P Require Import Prelude PyFloat.

Local Open Scope Z_scope.

(** * Data *)

Record GPSPoint := mkGPS { gp_lat : float; gp_lon : float; gp_timestamp : float }.

Inductive LineType := START_FINISH | SECTOR | PIT_ENTRY_LINE | PIT_EXIT_LINE | UNKNOWN.

#[export] Instance LineType_eq_dec : EqDecision LineType.
Proof. solve_decision. Defined.

Record TimingLine := mkLine {
  ln_name : string;
  ln_start : GPSPoint;
  ln_end : GPSPoint;
  ln_type : LineType
}.

Inductive EventType := SECTOR_COMPLETED | LAP_COMPLETED | PIT_ENTRY | PIT_EXIT.

#[export] Instance EventType_eq_dec : EqDecision EventType.
Proof. solve_decision. Defined.

(** ["track"] and ["pit"]. *)
Inductive PitStatus := on_track | in_pit.

#[export] Instance PitStatus_eq_dec : EqDecision PitStatus.
Proof. solve_decision. Defined.

Record TimingEvent := mkEvent {
  ev_type : EventType;
  ev_time : float;
  ev_line : string;
  ev_lat : float;
  ev_lon : float;
  ev_lap_number : Z;
  ev_sector : Z;
  ev_split_time : float;
  ev_lap_time : float;
  ev_valid : bool;
  ev_direction : string;
  ev_pit_status : PitStatus
}.

Record TimingState := mkTS {
  lap_number : Z;
  expected_idx : nat;
  lap_start_time : float;
  segment_start_time : float;
  sectors_done : Z;
  pit_status : PitStatus;
  lap_valid : bool;
  best_lap_time : float;
  last_lap_time : float;
  last_cross_time : gmap string float;
  line_direction : gmap string Z
}.

Definition initial_state : TimingState :=
  mkTS 0 0 f0 f0 0 on_track true f0 f0 ∅ ∅.

(** A crossing of a line: interpolated instant, direction name, sign. *)
Record Hit := mkHit { h_time : float; h_direction : string; h_sign : Z }.

(** * Names *)

(** The digits of the last run of digits of a name, given reversed. *)
Fixpoint trailing_digits (rev_name : list ascii) (digits : list Z) : list Z :=
  match rev_name with
  | [] => digits
  | ch :: rest =>
      let n := Z.of_N (N_of_ascii ch) - 48 in
      if (0 <=? n) && (n <=? 9) then trailing_digits rest (n :: digits)
      else match digits with [] => trailing_digits rest [] | _ => digits end
  end.

Definition _sector_num (name : string) : Z :=
  fold_left (fun acc d => acc * 10 + d) (trailing_digits (rev (String.list_ascii_of_string name)) []) 0.

Definition classify_line (name : string) : LineType :=
  let n := str_lower name in
  if str_in "start" n || str_in "finish" n then START_FINISH
  else if str_in "pit" n && str_in "entry" n then PIT_ENTRY_LINE
  else if str_in "pit" n && str_in "exit" n then PIT_EXIT_LINE
  else if str_in "sector" n then SECTOR
  else UNKNOWN.

(** * Geometry *)

(** [math.radians]: a product with the double nearest to pi/180. *)
Definition py_pi : float := f_of_ratio 314159265358979323846 (10 ^ 20).
Definition radians (x : float) : float := fmul x (fdiv_ieee py_pi (f_of_Z 180)).

(** The cross-product test. The divisor is not a zero where it is used
    ([segment_divisor]), so [/] cannot raise. *)
Definition segment_intersection (x1 y1 x2 y2 x3 y3 x4 y4 : float) : option (float * float) :=
  let denom := fsub (fmul (fsub x2 x1) (fsub y4 y3)) (fmul (fsub y2 y1) (fsub x4 x3)) in
  if fltb (fabs denom) (f_of_ratio 1 (10 ^ 12)) then None
  else
    let t := fdiv_ieee (fsub (fmul (fsub x3 x1) (fsub y4 y3)) (fmul (fsub y3 y1) (fsub x4 x3))) denom in
    let u := fdiv_ieee (fsub (fmul (fsub x3 x1) (fsub y2 y1)) (fmul (fsub y3 y1) (fsub x2 x1))) denom in
    if fleb f0 t && fleb t (f_of_Z 1) && fleb f0 u && fleb u (f_of_Z 1) then
      Some (t, fsub (fmul (fsub x4 x3) (fsub y2 y1)) (fmul (fsub y4 y3) (fsub x2 x1)))
    else None.

Lemma segment_divisor (n d : float) :
  fltb (fabs d) (f_of_ratio 1 (10 ^ 12)) = false -> fdiv n d = Ok (fdiv_ieee n d).
Proof.
  intros Hd; destruct d as [b| | |]; [|reflexivity..].
  exfalso; revert Hd. vm_compute; discriminate.
Qed.

(** * The engine *)

Record TimingConfig := mkConfig {
  min_line_reentry_s : float;
  min_lap_time_s : float;
  gate_direction : bool;
  lap_points : list TimingLine;
  pit_lines : list TimingLine
}.

Record TimingEngine := mkEngine {
  te_config : TimingConfig;
  te_state : TimingState;
  te_prev : option GPSPoint;
  te_revision : Z
}.

Definition sector_leb (a b : TimingLine) : bool := _sector_num (ln_name a) <=? _sector_num (ln_name b).

(** The order the constructor puts the timing points in. *)
Definition order_lap_points (lines : list TimingLine) : list TimingLine :=
  let sf := filter (fun ln => ln_type ln = START_FINISH) lines in
  let sectors := sort_by sector_leb (filter (fun ln => ln_type ln = SECTOR) lines) in
  match sf with
  | first :: _ => first :: sectors
  | [] => sectors
  end.

Definition engine_init (lines : list TimingLine) (reentry min_lap : float) (gate : bool)
    (state : option TimingState) : TimingEngine :=
  mkEngine
    (mkConfig reentry min_lap gate (order_lap_points lines)
       (filter (fun ln => ln_type ln = PIT_ENTRY_LINE \/ ln_type ln = PIT_EXIT_LINE) lines))
    (default initial_state state) None 0.

Section Geometry.
Context (cos : float -> float).

Definition _to_meters (lat lon ref_lat ref_lon : float) : float * float :=
  (fmul (fmul (fsub lon ref_lon) (f_of_Z 111320)) (cos (radians ref_lat)),
   fmul (fsub lat ref_lat) (f_of_Z 111320)).

Definition _crossing (p1 p2 : GPSPoint) (line : TimingLine) : option Hit :=
  let '(rlat, rlon) := (gp_lat (ln_start line), gp_lon (ln_start line)) in
  let '(ax1, ay1) := _to_meters (gp_lat p1) (gp_lon p1) rlat rlon in
  let '(ax2, ay2) := _to_meters (gp_lat p2) (gp_lon p2) rlat rlon in
  let '(bx1, by1) := _to_meters (gp_lat (ln_start line)) (gp_lon (ln_start line)) rlat rlon in
  let '(bx2, by2) := _to_meters (gp_lat (ln_end line)) (gp_lon (ln_end line)) rlat rlon in
  match segment_intersection ax1 ay1 ax2 ay2 bx1 by1 bx2 by2 with
  | None => None
  | Some (t, cross) =>
      let ctime := fadd (gp_timestamp p1) (fmul t (fsub (gp_timestamp p2) (gp_timestamp p1))) in
      let sign := if fleb f0 cross then 1 else -1 in
      Some (mkHit ctime (if 0 <? sign then "clockwise" else "counterclockwise") sign)
  end.
End Geometry.

Definition set_pit (st : TimingState) (status : PitStatus) (valid : bool) : TimingState :=
  mkTS (lap_number st) (expected_idx st) (lap_start_time st) (segment_start_time st)
    (sectors_done st) status valid (best_lap_time st) (last_lap_time st)
    (last_cross_time st) (line_direction st).

Definition set_crossed (st : TimingState) (times : gmap string float) (signs : gmap string Z) : TimingState :=
  mkTS (lap_number st) (expected_idx st) (lap_start_time st) (segment_start_time st)
    (sectors_done st) (pit_status st) (lap_valid st) (best_lap_time st) (last_lap_time st) times signs.

(** Debounce and direction gate. The returned state differs from the given one
    exactly when the crossing is accepted. *)
Definition _accept (cfg : TimingConfig) (st : TimingState) (line : TimingLine) (hit : Hit)
    : TimingState * bool :=
  let too_soon :=
    match last_cross_time st !! ln_name line with
    | Some last => fltb (fsub (h_time hit) last) (min_line_reentry_s cfg)
    | None => false
    end in
  if too_soon then (st, false)
  else
    let times := <[ln_name line := h_time hit]> (last_cross_time st) in
    if gate_direction cfg then
      match line_direction st !! ln_name line with
      | None => (set_crossed st times (<[ln_name line := h_sign hit]> (line_direction st)), true)
      | Some expected =>
          if expected =? h_sign hit then (set_crossed st times (line_direction st), true)
          else (st, false)
      end
    else (set_crossed st times (line_direction st), true).

Definition _handle_pit (st : TimingState) (line : TimingLine) (hit : Hit) (gps : GPSPoint)
    : TimingState * list TimingEvent :=
  let '(st, etype) :=
    if decide (ln_type line = PIT_ENTRY_LINE) then (set_pit st in_pit false, PIT_ENTRY)
    else (set_pit st on_track (lap_valid st), PIT_EXIT) in
  (st, [mkEvent etype (h_time hit) (ln_name line) (gp_lat gps) (gp_lon gps) (lap_number st) 0 f0 f0
          true (h_direction hit) (pit_status st)]).

Definition on_track_b (st : TimingState) : bool := bool_decide (pit_status st = on_track).

Definition _start_new_lap (n_points : nat) (st : TimingState) (ctime : float) : TimingState :=
  mkTS (lap_number st) (1 mod n_points)%nat ctime ctime 0 (pit_status st) (on_track_b st)
    (best_lap_time st) (last_lap_time st) (last_cross_time st) (line_direction st).

Definition set_expected (st : TimingState) (number : Z) (idx : nat) (valid : bool) : TimingState :=
  mkTS number idx (lap_start_time st) (segment_start_time st) (sectors_done st) (pit_status st)
    valid (best_lap_time st) (last_lap_time st) (last_cross_time st) (line_direction st).

Definition set_laps (st : TimingState) (number : Z) (best last : float) : TimingState :=
  mkTS number (expected_idx st) (lap_start_time st) (segment_start_time st) (sectors_done st)
    (pit_status st) (lap_valid st) best last (last_cross_time st) (line_direction st).

Definition _handle_lap_point (cfg : TimingConfig) (st : TimingState) (idx : nat) (line : TimingLine)
    (hit : Hit) (gps : GPSPoint) : TimingState * list TimingEvent :=
  let n_points := length (lap_points cfg) in
  let ctime := h_time hit in
  let event etype sector split lap valid :=
    mkEvent etype ctime (ln_name line) (gp_lat gps) (gp_lon gps) (lap_number st) sector split lap
      valid (h_direction hit) (pit_status st) in
  if feqb (lap_start_time st) f0 then
    let st := _start_new_lap n_points st ctime in
    (set_expected st 1 ((idx + 1) mod n_points)%nat (if decide (idx = 0)%nat then lap_valid st else false), [])
  else
    let in_order := bool_decide (idx = expected_idx st) in
    if decide (idx = 0)%nat then
      let lap_time := fsub ctime (lap_start_time st) in
      if (sectors_done st =? 0) || fltb lap_time (min_lap_time_s cfg) then
        (_start_new_lap n_points st ctime, [])
      else
        let split := fsub ctime (segment_start_time st) in
        let valid := lap_valid st && in_order && on_track_b st in
        let best :=
          if valid && (feqb (best_lap_time st) f0 || fltb lap_time (best_lap_time st))
          then lap_time else best_lap_time st in
        (_start_new_lap n_points (set_laps st (lap_number st + 1) best lap_time) ctime,
         [event SECTOR_COMPLETED (Z.of_nat n_points) split f0 valid;
          event LAP_COMPLETED 0 f0 lap_time valid])
    else
      let split := fsub ctime (segment_start_time st) in
      let valid := in_order && on_track_b st in
      (mkTS (lap_number st) ((idx + 1) mod n_points)%nat (lap_start_time st) ctime
         (sectors_done st + 1) (pit_status st) (if in_order then lap_valid st else false)
         (best_lap_time st) (last_lap_time st) (last_cross_time st) (line_direction st),
       [event SECTOR_COMPLETED (Z.of_nat idx) split f0 valid]).

Section Engine.
Context (cos : float -> float).

(** The loop over the pit lines. *)
Fixpoint process_pit (cfg : TimingConfig) (prev gps : GPSPoint) (lines : list TimingLine)
    (st : TimingState) (revision : Z) : TimingState * Z * list TimingEvent :=
  match lines with
  | [] => (st, revision, [])
  | line :: rest =>
      match _crossing cos prev gps line with
      | Some hit =>
          match _accept cfg st line hit with
          | (st, true) =>
              let '(st, evs) := _handle_pit st line hit gps in
              let '(st, revision, more) := process_pit cfg prev gps rest st (revision + 1) in
              (st, revision, evs ++ more)
          | (st, false) => process_pit cfg prev gps rest st revision
          end
      | None => process_pit cfg prev gps rest st revision
      end
  end.

(** The loop over the lap points; it stops at the first accepted one. *)
Fixpoint process_lap (cfg : TimingConfig) (prev gps : GPSPoint) (idx : nat) (lines : list TimingLine)
    (st : TimingState) (revision : Z) : TimingState * Z * list TimingEvent :=
  match lines with
  | [] => (st, revision, [])
  | line :: rest =>
      match _crossing cos prev gps line with
      | Some hit =>
          match _accept cfg st line hit with
          | (st, true) =>
              let '(st, evs) := _handle_lap_point cfg st idx line hit gps in (st, revision + 1, evs)
          | (st, false) => process_lap cfg prev gps (S idx) rest st revision
          end
      | None => process_lap cfg prev gps (S idx) rest st revision
      end
  end.

Definition process_point (eng : TimingEngine) (gps : GPSPoint) : TimingEngine * list TimingEvent :=
  let cfg := te_config eng in
  match te_prev eng with
  | None => (mkEngine cfg (te_state eng) (Some gps) (te_revision eng), [])
  | Some prev =>
      let '(st, revision, pit) := process_pit cfg prev gps (pit_lines cfg) (te_state eng) (te_revision eng) in
      let '(st, revision, lap) := process_lap cfg prev gps 0 (lap_points cfg) st revision in
      (mkEngine cfg st (Some gps) revision, pit ++ lap)
  end.

Fixpoint process_points (eng : TimingEngine) (pts : list GPSPoint) : TimingEngine * list TimingEvent :=
  match pts with
  | [] => (eng, [])
  | p :: pts =>
      let '(eng, evs) := process_point eng p in
      let '(eng, more) := process_points eng pts in
      (eng, evs ++ more)
  end.
End Engine.

(** * The running values *)

Record Snapshot := mkSnapshot {
  sn_lap_number : Z;
  sn_sector : Z;
  sn_pit_status : PitStatus;
  sn_current_lap_time : float;
  sn_current_sector_time : float;
  sn_last_lap_time : float;
  sn_best_lap_time : float
}.

Definition snapshot (eng : TimingEngine) : Snapshot :=
  let st := te_state eng in
  let now := match te_prev eng with Some p => gp_timestamp p | None => f0 end in
  let sector :=
    if feqb (lap_start_time st) f0 then 0
    else if decide (expected_idx st = 0)%nat then Z.of_nat (length (lap_points (te_config eng)))
    else Z.of_nat (expected_idx st) in
  mkSnapshot (lap_number st) sector (pit_status st)
    (if ftruthy (lap_start_time st) then fmax f0 (fsub now (lap_start_time st)) else f0)
    (if ftruthy (segment_start_time st) then fmax f0 (fsub now (segment_start_time st)) else f0)
    (last_lap_time st) (best_lap_time st).

(** * The engine as a state machine over accepted crossings *)

Inductive crossing :=
  | CPit (line : TimingLine) (hit : Hit)
  | CLap (idx : nat) (line : TimingLine) (hit : Hit).

Definition x_line (x : crossing) : TimingLine := match x with CPit l _ | CLap _ l _ => l end.
Definition x_hit (x : crossing) : Hit := match x with CPit _ h | CLap _ _ h => h end.

(** One accepted crossing: the gate lets it through, then its handler runs. *)
Inductive crosses (cfg : TimingConfig) : TimingState -> crossing -> TimingState -> list TimingEvent -> Prop :=
  | crosses_pit st st1 st2 line hit gps evs :
      line ∈ pit_lines cfg ->
      _accept cfg st line hit = (st1, true) -> _handle_pit st1 line hit gps = (st2, evs) ->
      crosses cfg st (CPit line hit) st2 evs
  | crosses_lap st st1 st2 idx line hit gps evs :
      lap_points cfg !! idx = Some line ->
      _accept cfg st line hit = (st1, true) -> _handle_lap_point cfg st1 idx line hit gps = (st2, evs) ->
      crosses cfg st (CLap idx line hit) st2 evs.

Inductive runs (cfg : TimingConfig) (st0 : TimingState) : list crossing -> TimingState -> list TimingEvent -> Prop :=
  | runs_nil : runs cfg st0 [] st0 []
  | runs_snoc xs st1 evs x st2 evs' :
      runs cfg st0 xs st1 evs -> crosses cfg st1 x st2 evs' -> runs cfg st0 (xs ++ [x]) st2 (evs ++ evs').

Lemma runs_trans cfg st0 xs st1 evs ys st2 evs' :
  runs cfg st0 xs st1 evs -> runs cfg st1 ys st2 evs' -> runs cfg st0 (xs ++ ys) st2 (evs ++ evs').
Proof.
  intros H1; induction 1 as [|ys st evs1 x st2 evs2 _ IH Hx]; [by rewrite !app_nil_r|].
  rewrite !app_assoc; econstructor; eauto.
Qed.

Lemma runs_one cfg st x st' evs : crosses cfg st x st' evs -> runs cfg st [x] st' evs.
Proof. intros Hx. apply (runs_snoc cfg st [] st [] x st' evs); [constructor | done]. Qed.

Lemma accept_false cfg st line hit st' : _accept cfg st line hit = (st', false) -> st' = st.
Proof. unfold _accept; intros Ha; break_in Ha. Qed.

Section Refinement.
Context (cos : float -> float).

Lemma process_pit_runs cfg prev gps lines st rev :
  Forall (fun l => l ∈ pit_lines cfg) lines ->
  let '(st', rev', evs) := process_pit cos cfg prev gps lines st rev in
  exists xs, runs cfg st xs st' evs /\ rev' = rev + Z.of_nat (length xs).
Proof.
  revert st rev; induction lines as [|line rest IH]; intros st rev Hl; simpl.
  { exists []; split; [constructor | simpl; lia]. }
  apply Forall_cons in Hl as [Hline Hrest].
  destruct (_crossing cos prev gps line) as [hit|]; [|by apply IH].
  destruct (_accept cfg st line hit) as [st1 [|]] eqn:Ea.
  2: { apply accept_false in Ea as ->; by apply IH. }
  destruct (_handle_pit st1 line hit gps) as [st2 evs] eqn:Eh.
  specialize (IH st2 (rev + 1) Hrest).
  destruct (process_pit cos cfg prev gps rest st2 (rev + 1)) as [[st3 rev3] more].
  destruct IH as (xs & Hruns & ->). exists (CPit line hit :: xs); split; [|simpl; lia].
  change (CPit line hit :: xs) with ([CPit line hit] ++ xs). eapply runs_trans; [|exact Hruns].
  by apply runs_one; econstructor.
Qed.

Lemma process_lap_runs cfg prev gps idx lines st rev :
  (forall i line, lines !! i = Some line -> lap_points cfg !! (idx + i)%nat = Some line) ->
  let '(st', rev', evs) := process_lap cos cfg prev gps idx lines st rev in
  exists xs, runs cfg st xs st' evs /\ rev' = rev + Z.of_nat (length xs) /\ (length xs <= 1)%nat.
Proof.
  revert idx st rev; induction lines as [|line rest IH]; intros idx st rev Hl; simpl.
  { exists []; split_and!; [constructor | simpl; lia..]. }
  assert (Hrest : forall i l, rest !! i = Some l -> lap_points cfg !! (S idx + i)%nat = Some l).
  { intros i l Hi. replace (S idx + i)%nat with (idx + S i)%nat by lia. by apply Hl. }
  destruct (_crossing cos prev gps line) as [hit|]; [|by apply IH].
  destruct (_accept cfg st line hit) as [st1 [|]] eqn:Ea.
  2: { apply accept_false in Ea as ->; by apply IH. }
  destruct (_handle_lap_point cfg st1 idx line hit gps) as [st2 evs] eqn:Eh.
  exists [CLap idx line hit]; split_and!; [|simpl; lia..].
  apply runs_one; econstructor; [|done|done]. specialize (Hl 0%nat line eq_refl).
  by rewrite Nat.add_0_r in Hl.
Qed.

Lemma process_point_runs eng gps eng' evs :
  process_point cos eng gps = (eng', evs) ->
  te_config eng' = te_config eng /\
  exists xs, runs (te_config eng) (te_state eng) xs (te_state eng') evs /\
    te_revision eng' = te_revision eng + Z.of_nat (length xs).
Proof.
  unfold process_point; destruct (te_prev eng) as [prev|].
  2: { intros [= <- <-]; split; [done|]. exists []; split; [constructor | simpl; lia]. }
  pose proof (process_pit_runs (te_config eng) prev gps (pit_lines (te_config eng))
                (te_state eng) (te_revision eng)) as Hpit.
  destruct (process_pit _ _ _ _ _ _ _) as [[st1 rev1] pit].
  destruct Hpit as (xs & Hxs & ->); [by apply Forall_forall|].
  pose proof (process_lap_runs (te_config eng) prev gps 0 (lap_points (te_config eng)) st1
                (te_revision eng + Z.of_nat (length xs)) (fun i l H => H)) as Hlap.
  destruct (process_lap _ _ _ _ _ _ _ _) as [[st2 rev2] lap].
  destruct Hlap as (ys & Hys & -> & _). intros [= <- <-]; simpl; split; [done|].
  exists (xs ++ ys); split; [by eapply runs_trans|]. rewrite length_app; lia.
Qed.

(** Whatever the points, the engine moves along accepted crossings only, and
    [revision] counts them. *)
Theorem process_points_runs (eng eng' : TimingEngine) (pts : list GPSPoint) (evs : list TimingEvent)
    (Hrun : process_points cos eng pts = (eng', evs)) :
  te_config eng' = te_config eng /\
  exists xs, runs (te_config eng) (te_state eng) xs (te_state eng') evs /\
    te_revision eng' = te_revision eng + Z.of_nat (length xs).
Proof.
  revert eng evs Hrun; induction pts as [|p pts IH]; intros eng evs; simpl.
  { intros [= <- <-]; split; [done|]. exists []; split; [constructor | simpl; lia]. }
  destruct (process_point cos eng p) as [eng1 evs1] eqn:E1.
  destruct (process_points cos eng1 pts) as [eng2 evs2] eqn:E2. intros [= <- <-].
  apply process_point_runs in E1 as (C1 & xs & Hxs & R1).
  apply IH in E2 as (C2 & ys & Hys & R2). split; [congruence|].
  rewrite C1 in Hys. exists (xs ++ ys); split; [by eapply runs_trans|].
  rewrite length_app; lia.
Qed.
End Refinement.

(** * What acceptance changes *)

(** The part of the state that [_accept] leaves alone. *)
Definition same_lap (a b : TimingState) : Prop :=
  lap_number a = lap_number b /\ expected_idx a = expected_idx b /\
  lap_start_time a = lap_start_time b /\ segment_start_time a = segment_start_time b /\
  sectors_done a = sectors_done b /\ pit_status a = pit_status b /\ lap_valid a = lap_valid b /\
  best_lap_time a = best_lap_time b /\ last_lap_time a = last_lap_time b.

Lemma accept_same_lap cfg st line hit st' b : _accept cfg st line hit = (st', b) -> same_lap st' st.
Proof. unfold _accept; intros Ha; break_in Ha. Qed.

(** What the gate checked and recorded. *)
Lemma accept_inv cfg st line hit st' :
  _accept cfg st line hit = (st', true) ->
  last_cross_time st' = <[ln_name line := h_time hit]> (last_cross_time st) /\
  (forall last, last_cross_time st !! ln_name line = Some last ->
     fltb (fsub (h_time hit) last) (min_line_reentry_s cfg) = false) /\
  (gate_direction cfg = true ->
     line_direction st' !! ln_name line = Some (h_sign hit) /\
     (forall name, name <> ln_name line -> line_direction st' !! name = line_direction st !! name) /\
     (line_direction st !! ln_name line = None \/ line_direction st !! ln_name line = Some (h_sign hit))) /\
  (gate_direction cfg = false -> line_direction st' = line_direction st).
Proof.
  unfold _accept. destruct (last_cross_time st !! ln_name line) as [last|] eqn:El.
  - destruct (fltb _ _) eqn:Ef; [done|].
    destruct (gate_direction cfg); [destruct (line_direction st !! ln_name line) as [e|] eqn:Ed|].
    + destruct (Z.eqb_spec e (h_sign hit)); [|done]. intros [= <-]; simpl; subst; naive_solver.
    + intros [= <-]; simpl. rewrite lookup_insert_eq. split_and!; try done; [naive_solver|].
      intros _; split_and!; [done | intros; by rewrite lookup_insert_ne | by left].
    + intros [= <-]; simpl; naive_solver.
  - destruct (gate_direction cfg); [destruct (line_direction st !! ln_name line) as [e|] eqn:Ed|].
    + destruct (Z.eqb_spec e (h_sign hit)); [|done]. intros [= <-]; simpl; subst; naive_solver.
    + intros [= <-]; simpl. rewrite lookup_insert_eq. split_and!; try done.
      intros _; split_and!; [done | intros; by rewrite lookup_insert_ne | by left].
    + intros [= <-]; simpl; naive_solver.
Qed.

(** The handlers leave the gate's memory alone. *)
Lemma handle_pit_gate st line hit gps st' evs :
  _handle_pit st line hit gps = (st', evs) ->
  last_cross_time st' = last_cross_time st /\ line_direction st' = line_direction st.
Proof. unfold _handle_pit; case_decide; by intros [= <- _]. Qed.

Lemma handle_lap_gate cfg st idx line hit gps st' evs :
  _handle_lap_point cfg st idx line hit gps = (st', evs) ->
  last_cross_time st' = last_cross_time st /\ line_direction st' = line_direction st.
Proof. unfold _handle_lap_point; intros Hh; break_in Hh. Qed.

Lemma crosses_gate cfg st x st' evs :
  crosses cfg st x st' evs ->
  exists st1, _accept cfg st (x_line x) (x_hit x) = (st1, true) /\
    last_cross_time st' = last_cross_time st1 /\ line_direction st' = line_direction st1.
Proof.
  destruct 1 as [st st1 st2 line hit gps evs _ Ha Hh | st st1 st2 idx line hit gps evs _ Ha Hh];
    exists st1; split; [done | by eapply handle_pit_gate | done | by eapply handle_lap_gate].
Qed.

(** * Debounce and direction *)

Definition hits_of (name : string) (xs : list crossing) : list Hit :=
  map x_hit (filter (fun x => ln_name (x_line x) = name) xs).

Lemma hits_of_snoc name xs x :
  hits_of name (xs ++ [x]) =
  hits_of name xs ++ (if decide (ln_name (x_line x) = name) then [x_hit x] else []).
Proof.
  unfold hits_of; rewrite filter_app, map_app; f_equal. simpl; rewrite filter_cons.
  by case_decide.
Qed.

(** Consecutive hits of a list satisfy a relation. *)
Fixpoint chained {A : Type} (R : A -> A -> Prop) (l : list A) : Prop :=
  match l with
  | a :: (b :: _) as l => R a b /\ chained R l
  | _ => True
  end.

Lemma chained_snoc {A : Type} (R : A -> A -> Prop) l x :
  chained R l -> (forall y, last l = Some y -> R y x) -> chained R (l ++ [x]).
Proof.
  induction l as [|a [|b l] IH]; simpl; [done | intros _ Hx; split; [by apply Hx | done]|].
  intros [Hab Hl] Hx; split; [done|]. by apply IH.
Qed.

Definition apart (cfg : TimingConfig) (h h' : Hit) : Prop :=
  fltb (fsub (h_time h') (h_time h)) (min_line_reentry_s cfg) = false /\
  (gate_direction cfg = true -> h_sign h = h_sign h').

(** What the gate remembers of a run: per line, the last hit. *)
Definition gate_inv (cfg : TimingConfig) (xs : list crossing) (st : TimingState) : Prop :=
  forall name,
    last_cross_time st !! name = h_time <$> last (hits_of name xs) /\
    (gate_direction cfg = true -> line_direction st !! name = h_sign <$> last (hits_of name xs)) /\
    chained (apart cfg) (hits_of name xs).

Lemma gate_inv_step cfg xs st x st' evs :
  gate_inv cfg xs st -> crosses cfg st x st' evs -> gate_inv cfg (xs ++ [x]) st'.
Proof.
  intros Hinv (st1 & Ha & Et & Ed)%crosses_gate name. rewrite Et, Ed; clear Et Ed st' evs.
  destruct (Hinv name) as (Ht & Hd & Hc).
  apply accept_inv in Ha as (Et & Hsoon & Hgate & _). rewrite Et, hits_of_snoc.
  destruct (decide (ln_name (x_line x) = name)) as [<-|Hne].
  - rewrite lookup_insert_eq, last_snoc; simpl. split_and!; [done | by intros (? & _ & _)%Hgate |].
    apply chained_snoc; [done|]. intros h Hl. rewrite Hl in *; split; [by apply Hsoon|].
    intros Hg; specialize (Hd Hg); apply Hgate in Hg as (_ & _ & [Hn|Hs]); simpl in Hd; congruence.
  - rewrite lookup_insert_ne, app_nil_r by done. split_and!; [done | | done].
    intros Hg; destruct (Hgate Hg) as (_ & Hother & _). rewrite Hother by done. by apply Hd.
Qed.

(** Anti-jitter: in any run from the initial state, two successive accepted
    crossings of one line are never closer than the re-entry delay and, with
    the direction gate on, never in opposite directions. *)
Theorem crossings_debounced (cfg : TimingConfig) (xs : list crossing) (st : TimingState)
    (evs : list TimingEvent) (name : string) (Hrun : runs cfg initial_state xs st evs) :
  chained (apart cfg) (hits_of name xs).
Proof.
  assert (Hinv : gate_inv cfg xs st).
  { induction Hrun as [|xs st1 evs x st2 evs' _ IH Hx]; [by intros n|]. by eapply gate_inv_step. }
  apply Hinv.
Qed.

(** * Laps *)

Definition is_lap (e : TimingEvent) : bool := bool_decide (ev_type e = LAP_COMPLETED).
Definition lap_events (evs : list TimingEvent) : list TimingEvent := filter (fun e => is_lap e) evs.
Definition valid_lap_times (evs : list TimingEvent) : list float :=
  map ev_lap_time (filter (fun e => is_lap e && ev_valid e) evs).

Lemma handle_pit_events st line hit gps st' evs :
  _handle_pit st line hit gps = (st', evs) ->
  lap_events evs = [] /\ valid_lap_times evs = [] /\ Forall (fun e => ev_type e <> SECTOR_COMPLETED) evs.
Proof. unfold _handle_pit; case_decide; intros [= _ <-]; split_and!; try done; by repeat constructor. Qed.

(** ** The best lap *)

Definition better (best lap : float) : float :=
  if feqb best f0 || fltb lap best then lap else best.

Lemma handle_lap_best cfg st idx line hit gps st' evs :
  _handle_lap_point cfg st idx line hit gps = (st', evs) ->
  best_lap_time st' = fold_left better (valid_lap_times evs) (best_lap_time st) /\
  Forall (fun t => fltb t (min_lap_time_s cfg) = false) (valid_lap_times evs).
Proof.
  unfold _handle_lap_point; intros Hh.
  destruct (feqb (lap_start_time st) f0); [by injection Hh as <- <-|].
  case_decide; [|by injection Hh as <- <-].
  destruct ((sectors_done st =? 0) || fltb _ (min_lap_time_s cfg)) eqn:Eg; [by injection Hh as <- <-|].
  injection Hh as <- <-. apply orb_false_elim in Eg as [_ Eg].
  unfold valid_lap_times; cbn. unfold is_lap; cbn.
  destruct (lap_valid st && _ && _); cbn; [|done]. split; [done | by constructor].
Qed.

Lemma valid_lap_times_app e e' : valid_lap_times (e ++ e') = valid_lap_times e ++ valid_lap_times e'.
Proof. unfold valid_lap_times; by rewrite filter_app, map_app. Qed.

Lemma runs_best cfg st0 xs st evs :
  runs cfg st0 xs st evs ->
  best_lap_time st = fold_left better (valid_lap_times evs) (best_lap_time st0) /\
  Forall (fun t => fltb t (min_lap_time_s cfg) = false) (valid_lap_times evs).
Proof.
  induction 1 as [|xs st1 evs x st2 evs' _ [IH1 IH2] Hx]; [done|].
  rewrite valid_lap_times_app, fold_left_app, <- IH1, Forall_app.
  destruct Hx as [st1 st1' st2 line hit gps evs' _ Ha Hh | st1 st1' st2 idx line hit gps evs' _ Ha Hh];
    pose proof (accept_same_lap _ _ _ _ _ _ Ha) as (_&_&_&_&_&_&_&Eb&_); rewrite <- Eb.
  - pose proof (handle_pit_events _ _ _ _ _ _ Hh) as (_ & -> & _); simpl. split; [|done].
    unfold _handle_pit in Hh; case_decide; by injection Hh as <- _.
  - destruct (handle_lap_best _ _ _ _ _ _ _ _ Hh); auto.
Qed.

Lemma better_min (m : float) l b :
  fltb f0 m = true -> Forall (fun t => fltb t m = false /\ is_nan t = false) l ->
  (b = f0 \/ fleb m b = true) ->
  let r := fold_left better l b in
  (l = [] /\ r = b) \/
  ((r = b \/ r ∈ l) /\ fleb m r = true /\ (b = f0 \/ fleb r b = true) /\ Forall (fun t => fleb r t = true) l).
Proof.
  intros Hm; revert b; induction l as [|t l IH]; intros b; [by left|].
  intros [[Ht Hn] Hl]%Forall_cons Hb; right; simpl.
  assert (Hmt : fleb m t = true) by forder.
  assert (Hb' : better b t = t /\ (b = f0 \/ fleb t b = true) \/ better b t = b /\ fleb m b = true /\ fleb b t = true).
  { unfold better. destruct Hb as [->|Hb]; [left; by split; [|left]|].
    assert (feqb b f0 = false) as -> by forder; simpl.
    destruct (fltb t b) eqn:E; [left; split; [done | right; forder] | right; split_and!; [done..|forder]]. }
  destruct Hb' as [[E Hbt]|(E & Hmb & Hbt)]; rewrite E.
  - destruct (IH t Hl (or_intror Hmt)) as [[-> Hr]|([Hr|Hr] & Hmr & Hrt & Hall)]; simpl in *.
    + split_and!; [right; left | done | done | constructor; [forder | constructor]].
    + rewrite Hr in *. split_and!; [right; left | done | done | constructor; [forder | done]].
    + destruct Hrt as [->|Hrt]; [exfalso; forder|].
      split_and!; [right; by right | done | destruct Hbt as [?|?]; [by left | right; forder] | by constructor].
  - destruct (IH b Hl (or_intror Hmb)) as [[-> Hr]|([Hr|Hr] & Hmr & Hrt & Hall)]; simpl in *.
    + split_and!; [by left | done | right; forder | constructor; [forder | constructor]].
    + rewrite Hr in *. split_and!; [by left | done | right; forder | constructor; [forder | done]].
    + destruct Hrt as [->|Hrt]; [exfalso; forder|].
      split_and!; [right; by right | done | by right | constructor; [forder | done]].
Qed.

(** C7. The best lap: after any run it is zero exactly when no valid lap was
    completed, and otherwise it is the time of a valid completed lap, no
    shorter than the minimum lap time and no longer than any other. *)
Theorem best_lap_is_minimum (cfg : TimingConfig) (xs : list crossing) (st : TimingState)
    (evs : list TimingEvent) (Hrun : runs cfg initial_state xs st evs)
    (Hmin : fltb f0 (min_lap_time_s cfg) = true)
    (Hnum : Forall (fun t => is_nan t = false) (valid_lap_times evs)) :
  (valid_lap_times evs = [] /\ best_lap_time st = f0) \/
  (best_lap_time st ∈ valid_lap_times evs /\ fleb (min_lap_time_s cfg) (best_lap_time st) = true /\
   Forall (fun t => fleb (best_lap_time st) t = true) (valid_lap_times evs)).
Proof.
  destruct (runs_best _ _ _ _ _ Hrun) as [-> Hlim]; change (best_lap_time initial_state) with f0.
  destruct (better_min (min_lap_time_s cfg) (valid_lap_times evs) f0) as [[H1 H2]|([H1|H1] & H2 & _ & H4)].
  - done.
  - apply Forall_and; by split.
  - by left.
  - left; by rewrite H1.
  - exfalso. rewrite H1 in H2. forder.
  - by right.
Qed.

(** ** What a completed lap went through *)

Definition lap_idxs (xs : list crossing) : list nat :=
  flat_map (fun x => match x with CLap idx _ _ => [idx] | CPit _ _ => [] end) xs.
Definition is_pit_entry (x : crossing) : bool :=
  match x with CPit line _ => bool_decide (ln_type line = PIT_ENTRY_LINE) | CLap _ _ _ => false end.
Definition pit_entries (xs : list crossing) : list crossing := filter (fun x => is_pit_entry x) xs.

Definition started (st : TimingState) : Prop := feqb (lap_start_time st) f0 = false.

(** A lap in progress that is still valid: since a start/finish crossing the
    car has crossed sectors 1 to [k] in order, and has not entered the pits. *)
Definition clean_lap (cfg : TimingConfig) (xs : list crossing) (st : TimingState) (k : nat) : Prop :=
  exists pre line hit mid,
    xs = pre ++ CLap 0 line hit :: mid /\ lap_start_time st = h_time hit /\
    lap_idxs mid = seq 1 k /\ pit_entries mid = [] /\
    (k < length (lap_points cfg))%nat /\ expected_idx st = ((k + 1) mod length (lap_points cfg))%nat.

Definition lap_inv (cfg : TimingConfig) (xs : list crossing) (st : TimingState) : Prop :=
  started st -> lap_valid st = true -> pit_status st = on_track /\ exists k, clean_lap cfg xs st k.

Lemma lap_inv_same cfg xs st st' : same_lap st' st -> lap_inv cfg xs st -> lap_inv cfg xs st'.
Proof.
  unfold lap_inv, clean_lap, started; intros (_ & E1 & E2 & _ & _ & E3 & E4 & _) H.
  by rewrite E1, E2, E3, E4.
Qed.

Lemma clean_lap_start cfg xs line hit st :
  (0 < length (lap_points cfg))%nat ->
  lap_start_time st = h_time hit -> expected_idx st = (1 mod length (lap_points cfg))%nat ->
  clean_lap cfg (xs ++ [CLap 0 line hit]) st 0.
Proof. intros ???; exists xs, line, hit, []; split_and!; done. Qed.

Lemma lap_inv_pit cfg xs st line hit gps st' evs :
  lap_inv cfg xs st -> _handle_pit st line hit gps = (st', evs) ->
  lap_inv cfg (xs ++ [CPit line hit]) st'.
Proof.
  intros Hi Hh Hs Hv; unfold _handle_pit in Hh.
  destruct (decide (ln_type line = PIT_ENTRY_LINE)) as [Ht|Ht]; injection Hh as <- _; [done|].
  simpl in *. destruct (Hi Hs Hv) as (_ & k & pre & l0 & h0 & mid & -> & E1 & E2 & E3 & E4 & E5).
  split; [done|]. exists k, pre, l0, h0, (mid ++ [CPit line hit]).
  rewrite <- app_assoc; split_and!; try done.
  - unfold lap_idxs in *; rewrite flat_map_app; simpl; by rewrite app_nil_r.
  - unfold pit_entries in *; rewrite filter_app, E3; simpl. rewrite filter_cons_False; [done|]. simpl. by intros ?%bool_decide_unpack.
Qed.

Lemma on_track_b_true st : on_track_b st = true -> pit_status st = on_track.
Proof. unfold on_track_b; by rewrite bool_decide_eq_true. Qed.

(** Starting a lap on the start/finish line. *)
Lemma lap_inv_restart cfg xs st0 line hit :
  (0 < length (lap_points cfg))%nat ->
  lap_inv cfg (xs ++ [CLap 0 line hit]) (_start_new_lap (length (lap_points cfg)) st0 (h_time hit)).
Proof.
  intros Hn _ Hv; simpl in Hv. split; [by apply on_track_b_true|].
  exists 0%nat. by apply clean_lap_start.
Qed.

Lemma lap_inv_lap cfg xs st idx line hit gps st' evs :
  lap_points cfg !! idx = Some line ->
  lap_inv cfg xs st -> _handle_lap_point cfg st idx line hit gps = (st', evs) ->
  lap_inv cfg (xs ++ [CLap idx line hit]) st'.
Proof.
  intros Hidx Hi Hh; pose proof (lookup_lt_Some _ _ _ Hidx) as Hlt.
  assert (Hn : (0 < length (lap_points cfg))%nat) by lia.
  unfold _handle_lap_point in Hh. destruct (feqb (lap_start_time st) f0) eqn:Es.
  { injection Hh as <- _. destruct (decide (idx = 0)%nat) as [->|Hne]; [|by intros _].
    intros _ Hv; simpl in Hv. split; [by apply on_track_b_true|].
    exists 0%nat; by apply clean_lap_start. }
  destruct (decide (idx = 0)%nat) as [->|Hne].
  { destruct (_ || _); injection Hh as <- _; by apply lap_inv_restart. }
  injection Hh as <- _. intros _; simpl. case_bool_decide as Heq; [|done]. intros Hv.
  destruct (Hi Es Hv) as (Hp & k & pre & l0 & h0 & mid & -> & E1 & E2 & E3 & E4 & E5).
  assert (Hk : idx = (k + 1)%nat).
  { rewrite E5 in Heq. destruct (decide (k + 1 < length (lap_points cfg))%nat).
    - by rewrite Nat.mod_small in Heq.
    - replace (k + 1)%nat with (length (lap_points cfg)) in Heq by lia.
      rewrite Nat.Div0.mod_same in Heq; done. }
  split; [done|]. exists idx, pre, l0, h0, (mid ++ [CLap idx line hit]).
  rewrite <- app_assoc; split_and!; try done.
  - unfold lap_idxs in *; rewrite flat_map_app, E2, Hk, seq_app; simpl. by rewrite Nat.add_1_r.
  - unfold pit_entries in *; rewrite filter_app, E3; reflexivity.
Qed.

Lemma runs_lap_inv cfg xs st evs : runs cfg initial_state xs st evs -> lap_inv cfg xs st.
Proof.
  induction 1 as [|xs st1 evs x st2 evs' _ IH Hx]; [done|].
  destruct Hx as [st1 st1' st2 line hit gps evs' _ Ha Hh | st1 st1' st2 idx line hit gps evs' Hl Ha Hh];
    apply (lap_inv_same _ _ _ _ (accept_same_lap _ _ _ _ _ _ Ha)) in IH;
    eauto using lap_inv_pit, lap_inv_lap.
Qed.

(** C6. Validity: a lap reported valid began at a start/finish crossing, then
    crossed every sector line once and in order, never entered the pits, and
    ended at the start/finish line; its time is the difference of the two
    interpolated instants and not under the minimum lap time. *)
Theorem valid_lap_is_complete (cfg : TimingConfig) (xs : list crossing) (st st' : TimingState)
    (evs evs' : list TimingEvent) (x : crossing) (e : TimingEvent)
    (Hrun : runs cfg initial_state xs st evs) (Hx : crosses cfg st x st' evs')
    (He : e ∈ evs') (Hlap : ev_type e = LAP_COMPLETED) (Hvalid : ev_valid e = true) :
  exists pre line0 start mid line finish,
    xs = pre ++ CLap 0 line0 start :: mid /\ x = CLap 0 line finish /\
    lap_idxs mid = seq 1 (length (lap_points cfg) - 1) /\ pit_entries mid = [] /\
    ev_lap_time e = fsub (h_time finish) (h_time start) /\
    fltb (ev_lap_time e) (min_lap_time_s cfg) = false.
Proof.
  pose proof (runs_lap_inv _ _ _ _ Hrun) as Hi.
  destruct Hx as [st st1 st2 line hit gps evs' _ Ha Hh | st st1 st2 idx line hit gps evs' Hl Ha Hh];
    apply (lap_inv_same _ _ _ _ (accept_same_lap _ _ _ _ _ _ Ha)) in Hi.
  { unfold _handle_pit in Hh; case_decide; injection Hh as _ <-;
      apply list_elem_of_singleton in He as ->; done. }
  unfold _handle_lap_point in Hh. destruct (feqb (lap_start_time st1) f0) eqn:Es.
  { injection Hh as _ <-; by apply elem_of_nil in He. }
  case_decide as H0.
  2: { injection Hh as _ <-. by apply list_elem_of_singleton in He as ->. }
  destruct ((sectors_done st1 =? 0) || fltb _ (min_lap_time_s cfg)) eqn:Eg.
  { injection Hh as _ <-; by apply elem_of_nil in He. }
  apply orb_false_elim in Eg as [_ Eg].
  injection Hh as _ <-. apply elem_of_cons in He as [->|He%list_elem_of_singleton]; [done|].
  rewrite He in Hvalid |- *; simpl in *; subst idx.
  apply andb_prop in Hvalid as [[Hv Ho]%andb_prop _].
  destruct (Hi Es Hv) as (_ & k & pre & l0 & h0 & mid & -> & E1 & E2 & E3 & E4 & E5).
  rewrite bool_decide_eq_true in Ho. rewrite E1 in Eg |- *.
  assert (Hk : k = (length (lap_points cfg) - 1)%nat).
  { destruct (decide (k + 1 < length (lap_points cfg))%nat); [|lia].
    rewrite E5, Nat.mod_small in Ho; lia. }
  exists pre, l0, h0, mid, line, hit. rewrite <- Hk; split_and!; done.
Qed.

(** ** Splits and sectors *)

(** The last crossing of a lap point: its index and its hit. *)
Fixpoint last_lap_point (acc : option (nat * Hit)) (xs : list crossing) : option (nat * Hit) :=
  match xs with
  | [] => acc
  | CLap idx _ hit :: xs => last_lap_point (Some (idx, hit)) xs
  | CPit _ _ :: xs => last_lap_point acc xs
  end.

Lemma last_lap_point_snoc acc xs x :
  last_lap_point acc (xs ++ [x]) =
  match x with CLap idx _ hit => Some (idx, hit) | CPit _ _ => last_lap_point acc xs end.
Proof. revert acc; induction xs as [|[] xs IH]; intros acc; simpl; [by destruct x|done..]. Qed.

(** The running segment starts at the last lap point crossed, and the point
    after it is the one expected. *)
Definition segment_inv (cfg : TimingConfig) (xs : list crossing) (st : TimingState) : Prop :=
  started st ->
  exists idx hit, last_lap_point None xs = Some (idx, hit) /\
    segment_start_time st = h_time hit /\
    expected_idx st = ((idx + 1) mod length (lap_points cfg))%nat.

Lemma segment_inv_lap cfg xs st idx line hit gps st' evs :
  _handle_lap_point cfg st idx line hit gps = (st', evs) -> segment_inv cfg (xs ++ [CLap idx line hit]) st'.
Proof.
  unfold _handle_lap_point; intros Hh _. exists idx, hit; rewrite last_lap_point_snoc; split; [done|].
  destruct (feqb (lap_start_time st) f0); [by injection Hh as <- _|].
  destruct (decide (idx = 0)%nat) as [->|]; [|by injection Hh as <- _].
  destruct (_ || _); by injection Hh as <- _.
Qed.

Lemma segment_inv_pit cfg xs st line hit gps st' evs :
  _handle_pit st line hit gps = (st', evs) -> segment_inv cfg xs st ->
  segment_inv cfg (xs ++ [CPit line hit]) st'.
Proof.
  unfold _handle_pit, segment_inv, started; rewrite last_lap_point_snoc.
  case_decide; by intros [= <- _].
Qed.

Lemma segment_inv_same cfg xs st st' : same_lap st' st -> segment_inv cfg xs st -> segment_inv cfg xs st'.
Proof. unfold segment_inv, started; intros (_ & E1 & E2 & E3 & _) H. by rewrite E1, E2, E3. Qed.

Lemma runs_segment_inv cfg xs st evs : runs cfg initial_state xs st evs -> segment_inv cfg xs st.
Proof.
  induction 1 as [|xs st1 evs x st2 evs' _ IH Hx]; [done|].
  destruct Hx as [st1 st1' st2 line hit gps evs' _ Ha Hh | st1 st1' st2 idx line hit gps evs' Hl Ha Hh].
  - eapply segment_inv_pit; [exact Hh|]. eapply segment_inv_same; [|exact IH].
    by eapply accept_same_lap.
  - by eapply segment_inv_lap.
Qed.

(** Splits belong to the sector just finished: a completed sector's split is
    the time from the previous lap point crossed to this one, its number is
    this point's place in the lap, and when it is reported valid the previous
    point crossed is the one just before it on the track, outside the pits. *)
Theorem split_belongs_to_finished_sector (cfg : TimingConfig) (xs : list crossing) (st st' : TimingState)
    (evs evs' : list TimingEvent) (x : crossing) (e : TimingEvent)
    (Hrun : runs cfg initial_state xs st evs) (Hx : crosses cfg st x st' evs')
    (He : e ∈ evs') (Hsector : ev_type e = SECTOR_COMPLETED) :
  exists idx line hit pidx phit,
    x = CLap idx line hit /\ last_lap_point None xs = Some (pidx, phit) /\
    ev_split_time e = fsub (h_time hit) (h_time phit) /\ ev_time e = h_time hit /\
    ev_sector e = Z.of_nat (if decide (idx = 0)%nat then length (lap_points cfg) else idx) /\
    (ev_valid e = true ->
       idx = ((pidx + 1) mod length (lap_points cfg))%nat /\ ev_pit_status e = on_track).
Proof.
  pose proof (runs_segment_inv _ _ _ _ Hrun) as Hi.
  destruct Hx as [st st1 st2 line hit gps evs' _ Ha Hh | st st1 st2 idx line hit gps evs' Hl Ha Hh];
    apply (segment_inv_same _ _ _ _ (accept_same_lap _ _ _ _ _ _ Ha)) in Hi.
  { exfalso. pose proof (handle_pit_events _ _ _ _ _ _ Hh) as (_ & _ & Hall).
    rewrite Forall_forall in Hall; by apply (Hall e). }
  unfold _handle_lap_point in Hh. unfold segment_inv, started in Hi.
  destruct (feqb (lap_start_time st1) f0) eqn:Es.
  { injection Hh as _ <-; by apply elem_of_nil in He. }
  destruct (Hi eq_refl) as (pidx & phit & Hlast & Hseg & Hexp); clear Hi.
  exists idx, line, hit, pidx, phit. destruct (decide (idx = 0)%nat) as [->|Hne].
  - destruct (_ || _); injection Hh as _ <-; [by apply elem_of_nil in He|].
    apply elem_of_cons in He as [->|He%list_elem_of_singleton]; [|by rewrite He in Hsector].
    simpl; rewrite Hseg; split_and!; try done. intros [[_ Ho]%andb_prop Hp]%andb_prop.
    rewrite bool_decide_eq_true in Ho. split; [congruence | by apply on_track_b_true].
  - injection Hh as _ <-; apply list_elem_of_singleton in He as ->.
    simpl; rewrite Hseg; split_and!; try done. intros [Ho Hp]%andb_prop.
    rewrite bool_decide_eq_true in Ho. split; [congruence | by apply on_track_b_true].
Qed.

(** ** Lap numbers *)

Definition lap_numbers (evs : list TimingEvent) : list Z := map ev_lap_number (lap_events evs).

Lemma lap_numbers_app e e' : lap_numbers (e ++ e') = lap_numbers e ++ lap_numbers e'.
Proof. unfold lap_numbers, lap_events; by rewrite filter_app, map_app. Qed.

Definition nonzero_time (x : crossing) : Prop := feqb (h_time (x_hit x)) f0 = false.

Definition number_inv (st : TimingState) (evs : list TimingEvent) : Prop :=
  if feqb (lap_start_time st) f0 then lap_events evs = []
  else lap_numbers evs = seqZ 1 (Z.of_nat (length (lap_events evs))) /\
       lap_number st = 1 + Z.of_nat (length (lap_events evs)).

Lemma number_inv_lap cfg st idx line hit gps st' evs evs' :
  feqb (h_time hit) f0 = false ->
  number_inv st evs -> _handle_lap_point cfg st idx line hit gps = (st', evs') ->
  number_inv st' (evs ++ evs').
Proof.
  unfold number_inv, _handle_lap_point; intros Hz Hi Hh.
  assert (Hsame : forall k, lap_events (evs ++ []) = k <-> lap_events evs = k) by (by rewrite app_nil_r).
  destruct (feqb (lap_start_time st) f0) eqn:Es.
  { injection Hh as <- <-; simpl. rewrite Hz, app_nil_r. unfold lap_numbers; by rewrite Hi. }
  destruct (decide (idx = 0)%nat) as [->|Hne].
  - destruct (_ || _); injection Hh as <- <-; simpl; rewrite Hz.
    { by rewrite app_nil_r. }
    destruct Hi as [Hn Hl]. rewrite lap_numbers_app, Hn.
    assert (Hle : forall a b, lap_events (a ++ b) = lap_events a ++ lap_events b)
      by (intros; unfold lap_events; apply filter_app).
    rewrite Hle, length_app. unfold lap_numbers at 1. unfold lap_events at 2 4 6.
    cbn. rewrite Nat.add_1_r, seqZ_S, Nat2Z.inj_succ, Hl. by split; [|lia].
  - injection Hh as <- <-; simpl; rewrite Es. unfold lap_numbers, lap_events in *.
    rewrite filter_app; simpl. by rewrite app_nil_r.
Qed.

(** Laps are numbered 1, 2, 3, ... with no gap and no repeat, whether valid or
    not (for crossings at a nonzero instant: zero is the value the state uses
    for a lap not started). *)
Theorem laps_numbered_consecutively (cfg : TimingConfig) (xs : list crossing) (st : TimingState)
    (evs : list TimingEvent) (Hrun : runs cfg initial_state xs st evs)
    (Htime : Forall nonzero_time xs) :
  lap_numbers evs = seqZ 1 (Z.of_nat (length (lap_events evs))).
Proof.
  assert (Hi : number_inv st evs).
  { induction Hrun as [|xs st1 evs x st2 evs' _ IH Hx]; [done|].
    apply Forall_app in Htime as [Hxs [Hx1 _]%Forall_cons]. specialize (IH Hxs).
    assert (Hsame : forall a b, same_lap a b -> number_inv b evs -> number_inv a evs).
    { unfold number_inv; intros a b (E1 & _ & E2 & _); by rewrite E1, E2. }
    destruct Hx as [st1 st1' st2 line hit gps evs' _ Ha Hh | st1 st1' st2 idx line hit gps evs' Hl Ha Hh];
      apply (Hsame _ _ (accept_same_lap _ _ _ _ _ _ Ha)) in IH.
    - pose proof (handle_pit_events _ _ _ _ _ _ Hh) as (Hle & _ & _).
      unfold number_inv, lap_numbers, lap_events in *. rewrite filter_app, Hle, app_nil_r.
      unfold _handle_pit in Hh; case_decide; by injection Hh as <- _.
    - eapply number_inv_lap; [exact Hx1 | exact IH | exact Hh]. }
  unfold number_inv in Hi. destruct (feqb _ _); [|by destruct Hi].
  unfold lap_numbers; by rewrite Hi.
Qed.

(** * A concrete track

    A start/finish line and two sector lines crossed by a car that drives
    east along the equator, one line every 30 seconds. *)

Definition replay_one (cfg : TimingConfig) (gps : GPSPoint) (st : TimingState) (x : crossing)
    : TimingState * list TimingEvent :=
  match x with
  | CPit line hit => _handle_pit (_accept cfg st line hit).1 line hit gps
  | CLap idx line hit => _handle_lap_point cfg (_accept cfg st line hit).1 idx line hit gps
  end.

(** Run a list of crossings, checking that the gate accepts each one. *)
Fixpoint replay (cfg : TimingConfig) (gps : GPSPoint) (st : TimingState) (xs : list crossing)
    : TimingState * list TimingEvent * bool :=
  match xs with
  | [] => (st, [], true)
  | x :: xs =>
      let '(st1, evs) := replay_one cfg gps st x in
      let '(st2, more, ok) := replay cfg gps st1 xs in
      (st2, evs ++ more, (_accept cfg st (x_line x) (x_hit x)).2 && ok)
  end.

Definition on_config (cfg : TimingConfig) (x : crossing) : Prop :=
  match x with
  | CPit line _ => line ∈ pit_lines cfg
  | CLap idx line _ => lap_points cfg !! idx = Some line
  end.

Lemma replay_one_crosses cfg gps st x :
  on_config cfg x -> (_accept cfg st (x_line x) (x_hit x)).2 = true ->
  crosses cfg st x (replay_one cfg gps st x).1 (replay_one cfg gps st x).2.
Proof.
  intros Hc Ha; destruct x as [line hit|idx line hit]; simpl in *;
    destruct (_accept cfg st line hit) as [st1 b] eqn:E; simpl in *; subst b.
  - econstructor; [done | exact E | apply surjective_pairing].
  - econstructor; [done | exact E | apply surjective_pairing].
Qed.

Lemma replay_runs cfg gps st xs :
  Forall (on_config cfg) xs -> (replay cfg gps st xs).2 = true ->
  runs cfg st xs (replay cfg gps st xs).1.1 (replay cfg gps st xs).1.2.
Proof.
  revert st; induction xs as [|x xs IH]; intros st; [by constructor|].
  intros [Hx Hxs]%Forall_cons; simpl.
  pose proof (replay_one_crosses cfg gps st x Hx) as Hone.
  destruct (replay_one cfg gps st x) as [st1 evs]; specialize (IH st1 Hxs).
  destruct (replay cfg gps st1 xs) as [[st2 more] ok]; simpl in *.
  intros [Ha Hok]%andb_prop.
  change (x :: xs) with ([x] ++ xs). eapply runs_trans; [apply runs_one; eauto | eauto].
Qed.

Module Circuit.
Definition pt (lat lon t : Z) : GPSPoint := mkGPS (f_of_ratio lat 10000) (f_of_ratio lon 10000) (f_of_Z t).
Definition line_at (name : string) (lon : Z) : TimingLine :=
  mkLine name (pt (-5) lon 0) (pt 5 lon 0) (classify_line name).
Definition lines : list TimingLine :=
  [line_at "Sector2" 30; line_at "StartFinish" 10; line_at "Sector1" 20; line_at "Pit Entry" 35].
Definition engine : TimingEngine := engine_init lines (f_of_Z 10) (f_of_Z 20) true None.
Definition cfg : TimingConfig := te_config engine.
Definition hit_at (t : Z) : Hit := mkHit (f_of_Z t) "clockwise" 1.
Definition lap_from (t : Z) : list crossing :=
  [CLap 0 (line_at "StartFinish" 10) (hit_at t); CLap 1 (line_at "Sector1" 20) (hit_at (t + 30));
   CLap 2 (line_at "Sector2" 30) (hit_at (t + 60))].
Definition finish : crossing := CLap 0 (line_at "StartFinish" 10) (hit_at 190).
Definition two_laps : list crossing := lap_from 10 ++ lap_from 100.
Definition here : GPSPoint := pt 0 10 190.
Definition ran := replay cfg here initial_state two_laps.
Definition finished := replay_one cfg here ran.1.1 finish.

Lemma two_laps_run : runs cfg initial_state two_laps ran.1.1 ran.1.2.
Proof. apply replay_runs; [repeat constructor | vm_compute; reflexivity]. Qed.
Lemma finish_crosses : crosses cfg ran.1.1 finish finished.1 finished.2.
Proof. apply replay_one_crosses; vm_compute; reflexivity. Qed.

(** The points of the same drive, for the geometry. *)
Definition drive : list GPSPoint := [pt 0 5 0; pt 0 15 20; pt 0 25 60; pt 0 33 100].
End Circuit.

Lemma process_points_runs_witness :
  exists eng' evs xs, process_points (fun _ => f_of_Z 1) Circuit.engine Circuit.drive = (eng', evs) /\
    te_revision eng' = 3 /\ length evs = 2%nat /\
    runs Circuit.cfg initial_state xs (te_state eng') evs /\ length xs = 3%nat.
Proof.
  destruct (process_points_runs (fun _ => f_of_Z 1) Circuit.engine
    (process_points (fun _ => f_of_Z 1) Circuit.engine Circuit.drive).1 Circuit.drive
    (process_points (fun _ => f_of_Z 1) Circuit.engine Circuit.drive).2 (surjective_pairing _))
    as (_ & xs & Hruns & Hrev).
  assert (Hr : te_revision (process_points (fun _ => f_of_Z 1) Circuit.engine Circuit.drive).1 = 3)
    by (vm_compute; reflexivity).
  rewrite Hr in Hrev. eexists _, _, xs; split; [apply surjective_pairing|].
  split; [exact Hr|]. split; [vm_compute; reflexivity|]. split; [exact Hruns|].
  change (te_revision Circuit.engine) with 0 in Hrev; lia.
Defined.

Lemma crossings_debounced_witness :
  chained (apart Circuit.cfg) (hits_of "StartFinish" Circuit.two_laps).
Proof. exact (crossings_debounced _ _ _ _ "StartFinish" Circuit.two_laps_run). Defined.

Lemma best_lap_is_minimum_witness :
  valid_lap_times Circuit.ran.1.2 = [f_of_Z 90] /\
  ((valid_lap_times Circuit.ran.1.2 = [] /\ best_lap_time Circuit.ran.1.1 = f0) \/
   (best_lap_time Circuit.ran.1.1 ∈ valid_lap_times Circuit.ran.1.2 /\
    fleb (f_of_Z 20) (best_lap_time Circuit.ran.1.1) = true /\
    Forall (fun t => fleb (best_lap_time Circuit.ran.1.1) t = true) (valid_lap_times Circuit.ran.1.2))).
Proof.
  split; [vm_compute; reflexivity|].
  apply (best_lap_is_minimum Circuit.cfg Circuit.two_laps).
  - exact Circuit.two_laps_run.
  - vm_compute; reflexivity.
  - vm_compute; repeat constructor.
Defined.

Lemma valid_lap_is_complete_witness :
  exists e, e ∈ Circuit.finished.2 /\ ev_lap_time e = f_of_Z 90 /\
  exists pre line0 start mid line finish,
    Circuit.two_laps = pre ++ CLap 0 line0 start :: mid /\ Circuit.finish = CLap 0 line finish /\
    lap_idxs mid = seq 1 2 /\ pit_entries mid = [] /\
    ev_lap_time e = fsub (h_time finish) (h_time start) /\
    fltb (ev_lap_time e) (f_of_Z 20) = false.
Proof.
  set (e := List.nth 1 Circuit.finished.2 (mkEvent PIT_EXIT f0 "" f0 f0 0 0 f0 f0 false "" on_track)).
  assert (He : e ∈ Circuit.finished.2) by (vm_compute; right; left).
  exists e; split; [exact He|]. split; [vm_compute; reflexivity|].
  apply (valid_lap_is_complete Circuit.cfg Circuit.two_laps Circuit.ran.1.1 Circuit.finished.1
           Circuit.ran.1.2 Circuit.finished.2 Circuit.finish e).
  - exact Circuit.two_laps_run.
  - exact Circuit.finish_crosses.
  - exact He.
  - vm_compute; reflexivity.
  - vm_compute; reflexivity.
Defined.

Lemma split_belongs_to_finished_sector_witness :
  exists e, e ∈ Circuit.finished.2 /\
  exists idx line hit pidx phit,
    Circuit.finish = CLap idx line hit /\ last_lap_point None Circuit.two_laps = Some (pidx, phit) /\
    ev_split_time e = fsub (h_time hit) (h_time phit) /\ ev_time e = h_time hit /\
    ev_sector e = Z.of_nat (if decide (idx = 0)%nat then 3 else idx)%nat /\
    (ev_valid e = true -> idx = ((pidx + 1) mod 3)%nat /\ ev_pit_status e = on_track).
Proof.
  set (e := List.nth 0 Circuit.finished.2 (mkEvent PIT_EXIT f0 "" f0 f0 0 0 f0 f0 false "" on_track)).
  assert (He : e ∈ Circuit.finished.2) by (vm_compute; left).
  exists e; split; [exact He|].
  apply (split_belongs_to_finished_sector Circuit.cfg Circuit.two_laps Circuit.ran.1.1
           Circuit.finished.1 Circuit.ran.1.2 Circuit.finished.2 Circuit.finish e).
  - exact Circuit.two_laps_run.
  - exact Circuit.finish_crosses.
  - exact He.
  - vm_compute; reflexivity.
Defined.

Lemma laps_numbered_consecutively_witness :
  lap_numbers Circuit.ran.1.2 = seqZ 1 1 /\ lap_numbers Circuit.ran.1.2 = [1].
Proof.
  split; [|vm_compute; reflexivity].
  apply (laps_numbered_consecutively Circuit.cfg Circuit.two_laps Circuit.ran.1.1).
  - exact Circuit.two_laps_run.
  - vm_compute; repeat constructor.
Defined.
