(* ===== verification/Distance.v ===== *)
(** Distance along the lap ([src/timing/distance_model.py]).

    The trigonometric functions and [x ** 2] are the platform's libm:
    parameters, under the guard [math] puts on an infinite argument. *)

From S2P Require Import Prelude PyFloat TimingCore.

Local Open Scope Z_scope.

Definition EARTH_RADIUS_M : float := f_of_Z 6371000.

(** The functions of libm the source calls. *)
Record Libm := mkLibm {
  lm_sin : float -> float;
  lm_cos : float -> float;
  lm_asin : float -> float;
  lm_square : float -> float
}.

(** [math.sin] and the like refuse an infinity. *)
Definition math_fn (f : float -> float) (x : float) : res float :=
  match x with S754_infinity _ => raise ValueError "math domain error" | _ => Ok (f x) end.

(** [math.sqrt] refuses a negative operand. *)
Definition math_sqrt (x : float) : res float :=
  if fltb x f0 then raise ValueError "math domain error" else Ok (fsqrt x).

Section Distance.
Context (libm : Libm).

Definition haversine_m (lat1 lon1 lat2 lon2 : float) : res float :=
  let p1 := radians lat1 in
  let p2 := radians lat2 in
  let dphi := radians (fsub lat2 lat1) in
  let dlmb := radians (fsub lon2 lon1) in
  let two := f_of_Z 2 in
  s1 ← math_fn (lm_sin libm) (fdiv_ieee dphi two);
  c1 ← math_fn (lm_cos libm) p1;
  c2 ← math_fn (lm_cos libm) p2;
  s2 ← math_fn (lm_sin libm) (fdiv_ieee dlmb two);
  let a := fadd (lm_square libm s1) (fmul (fmul c1 c2) (lm_square libm s2)) in
  r ← math_sqrt a;
  Ok (fmul (fmul two EARTH_RADIUS_M) (lm_asin libm (fmin (f_of_Z 1) r))).

Record DistanceModel := mkDistance {
  track_length_m : float;
  n_mini_sectors : Z;
  lap_distance : float;
  prev_pos : option float * option float
}.

Definition distance_init (track_length : float) (mini_sectors : Z) : DistanceModel :=
  mkDistance (if ftruthy track_length then track_length else f0) (Z.max 1 mini_sectors) f0 (None, None).

Definition start_lap (self : DistanceModel) : DistanceModel :=
  mkDistance (track_length_m self) (n_mini_sectors self) f0 (None, None).

Definition update (self : DistanceModel) (lat lon : float) : res DistanceModel :=
  d ← match prev_pos self with
      | (Some plat, Some plon) => m ← haversine_m plat plon lat lon; Ok (fadd (lap_distance self) m)
      | _ => Ok (lap_distance self)
      end;
  Ok (mkDistance (track_length_m self) (n_mini_sectors self) d (Some lat, Some lon)).
End Distance.

Definition lap_fraction (self : DistanceModel) : float :=
  if fleb (track_length_m self) f0 then f0
  else fmin (f_of_Z 1) (fdiv_ieee (lap_distance self) (track_length_m self)).

Definition mini_sector (self : DistanceModel) : res Z :=
  if fleb (track_length_m self) f0 then Ok 0
  else
    n ← float_of_int (n_mini_sectors self);
    idx ← f_trunc (fmul (lap_fraction self) n);
    Ok (Z.min (n_mini_sectors self) (idx + 1)).

(** * Bounds *)

(** A NaN length aside, the fraction needs a divisor that is not zero. *)
Lemma lap_fraction_divisor self :
  fleb (track_length_m self) f0 = false ->
  fdiv (lap_distance self) (track_length_m self) =
  Ok (fdiv_ieee (lap_distance self) (track_length_m self)).
Proof. destruct (track_length_m self) as [b| | |]; try done. Qed.

(** What the platform documents of [asin]: on [0, 1] it gives a finite number
    that is not below zero. *)
Definition asin_range (libm : Libm) : Prop :=
  forall x, fleb f0 x = true -> fleb x (f_of_Z 1) = true ->
    finite (lm_asin libm x) /\ fleb f0 (lm_asin libm x) = true.

Definition distance_ok (self : DistanceModel) : Prop :=
  is_nan (lap_distance self) = false /\ fsign (lap_distance self) = false.

Lemma fmin_one_range r :
  fsign r = false -> fleb f0 (fmin (f_of_Z 1) r) = true /\ fleb (fmin (f_of_Z 1) r) (f_of_Z 1) = true.
Proof.
  intros Hs; unfold fmin. destruct (fltb r (f_of_Z 1)) eqn:E; [|by vm_compute].
  pose proof (fltb_nan_l _ _ E) as [Hn _]. split; [by apply sign_nonneg | by apply fltb_fleb].
Qed.

Lemma scaled_nonneg k y :
  finite k -> fsign k = false -> finite y -> fleb f0 y = true -> fleb f0 (fmul k y) = true.
Proof.
  intros Hk Hks Hy Hs; destruct (fmul_ok k y Hk Hy) as [Hn Hsg]. rewrite Hks in Hsg.
  destruct y as [z|[]| |[] m e]; try done; try (by apply sign_nonneg).
  by destruct k.
Qed.

(** A great-circle distance is never NaN nor negative, even from coordinates
    that are NaN: the haversine is clamped to 1 before [asin]. *)
Lemma haversine_ok libm a b c d m :
  asin_range libm -> haversine_m libm a b c d = Ok m -> fleb f0 m = true.
Proof.
  intros Hasin; unfold haversine_m.
  intros (s1 & _ & (c1 & _ & (c2 & _ & (s2 & _ & (r & Hr & [= <-])%res_bind_Ok)%res_bind_Ok)%res_bind_Ok)%res_bind_Ok)%res_bind_Ok.
  assert (Hm : fleb f0 (fmin (f_of_Z 1) r) = true /\ fleb (fmin (f_of_Z 1) r) (f_of_Z 1) = true).
  { unfold math_sqrt in Hr; destruct (fltb _ f0) eqn:Elt; [done|]. injection Hr as <-.
    match type of Elt with fltb ?x _ = _ => set (y := x) in * end.
    destruct (fsign y) eqn:Ey; [|destruct (fsqrt_sign y Ey) as [Hn|Hs]; [|by apply fmin_one_range]].
    - destruct y as [[]|[]| |[] ? ?]; try done.
    - unfold fmin. destruct (fltb (fsqrt y) (f_of_Z 1)) eqn:E; [|by vm_compute].
      pose proof (fltb_nan_l _ _ E); intuition congruence. }
  destruct Hm as [Hm1 Hm2]. destruct (Hasin _ Hm1 Hm2) as [Hf Hs].
  refine (scaled_nonneg (fmul (f_of_Z 2) EARTH_RADIUS_M) _ _ _ Hf Hs); by vm_compute.
Qed.

Lemma update_ok libm self lat lon self' :
  asin_range libm -> distance_ok self -> update libm self lat lon = Ok self' -> distance_ok self'.
Proof.
  intros Hasin [Hn Hs]; unfold update.
  destruct (prev_pos self) as [[plat|] [plon|]]; simpl; try (by intros [= <-]).
  destruct (haversine_m libm plat plon lat lon) as [m|] eqn:Em; simpl; [|done]. intros [= <-].
  apply fadd_nonneg; [done..|]. by eapply haversine_ok.
Qed.

Lemma start_lap_ok self : distance_ok (start_lap self).
Proof. done. Qed.

(** A mini-sector is a number from 1 to the count, whatever the distance
    travelled; 0 says the track length is unknown. *)
Theorem mini_sector_bounds (self : DistanceModel) (k : Z)
    (Hn : 1 <= n_mini_sectors self) (Hd : fsign (lap_distance self) = false)
    (Hlen : is_nan (track_length_m self) = false) (Hk : mini_sector self = Ok k) :
  (fleb (track_length_m self) f0 = true /\ k = 0) \/ 1 <= k <= n_mini_sectors self.
Proof.
  unfold mini_sector in Hk; destruct (fleb (track_length_m self) f0) eqn:El.
  { left; by injection Hk as <-. }
  right. apply res_bind_Ok in Hk as (n & Hn' & (idx & Hidx & [= <-])%res_bind_Ok).
  enough (0 <= idx) by lia.
  assert (Hl : fsign (track_length_m self) = false)
    by (clear -El Hlen; destruct (track_length_m self) as [[]|[]| |[]]; done).
  assert (Hf : fsign (lap_fraction self) = false).
  { unfold lap_fraction; rewrite El. unfold fmin. destruct (fltb _ _) eqn:Elt; [|done].
    destruct (fdiv_sign (lap_distance self) (track_length_m self)) as [Hnan| ->]; [|by rewrite Hd, Hl].
    exfalso. destruct (fdiv_ieee _ _); done. }
  destruct (fmul_sign (lap_fraction self) n) as [Hnan|Hs].
  - exfalso. unfold f_trunc in Hidx. destruct (fmul _ _); done.
  - eapply f_trunc_nonneg; [|exact Hidx]. rewrite Hs, Hf.
    by rewrite (float_of_int_sign (n_mini_sectors self) n ltac:(lia) Hn').
Qed.

Lemma mini_sector_bounds_witness :
  let self := mkDistance (f_of_Z 2400) 20 (f_of_Z 1250) (None, None) in
  mini_sector self = Ok 11 /\
  ((fleb (track_length_m self) f0 = true /\ 11 = 0) \/ 1 <= 11 <= n_mini_sectors self).
Proof.
  split; [vm_compute; reflexivity|].
  apply (mini_sector_bounds (mkDistance (f_of_Z 2400) 20 (f_of_Z 1250) (None, None)));
    [simpl; lia | vm_compute; reflexivity..].
Defined.
