(* ===== verification/ReferenceLap.v ===== *)
(** The best lap's distance-time curve and the live delta
    ([src/timing/reference_lap.py]). *)

From S2P Require Import Prelude PyFloat.

Local Open Scope Z_scope.

Record ReferenceLap := mkReference {
  distances : list float;
  times : list float;
  rl_lap_time : float
}.

(** [bisect.bisect_right]: the binary search, with the length as fuel. *)
Fixpoint bisect_loop (fuel : nat) (l : list float) (x : float) (lo hi : nat) : nat :=
  match fuel with
  | O => lo
  | S fuel =>
      if decide (lo < hi)%nat then
        let mid := ((lo + hi) / 2)%nat in
        match l !! mid with
        | Some y => if fltb x y then bisect_loop fuel l x lo mid else bisect_loop fuel l x (mid + 1) hi
        | None => lo
        end
      else lo
  end.
Definition bisect_right (l : list float) (x : float) : nat := bisect_loop (length l) l x 0 (length l).

Definition at_index (l : list float) (i : nat) : res float :=
  match l !! i with Some x => Ok x | None => raise IndexError "list index out of range" end.

(** Linear interpolation; [d[-1]] and [t[-1]] are the last elements. *)
Definition time_at (self : ReferenceLap) (distance : float) : res float :=
  let d := distances self in
  let t := times self in
  match d with
  | [] => Ok f0
  | first :: _ =>
      if fleb distance first then at_index t 0
      else
        dl ← at_index d (length d - 1);
        if fleb dl distance then
          match t with [] => raise IndexError "list index out of range" | _ => at_index t (length t - 1) end
        else
          let i := bisect_right d distance in
          di ← at_index d i;
          dp ← at_index d (i - 1);
          let span := fsub di dp in
          frac ← (if fltb f0 span then fdiv (fsub distance dp) span else Ok f0);
          tp ← at_index t (i - 1);
          ti ← at_index t i;
          Ok (fadd tp (fmul frac (fsub ti tp)))
  end.

Record LapRecorder := mkRecorder {
  grid_m : float;
  _dist : list float;
  _time : list float
}.

Definition recorder_init : LapRecorder := mkRecorder (f_of_Z 5) [] [].

Definition reset (self : LapRecorder) : LapRecorder := mkRecorder (grid_m self) [] [].

Definition rec_add (self : LapRecorder) (distance elapsed : float) : LapRecorder :=
  let keep := mkRecorder (grid_m self) (_dist self ++ [distance]) (_time self ++ [elapsed]) in
  match last_opt (_dist self) with
  | Some prev =>
      if fleb distance prev then self
      else if fltb (fsub distance prev) (grid_m self) then self
      else keep
  | None => keep
  end.

Definition complete (self : LapRecorder) (lap_time : float) : option ReferenceLap :=
  if (length (_dist self) <? 10)%nat then None
  else Some (mkReference (_dist self) (_time self) lap_time).

(** [DeltaTracker]: its state is the reference. *)
Definition offer (reference candidate : option ReferenceLap) (valid : bool)
    : option ReferenceLap * bool :=
  match candidate with
  | None => (reference, false)
  | Some c =>
      if negb valid || fleb (rl_lap_time c) f0 then (reference, false)
      else
        match reference with
        | None => (Some c, true)
        | Some r => if fltb (rl_lap_time c) (rl_lap_time r) then (Some c, true) else (reference, false)
        end
  end.

Definition delta (reference : option ReferenceLap) (distance elapsed : float) : res (option float) :=
  match reference with
  | None => Ok None
  | Some r => t ← time_at r distance; Ok (Some (fsub elapsed t))
  end.

Definition predicted (reference : option ReferenceLap) (distance elapsed : float) : res (option float) :=
  d ← delta reference distance elapsed;
  match reference, d with
  | Some r, Some d => Ok (Some (fadd (rl_lap_time r) d))
  | _, _ => Ok None
  end.

(** * Recorded curves *)

(** A curve the recorder can hold: as many times as distances, and distances
    that strictly increase by at least the grid. *)
Fixpoint increasing (grid : float) (l : list float) : Prop :=
  match l with
  | a :: (b :: _) as l => fltb a b = true /\ fltb (fsub b a) grid = false /\ increasing grid l
  | _ => True
  end.

Definition recorder_wf (r : LapRecorder) : Prop :=
  length (_dist r) = length (_time r) /\ Forall (fun x => is_nan x = false) (_dist r) /\
  increasing (grid_m r) (_dist r).

Lemma increasing_snoc grid l x :
  increasing grid l ->
  (forall y, last l = Some y -> fltb y x = true /\ fltb (fsub x y) grid = false) ->
  increasing grid (l ++ [x]).
Proof.
  induction l as [|a [|b l] IH]; simpl; [done | |].
  - intros _ Hx; destruct (Hx a eq_refl); done.
  - intros (H1 & H2 & H3) Hx; split_and!; [done..|]. by apply IH.
Qed.

Lemma reset_wf r : recorder_wf (reset r).
Proof. by split_and!. Qed.

(** Recording keeps the curve well formed, for a distance that is a number. *)
Lemma rec_add_wf r d e : is_nan d = false -> recorder_wf r -> recorder_wf (rec_add r d e).
Proof.
  intros Hd (Hlen & Hnan & Hinc). unfold rec_add, last_opt.
  assert (Hkeep : (forall y, last (_dist r) = Some y -> fltb y d = true /\ fltb (fsub d y) (grid_m r) = false) ->
                  recorder_wf (mkRecorder (grid_m r) (_dist r ++ [d]) (_time r ++ [e]))).
  { intros Hy; split_and!; simpl; [rewrite !length_app; simpl; lia | | by apply increasing_snoc].
    apply Forall_app; split; [done | by constructor]. }
  destruct (last (_dist r)) as [prev|] eqn:El; [|by apply Hkeep].
  destruct (fleb d prev) eqn:E1; [done|]. destruct (fltb _ _) eqn:E2; [done|].
  apply Hkeep; intros y [= <-]; split; [|done].
  apply last_Some in El as [l' El]. rewrite El in Hnan.
  apply Forall_app in Hnan as [_ [Hp _]%Forall_cons]. forder.
Qed.

(** A curve that can be interpolated. *)
Definition curve_wf (r : ReferenceLap) : Prop :=
  length (distances r) = length (times r) /\
  Forall (fun x => is_nan x = false) (distances r) /\
  forall i a b, distances r !! i = Some a -> distances r !! S i = Some b -> fltb a b = true.

Lemma increasing_lookup grid l i a b :
  increasing grid l -> l !! i = Some a -> l !! S i = Some b -> fltb a b = true.
Proof.
  revert i; induction l as [|x [|y l] IH]; intros i Hi; [done | by destruct i|].
  destruct Hi as (H1 & _ & H3). destruct i as [|i]; simpl; [by intros [= <-] [= <-] | by apply IH].
Qed.

Lemma complete_wf r t c : recorder_wf r -> complete r t = Some c -> curve_wf c /\ rl_lap_time c = t.
Proof.
  intros (H1 & H2 & H3); unfold complete; destruct (_ <? _)%nat; [done|]. intros [= <-].
  split; [|done]. split_and!; simpl; [done..|]. intros; by eapply increasing_lookup.
Qed.

(** * Interpolation *)

Lemma bisect_loop_spec fuel l x lo hi :
  (hi - lo <= fuel)%nat -> (hi <= length l)%nat -> (lo <= hi)%nat ->
  let i := bisect_loop fuel l x lo hi in
  (lo <= i <= hi)%nat /\
  (forall y, l !! i = Some y -> (i < hi)%nat -> fltb x y = true) /\
  (forall y, (lo < i)%nat -> l !! (i - 1)%nat = Some y -> fltb x y = false).
Proof.
  revert lo hi; induction fuel as [|fuel IH]; intros lo hi Hf Hh Hl; cbn [bisect_loop].
  { split_and!; [lia..| |]; intros; lia. }
  destruct (decide (lo < hi)%nat) as [Hlt|]; [|split_and!; [lia..| |]; intros; lia].
  assert (Hm : (lo <= (lo + hi) / 2 < hi)%nat).
  { split; [apply Nat.div_le_lower_bound; lia | apply Nat.Div0.div_lt_upper_bound; lia]. }
  destruct (l !! ((lo + hi) / 2)%nat) as [y|] eqn:Ey.
  2: { apply lookup_ge_None in Ey; lia. }
  destruct (fltb x y) eqn:Exy.
  - destruct (IH lo ((lo + hi) / 2)%nat) as (H1 & H2 & H3); [lia..|].
    split_and!; [lia..| |done]. intros z Hz _.
    destruct (decide (bisect_loop fuel l x lo ((lo + hi) / 2) < (lo + hi) / 2)%nat); [by eapply H2|].
    assert (E : bisect_loop fuel l x lo ((lo + hi) / 2) = ((lo + hi) / 2)%nat) by lia.
    rewrite E in Hz; congruence.
  - destruct (IH ((lo + hi) / 2 + 1)%nat hi) as (H1 & H2 & H3); [lia..|].
    split_and!; [lia..|done|]. intros z _ Hz.
    destruct (decide ((lo + hi) / 2 + 1 < bisect_loop fuel l x ((lo + hi) / 2 + 1) hi)%nat); [by eapply H3|].
    replace (bisect_loop fuel l x ((lo + hi) / 2 + 1) hi - 1)%nat with ((lo + hi) / 2)%nat in Hz by lia.
    congruence.
Qed.

(** On a well-formed curve the reference time is always defined: no index is
    out of range and no division by zero happens, at any distance that is a
    number. *)
Lemma time_at_total (r : ReferenceLap) (distance : float)
    (Hwf : curve_wf r) (Hd : is_nan distance = false) : exists t, time_at r distance = Ok t.
Proof.
  destruct Hwf as (Hlen & Hnan & Hinc); unfold time_at.
  assert (Hat : forall l i, (i < length l)%nat -> exists x, l !! i = Some x /\ at_index l i = Ok x).
  { intros l i Hi; destruct (lookup_lt_is_Some_2 l i Hi) as [x Hx]; exists x; unfold at_index; by rewrite Hx. }
  destruct (distances r) as [|first d] eqn:Ed; [eauto|]; rewrite <- Ed in *.
  assert (Hpos : (0 < length (distances r))%nat) by (rewrite Ed; simpl; lia).
  destruct (fleb distance first) eqn:E1.
  { destruct (Hat (times r) 0%nat) as (x & _ & ->); [lia | eauto]. }
  destruct (Hat (distances r) (length (distances r) - 1)%nat) as (dl & Hdl & ->); [lia|]; simpl.
  destruct (fleb dl distance) eqn:E2.
  { destruct (times r) eqn:Et; [simpl in *; lia|]; rewrite <- Et in *.
    destruct (Hat (times r) (length (times r) - 1)%nat) as (x & _ & ->); [lia | eauto]. }
  unfold bisect_right.
  destruct (bisect_loop_spec (length (distances r)) (distances r) distance 0 (length (distances r)))
    as (Hi & Hlt & Hge); [lia..|].
  set (i := bisect_loop _ _ _ _ _) in *.
  assert (Hin : forall j y, distances r !! j = Some y -> is_nan y = false)
    by (intros j y Hj; exact (Forall_lookup_1 _ _ _ _ Hnan Hj)).
  assert (Hi1 : (0 < i)%nat).
  { destruct (decide (i = 0)%nat) as [Ez|]; [exfalso|lia].
    assert (H0 : distances r !! i = Some first) by (by rewrite Ez, Ed).
    pose proof (Hlt _ H0 ltac:(lia)). pose proof (Hin _ _ H0). forder. }
  assert (Hi2 : (i < length (distances r))%nat).
  { destruct (decide (i = length (distances r))%nat) as [Ez|]; [exfalso|lia].
    rewrite <- Ez in Hdl. pose proof (Hge _ Hi1 Hdl). pose proof (Hin _ _ Hdl). forder. }
  destruct (Hat (distances r) i) as (di & Hdi & ->); [lia|]; simpl.
  destruct (Hat (distances r) (i - 1)%nat) as (dp & Hdp & ->); [lia|]; simpl.
  destruct (Hat (times r) (i - 1)%nat) as (tp & _ & ->); [lia|].
  destruct (Hat (times r) i) as (ti & _ & ->); [lia|].
  destruct (fltb f0 (fsub di dp)) eqn:Es; simpl; [|eauto].
  unfold fdiv; destruct (fsub di dp); simpl; eauto. by destruct s.
Qed.

(** * The fastest lap is the reference *)

Definition offer_all (reference : option ReferenceLap) (laps : list (option ReferenceLap * bool))
    : option ReferenceLap :=
  fold_left (fun r lap => (offer r lap.1 lap.2).1) laps reference.

(** A lap that may become the reference: recorded, valid, of positive time. *)
Definition eligible (lap : option ReferenceLap * bool) (c : ReferenceLap) : Prop :=
  lap = (Some c, true) /\ fleb (rl_lap_time c) f0 = false.

(** The reference is never slower than any eligible lap offered, and it is one
    of them. *)
Theorem reference_is_fastest (laps : list (option ReferenceLap * bool))
    (Hnum : forall lap c, lap ∈ laps -> eligible lap c -> is_nan (rl_lap_time c) = false) :
  match offer_all None laps with
  | None => forall lap c, lap ∈ laps -> ~ eligible lap c
  | Some r =>
      (exists lap, lap ∈ laps /\ eligible lap r) /\
      forall lap c, lap ∈ laps -> eligible lap c -> fleb (rl_lap_time r) (rl_lap_time c) = true
  end.
Proof.
  unfold offer_all. revert Hnum; induction laps as [|[c v] laps IH] using rev_ind; intros Hnum.
  { intros lap c Hin; by apply elem_of_nil in Hin. }
  rewrite fold_left_app; simpl.
  assert (IH' := IH (fun lap c Hin => Hnum lap c (proj2 (elem_of_app _ _ _) (or_introl Hin)))).
  assert (Hlast : (c, v) ∈ laps ++ [(c, v)]) by (apply elem_of_app; right; left).
  destruct (fold_left _ laps None) as [r|]; unfold offer.
  - destruct IH' as [(lap & Hin & Hel) Hall].
    assert (Hr : is_nan (rl_lap_time r) = false).
    { eapply Hnum; [|exact Hel]. apply elem_of_app; by left. }
    destruct c as [c|]; simpl.
    2: { split; [exists lap; split; [apply elem_of_app; by left | done]|].
         intros lap' c' [Hin'| ->%list_elem_of_singleton]%elem_of_app; [by apply Hall | by intros []]. }
    destruct (negb v || _) eqn:Ev; simpl.
    + split; [exists lap; split; [apply elem_of_app; by left | done]|].
      intros lap' c' [Hin'| ->%list_elem_of_singleton]%elem_of_app; [by apply Hall|].
      intros [[= -> ->] Hpos]; simpl in Ev; congruence.
    + apply orb_false_elim in Ev as [Ev Hpos]; apply negb_false_iff in Ev as ->.
      assert (Hc : is_nan (rl_lap_time c) = false) by (by eapply Hnum; [exact Hlast|]).
      destruct (fltb (rl_lap_time c) (rl_lap_time r)) eqn:Elt; simpl.
      * split; [by exists (Some c, true)|].
        intros lap' c' [Hin'| ->%list_elem_of_singleton]%elem_of_app Hel'.
        -- specialize (Hall _ _ Hin' Hel'). forder.
        -- destruct Hel' as [[= <-] _]. forder.
      * split; [exists lap; split; [apply elem_of_app; by left | done]|].
        intros lap' c' [Hin'| ->%list_elem_of_singleton]%elem_of_app; [by apply Hall|].
        intros [[= <-] _]. forder.
  - destruct c as [c|]; simpl.
    2: { intros lap' c' [Hin'| ->%list_elem_of_singleton]%elem_of_app; [by apply IH' | by intros []]. }
    destruct (negb v || _) eqn:Ev; simpl.
    + intros lap' c' [Hin'| ->%list_elem_of_singleton]%elem_of_app; [by apply IH'|].
      intros [[= -> ->] Hpos]; simpl in Ev; congruence.
    + apply orb_false_elim in Ev as [Ev Hpos]; apply negb_false_iff in Ev as ->.
      assert (Hc : is_nan (rl_lap_time c) = false) by (by eapply Hnum; [exact Hlast|]).
      split; [by exists (Some c, true)|].
      intros lap' c' [Hin'| ->%list_elem_of_singleton]%elem_of_app Hel'; [by apply IH' in Hel'|].
      destruct Hel' as [[= <-] _]. forder.
Qed.

(** Two valid laps and an invalid faster one. *)
Definition demo_lap (t : Z) : ReferenceLap :=
  mkReference [f_of_Z 0; f_of_Z 5; f_of_Z 10] [f_of_Z 0; f_of_Z 1; f_of_Z 3] (f_of_Z t).

Lemma reference_is_fastest_witness :
  offer_all None [(Some (demo_lap 90), true); (Some (demo_lap 80), false); (Some (demo_lap 85), true)]
    = Some (demo_lap 85) /\
  match offer_all None [(Some (demo_lap 90), true); (Some (demo_lap 80), false); (Some (demo_lap 85), true)] with
  | None => forall lap c, lap ∈ [(Some (demo_lap 90), true); (Some (demo_lap 80), false); (Some (demo_lap 85), true)] ->
                 ~ eligible lap c
  | Some r =>
      (exists lap, lap ∈ [(Some (demo_lap 90), true); (Some (demo_lap 80), false); (Some (demo_lap 85), true)] /\
         eligible lap r) /\
      forall lap c, lap ∈ [(Some (demo_lap 90), true); (Some (demo_lap 80), false); (Some (demo_lap 85), true)] ->
        eligible lap c -> fleb (rl_lap_time r) (rl_lap_time c) = true
  end.
Proof.
  split; [vm_compute; reflexivity|].
  apply (reference_is_fastest [(Some (demo_lap 90), true); (Some (demo_lap 80), false); (Some (demo_lap 85), true)]).
  intros lap c Hin [-> _]. rewrite !elem_of_cons in Hin.
  destruct_or! Hin; try (by apply elem_of_nil in Hin); injection Hin as ->; vm_compute; reflexivity.
Defined.
