(* ===== verification/TimingApp.v ===== *)
(** In-agent lap timing ([src/agent/timing_app.py]): the timing engine, the
    distance model and the reference lap, fed by the pipeline's pre-RBE tap.

    [LapTiming] is the pipeline's interface [TapApp] implemented by
    [LapTimingApp]. What the platform computes is a parameter: libm,
    [json.dumps] and [float(str)]. *)

From S2P Require Import Prelude PyFloat Glob Config Wire Catalog Rbe Batcher Pipeline.
From S2P Require Import TimingCore Distance ReferenceLap.

Local Open Scope Z_scope.

Record TrackDefinition := mkTrack {
  td_name : string;
  td_lines : list TimingLine;
  td_length_m : float;
  td_mini_sectors : Z
}.

Record TimingAppStats := mkStats {
  st_fixes : Z;
  st_unpaired_fixes : Z;
  st_events : Z;
  st_track_switches : Z
}.

(** What a track switch replaces, and the sample halves waiting. *)
Record Timing := mkTiming {
  ta_track : TrackDefinition;
  ta_engine : TimingEngine;
  ta_distance : DistanceModel;
  ta_recorder : LapRecorder;
  ta_reference : option ReferenceLap;
  ta_last_emitted : gmap string SampleValue;
  ta_pending_lat : option Sample;
  ta_pending_lon : option Sample
}.

Record LapTimingApp := mkApp {
  subscribed_channel_ids : gset Z;
  _lat_id : Z;
  _lon_id : Z;
  _tracks_by_name : gmap string TrackDefinition;
  _session : list (string * obj);
  app_stats : TimingAppStats;
  app_timing : Timing
}.

Definition str_endswith (suffix s : string) : bool :=
  let k := (String.length s - String.length suffix)%nat in
  (String.length suffix <=? String.length s)%nat && String.eqb (String.substring k (String.length suffix) s) suffix.

(** [_install_track]: a fresh engine, distance, recorder and reference. *)
Definition _install_track (track : TrackDefinition) : Timing :=
  mkTiming track (engine_init (td_lines track) (f_of_Z 10) (f_of_Z 20) true None)
    (distance_init (td_length_m track) (td_mini_sectors track)) recorder_init None ∅ None None.

(** The constructor: the position channels by name. *)
Definition app_init (ids : gmap string Z) (position_glob : string) (track : TrackDefinition)
    (tracks_by_name : gmap string TrackDefinition) : res LapTimingApp :=
  let subscribed := filter (fun kv => fnmatchcase kv.1 position_glob) (map_to_list ids) in
  let lat_ids := list_to_set (C := gset Z) (map snd (filter (fun kv => str_endswith ".lat" kv.1) subscribed)) in
  let lon_ids := list_to_set (C := gset Z) (map snd (filter (fun kv => str_endswith ".lon" kv.1) subscribed)) in
  match subscribed with
  | [] => raise ValueError ("apps.lap_timing.position '" +:+ position_glob +:+ "' matches no channels")
  | _ =>
      match elements lat_ids, elements lon_ids with
      | [lat], [lon] =>
          Ok (mkApp (list_to_set (map snd subscribed)) lat lon tracks_by_name [] (mkStats 0 0 0 0)
                (_install_track track))
      | _, _ => raise ValueError ("apps.lap_timing.position '" +:+ position_glob +:+
                  "' must match exactly one *.lat and one *.lon channel")
      end
  end.

Definition set_timing_state (self : LapTimingApp) (t : Timing) : LapTimingApp :=
  mkApp (subscribed_channel_ids self) (_lat_id self) (_lon_id self) (_tracks_by_name self)
    (_session self) (app_stats self) t.
Definition set_stats (self : LapTimingApp) (s : TimingAppStats) : LapTimingApp :=
  mkApp (subscribed_channel_ids self) (_lat_id self) (_lon_id self) (_tracks_by_name self)
    (_session self) s (app_timing self).
Definition set_session (self : LapTimingApp) (s : list (string * obj)) : LapTimingApp :=
  mkApp (subscribed_channel_ids self) (_lat_id self) (_lon_id self) (_tracks_by_name self)
    s (app_stats self) (app_timing self).

(** New session identity; a known track it names replaces the current one. *)
Definition apply_session (self : LapTimingApp) (session : list (string * obj)) : LapTimingApp :=
  let self := set_session self session in
  match oget "track_name" session with
  | OStr requested =>
      if negb (String.eqb requested "") && negb (String.eqb requested (td_name (ta_track (app_timing self)))) then
        match _tracks_by_name self !! requested with
        | None => self
        | Some replacement =>
            let s := app_stats self in
            set_stats (set_timing_state self (_install_track replacement))
              (mkStats (st_fixes s) (st_unpaired_fixes s) (st_events s) (st_track_switches s + 1))
        end
      else self
  | _ => self
  end.

Definition set_pending_pos (t : Timing) (lat lon : option Sample) : Timing :=
  mkTiming (ta_track t) (ta_engine t) (ta_distance t) (ta_recorder t) (ta_reference t)
    (ta_last_emitted t) lat lon.
Definition set_engine (t : Timing) (e : TimingEngine) : Timing :=
  mkTiming (ta_track t) e (ta_distance t) (ta_recorder t) (ta_reference t)
    (ta_last_emitted t) (ta_pending_lat t) (ta_pending_lon t).
Definition set_lap (t : Timing) (d : DistanceModel) (r : LapRecorder) (ref : option ReferenceLap) : Timing :=
  mkTiming (ta_track t) (ta_engine t) d r ref (ta_last_emitted t) (ta_pending_lat t) (ta_pending_lon t).
Definition set_emitted (t : Timing) (m : gmap string SampleValue) : Timing :=
  mkTiming (ta_track t) (ta_engine t) (ta_distance t) (ta_recorder t) (ta_reference t) m
    (ta_pending_lat t) (ta_pending_lon t).

(** Python's [==] between sample values. *)
Definition value_eqb (a b : SampleValue) : bool :=
  let as_num v := match v with
    | VFloat x => Some (NFloat x) | VInt z => Some (NInt z)
    | VBool b => Some (NInt (if b then 1 else 0)) | VStr _ => None end in
  match a, b with
  | VStr s, VStr s' => String.eqb s s'
  | _, _ => match as_num a, as_num b with Some x, Some y => num_eqb x y | _, _ => false end
  end.

Section App.
Context (libm : Libm) (json_dumps : obj -> string) (float_of_str : string -> res float).

(** [float(value)]. *)
Definition float_of_value (v : SampleValue) : res float :=
  match v with
  | VFloat x => Ok x
  | VInt z => float_of_int z
  | VBool b => Ok (if b then f_of_Z 1 else f0)
  | VStr s => float_of_str s
  end.

Definition event_type_value (t : EventType) : string :=
  match t with
  | SECTOR_COMPLETED => "sector_completed" | LAP_COMPLETED => "lap_completed"
  | PIT_ENTRY => "pit_entry" | PIT_EXIT => "pit_exit"
  end.

Definition _SESSION_STAMP_KEYS : list string :=
  ["session_id"; "driver"; "stint_number"; "session_type"; "track_name"].

Definition _encode_event (session : list (string * obj)) (e : TimingEvent) : string :=
  let payload := [
    ("type", OStr (event_type_value (ev_type e))); ("time", OFloat (ev_time e));
    ("line", OStr (ev_line e)); ("lap_number", OInt (ev_lap_number e));
    ("sector", OInt (ev_sector e)); ("split_time", OFloat (ev_split_time e));
    ("lap_time", OFloat (ev_lap_time e)); ("valid", OBool (ev_valid e));
    ("direction", OStr (ev_direction e));
    ("pit_status", OStr (match ev_pit_status e with on_track => "track" | in_pit => "pit" end));
    ("lat", OFloat (ev_lat e)); ("lon", OFloat (ev_lon e))] in
  json_dumps (ODict (fold_left (fun payload key =>
    match oget key session with ONone => payload | value => od_set key value payload end)
    _SESSION_STAMP_KEYS payload)).

(** [emit]: with [always] unset, an unchanged value is not repeated. *)
Definition emit (lat : Sample) (out : Timing * list Sample) (name : string) (value : SampleValue)
    (always : bool) : Timing * list Sample :=
  let '(t, emitted) := out in
  let unchanged := match ta_last_emitted t !! name with Some v => value_eqb v value | None => false end in
  if negb always && unchanged then out
  else
    (set_emitted t (<[name := value]> (ta_last_emitted t)),
     emitted ++ [mkSample ("derived:" +:+ name) (s_t_mono_ns lat) (s_t_wall_ms lat) value]).

#[local] Arguments emit : simpl never.

Definition best_known (st : TimingState) : bool := fltb f0 (best_lap_time st).

(** One event: announce it, and on a lap offer the recorded curve. *)
Definition handle_event (session : list (string * obj)) (lat : Sample) (out : Timing * list Sample)
    (e : TimingEvent) : Timing * list Sample :=
  let out := emit lat out "lap.event" (VStr (_encode_event session e)) true in
  if decide (ev_type e = LAP_COMPLETED) then
    let t := out.1 in
    let candidate := complete (ta_recorder t) (ev_lap_time e) in
    let reference := (offer (ta_reference t) candidate (ev_valid e)).1 in
    let t := set_lap t (start_lap (ta_distance t)) (reset (ta_recorder t)) reference in
    let out := emit lat (t, out.2) "lap.last_time" (VFloat (ev_lap_time e)) true in
    if best_known (te_state (ta_engine t)) then
      emit lat out "lap.best_time" (VFloat (best_lap_time (te_state (ta_engine t)))) false
    else out
  else out.

(** The values published with every fix, after the events. *)
Definition emit_running (lat : Sample) (timestamp : float) (out : Timing * list Sample)
    : Timing * res (list Sample) :=
  let snap := snapshot (ta_engine out.1) in
  let out := emit lat out "lap.number" (VInt (sn_lap_number snap)) false in
  let out := emit lat out "lap.sector" (VInt (sn_sector snap)) false in
  let start := lap_start_time (te_state (ta_engine out.1)) in
  if fltb f0 start then
    let distance := lap_distance (ta_distance out.1) in
    let elapsed := fsub timestamp start in
    let out := emit lat out "timing.distance" (VFloat distance) true in
    let out := emit lat out "timing.lap_elapsed" (VFloat elapsed) true in
    match delta (ta_reference out.1) distance elapsed with
    | Raise e => (out.1, Raise e)
    | Ok None => (out.1, Ok out.2)
    | Ok (Some d) =>
        let out := emit lat out "timing.delta_best" (VFloat d) true in
        match predicted (ta_reference out.1) distance elapsed with
        | Raise e => (out.1, Raise e)
        | Ok None => (out.1, Ok out.2)
        | Ok (Some p) =>
            let out := emit lat out "timing.predicted_lap" (VFloat p) true in (out.1, Ok out.2)
        end
    end
  else (out.1, Ok out.2).

(** The engine's part of a fix: recorder, crossings, distance origin. *)
Definition advance (t : Timing) (point : GPSPoint) : Timing * list TimingEvent :=
  let state := te_state (ta_engine t) in
  let lap_running := fltb f0 (lap_start_time state) in
  let recorder :=
    if lap_running then
      rec_add (ta_recorder t) (lap_distance (ta_distance t)) (fsub (gp_timestamp point) (lap_start_time state))
    else ta_recorder t in
  let '(engine, events) := process_point (lm_cos libm) (ta_engine t) point in
  let t := set_engine (set_lap t (ta_distance t) recorder (ta_reference t)) engine in
  if negb lap_running && fltb f0 (lap_start_time (te_state engine)) then
    (set_lap t (start_lap (ta_distance t)) (reset (ta_recorder t)) (ta_reference t), events)
  else (t, events).

Definition count_fix (s : TimingAppStats) : TimingAppStats :=
  mkStats (st_fixes s + 1) (st_unpaired_fixes s) (st_events s) (st_track_switches s).
Definition count_unpaired (s : TimingAppStats) : TimingAppStats :=
  mkStats (st_fixes s) (st_unpaired_fixes s + 1) (st_events s) (st_track_switches s).
Definition count_events (s : TimingAppStats) (n : Z) : TimingAppStats :=
  mkStats (st_fixes s) (st_unpaired_fixes s) (st_events s + n) (st_track_switches s).

Definition _process_fix (self : LapTimingApp) (lat lon : Sample) : LapTimingApp * res (list Sample) :=
  let self := set_stats self (count_fix (app_stats self)) in
  let t := app_timing self in
  match (plat ← float_of_value (s_value lat); plon ← float_of_value (s_value lon); Ok (plat, plon)) with
  | Raise e => (self, Raise e)
  | Ok (plat, plon) =>
      let point := mkGPS plat plon (fdiv_ieee (s_t_wall_ms lat) (f_of_Z 1000)) in
      match update libm (ta_distance t) plat plon with
      | Raise e => (self, Raise e)
      | Ok distance =>
          let '(t, events) := advance (set_lap t distance (ta_recorder t) (ta_reference t)) point in
          let self := set_stats self (count_events (app_stats self) (Z.of_nat (length events))) in
          let out := fold_left (handle_event (_session self) lat) events (t, []) in
          let '(t, emitted) := emit_running lat (gp_timestamp point) out in
          (set_timing_state self t, emitted)
      end
  end.

Definition observe (self : LapTimingApp) (channel_id : Z) (sample : Sample)
    : LapTimingApp * res (list Sample) :=
  let t := app_timing self in
  if negb ((channel_id =? _lat_id self) || (channel_id =? _lon_id self)) then (self, Ok [])
  else
    let t :=
      if channel_id =? _lat_id self then set_pending_pos t (Some sample) (ta_pending_lon t)
      else set_pending_pos t (ta_pending_lat t) (Some sample) in
    let self := set_timing_state self t in
    match ta_pending_lat t, ta_pending_lon t with
    | Some lat, Some lon =>
        if s_t_mono_ns lat =? s_t_mono_ns lon then
          _process_fix (set_timing_state self (set_pending_pos t None None)) lat lon
        else (set_stats self (count_unpaired (app_stats self)), Ok [])
    | _, _ => (self, Ok [])
    end.

(** The pipeline's view of the application. *)
Definition LapTiming : TapApp :=
  mkTapApp LapTimingApp (fun self id => bool_decide (id ∈ subscribed_channel_ids self)) observe.

(** * What every fix keeps true *)

Context (Hasin : asin_range libm).

(** The application's invariant: a distance that is a number, a recorder and
    a reference the interpolation can use. *)
Record timing_wf (t : Timing) : Prop := {
  wf_distance : distance_ok (ta_distance t);
  wf_recorder : recorder_wf (ta_recorder t);
  wf_reference : match ta_reference t with Some r => curve_wf r | None => True end
}.

Lemma install_track_wf track : timing_wf (_install_track track).
Proof. split; [done | by split_and! | done]. Qed.

Lemma emit_wf lat out name v always : timing_wf out.1 -> timing_wf (emit lat out name v always).1.
Proof.
  destruct out as [t l]; unfold emit. intros [H1 H2 H3]; simpl in *.
  destruct (negb always && _); by split.
Qed.

Lemma offer_wf r c v :
  match r with Some r => curve_wf r | None => True end ->
  match c with Some c => curve_wf c | None => True end ->
  match (offer r c v).1 with Some r => curve_wf r | None => True end.
Proof.
  intros Hr Hc; unfold offer; destruct c as [c|]; [|done].
  destruct (negb v || _); [done|]. destruct r as [r|]; [|done]. by destruct (fltb _ _).
Qed.

Lemma handle_event_wf session lat out e : timing_wf out.1 -> timing_wf (handle_event session lat out e).1.
Proof.
  intros Hwf; unfold handle_event.
  pose proof (emit_wf lat out "lap.event" (VStr (_encode_event session e)) true Hwf) as Hwf1.
  destruct (emit lat out _ _ true) as [t l]; simpl in *. case_decide; [|done].
  assert (Hnew : timing_wf (set_lap t (start_lap (ta_distance t)) (reset (ta_recorder t))
            (offer (ta_reference t) (complete (ta_recorder t) (ev_lap_time e)) (ev_valid e)).1)).
  { destruct Hwf1 as [H1 H2 H3]; split; simpl; [apply start_lap_ok | apply reset_wf |].
    apply offer_wf; [done|]. destruct (complete _ _) eqn:Ec; [|done]. by eapply complete_wf in Ec as [? _]. }
  case_match; repeat apply emit_wf; exact Hnew.
Qed.

Lemma handle_events_wf session lat evs out :
  timing_wf out.1 -> timing_wf (fold_left (handle_event session lat) evs out).1.
Proof. revert out; induction evs as [|e evs IH]; intros out Ho; simpl; [done|]. by apply IH, handle_event_wf. Qed.

Lemma emit_lap lat out name v always :
  ta_distance (emit lat out name v always).1 = ta_distance out.1 /\
  ta_reference (emit lat out name v always).1 = ta_reference out.1.
Proof. destruct out as [t l]; unfold emit; by destruct (negb always && _). Qed.

(** The interpolation never fails, so the running values are always emitted. *)
Lemma emit_running_ok lat ts out :
  timing_wf out.1 ->
  timing_wf (emit_running lat ts out).1 /\ exists l, (emit_running lat ts out).2 = Ok l.
Proof.
  intros Hwf; unfold emit_running.
  set (o1 := emit lat out "lap.number" _ false).
  assert (H1 : timing_wf o1.1) by by apply emit_wf. clearbody o1.
  set (o2 := emit lat o1 "lap.sector" _ false).
  assert (H2 : timing_wf o2.1) by by apply emit_wf. clearbody o2.
  destruct (fltb f0 _); [|by eauto].
  assert (Hd : forall o x, ta_reference o = ta_reference o2.1 ->
            exists d, delta (ta_reference o) (lap_distance (ta_distance o2.1)) x = Ok d /\
                      exists p, predicted (ta_reference o) (lap_distance (ta_distance o2.1)) x = Ok p).
  { intros o x ->. destruct H2 as [[Hn _] _ Hr]. unfold predicted, delta.
    destruct (ta_reference o2.1) as [r|]; [|by eauto].
    destruct (time_at_total r _ Hr Hn) as [t ->]; simpl; eauto. }
  set (o3 := emit lat o2 "timing.distance" _ true).
  assert (H3 : timing_wf o3.1) by by apply emit_wf.
  assert (E3 : ta_reference o3.1 = ta_reference o2.1) by by apply emit_lap. clearbody o3.
  set (o4 := emit lat o3 "timing.lap_elapsed" _ true).
  assert (H4 : timing_wf o4.1) by by apply emit_wf.
  assert (E4 : ta_reference o4.1 = ta_reference o2.1) by (rewrite <- E3; by apply emit_lap). clearbody o4.
  destruct (Hd o4.1 (fsub ts (lap_start_time (te_state (ta_engine o2.1)))) E4) as ([d|] & -> & _); [|by eauto].
  set (o5 := emit lat o4 "timing.delta_best" _ true).
  assert (H5 : timing_wf o5.1) by by apply emit_wf.
  assert (E5 : ta_reference o5.1 = ta_reference o2.1) by (rewrite <- E4; by apply emit_lap). clearbody o5.
  destruct (Hd o5.1 (fsub ts (lap_start_time (te_state (ta_engine o2.1)))) E5) as (_ & _ & ([p|] & ->)); [|by eauto].
  split; [by apply emit_wf | eauto].
Qed.

Lemma advance_wf t point : timing_wf t -> timing_wf (advance t point).1.
Proof.
  intros [H1 H2 H3]; unfold advance. destruct (process_point _ _ _) as [engine events].
  assert (Hr : recorder_wf (if fltb f0 (lap_start_time (te_state (ta_engine t)))
            then rec_add (ta_recorder t) (lap_distance (ta_distance t))
                   (fsub (gp_timestamp point) (lap_start_time (te_state (ta_engine t))))
            else ta_recorder t)).
  { destruct (fltb _ _); [|done]. apply rec_add_wf; [apply H1 | done]. }
  destruct (negb _ && _); split; simpl; auto using start_lap_ok, reset_wf.
Qed.

(** An exception of [float] or of [math], on the sample's own value. *)
Definition value_error (lat lon : Sample) (t : Timing) : Prop :=
  is_ok (float_of_value (s_value lat)) = false \/ is_ok (float_of_value (s_value lon)) = false \/
  exists plat plon, float_of_value (s_value lat) = Ok plat /\ float_of_value (s_value lon) = Ok plon /\
    is_ok (update libm (ta_distance t) plat plon) = false.

Lemma process_fix_wf self lat lon :
  timing_wf (app_timing self) ->
  let r := _process_fix self lat lon in
  timing_wf (app_timing r.1) /\
  (is_ok r.2 = true \/ value_error lat lon (app_timing self)).
Proof.
  intros Hwf; unfold _process_fix, value_error; simpl.
  destruct (float_of_value (s_value lat)) as [plat|]; simpl; [|by auto].
  destruct (float_of_value (s_value lon)) as [plon|]; simpl; [|by auto].
  destruct (update libm _ plat plon) as [d|] eqn:Eu; simpl.
  2: { split; [done|]. right; right; right. exists plat, plon; by rewrite Eu. }
  assert (Hd : timing_wf (set_lap (app_timing self) d (ta_recorder (app_timing self)) (ta_reference (app_timing self)))).
  { destruct Hwf as [H1 H2 H3]; split; simpl; [|done..]. by eapply update_ok in Eu. }
  pose proof (advance_wf _ (mkGPS plat plon (fdiv_ieee (s_t_wall_ms lat) (f_of_Z 1000))) Hd) as Ha.
  destruct (advance _ _) as [t events]; simpl in Ha.
  pose proof (handle_events_wf (_session self) lat events (t, []) Ha) as He.
  destruct (emit_running_ok lat (fdiv_ieee (s_t_wall_ms lat) (f_of_Z 1000))
              (fold_left (handle_event (_session self) lat) events (t, [])) He) as [Hw [l Hl]].
  destruct (emit_running _ _ _) as [t' em]; simpl in *; subst em. by auto.
Qed.

(** * What a fix publishes *)

(** A derived sample stamped with a fix's capture time, on a channel of the
    catalog's derived set, with a value of that channel's type. *)
Definition value_fits (t : ValueType) (v : SampleValue) : Prop :=
  match t, v with
  | STRING, VStr _ | INT64, VInt _ | DOUBLE, VFloat _ => True
  | _, _ => False
  end.

Definition output_of (lat s : Sample) : Prop :=
  s_t_mono_ns s = s_t_mono_ns lat /\ s_t_wall_ms s = s_t_wall_ms lat /\
  exists d, d ∈ DEFAULT_DERIVED_CHANNELS /\ s_source_ref s = "derived:" +:+ der_name d /\
    value_fits (der_value_type d) (s_value s).

Definition derived_fits (name : string) (v : SampleValue) : Prop :=
  exists d, d ∈ DEFAULT_DERIVED_CHANNELS /\ name = der_name d /\ value_fits (der_value_type d) v.

Lemma derived_fits_in name v i d :
  DEFAULT_DERIVED_CHANNELS !! i = Some d -> name = der_name d -> value_fits (der_value_type d) v ->
  derived_fits name v.
Proof. intros Hi ? ?; exists d; split; [by eapply list_elem_of_lookup_2 | done]. Qed.

Lemma emit_output lat out name v always :
  derived_fits name v -> Forall (output_of lat) out.2 -> Forall (output_of lat) (emit lat out name v always).2.
Proof.
  intros (d & Hd & -> & Hv) Ho; destruct out as [t l]; unfold emit; destruct (negb always && _); [done|].
  apply Forall_app; split; [done|]. constructor; [|constructor]. split_and!; eauto.
Qed.

Ltac fits i := apply emit_output; [by apply (derived_fits_in _ _ i _ eq_refl)|].

Lemma handle_event_output session lat out e :
  Forall (output_of lat) out.2 -> Forall (output_of lat) (handle_event session lat out e).2.
Proof.
  intros Ho; unfold handle_event.
  assert (H1 : Forall (output_of lat) (emit lat out "lap.event" (VStr (_encode_event session e)) true).2)
    by (fits 0%nat; done).
  destruct (emit lat out "lap.event" _ true) as [t l]; simpl in H1. case_decide; [|done].
  case_match; [fits 4%nat | ]; fits 3%nat; exact H1.
Qed.

Lemma handle_events_output session lat evs out :
  Forall (output_of lat) out.2 -> Forall (output_of lat) (fold_left (handle_event session lat) evs out).2.
Proof. revert out; induction evs as [|e evs IH]; intros out Ho; simpl; [done|]. by apply IH, handle_event_output. Qed.

Lemma emit_running_output lat ts out l :
  Forall (output_of lat) out.2 -> (emit_running lat ts out).2 = Ok l -> Forall (output_of lat) l.
Proof.
  intros Ho; unfold emit_running.
  set (o1 := emit lat out "lap.number" _ false).
  assert (H1 : Forall (output_of lat) o1.2) by (unfold o1; fits 1%nat; done). clearbody o1.
  set (o2 := emit lat o1 "lap.sector" _ false).
  assert (H2 : Forall (output_of lat) o2.2) by (unfold o2; fits 2%nat; done). clearbody o2.
  destruct (fltb f0 _); [|by intros [= <-]].
  set (o4 := emit lat (emit lat o2 "timing.distance" _ true) "timing.lap_elapsed" _ true).
  assert (H4 : Forall (output_of lat) o4.2) by (unfold o4; fits 8%nat; fits 7%nat; done). clearbody o4.
  destruct (delta _ _ _) as [[d|]|]; [|by intros [= <-]|done].
  set (o5 := emit lat o4 "timing.delta_best" _ true).
  assert (H5 : Forall (output_of lat) o5.2) by (unfold o5; fits 5%nat; done). clearbody o5.
  destruct (predicted _ _ _) as [[p|]|]; [|by intros [= <-]|done].
  intros [= <-]. fits 6%nat. done.
Qed.

Lemma process_fix_output self lat lon out :
  (_process_fix self lat lon).2 = Ok out -> Forall (output_of lat) out.
Proof.
  unfold _process_fix.
  destruct (float_of_value (s_value lat)) as [plat|]; simpl; [|done].
  destruct (float_of_value (s_value lon)) as [plon|]; simpl; [|done].
  destruct (update libm _ plat plon) as [d|]; [|done].
  destruct (advance _ _) as [t events].
  match goal with |- context [emit_running lat ?ts ?o] =>
    pose proof (emit_running_output lat ts o out) as He; destruct (emit_running lat ts o) as [t' em] end.
  simpl in *; intros ->. apply He; [|done]. by apply handle_events_output.
Qed.

(** The halves of a fix an [observe] pairs: the sample given and the one
    waiting, with one capture stamp. *)
Definition paired (self : LapTimingApp) (id : Z) (s lat lon : Sample) : Prop :=
  s_t_mono_ns lat = s_t_mono_ns lon /\
  ((id = _lat_id self /\ lat = s /\ ta_pending_lon (app_timing self) = Some lon) \/
   (id = _lon_id self /\ lon = s /\ ta_pending_lat (app_timing self) = Some lat)).

Lemma observe_cases self id s :
  (exists self', observe self id s = (self', Ok []) /\
     ta_distance (app_timing self') = ta_distance (app_timing self) /\
     ta_recorder (app_timing self') = ta_recorder (app_timing self) /\
     ta_reference (app_timing self') = ta_reference (app_timing self)) \/
  exists lat lon, paired self id s lat lon /\
    observe self id s = _process_fix (set_timing_state self (set_pending_pos (app_timing self) None None)) lat lon.
Proof.
  unfold observe. destruct (negb _) eqn:En; [left; by eexists|].
  apply negb_false_iff, orb_prop in En. unfold paired.
  destruct (Z.eqb_spec id (_lat_id self)) as [Hid|Hid]; simpl.
  - destruct (ta_pending_lon (app_timing self)) as [lon|]; [|left; by eexists].
    destruct (Z.eqb_spec (s_t_mono_ns s) (s_t_mono_ns lon)); [|left; by eexists].
    right; exists s, lon; split; [by auto | done].
  - destruct En as [?|En%Z.eqb_eq]; [done|].
    destruct (ta_pending_lat (app_timing self)) as [lat|]; [|left; by eexists].
    destruct (Z.eqb_spec (s_t_mono_ns lat) (s_t_mono_ns s)); [|left; by eexists].
    right; exists lat, s; split; [by auto | done].
Qed.

Lemma app_observe_wf self id s :
  timing_wf (app_timing self) ->
  timing_wf (app_timing (observe self id s).1) /\
  (is_ok (observe self id s).2 = true \/
   exists lat lon, paired self id s lat lon /\ value_error lat lon (app_timing self)).
Proof.
  intros Hwf. destruct (observe_cases self id s) as [(self' & -> & E1 & E2 & E3)|(lat & lon & Hp & ->)].
  - split; [|by left]. destruct Hwf as [H1 H2 H3]; split; simpl; rewrite ?E1, ?E2, ?E3; done.
  - assert (Hwf' : timing_wf (app_timing (set_timing_state self (set_pending_pos (app_timing self) None None)))).
    { destruct Hwf; by split. }
    destruct (process_fix_wf _ lat lon Hwf') as [H1 H2]. split; [done|].
    destruct H2 as [?|H2]; [by left | right; by exists lat, lon].
Qed.

Lemma apply_session_wf self session :
  timing_wf (app_timing self) -> timing_wf (app_timing (apply_session self session)).
Proof.
  intros Hwf; unfold apply_session. repeat case_match; try done.
Qed.

(** ** Operations *)

Inductive app_op :=
  | OpObserve (id : Z) (s : Sample)
  | OpSession (session : list (string * obj)).

Definition app_step (self : LapTimingApp) (o : app_op) : LapTimingApp :=
  match o with
  | OpObserve id s => (observe self id s).1
  | OpSession session => apply_session self session
  end.

(** Whatever fixes and sessions came before, a fix is published unless the
    conversion of its own coordinates raises: the reference curve is always
    one that can be interpolated at the distance reached. *)
Theorem fix_never_lost (ids : gmap string Z) (position_glob : string) (track : TrackDefinition)
    (tracks : gmap string TrackDefinition) (app : LapTimingApp) (ops : list app_op) (id : Z) (s : Sample)
    (Hinit : app_init ids position_glob track tracks = Ok app) :
  let self := fold_left app_step ops app in
  is_ok (observe self id s).2 = true \/
  exists lat lon, paired self id s lat lon /\ value_error lat lon (app_timing self).
Proof.
  simpl. apply app_observe_wf. assert (Hwf : timing_wf (app_timing app)).
  { unfold app_init in Hinit; repeat case_match; try done; injection Hinit as <-; apply install_track_wf. }
  clear Hinit; revert app Hwf; induction ops as [|[id' s'|session] ops IH]; intros app Hwf; simpl; [done|..];
    apply IH; [by apply app_observe_wf | by apply apply_session_wf].
Qed.

(** Everything published comes from a paired fix, carries its capture time,
    and is a value of the type its derived channel declares. *)
Theorem derived_samples_typed (self self' : LapTimingApp) (id : Z) (s : Sample) (out : list Sample)
    (Hobs : observe self id s = (self', Ok out)) :
  out = [] \/ exists lat lon, paired self id s lat lon /\ Forall (output_of lat) out.
Proof.
  destruct (observe_cases self id s) as [(self1 & Heq & _)|(lat & lon & Hp & Heq)]; rewrite Heq in Hobs.
  - injection Hobs as _ <-; by left.
  - right; exists lat, lon; split; [done|]. apply (process_fix_output (set_timing_state self
      (set_pending_pos (app_timing self) None None)) lat lon). by rewrite Hobs.
Qed.

(** * Re-entry *)

Definition timing_ref (ref : string) : bool :=
  existsb (fun d => String.eqb ref ("derived:" +:+ der_name d)) DEFAULT_DERIVED_CHANNELS.
Definition timing_rank (ref : string) : nat := if timing_ref ref then 0%nat else 1%nat.

(** No derived timing channel is a position input of the application. *)
Definition positions_are_inputs (sm : gmap string (Z * ChannelPolicy)) (self : LapTimingApp) : Prop :=
  forall ref id pol, sm !! ref = Some (id, pol) -> id = _lat_id self \/ id = _lon_id self ->
    timing_ref ref = false.

Lemma output_ref lat s : output_of lat s -> timing_ref (s_source_ref s) = true.
Proof.
  intros (_ & _ & d & Hd & Hr & _). unfold timing_ref; apply existsb_exists.
  exists d; split; [by apply list_elem_of_In | by apply String.eqb_eq].
Qed.

Lemma observe_ids self id s :
  _lat_id (observe self id s).1 = _lat_id self /\ _lon_id (observe self id s).1 = _lon_id self.
Proof.
  destruct (observe_cases self id s) as [(self' & Heq & _)|(lat & lon & _ & ->)].
  - unfold observe in *; repeat case_match; simplify_eq/=; try done.
    all: unfold _process_fix in *; repeat case_match; simplify_eq/=; done.
  - unfold _process_fix; repeat case_match; simpl; done.
Qed.

Lemma timing_descends sm : app_descends LapTiming (positions_are_inputs sm) sm timing_rank.
Proof.
  intros self id s pol Hinv Hm _; change (app_observe LapTiming self id s) with (observe self id s).
  split.
  - pose proof (observe_ids self id s) as [E1 E2]. unfold positions_are_inputs; simpl; rewrite E1, E2; exact Hinv.
  - intros out Hout. destruct (observe_cases self id s) as [(self' & Heq & _)|(lat & lon & Hp & Heq)];
      change (app_observe LapTiming self id s) with (observe self id s) in Hout; rewrite Heq in Hout.
    + by injection Hout as <-.
    + apply process_fix_output in Hout. eapply Forall_impl; [exact Hout|]. intros d Hd%output_ref.
      unfold timing_rank; rewrite Hd, (Hinv _ _ _ Hm); [lia|]. destruct Hp as [_ [[-> _]|[-> _]]]; auto.
Qed.

Lemma app_init_ids ids position_glob track tracks app :
  app_init ids position_glob track tracks = Ok app ->
  (exists name, ids !! name = Some (_lat_id app) /\ str_endswith ".lat" name = true) /\
  (exists name, ids !! name = Some (_lon_id app) /\ str_endswith ".lon" name = true).
Proof.
  assert (Hone : forall suffix l x, elements (list_to_set (C := gset Z)
            (map snd (filter (fun kv : string * Z => str_endswith suffix kv.1) l))) = [x] ->
            l = filter (fun kv => fnmatchcase kv.1 position_glob) (map_to_list ids) ->
            exists name, ids !! name = Some x /\ str_endswith suffix name = true).
  { intros suffix l x Hx ->.
    assert (Hin : x ∈ elements (list_to_set (C := gset Z)
       (map snd (filter (fun kv : string * Z => str_endswith suffix kv.1)
          (filter (fun kv => fnmatchcase kv.1 position_glob) (map_to_list ids)))))) by (rewrite Hx; left).
    rewrite elem_of_elements, elem_of_list_to_set in Hin.
    apply list_elem_of_In, in_map_iff in Hin as ([name y] & <- & Hin%list_elem_of_In); simpl.
    apply list_elem_of_filter in Hin as [Hs [_ Hin]%list_elem_of_filter].
    apply elem_of_map_to_list in Hin. exists name; split; [done|]. by apply Is_true_true. }
  unfold app_init. destruct (filter _ (map_to_list ids)) as [|x l] eqn:El; [done|]. rewrite <- El.
  destruct (elements _) as [|lat [|]] eqn:E1; try done.
  destruct (elements (list_to_set (map snd (filter (fun kv => str_endswith ".lon" kv.1) _)))) as [|lon [|]] eqn:E2; try done.
  intros [= <-]; simpl. split; eapply Hone; eauto.
Qed.

Lemma app_step_ids app ops :
  _lat_id (fold_left app_step ops app) = _lat_id app /\ _lon_id (fold_left app_step ops app) = _lon_id app.
Proof.
  revert app; induction ops as [|o ops IH]; intros app; simpl; [done|].
  destruct (IH (app_step app o)) as [-> ->]. destruct o as [id s|session]; simpl; [apply observe_ids|].
  unfold apply_session; by repeat case_match.
Qed.

Lemma built_positions channels derived c position_glob track tracks app ops :
  NoDup channels.*1 -> Z.of_nat (length channels) < DERIVED_ID_START ->
  (forall d, d ∈ DEFAULT_DERIVED_CHANNELS -> d ∈ derived) -> build channels derived = Ok c ->
  app_init (channel_ids c) position_glob track tracks = Ok app ->
  positions_are_inputs (source_map c) (fold_left app_step ops app).
Proof.
  intros Hk Hf Hin Hb Hi ref id pol Hm Hid.
  pose proof (build_consistent _ _ _ Hk Hf Hb) as Hwf.
  destruct (timing_ref ref) eqn:Et; [exfalso|done].
  apply existsb_exists in Et as (d & Hd%list_elem_of_In & ->%String.eqb_eq).
  destruct (build_derived_mapped _ _ _ _ Hb (Hin d Hd)) as [id' Hm']. rewrite Hm in Hm'; injection Hm' as <- ->.
  apply (wf_policy _ Hwf) in Hm as [Hp _].
  destruct (app_step_ids app ops) as [E1 E2]; rewrite E1, E2 in Hid.
  apply app_init_ids in Hi as [(n1 & Hn1 & Hs1) (n2 & Hn2 & Hs2)].
  assert (Hname : exists name, name = der_name d /\ (str_endswith ".lat" name = true \/ str_endswith ".lon" name = true)).
  { destruct Hid as [-> | ->].
    - apply (wf_names _ Hwf) in Hn1 as (q & Hq & <-). rewrite Hp in Hq; injection Hq as <-. eauto.
    - apply (wf_names _ Hwf) in Hn2 as (q & Hq & <-). rewrite Hp in Hq; injection Hq as <-. eauto. }
  destruct Hname as (name & -> & Hs). unfold DEFAULT_DERIVED_CHANNELS in Hd.
  rewrite !elem_of_cons in Hd. destruct_or! Hd; try (by apply elem_of_nil in Hd);
    subst d; vm_compute in Hs; destruct Hs; done.
Qed.

(** The agent's pipeline re-enters timing output at most once: for any profile
    whose catalog builds, with the application in any state it can reach, a
    recursion depth of two ingests any sample. *)
Theorem timing_reentry_terminates (channels : channels_t) (c : RuntimeCatalog) (position_glob : string)
    (track : TrackDefinition) (tracks : gmap string TrackDefinition) (app : LapTimingApp)
    (ops : list app_op) (p : Pipeline NoApp LapTiming) (source_class : string) (s : Sample)
    (Hkeys : NoDup channels.*1) (Hfew : Z.of_nat (length channels) < DERIVED_ID_START)
    (Hbuild : build channels DEFAULT_DERIVED_CHANNELS = Ok c)
    (Hinit : app_init (channel_ids c) position_glob track tracks = Ok app)
    (Hmap : pl_source_map NoApp LapTiming p = source_map c)
    (Htiming : pl_timing NoApp LapTiming p = Some (fold_left app_step ops app)) :
  exists p' r, ingest NoApp LapTiming 2 p source_class s = Some (p', r).
Proof.
  destruct (ingest_total_aux NoApp LapTiming (source_map c) timing_rank (fun _ => True)
              (positions_are_inputs (source_map c))) with (fuel := 2%nat) (p := p) (c := source_class) (s := s)
    as (p' & r & Hr & _); [| |..|by eauto].
  - intros a ch s' pol' _ _ Hs; discriminate Hs.
  - apply timing_descends.
  - split_and!; [exact Hmap | by destruct (pl_fusion NoApp LapTiming p)|].
    rewrite Htiming; simpl. by eapply (built_positions channels DEFAULT_DERIVED_CHANNELS).
  - unfold timing_rank; destruct (timing_ref _); lia.
Qed.
End App.

(** * A concrete application

    A three-line track on the equator, a libm that is exact on the axis the
    car drives along, and a profile with the two position channels. *)

Module Paddock.
Definition libm : Libm := mkLibm (fun x => x) (fun _ => f_of_Z 1) (fun x => fabs x) (fun x => fmul x x).
Definition dumps (o : obj) : string := match o with ODict d => pretty (Z.of_nat (length d)) | _ => "" end.
Definition no_parse (s : string) : res float := raise ValueError ("could not convert string to float: " +:+ s).

Lemma libm_asin : asin_range libm.
Proof. intros x H0 H1; simpl. by destruct x as [[]|[]| |[] m e]. Qed.

Definition track : TrackDefinition := mkTrack "demo" Circuit.lines (f_of_Z 2400) 20.
Definition ids : gmap string Z := {["gps.lat" := 1; "gps.lon" := 2; "lap.number" := 2147483649]}.
Definition fresh : option LapTimingApp :=
  match app_init ids "gps.*" track ∅ with Ok a => Some a | Raise _ => None end.
Definition app : LapTimingApp := default (mkApp ∅ 0 0 ∅ [] (mkStats 0 0 0 0) (_install_track track)) fresh.

Lemma app_ok : app_init ids "gps.*" track ∅ = Ok app.
Proof. vm_compute; reflexivity. Qed.

(** The two halves of one fix, at a longitude in 1/10000 degree. *)
Definition half (ref : string) (t_s v : Z) : Sample :=
  mkSample ref (t_s * 1000000000) (f_of_Z (t_s * 1000)) (VFloat (f_of_ratio v 10000)).
Definition fix_ops (t_s lon : Z) : list app_op :=
  [OpObserve 1 (half "can0:1.lat" t_s 0); OpObserve 2 (half "can0:1.lon" t_s lon)].
Definition run (fixes : list (Z * Z)) : LapTimingApp :=
  fold_left (app_step libm dumps no_parse) (flat_map (fun f => fix_ops f.1 f.2) fixes) app.
Definition lap_clock (a : LapTimingApp) : float := lap_start_time (te_state (ta_engine (app_timing a))).
Definition origin (a : LapTimingApp) : float := lap_distance (ta_distance (app_timing a)).

(** The profile's catalog: the two position channels and the derived ones. *)
Definition position (from : string) : ChannelConfig := mkChannelConfig from "deg" ch_double None None.
Definition channels : channels_t := [("gps.lat", position "can0:1.lat"); ("gps.lon", position "can0:1.lon")].
Definition catalog : RuntimeCatalog :=
  match build channels DEFAULT_DERIVED_CHANNELS with Ok c => c | Raise _ => empty_catalog end.
Definition agent : LapTimingApp :=
  match app_init (channel_ids catalog) "gps.*" track ∅ with Ok a => a | Raise _ => app end.
End Paddock.

Lemma fix_never_lost_witness :
  is_ok (observe Paddock.libm Paddock.dumps Paddock.no_parse (Paddock.run [(10, 5); (20, 15)]) 1
           (Paddock.half "can0:1.lat" 30 0)).2 = true \/
  exists lat lon, paired (Paddock.run [(10, 5); (20, 15)]) 1 (Paddock.half "can0:1.lat" 30 0) lat lon /\
    value_error Paddock.libm Paddock.no_parse lat lon (app_timing (Paddock.run [(10, 5); (20, 15)])).
Proof.
  apply (fix_never_lost Paddock.libm Paddock.dumps Paddock.no_parse Paddock.libm_asin Paddock.ids "gps.*"
           Paddock.track ∅ Paddock.app).
  exact Paddock.app_ok.
Defined.

Lemma derived_samples_typed_witness :
  let self := (observe Paddock.libm Paddock.dumps Paddock.no_parse (Paddock.run [(10, 5)]) 1
                 (Paddock.half "can0:1.lat" 20 0)).1 in
  let s := Paddock.half "can0:1.lon" 20 15 in
  exists self' out, observe Paddock.libm Paddock.dumps Paddock.no_parse self 2 s = (self', Ok out) /\
    map s_source_ref out = ["derived:lap.number"; "derived:lap.sector"; "derived:timing.distance";
                            "derived:timing.lap_elapsed"] /\
    (out = [] \/ exists lat lon, paired self 2 s lat lon /\ Forall (output_of lat) out).
Proof.
  intros self s. eexists _, _; split; [vm_compute; reflexivity|]. split; [reflexivity|].
  eapply (derived_samples_typed Paddock.libm Paddock.dumps Paddock.no_parse self _ 2 s).
  vm_compute; reflexivity.
Defined.

Lemma timing_reentry_terminates_witness :
  let app := LapTiming Paddock.libm Paddock.dumps Paddock.no_parse in
  let p := mkPipeline NoApp app (source_map Paddock.catalog) rbe_init
             (mkBatcher 1 (policies_by_id Paddock.catalog) 20000 20000000 []) 20000000
             (Some Paddock.agent) None [] ∅ ∅ 0 0 in
  exists p' r, ingest NoApp app 2 p "can" (Paddock.half "can0:1.lat" 10 0) = Some (p', r).
Proof.
  intros app p.
  apply (timing_reentry_terminates Paddock.libm Paddock.dumps Paddock.no_parse Paddock.channels
           Paddock.catalog "gps.*" Paddock.track ∅ Paddock.agent []).
  - repeat constructor; vm_compute; set_solver.
  - vm_compute; reflexivity.
  - vm_compute; reflexivity.
  - vm_compute; reflexivity.
  - reflexivity.
  - reflexivity.
Defined.

(** A car that crosses the start/finish line, and crosses it again 15 s later
    without reaching a sector: the engine restarts the lap clock and reports
    nothing, so the application keeps counting distance from the first
    crossing. The reference curve of that lap starts 15 s of track too far. *)
Theorem resync_keeps_distance :
  let before := Paddock.run [(10, 5); (20, 15); (28, 18); (30, 5)] in
  let after := Paddock.run [(10, 5); (20, 15); (28, 18); (30, 5); (35, 15)] in
  feqb (Paddock.lap_clock after) (Paddock.lap_clock before) = false /\
  fltb (Paddock.origin before) (Paddock.origin after) = true /\
  fltb (f_of_Z 1) (Paddock.origin before) = true.
Proof. vm_compute. auto. Qed.
