(* ===== verification/StateRes.v ===== *)
(** Computations that change an object and may raise: an object's methods as
    functions from its state to its next state and a result. An exception
    leaves the state as the method had it when it raised.

    [wp m Q s] says that [m], run from [s], ends in a state and a result that
    satisfy [Q]; the rules below take it apart along the program. *)

From S2P Require Import Prelude.

Definition SR (S A : Type) : Type := S -> S * res A.

#[export] Instance sr_ret {S : Type} : MRet (SR S) := fun A a s => (s, Ok a).
#[export] Instance sr_bind {S : Type} : MBind (SR S) := fun A B k m s =>
  let '(s, r) := m s in
  match r with Ok a => k a s | Raise e => (s, Raise e) end.

Definition get {S : Type} : SR S S := fun s => (s, Ok s).
Definition gets {S A : Type} (f : S -> A) : SR S A := fun s => (s, Ok (f s)).
Definition modify {S : Type} (f : S -> S) : SR S unit := fun s => (f s, Ok tt).
(** A computation that reads no state: its value, or its exception. *)
Definition lift {S A : Type} (r : res A) : SR S A := fun s => (s, r).
Definition skip {S : Type} : SR S unit := mret tt.
Definition when {S : Type} (b : bool) (m : SR S unit) : SR S unit := if b then m else skip.

Fixpoint repeat_m {S : Type} (n : nat) (m : SR S unit) : SR S unit :=
  match n with O => skip | Datatypes.S n => _ ← m; repeat_m n m end.

(** * Weakest preconditions *)

Definition wp {S A : Type} (m : SR S A) (Q : S -> res A -> Prop) (s : S) : Prop := Q (m s).1 (m s).2.

Section Rules.
Context {S : Type}.

Lemma wp_ret {A : Type} (a : A) (Q : S -> res A -> Prop) s : Q s (Ok a) -> wp (mret a) Q s.
Proof. done. Qed.

Lemma wp_bind {A B : Type} (m : SR S A) (k : A -> SR S B) (Q : S -> res B -> Prop) s :
  wp m (fun s' r => match r with Ok a => wp (k a) Q s' | Raise e => Q s' (Raise e) end) s ->
  wp (mbind k m) Q s.
Proof. unfold wp, mbind, sr_bind. by destruct (m s) as [s' [a|e]]. Qed.

Lemma wp_mono {A : Type} (m : SR S A) (P Q : S -> res A -> Prop) s :
  wp m P s -> (forall s' r, P s' r -> Q s' r) -> wp m Q s.
Proof. unfold wp. auto. Qed.

Lemma wp_any {A : Type} (m : SR S A) s : wp m (fun _ _ => True) s.
Proof. done. Qed.

Lemma wp_and {A : Type} (m : SR S A) (P Q : S -> res A -> Prop) s :
  wp m P s -> wp m Q s -> wp m (fun s' r => P s' r /\ Q s' r) s.
Proof. by split. Qed.

Lemma wp_gets {A : Type} (f : S -> A) (Q : S -> res A -> Prop) s : Q s (Ok (f s)) -> wp (gets f) Q s.
Proof. done. Qed.

Lemma wp_modify (f : S -> S) (Q : S -> res unit -> Prop) s : Q (f s) (Ok tt) -> wp (modify f) Q s.
Proof. done. Qed.

Lemma wp_lift {A : Type} (r : res A) (Q : S -> res A -> Prop) s : Q s r -> wp (lift r) Q s.
Proof. done. Qed.

Lemma wp_when b (m : SR S unit) (Q : S -> res unit -> Prop) s :
  (b = true -> wp m Q s) -> (b = false -> Q s (Ok tt)) -> wp (when b m) Q s.
Proof. destruct b; intros Ht Hf; [by apply Ht|by apply Hf]. Qed.

(** A loop ends as its turns do, normally or not. *)
Lemma wp_repeat n (m : SR S unit) (Q : S -> res unit -> Prop) s :
  (forall s, Q s (Ok tt) -> wp m Q s) -> Q s (Ok tt) -> wp (repeat_m n m) Q s.
Proof.
  intros Hm. revert s. induction n as [|n IH]; intros s Hs; [done|]. apply wp_bind.
  eapply wp_mono; [by apply Hm|]. intros s' [[]|e] H; [by apply IH|done].
Qed.

(** * What a computation leaves alone *)

(** [m] ends with [f] as it found it, whether it returns or raises. *)
Definition keeps {A X : Type} (f : S -> X) (m : SR S A) : Prop := forall s, f (m s).1 = f s.

Lemma keeps_wp {A X : Type} (f : S -> X) (m : SR S A) s : keeps f m -> wp m (fun s' _ => f s' = f s) s.
Proof. intros H. apply H. Qed.

Lemma keeps_ret {A X : Type} (f : S -> X) (a : A) : keeps f (mret a : SR S A).
Proof. done. Qed.
Lemma keeps_skip {X : Type} (f : S -> X) : keeps f skip.
Proof. done. Qed.
Lemma keeps_lift {A X : Type} (f : S -> X) (r : res A) : keeps f (lift r).
Proof. done. Qed.
Lemma keeps_gets {A X : Type} (f : S -> X) (g : S -> A) : keeps f (gets g).
Proof. done. Qed.
Lemma keeps_get {X : Type} (f : S -> X) : keeps f get.
Proof. done. Qed.
Lemma keeps_modify {X : Type} (f : S -> X) (g : S -> S) : (forall s, f (g s) = f s) -> keeps f (modify g).
Proof. done. Qed.

Lemma keeps_bind {A B X : Type} (f : S -> X) (m : SR S A) (k : A -> SR S B) :
  keeps f m -> (forall a, keeps f (k a)) -> keeps f (mbind k m).
Proof.
  intros Hm Hk s. specialize (Hm s). unfold mbind, sr_bind. destruct (m s) as [s' [a|e]]; [|done].
  rewrite Hk. done.
Qed.

Lemma keeps_when {X : Type} (f : S -> X) b (m : SR S unit) : keeps f m -> keeps f (when b m).
Proof. by destruct b. Qed.

Lemma keeps_if {A X : Type} (f : S -> X) (b : bool) (m n : SR S A) :
  keeps f m -> keeps f n -> keeps f (if b then m else n).
Proof. by destruct b. Qed.

Lemma keeps_repeat {X : Type} (f : S -> X) n (m : SR S unit) : keeps f m -> keeps f (repeat_m n m).
Proof. intros H. induction n as [|n IH]; [done|]. by apply keeps_bind. Qed.
End Rules.

(** [m] ends in [I] when it starts there, whether it returns or raises. *)
Definition stays {S A : Type} (I : S -> Prop) (m : SR S A) : Prop := forall s, I s -> I (m s).1.

Section Stays.
Context {S : Type} (I : S -> Prop).

Lemma stays_ret {A : Type} (a : A) : stays I (mret a : SR S A).
Proof. by intros s. Qed.
Lemma stays_skip : stays I skip.
Proof. by intros s. Qed.
Lemma stays_lift {A : Type} (r : res A) : stays I (lift r).
Proof. by intros s. Qed.
Lemma stays_gets {A : Type} (g : S -> A) : stays I (gets g).
Proof. by intros s. Qed.
Lemma stays_get : stays I get.
Proof. by intros s. Qed.
Lemma stays_modify (g : S -> S) : (forall s, I s -> I (g s)) -> stays I (modify g).
Proof. done. Qed.

Lemma stays_bind {A B : Type} (m : SR S A) (k : A -> SR S B) :
  stays I m -> (forall a, stays I (k a)) -> stays I (mbind k m).
Proof.
  intros Hm Hk s Hs. specialize (Hm s Hs). unfold mbind, sr_bind. destruct (m s) as [s' [a|e]]; [|done].
  by apply Hk.
Qed.

Lemma stays_when b (m : SR S unit) : stays I m -> stays I (when b m).
Proof. intros H. destruct b; [exact H|apply stays_ret]. Qed.
Lemma stays_if {A : Type} (b : bool) (m n : SR S A) : stays I m -> stays I n -> stays I (if b then m else n).
Proof. intros Hm Hn. destruct b; assumption. Qed.
End Stays.

(** * What a computation can raise *)

(** [only P r]: if [r] is an exception, its class satisfies [P]. *)
Definition only {A : Type} (P : exn_class -> bool) (r : res A) : Prop :=
  match r with Ok _ => True | Raise e => P (exn_kind e) = true end.

Definition raises_only {S A : Type} (P : exn_class -> bool) (m : SR S A) : Prop := forall s, only P (m s).2.

Section Raises.
Context (P : exn_class -> bool).

Lemma only_Ok {A : Type} (a : A) : only P (Ok a).
Proof. done. Qed.

Lemma only_bind {A B : Type} (r : res A) (k : A -> res B) :
  only P r -> (forall a, only P (k a)) -> only P (mbind k r).
Proof. by destruct r; cbn; auto. Qed.

Lemma only_if {A : Type} (b : bool) (r r' : res A) : only P r -> only P r' -> only P (if b then r else r').
Proof. by destruct b. Qed.

Context {S : Type}.

Lemma raises_ret {A : Type} (a : A) : raises_only P (mret a : SR S A).
Proof. done. Qed.
Lemma raises_skip : raises_only P (skip : SR S unit).
Proof. done. Qed.
Lemma raises_gets {A : Type} (f : S -> A) : raises_only P (gets f).
Proof. done. Qed.
Lemma raises_get : raises_only P (get : SR S S).
Proof. done. Qed.
Lemma raises_modify (f : S -> S) : raises_only P (modify f).
Proof. done. Qed.
Lemma raises_lift {A : Type} (r : res A) : only P r -> raises_only P (lift r : SR S A).
Proof. by intros H s. Qed.

Lemma raises_bind {A B : Type} (m : SR S A) (k : A -> SR S B) :
  raises_only P m -> (forall a, raises_only P (k a)) -> raises_only P (mbind k m).
Proof.
  intros Hm Hk s. specialize (Hm s). unfold mbind, sr_bind. destruct (m s) as [s' [a|e]]; [apply Hk|done].
Qed.

Lemma raises_when b (m : SR S unit) : raises_only P m -> raises_only P (when b m).
Proof. by destruct b. Qed.

Lemma raises_repeat n (m : SR S unit) : raises_only P m -> raises_only P (repeat_m n m).
Proof. intros H. induction n as [|n IH]; [done|]. by apply raises_bind. Qed.
End Raises.

Create HintDb raises discriminated.
#[export] Hint Constants Opaque : raises.
#[export] Hint Resolve only_Ok only_if raises_ret raises_skip raises_gets raises_get raises_modify raises_lift
  raises_when raises_repeat : raises.
#[export] Hint Extern 3 (only _ (mbind _ _)) => apply only_bind; [|intros ?] : raises.
#[export] Hint Extern 3 (raises_only _ (mbind _ _)) => apply raises_bind; [|intros ?] : raises.
#[export] Hint Extern 3 (raises_only _ (match ?x with _ => _ end)) => destruct x : raises.
#[export] Hint Extern 3 (only _ (match ?x with _ => _ end)) => destruct x : raises.

Create HintDb stays discriminated.
#[export] Hint Constants Opaque : stays.
#[export] Hint Resolve stays_ret stays_skip stays_lift stays_gets stays_get stays_when stays_if : stays.
#[export] Hint Extern 2 (stays _ (modify _)) => apply stays_modify; intros ? ?; assumption : stays.
#[export] Hint Extern 3 (stays _ (mbind _ _)) => apply stays_bind; [|intros ?] : stays.
#[export] Hint Extern 3 (stays _ (match ?x with _ => _ end)) => destruct x : stays.

Create HintDb keeps discriminated.
#[export] Hint Constants Opaque : keeps.
#[export] Hint Resolve keeps_ret keeps_skip keeps_lift keeps_gets keeps_get keeps_when keeps_if
  keeps_repeat : keeps.
#[export] Hint Extern 2 (keeps _ (modify _)) => apply keeps_modify; intros ?; reflexivity : keeps.
#[export] Hint Extern 3 (keeps _ (mbind _ _)) => apply keeps_bind; [|intros ?] : keeps.
#[export] Hint Extern 3 (keeps _ (match ?x with _ => _ end)) => destruct x : keeps.

(** One step of a [wp] goal along the head of the program. *)
Ltac wp_step :=
  match goal with
  | |- wp (mbind _ _) _ _ => apply wp_bind
  | |- wp (mret _) _ _ => apply wp_ret
  | |- wp skip _ _ => apply wp_ret
  | |- wp (gets _) _ _ => apply wp_gets; cbn beta iota
  | |- wp get _ _ => apply wp_gets; cbn beta iota
  | |- wp (modify _) _ _ => apply wp_modify; cbn beta iota
  | |- wp (lift _) _ _ => apply wp_lift
  | |- wp (when _ _) _ _ => apply wp_when; intros ?
  | |- wp (if ?b then _ else _) _ _ => let E := fresh "E" in destruct b eqn:E
  end.

(** The record [r] with [x] for the field [field]: [eta] is the record's
    expansion, its constructor applied to its own projections. *)
Ltac set_field eta field x r :=
  let t := eval cbv beta delta [eta] in (eta r) in
  match t with
  | context C [field r] => let t' := context C [x] in exact t'
  end.
