(* ===== verification/Numpy.v ===== *)
(** The numerical libraries under [src/fusion/]: Python's [math] and numpy.

    Elementwise numpy arithmetic is IEEE arithmetic per element and is written
    out here. What depends on the platform's BLAS, LAPACK and libm (the order
    of a sum of products, an inverse, a sine) is a parameter: the fields of
    [NumPy] and [MathLib]. A transposed operand has an operation of its own,
    since BLAS need not add up in the same order for it. Vectors and matrices
    are lists of rows; the source only indexes inside them, and [at_] gives
    NaN elsewhere. *)

From S2P Require Import Prelude PyFloat TimingCore Distance StateRes.

Local Open Scope Z_scope.

Abbreviation vec := (list float).
Abbreviation mat := (list (list float)).

Class MathLib := {
  m_sin : float -> float;
  m_cos : float -> float;
  m_asin : float -> float;
  m_atan2 : float -> float -> float;
  m_hypot : float -> float -> float;
  m_pow : float -> float -> float
}.

Class NumPy := {
  np_dot : vec -> vec -> float;          (* a @ b *)
  np_mv : mat -> vec -> vec;             (* m @ v *)
  np_tmv : mat -> vec -> vec;            (* m.T @ v *)
  np_vm : vec -> mat -> vec;             (* v @ m *)
  np_mm : mat -> mat -> mat;             (* m @ n *)
  np_mmt : mat -> mat -> mat;            (* m @ n.T *)
  np_tmm : mat -> mat -> mat;            (* m.T @ n *)
  np_norm : vec -> float;                (* linalg.norm *)
  np_det : mat -> float;                 (* linalg.det *)
  np_inv : mat -> option mat             (* linalg.inv, None is LinAlgError *)
}.

(** * Python's floats *)

(** [math.degrees]. *)
Definition degrees (x : float) : float := fmul x (fdiv_ieee (f_of_Z 180) py_pi).

(** [x ** y] of two floats: an infinite power of a finite base is an
    [OverflowError]. *)
Definition py_pow `{MathLib} (x y : float) : res float :=
  let p := m_pow x y in
  if is_finite x && negb (is_finite p) && negb (is_nan p)
  then raise OverflowError "(34, 'Numerical result out of range')" else Ok p.
Definition py_square `{MathLib} (x : float) : res float := py_pow x (f_of_Z 2).

(** [math.fmod] on finite operands is exact. *)
Definition f_fmod (x w : float) : float :=
  match w with
  | S754_nan | S754_zero _ => S754_nan
  | S754_infinity _ => if is_finite x then x else S754_nan
  | S754_finite _ _ _ =>
      if is_finite x
      then let r := f_of_ratio (Z.rem (fnum x * fden w) (fnum w * fden x)) (fden x * fden w) in
           if ftruthy r then r else S754_zero (fsign x)
      else S754_nan
  end.

(** [x % w]: the sign of the divisor. *)
Definition py_mod (x w : float) : res float :=
  if feqb w f0 then raise ZeroDivisionError "float modulo"
  else
    let m := f_fmod x w in
    if ftruthy m then Ok (if eqb (fltb w f0) (fltb m f0) then m else fadd m w)
    else Ok (S754_zero (fsign w)).

(** [int / 1e9]. *)
Definition seconds_of_ns (ns : Z) : res float :=
  x ← float_of_int ns; fdiv x (f_of_Z 1000000000).

(** What arithmetic can raise. *)
Definition arithmetic (c : exn_class) : bool :=
  match c with ValueError | OverflowError | ZeroDivisionError => true | _ => false end.

Lemma math_fn_arith f x : only arithmetic (math_fn f x).
Proof. by destruct x. Qed.
Lemma math_sqrt_arith x : only arithmetic (math_sqrt x).
Proof. unfold math_sqrt. by destruct (fltb x f0). Qed.
Lemma fdiv_arith x y : only arithmetic (fdiv x y).
Proof. unfold fdiv. by destruct y. Qed.
Lemma py_pow_arith `{MathLib} x y : only arithmetic (py_pow x y).
Proof. unfold py_pow. by case_match. Qed.
Lemma py_square_arith `{MathLib} x : only arithmetic (py_square x).
Proof. apply py_pow_arith. Qed.
Lemma py_mod_arith x w : only arithmetic (py_mod x w).
Proof. unfold py_mod. repeat case_match; done. Qed.
Lemma f_ceil_arith x : only arithmetic (f_ceil x).
Proof. unfold f_ceil, int_guard. by destruct x. Qed.
Lemma float_of_int_arith z : only arithmetic (float_of_int z).
Proof. unfold float_of_int. repeat case_match; done. Qed.
#[export] Hint Resolve math_fn_arith math_sqrt_arith fdiv_arith py_pow_arith py_square_arith py_mod_arith f_ceil_arith
  float_of_int_arith : raises.

(** * Vectors *)

Definition at_ (v : vec) (i : nat) : float := nth i v S754_nan.
Definition vadd (a b : vec) : vec := zip_with fadd a b.
Definition vsub (a b : vec) : vec := zip_with fsub a b.
Definition vscale (v : vec) (s : float) : vec := (fun x => fmul x s) <$> v.
Definition vdiv (v : vec) (s : float) : vec := (fun x => fdiv_ieee x s) <$> v.
Definition vneg (v : vec) : vec := fopp <$> v.
Definition vsquare (v : vec) : vec := (fun x => fmul x x) <$> v.
Definition np_full (n : nat) (x : float) : vec := replicate n x.
Definition np_zeros (n : nat) : vec := replicate n f0.
(** A slice [v[i : i + n]]. *)
Definition slice (i n : nat) (v : vec) : vec := take n (drop i v).
(** [v[i : i + n] = w], within the vector. *)
Definition set_slice (i : nat) (w v : vec) : vec := take i v ++ w ++ drop (i + length w) v.

Definition np_cross (a b : vec) : vec :=
  [fsub (fmul (at_ a 1) (at_ b 2)) (fmul (at_ a 2) (at_ b 1));
   fsub (fmul (at_ a 2) (at_ b 0)) (fmul (at_ a 0) (at_ b 2));
   fsub (fmul (at_ a 0) (at_ b 1)) (fmul (at_ a 1) (at_ b 0))].

(** [np.all(np.isfinite(v))]. *)
Definition all_finite (v : vec) : bool := forallb is_finite v.

(** * Matrices *)

Definition entry (m : mat) (i j : nat) : float := at_ (nth i m []) j.
Definition madd (a b : mat) : mat := zip_with vadd a b.
Definition msub (a b : mat) : mat := zip_with vsub a b.
Definition mscale (m : mat) (s : float) : mat := (fun r => vscale r s) <$> m.
Definition mneg (m : mat) : mat := vneg <$> m.
Definition mzeros (r c : nat) : mat := replicate r (np_zeros c).
Definition mcol (m : mat) (j : nat) : vec := (fun r => at_ r j) <$> m.
Definition transpose (c : nat) (m : mat) : mat := mcol m <$> seq 0 c.
Definition np_diag (v : vec) : mat :=
  imap (fun i x => set_slice i [x] (np_zeros (length v))) v.
Definition np_eye (n : nat) : mat := np_diag (np_full n (f_of_Z 1)).
(** [m[i : i + rows, j : j + cols] = b]. *)
Definition set_block (i j : nat) (b m : mat) : mat :=
  take i m ++ zip_with (set_slice j) b (drop i m) ++ drop (i + length b) m.
Definition set_entry (i j : nat) (x : float) (m : mat) : mat := set_block i j [[x]] m.
(** [m[i, j] += x]. *)
Definition add_entry (i j : nat) (x : float) (m : mat) : mat := set_entry i j (fadd (entry m i j) x) m.
(** [m[np.diag_indices(n)] += v]. *)
Definition add_diag (v : vec) (m : mat) : mat :=
  imap (fun i r => set_slice i [fadd (at_ r i) (at_ v i)] r) m.
(** [0.5 * (m + m.T)]. *)
Definition symmetrised (n : nat) (m : mat) : mat := mscale (madd m (transpose n m)) (lit 1 2).

(** * A platform to evaluate the model on

    Sums of products from the left; an inverse for one and two rows, by
    cofactors (what the filter inverts are 1x1, 2x2 and 3x3, and the examples
    reach the first two); libm cut down to the exact values the examples
    meet. *)
Module Plain.
Definition dot (a b : vec) : float := fold_left fadd (zip_with fmul a b) f0.
Definition mv (m : mat) (v : vec) : vec := (fun r => dot r v) <$> m.
Definition ncols (m : mat) : nat := length (hd [] m).
Definition mm (a b : mat) : mat := (fun r => (fun c => dot r c) <$> transpose (ncols b) b) <$> a.
Definition inv (m : mat) : option mat :=
  match m with
  | [[a]] => if ftruthy a then Some [[fdiv_ieee (f_of_Z 1) a]] else None
  | [[a; b]; [c; d]] =>
      let det := fsub (fmul a d) (fmul b c) in
      if ftruthy det
      then Some [[fdiv_ieee d det; fdiv_ieee (fopp b) det]; [fdiv_ieee (fopp c) det; fdiv_ieee a det]]
      else None
  | _ => Some m
  end.

#[export] Instance numpy : NumPy := {|
  np_dot := dot;
  np_mv := mv;
  np_tmv m v := mv (transpose (ncols m) m) v;
  np_vm v m := mv (transpose (ncols m) m) v;
  np_mm := mm;
  np_mmt a b := mm a (transpose (ncols b) b);
  np_tmm a b := mm (transpose (ncols a) a) b;
  np_norm v := fsqrt (dot v v);
  np_det m := fsub
    (fadd (fmul (entry m 0 0) (fsub (fmul (entry m 1 1) (entry m 2 2)) (fmul (entry m 1 2) (entry m 2 1))))
          (fmul (entry m 0 2) (fsub (fmul (entry m 1 0) (entry m 2 1)) (fmul (entry m 1 1) (entry m 2 0)))))
    (fmul (entry m 0 1) (fsub (fmul (entry m 1 0) (entry m 2 2)) (fmul (entry m 1 2) (entry m 2 0))));
  np_inv := inv
|}.

(** Small angles: [sin x = x], [cos x = 1], [atan2 y x = y / x]; a NaN stays one. *)
Definition on_number (x y : float) : float := if is_nan x then x else y.
#[export] Instance libm : MathLib := {|
  m_sin x := x;
  m_cos x := on_number x (f_of_Z 1);
  m_asin x := x;
  m_atan2 y x := fdiv_ieee y x;
  m_hypot x y := fsqrt (fadd (fmul x x) (fmul y y));
  m_pow x y := if feqb y (f_of_Z 2) then fmul x x else fmul (fmul x x) x
|}.
End Plain.
