(* ===== verification/Geodesy.v ===== *)
(** WGS-84 conversions ([src/fusion/geodesy.py]): geodetic coordinates, ECEF
    and the local north-east-down frame the filter navigates in. *)

From S2P Require Import Prelude PyFloat TimingCore Distance StateRes Numpy.

Local Open Scope Z_scope.

Definition one : float := f_of_Z 1.
Definition two : float := f_of_Z 2.
Definition _A : float := f_of_Z 6378137.
Definition _F : float := fdiv_ieee one (lit 298257223563 1000000000).
Definition _E2 : float := fmul _F (fsub two _F).
Definition _B : float := fmul _A (fsub one _F).
Definition _EP2 : float := fdiv_ieee (fsub (fmul _A _A) (fmul _B _B)) (fmul _B _B).
Definition _GAMMA_E : float := lit 97803253359 10000000000.
Definition _K : float := lit 193185265241 100000000000000.

Section Geodesy.
Context {ML : MathLib} {NP : NumPy}.

Definition math_sin (x : float) : res float := math_fn m_sin x.
Definition math_cos (x : float) : res float := math_fn m_cos x.

(** [_A / math.sqrt(1.0 - _E2 * sin_lat * sin_lat)]. *)
Definition curvature (sin_lat : float) : res float :=
  r ← math_sqrt (fsub one (fmul (fmul _E2 sin_lat) sin_lat)); fdiv _A r.

Definition geodetic_to_ecef (lat_deg lon_deg h_m : float) : res vec :=
  let lat := radians lat_deg in
  let lon := radians lon_deg in
  sin_lat ← math_sin lat;
  n ← curvature sin_lat;
  cos_lat ← math_cos lat;
  cos_lon ← math_cos lon;
  sin_lon ← math_sin lon;
  Ok [fmul (fmul (fadd n h_m) cos_lat) cos_lon;
      fmul (fmul (fadd n h_m) cos_lat) sin_lon;
      fmul (fadd (fmul n (fsub one _E2)) h_m) sin_lat].

(** Bowring's closed form. *)
Definition ecef_to_geodetic (xyz : vec) : res (float * float * float) :=
  let x := at_ xyz 0 in let y := at_ xyz 1 in let z := at_ xyz 2 in
  let p := m_hypot x y in
  let theta := m_atan2 (fmul z _A) (fmul p _B) in
  sin_t ← math_sin theta;
  cos_t ← math_cos theta;
  sin3 ← py_pow sin_t (f_of_Z 3);
  cos3 ← py_pow cos_t (f_of_Z 3);
  let lat := m_atan2 (fadd z (fmul (fmul _EP2 _B) sin3)) (fsub p (fmul (fmul _E2 _A) cos3)) in
  let lon := m_atan2 y x in
  sin_lat ← math_sin lat;
  n ← curvature sin_lat;
  cos_lat ← math_cos lat;
  h ← (if fltb (lit 1 1000000000) (fabs cos_lat)
       then d ← fdiv p cos_lat; Ok (fsub d n)
       else Ok (fsub (fabs z) _B));
  Ok (degrees lat, degrees lon, h).

Definition normal_gravity (lat_deg h_m : float) : res float :=
  s ← math_sin (radians lat_deg);
  sin2 ← py_square s;
  r ← math_sqrt (fsub one (fmul _E2 sin2));
  gamma ← fdiv (fmul _GAMMA_E (fadd one (fmul _K sin2))) r;
  Ok (fsub gamma (fmul (lit 3086 1000000000) h_m)).

Record LocalFrame := mkFrame {
  lat0 : float;
  lon0 : float;
  h0 : float;
  _origin : vec;
  _r_ned_ecef : mat;
  gravity : float
}.

Definition LocalFrame_init (lat_deg lon_deg h_m : float) : res LocalFrame :=
  origin ← geodetic_to_ecef lat_deg lon_deg h_m;
  let lat := radians lat_deg in
  let lon := radians lon_deg in
  sl ← math_sin lat; cl ← math_cos lat;
  so ← math_sin lon; co ← math_cos lon;
  g ← normal_gravity lat_deg h_m;
  Ok (mkFrame lat_deg lon_deg h_m origin
        [[fmul (fopp sl) co; fmul (fopp sl) so; cl];
         [fopp so; co; f0];
         [fmul (fopp cl) co; fmul (fopp cl) so; fopp sl]] g).

(** With no height: on the origin's height, the horizontal part only. *)
Definition to_ned (self : LocalFrame) (lat_deg lon_deg : float) (h_m : option float) : res vec :=
  xyz ← geodetic_to_ecef lat_deg lon_deg (default (h0 self) h_m);
  let ned := np_mv (_r_ned_ecef self) (vsub xyz (_origin self)) in
  Ok (match h_m with None => set_slice 2 [f0] ned | Some _ => ned end).

Definition to_geodetic (self : LocalFrame) (ned : vec) : res (float * float * float) :=
  ecef_to_geodetic (vadd (_origin self) (np_tmv (_r_ned_ecef self) ned)).

Lemma math_sin_arith x : only arithmetic (math_sin x).
Proof. apply math_fn_arith. Qed.
Lemma math_cos_arith x : only arithmetic (math_cos x).
Proof. apply math_fn_arith. Qed.
Lemma geodetic_to_ecef_arith lat_deg lon_deg h_m : only arithmetic (geodetic_to_ecef lat_deg lon_deg h_m).
Proof. unfold geodetic_to_ecef, curvature, math_sin, math_cos. auto 20 with raises. Qed.
Lemma ecef_to_geodetic_arith xyz : only arithmetic (ecef_to_geodetic xyz).
Proof. unfold ecef_to_geodetic, curvature, math_sin, math_cos, py_square. auto 20 with raises. Qed.
Lemma to_ned_arith fr lat_deg lon_deg h : only arithmetic (to_ned fr lat_deg lon_deg h).
Proof. apply only_bind; [apply geodetic_to_ecef_arith|done]. Qed.
Lemma to_geodetic_arith fr ned : only arithmetic (to_geodetic fr ned).
Proof. apply ecef_to_geodetic_arith. Qed.
Lemma LocalFrame_init_arith lat_deg lon_deg h_m : only arithmetic (LocalFrame_init lat_deg lon_deg h_m).
Proof.
  apply only_bind; [apply geodetic_to_ecef_arith|intros ?]. unfold normal_gravity, py_square, math_sin, math_cos.
  auto 20 with raises.
Qed.

(** A frame is anchored where it was asked to be, and remembers it exactly. *)
Lemma frame_anchor lat_deg lon_deg h_m fr :
  LocalFrame_init lat_deg lon_deg h_m = Ok fr ->
  lat0 fr = lat_deg /\ lon0 fr = lon_deg /\ h0 fr = h_m.
Proof.
  unfold LocalFrame_init. intros (? & _ & H)%res_bind_Ok.
  do 5 (apply res_bind_Ok in H as (? & _ & H)). by simplify_eq.
Qed.

(** What [to_ned] gives lies in the tangent plane. *)
Lemma to_ned_down fr lat_deg lon_deg v :
  (2 <= length (np_mv (_r_ned_ecef fr) (vsub v (_origin fr))))%nat ->
  geodetic_to_ecef lat_deg lon_deg (h0 fr) = Ok v ->
  exists ned, to_ned fr lat_deg lon_deg None = Ok ned /\ at_ ned 2 = f0.
Proof.
  intros Hl E. unfold to_ned. cbn [default]. rewrite E. cbn [mbind res_bind]. eexists. split; [done|].
  set (l := np_mv _ _) in *. unfold at_, set_slice.
  destruct l as [|a [|b l]]; simpl in Hl; [lia|lia|done].
Qed.
End Geodesy.

#[export] Hint Resolve math_sin_arith math_cos_arith to_ned_arith to_geodetic_arith LocalFrame_init_arith : raises.
