(* ===== verification/Ins.v ===== *)
(** The 15-state error-state Kalman filter ([src/fusion/ins.py]).

    The nominal state is what [propagate] and [update] assign, in the order
    they assign it: a method that raises half-way ([math.sin] of an infinite
    rotation) leaves behind what it had assigned by then. *)

From S2P Require Import Prelude PyFloat TimingCore Distance StateRes Numpy Geodesy.

Local Open Scope Z_scope.

(** The slices of the error state. *)
Definition P : nat := 0.
Definition V : nat := 3.
Definition TH : nat := 6.
Definition BG : nat := 9.
Definition BA : nat := 12.
Definition N_STATES : nat := 15.

Record ImuNoise := mkNoise {
  accel_noise : float;
  gyro_noise : float;
  accel_bias_rw : float;
  gyro_bias_rw : float
}.

Definition ImuNoise_default : ImuNoise :=
  mkNoise (lit 5 100) (lit 2 1000) (lit 2 1000) (lit 5 100000).

Record ErrorStateIns := mkIns {
  g_n : vec;
  noise : ImuNoise;
  i_p : vec;
  i_v : vec;
  i_q : vec;
  i_bg : vec;
  i_ba : vec;
  i_cov : mat;
  i_omega_b : vec;
  i_f_b : vec;
  i_a_n : vec
}.

Definition set_p (x : vec) (s : ErrorStateIns) : ErrorStateIns :=
  mkIns (g_n s) (noise s) x (i_v s) (i_q s) (i_bg s) (i_ba s) (i_cov s) (i_omega_b s) (i_f_b s) (i_a_n s).
Definition set_v (x : vec) (s : ErrorStateIns) : ErrorStateIns :=
  mkIns (g_n s) (noise s) (i_p s) x (i_q s) (i_bg s) (i_ba s) (i_cov s) (i_omega_b s) (i_f_b s) (i_a_n s).
Definition set_q (x : vec) (s : ErrorStateIns) : ErrorStateIns :=
  mkIns (g_n s) (noise s) (i_p s) (i_v s) x (i_bg s) (i_ba s) (i_cov s) (i_omega_b s) (i_f_b s) (i_a_n s).
Definition set_bias (bg ba : vec) (s : ErrorStateIns) : ErrorStateIns :=
  mkIns (g_n s) (noise s) (i_p s) (i_v s) (i_q s) bg ba (i_cov s) (i_omega_b s) (i_f_b s) (i_a_n s).
Definition set_cov (x : mat) (s : ErrorStateIns) : ErrorStateIns :=
  mkIns (g_n s) (noise s) (i_p s) (i_v s) (i_q s) (i_bg s) (i_ba s) x (i_omega_b s) (i_f_b s) (i_a_n s).
Definition set_readings (f w a : vec) (s : ErrorStateIns) : ErrorStateIns :=
  mkIns (g_n s) (noise s) (i_p s) (i_v s) (i_q s) (i_bg s) (i_ba s) (i_cov s) w f a.

(** * Rotations *)

Definition skew (v : vec) : mat :=
  [[f0; fopp (at_ v 2); at_ v 1]; [at_ v 2; f0; fopp (at_ v 0)]; [fopp (at_ v 1); at_ v 0; f0]].

Definition quat_mul (a b : vec) : vec :=
  let aw := at_ a 0 in let ax := at_ a 1 in let ay := at_ a 2 in let az := at_ a 3 in
  let bw := at_ b 0 in let bx := at_ b 1 in let by' := at_ b 2 in let bz := at_ b 3 in
  [fsub (fsub (fsub (fmul aw bw) (fmul ax bx)) (fmul ay by')) (fmul az bz);
   fsub (fadd (fadd (fmul aw bx) (fmul ax bw)) (fmul ay bz)) (fmul az by');
   fadd (fadd (fsub (fmul aw by') (fmul ax bz)) (fmul ay bw)) (fmul az bx);
   fadd (fsub (fadd (fmul aw bz) (fmul ax by')) (fmul ay bx)) (fmul az bw)].

Definition quat_to_dcm (q : vec) : mat :=
  let w := at_ q 0 in let x := at_ q 1 in let y := at_ q 2 in let z := at_ q 3 in
  let diagonal a b := fsub one (fmul two (fadd (fmul a a) (fmul b b))) in
  let minus a b c d := fmul two (fsub (fmul a b) (fmul c d)) in
  let plus a b c d := fmul two (fadd (fmul a b) (fmul c d)) in
  [[diagonal y z; minus x y w z; plus x z w y];
   [plus x y w z; diagonal x z; minus y z w x];
   [minus x z w y; plus y z w x; diagonal x y]].

Section Ins.
Context {ML : MathLib} {NP : NumPy}.

Definition quat_from_rotvec (r : vec) : res vec :=
  angle ← math_sqrt (np_dot r r);
  if fltb angle (lit 1 1000000000000) then
    let h := lit 1 2 in
    let q := [one; fmul h (at_ r 0); fmul h (at_ r 1); fmul h (at_ r 2)] in
    Ok (vdiv q (np_norm q))
  else
    let half := fmul (lit 1 2) angle in
    sin_half ← math_sin half;
    s ← fdiv sin_half angle;
    cos_half ← math_cos half;
    Ok [cos_half; fmul (at_ r 0) s; fmul (at_ r 1) s; fmul (at_ r 2) s].

Definition quat_from_euler (roll pitch yaw : float) : res vec :=
  cr ← math_cos (fdiv_ieee roll two); sr ← math_sin (fdiv_ieee roll two);
  cp ← math_cos (fdiv_ieee pitch two); sp ← math_sin (fdiv_ieee pitch two);
  cy ← math_cos (fdiv_ieee yaw two); sy ← math_sin (fdiv_ieee yaw two);
  let m a b c := fmul (fmul a b) c in
  Ok [fadd (m cr cp cy) (m sr sp sy);
      fsub (m sr cp cy) (m cr sp sy);
      fadd (m cr sp cy) (m sr cp sy);
      fsub (m cr cp sy) (m sr sp cy)].

Definition dcm_to_euler (r : mat) : float * float * float :=
  let pitch := fopp (m_asin (fmax (fopp one) (fmin one (entry r 2 0)))) in
  let roll := m_atan2 (entry r 2 1) (entry r 2 2) in
  let yaw := m_atan2 (entry r 1 0) (entry r 0 0) in
  (roll, pitch, yaw).

(** * The filter *)

Definition ErrorStateIns_init (gravity : float) (n : ImuNoise) : ErrorStateIns :=
  mkIns [f0; f0; gravity] n (np_zeros 3) (np_zeros 3) [one; f0; f0; f0] (np_zeros 3) (np_zeros 3)
    (np_eye N_STATES) (np_zeros 3) [f0; f0; fopp gravity] (np_zeros 3).

(** [sigma ** 2] of the three floats is the only thing here that can raise,
    after the nominal state is assigned. *)
Definition initialize (p v q : vec) (sigma_p : vec) (sigma_v : float) (sigma_att : vec)
    (sigma_bg sigma_ba : float) (bg : option vec) : SR ErrorStateIns unit :=
  _ ← modify (fun s => set_bias (default (np_zeros 3) bg) (np_zeros 3)
                         (set_q (vdiv q (np_norm q)) (set_v v (set_p p s))));
  vv ← lift (py_square sigma_v);
  gg ← lift (py_square sigma_bg);
  aa ← lift (py_square sigma_ba);
  modify (set_cov (np_diag (vsquare sigma_p ++ np_full 3 vv ++ vsquare sigma_att
                              ++ np_full 3 gg ++ np_full 3 aa))).

Definition dcm (s : ErrorStateIns) : mat := quat_to_dcm (i_q s).

(** Advance the nominal state and covariance by one IMU interval. *)
Definition propagate (f_meas w_meas : vec) (dt : float) : SR ErrorStateIns unit :=
  self ← get;
  let f := vsub f_meas (i_ba self) in
  let w := vsub w_meas (i_bg self) in
  let r := dcm self in
  let a := vadd (np_mv r f) (g_n self) in
  _ ← modify (set_p (vadd (vadd (i_p self) (vscale (i_v self) dt))
                       (vscale (vscale (vscale a (lit 1 2)) dt) dt)));
  _ ← modify (set_v (vadd (i_v self) (vscale a dt)));
  dq ← lift (quat_from_rotvec (vscale w dt));
  let q := quat_mul (i_q self) dq in
  _ ← modify (fun s => set_readings f w a (set_q (vdiv q (np_norm q)) s));
  let phi := set_block P V (mscale (np_eye 3) dt) (np_eye N_STATES) in
  let phi := set_block V TH (mscale (mneg (skew (np_mv r f))) dt) phi in
  let phi := set_block V BA (mscale (mneg r) dt) phi in
  let phi := set_block TH BG (mscale (mneg r) dt) phi in
  let n := noise self in
  na ← lift (py_square (accel_noise n));
  ng ← lift (py_square (gyro_noise n));
  nbg ← lift (py_square (gyro_bias_rw n));
  nba ← lift (py_square (accel_bias_rw n));
  let qd := set_slice V (np_full 3 (fmul na dt)) (np_zeros N_STATES) in
  let qd := set_slice TH (np_full 3 (fmul ng dt)) qd in
  let qd := set_slice BG (np_full 3 (fmul nbg dt)) qd in
  let qd := set_slice BA (np_full 3 (fmul nba dt)) qd in
  let cov := add_diag qd (np_mmt (np_mm phi (i_cov self)) phi) in
  modify (set_cov (symmetrised N_STATES cov)).

Definition _inject (dx : vec) : SR ErrorStateIns unit :=
  _ ← modify (fun s => set_p (vadd (i_p s) (slice P 3 dx)) s);
  _ ← modify (fun s => set_v (vadd (i_v s) (slice V 3 dx)) s);
  dq ← lift (quat_from_rotvec (slice TH 3 dx));
  q ← gets (fun s => quat_mul dq (i_q s));
  _ ← modify (set_q (vdiv q (np_norm q)));
  modify (fun s => set_bias (vadd (i_bg s) (slice BG 3 dx)) (vadd (i_ba s) (slice BA 3 dx)) s).

(** [nis > gate]: a NaN is above nothing. *)
Definition gated_out (gate : option float) (nis : float) : bool :=
  match gate with Some g => fltb g nis | None => false end.

Definition innovation (self : ErrorStateIns) (h : mat) (r_diag : vec) : mat :=
  madd (np_mmt (np_mm h (i_cov self)) h) (np_diag r_diag).

(** (accepted, NIS). *)
Definition update (residual : vec) (h : mat) (r_diag : vec) (gate : option float)
    : SR ErrorStateIns (bool * float) :=
  self ← get;
  match np_inv (innovation self h r_diag) with
  | None => mret (false, finf)
  | Some s_inv =>
      let nis := np_dot (np_vm residual s_inv) residual in
      if gated_out gate nis then mret (false, nis)
      else
        let k := np_mm (np_mmt (i_cov self) h) s_inv in
        let dx := np_mv k residual in
        let ikh := msub (np_eye N_STATES) (np_mm k h) in
        let cov := madd (np_mmt (np_mm ikh (i_cov self)) ikh) (np_mmt (np_mm k (np_diag r_diag)) k) in
        _ ← modify (set_cov (symmetrised N_STATES cov));
        _ ← _inject dx;
        mret (true, nis)
  end.

(** * Measurement models *)

Definition antenna_position (lever_arm : vec) (lag_s : float) (s : ErrorStateIns) : vec :=
  let r := dcm s in
  let v_ant := vadd (i_v s) (np_mv r (np_cross (i_omega_b s) lever_arm)) in
  vsub (vadd (i_p s) (np_mv r lever_arm)) (vscale v_ant lag_s).

Definition antenna_velocity (lever_arm : vec) (lag_s : float) (s : ErrorStateIns) : vec :=
  vsub (vadd (i_v s) (np_mv (dcm s) (np_cross (i_omega_b s) lever_arm))) (vscale (i_a_n s) lag_s).

Definition position_jacobian (lever_arm : vec) (s : ErrorStateIns) : mat :=
  set_block 0 TH (mneg (skew (np_mv (dcm s) lever_arm))) (set_block 0 P (np_eye 3) (mzeros 3 N_STATES)).

Definition velocity_jacobian (lever_arm : vec) (s : ErrorStateIns) : mat :=
  set_block 0 TH (mneg (skew (np_mv (dcm s) (np_cross (i_omega_b s) lever_arm))))
    (set_block 0 V (np_eye 3) (mzeros 3 N_STATES)).

Definition body_velocity_jacobian (s : ErrorStateIns) : mat :=
  set_block 0 TH (np_tmm (dcm s) (skew (i_v s)))
    (set_block 0 V (transpose 3 (dcm s)) (mzeros 3 N_STATES)).

(** * What the filter's methods raise *)

Lemma quat_from_rotvec_arith r : only arithmetic (quat_from_rotvec r).
Proof. unfold quat_from_rotvec, math_sin, math_cos. auto 20 with raises. Qed.
Lemma quat_from_euler_arith roll pitch yaw : only arithmetic (quat_from_euler roll pitch yaw).
Proof. unfold quat_from_euler, math_sin, math_cos. auto 20 with raises. Qed.
Lemma initialize_arith p v q sp sv sa sbg sba bg : raises_only arithmetic (initialize p v q sp sv sa sbg sba bg).
Proof. unfold initialize, py_square. auto 20 with raises. Qed.
Lemma propagate_arith f w dt : raises_only arithmetic (propagate f w dt).
Proof. unfold propagate, py_square. auto 30 using quat_from_rotvec_arith with raises. Qed.
Lemma update_arith residual h r_diag gate : raises_only arithmetic (update residual h r_diag gate).
Proof. unfold update, _inject. auto 30 using quat_from_rotvec_arith with raises. Qed.

(** * The gate *)

(** A rejected measurement leaves the filter untouched, and only a gate or a
    singular innovation rejects one; the NIS of what a gate lets through is
    not above it. *)
Lemma update_verdict residual h r_diag gate s :
  wp (update residual h r_diag gate) (fun s' r => forall nis accepted, r = Ok (accepted, nis) ->
    if (accepted : bool) then gated_out gate nis = false
    else s' = s /\ (np_inv (innovation s h r_diag) = None \/ gated_out gate nis = true)) s.
Proof.
  unfold update. do 2 wp_step. destruct (np_inv _) as [s_inv|] eqn:Ei; [|wp_step; intros; simplify_eq; eauto].
  destruct (gated_out _ _) eqn:Eg; [wp_step; intros; simplify_eq; eauto|].
  do 3 wp_step. eapply wp_mono; [by apply (wp_any (_inject _))|].
  intros s' [u|e] _; [wp_step; by intros; simplify_eq|done].
Qed.

(** A NaN innovation passes every gate: the comparison is false. *)
Lemma nan_passes_the_gate gate nis : is_nan nis = true -> gated_out gate nis = false.
Proof. destruct gate as [[]|], nis; done. Qed.

(** The noise densities and gravity never change. *)
Lemma propagate_constants f w dt : keeps (fun s => (g_n s, noise s)) (propagate f w dt).
Proof. unfold propagate. auto 30 with keeps. Qed.
Lemma update_constants residual h r_diag gate :
  keeps (fun s => (g_n s, noise s)) (update residual h r_diag gate).
Proof. unfold update, _inject. auto 30 with keeps. Qed.
End Ins.
#[export] Hint Resolve quat_from_euler_arith initialize_arith propagate_arith update_arith : raises.
