(* ===== verification/FusionEngine.v ===== *)
(** The fusion engine ([src/fusion/engine.py]): alignment, GNSS weighting,
    outages and IMU failure around the error-state filter.

    Every method is a computation on the engine ([StateRes.SR]); the filter's
    own methods act on the [_ins] it holds ([on_ins]). Times and readings are
    Python floats; BLAS, LAPACK and libm are the parameters of [Numpy]. Log
    lines are not modelled.

    [EngineRuns] has what holds over any sequence of calls. *)

From S2P Require Import Prelude PyFloat PyText TimingCore Distance StateRes Numpy Geodesy Ins.

Local Open Scope Z_scope.

(** posMode -> horizontal, vertical and velocity 1-sigma. *)
Definition MODE_SIGMAS (mode : string) : option (float * float * float) :=
  if String.eqb mode "R" then Some (lit 3 100, lit 5 100, lit 5 100)
  else if String.eqb mode "F" then Some (lit 4 10, lit 6 10, lit 8 100)
  else if String.eqb mode "D" then Some (lit 8 10, lit 15 10, lit 12 100)
  else if String.eqb mode "A" then Some (lit 25 10, f_of_Z 4, lit 15 100)
  else if String.eqb mode "E" then Some (f_of_Z 10, f_of_Z 15, one)
  else None.

Definition MODE_STATUS (mode : string) : option string :=
  if String.eqb mode "R" then Some "rtk_fixed"
  else if String.eqb mode "F" then Some "rtk_float"
  else if String.eqb mode "D" then Some "dgnss"
  else if String.eqb mode "A" then Some "gnss"
  else if String.eqb mode "E" then Some "gnss"
  else None.

Definition MAX_SPECIFIC_FORCE : float := fmul (f_of_Z 30) (lit 980665 100000).
Definition MAX_RATE : float := radians (f_of_Z 1800).
Definition FROZEN_SAMPLES : Z := 50.
Definition FROZEN_CHECK_SPEED : float := f_of_Z 3.
Definition CHI2_2DOF : float := lit 138 10.
Definition CHI2_1DOF : float := lit 108 10.

Record EngineSettings := mkSettings {
  antenna_lever_arm : vec;
  latency_s : float;
  align_speed_mps : float;
  max_outage_s : float;
  gst_max_age_s : float;
  min_course_speed_mps : float;
  imu_timeout_s : float;
  imu_recovery_s : float;
  es_noise : ImuNoise;
  min_horizontal_sigma : float;
  min_vertical_sigma : float
}.

(** What the caller chooses, with the dataclass's defaults for the rest. *)
Definition EngineSettings_init (arm : vec) (latency align_speed max_outage : float) (n : ImuNoise)
    : EngineSettings :=
  mkSettings arm latency align_speed max_outage one one (lit 25 100) one n (lit 15 1000) (lit 3 100).

Definition EngineSettings_default : EngineSettings :=
  EngineSettings_init [f0; f0; f0] (lit 3 100) (f_of_Z 5) (f_of_Z 10) ImuNoise_default.

Record FusionOutput := mkOutput {
  o_status : string;
  o_lat : option float;
  o_lon : option float;
  o_alt : option float;
  o_speed_mps : float;
  o_course_deg : float;
  o_vel_up_mps : option float;
  o_roll_deg : option float;
  o_pitch_deg : option float;
  o_yaw_deg : option float;
  o_yaw_rate_dps : option float;
  o_accel_long_g : option float;
  o_accel_lat_g : option float;
  o_accel_vert_g : option float;
  o_slip_angle_deg : option float;
  o_grade_pct : option float;
  o_pos_std_m : float;
  o_yaw_std_deg : option float;
  o_gnss_age_s : float;
  o_gyro_bias_dps : option vec
}.

Record EngineStats := mkStats {
  imu_steps : Z;
  imu_gaps : Z;
  fixes : Z;
  fixes_rejected : Z;
  forced_reanchors : Z;
  alignments : Z;
  outages_lost : Z;
  imu_failovers : Z;
  imu_bad_samples : Z
}.

(** One raw fix: time, position, speed, course, mode. *)
Record RawFix := mkFix {
  fx_t : float;
  fx_lat : float;
  fx_lon : float;
  fx_speed : float;
  fx_course : float;
  fx_mode : string
}.

Record FusionEngine := mkEngine {
  e_settings : EngineSettings;
  e_stats : EngineStats;
  e_frame : option LocalFrame;
  e_ins : option ErrorStateIns;
  e_t_imu : option float;
  e_last_f : option vec;
  e_last_fix_t : option float;
  e_last_mode : string;
  e_gst : option (float * float * float * float);
  e_have_alt_ref : bool;
  e_rejected_since : option float;
  e_last_nhc_t : float;
  e_level_sum : vec;
  e_level_n : Z;
  e_gyro_sum : vec;
  e_still : bool;
  e_imu_fault : bool;
  e_imu_good_since : option float;
  e_frozen_run : Z;
  e_prev_raw : option (vec * vec);
  e_fix : option RawFix;
  e_last_alt : option float;
  e_heading_deg : option float
}.

Definition engine_eta (s : FusionEngine) : FusionEngine :=
  mkEngine (e_settings s) (e_stats s) (e_frame s) (e_ins s) (e_t_imu s) (e_last_f s)
    (e_last_fix_t s) (e_last_mode s) (e_gst s) (e_have_alt_ref s) (e_rejected_since s)
    (e_last_nhc_t s) (e_level_sum s) (e_level_n s) (e_gyro_sum s) (e_still s) (e_imu_fault s)
    (e_imu_good_since s) (e_frozen_run s) (e_prev_raw s) (e_fix s) (e_last_alt s)
    (e_heading_deg s).

Definition set_stats (x : EngineStats) (s : FusionEngine) : FusionEngine :=
  ltac:(set_field engine_eta e_stats x s).
Definition set_frame (x : option LocalFrame) (s : FusionEngine) : FusionEngine :=
  ltac:(set_field engine_eta e_frame x s).
Definition set_ins (x : option ErrorStateIns) (s : FusionEngine) : FusionEngine :=
  ltac:(set_field engine_eta e_ins x s).
Definition set_t_imu (x : option float) (s : FusionEngine) : FusionEngine :=
  ltac:(set_field engine_eta e_t_imu x s).
Definition set_last_f (x : option vec) (s : FusionEngine) : FusionEngine :=
  ltac:(set_field engine_eta e_last_f x s).
Definition set_last_fix_t (x : option float) (s : FusionEngine) : FusionEngine :=
  ltac:(set_field engine_eta e_last_fix_t x s).
Definition set_last_mode (x : string) (s : FusionEngine) : FusionEngine :=
  ltac:(set_field engine_eta e_last_mode x s).
Definition set_gst (x : option (float * float * float * float)) (s : FusionEngine) : FusionEngine :=
  ltac:(set_field engine_eta e_gst x s).
Definition set_have_alt_ref (x : bool) (s : FusionEngine) : FusionEngine :=
  ltac:(set_field engine_eta e_have_alt_ref x s).
Definition set_rejected_since (x : option float) (s : FusionEngine) : FusionEngine :=
  ltac:(set_field engine_eta e_rejected_since x s).
Definition set_last_nhc_t (x : float) (s : FusionEngine) : FusionEngine :=
  ltac:(set_field engine_eta e_last_nhc_t x s).
Definition set_level_sum (x : vec) (s : FusionEngine) : FusionEngine :=
  ltac:(set_field engine_eta e_level_sum x s).
Definition set_level_n (x : Z) (s : FusionEngine) : FusionEngine :=
  ltac:(set_field engine_eta e_level_n x s).
Definition set_gyro_sum (x : vec) (s : FusionEngine) : FusionEngine :=
  ltac:(set_field engine_eta e_gyro_sum x s).
Definition set_still (x : bool) (s : FusionEngine) : FusionEngine :=
  ltac:(set_field engine_eta e_still x s).
Definition set_imu_fault (x : bool) (s : FusionEngine) : FusionEngine :=
  ltac:(set_field engine_eta e_imu_fault x s).
Definition set_imu_good_since (x : option float) (s : FusionEngine) : FusionEngine :=
  ltac:(set_field engine_eta e_imu_good_since x s).
Definition set_frozen_run (x : Z) (s : FusionEngine) : FusionEngine :=
  ltac:(set_field engine_eta e_frozen_run x s).
Definition set_prev_raw (x : option (vec * vec)) (s : FusionEngine) : FusionEngine :=
  ltac:(set_field engine_eta e_prev_raw x s).
Definition set_fix (x : option RawFix) (s : FusionEngine) : FusionEngine :=
  ltac:(set_field engine_eta e_fix x s).
Definition set_last_alt (x : option float) (s : FusionEngine) : FusionEngine :=
  ltac:(set_field engine_eta e_last_alt x s).
Definition set_heading_deg (x : option float) (s : FusionEngine) : FusionEngine :=
  ltac:(set_field engine_eta e_heading_deg x s).

Definition stats_eta (s : EngineStats) : EngineStats :=
  mkStats (imu_steps s) (imu_gaps s) (fixes s) (fixes_rejected s) (forced_reanchors s) (alignments s)
    (outages_lost s) (imu_failovers s) (imu_bad_samples s).

(** One more on a counter. *)
Definition one_imu_steps (s : EngineStats) : EngineStats :=
  ltac:(set_field stats_eta imu_steps (imu_steps s + 1) s).
Definition one_imu_gaps (s : EngineStats) : EngineStats :=
  ltac:(set_field stats_eta imu_gaps (imu_gaps s + 1) s).
Definition one_fixes (s : EngineStats) : EngineStats :=
  ltac:(set_field stats_eta fixes (fixes s + 1) s).
Definition one_fixes_rejected (s : EngineStats) : EngineStats :=
  ltac:(set_field stats_eta fixes_rejected (fixes_rejected s + 1) s).
Definition one_forced_reanchors (s : EngineStats) : EngineStats :=
  ltac:(set_field stats_eta forced_reanchors (forced_reanchors s + 1) s).
Definition one_alignments (s : EngineStats) : EngineStats :=
  ltac:(set_field stats_eta alignments (alignments s + 1) s).
Definition one_outages_lost (s : EngineStats) : EngineStats :=
  ltac:(set_field stats_eta outages_lost (outages_lost s + 1) s).
Definition one_imu_failovers (s : EngineStats) : EngineStats :=
  ltac:(set_field stats_eta imu_failovers (imu_failovers s + 1) s).
Definition one_imu_bad_samples (s : EngineStats) : EngineStats :=
  ltac:(set_field stats_eta imu_bad_samples (imu_bad_samples s + 1) s).
Definition count (f : EngineStats -> EngineStats) (s : FusionEngine) : FusionEngine :=
  set_stats (f (e_stats s)) s.

Section Engine.
Context {ML : MathLib} {NP : NumPy}.

Definition FusionEngine_init (settings : EngineSettings) : FusionEngine :=
  mkEngine settings (mkStats 0 0 0 0 0 0 0 0 0) None None None None None "A" None false None fninf
    (np_zeros 3) 0 (np_zeros 3) false false None 0 None None None None.

(** * State *)

Definition aligned (s : FusionEngine) : bool := is_some (e_ins s).

Definition imu_healthy (s : FusionEngine) (now : float) : bool :=
  match e_t_imu s with
  | Some t => negb (e_imu_fault s) && fleb (fsub now t) (imu_timeout_s (e_settings s))
  | None => false
  end.

Definition none_attribute {A : Type} : res A := raise AttributeError "'NoneType' object has no attribute".

(** A method of the filter the engine holds. *)
Definition on_ins {A : Type} (m : SR ErrorStateIns A) : SR FusionEngine A := fun s =>
  match e_ins s with
  | Some i => let '(i, r) := m i in (set_ins (Some i) s, r)
  | None => (s, none_attribute)
  end.

Definition the_frame : SR FusionEngine LocalFrame := fun s =>
  (s, match e_frame s with Some fr => Ok fr | None => none_attribute end).

(** * Internals *)

(** Drop the inertial solution; output falls back to GNSS passthrough. *)
Definition _fail_over : SR FusionEngine unit :=
  s ← get;
  if negb (aligned s) then skip
  else
    _ ← modify (set_ins None);
    _ ← modify (set_have_alt_ref false);
    _ ← modify (set_level_sum (np_zeros 3));
    _ ← modify (set_gyro_sum (np_zeros 3));
    _ ← modify (set_level_n 0);
    modify (count one_imu_failovers).

Definition moving (s : FusionEngine) : bool :=
  match e_fix s with Some fx => fltb FROZEN_CHECK_SPEED (fx_speed fx) | None => false end.

(** Non-finite, or past any automotive range. *)
Definition impossible (f_b w_b : vec) : bool :=
  negb (all_finite f_b && all_finite w_b)
  || (fltb MAX_SPECIFIC_FORCE (np_norm f_b) || fltb MAX_RATE (np_norm w_b)).

(** Screen one IMU reading; latch a fault on impossible or frozen data. *)
Definition _imu_sample_ok (t : float) (f_b w_b : vec) : SR FusionEngine bool :=
  s ← get;
  let bad := impossible f_b w_b in
  let raw := (f_b, w_b) in
  let repeated := negb bad && moving s && bool_decide (e_prev_raw s = Some raw) in
  let run := if repeated then e_frozen_run s + 1 else 0 in
  let bad := if repeated then FROZEN_SAMPLES <=? run else bad in
  _ ← modify (set_frozen_run run);
  _ ← modify (set_prev_raw (Some raw));
  if bad then
    _ ← modify (count one_imu_bad_samples);
    _ ← modify (set_imu_good_since None);
    _ ← when (negb (e_imu_fault s)) (_ ← modify (set_imu_fault true); _fail_over);
    mret false
  else
    let since := default t (e_imu_good_since s) in
    _ ← modify (set_imu_good_since (Some since));
    _ ← when (e_imu_fault s && fleb (imu_recovery_s (e_settings s)) (fsub t since))
          (modify (set_imu_fault false));
    mret true.

Definition _imu_recovered (s : FusionEngine) (now : float) : bool :=
  match e_imu_good_since s with
  | None => false
  | Some since =>
      (imu_failovers (e_stats s) =? 0) || fleb (imu_recovery_s (e_settings s)) (fsub now since)
  end.

(** How far the filter's state is ahead of the measurement epoch. *)
Definition _lag (s : FusionEngine) (t_meas : float) : float :=
  fsub (default t_meas (e_t_imu s)) (fsub t_meas (latency_s (e_settings s))).

(** Horizontal, vertical and velocity 1-sigma: the receiver's own estimate
    while it is fresh, else by fix mode, never below the floors. *)
Definition _sigmas (s : FusionEngine) (t : float) (mode : string) : res (float * float * float) :=
  match MODE_SIGMAS mode with
  | None => raise KeyError mode
  | Some (sig_h, sig_z, sig_v) =>
      r ← math_sqrt two;
      hz ← match e_gst s with
           | Some (t0, lat_std, lon_std, alt_std) =>
               if fleb (fsub t t0) (gst_max_age_s (e_settings s))
               then d ← fdiv (m_hypot lat_std lon_std) r; Ok (fmax d (lit 1 1000), alt_std)
               else Ok (sig_h, sig_z)
           | None => Ok (sig_h, sig_z)
           end;
      Ok (fmax hz.1 (min_horizontal_sigma (e_settings s)),
          fmax hz.2 (min_vertical_sigma (e_settings s)), sig_v)
  end.

Definition _track_stillness (f_b w_b : vec) : SR FusionEngine unit :=
  s ← get;
  let g := match e_frame s with Some fr => gravity fr | None => lit 98 10 end in
  let still := fltb (fabs (fsub (np_norm f_b) g)) (lit 4 10)
               && fltb (np_norm w_b) (radians two) in
  _ ← when (still && negb (aligned s))
        (_ ← when (500 <=? e_level_n s)
               (modify (fun s => set_level_n (e_level_n s / 2)
                  (set_gyro_sum (vscale (e_gyro_sum s) (lit 1 2))
                     (set_level_sum (vscale (e_level_sum s) (lit 1 2)) s))));
         modify (fun s => set_level_n (e_level_n s + 1)
           (set_gyro_sum (vadd (e_gyro_sum s) w_b) (set_level_sum (vadd (e_level_sum s) f_b) s))));
  modify (set_still still).

(** Roll, pitch, their sigma and the gyro bias from the parked averages. *)
Definition levelled (s : FusionEngine) : float * float * float * option vec :=
  if 50 <=? e_level_n s then
    let n := f_of_Z (e_level_n s) in
    let f := vdiv (e_level_sum s) n in
    let roll := m_atan2 (fopp (at_ f 1)) (fopp (at_ f 2)) in
    let pitch := m_atan2 (at_ f 0) (m_hypot (at_ f 1) (at_ f 2)) in
    (roll, pitch, radians one, Some (vdiv (e_gyro_sum s) n))
  else (f0, f0, radians (f_of_Z 4), None).

Definition _try_align (t lat lon speed course_deg : float) (mode : string) : SR FusionEngine unit :=
  s ← get;
  if fltb speed (align_speed_mps (e_settings s)) || negb (is_some (e_t_imu s)) then skip
  else
    match e_frame s with
    | None => lift (raise AssertionError "")
    | Some fr =>
        let '(roll, pitch, sig_tilt, bg) := levelled s in
        let course := radians course_deg in
        q ← lift (quat_from_euler roll pitch course);
        sig ← lift (_sigmas s t mode);
        let '(sig_h, _, sig_v) := sig in
        let lag := _lag s t in
        let a_long := match e_last_f s with Some f => at_ f 0 | None => f0 end in
        c ← lift (math_cos course);
        sn ← lift (math_sin course);
        let heading := [c; sn; f0] in
        let v := vscale heading (fadd speed (fmul a_long lag)) in
        ned ← lift (to_ned fr lat lon None);
        let ahead := fadd (fmul speed lag) (fmul (fmul (fmul (lit 1 2) a_long) lag) lag) in
        let p := vadd ned (vscale heading ahead) in
        let start := ErrorStateIns_init (gravity fr) (es_noise (e_settings s)) in
        let '(ins, r) := initialize p v q [sig_h; sig_h; f_of_Z 50] (fmax sig_v (lit 3 10))
          [sig_tilt; sig_tilt; radians (f_of_Z 6)]
          (radians (match bg with Some _ => lit 1 10 | None => lit 5 10 end)) (lit 1 10) bg start in
        _ ← lift r;
        let ins := set_p (vsub p (np_mv (dcm ins) (antenna_lever_arm (e_settings s)))) ins in
        _ ← modify (set_ins (Some ins));
        _ ← modify (set_last_fix_t (Some t));
        _ ← modify (set_have_alt_ref false);
        modify (count one_alignments)
    end.

(** Open the filter up to a solution it has disagreed with for a second. *)
Definition _reanchor (residual : vec) (sigma : float) : SR FusionEngine unit :=
  s ← get;
  if negb (aligned s) then lift (raise AssertionError "")
  else
    sq ← lift (py_square sigma);
    let extra := (fun x => fadd x sq) <$> vsquare residual in
    on_ins (
      _ ← modify (fun i => set_cov (add_entry 0 0 (at_ extra 0) (i_cov i)) i);
      _ ← modify (fun i => set_cov (add_entry 1 1 (at_ extra 1) (i_cov i)) i);
      _ ← modify (fun i => set_cov (add_entry 3 3 one (i_cov i)) i);
      _ ← modify (fun i => set_cov (add_entry 4 4 one (i_cov i)) i);
      tilt ← lift (py_square (radians (f_of_Z 3)));
      modify (fun i => set_cov (add_entry 8 8 tilt (i_cov i)) i)).

(** Too long on inertial alone to trust: drop back to aligning. *)
Definition _check_outage (t : float) : SR FusionEngine unit :=
  s ← get;
  match e_last_fix_t s with
  | None => skip
  | Some last =>
      when (fltb (max_outage_s (e_settings s)) (fsub t last))
        (_ ← modify (set_ins None);
         _ ← modify (set_level_sum (np_zeros 3));
         _ ← modify (set_gyro_sum (np_zeros 3));
         _ ← modify (set_level_n 0);
         _ ← modify (set_have_alt_ref false);
         modify (count one_outages_lost))
  end.

(** Pseudo-measurements at 10 Hz: parked, or no height reference yet. *)
Definition _constraints (t : float) : SR FusionEngine unit :=
  s ← get;
  match e_ins s with
  | None => skip
  | Some ins =>
      if fltb (fsub t (e_last_nhc_t s)) (lit 1 10) then skip
      else
        _ ← modify (set_last_nhc_t t);
        let speed := np_norm (i_v ins) in
        if e_still s && fltb speed (lit 1 2) then
          r ← lift (py_square (lit 2 100));
          _ ← on_ins (update (vneg (np_tmv (dcm ins) (i_v ins))) (body_velocity_jacobian ins)
                        (np_full 3 r) None);
          w ← lift (py_square (radians (lit 5 100)));
          omega ← on_ins (gets i_omega_b);
          _ ← on_ins (update omega (set_block 0 BG (np_eye 3) (mzeros 3 N_STATES)) (np_full 3 w) None);
          skip
        else if negb (e_have_alt_ref s) then
          r ← lift (py_square (lit 1 2));
          _ ← on_ins (update [fopp (at_ (i_v ins) 2)] (set_entry 0 (V + 2) one (mzeros 1 N_STATES)) [r] None);
          skip
        else skip
  end.

(** * Inputs *)

(** The filter over one interval; a gap is integrated in pieces. *)
Definition integrate (f_b w_b : vec) (dt : float) : SR FusionEngine unit :=
  if fltb (lit 1 10) dt then
    _ ← modify (count one_imu_gaps);
    q ← lift (fdiv dt (lit 1 100));
    n ← lift (f_ceil q);
    let steps := Z.min 50 n in
    repeat_m (Z.to_nat steps) (h ← lift (fdiv dt (f_of_Z steps)); on_ins (propagate f_b w_b h))
  else on_ins (propagate f_b w_b dt).

(** A good sample, [previous] the one it continues. *)
Definition advance (t : float) (f_b w_b : vec) (previous : option float) : SR FusionEngine unit :=
  _ ← modify (set_last_f (Some f_b));
  _ ← _track_stillness f_b w_b;
  navigating ← gets aligned;
  match previous with
  | Some previous =>
      if negb navigating then skip
      else
        let dt := fsub t previous in
        if fleb dt f0 then skip
        else
          _ ← integrate f_b w_b dt;
          _ ← modify (count one_imu_steps);
          _ ← _check_outage t;
          _constraints t
  | None => skip
  end.

(** One IMU sample: specific force and body rate. After a silence, recovery
    counts from now and there is nothing to continue. *)
Definition imu (t : float) (f_b w_b : vec) : SR FusionEngine unit :=
  ok ← _imu_sample_ok t f_b w_b;
  if negb ok then skip
  else
    s ← get;
    _ ← modify (set_t_imu (Some t));
    let silent := match e_t_imu s with
                  | Some p => fltb (imu_timeout_s (e_settings s)) (fsub t p)
                  | None => false
                  end in
    _ ← when silent (_ ← _fail_over; modify (set_imu_good_since (Some t)));
    advance t f_b w_b (if silent then None else e_t_imu s).

Definition gnss_std (t lat_std lon_std alt_std : float) : SR FusionEngine unit :=
  modify (set_gst (Some (t, lat_std, lon_std, alt_std))).

(** The velocity half of an accepted fix. *)
Definition velocity_update (speed_mps course_deg lag sig_v : float) (gate : option float)
    : SR FusionEngine unit :=
  s ← get;
  when (fleb (min_course_speed_mps (e_settings s)) speed_mps)
    (let arm := antenna_lever_arm (e_settings s) in
     let course := radians course_deg in
     c ← lift (math_cos course);
     sn ← lift (math_sin course);
     pv ← on_ins (gets (antenna_velocity arm lag));
     hv ← on_ins (gets (velocity_jacobian arm));
     r ← lift (py_square sig_v);
     _ ← on_ins (update (vsub [fmul speed_mps c; fmul speed_mps sn] (take 2 pv)) (take 2 hv)
                   (np_full 2 r) gate);
     skip).

(** A fix the gate refused: a second of refusals re-anchors the filter. *)
Definition rejected (t : float) (z : vec) (residual : vec) (h : mat) (lag sig_h : float)
    : SR FusionEngine unit :=
  _ ← modify (count one_fixes_rejected);
  s ← get;
  match e_rejected_since s with
  | None => modify (set_rejected_since (Some t))
  | Some since =>
      when (fltb one (fsub t since))
        (_ ← _reanchor residual sig_h;
         p ← on_ins (gets (antenna_position (antenna_lever_arm (e_settings s)) lag));
         r ← lift (py_square sig_h);
         _ ← on_ins (update (vsub z (take 2 p)) h (np_full 2 r) None);
         _ ← modify (count one_forced_reanchors);
         _ ← modify (set_rejected_since None);
         modify (set_last_fix_t (Some t)))
  end.

(** One fix for a filter that is navigating. *)
Definition use_fix (t lat lon speed_mps course_deg : float) (mode : string) : SR FusionEngine unit :=
  _ ← modify (count one_fixes);
  s ← get;
  let arm := antenna_lever_arm (e_settings s) in
  let lag := _lag s t in
  sig ← lift (_sigmas s t mode);
  let '(sig_h, _, sig_v) := sig in
  let recovering := match e_last_fix_t s with Some last => fltb one (fsub t last) | None => false end in
  let gate := if recovering then None else Some CHI2_2DOF in
  fr ← the_frame;
  ned ← lift (to_ned fr lat lon None);
  let z := take 2 ned in
  predicted ← on_ins (gets (antenna_position arm lag));
  h ← on_ins (gets (position_jacobian arm));
  r ← lift (py_square sig_h);
  let residual := vsub z (take 2 predicted) in
  '(accepted, _) ← on_ins (update residual (take 2 h) (np_full 2 r) gate);
  if (accepted : bool) then
    _ ← modify (set_rejected_since None);
    _ ← modify (set_last_fix_t (Some t));
    velocity_update speed_mps course_deg lag sig_v gate
  else rejected t z residual (take 2 h) lag sig_h.

(** A fix for the record: the mode, the raw fix, the heading at speed, and the
    frame the first one anchors. *)
Definition remember_fix (t lat lon speed_mps course_deg : float) (mode : string) : SR FusionEngine unit :=
  _ ← modify (set_last_mode mode);
  _ ← modify (set_fix (Some (mkFix t lat lon speed_mps course_deg mode)));
  _ ← when (fltb two speed_mps) (modify (set_heading_deg (Some course_deg)));
  s ← get;
  when (negb (is_some (e_frame s)))
    (fr ← lift (LocalFrame_init lat lon f0); modify (set_frame (Some fr))).

(** One horizontal fix with Doppler speed and course. *)
Definition gnss_fix (t lat lon speed_mps course_deg : float) (given : string) : SR FusionEngine unit :=
  let mode := if is_some (MODE_SIGMAS given) then given else "A" in
  _ ← remember_fix t lat lon speed_mps course_deg mode;
  s ← get;
  _ ← when (aligned s && negb (imu_healthy s t)) _fail_over;
  s ← get;
  if aligned s then use_fix t lat lon speed_mps course_deg mode
  else when (imu_healthy s t && _imu_recovered s t) (_try_align t lat lon speed_mps course_deg mode).

(** Height from GGA: the first one anchors the frame's height. *)
Definition gnss_alt (t alt : float) : SR FusionEngine unit :=
  _ ← modify (set_last_alt (Some alt));
  s ← get;
  match e_ins s, e_frame s with
  | Some ins, Some fr =>
      let arm := antenna_lever_arm (e_settings s) in
      let predicted := at_ (antenna_position arm (_lag s t) ins) 2 in
      if negb (e_have_alt_ref s) then
        fr ← lift (LocalFrame_init (lat0 fr) (lon0 fr) (fadd alt predicted));
        _ ← modify (set_frame (Some fr));
        modify (set_have_alt_ref true)
      else
        sig ← lift (_sigmas s t (e_last_mode s));
        let '(_, sig_z, _) := sig in
        let down := fsub (h0 fr) alt in
        r ← lift (py_square sig_z);
        _ ← on_ins (update [fsub down predicted] (take 1 (drop 2 (position_jacobian arm ins))) [r]
                      (Some CHI2_1DOF));
        skip
  | _, _ => skip
  end.

(** * Outputs *)

Definition _wrap (angle : float) : res float :=
  m ← py_mod (fadd angle py_pi) (fmul two py_pi); Ok (fsub m py_pi).

(** The last fix, moved to the IMU and to the present. *)
Definition _passthrough (s : FusionEngine) : res (option FusionOutput) :=
  match e_fix s, e_frame s with
  | Some fx, Some fr =>
      if match e_t_imu s with Some ti => fltb (lit 1 2) (fsub ti (fx_t fx)) | None => false end
      then Ok None
      else
        let arm := antenna_lever_arm (e_settings s) in
        let course := radians (fx_course fx) in
        let lead := fmul (fx_speed fx) (latency_s (e_settings s)) in
        ned ← to_ned fr (fx_lat fx) (fx_lon fx) None;
        c ← math_cos course;
        sn ← math_sin course;
        let ned := vadd ned (vscale [c; sn; f0] lead) in
        ned ← match e_heading_deg s with
              | None => Ok ned
              | Some h =>
                  cy ← math_cos (radians h);
                  sy ← math_sin (radians h);
                  Ok (vsub ned [fsub (fmul cy (at_ arm 0)) (fmul sy (at_ arm 1));
                                fadd (fmul sy (at_ arm 0)) (fmul cy (at_ arm 1)); f0])
              end;
        pos ← to_geodetic fr [at_ ned 0; at_ ned 1; f0];
        let '(lat_i, lon_i, _) := pos in
        sig ← _sigmas s (fx_t fx) (fx_mode fx);
        let '(sig_h, _, _) := sig in
        let status := if imu_healthy s (fx_t fx) then "aligning" else "gnss_only" in
        course_out ← py_mod (fx_course fx) (f_of_Z 360);
        r2 ← math_sqrt two;
        Ok (Some (mkOutput status (Some lat_i) (Some lon_i)
              ((fun a => fadd a (at_ arm 2)) <$> e_last_alt s) (fx_speed fx) course_out
              None None None None None None None None None None (fmul sig_h r2) None f0 None))
  | _, _ => Ok None
  end.

Definition g0 : float := lit 980665 100000.

(** Sideslip and grade, above 3 m/s. *)
Definition slip_grade (speed course yaw v2 : float) : res (option float * option float) :=
  if fltb (f_of_Z 3) speed then
    w ← _wrap (fsub course yaw);
    g ← fdiv (fmul (f_of_Z (-100)) v2) speed;
    Ok (Some (degrees w), Some g)
  else Ok (None, None).

Definition output (s : FusionEngine) : res (option FusionOutput) :=
  match e_ins s, e_t_imu s with
  | Some ins, Some ti =>
      let gnss_age := match e_last_fix_t s with Some last => fsub ti last | None => finf end in
      let r := dcm ins in
      let '(roll, pitch, yaw) := dcm_to_euler r in
      let v := i_v ins in
      let speed := m_hypot (at_ v 0) (at_ v 1) in
      let course := m_atan2 (at_ v 1) (at_ v 0) in
      let a_b := np_tmv r (i_a_n ins) in
      sg ← slip_grade speed course yaw (at_ v 2);
      let cov := i_cov ins in
      pos_std ← math_sqrt (fmax f0 (fadd (entry cov 0 0) (entry cov 1 1)));
      yaw_var ← math_sqrt (fmax f0 (entry cov 8 8));
      let status := if fltb (lit 1 2) gnss_age then "dead_reckoning"
                    else default "gnss" (MODE_STATUS (e_last_mode s)) in
      fr ← (match e_frame s with Some fr => Ok fr | None => none_attribute end);
      pos ← to_geodetic fr (i_p ins);
      let '(lat, lon, h) := pos in
      course_out ← py_mod (degrees course) (f_of_Z 360);
      yaw_out ← py_mod (degrees yaw) (f_of_Z 360);
      Ok (Some (mkOutput status (Some lat) (Some lon) (if e_have_alt_ref s then Some h else None)
            (np_norm v) course_out (Some (fopp (at_ v 2))) (Some (degrees roll)) (Some (degrees pitch))
            (Some yaw_out) (Some (degrees (at_ (i_omega_b ins) 2)))
            (Some (fdiv_ieee (at_ a_b 0) g0)) (Some (fdiv_ieee (at_ a_b 1) g0))
            (Some (fdiv_ieee (fopp (at_ a_b 2)) g0)) sg.1 sg.2 pos_std (Some (degrees yaw_var))
            gnss_age (Some (degrees <$> i_bg ins))))
  | _, _ => _passthrough s
  end.
End Engine.
