(* ===== verification/EngineRuns.v ===== *)
(** Runs of the fusion engine: any sequence of calls, each allowed to raise
    half way, from a fresh engine. *)

From S2P Require Import Prelude PyFloat PyText TimingCore Distance StateRes Numpy Geodesy Ins FusionEngine.

Local Open Scope Z_scope.

(** What the caller can do to the engine. *)
Inductive call :=
  | Imu (t : float) (f_b w_b : vec)
  | GnssStd (t lat_std lon_std alt_std : float)
  | GnssFix (t lat lon speed course : float) (mode : string)
  | GnssAlt (t alt : float).

Section Runs.
Context {ML : MathLib} {NP : NumPy}.

Definition do_call (c : call) : SR FusionEngine unit :=
  match c with
  | Imu t f_b w_b => imu t f_b w_b
  | GnssStd t a b c => gnss_std t a b c
  | GnssFix t lat lon speed course mode => gnss_fix t lat lon speed course mode
  | GnssAlt t alt => gnss_alt t alt
  end.

(** The caller goes on after an exception, with the engine as it was left. *)
Definition run_calls (cs : list call) (s : FusionEngine) : FusionEngine :=
  fold_left (fun s c => (do_call c s).1) cs s.

Definition known_mode (m : string) : Prop := is_some (MODE_SIGMAS m) = true.

Record Lifecycle (s : FusionEngine) : Prop := {
  lc_frame : aligned s = true -> is_some (e_frame s) = true;
  lc_stamp : aligned s = true -> is_some (e_t_imu s) = true;
  lc_fix : aligned s = true -> is_some (e_last_fix_t s) = true;
  lc_fault : aligned s = true -> e_imu_fault s = false;
  lc_alt : e_have_alt_ref s = true -> aligned s = true;
  lc_ledger : alignments (e_stats s) =
    imu_failovers (e_stats s) + outages_lost (e_stats s) + (if aligned s then 1 else 0);
  lc_counts : forced_reanchors (e_stats s) <= fixes_rejected (e_stats s) <= fixes (e_stats s);
  lc_level : 0 <= e_level_n s <= 500;
  lc_mode : known_mode (e_last_mode s);
  lc_raw : forall fx, e_fix s = Some fx -> known_mode (fx_mode fx)
}.

(** Lifecycle kept, and nothing but arithmetic raised. *)
Definition sound {A : Type} (s : FusionEngine) (r : res A) : Prop := Lifecycle s /\ only arithmetic r.

#[local] Arguments Z.div : simpl never.
#[local] Arguments Z.add : simpl never.
#[local] Arguments Z.le : simpl never.
#[local] Opaque MODE_SIGMAS lit fltb fleb fsub fmul fdiv f_of_Z.

Ltac lc_done := intros; simplify_eq; first [done | lia | by auto | congruence].
Ltac lc :=
  match goal with
  | H : Lifecycle ?s |- Lifecycle ?s => exact H
  | H : Lifecycle ?s |- Lifecycle _ =>
      destruct H; constructor; unfold aligned in *; cbn in *; try assumption;
      destruct (e_ins s) eqn:? in * |- *; cbn in *; lc_done
  end.
Ltac side :=
  unfold aligned in *; cbn in *;
  first [lc_done |
    match goal with |- context [e_ins ?s] => destruct (e_ins s) eqn:? in * |- *; cbn in *; lc_done end].
Ltac fin := unfold sound; repeat apply conj; first [lc | done | side].

Lemma wp_on_ins {A : Type} (m : SR ErrorStateIns A) (Q : FusionEngine -> res A -> Prop) s :
  aligned s = true -> raises_only arithmetic m ->
  (forall i r, only arithmetic r -> Q (set_ins (Some i) s) r) -> wp (on_ins m) Q s.
Proof.
  unfold aligned, wp, on_ins. destruct (e_ins s) as [i|]; [|done]. intros _ Hm HQ. specialize (Hm i).
  destruct (m i) as [i' r]. by apply HQ.
Qed.

Lemma wp_lift_arith {A : Type} (r : res A) (Q : FusionEngine -> res A -> Prop) s :
  only arithmetic r -> (forall a, Q s (Ok a)) ->
  (forall e, arithmetic (exn_kind e) = true -> Q s (Raise e)) -> wp (lift r) Q s.
Proof. destruct r; cbn; intros ? HO HR; [by apply HO|by apply HR]. Qed.

Lemma sigmas_arith s t mode : known_mode mode -> only arithmetic (_sigmas s t mode).
Proof.
  unfold known_mode, _sigmas. destruct (MODE_SIGMAS mode) as [[[h z] v]|]; [|done]. intros _.
  auto 20 with raises.
Qed.

(** One step of a [wp] goal of the engine; exceptions of the parts are closed
    by [fin] on the state they leave. *)
Ltac eng :=
  match goal with
  | |- wp (on_ins _) _ _ =>
      apply wp_on_ins; [side|by auto with raises|];
      let i := fresh "i" in let r := fresh "r" in let Hr := fresh "Hr" in
      intros i r Hr; destruct r; cbn beta iota in *; [clear Hr|fin]
  | |- wp (lift _) _ _ =>
      apply wp_lift_arith; [by auto using sigmas_arith, lc_mode with raises| |];
      [let a := fresh "a" in intros a|
       let e := fresh "e" in let E := fresh "E" in intros e E; cbn beta iota; fin];
      cbn beta iota
  | |- wp (if fltb _ _ then _ else _) _ _ => destruct (fltb _ _)
  | |- wp (if fleb _ _ then _ else _) _ _ => destruct (fleb _ _)
  | |- wp (if ?b then _ else _) _ _ => let E := fresh "E" in destruct b eqn:E
  | |- wp (let _ := _ in _) _ _ => cbv zeta
  | |- _ => wp_step; cbn beta iota
  end.

Lemma sample_sound t f_b w_b s :
  Lifecycle s -> wp (_imu_sample_ok t f_b w_b) (fun s' r => sound s' r /\
    (r = Ok true -> aligned s' = aligned s)) s.
Proof. intros H. unfold _imu_sample_ok, _fail_over. repeat eng. all: fin. Qed.

Lemma track_sound f_b w_b s :
  Lifecycle s -> wp (_track_stillness f_b w_b) (fun s' r => sound s' r /\ r = Ok tt) s.
Proof.
  intros H. pose proof (lc_level s H) as Hl.
  assert (0 <= e_level_n s / 2 <= 250) by (split; [apply Z.div_pos|apply Z.div_le_upper_bound]; lia).
  unfold _track_stillness. repeat eng. all: fin.
Qed.

Lemma integrate_sound f_b w_b dt s :
  Lifecycle s -> aligned s = true ->
  wp (integrate f_b w_b dt) (fun s' r => sound s' r /\ aligned s' = true) s.
Proof.
  intros H Ha. unfold integrate. repeat eng; [|fin]. apply wp_repeat; [|fin].
  clear s H Ha. intros s [[H _] Ha]. repeat eng. fin.
Qed.

Lemma align_sound t lat lon speed course mode s :
  Lifecycle s -> aligned s = false -> e_imu_fault s = false -> is_some (e_frame s) = true -> known_mode mode ->
  wp (_try_align t lat lon speed course mode) sound s.
Proof.
  intros H Ha Hf Hfr Hm. unfold _try_align. repeat eng. fin.
  apply orb_false_elim in E as [_ E%negb_false_iff].
  destruct (e_frame s) as [fr|] eqn:Efr; [|done].
  assert (is_some (e_frame s) = true) by (by rewrite Efr). clear Hfr Efr. destruct (levelled s) as [[[roll pitch] sig_tilt] bg].
  repeat eng. destruct a0 as [[sig_h sig_z] sig_v]. repeat eng.
  match goal with |- context [initialize ?p ?v ?q ?a ?b ?c ?d ?e ?f ?g] =>
    pose proof (initialize_arith p v q a b c d e f g) as Hi; destruct (initialize p v q a b c d e f g) as [ins r] end.
  cbn in Hi. repeat eng. fin.
Qed.

Lemma outage_sound t s :
  Lifecycle s -> aligned s = true -> wp (_check_outage t) (fun s' r => sound s' r /\ r = Ok tt) s.
Proof.
  intros H Ha. unfold _check_outage. repeat eng. destruct (e_last_fix_t s); repeat eng. all: fin.
Qed.

Lemma aligned_Some s ins : e_ins s = Some ins -> aligned s = true.
Proof. unfold aligned. by intros ->. Qed.

Lemma constraints_sound t s : Lifecycle s -> wp (_constraints t) sound s.
Proof.
  intros H. unfold _constraints. repeat eng.
  destruct (e_ins s) as [ins|] eqn:Ei; [apply aligned_Some in Ei|]; repeat eng. all: fin.
Qed.

Lemma fail_over_sound s :
  Lifecycle s -> wp _fail_over (fun s' r => sound s' r /\ aligned s' = false /\ r = Ok tt) s.
Proof. intros H. unfold _fail_over. repeat eng. all: fin. Qed.

Lemma advance_sound t f_b w_b previous s : Lifecycle s -> wp (advance t f_b w_b previous) sound s.
Proof.
  intros H. unfold advance. do 3 eng. eapply wp_mono; [apply track_sound; lc|].
  intros s1 ? [[H1 _] ->]. clear H s. rename s1 into s. repeat eng.
  destruct previous as [p|]; [|by wp_step]. eng; [by eng; fin|]. eng; [by eng; fin|].
  apply negb_false_iff in E. eng. eapply wp_mono; [by apply integrate_sound|].
  intros s1 [u|e] [[H He] Ha]; [|done]. clear H1 E s. rename s1 into s. cbn beta iota. do 3 eng.
  eapply wp_mono; [apply outage_sound; [lc|side]|]. intros s1 ? [[H1 _] ->]. by apply constraints_sound.
Qed.

Lemma imu_sound t f_b w_b s : Lifecycle s -> wp (imu t f_b w_b) sound s.
Proof.
  intros H. unfold imu. wp_step. eapply wp_mono; [by apply sample_sound|].
  intros s1 [ok|e] [[H1 Hr] _]; [|done]. cbn beta iota. clear H s. rename s1 into s.
  eng; [by repeat eng; fin|]. do 5 eng; eng.
  - eng. eapply wp_mono; [apply fail_over_sound; lc|]. intros s1 ? [[H2 _] [_ ->]]. cbn beta iota. eng.
    apply advance_sound. clear H1. lc.
  - apply advance_sound. lc.
Qed.

Lemma velocity_sound speed course lag sig_v gate s :
  Lifecycle s -> aligned s = true -> wp (velocity_update speed course lag sig_v gate) sound s.
Proof. intros H Ha. unfold velocity_update. repeat eng. all: fin. Qed.

Lemma reanchor_sound residual sigma s :
  aligned s = true -> wp (_reanchor residual sigma) (fun s' r => only arithmetic r /\
    (s' = s \/ exists i, s' = set_ins (Some i) s)) s.
Proof.
  intros Ha. unfold _reanchor. do 2 wp_step. rewrite Ha. cbn [negb]. wp_step.
  apply wp_lift_arith; [by auto with raises|intros sq|by eauto]. cbv zeta.
  apply wp_on_ins; [done|by auto 20 with raises|eauto].
Qed.

Lemma rejected_sound t z residual h lag sig_h s :
  Lifecycle s -> aligned s = true -> fixes_rejected (e_stats s) < fixes (e_stats s) ->
  wp (rejected t z residual h lag sig_h) sound s.
Proof.
  intros H Ha Hn. unfold rejected. do 4 eng.
  destruct (e_rejected_since _) as [since|]; eng; [|by fin|by fin].
  wp_step. eapply wp_mono; [apply reanchor_sound; side|].
  intros s1 [u|e] [Hr [->|[i ->]]]; cbn beta iota; [| |by fin|by fin]; repeat eng; fin.
Qed.

Lemma wp_the_frame (Q : FusionEngine -> res LocalFrame -> Prop) s :
  is_some (e_frame s) = true -> (forall fr, Q s (Ok fr)) -> wp the_frame Q s.
Proof. unfold wp, the_frame. cbn. by destruct (e_frame s). Qed.

Lemma use_fix_sound t lat lon speed course mode s :
  Lifecycle s -> aligned s = true -> known_mode mode -> wp (use_fix t lat lon speed course mode) sound s.
Proof.
  intros H Ha Hm. pose proof (lc_counts s H) as [_ Hc]. unfold use_fix. do 6 eng.
  destruct a as [[sig_h sig_z] sig_v]. cbv zeta. eng. apply wp_the_frame; [exact (lc_frame s H Ha)|intros fr].
  repeat eng. destruct a3 as [[] nis]; repeat eng.
  - apply velocity_sound; [lc|side].
  - apply rejected_sound; [lc|side|side].
Qed.

Lemma remember_sound t lat lon speed course mode s :
  Lifecycle s -> known_mode mode ->
  wp (remember_fix t lat lon speed course mode)
    (fun s' r => sound s' r /\ (r = Ok tt -> is_some (e_frame s') = true)) s.
Proof.
  intros H Hm. unfold remember_fix. repeat eng. all: try fin.
  - split; [fin|]. intros _. cbn in *. by destruct (e_frame s).
  - split; [fin|]. intros _. cbn in *. by destruct (e_frame s).
Qed.

Lemma gnss_fix_sound t lat lon speed course given s :
  Lifecycle s -> wp (gnss_fix t lat lon speed course given) sound s.
Proof.
  intros H. unfold gnss_fix. set (mode := if is_some (MODE_SIGMAS given) then given else "A").
  assert (known_mode mode) as Hm by (unfold known_mode, mode; by destruct (is_some (MODE_SIGMAS given)) eqn:E).
  clearbody mode. cbv zeta. wp_step. eapply wp_mono; [by apply remember_sound|].
  intros s1 [[]|e] [[H1 Hr] Hf]; [|done]. specialize (Hf eq_refl). clear H s. rename s1 into s.
  do 2 eng. wp_step. eapply (wp_mono _ (fun s' r => Lifecycle s' /\ r = Ok tt /\ is_some (e_frame s') = true)).
  { eng; [|done]. unfold _fail_over. repeat eng. all: fin. }
  intros s1 ? (H & -> & Hf1). clear H1 Hf s. rename s1 into s. do 2 eng. eng.
  - by apply use_fix_sound.
  - eng; [|by fin]. apply andb_true_iff in H0 as [Hh _]. apply align_sound; try done.
    unfold imu_healthy in Hh. destruct (e_t_imu s); [|done]. by apply andb_true_iff in Hh as [?%negb_true_iff _].
Qed.

Lemma gnss_alt_sound t alt s : Lifecycle s -> wp (gnss_alt t alt) sound s.
Proof.
  intros H. unfold gnss_alt. do 4 eng. cbn [e_ins e_frame set_last_alt].
  destruct (e_ins s) as [ins|] eqn:Ei; [|by eng; fin]. apply aligned_Some in Ei.
  destruct (e_frame s) eqn:Ef; [|by eng; fin].
  assert (known_mode (e_last_mode (set_last_alt (Some alt) s))) by apply (lc_mode s H).
  repeat eng. all: try fin. destruct a as [[sig_h sig_z] sig_v]. repeat eng. fin.
Qed.

Lemma call_sound c s : Lifecycle s -> wp (do_call c) sound s.
Proof.
  intros H. destruct c; cbn.
  - by apply imu_sound.
  - apply wp_modify. fin.
  - by apply gnss_fix_sound.
  - by apply gnss_alt_sound.
Qed.

Lemma init_lifecycle settings : Lifecycle (FusionEngine_init settings).
Proof. constructor; cbn; done. Qed.

Lemma runs_lifecycle cs settings : Lifecycle (run_calls cs (FusionEngine_init settings)).
Proof.
  unfold run_calls. generalize (init_lifecycle settings). generalize (FusionEngine_init settings).
  induction cs as [|c cs IH]; intros s H; [done|]. apply IH. apply (call_sound c s H).
Qed.

(** * Output *)

Lemma passthrough_arith s : Lifecycle s -> only arithmetic (_passthrough s).
Proof.
  intros H. unfold _passthrough. destruct (e_fix s) as [fx|] eqn:Efx; [|done].
  destruct (e_frame s); [|done]. pose proof (lc_raw s H fx Efx).
  auto 30 using sigmas_arith with raises.
Qed.

Lemma output_arith s : Lifecycle s -> only arithmetic (output s).
Proof.
  intros H. unfold output. destruct (e_ins s) as [ins|] eqn:Ei; [|by apply passthrough_arith].
  apply aligned_Some in Ei. destruct (e_t_imu s) as [ti|]; [|by apply passthrough_arith].
  pose proof (lc_frame s H Ei) as Hf. destruct (e_frame s); [|done]. unfold slip_grade, _wrap.
  cbv zeta. destruct (dcm_to_euler (dcm ins)) as [[roll pitch] yaw]. auto 30 with raises.
Qed.

(** * Alignment *)

(** What a fix is judged by: untouched by recording it. *)
Definition judged (s : FusionEngine) :=
  (e_ins s, e_imu_fault s, e_t_imu s, e_imu_good_since s, imu_failovers (e_stats s), e_settings s).

Lemma remember_keeps t lat lon speed course mode :
  keeps judged (remember_fix t lat lon speed course mode).
Proof. unfold remember_fix. auto 20 with keeps. Qed.

(** The engine without an inertial solution. *)
Definition grounded (s : FusionEngine) : Prop := e_ins s = None.

Lemma grounded_aligned s : grounded s <-> aligned s = false.
Proof. unfold grounded, aligned. by destruct (e_ins s). Qed.

Lemma fail_over_grounds : forall s, grounded (_fail_over s).1.
Proof.
  intros s. unfold _fail_over, grounded, aligned, mbind, sr_bind, get. by destruct (e_ins s) eqn:E; cbn; rewrite ?E.
Qed.

Lemma sample_grounded t f_b w_b : stays grounded (_imu_sample_ok t f_b w_b).
Proof.
  pose proof fail_over_grounds. assert (stays grounded _fail_over) by (by intros s _).
  unfold _imu_sample_ok. auto 20 with stays.
Qed.

Lemma track_grounded f_b w_b : stays grounded (_track_stillness f_b w_b).
Proof. unfold _track_stillness. auto 20 with stays. Qed.

Lemma advance_grounded t f_b w_b previous : stays grounded (advance t f_b w_b previous).
Proof.
  unfold advance. apply stays_bind; [auto with stays|intros _]. intros s1 H1. apply (track_grounded f_b w_b) in H1.
  unfold mbind, sr_bind. destruct (_track_stillness f_b w_b s1) as [s2 [u|e]]; [|done]. cbn in H1 |- *.
  apply grounded_aligned in H1. unfold gets. rewrite H1. cbn [negb]. apply grounded_aligned in H1.
  by repeat case_match.
Qed.

Lemma imu_grounded t f_b w_b : stays grounded (imu t f_b w_b).
Proof.
  assert (stays grounded _fail_over) by (intros s _; apply fail_over_grounds).
  pose proof sample_grounded. pose proof advance_grounded. unfold imu. auto 20 with stays.
Qed.

(** What a call that ends with the engine aligned, but did not start so, is:
    a fix at speed, on an IMU that is healthy and has recovered. *)
Lemma aligning_call c s :
  aligned s = false -> aligned (do_call c s).1 = true ->
  exists t lat lon speed course mode, c = GnssFix t lat lon speed course mode /\
    imu_healthy s t = true /\ _imu_recovered s t = true /\ fltb speed (align_speed_mps (e_settings s)) = false.
Proof.
  intros Ha Ha'. apply grounded_aligned in Ha. destruct c as [t f w|t a b c|t lat lon speed course mode|t alt]; cbn in Ha'.
  - apply (imu_grounded t f w) in Ha. apply grounded_aligned in Ha. congruence.
  - by apply grounded_aligned in Ha; unfold aligned in *; cbn in Ha'; rewrite Ha in Ha'.
  - exists t, lat, lon, speed, course, mode. split; [done|]. revert Ha'. unfold gnss_fix. cbv zeta.
    match goal with |- context [remember_fix t lat lon speed course ?mode'] => generalize mode' end. intros m.
    pose proof (remember_keeps t lat lon speed course m s) as Hk. unfold judged in Hk.
    unfold mbind, sr_bind, get. destruct (remember_fix t lat lon speed course m s) as [s1 [u|e]]; cbn in Hk;
      injection Hk as Hi Hf Ht Hg Hn Hs.
    + assert (aligned s1 = false) as Ha1 by (apply grounded_aligned; unfold grounded; congruence).
      assert (imu_healthy s1 t = imu_healthy s t) as Hh by (unfold imu_healthy; by rewrite Ht, Hf, Hs).
      assert (_imu_recovered s1 t = _imu_recovered s t) as Hr by (unfold _imu_recovered; by rewrite Hg, Hn, Hs).
      rewrite Ha1. cbn [andb when]. unfold skip, mret, sr_ret. rewrite Ha1, Hh, Hr.
      destruct (imu_healthy s t && _imu_recovered s t) eqn:E; cbn [when];
        [|by unfold skip, mret, sr_ret; cbn; rewrite Ha1].
      apply andb_true_iff in E as [Eh Er]. intros Hend. split; [done|split; [done|]].
      destruct (fltb speed _) eqn:El; [|done]. exfalso. revert Hend.
      unfold _try_align, mbind, sr_bind, get. rewrite Hs, El. cbn. by rewrite Ha1.
    + cbn. unfold aligned, grounded in *. by rewrite Hi, Ha.
  - unfold gnss_alt, mbind, sr_bind, modify, get in Ha'. cbn in Ha'. unfold grounded in Ha. rewrite Ha in Ha'.
    unfold aligned in Ha'. cbn in Ha'. by rewrite Ha in Ha'.
Qed.

(** * Outages *)

Lemma keeps_on_ins {A X : Type} (f : FusionEngine -> X) (m : SR ErrorStateIns A) :
  (forall s i, f (set_ins i s) = f s) -> keeps f (on_ins m).
Proof. intros H s. unfold on_ins. destruct (e_ins s) as [i|]; [|done]. destruct (m i) as [i' r]. apply H. Qed.

#[local] Hint Extern 2 (keeps _ (on_ins _)) => apply keeps_on_ins; intros ? ?; reflexivity : keeps.

(** What an IMU sample's later stages leave to judge the outage by. *)
Definition clock (s : FusionEngine) := (e_t_imu s, e_last_fix_t s, e_settings s).

Lemma integrate_clock f_b w_b dt : keeps clock (integrate f_b w_b dt).
Proof. unfold integrate. auto 20 with keeps. Qed.
Lemma track_clock f_b w_b : keeps clock (_track_stillness f_b w_b).
Proof. unfold _track_stillness. auto 20 with keeps. Qed.
Lemma sample_clock t f_b w_b : keeps clock (_imu_sample_ok t f_b w_b).
Proof. unfold _imu_sample_ok, _fail_over. auto 30 with keeps. Qed.
Lemma constraints_clock t : keeps clock (_constraints t).
Proof. unfold _constraints. auto 30 with keeps. Qed.

Lemma constraints_grounded t : stays grounded (_constraints t).
Proof.
  intros s H. unfold _constraints, mbind, sr_bind, get. unfold grounded in H. by rewrite H.
Qed.

(** A filter that navigates after the check has had a fix recently enough. *)
Definition fix_recent (t : float) (s : FusionEngine) : Prop :=
  grounded s \/ exists last, e_last_fix_t s = Some last /\
    fltb (max_outage_s (e_settings s)) (fsub t last) = false.

Lemma check_outage_recent t s :
  Lifecycle s -> aligned s = true -> wp (_check_outage t) (fun s' r => r = Ok tt /\ fix_recent t s' /\ e_t_imu s' = e_t_imu s) s.
Proof.
  intros H Ha. pose proof (lc_fix s H Ha) as Hl. unfold _check_outage. do 2 wp_step.
  destruct (e_last_fix_t s) as [last|] eqn:El; [|done]. wp_step; [|by split; [|split; [right; eauto|]]].
  repeat wp_step. split; [done|]. split; [by left|done].
Qed.

Lemma wp_fail_over (Q : FusionEngine -> res unit -> Prop) s :
  (forall s', grounded s' -> Q s' (Ok tt)) -> wp _fail_over Q s.
Proof.
  intros H. unfold wp. pose proof (fail_over_grounds s) as Hg. revert Hg.
  unfold _fail_over, mbind, sr_bind, get. destruct (negb (aligned s)); cbn; apply H.
Qed.

Lemma bad_sample_grounded t f_b w_b s :
  Lifecycle s -> wp (_imu_sample_ok t f_b w_b) (fun s' r => r = Ok false -> grounded s') s.
Proof.
  intros H. unfold _imu_sample_ok. repeat wp_step; try done.
  - apply wp_fail_over. intros s' Hg. by wp_step.
  - intros _. apply grounded_aligned. cbn in *. apply negb_false_iff in H0.
    destruct (aligned s) eqn:Ha; [|done]. by rewrite (lc_fault s H Ha) in H0.
Qed.

Lemma constraints_recent t s :
  e_t_imu s = Some t -> fix_recent t s ->
  wp (_constraints t) (fun s' r => r = Ok tt -> e_t_imu s' = Some t /\ fix_recent t s') s.
Proof.
  intros Ht Hr. unfold wp. pose proof (constraints_clock t s) as Hc. unfold clock in Hc. injection Hc as H1 H2 H3.
  intros _. rewrite H1. split; [done|]. destruct Hr as [Hg|(last & Hl & Hm)].
  - left. by apply constraints_grounded.
  - right. exists last. by rewrite H2, H3.
Qed.

Lemma advance_recent t f_b w_b p s :
  Lifecycle s -> fleb (fsub t p) f0 = false -> e_t_imu s = Some t ->
  wp (advance t f_b w_b (Some p)) (fun s' r => r = Ok tt -> e_t_imu s' = Some t /\ fix_recent t s') s.
Proof.
  intros H Hdt Ht. unfold advance. do 3 wp_step. eapply wp_mono.
  { apply (wp_and _ _ _ _ (track_sound f_b w_b (set_last_f (Some f_b) s) ltac:(lc))
             (keeps_wp _ _ _ (track_clock f_b w_b))). }
  intros s1 ? [[[H1 _] ->] Hc]. cbn beta iota. unfold clock in Hc. cbn in Hc. injection Hc as Hc1 Hc2 Hc3.
  rewrite Ht in Hc1. clear H. do 2 wp_step. wp_step.
  - wp_step. intros _. split; [done|]. left. by apply grounded_aligned, negb_true_iff.
  - apply negb_false_iff in E. cbv zeta. rewrite Hdt. wp_step. eapply wp_mono.
    { apply (wp_and _ _ _ _ (integrate_sound f_b w_b (fsub t p) s1 H1 E)
               (keeps_wp _ _ _ (integrate_clock f_b w_b (fsub t p)))). }
    intros s2 [u|e] [[[H2 _] Ha2] Hc]; [|done]. cbn beta iota. unfold clock in Hc. injection Hc as Hd1 _ _.
    rewrite Hc1 in Hd1. do 3 wp_step. eapply wp_mono; [apply check_outage_recent; [lc|side]|].
    intros s3 ? (-> & Hr & Ht3). cbn in Ht3. rewrite Hd1 in Ht3. by apply constraints_recent.
Qed.

Lemma imu_recent t f_b w_b p s :
  Lifecycle s -> e_t_imu s = Some p -> fleb (fsub t p) f0 = false ->
  wp (imu t f_b w_b) (fun s' r => r = Ok tt -> aligned s' = true ->
    e_t_imu s' = Some t /\ fix_recent t s') s.
Proof.
  intros H Hp Hdt. unfold imu. wp_step. eapply wp_mono.
  { apply (wp_and _ _ _ _ (sample_sound t f_b w_b s H)
             (wp_and _ _ _ _ (bad_sample_grounded t f_b w_b s H) (keeps_wp _ _ _ (sample_clock t f_b w_b)))). }
  intros s1 [ok|e] [[[H1 _] _] [Hbad Hc]]; [|done]. cbn beta iota. unfold clock in Hc. injection Hc as Hc1 _ _.
  rewrite Hp in Hc1. clear H. wp_step.
  - apply negb_true_iff in E. subst ok. wp_step. intros _ Ha. specialize (Hbad eq_refl).
    apply grounded_aligned in Hbad. congruence.
  - do 4 wp_step. rewrite Hc1. cbv zeta. wp_step. wp_step.
    + wp_step. apply wp_fail_over. intros s2 Hg. wp_step. rewrite H.
      pose proof (advance_grounded t f_b w_b None (set_imu_good_since (Some t) s2) Hg) as Hg'.
      intros _ Ha. apply grounded_aligned in Hg'. congruence.
    + rewrite H. eapply wp_mono; [apply advance_recent; [lc|done|done]|]. by auto.
Qed.

(** * What an output says *)

Definition attitude (o : FusionOutput) : list (option float) :=
  [o_vel_up_mps o; o_roll_deg o; o_pitch_deg o; o_yaw_deg o; o_yaw_rate_dps o;
   o_accel_long_g o; o_accel_lat_g o; o_accel_vert_g o; o_yaw_std_deg o].

Definition navigating_statuses : list string := ["rtk_fixed"; "rtk_float"; "dgnss"; "gnss"; "dead_reckoning"].

(** The inertial solution: every attitude channel, and a status by the age of
    the last fix. *)
Definition inertial (o : FusionOutput) : Prop :=
  Forall is_Some (attitude o) /\ is_Some (o_lat o) /\ is_Some (o_lon o) /\
  o_status o ∈ navigating_statuses /\
  (o_status o = "dead_reckoning" <-> fltb (lit 1 2) (o_gnss_age_s o) = true).

(** The receiver's fix: position, speed and course alone. *)
Definition passed_through (o : FusionOutput) : Prop :=
  Forall (eq None) (attitude o) /\ o_slip_angle_deg o = None /\ o_grade_pct o = None /\
  is_Some (o_lat o) /\ is_Some (o_lon o) /\ (o_status o = "aligning" \/ o_status o = "gnss_only").

#[local] Transparent MODE_SIGMAS.
Lemma known_status m : known_mode m -> exists st, MODE_STATUS m = Some st /\ st ∈ navigating_statuses /\
  st <> "dead_reckoning".
Proof.
  unfold known_mode, MODE_SIGMAS, MODE_STATUS, navigating_statuses.
  repeat (destruct (String.eqb m _); [intros _; eexists; split; [done|]; split; [set_solver|done]|]). done.
Qed.
#[local] Opaque MODE_SIGMAS.

Ltac peel H :=
  repeat match type of H with
  | mbind _ ?r = Ok _ => apply res_bind_Ok in H as (? & ? & H)
  | (let '(_, _) := ?x in _) = Ok _ => destruct x as [? ?]
  | (if ?b then _ else _) = Ok _ => destruct b eqn:?
  end.

Lemma output_inertial s o ti :
  Lifecycle s -> aligned s = true -> e_t_imu s = Some ti -> output s = Ok (Some o) ->
  inertial o /\ exists last, e_last_fix_t s = Some last /\ o_gnss_age_s o = fsub ti last.
Proof.
  intros H Ha Ht. unfold output. pose proof (lc_fix s H Ha) as Hl. destruct (e_last_fix_t s) as [last|]; [|done].
  destruct (known_status _ (lc_mode s H)) as (st & Hst & Hin & Hne). rewrite Ht, Hst. cbn [default].
  unfold aligned in Ha. destruct (e_ins s) as [ins|]; [|done]. cbv zeta.
  destruct (dcm_to_euler (dcm ins)) as [[roll pitch] yaw]. intros Ho. peel Ho. simplify_eq.
  split; [|by eauto]. unfold inertial, attitude. cbn.
  split; [by repeat apply Forall_cons_2; eauto|]. repeat (split; [by eauto|]).
  destruct (fltb (lit 1 2) (fsub ti last)); split; [set_solver|done|done|by split].
Qed.

Lemma output_passed s o :
  Lifecycle s -> e_ins s = None -> output s = Ok (Some o) -> passed_through o.
Proof.
  intros H Hi. unfold output. rewrite Hi. unfold _passthrough.
  destruct (e_fix s) as [fx|]; [|done]. destruct (e_frame s) as [fr|]; [|done].
  case_match; [done|]. cbv zeta. intros Ho.
  repeat match type of Ho with
  | mbind _ ?r = Ok _ => apply res_bind_Ok in Ho as (? & ? & Ho)
  | (let '(_, _) := ?x in _) = Ok _ => destruct x as [? ?]
  end.
  simplify_eq. unfold passed_through, attitude. cbn. split; [by repeat apply Forall_cons_2|].
  repeat (split; [by eauto|]). destruct (imu_healthy s (fx_t fx)); auto.
Qed.

(** * The engine's settings never change *)

#[local] Hint Resolve keeps_on_ins : keeps.

Lemma align_settings t lat lon speed course mode : keeps e_settings (_try_align t lat lon speed course mode).
Proof.
  unfold _try_align. apply keeps_bind; [auto with keeps|intros s]. apply keeps_if; [auto with keeps|].
  destruct (e_frame s) as [fr|]; [|auto with keeps]. destruct (levelled s) as [[[roll pitch] sig_tilt] bg].
  cbv zeta. apply keeps_bind; [auto with keeps|intros q]. apply keeps_bind; [auto with keeps|intros [[h z] v]].
  do 3 (apply keeps_bind; [auto with keeps|intros ?]). destruct (initialize _ _ _ _ _ _ _ _ _ _) as [ins r].
  auto 20 with keeps.
Qed.

Lemma reanchor_settings residual sigma : keeps e_settings (_reanchor residual sigma).
Proof. unfold _reanchor. auto 20 with keeps. Qed.

Lemma fix_settings t lat lon speed course mode : keeps e_settings (gnss_fix t lat lon speed course mode).
Proof.
  pose proof align_settings. pose proof reanchor_settings.
  assert (keeps e_settings the_frame) by (intros s; done).
  unfold gnss_fix, remember_fix, use_fix, velocity_update, rejected, _fail_over. auto 60 with keeps.
Qed.

Lemma alt_settings t alt : keeps e_settings (gnss_alt t alt).
Proof. unfold gnss_alt. auto 30 with keeps. Qed.

Lemma imu_settings t f_b w_b : keeps e_settings (imu t f_b w_b).
Proof.
  unfold imu, _imu_sample_ok, advance, _check_outage, _fail_over, _track_stillness, integrate, _constraints.
  auto 60 with keeps.
Qed.

Lemma run_settings cs s : e_settings (run_calls cs s) = e_settings s.
Proof.
  revert s. induction cs as [|c cs IH]; intros s; [done|]. cbn. etransitivity; [apply IH|].
  destruct c; [apply imu_settings|done|apply fix_settings|apply alt_settings].
Qed.

(** C10. After any sequence of IMU readings, fixes, error estimates and heights
    (calls that raised half way included) the engine navigates only with a
    frame, an IMU stamp, a fix and no IMU fault; each alignment counted is
    accounted for by the failovers, the outages and whether it is aligned
    now, and no more re-anchors than rejections than fixes are counted.
    Whatever is called next, and the output, raise arithmetic errors only,
    never for a [None], an assertion or an unknown mode. Only a fix at the
    alignment speed, on a healthy and recovered IMU, aligns it. *)
Theorem engine_lifecycle settings cs :
  let s := run_calls cs (FusionEngine_init settings) in
  Lifecycle s /\
  (forall c, only arithmetic (do_call c s).2) /\ only arithmetic (output s) /\
  (forall c, aligned s = false -> aligned (do_call c s).1 = true ->
    exists t lat lon speed course mode, c = GnssFix t lat lon speed course mode /\
      imu_healthy s t = true /\ _imu_recovered s t = true /\
      fltb speed (align_speed_mps settings) = false).
Proof.
  intros s. pose proof (runs_lifecycle cs settings) as H. fold s in H. split; [done|].
  split; [intros c; apply (call_sound c s H)|]. split; [by apply output_arith|].
  intros c Ha Ha'. destruct (aligning_call c s Ha Ha') as (t & lat & lon & speed & course & mode & E).
  unfold s in E. rewrite run_settings in E. eauto 10.
Qed.

Lemma run_output settings cs o :
  let s := run_calls cs (FusionEngine_init settings) in
  output s = Ok (Some o) -> if aligned s then inertial o else passed_through o.
Proof.
  intros s Ho. pose proof (runs_lifecycle cs settings) as H. fold s in H. destruct (aligned s) eqn:Ha.
  - pose proof (lc_stamp s H Ha) as Ht. destruct (e_t_imu s) as [ti|] eqn:Et; [|done].
    by apply (output_inertial s o ti).
  - apply (output_passed s); [done| |done]. by apply grounded_aligned.
Qed.

(** What is output has attitude, accelerations and biases exactly when the
    engine navigates; without a solution it is the last fix passed on. *)
Theorem outputs_follow_the_state settings cs o :
  let s := run_calls cs (FusionEngine_init settings) in
  output s = Ok (Some o) -> if aligned s then inertial o else passed_through o.
Proof. apply run_output. Qed.

(** C17. After an IMU reading that moved the filter on and left it aligned, what is
    output is never older, since the last fix it used, than the configured
    outage: past it the inertial solution is gone. *)
Theorem dead_reckoning_is_bounded settings cs t f_b w_b p s' o :
  let s := run_calls cs (FusionEngine_init settings) in
  e_t_imu s = Some p -> fleb (fsub t p) f0 = false ->
  imu t f_b w_b s = (s', Ok tt) -> aligned s' = true -> output s' = Ok (Some o) ->
  fltb (max_outage_s settings) (o_gnss_age_s o) = false.
Proof.
  intros s Hp Hdt Hi Ha Ho. pose proof (runs_lifecycle cs settings) as H. fold s in H.
  pose proof (imu_recent t f_b w_b p s H Hp Hdt) as Hr. unfold wp in Hr. rewrite Hi in Hr.
  destruct (Hr eq_refl Ha) as [Ht [Hg|(last & Hl & Hm)]]; [apply grounded_aligned in Hg; cbn in *; congruence|].
  pose proof (call_sound (Imu t f_b w_b) s H) as [H' _]. cbn in H'. rewrite Hi in H'.
  destruct (output_inertial s' o t H' Ha Ht Ho) as [_ (last' & Hl' & ->)].
  pose proof (imu_settings t f_b w_b s) as Hs. rewrite Hi in Hs. unfold s in Hs. rewrite run_settings in Hs.
  cbn in Hs, Hl, Hm. rewrite Hl in Hl'. injection Hl' as <-. by rewrite <- Hs.
Qed.
End Runs.

(** * On a concrete platform *)
Module Examples.
#[local] Existing Instance Plain.numpy.
#[local] Existing Instance Plain.libm.

(** Hundredths of a second; a level car; a gyro that does not freeze. *)
Definition cs (n : Z) : float := lit n 100.
Definition level : vec := [f0; f0; lit (-98) 10].
Definition gyro (k : Z) : vec := [lit k 1000; f0; f0].
Definition fresh : FusionEngine := FusionEngine_init EngineSettings_default.
Definition fix_at (t : Z) (lat speed course : float) : call := GnssFix (cs t) lat f0 speed course "R".

(** A car at 10 m/s, aligned on its first fix. *)
Definition started : list call :=
  [Imu (cs 0) level (gyro 1); fix_at 1 f0 (f_of_Z 10) f0].
Definition position (s : FusionEngine) : option (option float) :=
  match output s with Ok (Some o) => Some (o_lat o) | _ => None end.

(** One NaN latitude is not rejected: its NIS is above no gate. It counts as
    accepted, and the position stays NaN through every fix that follows. *)
Example a_nan_fix_poisons_the_filter :
  let s := run_calls (started ++ [Imu (cs 2) level (gyro 2); fix_at 3 S754_nan (f_of_Z 10) f0]) fresh in
  let s' := run_calls [Imu (cs 4) level (gyro 1); fix_at 5 f0 (f_of_Z 10) f0;
                       Imu (cs 6) level (gyro 2); fix_at 7 f0 (f_of_Z 10) f0] s in
  fixes_rejected (e_stats s) = 0 /\ position s = Some (Some S754_nan) /\
  fixes_rejected (e_stats s') = 0 /\ fixes (e_stats s') = 3 /\ position s' = Some (Some S754_nan).
Proof. by vm_compute. Qed.

(** The stamp of a rejection outlives the filter that rejected: after a
    failover and a new alignment, the first rejected fix re-anchors at once. *)
Example a_stale_rejection_reanchors :
  let s := run_calls (started ++ [Imu (cs 2) level (gyro 2); fix_at 3 (lit 1 100) (f_of_Z 10) f0;
      Imu (cs 100) level (gyro 1); Imu (cs 120) level (gyro 2); Imu (cs 140) level (gyro 1);
      Imu (cs 160) level (gyro 2); Imu (cs 180) level (gyro 1); Imu (cs 200) level (gyro 2);
      fix_at 201 f0 (f_of_Z 10) f0; Imu (cs 202) level (gyro 1)]) fresh in
  let s' := run_calls [fix_at 203 (lit 1 100) (f_of_Z 10) f0] s in
  imu_failovers (e_stats s) = 1 /\ alignments (e_stats s) = 2 /\ forced_reanchors (e_stats s) = 0 /\
  e_rejected_since s = Some (cs 3) /\
  fixes_rejected (e_stats s') = fixes_rejected (e_stats s) + 1 /\ forced_reanchors (e_stats s') = 1.
Proof. by vm_compute. Qed.

(** A fix with an infinite course stays the fix to pass through: the output
    raises until another one replaces it. *)
Example an_infinite_course_breaks_the_output :
  output (run_calls [Imu (cs 0) level (gyro 1); fix_at 1 f0 (f_of_Z 1) finf; Imu (cs 2) level (gyro 2)] fresh)
    = raise ValueError "math domain error".
Proof. by vm_compute. Qed.

Lemma outputs_follow_the_state_witness :
  exists o, output (run_calls started fresh) = Ok (Some o) /\ inertial o.
Proof.
  destruct (output (run_calls started fresh)) as [[o|]|e] eqn:E; [|vm_compute in E; discriminate..].
  exists o. split; [done|]. pose proof (outputs_follow_the_state EngineSettings_default started o E) as H.
  vm_compute (aligned _) in H. exact H.
Defined.

Lemma dead_reckoning_is_bounded_witness :
  exists s' o, imu (cs 2) level (gyro 2) (run_calls started fresh) = (s', Ok tt) /\
    output s' = Ok (Some o) /\ fltb (f_of_Z 10) (o_gnss_age_s o) = false.
Proof.
  destruct (imu (cs 2) level (gyro 2) (run_calls started fresh)) as [s' [[]|e]] eqn:Ei;
    [|vm_compute in Ei; discriminate].
  destruct (output s') as [[o|]|e] eqn:Eo;
    [|vm_compute in Ei; injection Ei as <-; vm_compute in Eo; discriminate..].
  exists s', o. split; [done|]. split; [done|].
  refine (dead_reckoning_is_bounded EngineSettings_default started (cs 2) level (gyro 2) (cs 0) s' o _ _ Ei _ Eo).
  - by vm_compute.
  - by vm_compute.
  - vm_compute in Ei. injection Ei as <-. by vm_compute.
Defined.
End Examples.
