(* ===== verification/FusionApp.v ===== *)
(** In-agent sensor fusion ([src/agent/fusion_app.py], the fusion models of
    [src/core/config.py]): samples back into IMU readings and GNSS fixes, the
    engine driven by them, and the [fused.*] samples that re-enter the
    pipeline. [Fusion] is the pipeline's interface [TapApp].

    The configuration's field constraints are pydantic's, written as checks.
    [float(str)] and the text of a float are parameters; BLAS, LAPACK and libm
    are those of [Numpy]. *)

From S2P Require Import Prelude PyFloat PyText Config Wire Catalog Rbe Batcher Pipeline TimingCore Distance TimingApp.
From S2P Require Import StateRes Numpy Geodesy Ins FusionEngine EngineRuns.

Local Open Scope Z_scope.

(** * Configuration *)

Abbreviation three A := (A * A * A)%type.
Definition to_list {A : Type} (x : three A) : list A := let '(a, b, c) := x in [a; b; c].

Definition ACCEL_UNITS (u : string) : option float :=
  if String.eqb u "g" then Some (lit 980665 100000)
  else if String.eqb u "m/s^2" then Some one
  else if String.eqb u "m/s2" then Some one else None.
Definition GYRO_UNITS (u : string) : option float :=
  if String.eqb u "deg/s" then Some (fdiv_ieee py_pi (f_of_Z 180))
  else if String.eqb u "rad/s" then Some one else None.
Definition SPEED_UNITS (u : string) : option float :=
  if String.eqb u "km/h" then Some (fdiv_ieee one (lit 36 10))
  else if String.eqb u "m/s" then Some one
  else if String.eqb u "kn" then Some (fdiv_ieee (f_of_Z 1852) (f_of_Z 3600)) else None.

Record FusionImuConfig := mkImuConfig {
  imu_accel : three string;
  imu_gyro : three string;
  imu_axes : three string;
  mount_rpy_deg : three float
}.

(** [axis[-1]]. *)
Definition last_char (s : string) : string := String.substring (String.length s - 1) 1 s.

Definition axes_are_a_permutation (self : FusionImuConfig) : res FusionImuConfig :=
  if negb (bool_decide (sort_by String.leb (map last_char (to_list (imu_axes self))) = ["x"; "y"; "z"]))
  then raise ValueError "axes must use each of x, y and z exactly once"
  else if negb (forallb (fun a => fleb (f_of_Z (-15)) a && fleb a (f_of_Z 15)) (to_list (mount_rpy_deg self)))
  then raise ValueError "mount_rpy_deg is for small corrections; remap gross ones via axes"
  else Ok self.

Record FusionGnssConfig := mkGnssConfig {
  gnss_lat : string;
  gnss_lon : string;
  gnss_speed : string;
  gnss_course : string;
  gnss_mode : option string;
  gnss_alt_ch : option string;
  gnss_lat_std : option string;
  gnss_lon_std : option string;
  gnss_alt_std : option string;
  latency_ms : float;
  lever_arm_m : three float
}.

Definition std_channels_come_together (self : FusionGnssConfig) : res FusionGnssConfig :=
  let given := map is_some [gnss_lat_std self; gnss_lon_std self; gnss_alt_std self] in
  if existsb id given && negb (forallb id given)
  then raise ValueError "lat_std, lon_std and alt_std must be given together"
  else Ok self.

Record FusionConfig := mkFusionConfig {
  fc_imu : FusionImuConfig;
  fc_gnss : FusionGnssConfig;
  output_rate_hz : Z;
  align_speed_kmh : float;
  fc_max_outage_s : float;
  fc_noise : ImuNoise
}.

(** The field constraints: [_Axis], the ranges, and the models' own checks. *)
Definition is_positive (x : float) : bool := fltb f0 x.
Definition validate_fusion (self : FusionConfig) : res FusionConfig :=
  let field (b : bool) : res unit := if b then Ok tt else raise ValueError "field constraint" in
  let axes := to_list (imu_axes (fc_imu self)) in
  _ ← field (forallb (fun a => bool_decide (a ∈ ["x"; "-x"; "y"; "-y"; "z"; "-z"])) axes);
  _ ← axes_are_a_permutation (fc_imu self);
  let g := fc_gnss self in
  _ ← field (fleb f0 (latency_ms g) && fleb (latency_ms g) (f_of_Z 500));
  _ ← std_channels_come_together g;
  _ ← field ((1 <=? output_rate_hz self) && (output_rate_hz self <=? 200));
  _ ← field (is_positive (align_speed_kmh self) && is_positive (fc_max_outage_s self));
  let n := fc_noise self in
  _ ← field (forallb is_positive [accel_noise n; gyro_noise n; accel_bias_rw n; gyro_bias_rw n]);
  Ok self.

(** Role -> catalog channel name, in the order the dict is filled. *)
Definition input_channels (self : FusionConfig) : list (string * string) :=
  let indexed kind (names : three string) :=
    imap (fun i name => (kind +:+ "." +:+ pretty (Z.of_nat i), name)) (to_list names) in
  let g := fc_gnss self in
  indexed "accel" (imu_accel (fc_imu self)) ++ indexed "gyro" (imu_gyro (fc_imu self)) ++
  omap (fun rn : string * option string => (fun n => (rn.1, n)) <$> rn.2)
    [("lat", Some (gnss_lat g)); ("lon", Some (gnss_lon g)); ("speed", Some (gnss_speed g));
     ("course", Some (gnss_course g)); ("mode", gnss_mode g); ("alt", gnss_alt_ch g);
     ("lat_std", gnss_lat_std g); ("lon_std", gnss_lon_std g); ("alt_std", gnss_alt_std g)].

(** [role.partition(".")], the separator dropped. *)
Fixpoint partition_dot (s : string) : string * string :=
  match s with
  | EmptyString => ("", "")
  | String c r =>
      if Ascii.eqb c "." then ("", r) else let '(a, b) := partition_dot r in (String c a, b)
  end.

(** The unit table a role is converted with. *)
Definition unit_table (role : string) : option (string -> option float) :=
  let kind := (partition_dot role).1 in
  if String.eqb kind "accel" then Some ACCEL_UNITS
  else if String.eqb kind "gyro" then Some GYRO_UNITS
  else if String.eqb kind "speed" then Some SPEED_UNITS else None.

Definition usable_input (channels : channels_t) (role name : string) : res unit :=
  match od_get name channels with
  | None => raise ValueError ("apps.fusion: " +:+ role +:+ " channel '" +:+ name +:+ "' is not in channels")
  | Some channel =>
      _ ← match unit_table role with
          | Some table =>
              if is_some (table (units channel)) then Ok tt
              else raise ValueError ("apps.fusion: " +:+ role +:+ " channel '" +:+ name +:+ "' has units '"
                     +:+ units channel +:+ "'")
          | None => Ok tt
          end;
      if String.eqb role "course" && negb (String.eqb (units channel) "deg")
      then raise ValueError ("apps.fusion: course channel '" +:+ name +:+ "' must be in deg")
      else Ok tt
  end.

Fixpoint usable_inputs (channels : channels_t) (inputs : list (string * string)) : res unit :=
  match inputs with
  | [] => Ok tt
  | (role, name) :: rest => _ ← usable_input channels role name; usable_inputs channels rest
  end.

(** The catalog model's check. *)
Definition fusion_inputs_exist_with_usable_units (channels : channels_t) (fusion : option FusionConfig)
    : res unit :=
  match fusion with None => Ok tt | Some f => usable_inputs channels (input_channels f) end.

Definition FUSION_DERIVED_CHANNELS : list DerivedChannel := [
  mkDerived "fused.status" STRING "";
  mkDerived "fused.lat" DOUBLE "deg";
  mkDerived "fused.lon" DOUBLE "deg";
  mkDerived "fused.alt" DOUBLE "m";
  mkDerived "fused.speed" DOUBLE "km/h";
  mkDerived "fused.course" DOUBLE "deg";
  mkDerived "fused.vel_up" DOUBLE "m/s";
  mkDerived "fused.roll" DOUBLE "deg";
  mkDerived "fused.pitch" DOUBLE "deg";
  mkDerived "fused.yaw" DOUBLE "deg";
  mkDerived "fused.yaw_rate" DOUBLE "deg/s";
  mkDerived "fused.accel_long" DOUBLE "g";
  mkDerived "fused.accel_lat" DOUBLE "g";
  mkDerived "fused.accel_vert" DOUBLE "g";
  mkDerived "fused.slip_angle" DOUBLE "deg";
  mkDerived "fused.grade" DOUBLE "%";
  mkDerived "fused.pos_std" DOUBLE "m";
  mkDerived "fused.gnss_age" DOUBLE "s"].

(** * State *)

(** Three per-axis samples of one frame, reassembled by capture stamp. *)
Record _Vector := mkVector {
  v_t_mono_ns : Z;
  v_t_wall_ms : float;
  v_values : option (list (option float));
  v_fresh : bool
}.
Definition _Vector_init : _Vector := mkVector (-1) f0 None false.

Record FusionApp := mkFusionApp {
  a_role_by_id : gmap Z string;
  a_accel_scale : float;
  a_gyro_scale : float;
  a_speed_scale : float;
  a_mount : mat;
  a_needs_mode : bool;
  a_engine : FusionEngine;
  a_emit_period_ns : Z;
  a_last_emit_ns : option Z;
  a_last_status : option string;
  a_accel : _Vector;
  a_gyro : _Vector;
  a_fix : gmap string Sample;
  a_std : gmap string Sample
}.

Definition app_eta (s : FusionApp) : FusionApp :=
  mkFusionApp (a_role_by_id s) (a_accel_scale s) (a_gyro_scale s) (a_speed_scale s) (a_mount s)
    (a_needs_mode s) (a_engine s) (a_emit_period_ns s) (a_last_emit_ns s) (a_last_status s)
    (a_accel s) (a_gyro s) (a_fix s) (a_std s).

Definition set_a_engine (x : FusionEngine) (s : FusionApp) : FusionApp :=
  ltac:(set_field app_eta a_engine x s).
Definition set_a_last_emit_ns (x : option Z) (s : FusionApp) : FusionApp :=
  ltac:(set_field app_eta a_last_emit_ns x s).
Definition set_a_last_status (x : option string) (s : FusionApp) : FusionApp :=
  ltac:(set_field app_eta a_last_status x s).
Definition set_a_accel (x : _Vector) (s : FusionApp) : FusionApp := ltac:(set_field app_eta a_accel x s).
Definition set_a_gyro (x : _Vector) (s : FusionApp) : FusionApp := ltac:(set_field app_eta a_gyro x s).
Definition set_a_fix (x : gmap string Sample) (s : FusionApp) : FusionApp := ltac:(set_field app_eta a_fix x s).
Definition set_a_std (x : gmap string Sample) (s : FusionApp) : FusionApp := ltac:(set_field app_eta a_std x s).

Definition stale (v : _Vector) : _Vector := mkVector (v_t_mono_ns v) (v_t_wall_ms v) (v_values v) false.

Definition _MAX_PAIR_SKEW_NS : Z := 20000000.
Definition _AXIS_INDEX (c : string) : option nat :=
  if String.eqb c "x" then Some 0%nat else if String.eqb c "y" then Some 1%nat
  else if String.eqb c "z" then Some 2%nat else None.
Definition _FIX_ROLES : list string := ["lat"; "lon"; "speed"; "course"].
Definition _STD_ROLES : list string := ["lat_std"; "lon_std"; "alt_std"].

Section App.
Context {ML : MathLib} {NP : NumPy} (float_of_str : string -> res float) (str_of_float : float -> string).

(** [dict\[key\]]. *)
Definition key_ {A : Type} (key : string) (o : option A) : res A :=
  match o with Some a => Ok a | None => raise KeyError key end.

(** [str(value)]. *)
Definition str_of_value (v : SampleValue) : string :=
  match v with
  | VStr s => s
  | VInt z => pretty z
  | VBool b => if b then "True" else "False"
  | VFloat x => str_of_float x
  end.

(** * Construction *)

(** One row of the axis remap. *)
Definition remap_row (axis : string) : res vec :=
  i ← key_ axis (_AXIS_INDEX (last_char axis));
  Ok (set_slice i [if String.prefix "-" axis then f_of_Z (-1) else one] (np_zeros 3)).

(** Rotation taking an IMU-frame vector to the vehicle FRD frame. *)
Definition _imu_to_vehicle (axes : three string) (rpy_deg : three float) : res mat :=
  remap ← res_map remap_row (to_list axes);
  if fltb (np_det remap) f0
  then raise ValueError "apps.fusion.imu.axes is a mirror, not a rotation"
  else
    let '(roll, pitch, yaw) := rpy_deg in
    q ← quat_from_euler (radians roll) (radians pitch) (radians yaw);
    Ok (np_mm (quat_to_dcm q) remap).

Fixpoint bind_roles (ids : gmap string Z) (roles : list (string * string)) (m : gmap Z string)
    : res (gmap Z string) :=
  match roles with
  | [] => Ok m
  | (role, name) :: rest =>
      match ids !! name with
      | None => raise ValueError ("apps.fusion: channel '" +:+ name +:+ "' is not in the registry")
      | Some id => bind_roles ids rest (<[id := role]> m)
      end
  end.

(** The scale of a vector's first axis, or of the speed. *)
Definition unit_scale (channels : channels_t) (name : string) (table : string -> option float) : res float :=
  ch ← key_ name (od_get name channels); key_ (units ch) (table (units ch)).

Definition FusionApp_init (ids : gmap string Z) (channels : channels_t) (config : FusionConfig)
    : res FusionApp :=
  role_by_id ← bind_roles ids (input_channels config) ∅;
  let i := fc_imu config in
  let g := fc_gnss config in
  accel_scale ← unit_scale channels (imu_accel i).1.1 ACCEL_UNITS;
  gyro_scale ← unit_scale channels (imu_gyro i).1.1 GYRO_UNITS;
  speed_scale ← unit_scale channels (gnss_speed g) SPEED_UNITS;
  mount ← _imu_to_vehicle (imu_axes i) (mount_rpy_deg i);
  latency ← fdiv (latency_ms g) (f_of_Z 1000);
  align ← fdiv (align_speed_kmh config) (lit 36 10);
  let settings := EngineSettings_init (to_list (lever_arm_m g)) latency align (fc_max_outage_s config)
                    (fc_noise config) in
  rate ← float_of_int (output_rate_hz config);
  period ← fdiv (f_of_Z 1000000000) rate;
  period_ns ← f_round period;
  Ok (mkFusionApp role_by_id accel_scale gyro_scale speed_scale mount (is_some (gnss_mode g))
        (FusionEngine_init settings) period_ns None None _Vector_init _Vector_init ∅ ∅).

(** * Reassembly *)

Definition complete (v : _Vector) : bool :=
  match v_values v with Some l => forallb is_some l | None => false end.

(** One axis of a vector: a new stamp starts it over. *)
Definition offer (axis : nat) (sample : Sample) : SR _Vector bool :=
  v ← get;
  _ ← when (negb (s_t_mono_ns sample =? v_t_mono_ns v) || negb (is_some (v_values v)))
        (modify (fun v => mkVector (s_t_mono_ns sample) (s_t_wall_ms sample) (Some [None; None; None]) (v_fresh v)));
  x ← lift (float_of_value float_of_str (s_value sample));
  _ ← modify (fun v => mkVector (v_t_mono_ns v) (v_t_wall_ms v) (<[axis := Some x]> <$> v_values v) (v_fresh v));
  done ← gets complete;
  _ ← when done (modify (fun v => mkVector (v_t_mono_ns v) (v_t_wall_ms v) (v_values v) true));
  mret done.

Definition on_accel {A : Type} (m : SR _Vector A) : SR FusionApp A := fun s =>
  let '(v, r) := m (a_accel s) in (set_a_accel v s, r).
Definition on_gyro {A : Type} (m : SR _Vector A) : SR FusionApp A := fun s =>
  let '(v, r) := m (a_gyro s) in (set_a_gyro v s, r).
Definition on_engine {A : Type} (m : SR FusionEngine A) : SR FusionApp A := fun s =>
  let '(e, r) := m (a_engine s) in (set_a_engine e s, r).

(** [np.asarray(values) * scale]: an axis still [None] makes it an array of
    objects, and the product a [TypeError]. *)
Definition scaled (values : option (list (option float))) (scale : float) : res vec :=
  match values with
  | None => raise TypeError "unsupported operand type(s) for *: 'NoneType' and 'float'"
  | Some l =>
      xs ← res_map (fun o : option float => match o with
             | Some x => Ok x
             | None => raise TypeError "unsupported operand type(s) for *: 'NoneType' and 'float'"
             end) l;
      Ok (vscale xs scale)
  end.

(** One IMU reading: its stamp and wall time, specific force and rate. *)
Record Reading := mkReading { r_t : Z; r_wall : float; r_f : vec; r_w : vec }.

(** Pair a whole acceleration with a whole rate; when they are too far apart,
    keep the newer and wait for its partner. *)
Definition next_reading : SR FusionApp (option Reading) :=
  self ← get;
  let accel := a_accel self in
  let gyro := a_gyro self in
  if negb (v_fresh accel && v_fresh gyro) then mret None
  else if _MAX_PAIR_SKEW_NS <? Z.abs (v_t_mono_ns accel - v_t_mono_ns gyro) then
    _ ← (if v_t_mono_ns gyro <? v_t_mono_ns accel
         then modify (set_a_gyro (stale gyro)) else modify (set_a_accel (stale accel)));
    mret None
  else
    _ ← modify (fun s => set_a_gyro (stale gyro) (set_a_accel (stale accel) s));
    let later := if v_t_mono_ns gyro <=? v_t_mono_ns accel then accel else gyro in
    f ← lift (scaled (v_values accel) (a_accel_scale self));
    w ← lift (scaled (v_values gyro) (a_gyro_scale self));
    mret (Some (mkReading (v_t_mono_ns later) (v_t_wall_ms later) (np_mv (a_mount self) f)
                  (np_mv (a_mount self) w))).

(** * Output *)

Definition emit_ (t_mono_ns : Z) (t_wall_ms : float) (name : string) (value : SampleValue) : Sample :=
  mkSample ("derived:fused." +:+ name) t_mono_ns t_wall_ms value.

(** The channels of one output; what is [None] stays quiet. *)
Definition _emit_output (t_mono_ns : Z) (t_wall_ms : float) (out : FusionOutput) : list Sample :=
  let emit name x := emit_ t_mono_ns t_wall_ms name (VFloat x) in
  (match o_lat out, o_lon out with
   | Some lat, Some lon => [emit "lat" lat; emit "lon" lon]
   | _, _ => []
   end) ++
  omap (fun nv : string * option float => emit nv.1 <$> nv.2)
    [("alt", o_alt out); ("speed", Some (fmul (o_speed_mps out) (lit 36 10)));
     ("course", Some (o_course_deg out)); ("vel_up", o_vel_up_mps out); ("roll", o_roll_deg out);
     ("pitch", o_pitch_deg out); ("yaw", o_yaw_deg out); ("yaw_rate", o_yaw_rate_dps out);
     ("accel_long", o_accel_long_g out); ("accel_lat", o_accel_lat_g out);
     ("accel_vert", o_accel_vert_g out); ("slip_angle", o_slip_angle_deg out);
     ("grade", o_grade_pct out); ("pos_std", Some (o_pos_std_m out));
     ("gnss_age", if is_finite (o_gnss_age_s out) then Some (o_gnss_age_s out) else None)].

(** The status, when it changed. *)
Definition emit_status (t_mono_ns : Z) (t_wall_ms : float) (status : string) : SR FusionApp (list Sample) :=
  self ← get;
  if bool_decide (a_last_status self = Some status) then mret []
  else
    _ ← modify (set_a_last_status (Some status));
    mret [emit_ t_mono_ns t_wall_ms "status" (VStr status)].

Definition status_of (out : option FusionOutput) : string :=
  match out with Some o => o_status o | None => "aligning" end.

(** Less than a period (and 1 ms of slack) since the last full output. *)
Definition too_soon (self : FusionApp) (t_mono_ns : Z) : bool :=
  match a_last_emit_ns self with
  | Some last => t_mono_ns - last <? a_emit_period_ns self - 1000000
  | None => false
  end.

(** The status when it changed, and the rest at the output rate. *)
Definition _outputs (t_mono_ns : Z) (t_wall_ms : float) (full : bool) : SR FusionApp (list Sample) :=
  self ← get;
  out ← lift (output (a_engine self));
  emitted ← emit_status t_mono_ns t_wall_ms (status_of out);
  match out with
  | None => mret emitted
  | Some o =>
      if negb full || too_soon self t_mono_ns then mret emitted
      else
        _ ← modify (set_a_last_emit_ns (Some t_mono_ns));
        mret (emitted ++ _emit_output t_mono_ns t_wall_ms o)
  end.

Definition app_aligned (s : FusionApp) : bool := aligned (a_engine s).

Definition _maybe_step : SR FusionApp (list Sample) :=
  r ← next_reading;
  match r with
  | None => mret []
  | Some r =>
      t ← lift (seconds_of_ns (r_t r));
      _ ← on_engine (imu t (r_f r) (r_w r));
      full ← gets app_aligned;
      _outputs (r_t r) (r_wall r) full
  end.

(** * GNSS *)

Definition _complete (parts : gmap string Sample) (roles : list string) (t_mono_ns : Z) : bool :=
  forallb (fun r => match parts !! r with Some s => s_t_mono_ns s =? t_mono_ns | None => false end) roles.

Definition part (parts : gmap string Sample) (role : string) : res SampleValue :=
  s ← key_ role (parts !! role); Ok (s_value s).
Definition float_part (parts : gmap string Sample) (role : string) : res float :=
  v ← part parts role; float_of_value float_of_str v.

Definition fix_roles (self : FusionApp) : list string :=
  if a_needs_mode self then _FIX_ROLES ++ ["mode"] else _FIX_ROLES.

(** What the engine gets of a whole fix. *)
Record FixParts := mkFixParts {
  fp_lat : float; fp_lon : float; fp_speed : float; fp_course : float; fp_mode : string
}.
Definition assemble (self : FusionApp) : res FixParts :=
  let fix_ := a_fix self in
  lat ← float_part fix_ "lat";
  lon ← float_part fix_ "lon";
  speed ← float_part fix_ "speed";
  course ← float_part fix_ "course";
  mode ← (if a_needs_mode self then v ← part fix_ "mode"; Ok (str_of_value v) else Ok "A");
  Ok (mkFixParts lat lon (fmul speed (a_speed_scale self)) course mode).

(** Route one GNSS sample; true when it completed a fix. *)
Definition _observe_gnss (role : string) (sample : Sample) : SR FusionApp bool :=
  t ← lift (seconds_of_ns (s_t_mono_ns sample));
  if String.eqb role "alt" then
    x ← lift (float_of_value float_of_str (s_value sample));
    _ ← on_engine (gnss_alt t x);
    mret false
  else if bool_decide (role ∈ _STD_ROLES) then
    _ ← modify (fun s => set_a_std (<[role := sample]> (a_std s)) s);
    self ← get;
    _ ← when (_complete (a_std self) _STD_ROLES (s_t_mono_ns sample))
          (lat ← lift (float_part (a_std self) "lat_std");
           lon ← lift (float_part (a_std self) "lon_std");
           alt ← lift (float_part (a_std self) "alt_std");
           _ ← on_engine (gnss_std t lat lon alt);
           modify (set_a_std ∅));
    mret false
  else
    _ ← modify (fun s => set_a_fix (<[role := sample]> (a_fix s)) s);
    self ← get;
    if negb (_complete (a_fix self) (fix_roles self) (s_t_mono_ns sample)) then mret false
    else
      p ← lift (assemble self);
      _ ← on_engine (gnss_fix t (fp_lat p) (fp_lon p) (fp_speed p) (fp_course p) (fp_mode p));
      _ ← modify (set_a_fix ∅);
      mret true.

(** [int(axis)] of a role's suffix. *)
Definition int_axis (axis : string) : res nat :=
  if String.eqb axis "0" then Ok 0%nat else if String.eqb axis "1" then Ok 1%nat
  else if String.eqb axis "2" then Ok 2%nat else raise ValueError "invalid literal for int()".

(** A mis-typed GNSS value costs the sample. *)
Definition gnss_guarded (role : string) (sample : Sample) : SR FusionApp bool := fun s =>
  match _observe_gnss role sample s with
  | (s, Raise e) =>
      match exn_kind e with TypeError | ValueError => (s, Ok false) | _ => (s, Raise e) end
  | other => other
  end.

Definition observe (channel_id : Z) (sample : Sample) : SR FusionApp (list Sample) :=
  self ← get;
  match a_role_by_id self !! channel_id with
  | None => mret []
  | Some role =>
      let '(kind, axis) := partition_dot role in
      if String.eqb kind "accel" then
        i ← lift (int_axis axis);
        whole ← on_accel (offer i sample);
        if (whole : bool) then _maybe_step else mret []
      else if String.eqb kind "gyro" then
        i ← lift (int_axis axis);
        whole ← on_gyro (offer i sample);
        if (whole : bool) then _maybe_step else mret []
      else
        fix_done ← gnss_guarded role sample;
        navigating ← gets app_aligned;
        if (fix_done : bool) && negb navigating
        then _outputs (s_t_mono_ns sample) (s_t_wall_ms sample) true
        else mret []
  end.

(** The pipeline's view of the application. *)
Definition Fusion : TapApp :=
  mkTapApp FusionApp (fun self id => is_some (a_role_by_id self !! id)) (fun self id s => observe id s self).
End App.
