(* ===== verification/FusionRuns.v ===== *)
(** Runs of the fusion application: any sequence of observed samples, those
    whose observation raises included.

    [engine_inputs_are_observed]: what the engine is given is made of samples
    the tap delivered, one stamp per vector and per fix. [fused_output_is_paced]:
    the status when it changes, everything else at the output rate, position
    always as a pair. [fusion_reentry_terminates]: with both applications the
    pipeline's recursion is three deep at most. *)

From S2P Require Import Prelude PyFloat PyText Config Wire Catalog Rbe Batcher Pipeline TimingCore Distance TimingApp.
From S2P Require Import StateRes Numpy Geodesy Ins FusionEngine EngineRuns FusionApp.

Local Open Scope Z_scope.

Section Runs.
Context {ML : MathLib} {NP : NumPy} (float_of_str : string -> res float) (str_of_float : float -> string).

Abbreviation observe_ := (observe float_of_str str_of_float).

(** One observation; what it raised is the caller's to see. *)
Definition obs_step (st : FusionApp * list Sample) (x : Z * Sample) : FusionApp * list Sample :=
  let '(s, outs) := st in
  let '(s, r) := observe_ x.1 x.2 s in
  (s, outs ++ match r with Ok l => l | Raise _ => [] end).
Definition run_obs (l : list (Z * Sample)) (s : FusionApp) : FusionApp * list Sample :=
  fold_left obs_step l (s, []).

Lemma run_obs_snoc l x s : run_obs (l ++ [x]) s = obs_step (run_obs l s) x.
Proof. unfold run_obs. by rewrite fold_left_app. Qed.

(** * The engine inside *)

Definition engine_of (settings : EngineSettings) (s : FusionApp) : Prop :=
  exists cs, a_engine s = run_calls cs (FusionEngine_init settings).

Lemma run_calls_snoc cs c s : run_calls (cs ++ [c]) s = (do_call c (run_calls cs s)).1.
Proof. unfold run_calls. by rewrite fold_left_app. Qed.

Lemma on_engine_reachable settings c : stays (engine_of settings) (on_engine (do_call c)).
Proof.
  intros s [cs Hs]. exists (cs ++ [c]). rewrite run_calls_snoc, <- Hs. unfold on_engine.
  by destruct (do_call c (a_engine s)).
Qed.

#[local] Hint Extern 2 (stays (engine_of _) (modify _)) => apply stays_modify; intros ? [? ?]; eexists; eassumption : stays.

Lemma on_accel_reachable {A : Type} settings (m : SR _Vector A) : stays (engine_of settings) (on_accel m).
Proof. intros s [cs Hs]. unfold on_accel. destruct (m (a_accel s)). by exists cs. Qed.
Lemma on_gyro_reachable {A : Type} settings (m : SR _Vector A) : stays (engine_of settings) (on_gyro m).
Proof. intros s [cs Hs]. unfold on_gyro. destruct (m (a_gyro s)). by exists cs. Qed.

Lemma imu_reachable settings t f w : stays (engine_of settings) (on_engine (imu t f w)).
Proof. exact (on_engine_reachable settings (Imu t f w)). Qed.
Lemma std_reachable settings t a b c : stays (engine_of settings) (on_engine (gnss_std t a b c)).
Proof. exact (on_engine_reachable settings (GnssStd t a b c)). Qed.
Lemma fix_reachable settings t a b c d m : stays (engine_of settings) (on_engine (gnss_fix t a b c d m)).
Proof. exact (on_engine_reachable settings (GnssFix t a b c d m)). Qed.
Lemma alt_reachable settings t a : stays (engine_of settings) (on_engine (gnss_alt t a)).
Proof. exact (on_engine_reachable settings (GnssAlt t a)). Qed.
#[local] Hint Resolve on_accel_reachable on_gyro_reachable imu_reachable std_reachable fix_reachable alt_reachable : stays.

Lemma outputs_reachable settings t w full : stays (engine_of settings) (_outputs t w full).
Proof. unfold _outputs, emit_status. auto 20 with stays. Qed.

Lemma reading_reachable settings : stays (engine_of settings) next_reading.
Proof. unfold next_reading. auto 20 with stays. Qed.

Lemma gnss_reachable settings role sample :
  stays (engine_of settings) (gnss_guarded float_of_str str_of_float role sample).
Proof.
  assert (stays (engine_of settings) (_observe_gnss float_of_str str_of_float role sample)) as H
    by (unfold _observe_gnss; auto 30 with stays).
  intros s Hs. specialize (H s Hs). unfold gnss_guarded.
  destruct (_observe_gnss _ _ role sample s) as [s' [b|e]]; [done|]. by destruct (exn_kind e).
Qed.

Lemma observe_reachable settings id sample : stays (engine_of settings) (observe_ id sample).
Proof.
  pose proof (outputs_reachable settings). pose proof (reading_reachable settings).
  pose proof (gnss_reachable settings). unfold observe, _maybe_step. auto 40 with stays.
Qed.

(** * Pacing *)

Definition pacing (s : FusionApp) := (a_last_emit_ns s, a_last_status s, a_emit_period_ns s).

Definition fused (name : string) (x : Sample) : bool := String.eqb (s_source_ref x) ("derived:fused." +:+ name).
(** The stamps, and the values, of one fused channel. *)
Definition stamps (name : string) (l : list Sample) : list Z := s_t_mono_ns <$> List.filter (fused name) l.
Definition values (name : string) (l : list Sample) : list SampleValue := s_value <$> List.filter (fused name) l.

Lemma stamps_app name l l' : stamps name (l ++ l') = stamps name l ++ stamps name l'.
Proof. unfold stamps. by rewrite List.filter_app, fmap_app. Qed.
Lemma values_app name l l' : values name (l ++ l') = values name l ++ values name l'.
Proof. unfold values. by rewrite List.filter_app, fmap_app. Qed.

Lemma fused_emit name name' t w v : fused name (emit_ t w name' v) = String.eqb name name'.
Proof.
  unfold fused, emit_. cbn [s_source_ref]. destruct (String.eqb_spec name name') as [->|Hn].
  - apply String.eqb_refl.
  - apply String.eqb_neq. intros H. apply Hn. by injection H.
Qed.

Definition shown (t : Z) (w : float) (nv : string * option float) : option Sample :=
  (fun x => emit_ t w nv.1 (VFloat x)) <$> nv.2.

Lemma stamps_shown name t w n o l :
  stamps name (omap (shown t w) ((n, o) :: l)) =
    (if String.eqb name n && is_some o then [t] else []) ++ stamps name (omap (shown t w) l).
Proof.
  destruct o as [x|]; cbn -[emit_]; [|by rewrite andb_false_r]. unfold stamps. cbn [List.filter].
  rewrite fused_emit, andb_true_r. by destruct (String.eqb name n).
Qed.

Lemma values_shown name t w l :
  forallb (fun nv => negb (String.eqb name nv.1)) l = true -> values name (omap (shown t w) l) = [].
Proof.
  induction l as [|[n [x|]] l IH]; cbn -[emit_]; [done| |by intros [_ ?]%andb_true_iff; apply IH].
  intros [Hn Hl]%andb_true_iff. unfold values. cbn [List.filter]. rewrite fused_emit.
  apply negb_true_iff in Hn. rewrite Hn. by apply IH.
Qed.

(** What one output with a position puts out. *)
Lemma emit_output_stamps t w o :
  is_Some (o_lat o) -> is_Some (o_lon o) ->
  stamps "speed" (_emit_output t w o) = [t] /\ stamps "lat" (_emit_output t w o) = [t] /\
  stamps "lon" (_emit_output t w o) = [t] /\ values "status" (_emit_output t w o) = [].
Proof.
  intros [lat Hlat] [lon Hlon]. unfold _emit_output. rewrite Hlat, Hlon. cbv zeta.
  change (fun nv : string * option float => _ <$> nv.2) with (shown t w).
  rewrite !stamps_app, values_app. rewrite !stamps_shown. rewrite values_shown by done. unfold stamps at 1 3 5.
  unfold values. cbn [List.filter]. rewrite !fused_emit. repeat split.
Qed.

(** One observation's outputs, by the state around it. *)
Definition emits (s s' : FusionApp) (outs : list Sample) : Prop :=
  a_emit_period_ns s' = a_emit_period_ns s /\
  stamps "lat" outs = stamps "speed" outs /\ stamps "lon" outs = stamps "speed" outs /\
  (stamps "speed" outs = [] /\ a_last_emit_ns s' = a_last_emit_ns s \/
   exists t, stamps "speed" outs = [t] /\ a_last_emit_ns s' = Some t /\
     forall last, a_last_emit_ns s = Some last -> a_emit_period_ns s - 1000000 <= t - last) /\
  (values "status" outs = [] /\ a_last_status s' = a_last_status s \/
   exists st, values "status" outs = [VStr st] /\ a_last_status s' = Some st /\ a_last_status s <> Some st).

Lemma emits_nothing s s' : pacing s' = pacing s -> emits s s' [].
Proof. unfold pacing. intros [= H1 H2 H3]. unfold emits. rewrite H1, H2, H3. auto 10. Qed.

Lemma status_emits t w status s :
  wp (emit_status t w status) (fun s' r => exists outs, r = Ok outs /\ emits s s' outs /\
    stamps "speed" outs = [] /\ a_last_emit_ns s' = a_last_emit_ns s) s.
Proof.
  unfold emit_status. do 2 wp_step. wp_step; [wp_step; exists []; split; [done|split; [by apply emits_nothing|done]]|].
  do 3 wp_step. eexists. split; [done|]. apply bool_decide_eq_false in E.
  unfold emits, stamps, values. cbn [List.filter]. rewrite !fused_emit. cbn.
  repeat split; [by left|]. right. by exists status.
Qed.

(** After the status, the rest of an output. *)
Lemma emits_output s s1 s2 t w o outs :
  emits s s1 outs -> stamps "speed" outs = [] -> is_Some (o_lat o) -> is_Some (o_lon o) ->
  pacing s2 = (Some t, a_last_status s1, a_emit_period_ns s1) ->
  (forall last, a_last_emit_ns s = Some last -> a_emit_period_ns s - 1000000 <= t - last) ->
  emits s s2 (outs ++ _emit_output t w o).
Proof.
  intros (Hp & Hlat & Hlon & _ & Hst) Hsp Ho1 Ho2 [= E1 E2 E3] Hlast.
  destruct (emit_output_stamps t w o Ho1 Ho2) as (S1 & S2 & S3 & S4).
  unfold emits. rewrite !stamps_app, values_app, S1, S2, S3, S4, Hlat, Hlon, Hsp, app_nil_r, E1, E2, E3.
  repeat split; [done| |done]. right. eauto.
Qed.

Lemma outputs_emits settings t w full s :
  engine_of settings s ->
  wp (_outputs t w full) (fun s' r => match r with Ok outs => emits s s' outs | Raise _ => pacing s' = pacing s end) s.
Proof.
  intros [cs Hs]. unfold _outputs. do 4 wp_step. destruct (output (a_engine s)) as [out|e] eqn:Eo; [|done].
  wp_step. eapply wp_mono; [apply status_emits|]. intros s1 ? (outs & -> & He & Hsp & Hl1). cbn beta iota.
  destruct out as [o|]; [|by wp_step]. wp_step; [by wp_step|]. apply orb_false_iff in E as [_ E]. do 3 wp_step.
  rewrite Hs in Eo. pose proof (run_output settings cs o Eo) as Hsh.
  assert (is_Some (o_lat o) /\ is_Some (o_lon o)) as [Ho1 Ho2].
  { destruct (aligned _); [destruct Hsh as (_ & ? & ? & _)|destruct Hsh as (_ & _ & _ & ? & ? & _)]; done. }
  eapply emits_output; try done. intros last Hl. unfold too_soon in E. rewrite Hl in E. apply Z.ltb_ge in E. lia.
Qed.

(** What comes before an output leaves its clock alone. *)
Lemma on_accel_pacing {A : Type} (m : SR _Vector A) : keeps pacing (on_accel m).
Proof. intros s. unfold on_accel. by destruct (m (a_accel s)). Qed.
Lemma on_gyro_pacing {A : Type} (m : SR _Vector A) : keeps pacing (on_gyro m).
Proof. intros s. unfold on_gyro. by destruct (m (a_gyro s)). Qed.
Lemma on_engine_pacing {A : Type} (m : SR FusionEngine A) : keeps pacing (on_engine m).
Proof. intros s. unfold on_engine. by destruct (m (a_engine s)). Qed.
#[local] Hint Resolve on_accel_pacing on_gyro_pacing on_engine_pacing : keeps.

Lemma reading_pacing : keeps pacing next_reading.
Proof. unfold next_reading. auto 20 with keeps. Qed.

Lemma gnss_pacing role sample : keeps pacing (gnss_guarded float_of_str str_of_float role sample).
Proof.
  assert (keeps pacing (_observe_gnss float_of_str str_of_float role sample)) as H
    by (unfold _observe_gnss; auto 30 with keeps).
  intros s. specialize (H s). unfold gnss_guarded.
  destruct (_observe_gnss _ _ role sample s) as [s' [b|e]]; [done|]. by destruct (exn_kind e).
Qed.

(** A computation that keeps the clock and the engine, then goes on. *)
Definition quiet (settings : EngineSettings) {A : Type} (m : SR FusionApp A) : Prop :=
  keeps pacing m /\ stays (engine_of settings) m.

(** [m] puts out, from [s], what [emits] allows. *)
Definition speaks (settings : EngineSettings) (m : SR FusionApp (list Sample)) : Prop :=
  forall s, engine_of settings s ->
    wp m (fun s' r => match r with Ok outs => emits s s' outs | Raise _ => pacing s' = pacing s end) s.

Lemma speaks_outputs settings t w full : speaks settings (_outputs t w full).
Proof. intros s. apply outputs_emits. Qed.

Lemma speaks_nothing settings : speaks settings (mret []).
Proof. intros s _. by apply wp_ret, emits_nothing. Qed.

Lemma speaks_bind {A : Type} settings (m : SR FusionApp A) (k : A -> SR FusionApp (list Sample)) :
  quiet settings m -> (forall a, speaks settings (k a)) -> speaks settings (mbind k m).
Proof.
  intros [Hp He] Hk s Hs. apply wp_bind. unfold wp at 1. specialize (Hp s). specialize (He s Hs).
  destruct (m s) as [s1 [a|e]]; cbn in *; [|done]. eapply wp_mono; [by apply Hk|].
  intros s2 [outs|e]; [|congruence]. unfold pacing in Hp. injection Hp as E1 E2 E3.
  unfold emits. by rewrite E1, E2, E3.
Qed.

Lemma speaks_if settings (b : bool) m n : speaks settings m -> speaks settings n -> speaks settings (if b then m else n).
Proof. by destruct b. Qed.

Lemma quiet_lift {A : Type} settings (r : res A) : quiet settings (lift r).
Proof. split; auto with keeps stays. Qed.
Lemma quiet_gets {A : Type} settings (f : FusionApp -> A) : quiet settings (gets f).
Proof. split; auto with keeps stays. Qed.

Lemma speaks_step settings : speaks settings (_maybe_step).
Proof.
  unfold _maybe_step. apply speaks_bind; [split; [apply reading_pacing|apply reading_reachable]|].
  intros [r|]; [|apply speaks_nothing]. apply speaks_bind; [apply quiet_lift|intros t].
  apply speaks_bind; [split; [apply on_engine_pacing|apply imu_reachable]|intros _].
  apply speaks_bind; [apply quiet_gets|intros full]. apply speaks_outputs.
Qed.

Lemma speaks_observe settings id sample : speaks settings (observe_ id sample).
Proof.
  unfold observe. apply speaks_bind; [split; auto with keeps stays|intros self].
  destruct (a_role_by_id self !! id) as [role|]; [|apply speaks_nothing].
  destruct (partition_dot role) as [kind axis]. apply speaks_if; [|apply speaks_if].
  - apply speaks_bind; [apply quiet_lift|intros i]. apply speaks_bind; [split; auto with keeps stays|intros b].
    apply speaks_if; [apply speaks_step|apply speaks_nothing].
  - apply speaks_bind; [apply quiet_lift|intros i]. apply speaks_bind; [split; auto with keeps stays|intros b].
    apply speaks_if; [apply speaks_step|apply speaks_nothing].
  - apply speaks_bind; [split; [apply gnss_pacing|apply gnss_reachable]|intros b].
    apply speaks_bind; [apply quiet_gets|intros nav]. apply speaks_if; [apply speaks_outputs|apply speaks_nothing].
Qed.

(** Each element at least [d] after the one before it. *)
Definition spaced (d : Z) (l : list Z) : Prop :=
  forall i a b, l !! i = Some a -> l !! S i = Some b -> d <= b - a.
(** No element equal to the one before it. *)
Definition changing (l : list SampleValue) : Prop :=
  forall i a b, l !! i = Some a -> l !! S i = Some b -> a <> b.

Lemma lookup_snoc_cases {A : Type} (l : list A) x i a b :
  (l ++ [x]) !! i = Some a -> (l ++ [x]) !! S i = Some b ->
  l !! i = Some a /\ l !! S i = Some b \/ last l = Some a /\ b = x.
Proof.
  intros Ha Hb. destruct (decide (S i < length l)%nat) as [Hi|Hi].
  - rewrite lookup_app_l in Ha, Hb by lia. by left.
  - right. apply lookup_lt_Some in Hb as Hlt. rewrite length_app in Hlt. cbn in Hlt.
    assert (S i = length l) as E by lia. rewrite lookup_app_l in Ha by lia.
    rewrite E, lookup_app_r, Nat.sub_diag in Hb by lia. cbn in Hb. simplify_eq.
    rewrite last_lookup, <- E. cbn. auto.
Qed.

Record paced (period : Z) (s : FusionApp) (outs : list Sample) : Prop := {
  pc_period : a_emit_period_ns s = period;
  pc_speed : spaced (period - 1000000) (stamps "speed" outs);
  pc_last : a_last_emit_ns s = last (stamps "speed" outs);
  pc_status : changing (values "status" outs);
  pc_latest : VStr <$> a_last_status s = last (values "status" outs);
  pc_lat : stamps "lat" outs = stamps "speed" outs;
  pc_lon : stamps "lon" outs = stamps "speed" outs
}.

Lemma paced_emits period s s' outs new : paced period s outs -> emits s s' new -> paced period s' (outs ++ new).
Proof.
  intros [P1 P2 P3 P4 P5 P6 P7] (E1 & E2 & E3 & E4 & E5). constructor.
  - congruence.
  - rewrite stamps_app. destruct E4 as [[-> _]|(t & -> & _ & Ht)]; [by rewrite app_nil_r|].
    intros i a b Ha Hb. destruct (lookup_snoc_cases _ _ _ _ _ Ha Hb) as [[? ?]|[Hl ->]]; [by eapply P2|].
    rewrite <- P3 in Hl. rewrite P1 in Ht. by apply Ht.
  - rewrite stamps_app. destruct E4 as [[-> ->]|(t & -> & -> & _)]; [by rewrite app_nil_r|by rewrite last_snoc].
  - rewrite values_app. destruct E5 as [[-> _]|(st & -> & _ & Hne)]; [by rewrite app_nil_r|].
    intros i a b Ha Hb. destruct (lookup_snoc_cases _ _ _ _ _ Ha Hb) as [[? ?]|[Hl ->]]; [by eapply P4|].
    rewrite <- P5 in Hl. destruct (a_last_status s); cbn in Hl; [|done]. intros ->. simplify_eq.
  - rewrite values_app. destruct E5 as [[-> ->]|(st & -> & -> & _)]; [by rewrite app_nil_r|by rewrite last_snoc].
  - by rewrite !stamps_app, E2, P6.
  - by rewrite !stamps_app, E3, P7.
Qed.

(** * What the engine is told *)

(** What construction fixes for good. *)
Record Wiring := mkWiring {
  w_roles : gmap Z string; w_accel : float; w_gyro : float; w_speed : float; w_mount : mat; w_mode : bool
}.
Definition wiring (s : FusionApp) : Wiring :=
  mkWiring (a_role_by_id s) (a_accel_scale s) (a_gyro_scale s) (a_speed_scale s) (a_mount s) (a_needs_mode s).

Section Told.
Context (W : Wiring) (settings : EngineSettings).

(** A sample of the history, in a role. *)
Definition delivered (hist : list (Z * Sample)) (role : string) (s : Sample) : Prop :=
  exists id, (id, s) ∈ hist /\ w_roles W !! id = Some role.

(** A number some sample of the history gave, in that role at that stamp. *)
Definition heard (hist : list (Z * Sample)) (role : string) (t : Z) (x : float) : Prop :=
  exists s, delivered hist role s /\ s_t_mono_ns s = t /\ float_of_value float_of_str (s_value s) = Ok x.

Definition heard_axis (hist : list (Z * Sample)) (kind : string) (i : nat) (t : Z) (x : float) : Prop :=
  exists role axis, partition_dot role = (kind, axis) /\ int_axis axis = Ok i /\ heard hist role t x.

(** Three axes of one stamp. *)
Definition made_of (hist : list (Z * Sample)) (kind : string) (t : Z) (xs : vec) : Prop :=
  length xs = 3%nat /\ forall i x, xs !! i = Some x -> heard_axis hist kind i t x.

Definition call_heard (hist : list (Z * Sample)) (c : call) : Prop :=
  match c with
  | Imu t f w => exists ta tg ax gx, made_of hist "accel" ta ax /\ made_of hist "gyro" tg gx /\
      Z.abs (ta - tg) <= _MAX_PAIR_SKEW_NS /\ seconds_of_ns (Z.max ta tg) = Ok t /\
      f = np_mv (w_mount W) (vscale ax (w_accel W)) /\ w = np_mv (w_mount W) (vscale gx (w_gyro W))
  | GnssFix t lat lon speed course mode => exists ns raw,
      seconds_of_ns ns = Ok t /\ heard hist "lat" ns lat /\ heard hist "lon" ns lon /\
      heard hist "speed" ns raw /\ speed = fmul raw (w_speed W) /\ heard hist "course" ns course /\
      (if w_mode W then exists s, delivered hist "mode" s /\ s_t_mono_ns s = ns /\
                          mode = str_of_value str_of_float (s_value s)
       else mode = "A")
  | GnssStd t a b c => exists ns, seconds_of_ns ns = Ok t /\ heard hist "lat_std" ns a /\
      heard hist "lon_std" ns b /\ heard hist "alt_std" ns c
  | GnssAlt t alt => exists ns, seconds_of_ns ns = Ok t /\ heard hist "alt" ns alt
  end.

Definition vector_heard (hist : list (Z * Sample)) (kind : string) (v : _Vector) : Prop :=
  match v_values v with
  | None => True
  | Some l => length l = 3%nat /\ forall i x, l !! i = Some (Some x) -> heard_axis hist kind i (v_t_mono_ns v) x
  end.

Definition parts_heard (hist : list (Z * Sample)) (m : gmap string Sample) : Prop :=
  forall role s, m !! role = Some s -> delivered hist role s.

Record Told (hist : list (Z * Sample)) (s : FusionApp) : Prop := {
  td_wiring : wiring s = W;
  td_calls : exists cs, a_engine s = run_calls cs (FusionEngine_init settings) /\ Forall (call_heard hist) cs;
  td_accel : vector_heard hist "accel" (a_accel s);
  td_gyro : vector_heard hist "gyro" (a_gyro s);
  td_fix : parts_heard hist (a_fix s);
  td_std : parts_heard hist (a_std s)
}.

(** More history does not unhear anything. *)
Lemma delivered_mono h h' role s : h ⊆ h' -> delivered h role s -> delivered h' role s.
Proof. intros Hs (id & Hin & Hr). exists id. auto. Qed.
Lemma heard_mono h h' role t x : h ⊆ h' -> heard h role t x -> heard h' role t x.
Proof. intros Hs (s & Hd & H). exists s. split; [by eapply delivered_mono|done]. Qed.
Lemma heard_axis_mono h h' kind i t x : h ⊆ h' -> heard_axis h kind i t x -> heard_axis h' kind i t x.
Proof. intros Hs (r & a & H1 & H2 & H3). exists r, a. eauto using heard_mono. Qed.
Lemma made_of_mono h h' kind t xs : h ⊆ h' -> made_of h kind t xs -> made_of h' kind t xs.
Proof. intros Hs [Hl H]. split; [done|]. eauto using heard_axis_mono. Qed.

Lemma call_heard_mono h h' c : h ⊆ h' -> call_heard h c -> call_heard h' c.
Proof.
  intros Hs. destruct c; cbn.
  - intros (ta & tg & ax & gx & H1 & H2 & H). exists ta, tg, ax, gx. eauto using made_of_mono.
  - intros (ns & H1 & H2 & H3 & H4). exists ns. eauto 10 using heard_mono.
  - intros (ns & raw & H1 & H2 & H3 & H4 & H5 & H6 & H7). exists ns, raw.
    repeat (split; [by eauto using heard_mono|]). destruct (w_mode W); [|done].
    destruct H7 as (s & Hd & H7). exists s. split; [by eapply delivered_mono|done].
  - intros (ns & H1 & H2). exists ns. eauto using heard_mono.
Qed.

Lemma vector_heard_mono h h' kind v : h ⊆ h' -> vector_heard h kind v -> vector_heard h' kind v.
Proof.
  unfold vector_heard. intros Hs. destruct (v_values v); [|done]. intros [Hl H]. split; [done|].
  eauto using heard_axis_mono.
Qed.

Lemma Told_mono h h' s : h ⊆ h' -> Told h s -> Told h' s.
Proof.
  intros Hs [H1 (cs & E & Hc) H3 H4 H5 H6]. constructor; eauto using vector_heard_mono.
  - exists cs. split; [done|]. eapply Forall_impl; [exact Hc|]. eauto using call_heard_mono.
  - intros r x Hx. eauto using delivered_mono.
  - intros r x Hx. eauto using delivered_mono.
Qed.

(** * Told, step by step *)

Lemma offer_heard hist id role kind axis i sample v :
  (id, sample) ∈ hist -> w_roles W !! id = Some role -> partition_dot role = (kind, axis) ->
  int_axis axis = Ok i -> vector_heard hist kind v ->
  wp (offer float_of_str i sample) (fun v' _ => vector_heard hist kind v') v.
Proof.
  intros Hin Hr Hp Hi Hv. unfold offer. do 3 wp_step.
  eapply (wp_mono _ (fun v1 r => r = Ok tt /\ vector_heard hist kind v1 /\
    is_some (v_values v1) = true /\ v_t_mono_ns v1 = s_t_mono_ns sample)).
  { wp_step.
    - wp_step. split; [done|]. split; [|done]. split; [done|]. intros [|[|[|j]]] x; cbn; try done.
    - apply orb_false_iff in H as [Ht%negb_false_iff Hs%negb_false_iff]. by apply Z.eqb_eq in Ht. }
  clear v Hv. intros v ? (-> & Hv & Hs & Ht). cbn beta iota. do 2 wp_step.
  destruct (float_of_value float_of_str (s_value sample)) as [x|e] eqn:Ex; [|done]. do 4 wp_step.
  assert (vector_heard hist kind (mkVector (v_t_mono_ns v) (v_t_wall_ms v) (<[i:=Some x]> <$> v_values v) (v_fresh v))) as Hn.
  { unfold vector_heard in *. cbn. destruct (v_values v) as [l|]; [|done]. destruct Hv as [Hl Hv]. cbn.
    split; [by rewrite length_insert|]. intros j y Hj. apply list_lookup_insert_Some in Hj as [(<- & E & _)|[_ Hj]]; [|eauto].
    simplify_eq. exists role, axis. split; [done|]. split; [done|]. exists sample. split; [by exists id|done]. }
  do 2 wp_step. all: repeat wp_step; exact Hn.
Qed.

Lemma scaled_spec values scale xs :
  scaled values scale = Ok xs ->
  exists raw, values = Some (Some <$> raw) /\ xs = vscale raw scale.
Proof.
  unfold scaled. destruct values as [l|]; [|done]. intros (raw & Hm & Hx)%res_bind_Ok. exists raw.
  split; [|by injection Hx]. f_equal. clear Hx. revert raw Hm.
  induction l as [|[x|] l IH]; intros raw; cbn; [by intros [= <-]| |done].
  intros (ys & Hys & [= <-])%res_bind_Ok. cbn. f_equal. by apply IH.
Qed.

Lemma vector_made hist kind v raw :
  vector_heard hist kind v -> v_values v = Some (Some <$> raw) -> made_of hist kind (v_t_mono_ns v) raw.
Proof.
  unfold vector_heard. intros Hv Hr. rewrite Hr in Hv. destruct Hv as [Hl Hv]. rewrite length_fmap in Hl.
  split; [done|]. intros i x Hx. apply Hv. by rewrite list_lookup_fmap, Hx.
Qed.

(** A modification of what neither the wiring nor the parts mention. *)
Ltac told := match goal with H : Told ?h ?s |- Told ?h _ => destruct H; constructor; cbn; assumption end.

Lemma reading_told hist s :
  Told hist s -> wp next_reading (fun s' r => Told hist s' /\
    forall rd, r = Ok (Some rd) -> forall t, seconds_of_ns (r_t rd) = Ok t -> call_heard hist (Imu t (r_f rd) (r_w rd))) s.
Proof.
  intros H. pose proof (td_accel _ _ H) as Ha. pose proof (td_gyro _ _ H) as Hg.
  pose proof (td_wiring _ _ H) as HW. unfold next_reading. do 2 wp_step. cbv zeta. wp_step; [by wp_step|]. wp_step.
  { wp_step. wp_step; wp_step; wp_step; (split; [told|done]). }
  apply Z.ltb_ge in E0. do 4 wp_step.
  destruct (scaled (v_values (a_accel s)) _) as [f|] eqn:Ef; [|split; [told|done]]. do 2 wp_step.
  destruct (scaled (v_values (a_gyro s)) _) as [w|] eqn:Ew; [|split; [told|done]]. wp_step. split; [told|].
  intros rd [= <-] t. cbn [r_t r_f r_w]. intros Ht.
  apply scaled_spec in Ef as (ax & Hax & ->), Ew as (gx & Hgx & ->).
  exists (v_t_mono_ns (a_accel s)), (v_t_mono_ns (a_gyro s)), ax, gx. rewrite <- HW.
  repeat (split; [by eauto using vector_made|]). split; [|done]. rewrite <- Ht. f_equal.
  destruct (Z.leb_spec (v_t_mono_ns (a_gyro s)) (v_t_mono_ns (a_accel s))); lia.
Qed.

Lemma engine_told hist c s :
  Told hist s -> call_heard hist c -> wp (on_engine (do_call c)) (fun s' _ => Told hist s') s.
Proof.
  intros [H1 (cs & E & Hc) H3 H4 H5 H6] Hh. unfold wp, on_engine.
  destruct (do_call c (a_engine s)) as [e r] eqn:Ed. constructor; try done.
  exists (cs ++ [c]). rewrite run_calls_snoc, <- E. cbn. rewrite Ed. split; [done|].
  apply Forall_app; auto.
Qed.

Lemma told_outputs hist t w full : stays (Told hist) (_outputs t w full).
Proof.
  assert (stays (Told hist) (modify (set_a_last_emit_ns (Some t)))) by (apply stays_modify; intros; told).
  assert (forall x, stays (Told hist) (modify (set_a_last_status x))) by (intros; apply stays_modify; intros; told).
  unfold _outputs, emit_status. auto 20 with stays.
Qed.

Lemma told_step hist : stays (Told hist) _maybe_step.
Proof.
  intros s H. change (wp _maybe_step (fun s' _ => Told hist s') s). unfold _maybe_step. wp_step.
  eapply wp_mono; [by apply reading_told|]. intros s1 [[rd|]|e] [H1 Hr]; cbn beta iota; [|by wp_step|done].
  do 2 wp_step. destruct (seconds_of_ns (r_t rd)) as [t|] eqn:Et; [|done]. specialize (Hr rd eq_refl t Et).
  wp_step. eapply wp_mono; [apply (engine_told hist _ s1 H1 Hr)|]. intros s2 [u|e] H2; [|done].
  do 2 wp_step. by apply told_outputs.
Qed.

Lemma parts_insert hist m role sample :
  parts_heard hist m -> delivered hist role sample -> parts_heard hist (<[role := sample]> m).
Proof. intros Hm Hd r x [[<- <-]|[_ Hx]]%lookup_insert_Some; eauto. Qed.

Lemma parts_empty hist : parts_heard hist ∅.
Proof. intros r x Hx. by rewrite lookup_empty in Hx. Qed.

(** Of parts that are complete, each is heard at the one stamp. *)
Lemma float_part_heard hist m roles t role x :
  parts_heard hist m -> _complete m roles t = true -> role ∈ roles ->
  float_part float_of_str m role = Ok x -> heard hist role t x.
Proof.
  intros Hm Hc Hr. unfold float_part, part, key_. destruct (m !! role) as [s|] eqn:E; [|done]. cbn.
  intros Hx. exists s. split; [by apply Hm|]. split; [|done]. unfold _complete in Hc.
  rewrite forallb_forall in Hc. apply list_elem_of_In in Hr. specialize (Hc role Hr). rewrite E in Hc.
  by apply Z.eqb_eq.
Qed.

Lemma assemble_heard hist s t ns p :
  Told hist s -> _complete (a_fix s) (fix_roles s) ns = true -> seconds_of_ns ns = Ok t ->
  assemble float_of_str str_of_float s = Ok p ->
  call_heard hist (GnssFix t (fp_lat p) (fp_lon p) (fp_speed p) (fp_course p) (fp_mode p)).
Proof.
  intros H Hc Ht Ha. pose proof (td_fix _ _ H) as Hm. pose proof (td_wiring _ _ H) as HW. unfold assemble in Ha.
  assert (forall role x, role ∈ _FIX_ROLES -> float_part float_of_str (a_fix s) role = Ok x -> heard hist role ns x) as Hh.
  { intros role x Hr. eapply float_part_heard; [done|exact Hc|]. unfold fix_roles.
    destruct (a_needs_mode s); [apply elem_of_app; by left|done]. }
  apply res_bind_Ok in Ha as (lat & Hlat & (lon & Hlon & (speed & Hsp & (course & Hco & (mode & Hmo & Ha)%res_bind_Ok)%res_bind_Ok)%res_bind_Ok)%res_bind_Ok).
  simplify_eq. cbn. exists ns, speed. rewrite <- HW. unfold _FIX_ROLES in Hh.
  repeat (split; [first [done | apply Hh; [set_solver|done]]|]). cbn [w_mode wiring].
  unfold fix_roles in Hc. destruct (a_needs_mode s); [|by injection Hmo].
  apply res_bind_Ok in Hmo as (v & Hv & [= <-]). unfold part, key_ in Hv.
  destruct (a_fix s !! "mode") as [sm|] eqn:E; [|done]. injection Hv as <-. exists sm.
  split; [by apply Hm|]. split; [|done]. unfold _complete in Hc. rewrite forallb_app in Hc.
  apply andb_true_iff in Hc as [_ Hc]. cbn in Hc. rewrite E in Hc. apply Z.eqb_eq. by destruct (_ =? _).
Qed.

Lemma gnss_told hist role sample :
  delivered hist role sample -> stays (Told hist) (_observe_gnss float_of_str str_of_float role sample).
Proof.
  intros Hd s H. change (wp (_observe_gnss float_of_str str_of_float role sample) (fun s' _ => Told hist s') s).
  unfold _observe_gnss. do 2 wp_step. destruct (seconds_of_ns (s_t_mono_ns sample)) as [t|] eqn:Et; [|done].
  wp_step; [|wp_step].
  - do 2 wp_step. destruct (float_of_value float_of_str (s_value sample)) as [x|] eqn:Ex; [|done]. wp_step.
    apply String.eqb_eq in E. subst role. eapply wp_mono.
    { apply (engine_told hist (GnssAlt t x) s H). exists (s_t_mono_ns sample). split; [done|]. by exists sample. }
    by intros s1 [u|e] H1.
  - do 5 wp_step. eapply (wp_mono _ (fun s' _ => Told hist s')); [|by intros s1 [u|e] H1].
    set (s1 := set_a_std _ s). assert (Told hist s1) as H1.
    { destruct H. constructor; first [done | by apply parts_insert]. }
    wp_step; [|done]. do 2 wp_step. destruct (float_part _ _ "lat_std") as [a|] eqn:Ea; [|done].
    do 2 wp_step. destruct (float_part _ _ "lon_std") as [b|] eqn:Eb; [|done].
    do 2 wp_step. destruct (float_part _ _ "alt_std") as [c|] eqn:Ec; [|done]. wp_step. eapply wp_mono.
    { apply (engine_told hist (GnssStd t a b c) s1 H1). pose proof (td_std _ _ H1) as Hm.
      exists (s_t_mono_ns sample). split; [done|].
      repeat split; (eapply float_part_heard; [exact Hm|eassumption|unfold _STD_ROLES; set_solver|done]). }
    intros s2 [u|e] H2; [|done]. wp_step. destruct H2. constructor; first [done | apply parts_empty].
  - do 4 wp_step. set (s1 := set_a_fix _ s). assert (Told hist s1) as H1.
    { destruct H. constructor; first [done | by apply parts_insert]. }
    wp_step; [by wp_step|]. apply negb_false_iff in E1. do 2 wp_step.
    destruct (assemble float_of_str str_of_float s1) as [p|] eqn:Ep; [|done]. wp_step. eapply wp_mono.
    { apply (engine_told hist (GnssFix t (fp_lat p) (fp_lon p) (fp_speed p) (fp_course p) (fp_mode p)) s1 H1).
      by eapply assemble_heard. }
    intros s2 [u|e] H2; [|done]. do 3 wp_step. destruct H2. constructor; first [done | apply parts_empty].
Qed.

Lemma accel_told hist id role axis i sample s :
  (id, sample) ∈ hist -> w_roles W !! id = Some role -> partition_dot role = ("accel", axis) ->
  int_axis axis = Ok i -> Told hist s -> Told hist (on_accel (offer float_of_str i sample) s).1.
Proof.
  intros Hin Hr Hp Hi H. pose proof (offer_heard hist id role "accel" axis i sample _ Hin Hr Hp Hi (td_accel _ _ H)) as Hv.
  unfold wp, on_accel in *. destruct (offer _ i sample (a_accel s)) as [v r]. destruct H. by constructor.
Qed.
Lemma gyro_told hist id role axis i sample s :
  (id, sample) ∈ hist -> w_roles W !! id = Some role -> partition_dot role = ("gyro", axis) ->
  int_axis axis = Ok i -> Told hist s -> Told hist (on_gyro (offer float_of_str i sample) s).1.
Proof.
  intros Hin Hr Hp Hi H. pose proof (offer_heard hist id role "gyro" axis i sample _ Hin Hr Hp Hi (td_gyro _ _ H)) as Hv.
  unfold wp, on_gyro in *. destruct (offer _ i sample (a_gyro s)) as [v r]. destruct H. by constructor.
Qed.

Lemma observe_told hist id sample s :
  Told hist s -> Told (hist ++ [(id, sample)]) (observe_ id sample s).1.
Proof.
  intros H0. assert (Told (hist ++ [(id, sample)]) s) as H by (eapply Told_mono; [|done]; set_solver).
  assert ((id, sample) ∈ hist ++ [(id, sample)]) as Hin by set_solver. clear H0.
  set (h := hist ++ [(id, sample)]) in *. clearbody h. unfold observe, mbind, sr_bind, get.
  pose proof (td_wiring _ _ H) as HW. destruct (a_role_by_id s !! id) as [role|] eqn:Er; [|done].
  assert (w_roles W !! id = Some role) as Hr by (by rewrite <- HW).
  destruct (partition_dot role) as [kind axis] eqn:Ep. destruct (String.eqb_spec kind "accel") as [->|_];
    [|destruct (String.eqb_spec kind "gyro") as [->|_]].
  - unfold lift. destruct (int_axis axis) as [i|] eqn:Ei; [|done].
    pose proof (accel_told h id role axis i sample s Hin Hr Ep Ei H) as H1.
    destruct (on_accel _ s) as [s1 [[]|e]]; [by apply told_step|done|done].
  - unfold lift. destruct (int_axis axis) as [i|] eqn:Ei; [|done].
    pose proof (gyro_told h id role axis i sample s Hin Hr Ep Ei H) as H1.
    destruct (on_gyro _ s) as [s1 [[]|e]]; [by apply told_step|done|done].
  - pose proof (gnss_told h role sample (ex_intro _ id (conj Hin Hr)) s H) as H1. unfold gnss_guarded.
    destruct (_observe_gnss _ _ role sample s) as [s1 [b|e]]; cbn in H1.
    + unfold gets. destruct (b && _); [by apply told_outputs|done].
    + by destruct (exn_kind e).
Qed.
End Told.

(** * From construction on *)

Lemma bind_roles_spec ids roles m m' :
  bind_roles ids roles m = Ok m' -> forall id role, m' !! id = Some role ->
  m !! id = Some role \/ exists name, (role, name) ∈ roles /\ ids !! name = Some id.
Proof.
  revert m. induction roles as [|[r n] roles IH]; intros m; cbn; [intros [= <-]; auto|].
  destruct (ids !! n) as [id0|] eqn:En; [|done]. intros Hb id role Hr.
  destruct (IH _ Hb id role Hr) as [Hm|(name & Hin & Hid)].
  - apply lookup_insert_Some in Hm as [[<- <-]|[_ Hm]]; [right; exists n; split; [by left|done]|auto].
  - right. exists name. split; [by right|done].
Qed.

(** A new application: a fresh engine on the configured outage, nothing
    pending, and the roles of the configured channels. *)
Definition fresh_app (ids : gmap string Z) (config : FusionConfig) (app : FusionApp) : Prop :=
  (exists settings, a_engine app = FusionEngine_init settings /\ max_outage_s settings = fc_max_outage_s config) /\
  a_accel app = _Vector_init /\ a_gyro app = _Vector_init /\ a_fix app = ∅ /\ a_std app = ∅ /\
  a_last_emit_ns app = None /\ a_last_status app = None /\
  (forall id role, a_role_by_id app !! id = Some role ->
     exists name, (role, name) ∈ input_channels config /\ ids !! name = Some id).

Lemma app_init_fresh ids channels config app :
  FusionApp_init ids channels config = Ok app -> fresh_app ids config app.
Proof.
  unfold FusionApp_init. intros (roles & Hroles & H)%res_bind_Ok. cbv zeta in H.
  do 9 apply res_bind_Ok in H as (? & _ & H). simplify_eq. unfold fresh_app. cbn.
  repeat split; [by eexists|]. intros id role Hr.
  by destruct (bind_roles_spec _ _ _ _ Hroles id role Hr) as [Hm|Hn]; [rewrite lookup_empty in Hm|].
Qed.

Lemma run_told ids config app settings l :
  fresh_app ids config app -> a_engine app = FusionEngine_init settings ->
  Told (wiring app) settings l (run_obs l app).1.
Proof.
  intros (_ & Ha & Hg & Hf & Hs & _) He. induction l as [|[id x] l IH] using rev_ind.
  - change (run_obs [] app).1 with app.
    constructor; rewrite ?Ha, ?Hg, ?Hf, ?Hs; [done| |done|done|apply parts_empty..]. by exists [].
  - rewrite run_obs_snoc. unfold obs_step. destruct (run_obs l app) as [s outs].
    pose proof (observe_told (wiring app) settings l id x s IH) as H. cbn [fst snd].
    by destruct (observe_ id x s).
Qed.

Lemma run_engine_of settings app l :
  engine_of settings app -> engine_of settings (run_obs l app).1.
Proof.
  intros He. induction l as [|[id x] l IH] using rev_ind; [done|].
  rewrite run_obs_snoc. unfold obs_step. destruct (run_obs l app) as [s outs].
  pose proof (observe_reachable settings id x s IH) as H. cbn [fst snd].
  by destruct (observe_ id x s).
Qed.

Lemma run_paced ids config app l :
  fresh_app ids config app -> paced (a_emit_period_ns app) (run_obs l app).1 (run_obs l app).2.
Proof.
  intros ((settings & He & _) & _ & _ & _ & _ & Hl & Hst & _).
  assert (engine_of settings app) as Hreach by (by exists []).
  induction l as [|[id x] l IH] using rev_ind.
  - constructor; cbn; rewrite ?Hl, ?Hst; first [done | intros i a b Ha; by rewrite lookup_nil in Ha].
  - pose proof (run_engine_of settings app l Hreach) as Hr. rewrite run_obs_snoc. unfold obs_step.
    destruct (run_obs l app) as [s outs]. cbn [fst snd] in *.
    pose proof (speaks_observe settings id x s Hr) as H. unfold wp in H.
    destruct (observe_ id x s) as [s' [new|e]]; cbn [fst snd] in *.
    + by eapply paced_emits.
    + eapply paced_emits; [exact IH|]. by apply emits_nothing.
Qed.


(** C18. Whatever is observed, two fused outputs are never stamped closer together
    (forward in time) than an output period less a millisecond, latitude and
    longitude come with each one under the same stamp, and a status is
    published only when it differs from the one before. *)
Theorem fused_output_is_paced ids channels config app l
    (Hinit : FusionApp_init ids channels config = Ok app) :
  let outs := (run_obs l app).2 in
  spaced (a_emit_period_ns app - 1000000) (stamps "speed" outs) /\
  stamps "lat" outs = stamps "speed" outs /\ stamps "lon" outs = stamps "speed" outs /\
  changing (values "status" outs).
Proof. destruct (run_paced ids config app l (app_init_fresh _ _ _ _ Hinit)). auto. Qed.

(** * Re-entry *)

Definition fused_ref (ref : string) : bool :=
  existsb (fun d => String.eqb ref ("derived:" +:+ der_name d)) FUSION_DERIVED_CHANNELS.

Definition all_fused (m : SR FusionApp (list Sample)) : Prop :=
  forall s outs, (m s).2 = Ok outs -> Forall (fun x => fused_ref (s_source_ref x) = true) outs.

Lemma fused_bind {A : Type} (m : SR FusionApp A) k : (forall a, all_fused (k a)) -> all_fused (mbind k m).
Proof. intros Hk s outs. unfold mbind, sr_bind. destruct (m s) as [s' [a|e]]; [apply Hk|done]. Qed.

Lemma fused_if (b : bool) m n : all_fused m -> all_fused n -> all_fused (if b then m else n).
Proof. by destruct b. Qed.
Lemma fused_nothing : all_fused (mret []).
Proof. by intros s outs [= <-]. Qed.

Lemma shown_fused t w l :
  forallb (fun nv => fused_ref ("derived:fused." +:+ nv.1)) l = true ->
  Forall (fun x => fused_ref (s_source_ref x) = true) (omap (shown t w) l).
Proof.
  induction l as [|[n [x|]] l IH]; cbn -[fused_ref]; [constructor| |by intros [_ ?]%andb_true_iff; apply IH].
  intros [Hn Hl]%andb_true_iff. constructor; [exact Hn|by apply IH].
Qed.

Lemma emit_output_fused t w o : Forall (fun x => fused_ref (s_source_ref x) = true) (_emit_output t w o).
Proof.
  unfold _emit_output. cbv zeta. change (fun nv : string * option float => _ <$> nv.2) with (shown t w).
  apply Forall_app. split; [|by apply shown_fused].
  destruct (o_lat o), (o_lon o); repeat (apply Forall_cons_2; [done|]); apply Forall_nil_2.
Qed.

Lemma fused_outputs t w full : all_fused (_outputs t w full).
Proof.
  unfold _outputs. do 2 (apply fused_bind; intros ?). intros s outs. unfold mbind at 1, sr_bind at 1.
  destruct (emit_status t w (status_of a0) s) as [s' [em|e]] eqn:E; [|done].
  assert (Forall (fun x => fused_ref (s_source_ref x) = true) em) as Hem.
  { unfold emit_status, mbind, sr_bind, get in E. destruct (bool_decide _) in E; injection E as _ <-; [done|].
    by repeat constructor. }
  destruct a0 as [o|]; [|by intros [= <-]]. destruct (negb full || _); [by intros [= <-]|].
  intros [= <-]. apply Forall_app. split; [done|apply emit_output_fused].
Qed.

Lemma fused_step : all_fused _maybe_step.
Proof.
  unfold _maybe_step. apply fused_bind. intros [r|]; [|apply fused_nothing].
  do 3 (apply fused_bind; intros ?). apply fused_outputs.
Qed.

Lemma observe_fused id sample : all_fused (observe_ id sample).
Proof.
  unfold observe. apply fused_bind. intros self. destruct (a_role_by_id self !! id) as [role|]; [|apply fused_nothing].
  destruct (partition_dot role) as [kind axis].
  apply fused_if; [|apply fused_if]; do 2 (apply fused_bind; intros ?);
    apply fused_if; auto using fused_step, fused_nothing, fused_outputs.
Qed.

(** The roles are fixed. *)
Lemma observe_roles id sample : keeps a_role_by_id (observe_ id sample).
Proof.
  assert (forall A (m : SR _Vector A), keeps a_role_by_id (on_accel m)) as Ha
    by (intros A m s; unfold on_accel; by destruct (m _)).
  assert (forall A (m : SR _Vector A), keeps a_role_by_id (on_gyro m)) as Hg
    by (intros A m s; unfold on_gyro; by destruct (m _)).
  assert (forall A (m : SR FusionEngine A), keeps a_role_by_id (on_engine m)) as He
    by (intros A m s; unfold on_engine; by destruct (m _)).
  assert (forall role, keeps a_role_by_id (gnss_guarded float_of_str str_of_float role sample)) as Hn.
  { intros role s. assert (keeps a_role_by_id (_observe_gnss float_of_str str_of_float role sample)) as H
      by (unfold _observe_gnss; auto 30 with keeps). specialize (H s). unfold gnss_guarded.
    destruct (_observe_gnss _ _ role sample s) as [s' [b|e]]; [done|]. by destruct (exn_kind e). }
  assert (forall t w full, keeps a_role_by_id (_outputs t w full)) as Ho
    by (intros; unfold _outputs, emit_status; auto 20 with keeps).
  unfold observe, _maybe_step, next_reading. auto 60 with keeps.
Qed.

(** Lap timing's output, then fusion's, then what the collectors measure. *)
Definition tap_rank (ref : string) : nat :=
  if timing_ref ref then 0%nat else if fused_ref ref then 1%nat else 2%nat.

Definition inputs_are_measured (sm : gmap string (Z * ChannelPolicy)) (a : FusionApp) : Prop :=
  forall ref id pol, sm !! ref = Some (id, pol) -> is_some (a_role_by_id a !! id) = true ->
    tap_rank ref = 2%nat.

Lemma fused_rank ref : fused_ref ref = true -> (tap_rank ref < 2)%nat.
Proof. unfold tap_rank. intros ->. destruct (timing_ref ref); lia. Qed.

Lemma fusion_descends sm :
  app_descends (Fusion float_of_str str_of_float) (inputs_are_measured sm) sm tap_rank.
Proof.
  intros a id s pol Hinv Hm Hsub. cbn in a, Hsub |- *. split.
  - intros ref id' pol' Hm' Hs. rewrite (observe_roles id s a) in Hs. by eapply Hinv.
  - intros outs Ho. rewrite (Hinv _ _ _ Hm Hsub). eapply Forall_impl; [by eapply observe_fused|].
    intros x. apply fused_rank.
Qed.

Section Both.
Context (libm : Libm) (json_dumps : obj -> string).

Abbreviation LapTiming_ := (LapTiming libm json_dumps float_of_str).
Abbreviation Fusion_ := (Fusion float_of_str str_of_float).

Lemma timing_descends_below sm : app_descends LapTiming_ (positions_are_inputs sm) sm tap_rank.
Proof.
  intros a id s pol Hinv Hm Hsub. destruct (timing_descends libm json_dumps float_of_str sm a id s pol Hinv Hm Hsub) as [Hi Ho].
  split; [done|]. intros out Hout. eapply Forall_impl; [by apply Ho|]. intros d. unfold timing_rank, tap_rank.
  cbv beta. destruct (timing_ref (s_source_ref d)), (timing_ref (s_source_ref s)); [lia| |lia|lia].
  destruct (fused_ref (s_source_ref s)); lia.
Qed.

Lemma usable_inputs_named channels inputs role name :
  usable_inputs channels inputs = Ok tt -> (role, name) ∈ inputs -> name ∈ channels.*1.
Proof.
  induction inputs as [|[r n] inputs IH]; cbn; [by intros _ ?%not_elem_of_nil|].
  intros ([] & Hu & Hr)%res_bind_Ok [[= -> ->]|Hin]%elem_of_cons; [|by apply IH].
  unfold usable_input in Hu. destruct (od_get n channels) as [ch|] eqn:E; [|done].
  apply od_get_In in E. apply list_elem_of_fmap. by exists (n, ch).
Qed.

Lemma tap_ref ref : tap_rank ref = 2%nat \/
  exists d, ref = "derived:" +:+ der_name d /\ (d ∈ DEFAULT_DERIVED_CHANNELS \/ d ∈ FUSION_DERIVED_CHANNELS).
Proof.
  unfold tap_rank. destruct (timing_ref ref) eqn:Et; [|destruct (fused_ref ref) eqn:Ef; [|by left]].
  - apply existsb_exists in Et as (d & Hd%list_elem_of_In & ->%String.eqb_eq). right. eauto.
  - apply existsb_exists in Ef as (d & Hd%list_elem_of_In & ->%String.eqb_eq). right. eauto.
Qed.

(** A validated input is a profile's channel, and those are not derived. *)
Lemma built_inputs channels derived c config app l :
  NoDup channels.*1 -> Z.of_nat (length channels) < DERIVED_ID_START ->
  (forall d, d ∈ DEFAULT_DERIVED_CHANNELS \/ d ∈ FUSION_DERIVED_CHANNELS -> d ∈ derived) ->
  build channels derived = Ok c -> fusion_inputs_exist_with_usable_units channels (Some config) = Ok tt ->
  FusionApp_init (channel_ids c) channels config = Ok app ->
  inputs_are_measured (source_map c) (run_obs l app).1.
Proof.
  intros Hk Hfew Hin Hb Hv Hi ref id pol Hm Hs. destruct (tap_ref ref) as [|(d & -> & Hd)]; [done|exfalso].
  apply app_init_fresh in Hi as Hf. pose proof Hf as ((settings & He & _) & _ & _ & _ & _ & _ & _ & Hr).
  pose proof (td_wiring _ _ _ _ (run_told _ _ _ _ l Hf He)) as HW. unfold wiring in HW. injection HW as HW _ _ _ _ _.
  rewrite HW in Hs. destruct (a_role_by_id app !! id) as [role|] eqn:Er; [|done].
  destruct (Hr id role Er) as (name & Hname & Hid). apply (usable_inputs_named channels) in Hname; [|done].
  pose proof (build_consistent _ _ _ Hk Hfew Hb) as Hwf.
  destruct (build_derived_mapped _ _ _ _ Hb (Hin d Hd)) as [id' Hm']. rewrite Hm in Hm'. injection Hm' as <- ->.
  apply (wf_policy _ Hwf) in Hm as [Hp _]. apply (wf_names _ Hwf) in Hid as (q & Hq & <-).
  rewrite Hp in Hq. injection Hq as <-. by apply (build_derived_new _ _ _ _ Hb (Hin d Hd)).
Qed.

(** C19. In a profile whose catalog builds with both applications' channels, whatever
    fusion has observed and lap timing has been through, the pipeline's
    re-entry of derived samples ends: collectors' samples may feed fusion,
    fusion's lap timing, lap timing's nothing, so depth three ingests any
    sample. *)
Theorem fusion_reentry_terminates channels derived c config fusion_app l position_glob track tracks timing_app ops
    (p : Pipeline Fusion_ LapTiming_) source_class s
    (Hkeys : NoDup channels.*1) (Hfew : Z.of_nat (length channels) < DERIVED_ID_START)
    (Hown : forall d, d ∈ DEFAULT_DERIVED_CHANNELS \/ d ∈ FUSION_DERIVED_CHANNELS -> d ∈ derived)
    (Hbuild : build channels derived = Ok c)
    (Hvalid : fusion_inputs_exist_with_usable_units channels (Some config) = Ok tt)
    (Hfusion : FusionApp_init (channel_ids c) channels config = Ok fusion_app)
    (Htiming : app_init (channel_ids c) position_glob track tracks = Ok timing_app)
    (Hmap : pl_source_map Fusion_ LapTiming_ p = source_map c)
    (Hpf : pl_fusion Fusion_ LapTiming_ p = Some (run_obs l fusion_app).1)
    (Hpt : pl_timing Fusion_ LapTiming_ p =
       Some (fold_left (app_step libm json_dumps float_of_str) ops timing_app)) :
  exists p' r, ingest Fusion_ LapTiming_ 3 p source_class s = Some (p', r).
Proof.
  destruct (ingest_total_aux Fusion_ LapTiming_ (source_map c) tap_rank (inputs_are_measured (source_map c))
              (positions_are_inputs (source_map c))) with (fuel := 3%nat) (p := p) (c := source_class) (s := s)
    as (p' & r & Hr & _); [| |split_and!| |by eauto].
  - apply fusion_descends.
  - apply timing_descends_below.
  - exact Hmap.
  - rewrite Hpf. cbn. by eapply built_inputs.
  - rewrite Hpt. cbn. eapply (built_positions libm json_dumps float_of_str channels derived); try done. by auto.
  - unfold tap_rank. repeat case_match; lia.
Qed.
End Both.
End Runs.

(** * A concrete profile

    An IMU and a receiver with the optional height and error channels; lap
    timing on the fused position. *)
Module Racer.
#[local] Existing Instance Plain.numpy.
#[local] Existing Instance Plain.libm.

Definition no_float (s : string) : res float := raise ValueError ("could not convert string to float: " +:+ s).
Definition no_text (x : float) : string := "float".

Definition channel (ref u : string) : ChannelConfig := mkChannelConfig ref u ch_double None None.
Definition imu_channels (ay : string) : channels_t := [
  ("car.ax", channel "can0:imu.A.x" "g"); ("car.ay", channel "can0:imu.A.y" ay);
  ("car.az", channel "can0:imu.A.z" "g"); ("car.gx", channel "can0:imu.G.x" "rad/s");
  ("car.gy", channel "can0:imu.G.y" "rad/s"); ("car.gz", channel "can0:imu.G.z" "rad/s")].
Definition gnss_channels : channels_t := [
  ("position.lat", channel "gps:um980.lat" "deg"); ("position.lon", channel "gps:um980.lon" "deg");
  ("position.speed", channel "gps:um980.speed" "m/s"); ("position.heading", channel "gps:um980.course" "deg")].
Definition channels : channels_t := imu_channels "g" ++ gnss_channels.

Definition config : FusionConfig :=
  mkFusionConfig
    (mkImuConfig ("car.ax", "car.ay", "car.az") ("car.gx", "car.gy", "car.gz") ("x", "y", "z") (f0, f0, f0))
    (mkGnssConfig "position.lat" "position.lon" "position.speed" "position.heading" None None None None None
       (f_of_Z 30) (f0, f0, f0))
    50 (f_of_Z 18) (f_of_Z 10) ImuNoise_default.

Definition derived : list DerivedChannel := DEFAULT_DERIVED_CHANNELS ++ FUSION_DERIVED_CHANNELS.
Definition built (chs : channels_t) : RuntimeCatalog :=
  match build chs derived with Ok c => c | Raise _ => empty_catalog end.
Definition catalog : RuntimeCatalog := built channels.
Definition idle : FusionApp :=
  mkFusionApp ∅ f0 f0 f0 [] false (FusionEngine_init EngineSettings_default) 0 None None _Vector_init _Vector_init ∅ ∅.
Definition started (chs : channels_t) : FusionApp :=
  match FusionApp_init (channel_ids (built chs)) chs config with Ok a => a | Raise _ => idle end.
Definition app : FusionApp := started channels.

Abbreviation observe_ := (observe no_float no_text).
Abbreviation run_ := (run_obs no_float no_text).

Definition ms (n : Z) : Z := n * 1000000.
Definition at_ms (n : Z) (v : SampleValue) : Sample := mkSample "" (ms n) (f_of_Z n) v.
Definition axes (first n : Z) (x y z : float) : list (Z * Sample) :=
  [(first, at_ms n (VFloat x)); (first + 1, at_ms n (VFloat y)); (first + 2, at_ms n (VFloat z))].
(** One IMU reading, level and still but for the roll rate; one fix. *)
Definition reading (n k : Z) : list (Z * Sample) :=
  axes 1 n f0 f0 (f_of_Z (-1)) ++ axes 4 n (lit k 1000) f0 f0.
Definition fix_of (n : Z) (speed course : float) : list (Z * Sample) :=
  [(7, at_ms n (VFloat f0)); (8, at_ms n (VFloat f0)); (9, at_ms n (VFloat speed)); (10, at_ms n (VFloat course))].
Definition drive : list (Z * Sample) :=
  reading 0 1 ++ fix_of 5 (f_of_Z 10) f0 ++ reading 10 2 ++ reading 20 1 ++ reading 25 2 ++ reading 40 1.

Example the_drive_is_published :
  stamps "speed" (run_ drive app).2 = [ms 10; ms 40] /\
  values "status" (run_ drive app).2 = [VStr "aligning"; VStr "gnss"] /\
  alignments (e_stats (a_engine (run_ drive app).1)) = 1.
Proof. by vm_compute. Qed.

Definition raised (l : list (Z * Sample)) (x : Z * Sample) : option exn_class :=
  match (observe_ x.1 x.2 (run_ l app).1).2 with Raise e => Some (exn_kind e) | Ok _ => None end.

(** A vector stays fresh when the next frame begins to replace it: the gyro
    completing in between pairs with the half of a frame, and the product
    with [None] raises out of the pipeline's tap. *)
Example half_a_frame_raises :
  raised (axes 1 0 f0 f0 (f_of_Z (-1)) ++ [(1, at_ms 10 (VFloat f0)); (4, at_ms 10 (VFloat f0)); (5, at_ms 10 (VFloat f0))])
    (6, at_ms 10 (VFloat f0)) = Some TypeError.
Proof. by vm_compute. Qed.

(** A mis-typed GNSS value costs its fix; a mis-typed IMU value raises. *)
Example a_mistyped_imu_value_raises :
  raised [] (7, at_ms 0 (VStr "north")) = None /\
  raised (fix_of 0 (f_of_Z 1) f0) (9, at_ms 5 (VStr "fast")) = None /\
  raised [] (1, at_ms 0 (VStr "down")) = Some ValueError.
Proof. by vm_compute. Qed.

(** An infinite course costs its fix when it arrives, and raises from every
    IMU reading after it while that fix is the one to pass through. *)
Example an_infinite_course_raises_later :
  raised (reading 0 1 ++ fix_of 5 (f_of_Z 1) finf ++ axes 1 10 f0 f0 (f_of_Z (-1)) ++
          [(4, at_ms 10 (VFloat f0)); (5, at_ms 10 (VFloat f0))]) (6, at_ms 10 (VFloat f0)) = Some ValueError.
Proof. by vm_compute. Qed.

(** Every axis is scaled by the first axis's units: a profile that declares
    the second in m/s^2 is accepted, and its readings are read as g. *)
Example the_first_axis_scales_all :
  let mixed := imu_channels "m/s^2" ++ gnss_channels in
  fusion_inputs_exist_with_usable_units mixed (Some config) = Ok tt /\
  is_ok (FusionApp_init (channel_ids (built mixed)) mixed config) = true /\
  e_last_f (a_engine (run_ (axes 1 0 f0 (f_of_Z 1) (f_of_Z (-1)) ++ axes 4 0 f0 f0 f0) (started mixed)).1)
    = Some [f0; lit 980665 100000; fopp (lit 980665 100000)].
Proof. by vm_compute. Qed.

Lemma app_started : FusionApp_init (channel_ids catalog) channels config = Ok app.
Proof. vm_compute. reflexivity. Qed.


Lemma fused_output_is_paced_witness :
  stamps "lat" (run_ drive app).2 = [ms 10; ms 40] /\ spaced 19000000 [ms 10; ms 40].
Proof.
  destruct (fused_output_is_paced no_float no_text (channel_ids catalog) channels config app drive app_started)
    as (H1 & H2 & _). split; [vm_compute; reflexivity|exact H1].
Defined.

(** The pipeline of a profile that times laps on the fused position. *)
Definition dumps (o : obj) : string := "".
Abbreviation fusion_tap := (Fusion no_float no_text).
Abbreviation timing_tap := (LapTiming Paddock.libm dumps no_float).
Definition timing_app : option LapTimingApp :=
  match app_init (channel_ids catalog) "fused.*" Paddock.track ∅ with Ok a => Some a | Raise _ => None end.
Definition pipeline : Pipeline fusion_tap timing_tap :=
  mkPipeline fusion_tap timing_tap (source_map catalog) rbe_init
    (mkBatcher 1 (policies_by_id catalog) 20000 20000000 []) 20000000 timing_app (Some (run_ drive app).1)
    [] ∅ ∅ 0 0.

Lemma fusion_reentry_terminates_witness :
  exists p' r, ingest fusion_tap timing_tap 3 pipeline "gps" (mkSample "gps:um980.lat" (ms 50) (f_of_Z 50) (VFloat f0))
    = Some (p', r).
Proof.
  destruct timing_app as [ta|] eqn:E; [|vm_compute in E; discriminate].
  refine (fusion_reentry_terminates no_float no_text Paddock.libm dumps channels derived catalog config app drive
            "fused.*" Paddock.track ∅ ta [] pipeline _ _ _ _ _ _ _ app_started _ _ _ _).
  - apply (bool_decide_eq_true_1 (NoDup channels.*1)). vm_compute. reflexivity.
  - vm_compute. reflexivity.
  - intros d [Hd|Hd]; apply elem_of_app; auto.
  - vm_compute. reflexivity.
  - vm_compute. reflexivity.
  - unfold timing_app in E. by destruct (app_init _ _ _ _); [injection E as ->|].
  - reflexivity.
  - reflexivity.
  - exact E.
Defined.
End Racer.
