(* ===== verification/Publisher.v ===== *)
(** The JetStream publisher's buffer and window ([src/agent/publisher.py]).

    [submit] runs on the pipeline thread, the rest on the publisher's event
    loop; every access to the buffer is under one lock, so the two interleave
    at the granularity of the steps below. The broker is outside: each
    awaited publish is acked or fails, as a list of outcomes says. *)

From S2P Require Import Prelude PyFloat.

Local Open Scope Z_scope.

Definition DEFAULT_WINDOW : nat := 1000.
Definition DEFAULT_BUFFER_BYTES : Z := 32 * 1024 * 1024.

Section Publisher.
Context {P : Type} (len : P -> Z) (len_nonneg : forall p, 0 <= len p).

Record _QueuedBatch := mkQueued {
  q_subject : string;
  q_payload : P;
  q_msg_id : string;
  q_submit_mono_ns : Z
}.

Record JetStreamPublisher := mkPublisher {
  _window : nat;
  _buffer_budget : Z;
  _buffer : list _QueuedBatch;
  _buffer_bytes : Z;
  _oldest_pending_mono_ns : option Z;
  _publish_drops : Z;
  _published : Z;
  pending : list _QueuedBatch
}.

Definition publisher_init (window : nat) (buffer_bytes : Z) : res JetStreamPublisher :=
  if (window <=? 0)%nat then raise ValueError "window must be positive"
  else Ok (mkPublisher window buffer_bytes [] 0 None 0 0 []).

Definition set_buffer (self : JetStreamPublisher) (b : list _QueuedBatch) (bytes drops : Z)
    (oldest : option Z) (pend : list _QueuedBatch) : JetStreamPublisher :=
  mkPublisher (_window self) (_buffer_budget self) b bytes oldest drops (_published self) pend.

(** The shedding loop, popping at the head of the list. *)
Fixpoint shed (budget : Z) (l : list _QueuedBatch) (bytes drops : Z)
    : list _QueuedBatch * Z * Z :=
  match l with
  | x :: (_ :: _) as rest =>
      if budget <? bytes then shed budget rest (bytes - len (q_payload x)) (drops + 1)
      else (l, bytes, drops)
  | _ => (l, bytes, drops)
  end.

(** [submit]: append, then shed from the left. *)
Definition submit (self : JetStreamPublisher) (item : _QueuedBatch) : JetStreamPublisher :=
  let '(b, bytes, drops) :=
    shed (_buffer_budget self) (_buffer self ++ [item])
      (_buffer_bytes self + len (q_payload item)) (_publish_drops self) in
  set_buffer self b bytes drops (_oldest_pending_mono_ns self) (pending self).

(** One turn of [_fill_window]; nothing happens on a full window or an empty
    buffer. *)
Definition fill_one (self : JetStreamPublisher) : JetStreamPublisher :=
  if (length (pending self) <? _window self)%nat then
    match _buffer self with
    | [] => self
    | item :: rest =>
        set_buffer self rest (_buffer_bytes self - len (q_payload item)) (_publish_drops self)
          (match _oldest_pending_mono_ns self with
           | None => Some (q_submit_mono_ns item) | Some t => Some t end)
          (pending self ++ [item])
    end
  else self.

Fixpoint fill_window (fuel : nat) (self : JetStreamPublisher) : JetStreamPublisher :=
  match fuel with
  | O => self
  | S fuel => fill_window fuel (fill_one self)
  end.

(** The head of the window was acked. *)
Definition ack_head (self : JetStreamPublisher) : JetStreamPublisher :=
  match pending self with
  | [] => self
  | _ :: rest =>
      mkPublisher (_window self) (_buffer_budget self) (_buffer self) (_buffer_bytes self)
        (q_submit_mono_ns <$> head rest) (_publish_drops self) (_published self + 1) rest
  end.

Definition bytes_of (l : list _QueuedBatch) : Z :=
  fold_right (fun x acc => len (q_payload x) + acc) 0 l.

(** [_requeue]: the whole window back at the front of the buffer, then shed
    from the right. *)
Definition _requeue (self : JetStreamPublisher) : JetStreamPublisher :=
  let '(b, bytes, drops) :=
    shed (_buffer_budget self) (rev (pending self ++ _buffer self))
      (_buffer_bytes self + bytes_of (pending self)) (_publish_drops self) in
  set_buffer self (rev b) bytes drops None [].

(** The age of the oldest unacked publish, in milliseconds. *)
Definition publish_lag_ms (self : JetStreamPublisher) (now_mono_ns : Z) : float :=
  let oldest :=
    match _oldest_pending_mono_ns self with
    | Some t => Some t
    | None => q_submit_mono_ns <$> head (_buffer self)
    end in
  match oldest with
  | None => f0
  | Some t => fdiv_ieee (f_of_Z (now_mono_ns - t)) (f_of_Z 1000000)
  end.

(** What [drain] waits for. *)
Definition idle (self : JetStreamPublisher) : bool :=
  match _buffer self, _oldest_pending_mono_ns self with [], None => true | _, _ => false end.

(** How an awaited publish ends. *)
Inductive outcome := Acked | Failed.

(** [_send_loop], one awaited publish per outcome, between two refills. *)
Fixpoint _send_loop (outcomes : list outcome) (self : JetStreamPublisher) : JetStreamPublisher :=
  let self := fill_window (length (_buffer self)) self in
  match outcomes, pending self with
  | o :: outcomes, _ :: _ =>
      _send_loop outcomes (match o with Acked => ack_head self | Failed => _requeue self end)
  | _, _ => self
  end.

(** The steps the two threads interleave. *)
Inductive pub_op :=
  | PSubmit (item : _QueuedBatch)
  | PFill
  | PAck
  | PFail.

Definition pub_step (self : JetStreamPublisher) (o : pub_op) : JetStreamPublisher :=
  match o with
  | PSubmit item => submit self item
  | PFill => fill_one self
  | PAck => ack_head self
  | PFail => _requeue self
  end.

(** The batches a run was given, and the ones it saw acked. *)
Definition submitted (ops : list pub_op) : list _QueuedBatch :=
  flat_map (fun o => match o with PSubmit item => [item] | _ => [] end) ops.

Fixpoint pub_run (self : JetStreamPublisher) (acked : list _QueuedBatch) (ops : list pub_op)
    : JetStreamPublisher * list _QueuedBatch :=
  match ops with
  | [] => (self, acked)
  | o :: ops =>
      let acked := match o with PAck => acked ++ take 1 (pending self) | _ => acked end in
      pub_run (pub_step self o) acked ops
  end.

(** * Shedding *)

Lemma bytes_of_app l l' : bytes_of (l ++ l') = bytes_of l + bytes_of l'.
Proof. induction l as [|x l IH]; simpl; lia. Qed.

Lemma bytes_of_rev l : bytes_of (rev l) = bytes_of l.
Proof. induction l as [|x l IH]; simpl; [done|]. rewrite bytes_of_app, IH; simpl; lia. Qed.

Lemma shed_spec budget l bytes drops b bytes' drops' :
  shed budget l bytes drops = (b, bytes', drops') -> bytes = bytes_of l ->
  exists gone, l = gone ++ b /\ drops' = drops + Z.of_nat (length gone) /\ bytes' = bytes_of b /\
    (bytes' <= budget \/ (length b <= 1)%nat).
Proof.
  revert bytes drops; induction l as [|x [|y rest] IH]; intros bytes drops.
  - intros [= <- <- <-] ->; exists []; split_and!; simpl; auto; lia.
  - intros [= <- <- <-] ->; exists []; split_and!; simpl; auto; lia.
  - cbn [shed]. destruct (Z.ltb_spec budget bytes).
    + intros Hs Hb; destruct (IH _ _ Hs) as (gone & Hl & Hd & Hb' & Hc).
      { rewrite Hb; simpl; lia. }
      exists (x :: gone); split_and!; [by rewrite Hl | simpl length; lia | done | done].
    + intros [= <- <- <-] ->; exists []; split_and!; simpl; auto; lia.
Qed.

(** * The invariant *)

Record pub_inv (self : JetStreamPublisher) (acked all : list _QueuedBatch) : Prop := {
  inv_bytes : _buffer_bytes self = bytes_of (_buffer self);
  inv_order : (acked ++ pending self ++ _buffer self) `sublist_of` all;
  inv_count : Z.of_nat (length all) =
    _published self + Z.of_nat (length (pending self)) + Z.of_nat (length (_buffer self)) + _publish_drops self;
  inv_acked : _published self = Z.of_nat (length acked);
  inv_window : (length (pending self) <= _window self)%nat;
  inv_budget : _buffer_bytes self <= _buffer_budget self \/ (length (_buffer self) <= 1)%nat;
  inv_oldest : _oldest_pending_mono_ns self = q_submit_mono_ns <$> head (pending self)
}.

Lemma submit_inv self acked all item :
  pub_inv self acked all -> pub_inv (submit self item) acked (all ++ [item]).
Proof.
  intros [H1 H2 H3 H4 H5 H6 H7]; unfold submit.
  destruct (shed _ _ _ _) as [[b bytes] drops] eqn:Es.
  apply shed_spec in Es as (gone & Hl & -> & -> & Hc).
  2: { rewrite bytes_of_app; simpl; lia. }
  split; simpl; try done.
  - transitivity (acked ++ pending self ++ (_buffer self ++ [item])).
    + apply sublist_app; [done|]. apply sublist_app; [done|]. rewrite Hl. by apply sublist_inserts_l.
    + rewrite !app_assoc, <- (app_assoc acked). by apply sublist_app.
  - assert (Hlen : length (_buffer self ++ [item]) = length (gone ++ b)) by (by rewrite Hl).
    rewrite !length_app in *; simpl in Hlen; rewrite ?length_app; simpl. lia.
Qed.

Lemma fill_inv self acked all : pub_inv self acked all -> pub_inv (fill_one self) acked all.
Proof.
  intros [H1 H2 H3 H4 H5 H6 H7]; unfold fill_one.
  destruct (Nat.ltb_spec (length (pending self)) (_window self)); [|by split].
  destruct (_buffer self) as [|item rest] eqn:Eb; [split; rewrite ?Eb; done|].
  simpl in *. split; simpl; try done.
  - lia.
  - by rewrite <- app_assoc.
  - rewrite length_app; simpl; lia.
  - rewrite length_app; simpl; lia.
  - destruct H6 as [H6|H6]; [left; pose proof (len_nonneg (q_payload item)); lia | right; lia].
  - rewrite H7. by destruct (pending self).
Qed.

Lemma ack_inv self acked all :
  pub_inv self acked all -> pub_inv (ack_head self) (acked ++ take 1 (pending self)) all.
Proof.
  intros [H1 H2 H3 H4 H5 H6 H7]; unfold ack_head.
  destruct (pending self) as [|item rest] eqn:Ep.
  { simpl in *; rewrite app_nil_r; split; rewrite ?Ep; simpl; try done. }
  simpl in *; rewrite take_0; split; simpl; try done.
  - by rewrite <- app_assoc.
  - lia.
  - rewrite length_app; simpl; lia.
  - lia.
Qed.

Lemma requeue_inv self acked all : pub_inv self acked all -> pub_inv (_requeue self) acked all.
Proof.
  intros [H1 H2 H3 H4 H5 H6 H7]; unfold _requeue.
  destruct (shed _ _ _ _) as [[b bytes] drops] eqn:Es.
  apply shed_spec in Es as (gone & Hl & -> & -> & Hc).
  2: { rewrite bytes_of_rev, bytes_of_app; lia. }
  assert (Hb : pending self ++ _buffer self = rev b ++ rev gone).
  { rewrite <- rev_app_distr, <- Hl. by rewrite rev_involutive. }
  split; simpl; try done.
  - by rewrite bytes_of_rev.
  - rewrite Hb in H2. etransitivity; [|exact H2]. rewrite app_assoc. by apply sublist_inserts_r.
  - assert (Hlen : length (pending self ++ _buffer self) = length (rev b ++ rev gone)) by (by rewrite Hb).
    rewrite !length_app, !length_rev in Hlen. rewrite length_rev. lia.
  - lia.
  - by rewrite length_rev.
Qed.

Lemma pub_run_inv self acked ops all :
  pub_inv self acked all ->
  let r := pub_run self acked ops in pub_inv r.1 r.2 (all ++ submitted ops).
Proof.
  revert self acked all; induction ops as [|o ops IH]; intros self acked all Hi; simpl.
  { by rewrite app_nil_r. }
  destruct o as [item| | |]; simpl.
  - change (item :: submitted ops) with ([item] ++ submitted ops). rewrite app_assoc. by apply IH, submit_inv.
  - by apply IH, fill_inv.
  - by apply IH, ack_inv.
  - by apply IH, requeue_inv.
Qed.

Lemma init_inv window budget self :
  0 <= budget -> publisher_init window budget = Ok self -> pub_inv self [] [].
Proof.
  unfold publisher_init; destruct (window <=? 0)%nat; [done|]. intros Hb [= <-]. split; simpl; auto; lia.
Qed.

(** Whatever the interleaving of submissions, publishes, acks and failures:
    acked batches, the window and the buffer are the submitted batches in
    their order, less the ones shed, and every one shed is counted; the buffer
    keeps its byte budget unless it holds a single batch, and the window its
    bound. *)
Theorem publisher_accounts (window : nat) (buffer_bytes : Z) (self self' : JetStreamPublisher)
    (acked : list _QueuedBatch) (ops : list pub_op)
    (Hbudget : 0 <= buffer_bytes) (Hinit : publisher_init window buffer_bytes = Ok self)
    (Hrun : pub_run self [] ops = (self', acked)) :
  (acked ++ pending self' ++ _buffer self') `sublist_of` submitted ops /\
  Z.of_nat (length (submitted ops)) =
    Z.of_nat (length (acked ++ pending self' ++ _buffer self')) + _publish_drops self' /\
  (_buffer_bytes self' <= _buffer_budget self' \/ (length (_buffer self') <= 1)%nat) /\
  (length (pending self') <= _window self')%nat.
Proof.
  pose proof (pub_run_inv self [] ops [] (init_inv _ _ _ Hbudget Hinit)) as Hi. rewrite Hrun in Hi; simpl in Hi.
  destruct Hi as [H1 H2 H3 H4 H5 H6 H7]. split_and!; try done. rewrite !length_app; lia.
Qed.

(** The lag gauge is the age of the oldest batch not yet acked, whether it is
    in the window or still buffered; it reads zero only when none is. *)
Theorem publish_lag_is_oldest_unacked (window : nat) (buffer_bytes now : Z)
    (self self' : JetStreamPublisher) (acked : list _QueuedBatch) (ops : list pub_op)
    (Hbudget : 0 <= buffer_bytes) (Hinit : publisher_init window buffer_bytes = Ok self)
    (Hrun : pub_run self [] ops = (self', acked)) :
  publish_lag_ms self' now =
    match head (pending self' ++ _buffer self') with
    | Some oldest => fdiv_ieee (f_of_Z (now - q_submit_mono_ns oldest)) (f_of_Z 1000000)
    | None => f0
    end /\
  (idle self' = true <-> pending self' ++ _buffer self' = []).
Proof.
  pose proof (pub_run_inv self [] ops [] (init_inv _ _ _ Hbudget Hinit)) as Hi. rewrite Hrun in Hi; simpl in Hi.
  pose proof (inv_oldest _ _ _ Hi) as Ho. unfold publish_lag_ms, idle; rewrite Ho.
  destruct (pending self') as [|x l]; simpl; [by destruct (_buffer self')|].
  split; [done|]. destruct (_buffer self'); simpl; done.
Qed.

(** * The send loop drains *)

Lemma fill_window_inv fuel self acked all :
  pub_inv self acked all -> pub_inv (fill_window fuel self) acked all.
Proof. revert self; induction fuel as [|fuel IH]; intros self Hi; simpl; [done|]. by apply IH, fill_inv. Qed.

Lemma fill_one_shape self :
  pending (fill_one self) ++ _buffer (fill_one self) = pending self ++ _buffer self /\
  _window (fill_one self) = _window self /\ _publish_drops (fill_one self) = _publish_drops self /\
  _published (fill_one self) = _published self.
Proof.
  unfold fill_one; destruct (_ <? _)%nat; [|done].
  destruct (_buffer self) as [|item rest] eqn:E; simpl; [by rewrite E | by rewrite <- app_assoc].
Qed.

Lemma fill_window_shape fuel self :
  pending (fill_window fuel self) ++ _buffer (fill_window fuel self) = pending self ++ _buffer self /\
  _window (fill_window fuel self) = _window self /\
  _publish_drops (fill_window fuel self) = _publish_drops self /\
  _published (fill_window fuel self) = _published self.
Proof.
  revert self; induction fuel as [|fuel IH]; intros self; simpl; [done|].
  destruct (IH (fill_one self)) as (-> & -> & -> & ->). apply fill_one_shape.
Qed.

Lemma fill_window_pending fuel self :
  (0 < fuel)%nat -> (0 < _window self)%nat -> pending self ++ _buffer self <> [] ->
  pending (fill_window fuel self) <> [].
Proof.
  intros Hf Hw. destruct fuel as [|fuel]; [lia|]; clear Hf; simpl.
  assert (Hkeep : forall fuel s, pending s <> [] -> pending (fill_window fuel s) <> []).
  { clear; induction fuel as [|fuel IH]; intros s Hs; simpl; [done|]. apply IH.
    unfold fill_one; destruct (_ <? _)%nat; [|done]. destruct (_buffer s); simpl; [done|].
    by destruct (pending s). }
  intros Hne; apply Hkeep. unfold fill_one.
  destruct (pending self) as [|x l] eqn:Ep.
  - simpl in *. destruct (Nat.ltb_spec 0 (_window self)); [|lia].
    destruct (_buffer self); done.
  - destruct (_ <? _)%nat; [|by rewrite Ep]. destruct (_buffer self); simpl; by rewrite ?Ep.
Qed.

Lemma send_loop_acked n self :
  (0 < _window self)%nat -> length (pending self ++ _buffer self) = n ->
  let self' := _send_loop (repeat Acked n) self in
  pending self' ++ _buffer self' = [] /\
  _published self' = _published self + Z.of_nat n /\ _publish_drops self' = _publish_drops self.
Proof.
  revert self; induction n as [|n IH]; intros self Hw Hn; cbn [repeat _send_loop].
  { pose proof (fill_window_shape (length (_buffer self)) self) as (E1 & _ & E3 & E4).
    apply length_zero_iff_nil in Hn. rewrite E1, E3, E4; split_and!; [done | lia | done]. }
  pose proof (fill_window_shape (length (_buffer self)) self) as (E1 & E2 & E3 & E4).
  assert (Hp : pending (fill_window (length (_buffer self)) self) <> []).
  { destruct (decide (length (_buffer self) = 0)%nat) as [E0|].
    - rewrite E0; simpl. intros Hnil. rewrite Hnil in Hn; simpl in Hn. lia.
    - apply fill_window_pending; [lia | done|]. intros Hnil; by rewrite Hnil in Hn. }
  destruct (fill_window _ self) as [w bud buf bytes old drops pub pend]; simpl in *.
  destruct pend as [|x rest]; [done|]. unfold ack_head; simpl.
  destruct (IH (mkPublisher w bud buf bytes (q_submit_mono_ns <$> head rest) drops (pub + 1) rest)) as (H1 & H2 & H3).
  - simpl; lia.
  - simpl. rewrite <- E1 in Hn; simpl in Hn. lia.
  - simpl in *. split_and!; [done | lia | lia].
Qed.

(** Liveness: with a broker that acks, the loop publishes everything pending
    and buffered in as many awaited publishes, and sheds nothing. *)
Theorem send_loop_drains (window : nat) (buffer_bytes : Z) (self self' : JetStreamPublisher)
    (acked : list _QueuedBatch) (ops : list pub_op)
    (Hinit : publisher_init window buffer_bytes = Ok self)
    (Hrun : pub_run self [] ops = (self', acked)) :
  let waiting := length (pending self' ++ _buffer self') in
  let final := _send_loop (repeat Acked waiting) self' in
  pending final ++ _buffer final = [] /\ _published final = _published self' + Z.of_nat waiting /\
  _publish_drops final = _publish_drops self'.
Proof.
  simpl. apply send_loop_acked; [|done].
  assert (Hw : (0 < _window self)%nat).
  { unfold publisher_init in Hinit. destruct (Nat.leb_spec window 0); [done|]. by injection Hinit as <-. }
  clear Hinit; revert self Hw Hrun; generalize (@nil _QueuedBatch) as a.
  induction ops as [|o ops IH]; intros a self Hw; simpl; [by intros [= <- _]|].
  apply IH. destruct o; simpl; [|rewrite (proj1 (proj2 (fill_one_shape self))); done | |].
  - unfold submit; by destruct (shed _ _ _ _) as [[? ?] ?].
  - unfold ack_head; by destruct (pending self).
  - unfold _requeue; by destruct (shed _ _ _ _) as [[? ?] ?].
Qed.

(** * Which batch is shed *)

(** A submission past the budget sheds the oldest buffered batches; a failed
    publish that no longer fits sheds the newest. *)
Theorem shedding_sides (self : JetStreamPublisher) (item : _QueuedBatch)
    (Hbytes : _buffer_bytes self = bytes_of (_buffer self)) :
  (exists gone, _buffer self ++ [item] = gone ++ _buffer (submit self item) /\
     _publish_drops (submit self item) = _publish_drops self + Z.of_nat (length gone)) /\
  (exists gone, pending self ++ _buffer self = _buffer (_requeue self) ++ gone /\
     _publish_drops (_requeue self) = _publish_drops self + Z.of_nat (length gone)).
Proof.
  split.
  - unfold submit. destruct (shed _ _ _ _) as [[b bytes] drops] eqn:Es.
    apply shed_spec in Es as (gone & Hl & -> & _); [by exists gone|].
    rewrite bytes_of_app; simpl; lia.
  - unfold _requeue. destruct (shed _ _ _ _) as [[b bytes] drops] eqn:Es.
    apply shed_spec in Es as (gone & Hl & -> & _).
    2: { rewrite bytes_of_rev, bytes_of_app; lia. }
    exists (rev gone); simpl; rewrite length_rev; split; [|done].
    rewrite <- rev_app_distr, <- Hl. by rewrite rev_involutive.
Qed.
End Publisher.

(** * A concrete publisher: payloads are their own sizes *)

Module Broker.
Definition size (p : Z) : Z := Z.abs p.
Definition batch (n : Z) : _QueuedBatch := mkQueued (P := Z) "tele.car.can" n ("can:" +:+ pretty n) n.
Definition publisher : JetStreamPublisher (P := Z) := mkPublisher 2 10 [] 0 None 0 0 [].
Definition ops : list (pub_op (P := Z)) :=
  [PSubmit (batch 4); PFill; PSubmit (batch 5); PSubmit (batch 3); PAck; PFill; PSubmit (batch 9); PFail].
Definition final := pub_run size publisher [] ops.
End Broker.

Lemma publisher_accounts_witness :
  Broker.final.2 = [Broker.batch 4] /\ _publish_drops Broker.final.1 = 2 /\
  (Broker.final.2 ++ pending Broker.final.1 ++ _buffer Broker.final.1) `sublist_of` submitted Broker.ops /\
  Z.of_nat (length (submitted Broker.ops)) =
    Z.of_nat (length (Broker.final.2 ++ pending Broker.final.1 ++ _buffer Broker.final.1))
    + _publish_drops Broker.final.1 /\
  (_buffer_bytes Broker.final.1 <= _buffer_budget Broker.final.1 \/
   (length (_buffer Broker.final.1) <= 1)%nat) /\
  (length (pending Broker.final.1) <= _window Broker.final.1)%nat.
Proof.
  split; [vm_compute; reflexivity|]. split; [vm_compute; reflexivity|].
  apply (publisher_accounts Broker.size Z.abs_nonneg 2 10 Broker.publisher).
  - lia.
  - reflexivity.
  - apply surjective_pairing.
Defined.

Lemma publish_lag_is_oldest_unacked_witness :
  publish_lag_ms Broker.final.1 1000000 =
    match head (pending Broker.final.1 ++ _buffer Broker.final.1) with
    | Some oldest => fdiv_ieee (f_of_Z (1000000 - q_submit_mono_ns oldest)) (f_of_Z 1000000)
    | None => f0
    end /\
  (idle Broker.final.1 = true <-> pending Broker.final.1 ++ _buffer Broker.final.1 = []).
Proof.
  apply (publish_lag_is_oldest_unacked Broker.size Z.abs_nonneg 2 10 1000000 Broker.publisher
           Broker.final.1 Broker.final.2 Broker.ops).
  - lia.
  - reflexivity.
  - apply surjective_pairing.
Defined.

Lemma send_loop_drains_witness :
  let waiting := length (pending Broker.final.1 ++ _buffer Broker.final.1) in
  let final := _send_loop Broker.size (repeat Acked waiting) Broker.final.1 in
  pending final ++ _buffer final = [] /\
  _published final = _published Broker.final.1 + Z.of_nat waiting /\
  _publish_drops final = _publish_drops Broker.final.1.
Proof.
  apply (send_loop_drains Broker.size 2 10 Broker.publisher Broker.final.1 Broker.final.2 Broker.ops).
  - reflexivity.
  - apply surjective_pairing.
Defined.

Lemma shedding_sides_witness :
  let self := mkPublisher 2 10 [Broker.batch 5; Broker.batch 3] 8 (Some 4) 0 0 [Broker.batch 4] in
  _buffer (submit Broker.size self (Broker.batch 4)) = [Broker.batch 3; Broker.batch 4] /\
  _buffer (_requeue Broker.size self) = [Broker.batch 4; Broker.batch 5] /\
  (exists gone, _buffer self ++ [Broker.batch 4] = gone ++ _buffer (submit Broker.size self (Broker.batch 4)) /\
     _publish_drops (submit Broker.size self (Broker.batch 4)) = _publish_drops self + Z.of_nat (length gone)) /\
  (exists gone, pending self ++ _buffer self = _buffer (_requeue Broker.size self) ++ gone /\
     _publish_drops (_requeue Broker.size self) = _publish_drops self + Z.of_nat (length gone)).
Proof.
  intros self. split; [vm_compute; reflexivity|]. split; [vm_compute; reflexivity|].
  apply (shedding_sides Broker.size self (Broker.batch 4)). reflexivity.
Defined.
