(* ===== verification/PublisherLink.v ===== *)
(** The publisher's connection ([src/agent/publisher.py]): dialling with a
    backoff, making the streams what they should be, announcing the registry,
    then the send loop of [Publisher] until the agent stops.

    The server is outside: each call is answered as the steps of a run say. A
    session has one reading of the window per turn of the loop; submissions
    fall between any two steps. *)

From S2P Require Import Prelude PyFloat Publisher.

Local Open Scope Z_scope.

Definition _CONNECT_BACKOFF_START_S : float := f_of_ratio 1 2.
Definition _CONNECT_BACKOFF_MAX_S : float := f_of_Z 15.
Definition _TELE_DUPLICATE_WINDOW_S : float := f_of_Z 120.

(** * Streams *)

Record StreamConfig := mkStream {
  stream_name : string;
  stream_subjects : list string;
  stream_max_age : option float;
  stream_max_bytes : option Z;
  stream_duplicate_window : option float;
  stream_max_msgs_per_subject : option Z
}.

Definition tele_stream (vehicle : string) (max_age : float) (max_bytes : Z) : StreamConfig :=
  mkStream "TELE" ["tele." +:+ vehicle +:+ ".>"] (Some max_age) (Some max_bytes) (Some _TELE_DUPLICATE_WINDOW_S) None.
Definition cmd_stream (vehicle : string) : StreamConfig :=
  mkStream "CMD" ["cmd." +:+ vehicle +:+ ".>"] None None None (Some 1).

(** What the server answers to the calls about one stream; [Absent] is
    [NotFoundError] and [Conflict] [BadRequestError]. *)
Inductive info_answer := Found | Absent | InfoFailed (e : exn).
Inductive add_answer := Added | Conflict | AddFailed (e : exn).
Record stream_answers := mkAnswers { on_info : info_answer; on_add : add_answer; on_update : res unit }.

Inductive stream_call := CallInfo (name : string) | CallAdd (c : StreamConfig) | CallUpdate (c : StreamConfig).

(** The streams the server has, the calls made of it, and how it ended. *)
Definition server : Type := list (string * StreamConfig).
Definition update_stream (c : StreamConfig) (a : stream_answers) (srv : server) : server * list stream_call * res unit :=
  match on_update a with
  | Ok _ => (od_set (stream_name c) c srv, [CallUpdate c], Ok ())
  | Raise e => (srv, [CallUpdate c], Raise e)
  end.
Definition ensure_stream (c : StreamConfig) (a : stream_answers) (srv : server) : server * list stream_call * res unit :=
  match on_info a with
  | Found => let '(srv, calls, r) := update_stream c a srv in (srv, CallInfo (stream_name c) :: calls, r)
  | InfoFailed e => (srv, [CallInfo (stream_name c)], Raise e)
  | Absent =>
      match on_add a with
      | Added => (od_set (stream_name c) c srv, [CallInfo (stream_name c); CallAdd c], Ok ())
      | AddFailed e => (srv, [CallInfo (stream_name c); CallAdd c], Raise e)
      | Conflict => let '(srv, calls, r) := update_stream c a srv in (srv, [CallInfo (stream_name c); CallAdd c] ++ calls, r)
      end
  end.

Fixpoint ensure_each (cs : list (StreamConfig * stream_answers)) (srv : server) : server * list stream_call * res unit :=
  match cs with
  | [] => (srv, [], Ok ())
  | (c, a) :: cs =>
      match ensure_stream c a srv with
      | (srv, calls, Raise e) => (srv, calls, Raise e)
      | (srv, calls, Ok _) => let '(srv, more, r) := ensure_each cs srv in (srv, calls ++ more, r)
      end
  end.

Section Link.
Context {P : Type} (len : P -> Z) {Hlen : forall p, 0 <= len p} (vehicle : string) (max_age : float) (max_bytes : Z).

Definition _ensure_streams (tele cmd : stream_answers) (srv : server) : server * list stream_call * res unit :=
  ensure_each [(tele_stream vehicle max_age max_bytes, tele); (cmd_stream vehicle, cmd)] srv.

(** * The loop *)

Inductive link_at := Dialing | Opening | Serving | Backing (delay : float) | Ended.

Record Link := mkLink {
  l_pub : @JetStreamPublisher P;
  l_server : server;
  l_at : link_at;
  l_backoff : float;
  _connected : bool;
  _session_provisioned : bool;
  _registry_publishes : Z;
  _stopping : bool
}.

Definition link_init (pub : @JetStreamPublisher P) (srv : server) : Link :=
  mkLink pub srv Dialing _CONNECT_BACKOFF_START_S false false 0 false.

Definition with_pub (f : @JetStreamPublisher P -> @JetStreamPublisher P) (s : Link) : Link :=
  mkLink (f (l_pub s)) (l_server s) (l_at s) (l_backoff s) (_connected s) (_session_provisioned s) (_registry_publishes s) (_stopping s).
Definition goto (at_ : link_at) (backoff : float) (s : Link) : Link :=
  mkLink (l_pub s) (l_server s) at_ backoff (_connected s) (_session_provisioned s) (_registry_publishes s) (_stopping s).
Definition flags (connected provisioned : bool) (registries : Z) (s : Link) : Link :=
  mkLink (l_pub s) (l_server s) (l_at s) (l_backoff s) connected provisioned (_registry_publishes s + registries) (_stopping s).
Definition with_server (srv : server) (s : Link) : Link :=
  mkLink (l_pub s) srv (l_at s) (l_backoff s) (_connected s) (_session_provisioned s) (_registry_publishes s) (_stopping s).

(** [while not self._stopping.is_set()], at the top of the loop. *)
Definition redial (s : Link) : Link := goto (if _stopping s then Ended else Dialing) (l_backoff s) s.
Definition back_off (s : Link) : Link :=
  goto (Backing (l_backoff s)) (doubled (l_backoff s) _CONNECT_BACKOFF_MAX_S) s.

(** The session is over, however it ended: what was in the window goes back,
    and a session that never had its streams is not dialled again at once. *)
Definition close_session (s : Link) : Link :=
  let s := flags false (_session_provisioned s) 0 (with_pub (_requeue len) s) in
  if _session_provisioned s then redial (goto (l_at s) _CONNECT_BACKOFF_START_S s)
  else if _stopping s then redial s
  else back_off s.

(** [_serve] up to its send loop. *)
Definition open_session (s : Link) (tele cmd : stream_answers) (registry subscribed : res unit) : Link :=
  match _ensure_streams tele cmd (l_server s) with
  | (srv, _, Raise _) => close_session (with_server srv s)
  | (srv, _, Ok _) =>
      let s := flags (_connected s) true 0 (with_server srv s) in
      match registry with
      | Raise _ => close_session s
      | Ok _ =>
          let s := flags (_connected s) true 1 s in
          match subscribed with
          | Raise _ => close_session s
          | Ok _ => goto Serving (l_backoff s) s
          end
      end
  end.

Inductive link_step :=
  | Submit (item : @_QueuedBatch P)
  | Dial (r : res unit)
  | Open (tele cmd : stream_answers) (registry subscribed : res unit)
  | Fill
  | Awaited (o : outcome)
  | Republish (r : res unit)
  | Disconnected
  | Reconnected
  | Slept
  | Stop.

Definition link_turn (s : Link) (st : link_step) : Link :=
  match st, l_at s with
  | Submit item, _ => with_pub (fun p => submit len p item) s
  | Dial (Ok _), Dialing => goto Opening (l_backoff s) (flags true false 0 s)
  | Dial (Raise _), Dialing => back_off s
  | Open tele cmd registry subscribed, Opening => open_session s tele cmd registry subscribed
  | Fill, Serving =>
      let s := with_pub (fun p => fill_window len (length (_buffer p)) p) s in
      match pending (l_pub s) with
      | [] => if _stopping s then close_session s else s
      | _ => s
      end
  | Awaited o, Serving =>
      match pending (l_pub s), o with
      | [], _ => s
      | _, Acked => with_pub ack_head s
      | _, Failed =>
          let s := with_pub (_requeue len) s in
          if _stopping s then close_session s else s
      end
  | Republish (Ok _), Serving => flags (_connected s) (_session_provisioned s) 1 s
  | Disconnected, (Opening | Serving) => flags false (_session_provisioned s) 0 s
  | Reconnected, (Opening | Serving) => flags true (_session_provisioned s) 0 s
  | Slept, Backing _ => redial s
  | Stop, at_ =>
      mkLink (l_pub s) (l_server s) at_ (l_backoff s) (_connected s) (_session_provisioned s) (_registry_publishes s) true
  | _, _ => s
  end.
Definition link_run (s : Link) (steps : list link_step) : Link := fold_left link_turn steps s.

(** * The streams *)

Lemma ensure_stream_spec c a srv :
  match ensure_stream c a srv with
  | (srv', calls, r) =>
      (r = Ok () -> od_get (stream_name c) srv' = Some c) /\
      (forall n, n <> stream_name c -> od_get n srv' = od_get n srv) /\
      (forall c', CallAdd c' ∈ calls -> c' = c /\ on_info a = Absent)
  end.
Proof.
  unfold ensure_stream, update_stream.
  destruct (on_info a); [destruct (on_update a)|destruct (on_add a); [|destruct (on_update a)|]|];
    split_and!; intros; rewrite ?od_get_set_eq, ?od_get_set_ne by done; try done; try set_solver.
Qed.

(** What provisioning leaves: both streams as configured, no other touched,
    and no stream added that the server said it had. *)
Lemma streams_converge tele cmd srv :
  match _ensure_streams tele cmd srv with
  | (srv', calls, r) =>
      (r = Ok () -> od_get "TELE" srv' = Some (tele_stream vehicle max_age max_bytes) /\ od_get "CMD" srv' = Some (cmd_stream vehicle)) /\
      (forall n, n <> "TELE" -> n <> "CMD" -> od_get n srv' = od_get n srv) /\
      (forall c, CallAdd c ∈ calls ->
         (c = tele_stream vehicle max_age max_bytes /\ on_info tele = Absent) \/ (c = cmd_stream vehicle /\ on_info cmd = Absent))
  end.
Proof.
  unfold _ensure_streams. cbn [ensure_each].
  pose proof (ensure_stream_spec (tele_stream vehicle max_age max_bytes) tele srv) as H1.
  destruct (ensure_stream (tele_stream vehicle max_age max_bytes) tele srv) as [[srv1 calls1] [[]|e]]; destruct H1 as (T1 & T2 & T3).
  2: { split_and!; [done|intros; by apply T2|intros c Hc; left; by apply T3]. }
  pose proof (ensure_stream_spec (cmd_stream vehicle) cmd srv1) as H2.
  destruct (ensure_stream (cmd_stream vehicle) cmd srv1) as [[srv2 calls2] r]; destruct H2 as (C1 & C2 & C3).
  assert (Hend : r = Ok () -> od_get "TELE" srv2 = Some (tele_stream vehicle max_age max_bytes) /\ od_get "CMD" srv2 = Some (cmd_stream vehicle)).
  { intros Hr. split; [|by apply C1]. rewrite C2 by done. by apply T1. }
  destruct r as [[]|e]; (split_and!; [by intros; apply Hend|intros n N1 N2; rewrite C2 by done; by apply T2|]);
    intros c; rewrite ?app_nil_r; intros [Hc|Hc]%elem_of_app; [left; by apply T3|right; by apply C3|left; by apply T3|right; by apply C3].
Qed.

(** * Runs *)

Definition given (st : link_step) : list (@_QueuedBatch P) := match st with Submit item => [item] | _ => [] end.
Definition acked_by (s : Link) (st : link_step) : list (@_QueuedBatch P) :=
  match st, l_at s with Awaited Acked, Serving => take 1 (pending (l_pub s)) | _, _ => [] end.
Definition dialled (s : Link) (st : link_step) : Z := match st, l_at s with Dial _, Dialing => 1 | _, _ => 0 end.
Definition waited (s : Link) (st : link_step) : Z := match st, l_at s with Slept, Backing _ => 1 | _, _ => 0 end.
(** A session that got its streams. *)
Definition provisioned (s : Link) (st : link_step) : Z :=
  match st, l_at s with
  | Open tele cmd _ _, Opening => if is_ok (_ensure_streams tele cmd (l_server s)).2 then 1 else 0
  | _, _ => 0
  end.
Fixpoint total {A : Type} (zero : A) (add : A -> A -> A) (f : Link -> link_step -> A) (s : Link) (steps : list link_step) : A :=
  match steps with [] => zero | st :: steps => add (f s st) (total zero add f (link_turn s st) steps) end.
Definition count (f : Link -> link_step -> Z) : Link -> list link_step -> Z := total 0 Z.add f.
Definition acked (s : Link) (steps : list link_step) : list (@_QueuedBatch P) := total [] app acked_by s steps.

Definition is_open (at_ : link_at) : bool := match at_ with Opening | Serving => true | _ => false end.
Definition may_dial (s : Link) : Z := match l_at s with Dialing | Serving => 1 | _ => 0 end.

Record link_ok (s : Link) (done all : list (@_QueuedBatch P)) : Prop := {
  lk_pub : pub_inv len (l_pub s) done all;
  lk_window : (0 < _window (l_pub s))%nat;
  lk_connected : _connected s = true -> is_open (l_at s) = true;
  lk_backoff : fleb (l_backoff s) _CONNECT_BACKOFF_MAX_S = true;
  lk_wait : match l_at s with Backing d => fleb d _CONNECT_BACKOFF_MAX_S = true | _ => True end;
  lk_opening : l_at s = Opening -> _session_provisioned s = false;
  lk_serving : l_at s = Serving -> _session_provisioned s = true /\
    od_get "TELE" (l_server s) = Some (tele_stream vehicle max_age max_bytes) /\ od_get "CMD" (l_server s) = Some (cmd_stream vehicle)
}.

Lemma submit_window p item : _window (submit len p item) = _window p.
Proof. unfold submit. by destruct (shed _ _ _ _) as [[? ?] ?]. Qed.
Lemma requeue_window p : _window (_requeue len p) = _window p.
Proof. unfold _requeue. by destruct (shed _ _ _ _) as [[? ?] ?]. Qed.
Lemma ack_window (p : @JetStreamPublisher P) : _window (ack_head p) = _window p.
Proof. unfold ack_head. by destruct (pending p). Qed.

Lemma start_below_max : fleb _CONNECT_BACKOFF_START_S _CONNECT_BACKOFF_MAX_S = true.
Proof. vm_compute. reflexivity. Qed.

(** Another window and buffer under the same connection. *)
Lemma with_pub_ok f s done all done' all' :
  link_ok s done all -> pub_inv len (f (l_pub s)) done' all' -> _window (f (l_pub s)) = _window (l_pub s) ->
  link_ok (with_pub f s) done' all'.
Proof. intros [H1 H2 H3 H4 H5 H6 H7] Hp Hw. split; cbn; rewrite ?Hw; done. Qed.

Lemma close_ok s done all :
  pub_inv len (l_pub s) done all -> (0 < _window (l_pub s))%nat -> fleb (l_backoff s) _CONNECT_BACKOFF_MAX_S = true ->
  link_ok (close_session s) done all /\
  may_dial (close_session s) <= (if _session_provisioned s then 1 else 0).
Proof.
  intros H1 H2 H4.
  assert (Hp : pub_inv len (_requeue len (l_pub s)) done all) by (by apply requeue_inv).
  assert (Hd : fleb (doubled (l_backoff s) _CONNECT_BACKOFF_MAX_S) _CONNECT_BACKOFF_MAX_S = true) by (by apply doubled_bounded).
  pose proof start_below_max as Hs.
  unfold close_session. cbn [_session_provisioned flags with_pub]. unfold redial, back_off, may_dial, flags, goto, with_pub.
  destruct (_session_provisioned s), (_stopping s) eqn:Est;
    cbn [l_pub l_server l_at l_backoff _connected _session_provisioned _stopping _registry_publishes]; rewrite ?Est;
    (split; [split; cbn [l_pub l_server l_at l_backoff _connected _session_provisioned _stopping]; rewrite ?requeue_window; done|lia]).
Qed.

Lemma open_ok s tele cmd registry subscribed done all :
  l_at s = Opening -> link_ok s done all ->
  link_ok (open_session s tele cmd registry subscribed) done all /\
  may_dial (open_session s tele cmd registry subscribed) <= provisioned s (Open tele cmd registry subscribed).
Proof.
  intros Ea Hok. pose proof Hok as [H1 H2 H3 H4 H5 H6 H7]. specialize (H6 Ea). cbn [provisioned]. rewrite Ea. unfold open_session.
  pose proof (streams_converge tele cmd (l_server s)) as Hst.
  destruct (_ensure_streams tele cmd (l_server s)) as [[srv calls] [[]|e]]; destruct Hst as (Hst & _ & _); cbn [snd is_ok].
  2: { destruct (close_ok (with_server srv s) done all H1 H2 H4) as [Hc Hm]. cbn [with_server _session_provisioned] in Hm.
       by rewrite H6 in Hm. }
  destruct registry as [[]|e]; [destruct subscribed as [[]|e]|]; [|refine (close_ok _ done all _ _ _); done..].
  destruct (Hst eq_refl) as [Ht Hcm]. split; [|done]. split; cbn; done.
Qed.

Lemma may_dial_at s s' : l_at s' = l_at s -> may_dial s' = may_dial s.
Proof. unfold may_dial. by intros ->. Qed.

(** What a step preserves, and what it spends: a dial is paid for by a wait or
    by a session that got its streams. *)
Definition keeps (s : Link) (st : link_step) (s' : Link) (done all : list (@_QueuedBatch P)) : Prop :=
  link_ok s' (done ++ acked_by s st) (all ++ given st) /\
  dialled s st + may_dial s' <= may_dial s + waited s st + provisioned s st.

(** Steps that leave the connection where it is. *)
Lemma keeps_place s st s' done all :
  l_at s' = l_at s -> dialled s st = 0 -> 0 <= waited s st -> 0 <= provisioned s st ->
  link_ok s' (done ++ acked_by s st) (all ++ given st) -> keeps s st s' done all.
Proof. intros Ea Ed Hw Hp Hok. split; [done|]. rewrite (may_dial_at _ _ Ea). lia. Qed.

Lemma flags_ok s connected registries done all :
  link_ok s done all -> (connected = true -> is_open (l_at s) = true) ->
  link_ok (flags connected (_session_provisioned s) registries s) done all.
Proof. intros [H1 H2 H3 H4 H5 H6 H7] Hc. by split. Qed.

Lemma dial_ok s r done all : l_at s = Dialing -> link_ok s done all ->
  keeps s (Dial r) (link_turn s (Dial r)) done all.
Proof.
  intros Ea [H1 H2 H3 H4 H5 H6 H7]. unfold keeps, link_turn, acked_by, given, dialled, waited, provisioned. rewrite Ea, !app_nil_r.
  assert (Hd : fleb (doubled (l_backoff s) _CONNECT_BACKOFF_MAX_S) _CONNECT_BACKOFF_MAX_S = true) by (by apply doubled_bounded).
  destruct r as [[]|e]; (split; [|unfold may_dial; rewrite Ea; cbn; lia]); split; cbn; try done.
  intros Hc. specialize (H3 Hc). by rewrite Ea in H3.
Qed.

Lemma fill_ok s done all : l_at s = Serving -> link_ok s done all -> keeps s Fill (link_turn s Fill) done all.
Proof.
  intros Ea Hok. pose proof Hok as [H1 H2 H3 H4 H5 H6 H7]. unfold link_turn. rewrite Ea.
  set (f := fun p : @JetStreamPublisher P => fill_window len (length (_buffer p)) p).
  assert (Hf : link_ok (with_pub f s) done all).
  { eapply with_pub_ok; [done|by apply fill_window_inv|]. apply fill_window_shape. }
  unfold keeps, acked_by, given, dialled, waited, provisioned. rewrite !app_nil_r.
  destruct (pending (l_pub (with_pub f s))); [destruct (_stopping (with_pub f s))|].
  - destruct Hf as [F1 F2 F3 F4 _ _ _]. destruct (close_ok (with_pub f s) done all F1 F2 F4) as [Hc Hm]. split; [done|].
    unfold may_dial at 2. rewrite Ea. destruct (_session_provisioned (with_pub f s)); lia.
  - split; [done|]. rewrite (may_dial_at s (with_pub f s)) by done. lia.
  - split; [done|]. rewrite (may_dial_at s (with_pub f s)) by done. lia.
Qed.

Lemma awaited_ok s o done all : l_at s = Serving -> link_ok s done all -> keeps s (Awaited o) (link_turn s (Awaited o)) done all.
Proof.
  intros Ea Hok. pose proof Hok as [H1 H2 H3 H4 H5 H6 H7].
  unfold keeps, link_turn, acked_by, given, dialled, waited, provisioned. rewrite Ea, app_nil_r.
  destruct (pending (l_pub s)) as [|item rest] eqn:Ep.
  { destruct o; cbn [take]; rewrite app_nil_r; (split; [done|lia]). }
  destruct o.
  - split; [|rewrite (may_dial_at s (with_pub ack_head s)) by done; lia]. rewrite <- Ep.
    eapply with_pub_ok; [done|by apply ack_inv|by apply ack_window].
  - rewrite app_nil_r. assert (Hq : link_ok (with_pub (_requeue len) s) done all)
      by (eapply with_pub_ok; [done|by apply requeue_inv|by apply requeue_window]).
    destruct (_stopping (with_pub (_requeue len) s)); [|split; [done|rewrite (may_dial_at s (with_pub (_requeue len) s)) by done; lia]].
    destruct Hq as [F1 F2 F3 F4 _ _ _]. destruct (close_ok (with_pub (_requeue len) s) done all F1 F2 F4) as [Hc Hm]. split; [done|].
    unfold may_dial at 2. rewrite Ea. destruct (_session_provisioned (with_pub (_requeue len) s)); lia.
Qed.

(** A step that does not apply where the link is. *)
Ltac stays s Ea Hsame := solve
  [ match goal with |- keeps s ?st _ _ _ => replace (link_turn s st) with s by (unfold link_turn; rewrite ?Ea; repeat case_match; done) end;
    apply Hsame; unfold acked_by, dialled, waited, provisioned; rewrite ?Ea; repeat case_match; done ].

Lemma link_turn_ok s st done all : link_ok s done all -> keeps s st (link_turn s st) done all.
Proof.
  intros Hok. pose proof Hok as [H1 H2 H3 H4 H5 H6 H7].
  assert (Hsame : acked_by s st = [] -> given st = [] -> dialled s st = 0 -> waited s st = 0 -> provisioned s st = 0 -> keeps s st s done all).
  { intros E1 E2 E3 E4 E5. apply keeps_place; rewrite ?E4, ?E5; try done. by rewrite E1, E2, !app_nil_r. }
  destruct st as [item|r|tele cmd registry subscribed| |o|r| | | |].
  - apply keeps_place; try done. cbn [acked_by given]. rewrite app_nil_r.
    eapply with_pub_ok; [done|by apply submit_inv|by apply submit_window].
  - destruct (l_at s) eqn:Ea; [by apply dial_ok|stays s Ea Hsame..].
  - destruct (l_at s) eqn:Ea; [stays s Ea Hsame| |stays s Ea Hsame..].
    destruct (open_ok s tele cmd registry subscribed done all Ea Hok) as [Ho Hm].
    unfold keeps, link_turn. rewrite ?Ea. unfold acked_by, given, dialled, waited. rewrite ?Ea, !app_nil_r. split; [done|].
    assert (0 <= may_dial s) by (unfold may_dial; destruct (l_at s); lia). lia.
  - destruct (l_at s) eqn:Ea; [stays s Ea Hsame..|by apply fill_ok|stays s Ea Hsame|stays s Ea Hsame].
  - destruct (l_at s) eqn:Ea; [stays s Ea Hsame..|by apply awaited_ok|stays s Ea Hsame|stays s Ea Hsame].
  - destruct (l_at s) eqn:Ea; [stays s Ea Hsame|stays s Ea Hsame| |stays s Ea Hsame..].
    destruct r as [[]|e]; [|stays s Ea Hsame]. unfold link_turn. rewrite ?Ea. apply keeps_place; try done.
    unfold acked_by, given. rewrite !app_nil_r. apply flags_ok; [done|by rewrite Ea].
  - destruct (l_at s) eqn:Ea; [stays s Ea Hsame| | |stays s Ea Hsame|stays s Ea Hsame]; unfold link_turn; rewrite ?Ea;
      (apply keeps_place; try done; unfold acked_by, given; rewrite !app_nil_r; apply flags_ok; [done|by rewrite Ea]).
  - destruct (l_at s) eqn:Ea; [stays s Ea Hsame| | |stays s Ea Hsame|stays s Ea Hsame]; unfold link_turn; rewrite ?Ea;
      (apply keeps_place; try done; unfold acked_by, given; rewrite !app_nil_r; apply flags_ok; [done|by rewrite Ea]).
  - destruct (l_at s) as [| | |d|] eqn:Ea; [stays s Ea Hsame..| |stays s Ea Hsame].
    unfold keeps, link_turn, acked_by, given, dialled, waited, provisioned. rewrite ?Ea, !app_nil_r. unfold redial.
    split; [|unfold may_dial; rewrite ?Ea; cbn; destruct (_stopping s); lia].
    split; cbn; try done; destruct (_stopping s); try done; intros Hc; specialize (H3 Hc); by rewrite Ea in H3.
  - apply keeps_place; try done. unfold acked_by, given. rewrite !app_nil_r. by split.
Qed.

Lemma link_run_ok steps : forall s done all, link_ok s done all ->
  link_ok (link_run s steps) (done ++ acked s steps) (all ++ flat_map given steps) /\
  count dialled s steps + may_dial (link_run s steps) <= may_dial s + count waited s steps + count provisioned s steps.
Proof.
  induction steps as [|st steps IH]; intros s done all Hok.
  - unfold acked, count. cbn. rewrite !app_nil_r. split; [done|lia].
  - destruct (link_turn_ok s st done all Hok) as [H1 H2]. destruct (IH _ _ _ H1) as [H3 H4].
    change (link_run s (st :: steps)) with (link_run (link_turn s st) steps). unfold acked, count in *. cbn [total flat_map].
    split; [by rewrite !app_assoc|]. lia.
Qed.

(** C12. Through any number of lost and refused connections: what was acked, what is
    in the window and what is buffered are the batches submitted, in their
    order, less the ones shed, and every one shed is counted; after the first
    dial each one is paid for by a wait or by a session that got its streams,
    and no wait exceeds fifteen seconds; a session that sends has both streams
    as configured; and the gauge says connected only inside a session. *)
Theorem link_accounts (window : nat) (buffer_bytes : Z) (pub : @JetStreamPublisher P) (srv : server) (steps : list link_step)
    (Hbudget : 0 <= buffer_bytes) (Hinit : publisher_init window buffer_bytes = Ok pub) :
  let s0 := link_init pub srv in
  let s := link_run s0 steps in
  let waiting := acked s0 steps ++ pending (l_pub s) ++ _buffer (l_pub s) in
  waiting `sublist_of` flat_map given steps /\
  Z.of_nat (length (flat_map given steps)) = Z.of_nat (length waiting) + _publish_drops (l_pub s) /\
  count dialled s0 steps <= 1 + count waited s0 steps + count provisioned s0 steps /\
  match l_at s with Backing d => fleb d _CONNECT_BACKOFF_MAX_S = true | _ => True end /\
  (l_at s = Serving ->
     od_get "TELE" (l_server s) = Some (tele_stream vehicle max_age max_bytes) /\ od_get "CMD" (l_server s) = Some (cmd_stream vehicle)) /\
  (_connected s = true -> is_open (l_at s) = true).
Proof.
  assert (Hw : (0 < _window pub)%nat).
  { unfold publisher_init in Hinit. destruct (Nat.leb_spec window 0); [done|]. by injection Hinit as <-. }
  assert (Hi : link_ok (link_init pub srv) [] []).
  { pose proof start_below_max. split; cbn; try done. by eapply init_inv. }
  destruct (link_run_ok steps _ _ _ Hi) as [[A B2 B3 B4 B5 B6 B7] Hd]. destruct A as [A1 A2 A3 A4 A5 A6 A7]. cbn [app] in *.
  cbn zeta. split_and!; try done.
  - rewrite !length_app. lia.
  - unfold may_dial in Hd. cbn [link_init l_at] in Hd. destruct (l_at (link_run (link_init pub srv) steps)); lia.
  - intros Hs. by apply B7.
Qed.

(** * Stopping *)

Definition drain_steps (n : nat) : list link_step := concat (repeat [Fill; Awaited Acked] n) ++ [Fill].

Lemma drains n : forall s,
  l_at s = Serving -> _stopping s = true -> _session_provisioned s = true -> (0 < _window (l_pub s))%nat ->
  length (pending (l_pub s) ++ _buffer (l_pub s)) = n ->
  let s' := link_run s (drain_steps n) in
  l_at s' = Ended /\ pending (l_pub s') ++ _buffer (l_pub s') = [] /\
  _published (l_pub s') = _published (l_pub s) + Z.of_nat n /\ _publish_drops (l_pub s') = _publish_drops (l_pub s).
Proof.
  induction n as [|n IH]; intros s Ea Est Ep Hw Hn; cbn zeta.
  - apply length_zero_iff_nil, app_eq_nil in Hn as [Hpe Hbe].
    assert (E : fill_window len (length (_buffer (l_pub s))) (l_pub s) = l_pub s) by (by rewrite Hbe).
    assert (Hq : l_pub (close_session (with_pub (fun p => fill_window len (length (_buffer p)) p) s)) = _requeue len (l_pub s) /\
      l_at (close_session (with_pub (fun p => fill_window len (length (_buffer p)) p) s)) = Ended).
    { unfold close_session. cbn [with_pub flags _session_provisioned]. rewrite Ep. unfold redial. cbn. by rewrite Est, E. }
    destruct Hq as [Q1 Q2]. change (link_run s (drain_steps 0)) with (link_turn s Fill). unfold link_turn. rewrite Ea.
    cbn zeta. cbn [with_pub l_pub _stopping]. rewrite E, Hpe, Est, Q1, Q2. unfold _requeue. rewrite Hpe, Hbe. cbn.
    split_and!; try done; lia.
  - change (drain_steps (S n)) with (Fill :: Awaited Acked :: drain_steps n). set (p := l_pub s) in *.
    set (p1 := fill_window len (length (_buffer p)) p).
    pose proof (fill_window_shape len (length (_buffer p)) p) as (E1 & E2 & E3 & E4). fold p1 in E1, E2, E3, E4.
    assert (Hpend : pending p1 <> []).
    { destruct (decide (length (_buffer p) = 0)%nat) as [E0|].
      - unfold p1. rewrite E0. cbn. intros Hnil. rewrite Hnil in Hn. cbn in Hn. lia.
      - apply fill_window_pending; [lia|done|]. intros Hnil. by rewrite Hnil in Hn. }
    destruct (pending p1) as [|item rest] eqn:Epend; [done|].
    assert (T1 : link_turn s Fill = with_pub (fun _ => p1) s).
    { unfold link_turn. rewrite Ea. cbn zeta. change (l_pub (with_pub (fun p => fill_window len (length (_buffer p)) p) s)) with p1. by rewrite Epend. }
    assert (T2 : link_turn (with_pub (fun _ => p1) s) (Awaited Acked) = with_pub ack_head (with_pub (fun _ => p1) s)).
    { unfold link_turn. change (l_at (with_pub (fun _ => p1) s)) with (l_at s). rewrite Ea.
      change (l_pub (with_pub (fun _ => p1) s)) with p1. by rewrite Epend. }
    assert (Hrun : link_run s (Fill :: Awaited Acked :: drain_steps n) = link_run (with_pub ack_head (with_pub (fun _ => p1) s)) (drain_steps n))
      by (unfold link_run; cbn [fold_left]; by rewrite T1, T2).
    rewrite Hrun. assert (Ha : pending (ack_head p1) ++ _buffer (ack_head p1) = rest ++ _buffer p1) by (unfold ack_head; by rewrite Epend).
    destruct (IH (with_pub ack_head (with_pub (fun _ => p1) s))) as (H1 & H2 & H3 & H4); try done.
    + cbn [with_pub l_pub]. by rewrite ack_window, E2.
    + cbn [with_pub l_pub]. rewrite Ha. rewrite <- E1 in Hn. cbn in Hn. lia.
    + split_and!; [done..| |].
      * rewrite H3. cbn [with_pub l_pub]. unfold ack_head. rewrite Epend. cbn. rewrite E4. lia.
      * rewrite H4. cbn [with_pub l_pub]. unfold ack_head. rewrite Epend. cbn. by rewrite E3.
Qed.

(** C13. A stop while a session serves sends what is queued first: with a broker
    that acks, the loop ends after as many acks as batches wait, with nothing
    left and nothing shed. *)
Theorem stop_sends_everything (window : nat) (buffer_bytes : Z) (pub : @JetStreamPublisher P) (srv : server) (steps : list link_step)
    (Hbudget : 0 <= buffer_bytes) (Hinit : publisher_init window buffer_bytes = Ok pub)
    (Hserving : l_at (link_run (link_init pub srv) steps) = Serving) :
  let s := link_run (link_init pub srv) steps in
  let n := length (pending (l_pub s) ++ _buffer (l_pub s)) in
  let s' := link_run s (Stop :: drain_steps n) in
  l_at s' = Ended /\ pending (l_pub s') ++ _buffer (l_pub s') = [] /\
  _published (l_pub s') = _published (l_pub s) + Z.of_nat n /\ _publish_drops (l_pub s') = _publish_drops (l_pub s).
Proof.
  assert (Hw : (0 < _window pub)%nat).
  { unfold publisher_init in Hinit. destruct (Nat.leb_spec window 0); [done|]. by injection Hinit as <-. }
  assert (Hi : link_ok (link_init pub srv) [] []).
  { pose proof start_below_max. split; cbn; try done. by eapply init_inv. }
  destruct (link_run_ok steps _ _ _ Hi) as [[_ B2 _ _ _ _ B7] _]. cbn zeta. set (s := link_run (link_init pub srv) steps) in *.
  apply (drains _ (link_turn s Stop)); try done. by apply B7.
Qed.
End Link.

(** * A broker that reboots *)

Module Reboot.
Definition size (p : Z) : Z := Z.abs p.
Definition batch (n : Z) : @_QueuedBatch Z := mkQueued "tele.car7.can" n "id" n.
Definition pub : @JetStreamPublisher Z :=
  match publisher_init 2 100 with Ok p => p | Raise _ => mkPublisher 0 0 [] 0 None 0 0 [] end.
Definition fresh : stream_answers := mkAnswers Absent Added (Ok ()).
Definition there : stream_answers := mkAnswers Found Conflict (Ok ()).
Definition full : stream_answers := mkAnswers Absent (AddFailed (Exn ConnectionFailure "insufficient storage resources")) (Ok ()).
Definition yes : res unit := Ok ().
Definition no : res unit := raise ConnectionFailure "no servers available".
Definition age : float := f_of_Z 10.
Abbreviation run steps := (link_run size "car7" age 1000 (link_init pub []) steps).
Definition morning : list (@link_step Z) :=
  [Submit (batch 1); Dial no; Slept; Dial yes; Open full there yes yes; Submit (batch 2); Slept; Dial yes; Open fresh fresh yes yes;
   Fill; Awaited Acked; Submit (batch 3); Fill; Awaited Failed; Submit (batch 4)].
End Reboot.

Lemma link_accounts_witness :
  l_at (Reboot.run Reboot.morning) = Serving /\
  map q_payload (_buffer (l_pub (Reboot.run Reboot.morning))) = [2; 3; 4] /\
  (acked Reboot.size "car7" Reboot.age 1000 (link_init Reboot.pub []) Reboot.morning ++
     pending (l_pub (Reboot.run Reboot.morning)) ++ _buffer (l_pub (Reboot.run Reboot.morning)))
    `sublist_of` flat_map given Reboot.morning.
Proof.
  split; [vm_compute; reflexivity|]. split; [vm_compute; reflexivity|].
  assert (Hpub : publisher_init 2 100 = Ok Reboot.pub) by (vm_compute; reflexivity).
  pose proof (link_accounts Reboot.size (Hlen := Z.abs_nonneg) "car7" Reboot.age 1000 2 100 Reboot.pub [] Reboot.morning ltac:(lia) Hpub) as (H & _).
  exact H.
Defined.

Lemma stop_sends_everything_witness :
  _published (l_pub (Reboot.run Reboot.morning)) = 1 /\
  exists s', s' = link_run Reboot.size "car7" Reboot.age 1000 (Reboot.run Reboot.morning)
                    (Stop :: drain_steps (length (pending (l_pub (Reboot.run Reboot.morning)) ++ _buffer (l_pub (Reboot.run Reboot.morning))))) /\
    l_at s' = Ended /\ pending (l_pub s') ++ _buffer (l_pub s') = [].
Proof.
  split; [vm_compute; reflexivity|]. eexists. split; [reflexivity|].
  assert (Hpub : publisher_init 2 100 = Ok Reboot.pub) by (vm_compute; reflexivity).
  assert (Hserving : l_at (Reboot.run Reboot.morning) = Serving) by (vm_compute; reflexivity).
  pose proof (stop_sends_everything Reboot.size (Hlen := Z.abs_nonneg) "car7" Reboot.age 1000 2 100 Reboot.pub [] Reboot.morning
    ltac:(lia) Hpub Hserving) as (H1 & H2 & _).
  split; [exact H1|exact H2].
Defined.

(** A server that has the streams but refuses the registry is dialled again
    with no wait at all, as often as it refuses. *)
Example refused_registry_is_not_waited_out :
  let again := [Dial Reboot.yes; Open Reboot.there Reboot.there Reboot.no Reboot.yes] in
  l_at (Reboot.run (again ++ again ++ again)) = Dialing /\
  count Reboot.size "car7" Reboot.age 1000 (waited (P := Z)) (link_init Reboot.pub []) (again ++ again ++ again) = 0.
Proof. vm_compute. repeat split. Qed.
