(* ===== verification/RegistryCache.v ===== *)
(** The decode half every pit consumer shares ([src/pit/registry_cache.py]):
    registry generations, and sample batches resolved against exactly the
    generation they were encoded with.

    [pit_reads_what_the_car_captured] composes it with the catalog and the
    batcher: it is the contract of the wire format, end to end. *)

From S2P Require Import Prelude PyFloat Config Wire Catalog Batcher.

Local Open Scope Z_scope.

Definition MSG_TYPE_HEADER : string := "Openlaps-Msg-Type".
Definition MSG_TYPE_REGISTRY : string := "registry".
Definition REGISTRY_SOURCE_CLASS : string := "catalog".

Definition supported (format_version : Z) : bool := (format_version =? 0) || (format_version =? 1).

Inductive reject := REJECT_UNKNOWN_SEQ | REJECT_BAD_VERSION.

Record DecodedSample := mkDecoded {
  ds_capture_unix_ms : float;
  ds_channel : Channel;
  ds_value : option SampleValue
}.

Record DecodedBatch := mkDecodedBatch {
  db_registry_seq : Z;
  db_epoch_unix_ms : Z;
  db_epoch_mono_ns : Z;
  db_samples : list DecodedSample
}.

Record RegistryCache := mkCache {
  _registries : gmap Z ChannelRegistry;
  _channels : gmap Z (gmap Z Channel);
  unknown_seqs : gset Z;
  bad_versions : gset Z;
  unknown_seq_batches : Z;
  bad_version_batches : Z
}.

Definition cache_init : RegistryCache := mkCache ∅ ∅ ∅ ∅ 0 0.

(** The dictionary of a registry's channels: the last of equal ids wins. *)
Definition channel_table (channels : list Channel) : gmap Z Channel :=
  fold_left (fun m ch => <[c_id ch := ch]> m) channels ∅.

Definition add_registry (self : RegistryCache) (registry : ChannelRegistry) : RegistryCache :=
  let seq := r_registry_seq registry in
  mkCache (<[seq := registry]> (_registries self))
    (<[seq := channel_table (r_channels registry)]> (_channels self))
    (unknown_seqs self ∖ {[seq]}) (bad_versions self) (unknown_seq_batches self) (bad_version_batches self).

Definition cache_known (self : RegistryCache) (seq : Z) : bool := bool_decide (is_Some (_channels self !! seq)).

(** [sorted] over the generations held. *)
Definition generations (self : RegistryCache) : list Z :=
  sort_by Z.leb (map fst (map_to_list (_registries self))).

(** The value a wire sample carries, if any. *)
Definition wire_to_value (w : option wire_value) : option SampleValue :=
  match w with
  | Some (W_d x) | Some (W_f x) => Some (VFloat x)
  | Some (W_i z) | Some (W_u z) => Some (VInt z)
  | Some (W_b b) => Some (VBool b)
  | Some (W_s s) => Some (VStr s)
  | None => None
  end.

(** physical = wire * scale + offset, when a scale is declared. *)
Definition physical (channel : Channel) (v : option SampleValue) : option SampleValue :=
  if ftruthy (c_scale channel) then
    match v with
    | Some (VFloat x) => Some (VFloat (fadd (fmul x (c_scale channel)) (c_offset channel)))
    | Some (VInt z) => Some (VFloat (fadd (fmul (f_of_Z z) (c_scale channel)) (c_offset channel)))
    | _ => v
    end
  else v.

Definition decode_sample (channels : gmap Z Channel) (epoch_unix_ms : Z) (s : PbSample) : option DecodedSample :=
  match channels !! p_channel_id s with
  | None => None
  | Some channel =>
      Some (mkDecoded
        (fadd (f_of_Z epoch_unix_ms) (fdiv_ieee (f_of_Z (p_t_offset_us s)) (f_of_Z 1000)))
        channel (physical channel (wire_to_value (p_value s))))
  end.

Definition decode_batch (self : RegistryCache) (batch : SampleBatch)
    : RegistryCache * (DecodedBatch + reject) :=
  if negb (supported (b_format_version batch)) then
    (mkCache (_registries self) (_channels self) (unknown_seqs self)
       ({[b_format_version batch]} ∪ bad_versions self) (unknown_seq_batches self)
       (bad_version_batches self + 1), inr REJECT_BAD_VERSION)
  else
    match _channels self !! b_registry_seq batch with
    | None =>
        (mkCache (_registries self) (_channels self) ({[b_registry_seq batch]} ∪ unknown_seqs self)
           (bad_versions self) (unknown_seq_batches self + 1) (bad_version_batches self),
         inr REJECT_UNKNOWN_SEQ)
    | Some channels =>
        (self, inl (mkDecodedBatch (b_registry_seq batch) (b_epoch_unix_ms batch) (b_epoch_mono_ns batch)
                      (omap (decode_sample channels (b_epoch_unix_ms batch)) (b_samples batch))))
    end.

Section Decode.
Context `{Codec}.

(** [ParseFromString] raises on bytes that are not a message. *)
Definition decode_or_reason (self : RegistryCache) (data : payload)
    : RegistryCache * res (DecodedBatch + reject) :=
  match parse_batch data with
  | None => (self, raise DecodeError "Error parsing message")
  | Some batch => let '(self, r) := decode_batch self batch in (self, Ok r)
  end.

(** * Hard generation equality *)

(** A batch is decoded only with a supported format and against exactly the
    generation it names; every decoded sample uses a channel of that
    generation, and the refusals are counted. *)
Theorem decode_is_guarded (self self' : RegistryCache) (batch : SampleBatch) (r : DecodedBatch + reject)
    (Hdecode : decode_batch self batch = (self', r)) :
  match r with
  | inl d =>
      self' = self /\ supported (b_format_version batch) = true /\ db_registry_seq d = b_registry_seq batch /\
      exists channels, _channels self !! b_registry_seq batch = Some channels /\
        Forall (fun s => exists id, channels !! id = Some (ds_channel s)) (db_samples d)
  | inr REJECT_BAD_VERSION =>
      supported (b_format_version batch) = false /\ bad_version_batches self' = bad_version_batches self + 1 /\
      _channels self' = _channels self
  | inr REJECT_UNKNOWN_SEQ =>
      _channels self !! b_registry_seq batch = None /\
      unknown_seq_batches self' = unknown_seq_batches self + 1 /\
      b_registry_seq batch ∈ unknown_seqs self' /\ _channels self' = _channels self
  end.
Proof.
  unfold decode_batch in Hdecode. destruct (supported _); simpl in Hdecode; [|by injection Hdecode as <- <-].
  destruct (_channels self !! b_registry_seq batch) as [channels|] eqn:Ec; injection Hdecode as <- <-; simpl.
  - split_and!; try done. exists channels; split; [done|]. apply Forall_forall.
    intros d (s & _ & Hd)%list_elem_of_omap. unfold decode_sample in Hd.
    destruct (channels !! p_channel_id s) eqn:El; [|done]. injection Hd as <-; eauto.
  - split_and!; try done. set_solver.
Qed.

(** * End to end *)

Lemma channel_table_lookup channels ch :
  NoDup (map c_id channels) -> ch ∈ channels -> channel_table channels !! c_id ch = Some ch.
Proof.
  unfold channel_table. induction channels as [|x l IH] using rev_ind; [by intros _ ?%elem_of_nil|].
  rewrite map_app, fold_left_app; simpl. intros (Hn & Hd & _)%NoDup_app.
  intros [Hin| ->%list_elem_of_singleton]%elem_of_app; [|by rewrite lookup_insert_eq].
  rewrite lookup_insert_ne; [by apply IH|]. intros Heq.
  apply (Hd (c_id ch)); [by apply list_elem_of_In, in_map, list_elem_of_In | rewrite <- Heq; left].
Qed.

(** The registry of a built catalog, as the agent announces it. *)
Definition registry_of (c : RuntimeCatalog) (seq : Z) (vehicle : string) (created : Z) : ChannelRegistry :=
  mkRegistry seq vehicle created (registry_channels c).

Lemma registered_policy c id pol :
  catalog_wf c -> policies_by_id c !! id = Some pol ->
  exists ch, channel_table (registry_channels c) !! id = Some ch /\
    c_id ch = id /\ c_name ch = pol_name pol /\ c_type ch = pol_value_type pol /\
    c_scale ch = pol_scale pol /\ c_offset ch = pol_offset pol.
Proof.
  intros Hwf Hp. assert (Hid : id ∈ map c_id (registry_channels c)) by (apply (wf_known _ Hwf); by exists pol).
  apply list_elem_of_In, in_map_iff in Hid as (ch & <- & Hin%list_elem_of_In).
  exists ch; split; [apply channel_table_lookup; [apply (wf_ids _ Hwf) | done]|].
  destruct (wf_registry _ Hwf ch Hin) as (q & Hq & Hch).
  apply (wf_policy _ Hwf) in Hq as [Hq _]. rewrite Hp in Hq; injection Hq as <-.
  rewrite Hch; simpl. done.
Qed.

(** The value the pit reads for a captured one: what the policy encodes,
    unscaled; and, on a channel with no scale, the captured value itself. *)
Definition reads_as (pol : ChannelPolicy) (v : SampleValue) (d : DecodedSample) : Prop :=
  c_name (ds_channel d) = pol_name pol /\ c_type (ds_channel d) = pol_value_type pol /\
  (exists w, _encode_value v pol = Ok w /\ ds_value d = physical (ds_channel d) (wire_to_value (Some w))) /\
  (ftruthy (pol_scale pol) = false ->
     match pol_value_type pol, v with
     | DOUBLE, VFloat _ | INT64, VInt _ | UINT, VInt _ | BOOL, VBool _ | STRING, VStr _ => ds_value d = Some v
     | _, _ => True
     end).

Definition captured_at (epoch_unix_ms epoch_mono_ns : Z) (s : Sample) (d : DecodedSample) : Prop :=
  ds_capture_unix_ms d =
    fadd (f_of_Z epoch_unix_ms) (fdiv_ieee (f_of_Z ((s_t_mono_ns s - epoch_mono_ns) / 1000)) (f_of_Z 1000)).

Lemma wire_int_exact z pol : ftruthy (pol_scale pol) = false -> wire_int (NInt z) pol = Ok z.
Proof. unfold wire_int; by intros ->. Qed.

Lemma encode_exact v pol w :
  ftruthy (pol_scale pol) = false -> _encode_value v pol = Ok w ->
  match pol_value_type pol, v with
  | DOUBLE, VFloat _ | INT64, VInt _ | UINT, VInt _ | BOOL, VBool _ | STRING, VStr _ =>
      wire_to_value (Some w) = Some v
  | _, _ => True
  end.
Proof.
  intros Hs; unfold _encode_value. destruct (pol_value_type pol), v; try done; simpl; try by intros [= <-].
  - rewrite wire_int_exact by done; simpl. by intros (y & (-> & _)%pb_int_Ok & [= <-])%res_bind_Ok.
  - rewrite wire_int_exact by done; simpl. destruct (z <? 0); [done|].
    by intros (y & (-> & _)%pb_int_Ok & [= <-])%res_bind_Ok.
Qed.

Lemma decode_wire_sample c epoch_unix epoch_mono tick id s w :
  catalog_wf c -> wire_of (policies_by_id c) tick epoch_mono (id, s) w ->
  exists d pol, decode_sample (channel_table (registry_channels c)) epoch_unix w = Some d /\
    policies_by_id c !! id = Some pol /\ c_id (ds_channel d) = id /\
    reads_as pol (s_value s) d /\ captured_at epoch_unix epoch_mono s d.
Proof.
  intros Hwf (Hid & Ht & Hoff & pol & v & Hp & Henc & Hv); simpl in *.
  destruct (registered_policy c id pol Hwf Hp) as (ch & Hch & Hcid & Hname & Hty & Hsc & Hof).
  unfold decode_sample; rewrite Hid, Hch, Hv. eexists _, pol; split; [done|]; simpl.
  split_and!; try done.
  - split_and!; try done; [by exists v|]. intros Hs; simpl. unfold physical; rewrite Hsc, Hs.
    pose proof (encode_exact _ _ _ Hs Henc). destruct (pol_value_type pol), (s_value s); done.
  - unfold captured_at; simpl. do 3 f_equal.
    assert (p_t_offset_us w = (s_t_mono_ns s - epoch_mono) / 1000) as ->; [|done].
    apply Z.div_unique with (r := s_t_mono_ns s - epoch_mono - 1000 * p_t_offset_us w); lia.
Qed.

Lemma decode_wire_samples c epoch_unix epoch_mono tick items ws :
  catalog_wf c -> Forall2 (wire_of (policies_by_id c) tick epoch_mono) items ws ->
  Forall2 (fun item d => exists pol, policies_by_id c !! item.1 = Some pol /\
             c_id (ds_channel d) = item.1 /\ reads_as pol (s_value item.2) d /\
             captured_at epoch_unix epoch_mono item.2 d)
    items (omap (decode_sample (channel_table (registry_channels c)) epoch_unix) ws).
Proof.
  intros Hwf; induction 1 as [|[id s] w items ws Hw _ IH]; simpl; [constructor|].
  destruct (decode_wire_sample c epoch_unix _ _ _ _ _ Hwf Hw) as (d & pol & Hd & Hp & H1 & H2 & H3).
  rewrite Hd; constructor; [|done]. exists pol; done.
Qed.

Context `{!CodecLaws}.

(** C1. End to end: a pit that holds the car's registry generation reads, from
    every payload a tick emits, every sample of that source class in order,
    on the catalog's channel, at its capture time to the microsecond, with
    the value the policy encodes, and with the captured value itself on a
    channel without a scale. *)
Theorem pit_reads_what_the_car_captured (c : RuntimeCatalog) (seq created unix_ms mono_ns : Z)
    (vehicle : string) (b : Batcher) (cache : RegistryCache) (emitted : list (string * payload))
    (Hwf : catalog_wf c) (Hseq : bt_registry_seq b = seq) (Hpol : bt_policies b = policies_by_id c)
    (Htick : (tick b unix_ms mono_ns).2 = Ok emitted) :
  Forall2 (fun entry out =>
      exists d, (decode_or_reason (add_registry cache (registry_of c seq vehicle created)) out.2).2 = Ok (inl d) /\
        out.1 = entry.1 /\ db_epoch_mono_ns d = mono_ns /\
        Forall2 (fun item s => exists pol, policies_by_id c !! item.1 = Some pol /\
                   c_id (ds_channel s) = item.1 /\ reads_as pol (s_value item.2) s /\
                   captured_at unix_ms mono_ns item.2 s)
          entry.2 (db_samples d))
    (bt_pending b) emitted.
Proof.
  apply tick_emitted in Htick. eapply Forall2_impl; [exact Htick|].
  intros entry out (m & Hm & (Hcls & Hs & Hu & Hmo & Hv & HF)); simpl in *.
  unfold decode_or_reason; rewrite Hm. unfold decode_batch; rewrite Hv, Hs, Hseq; simpl.
  rewrite lookup_insert_eq; simpl. eexists; split; [reflexivity|]; simpl.
  split_and!; [done..|]. rewrite Hu. rewrite Hpol in HF. by eapply decode_wire_samples.
Qed.
End Decode.

(** * A concrete wire: one plain and one fixed-point channel *)

#[local] Existing Instance TaggedCodec.
#[local] Existing Instance TaggedCodecLaws.

Module Link.
Definition channels : channels_t := [
  ("speed", mkChannelConfig "can0:1.speed" "m/s" ch_double None None);
  ("temp", mkChannelConfig "can0:2.temp" "K" ch_double None (Some (mkEncodeConfig enc_uint (f_of_ratio 1 10) f0)))].
Definition catalog : RuntimeCatalog :=
  match build channels [] with Ok c => c | Raise _ => empty_catalog end.
Lemma catalog_ok : catalog_wf catalog.
Proof.
  apply (build_consistent channels []); [|vm_compute; reflexivity|vm_compute; reflexivity].
  repeat constructor; vm_compute; set_solver.
Qed.
Definition speed : Sample := mkSample "can0:1.speed" 100000000 f0 (VFloat (f_of_ratio 425 10)).
Definition temp : Sample := mkSample "can0:2.temp" 100250500 f0 (VFloat (f_of_ratio 30002 100)).
Definition batcher : Batcher :=
  mkBatcher 7 (policies_by_id catalog) 20000 20000000 [("can", [(1, speed); (2, temp)])].
Definition emitted := match (tick batcher 1000 100000000).2 with Ok l => l | Raise _ => [] end.
Definition read := (decode_or_reason (add_registry cache_init (registry_of catalog 7 "car" 0))
                      (match emitted with (_, p) :: _ => p | [] => inr (mkRegistry 0 "" 0 []) end)).2.
End Link.

Lemma pit_reads_what_the_car_captured_witness :
  match Link.read with
  | Ok (inl d) => map ds_value (db_samples d) = [Some (VFloat (f_of_ratio 425 10)); Some (VFloat (f_of_Z 300))]
  | _ => False
  end /\
  Forall2 (fun entry out =>
      exists d, (decode_or_reason (add_registry cache_init (registry_of Link.catalog 7 "car" 0)) out.2).2 = Ok (inl d) /\
        out.1 = entry.1 /\ db_epoch_mono_ns d = 100000000 /\
        Forall2 (fun item s => exists pol, policies_by_id Link.catalog !! item.1 = Some pol /\
                   c_id (ds_channel s) = item.1 /\ reads_as pol (s_value item.2) s /\
                   captured_at 1000 100000000 item.2 s)
          entry.2 (db_samples d))
    (bt_pending Link.batcher) Link.emitted.
Proof.
  split; [vm_compute; reflexivity|].
  apply (pit_reads_what_the_car_captured Link.catalog 7 0 1000 100000000 "car" Link.batcher cache_init).
  - exact Link.catalog_ok.
  - reflexivity.
  - reflexivity.
  - vm_compute; reflexivity.
Defined.

Lemma decode_is_guarded_witness :
  match (decode_batch cache_init (mkSampleBatch 9 0 0 [] 1)).2 with
  | inr REJECT_UNKNOWN_SEQ =>
      _channels cache_init !! 9 = None /\
      unknown_seq_batches (decode_batch cache_init (mkSampleBatch 9 0 0 [] 1)).1 = 0 + 1 /\
      9 ∈ unknown_seqs (decode_batch cache_init (mkSampleBatch 9 0 0 [] 1)).1 /\
      _channels (decode_batch cache_init (mkSampleBatch 9 0 0 [] 1)).1 = ∅
  | _ => False
  end.
Proof.
  exact (decode_is_guarded cache_init (decode_batch cache_init (mkSampleBatch 9 0 0 [] 1)).1
           (mkSampleBatch 9 0 0 [] 1) (inr REJECT_UNKNOWN_SEQ) eq_refl).
Defined.
