(* ===== verification/Laps.v ===== *)
(** Lap rows from [lap.event] payloads ([src/pit/ingest_writer/laps.py]).

    What the platform computes is a parameter: [json.loads] ([None] is a
    decoding error), [str] of a decoded object, and the numbers a string
    denotes. Instants are microseconds since the epoch. *)

From Stdlib Require Import Sorted.
From S2P Require Import Prelude PyFloat.

Local Open Scope Z_scope.

Definition _MAX_BUFFERED_SECTORS : nat := 64.

Record SectorRow := mkSector {
  sr_sector : Z;
  sr_split_time_s : option float;
  sr_crossed_at : Z
}.

Record LapRow := mkLap {
  lr_vehicle_id : string;
  lr_session_id : option string;
  lr_stint_number : option Z;
  lr_track_name : option string;
  lr_lap_number : Z;
  lr_crossed_at : Z;
  lr_lap_time_s : option float;
  lr_valid : bool;
  lr_pit_status : option string;
  lr_direction : option string;
  lr_sectors : list SectorRow
}.

Record PitStatusUpdate := mkPit { pu_vehicle_id : string; pu_at : Z; pu_pit_status : string }.

(** What [observe] returns. *)
Inductive lap_out :=
  | NoRow
  | Lap (row : LapRow)
  | Pit (update : PitStatusUpdate).

Definition sector_buffer := list ((Z * Z) * SectorRow).

Record LapMaterialiser := mkLM {
  lm_vehicle_id : string;
  _sectors : sector_buffer;
  _highest_lap_number : option Z;
  malformed_events : Z;
  unknown_event_types : gset string;
  engine_restarts : Z;
  laps_materialised : Z;
  sectors_materialised : Z
}.

Definition lm_init (vehicle_id : string) : LapMaterialiser := mkLM vehicle_id [] None 0 ∅ 0 0 0.

Definition set_buffer (self : LapMaterialiser) (b : sector_buffer) : LapMaterialiser :=
  mkLM (lm_vehicle_id self) b (_highest_lap_number self) (malformed_events self)
    (unknown_event_types self) (engine_restarts self) (laps_materialised self) (sectors_materialised self).
Definition count_malformed (self : LapMaterialiser) : LapMaterialiser :=
  mkLM (lm_vehicle_id self) (_sectors self) (_highest_lap_number self) (malformed_events self + 1)
    (unknown_event_types self) (engine_restarts self) (laps_materialised self) (sectors_materialised self).
Definition note_unknown (self : LapMaterialiser) (t : string) : LapMaterialiser :=
  mkLM (lm_vehicle_id self) (_sectors self) (_highest_lap_number self) (malformed_events self)
    ({[t]} ∪ unknown_event_types self) (engine_restarts self) (laps_materialised self)
    (sectors_materialised self).

(** * Fields *)

Definition _as_int (v : obj) : res (option Z) :=
  match v with
  | OInt z => Ok (Some z)
  | OFloat x => z ← f_trunc x; Ok (Some z)
  | _ => Ok None
  end.

Definition _as_float (v : obj) : res (option float) :=
  match v with
  | OInt z => x ← float_of_int z; Ok (Some x)
  | OFloat x => Ok (Some x)
  | _ => Ok None
  end.

Definition _as_str (v : obj) : option string :=
  match v with OStr s => if String.eqb s "" then None else Some s | _ => None end.

(** Lexicographic order of the buffer's keys. *)
Definition key_leb (a b : Z * Z) : bool := (a.1 <? b.1) || ((a.1 =? b.1) && (a.2 <=? b.2)).

(** [min] over the keys. *)
Definition min_key (b : sector_buffer) : option (Z * Z) :=
  match b with
  | [] => None
  | (k, _) :: rest => Some (fold_left (fun m kv => if key_leb m kv.1 then m else kv.1) rest k)
  end.

Section Laps.
Context (json_loads : string -> option obj) (py_str : obj -> string).
Context (float_of_str : string -> res float) (int_of_str : string -> res Z).

(** [float(v)] and [int(v)] of a decoded object. *)
Definition py_float (v : obj) : res float :=
  match v with
  | OFloat x => Ok x
  | OInt z => float_of_int z
  | OBool b => Ok (if b then f_of_Z 1 else f0)
  | OStr s => float_of_str s
  | _ => raise TypeError "float() argument must be a string or a real number"
  end.
Definition py_int (v : obj) : res Z :=
  match v with
  | OInt z => Ok z
  | OFloat x => f_trunc x
  | OBool b => Ok (if b then 1 else 0)
  | OStr s => int_of_str s
  | _ => raise TypeError "int() argument must be a string or a real number"
  end.

Record event := mkEv {
  le_decoded : list (string * obj);
  le_type : string;
  le_at : Z;
  le_lap_number : Z
}.

(** Every exception of the [try] body is caught, so a failure is [None]. *)
Definition _parse (payload : string) : option event :=
  match json_loads payload with
  | Some (ODict decoded) =>
      match od_get "type" decoded, od_get "time" decoded, od_get "lap_number" decoded with
      | Some t, Some time, Some n =>
          match (x ← py_float time; at_us ← fromtimestamp x; n ← py_int n; Ok (at_us, n)) with
          | Ok (at_us, n) => Some (mkEv decoded (py_str t) at_us n)
          | Raise _ => None
          end
      | _, _, _ => None
      end
  | _ => None
  end.

(** The lap counter: a number that goes backwards is a rebuilt engine. *)
Definition track_lap (self : LapMaterialiser) (lap_number : Z) : LapMaterialiser :=
  match _highest_lap_number self with
  | Some h =>
      if lap_number <? h then
        mkLM (lm_vehicle_id self) [] (Some lap_number) (malformed_events self)
          (unknown_event_types self) (engine_restarts self + 1) (laps_materialised self)
          (sectors_materialised self)
      else
        mkLM (lm_vehicle_id self) (_sectors self) (Some (Z.max lap_number h)) (malformed_events self)
          (unknown_event_types self) (engine_restarts self) (laps_materialised self)
          (sectors_materialised self)
  | None =>
      mkLM (lm_vehicle_id self) (_sectors self) (Some (Z.max lap_number 0)) (malformed_events self)
        (unknown_event_types self) (engine_restarts self) (laps_materialised self)
        (sectors_materialised self)
  end.

Definition _buffer_sector (self : LapMaterialiser) (e : event) : LapMaterialiser * res lap_out :=
  match _as_int (oget "sector" (le_decoded e)) with
  | Raise ex => (self, Raise ex)
  | Ok None => (count_malformed self, Ok NoRow)
  | Ok (Some sector) =>
      let self :=
        if (_MAX_BUFFERED_SECTORS <=? length (_sectors self))%nat then
          match min_key (_sectors self) with
          | Some oldest => set_buffer self (od_del oldest (_sectors self))
          | None => self
          end
        else self in
      match _as_float (oget "split_time" (le_decoded e)) with
      | Raise ex => (self, Raise ex)
      | Ok split =>
          (set_buffer self (od_set (le_lap_number e, sector) (mkSector sector split (le_at e)) (_sectors self)),
           Ok NoRow)
      end
  end.

Definition row_leb (a b : (Z * Z) * SectorRow) : bool := key_leb a.1 b.1.

(** The sectors buffered for a lap, by sector number. *)
Definition sectors_of (b : sector_buffer) (lap_number : Z) : list SectorRow :=
  map snd (filter (fun kv => kv.1.1 = lap_number) (sort_by row_leb b)).

Definition _complete_lap (self : LapMaterialiser) (e : event) : LapMaterialiser * res lap_out :=
  let d := le_decoded e in
  let sectors := sectors_of (_sectors self) (le_lap_number e) in
  let self :=
    mkLM (lm_vehicle_id self) (filter (fun kv => kv.1.1 <> le_lap_number e) (_sectors self))
      (_highest_lap_number self) (malformed_events self) (unknown_event_types self)
      (engine_restarts self) (laps_materialised self + 1)
      (sectors_materialised self + Z.of_nat (length sectors)) in
  (self,
   stint ← _as_int (oget "stint_number" d);
   lap_time ← _as_float (oget "lap_time" d);
   Ok (Lap (mkLap (lm_vehicle_id self) (_as_str (oget "session_id" d)) stint (_as_str (oget "track_name" d))
              (le_lap_number e) (le_at e) lap_time (obj_truthy (ogetd "valid" (OBool true) d))
              (_as_str (oget "pit_status" d)) (_as_str (oget "direction" d)) sectors))).

Definition lm_observe (self : LapMaterialiser) (payload : string) : LapMaterialiser * res lap_out :=
  match _parse payload with
  | None => (count_malformed self, Ok NoRow)
  | Some e =>
      let self := track_lap self (le_lap_number e) in
      if String.eqb (le_type e) "sector_completed" then _buffer_sector self e
      else if String.eqb (le_type e) "lap_completed" then _complete_lap self e
      else if String.eqb (le_type e) "pit_entry" || String.eqb (le_type e) "pit_exit" then
        (self, Ok (Pit (mkPit (lm_vehicle_id self) (le_at e)
                 (match oget "pit_status" (le_decoded e) with
                  | ONone => le_type e | status => py_str status end))))
      else (note_unknown self (le_type e), Ok NoRow)
  end.

(** The state after a stream of payloads. *)
Definition lm_run (vehicle_id : string) (payloads : list string) : LapMaterialiser :=
  fold_left (fun s p => (lm_observe s p).1) payloads (lm_init vehicle_id).

(** * The buffer *)

Definition buffer_wf (b : sector_buffer) : Prop :=
  od_wf b /\ (length b <= _MAX_BUFFERED_SECTORS)%nat /\
  forall k row, (k, row) ∈ b -> sr_sector row = k.2.

Lemma od_del_in k (b : sector_buffer) x : x ∈ od_del k b -> x ∈ b.
Proof. unfold od_del; by intros [_ ?]%list_elem_of_filter. Qed.

Lemma filter_wf (P : (Z * Z) * SectorRow -> Prop) `{!forall x, Decision (P x)} b :
  buffer_wf b -> buffer_wf (filter P b).
Proof.
  intros (H1 & H2 & H3); split_and!.
  - unfold od_wf, od_keys in *. apply (sublist_NoDup _ (b.*1)); [done|].
    apply fmap_sublist, sublist_filter.
  - etransitivity; [apply length_filter | done].
  - intros k row [_ Hin]%list_elem_of_filter; eauto.
Qed.

Lemma length_od_set (b : sector_buffer) k v :
  (length (od_set k v b) <= length b + 1)%nat /\ (od_get k b <> None -> length (od_set k v b) = length b).
Proof.
  induction b as [|[k' v'] b IH]; simpl; [by split; [lia|]|].
  case_decide; simpl; [by split; [lia|]|]. destruct IH as [IH1 IH2]; split; [lia | intros; f_equal; auto].
Qed.

Lemma od_set_in (b : sector_buffer) k v x : x ∈ od_set k v b -> x = (k, v) \/ x ∈ b.
Proof.
  induction b as [|[k' v'] b IH]; simpl; [intros ->%list_elem_of_singleton; by left|].
  case_decide; rewrite !elem_of_cons; naive_solver.
Qed.

Lemma min_key_in (b : sector_buffer) k : min_key b = Some k -> k ∈ b.*1.
Proof.
  destruct b as [|[k0 v0] b]; simpl; [done|]. intros [= <-].
  revert k0; induction b as [|[k1 v1] b IH]; intros k0; simpl; [left|].
  destruct (key_leb k0 k1).
  - specialize (IH k0); rewrite !elem_of_cons in *; naive_solver.
  - specialize (IH k1); rewrite !elem_of_cons in *; naive_solver.
Qed.

Lemma od_del_shorter k (b : sector_buffer) : k ∈ b.*1 -> (length (od_del k b) < length b)%nat.
Proof.
  intros ([k' v] & -> & Hin)%list_elem_of_fmap; simpl. unfold od_del.
  apply length_filter_lt with (x := (k', v)); [done | naive_solver].
Qed.

(** Room is made before a sector is stored. *)
Lemma buffer_sector_wf self e :
  buffer_wf (_sectors self) -> buffer_wf (_sectors (_buffer_sector self e).1).
Proof.
  intros Hwf; unfold _buffer_sector.
  destruct (_as_int _) as [[sector|]|]; [|done..].
  set (self1 := if (_ <=? _)%nat then _ else self).
  assert (H1 : buffer_wf (_sectors self1) /\ (length (_sectors self1) < _MAX_BUFFERED_SECTORS)%nat).
  { unfold self1. destruct (Nat.leb_spec _MAX_BUFFERED_SECTORS (length (_sectors self))) as [Hle|]; [|done].
    destruct (min_key (_sectors self)) as [k|] eqn:Ek; simpl.
    - apply min_key_in in Ek. pose proof (od_del_shorter _ _ Ek). split; [by apply filter_wf|].
      destruct Hwf as (_ & Hl & _); lia.
    - destruct (_sectors self) as [|[]]; [simpl in Hle; unfold _MAX_BUFFERED_SECTORS in Hle; lia | done]. }
  clearbody self1; destruct H1 as [(Hnd & _ & Hsec) Hlt].
  destruct (_as_float _) as [split|]; simpl; [|split_and!; [done | lia | done]].
  split_and!; [by apply od_set_wf | pose proof (length_od_set (_sectors self1) (le_lap_number e, sector)
    (mkSector sector split (le_at e))) as [? _]; lia|].
  intros k row [[= -> ->]|Hin]%od_set_in; [done | eauto].
Qed.

Lemma track_lap_wf self n : buffer_wf (_sectors self) -> buffer_wf (_sectors (track_lap self n)).
Proof.
  intros Hwf; unfold track_lap. destruct (_highest_lap_number self); [|done].
  destruct (_ <? _); [|done]. split_and!; simpl; [constructor | unfold _MAX_BUFFERED_SECTORS; lia|].
  by intros ?? ?%elem_of_nil.
Qed.

Lemma lm_observe_wf self payload :
  buffer_wf (_sectors self) -> buffer_wf (_sectors (lm_observe self payload).1).
Proof.
  intros Hwf; unfold lm_observe. destruct (_parse payload) as [e|]; [|done].
  pose proof (track_lap_wf self (le_lap_number e) Hwf) as Hwf'.
  destruct (String.eqb _ _); [by apply buffer_sector_wf|].
  destruct (String.eqb _ _); [by apply filter_wf|].
  by destruct (_ || _).
Qed.

Lemma sector_buffer_wf (vehicle_id : string) (payloads : list string) :
  buffer_wf (_sectors (lm_run vehicle_id payloads)).
Proof.
  unfold lm_run. assert (H0 : buffer_wf (_sectors (lm_init vehicle_id))).
  { split_and!; simpl; [constructor | lia | by intros ?? ?%elem_of_nil]. }
  revert H0; generalize (lm_init vehicle_id) as s.
  induction payloads as [|p ps IH]; intros s Hs; simpl; [done|]. by apply IH, lm_observe_wf.
Qed.

(** Parked mid-lap or not, at most 64 sectors are buffered, each under its own
    lap and sector number. *)
Theorem sector_buffer_bounded (vehicle_id : string) (payloads : list string) :
  (length (_sectors (lm_run vehicle_id payloads)) <= 64)%nat /\
  NoDup (_sectors (lm_run vehicle_id payloads)).*1.
Proof. by destruct (sector_buffer_wf vehicle_id payloads) as (H1 & H2 & _). Qed.

(** * Which sectors a lap row gets *)

Lemma lm_run_snoc v ps p : lm_run v (ps ++ [p]) = (lm_observe (lm_run v ps) p).1.
Proof. unfold lm_run; by rewrite fold_left_app. Qed.

Lemma key_leb_total : leb_total row_leb.
Proof.
  intros [[a b] r] [[a' b'] r']; unfold row_leb, key_leb; simpl.
  destruct (Z.ltb_spec a a'), (Z.eqb_spec a a'), (Z.leb_spec b b'), (Z.ltb_spec a' a),
    (Z.eqb_spec a' a), (Z.leb_spec b' b); simpl; auto; lia.
Qed.

Lemma key_leb_trans : leb_trans row_leb.
Proof.
  intros [[a b] r] [[a' b'] r'] [[c d] r'']; unfold row_leb, key_leb; simpl.
  rewrite !orb_true_iff, !andb_true_iff, !Z.ltb_lt, !Z.eqb_eq, !Z.leb_le. lia.
Qed.

(** The row's sectors are those buffered for its lap, in increasing order. *)
Lemma sectors_of_in b n row :
  row ∈ sectors_of b n <-> exists k, (k, row) ∈ b /\ k.1 = n.
Proof.
  unfold sectors_of. rewrite list_elem_of_In, in_map_iff. split.
  - intros ([k r] & <- & Hin%list_elem_of_In). apply list_elem_of_filter in Hin as [Hk Hin].
    rewrite sort_by_perm in Hin. eauto.
  - intros (k & Hin & Hk). exists (k, row); split; [done|]. apply list_elem_of_In, list_elem_of_filter.
    split; [done|]. by rewrite sort_by_perm.
Qed.

Definition sector_lt (a b : SectorRow) : Prop := sr_sector a < sr_sector b.

Lemma sectors_of_sorted b n : buffer_wf b -> StronglySorted sector_lt (sectors_of b n).
Proof.
  intros (Hnd & _ & Hsec). unfold sectors_of.
  assert (Hs : sorted_by row_leb (sort_by row_leb b)) by (apply sort_by_sorted; [apply key_leb_total | apply key_leb_trans]).
  assert (Hn : NoDup ((sort_by row_leb b).*1)) by (rewrite sort_by_perm; exact Hnd).
  assert (Hk : forall k row, (k, row) ∈ sort_by row_leb b -> sr_sector row = k.2).
  { intros k row Hin; rewrite sort_by_perm in Hin; eauto. }
  clear Hnd Hsec; revert Hs Hn Hk; generalize (sort_by row_leb b) as l; clear b.
  induction l as [|[k r] l IH]; [constructor|].
  intros [Hr Hs] [Hni Hn]%NoDup_cons Hk. rewrite filter_cons; simpl.
  assert (IH' := IH Hs Hn (fun k row Hin => Hk k row (proj2 (elem_of_cons _ _ _) (or_intror Hin)))).
  case_decide as Hd; [|exact IH']. simpl; constructor; [exact IH'|].
  apply Forall_forall; intros r' Hin. apply list_elem_of_In, in_map_iff in Hin as ([k' r1] & <- & Hin%list_elem_of_In).
  apply list_elem_of_filter in Hin as [Hd' Hin]; simpl in *. unfold sector_lt; simpl.
  rewrite (Hk k r) by left. rewrite (Hk k' r1) by (by right).
  rewrite Forall_forall in Hr; specialize (Hr _ Hin). unfold row_leb, key_leb in Hr; simpl in Hr.
  apply orb_prop in Hr as [Hr%Z.ltb_lt|[_ Hr%Z.leb_le]%andb_prop]; [lia|].
  assert (Hne : k <> k'). { intros ->; apply Hni, list_elem_of_fmap; by exists (k', r1). }
  destruct k, k'; simpl in *. destruct (decide (z0 = z2)); [subst; done | lia].
Qed.

(** Where a buffered sector came from: an earlier sector event of that lap,
    with no engine restart since. *)
Definition came_from (v : string) (ps : list string) (restarts : Z) (k : Z * Z) (row : SectorRow) : Prop :=
  exists pre p post e, ps = pre ++ p :: post /\ _parse p = Some e /\ le_type e = "sector_completed" /\
    k = (le_lap_number e, sr_sector row) /\ sr_crossed_at row = le_at e /\
    engine_restarts (lm_run v (pre ++ [p])) = restarts.

Lemma track_lap_sectors self n x :
  x ∈ _sectors (track_lap self n) ->
  x ∈ _sectors self /\ engine_restarts (track_lap self n) = engine_restarts self.
Proof.
  unfold track_lap. destruct (_highest_lap_number self); [|done].
  destruct (_ <? _); [|done]. by intros ?%elem_of_nil.
Qed.

Lemma buffer_sector_in self e x :
  x ∈ _sectors (_buffer_sector self e).1 ->
  x ∈ _sectors self \/ exists sector split, x = ((le_lap_number e, sector), mkSector sector split (le_at e)).
Proof.
  unfold _buffer_sector. destruct (_as_int _) as [[sector|]|]; [|by left..].
  set (self1 := if (_ <=? _)%nat then _ else self).
  assert (Hin : forall x, x ∈ _sectors self1 -> x ∈ _sectors self).
  { intros y; unfold self1. destruct (_ <=? _)%nat; [|done].
    destruct (min_key _); [|done]. apply od_del_in. }
  clearbody self1. destruct (_as_float _) as [split|]; simpl; [|by left; auto].
  intros [->|Hx]%od_set_in; eauto.
Qed.

Lemma buffer_sector_restarts self e :
  engine_restarts (_buffer_sector self e).1 = engine_restarts self.
Proof. unfold _buffer_sector; repeat case_match; done. Qed.

Lemma observe_restarts self p :
  engine_restarts (lm_observe self p).1 =
  match _parse p with Some e => engine_restarts (track_lap self (le_lap_number e)) | None => engine_restarts self end.
Proof.
  unfold lm_observe. destruct (_parse p) as [e|]; [|done].
  destruct (String.eqb _ _); [apply buffer_sector_restarts|].
  destruct (String.eqb _ _); [done|]. by destruct (_ || _).
Qed.

Lemma lm_run_came_from v ps k row :
  (k, row) ∈ _sectors (lm_run v ps) -> came_from v ps (engine_restarts (lm_run v ps)) k row.
Proof.
  induction ps as [|p ps IH] using rev_ind; [by intros ?%elem_of_nil|].
  rewrite lm_run_snoc. intros Hin.
  assert (Hkeep : (k, row) ∈ _sectors (lm_run v ps) ->
            engine_restarts (lm_observe (lm_run v ps) p).1 = engine_restarts (lm_run v ps) ->
            came_from v (ps ++ [p]) (engine_restarts (lm_observe (lm_run v ps) p).1) k row).
  { intros Hold Hr. destruct (IH Hold) as (pre & p0 & post & e0 & -> & H1 & H2 & H3 & H4 & H5).
    exists pre, p0, (post ++ [p]), e0; split_and!; try done; [by rewrite <- app_assoc | congruence]. }
  pose proof (observe_restarts (lm_run v ps) p) as Hres.
  unfold lm_observe in Hin. destruct (_parse p) as [e|] eqn:Ep; [|by apply Hkeep].
  assert (Htrack : (k, row) ∈ _sectors (track_lap (lm_run v ps) (le_lap_number e)) ->
            came_from v (ps ++ [p]) (engine_restarts (lm_observe (lm_run v ps) p).1) k row).
  { intros [Ho Hr]%track_lap_sectors. apply Hkeep; [done|]. by rewrite Hres. }
  destruct (String.eqb_spec (le_type e) "sector_completed") as [Ht|].
  - apply buffer_sector_in in Hin as [Hin|(sector & split & [= -> ->])]; [by apply Htrack|].
    exists ps, p, [], e; split_and!; try done. by rewrite lm_run_snoc.
  - destruct (String.eqb _ _); [|by destruct (_ || _); apply Htrack].
    simpl in Hin. apply list_elem_of_filter in Hin as [_ Hin]. by apply Htrack.
Qed.

(** A lap row holds exactly the sectors buffered for its lap, in increasing
    order; each is the split of an earlier sector event of that lap, from the
    same run of the engine; and none of them stays behind. *)
Theorem lap_row_gets_its_sectors (vehicle_id payload : string) (payloads : list string)
    (self' : LapMaterialiser) (row : LapRow)
    (Hobs : lm_observe (lm_run vehicle_id payloads) payload = (self', Ok (Lap row))) :
  StronglySorted sector_lt (lr_sectors row) /\
  (forall sector, sector ∈ lr_sectors row ->
     came_from vehicle_id payloads (engine_restarts self') (lr_lap_number row, sr_sector sector) sector) /\
  (forall k sector, (k, sector) ∈ _sectors self' -> k.1 <> lr_lap_number row) /\
  (forall k sector, (k, sector) ∈ _sectors (lm_run vehicle_id payloads) -> k.1 = lr_lap_number row ->
     engine_restarts self' = engine_restarts (lm_run vehicle_id payloads) -> sector ∈ lr_sectors row).
Proof.
  pose proof (observe_restarts (lm_run vehicle_id payloads) payload) as Hres. rewrite Hobs in Hres.
  unfold lm_observe in Hobs. destruct (_parse payload) as [e|]; [|done]; simpl in Hres.
  destruct (String.eqb _ _).
  { exfalso; unfold _buffer_sector in Hobs; repeat case_match; simplify_eq/=. }
  destruct (String.eqb _ _); [|by destruct (_ || _)].
  pose proof (sector_buffer_wf vehicle_id payloads) as Hwf.
  set (self := lm_run vehicle_id payloads) in *.
  pose proof (track_lap_wf self (le_lap_number e) Hwf) as Hwf'.
  unfold _complete_lap in Hobs. injection Hobs as <- Hrow.
  apply res_bind_Ok in Hrow as (stint & _ & (t & _ & [= <-])%res_bind_Ok); simpl.
  split_and!.
  - by apply sectors_of_sorted.
  - intros sector ([n j] & Hin & Hk)%sectors_of_in; simpl in Hk; subst n.
    destruct Hwf' as (_ & _ & Hsec). rewrite (Hsec _ _ Hin); simpl.
    apply track_lap_sectors in Hin as [Hin Hr]. rewrite Hr. by apply lm_run_came_from.
  - intros k sector [Hk _]%list_elem_of_filter; exact Hk.
  - intros k sector Hin Hk Hr. apply sectors_of_in; exists k; split; [|done].
    unfold track_lap in *. destruct (_highest_lap_number self) as [h|]; [|done].
    destruct (_ <? h); [|done]. simpl in Hr; lia.
Qed.
End Laps.

(** * A concrete stream: one lap of two sectors *)

Module Stream.
Definition lap_event (t : string) (n at_s sector : Z) : obj :=
  ODict [("type", OStr t); ("time", OInt at_s); ("lap_number", OInt n); ("sector", OInt sector);
         ("split_time", OFloat (f_of_Z 30)); ("lap_time", OFloat (f_of_Z 60))].
Definition loads (s : string) : option obj :=
  if String.eqb s "sector 2" then Some (lap_event "sector_completed" 4 160 2)
  else if String.eqb s "sector 1" then Some (lap_event "sector_completed" 4 130 1)
  else if String.eqb s "lap" then Some (lap_event "lap_completed" 4 160 0)
  else None.
Definition str_of (o : obj) : string := match o with OStr s => s | _ => "" end.
Definition no_float (s : string) : res float := raise ValueError ("could not convert string to float: " +:+ s).
Definition no_int (s : string) : res Z := raise ValueError ("invalid literal for int(): " +:+ s).
Definition seen : list string := ["sector 2"; "garbage"; "sector 1"].
Definition after := lm_observe loads str_of no_float no_int
  (lm_run loads str_of no_float no_int "car" seen) "lap".
Definition row : LapRow :=
  match after.2 with Ok (Lap r) => r | _ => mkLap "" None None None 0 0 None false None None [] end.
End Stream.

Lemma lap_row_gets_its_sectors_witness :
  map sr_sector (lr_sectors Stream.row) = [1; 2] /\
  StronglySorted sector_lt (lr_sectors Stream.row) /\
  (forall sector, sector ∈ lr_sectors Stream.row ->
     came_from Stream.loads Stream.str_of Stream.no_float Stream.no_int "car" Stream.seen
       (engine_restarts Stream.after.1) (lr_lap_number Stream.row, sr_sector sector) sector) /\
  (forall k sector, (k, sector) ∈ _sectors Stream.after.1 -> k.1 <> lr_lap_number Stream.row) /\
  (forall k sector,
     (k, sector) ∈ _sectors (lm_run Stream.loads Stream.str_of Stream.no_float Stream.no_int "car" Stream.seen) ->
     k.1 = lr_lap_number Stream.row ->
     engine_restarts Stream.after.1 =
       engine_restarts (lm_run Stream.loads Stream.str_of Stream.no_float Stream.no_int "car" Stream.seen) ->
     sector ∈ lr_sectors Stream.row).
Proof.
  split; [vm_compute; reflexivity|].
  apply (lap_row_gets_its_sectors Stream.loads Stream.str_of Stream.no_float Stream.no_int "car" "lap" Stream.seen).
  vm_compute; reflexivity.
Defined.
