(* ===== verification/IngestWriter.v ===== *)
(** The pit's durable consumer ([src/pit/ingest_writer/writer.py], with
    [health.py] and the statements of [store.py]).

    The broker and the database are outside: a run is given the messages each
    fetch delivers, the clock readings, and how each database transaction
    ends. [upsert] is the database's answer to a registry (wire id to channel
    key). [acked] records the stream sequences the writer acknowledged. *)

From Stdlib Require Import Sorted.
From S2P Require Import Prelude PyFloat Wire RegistryCache Laps.

Local Open Scope Z_scope.

Definition LAP_EVENT_CHANNEL : string := "lap.event".
Definition AGENT_STATUS_CHANNEL : string := "sys.agent.status".

(** * Health *)

(** The clock readings a handler takes. *)
Record Clock := mkClock { ck_mono_ns : Z; ck_mono_s : float; ck_time_s : float }.

(** The counters are attributes looked up by name. *)
Record HealthState := mkHealth {
  counters : gmap string Z;
  stalled : bool;
  rows_per_s : float;
  flushes_per_s : float;
  lag_ms : float;
  wall_lag_ms : float;
  _agent_status_mono : option float;
  _offset_ns : option Z;
  _offset_set_mono : float;
  _window_start : float;
  _window_rows : Z;
  _window_flushes : Z
}.

Definition health_init (now : float) : HealthState :=
  mkHealth ∅ false f0 f0 f0 f0 None None f0 now 0 0.

Definition counter (h : HealthState) (name : string) : Z := default 0 (counters h !! name).
Definition set_counter (h : HealthState) (name : string) (n : Z) : HealthState :=
  mkHealth (<[name := n]> (counters h)) (stalled h) (rows_per_s h) (flushes_per_s h) (lag_ms h)
    (wall_lag_ms h) (_agent_status_mono h) (_offset_ns h) (_offset_set_mono h) (_window_start h)
    (_window_rows h) (_window_flushes h).
Definition bump (h : HealthState) (name : string) (n : Z) : HealthState :=
  set_counter h name (counter h name + n).
Definition set_stalled (h : HealthState) (b : bool) : HealthState :=
  mkHealth (counters h) b (rows_per_s h) (flushes_per_s h) (lag_ms h) (wall_lag_ms h)
    (_agent_status_mono h) (_offset_ns h) (_offset_set_mono h) (_window_start h)
    (_window_rows h) (_window_flushes h).

(** The excess of this batch's transit over the best one of the last minute. *)
Definition observe_batch (h : HealthState) (epoch_mono_ns epoch_unix_ms : Z) (ck : Clock) : HealthState :=
  let h := bump h "batches" 1 in
  let h :=
    if epoch_mono_ns =? 0 then h
    else
      let observed := ck_mono_ns ck - epoch_mono_ns in
      let now := ck_mono_s ck in
      let stale := fltb (f_of_Z 60) (fsub now (_offset_set_mono h)) in
      let '(offset, set_at) :=
        match _offset_ns h with
        | Some o => if stale || (observed <? o) then (observed, now) else (o, _offset_set_mono h)
        | None => (observed, now)
        end in
      mkHealth (counters h) (stalled h) (rows_per_s h) (flushes_per_s h)
        (fmax f0 (fdiv_ieee (f_of_Z (observed - offset)) (f_of_Z 1000000))) (wall_lag_ms h)
        (_agent_status_mono h) (Some offset) set_at (_window_start h) (_window_rows h) (_window_flushes h) in
  if epoch_unix_ms =? 0 then h
  else
    mkHealth (counters h) (stalled h) (rows_per_s h) (flushes_per_s h) (lag_ms h)
      (fsub (fmul (ck_time_s ck) (f_of_Z 1000)) (f_of_Z epoch_unix_ms))
      (_agent_status_mono h) (_offset_ns h) (_offset_set_mono h) (_window_start h)
      (_window_rows h) (_window_flushes h).

Definition observe_flush (h : HealthState) (rows stream_seq : Z) : HealthState :=
  let h := bump (bump h "flushes" 1) "rows_written" rows in
  let h := set_counter h "last_stream_seq" (Z.max (counter h "last_stream_seq") stream_seq) in
  mkHealth (counters h) (stalled h) (rows_per_s h) (flushes_per_s h) (lag_ms h) (wall_lag_ms h)
    (_agent_status_mono h) (_offset_ns h) (_offset_set_mono h) (_window_start h)
    (_window_rows h + rows) (_window_flushes h + 1).

Definition note_agent_status (h : HealthState) (now : float) : HealthState :=
  mkHealth (counters h) (stalled h) (rows_per_s h) (flushes_per_s h) (lag_ms h) (wall_lag_ms h)
    (Some now) (_offset_ns h) (_offset_set_mono h) (_window_start h) (_window_rows h) (_window_flushes h).

Definition agent_status_age_s (h : HealthState) (now : float) : option float :=
  (fun t => f_round_digits (fsub now t) 1) <$> _agent_status_mono h.

(** Close the rate window; [now] is read twice. *)
Definition roll (h : HealthState) (now now' : float) : HealthState :=
  let elapsed := fsub now (_window_start h) in
  if fleb elapsed f0 then h
  else
    mkHealth (counters h) (stalled h) (fdiv_ieee (f_of_Z (_window_rows h)) elapsed)
      (fdiv_ieee (f_of_Z (_window_flushes h)) elapsed) (lag_ms h) (wall_lag_ms h)
      (_agent_status_mono h) (_offset_ns h) (_offset_set_mono h) now' 0 0.

(** * Rows *)

Record SampleRow := mkRow {
  row_time : Z;
  row_channel_key : Z;
  row_value : option float;
  row_text : option string
}.

Record BatchRows := mkRows {
  br_rows : list SampleRow;
  br_lap_events : list string;
  br_agent_status : bool;
  br_dropped : Z;
  br_unresolved : Z
}.

(** The numeric or textual half of a value; [None] is a value to drop. *)
Definition split_value (v : option SampleValue) : res (option (option float * option string)) :=
  match v with
  | Some (VStr s) => Ok (Some (None, Some s))
  | Some (VBool b) => Ok (Some (Some (if b then f_of_Z 1 else f0), None))
  | Some (VFloat x) => Ok (Some (Some x, None))
  | Some (VInt z) => x ← float_of_int z; Ok (Some (Some x, None))
  | None => Ok None
  end.

Definition row_of_sample (keys : gmap (Z * Z) Z) (registry_seq : Z) (acc : BatchRows) (s : DecodedSample)
    : res BatchRows :=
  match keys !! (registry_seq, c_id (ds_channel s)) with
  | None => Ok (mkRows (br_rows acc) (br_lap_events acc) (br_agent_status acc) (br_dropped acc)
                  (br_unresolved acc + 1))
  | Some key =>
      v ← split_value (ds_value s);
      match v with
      | None => Ok (mkRows (br_rows acc) (br_lap_events acc) (br_agent_status acc) (br_dropped acc + 1)
                      (br_unresolved acc))
      | Some (number, text) =>
          time ← fromtimestamp (fdiv_ieee (ds_capture_unix_ms s) (f_of_Z 1000));
          let rows := br_rows acc ++ [mkRow time key number text] in
          match String.eqb (c_name (ds_channel s)) LAP_EVENT_CHANNEL, text with
          | true, Some t => Ok (mkRows rows (br_lap_events acc ++ [t]) (br_agent_status acc)
                                  (br_dropped acc) (br_unresolved acc))
          | _, _ => Ok (mkRows rows (br_lap_events acc)
                          (br_agent_status acc || String.eqb (c_name (ds_channel s)) AGENT_STATUS_CHANNEL)
                          (br_dropped acc) (br_unresolved acc))
          end
      end
  end.

Fixpoint res_fold {A B : Type} (f : B -> A -> res B) (l : list A) (acc : B) : res B :=
  match l with
  | [] => Ok acc
  | a :: l => acc ← f acc a; res_fold f l acc
  end.

Definition rows_from_batch (batch : DecodedBatch) (keys : gmap (Z * Z) Z) : res BatchRows :=
  res_fold (row_of_sample keys (db_registry_seq batch)) (db_samples batch) (mkRows [] [] false 0 0).

(** * The database, as the statements that committed *)

Record Db := mkDb {
  db_rows : list SampleRow;
  db_laps : list LapRow;
  db_pits : list PitStatusUpdate;
  db_cursor : Z
}.

(** How a transaction ends: committed; refused for its content; the database
    out of reach with nothing committed; or committed with the reply lost,
    which the writer cannot tell from the third. *)
Inductive wresult := Committed | Rejected | Unreachable | ReplyLost.

(** [TimescaleStore.flush]: the rows and the cursor in one transaction. *)
Definition store_flush (db : Db) (rows : list SampleRow) (laps : list LapRow) (pits : list PitStatusUpdate)
    (stream_seq : Z) (o : wresult) : Db :=
  match o with
  | Committed | ReplyLost =>
      mkDb (db_rows db ++ rows) (db_laps db ++ laps) (db_pits db ++ pits)
        (if 0 <? stream_seq then Z.max (db_cursor db) stream_seq else db_cursor db)
  | _ => db
  end.

Section Writer.
Context `{Codec} (vehicle_id : string) (upsert : ChannelRegistry -> gmap Z Z).
Context (json_loads : string -> option obj) (py_str : obj -> string).
Context (float_of_str : string -> res float) (int_of_str : string -> res Z).

Record Msg := mkMsg {
  m_seq : Z;
  m_header : option string;
  m_subject : string;
  m_data : payload
}.

Definition _is_registry (m : Msg) : bool :=
  match m_header m with
  | Some h => if String.eqb h "" then String.eqb (m_subject m) ("tele." +:+ vehicle_id +:+ "." +:+ REGISTRY_SOURCE_CLASS)
              else String.eqb h MSG_TYPE_REGISTRY
  | None => String.eqb (m_subject m) ("tele." +:+ vehicle_id +:+ "." +:+ REGISTRY_SOURCE_CLASS)
  end.

Record IngestWriter := mkWriter {
  health : HealthState;
  cache : RegistryCache;
  laps : LapMaterialiser;
  _keys : gmap (Z * Z) Z;
  _cursor : Z;
  _max_seq : Z;
  _rows : list SampleRow;
  _lap_rows : list LapRow;
  _pit_updates : list PitStatusUpdate;
  _pending : list Msg;
  _buffered : gset Z;
  _held : list Msg;
  _paused : bool;
  acked : list Z
}.

(** A process that just started and read its cursor. *)
Definition writer_start (now : float) (committed : Z) : IngestWriter :=
  mkWriter (health_init now) cache_init (lm_init vehicle_id) ∅ committed committed [] [] [] [] ∅ [] false [].

Definition set_health (w : IngestWriter) (h : HealthState) : IngestWriter :=
  mkWriter h (cache w) (laps w) (_keys w) (_cursor w) (_max_seq w) (_rows w) (_lap_rows w)
    (_pit_updates w) (_pending w) (_buffered w) (_held w) (_paused w) (acked w).
Definition set_cache (w : IngestWriter) (c : RegistryCache) : IngestWriter :=
  mkWriter (health w) c (laps w) (_keys w) (_cursor w) (_max_seq w) (_rows w) (_lap_rows w)
    (_pit_updates w) (_pending w) (_buffered w) (_held w) (_paused w) (acked w).
Definition set_held (w : IngestWriter) (l : list Msg) : IngestWriter :=
  mkWriter (health w) (cache w) (laps w) (_keys w) (_cursor w) (_max_seq w) (_rows w) (_lap_rows w)
    (_pit_updates w) (_pending w) (_buffered w) l (_paused w) (acked w).
Definition set_paused (w : IngestWriter) (b : bool) : IngestWriter :=
  mkWriter (health w) (cache w) (laps w) (_keys w) (_cursor w) (_max_seq w) (_rows w) (_lap_rows w)
    (_pit_updates w) (_pending w) (_buffered w) (_held w) b (acked w).
Definition set_max_seq (w : IngestWriter) (n : Z) : IngestWriter :=
  mkWriter (health w) (cache w) (laps w) (_keys w) (_cursor w) n (_rows w) (_lap_rows w)
    (_pit_updates w) (_pending w) (_buffered w) (_held w) (_paused w) (acked w).
Definition set_cursor (w : IngestWriter) (n : Z) : IngestWriter :=
  mkWriter (health w) (cache w) (laps w) (_keys w) n (_max_seq w) (_rows w) (_lap_rows w)
    (_pit_updates w) (_pending w) (_buffered w) (_held w) (_paused w) (acked w).
Definition add_rows (w : IngestWriter) (rows : list SampleRow) : IngestWriter :=
  mkWriter (health w) (cache w) (laps w) (_keys w) (_cursor w) (_max_seq w) (_rows w ++ rows) (_lap_rows w)
    (_pit_updates w) (_pending w) (_buffered w) (_held w) (_paused w) (acked w).
Definition set_lap_work (w : IngestWriter) (l : LapMaterialiser) (rows : list LapRow)
    (pits : list PitStatusUpdate) : IngestWriter :=
  mkWriter (health w) (cache w) l (_keys w) (_cursor w) (_max_seq w) (_rows w) rows
    pits (_pending w) (_buffered w) (_held w) (_paused w) (acked w).
Definition add_pending (w : IngestWriter) (m : Msg) : IngestWriter :=
  mkWriter (health w) (cache w) (laps w) (_keys w) (_cursor w) (_max_seq w) (_rows w) (_lap_rows w)
    (_pit_updates w) (_pending w ++ [m]) ({[m_seq m]} ∪ _buffered w) (_held w) (_paused w) (acked w).
Definition _ack (w : IngestWriter) (m : Msg) : IngestWriter :=
  mkWriter (health w) (cache w) (laps w) (_keys w) (_cursor w) (_max_seq w) (_rows w) (_lap_rows w)
    (_pit_updates w) (_pending w) (_buffered w) (_held w) (_paused w) (acked w ++ [m_seq m]).
Definition _discard (w : IngestWriter) : IngestWriter :=
  mkWriter (health w) (cache w) (laps w) (_keys w) (_cursor w) (_max_seq w) [] [] [] [] ∅ (_held w)
    false (acked w).

(** Retried until it lands, so it always does. *)
Definition _apply_registry (w : IngestWriter) (r : ChannelRegistry) : IngestWriter :=
  mkWriter (health w) (add_registry (cache w) r) (laps w)
    (map_fold (fun wire_id key m => <[(r_registry_seq r, wire_id) := key]> m) (_keys w) (upsert r))
    (_cursor w) (_max_seq w) (_rows w) (_lap_rows w)
    (_pit_updates w) (_pending w) (_buffered w) (_held w) (_paused w) (acked w).

Definition skip (w : IngestWriter) (m : Msg) : IngestWriter :=
  let w := _ack w m in set_health w (bump (health w) "messages_skipped" 1).

Definition _materialise_lap (w : IngestWriter) (event : string) : IngestWriter * res unit :=
  match lm_observe json_loads py_str float_of_str int_of_str (laps w) event with
  | (l, Raise e) => (set_lap_work w l (_lap_rows w) (_pit_updates w), Raise e)
  | (l, Ok out) =>
      let w := match out with
               | Lap row => set_lap_work w l (_lap_rows w ++ [row]) (_pit_updates w)
               | Pit update => set_lap_work w l (_lap_rows w) (_pit_updates w ++ [update])
               | NoRow => set_lap_work w l (_lap_rows w) (_pit_updates w)
               end in
      (set_health w (set_counter (health w) "malformed_lap_events" (malformed_events l)), Ok tt)
  end.

Fixpoint materialise_all (w : IngestWriter) (events : list string) : IngestWriter * res unit :=
  match events with
  | [] => (w, Ok tt)
  | e :: events =>
      match _materialise_lap w e with
      | (w, Ok _) => materialise_all w events
      | other => other
      end
  end.

(** A decoded batch joins the next flush. *)
Definition take_batch (w : IngestWriter) (m : Msg) (batch : DecodedBatch) (ck : Clock)
    : IngestWriter * res (option Z) :=
  let w := set_health w (observe_batch (health w) (db_epoch_mono_ns batch) (db_epoch_unix_ms batch) ck) in
  match rows_from_batch batch (_keys w) with
  | Raise e => (w, Raise e)
  | Ok converted =>
      let w := add_rows w (br_rows converted) in
      let h := bump (bump (health w) "samples_dropped" (br_dropped converted))
                 "unresolved_channels" (br_unresolved converted) in
      let w := set_health w (if br_agent_status converted then note_agent_status h (ck_mono_s ck) else h) in
      match materialise_all w (br_lap_events converted) with
      | (w, Raise e) => (w, Raise e)
      | (w, Ok _) => (set_max_seq (add_pending w m) (Z.max (_max_seq w) (m_seq m)), Ok None)
      end
  end.

(** One message; the result is an unknown generation to stall on, if any. *)
Definition _handle (w : IngestWriter) (m : Msg) (ck : Clock) : IngestWriter * res (option Z) :=
  if m_seq m <=? _cursor w then (skip w m, Ok None)
  else if bool_decide (m_seq m ∈ _buffered w) then (skip w m, Ok None)
  else if _is_registry m then
    match parse_registry (m_data m) with
    | None => (w, raise DecodeError "Error parsing message")
    | Some r =>
        let w := _ack (_apply_registry w r) m in
        (set_health w (bump (health w) "registries" 1), Ok None)
    end
  else
    match decode_or_reason (cache w) (m_data m) with
    | (_, Raise e) => (w, Raise e)
    | (c, Ok (inl batch)) => take_batch (set_cache w c) m batch ck
    | (c, Ok (inr reason)) =>
        let w := set_cache w c in
        let h := set_counter (set_counter (health w) "unknown_seq_batches" (unknown_seq_batches c))
                   "bad_version_batches" (bad_version_batches c) in
        let w := set_health w h in
        match reason with
        | REJECT_UNKNOWN_SEQ =>
            match parse_batch (m_data m) with
            | Some b => (w, Ok (Some (b_registry_seq b)))
            | None => (w, raise DecodeError "Error parsing message")
            end
        | REJECT_BAD_VERSION =>
            let w := _ack w m in (set_max_seq w (Z.max (_max_seq w) (m_seq m)), Ok None)
        end
    end.

(** * Flush *)

Definition _pending_work (w : IngestWriter) : bool :=
  match _rows w, _lap_rows w, _pit_updates w with
  | [], [], [] => _cursor w <? _max_seq w
  | _, _, _ => true
  end.

Definition ack_pending (w : IngestWriter) : IngestWriter := fold_left _ack (_pending w) w.

Definition total_sectors (l : list LapRow) : Z :=
  fold_left (fun n lap => n + Z.of_nat (length (lr_sectors lap))) l 0.

(** The rows landed: advance, count, acknowledge, empty the buffer. *)
Definition landed (w : IngestWriter) (laps_landed : bool) : IngestWriter :=
  let w := set_cursor w (Z.max (_cursor w) (_max_seq w)) in
  let h := observe_flush (health w) (Z.of_nat (length (_rows w))) (_cursor w) in
  let h :=
    if laps_landed then
      bump (bump h "laps_written" (Z.of_nat (length (_lap_rows w)))) "sectors_written" (total_sectors (_lap_rows w))
    else bump h "laps_dropped" (Z.of_nat (length (_lap_rows w))) in
  _discard (ack_pending (set_health w h)).

(** How the transactions of one flush end: the first, and the retry of a
    rejected one; and how many connection attempts fail before one lands. *)
Record tries := mkTries { t_first : wresult; t_retry : wresult; t_failed_connects : Z }.

Definition _reconnect_db (w : IngestWriter) (t : tries) : IngestWriter :=
  let h := bump (health w) "db_errors" (t_failed_connects t) in
  set_health w (bump h "db_connects" 1).

Definition _flush (w : IngestWriter) (db : Db) (t : tries) : IngestWriter * Db * bool :=
  if negb (_pending_work w) then (w, db, true)
  else
    let db1 := store_flush db (_rows w) (_lap_rows w) (_pit_updates w) (_max_seq w) (t_first t) in
    match t_first t with
    | Committed => (landed w true, db1, true)
    | Unreachable | ReplyLost =>
        (_reconnect_db (set_health w (bump (health w) "db_errors" 1)) t, db1, false)
    | Rejected =>
        let w := set_health w (bump (health w) "data_errors" 1) in
        let db2 := store_flush db1 (_rows w) [] [] (_max_seq w) (t_retry t) in
        match t_retry t with
        | Committed => (landed w false, db2, true)
        | Unreachable | ReplyLost =>
            (_reconnect_db (set_health w (bump (health w) "db_errors" 1)) t, db2, false)
        | Rejected =>
            let h := bump (bump (health w) "dropped_flushes" 1) "laps_dropped" (Z.of_nat (length (_lap_rows w))) in
            let w := set_cursor (set_health w h) (Z.max (_cursor w) (_max_seq w)) in
            (_discard (ack_pending w), db2, false)
        end
    end.

(** A fetch in order. At a barrier everything ahead of it is flushed and the
    rest, that message included, is held. *)
Fixpoint _handle_all (w : IngestWriter) (db : Db) (messages : list (Msg * Clock)) (t : tries)
    : IngestWriter * Db * res (option Z) :=
  match messages with
  | [] => (w, db, Ok None)
  | (m, ck) :: rest =>
      match _handle w m ck with
      | (w, Raise e) => (w, db, Raise e)
      | (w, Ok None) => _handle_all w db rest t
      | (w, Ok (Some barrier)) =>
          let w := set_health w (set_stalled (bump (health w) "unknown_seq_stalls" 1) true) in
          let w := set_held w (map fst messages) in
          let '(w, db, _) := _flush w db t in
          (w, db, Ok (Some barrier))
      end
  end.

(** The rescan of the catalog subject finds these generations. *)
Definition _recover_registry (w : IngestWriter) (found : list ChannelRegistry) (registry_seq : Z)
    : IngestWriter :=
  let w := fold_left _apply_registry found w in
  if cache_known (cache w) registry_seq then set_health w (set_stalled (health w) false) else w.

(** What one turn of [_consume] meets: the fetch (unless something is held or
    the buffer is full), the clock, the flush timer, the rescan. *)
Record turn := mkTurn {
  t_fetched : list Msg;
  t_clock : Clock;
  t_due : bool;
  t_found : list ChannelRegistry;
  t_tries : tries
}.

Definition consume_turn (batch_rows max_buffered_rows : nat) (w : IngestWriter) (db : Db) (t : turn)
    : IngestWriter * Db * res unit :=
  let work (w : IngestWriter) (messages : list Msg) :=
    match _handle_all w db (map (fun m => (m, t_clock t)) messages) (t_tries t) with
    | (w, db, Raise e) => (w, db, Raise e)
    | (w, db, Ok (Some barrier)) => (_recover_registry w (t_found t) barrier, db, Ok tt)
    | (w, db, Ok None) =>
        if (batch_rows <=? length (_rows w))%nat || t_due t then
          let '(w, db, _) := _flush w db (t_tries t) in (w, db, Ok tt)
        else (w, db, Ok tt)
    end in
  match _held w with
  | _ :: _ as held => work (set_held w []) held
  | [] =>
      if (max_buffered_rows <=? length (_rows w))%nat then
        let '(w, db, _) := _flush (set_paused w true) db (t_tries t) in (w, db, Ok tt)
      else work w (t_fetched t)
  end.

(** * Exactly once

    A run of the writer against its stream: messages handled, flushes,
    rescans of the catalog subject, and crashes (an exception that escapes ends the process, and the supervisor
    starts another). [log] is the ghost record of the batches taken, with the
    rows each contributed; a crash forgets those that were not committed. *)

Inductive wop :=
  | WHandle (m : Msg) (ck : Clock)
  | WFlush (t : tries)
  | WScan (found : list ChannelRegistry)
  | WRestart.

Abbreviation wlog := (list (Z * list SampleRow)).
Abbreviation wstate := (IngestWriter * Db * wlog)%type.

Definition committed_part (db : Db) (log : wlog) : wlog := filter (fun e => e.1 <= db_cursor db) log.

Definition crash (db : Db) (log : wlog) : wstate :=
  (writer_start f0 (db_cursor db), db, committed_part db log).

Definition wstep (s : wstate) (o : wop) : wstate :=
  let '(w, db, log) := s in
  match o with
  | WHandle m ck =>
      match _handle w m ck with
      | (_, Raise _) => crash db log
      | (w', Ok _) =>
          let taken := bool_decide (m_seq m ∉ _buffered w) && bool_decide (m_seq m ∈ _buffered w') in
          (w', db, if taken then log ++ [(m_seq m, drop (length (_rows w)) (_rows w'))] else log)
      end
  | WFlush t => let '(w, db, _) := _flush w db t in (w, db, log)
  | WScan found => (fold_left _apply_registry found w, db, log)
  | WRestart => crash db log
  end.

(** Delivery in stream order: a message is committed, buffered, or newer than
    every message seen. *)
Definition in_order (w : IngestWriter) (m : Msg) : Prop :=
  m_seq m <= _cursor w \/ m_seq m ∈ _buffered w \/ _max_seq w < m_seq m.

(** A transaction whose end the writer is told, and samples it accepts. *)
Definition honest (t : tries) : Prop :=
  t_first t <> ReplyLost /\ t_retry t <> ReplyLost /\ (t_first t = Rejected -> t_retry t <> Rejected).

Fixpoint orderly (s : wstate) (ops : list wop) : Prop :=
  match ops with
  | [] => True
  | o :: ops =>
      match o with
      | WHandle m _ => in_order s.1.1 m
      | WFlush t => honest t
      | WScan _ | WRestart => True
      end /\ orderly (wstep s o) ops
  end.

(** ** What handling a message changes *)

Lemma materialise_frame w events w' r :
  materialise_all w events = (w', r) ->
  _rows w' = _rows w /\ _cursor w' = _cursor w /\ _max_seq w' = _max_seq w /\ _buffered w' = _buffered w.
Proof.
  revert w; induction events as [|e events IH]; intros w; simpl; [by intros [= <- _]|].
  assert (Hone : let w1 := (_materialise_lap w e).1 in
            _rows w1 = _rows w /\ _cursor w1 = _cursor w /\ _max_seq w1 = _max_seq w /\ _buffered w1 = _buffered w).
  { unfold _materialise_lap. destruct (lm_observe _ _ _ _ _ _) as [l [[]|]]; done. }
  destruct (_materialise_lap w e) as [w1 [u|ex]]; simpl in Hone.
  - intros (-> & -> & -> & ->)%IH; done.
  - by intros [= <- _].
Qed.

Lemma take_batch_frame w m batch ck w' r :
  take_batch w m batch ck = (w', Ok r) ->
  r = None /\ _cursor w' = _cursor w /\ _max_seq w' = Z.max (_max_seq w) (m_seq m) /\
  _buffered w' = ({[m_seq m]} ∪ _buffered w) /\ exists rows, _rows w' = _rows w ++ rows.
Proof.
  unfold take_batch; simpl.
  destruct (rows_from_batch batch (_keys w)) as [c|]; [|done].
  destruct (materialise_all _ _) as [w1 [u|]] eqn:Em; [|done]. intros [= <- <-]; simpl.
  apply materialise_frame in Em as (-> & -> & -> & ->); simpl. eauto 6.
Qed.

Lemma handle_cases w m ck w' r :
  _handle w m ck = (w', Ok r) ->
  ((m_seq m ∉ _buffered w) /\ _cursor w < m_seq m /\ _cursor w' = _cursor w /\
   _max_seq w' = Z.max (_max_seq w) (m_seq m) /\ _buffered w' = ({[m_seq m]} ∪ _buffered w) /\
   exists rows, _rows w' = _rows w ++ rows) \/
  (_rows w' = _rows w /\ _cursor w' = _cursor w /\ _buffered w' = _buffered w /\
   (_max_seq w' = _max_seq w \/ _max_seq w' = Z.max (_max_seq w) (m_seq m))).
Proof.
  unfold _handle. destruct (Z.leb_spec (m_seq m) (_cursor w)).
  { intros [= <- <-]; right; simpl; auto. }
  case_bool_decide as Hb.
  { intros [= <- <-]; right; simpl; auto. }
  destruct (_is_registry m).
  { destruct (parse_registry _); [|done]. intros [= <- <-]; right; simpl; auto. }
  destruct (decode_or_reason (cache w) (m_data m)) as [c [[batch|reason]|]]; [| |done].
  - intros Ht; left. apply take_batch_frame in Ht as (_ & H1 & H2 & H3 & H4); simpl in *. auto 10.
  - destruct reason; [destruct (parse_batch _); [|done]|]; intros [= <- <-]; right; simpl; auto 10.
Qed.

(** ** The invariant *)

Record winv (w : IngestWriter) (db : Db) (log done opened : wlog) : Prop := {
  wi_log : log = done ++ opened;
  wi_db : db_rows db = concat (map snd done);
  wi_rows : _rows w = concat (map snd opened);
  wi_sorted : StronglySorted Z.lt (map fst log);
  wi_done : Forall (fun e => e.1 <= db_cursor db) done;
  wi_open : Forall (fun e => db_cursor db < e.1) opened;
  wi_cursor : _cursor w = db_cursor db;
  wi_max : Forall (fun e => e.1 <= _max_seq w) log;
  wi_order : 0 <= db_cursor db <= _max_seq w;
  wi_buffered : forall s, s ∈ _buffered w <-> s ∈ map fst opened
}.

Lemma sorted_snoc l x : StronglySorted Z.lt l -> Forall (fun y => y < x) l -> StronglySorted Z.lt (l ++ [x]).
Proof.
  induction 1 as [|y l Hs IH Hy]; intros Hx; simpl; [repeat constructor|].
  apply Forall_cons in Hx as [Hyx Hx]. constructor; [auto|]. apply Forall_app; split; [done | by constructor].
Qed.

Lemma sorted_app_l l l' : StronglySorted Z.lt (l ++ l') -> StronglySorted Z.lt l.
Proof.
  induction l as [|x l IH]; simpl; [constructor|]. inversion 1 as [|? ? Hs Hf]; subst.
  constructor; [auto|]. by apply Forall_app in Hf as [? _].
Qed.

Lemma committed_done w db log dn op :
  winv w db log dn op -> committed_part db log = dn.
Proof.
  intros Hi; unfold committed_part. rewrite (wi_log _ _ _ _ _ Hi), filter_app.
  assert (Ed : filter (fun e => e.1 <= db_cursor db) dn = dn).
  { pose proof (wi_done _ _ _ _ _ Hi) as Hd. clear -Hd.
    induction Hd as [|e l He _ IH]; [done|]. rewrite filter_cons_True by done. by rewrite IH. }
  assert (Eo : filter (fun e : Z * list SampleRow => e.1 <= db_cursor db) op = []).
  { pose proof (wi_open _ _ _ _ _ Hi) as Ho. clear -Ho.
    induction Ho as [|e l He _ IH]; [done|]. rewrite filter_cons_False by lia. done. }
  by rewrite Ed, Eo, app_nil_r.
Qed.

Lemma crash_inv w db log dn op :
  winv w db log dn op -> winv (writer_start f0 (db_cursor db)) db (committed_part db log) dn [].
Proof.
  intros Hi; rewrite (committed_done _ _ _ _ _ Hi). destruct Hi as [-> H2 H3 H4 H5 H6 H7 H8 H9 H10].
  split; simpl; try done; try lia.
  - by rewrite app_nil_r.
  - rewrite map_app in H4. by eapply sorted_app_l.
  - intros s; split; [by intros ?%elem_of_empty | by intros ?%elem_of_nil].
Qed.

Lemma handle_inv w db log dn op m ck w' r :
  winv w db log dn op -> in_order w m -> _handle w m ck = (w', Ok r) ->
  let taken := bool_decide (m_seq m ∉ _buffered w) && bool_decide (m_seq m ∈ _buffered w') in
  exists op', winv w' db (if taken then log ++ [(m_seq m, drop (length (_rows w)) (_rows w'))] else log) dn op'.
Proof.
  intros [H1 H2 H3 H4 H5 H6 H7 H8 H9 H10] Hord [(Hnb & Hlt & E1 & E2 & E3 & rows & E4)|(E4 & E1 & E3 & E2)]%handle_cases.
  - assert (Hgt : _max_seq w < m_seq m) by (destruct Hord as [?|[?|?]]; [lia | done | done]).
    rewrite bool_decide_true by done. rewrite bool_decide_true by (rewrite E3; set_solver). simpl.
    exists (op ++ [(m_seq m, rows)]). rewrite E4, drop_app_length. split; simpl; try done.
    + by rewrite H1, <- app_assoc.
    + rewrite E4, H3, map_app, concat_app; simpl. by rewrite app_nil_r.
    + rewrite map_app. apply sorted_snoc; [done|]. apply Forall_map.
      eapply Forall_impl; [exact H8|]. intros e; simpl; lia.
    + apply Forall_app; split; [done|]. constructor; [simpl; lia | constructor].
    + congruence.
    + rewrite E2. apply Forall_app; split; [|constructor; [simpl; lia | constructor]].
      eapply Forall_impl; [exact H8|]. intros e; simpl; lia.
    + lia.
    + intros s. rewrite E3, map_app, elem_of_app, elem_of_union, H10, elem_of_singleton; simpl.
      rewrite list_elem_of_singleton. tauto.
  - assert (Ht : bool_decide (m_seq m ∉ _buffered w) && bool_decide (m_seq m ∈ _buffered w') = false).
    { rewrite E3. by repeat case_bool_decide. }
    rewrite Ht; simpl. exists op. split; rewrite ?E4, ?E1, ?E3; try done.
    + eapply Forall_impl; [exact H8|]. intros e; simpl; lia.
    + lia.
Qed.

Lemma ack_pending_frame w :
  _rows (ack_pending w) = _rows w /\ _cursor (ack_pending w) = _cursor w /\ _max_seq (ack_pending w) = _max_seq w.
Proof.
  unfold ack_pending. assert (Hg : forall l x, _rows (fold_left _ack l x) = _rows x /\
     _cursor (fold_left _ack l x) = _cursor x /\ _max_seq (fold_left _ack l x) = _max_seq x).
  { induction l as [|m l IH]; intros x; simpl; [done|]. by destruct (IH (_ack x m)) as (-> & -> & ->). }
  apply Hg.
Qed.

(** The rows of a flush are in the database and the cursor covers them. *)
Lemma landed_inv w db log dn op b laps pits :
  winv w db log dn op ->
  winv (landed w b) (store_flush db (_rows w) laps pits (_max_seq w) Committed) log log [].
Proof.
  intros [H1 H2 H3 H4 H5 H6 H7 H8 H9 H10]. unfold landed.
  set (w1 := set_health _ _). destruct (ack_pending_frame w1) as (_ & Ec & Em).
  assert (Hc : (if 0 <? _max_seq w then Z.max (db_cursor db) (_max_seq w) else db_cursor db) =
               Z.max (_cursor w) (_max_seq w)).
  { rewrite H7. destruct (Z.ltb_spec 0 (_max_seq w)); lia. }
  split; simpl; try done.
  - by rewrite app_nil_r.
  - by rewrite H1, map_app, concat_app, H2, H3.
  - rewrite Hc. eapply Forall_impl; [exact H8|]. intros e; simpl; lia.
  - rewrite Ec, Hc. done.
  - rewrite Em. done.
  - rewrite Em, Hc; simpl. lia.
  - intros s; split; [by intros ?%elem_of_empty | by intros ?%elem_of_nil].
Qed.

Lemma same_work_inv w w' db log dn op :
  _rows w' = _rows w -> _cursor w' = _cursor w -> _max_seq w' = _max_seq w -> _buffered w' = _buffered w ->
  winv w db log dn op -> winv w' db log dn op.
Proof. intros E1 E2 E3 E4 [? ? ? ? ? ? ? ? ? ?]; split; rewrite ?E1, ?E2, ?E3, ?E4; done. Qed.

Lemma flush_inv w db log dn op t :
  winv w db log dn op -> honest t ->
  let '(w', db', _) := _flush w db t in exists dn' op', winv w' db' log dn' op'.
Proof.
  intros Hi (Hf & Hr & Hrr); unfold _flush. destruct (negb (_pending_work w)); [eauto|].
  destruct (t_first t).
  - do 2 eexists. by eapply landed_inv.
  - destruct (t_retry t); [|by destruct Hrr| |done].
    + do 2 eexists. eapply (landed_inv (set_health w _)). by eapply same_work_inv; [..|exact Hi].
    + do 2 eexists. eapply same_work_inv; [..|exact Hi]; done.
  - do 2 eexists. eapply same_work_inv; [..|exact Hi]; done.
  - done.
Qed.

Lemma scan_frame found w :
  let w' := fold_left _apply_registry found w in
  _rows w' = _rows w /\ _cursor w' = _cursor w /\ _max_seq w' = _max_seq w /\ _buffered w' = _buffered w.
Proof.
  revert w; induction found as [|r found IH]; intros w; simpl; [done|].
  by destruct (IH (_apply_registry w r)) as (-> & -> & -> & ->).
Qed.

Lemma wstep_inv s o dn op :
  winv s.1.1 s.1.2 s.2 dn op ->
  match o with WHandle m _ => in_order s.1.1 m | WFlush t => honest t | _ => True end ->
  exists dn' op', winv (wstep s o).1.1 (wstep s o).1.2 (wstep s o).2 dn' op'.
Proof.
  destruct s as [[w db] log]; simpl; intros Hi Ho. destruct o as [m ck|t|found|]; simpl.
  - destruct (_handle w m ck) as [w' [r|e]] eqn:Eh; simpl.
    + destruct (handle_inv _ _ _ _ _ _ _ _ _ Hi Ho Eh); eauto.
    + do 2 eexists; by eapply crash_inv.
  - pose proof (flush_inv _ _ _ _ _ _ Hi Ho) as Hfl. destruct (_flush w db t) as [[w' db'] b]. exact Hfl.
  - do 2 eexists. destruct (scan_frame found w) as (E1 & E2 & E3 & E4). by eapply same_work_inv.
  - do 2 eexists; by eapply crash_inv.
Qed.

Lemma wrun_inv s ops dn op :
  winv s.1.1 s.1.2 s.2 dn op -> orderly s ops ->
  let s' := fold_left wstep ops s in exists dn' op', winv s'.1.1 s'.1.2 s'.2 dn' op'.
Proof.
  revert s dn op; induction ops as [|o ops IH]; intros s dn op Hi; simpl; [eauto|].
  intros [Ho Hops]. destruct (wstep_inv s o dn op Hi Ho) as (dn' & op' & Hi'). by eapply IH.
Qed.

Definition empty_db : Db := mkDb [] [] [] 0.
Definition fresh_state : wstate := (writer_start f0 0, empty_db, []).

End Writer.

(** * A concrete stream: one generation, two batches *)

#[local] Existing Instance TaggedCodec.

Module Pit.
Definition now : Clock := mkClock 1000 (f_of_Z 10) (f_of_Z 1000).
Definition registry : ChannelRegistry := registry_of Link.catalog 7 "car" 0.
Definition speed_batch (seq unix v : Z) : Msg :=
  mkMsg seq (Some "batch") "tele.car.can" (inl (mkSampleBatch 7 unix 100 [mkPbSample 1 0 (Some (W_d (f_of_Z v)))] 1)).
Definition m2 : Msg := speed_batch 2 1000 42.
Definition m3 : Msg := speed_batch 3 1020 43.
Definition keys (r : ChannelRegistry) : gmap Z Z := {[1 := 101; 2 := 102]}.
Definition ok : tries := mkTries Committed Committed 0.
Definition no_json (s : string) : option obj := None.
Definition run (ops : list wop) : IngestWriter * Db * list (Z * list SampleRow) :=
  fold_left (wstep "car" keys no_json Stream.str_of Stream.no_float Stream.no_int) ops
    (fresh_state "car").
Definition values (l : list SampleRow) : list (option float) := map row_value l.
Definition ordered_ops : list wop :=
  [WScan [registry]; WHandle m2 now; WFlush (mkTries Unreachable Committed 1); WHandle m2 now;
   WRestart; WScan [registry]; WHandle m2 now; WHandle m3 now; WFlush (mkTries Rejected Committed 0);
   WHandle m2 now].
End Pit.


(** Out of order, the cursor is not enough. A batch delivered to a writer that
    dies before flushing is redelivered only after [ack_wait]; by then the
    next writer may have committed a newer one, so the old batch is below the
    cursor: it is acknowledged and its rows are in no transaction. *)
Theorem restart_reorder_loses_rows :
  let s := Pit.run [WScan [Pit.registry]; WHandle Pit.m2 Pit.now; WRestart; WScan [Pit.registry];
                    WHandle Pit.m3 Pit.now; WFlush Pit.ok; WHandle Pit.m2 Pit.now; WFlush Pit.ok] in
  Pit.values (db_rows s.1.2) = [Some (f_of_Z 43)] /\ db_cursor s.1.2 = 3 /\
  _rows s.1.1 = [] /\ acked s.1.1 = [3; 2].
Proof. vm_compute; auto. Qed.

(** A redelivery of a batch still in the buffer is acknowledged at once, while
    no transaction holds its rows: a crash then loses them for good. *)
Theorem duplicate_acked_before_commit :
  let s := Pit.run [WScan [Pit.registry]; WHandle Pit.m2 Pit.now; WHandle Pit.m2 Pit.now] in
  acked s.1.1 = [2] /\ db_cursor s.1.2 = 0 /\ db_rows s.1.2 = [].
Proof. vm_compute; auto. Qed.

(** A commit whose reply is lost is retried: its rows are written twice. *)
Theorem lost_reply_duplicates_rows :
  let s := Pit.run [WScan [Pit.registry]; WHandle Pit.m2 Pit.now;
                    WFlush (mkTries ReplyLost Committed 0); WFlush Pit.ok] in
  Pit.values (db_rows s.1.2) = [Some (f_of_Z 42); Some (f_of_Z 42)] /\ db_cursor s.1.2 = 2.
Proof. vm_compute; auto. Qed.
