(* ===== verification/Framing.v ===== *)
(** The timing feed's packet framing ([src/pit/timing_feed/framing.py]).

    A document is a chain of packets: a ten-byte header (magic, a five-digit
    length, the previous and next packet ids) and the payload. The framer is
    fed whatever the socket delivered and returns the documents completed.
    Bytes are lists of 8-bit characters and text is a list of code points, so
    the UTF-8 decoding with its Latin-1 fallback is modelled as well. *)

From S2P Require Import Prelude Config.

Local Open Scope Z_scope.

Abbreviation bytes := (list ascii).
Abbreviation text := (list Z).

Definition byte_val (c : ascii) : Z := Z.of_N (N_of_ascii c).
Definition byte_of (z : Z) : ascii := ascii_of_N (Z.to_N z).

Definition len {A : Type} (l : list A) : Z := Z.of_nat (length l).

(** * [str.encode("utf-8")] and [bytes.decode("utf-8")] *)

Definition surrogate (c : Z) : bool := (55296 <=? c) && (c <=? 57343).

Definition utf8_char (c : Z) : option bytes :=
  if c <? 128 then Some [byte_of c]
  else if c <? 2048 then Some [byte_of (192 + c / 64); byte_of (128 + c mod 64)]
  else if c <? 65536 then
    if surrogate c then None
    else Some [byte_of (224 + c / 4096); byte_of (128 + c / 64 mod 64); byte_of (128 + c mod 64)]
  else Some [byte_of (240 + c / 262144); byte_of (128 + c / 4096 mod 64);
             byte_of (128 + c / 64 mod 64); byte_of (128 + c mod 64)].

Fixpoint utf8_encode (t : text) : option bytes :=
  match t with
  | [] => Some []
  | c :: t => b ← utf8_char c; r ← utf8_encode t; Some (b ++ r)
  end.

(** A continuation byte's six bits. *)
Definition cont (c : ascii) : option Z :=
  if (128 <=? byte_val c) && (byte_val c <? 192) then Some (byte_val c - 128) else None.

Fixpoint utf8_decode (l : bytes) : option text :=
  match l with
  | [] => Some []
  | a :: l =>
      let v := byte_val a in
      if v <? 128 then t ← utf8_decode l; Some (v :: t)
      else if v <? 194 then None
      else match l with
      | [] => None
      | b :: l =>
          y ← cont b;
          if v <? 224 then t ← utf8_decode l; Some ((v - 192) * 64 + y :: t)
          else match l with
          | [] => None
          | c :: l =>
              z ← cont c;
              if v <? 240 then
                let cp := (v - 224) * 4096 + y * 64 + z in
                if (cp <? 2048) || surrogate cp then None
                else t ← utf8_decode l; Some (cp :: t)
              else match l with
              | [] => None
              | d :: l =>
                  u ← cont d;
                  let cp := (v - 240) * 262144 + y * 4096 + z * 64 + u in
                  if (v <? 245) && (65536 <=? cp) && (cp <=? 1114111)
                  then t ← utf8_decode l; Some (cp :: t) else None
              end
          end
      end
  end.

(** * Packets *)

Definition MAGIC : bytes := to_chars "!@#".
Definition HEADER_LEN : Z := 10.
Definition MAX_PAYLOAD : Z := 99999.
Definition TERMINAL : ascii := "="%char.
Definition _IDS : bytes := to_chars "ABCDEFGHIJKLMNOPQRSTUVWXYZabcdefghijklmnopqrstuvwxyz".
Definition MAX_DOCUMENT_BYTES : Z := 4 * 1024 * 1024.

(** [l.index(c)]. *)
Fixpoint index_of (c : ascii) (l : bytes) : option nat :=
  match l with
  | [] => None
  | d :: l => if ascii_eqb c d then Some O else S <$> index_of c l
  end.

Definition next_packet_id (packet_id : ascii) : res ascii :=
  match index_of packet_id _IDS with
  | None => raise PacketError "not a packet id"
  | Some index => Ok (nth (Nat.modulo (index + 1) (length _IDS)) _IDS TERMINAL)
  end.

(** [f"{n:05d}"] for a length the encoder accepted (at most five digits). *)
Definition pad5 (n : Z) : bytes :=
  map (fun d => byte_of (48 + d mod 10)) [n / 10000; n / 1000; n / 100; n / 10; n].

(** Ids are single characters here by type; [.encode()] is UTF-8. *)
Definition encode_packet (payload : bytes) (previous following : ascii) : res bytes :=
  if MAX_PAYLOAD <? len payload then raise ValueError "payload exceeds MAX_PAYLOAD"
  else
    let encode c := default [] (utf8_char (byte_val c)) in
    Ok (MAGIC ++ pad5 (len payload) ++ encode previous ++ encode following ++ payload).

(** [[data[i : i + n] for i in range(0, len(data), n)]]. *)
Fixpoint slices (fuel : nat) (n : nat) (data : bytes) : list bytes :=
  match fuel, data with
  | _, [] => []
  | O, _ => []
  | S fuel, _ => take n data :: slices fuel n (drop n data)
  end.

(** The loop over the parts of a document that needs several packets. *)
Fixpoint encode_parts (parts : list bytes) (previous current : ascii) : res bytes :=
  match parts with
  | [] => Ok []
  | part :: rest =>
      let following := match rest with [] => TERMINAL | _ => current end in
      packet ← encode_packet part previous following;
      next ← next_packet_id current;
      out ← encode_parts rest current next;
      Ok (packet ++ out)
  end.

(** The document is text ([str]) or raw bytes. *)
Definition encode_document (document : text + bytes) (chunk : Z) (first_id : ascii) : res bytes :=
  let data := match document with
    | inl t => match utf8_encode t with Some b => Ok b | None => raise ValueError "surrogates not allowed" end
    | inr b => Ok b
    end in
  data ← data;
  if (chunk <=? 0) || (MAX_PAYLOAD <? chunk) then raise ValueError "chunk must be between 1 and MAX_PAYLOAD"
  else
    match slices (length data) (Z.to_nat chunk) data with
    | [] => encode_packet [] TERMINAL TERMINAL
    | [part] => encode_packet part TERMINAL TERMINAL
    | parts => encode_parts parts TERMINAL first_id
    end.

Definition decode_payload (data : bytes) : text :=
  match utf8_decode data with Some t => t | None => map byte_val data end.

(** * The framer *)

Record PacketFramer := mkFramer {
  _buffer : bytes;
  _parts : list bytes;
  _size : Z;
  _expect_previous : ascii;
  _last_following : option ascii
}.

Definition framer_init : PacketFramer := mkFramer [] [] 0 TERMINAL None.
Definition reset (self : PacketFramer) : PacketFramer := mkFramer [] [] 0 TERMINAL None.
Definition buffered (self : PacketFramer) : Z := len (_buffer self).
Definition set_buffer (self : PacketFramer) (b : bytes) : PacketFramer :=
  mkFramer b (_parts self) (_size self) (_expect_previous self) (_last_following self).

Definition _next_packet (self : PacketFramer) : PacketFramer * res (option (ascii * ascii * bytes)) :=
  let buffer := _buffer self in
  if len buffer <? HEADER_LEN then (self, Ok None)
  else
    let header := take 10 buffer in
    if bool_decide (take 3 header = MAGIC) then
      let digits := take 5 (drop 3 header) in
      if forallb is_digit digits then
        let length := digits_val digits in
        if len buffer <? HEADER_LEN + length then (self, Ok None)
        else
          let payload := take (Z.to_nat length) (drop 10 buffer) in
          (set_buffer self (drop (10 + Z.to_nat length) buffer),
           Ok (Some (nth 8 header TERMINAL, nth 9 header TERMINAL, payload)))
      else (self, raise PacketError "bad length field")
    else (self, raise PacketError "bad magic").

(** The checks on the ids of one packet. *)
Definition check_chain (self : PacketFramer) (previous following : ascii) : res unit :=
  if negb (ascii_eqb previous (_expect_previous self)) then raise PacketError "broken chain"
  else if ascii_eqb following TERMINAL then Ok tt
  else
    match index_of following _IDS with
    | None => raise PacketError "bad packet id"
    | Some _ =>
        match _last_following self with
        | None => Ok tt
        | Some last =>
            next ← next_packet_id last;
            if ascii_eqb following next then Ok tt else raise PacketError "broken chain"
        end
    end.

Definition _chain (self : PacketFramer) (previous following : ascii) (payload : bytes)
    : PacketFramer * res (option text) :=
  match check_chain self previous following with
  | Raise e => (self, Raise e)
  | Ok _ =>
      let self := mkFramer (_buffer self) (_parts self ++ [payload]) (_size self + len payload)
                    (_expect_previous self) (_last_following self) in
      if MAX_DOCUMENT_BYTES <? _size self then (self, raise PacketError "document too long")
      else if ascii_eqb following TERMINAL then
        (mkFramer (_buffer self) [] 0 TERMINAL None, Ok (Some (decode_payload (concat (_parts self)))))
      else (mkFramer (_buffer self) (_parts self) (_size self) following (Some following), Ok None)
  end.

(** The [while True] of [feed]; every packet takes bytes out of the buffer,
    so as many turns as bytes, and one more, are enough. *)
Fixpoint feed_loop (fuel : nat) (self : PacketFramer) (documents : list text)
    : option (PacketFramer * res (list text)) :=
  match fuel with
  | O => None
  | S fuel =>
      match _next_packet self with
      | (self, Raise e) => Some (reset self, Raise e)
      | (self, Ok None) => Some (self, Ok documents)
      | (self, Ok (Some (previous, following, payload))) =>
          match _chain self previous following payload with
          | (self, Raise e) => Some (reset self, Raise e)
          | (self, Ok document) => feed_loop fuel self (documents ++ opt_list document)
          end
      end
  end.

Definition push (self : PacketFramer) (data : bytes) : PacketFramer := set_buffer self (_buffer self ++ data).

Definition feed (self : PacketFramer) (data : bytes) : option (PacketFramer * res (list text)) :=
  let self := push self data in
  feed_loop (S (length (_buffer self))) self [].

(** Successive deliveries from the socket, up to the first error. *)
Fixpoint feed_all (self : PacketFramer) (deliveries : list bytes)
    : option (PacketFramer * res (list text)) :=
  match deliveries with
  | [] => Some (self, Ok [])
  | data :: deliveries =>
      match feed self data with
      | Some (self, Ok documents) =>
          match feed_all self deliveries with
          | Some (self, Ok more) => Some (self, Ok (documents ++ more))
          | other => other
          end
      | other => other
      end
  end.

(** * UTF-8 round trip *)

(** A code point [str.encode] accepts. *)
Definition scalar (c : Z) : Prop := 0 <= c <= 1114111 /\ surrogate c = false.

Lemma byte_val_of z : 0 <= z < 256 -> byte_val (byte_of z) = z.
Proof.
  intros Hz; unfold byte_val, byte_of. rewrite N_ascii_embedding by lia. lia.
Qed.

Lemma cont_byte_of z : 0 <= z < 64 -> cont (byte_of (128 + z)) = Some z.
Proof.
  intros Hz; unfold cont. rewrite byte_val_of by lia.
  replace ((128 <=? 128 + z) && (128 + z <? 192)) with true by lia. f_equal; lia.
Qed.

Ltac cases_b :=
  repeat match goal with
  | |- context [?a <? ?b] => destruct (Z.ltb_spec a b); try lia
  | |- context [?a <=? ?b] => destruct (Z.leb_spec a b); try lia
  end.

Lemma utf8_decode_char c b l :
  scalar c -> utf8_char c = Some b -> utf8_decode (b ++ l) = (t ← utf8_decode l; Some (c :: t)).
Proof.
  intros [Hc Hs]; unfold utf8_char. rewrite Hs.
  pose proof (Z.mod_pos_bound c 64) as Ha. pose proof (Z.mod_pos_bound (c / 64) 64) as Hb.
  pose proof (Z.mod_pos_bound (c / 4096) 64) as Hd.
  destruct (c <? 128) eqn:E1; [|destruct (c <? 2048) eqn:E2; [|destruct (c <? 65536) eqn:E3]];
    intros [= <-]; cbn [app utf8_decode];
    rewrite ?byte_val_of by (Z.to_euclidean_division_equations; lia);
    rewrite ?cont_byte_of by lia.
  - by rewrite E1.
  - cases_b; try (Z.to_euclidean_division_equations; lia).
    simpl. destruct (utf8_decode l); [|done]; simpl. do 2 f_equal.
    Z.to_euclidean_division_equations; lia.
  - cases_b; try (Z.to_euclidean_division_equations; lia). simpl.
    replace ((224 + c / 4096 - 224) * 4096 + c / 64 mod 64 * 64 + c mod 64) with c
      by (Z.to_euclidean_division_equations; lia).
    by rewrite Hs, orb_false_r, E2.
  - cases_b; try (Z.to_euclidean_division_equations; lia). simpl.
    replace ((240 + c / 262144 - 240) * 262144 + c / 4096 mod 64 * 4096 + c / 64 mod 64 * 64 + c mod 64)
      with c by (Z.to_euclidean_division_equations; lia).
    replace ((65536 <=? c) && (c <=? 1114111)) with true by lia.
    done.
Qed.

Lemma utf8_roundtrip t b : Forall scalar t -> utf8_encode t = Some b -> utf8_decode b = Some t.
Proof.
  revert b; induction t as [|c t IH]; intros b Ht; simpl; [by intros [= <-]|].
  apply Forall_cons in Ht as [Hc Ht].
  destruct (utf8_char c) as [x|] eqn:Ex; [|done]; simpl.
  destruct (utf8_encode t) as [y|] eqn:Ey; [|done]; simpl; intros [= <-].
  rewrite (utf8_decode_char c x) by done. by rewrite (IH y).
Qed.

(** * One packet *)

(** The ids a packet of a chain can carry. *)
Definition plain_id (c : ascii) : Prop := byte_val c < 128.

Lemma byte_of_val c : byte_of (byte_val c) = c.
Proof. unfold byte_of, byte_val. by rewrite N2Z.id, ascii_N_embedding. Qed.

Lemma byte_val_nonneg c : 0 <= byte_val c.
Proof. unfold byte_val; lia. Qed.

Lemma encode_id c : plain_id c -> utf8_char (byte_val c) = Some [c].
Proof. unfold plain_id, utf8_char; intros Hc. by rewrite (proj2 (Z.ltb_lt _ _) Hc), byte_of_val. Qed.

Lemma digit_byte d : 0 <= d < 10 -> is_digit (byte_of (48 + d)) = true /\ digit_val (byte_of (48 + d)) = d.
Proof.
  intros Hd; unfold is_digit, digit_val.
  change (Z.of_N (N_of_ascii (byte_of (48 + d)))) with (byte_val (byte_of (48 + d))).
  rewrite byte_val_of by lia. lia.
Qed.

Lemma pad5_digits n : forallb is_digit (pad5 n) = true.
Proof.
  unfold pad5; cbn [map forallb].
  by rewrite !(fun d => proj1 (digit_byte (d mod 10) (Z.mod_pos_bound d 10 eq_refl))).
Qed.

Lemma pad5_val n : 0 <= n <= MAX_PAYLOAD -> digits_val (pad5 n) = n.
Proof.
  unfold MAX_PAYLOAD; intros Hn; unfold digits_val, pad5; cbn [map foldl].
  rewrite !(fun d => proj2 (digit_byte (d mod 10) (Z.mod_pos_bound d 10 eq_refl))).
  Z.to_euclidean_division_equations; lia.
Qed.

(** What the framer reads back from a header and a payload. *)
Lemma next_of_header self pad p f payload rest :
  length pad = 5%nat -> forallb is_digit pad = true -> digits_val pad = len payload ->
  _buffer self = MAGIC ++ pad ++ p :: f :: payload ++ rest ->
  _next_packet self = (set_buffer self rest, Ok (Some (p, f, payload))).
Proof.
  intros Hpad Hd Hv Hbuf; unfold _next_packet. rewrite Hbuf.
  destruct pad as [|d1 [|d2 [|d3 [|d4 [|d5 [|]]]]]]; try done.
  cbn -[bool_decide Z.ltb Z.add digits_val forallb len take drop MAGIC].
  rewrite bool_decide_true by done. rewrite (proj2 (Z.ltb_ge _ _)) by (unfold len, HEADER_LEN; simpl; lia).
  unfold MAGIC; cbn [take drop app to_chars String.list_ascii_of_string]. rewrite Hd, Hv.
  rewrite (proj2 (Z.ltb_ge _ _)) by (unfold len, HEADER_LEN; simpl; rewrite length_app; lia).
  unfold len; rewrite Nat2Z.id. by rewrite drop_0, take_app_length, drop_app_length.
Qed.

Lemma next_of_packet self payload p f rest packet :
  plain_id p -> plain_id f -> encode_packet payload p f = Ok packet ->
  _buffer self = packet ++ rest ->
  _next_packet self = (set_buffer self rest, Ok (Some (p, f, payload))).
Proof.
  intros Hp Hf; unfold encode_packet. destruct (MAX_PAYLOAD <? len payload) eqn:E; [done|].
  rewrite !encode_id by done. intros Heq Hbuf.
  assert (Hpk : Ok packet = Ok (MAGIC ++ pad5 (len payload) ++ [p] ++ [f] ++ payload)) by (symmetry; exact Heq).
  assert (Hpk' : packet = MAGIC ++ pad5 (len payload) ++ [p] ++ [f] ++ payload) by congruence.
  apply (next_of_header self (pad5 (len payload))); [done | apply pad5_digits | |].
  - apply pad5_val; unfold len, MAX_PAYLOAD in *; lia.
  - by rewrite Hbuf, Hpk', <- !app_assoc.
Qed.

(** * Feeding in pieces *)

(** [run self docs self']: the framer, from its buffer alone, completes
    [docs] and is then short of a packet. *)
Inductive run : PacketFramer -> list text -> PacketFramer -> Prop :=
  | run_stop self : _next_packet self = (self, Ok None) -> run self [] self
  | run_packet self self1 self2 self' p f payload document docs :
      _next_packet self = (self1, Ok (Some (p, f, payload))) ->
      _chain self1 p f payload = (self2, Ok document) ->
      run self2 docs self' -> run self (opt_list document ++ docs) self'.

Lemma next_packet_cases self :
  match _next_packet self with
  | (self1, Ok None) => self1 = self
  | (self1, Ok (Some (p, f, payload))) =>
      (10 + length payload + length (_buffer self1) = length (_buffer self))%nat /\
      self1 = set_buffer self (_buffer self1) /\
      forall b, _next_packet (push self b) = (push self1 b, Ok (Some (p, f, payload)))
  | (self1, Raise e) =>
      exn_kind e = PacketError /\ forall b, (_next_packet (push self b)).2 = Raise e
  end.
Proof.
  unfold _next_packet. destruct (len (_buffer self) <? HEADER_LEN) eqn:E1; [done|].
  apply Z.ltb_ge in E1; unfold len, HEADER_LEN in E1.
  assert (Ht : forall n b, (n <= 10)%nat -> take n (_buffer self ++ b) = take n (_buffer self))
    by (intros n b Hn; apply take_app_le; lia).
  assert (Hlen : forall b, (len (_buffer (push self b)) <? HEADER_LEN) = false)
    by (intros b; apply Z.ltb_ge; unfold len, HEADER_LEN; simpl; rewrite length_app; lia).
  case_bool_decide as E2; [|split; [done|]; intros b; rewrite Hlen; simpl; rewrite Ht by lia;
    by rewrite bool_decide_false].
  destruct (forallb is_digit _) eqn:E3; [|split; [done|]; intros b; rewrite Hlen; simpl;
    rewrite Ht by lia; rewrite bool_decide_true by done; by rewrite E3].
  set (n := digits_val _) in *. destruct (len (_buffer self) <? HEADER_LEN + n) eqn:E4; [done|].
  apply Z.ltb_ge in E4; unfold len, HEADER_LEN in E4.
  split_and!; [simpl; rewrite length_take, !length_drop; lia | done |].
  intros b; rewrite Hlen; simpl. rewrite Ht by lia. rewrite bool_decide_true, E3 by done. fold n.
  rewrite (proj2 (Z.ltb_ge _ _)) by (unfold len, HEADER_LEN; simpl; rewrite length_app; lia).
  rewrite !drop_app_le, take_app_le by (rewrite ?length_drop; lia). done.
Qed.

Lemma chain_push self p f payload b :
  _chain (push self b) p f payload =
  let '(self1, r) := _chain self p f payload in (push self1 b, r).
Proof.
  unfold _chain. change (check_chain (push self b) p f) with (check_chain self p f).
  destruct (check_chain self p f); [|done]. simpl. by repeat case_match.
Qed.

Lemma push_nil self : push self [] = self.
Proof. destruct self; unfold push, set_buffer; simpl. by rewrite app_nil_r. Qed.
Lemma push_app self a b : push self (a ++ b) = push (push self a) b.
Proof. destruct self; unfold push, set_buffer; simpl. by rewrite app_assoc. Qed.

Lemma chain_buffer self p f payload : _buffer (_chain self p f payload).1 = _buffer self.
Proof. unfold _chain. by repeat case_match. Qed.

(** More bytes never change what was already completed. *)
Lemma run_split self a b docs self' :
  run (push self (a ++ b)) docs self' ->
  exists docs1 self1 docs2,
    run (push self a) docs1 self1 /\ run (push self1 b) docs2 self' /\ docs = docs1 ++ docs2.
Proof.
  rewrite push_app. remember (push (push self a) b) as g eqn:Hg. generalize (push self a) g Hg; clear.
  intros h g Hg Hrun; revert h Hg; induction Hrun as [g Hstop|g g1 g2 g' p f pl d docs Hn Hc Hrun IH];
    intros h ->.
  - pose proof (next_packet_cases h) as Hcase. destruct (_next_packet h) as [h1 [[[[p f] pl]|]|e]] eqn:Eh.
    + destruct Hcase as (_ & _ & Hb). by rewrite Hb in Hstop.
    + subst h1. exists [], h, []. split_and!; [by constructor | by constructor | done].
    + destruct Hcase as [_ Hb]. specialize (Hb b). by rewrite Hstop in Hb.
  - pose proof (next_packet_cases h) as Hcase. destruct (_next_packet h) as [h1 [[[[p' f'] pl']|]|e]] eqn:Eh.
    + destruct Hcase as (_ & _ & Hb). rewrite Hb in Hn. injection Hn as <- <- <- <-.
      rewrite chain_push in Hc. destruct (_chain h1 p' f' pl') as [h2 r] eqn:Ec.
      injection Hc as <- ->. destruct (IH h2 eq_refl) as (d1 & k & d2 & H1 & H2 & ->).
      exists (opt_list d ++ d1), k, d2. split_and!; [by econstructor | done | by rewrite app_assoc].
    + subst h1. exists [], h, (opt_list d ++ docs). split_and!; [by constructor | by econstructor | done].
    + destruct Hcase as [_ Hb]. specialize (Hb b). by rewrite Hn in Hb.
Qed.

Lemma feed_run self docs self' : run self docs self' ->
  forall fuel acc, (length (_buffer self) < fuel)%nat -> feed_loop fuel self acc = Some (self', Ok (acc ++ docs)).
Proof.
  induction 1 as [g Hstop|g g1 g2 g' p f pl d docs Hn Hc _ IH]; intros fuel acc Hf;
    (destruct fuel as [|fuel]; [lia|]); cbn [feed_loop].
  - by rewrite Hstop, app_nil_r.
  - pose proof (next_packet_cases g) as Hcase. rewrite Hn in Hcase |- *. destruct Hcase as (Hl & _ & _).
    rewrite Hc. pose proof (chain_buffer g1 p f pl) as Hb. rewrite Hc in Hb; simpl in Hb.
    rewrite IH by (rewrite Hb; lia). by rewrite app_assoc.
Qed.

Definition stuck (self : PacketFramer) : Prop := _next_packet self = (self, Ok None).

Lemma run_stuck self docs self' : run self docs self' -> stuck self'.
Proof. by induction 1. Qed.

Lemma feed_all_run deliveries : forall self docs self',
  stuck self -> run (push self (concat deliveries)) docs self' ->
  feed_all self deliveries = Some (self', Ok docs).
Proof.
  induction deliveries as [|data ds IH]; intros self docs self' Hs; simpl.
  - rewrite push_nil. intros Hrun; inversion Hrun as [? Hn|????????? Hn]; subst; [done|].
    unfold stuck in Hs; rewrite Hs in Hn; discriminate.
  - intros (d1 & k & d2 & H1 & H2 & ->)%run_split.
    unfold feed. rewrite (feed_run _ _ _ H1) by lia. simpl.
    by rewrite (IH k d2 self' (run_stuck _ _ _ H1) H2).
Qed.

(** * A document's packets read back *)

Lemma index_of_In c l n : index_of c l = Some n -> c ∈ l.
Proof.
  revert n; induction l as [|d l IH]; intros n; simpl; [done|].
  destruct (ascii_eqb c d) eqn:E; [apply Ascii.eqb_eq in E as ->; left|].
  destruct (index_of c l); [|done]. right; eauto.
Qed.

Lemma ids_plain c n : index_of c _IDS = Some n -> plain_id c /\ c <> TERMINAL.
Proof.
  intros Hc%index_of_In.
  assert (Hall : Forall (fun c => plain_id c /\ c <> TERMINAL) _IDS)
    by (repeat constructor; discriminate).
  by apply (Forall_forall _ _) with (x := c) in Hall.
Qed.

Lemma next_id_index c d : next_packet_id c = Ok d -> exists n, index_of c _IDS = Some n.
Proof. unfold next_packet_id. destruct (index_of c _IDS); [eauto|done]. Qed.

(** The framer expects this packet next. *)
Definition expects (self : PacketFramer) (previous current : ascii) : Prop :=
  _expect_previous self = previous /\
  match _last_following self with None => True | Some l => next_packet_id l = Ok current end.

Definition total_len (l : list bytes) : Z := len (concat l).

Lemma total_len_cons a l : total_len (a :: l) = len a + total_len l.
Proof. unfold total_len, len; simpl. rewrite length_app; lia. Qed.

Lemma ascii_eqb_refl c : ascii_eqb c c = true.
Proof. apply Ascii.eqb_refl. Qed.

Lemma chain_last self previous payload current :
  expects self previous current -> _size self + len payload <= MAX_DOCUMENT_BYTES ->
  _chain self previous TERMINAL payload =
  (mkFramer (_buffer self) [] 0 TERMINAL None, Ok (Some (decode_payload (concat (_parts self ++ [payload]))))).
Proof.
  intros [He _] Hs; unfold _chain, check_chain. rewrite He, ascii_eqb_refl. simpl.
  by rewrite (proj2 (Z.ltb_ge _ _)) by exact Hs.
Qed.

Lemma chain_more self previous payload current n :
  expects self previous current -> index_of current _IDS = Some n ->
  _size self + len payload <= MAX_DOCUMENT_BYTES ->
  _chain self previous current payload =
  (mkFramer (_buffer self) (_parts self ++ [payload]) (_size self + len payload) current (Some current), Ok None).
Proof.
  intros [He Hl] Hc Hs; unfold _chain, check_chain. rewrite He, ascii_eqb_refl, Hc. simpl.
  assert (Hne : ascii_eqb current TERMINAL = false)
    by (apply Ascii.eqb_neq; exact (proj2 (ids_plain _ _ Hc))).
  rewrite Hne. destruct (_last_following self) as [l|]; simpl.
  - rewrite Hl; simpl. rewrite ascii_eqb_refl. by rewrite (proj2 (Z.ltb_ge _ _)) by exact Hs.
  - by rewrite (proj2 (Z.ltb_ge _ _)) by exact Hs.
Qed.

Lemma run_parts parts : forall previous current out self rest docs self',
  parts <> [] -> encode_parts parts previous current = Ok out -> plain_id previous ->
  expects self previous current -> _buffer self = out ++ rest ->
  _size self + total_len parts <= MAX_DOCUMENT_BYTES ->
  run (set_buffer framer_init rest) docs self' ->
  run self (decode_payload (concat (_parts self ++ parts)) :: docs) self'.
Proof.
  induction parts as [|part parts IH]; intros previous current out self rest docs self' Hne Henc Hp Hx Hbuf Hs Hrun;
    [done|]. cbn [encode_parts] in Henc.
  apply res_bind_Ok in Henc as (packet & Hpk & Henc). apply res_bind_Ok in Henc as (next & Hnx & Henc).
  apply res_bind_Ok in Henc as (out' & Henc & [= <-]). rewrite <- app_assoc in Hbuf.
  destruct (next_id_index _ _ Hnx) as [n Hn]. destruct (ids_plain _ _ Hn) as [Hcp _].
  rewrite total_len_cons in Hs. pose proof (next_of_packet self part previous) as Hnext.
  destruct parts as [|part' parts].
  - injection Henc as <-.
    apply (run_packet self _ _ self' _ _ _ (Some _) docs
      (Hnext TERMINAL rest packet Hp ltac:(done) Hpk Hbuf)
      (chain_last (set_buffer self rest) previous part current Hx ltac:(unfold total_len, len in *; simpl in *; lia))).
    exact Hrun.
  - assert (0 <= total_len (part' :: parts)) by (unfold total_len, len; lia).
    apply (run_packet self _ _ self' _ _ _ None (decode_payload (concat (_parts self ++ part :: part' :: parts)) :: docs)
      (Hnext current _ packet Hp Hcp Hpk Hbuf)
      (chain_more (set_buffer self _) previous part current n Hx Hn ltac:(simpl; lia))).
    replace (_parts self ++ part :: part' :: parts) with ((_parts self ++ [part]) ++ part' :: parts)
      by (by rewrite <- app_assoc).
    by apply (IH current next out' (mkFramer (out' ++ rest) (_parts self ++ [part]) (_size self + len part) current (Some current))
      rest docs self'); [| | | split | | simpl; lia |].
Qed.

Lemma slices_concat fuel n data :
  (0 < n)%nat -> (length data <= fuel)%nat -> concat (slices fuel n data) = data.
Proof.
  intros Hn; revert data; induction fuel as [|fuel IH]; intros [|a data] Hf; simpl in *; try done; [lia|].
  destruct n as [|n]; [lia|]. rewrite IH by (simpl; rewrite length_drop; lia).
  simpl. by rewrite take_drop.
Qed.

(** Code points of a Python [str]. *)
Definition code_points (t : text) : Prop := Forall (fun c => 0 <= c <= 1114111) t.

Lemma utf8_encode_scalar t b : code_points t -> utf8_encode t = Some b -> Forall scalar t.
Proof.
  revert b; induction t as [|c t IH]; intros b Ht; simpl; [constructor|].
  apply Forall_cons in Ht as [Hc Ht].
  destruct (utf8_char c) as [x|] eqn:Ex; [|done]; simpl.
  destruct (utf8_encode t) as [y|] eqn:Ey; [|done]; intros _. constructor; [|eauto].
  split; [done|]. destruct (surrogate c) eqn:Es; [|done].
  unfold utf8_char in Ex. rewrite Es in Ex. unfold surrogate in Es.
  rewrite (proj2 (Z.ltb_ge c 128)), (proj2 (Z.ltb_ge c 2048)), (proj2 (Z.ltb_lt c 65536)) in Ex by lia. done.
Qed.

(** What a document goes on the wire as, and what the reader makes of it. *)
Definition wire_bytes (document : text + bytes) : option bytes :=
  match document with inl t => utf8_encode t | inr b => Some b end.
Definition read_back (document : text + bytes) : text :=
  match document with inl t => t | inr b => decode_payload b end.
Definition sendable (document : text + bytes) : Prop :=
  match document with inl t => code_points t | inr _ => True end /\
  match wire_bytes document with Some b => len b <= MAX_DOCUMENT_BYTES | None => True end.

Lemma decode_wire document b :
  sendable document -> wire_bytes document = Some b -> decode_payload b = read_back document.
Proof.
  intros [Hc _]; destruct document as [t|b']; simpl; [|by intros [= <-]].
  intros He. unfold decode_payload. rewrite (utf8_roundtrip t b); [done | eauto using utf8_encode_scalar | done].
Qed.

Lemma run_document document chunk first_id out rest docs self' :
  sendable document -> encode_document document chunk first_id = Ok out ->
  run (set_buffer framer_init rest) docs self' ->
  run (set_buffer framer_init (out ++ rest)) (read_back document :: docs) self'.
Proof.
  intros Hok Henc Hrun. unfold encode_document in Henc. fold (wire_bytes document) in Henc.
  apply res_bind_Ok in Henc as (data & Hdata & Henc).
  assert (Hw : wire_bytes document = Some data).
  { unfold raise in Hdata; destruct document as [t|b]; simpl in *; [destruct (utf8_encode t)|]; congruence. }
  rewrite <- (decode_wire _ _ Hok Hw). destruct Hok as [_ Hsize]. rewrite Hw in Hsize.
  destruct ((chunk <=? 0) || (MAX_PAYLOAD <? chunk)) eqn:Ec; [done|].
  pose proof (slices_concat (length data) (Z.to_nat chunk) data ltac:(lia) ltac:(lia)) as Hcat.
  set (self := set_buffer framer_init (out ++ rest)).
  assert (Hsingle : forall part, part = data -> encode_packet part TERMINAL TERMINAL = Ok out ->
            run self (decode_payload data :: docs) self').
  { intros part -> Hp.
    apply (run_packet self _ _ self' _ _ _ (Some (decode_payload (concat [data]))) docs
      (next_of_packet self data TERMINAL TERMINAL rest out ltac:(done) ltac:(done) Hp eq_refl)
      (chain_last (set_buffer self rest) TERMINAL data TERMINAL ltac:(done) ltac:(simpl; lia))) in Hrun.
    simpl in Hrun. by rewrite app_nil_r in Hrun. }
  destruct (slices _ _ data) as [|part [|part' parts]].
  - by apply (Hsingle []).
  - apply (Hsingle part); [|done]. simpl in Hcat. by rewrite app_nil_r in Hcat.
  - rewrite <- Hcat in Hsize |- *.
    by apply (run_parts (part :: part' :: parts) TERMINAL first_id out self rest docs self').
Qed.

(** C9. Documents sent one after another are read back whole and in order,
    however the socket cut their bytes up, and the framer ends ready for the
    next one. *)
Theorem framing_roundtrip documents streams chunk first_id deliveries :
  Forall2 (fun d out => sendable d /\ encode_document d chunk first_id = Ok out) documents streams ->
  concat deliveries = concat streams ->
  feed_all framer_init deliveries = Some (framer_init, Ok (map read_back documents)).
Proof.
  intros Hall Hcat. apply feed_all_run; [done|]. rewrite Hcat. clear Hcat deliveries.
  change (push framer_init (concat streams)) with (set_buffer framer_init (concat streams)).
  induction Hall as [|d out ds outs [Hok Henc] _ IH]; simpl; [by constructor|].
  by apply (run_document d chunk first_id).
Qed.

(** A two-packet document and a one-packet one, cut in the middle of a header. *)
Definition sent : list (text + bytes) := [inl (map byte_val (to_chars "hello") ++ [233; 8364]); inr ["a"%char]].
Definition wired : list bytes :=
  map (fun d => match encode_document d 6 "Y" with Ok b => b | Raise _ => [] end) sent.

Theorem framing_roundtrip_witness :
  feed_all framer_init [take 4 (concat wired); drop 4 (concat wired)] =
  Some (framer_init, Ok (map read_back sent)).
Proof.
  apply (framing_roundtrip sent wired 6 "Y").
  - repeat constructor; try (cbn; lia); vm_compute; try discriminate; done.
  - vm_compute; reflexivity.
Defined.

(** * What a connection can make the framer hold *)

Definition framer_wf (self : PacketFramer) : Prop :=
  _size self = total_len (_parts self) /\ _size self <= MAX_DOCUMENT_BYTES.

Lemma digits_bound_acc l acc :
  forallb is_digit l = true -> 0 <= acc ->
  0 <= foldl (fun acc c => 10 * acc + digit_val c) acc l < (acc + 1) * 10 ^ len l.
Proof.
  revert acc; induction l as [|c l IH]; intros acc Hd Ha; simpl in *; [unfold len; simpl; lia|].
  apply andb_true_iff in Hd as [Hc Hd]. unfold is_digit in Hc.
  assert (Hv : 0 <= digit_val c <= 9) by (unfold digit_val; lia).
  specialize (IH (10 * acc + digit_val c) Hd ltac:(lia)).
  replace (len (c :: l)) with (Z.succ (len l)) by (unfold len; simpl; lia).
  rewrite Z.pow_succ_r by (unfold len; lia).
  assert (0 < 10 ^ len l) by (apply Z.pow_pos_nonneg; unfold len; lia). nia.
Qed.

Lemma digits_bound l : forallb is_digit l = true -> (length l <= 5)%nat -> 0 <= digits_val l < 100000.
Proof.
  intros Hd Hl. pose proof (digits_bound_acc l 0 Hd ltac:(lia)) as H. fold (digits_val l) in H.
  assert (10 ^ len l <= 10 ^ 5) by (apply Z.pow_le_mono_r; unfold len; lia). lia.
Qed.

Lemma stuck_bound self : stuck self -> len (_buffer self) < HEADER_LEN + 100000.
Proof.
  unfold stuck, _next_packet. destruct (len (_buffer self) <? HEADER_LEN) eqn:E1; [unfold HEADER_LEN in *; lia|].
  case_bool_decide; [|discriminate 1]. destruct (forallb is_digit _) eqn:E; [|discriminate 1].
  apply digits_bound in E; [|rewrite length_take; lia].
  destruct (len (_buffer self) <? HEADER_LEN + _) eqn:E2; [|discriminate 1]. intros _. apply Z.ltb_lt in E2. lia.
Qed.

Lemma check_chain_error self p f e : check_chain self p f = Raise e -> exn_kind e = PacketError.
Proof.
  unfold check_chain. destruct (negb _); [by intros [= <-]|]. destruct (ascii_eqb _ _); [discriminate 1|].
  destruct (index_of f _IDS); [|by intros [= <-]]. destruct (_last_following self) as [l|]; [|discriminate 1].
  unfold next_packet_id; destruct (index_of l _IDS); [|by intros [= <-]]. simpl.
  destruct (ascii_eqb f _); [discriminate 1 | by intros [= <-]].
Qed.

Lemma chain_wf self p f payload :
  framer_wf self ->
  match _chain self p f payload with
  | (self1, Ok _) => framer_wf self1
  | (_, Raise e) => exn_kind e = PacketError
  end.
Proof.
  intros [Hs Hm]; unfold _chain. destruct (check_chain self p f) eqn:E; [|by eapply check_chain_error].
  simpl. destruct (MAX_DOCUMENT_BYTES <? _) eqn:Em; [done|]. apply Z.ltb_ge in Em.
  destruct (ascii_eqb f TERMINAL); split; simpl; try done.
  unfold total_len, len in *. rewrite concat_app, length_app; simpl; rewrite app_nil_r. lia.
Qed.

(** Any bytes at all are consumed in a finite number of turns. A violation
    raises [PacketError] and leaves the framer as new; otherwise it holds less
    than one packet unframed, and never more of a document than the limit. *)
Theorem framer_bounded self data :
  framer_wf self ->
  exists self' r, feed self data = Some (self', r) /\ framer_wf self' /\
    match r with
    | Ok _ => buffered self' < HEADER_LEN + MAX_PAYLOAD + 1
    | Raise e => self' = framer_init /\ exn_kind e = PacketError
    end.
Proof.
  unfold feed. intros Hwf0.
  assert (Hwf : framer_wf (push self data)) by exact Hwf0. clear Hwf0.
  set (g := push self data) in *. generalize (@nil text) as acc.
  assert (Hfuel : (length (_buffer g) < S (length (_buffer g)))%nat) by lia.
  revert Hfuel Hwf. generalize (S (length (_buffer g))) as fuel. generalize g. clear self data g.
  intros g fuel; revert g; induction fuel as [|fuel IH]; intros g Hf Hwf acc; [lia|]; cbn [feed_loop].
  pose proof (next_packet_cases g) as Hcase.
  destruct (_next_packet g) as [g1 [[[[p f] pl]|]|e]] eqn:En.
  - destruct Hcase as (Hl & Hg1 & _).
    assert (Hwf1 : framer_wf g1) by (rewrite Hg1; exact Hwf).
    apply (chain_wf _ p f pl) in Hwf1. pose proof (chain_buffer g1 p f pl) as Hb.
    destruct (_chain _ p f pl) as [g2 [d|e]]; simpl in Hb.
    + apply IH; [rewrite Hb; lia | done].
    + by exists framer_init, (Raise e).
  - subst g1. exists g, (Ok acc). split_and!; [done | done |].
    pose proof (stuck_bound g En). unfold buffered, MAX_PAYLOAD; lia.
  - destruct Hcase as [He _]. by exists framer_init, (Raise e).
Qed.

Theorem framer_bounded_witness : framer_wf framer_init /\
  exists self' r, feed framer_init (to_chars "!@#0000X") = Some (self', r) /\ framer_wf self' /\
    match r with
    | Ok _ => buffered self' < HEADER_LEN + MAX_PAYLOAD + 1
    | Raise e => self' = framer_init /\ exn_kind e = PacketError
    end.
Proof.
  assert (H : framer_wf framer_init) by (split; vm_compute; done).
  split; [exact H | exact (framer_bounded framer_init (to_chars "!@#0000X") H)].
Defined.
