(* ===== verification/WebSocket.v ===== *)
(** The ingest endpoint's WebSocket ([src/pit/timing_feed/websocket.py]):
    frames, and the reassembly of messages.

    A stream is the chunks the socket will deliver, none of them empty until
    its end; [read] gives no more than it is asked for, and may give less. What
    is written to the peer is a list of frames. [websocket_delivers] is the
    contract: whatever the chunks, and however the client fragments its
    messages around pings, the texts come out whole, once and in order. *)

From S2P Require Import Prelude Config Framing.

Local Open Scope Z_scope.

Definition MAX_MESSAGE_BYTES : Z := 1024 * 1024.
Definition OP_CONTINUATION : Z := 0.
Definition OP_TEXT : Z := 1.
Definition OP_BINARY : Z := 2.
Definition OP_CLOSE : Z := 8.
Definition OP_PING : Z := 9.
Definition OP_PONG : Z := 10.

(** [struct.pack] and [unpack] of an unsigned big-endian integer of [n]
    bytes. *)
Fixpoint pack (n : nat) (z : Z) : bytes :=
  match n with O => [] | S n => byte_of (Z.shiftr z (8 * Z.of_nat n) mod 256) :: pack n z end.
Definition unpack (l : bytes) : Z := fold_left (fun acc b => acc * 256 + byte_val b) l 0.

(** [bytes(b ^ mask[i % 4] for i, b in enumerate(payload))]. *)
Definition xor_byte (a b : ascii) : ascii := byte_of (Z.lxor (byte_val a) (byte_val b)).
Definition apply_mask (mask payload : bytes) : bytes :=
  imap (fun i b => xor_byte b (default "000"%char (mask !! (i mod 4)%nat))) payload.

(** The length's code and its extension. *)
Definition length_code (length : Z) : Z := if length <? 126 then length else if length <? 65536 then 126 else 127.
Definition length_bytes (length : Z) : bytes :=
  if length <? 126 then [] else if length <? 65536 then pack 2 length else pack 8 length.

(** A frame as RFC 6455 has it, last or not; [mask] is four bytes. *)
Definition wire_frame (fin : bool) (opcode : Z) (payload : bytes) (mask : option bytes) : bytes :=
  byte_of (Z.lor (if fin then 128 else 0) (Z.land opcode 15))
  :: byte_of (Z.lor (match mask with Some _ => 128 | None => 0 end) (length_code (len payload)))
  :: length_bytes (len payload) ++
     match mask with Some m => m ++ apply_mask m payload | None => payload end.

Definition encode_frame (opcode : Z) (payload : bytes) (mask : option bytes) : res bytes :=
  match mask with
  | Some m => if len m =? 4 then Ok (wire_frame true opcode payload mask) else raise ValueError "mask is four bytes"
  | None => Ok (wire_frame true opcode payload None)
  end.

(** [reason] in UTF-8, cut at 120 bytes. *)
Definition encode_close (code : Z) (reason : bytes) : bytes :=
  wire_frame true OP_CLOSE (pack 2 code ++ take 120 reason) None.

(** * Reading *)

Abbreviation stream := (list bytes).

Definition read (s : stream) (n : nat) : bytes * stream :=
  match s with
  | [] => ([], [])
  | c :: s => (take n c, match drop n c with [] => s | r => r :: s end)
  end.

(** The end of the stream before the bytes are there is [EOFError]. *)
Fixpoint _read_exact (fuel : nat) (s : stream) (size : nat) : option (bytes * stream) :=
  match size, fuel with
  | O, _ => Some ([], s)
  | S _, O => None
  | S _, S fuel =>
      match read s size with
      | ([], _) => None
      | (chunk, s) => '(rest, s) ← _read_exact fuel s (size - length chunk)%nat; Some (chunk ++ rest, s)
      end
  end.
Definition read_exact (s : stream) (size : nat) : option (bytes * stream) := _read_exact size s size.

Record frame := mkFrame { fin : bool; opcode : Z; payload : bytes }.

Inductive read_result :=
  | Got (f : frame) (rest : stream)
  | Eof
  | Broken (why : string).

(** The payload, once the length is known. *)
Definition read_payload (s : stream) (require_mask masked fin : bool) (opcode length : Z) : read_result :=
  if MAX_MESSAGE_BYTES <? length then Broken "frame exceeds the cap"
  else if require_mask && negb masked then Broken "client frame is not masked"
  else
    match (if masked then '(m, s) ← read_exact s 4; Some (Some m, s) else Some (None, s)) with
    | None => Eof
    | Some (mask, s) =>
        match read_exact s (Z.to_nat length) with
        | None => Eof
        | Some (data, s) => Got (mkFrame fin opcode (match mask with Some m => apply_mask m data | None => data end)) s
        end
    end.

Definition read_frame (s : stream) (require_mask : bool) : read_result :=
  match read_exact s 2 with
  | Some ([a; b], s) =>
      let first := byte_val a in
      let second := byte_val b in
      if negb (Z.land first 112 =? 0) then Broken "reserved bits set"
      else
        let fin := negb (Z.land first 128 =? 0) in
        let masked := negb (Z.land second 128 =? 0) in
        let code := Z.land second 127 in
        let with_length k := match read_exact s k with
                             | Some (l, s) => read_payload s require_mask masked fin (Z.land first 15) (unpack l)
                             | None => Eof
                             end in
        if code =? 126 then with_length 2%nat
        else if code =? 127 then with_length 8%nat
        else read_payload s require_mask masked fin (Z.land first 15) code
  | _ => Eof
  end.

(** * Messages *)

(** How the conversation ended: the peer went away, it said close and was
    answered, or it broke a rule. *)
Inductive ending := Gone | Closed | Violation (why : string) | Unfinished.

(** What a frame does to the open message: a step with perhaps a text and a
    reply, or the end. *)
Inductive reaction :=
  | Next (parts : list bytes) (size : Z) (said : option text) (reply : option bytes)
  | Stop (reply : option bytes) (e : ending).

Definition data_frame (f : frame) (parts : list bytes) (size : Z) : reaction :=
  if MAX_MESSAGE_BYTES <? size then Stop None (Violation "message exceeds the cap")
  else if fin f then
    match utf8_decode (concat parts) with
    | Some t => Next [] 0 (Some t) None
    | None => Stop None (Violation "message is not UTF-8")
    end
  else Next parts size None None.

Definition on_frame (parts : list bytes) (size : Z) (f : frame) : reaction :=
  let op := opcode f in
  if op =? OP_CLOSE then Stop (Some (encode_close 1000 [])) Closed
  else if op =? OP_PING then Next parts size None (Some (wire_frame true OP_PONG (payload f) None))
  else if op =? OP_PONG then Next parts size None None
  else if (op =? OP_TEXT) || (op =? OP_BINARY) then
    match parts with
    | _ :: _ => Stop None (Violation "new message while a fragmented one is open")
    | [] => data_frame f [payload f] (len (payload f))
    end
  else if op =? OP_CONTINUATION then
    match parts with
    | [] => Stop None (Violation "continuation without a message")
    | _ => data_frame f (parts ++ [payload f]) (size + len (payload f))
    end
  else Stop None (Violation "unknown opcode").

(** The texts yielded, the frames written and the end. *)
Record talk := mkTalk { said : list text; wrote : list bytes; ended : ending }.
Definition opt_cons {A : Type} (o : option A) (l : list A) : list A := match o with Some a => a :: l | None => l end.

Fixpoint messages_loop (fuel : nat) (s : stream) (parts : list bytes) (size : Z) : talk :=
  match fuel with
  | O => mkTalk [] [] Unfinished
  | S fuel =>
      match read_frame s true with
      | Eof => mkTalk [] [] Gone
      | Broken why => mkTalk [] [] (Violation why)
      | Got f s =>
          match on_frame parts size f with
          | Stop reply e => mkTalk [] (opt_cons reply []) e
          | Next parts size t reply =>
              let r := messages_loop fuel s parts size in
              mkTalk (opt_cons t (said r)) (opt_cons reply (wrote r)) (ended r)
          end
      end
  end.

(** Every frame is at least two bytes, so there are no more turns than bytes. *)
Definition messages (s : stream) : talk := messages_loop (S (length (concat s))) s [] 0.

(** * Bytes *)

(** A property of small numbers, by trying them. *)
Lemma below (n : nat) (P : Z -> bool) :
  forallb P (map Z.of_nat (seq 0 n)) = true -> forall z, 0 <= z < Z.of_nat n -> P z = true.
Proof.
  intros H z Hz. rewrite forallb_forall in H. apply H. apply in_map_iff. exists (Z.to_nat z). split; [lia|].
  apply in_seq. lia.
Qed.

Lemma byte_val_range b : 0 <= byte_val b < 256.
Proof. unfold byte_val. pose proof (N_ascii_bounded b). lia. Qed.

Lemma unpack_pack n z acc : fold_left (fun acc b => acc * 256 + byte_val b) (pack n z) acc = acc * 256 ^ Z.of_nat n + z mod 256 ^ Z.of_nat n.
Proof.
  revert acc; induction n as [|n IH]; intros acc; [simpl; rewrite Z.mod_1_r; lia|].
  cbn [pack fold_left]. rewrite IH, byte_val_of by (apply Z.mod_pos_bound; lia).
  rewrite Z.shiftr_div_pow2 by lia. replace (2 ^ (8 * Z.of_nat n)) with (256 ^ Z.of_nat n) by (rewrite Z.pow_mul_r by lia; done).
  rewrite Nat2Z.inj_succ, Z.pow_succ_r by lia. rewrite (Z.mul_comm 256 (256 ^ _)), Z.rem_mul_r by lia. lia.
Qed.

Lemma pack_length n z : length (pack n z) = n.
Proof. induction n; simpl; auto. Qed.

Lemma unpack_ok n z : 0 <= z < 256 ^ Z.of_nat n -> unpack (pack n z) = z.
Proof. intros Hz. unfold unpack. rewrite unpack_pack, Z.mod_small; lia. Qed.

Lemma xor_byte_twice a b : xor_byte (xor_byte a b) b = a.
Proof.
  unfold xor_byte. rewrite byte_val_of.
  - rewrite Z.lxor_assoc, Z.lxor_nilpotent, Z.lxor_0_r. apply byte_of_val.
  - pose proof (byte_val_range a) as Ha. pose proof (byte_val_range b) as Hb. split; [apply Z.lxor_nonneg; lia|].
    destruct (decide (Z.lxor (byte_val a) (byte_val b) = 0)) as [->|Hne]; [lia|].
    assert (Hn : 0 <= Z.lxor (byte_val a) (byte_val b)) by (apply Z.lxor_nonneg; lia).
    change 256 with (2 ^ 8) in *. apply Z.log2_lt_pow2; [lia|]. eapply Z.le_lt_trans; [apply Z.log2_lxor; lia|].
    apply Z.max_lub_lt; [destruct (decide (byte_val a = 0)) as [->|] | destruct (decide (byte_val b = 0)) as [->|]];
      [simpl; lia | apply Z.log2_lt_pow2; lia..| simpl; lia | apply Z.log2_lt_pow2; lia].
Qed.

Lemma mask_twice m p : apply_mask m (apply_mask m p) = p.
Proof.
  unfold apply_mask. apply list_eq. intros i. rewrite !list_lookup_imap.
  destruct (p !! i); simpl; [by rewrite xor_byte_twice | done].
Qed.

Lemma mask_length m p : length (apply_mask m p) = length p.
Proof. apply length_imap. Qed.

(** The header's bits. *)
Lemma first_byte f op :
  0 <= op < 16 ->
  let v := byte_val (byte_of (Z.lor (if f : bool then 128 else 0) (Z.land op 15))) in
  (Z.land v 112 =? 0) && Bool.eqb (negb (Z.land v 128 =? 0)) f && (Z.land v 15 =? op) = true.
Proof.
  intros Hop. apply (below 16 (fun op => let v := byte_val (byte_of (Z.lor (if f then 128 else 0) (Z.land op 15))) in
    (Z.land v 112 =? 0) && Bool.eqb (negb (Z.land v 128 =? 0)) f && (Z.land v 15 =? op))); [|lia].
  by destruct f; vm_compute.
Qed.

Lemma second_byte (masked : bool) code :
  0 <= code < 128 ->
  let v := byte_val (byte_of (Z.lor (if masked then 128 else 0) code)) in
  (Z.land v 127 =? code) && Bool.eqb (negb (Z.land v 128 =? 0)) masked = true.
Proof.
  intros Hc. apply (below 128 (fun code => let v := byte_val (byte_of (Z.lor (if masked then 128 else 0) code)) in
    (Z.land v 127 =? code) && Bool.eqb (negb (Z.land v 128 =? 0)) masked)); [|lia].
  by destruct masked; vm_compute.
Qed.

(** * Reading exactly *)

Definition chunked (s : stream) : Prop := Forall (fun c => c <> []) s.

Lemma read_spec s n :
  chunked s ->
  let '(chunk, s') := read s n in
  chunked s' /\ concat s = chunk ++ concat s' /\ (length chunk <= n)%nat /\ (chunk = [] -> (0 < n)%nat -> concat s = []).
Proof.
  intros Hs. destruct s as [|c s]; [by split_and!; [constructor | | simpl; lia |]|].
  inversion_clear Hs as [|? ? Hc Hs']. cbn [read concat].
  split_and!.
  - destruct (drop n c) eqn:E; [done | by constructor].
  - rewrite <- (take_drop n c) at 1. rewrite <- app_assoc. f_equal. by destruct (drop n c).
  - rewrite length_take. lia.
  - destruct c, n; try done. lia.
Qed.

Lemma read_exact_spec fuel : forall s size,
  chunked s -> (size <= fuel)%nat ->
  if (size <=? length (concat s))%nat
  then exists s', _read_exact fuel s size = Some (take size (concat s), s') /\ concat s' = drop size (concat s) /\ chunked s'
  else _read_exact fuel s size = None.
Proof.
  induction fuel as [|fuel IH]; intros s size Hs Hf.
  - destruct size; [|lia]. simpl. exists s. by rewrite take_0, drop_0.
  - destruct size as [|size]; [simpl; exists s; by rewrite take_0, drop_0|]. cbn [_read_exact].
    pose proof (read_spec s (S size) Hs) as Hr. destruct (read s (S size)) as [[|b chunk] s1].
    + destruct Hr as (_ & _ & _ & Hr). by rewrite Hr by (done || lia).
    + destruct Hr as (R1 & -> & R3 & _). specialize (IH s1 (S size - length (b :: chunk))%nat R1 ltac:(simpl; lia)).
      rewrite length_app, take_app, drop_app. rewrite (take_ge (b :: chunk)), (drop_ge (b :: chunk)) by done.
      replace (S size - length (b :: chunk) <=? length (concat s1))%nat with (S size <=? length (b :: chunk) + length (concat s1))%nat in IH
        by (apply eq_true_iff_eq; rewrite !Nat.leb_le; lia).
      destruct (S size <=? _)%nat; [|by rewrite IH]. destruct IH as (s' & -> & H1 & H2). exists s'. done.
Qed.

(** What is there is read, and only that. *)
Lemma read_exact_app s l r :
  chunked s -> concat s = l ++ r -> exists s', read_exact s (length l) = Some (l, s') /\ concat s' = r /\ chunked s'.
Proof.
  intros Hs Hc. pose proof (read_exact_spec (length l) s (length l) Hs ltac:(lia)) as H. rewrite Hc in H.
  rewrite length_app in H. rewrite (proj2 (Nat.leb_le _ _)) in H by lia. destruct H as (s' & H1 & H2 & H3).
  exists s'. unfold read_exact. rewrite H1, take_app_length, H2, drop_app_length. done.
Qed.

Lemma read_exact_some s n l s' :
  chunked s -> read_exact s n = Some (l, s') -> concat s = l ++ concat s' /\ length l = n /\ chunked s'.
Proof.
  intros Hs He. pose proof (read_exact_spec n s n Hs ltac:(lia)) as H. unfold read_exact in He. rewrite He in H.
  destruct (n <=? length (concat s))%nat eqn:E; [|done]. apply Nat.leb_le in E.
  destruct H as (s1 & [= -> <-] & H1 & H2). rewrite H1, take_drop, length_take. split_and!; [done | lia | done].
Qed.

(** * A frame comes back *)

Definition frame_ok (f : frame) (m : bytes) : Prop := 0 <= opcode f < 16 /\ len (payload f) <= MAX_MESSAGE_BYTES /\ length m = 4%nat.

Lemma length_code_range n : 0 <= n -> 0 <= length_code n < 128.
Proof. unfold length_code. intros Hn. repeat case_match; lia. Qed.

(** Whatever the chunks, the frame that was written is the frame read, and
    what follows it is left. *)
Theorem frame_roundtrip (f : frame) (m : option bytes) (s : stream) (more : bytes) (require_mask : bool) :
  0 <= opcode f < 16 -> len (payload f) <= MAX_MESSAGE_BYTES ->
  match m with Some m => length m = 4%nat | None => require_mask = false end ->
  chunked s -> concat s = wire_frame (fin f) (opcode f) (payload f) m ++ more ->
  exists rest, read_frame s require_mask = Got f rest /\ concat rest = more /\ chunked rest.
Proof.
  intros Hop Hlen Hm Hs Hc. unfold wire_frame in Hc. set (n := len (payload f)) in *.
  assert (Hn : 0 <= n) by (unfold n, len; lia).
  set (a := byte_of (Z.lor (if fin f then 128 else 0) _)) in *. set (b := byte_of (Z.lor _ (length_code n))) in *.
  set (body := match m with Some m => m ++ apply_mask m (payload f) | None => payload f end) in *.
  destruct (read_exact_app s [a; b] (length_bytes n ++ body ++ more) Hs) as (s1 & R1 & C1 & K1).
  { rewrite Hc. cbn [app]. by rewrite <- app_assoc. }
  cbn [length] in R1. unfold read_frame. rewrite R1.
  pose proof (first_byte (fin f) (opcode f) Hop) as Ha. fold a in Ha. cbv zeta in Ha.
  apply andb_true_iff in Ha as [[Ha1 Ha2%Bool.eqb_prop]%andb_true_iff Ha3%Z.eqb_eq].
  pose proof (second_byte (match m with Some _ => true | None => false end) (length_code n) (length_code_range n Hn)) as Hb.
  cbv zeta in Hb. replace (byte_of (Z.lor (if match m with Some _ => true | None => false end then 128 else 0) (length_code n))) with b in Hb
    by (unfold b; by destruct m).
  apply andb_true_iff in Hb as [Hb1%Z.eqb_eq Hb2%Bool.eqb_prop].
  rewrite Ha1, Ha2, Ha3, Hb1, Hb2. cbn [negb].
  assert (Hpay : forall s2, chunked s2 -> concat s2 = body ++ more ->
            exists rest, read_payload s2 require_mask (match m with Some _ => true | None => false end) (fin f) (opcode f) n = Got f rest /\
              concat rest = more /\ chunked rest).
  { intros s2 K2 C2. unfold read_payload. replace (MAX_MESSAGE_BYTES <? n) with false by lia.
    replace (require_mask && negb (match m with Some _ => true | None => false end)) with false by (destruct m; [by rewrite andb_false_r | by rewrite Hm]).
    destruct m as [m|].
    - unfold body in C2. rewrite <- app_assoc in C2. destruct (read_exact_app s2 m _ K2 C2) as (s3 & R3 & C3 & K3).
      rewrite Hm in R3. rewrite R3. destruct (read_exact_app s3 _ _ K3 C3) as (s4 & R4 & C4 & K4).
      rewrite mask_length in R4. unfold n, len. rewrite Nat2Z.id. cbn [mbind option_bind]. rewrite R4, mask_twice. exists s4. by destruct f.
    - unfold body in C2. destruct (read_exact_app s2 _ _ K2 C2) as (s4 & R4 & C4 & K4).
      unfold n, len. rewrite Nat2Z.id, R4. exists s4. by destruct f. }
  assert (Hlong : forall k, (k = 2 \/ k = 8)%nat -> n < 256 ^ Z.of_nat k -> length_bytes n = pack k n ->
            exists rest, match read_exact s1 k with
                         | Some (l, s2) => read_payload s2 require_mask (match m with Some _ => true | None => false end) (fin f) (opcode f) (unpack l)
                         | None => Eof end = Got f rest /\ concat rest = more /\ chunked rest).
  { intros k Hk Hlt Hl. rewrite Hl in C1. destruct (read_exact_app s1 _ _ K1 C1) as (s2 & R2 & C2 & K2).
    rewrite pack_length in R2. rewrite R2, unpack_ok by lia. by apply Hpay. }
  unfold length_code, length_bytes in *. destruct (n <? 126) eqn:E1.
  - replace (n =? 126) with false by lia. replace (n =? 127) with false by lia. by apply Hpay.
  - destruct (n <? 65536) eqn:E2; cbn [Z.eqb Pos.eqb]; apply Hlong; try tauto; try done; simpl; unfold MAX_MESSAGE_BYTES in *; lia.
Qed.

(** * Messages *)

(** The loop over frames already read. *)
Fixpoint assemble (fs : list frame) (parts : list bytes) (size : Z) : talk :=
  match fs with
  | [] => mkTalk [] [] Gone
  | f :: fs =>
      match on_frame parts size f with
      | Stop reply e => mkTalk [] (opt_cons reply []) e
      | Next parts size t reply =>
          let r := assemble fs parts size in mkTalk (opt_cons t (said r)) (opt_cons reply (wrote r)) (ended r)
      end
  end.

Definition on_wire (fm : frame * bytes) : bytes := wire_frame (fin fm.1) (opcode fm.1) (payload fm.1) (Some fm.2).
Definition sendable (fm : frame * bytes) : Prop := frame_ok fm.1 fm.2.

Lemma chunked_nil s : chunked s -> concat s = [] -> s = [].
Proof. destruct s as [|c s]; [done|]. intros Hs%Forall_inv Hc. by destruct c. Qed.

(** The bytes are the frames: reading and reassembling are two things. *)
Lemma loop_refines fs : forall s parts size fuel,
  Forall sendable fs -> chunked s -> concat s = concat (map on_wire fs) -> (length (concat s) < fuel)%nat ->
  messages_loop fuel s parts size = assemble (map fst fs) parts size.
Proof.
  induction fs as [|[f m] fs IH]; intros s parts size fuel Hok Hs Hc Hf; (destruct fuel as [|fuel]; [lia|]); cbn [messages_loop map assemble].
  - by rewrite (chunked_nil s Hs Hc).
  - inversion_clear Hok as [|? ? (H1 & H2 & H3) Hok']. cbn [map concat fst] in *.
    destruct (frame_roundtrip f (Some m) s (concat (map on_wire fs)) true H1 H2 H3 Hs Hc) as (rest & -> & Hr & Hk).
    assert (Hlen : (length (concat rest) < fuel)%nat).
    { rewrite Hc, length_app in Hf. rewrite Hr. assert (2 <= length (on_wire (f, m)))%nat by (unfold on_wire, wire_frame; cbn [length]; lia). lia. }
    destruct (on_frame parts size f) as [parts' size' t reply|reply e]; [|done]. by rewrite (IH rest parts' size' fuel).
Qed.

(** ** A client's conversation *)

Definition is_control (f : frame) : bool := (opcode f =? OP_PING) || (opcode f =? OP_PONG).
Definition cont_frame (last : bool) (data : bytes) : frame := mkFrame last OP_CONTINUATION data.

(** The rest of a message already begun, with pings and pongs in between. *)
Inductive rest_of : bytes -> list frame -> Prop :=
  | Rest_last data : rest_of data [cont_frame true data]
  | Rest_more data data' fs : rest_of data' fs -> rest_of (data ++ data') (cont_frame false data :: fs)
  | Rest_control f data fs : is_control f = true -> rest_of data fs -> rest_of data (f :: fs).

(** Texts, each in one frame or in fragments. *)
Inductive speaks : list text -> list frame -> Prop :=
  | Speak_nothing : speaks [] []
  | Speak_control f ts fs : is_control f = true -> speaks ts fs -> speaks ts (f :: fs)
  | Speak_whole op data t ts fs :
      op = OP_TEXT \/ op = OP_BINARY -> utf8_decode data = Some t -> len data <= MAX_MESSAGE_BYTES ->
      speaks ts fs -> speaks (t :: ts) (mkFrame true op data :: fs)
  | Speak_parts op data data' t ts fs fs' :
      op = OP_TEXT \/ op = OP_BINARY -> rest_of data' fs ->
      utf8_decode (data ++ data') = Some t -> len (data ++ data') <= MAX_MESSAGE_BYTES ->
      speaks ts fs' -> speaks (t :: ts) (mkFrame false op data :: fs ++ fs').

Definition pong_to (f : frame) : bytes := wire_frame true OP_PONG (payload f) None.
Definition pongs (fs : list frame) : list bytes := map pong_to (List.filter (fun f => opcode f =? OP_PING) fs).

Lemma control_turn parts size f :
  is_control f = true -> on_frame parts size f = Next parts size None (if opcode f =? OP_PING then Some (pong_to f) else None).
Proof.
  unfold is_control, on_frame, OP_CLOSE, OP_PING, OP_PONG. intros H.
  destruct (Z.eqb_spec (opcode f) 9) as [->|]; [done|]. destruct (Z.eqb_spec (opcode f) 10) as [->|]; done.
Qed.

Lemma pongs_cons f fs : pongs (f :: fs) = (if opcode f =? OP_PING then [pong_to f] else []) ++ pongs fs.
Proof. unfold pongs. cbn [List.filter]. by destruct (opcode f =? OP_PING). Qed.

Lemma rest_assembles data fs :
  rest_of data fs -> forall parts tail t,
  parts <> [] -> utf8_decode (concat parts ++ data) = Some t -> len (concat parts ++ data) <= MAX_MESSAGE_BYTES ->
  assemble (fs ++ tail) parts (len (concat parts)) =
    let r := assemble tail [] 0 in mkTalk (t :: said r) (pongs fs ++ wrote r) (ended r).
Proof.
  induction 1 as [data|data data' fs Hr IH|f data fs Hf Hr IH]; intros parts tail t Hp Ht Hl; cbn [app assemble].
  - unfold on_frame. cbn. destruct parts as [|p parts]; [done|]. unfold data_frame. cbn [payload cont_frame fin].
    assert (Hcat : concat ((p :: parts) ++ [data]) = concat (p :: parts) ++ data) by (rewrite concat_app; cbn; by rewrite app_nil_r).
    replace (MAX_MESSAGE_BYTES <? _) with false by (unfold len in *; rewrite length_app in Hl; lia). by rewrite Hcat, Ht.
  - unfold on_frame. cbn. destruct parts as [|p parts]; [done|]. unfold data_frame. cbn [payload cont_frame fin].
    assert (Hcat : concat ((p :: parts) ++ [data]) = concat (p :: parts) ++ data) by (rewrite concat_app; cbn; by rewrite app_nil_r).
    assert (Hlen : len (concat (p :: parts)) + len data = len (concat ((p :: parts) ++ [data])))
      by (rewrite Hcat; unfold len; rewrite length_app; lia).
    assert (Hx : (MAX_MESSAGE_BYTES <? len (concat (p :: parts)) + len data) = false).
    { apply Z.ltb_ge. rewrite Hlen, Hcat. revert Hl. generalize (concat (p :: parts)). intros q. unfold len. rewrite !length_app. lia. }
    rewrite Hx.
    rewrite Hlen, (IH ((p :: parts) ++ [data]) tail t); [done | by destruct parts | |]; rewrite Hcat, <- app_assoc; done.
  - rewrite (control_turn _ _ _ Hf), (IH parts tail t Hp Ht Hl), pongs_cons. cbn. by destruct (opcode f =? OP_PING).
Qed.

Lemma talk_assembles ts fs : speaks ts fs -> assemble fs [] 0 = mkTalk ts (pongs fs) Gone.
Proof.
  induction 1 as [|f ts fs Hf Hs IH|op data t ts fs Hop Ht Hl Hs IH|op data data' t ts fs fs' Hop Hr Ht Hl Hs IH].
  - done.
  - cbn [assemble]. rewrite (control_turn _ _ _ Hf), IH, pongs_cons. cbn. by destruct (opcode f =? OP_PING).
  - assert (Hturn : on_frame [] 0 (mkFrame true op data) = Next [] 0 (Some t) None).
    { unfold on_frame, data_frame. cbn [opcode payload fin concat]. rewrite app_nil_r, Ht.
      replace (MAX_MESSAGE_BYTES <? len data) with false by lia. by destruct Hop as [-> | ->]. }
    cbn [assemble]. rewrite Hturn, IH, pongs_cons. cbn. by destruct Hop as [-> | ->].
  - assert (Hturn : on_frame [] 0 (mkFrame false op data) = Next [data] (len (concat [data])) None None).
    { unfold on_frame, data_frame. cbn [opcode payload fin concat]. rewrite app_nil_r.
      replace (MAX_MESSAGE_BYTES <? len data) with false by (unfold len in *; rewrite length_app in Hl; lia).
      by destruct Hop as [-> | ->]. }
    cbn [assemble]. rewrite Hturn. rewrite (rest_assembles _ _ Hr [data] fs' t); [|done | cbn; by rewrite app_nil_r..].
    rewrite IH. cbn [said wrote ended opt_cons]. rewrite pongs_cons. unfold pongs. rewrite List.filter_app, map_app.
    by destruct Hop as [-> | ->].
Qed.

(** C26. However a client fragments its messages around pings and pongs, whatever
    masks it chooses and however the socket cuts the bytes, the texts come out
    whole, once and in order, and every ping is answered with its payload. *)
Theorem websocket_delivers (ts : list text) (sent : list (frame * bytes)) (s : stream) :
  speaks ts (map fst sent) -> Forall sendable sent -> chunked s -> concat s = concat (map on_wire sent) ->
  messages s = mkTalk ts (pongs (map fst sent)) Gone.
Proof.
  intros Ht Hok Hs Hc. unfold messages. rewrite (loop_refines sent s [] 0 _ Hok Hs Hc) by lia. by apply talk_assembles.
Qed.

(** ** Any peer at all *)

Lemma read_payload_shrinks s rm masked f op n fr rest :
  chunked s -> read_payload s rm masked f op n = Got fr rest ->
  chunked rest /\ (length (concat rest) <= length (concat s))%nat /\ len (payload fr) <= MAX_MESSAGE_BYTES.
Proof.
  intros Hs. unfold read_payload. destruct (MAX_MESSAGE_BYTES <? n) eqn:En; [done|]. destruct (rm && negb masked); [done|].
  destruct masked.
  - destruct (read_exact s 4) as [[m s1]|] eqn:E1; cbn [mbind option_bind]; [|done].
    destruct (read_exact_some _ _ _ _ Hs E1) as (C1 & L1 & K1).
    destruct (read_exact s1 (Z.to_nat n)) as [[d s2]|] eqn:E2; [|done]. destruct (read_exact_some _ _ _ _ K1 E2) as (C2 & L2 & K2).
    intros [= <- <-]. split_and!; [done | rewrite C1, C2, !length_app; lia |]. cbn [payload]. unfold len. rewrite mask_length.
    unfold MAX_MESSAGE_BYTES in *. lia.
  - destruct (read_exact s (Z.to_nat n)) as [[d s2]|] eqn:E2; [|done]. destruct (read_exact_some _ _ _ _ Hs E2) as (C2 & L2 & K2).
    intros [= <- <-]. split_and!; [done | rewrite C2, !length_app; lia |]. cbn [payload]. unfold len, MAX_MESSAGE_BYTES in *. lia.
Qed.

Lemma read_frame_shrinks s rm f rest :
  chunked s -> read_frame s rm = Got f rest ->
  chunked rest /\ (length (concat rest) + 2 <= length (concat s))%nat /\ len (payload f) <= MAX_MESSAGE_BYTES.
Proof.
  intros Hs. unfold read_frame. destruct (read_exact s 2) as [[[|a [|b [|? ?]]] s1]|] eqn:E; try done.
  destruct (read_exact_some _ _ _ _ Hs E) as (C1 & _ & K1). destruct (negb (Z.land (byte_val a) 112 =? 0)); [done|].
  assert (Hlong : forall k, match read_exact s1 k with
            | Some (l, s2) => read_payload s2 rm (negb (Z.land (byte_val b) 128 =? 0)) (negb (Z.land (byte_val a) 128 =? 0)) (Z.land (byte_val a) 15) (unpack l)
            | None => Eof end = Got f rest ->
            chunked rest /\ (length (concat rest) + 2 <= length (concat s))%nat /\ len (payload f) <= MAX_MESSAGE_BYTES).
  { intros k. destruct (read_exact s1 k) as [[l s2]|] eqn:E2; [|done]. destruct (read_exact_some _ _ _ _ K1 E2) as (C2 & _ & K2).
    intros H%read_payload_shrinks; [|done]. rewrite C1, C2. cbn [app length]. rewrite length_app. destruct H as (? & ? & ?). split_and!; [done | lia | done]. }
  destruct (_ =? 126); [apply Hlong|]. destruct (_ =? 127); [apply Hlong|].
  intros H%read_payload_shrinks; [|done]. rewrite C1. cbn [app length]. destruct H as (? & ? & ?). split_and!; [done | lia | done].
Qed.

Lemma loop_bounded fuel : forall s parts size,
  chunked s -> (length (concat s) < fuel)%nat -> size = len (concat parts) ->
  let r := messages_loop fuel s parts size in
  ended r <> Unfinished /\ Forall (fun t => exists data, utf8_decode data = Some t /\ len data <= MAX_MESSAGE_BYTES) (said r).
Proof.
  induction fuel as [|fuel IH]; intros s parts size Hs Hf Hsz; [lia|]. cbn [messages_loop].
  destruct (read_frame s true) as [f rest| |why] eqn:E; [|by split; [|constructor]..].
  destruct (read_frame_shrinks s true f rest Hs E) as (K & L & _).
  assert (Hdata : forall ps sz, sz = len (concat ps) ->
            match data_frame f ps sz with
            | Next p' s' t _ => s' = len (concat p') /\ forall x, t = Some x -> exists data, utf8_decode data = Some x /\ len data <= MAX_MESSAGE_BYTES
            | Stop _ e => e <> Unfinished
            end).
  { intros ps sz ->. unfold data_frame. destruct (MAX_MESSAGE_BYTES <? len (concat ps)) eqn:El; [done|].
    destruct (fin f); [|done]. destruct (utf8_decode (concat ps)) as [t|] eqn:Et; [|done].
    split; [done|]. intros x [= <-]. exists (concat ps). split; [done | lia]. }
  assert (Hon : match on_frame parts size f with
            | Next p' s' t _ => s' = len (concat p') /\ forall x, t = Some x -> exists data, utf8_decode data = Some x /\ len data <= MAX_MESSAGE_BYTES
            | Stop _ e => e <> Unfinished
            end).
  { unfold on_frame. destruct (_ =? OP_CLOSE); [done|]. destruct (_ =? OP_PING); [done|]. destruct (_ =? OP_PONG); [done|].
    destruct (_ || _).
    - destruct parts; [|done]. apply Hdata. cbn. by rewrite app_nil_r.
    - destruct (_ =? OP_CONTINUATION); [|done]. destruct parts as [|p parts]; [done|]. apply Hdata.
      rewrite Hsz, concat_app. replace (concat [payload f]) with (payload f) by (simpl; by rewrite app_nil_r).
      generalize (concat (p :: parts)). intros q. unfold len. rewrite length_app. lia. }
  destruct (on_frame parts size f) as [p' s' t reply|reply e]; cbn [ended said]; [|by split; [|constructor]].
  destruct Hon as [H1 H2]. destruct (IH rest p' s' K ltac:(lia) H1) as [H3 H4]. split; [done|].
  destruct t as [x|]; [|done]. constructor; [by apply H2 | done].
Qed.

(** Whatever a peer sends, the conversation ends with the stream at the
    latest, and no message is longer than the cap. *)
Theorem messages_bounded (s : stream) :
  chunked s ->
  ended (messages s) <> Unfinished /\
  Forall (fun t => exists data, utf8_decode data = Some t /\ len data <= MAX_MESSAGE_BYTES) (said (messages s)).
Proof. intros Hs. apply (loop_bounded _ s [] 0 Hs); [lia | done]. Qed.

(** "hi" in two fragments around a ping, a byte at a time. *)
Module Client.
Definition mask : bytes := to_chars "mask".
Definition sent : list (frame * bytes) :=
  [(mkFrame false OP_TEXT (to_chars "h"), mask); (mkFrame true OP_PING (to_chars "?"), mask);
   (mkFrame true OP_CONTINUATION (to_chars "i"), mask)].
Definition chunks : stream := map (fun b => [b]) (concat (map on_wire sent)).
End Client.

Lemma websocket_delivers_witness :
  messages Client.chunks = mkTalk [[104; 105]] (pongs (map fst Client.sent)) Gone.
Proof.
  apply (websocket_delivers [[104; 105]] Client.sent Client.chunks).
  - apply (Speak_parts OP_TEXT (to_chars "h") (to_chars "i") [104; 105] []
      [mkFrame true OP_PING (to_chars "?"); mkFrame true OP_CONTINUATION (to_chars "i")] []);
      [by left | apply Rest_control; [reflexivity | apply Rest_last] | vm_compute; reflexivity | vm_compute; discriminate | apply Speak_nothing].
  - repeat (apply Forall_cons; split); try apply Forall_nil; try done; split_and!; vm_compute; congruence.
  - repeat (apply Forall_cons; split); try apply Forall_nil; try done.
  - vm_compute. reflexivity.
Defined.

Lemma frame_roundtrip_witness :
  exists rest, read_frame Client.chunks true = Got (mkFrame false OP_TEXT (to_chars "h")) rest /\
    concat rest = concat (map on_wire (drop 1 Client.sent)) /\ chunked rest.
Proof.
  apply (frame_roundtrip (mkFrame false OP_TEXT (to_chars "h")) (Some Client.mask)); try done.
  repeat (apply Forall_cons; split); try apply Forall_nil; try done.
Defined.

(** A peer that promises more than it sends is gone, not waited for. *)
Lemma messages_bounded_witness :
  messages [to_chars "!!!"] = mkTalk [] [] (Violation "reserved bits set") /\
  ended (messages [to_chars "!!!"]) <> Unfinished /\
  Forall (fun t => exists data, utf8_decode data = Some t /\ len data <= MAX_MESSAGE_BYTES) (said (messages [to_chars "!!!"])).
Proof.
  split; [vm_compute; reflexivity|]. apply messages_bounded. repeat (apply Forall_cons; split); try apply Forall_nil; done.
Defined.
