(* ===== verification/Extrapolator.v ===== *)
(** The pit's elapsed clocks ([src/pit/timing_extrapolator/engine.py]) and the
    guard the service puts around the engine ([service.py], the sample loop of
    [_handle_message]).

    Sample values are decoded objects; [json.loads], [str] of an object and
    the numbers a string denotes are the platform's. *)

From S2P Require Import Prelude PyFloat Laps.

Local Open Scope Z_scope.

Record ClockPolicy := mkPolicy {
  fallback_max_lap_s : float;
  max_clock_offset_s : float;
  max_clock_stratum : Z;
  allowed_clock_sources : list string;
  best_lap_multiple : float
}.

Record ClockValue := mkClock {
  cv_value : option float;
  cv_status : string;
  cv_reason : option string
}.

Record TimingExtrapolator := mkExtra {
  policy : ClockPolicy;
  _lap_started_at : option float;
  _sector_started_at : option float;
  _best_lap_s : option float;
  _clock : list (string * obj)
}.

Definition extrapolator_init (policy : ClockPolicy) : TimingExtrapolator := mkExtra policy None None None [].

Definition set_lap_start (s : TimingExtrapolator) (x : float) : TimingExtrapolator :=
  mkExtra (policy s) (Some x) (_sector_started_at s) (_best_lap_s s) (_clock s).
Definition set_sector_start (s : TimingExtrapolator) (x : float) : TimingExtrapolator :=
  mkExtra (policy s) (_lap_started_at s) (Some x) (_best_lap_s s) (_clock s).

(** [str.upper] on ASCII. *)
Definition ascii_upper (c : ascii) : ascii :=
  let n := N_of_ascii c in
  if (97 <=? n)%N && (n <=? 122)%N then ascii_of_N (n - 32) else c.
Fixpoint str_upper (s : string) : string :=
  match s with EmptyString => EmptyString | String c s => String (ascii_upper c) (str_upper s) end.

(** [d[key]]. *)
Definition oitem (key : string) (d : list (string * obj)) : res obj :=
  match od_get key d with Some v => Ok v | None => raise KeyError key end.

Section Engine.
Context (json_loads : string -> option obj) (py_str : obj -> string).
Context (float_of_str : string -> res float) (int_of_str : string -> res Z).

Abbreviation as_float := (py_float float_of_str).
Abbreviation as_int := (py_int int_of_str).

Definition outputs := list (string * ClockValue).

Definition authoritative (channel : string) (x : float) : outputs :=
  [(channel, mkClock (Some x) "authoritative" None)].

Definition observe_sector (self : TimingExtrapolator) (event : list (string * obj)) (crossed_at : float)
    : TimingExtrapolator * res outputs :=
  match (v ← oitem "split_time" event; as_float v) with
  | Raise e => (self, Raise e)
  | Ok split =>
      let self := set_sector_start self crossed_at in
      match as_int (ogetd "sector" (OInt 0) event) with
      | Raise e => (self, Raise e)
      | Ok sector =>
          let joins := match _lap_started_at self with None => sector =? 1 | Some _ => false end in
          (if joins then set_lap_start self (fsub crossed_at split) else self,
           Ok (authoritative "timing.sector_elapsed_pit" split))
      end
  end.

Definition observe_lap (self : TimingExtrapolator) (event : list (string * obj)) (crossed_at : float)
    : TimingExtrapolator * res outputs :=
  let self := set_sector_start (set_lap_start self crossed_at) crossed_at in
  match (v ← oitem "lap_time" event; as_float v) with
  | Raise e => (self, Raise e)
  | Ok lap_time => (self, Ok (authoritative "timing.lap_elapsed_pit" lap_time))
  end.

Definition observe_event (self : TimingExtrapolator) (value : obj) : TimingExtrapolator * res outputs :=
  match json_loads (py_str value) with
  | None => (self, raise ValueError "JSONDecodeError")
  | Some (ODict event) =>
      let event_type := oget "type" event in
      match (v ← oitem "time" event; as_float v) with
      | Raise e => (self, Raise e)
      | Ok crossed_at =>
          match event_type with
          | OStr t =>
              if String.eqb t "sector_completed" then observe_sector self event crossed_at
              else if String.eqb t "lap_completed" then observe_lap self event crossed_at
              else (self, Ok [])
          | _ => (self, Ok [])
          end
      end
  | Some _ => (self, raise AttributeError "object has no attribute 'get'")
  end.

Definition clock_prefix : string := "sys.host.clock_".

Definition observe (self : TimingExtrapolator) (channel : string) (value : obj)
    : TimingExtrapolator * res outputs :=
  if String.prefix clock_prefix channel then
    (mkExtra (policy self) (_lap_started_at self) (_sector_started_at self) (_best_lap_s self)
       (od_set channel value (_clock self)), Ok [])
  else if String.eqb channel "lap.best_time" then
    match as_float value with
    | Raise e => (self, Raise e)
    | Ok best =>
        (if fltb f0 best
         then mkExtra (policy self) (_lap_started_at self) (_sector_started_at self) (Some best) (_clock self)
         else self, Ok [])
    end
  else if String.eqb channel "lap.event" then observe_event self value
  else (self, Ok []).

Definition _runaway_bound (self : TimingExtrapolator) : float :=
  match _best_lap_s self with
  | None => fallback_max_lap_s (policy self)
  | Some best => fmin (fallback_max_lap_s (policy self)) (fmul best (best_lap_multiple (policy self)))
  end.

Definition _clock_gate_reason (self : TimingExtrapolator) : res (option string) :=
  match od_get "sys.host.clock_offset_s" (_clock self), od_get "sys.host.clock_stratum" (_clock self),
        od_get "sys.host.clock_source" (_clock self) with
  | Some offset, Some stratum, Some source =>
      let checked :=
        x ← as_float offset;
        if fltb (max_clock_offset_s (policy self)) (fabs x) then Ok (Some "clock_offset")
        else
          n ← as_int stratum;
          if max_clock_stratum (policy self) <? n then Ok (Some "clock_stratum") else Ok None in
      match checked with
      | Raise e =>
          match exn_kind e with
          | TypeError | ValueError | OverflowError => Ok (Some "clock_health_invalid")
          | _ => Raise e
          end
      | Ok (Some reason) => Ok (Some reason)
      | Ok None =>
          if bool_decide (str_upper (py_str source) ∈ allowed_clock_sources (policy self)) then Ok None
          else Ok (Some "clock_source")
      end
  | _, _, _ => Ok (Some "clock_health_missing")
  end.

(** One clock of [tick]. *)
Definition tick_clock (self : TimingExtrapolator) (reason : option string) (now started_at : float) : ClockValue :=
  match reason with
  | Some r => mkClock None "gated" (Some r)
  | None =>
      let elapsed := fmax f0 (fsub now started_at) in
      let bound := _runaway_bound self in
      if fltb bound elapsed then mkClock (Some bound) "degraded" (Some "runaway")
      else mkClock (Some elapsed) "extrapolating" None
  end.

Definition tick (self : TimingExtrapolator) (now : float) : res outputs :=
  reason ← _clock_gate_reason self;
  Ok (omap (fun '(channel, started_at) =>
        (fun s => (channel, tick_clock self reason now s)) <$> started_at)
      [("timing.lap_elapsed_pit", _lap_started_at self); ("timing.sector_elapsed_pit", _sector_started_at self)]).

(** The service's loop over the samples of a batch: what the engine refuses is
    counted, anything else it raises goes on up. *)
Definition refused (e : exn) : bool :=
  match exn_kind e with KeyError | TypeError | ValueError | OverflowError => true | _ => false end.

Definition _INPUT_CHANNELS : list string :=
  ["lap.event"; "lap.best_time"; "lap.sector"; "sys.host.clock_offset_s"; "sys.host.clock_stratum"; "sys.host.clock_source"].

Fixpoint handle_samples (self : TimingExtrapolator) (malformed : Z) (samples : list (string * obj))
    : TimingExtrapolator * Z * res (list outputs) :=
  match samples with
  | [] => (self, malformed, Ok [])
  | (channel, value) :: samples =>
      if negb (bool_decide (channel ∈ _INPUT_CHANNELS)) then handle_samples self malformed samples
      else
        match observe self channel value with
        | (self, Raise e) =>
            if refused e then handle_samples self (malformed + 1) samples else (self, malformed, Raise e)
        | (self, Ok values) =>
            match handle_samples self malformed samples with
            | (self, malformed, Ok more) => (self, malformed, Ok (values :: more))
            | other => other
            end
        end
  end.

(** * The clocks stay in range *)

Definition policy_ok (p : ClockPolicy) : Prop :=
  fleb f0 (fallback_max_lap_s p) = true /\ fleb f0 (best_lap_multiple p) = true.

Definition extra_wf (p : ClockPolicy) (s : TimingExtrapolator) : Prop :=
  policy s = p /\ match _best_lap_s s with Some b => fltb f0 b = true | None => True end.

Lemma extra_observe_wf p s channel value : extra_wf p s -> extra_wf p (observe s channel value).1.
Proof.
  intros Hwf; unfold observe, observe_event, observe_sector, observe_lap.
  repeat (case_match; simplify_eq/=; try done); destruct Hwf; by split.
Qed.

Lemma handle_samples_wf p samples : forall s malformed,
  extra_wf p s -> extra_wf p (handle_samples s malformed samples).1.1.
Proof.
  induction samples as [|[c v] l IH]; intros s malformed Hwf; simpl; [done|].
  case_bool_decide; simpl; [|auto].
  pose proof (extra_observe_wf p s c v Hwf) as Hw. destruct (observe s c v) as [s1 [o|e]]; simpl in Hw.
  - specialize (IH s1 malformed Hw). by destruct (handle_samples s1 malformed l) as [[? ?] [?|?]].
  - destruct (refused e); auto.
Qed.

(** The bound is a number in range: a NaN product loses to the fallback. *)
Lemma runaway_bound_ok p s :
  policy_ok p -> extra_wf p s ->
  fleb f0 (_runaway_bound s) = true /\ fleb (_runaway_bound s) (fallback_max_lap_s p) = true.
Proof.
  intros [Hf Hm] [<- Hb]; unfold _runaway_bound. destruct (_best_lap_s s) as [b|]; [|split; forder].
  unfold fmin. destruct (fltb (fmul b _) _) eqn:E; [|split; forder].
  split; [|by apply fltb_fleb].
  destruct (fmul_nonneg b (best_lap_multiple (policy s))) as [Hn|Hs]; [by apply fltb_fleb | done | | done].
  apply fltb_nan_l in E as [E _]. by rewrite E in Hn.
Qed.

Lemma tick_clock_ok p s reason now started x :
  policy_ok p -> extra_wf p s -> cv_value (tick_clock s reason now started) = Some x ->
  reason = None /\ fleb f0 x = true /\ fleb x (fallback_max_lap_s p) = true.
Proof.
  intros Hp Hs; unfold tick_clock. destruct reason; [done|].
  destruct (runaway_bound_ok p s Hp Hs) as [Hb1 Hb2].
  destruct (fltb _ _) eqn:E; simpl; intros [= <-]; (split; [done|]); [done|].
  revert E; unfold fmax. destruct (fltb f0 _) eqn:E0; intros E; split; forder.
Qed.

(** The numbers a string denotes, or [ValueError]: documented for [float] and
    [int]. *)
Definition value_errors {A : Type} (f : string -> res A) : Prop :=
  forall s e, f s = Raise e -> exn_kind e = ValueError.

Lemma as_float_error v e :
  value_errors float_of_str -> as_float v = Raise e ->
  exn_kind e = TypeError \/ exn_kind e = ValueError \/ exn_kind e = OverflowError.
Proof.
  intros Hf; destruct v; simpl; try done; try (intros [= <-]; by left).
  - unfold float_of_int. destruct (is_finite _); [done|]. intros [= <-]; by right; right.
  - intros ?%Hf; by right; left.
Qed.

Lemma as_int_error v e :
  value_errors int_of_str -> as_int v = Raise e ->
  exn_kind e = TypeError \/ exn_kind e = ValueError \/ exn_kind e = OverflowError.
Proof.
  intros Hf; destruct v; simpl; try done; try (intros [= <-]; by left).
  - unfold f_trunc, int_guard. destruct x; try done; intros [= <-]; [by right; right | by right; left].
  - intros ?%Hf; by right; left.
Qed.

Lemma gate_total s :
  value_errors float_of_str -> value_errors int_of_str -> exists r, _clock_gate_reason s = Ok r.
Proof.
  intros Hf Hi; unfold _clock_gate_reason. set (k1 := "sys.host.clock_offset_s").
  destruct (od_get k1 _) as [o|]; [|eauto]. destruct (od_get _ _) as [n|]; [|eauto].
  destruct (od_get _ _) as [c|]; [|eauto].
  destruct (x ← as_float o; _) as [[r|]|e] eqn:E; [eauto | case_match; eauto |].
  assert (exn_kind e = TypeError \/ exn_kind e = ValueError \/ exn_kind e = OverflowError) as [-> | [-> | ->]]; [|eauto..].
  destruct (as_float o) as [x|e'] eqn:Ef; simpl in E.
  - destruct (fltb _ _); [done|]. destruct (as_int n) as [z|e'] eqn:En; simpl in E.
    + by destruct (_ <? _).
    + injection E as <-. by eapply as_int_error.
  - injection E as <-. by eapply as_float_error.
Qed.

(** After any samples, every tick returns, and every elapsed time it
    publishes is a number between zero and the fallback limit; a clock that
    fails the health gate publishes no number. *)
Theorem extrapolation_bounded p samples malformed now :
  value_errors float_of_str -> value_errors int_of_str -> policy_ok p ->
  let s := (handle_samples (extrapolator_init p) malformed samples).1.1 in
  exists reason out, _clock_gate_reason s = Ok reason /\ tick s now = Ok out /\
    forall channel v, (channel, v) ∈ out ->
      match cv_value v with
      | Some x => reason = None /\ fleb f0 x = true /\ fleb x (fallback_max_lap_s p) = true
      | None => reason <> None /\ cv_status v = "gated"
      end.
Proof.
  intros Hf Hi Hp s. destruct (gate_total s Hf Hi) as [reason Hr].
  assert (Hwf : extra_wf p s) by (apply handle_samples_wf; done).
  exists reason. unfold tick; rewrite Hr. eexists; split; [done|]; split; [done|].
  intros channel v ([c0 [started|]] & Hin & Hv)%list_elem_of_omap; [|done]. injection Hv as -> <-.
  destruct (cv_value _) eqn:E; [by eapply tick_clock_ok|].
  revert E; unfold tick_clock. destruct reason; [done|]. by destruct (fltb _ _).
Qed.

(** An event whose JSON is not an object raises what the sample loop does not
    catch, so the samples after it in the batch are not looked at. *)
Theorem non_object_event_escapes s malformed value decoded samples :
  json_loads (py_str value) = Some decoded -> (forall d, decoded <> ODict d) ->
  handle_samples s malformed (("lap.event", value) :: samples) =
    (s, malformed, raise AttributeError "object has no attribute 'get'").
Proof.
  intros Hl Hd; cbn [handle_samples observe]. unfold observe; simpl. unfold observe_event. rewrite Hl.
  destruct decoded; try done. by destruct (Hd d).
Qed.
End Engine.

Module Garage.
Definition lit (n d : Z) : float := f_of_ratio n d.
Definition policy : ClockPolicy := mkPolicy (lit 300 1) (lit 1 10) 4 ["GPS"; "PPS"; "NTP"] (lit 3 1).
Definition str_of (o : obj) : string := match o with OStr s => s | _ => "" end.
Definition loads (s : string) : option obj :=
  if String.eqb s "lap" then Some (ODict [("type", OStr "lap_completed"); ("time", OFloat (lit 1000 1)); ("lap_time", OInt 90)])
  else if String.eqb s "[]" then Some (OList []) else None.
Definition no_float (s : string) : res float := raise ValueError s.
Definition no_int (s : string) : res Z := raise ValueError s.
Definition clock (offset : float) : list (string * obj) :=
  [("sys.host.clock_offset_s", OFloat offset); ("sys.host.clock_stratum", OInt 1);
   ("sys.host.clock_source", OStr "gps")].
Definition after (samples : list (string * obj)) : TimingExtrapolator :=
  (handle_samples loads str_of no_float no_int (extrapolator_init policy) 0 samples).1.1.
Definition samples (offset : float) : list (string * obj) := clock offset ++ [("lap.event", OStr "lap")].
End Garage.

Lemma extrapolation_bounded_witness :
  exists reason out,
    _clock_gate_reason Garage.str_of Garage.no_float Garage.no_int (Garage.after (Garage.samples f0)) = Ok reason /\
    tick Garage.str_of Garage.no_float Garage.no_int (Garage.after (Garage.samples f0)) (Garage.lit 9999 1) = Ok out /\
    forall channel v, (channel, v) ∈ out ->
      match cv_value v with
      | Some x => reason = None /\ fleb f0 x = true /\ fleb x (fallback_max_lap_s Garage.policy) = true
      | None => reason <> None /\ cv_status v = "gated"
      end.
Proof.
  apply (extrapolation_bounded Garage.loads Garage.str_of Garage.no_float Garage.no_int Garage.policy
    (Garage.samples f0) 0 (Garage.lit 9999 1)).
  - by intros s e [= <-].
  - by intros s e [= <-].
  - split; reflexivity.
Defined.

Lemma non_object_event_escapes_witness :
  handle_samples Garage.loads Garage.str_of Garage.no_float Garage.no_int (extrapolator_init Garage.policy) 0
    [("lap.event", OStr "[]"); ("lap.event", OStr "lap")] =
  (extrapolator_init Garage.policy, 0, raise AttributeError "object has no attribute 'get'").
Proof.
  apply (non_object_event_escapes Garage.loads Garage.str_of Garage.no_float Garage.no_int _ 0 (OStr "[]") (OList []));
    [reflexivity | discriminate].
Defined.

(** A clock offset that is not a number passes the health gate: the comparison
    with the limit is false, so the elapsed times are published as healthy. *)
Theorem nan_offset_opens_gate :
  tick Garage.str_of Garage.no_float Garage.no_int (Garage.after (Garage.samples S754_nan)) (Garage.lit 1010 1) =
  Ok [("timing.lap_elapsed_pit", mkClock (Some (Garage.lit 10 1)) "extrapolating" None);
      ("timing.sector_elapsed_pit", mkClock (Some (Garage.lit 10 1)) "extrapolating" None)].
Proof. vm_compute. reflexivity. Qed.
