(* ===== verification/Reconcile.v ===== *)
(** Our car in the timekeepers' feed ([src/pit/timing_feed/reconcile.py]): the
    two lap counts, and the vehicle clock against theirs. Instants are
    microseconds since the epoch. *)

From S2P Require Import Prelude PyFloat.

Local Open Scope Z_scope.

Definition MONITOR_LAP_COUNT : string := "field.lap_count".

Record Finding := mkFinding {
  f_monitor : string;
  f_severity : string;
  f_score : float;
  f_summary : list (string * obj)
}.

Definition lap_count_finding (car_number : string) (feed_laps : option Z) (vehicle_laps tolerance : Z)
    : res (option Finding) :=
  match feed_laps with
  | None => Ok None
  | Some feed_laps =>
      let delta := feed_laps - vehicle_laps in
      if Z.abs delta <=? tolerance then Ok None
      else
        let '(cause, which) :=
          if 0 <? delta then ("vehicle timing missed a line crossing", "feed")
          else ("transponder not seen by the timekeepers", "vehicle") in
        score ← float_of_int (Z.abs delta);
        Ok (Some (mkFinding MONITOR_LAP_COUNT
          (if Z.abs delta <=? 3 then "warning" else "critical") score
          [("message", OStr ("car " +:+ car_number +:+ ": feed says " +:+ pretty feed_laps +:+
              " laps, vehicle says " +:+ pretty vehicle_laps +:+ " (" +:+ which +:+ " is higher: " +:+ cause +:+ ")"));
           ("car_number", OStr car_number); ("feed_laps", OInt feed_laps); ("vehicle_laps", OInt vehicle_laps);
           ("delta", OInt delta); ("higher", OStr which); ("likely_cause", OStr cause)]))
  end.

(** One crossing of the loop: kept when in the window and strictly nearer. *)
Definition nearer (passing_tod : Z) (window_s : float) (best : option float) (crossed_at : Z) : option float :=
  let offset := total_seconds (crossed_at - passing_tod) in
  let improves := match best with None => true | Some b => fltb (fabs offset) (fabs b) end in
  if fleb (fabs offset) window_s && improves then Some offset else best.

Definition clock_offset_s (passing_tod : Z) (crossings : list Z) (window_s : float) : option float :=
  (fun best => f_round_digits best 3) <$> fold_left (nearer passing_tod window_s) crossings None.

(** * The lap counts *)

(** A finding exactly when the counts differ by more than the tolerance; it
    names the side that counted more, and three laps is the last warning. *)
Theorem lap_count_finding_spec car feed_laps vehicle_laps tolerance r :
  lap_count_finding car feed_laps vehicle_laps tolerance = Ok r ->
  match r with
  | None => feed_laps = None \/ exists n, feed_laps = Some n /\ Z.abs (n - vehicle_laps) <= tolerance
  | Some f => exists n, feed_laps = Some n /\ tolerance < Z.abs (n - vehicle_laps) /\
      (f_severity f = "critical" <-> 3 < Z.abs (n - vehicle_laps)) /\
      float_of_int (Z.abs (n - vehicle_laps)) = Ok (f_score f) /\
      od_get "delta" (f_summary f) = Some (OInt (n - vehicle_laps)) /\
      (0 <= tolerance ->
       od_get "higher" (f_summary f) = Some (OStr (if vehicle_laps <? n then "feed" else "vehicle")) /\
       n <> vehicle_laps)
  end.
Proof.
  unfold lap_count_finding. destruct feed_laps as [n|]; [|intros [= <-]; by left].
  destruct (Z.abs (n - vehicle_laps) <=? tolerance) eqn:E; [intros [= <-]; right; exists n; split; [done|lia]|].
  intros H. assert (Hhi : (0 <? n - vehicle_laps) = (vehicle_laps <? n)) by (zcases; lia).
  rewrite Hhi in H.
  destruct (vehicle_laps <? n) eqn:Ed; apply res_bind_Ok in H as (score & Hs & [= <-]); exists n;
    cbn [f_severity f_score f_summary]; (split_and!;
      [done | lia | destruct (Z.abs _ <=? 3) eqn:E3; split; (done || lia) | done | done
      | intros Ht; rewrite Ed; split; [done | lia]]).
Qed.

Lemma lap_count_finding_spec_witness :
  lap_count_finding "7" (Some 10) 14 1 =
    lap_count_finding "7" (Some 10) 14 1 /\
  exists f n, Some 10 = Some n /\ 1 < Z.abs (n - 14) /\ (f_severity f = "critical" <-> 3 < Z.abs (n - 14)).
Proof.
  split; [reflexivity|].
  destruct (lap_count_finding "7" (Some 10) 14 1) as [[f|]|] eqn:E; [|discriminate E..].
  exists f. destruct (lap_count_finding_spec "7" (Some 10) 14 1 (Some f) E) as (n & H1 & H2 & H3 & _).
  exists n; tauto.
Defined.

(** * The clock offset *)

Lemma total_seconds_numeric us : is_nan (total_seconds us) = false.
Proof. by apply f_of_ratio_ok. Qed.

Lemma fabs_nan x : is_nan (fabs x) = is_nan x.
Proof. by destruct x. Qed.

(** The offset of a crossing, and whether it is near enough to count. *)
Definition offset_of (passing_tod crossed_at : Z) : float := total_seconds (crossed_at - passing_tod).
Definition in_window (passing_tod : Z) (window_s : float) (crossed_at : Z) : Prop :=
  fleb (fabs (offset_of passing_tod crossed_at)) window_s = true.

(** [best] is the nearest of the crossings seen. *)
Definition nearest (passing_tod : Z) (window_s : float) (crossings : list Z) (best : option float) : Prop :=
  match best with
  | None => forall c, c ∈ crossings -> ~ in_window passing_tod window_s c
  | Some b =>
      (exists c, c ∈ crossings /\ in_window passing_tod window_s c /\ b = offset_of passing_tod c) /\
      forall c, c ∈ crossings -> in_window passing_tod window_s c ->
        fleb (fabs b) (fabs (offset_of passing_tod c)) = true
  end.

Lemma nearer_nearest tod w seen best c :
  nearest tod w seen best -> nearest tod w (seen ++ [c]) (nearer tod w best c).
Proof.
  unfold nearer. fold (offset_of tod c). intros Hb.
  pose proof (total_seconds_numeric (c - tod)) as Hn. fold (offset_of tod c) in Hn. rewrite <- fabs_nan in Hn.
  destruct (fleb (fabs (offset_of tod c)) w) eqn:Ew; cbn [andb].
  - destruct best as [b|]; [destruct (fltb _ _) eqn:El|]; destruct Hb as [Hin Hmin] || pose proof Hb as Hnone.
    + split; [exists c; rewrite elem_of_app, list_elem_of_singleton; auto|].
      intros c' [Hc'|Hc'%list_elem_of_singleton]%elem_of_app Hw; [|subst; by apply fleb_refl].
      specialize (Hmin c' Hc' Hw). forder.
    + destruct Hin as (c0 & Hc0 & Hw0 & ->).
      split; [exists c0; rewrite elem_of_app; auto|].
      intros c' [Hc'|Hc'%list_elem_of_singleton]%elem_of_app Hw; [auto|subst].
      specialize (Hmin c0 Hc0 Hw0). forder.
    + split; [exists c; rewrite elem_of_app, list_elem_of_singleton; auto|].
      intros c' [Hc'|Hc'%list_elem_of_singleton]%elem_of_app Hw; [by destruct (Hnone c')|subst; by apply fleb_refl].
  - assert (Hnc : ~ in_window tod w c) by (unfold in_window; congruence).
    destruct best as [b|]; simpl in *.
    + destruct Hb as [(c0 & Hc0 & H) Hmin]. split; [exists c0; rewrite elem_of_app; tauto|].
      intros c' [Hc'|Hc'%list_elem_of_singleton]%elem_of_app Hw; [auto|by subst].
    + intros c' [Hc'|Hc'%list_elem_of_singleton]%elem_of_app Hw; [by apply (Hb c')|by subst].
Qed.

(** The offset is the nearest crossing's, rounded to the millisecond, and
    there is none exactly when no crossing falls in the window. *)
Theorem clock_offset_is_nearest passing_tod crossings window_s :
  exists best, nearest passing_tod window_s crossings best /\
    clock_offset_s passing_tod crossings window_s = (fun b => f_round_digits b 3) <$> best.
Proof.
  exists (fold_left (nearer passing_tod window_s) crossings None). split; [|done].
  induction crossings as [|c l IH] using rev_ind; [by intros c ?%elem_of_nil|].
  rewrite fold_left_app; simpl. by apply nearer_nearest.
Qed.
