(* ===== verification/FieldModel.v ===== *)
(** The field's standings ([src/pit/timing_feed/model.py]).

    [FieldState] holds the merged standings, the competitor registry and the
    session, and turns each document into the rows that changed ([Batch]):
    what was last emitted per car is kept, so an update that changes nothing
    emits nothing and a lap is derived only from a count that went up. A
    document is the element tree of an XML parser, which is the parameter
    [fromstring]; instants are microseconds since the epoch. A method that
    raises returns the state it leaves beside the exception. *)

From S2P Require Import Prelude PyFloat Stats PyText.

Local Open Scope Z_scope.

(** * Vocabulary *)

Definition FLAG_STATES : list (string * string) :=
  [("waitstart", "none"); ("green", "green"); ("yellow", "yellow"); ("red", "red"); ("checkered", "chequered");
   ("chequered", "chequered"); ("end", "ended"); ("ended", "ended"); ("none", "none"); ("white", "white")].
Definition SUB_STATUSES : list (string * string) :=
  [("safetycar", "sc"); ("sc", "sc"); ("fcy", "fcy"); ("vsc", "vsc"); ("code_60", "code_60");
   ("caution", "caution"); ("slow_zone", "slow_zone")].
Definition T71_FLAG_SPLIT : list (string * (string * option string)) :=
  [("sc", ("yellow", Some "sc")); ("fcy", ("yellow", Some "fcy")); ("vsc", ("yellow", Some "vsc"));
   ("code_60", ("yellow", Some "code_60")); ("code_60_zone", ("yellow", Some "code_60"));
   ("slow_zone", ("yellow", Some "slow_zone")); ("caution", ("yellow", Some "caution"))].
Definition PASSING_LINES : list (Z * string) :=
  [(1, "main"); (41, "main"); (2, "pit_main"); (3, "pit_entry"); (4, "pit_exit"); (5, "int1"); (45, "int1");
   (6, "int2"); (46, "int2"); (11, "main"); (20, "pit_main")].
Definition MAX_CARS : nat := 200.

(** * Value parsing *)

Definition flag_state (value : option string) : option string :=
  value ← value;
  let key := str_lower (strip value) in
  if String.eqb key "" then None
  else match od_get key T71_FLAG_SPLIT with
       | Some (flag, _) => Some flag
       | None => Some (default key (od_get key FLAG_STATES))
       end.

Definition sub_status (value : option string) : option string :=
  value ← value;
  let key := str_lower (strip value) in
  if String.eqb key "" then None else Some (default key (od_get key SUB_STATUSES)).

Definition _text (value : option string) : option string :=
  value ← value;
  let value := strip value in
  if String.eqb value "" then None else Some value.

(** [int(x) if x == int(x) else None]. *)
Definition _int_float (x : float) : res (option Z) :=
  n ← f_trunc x;
  Ok (if is_integer x then Some n else None).

Definition _int (value : obj) : res (option Z) :=
  match value with
  | ONone | OBool _ => Ok None
  | OInt z => Ok (Some z)
  | OFloat x => _int_float x
  | value =>
      let text := strip (py_str value) in
      if String.eqb text "" then Ok None
      else match py_int text with
           | Some z => Ok (Some z)
           | None => match py_float text with None => Ok None | Some number => _int_float number end
           end
  end.

(** The sum of the parts of [h:mm:ss]. *)
Fixpoint sexagesimal (total : float) (parts : list string) : option float :=
  match parts with
  | [] => Some total
  | part :: parts => x ← py_float part; sexagesimal (fadd (fmul total (f_of_Z 60)) x) parts
  end.

Definition _seconds (value : obj) : res (option float) :=
  match value with
  | ONone | OBool _ => Ok None
  | OInt z => x ← float_of_int z; Ok (Some x)
  | OFloat x => Ok (Some x)
  | value =>
      let text := strip (py_str value) in
      Ok (if String.eqb text "" then None
          else if char_in ":"%char text then sexagesimal f0 (str_split ":"%char text)
          else py_float text)
  end.

(** An attribute, [None] when absent. *)
Definition attr_obj (value : option string) : obj := match value with None => ONone | Some s => OStr s end.

Definition _car_state (pos : option string) (in_pit : bool) (out_lap : option string) : res (option string) :=
  number ← _int (attr_obj pos);
  let word := match pos, number with Some pos, None => strip pos | _, _ => "" end in
  Ok (Some (
    if negb (String.eqb word "") then str_upper word
    else if in_pit then "PIT"
    else if String.eqb (str_upper (strip (default "" out_lap))) "Y" then "OUT"
    else "RUN")).

(** * Rows *)

Record SessionRow := mkSessionRow {
  sr_time : Z;
  sr_source : string;
  session_name : option string;
  event_type : option string;
  sr_flag_state : option string;
  sr_sub_status : option string;
  time_remaining_s : option float;
  laps_remaining : option Z;
  time_elapsed_s : option float;
  track_temp : option float
}.

(** [replace(row, time=at)] and [replace(row, time=at, source=source)]. *)
Definition sr_stamp (r : SessionRow) (at_ : Z) (source : string) : SessionRow :=
  mkSessionRow at_ source (session_name r) (event_type r) (sr_flag_state r) (sr_sub_status r)
    (time_remaining_s r) (laps_remaining r) (time_elapsed_s r) (track_temp r).

Definition session_facts (r : SessionRow) :=
  (sr_source r, session_name r, event_type r, sr_flag_state r, sr_sub_status r, time_remaining_s r,
   laps_remaining r, time_elapsed_s r, track_temp r).

(** [SessionRow.same_as]: equal in everything but the time. *)
Definition session_same_as (r : SessionRow) (other : option SessionRow) : bool :=
  match other with None => false | Some other => py_eqb (session_facts r) (session_facts other) end.

Record CarRow := mkCarRow {
  time : Z;
  source : string;
  epoch : Z;
  car_number : string;
  competitor_id : option string;
  car_class : option string;
  position : option Z;
  class_position : option Z;
  laps : option Z;
  last_lap_s : option float;
  best_lap_s : option float;
  gap_lead_s : option float;
  gap_next_s : option float;
  sec1_s : option float;
  sec2_s : option float;
  sec3_s : option float;
  pit_count : option Z;
  in_pit : option bool;
  pit_flag : option string;
  driver : option string;
  state : option string
}.

Definition set_epoch (r : CarRow) (e : Z) : CarRow :=
  mkCarRow (time r) (source r) e (car_number r) (competitor_id r) (car_class r) (position r) (class_position r)
    (laps r) (last_lap_s r) (best_lap_s r) (gap_lead_s r) (gap_next_s r) (sec1_s r) (sec2_s r) (sec3_s r)
    (pit_count r) (in_pit r) (pit_flag r) (driver r) (state r).

(** [replace(car, time=at, source=source)]. *)
Definition stamp (r : CarRow) (at_ : Z) (src : string) : CarRow :=
  mkCarRow at_ src (epoch r) (car_number r) (competitor_id r) (car_class r) (position r) (class_position r)
    (laps r) (last_lap_s r) (best_lap_s r) (gap_lead_s r) (gap_next_s r) (sec1_s r) (sec2_s r) (sec3_s r)
    (pit_count r) (in_pit r) (pit_flag r) (driver r) (state r).

(** What the timing screen shows for a car: every field but the stamps. *)
Definition screen (r : CarRow) :=
  (source r, car_number r, competitor_id r, car_class r, position r, class_position r, laps r, last_lap_s r,
   best_lap_s r, gap_lead_s r, gap_next_s r, sec1_s r, sec2_s r, sec3_s r, pit_count r, in_pit r, pit_flag r,
   driver r, state r).

(** [CarRow.same_as]: equal in everything but the stamps. *)
Definition same_as (r : CarRow) (other : option CarRow) : bool :=
  match other with None => false | Some other => py_eqb (screen r) (screen other) end.

Record LapRow := mkLapRow {
  lr_time : Z;
  lr_source : string;
  lr_car_number : string;
  lr_competitor_id : option string;
  lap_number : Z;
  lap_time_s : option float;
  lr_position : option Z;
  lr_class_position : option Z;
  lr_gap_lead_s : option float;
  lr_gap_next_s : option float;
  lr_pit_count : option Z;
  lr_sec1_s : option float;
  lr_sec2_s : option float;
  lr_sec3_s : option float;
  lr_flag_state : option string;
  lr_sub_status : option string
}.

Record PassingRow := mkPassingRow {
  pr_time : Z;
  pr_source : string;
  pr_competitor_id : string;
  line : string;
  passing_type : option Z;
  active : option string;
  tod : option Z;
  pr_car_number : option string
}.

Record Batch := mkBatch {
  b_session : option SessionRow;
  b_cars : list CarRow;
  b_laps : list LapRow;
  b_passings : list PassingRow;
  b_document : string
}.

(** [bool(batch)] and [Batch.rows]. *)
Definition batch_true (b : Batch) : bool :=
  match b_session b, b_cars b, b_laps b, b_passings b with None, [], [], [] => false | _, _, _, _ => true end.
Definition rows (b : Batch) : nat :=
  (match b_session b with Some _ => 1 | None => 0 end + length (b_cars b) + length (b_laps b) + length (b_passings b))%nat.

(** * The registry *)

Record Competitor := mkCompetitor {
  cp_id : string;
  cp_number : string;
  cp_class : option string;
  drivers : list (string * string)
}.

Definition driver_name (c : Competitor) (driver_id : option string) : option string :=
  match driver_id ≫= fun id => od_get id (drivers c) with
  | Some name => Some name
  | None => snd <$> head (drivers c)
  end.

(** * Element trees *)

#[warnings="-register-all"]
Inductive Element := mkElement (tag : string) (attrib : gmap string string) (children : list Element).
Definition tag (e : Element) : string := let '(mkElement t _ _) := e in t.
Definition attrib (e : Element) : gmap string string := let '(mkElement _ a _) := e in a.
Definition children (e : Element) : list Element := let '(mkElement _ _ c) := e in c.
Definition get (key : string) (e : Element) : option string := attrib e !! key.

(** [element.iter(name)]: the element and everything below it, in document order. *)
Fixpoint iter (name : string) (e : Element) : list Element :=
  match e with
  | mkElement t a c => (if String.eqb t name then [e] else []) ++ flat_map (iter name) c
  end.

(** * The state *)

Record FieldState := mkFieldState {
  fs_source : string;
  competitors : gmap string Competitor;
  _lines : gmap Z (gmap string string);
  cars : gmap string CarRow;
  session : option SessionRow;
  fs_epoch : option Z;
  documents : Z;
  unknown_tags : gmap string Z
}.

Definition new_state (source : string) : FieldState := mkFieldState source ∅ ∅ ∅ None None 0 ∅.

Definition with_competitors (s : FieldState) c :=
  mkFieldState (fs_source s) c (_lines s) (cars s) (session s) (fs_epoch s) (documents s) (unknown_tags s).
Definition with_lines (s : FieldState) l :=
  mkFieldState (fs_source s) (competitors s) l (cars s) (session s) (fs_epoch s) (documents s) (unknown_tags s).
Definition with_cars (s : FieldState) c e :=
  mkFieldState (fs_source s) (competitors s) (_lines s) c (session s) e (documents s) (unknown_tags s).
Definition with_session (s : FieldState) r :=
  mkFieldState (fs_source s) (competitors s) (_lines s) (cars s) r (fs_epoch s) (documents s) (unknown_tags s).
Definition count_document (s : FieldState) :=
  mkFieldState (fs_source s) (competitors s) (_lines s) (cars s) (session s) (fs_epoch s) (documents s + 1) (unknown_tags s).
Definition count_unknown (s : FieldState) (t : string) :=
  mkFieldState (fs_source s) (competitors s) (_lines s) (cars s) (session s) (fs_epoch s) (documents s)
    (<[t := default 0 (unknown_tags s !! t) + 1]> (unknown_tags s)).

(** * Rows from the lines held *)

(** One line of the loop of [_rows_from_lines]; [class_counts] is the running
    count per class. *)
Definition row_of_line (s : FieldState) (at_ line : Z) (attributes : gmap string string)
    (class_counts : list (option string * Z)) : res (CarRow * list (option string * Z)) :=
  let competitor_id := attributes !! "Comp" in
  let competitor := competitors s !! default "" competitor_id in
  let car_number :=
    match competitor with
    | Some c => cp_number c
    | None => str_or (default "" competitor_id) (pretty line)
    end in
  position ← _int (attr_obj (attributes !! "Pos"));
  let car_class := competitor ≫= cp_class in
  let n := default 0 (od_get car_class class_counts) + 1 in
  let '(class_position, class_counts) :=
    match position with Some _ => (Some n, od_set car_class n class_counts) | None => (None, class_counts) end in
  let pit_flag := _text (attributes !! "PitLaneFlag") in
  let in_pit := bool_decide (pit_flag = Some "P") in
  laps ← _int (attr_obj (attributes !! "LastLap"));
  last_lap_s ← _seconds (attr_obj (attributes !! "LastTime"));
  best_lap_s ← _seconds (attr_obj (attributes !! "FastTime"));
  gap_lead_s ← _seconds (attr_obj (attributes !! "GapLeadTime"));
  gap_next_s ← _seconds (attr_obj (attributes !! "GapNextTime"));
  sec1_s ← _seconds (attr_obj (attributes !! "LastSec1Time"));
  sec2_s ← _seconds (attr_obj (attributes !! "LastSec2Time"));
  sec3_s ← _seconds (attr_obj (attributes !! "LastSec3Time"));
  pit_count ← _int (attr_obj (attributes !! "PitStops"));
  state ← _car_state (attributes !! "Pos") in_pit (attributes !! "OutLap");
  Ok (mkCarRow at_ (fs_source s) (default at_ (fs_epoch s)) car_number competitor_id car_class position
        class_position laps last_lap_s best_lap_s gap_lead_s gap_next_s sec1_s sec2_s sec3_s pit_count
        (Some in_pit) pit_flag (competitor ≫= fun c => driver_name c (attributes !! "Driv")) state,
      class_counts).

Fixpoint rows_of_lines (s : FieldState) (at_ : Z) (lines : list Z) (class_counts : list (option string * Z))
    : res (list CarRow) :=
  match lines with
  | [] => Ok []
  | line :: lines =>
      '(row, class_counts) ← row_of_line s at_ line (default ∅ (_lines s !! line)) class_counts;
      rows ← rows_of_lines s at_ lines class_counts;
      Ok (row :: rows)
  end.

Definition sorted_lines (s : FieldState) : list Z := sort_by Z.leb (map_to_list (_lines s)).*1.

Definition _rows_from_lines (s : FieldState) (at_ : Z) : res (list CarRow) :=
  rows_of_lines s at_ (sorted_lines s) [].

(** * The change diff and the lap derivation *)

Definition _lap (s : FieldState) (row : CarRow) : LapRow :=
  mkLapRow (time row) (fs_source s) (car_number row) (competitor_id row) (default 0 (laps row)) (last_lap_s row)
    (position row) (class_position row) (gap_lead_s row) (gap_next_s row) (pit_count row) (sec1_s row) (sec2_s row)
    (sec3_s row) (session s ≫= sr_flag_state) (session s ≫= sr_sub_status).

(** The laps one row derives against the row held for its car. *)
Definition lap_of (s : FieldState) (row : CarRow) (previous : option CarRow) : list LapRow :=
  match previous ≫= laps, laps row with
  | Some held, Some n => if held <? n then [_lap s row] else []
  | _, _ => []
  end.

(** One row of the loop of [_diff]. *)
Definition diff_row (epoch : Z) (acc : FieldState * list CarRow * list LapRow) (row : CarRow)
    : FieldState * list CarRow * list LapRow :=
  let '(s, changed, new_laps) := acc in
  let row := set_epoch row epoch in
  let previous := cars s !! car_number row in
  if same_as row previous then acc
  else (with_cars s (<[car_number row := row]> (cars s)) (fs_epoch s),
        changed ++ [row], new_laps ++ lap_of s row previous).

(** A full table of other cars than those held starts a new epoch. *)
Definition new_epoch (s : FieldState) (rows : list CarRow) (at_ : Z) (full : bool) : FieldState :=
  if full then
    let numbers : gset string := list_to_set (map car_number rows) in
    if bool_decide (fs_epoch s = None) || negb (bool_decide (numbers = dom (cars s)))
    then with_cars s ∅ (Some at_) else s
  else s.

Definition _diff (s : FieldState) (rows : list CarRow) (at_ : Z) (full : bool)
    : FieldState * list CarRow * list LapRow :=
  let s := new_epoch s rows at_ full in
  fold_left (diff_row (default at_ (fs_epoch s))) rows (s, [], []).

(** * Natsoft documents *)

(** One [Driver] of an entry. *)
Definition add_driver (drivers : list (string * string)) (e : Element) : list (string * string) :=
  match get "ID" e, _text (get "Name" e) with
  | Some driver_id, Some name => od_set driver_id name drivers
  | _, _ => drivers
  end.

Definition add_competitor (registry : gmap string Competitor) (entry : Element) : gmap string Competitor :=
  match get "ID" entry with
  | None => registry
  | Some id =>
      <[id := mkCompetitor id (strip (str_or (default "" (get "Number" entry)) id)) (_text (get "Class" entry))
                (fold_left add_driver (iter "Driver" entry) [])]> registry
  end.

Definition _competitor_list (s : FieldState) (element : Element) : FieldState :=
  with_competitors s (fold_left add_competitor (iter "Competitor" element) ∅).

(** The attributes of a position under its "All" details. *)
Definition add_detail (attributes : gmap string string) (detail : Element) : gmap string string :=
  if String.eqb (str_or (default "" (get "Driv" detail)) "All") "All"
  then delete "Driv" (attrib detail) ∪ attributes else attributes.

Definition position_attributes (e : Element) : gmap string string :=
  fold_left add_detail (iter "Detail" e) (attrib e).

Fixpoint incoming_lines (positions : list Element) (incoming : list (Z * gmap string string))
    : res (list (Z * gmap string string)) :=
  match positions with
  | [] => Ok incoming
  | e :: positions =>
      line ← _int (attr_obj (get "Line" e));
      incoming_lines positions
        (match line with None => incoming | Some line => od_set line (position_attributes e) incoming end)
  end.

(** [self._lines.setdefault(line, {}).update(attributes)]. *)
Definition merge_line (lines : gmap Z (gmap string string)) (kv : Z * gmap string string) :=
  <[kv.1 := kv.2 ∪ default ∅ (lines !! kv.1)]> lines.

Definition update_lines (lines : gmap Z (gmap string string)) (part : bool) (incoming : list (Z * gmap string string)) :=
  if part then fold_left merge_line incoming lines else list_to_map incoming.

Definition _leaderboard (s : FieldState) (element : Element) (at_ : Z)
    : FieldState * res (list CarRow * list LapRow) :=
  let part := String.eqb (str_lower (str_or (default "" (get "Type" element)) "full")) "part" in
  match incoming_lines (iter "Position" element) [] with
  | Raise e => (s, Raise e)
  | Ok incoming =>
      let s := with_lines s (update_lines (_lines s) part incoming) in
      if (MAX_CARS <? size (_lines s))%nat then
        (s, raise DocumentError ("leaderboard has " +:+ pretty (Z.of_nat (size (_lines s))) +:+ " lines; the cap is 200"))
      else
        match _rows_from_lines s at_ with
        | Raise e => (s, Raise e)
        | Ok rows => let '(s, changed, laps) := _diff s rows at_ (negb part) in (s, Ok (changed, laps))
        end
  end.

(** A later reading replaces the one held. *)
Definition newer {A : Type} (reading held : option A) : option A :=
  match reading with Some a => Some a | None => held end.

(** [elif kind == "laps" and count is not None: laps_remaining = int(count)]. *)
Definition laps_count (kind : string) (count : option float) : res (option Z) :=
  match count with
  | Some c => if String.eqb kind "laps" then n ← f_trunc c; Ok (Some n) else Ok None
  | None => Ok None
  end.

Definition session_row (s : FieldState) (element : Element) (at_ : Z) : res SessionRow :=
  let current := default (mkSessionRow at_ (fs_source s) None None None None None None None None) (session s) in
  let t := tag element in
  let flag := match get "Status" element with Some w => flag_state (Some w) | None => sr_flag_state current end in
  let sub := match get "SubStatus" element with Some w => sub_status (Some w) | None => sr_sub_status current end in
  temp ← _seconds (attr_obj (get "TrackTemp" element));
  let track := newer temp (track_temp current) in
  if String.eqb t "Counters" then
    let kind := str_lower (default "" (get "Type" element)) in
    count ← _seconds (attr_obj (get "Count" element));
    elapsed ← _seconds (attr_obj (get "Elapsed" element));
    remaining ← laps_count kind count;
    Ok (mkSessionRow at_ (sr_source current) (session_name current) (event_type current) flag sub
          (if String.eqb kind "time" || String.eqb kind "countdown" then newer count (time_remaining_s current)
           else time_remaining_s current)
          (newer remaining (laps_remaining current))
          (newer elapsed (if String.eqb kind "elapsed" then newer count (time_elapsed_s current) else time_elapsed_s current))
          track)
  else
    let '(name, event) :=
      if String.eqb t "Event" then
        (newer (newer (_text (get "Description1" element)) (_text (get "Code" element))) (session_name current),
         newer (_text (get "Type" element)) (event_type current))
      else (session_name current, event_type current) in
    Ok (mkSessionRow at_ (sr_source current) name event flag sub (time_remaining_s current) (laps_remaining current)
          (time_elapsed_s current) track).

Definition _session_update (s : FieldState) (element : Element) (at_ : Z) : FieldState * res (option SessionRow) :=
  match session_row s element at_ with
  | Raise e => (s, Raise e)
  | Ok updated =>
      if session_same_as updated (session s) then (s, Ok None)
      else (with_session s (Some updated), Ok (Some updated))
  end.

(** [datetime.fromtimestamp(tod, tz=UTC) if tod and tod > 1e9 else None]. *)
Definition passing_tod (tod : option float) : res (option Z) :=
  match tod with
  | Some x => if fltb (f_of_Z 1000000000) x then t ← fromtimestamp x; Ok (Some t) else Ok None
  | None => Ok None
  end.

Definition _passing (s : FieldState) (element : Element) (at_ : Z) : res (option PassingRow) :=
  match _text (get "ID" element) with
  | None => Ok None
  | Some id =>
      code ← _int (attr_obj (get "Type" element));
      stamp ← _seconds (attr_obj (get "Time" element));
      let key := match code with Some 0 | None => -1 | Some c => c end in
      let fallback := match code with Some c => pretty c | None => "unknown" end in
      tod ← passing_tod stamp;
      Ok (Some (mkPassingRow at_ (fs_source s) id (default fallback (od_get key PASSING_LINES)) code
                  (_text (get "Active" element)) tod (cp_number <$> competitors s !! id)))
  end.

(** What the elements of one document have produced so far. *)
Record Acc := mkAcc {
  a_session : option SessionRow;
  a_cars : list CarRow;
  a_laps : list LapRow;
  a_passings : list PassingRow
}.
Definition acc0 : Acc := mkAcc None [] [] [].
Definition add_rows (a : Acc) (c : list CarRow) (l : list LapRow) : Acc :=
  mkAcc (a_session a) (a_cars a ++ c) (a_laps a ++ l) (a_passings a).

Definition session_tags : list string := ["Counters"; "Status"; "Heartbeat"; "Flag"; "Event"].
Definition passing_tags : list string := ["Passing"; "Seen"].

(** The body of the loop of [apply_document]. *)
Definition apply_element (s : FieldState) (a : Acc) (element : Element) (at_ : Z) : FieldState * res Acc :=
  let t := tag element in
  if String.eqb t "Leaderboard" then
    match _leaderboard s element at_ with
    | (s, Ok (changed, new_laps)) => (s, Ok (add_rows a changed new_laps))
    | (s, Raise e) => (s, Raise e)
    end
  else if String.eqb t "CompetitorList" then
    let s := _competitor_list s element in
    if bool_decide (_lines s = ∅) then (s, Ok a)
    else match _rows_from_lines s at_ with
         | Raise e => (s, Raise e)
         | Ok rows => let '(s, changed, new_laps) := _diff s rows at_ false in (s, Ok (add_rows a changed new_laps))
         end
  else if bool_decide (t ∈ session_tags) then
    match _session_update s element at_ with
    | (s, Ok r) => (s, Ok (mkAcc (newer r (a_session a)) (a_cars a) (a_laps a) (a_passings a)))
    | (s, Raise e) => (s, Raise e)
    end
  else if bool_decide (t ∈ passing_tags) then
    match _passing s element at_ with
    | Ok p => (s, Ok (mkAcc (a_session a) (a_cars a) (a_laps a) (a_passings a ++ opt_list p)))
    | Raise e => (s, Raise e)
    end
  else (count_unknown s t, Ok a).

Fixpoint apply_elements (s : FieldState) (a : Acc) (elements : list Element) (at_ : Z) : FieldState * res Acc :=
  match elements with
  | [] => (s, Ok a)
  | e :: elements =>
      match apply_element s a e at_ with
      | (s, Ok a) => apply_elements s a elements at_
      | (s, Raise e) => (s, Raise e)
      end
  end.

(** [list(root) if root.tag == "New" else [root]]. *)
Definition elements_of (root : Element) : list Element :=
  if String.eqb (tag root) "New" then children root else [root].

Section Document.
(** [ET.fromstring]; [None] where it raises [ParseError]. *)
Context (fromstring : string -> option Element).

Definition apply_document (s : FieldState) (text : string) (at_ : Z) : FieldState * res Batch :=
  match fromstring text with
  | None => (s, raise DocumentError "not XML")
  | Some root =>
      match apply_elements (count_document s) acc0 (elements_of root) at_ with
      | (s, Ok a) => (s, Ok (mkBatch (a_session a) (a_cars a) (a_laps a) (a_passings a) text))
      | (s, Raise e) => (s, Raise e)
      end
  end.
End Document.

(** * Snapshots from the other shapes *)

Record Snapshot := mkSnapshot {
  sn_at : Z;
  sn_source : string;
  sn_session : option SessionRow;
  sn_cars : list CarRow
}.

(** The session part of [apply_snapshot]: the row kept when it differs. *)
Definition snapshot_session (s : FieldState) (snapshot : Snapshot) : FieldState * option SessionRow :=
  match sn_session snapshot with
  | None => (s, None)
  | Some r =>
      let merged := sr_stamp r (sn_at snapshot) (fs_source s) in
      if session_same_as merged (session s) then (s, None) else (with_session s (Some merged), Some merged)
  end.

Definition apply_snapshot (s : FieldState) (snapshot : Snapshot) : FieldState * res Batch :=
  let '(s, session) := snapshot_session (count_document s) snapshot in
  let rows := map (fun car => stamp car (sn_at snapshot) (fs_source s)) (sn_cars snapshot) in
  if (MAX_CARS <? length rows)%nat then
    (s, raise DocumentError ("snapshot has " +:+ pretty (Z.of_nat (length rows)) +:+ " cars; the cap is 200"))
  else
    let '(s, changed, laps) := _diff s rows (sn_at snapshot) true in
    (s, Ok (mkBatch session changed laps [] "")).

(** * What one update emits *)

Fixpoint changed_rows (s : FieldState) (e : Z) (rows : list CarRow) : list CarRow :=
  match rows with
  | [] => []
  | r :: rows =>
      let r := set_epoch r e in
      if same_as r (cars s !! car_number r) then changed_rows s e rows else r :: changed_rows s e rows
  end.

Definition derived_laps (s : FieldState) (changed : list CarRow) : list LapRow :=
  flat_map (fun r => lap_of s r (cars s !! car_number r)) changed.

(** The rows held once [changed] has been emitted. *)
Definition hold_rows (held : gmap string CarRow) (changed : list CarRow) : gmap string CarRow :=
  fold_left (fun m r => <[car_number r := r]> m) changed held.

Lemma hold_rows_other m changed c : c ∉ map car_number changed -> hold_rows m changed !! c = m !! c.
Proof.
  revert m; induction changed as [|r changed IH]; intros m; [done|]; cbn [map hold_rows fold_left].
  intros [Hne Hni]%not_elem_of_cons. fold (hold_rows (<[car_number r := r]> m) changed).
  rewrite IH by done. by apply lookup_insert_ne.
Qed.

Lemma hold_rows_lookup m changed c r :
  hold_rows m changed !! c = Some r ->
  (r ∈ changed /\ car_number r = c) \/ ((c ∉ map car_number changed) /\ m !! c = Some r).
Proof.
  revert m; induction changed as [|r' changed IH]; intros m; [right; split; [apply not_elem_of_nil | done]|].
  cbn [hold_rows fold_left]; intros [[Hr Hc]|[Hni Hm]]%IH; [left; split; [by right | done]|].
  destruct (decide (c = car_number r')) as [->|Hne].
  - rewrite lookup_insert_eq in Hm. injection Hm as <-. left; split; [left | done].
  - rewrite lookup_insert_ne in Hm by done. right; split; [|done]. cbn [map]; by apply not_elem_of_cons.
Qed.

Lemma hold_rows_in m changed r :
  NoDup (map car_number changed) -> r ∈ changed -> hold_rows m changed !! car_number r = Some r.
Proof.
  revert m; induction changed as [|r' changed IH]; intros m; [by intros _ ?%elem_of_nil|].
  cbn [map hold_rows fold_left]; intros [Hni Hnd]%NoDup_cons [->|Hr]%elem_of_cons; [|by apply IH].
  fold (hold_rows (<[car_number r' := r']> m) changed). rewrite hold_rows_other by done. apply lookup_insert_eq.
Qed.

Lemma hold_rows_dom m changed : dom (hold_rows m changed) = (list_to_set (map car_number changed) ∪ dom m).
Proof.
  revert m; induction changed as [|r changed IH]; intros m; cbn [map hold_rows fold_left]; [set_solver|].
  fold (hold_rows (<[car_number r := r]> m) changed). rewrite IH, dom_insert_L, list_to_set_cons. set_solver.
Qed.

Lemma with_cars_id s : with_cars s (cars s) (fs_epoch s) = s.
Proof. by destruct s. Qed.

Lemma changed_rows_elem s e rows x :
  x ∈ changed_rows s e rows <->
  exists r, r ∈ rows /\ x = set_epoch r e /\ same_as x (cars s !! car_number x) = false.
Proof.
  induction rows as [|r rows IH]; cbn [changed_rows].
  - split; [by intros ?%elem_of_nil | by intros (r & ?%elem_of_nil & _)].
  - destruct (same_as (set_epoch r e) (cars s !! car_number (set_epoch r e))) eqn:Es; rewrite ?elem_of_cons, IH; split.
    + intros (r' & Hr & H); exists r'; split; [by right | done].
    + intros (r' & [->|Hr]%elem_of_cons & -> & H); [by rewrite Es in H | by exists r'].
    + intros [->|(r' & Hr & H)]; [exists r; split; [left | done] | exists r'; split; [by right | done]].
    + intros (r' & [->|Hr]%elem_of_cons & -> & H); [by left | right; by exists r'].
Qed.

Lemma changed_rows_numbers s e rows c : c ∈ map car_number (changed_rows s e rows) -> c ∈ map car_number rows.
Proof.
  intros (x & -> & (r & Hr & -> & _)%changed_rows_elem)%list_elem_of_fmap. apply list_elem_of_fmap; by exists r.
Qed.

Lemma changed_rows_nodup s e rows : NoDup (map car_number rows) -> NoDup (map car_number (changed_rows s e rows)).
Proof.
  induction rows as [|r rows IH]; [done|]; cbn [map changed_rows]; intros [Hni Hnd]%NoDup_cons.
  destruct (same_as _ _); [by apply IH|]. cbn [map]; apply NoDup_cons; split; [|by apply IH].
  by intros ?%changed_rows_numbers.
Qed.

Lemma changed_rows_ext s s' e rows :
  (forall c, c ∈ map car_number rows -> cars s !! c = cars s' !! c) -> changed_rows s e rows = changed_rows s' e rows.
Proof.
  induction rows as [|r rows IH]; [done|]; cbn [map changed_rows]; intros Hext.
  change (car_number (set_epoch r e)) with (car_number r).
  rewrite (Hext (car_number r)) by left. rewrite IH; [done|]. intros c Hc; apply Hext; by right.
Qed.

Lemma derived_laps_ext s s' rows :
  session s = session s' -> fs_source s = fs_source s' ->
  (forall c, c ∈ map car_number rows -> cars s !! c = cars s' !! c) -> derived_laps s rows = derived_laps s' rows.
Proof.
  intros Hsess Hsrc; induction rows as [|r rows IH]; [done|]; cbn [map derived_laps flat_map]; intros Hext.
  fold (derived_laps s rows) (derived_laps s' rows). rewrite (Hext (car_number r)) by left.
  rewrite IH by (intros c Hc; apply Hext; by right).
  f_equal. unfold lap_of, _lap. by rewrite Hsess, Hsrc.
Qed.

(** The loop of [_diff] emits, in order, the rows that differ from what is held
    for their cars, and the laps of those. *)
Lemma diff_rows_spec e rows s changed new_laps :
  NoDup (map car_number rows) ->
  fold_left (diff_row e) rows (s, changed, new_laps) =
    (with_cars s (hold_rows (cars s) (changed_rows s e rows)) (fs_epoch s),
     changed ++ changed_rows s e rows, new_laps ++ derived_laps s (changed_rows s e rows)).
Proof.
  revert s changed new_laps; induction rows as [|r rows IH]; intros s changed new_laps Hnd.
  - cbn. by rewrite !app_nil_r, with_cars_id.
  - cbn [map] in Hnd; apply NoDup_cons in Hnd as [Hni Hnd].
    cbn [fold_left changed_rows diff_row]. destruct (same_as _ _) eqn:Es; [by apply IH|].
    rewrite IH by done. set (r' := set_epoch r e) in *. set (s' := with_cars s _ _).
    assert (Hext : forall c, c ∈ map car_number rows -> cars s' !! c = cars s !! c).
    { intros c Hc; cbn [s' with_cars cars]. apply lookup_insert_ne. by intros <-. }
    rewrite (changed_rows_ext s' s) by done.
    rewrite (derived_laps_ext s' s) by (done || intros c Hc%changed_rows_numbers; by apply Hext).
    cbn [derived_laps flat_map hold_rows fold_left]. by rewrite <- !app_assoc.
Qed.

(** Induction over the loop: a property of the accumulator that survives each
    row emitted. *)
Definition emit (acc : FieldState * list CarRow * list LapRow) (r : CarRow) : FieldState * list CarRow * list LapRow :=
  let '(s, changed, new_laps) := acc in
  (with_cars s (<[car_number r := r]> (cars s)) (fs_epoch s), changed ++ [r],
   new_laps ++ lap_of s r (cars s !! car_number r)).

Lemma diff_fold_ind (P : FieldState * list CarRow * list LapRow -> Prop) e rows acc :
  P acc -> (forall acc r, r ∈ rows -> P acc -> P (emit acc (set_epoch r e))) ->
  P (fold_left (diff_row e) rows acc).
Proof.
  revert acc; induction rows as [|r rows IH]; intros acc Hacc Hemit; [done|]; cbn [fold_left].
  apply IH; [|intros acc' r' Hr'; apply Hemit; by right].
  destruct acc as [[s changed] new_laps]; unfold diff_row.
  destruct (same_as _ _); [done|]. apply (Hemit (s, changed, new_laps) r); [left | done].
Qed.
