(* ===== verification/FieldRuns.v ===== *)
(** The field feed over whole runs: the rows [FieldModel] writes for a sequence
    of documents and snapshots, the laps among them, the standings the database
    shows, and documents seen twice. A [run] lists the inputs newest first and
    the batches written; the migration's view [v_field_standings] is [shown]. *)

From Stdlib Require Import Sorted.
From S2P Require Import Prelude PyFloat Stats PyText FieldModel.

Local Open Scope Z_scope.

(** * Runs: the inputs a service applies, and the tables it writes *)

Section Run.
Context (fromstring : string -> option Element).

Inductive feed_input := Document (text : string) (at_ : Z) | Standings (snapshot : Snapshot).

Definition input_at (i : feed_input) : Z := match i with Document _ a => a | Standings sn => sn_at sn end.

Definition apply_input (s : FieldState) (i : feed_input) : FieldState * res Batch :=
  match i with
  | Document text at_ => apply_document fromstring s text at_
  | Standings snapshot => apply_snapshot s snapshot
  end.

Definition input_elements (i : feed_input) : list Element :=
  match i with
  | Document text _ => match fromstring text with Some root => elements_of root | None => [] end
  | Standings _ => []
  end.

(** The elements that touch the standings. *)
Definition is_table (e : Element) : bool := String.eqb (tag e) "Leaderboard" || String.eqb (tag e) "CompetitorList".
Definition one_table (i : feed_input) : Prop := (length (List.filter is_table (input_elements i)) <= 1)%nat.

(** The inputs newest first, and the batches written. An input that is refused
    writes nothing; it is a document of one element or a snapshot. *)
Inductive run : FieldState -> list feed_input -> list Batch -> Prop :=
  | run_start source : run (new_state source) [] []
  | run_accept s inputs batches i s' b :
      run s inputs batches -> apply_input s i = (s', Ok b) -> run s' (i :: inputs) (batches ++ [b])
  | run_reject s inputs batches i s' e :
      run s inputs batches -> (length (input_elements i) <= 1)%nat -> apply_input s i = (s', Raise e) ->
      run s' (i :: inputs) batches.

(** The tables [field_cars] and [field_laps], oldest row first. *)
Definition field_cars (batches : list Batch) : list CarRow := flat_map b_cars batches.
Definition field_laps (batches : list Batch) : list LapRow := flat_map b_laps batches.

Lemma field_cars_snoc batches b : field_cars (batches ++ [b]) = field_cars batches ++ b_cars b.
Proof. unfold field_cars. by rewrite flat_map_app; cbn; rewrite app_nil_r. Qed.
Lemma field_laps_snoc batches b : field_laps (batches ++ [b]) = field_laps batches ++ b_laps b.
Proof. unfold field_laps. by rewrite flat_map_app; cbn; rewrite app_nil_r. Qed.

(** ** What an element does to the standings: nothing, or one [_diff] *)

Definition same_standings (s s' : FieldState) : Prop := cars s' = cars s /\ fs_epoch s' = fs_epoch s.

Definition diffed (s : FieldState) (a : Acc) (at_ : Z) (s' : FieldState) (a' : Acc) : Prop :=
  exists s0 rows full changed new_laps s1, same_standings s s0 /\ Forall (fun r => time r = at_) rows /\
    _diff s0 rows at_ full = (s1, changed, new_laps) /\ same_standings s1 s' /\
    a_cars a' = a_cars a ++ changed /\ a_laps a' = a_laps a ++ new_laps.

Lemma row_of_line_time s at_ line attributes counts row counts' :
  row_of_line s at_ line attributes counts = Ok (row, counts') -> time row = at_.
Proof.
  unfold row_of_line. repeat (intros (? & _ & H)%res_bind_Ok; revert H).
  destruct (match _ with Some _ => _ | None => _ end) as [cp cc].
  repeat (intros (? & _ & H)%res_bind_Ok; revert H). by intros [= <- _].
Qed.

Lemma rows_of_lines_time s at_ lines counts rows :
  rows_of_lines s at_ lines counts = Ok rows -> Forall (fun r => time r = at_) rows.
Proof.
  revert counts rows; induction lines as [|line lines IH]; intros counts rows; cbn [rows_of_lines];
    [by intros [= <-]|].
  intros ([row counts'] & Hrow & (rows' & Hrows & [= <-])%res_bind_Ok)%res_bind_Ok.
  constructor; [by eapply row_of_line_time | by eapply IH].
Qed.

Lemma leaderboard_diffed s element at_ s' r :
  _leaderboard s element at_ = (s', r) ->
  match r with
  | Raise _ => same_standings s s'
  | Ok (changed, new_laps) => exists s0 rows full, same_standings s s0 /\ Forall (fun r => time r = at_) rows /\
      _diff s0 rows at_ full = (s', changed, new_laps)
  end.
Proof.
  unfold _leaderboard. destruct (incoming_lines _ _) as [incoming|e]; [|by intros [= <- <-]].
  cbn [_lines with_lines]. destruct (MAX_CARS <? _)%nat; [by intros [= <- <-]|].
  destruct (_rows_from_lines _ _) as [rows|e] eqn:Er; [|by intros [= <- <-]].
  destruct (_diff _ _ _ _) as [[s1 changed] new_laps] eqn:Ed. intros [= <- <-].
  eexists _, _, _; split_and!; [ | by eapply rows_of_lines_time | exact Ed]. done.
Qed.

Lemma apply_element_cases s a element at_ s' r :
  apply_element s a element at_ = (s', r) ->
  match r with
  | Raise _ => same_standings s s'
  | Ok a' => (same_standings s s' /\ a_cars a' = a_cars a /\ a_laps a' = a_laps a) \/
             (is_table element = true /\ diffed s a at_ s' a')
  end.
Proof.
  unfold apply_element, is_table. destruct (String.eqb _ "Leaderboard") eqn:E1.
  { destruct (_leaderboard s element at_) as [s1 [[changed new_laps]|e]] eqn:El; apply leaderboard_diffed in El;
      intros [= <- <-]; [|done].
    destruct El as (s0 & rows & full & Hs0 & Ht & Hd). right; split; [done|]. by exists s0, rows, full, changed, new_laps, s1. }
  destruct (String.eqb _ "CompetitorList").
  { case_bool_decide; [intros [= <- <-]; by left|].
    destruct (_rows_from_lines _ _) as [rows|e] eqn:Er; [|by intros [= <- <-]].
    destruct (_diff _ _ _ _) as [[s1 changed] new_laps] eqn:Ed. intros [= <- <-]. right; split; [done|].
    exists (_competitor_list s element), rows, false, changed, new_laps, s1. split_and!; try done.
    by eapply rows_of_lines_time. }
  case_bool_decide.
  { unfold _session_update. destruct (session_row _ _ _) as [u|e]; [|by intros [= <- <-]].
    destruct (session_same_as _ _); intros [= <- <-]; by left. }
  case_bool_decide; [destruct (_passing _ _ _)|]; intros [= <- <-]; try done; by left.
Qed.

(** ** Laps *)

(** The newest row of a car. *)
Definition newest_row (table : list CarRow) (c : string) (r : CarRow) : Prop :=
  exists before after, table = before ++ r :: after /\ Forall (fun r' => car_number r' <> c) after.

(** The lap row repeats a row of the car whose count went up against the car's
    row before it. *)
Definition lap_grounded (table : list CarRow) (lr : LapRow) : Prop :=
  exists before row after previous held,
    table = before ++ row :: after /\ newest_row before (lr_car_number lr) previous /\
    car_number row = lr_car_number lr /\ car_number previous = lr_car_number lr /\
    time row = lr_time lr /\ laps row = Some (lap_number lr) /\ last_lap_s row = lap_time_s lr /\
    laps previous = Some held /\ held < lap_number lr.

Lemma lap_grounded_app table more lr : lap_grounded table lr -> lap_grounded (table ++ more) lr.
Proof.
  intros (b & r & a & p & h & -> & H). exists b, r, (a ++ more), p, h. by rewrite <- app_assoc.
Qed.

(** The row held for a car is the newest emitted, under its own number. *)
Definition held_emitted (s : FieldState) (table : list CarRow) : Prop :=
  forall c r, cars s !! c = Some r -> car_number r = c /\ newest_row table c r.

Lemma same_standings_held s s' table : same_standings s s' -> held_emitted s table -> held_emitted s' table.
Proof. intros [Hc _] H c r; rewrite Hc; apply H. Qed.

Lemma emit_grounded table s changed new_laps r :
  held_emitted s (table ++ changed) -> Forall (lap_grounded (table ++ changed)) new_laps ->
  let '(s', changed', new_laps') := emit (s, changed, new_laps) r in
  held_emitted s' (table ++ changed') /\ Forall (lap_grounded (table ++ changed')) new_laps'.
Proof.
  intros Hheld Hlaps; cbn [emit]. rewrite app_assoc. split.
  - intros c r'; cbn [with_cars cars]. destruct (decide (c = car_number r)) as [->|Hne].
    + rewrite lookup_insert_eq; intros [= <-]. split; [done|]. by exists (table ++ changed), [].
    + rewrite lookup_insert_ne by done. intros Hr. destruct (Hheld c r' Hr) as [Hnum (b & a & -> & Ha)].
      split; [done|]. exists b, (a ++ [r]). rewrite <- app_assoc; split; [done|].
      apply Forall_app; split; [done|]. by repeat constructor.
  - apply Forall_app; split; [eapply Forall_impl; [exact Hlaps|]; intros lr; apply lap_grounded_app|].
    unfold lap_of. destruct (cars s !! car_number r) as [p|] eqn:Ep; cbn [mbind option_bind]; [|constructor].
    destruct (laps p) as [held|] eqn:Eh; [|constructor]. destruct (laps r) as [n|] eqn:En; [|constructor].
    destruct (held <? n) eqn:El; [|constructor]. constructor; [|constructor].
    destruct (Hheld _ _ Ep) as [Hnum Hin]. exists (table ++ changed), r, [], p, held.
    cbn [_lap lr_car_number lap_number lr_time lap_time_s]. rewrite En; cbn [default].
    split_and!; try done. by apply Z.ltb_lt.
Qed.

Lemma diff_grounded table s rows at_ full s' changed new_laps :
  held_emitted s table -> _diff s rows at_ full = (s', changed, new_laps) ->
  held_emitted s' (table ++ changed) /\ Forall (lap_grounded (table ++ changed)) new_laps.
Proof.
  intros Hheld Hd. unfold _diff in Hd.
  pose proof (diff_fold_ind (fun '(s, changed, new_laps) =>
    held_emitted s (table ++ changed) /\ Forall (lap_grounded (table ++ changed)) new_laps)
    (default at_ (fs_epoch (new_epoch s rows at_ full))) rows (new_epoch s rows at_ full, [], [])) as Hind.
  rewrite Hd in Hind. apply Hind.
  - rewrite app_nil_r; split; [|constructor]. unfold new_epoch. destruct full; [|done].
    destruct (_ || _); [|done]. intros c r; cbn. by rewrite lookup_empty.
  - intros [[s1 ch] lp] r _ [H1 H2]. by apply (emit_grounded table s1 ch lp).
Qed.

(** One input keeps both, over the tables it extends. *)
Definition grounded (s : FieldState) (table : list CarRow) (lap_rows : list LapRow) : Prop :=
  held_emitted s table /\ Forall (lap_grounded table) lap_rows.

Lemma diffed_grounded s a at_ s' a' table lap_rows :
  diffed s a at_ s' a' -> grounded s (table ++ a_cars a) (lap_rows ++ a_laps a) ->
  grounded s' (table ++ a_cars a') (lap_rows ++ a_laps a').
Proof.
  intros (s0 & rows & full & ch & lp & s1 & Hs0 & _ & Hd & Hs1 & -> & ->) [Hheld Hlaps].
  destruct (diff_grounded (table ++ a_cars a) s0 rows at_ full s1 ch lp) as [H1 H2];
    [by eapply same_standings_held | done |].
  rewrite !app_assoc. split; [by eapply same_standings_held|]. apply Forall_app; split; [|done].
  eapply Forall_impl; [exact Hlaps|]. intros lr; apply lap_grounded_app.
Qed.

Lemma apply_elements_grounded elements s a at_ s' a' table lap_rows :
  apply_elements s a elements at_ = (s', Ok a') -> grounded s (table ++ a_cars a) (lap_rows ++ a_laps a) ->
  grounded s' (table ++ a_cars a') (lap_rows ++ a_laps a').
Proof.
  revert s a; induction elements as [|e elements IH]; intros s a; cbn [apply_elements]; [by intros [= <- <-]|].
  destruct (apply_element s a e at_) as [s1 [a1|ex]] eqn:E1; [|done]. intros Hrest Hg. apply (IH s1 a1 Hrest).
  destruct (apply_element_cases _ _ _ _ _ _ E1) as [(Hs & -> & ->)|[_ Hd]]; [|by eapply diffed_grounded].
  destruct Hg; split; [by eapply same_standings_held | done].
Qed.

(** A refused input of one element leaves the standings. *)
Lemma reject_standings s i s' e :
  (length (input_elements i) <= 1)%nat -> apply_input s i = (s', Raise e) -> same_standings s s'.
Proof.
  intros Hlen. destruct i as [text at_|sn]; cbn [apply_input].
  - unfold apply_document; cbn [input_elements] in Hlen. destruct (fromstring text) as [root|]; [|by intros [= <- _]].
    destruct (elements_of root) as [|el [|? ?]]; cbn in Hlen; [done| |lia]. cbn [apply_elements].
    destruct (apply_element _ _ _ _) as [s1 [a1|ex]] eqn:E1; [done|]. intros [= <- _].
    by apply apply_element_cases in E1.
  - unfold apply_snapshot. destruct (snapshot_session _ _) as [s1 row] eqn:E1.
    assert (Hs1 : same_standings s s1).
    { revert E1; unfold snapshot_session. destruct (sn_session sn) as [r|]; [|by intros [= <- _]].
      destruct (session_same_as _ _); by intros [= <- _]. }
    destruct (MAX_CARS <? _)%nat; [by intros [= <- _]|]. by destruct (_diff _ _ _ _) as [[s2 ch] lp].
Qed.

(** What an accepted input does, as one [diffed] per table element. *)
Lemma snapshot_diffed s sn s' b :
  apply_snapshot s sn = (s', Ok b) ->
  diffed s acc0 (sn_at sn) s' (mkAcc (b_session b) (b_cars b) (b_laps b) []).
Proof.
  unfold apply_snapshot. destruct (snapshot_session _ _) as [s1 row] eqn:E1.
  assert (Hs1 : same_standings s s1).
  { revert E1; unfold snapshot_session. destruct (sn_session sn) as [r|]; [|by intros [= <- _]].
    destruct (session_same_as _ _); by intros [= <- _]. }
  destruct (MAX_CARS <? _)%nat; [done|]. destruct (_diff _ _ _ _) as [[s2 ch] lp] eqn:Ed. intros [= <- <-].
  eexists s1, _, true, ch, lp, s2. split_and!; [done | | exact Ed | done..].
  apply Forall_map, Forall_forall. by intros r.
Qed.

Lemma run_grounded s inputs batches : run s inputs batches -> grounded s (field_cars batches) (field_laps batches).
Proof.
  induction 1 as [src|s inputs batches i s' b _ [IHh IHl] Hi|s inputs batches i s' e _ [IHh IHl] Hlen Hi].
  - split; [|constructor]. intros c r. cbn. by rewrite lookup_empty.
  - rewrite field_cars_snoc, field_laps_snoc. destruct i as [text at_|sn]; cbn [apply_input] in Hi.
    + unfold apply_document in Hi. destruct (fromstring text) as [root|]; [|done].
      destruct (apply_elements _ _ _ _) as [s1 [a|ex]] eqn:Ea; [|done]. injection Hi as <- <-.
      apply (apply_elements_grounded _ _ _ _ _ _ (field_cars batches) (field_laps batches)) in Ea; [done|].
      cbn [acc0 a_cars a_laps]. by rewrite !app_nil_r.
    + apply snapshot_diffed in Hi.
      apply (diffed_grounded _ _ _ _ _ (field_cars batches) (field_laps batches)) in Hi; [done|].
      cbn [acc0 a_cars a_laps]. by rewrite !app_nil_r.
  - split; [|done]. eapply same_standings_held; [|exact IHh]. by eapply reject_standings.
Qed.


(** ** The standings view

    [v_field_standings] of the migrations: per source the rows of the greatest
    epoch, and of those the newest per car. *)
Definition shown (table : list CarRow) (r : CarRow) : Prop :=
  r ∈ table /\ (forall r', r' ∈ table -> epoch r' <= epoch r) /\
  (forall r', r' ∈ table -> epoch r' = epoch r -> car_number r' = car_number r -> time r' <= time r).

(** The rows of the current epoch are covered by the rows held. *)
Definition covers (s : FieldState) (table : list CarRow) (e : Z) : Prop :=
  (forall c r, cars s !! c = Some r -> epoch r = e /\ car_number r = c /\ r ∈ table) /\
  (forall r, r ∈ table -> epoch r = e -> exists r', cars s !! car_number r = Some r' /\ time r <= time r').

Definition view_inv (s : FieldState) (table : list CarRow) (now : Z) : Prop :=
  Forall (fun r => epoch r <= now /\ time r <= now) table /\
  (forall e, fs_epoch s = Some e -> e <= now /\ Forall (fun r => epoch r <= e) table /\ covers s table e).

Lemma same_standings_view s s' table now now' :
  same_standings s s' -> now <= now' -> view_inv s table now -> view_inv s' table now'.
Proof.
  intros [Hc He] Hn [Ht Hv]. split; [eapply Forall_impl; [exact Ht|]; cbn; lia|].
  rewrite He. intros e Hs. destruct (Hv e Hs) as (? & ? & Hcov). split; [lia | split; [done|]].
  unfold covers; by rewrite Hc.
Qed.

Lemma new_epoch_view s rows table now at_ full :
  now < at_ -> view_inv s table now -> view_inv (new_epoch s rows at_ full) table at_.
Proof.
  intros Hlt Hv. unfold new_epoch. destruct full; [|apply (same_standings_view s s table now at_); [done | lia | done]].
  destruct (_ || _); [|apply (same_standings_view s s table now at_); [done | lia | done]].
  destruct Hv as [Ht _]. split; [eapply Forall_impl; [exact Ht|]; cbn; lia|].
  intros e [= <-]. rewrite Forall_forall in Ht. split; [lia | split; [|split]].
  - apply Forall_forall. intros r Hr; destruct (Ht r Hr); lia.
  - intros c r; cbn. by rewrite lookup_empty.
  - intros r Hr He. destruct (Ht r Hr); lia.
Qed.

Lemma emit_view at_ s changed new_laps table r :
  time r = at_ -> epoch r = default at_ (fs_epoch s) -> view_inv s (table ++ changed) at_ ->
  let '(s', changed', _) := emit (s, changed, new_laps) r in
  fs_epoch s' = fs_epoch s /\ view_inv s' (table ++ changed') at_.
Proof.
  intros Ht He [Hb Hv]; cbn [emit]. split; [done|]. rewrite app_assoc. unfold view_inv; cbn [with_cars fs_epoch cars].
  assert (Hle : epoch r <= at_).
  { rewrite He. destruct (fs_epoch s) as [e|] eqn:Es; cbn; [by destruct (Hv e eq_refl)|lia]. }
  split; [apply Forall_app; split; [done|]; repeat constructor; lia|].
  intros e Hs. destruct (Hv e Hs) as (Hen & Hmax & Hin & Hcov). rewrite Hs in He; cbn in He.
  split; [done | split; [apply Forall_app; split; [done|]; repeat constructor; lia | split]].
  - intros c r'; cbn [with_cars cars]. destruct (decide (c = car_number r)) as [->|Hne].
    + rewrite lookup_insert_eq; intros [= <-]. split_and!; [done..|]. apply elem_of_app; right; left.
    + rewrite lookup_insert_ne by done. intros (? & ? & ?)%Hin. split_and!; [done..|]. apply elem_of_app; by left.
  - intros r' Hr' He'; cbn [with_cars cars]. destruct (decide (car_number r' = car_number r)) as [Heq|Hne].
    + rewrite Heq, lookup_insert_eq. exists r; split; [done|]. apply elem_of_app in Hr' as [Hr'|Hr'].
      * rewrite Forall_forall in Hb. destruct (Hb r' Hr'); lia.
      * apply list_elem_of_singleton in Hr' as ->; lia.
    + apply elem_of_app in Hr' as [Hr'|Hr']; [|by apply list_elem_of_singleton in Hr' as ->].
      rewrite lookup_insert_ne by done. by apply Hcov.
Qed.

Lemma diff_view s rows at_ full s' changed new_laps table now :
  now < at_ -> Forall (fun r => time r = at_) rows -> view_inv s table now ->
  _diff s rows at_ full = (s', changed, new_laps) -> view_inv s' (table ++ changed) at_.
Proof.
  intros Hlt Ht Hv Hd. unfold _diff in Hd. apply (new_epoch_view s rows table now at_ full Hlt) in Hv.
  set (s0 := new_epoch s rows at_ full) in *.
  pose proof (diff_fold_ind (fun '(s, changed, new_laps) =>
    fs_epoch s = fs_epoch s0 /\ view_inv s (table ++ changed) at_)
    (default at_ (fs_epoch s0)) rows (s0, [], [])) as Hind.
  rewrite Hd in Hind. apply Hind; [by rewrite app_nil_r|].
  intros [[s1 ch] lp] r Hr [H1 H2]. rewrite Forall_forall in Ht.
  destruct (emit_view at_ s1 ch lp table (set_epoch r (default at_ (fs_epoch s0)))) as [He Hv'];
    [exact (Ht r Hr) | cbn [set_epoch epoch]; by rewrite H1 | done |]. split; [|done]. cbn [emit with_cars fs_epoch] in *. congruence.
Qed.

Lemma same_standings_trans s1 s2 s3 : same_standings s1 s2 -> same_standings s2 s3 -> same_standings s1 s3.
Proof. intros [Hc He] [Hc' He']; split; congruence. Qed.

(** Elements that are not tables leave the standings. *)
Lemma apply_elements_none elements s a at_ s' a' :
  apply_elements s a elements at_ = (s', Ok a') -> List.filter is_table elements = [] ->
  same_standings s s' /\ a_cars a' = a_cars a /\ a_laps a' = a_laps a.
Proof.
  revert s a; induction elements as [|e elements IH]; intros s a; cbn [apply_elements List.filter].
  { by intros [= <- <-] _. }
  destruct (apply_element s a e at_) as [s1 [a1|ex]] eqn:E1; [|done]. intros Hrest Hnone.
  destruct (is_table e) eqn:Et; [done|].
  destruct (apply_element_cases _ _ _ _ _ _ E1) as [(Hs & Ha & Hl)|[Htab _]]; [|congruence].
  destruct (IH s1 a1 Hrest Hnone) as (Hs' & -> & ->). split; [by eapply same_standings_trans | done].
Qed.

(** With at most one table the document is at most one [_diff]. *)
Lemma apply_elements_one elements s a at_ s' a' :
  apply_elements s a elements at_ = (s', Ok a') -> (length (List.filter is_table elements) <= 1)%nat ->
  (same_standings s s' /\ a_cars a' = a_cars a /\ a_laps a' = a_laps a) \/ diffed s a at_ s' a'.
Proof.
  revert s a; induction elements as [|e elements IH]; intros s a; cbn [apply_elements List.filter].
  { intros [= <- <-] _; by left. }
  destruct (apply_element s a e at_) as [s1 [a1|ex]] eqn:E1; [|done].
  destruct (apply_element_cases _ _ _ _ _ _ E1) as [(Hs & Ha & Hl)|[Htab Hd]]; intros Hrest Hlen.
  - destruct (IH s1 a1 Hrest) as [(Hs' & -> & ->)|Hd]; [destruct (is_table e); cbn in Hlen; lia | left | right].
    + split; [by eapply same_standings_trans | done].
    + destruct Hd as (s0 & rows & full & ch & lp & s2 & Hs0 & Hd). exists s0, rows, full, ch, lp, s2.
      split; [by eapply same_standings_trans | by rewrite <- Ha, <- Hl].
  - rewrite Htab in Hlen; cbn in Hlen. right.
    destruct (apply_elements_none _ _ _ _ _ _ Hrest) as (Hs' & Ha' & Hl');
      [apply nil_length_inv; lia|].
    destruct Hd as (s0 & rows & full & ch & lp & s2 & Hs0 & Ht & Hd & Hs2 & Ha & Hl).
    exists s0, rows, full, ch, lp, s2. rewrite Ha', Hl'. split; [done|]. split; [done|]. split; [done|].
    split; [by eapply same_standings_trans | done].
Qed.

Lemma accept_diffed s i s' b :
  one_table i -> apply_input s i = (s', Ok b) ->
  (same_standings s s' /\ b_cars b = []) \/
  exists a, b_cars b = a_cars a /\ diffed s acc0 (input_at i) s' a.
Proof.
  destruct i as [text at_|sn]; cbn [apply_input input_at]; intros Hone.
  - unfold apply_document. unfold one_table in Hone; cbn [input_elements] in Hone.
    destruct (fromstring text) as [root|]; [|done].
    destruct (apply_elements _ _ _ _) as [s1 [a|ex]] eqn:Ea; [|done]. intros [= <- <-].
    destruct (apply_elements_one _ _ _ _ _ _ Ea Hone) as [(Hs & Hc & _)|Hd]; [by left | right; by exists a].
  - intros Hi%snapshot_diffed. right; eexists; split; [|exact Hi]. done.
Qed.

(** Each input strictly after the one before it, newest first. *)
Definition in_order (inputs : list feed_input) : Prop := StronglySorted (fun i j => input_at j < input_at i) inputs.

Lemma run_view s inputs batches :
  run s inputs batches -> in_order inputs -> Forall one_table inputs ->
  forall now, match inputs with i :: _ => input_at i <= now | [] => True end -> view_inv s (field_cars batches) now.
Proof.
  unfold in_order. induction 1 as [src|s inputs batches i s' b _ IH Hi|s inputs batches i s' e _ IH Hlen Hi];
    intros Hord Hone now Hnow.
  - split; [constructor|]. intros e. cbn. done.
  - apply StronglySorted_inv in Hord as [Hord Hlast]. inversion Hone as [|? ? Hi1 Hrest]; subst.
    assert (Hv : view_inv s (field_cars batches) (input_at i - 1)).
    { apply IH; [done..|]. destruct inputs as [|j inputs]; [done|]. inversion Hlast; subst; lia. }
    rewrite field_cars_snoc. destruct (accept_diffed _ _ _ _ Hi1 Hi) as [(Hs & ->)|(a & -> & Hd)].
    + rewrite app_nil_r. eapply same_standings_view; [exact Hs | | exact Hv]. lia.
    + destruct Hd as (s0 & rows & full & ch & lp & s1 & Hs0 & Ht & Hd & Hs1 & -> & _). cbn [acc0 a_cars app].
      apply (same_standings_view s1 s' _ (input_at i) now Hs1 Hnow).
      apply (diff_view s0 rows (input_at i) full s1 ch lp (field_cars batches) (input_at i - 1)); [lia | done | | done].
      eapply same_standings_view; [exact Hs0 | | exact Hv]. lia.
  - apply StronglySorted_inv in Hord as [Hord Hlast]. inversion Hone as [|? ? Hi1 Hrest]; subst.
    apply (same_standings_view s s' _ now now); [by eapply reject_standings | lia |].
    apply IH; [done..|]. destruct inputs as [|j inputs]; [done|]. inversion Hlast; subst; lia.
Qed.


(** ** Repeated documents *)

(** The two states hold the same but for what they count. *)
Definition same_content (s t : FieldState) : Prop :=
  fs_source t = fs_source s /\ competitors t = competitors s /\ _lines t = _lines s /\ cars t = cars s /\
  session t = session s /\ fs_epoch t = fs_epoch s.

Lemma row_of_line_retime s t at_ at' line attributes counts :
  fs_source t = fs_source s -> competitors t = competitors s ->
  row_of_line t at' line attributes counts =
    (fun '(r, counts) => (set_epoch (stamp r at' (source r)) (default at' (fs_epoch t)), counts))
      <$> row_of_line s at_ line attributes counts.
Proof.
  intros Hsrc Hcomp; unfold row_of_line; rewrite Hsrc, Hcomp.
  destruct (_int (attr_obj (attributes !! "Pos"))) as [pos|]; [|done]; cbn [mbind res_bind].
  destruct (match pos with Some _ => _ | None => _ end) as [cp cc].
  repeat match goal with
  | |- context [@mbind res _ _ _ _ ?e] =>
      lazymatch e with @mbind _ _ _ _ _ _ => fail | _ => destruct e; [|done]; cbn [mbind res_bind] end
  end.
  done.
Qed.

Lemma rows_of_lines_retime s t at_ at' lines counts rows :
  fs_source t = fs_source s -> competitors t = competitors s -> _lines t = _lines s ->
  rows_of_lines s at_ lines counts = Ok rows ->
  exists rows', rows_of_lines t at' lines counts = Ok rows' /\ map screen rows' = map screen rows.
Proof.
  intros Hsrc Hcomp Hlines; revert counts rows; induction lines as [|line lines IH]; intros counts rows; cbn [rows_of_lines];
    [intros [= <-]; by exists []|].
  rewrite Hlines, (row_of_line_retime s t at_ at') by done.
  destruct (row_of_line s at_ line _ counts) as [[row counts']|e]; [|done]; cbn [mbind res_bind fmap res_fmap].
  intros (rows1 & Hrows & [= <-])%res_bind_Ok. destruct (IH _ _ Hrows) as (rows' & Hr' & Hs).
  rewrite Hr'; cbn [mbind res_bind]. eexists; split; [done|]. cbn [map]. by rewrite Hs.
Qed.

Lemma screen_number r r' : screen r = screen r' -> car_number r = car_number r'.
Proof. unfold screen; congruence. Qed.

Lemma screens_numbers rows rows' : map screen rows = map screen rows' -> map car_number rows = map car_number rows'.
Proof.
  revert rows'; induction rows as [|r rows IH]; intros [|r' rows']; [done..|]. cbn [map]; intros H.
  f_equal; [apply screen_number | apply IH]; congruence.
Qed.

Definition all_held (t : FieldState) (rows : list CarRow) : Prop :=
  Forall (fun r => same_as r (cars t !! car_number r) = true) rows.

Lemma all_held_screens t rows rows' : map screen rows' = map screen rows -> all_held t rows -> all_held t rows'.
Proof.
  unfold all_held; revert rows'; induction rows as [|r rows IH]; intros [|r' rows'] H; try done.
  cbn [map] in H. intros Hall; inversion Hall as [|? ? Hr Hrest]; subst.
  assert (Hs : screen r' = screen r) by congruence. assert (Hm : map screen rows' = map screen rows) by congruence.
  constructor; [|by apply IH]. rewrite (screen_number _ _ Hs). revert Hr; unfold same_as.
  destruct (cars t !! car_number r); [|done]. by rewrite Hs.
Qed.

(** When every row is held and a full table has the cars held, nothing is emitted. *)
Lemma diff_settled t rows at_ full :
  all_held t rows ->
  (full = true -> is_Some (fs_epoch t) /\ list_to_set (map car_number rows) = dom (cars t)) ->
  _diff t rows at_ full = (t, [], []).
Proof.
  intros Hall Hfull. unfold _diff.
  assert (Hne : new_epoch t rows at_ full = t).
  { unfold new_epoch. destruct full; [|done]. destruct (Hfull eq_refl) as [[e He] Hdom].
    rewrite bool_decide_eq_false_2 by congruence. by rewrite bool_decide_eq_true_2. }
  rewrite Hne. generalize (default at_ (fs_epoch t)); intros e. clear Hne Hfull.
  induction Hall as [|r rows Hr _ IH]; [done|]; cbn [fold_left]. unfold diff_row at 2.
  change (same_as (set_epoch r e) (cars t !! car_number (set_epoch r e))) with (same_as r (cars t !! car_number r)).
  by rewrite Hr.
Qed.

(** After a [_diff] its rows are held. *)
Lemma diff_settles s rows at_ full s' changed new_laps :
  NoDup (map car_number rows) -> Forall (fun r => py_refl (screen r)) rows ->
  _diff s rows at_ full = (s', changed, new_laps) ->
  all_held s' rows /\
  (full = true -> is_Some (fs_epoch s') /\ list_to_set (map car_number rows) = dom (cars s')) /\
  s' = with_cars s (cars s') (fs_epoch s').
Proof.
  intros Hnd Hrefl. unfold _diff. rewrite diff_rows_spec by done. cbn [app].
  set (s0 := new_epoch s rows at_ full). set (e := default at_ (fs_epoch s0)). intros [= <- _ _].
  assert (Hs0 : s0 = with_cars s (cars s0) (fs_epoch s0)).
  { unfold s0, new_epoch. destruct full; [destruct (_ || _)|]; by destruct s. }
  split_and!.
  - apply Forall_forall. intros r Hr; cbn [with_cars cars].
    destruct (decide (car_number r ∈ map car_number (changed_rows s0 e rows))) as [Hin|Hni].
    + apply list_elem_of_fmap in Hin as (x & Hnum & Hx). pose proof Hx as (r' & Hr' & -> & _)%changed_rows_elem.
      assert (r' = r) as -> by (eapply NoDup_map_inj; eauto).
      rewrite Hnum, hold_rows_in by (done || by apply changed_rows_nodup).
      rewrite Forall_forall in Hrefl. exact (Hrefl r Hr).
    + rewrite hold_rows_other by done. destruct (same_as r (cars s0 !! car_number r)) eqn:Es; [done|]. exfalso; apply Hni.
      apply list_elem_of_fmap. exists (set_epoch r e); split; [done|]. apply changed_rows_elem. by exists r.
  - intros ->. cbn [with_cars cars fs_epoch].
    assert (Hdom : is_Some (fs_epoch s0) /\ (cars s0 = ∅ \/ list_to_set (map car_number rows) = dom (cars s0))).
    { unfold s0, new_epoch. destruct (bool_decide (fs_epoch s = None)) eqn:E1; cbn [orb]; [split; [by eexists | by left]|].
      destruct (negb _) eqn:E2; [split; [by eexists | by left]|]. apply bool_decide_eq_false in E1.
      apply negb_false_iff, bool_decide_eq_true in E2. split; [by destruct (fs_epoch s); [eexists|] | by right]. }
    destruct Hdom as [Hep Hdom]. split; [done|]. rewrite hold_rows_dom.
    assert (Hsub : list_to_set (map car_number (changed_rows s0 e rows)) ⊆@{gset string} list_to_set (map car_number rows)).
    { intros c. rewrite !elem_of_list_to_set. apply changed_rows_numbers. }
    destruct Hdom as [Hempty|Heq]; [|set_solver]. rewrite Hempty, dom_empty_L, (right_id_L ∅ (∪)).
    apply set_eq; intros c; split; [|apply Hsub]. rewrite !elem_of_list_to_set.
    intros (r & -> & Hr)%list_elem_of_fmap. apply list_elem_of_fmap. exists (set_epoch r e); split; [done|].
    apply changed_rows_elem. exists r; split_and!; [done..|]. rewrite Hempty, lookup_empty; done.
  - rewrite Hs0 at 1. done.
Qed.

(** Merging the same lines again changes nothing. *)
Lemma merge_lines_lookup incoming lines k :
  od_wf incoming ->
  fold_left merge_line incoming lines !! k =
    match od_get k incoming with Some v => Some (v ∪ default ∅ (lines !! k)) | None => lines !! k end.
Proof.
  unfold od_wf, od_keys; revert lines; induction incoming as [|[k' v] incoming IH]; intros lines; [done|].
  cbn [fmap list_fmap fst fold_left od_get]. intros [Hni Hnd]%NoDup_cons. rewrite IH by done.
  unfold merge_line; cbn [fst snd]. case_decide as Hk; [subst k|].
  - apply (od_get_None k' incoming) in Hni as ->. apply lookup_insert_eq.
  - by rewrite !lookup_insert_ne.
Qed.

Lemma update_lines_again lines part incoming :
  od_wf incoming -> update_lines (update_lines lines part incoming) part incoming = update_lines lines part incoming.
Proof.
  intros Hwf; destruct part; [|done]; cbn [update_lines]. apply map_eq; intros k.
  rewrite !merge_lines_lookup by done. destruct (od_get k incoming) as [v|]; [|done]. cbn [from_option id].
  f_equal. by rewrite (assoc_L (∪)), (idemp_L (∪)).
Qed.

Lemma incoming_lines_wf positions incoming r :
  od_wf incoming -> incoming_lines positions incoming = Ok r -> od_wf r.
Proof.
  revert incoming; induction positions as [|e positions IH]; intros incoming Hwf; cbn [incoming_lines];
    [by intros [= <-]|].
  intros (line & _ & Hrest)%res_bind_Ok. eapply IH; [|exact Hrest]. destruct line; [by apply od_set_wf | done].
Qed.

(** The rows the state held would show, and none is ambiguous: one row per car
    and no NaN. *)
Definition settled_rows (s : FieldState) (at_ : Z) : Prop :=
  forall rows, _rows_from_lines s at_ = Ok rows ->
    NoDup (map car_number rows) /\ Forall (fun r => py_refl (screen r)) rows.

Lemma rows_again s t at_ at' rows :
  same_content s t -> _rows_from_lines s at_ = Ok rows ->
  exists rows', _rows_from_lines t at' = Ok rows' /\ map screen rows' = map screen rows.
Proof.
  intros (Hsrc & Hcomp & Hlines & _) Hr. unfold _rows_from_lines, sorted_lines in *. rewrite Hlines.
  by eapply rows_of_lines_retime.
Qed.

Lemma same_content_held s t rows : same_content s t -> all_held s rows -> all_held t rows.
Proof. intros (_ & _ & _ & Hc & _). unfold all_held. by rewrite Hc. Qed.

Lemma refl_screens rows rows' :
  map screen rows' = map screen rows -> Forall (fun r => py_refl (screen r)) rows' -> Forall (fun r => py_refl (screen r)) rows.
Proof.
  intros Hs H'. apply Forall_forall; intros r Hr. rewrite Forall_forall in H'.
  assert (Hin : screen r ∈ map screen rows') by (rewrite Hs; apply list_elem_of_fmap; by exists r).
  apply list_elem_of_fmap in Hin as (r' & -> & Hr'). by apply H'.
Qed.

(** A [_diff] over the rows of [s0]'s lines, and the same again later. *)
Lemma diff_again s0 at_ at' rows full s1 changed new_laps t :
  _rows_from_lines s0 at_ = Ok rows -> _diff s0 rows at_ full = (s1, changed, new_laps) ->
  same_content s1 t -> settled_rows s1 at' ->
  exists rows', _rows_from_lines t at' = Ok rows' /\ _diff t rows' at' full = (t, [], []).
Proof.
  intros Hrows Hd Ht Hset.
  assert (Hs1 : fs_source s1 = fs_source s0 /\ competitors s1 = competitors s0 /\ _lines s1 = _lines s0).
  { revert Hd; unfold _diff. set (e := default _ _).
    pose proof (diff_fold_ind (fun '(s, _, _) => fs_source s = fs_source s0 /\ competitors s = competitors s0 /\ _lines s = _lines s0)
      e rows (new_epoch s0 rows at_ full, [], [])) as Hind. intros Hd; rewrite Hd in Hind. apply Hind.
    - unfold new_epoch; destruct full; [destruct (_ || _)|]; done.
    - by intros [[s ch] lp] r _ H. }
  destruct Hs1 as (H1 & H2 & H3).
  destruct (rows_of_lines_retime s0 s1 at_ at' (sorted_lines s0) [] rows H1 H2 H3 Hrows) as (rows1 & Hr1 & Hsc1).
  assert (Hr1' : _rows_from_lines s1 at' = Ok rows1) by (unfold _rows_from_lines, sorted_lines; by rewrite H3).
  destruct (Hset _ Hr1') as [Hnd Hrefl].
  rewrite (screens_numbers _ _ Hsc1) in Hnd. apply (refl_screens _ _ Hsc1) in Hrefl.
  destruct (diff_settles _ _ _ _ _ _ _ Hnd Hrefl Hd) as (Hheld & Hfull & _).
  destruct (rows_again s1 t at' at' rows1 Ht Hr1') as (rows' & Hr' & Hsc').
  exists rows'; split; [done|]. rewrite Hsc1 in Hsc'. apply diff_settled.
  - eapply all_held_screens; [exact Hsc'|]. by eapply same_content_held.
  - intros Hf. destruct (Hfull Hf) as [He Hdom]. destruct Ht as (_ & _ & _ & Hc & _ & Hep).
    by rewrite Hep, Hc, (screens_numbers _ _ Hsc').
Qed.

Lemma diff_lines s rows at_ full s' changed new_laps :
  _diff s rows at_ full = (s', changed, new_laps) -> _lines s' = _lines s /\ competitors s' = competitors s.
Proof.
  unfold _diff. set (e := default _ _). intros Hd.
  pose proof (diff_fold_ind (fun '(s1, _, _) => _lines s1 = _lines s /\ competitors s1 = competitors s)
    e rows (new_epoch s rows at_ full, [], [])) as Hind. rewrite Hd in Hind. apply Hind.
  - unfold new_epoch; destruct full; [destruct (_ || _)|]; done.
  - by intros [[s1 ch] lp] r _ H.
Qed.

Lemma leaderboard_again s element at_ at' s1 changed new_laps t :
  _leaderboard s element at_ = (s1, Ok (changed, new_laps)) -> same_content s1 t -> settled_rows s1 at' ->
  _leaderboard t element at' = (t, Ok ([], [])).
Proof.
  unfold _leaderboard. destruct (incoming_lines _ _) as [incoming|e] eqn:Ei; [|done].
  set (part := String.eqb _ "part"). cbn [_lines with_lines]. set (lines1 := update_lines (_lines s) part incoming).
  destruct (MAX_CARS <? size lines1)%nat eqn:Ecap; [done|].
  destruct (_rows_from_lines _ _) as [rows|e] eqn:Er; [|done].
  destruct (_diff _ _ _ _) as [[s2 ch] lp] eqn:Ed. intros [= -> -> ->] Ht Hset.
  destruct (diff_again _ _ at' _ _ _ _ _ t Er Ed Ht Hset) as (rows' & Hr' & Hd').
  destruct (diff_lines _ _ _ _ _ _ _ Ed) as [Hl _]. cbn [with_lines _lines] in Hl.
  assert (Hlt : _lines t = lines1) by (destruct Ht as (_ & _ & -> & _); done).
  assert (Hwf : od_wf incoming) by (eapply incoming_lines_wf; [|exact Ei]; constructor).
  assert (Hagain : update_lines (_lines t) part incoming = _lines t)
    by (rewrite Hlt; unfold lines1; by apply update_lines_again).
  assert (Hid : with_lines t (_lines t) = t) by (by destruct t).
  by rewrite Hagain, Hid, Hlt, Ecap, Hr', Hd'.
Qed.

Lemma newer_again {A : Type} (x y : option A) : newer x (newer x y) = newer x y.
Proof. by destruct x. Qed.

(** The session row of a document read against the row it produced. *)
Lemma session_row_again s t element at_ at' u :
  session_row s element at_ = Ok u -> fs_source t = fs_source s -> session t = Some u \/ session t = session s ->
  exists u', session_row t element at' = Ok u' /\ session_facts u' = session_facts u.
Proof.
  unfold session_row. intros H Hsrc Hsess. rewrite Hsrc.
  set (cur := default (mkSessionRow at_ (fs_source s) None None None None None None None None) (session s)) in *.
  set (cur' := default (mkSessionRow at' (fs_source s) None None None None None None None None) (session t)).
  assert (Hcur : session_facts cur' = session_facts cur \/ cur' = u).
  { unfold cur', cur. destruct Hsess as [->| ->]; [by right | left]. by destruct (session s). }
  destruct (_seconds (attr_obj (get "TrackTemp" element))) as [temp|]; [|done]; cbn [mbind res_bind] in *.
  destruct (String.eqb (tag element) "Counters").
  - destruct (_seconds (attr_obj (get "Count" element))) as [count|]; [|done]; cbn [mbind res_bind] in *.
    destruct (_seconds (attr_obj (get "Elapsed" element))) as [elapsed|]; [|done]; cbn [mbind res_bind] in *.
    destruct (laps_count _ count) as [remaining|]; [|done]; cbn [mbind res_bind] in *. injection H as <-.
    eexists; split; [done|].
    destruct Hcur as [Hcur| ->]; [injection Hcur as -> -> -> -> -> -> -> -> ->; done|].
    unfold session_facts; cbn. rewrite !newer_again.
    destruct (get "Status" element), (get "SubStatus" element), (_ || _), (String.eqb _ "elapsed"), elapsed, count; done.
  - destruct (String.eqb (tag element) "Event"); injection H as <-; (eexists; split; [done|]);
      (destruct Hcur as [Hcur| ->]; [injection Hcur as -> -> -> -> -> -> -> -> ->; done|]);
      unfold session_facts; cbn; rewrite ?newer_again;
      destruct (get "Status" element), (get "SubStatus" element); done.
Qed.

Lemma session_update_again s element at_ at' s1 r t :
  _session_update s element at_ = (s1, Ok r) -> same_content s1 t ->
  (forall u, session s1 = Some u -> py_refl (session_facts u)) ->
  _session_update t element at' = (t, Ok None).
Proof.
  unfold _session_update. destruct (session_row s element at_) as [u|e] eqn:Eu; [|done].
  intros H (Hsrc & _ & _ & _ & Hsess & _) Hrefl.
  destruct (session_same_as u (session s)) eqn:Es; injection H as <- <-.
  - destruct (session_row_again s t element at_ at' u Eu Hsrc (or_intror Hsess)) as (u' & -> & Hf).
    rewrite Hsess. revert Es; unfold session_same_as. destruct (session s); [|done]. rewrite Hf. by intros ->.
  - cbn [with_session session fs_source] in *.
    destruct (session_row_again s t element at_ at' u Eu Hsrc (or_introl Hsess)) as (u' & -> & Hf).
    rewrite Hsess. unfold session_same_as. rewrite Hf, (Hrefl u); done.
Qed.

Definition repeatable : list string := "Leaderboard" :: "CompetitorList" :: session_tags.

Lemma element_again s a element at_ at' s1 a1 t :
  tag element ∈ repeatable -> apply_element s a element at_ = (s1, Ok a1) -> same_content s1 t ->
  settled_rows s1 at' -> (forall u, session s1 = Some u -> py_refl (session_facts u)) ->
  apply_element t acc0 element at' = (t, Ok acc0).
Proof.
  intros Htag. unfold apply_element. destruct (String.eqb (tag element) "Leaderboard") eqn:E1.
  { destruct (_leaderboard s element at_) as [s2 [[ch lp]|e]] eqn:El; [|done]. intros [= -> _] Ht Hset _.
    by rewrite (leaderboard_again _ _ _ at' _ _ _ t El Ht Hset). }
  destruct (String.eqb (tag element) "CompetitorList") eqn:E2.
  { set (s0 := _competitor_list s element). intros H Ht Hset _.
    assert (Hc : forall x, same_content s1 x -> competitors s1 = competitors s0 -> _competitor_list x element = x).
    { intros x (_ & Hx & _) Heq. unfold _competitor_list. rewrite Heq in Hx. cbn in Hx. rewrite <- Hx. by destruct x. }
    case_bool_decide as Hl.
    - injection H as <- _. rewrite (Hc t Ht) by done. rewrite bool_decide_eq_true_2; [done|].
      by destruct Ht as (_ & _ & -> & _).
    - destruct (_rows_from_lines s0 at_) as [rows|e] eqn:Er; [|done].
      destruct (_diff s0 rows at_ false) as [[s2 ch] lp] eqn:Ed. injection H as -> _.
      destruct (diff_lines _ _ _ _ _ _ _ Ed) as [Hlines Hcomp]. rewrite (Hc t Ht) by done.
      destruct (diff_again _ _ at' _ _ _ _ _ t Er Ed Ht Hset) as (rows' & Hr' & Hd').
      rewrite bool_decide_eq_false_2; [by rewrite Hr', Hd'|]. destruct Ht as (_ & _ & -> & _). by rewrite Hlines. }
  assert (Hsess : tag element ∈ session_tags).
  { apply String.eqb_neq in E1, E2. by repeat (apply elem_of_cons in Htag as [?|Htag]; [done|]). }
  rewrite bool_decide_eq_true_2 by done.
  destruct (_session_update s element at_) as [s2 [r|e]] eqn:Eu; [|done]. intros [= -> _] Ht _ Hrefl.
  by rewrite (session_update_again _ _ _ at' _ _ t Eu Ht Hrefl).
Qed.

(** ** Executable runs *)

Definition feed_step (acc : FieldState * list Batch) (i : feed_input) : FieldState * list Batch :=
  match apply_input acc.1 i with
  | (s, Ok b) => (s, acc.2 ++ [b])
  | (s, Raise _) => (s, acc.2)
  end.

Fixpoint accepts (s : FieldState) (inputs : list feed_input) : bool :=
  match inputs with
  | [] => true
  | i :: inputs => match apply_input s i with (s, Ok _) => accepts s inputs | (_, Raise _) => false end
  end.

Lemma feed_runs inputs s before batches :
  run s before batches -> accepts s inputs = true ->
  run (fold_left feed_step inputs (s, batches)).1 (rev inputs ++ before) (fold_left feed_step inputs (s, batches)).2.
Proof.
  revert s before batches; induction inputs as [|i inputs IH]; intros s before batches Hrun; [done|].
  cbn [accepts fold_left rev]. unfold feed_step at 2 4; cbn [fst snd].
  destruct (apply_input s i) as [s' [b|e]] eqn:Ei; [|done]. intros Hacc.
  rewrite <- app_assoc. apply IH; [by eapply run_accept | done].
Qed.
End Run.


(** * Class positions *)

Definition classified (k : option string) (r : CarRow) : Prop := car_class r = k /\ is_Some (position r).
#[export] Instance classified_dec k r : Decision (classified k r) := _.

Lemma row_of_line_class s at_ line attributes counts row counts' k :
  row_of_line s at_ line attributes counts = Ok (row, counts') ->
  if decide (classified k row)
  then class_position row = Some (default 0 (od_get k counts) + 1) /\
       od_get k counts' = Some (default 0 (od_get k counts) + 1)
  else od_get k counts' = od_get k counts /\ (position row = None -> class_position row = None).
Proof.
  unfold row_of_line. intros (pos & _ & H)%res_bind_Ok.
  set (n := default 0 (od_get _ counts) + 1) in H.
  set (cls := competitors s !! default "" (attributes !! "Comp") ≫= cp_class) in *.
  destruct pos as [p|]; cbn beta iota zeta in H;
    repeat (apply res_bind_Ok in H as (? & _ & H)); injection H as <- <-; unfold classified; cbn.
  - destruct (decide (cls = k)) as [->|Hne].
    + rewrite decide_True by (split; [done | by eexists]). by rewrite od_get_set_eq.
    + rewrite decide_False by (by intros [? _]). by rewrite od_get_set_ne.
  - rewrite decide_False; [done|]. by intros [_ [? ?]].
Qed.

(** Within each class the cars with a position are numbered from one in the
    order of their lines; a car without a position has no class position. *)
Theorem class_positions_count_up s at_ rows k :
  _rows_from_lines s at_ = Ok rows ->
  map class_position (filter (classified k) rows) = map Some (seqZ 1 (Z.of_nat (length (filter (classified k) rows)))) /\
  Forall (fun r => position r = None -> class_position r = None) rows.
Proof.
  unfold _rows_from_lines. change 1 with (default 0 (od_get k (@nil (option string * Z))) + 1).
  generalize (@nil (option string * Z)) as counts. generalize (sorted_lines s) as lines. intros lines.
  revert rows; induction lines as [|line lines IH]; intros rows counts; cbn [rows_of_lines]; [by intros [= <-]|].
  intros ([row counts'] & Hrow & (rows1 & Hrows & [= <-])%res_bind_Ok)%res_bind_Ok.
  destruct (IH _ _ Hrows) as [Hpos Hnone]. pose proof (row_of_line_class _ _ _ _ _ _ _ k Hrow) as Hk.
  rewrite filter_cons. destruct (decide (classified k row)) as [Hc|Hc].
  - destruct Hk as [Hcp Hcount]. rewrite Hcount in Hpos; cbn [from_option id] in Hpos. split.
    + cbn [map length]. rewrite Hcp, Hpos, Nat2Z.inj_succ, (seqZ_cons _ (Z.succ _)) by lia. cbn [map].
      by rewrite Z.pred_succ, Z.add_1_r.
    + constructor; [|done]. by destruct Hc as [_ [? ->]].
  - destruct Hk as [Hcount Hcp]. rewrite Hcount in Hpos. by split; [|constructor].
Qed.

(** * A feed of four documents *)

Definition attrs (l : list (string * string)) : gmap string string := list_to_map l.
Definition position_element (line comp pos laps last : string) : Element :=
  mkElement "Position" (attrs [("Line", line); ("Comp", comp); ("Pos", pos); ("LastLap", laps); ("LastTime", last)]) [].
Definition sample_feed (text : string) : option Element :=
  if String.eqb text "full" then
    Some (mkElement "Leaderboard" (attrs [("Type", "full")])
      [position_element "2" "7" "2" "11" "97.5"; position_element "1" "27" "1" "12" "1:35.25"])
  else if String.eqb text "part" then
    Some (mkElement "Leaderboard" (attrs [("Type", "part")]) [position_element "1" "27" "1" "13" "1:36"])
  else if String.eqb text "green" then
    Some (mkElement "Status" (attrs [("Status", "Green"); ("TrackTemp", "31.5")]) [])
  else if String.eqb text "not a number" then
    Some (mkElement "Leaderboard" (attrs [("Type", "part")]) [position_element "1" "27" "1" "nan" "1:36"])
  else None.

Definition sample_inputs : list feed_input := [Document "full" 1000; Document "green" 1500; Document "part" 2000].
Definition sample_run : FieldState * list Batch := fold_left (feed_step sample_feed) sample_inputs (new_state "natsoft", []).

Example sample_batches :
  map (fun b => (map (fun r => (car_number r, position r, laps r)) (b_cars b),
                 map (fun l => (lr_car_number l, lap_number l, lr_flag_state l)) (b_laps b))) sample_run.2 =
    [([("27", Some 1, Some 12); ("7", Some 2, Some 11)], []); ([], []);
     ([("27", Some 1, Some 13)], [("27", 13, Some "green")])].
Proof. vm_compute. reflexivity. Qed.

Lemma sample_run_runs : run sample_feed sample_run.1 (rev sample_inputs) sample_run.2.
Proof.
  pose proof (feed_runs sample_feed sample_inputs (new_state "natsoft") [] [] (run_start _ _)) as H.
  rewrite app_nil_r in H. apply H. vm_compute. reflexivity.
Qed.




Lemma class_positions_count_up_witness :
  exists rows, _rows_from_lines sample_run.1 3000 = Ok rows /\
    map class_position (filter (classified None) rows) = [Some 1; Some 2].
Proof.
  destruct (_rows_from_lines sample_run.1 3000) as [rows|e] eqn:E; [|vm_compute in E; discriminate].
  exists rows; split; [reflexivity|]. destruct (class_positions_count_up _ _ _ None E) as [H _]. rewrite H.
  vm_compute in E. injection E as <-. vm_compute. reflexivity.
Defined.

(** * What the definitions show of the source *)

(** [nan] or [inf] where a count belongs is not a [DocumentError]: the
    conversion raises past the callers that catch one. *)
Example not_a_number_escapes :
  match (apply_document sample_feed sample_run.1 "not a number" 3000).2 with
  | Raise e => exn_kind e = ValueError | Ok _ => False end.
Proof. vm_compute. reflexivity. Qed.

Example infinite_count_overflows :
  match _int (OStr "inf") with Raise e => exn_kind e = OverflowError | Ok _ => False end.
Proof. reflexivity. Qed.

(** A document that is refused half way has already moved the state: the rows
    of the elements before the failing one are held and were never written, so
    no later document writes them either. *)
Definition lap_14 : Element :=
  mkElement "Leaderboard" (attrs [("Type", "part")]) [position_element "1" "27" "1" "14" "1:34"].
Definition torn_feed (text : string) : option Element :=
  if String.eqb text "torn" then
    Some (mkElement "New" ∅ [lap_14; mkElement "Passing" (attrs [("ID", "27"); ("Type", "nan")]) []])
  else Some lap_14.

Example refused_container_loses_a_lap :
  let torn := apply_document torn_feed sample_run.1 "torn" 3000 in
  is_ok torn.2 = false /\
  match (apply_document torn_feed torn.1 "lap 14" 4000).2 with
  | Ok b => b_cars b = [] /\ b_laps b = [] | Raise _ => False end.
Proof. vm_compute. repeat split. Qed.

(** A refused leaderboard has already replaced the lines, and a registry then
    derives the rows of every one of them, past the cap. *)
Definition crowded_feed (text : string) : option Element :=
  if String.eqb text "crowd" then
    Some (mkElement "Leaderboard" (attrs [("Type", "full")])
      (map (fun n => position_element (pretty (Z.of_nat n)) (pretty (Z.of_nat n)) "1" "1" "90") (seq 1 201)))
  else Some (mkElement "CompetitorList" ∅ []).

Example refused_lines_come_back :
  let crowd := apply_document crowded_feed (new_state "natsoft") "crowd" 1000 in
  is_ok crowd.2 = false /\
  match (apply_document crowded_feed crowd.1 "registry" 2000).2 with
  | Ok b => length (b_cars b) = 201%nat | Raise _ => False end.
Proof. vm_compute. split; reflexivity. Qed.

(** Two lines that come out under one car number take turns: each repeat of the
    table emits both rows and derives the lap again. *)
Definition double_feed (text : string) : option Element :=
  Some (mkElement "Leaderboard" (attrs [("Type", "full")])
    [position_element "1" "27" "1" "10" "90"; position_element "2" "27" "2" "12" "90"]).

Example one_number_twice_derives_laps_forever :
  let acc := fold_left (feed_step double_feed) [Document "a" 1000; Document "a" 2000; Document "a" 3000]
               (new_state "natsoft", []) in
  map (fun b => (length (b_cars b), map lap_number (b_laps b))) acc.2 =
    [(2%nat, [12]); (2%nat, [12]); (2%nat, [12])].
Proof. vm_compute. reflexivity. Qed.

(** A full table of no cars starts an epoch that no row carries, so the view
    keeps showing the epoch before it. *)
Definition empty_feed (text : string) : option Element :=
  match sample_feed text with Some e => Some e | None => Some (mkElement "Leaderboard" (attrs [("Type", "full")]) []) end.

Example empty_table_is_invisible :
  match apply_document empty_feed sample_run.1 "empty" 3000 with
  | (s, Ok b) => b_cars b = [] /\ bool_decide (cars s = ∅) = true /\ fs_epoch s = Some 3000
  | _ => False
  end.
Proof. vm_compute. repeat split. Qed.
