(* ===== verification/FieldShapes.v ===== *)
(** The two ingest shapes ([src/pit/timing_feed/shapes.py]): a relay's JSON
    snapshot and Timing71's manifest and state messages, each mapped onto a
    [Snapshot]. Bodies are objects of a JSON parser; a row is read field by field
    through [_CAR_FIELDS], and an unknown column is left out. *)

From S2P Require Import Prelude PyFloat Stats PyText FieldModel.

Local Open Scope Z_scope.

Definition _MAX_TEXT : nat := 80.

Definition T71_COLUMNS : list (string * string) :=
  [("num", "car_number"); ("state", "state"); ("class", "car_class"); ("pic", "class_position");
   ("driver", "driver"); ("laps", "laps"); ("gap", "gap_lead_s"); ("int", "gap_next_s"); ("last", "last_lap_s");
   ("best", "best_lap_s"); ("s1", "sec1_s"); ("s2", "sec2_s"); ("s3", "sec3_s"); ("pits", "pit_count")].

Inductive kind := KText | KInt | KSeconds | KDelta | KBool.

Definition _CAR_FIELDS : list (string * kind) :=
  [("car_number", KText); ("competitor_id", KText); ("car_class", KText); ("class", KText); ("position", KInt);
   ("class_position", KInt); ("laps", KInt); ("last_lap_s", KSeconds); ("best_lap_s", KSeconds);
   ("gap_lead_s", KDelta); ("gap_next_s", KDelta); ("sec1_s", KSeconds); ("sec2_s", KSeconds); ("sec3_s", KSeconds);
   ("pit_count", KInt); ("in_pit", KBool); ("pit_flag", KText); ("driver", KText); ("state", KText)].

(** * Values *)

Definition _clip (value : obj) : option string :=
  match value with
  | ONone => None
  | v => str_take _MAX_TEXT <$> _text (Some (py_str v))
  end.

Definition _delta (value : obj) : res (option float) :=
  match value with
  | ONone | OBool _ => Ok None
  | OInt z => x ← float_of_int z; Ok (Some x)
  | OFloat x => Ok (Some x)
  | v =>
      let text := str_lower (strip (py_str v)) in
      if String.eqb text "" || str_in "lap" text || ends_with "l"%char text then Ok None
      else _seconds (OStr (lstrip (Ascii.eqb "+"%char) text))
  end.

(** What [_coerce] returns, by the kind of the field. *)
Inductive value :=
  | VText (t : option string)
  | VInt (z : option Z)
  | VFloat (x : option float)
  | VBool (b : option bool).

Definition truth_words : list string := ["true"; "yes"; "y"; "1"; "p"].

Definition _coerce (k : kind) (v : obj) : res value :=
  let v := match v with OList [] => ONone | OList (x :: _) => x | v => v end in
  match k with
  | KText => Ok (VText (_clip v))
  | KInt => z ← _int v; Ok (VInt z)
  | KSeconds => x ← _seconds v; Ok (VFloat x)
  | KDelta => x ← _delta v; Ok (VFloat x)
  | KBool =>
      Ok (VBool match v with
        | ONone => None
        | OBool b => Some b
        | OStr s => Some (bool_decide (str_lower (strip s) ∈ truth_words))
        | v => Some (obj_truthy v)
        end)
  end.

(** * Rows *)

Definition values := list (string * value).
Definition text_of (key : string) (vs : values) : option string :=
  match od_get key vs with Some (VText t) => t | _ => None end.
Definition int_of (key : string) (vs : values) : option Z :=
  match od_get key vs with Some (VInt z) => z | _ => None end.
Definition float_of (key : string) (vs : values) : option float :=
  match od_get key vs with Some (VFloat x) => x | _ => None end.
Definition bool_of (key : string) (vs : values) : option bool :=
  match od_get key vs with Some (VBool b) => b | _ => None end.

(** The loop of [_car_from]. *)
Fixpoint coerce_fields (mapping : list (string * obj)) (vs : values) : res values :=
  match mapping with
  | [] => Ok vs
  | (key, raw) :: mapping =>
      match od_get key _CAR_FIELDS with
      | None => coerce_fields mapping vs
      | Some k => v ← _coerce k raw; coerce_fields mapping (od_set (if String.eqb key "class" then "car_class" else key) v vs)
      end
  end.

Definition _car_from (mapping : list (string * obj)) (at_ : Z) (source : string) (index : Z) : res CarRow :=
  vs ← coerce_fields mapping [];
  match text_of "car_number" vs with
  | None | Some EmptyString => raise ShapeError ("cars[" +:+ pretty index +:+ "] has no car_number")
  | Some number =>
      Ok (mkCarRow at_ source at_ number (text_of "competitor_id" vs) (text_of "car_class" vs)
            (Some (default (index + 1) (int_of "position" vs))) (int_of "class_position" vs) (int_of "laps" vs)
            (float_of "last_lap_s" vs) (float_of "best_lap_s" vs) (float_of "gap_lead_s" vs) (float_of "gap_next_s" vs)
            (float_of "sec1_s" vs) (float_of "sec2_s" vs) (float_of "sec3_s" vs) (int_of "pit_count" vs)
            (match bool_of "in_pit" vs with
             | Some b => Some b
             | None => (fun s => String.eqb s "PIT") <$> text_of "state" vs
             end)
            (text_of "pit_flag" vs) (text_of "driver" vs) (text_of "state" vs))
  end.

(** [str(value) if value is not None]. *)
Definition str_opt (v : obj) : option string := match v with ONone => None | v => Some (py_str v) end.

Definition _session_from (mapping : list (string * obj)) (at_ : Z) (source : string) : res (option SessionRow) :=
  match mapping with
  | [] => Ok None
  | _ =>
      let flag := oget "flag_state" mapping in
      let sub := oget "sub_status" mapping in
      let flag_text := flag_state (str_opt flag) in
      let sub :=
        match flag, sub with
        | OStr f, ONone =>
            match od_get (str_lower (strip f)) T71_FLAG_SPLIT with Some (_, s) => s | None => None end
        | _, sub => str_opt sub
        end in
      laps_remaining ← _int (oget "laps_remaining" mapping);
      time_remaining_s ← _seconds (oget "time_remaining_s" mapping);
      time_elapsed_s ← _seconds (oget "time_elapsed_s" mapping);
      track_temp ← _seconds (oget "track_temp" mapping);
      Ok (Some (mkSessionRow at_ source (_clip (oget "session_name" mapping)) (_clip (oget "event_type" mapping))
                  flag_text (sub_status sub) time_remaining_s laps_remaining time_elapsed_s track_temp))
  end.

(** * A relay's snapshot *)

Definition too_many (what : string) (n : nat) (plural : string) : string :=
  what +:+ " has " +:+ pretty (Z.of_nat n) +:+ " " +:+ plural +:+ "; the cap is 200".

(** The loop of [snapshot_from_json] over [cars]. *)
Fixpoint json_rows (cars : list obj) (at_ : Z) (label : string) (index : Z) (seen : list string) : res (list CarRow) :=
  match cars with
  | [] => Ok []
  | ODict entry :: cars =>
      row ← _car_from entry at_ label index;
      if bool_decide (car_number row ∈ seen) then raise ShapeError ("car " +:+ car_number row +:+ " appears twice")
      else rows ← json_rows cars at_ label (index + 1) (car_number row :: seen); Ok (row :: rows)
  | _ :: _ => raise ShapeError ("cars[" +:+ pretty index +:+ "] must be an object")
  end.

Definition snapshot_from_json (body : list (string * obj)) (at_ : Z) (source : string) : res Snapshot :=
  match oget "cars" body with
  | OList cars =>
      if (MAX_CARS <? length cars)%nat then raise ShapeError (too_many "snapshot" (length cars) "cars")
      else
        let go session :=
          let label := str_or (default "" (_clip (oget "source" body))) source in
          rows ← json_rows cars at_ label 0 [];
          session ← _session_from session at_ label;
          Ok (mkSnapshot at_ label session rows) in
        match oget "session" body with
        | ONone => go []
        | ODict session => go session
        | _ => raise ShapeError "session must be an object"
        end
  | _ => raise ShapeError "cars must be a list"
  end.

(** * Timing71 *)

Record T71Translator := mkT71Translator {
  t71_source : string;
  columns : list (option string);
  track_temp_index : option nat;
  t71_session_name : option string
}.
Definition new_translator : T71Translator := mkT71Translator "t71" [] None None.

(** One column of the manifest. *)
Definition t71_column (column : obj) : option string :=
  let heading := match column with OList (h :: _) => h | c => c end in
  let key := match heading with ONone => "" | h => str_lower (strip (py_str h)) end in
  od_get key T71_COLUMNS.

(** The first heading that names the track temperature. *)
Fixpoint track_index (headings : list obj) (index : nat) : option nat :=
  match headings with
  | [] => None
  | h :: headings =>
      let low := str_lower (py_str h) in
      if str_in "track" low && str_in "temp" low then Some index else track_index headings (S index)
  end.

Definition manifest (t : T71Translator) (m : list (string * obj)) : res T71Translator :=
  match oget "colSpec" m with
  | OList spec =>
      Ok (mkT71Translator (t71_source t) (map t71_column spec)
            match oget "trackDataSpec" m with OList hs => track_index hs 0 | _ => None end
            (newer (_clip (oget "description" m)) (_clip (oget "name" m))))
  | _ => raise ShapeError "manifest.colSpec must be a list"
  end.

(** [zip(self.columns, entry)] into a mapping. *)
Fixpoint zip_columns (columns : list (option string)) (entry : list obj) (mapping : list (string * obj)) : list (string * obj) :=
  match columns, entry with
  | Some c :: columns, v :: entry => zip_columns columns entry (od_set c v mapping)
  | None :: columns, _ :: entry => zip_columns columns entry mapping
  | _, _ => mapping
  end.

Fixpoint t71_rows (t : T71Translator) (cars : list obj) (at_ index : Z) (seen : list string) : res (list CarRow) :=
  match cars with
  | [] => Ok []
  | OList entry :: cars =>
      row ← _car_from (zip_columns (columns t) entry []) at_ (t71_source t) index;
      if bool_decide (car_number row ∈ seen) then t71_rows t cars at_ (index + 1) seen
      else rows ← t71_rows t cars at_ (index + 1) (car_number row :: seen); Ok (row :: rows)
  | _ :: _ => raise ShapeError ("cars[" +:+ pretty index +:+ "] must be a row")
  end.

Definition _temperature (v : obj) : res (option float) :=
  match v with
  | OInt z => x ← float_of_int z; Ok (Some x)
  | OFloat x => Ok (Some x)
  | OStr s => _seconds (OStr (str_filter (fun c => is_digit c || Ascii.eqb c "."%char || Ascii.eqb c "-"%char) s))
  | _ => Ok None
  end.

(** [track[index]] when [track] is a list or a text long enough. *)
Definition track_entry (track : obj) (index : nat) : option obj :=
  match track with
  | OList l => l !! index
  | OStr s => (fun c => OStr (String c EmptyString)) <$> String.get index s
  | _ => None
  end.

Definition track_temperature (t : T71Translator) (track : obj) : res (list (string * obj)) :=
  match track_temp_index t ≫= track_entry track with
  | None => Ok []
  | Some v => x ← _temperature v; Ok [("track_temp", match x with Some x => OFloat x | None => ONone end)]
  end.

Definition t71_session (t : T71Translator) (session : obj) (at_ : Z) : res (option SessionRow) :=
  match session with
  | ODict session =>
      track ← track_temperature t (oget "trackData" session);
      _session_from ([("session_name", match t71_session_name t with Some s => OStr s | None => ONone end);
                      ("flag_state", oget "flagState" session); ("time_remaining_s", oget "timeRemain" session);
                      ("time_elapsed_s", oget "timeElapsed" session); ("laps_remaining", oget "lapsRemain" session)]
                     ++ track) at_ (t71_source t)
  | _ => Ok None
  end.

(** [T71Translator.state]. *)
Definition t71_state (t : T71Translator) (s : list (string * obj)) (at_ : Z) : res Snapshot :=
  match columns t with
  | [] => raise ShapeError "STATE_UPDATE before any MANIFEST_UPDATE"
  | _ =>
      match oget "cars" s with
      | OList cars =>
          if (MAX_CARS <? length cars)%nat then raise ShapeError (too_many "state" (length cars) "cars")
          else
            rows ← t71_rows t cars at_ 0 [];
            session ← t71_session t (oget "session" s) at_;
            Ok (mkSnapshot at_ (t71_source t) session rows)
      | _ => raise ShapeError "state.cars must be a list"
      end
  end.

(** * Bounds *)

Definition short (t : option string) : Prop := forall s, t = Some s -> (String.length s <= _MAX_TEXT)%nat.

Lemma clip_short v : short (_clip v).
Proof.
  unfold short, _clip. destruct v; [done|..]; intros t' (t & _ & ->)%fmap_Some_1; apply str_take_length.
Qed.

Definition short_value (v : value) : Prop := match v with VText t => short t | _ => True end.

Lemma coerce_short k v r : _coerce k v = Ok r -> short_value r.
Proof.
  unfold _coerce. set (v' := match v with OList [] => _ | _ => _ end). destruct k.
  - intros [= <-]. apply clip_short.
  - by intros (z & _ & [= <-])%res_bind_Ok.
  - by intros (z & _ & [= <-])%res_bind_Ok.
  - by intros (z & _ & [= <-])%res_bind_Ok.
  - by intros [= <-].
Qed.

Lemma coerce_fields_short mapping vs r :
  (forall key v, od_get key vs = Some v -> short_value v) -> coerce_fields mapping vs = Ok r ->
  forall key v, od_get key r = Some v -> short_value v.
Proof.
  revert vs; induction mapping as [|[key raw] mapping IH]; intros vs Hvs; cbn [coerce_fields]; [by intros [= <-]|].
  destruct (od_get key _CAR_FIELDS) as [k|]; [|by apply IH].
  intros (v & Hv & Hrest)%res_bind_Ok. refine (IH _ _ Hrest). intros key' v'.
  set (key1 := if String.eqb key "class" then "car_class" else key).
  destruct (decide (key' = key1)) as [->|Hne]; [rewrite od_get_set_eq; intros [= <-]; by eapply coerce_short|].
  rewrite od_get_set_ne by done. apply Hvs.
Qed.

Lemma text_of_short key vs :
  (forall key v, od_get key vs = Some v -> short_value v) -> short (text_of key vs).
Proof.
  intros Hvs. unfold text_of. destruct (od_get key vs) as [[t| | |]|] eqn:E; try done. exact (Hvs _ _ E).
Qed.

(** A row an ingest endpoint accepts: numbered, placed, every text clipped. *)
Definition bounded_row (at_ : Z) (source : string) (r : CarRow) : Prop :=
  car_number r <> "" /\ is_Some (position r) /\ time r = at_ /\ epoch r = at_ /\ FieldModel.source r = source /\
  Forall short [Some (car_number r); competitor_id r; car_class r; pit_flag r; driver r; state r].

Lemma car_from_bounded mapping at_ source index row :
  _car_from mapping at_ source index = Ok row -> bounded_row at_ source row.
Proof.
  unfold _car_from. intros (vs & Hvs & H)%res_bind_Ok.
  assert (Hshort : forall key, short (text_of key vs)).
  { intros key. apply text_of_short. eapply coerce_fields_short; [|exact Hvs]. by intros ? ?. }
  pose proof (Hshort "car_number") as Hnum.
  destruct (text_of "car_number" vs) as [[|c number]|]; try done. injection H as <-. unfold bounded_row; cbn [car_number position time epoch
    FieldModel.source competitor_id car_class pit_flag driver state].
  split; [done|]. split; [by eexists|]. do 3 (split; [done|]).
  rewrite !Forall_cons. split_and!; [exact Hnum | apply Hshort..|]. constructor.
Qed.

(** Rows of different cars, none of them seen before. *)
Definition accepted_rows (at_ : Z) (source : string) (seen : list string) (rows : list CarRow) : Prop :=
  Forall (bounded_row at_ source) rows /\ NoDup (map car_number rows) /\ Forall (fun r => car_number r ∉ seen) rows.

Lemma accepted_nil at_ source seen : accepted_rows at_ source seen [].
Proof. repeat constructor. Qed.

Lemma accepted_cons at_ source seen row rows :
  bounded_row at_ source row -> car_number row ∉ seen -> accepted_rows at_ source (car_number row :: seen) rows ->
  accepted_rows at_ source seen (row :: rows).
Proof.
  intros Hrow Hseen (Hb & Hnd & Hns). split_and!; [by constructor | cbn [map]; apply NoDup_cons; split; [|done] |].
  - intros (r & Heq & Hr)%list_elem_of_fmap. rewrite Forall_forall in Hns. apply (Hns r Hr). rewrite <- Heq. left.
  - constructor; [done|]. eapply Forall_impl; [exact Hns|]. intros r Hr Hin; apply Hr; by right.
Qed.

Lemma json_rows_accepted cars at_ label index seen rows :
  json_rows cars at_ label index seen = Ok rows -> length rows = length cars /\ accepted_rows at_ label seen rows.
Proof.
  revert index seen rows; induction cars as [|c cars IH]; intros index seen rows; cbn [json_rows].
  { intros [= <-]; split; [done | apply accepted_nil]. }
  destruct c as [| | | | | |entry]; try done. intros (row & Hrow%car_from_bounded & H)%res_bind_Ok.
  case_bool_decide as Hseen; [done|]. apply res_bind_Ok in H as (rows' & Hrows & [= <-]).
  destruct (IH _ _ _ Hrows) as [Hlen Hacc]. split; [cbn; by rewrite Hlen | by apply accepted_cons].
Qed.

Lemma t71_rows_accepted t cars at_ index seen rows :
  t71_rows t cars at_ index seen = Ok rows ->
  (length rows <= length cars)%nat /\ accepted_rows at_ (t71_source t) seen rows.
Proof.
  revert index seen rows; induction cars as [|c cars IH]; intros index seen rows; cbn [t71_rows].
  { intros [= <-]; split; [done | apply accepted_nil]. }
  destruct c as [| | | | |entry|]; try done. intros (row & Hrow%car_from_bounded & H)%res_bind_Ok.
  case_bool_decide as Hseen.
  - destruct (IH _ _ _ H) as [Hlen Hacc]. split; [cbn; lia | done].
  - apply res_bind_Ok in H as (rows' & Hrows & [= <-]).
    destruct (IH _ _ _ Hrows) as [Hlen Hacc]. split; [cbn; lia | by apply accepted_cons].
Qed.

(** A snapshot an endpoint may hand on. *)
Definition bounded_snapshot (sn : Snapshot) : Prop :=
  (length (sn_cars sn) <= MAX_CARS)%nat /\ accepted_rows (sn_at sn) (sn_source sn) [] (sn_cars sn).

(** A bounded snapshot is never refused downstream, and its update emits each
    car at most once. *)
Lemma bounded_snapshot_applies s sn :
  bounded_snapshot sn ->
  exists s' b, apply_snapshot s sn = (s', Ok b) /\ NoDup (map car_number (b_cars b)) /\
    (length (b_laps b) <= length (b_cars b) <= MAX_CARS)%nat.
Proof.
  intros (Hlen & _ & Hnd & _). unfold apply_snapshot. destruct (snapshot_session _ _) as [s1 row].
  set (rows := map _ (sn_cars sn)). assert (Hr : length rows = length (sn_cars sn)) by apply length_map.
  assert (Hn : map car_number rows = map car_number (sn_cars sn)) by (unfold rows; rewrite map_map; done).
  destruct (Nat.ltb_spec MAX_CARS (length rows)) as [|_]; [lia|].
  unfold _diff. rewrite diff_rows_spec by (by rewrite Hn). cbn [app].
  set (e := default _ _). set (s0 := new_epoch _ _ _ _).
  eexists _, _; split; [reflexivity|]; cbn [b_cars b_laps].
  split; [apply changed_rows_nodup; by rewrite Hn|]. rewrite <- Hr in Hlen. clearbody e s0 rows.
  assert (Hc : (length (changed_rows s0 e rows) <= length rows)%nat).
  { clear. induction rows as [|r rows IH]; cbn [changed_rows]; [done|]. destruct (same_as _ _); cbn [length]; lia. }
  split; [|lia]. generalize (changed_rows s0 e rows); intros l. clear.
  induction l as [|r l IH]; cbn [derived_laps flat_map]; [done|]. fold (derived_laps s0 l). rewrite length_app.
  assert (H1 : (length (lap_of s0 r (cars s0 !! car_number r)) <= 1)%nat).
  { unfold lap_of. destruct (_ ≫= laps); [|cbn; lia]. destruct (laps r); [|cbn; lia]. destruct (_ <? _); cbn; lia. }
  cbn [length]; lia.
Qed.

(** What the snapshot endpoint accepts is bounded: at most [MAX_CARS] rows, one
    per car, each with a number and a position, every text of a row clipped and
    every stamp the request's. The standings then never refuse it, and the
    update writes at most one car row and one lap row per car. *)
Theorem relay_snapshot_is_bounded body at_ source sn s :
  snapshot_from_json body at_ source = Ok sn ->
  bounded_snapshot sn /\ sn_at sn = at_ /\
  exists s' b, apply_snapshot s sn = (s', Ok b) /\ NoDup (map car_number (b_cars b)) /\
    (length (b_laps b) <= length (b_cars b) <= MAX_CARS)%nat.
Proof.
  intros H. assert (Hb : bounded_snapshot sn /\ sn_at sn = at_).
  { revert H. unfold snapshot_from_json. destruct (oget "cars" body) as [| | | | |cars|]; try done.
    destruct (Nat.ltb_spec MAX_CARS (length cars)) as [|Hlen]; [done|].
    destruct (oget "session" body) as [| | | | | |d]; try done;
      intros (rows & [Hl Hacc]%json_rows_accepted & (row & _ & [= <-])%res_bind_Ok)%res_bind_Ok;
      (split; [split; [cbn; lia | done] | done]). }
  destruct Hb as [Hb Hat]. split; [done|]. split; [done|]. by apply bounded_snapshot_applies.
Qed.

(** The same of a Timing71 state, whose rows are read against the manifest. *)
Theorem t71_snapshot_is_bounded t state at_ sn s :
  t71_state t state at_ = Ok sn ->
  columns t <> [] /\ bounded_snapshot sn /\ sn_at sn = at_ /\
  exists s' b, apply_snapshot s sn = (s', Ok b) /\ NoDup (map car_number (b_cars b)) /\
    (length (b_laps b) <= length (b_cars b) <= MAX_CARS)%nat.
Proof.
  intros H. assert (Hb : columns t <> [] /\ bounded_snapshot sn /\ sn_at sn = at_).
  { revert H. unfold t71_state. destruct (columns t) as [|c cs] eqn:Ec; [done|].
    destruct (oget "cars" state) as [| | | | |cars|]; try done.
    destruct (Nat.ltb_spec MAX_CARS (length cars)) as [|Hlen]; [done|].
    intros (rows & [Hl Hacc]%t71_rows_accepted & (row & _ & [= <-])%res_bind_Ok)%res_bind_Ok.
    split; [done|]. split; [split; [cbn; lia | done] | done]. }
  destruct Hb as (Hc & Hb & Hat). split; [done|]. split; [done|]. split; [done|]. by apply bounded_snapshot_applies.
Qed.

(** * A relay's body and a Timing71 exchange *)

Definition sample_body : list (string * obj) :=
  [("source", OStr "relay-page");
   ("session", ODict [("flag_state", OStr "SC"); ("laps_remaining", OInt 12)]);
   ("cars", OList [
      ODict [("car_number", OStr " 27 "); ("laps", OStr "14"); ("gap_lead_s", OStr "1 lap"); ("best_lap_s", OStr "1:35.25")];
      ODict [("car_number", OInt 7); ("state", OStr "PIT"); ("colour", OStr "red"); ("gap_next_s", OStr "+1.5")]])].

Definition sample_manifest : list (string * obj) :=
  [("description", OStr "Qualifying"); ("colSpec", OList [OList [OStr "Num"; OStr "text"]; OList [OStr "Laps"]; OList [OStr "Last"]]);
   ("trackDataSpec", OList [OStr "Air"; OStr "Track temperature"])].
Definition sample_state : list (string * obj) :=
  [("cars", OList [OList [OStr "27"; OInt 14; OList [OStr "1:35.25"; OStr "pb"]]; OList [OStr "27"; OInt 3]; OList [OStr "7"; OInt 13]]);
   ("session", ODict [("flagState", OStr "green"); ("trackData", OList [OStr "20"; OStr "31.5 C"])])].

Definition sample_translator : T71Translator :=
  match manifest new_translator sample_manifest with Ok t => t | Raise _ => new_translator end.

Example sample_relay_rows :
  match snapshot_from_json sample_body 1000 "relay" with
  | Ok sn => map (fun r => (car_number r, position r, laps r, in_pit r)) (sn_cars sn) =
               [("27", Some 1, Some 14, None); ("7", Some 2, None, Some true)] /\
             (sn_session sn ≫= sr_flag_state, sn_session sn ≫= sr_sub_status) = (Some "yellow", Some "sc")
  | Raise _ => False
  end.
Proof. vm_compute. split; reflexivity. Qed.

Example sample_t71_rows :
  match t71_state sample_translator sample_state 1000 with
  | Ok sn => map (fun r => (car_number r, position r, laps r)) (sn_cars sn) = [("27", Some 1, Some 14); ("7", Some 3, Some 13)] /\
             (sn_session sn ≫= session_name, sn_session sn ≫= track_temp) = (Some "Qualifying", Some (lit 315 10))
  | Raise _ => False
  end.
Proof. vm_compute. split; reflexivity. Qed.

Lemma relay_snapshot_is_bounded_witness :
  exists sn, snapshot_from_json sample_body 1000 "relay" = Ok sn /\ length (sn_cars sn) = 2%nat /\ bounded_snapshot sn.
Proof.
  destruct (snapshot_from_json sample_body 1000 "relay") as [sn|e] eqn:E; [|vm_compute in E; discriminate E].
  exists sn; split; [reflexivity|]. split; [vm_compute in E; injection E as <-; reflexivity|].
  exact (proj1 (relay_snapshot_is_bounded _ _ _ _ (new_state "relay") E)).
Defined.

Lemma t71_snapshot_is_bounded_witness :
  exists sn, t71_state sample_translator sample_state 1000 = Ok sn /\ length (sn_cars sn) = 2%nat /\ bounded_snapshot sn.
Proof.
  destruct (t71_state sample_translator sample_state 1000) as [sn|e] eqn:E; [|vm_compute in E; discriminate E].
  exists sn; split; [reflexivity|]. split; [vm_compute in E; injection E as <-; reflexivity|].
  exact (proj1 (proj2 (t71_snapshot_is_bounded _ _ _ _ (new_state "t71") E))).
Defined.

(** * What the definitions show of the source *)

(** A NaN or an infinity in an integer column is not a [ShapeError], the only
    class the endpoint answers with 400. *)
Example not_a_number_is_no_shape_error :
  match snapshot_from_json [("cars", OList [ODict [("car_number", OStr "27"); ("laps", OFloat S754_nan)]])] 1000 "relay" with
  | Raise e => exn_kind e = ValueError | Ok _ => False end.
Proof. vm_compute. reflexivity. Qed.

Example infinity_is_no_shape_error :
  match snapshot_from_json [("cars", OList [ODict [("car_number", OStr "27"); ("laps", OFloat finf)]])] 1000 "relay" with
  | Raise e => exn_kind e = OverflowError | Ok _ => False end.
Proof. vm_compute. reflexivity. Qed.

(** An unknown flag word is stored as it came, not clipped. *)
Example flag_word_is_not_clipped :
  match snapshot_from_json [("cars", OList []); ("session", ODict [("flag_state", OStr (Nat.iter 200 (String "x"%char) ""))])]
          1000 "relay" with
  | Ok sn => (String.length <$> (sn_session sn ≫= sr_flag_state)) = Some 200%nat | Raise _ => False end.
Proof. vm_compute. reflexivity. Qed.
