(* ===== verification/FieldService.v ===== *)
(** The timing feed service ([src/pit/timing_feed/service.py], the writes and
    findings of [database.py], and the two ingest endpoints of [ingest.py]).

    One step is one call on the event loop: a document, a snapshot taken from
    the ingest queue, a submission by an endpoint, a reconciliation. What the
    database answers is an argument of the step, so a failing write or commit
    is a step like any other. The finding rows of [watch_findings] are kept as
    the table they are, with the dictionary of open ones the service holds
    beside it. *)

From S2P Require Import Prelude PyFloat Stats PyText Reconcile FieldModel FieldShapes.

Local Open Scope Z_scope.

(** * Health counters ([health.py]) *)

Record HealthState := mkHealth {
  h_documents : Z;
  documents_rejected : Z;
  rows_written : Z;
  batches_dropped : Z;
  db_errors : Z;
  last_error : option string;
  our_car : option string;
  session_id : option string;
  feed_laps : option Z;
  vehicle_laps : option Z;
  h_clock_offset_s : option float;
  findings_open : Z
}.
Definition new_health : HealthState := mkHealth 0 0 0 0 0 None None None None None None 0.

Definition observe_document (h : HealthState) :=
  mkHealth (h_documents h + 1) (documents_rejected h) (rows_written h) (batches_dropped h) (db_errors h) (last_error h)
    (our_car h) (session_id h) (feed_laps h) (vehicle_laps h) (h_clock_offset_s h) (findings_open h).
Definition count_rejected (h : HealthState) :=
  mkHealth (h_documents h) (documents_rejected h + 1) (rows_written h) (batches_dropped h) (db_errors h) (last_error h)
    (our_car h) (session_id h) (feed_laps h) (vehicle_laps h) (h_clock_offset_s h) (findings_open h).
Definition observe_write (h : HealthState) (rows : Z) :=
  mkHealth (h_documents h) (documents_rejected h) (rows_written h + rows) (batches_dropped h) (db_errors h) (last_error h)
    (our_car h) (session_id h) (feed_laps h) (vehicle_laps h) (h_clock_offset_s h) (findings_open h).
Definition observe_db_error (h : HealthState) (e : exn) :=
  mkHealth (h_documents h) (documents_rejected h) (rows_written h) (batches_dropped h) (db_errors h + 1)
    (Some ("database: " +:+ exn_msg e)) (our_car h) (session_id h) (feed_laps h) (vehicle_laps h) (h_clock_offset_s h)
    (findings_open h).
Definition count_dropped (h : HealthState) :=
  mkHealth (h_documents h) (documents_rejected h) (rows_written h) (batches_dropped h + 1) (db_errors h) (last_error h)
    (our_car h) (session_id h) (feed_laps h) (vehicle_laps h) (h_clock_offset_s h) (findings_open h).
Definition set_car (h : HealthState) car session feed vehicle :=
  mkHealth (h_documents h) (documents_rejected h) (rows_written h) (batches_dropped h) (db_errors h) (last_error h)
    car session feed vehicle (h_clock_offset_s h) (findings_open h).
Definition set_clock_offset (h : HealthState) (x : float) :=
  mkHealth (h_documents h) (documents_rejected h) (rows_written h) (batches_dropped h) (db_errors h) (last_error h)
    (our_car h) (session_id h) (feed_laps h) (vehicle_laps h) (Some x) (findings_open h).
Definition set_findings_open (h : HealthState) (n : Z) :=
  mkHealth (h_documents h) (documents_rejected h) (rows_written h) (batches_dropped h) (db_errors h) (last_error h)
    (our_car h) (session_id h) (feed_laps h) (vehicle_laps h) (h_clock_offset_s h) n.

(** * Findings in the database *)

Record FindingRow := mkFindingRow {
  finding_id : positive;
  fr_monitor : string;
  opened_at : Z;
  fr_severity : string;
  peak_score : float;
  fr_summary : list (string * obj);
  closed_at : option Z
}.

(** [_OPEN_FINDING], [_UPDATE_FINDING] and [_CLOSE_FINDING]. *)
Definition open_row (id : positive) (f : Finding) (at_ : Z) : FindingRow :=
  mkFindingRow id (f_monitor f) at_ (f_severity f) (f_score f) (f_summary f) None.
Definition update_row (id : positive) (f : Finding) (r : FindingRow) : FindingRow :=
  if bool_decide (finding_id r = id)
  then mkFindingRow id (fr_monitor r) (opened_at r) (f_severity f) (fmax (peak_score r) (f_score f)) (f_summary f) (closed_at r)
  else r.
Definition close_row (id : positive) (at_ : Z) (r : FindingRow) : FindingRow :=
  if bool_decide (finding_id r = id) && bool_decide (closed_at r = None)
  then mkFindingRow id (fr_monitor r) (opened_at r) (fr_severity r) (peak_score r) (fr_summary r) (Some at_)
  else r.

(** A transaction under way: the rows as it sees them, the dictionary, the ids
    [uuid4] will draw, and how many statements still succeed ([None]: all). *)
Record Txn := mkTxn {
  t_rows : list FindingRow;
  t_open : list (string * positive);
  t_fresh : list positive;
  t_left : option nat
}.

(** One statement: [None] when it fails. *)
Definition execute (t : Txn) (f : list FindingRow -> list FindingRow) : option Txn :=
  match t_left t with
  | Some O => None
  | Some (S n) => Some (mkTxn (f (t_rows t)) (t_open t) (t_fresh t) (Some n))
  | None => Some (mkTxn (f (t_rows t)) (t_open t) (t_fresh t) None)
  end.

Definition with_open (t : Txn) (o : list (string * positive)) : Txn := mkTxn (t_rows t) o (t_fresh t) (t_left t).
Definition with_fresh (t : Txn) (ids : list positive) : Txn := mkTxn (t_rows t) (t_open t) ids (t_left t).

(** The first loop of [reconcile_findings], over [active.items()]: the
    transaction and whether it is still alive. *)
Fixpoint open_or_update (t : Txn) (active : list (string * Finding)) (at_ : Z) : Txn * bool :=
  match active with
  | [] => (t, true)
  | (monitor, finding) :: active =>
      match od_get monitor (t_open t) with
      | None =>
          let id := default 1%positive (head (t_fresh t)) in
          let t := with_fresh t (tail (t_fresh t)) in
          match execute t (fun rows => rows ++ [open_row id finding at_]) with
          | None => (t, false)
          | Some t => open_or_update (with_open t (od_set monitor id (t_open t))) active at_
          end
      | Some existing =>
          match execute t (map (update_row existing finding)) with
          | None => (t, false)
          | Some t => open_or_update t active at_
          end
      end
  end.

(** The second loop, over the keys held: the entry is popped before the
    statement runs. *)
Fixpoint close_absent (t : Txn) (held : list (string * positive)) (active : list (string * Finding)) (at_ : Z) : Txn * bool :=
  match held with
  | [] => (t, true)
  | (monitor, id) :: held =>
      if od_mem monitor active then close_absent t held active at_
      else
        let t := with_open t (od_del monitor (t_open t)) in
        match execute t (map (close_row id at_)) with
        | None => (t, false)
        | Some t => close_absent t held active at_
        end
  end.

(** [{finding.monitor: finding for finding in findings}]. *)
Definition active_of (findings : list Finding) : list (string * Finding) :=
  fold_left (fun d f => od_set (f_monitor f) f d) findings [].

(** [FieldDatabase.reconcile_findings]: the table and the dictionary after the
    call, and whether it committed. A failed statement or commit rolls the table
    back and leaves the dictionary. *)
Definition reconcile_findings (rows : list FindingRow) (open_findings : list (string * positive))
    (findings : list Finding) (at_ : Z) (fresh : list positive) (left_ : option nat)
    : list FindingRow * list (string * positive) * bool :=
  let active := active_of findings in
  let '(t, alive) := open_or_update (mkTxn rows open_findings fresh left_) active at_ in
  let '(t, alive) := if alive then close_absent t (t_open t) active at_ else (t, false) in
  match alive, execute t (fun rows => rows) with
  | true, Some t => (t_rows t, t_open t, true)
  | _, _ => (rows, t_open t, false)
  end.

(** [adopt_open_findings]: the open rows of the monitors this service owns. *)
Definition MONITORS : list string := [MONITOR_LAP_COUNT].
Definition adopt_open_findings (rows : list FindingRow) : list (string * positive) :=
  fold_left (fun d r =>
    if bool_decide (closed_at r = None) && bool_decide (fr_monitor r ∈ MONITORS) then od_set (fr_monitor r) (finding_id r) d else d)
    rows [].

(** * The service *)

Definition _QUEUE_SIZE : nat := 256.

Record TimingFeedService := mkService {
  fstate : FieldState;
  health : HealthState;
  _ingest : option (list Snapshot);
  _adopted : bool;
  _our_passings : list PassingRow;
  db_open : list (string * positive);
  capture_written : option nat
}.

Definition set_health (v : TimingFeedService) h :=
  mkService (fstate v) h (_ingest v) (_adopted v) (_our_passings v) (db_open v) (capture_written v).
Definition set_fstate (v : TimingFeedService) s :=
  mkService s (health v) (_ingest v) (_adopted v) (_our_passings v) (db_open v) (capture_written v).
Definition set_ingest (v : TimingFeedService) q :=
  mkService (fstate v) (health v) q (_adopted v) (_our_passings v) (db_open v) (capture_written v).
Definition set_passings (v : TimingFeedService) p :=
  mkService (fstate v) (health v) (_ingest v) (_adopted v) p (db_open v) (capture_written v).
Definition set_findings (v : TimingFeedService) adopted o :=
  mkService (fstate v) (health v) (_ingest v) adopted (_our_passings v) o (capture_written v).
Definition set_capture (v : TimingFeedService) n :=
  mkService (fstate v) (health v) (_ingest v) (_adopted v) (_our_passings v) (db_open v) n.

(** [submit]: the newest wins when the queue is full. *)
Definition submit (v : TimingFeedService) (snapshot : Snapshot) : TimingFeedService :=
  match _ingest v with
  | None => v
  | Some queue =>
      if (_QUEUE_SIZE <=? length queue)%nat
      then set_health (set_ingest v (Some (tail queue ++ [snapshot]))) (count_dropped (health v))
      else set_ingest v (Some (queue ++ [snapshot]))
  end.

(** [_write]; [outcome] is what the database answers a batch that is not
    empty. The second component is the batch committed. *)
Definition _write (v : TimingFeedService) (batch : Batch) (outcome : option exn) : TimingFeedService * list Batch :=
  if batch_true batch then
    match outcome with
    | None => (set_health v (observe_write (health v) (Z.of_nat (rows batch))), [batch])
    | Some e => (set_health v (count_dropped (observe_db_error (health v) e)), [])
    end
  else (v, []).

(** [_note_passings]: our main-line crossings that carry a stamp, the newest 32. *)
Definition noted (our : string) (p : PassingRow) : bool :=
  bool_decide (pr_car_number p = Some our) && String.eqb (line p) "main" && bool_decide (tod p <> None).
Definition _note_passings (v : TimingFeedService) (batch : Batch) : TimingFeedService :=
  match our_car (health v) with
  | None => v
  | Some our => set_passings v (last_n 32 (_our_passings v ++ List.filter (noted our) (b_passings batch)))
  end.

(** What became of an input: written, quiet, refused, or escaped with an
    exception the handler does not catch. *)
Inductive fate := Written (b : Batch) | Lost (b : Batch) | Quiet | Refused | Escaped (e : exn).

(** The tail [handle_document] and [handle_snapshot] share. *)
Definition settle (v : TimingFeedService) (note : bool) (r : res Batch) (outcome : option exn) : TimingFeedService * fate :=
  match r with
  | Raise e =>
      match exn_kind e with
      | DocumentError => (set_health v (count_rejected (health v)), Refused)
      | _ => (v, Escaped e)
      end
  | Ok batch =>
      let v := if note then _note_passings v batch else v in
      match _write v batch outcome with
      | (v, b :: _) => (v, Written b)
      | (v, []) => (v, if batch_true batch then Lost batch else Quiet)
      end
  end.

Section Handlers.
Context (fromstring : string -> option Element).

Definition handle_document (v : TimingFeedService) (text : string) (at_ : Z) (capture : bool) (outcome : option exn)
    : TimingFeedService * fate :=
  let v := set_health v (observe_document (health v)) in
  let v := if capture then set_capture v (S <$> capture_written v) else v in
  let '(s, r) := apply_document fromstring (fstate v) text at_ in
  settle (set_fstate v s) true r outcome.

Definition handle_snapshot (v : TimingFeedService) (snapshot : Snapshot) (outcome : option exn) : TimingFeedService * fate :=
  let v := set_health v (observe_document (health v)) in
  let '(s, r) := apply_snapshot (fstate v) snapshot in
  settle (set_fstate v s) false r outcome.

(** One turn of [_ingest_loop]: the oldest snapshot queued, when there is one. *)
Definition ingest_turn (v : TimingFeedService) (outcome : option exn) : TimingFeedService * option fate :=
  match _ingest v with
  | Some (snapshot :: queue) =>
      let '(v, f) := handle_snapshot (set_ingest v (Some queue)) snapshot outcome in (v, Some f)
  | _ => (v, None)
  end.
End Handlers.

(** ** Reconciliation *)

Record OurCar := mkOurCar { oc_session : string; oc_number : option string }.

(** What the database answers a reconciliation; a read or a metric write may
    raise. *)
Record Answers := mkAnswers {
  an_adopt : res unit;
  an_our_car : res (option OurCar);
  an_vehicle_laps : string -> res Z;
  an_crossings : string -> Z -> res (list Z);
  an_metric : Z -> string -> float -> res unit
}.

(** [clock_offset_s] with its default window. *)
Definition CLOCK_WINDOW_S : float := f_of_Z 30.

(** The loop of [_clock_offset] over our passings. *)
Fixpoint offsets (h : HealthState) (an : Answers) (passings : list PassingRow) (crossings : list Z) : HealthState * res unit :=
  match passings with
  | [] => (h, Ok tt)
  | p :: passings =>
      match tod p with
      | None => (h, raise AssertionError "")
      | Some stamp =>
          match clock_offset_s stamp crossings CLOCK_WINDOW_S with
          | None => offsets h an passings crossings
          | Some offset =>
              let h := set_clock_offset h offset in
              match (_ ← an_metric an stamp "clock_offset_s" offset;
                     an_metric an (pr_time p) "feed_latency_s" (total_seconds (pr_time p - stamp))) with
              | Ok _ => offsets h an passings crossings
              | Raise e => (h, Raise e)
              end
          end
      end
  end.

Definition _clock_offset (v : TimingFeedService) (an : Answers) (session_id : string) : TimingFeedService * res unit :=
  match _our_passings v with
  | [] => (v, Ok tt)
  | passings =>
      let v := set_passings v [] in
      match omap tod passings with
      | [] => (v, raise ValueError "min() arg is an empty sequence")
      | t :: ts =>
          match an_crossings an session_id (fold_left Z.min ts t - 60 * 1000000) with
          | Raise e => (v, Raise e)
          | Ok crossings => let '(h, r) := offsets (health v) an passings crossings in (set_health v h, r)
          end
      end
  end.

(** The findings of one pass; [_reconcile_sync] up to the table. *)
Definition reconcile_reads (v : TimingFeedService) (an : Answers) (tolerance : Z)
    : TimingFeedService * res (list Finding) :=
  match an_our_car an with
  | Raise e => (v, Raise e)
  | Ok our =>
      match our ≫= oc_number with
      | None | Some EmptyString =>
          (set_health v (set_car (health v) None (oc_session <$> our) None None), Ok [])
      | Some number =>
          let session := default "" (oc_session <$> our) in
          let feed := cars (fstate v) !! number ≫= laps in
          let noted := set_car (health v) (Some number) (Some session) in
          match an_vehicle_laps an session with
          | Raise e => (set_health v (noted (feed_laps (health v)) (vehicle_laps (health v))), Raise e)
          | Ok vehicle =>
              let v := set_health v (noted feed (Some vehicle)) in
              match lap_count_finding number feed vehicle tolerance with
              | Raise e => (v, Raise e)
              | Ok finding =>
                  match _clock_offset v an session with
                  | (v, Ok _) => (v, Ok (opt_list finding))
                  | (v, Raise e) => (v, Raise e)
                  end
              end
          end
      end
  end.

(** [_reconcile_sync]: the service, the table of findings and whether it
    committed. *)
Definition _reconcile_sync (v : TimingFeedService) (an : Answers) (rows : list FindingRow) (tolerance now : Z)
    (fresh : list positive) (left_ : option nat) : TimingFeedService * list FindingRow * res (list Finding) :=
  match (if _adopted v then Ok v else _ ← an_adopt an; Ok (set_findings v true (adopt_open_findings rows))) with
  | Raise e => (v, rows, Raise e)
  | Ok v =>
      match reconcile_reads v an tolerance with
      | (v, Raise e) => (v, rows, Raise e)
      | (v, Ok findings) =>
          let '(rows, held, committed) := reconcile_findings rows (db_open v) findings now fresh left_ in
          let v := set_findings v true held in
          if committed then (set_health v (set_findings_open (health v) (Z.of_nat (length held))), rows, Ok findings)
          else (v, rows, raise DatabaseError "")
      end
  end.

(** * The ingest endpoints ([ingest.py])

    A handler runs on an HTTP thread and hands a snapshot to the loop, where
    [submit] takes it. *)

Section Ingest.
(** [json.loads]; [JSONDecodeError] is a [ValueError]. *)
Context (json_loads : string -> res obj).

Definition MAX_REQUEST_BODY_BYTES : Z := 256 * 1024.

Record IngestCounts := mkCounts { ingest_snapshots : Z; ingest_t71_messages : Z; ingest_rejected : Z }.
Definition count_snapshot (c : IngestCounts) := mkCounts (ingest_snapshots c + 1) (ingest_t71_messages c) (ingest_rejected c).
Definition count_t71 (c : IngestCounts) := mkCounts (ingest_snapshots c) (ingest_t71_messages c + 1) (ingest_rejected c).
Definition count_ingest_rejected (c : IngestCounts) := mkCounts (ingest_snapshots c) (ingest_t71_messages c) (ingest_rejected c + 1).

(** The body of the [try] of [_t71_message]: the translator left, and the
    snapshot a state message gives; [None] for a kind that is not ingested. *)
Definition t71_apply (t : T71Translator) (text : string) (at_ : Z) : res (option (T71Translator * option Snapshot)) :=
  message ← json_loads text;
  match message with
  | ODict m =>
      match oget "type" m with
      | OStr "MANIFEST_UPDATE" =>
          match oget "manifest" m with
          | ODict spec => t ← manifest t spec; Ok (Some (t, None))
          | _ => raise ShapeError "manifest must be an object"
          end
      | OStr "STATE_UPDATE" =>
          match oget "state" m with
          | ODict state => sn ← t71_state t state at_; Ok (Some (t, Some sn))
          | _ => raise ShapeError "state must be an object"
          end
      | _ => Ok None
      end
  | _ => raise ShapeError "message is not an object"
  end.

(** [except (ValueError, TypeError)]; [ShapeError] is a [ValueError]. *)
Definition t71_catches (e : exn) : bool :=
  match exn_kind e with ValueError | TypeError | ShapeError => true | _ => false end.

(** [_t71_message]: the translator, the counters, the snapshot handed on, and
    the exception that escapes into the connection's loop. *)
Definition _t71_message (t : T71Translator) (c : IngestCounts) (text : string) (at_ : Z)
    : T71Translator * IngestCounts * res (option Snapshot) :=
  match t71_apply t text at_ with
  | Ok None => (t, c, Ok None)
  | Ok (Some (t, sn)) => (t, count_t71 c, Ok sn)
  | Raise e => if t71_catches e then (t, count_ingest_rejected c, Ok None) else (t, c, Raise e)
  end.

Record Request := mkRequest {
  path : string;
  transfer_encoding : option string;
  content_length : option string;
  content_type : string;
  payload : option string
}.

(** [_read_json_body]: the object, or the status answered. [payload] is what
    [rfile.read] returns, [None] when it times out. *)
Definition _read_json_body (r : Request) : list (string * obj) + Z :=
  match transfer_encoding r with
  | Some (String _ _) => inr 400
  | _ =>
      match py_int (default "0" (content_length r)) with
      | None => inr 400
      | Some length =>
          if length <? 0 then inr 400
          else if MAX_REQUEST_BODY_BYTES <? length then inr 413
          else if negb (length =? 0) && negb (bool_decide (content_type r ∈ ["application/json"; "text/plain"])) then inr 415
          else match payload r with
               | None => inr 408
               | Some body =>
                   match json_loads (str_or body "{}") with
                   | Ok (ODict d) => inl d
                   | _ => inr 400
                   end
               end
      end
  end.

(** [do_POST]: the counters, the status answered and the snapshot handed on, or
    the exception that escapes the handler. *)
Definition do_POST (c : IngestCounts) (r : Request) (at_ : Z) : IngestCounts * res (Z * option Snapshot) :=
  if negb (String.eqb (hd "" (str_split "?"%char (path r))) "/ingest/snapshot") then (c, Ok (404, None))
  else match _read_json_body r with
       | inr status => (c, Ok (status, None))
       | inl body =>
           match snapshot_from_json body at_ "relay" with
           | Ok sn => (count_snapshot c, Ok (200, Some sn))
           | Raise e =>
               match exn_kind e with
               | ShapeError => (count_ingest_rejected c, Ok (400, None))
               | _ => (c, Raise e)
               end
           end
       end.
End Ingest.

(** * The findings a service leaves open *)

Definition is_open (r : FindingRow) : Prop := closed_at r = None.

(** The dictionary lists the open rows. The table is the part of
    [watch_findings] for this vehicle and these monitors. *)
Definition agree (rows : list FindingRow) (open_findings : list (string * positive)) : Prop :=
  od_wf open_findings /\ NoDup (map finding_id rows) /\
  forall m id, od_get m open_findings = Some id <-> exists r, r ∈ rows /\ finding_id r = id /\ fr_monitor r = m /\ is_open r.

Lemma same_id rows r r' :
  NoDup (map finding_id rows) -> r ∈ rows -> r' ∈ rows -> finding_id r = finding_id r' -> r = r'.
Proof. apply NoDup_map_inj. Qed.

(** A row-wise change that keeps ids. *)
Lemma map_ids (f : FindingRow -> FindingRow) rows :
  (forall r, finding_id (f r) = finding_id r) -> map finding_id (map f rows) = map finding_id rows.
Proof. intros H. rewrite map_map. by apply map_ext. Qed.

Lemma update_row_id id f r : finding_id (update_row id f r) = finding_id r.
Proof. unfold update_row. by case_bool_decide. Qed.
Lemma close_row_id id a r : finding_id (close_row id a r) = finding_id r.
Proof. unfold close_row. case_bool_decide; [|done]. by case_bool_decide. Qed.

Lemma agree_insert rows open_findings m id f at_ :
  agree rows open_findings -> od_get m open_findings = None -> id ∉ map finding_id rows -> f_monitor f = m ->
  agree (rows ++ [open_row id f at_]) (od_set m id open_findings).
Proof.
  intros (Hwf & Hnd & Hag) Hnone Hid Hm. split_and!; [by apply od_set_wf | |].
  - rewrite map_app. apply NoDup_app; split_and!; [done | | apply NoDup_singleton].
    intros x Hx ->%list_elem_of_singleton. done.
  - intros m' id'. destruct (decide (m' = m)) as [->|Hne].
    + rewrite od_get_set_eq. split.
      * intros [= <-]. exists (open_row id f at_). split; [apply elem_of_app; right; left | done].
      * intros (r & [Hr|Hr%list_elem_of_singleton]%elem_of_app & Hi & Hmon & Ho); [|subst r; by rewrite <- Hi].
        assert (Hs : od_get m open_findings = Some id') by (apply Hag; by exists r). congruence.
    + rewrite od_get_set_ne, Hag by done. split; intros (r & Hr & Hrest); exists r.
      * split; [apply elem_of_app; by left | done].
      * apply elem_of_app in Hr as [Hr|Hr%list_elem_of_singleton]; [done|subst r].
        destruct Hrest as (_ & Hmon & _). cbn in Hmon. congruence.
Qed.

Lemma agree_update rows open_findings id f :
  agree rows open_findings -> agree (map (update_row id f) rows) open_findings.
Proof.
  intros (Hwf & Hnd & Hag). split_and!; [done | rewrite map_ids; [done | apply update_row_id] |].
  assert (Hkeep : forall r, fr_monitor (update_row id f r) = fr_monitor r /\ closed_at (update_row id f r) = closed_at r)
    by (intros r; unfold update_row; by case_bool_decide).
  intros m id'. rewrite Hag. unfold is_open. split.
  - intros (r & Hr & Hrest). exists (update_row id f r). destruct (Hkeep r) as [-> ->]. rewrite update_row_id.
    split; [apply list_elem_of_fmap; by exists r | done].
  - intros (r' & (r & -> & Hr)%list_elem_of_fmap & Hrest). exists r. destruct (Hkeep r) as [H1 H2].
    by rewrite H1, H2, update_row_id in Hrest.
Qed.

Lemma agree_close rows open_findings m id at_ :
  agree rows open_findings -> od_get m open_findings = Some id ->
  agree (map (close_row id at_) rows) (od_del m open_findings).
Proof.
  intros (Hwf & Hnd & Hag) Hm. split_and!; [by apply od_del_wf | rewrite map_ids; [done | apply close_row_id] |].
  pose proof (proj1 (Hag m id) Hm) as (r0 & Hr0 & Hi0 & Hm0 & Ho0).
  assert (Hopen : forall r, r ∈ rows -> is_open (close_row id at_ r) <-> is_open r /\ finding_id r <> id).
  { intros r Hr. unfold is_open, close_row. case_bool_decide as H1; case_bool_decide as H2; cbn; naive_solver. }
  assert (Hmon : forall r, fr_monitor (close_row id at_ r) = fr_monitor r)
    by (intros r; unfold close_row; case_bool_decide; [case_bool_decide|]; done).
  intros m' id'. split.
  - intros Hg. destruct (decide (m' = m)) as [->|Hne]; [by rewrite od_get_del_eq in Hg|].
    rewrite od_get_del_ne in Hg by done. apply Hag in Hg as (r & Hr & Hi & Hmr & Ho).
    exists (close_row id at_ r). split; [apply list_elem_of_fmap; by exists r|].
    rewrite close_row_id, Hmon. split_and!; [done..|]. apply Hopen; [done|]. split; [done|].
    intros Heq. apply Hne. rewrite <- Hmr, <- Hm0. f_equal. apply (same_id rows); [done..|]. by rewrite Heq.
  - intros (r' & (r & -> & Hr)%list_elem_of_fmap & Hi & Hmr & Ho). rewrite close_row_id in Hi. rewrite Hmon in Hmr.
    apply Hopen in Ho as [Ho Hid]; [|done].
    assert (Hg : od_get m' open_findings = Some id') by (apply Hag; by exists r).
    rewrite od_get_del_ne; [done|]. intros ->. congruence.
Qed.

(** An open row of the monitor carries the finding. *)
Definition shows (rows : list FindingRow) (m : string) (f : Finding) : Prop :=
  exists r, r ∈ rows /\ fr_monitor r = m /\ is_open r /\ fr_severity r = f_severity f /\ fr_summary r = f_summary f.

Lemma shows_insert rows r m f : shows rows m f -> shows (rows ++ [r]) m f.
Proof. intros (r0 & H & Hr). exists r0; split; [apply elem_of_app; by left | done]. Qed.

(** A row-wise change that leaves the rows of a monitor alone. *)
Lemma shows_map (g : FindingRow -> FindingRow) rows m f :
  (forall r, r ∈ rows -> fr_monitor r = m -> is_open r -> g r = r) -> shows rows m f -> shows (map g rows) m f.
Proof.
  intros Hg (r & Hr & Hm & Ho & Hrest). exists r. split; [|done].
  apply list_elem_of_fmap. exists r; split; [|done]. by rewrite Hg.
Qed.

(** Two monitors never share an id. *)
Lemma agree_distinct rows open_findings m id r :
  agree rows open_findings -> od_get m open_findings = Some id -> r ∈ rows -> fr_monitor r <> m -> finding_id r <> id.
Proof.
  intros (_ & Hnd & Hag) Hm Hr Hne Heq. apply Hag in Hm as (r0 & Hr0 & Hi & Hmon & _).
  assert (r = r0) as -> by (apply (same_id rows); congruence). done.
Qed.

Lemma execute_spec t f t' :
  execute t f = Some t' -> t_rows t' = f (t_rows t) /\ t_open t' = t_open t /\ t_fresh t' = t_fresh t.
Proof. unfold execute; destruct (t_left t) as [[|n]|]; by intros [= <-]. Qed.

(** The ids still to be drawn are new. *)
Definition fresh_ok (rows : list FindingRow) (fresh : list positive) (n : nat) : Prop :=
  NoDup fresh /\ (forall x, x ∈ fresh -> x ∉ map finding_id rows) /\ (n <= length fresh)%nat.

Lemma open_or_update_spec active t at_ t' :
  open_or_update t active at_ = (t', true) -> od_wf active -> (forall m f, (m, f) ∈ active -> f_monitor f = m) ->
  agree (t_rows t) (t_open t) -> fresh_ok (t_rows t) (t_fresh t) (length active) ->
  agree (t_rows t') (t_open t') /\
  (forall m, is_Some (od_get m (t_open t')) <-> is_Some (od_get m (t_open t)) \/ m ∈ od_keys active) /\
  (forall m f, (m, f) ∈ active -> shows (t_rows t') m f) /\
  (forall m f, m ∉ od_keys active -> shows (t_rows t) m f -> shows (t_rows t') m f).
Proof.
  revert t; induction active as [|[m f] active IH]; intros t; cbn [open_or_update].
  { intros [= <-] _ _ Hag _. split_and!; [done | | by intros ? ? ?%elem_of_nil | done].
    intros m. split; [by left | intros [H|?%elem_of_nil]; done]. }
  unfold od_wf, od_keys; cbn [fmap list_fmap fst]. intros Hrun [Hni Hnd]%NoDup_cons Hmon Hag (Hfn & Hfi & Hfl).
  assert (Hm : f_monitor f = m) by (apply Hmon; left).
  assert (Hmon' : forall m f, (m, f) ∈ active -> f_monitor f = m) by (intros m' f' H; apply Hmon; by right).
  destruct (od_get m (t_open t)) as [id|] eqn:Eg.
  - destruct (execute t _) as [t1|] eqn:Ee; [|done]. apply execute_spec in Ee as (Hr1 & Ho1 & Hf1).
    assert (Hag1 : agree (t_rows t1) (t_open t1)) by (rewrite Hr1, Ho1; by apply agree_update).
    assert (Hids : map finding_id (t_rows t1) = map finding_id (t_rows t))
      by (rewrite Hr1; apply map_ids, update_row_id).
    destruct (IH t1 Hrun Hnd Hmon' Hag1) as (H1 & H2 & H3 & H4).
    { unfold fresh_ok; rewrite Hf1, Hids. cbn in Hfl. split_and!; [done.. | lia]. }
    assert (Hshow : shows (t_rows t1) m f).
    { destruct Hag as (_ & _ & Hag). apply Hag in Eg as (r & Hr & Hi & Hmr & Ho).
      exists (update_row id f r). split; [rewrite Hr1; apply list_elem_of_fmap; by exists r|].
      unfold update_row. rewrite bool_decide_eq_true_2 by done. done. }
    split_and!; [done | | |].
    + intros m'. rewrite H2, Ho1, elem_of_cons. split; [tauto|]. intros [H|[->|H]]; [by left | left; by rewrite Eg | by right].
    + intros m' f' [[= -> ->]|Hin]%elem_of_cons; [by apply H4 | by apply H3].
    + intros m' f' [Hne Hni']%not_elem_of_cons Hs. apply H4; [done|]. rewrite Hr1. apply shows_map; [|done].
      intros r Hr Hmr _. unfold update_row. rewrite bool_decide_eq_false_2; [done|].
      eapply agree_distinct; [exact Hag | exact Eg | done | congruence].
  - destruct (t_fresh t) as [|fid fresh] eqn:Ef; [cbn in Hfl; lia|]. cbn [head tail] in Hrun. change (default 1%positive (Some fid)) with fid in Hrun.
    destruct (execute _ _) as [t1|] eqn:Ee; [|done]. apply execute_spec in Ee as (Hr1 & Ho1 & Hf1).
    cbn [with_fresh t_rows t_open t_fresh] in Hr1, Ho1, Hf1.
    assert (Hid : fid ∉ map finding_id (t_rows t)) by (apply Hfi; left). apply NoDup_cons in Hfn as [Hidf Hfn].
    set (t2 := with_open t1 (od_set m fid (t_open t1))) in *.
    assert (Hag2 : agree (t_rows t2) (t_open t2)) by (cbn; rewrite Hr1, Ho1; by apply agree_insert).
    destruct (IH t2 Hrun Hnd Hmon' Hag2) as (H1 & H2 & H3 & H4).
    { cbn [t2 with_open t_rows t_fresh]. rewrite Hr1, Hf1. split_and!; [done | | cbn in Hfl; lia].
      intros x Hx. rewrite map_app. intros [Hx'|Hx'%list_elem_of_singleton]%elem_of_app;
        [by apply (Hfi x); [right|] | cbn in Hx'; by subst x]. }
    assert (Hshow : shows (t_rows t2) m f).
    { exists (open_row fid f at_). cbn [t2 with_open t_rows]. rewrite Hr1. split; [apply elem_of_app; right; left|]. done. }
    split_and!; [done | | |].
    + intros m'. rewrite H2. cbn [t2 with_open t_open]. rewrite Ho1, elem_of_cons.
      destruct (decide (m' = m)) as [->|Hne]; [rewrite od_get_set_eq; split; [tauto|]; intros _; left; by eexists|].
      rewrite od_get_set_ne by done. split; [tauto|]. intros [H|[?|H]]; [by left | done | by right].
    + intros m' f' [[= -> ->]|Hin]%elem_of_cons; [by apply H4 | by apply H3].
    + intros m' f' [Hne Hni']%not_elem_of_cons Hs. apply H4; [done|]. cbn [t2 with_open t_rows]. rewrite Hr1. by apply shows_insert.
Qed.

Lemma close_absent_spec held t active at_ t' :
  close_absent t held active at_ = (t', true) -> od_wf held -> agree (t_rows t) (t_open t) ->
  (forall m id, (m, id) ∈ held -> od_get m (t_open t) = Some id) ->
  agree (t_rows t') (t_open t') /\
  (forall m, od_get m (t_open t') = if od_mem m held && negb (od_mem m active) then None else od_get m (t_open t)) /\
  (forall m f, od_mem m active = true -> shows (t_rows t) m f -> shows (t_rows t') m f).
Proof.
  revert t; induction held as [|[m id] held IH]; intros t; cbn [close_absent].
  { intros [= <-] _ Hag _. split_and!; done. }
  unfold od_wf, od_keys; cbn [fmap list_fmap fst]. intros Hrun [Hni Hnd]%NoDup_cons Hag Hheld.
  assert (Hm : od_get m (t_open t) = Some id) by (apply Hheld; left).
  assert (Hmem : forall m', od_mem m' ((m, id) :: held) = bool_decide (m' = m) || od_mem m' held).
  { intros m'. unfold od_mem; cbn [od_get]. by destruct (decide (m' = m)) as [->|Hne];
      [rewrite bool_decide_eq_true_2 | rewrite bool_decide_eq_false_2]. }
  assert (Hnm : od_mem m held = false).
  { unfold od_mem. apply (od_get_None m held) in Hni. by rewrite Hni. }
  destruct (od_mem m active) eqn:Ea.
  - destruct (IH t Hrun Hnd Hag) as (H1 & H2 & H3); [intros m' id' H; apply Hheld; by right|].
    split_and!; [done | | done]. intros m'. rewrite H2, Hmem. case_bool_decide as Hd; [|done]. subst m'.
    by rewrite Hnm, Ea.
  - destruct (execute _ _) as [t1|] eqn:Ee; [|done]. apply execute_spec in Ee as (Hr1 & Ho1 & _).
    cbn [with_open t_rows t_open] in Hr1, Ho1.
    assert (Hag1 : agree (t_rows t1) (t_open t1)) by (rewrite Hr1, Ho1; by apply agree_close).
    destruct (IH t1 Hrun Hnd Hag1) as (H1 & H2 & H3).
    { intros m' id' Hin. rewrite Ho1. rewrite od_get_del_ne; [apply Hheld; by right|]. intros ->. apply Hni.
      apply list_elem_of_fmap; by exists (m, id'). }
    split_and!; [done | |].
    + intros m'. rewrite H2, Hmem, Ho1. case_bool_decide as Hd.
      * subst m'. rewrite Hnm, Ea; cbn. apply od_get_del_eq.
      * rewrite od_get_del_ne by done. done.
    + intros m' f' Ha Hs. apply H3; [done|]. rewrite Hr1. apply shows_map; [|done].
      intros r Hr Hmr _. unfold close_row. rewrite (bool_decide_eq_false_2 (finding_id r = id)); [done|].
      eapply agree_distinct; [exact Hag | exact Hm | done |]. intros Heq. congruence.
Qed.

Lemma active_of_spec findings d :
  od_wf d -> (forall m f, (m, f) ∈ d -> f_monitor f = m) ->
  let active := fold_left (fun d f => od_set (f_monitor f) f d) findings d in
  od_wf active /\ (length active <= length d + length findings)%nat /\
  (forall m f, (m, f) ∈ active -> f_monitor f = m /\ ((m, f) ∈ d \/ f ∈ findings)) /\
  (forall m, m ∈ od_keys active <-> m ∈ od_keys d \/ m ∈ map f_monitor findings).
Proof.
  revert d; induction findings as [|f findings IH]; intros d Hwf Hd; cbn [fold_left map length].
  { split_and!; [done | lia | intros m f Hin; split; [by apply Hd | by left] |].
    intros m. rewrite elem_of_nil. tauto. }
  assert (Hin : forall m f', (m, f') ∈ od_set (f_monitor f) f d -> (m = f_monitor f /\ f' = f) \/ (m, f') ∈ d).
  { intros m f' H. apply od_In_get in H; [|by apply od_set_wf]. destruct (decide (m = f_monitor f)) as [->|Hne].
    - rewrite od_get_set_eq in H. left; by injection H as <-.
    - rewrite od_get_set_ne in H by done. right. by apply od_get_In. }
  destruct (IH (od_set (f_monitor f) f d)) as (H1 & H2 & H3 & H4);
    [by apply od_set_wf | intros m f' [[-> ->]|H]%Hin; [done | by apply Hd] |].
  split_and!; [done | | |].
  - assert (length (od_set (f_monitor f) f d) <= S (length d))%nat; [|lia].
    clear. induction d as [|[k v] d IH]; cbn [od_set]; [cbn; lia|]. destruct (decide _); cbn [length]; lia.
  - intros m f' H. destruct (H3 m f' H) as [Hm [[[-> ->]|Hd']%Hin|Hf]]; (split; [done|]);
      [right; left | by left | by right; right].
  - intros m. rewrite H4, od_keys_set, elem_of_cons. case_decide as Hk.
    + split; [tauto|]. intros [H|[->|H]]; tauto.
    + rewrite elem_of_app, list_elem_of_singleton. tauto.
Qed.

(** Exactly the findings passed are open after a reconciliation that commits:
    their monitors are the monitors of the open rows, each open row carries a
    finding, the dictionary lists the open rows, and no row is opened twice. One
    that does not commit leaves the table as it was. *)
Theorem reconcile_leaves_exactly_the_findings rows open_findings findings at_ fresh left_ :
  agree rows open_findings -> fresh_ok rows fresh (length findings) ->
  let '(rows', open', committed) := reconcile_findings rows open_findings findings at_ fresh left_ in
  if committed then
    agree rows' open' /\
    (forall m, (exists r, r ∈ rows' /\ fr_monitor r = m /\ is_open r) <-> m ∈ map f_monitor findings) /\
    (forall m, m ∈ map f_monitor findings -> exists f, f ∈ findings /\ f_monitor f = m /\ shows rows' m f)
  else rows' = rows.
Proof.
  intros Hag (Hfn & Hfi & Hfl). unfold reconcile_findings.
  destruct (active_of_spec findings []) as (Hwf & Hlen & Hact & Hkeys); [constructor | by intros ? ? ?%elem_of_nil |].
  fold (active_of findings) in Hwf, Hlen, Hact, Hkeys. set (active := active_of findings) in *.
  destruct (open_or_update _ _ _) as [t alive] eqn:E1. destruct alive; [|done].
  destruct (open_or_update_spec _ _ _ _ E1 Hwf) as (Hag1 & Hk1 & Hs1 & _);
    [intros m f H; by apply Hact | done | split_and!; [done.. | cbn in *; lia] |]. cbn [t_rows t_open] in Hk1.
  destruct (close_absent _ _ _ _) as [t2 alive] eqn:E2. destruct alive; [|done].
  destruct (close_absent_spec _ _ _ _ _ E2) as (Hag2 & Hk2 & Hs2); [by destruct Hag1 | done | |].
  { intros m id H. apply od_In_get; [by destruct Hag1 | done]. }
  destruct (execute _ _) as [t3|] eqn:E3; [|done]. apply execute_spec in E3 as (Hr3 & Ho3 & _). rewrite Hr3, Ho3.
  assert (Hmem : forall m, od_mem m active = true <-> m ∈ map f_monitor findings).
  { intros m. assert (Hm : m ∈ od_keys active <-> m ∈ map f_monitor findings).
    { rewrite Hkeys. split; [intros [?%elem_of_nil|?]; done | by right]. }
    rewrite <- Hm. unfold od_mem. destruct (od_get m active) eqn:Eg; split; try done.
    - intros _. apply od_get_In in Eg. apply list_elem_of_fmap. by exists (m, f).
    - intros Hin. by apply (od_get_None m active) in Eg. }
  split_and!; [done | |].
  - intros m. rewrite <- Hmem. destruct Hag2 as (_ & _ & Hag2).
    assert (Hopen : (exists r, r ∈ t_rows t2 /\ fr_monitor r = m /\ is_open r) <-> is_Some (od_get m (t_open t2))).
    { split.
      - intros (r & Hr & Hm & Ho). exists (finding_id r). apply Hag2. by exists r.
      - intros [id Hid]. apply Hag2 in Hid as (r & Hr & _ & Hm & Ho). by exists r. }
    rewrite Hopen, Hk2. destruct (od_mem m active) eqn:Ea; cbn [negb andb].
    + rewrite andb_false_r. split; [done|]. intros _. apply Hk1. right. apply Hkeys. right. by apply Hmem.
    + rewrite andb_true_r. destruct (od_mem m (t_open t)) eqn:Et; [split; [by intros [? ?] | done]|].
      unfold od_mem in Et. destruct (od_get m (t_open t)); [done|]. split; [by intros [? ?] | done].
  - intros m Hm. apply Hmem in Hm as Ha. unfold od_mem in Ha. destruct (od_get m active) as [f|] eqn:Eg; [|done].
    apply od_get_In in Eg. exists f. destruct (Hact _ _ Eg) as [Hfm [?%elem_of_nil|Hin]]; [done|].
    split_and!; [done..|]. apply Hs2; [by apply Hmem|]. by apply Hs1.
Qed.

Definition sample_finding : Finding := mkFinding MONITOR_LAP_COUNT "critical" (f_of_Z 5) [("delta", OInt 5)].

Lemma reconcile_leaves_exactly_the_findings_witness :
  exists rows' open', reconcile_findings [] [] [sample_finding] 1000 [1%positive] None = (rows', open', true) /\
    shows rows' MONITOR_LAP_COUNT sample_finding.
Proof.
  pose proof (reconcile_leaves_exactly_the_findings [] [] [sample_finding] 1000 [1%positive] None) as H.
  destruct (reconcile_findings _ _ _ _ _ _) as [[rows' open'] committed] eqn:E.
  vm_compute in E. injection E as <- <- <-. eexists _, _; split; [reflexivity|].
  destruct H as (_ & _ & H).
  - split; [constructor|]. split; [constructor|]. intros m id. split; [done|]. by intros (r & ?%elem_of_nil & _).
  - split; [apply NoDup_singleton|]. split; [intros x _; apply not_elem_of_nil | cbn; lia].
  - destruct (H MONITOR_LAP_COUNT) as (f & Hf & _ & Hs); [left|]. apply list_elem_of_singleton in Hf as ->. exact Hs.
Defined.

(** The dictionary is changed inside the transaction and not put back when the
    transaction fails. A finding whose insert is rolled back is held as open:
    the next, committed reconciliation updates no row, and nothing is open. *)
Example failed_commit_forgets_a_finding :
  let '(rows, held, committed) := reconcile_findings [] [] [sample_finding] 1000 [1%positive] (Some 1%nat) in
  let '(rows', _, committed') := reconcile_findings rows held [sample_finding] 2000 [2%positive] None in
  (committed, length held, committed', rows') = (false, 1%nat, true, []).
Proof. vm_compute. reflexivity. Qed.

(** A finding whose closing fails is no longer held: it stays open. *)
Example failed_close_leaves_a_finding_open :
  let rows := [open_row 1%positive sample_finding 1000] in
  let '(rows, held, committed) := reconcile_findings rows (adopt_open_findings rows) [] 2000 [] (Some 0%nat) in
  let '(rows', _, committed') := reconcile_findings rows held [] 3000 [] None in
  (committed, held, committed', map closed_at rows') = (false, [], true, [None]).
Proof. vm_compute. reflexivity. Qed.

(** * Every interleaving of the loops *)

Section Loops.
Context (fromstring : string -> option Element).

Inductive op :=
  | Submit (snapshot : Snapshot)
  | Feed (text : string) (at_ : Z) (capture : bool) (outcome : option exn)
  | Turn (outcome : option exn)
  | Reconcile (an : Answers) (tolerance now : Z) (fresh : list positive) (left_ : option nat).

(** The service and its table, with what was submitted, what was taken from the
    queue and what became of each input. *)
Record World := mkWorld {
  w_service : TimingFeedService;
  w_rows : list FindingRow;
  submitted : list Snapshot;
  taken : list Snapshot;
  fates : list fate
}.

Definition step (w : World) (o : op) : World :=
  let v := w_service w in
  match o with
  | Submit sn => mkWorld (submit v sn) (w_rows w) (submitted w ++ [sn]) (taken w) (fates w)
  | Feed text at_ capture outcome =>
      let '(v, f) := handle_document fromstring v text at_ capture outcome in
      mkWorld v (w_rows w) (submitted w) (taken w) (fates w ++ [f])
  | Turn outcome =>
      match _ingest v, ingest_turn v outcome with
      | Some (sn :: _), (v, Some f) => mkWorld v (w_rows w) (submitted w) (taken w ++ [sn]) (fates w ++ [f])
      | _, (v, _) => mkWorld v (w_rows w) (submitted w) (taken w) (fates w)
      end
  | Reconcile an tolerance now fresh left_ =>
      let '(v, rows, _) := _reconcile_sync v an (w_rows w) tolerance now fresh left_ in
      mkWorld v rows (submitted w) (taken w) (fates w)
  end.

Definition start (source : string) (rows : list FindingRow) : World :=
  mkWorld (mkService (new_state source) new_health (Some []) false [] [] (Some 0%nat)) rows [] [] [].

(** The counters of [/health] the accounts are about. *)
Definition counters (h : HealthState) : Z * Z * Z * Z :=
  (h_documents h, documents_rejected h, rows_written h, batches_dropped h).

Definition is_refused (f : fate) : bool := match f with Refused => true | _ => false end.
Definition is_lost (f : fate) : bool := match f with Lost _ => true | _ => false end.
Definition fate_rows (f : fate) : Z := match f with Written b => Z.of_nat (rows b) | _ => 0 end.
Definition count (p : fate -> bool) (fs : list fate) : Z := Z.of_nat (length (List.filter p fs)).
Definition total_rows (fs : list fate) : Z := fold_right Z.add 0 (map fate_rows fs).

(** [shed] snapshots pushed out of the queue by newer ones. *)
Definition accounts (w : World) (shed : Z) : Prop :=
  let fs := fates w in
  counters (health (w_service w)) = (Z.of_nat (length fs), count is_refused fs, total_rows fs, shed + count is_lost fs) /\
  exists earlier queue, _ingest (w_service w) = Some queue /\ submitted w = earlier ++ queue /\
    (length queue <= _QUEUE_SIZE)%nat /\ sublist (taken w) earlier /\
    Z.of_nat (length earlier) = Z.of_nat (length (taken w)) + shed.

(** Tuples of integers, one by one. *)
Ltac tuple_lia := repeat match goal with |- (_, _) = (_, _) => apply f_equal2 end; lia.

Lemma count_snoc p fs f : count p (fs ++ [f]) = count p fs + (if p f then 1 else 0).
Proof. unfold count. rewrite List.filter_app, length_app. cbn. destruct (p f); cbn; lia. Qed.
Lemma total_rows_snoc fs f : total_rows (fs ++ [f]) = total_rows fs + fate_rows f.
Proof. unfold total_rows. induction fs as [|g fs IH]; cbn in *; lia. Qed.

(** What [settle] adds to the counters, by fate. *)
Definition settled (before after : HealthState) (f : fate) : Prop :=
  counters after = (h_documents before, documents_rejected before + (if is_refused f then 1 else 0),
                    rows_written before + fate_rows f, batches_dropped before + (if is_lost f then 1 else 0)).

Lemma settle_counts v note r outcome v' f :
  settle v note r outcome = (v', f) -> settled (health v) (health v') f /\ _ingest v' = _ingest v.
Proof.
  unfold settle, settled. destruct r as [b|e].
  - set (v1 := if note then _note_passings v b else v).
    assert (H1 : health v1 = health v /\ _ingest v1 = _ingest v).
    { unfold v1, _note_passings. destruct note; [|done]. by destruct (our_car _). }
    destruct H1 as [H1 H2]. unfold _write. destruct (batch_true b).
    + destruct outcome as [e|]; intros [= <- <-]; cbn; rewrite H1, H2; unfold counters; cbn; rewrite ?Z.add_0_r; done.
    + intros [= <- <-]; cbn. rewrite H1, H2. unfold counters. by rewrite !Z.add_0_r.
  - destruct (exn_kind e); intros [= <- <-]; cbn; unfold counters; cbn; by rewrite ?Z.add_0_r.
Qed.

(** One input counted. *)
Lemma input_accounts w v' f queue shed earlier taken' :
  accounts w shed -> settled (observe_document (health (w_service w))) (health v') f -> _ingest v' = Some queue ->
  submitted w = earlier ++ queue -> (length queue <= _QUEUE_SIZE)%nat -> sublist taken' earlier ->
  Z.of_nat (length earlier) = Z.of_nat (length taken') + shed ->
  accounts (mkWorld v' (w_rows w) (submitted w) taken' (fates w ++ [f])) shed.
Proof.
  intros [Hc _] Hs Hq Hsub Hlen Htk Hlen'. split; cbn [w_service fates submitted taken]; [|by exists earlier, queue].
  rewrite Hs. unfold counters in Hc. injection Hc as H1 H2 H3 H4. cbn [observe_document h_documents documents_rejected rows_written batches_dropped].
  rewrite !count_snoc, total_rows_snoc, length_app, H1, H2, H3, H4. cbn [length]. tuple_lia.
Qed.

(** Reconciliation touches neither the counters nor the queue. *)
Lemma reconcile_reads_counts v an tolerance v' r :
  reconcile_reads v an tolerance = (v', r) -> counters (health v') = counters (health v) /\ _ingest v' = _ingest v.
Proof.
  assert (Hoff : forall ps h cs h' r, offsets h an ps cs = (h', r) -> counters h' = counters h).
  { induction ps as [|p ps IH]; intros h cs h' r0; cbn [offsets]; [by intros [= <- <-]|].
    destruct (tod p); [|by intros [= <- <-]]. destruct (clock_offset_s _ _ _); [|apply IH].
    destruct (_ ≫= _); [intros H; apply IH in H; by rewrite H | by intros [= <- <-]]. }
  assert (Hclock : forall v s v' r, _clock_offset v an s = (v', r) -> counters (health v') = counters (health v) /\ _ingest v' = _ingest v).
  { intros v0 s v1 r0. unfold _clock_offset. destruct (_our_passings v0) as [|p ps]; [by intros [= <- <-]|].
    destruct (omap tod (p :: ps)); [by intros [= <- <-]|]. destruct (an_crossings an s _); [|by intros [= <- <-]].
    destruct (offsets _ _ _ _) as [h r1] eqn:Eo. intros [= <- <-]. split; [|done]. apply Hoff in Eo. exact Eo. }
  unfold reconcile_reads. destruct (an_our_car an) as [our|]; [|by intros [= <- <-]].
  destruct (our ≫= oc_number) as [[|c number]|]; [by intros [= <- <-]| |by intros [= <- <-]].
  destruct (an_vehicle_laps an _) as [vehicle|]; [|by intros [= <- <-]].
  destruct (lap_count_finding _ _ _ _) as [finding|]; [|by intros [= <- <-]].
  destruct (_clock_offset _ an _) as [v1 r1] eqn:Ec. apply Hclock in Ec as [Hc Hq].
  destruct r1; intros [= <- <-]; rewrite Hc, Hq; done.
Qed.

Lemma reconcile_counts v an rows_ tolerance now fresh left_ v' rows' r :
  _reconcile_sync v an rows_ tolerance now fresh left_ = (v', rows', r) ->
  counters (health v') = counters (health v) /\ _ingest v' = _ingest v.
Proof.
  unfold _reconcile_sync. set (start := if _adopted v then _ else _).
  assert (Hv0 : forall v0, start = Ok v0 -> counters (health v0) = counters (health v) /\ _ingest v0 = _ingest v).
  { unfold start. intros v0. destruct (_adopted v); [by intros [= <-]|]. by intros (? & _ & [= <-])%res_bind_Ok. }
  destruct start as [v0|e]; [|by intros [= <- <- <-]]. destruct (Hv0 v0 eq_refl) as [<- <-].
  destruct (reconcile_reads v0 an tolerance) as [v1 [findings|e]] eqn:Er; apply reconcile_reads_counts in Er as [<- <-];
    [|by intros [= <- <- <-]].
  destruct (reconcile_findings _ _ _ _ _ _) as [[rows1 held] committed].
  destruct committed; by intros [= <- <- <-].
Qed.

Lemma step_accounts w o shed : accounts w shed -> exists shed', shed <= shed' /\ accounts (step w o) shed'.
Proof.
  intros Hacc. pose proof Hacc as (Hc & earlier & queue & Hq & Hsub & Hlen & Htk & Hn).
  destruct o as [sn|text at_ capture outcome|outcome|an tolerance now fresh left_]; cbn [step].
  - unfold submit. rewrite Hq. destruct (Nat.leb_spec _QUEUE_SIZE (length queue)) as [Hfull|Hroom].
    + destruct queue as [|old queue]; [cbn in Hfull; unfold _QUEUE_SIZE in Hfull; lia|]. exists (shed + 1). split; [lia|].
      split; cbn [w_service fates health set_health set_ingest count_dropped].
      * unfold counters in Hc |- *; cbn. injection Hc as H1 H2 H3 H4. rewrite H1, H2, H3, H4. tuple_lia.
      * exists (earlier ++ [old]), (queue ++ [sn]). cbn [tail submitted taken].
        rewrite Hsub, <- !app_assoc, !length_app. cbn [length app] in *.
        split_and!; [done | done | lia | by apply sublist_inserts_r | lia].
    + exists shed; split; [lia|]. split; cbn [w_service fates health set_ingest]; [done|].
      exists earlier, (queue ++ [sn]). cbn [submitted taken]. rewrite Hsub, <- app_assoc, length_app. cbn [length].
      split_and!; [done | done | lia | done | done].
  - exists shed; split; [lia|]. destruct (handle_document _ _ _ _ _ _) as [v' f] eqn:E. unfold handle_document in E.
    destruct (apply_document _ _ _ _) as [s r]. apply settle_counts in E as [Hs Hi].
    apply (input_accounts w v' f queue shed earlier (taken w) Hacc); try done.
    + by destruct capture.
    + rewrite Hi. by destruct capture.
  - exists shed; split; [lia|]. unfold ingest_turn. rewrite Hq. destruct queue as [|sn queue].
    { by destruct w. }
    destruct (handle_snapshot _ _ _) as [v' f] eqn:E. unfold handle_snapshot in E.
    destruct (apply_snapshot _ _) as [s r]. apply settle_counts in E as [Hs Hi].
    apply (input_accounts w v' f queue shed (earlier ++ [sn]) (taken w ++ [sn]) Hacc); try done.
    + by rewrite <- app_assoc.
    + cbn in Hlen; lia.
    + by apply sublist_app.
    + rewrite !length_app. cbn [length]. lia.
  - exists shed; split; [lia|]. destruct (_reconcile_sync _ _ _ _ _ _ _) as [[v' rows'] r] eqn:E.
    apply reconcile_counts in E as [E1 E2]. split; cbn [w_service fates]; [by rewrite E1|].
    exists earlier, queue. cbn [submitted taken]. by rewrite E2.
Qed.

(** C32. Nothing the service is given goes uncounted, however the source, the
    endpoints, the ingest loop and the reconciliation interleave and whatever
    the database answers: every input handled is a document counted, refused,
    written, quiet or lost to the database; the rows written are the rows of the
    batches committed; the batches dropped are those lost plus the snapshots
    shed; and the queue holds the newest submissions, at most [_QUEUE_SIZE], the
    older ones having been taken in order or shed. *)
Theorem feed_service_accounts source rows_ ops :
  exists shed, 0 <= shed /\ accounts (fold_left step ops (start source rows_)) shed.
Proof.
  assert (H0 : accounts (start source rows_) 0).
  { split; [done|]. exists [], []. split_and!; [done | done | cbn; lia | constructor | done]. }
  assert (Hn : 0 <= 0) by lia. revert Hn H0. generalize (start source rows_) as w. generalize 0 at 2 3 as shed.
  induction ops as [|o ops IH]; intros shed w Hn Hw; [by exists shed|]. cbn [fold_left].
  destruct (step_accounts w o shed Hw) as (shed' & Hle & Hw'). apply (IH shed' _); [lia | done].
Qed.
End Loops.

(** What the endpoints hand to the loop is bounded, and only a 200 hands
    anything on. *)
Lemma post_hands_on_bounded json_loads c r at_ c' status sn :
  do_POST json_loads c r at_ = (c', Ok (status, sn)) ->
  match sn with Some sn => status = 200 /\ bounded_snapshot sn /\ sn_at sn = at_ | None => status <> 200 end.
Proof.
  unfold do_POST. destruct (negb _); [by intros [= _ <- <-]|].
  destruct (_read_json_body json_loads r) as [body|st] eqn:Eb.
  - destruct (snapshot_from_json body at_ "relay") as [sn'|e] eqn:E.
    + intros [= _ <- <-]. by destruct (relay_snapshot_is_bounded _ _ _ _ (new_state "relay") E) as (? & ? & _).
    + destruct (exn_kind e); by intros [= _ <- <-].
  - intros [= _ <- <-]. revert Eb. unfold _read_json_body.
    repeat match goal with |- context [match ?x with _ => _ end] => destruct x end; by intros [= <-].
Qed.

(** A NaN count in a posted row leaves the handler without an answer, and an
    infinite one in a Timing71 message leaves the connection's loop. *)
Definition nan_body (text : string) : res obj :=
  Ok (ODict [("type", OStr "STATE_UPDATE"); ("cars", OList [ODict [("car_number", OStr "27"); ("laps", OFloat S754_nan)]]);
             ("state", ODict [("cars", OList [OList [OStr "27"; OFloat finf; OStr "90"]])])]).

Example posted_nan_escapes :
  match do_POST nan_body (mkCounts 0 0 0) (mkRequest "/ingest/snapshot" None (Some "10") "text/plain" (Some "...")) 1000 with
  | (_, Raise e) => exn_kind e = ValueError | _ => False end.
Proof. vm_compute. reflexivity. Qed.

Example t71_infinity_escapes :
  match _t71_message nan_body sample_translator (mkCounts 0 0 0) "..." 1000 with
  | (_, _, Raise e) => exn_kind e = OverflowError | _ => False end.
Proof. vm_compute. reflexivity. Qed.
