(* ===== verification/Notifier.v ===== *)
(** The notifier ([src/pit/notifier]): Grafana's webhook parsed into bounded
    alerts, the book of what is firing and acknowledged, the dispatcher with
    its repeats and its retry queue, and the ledger.

    Instants are microseconds since the epoch, the monotonic clock is in
    seconds. What a channel answers an attempt and what the monotonic clock
    reads are streams, [answers] and [mono], indexed by how many attempts and
    reads the dispatcher has made; [hashlib], [json.dumps] and
    [datetime.fromisoformat] are parameters. Each method runs under the
    service's lock, so an execution is a list of calls. *)

From S2P Require Import Prelude PyFloat Stats PyText.

Local Open Scope Z_scope.

(** * Alerts ([alerts.py]) *)

Definition SEVERITIES : list string := ["none"; "warning"; "critical"].
Definition MAX_ALERTS_PER_NOTIFICATION : nat := 50.
Definition MAX_TEXT_CHARS : nat := 240.
Definition MAX_LABELS : nat := 32.
Definition TEST_ALERT_NAME : string := "notifier-test".

Definition severity_rank (severity : string) : Z :=
  if String.eqb severity "none" then 0 else if String.eqb severity "warning" then 1 else 2.

Inductive status := Firing | Resolved.

Record Alert := mkAlert {
  fingerprint : string;
  al_name : string;
  al_status : status;
  al_severity : string;
  started_at : Z;
  labels : list (string * string);
  annotations : list (string * string);
  rule_uid : option string;
  summary : string
}.

Definition _text (value : obj) : string :=
  match value with
  | OBool b => if b then "true" else "false"
  | OStr _ | OInt _ | OFloat _ => str_take MAX_TEXT_CHARS (py_str value)
  | _ => ""
  end.

(** The loop of [_string_map]. *)
Fixpoint string_map (items : list (string * obj)) (out : list (string * string)) : list (string * string) :=
  match items with
  | [] => out
  | (key, item) :: items =>
      if (MAX_LABELS <=? length out)%nat then out
      else string_map items (if String.eqb key "" then out else od_set (str_take MAX_TEXT_CHARS key) (_text item) out)
  end.
Definition _string_map (value : obj) : list (string * string) :=
  match value with ODict items => string_map items [] | _ => [] end.

(** [_GENERATOR_UID.search(text).group(1)]: the first
    [/alerting/grafana/<uid>/view], the uid without [/], [?] and [#]. *)
Fixpoint span_uid (s : string) : string * string :=
  match s with
  | EmptyString => (EmptyString, EmptyString)
  | String c s' =>
      if bool_decide (c ∈ ["/"; "?"; "#"]%char) then (EmptyString, s)
      else let '(u, r) := span_uid s' in (String c u, r)
  end.
Definition uid_prefix : string := "/alerting/grafana/".
Definition uid_at (s : string) : option string :=
  if String.prefix uid_prefix s then
    let '(uid, rest) := span_uid (String.substring (String.length uid_prefix) (String.length s) s) in
    if negb (String.eqb uid "") && String.prefix "/view" rest then Some uid else None
  else None.
Fixpoint _GENERATOR_UID (s : string) : option string :=
  match uid_at s with
  | Some uid => Some uid
  | None => match s with EmptyString => None | String _ s => _GENERATOR_UID s end
  end.

(** [value.replace("Z", "+00:00")]. *)
Fixpoint replace_z (s : string) : string :=
  match s with
  | EmptyString => EmptyString
  | String c s => if Ascii.eqb c "Z"%char then "+00:00" +:+ replace_z s else String c (replace_z s)
  end.

Section Parse.
(** [datetime.fromisoformat], a naive one taken as UTC: the instant and the
    year; and the first 16 digits of the SHA-1 of the labels' JSON. *)
Context (fromisoformat : string -> option (Z * Z)) (labels_digest : list (string * string) -> string).

Definition _parse_time (value : obj) (fallback : Z) : Z :=
  match value with
  | OStr (String _ _ as s) =>
      match fromisoformat (replace_z s) with
      | Some (instant, year) => if 2000 <=? year then instant else fallback
      | None => fallback
      end
  | _ => fallback
  end.

(** One alert of a notification. *)
Definition parse_alert (raw : list (string * obj)) (now : Z) : option Alert :=
  let labels := _string_map (oget "labels" raw) in
  let annotations := _string_map (oget "annotations" raw) in
  let name := str_or (default "" (od_get "alertname" labels)) "unnamed" in
  status ← match oget "status" raw with
    | OStr "firing" => Some Firing | OStr "resolved" => Some Resolved | _ => None end;
  let fingerprint := str_or (_text (oget "fingerprint" raw)) (labels_digest labels) in
  let severity := default "" (od_get "severity" labels) in
  let severity := if bool_decide (severity ∈ SEVERITIES) then severity else "critical" in
  let rule_uid :=
    match od_get "__alert_rule_uid__" labels with
    | Some (String _ _ as uid) => Some uid
    | _ => _GENERATOR_UID (_text (oget "generatorURL" raw))
    end in
  Some (mkAlert fingerprint name status severity (_parse_time (oget "startsAt" raw) now) labels annotations rule_uid
          (str_or (default "" (od_get "summary" annotations)) name)).

Definition parse_notification (payload : obj) (now : Z) : list Alert :=
  match payload with
  | ODict d =>
      match oget "alerts" d with
      | OList raws =>
          omap (fun raw => match raw with ODict raw => parse_alert raw now | _ => None end)
            (take MAX_ALERTS_PER_NOTIFICATION raws)
      | _ => []
      end
  | _ => []
  end.
End Parse.

(** * The book *)

Record ActiveAlert := mkActive {
  aa_alert : Alert;
  first_seen : Z;
  last_seen : Z;
  acked_at : option Z;
  acked_by : option string;
  note : option string;
  last_notified : list (string * Z)
}.
Definition acknowledged (e : ActiveAlert) : bool := match acked_at e with Some _ => true | None => false end.

Inductive kind := KFiring | KResolved | KRepeat | KAck.
Record Event := mkEvent { ev_kind : kind; ev_alert : Alert; ev_at : Z; ev_by : option string; ev_note : option string }.

Record AlertBook := mkBook {
  heartbeat_rule : string;
  heartbeat_expected_s : float;
  heartbeat_missed_intervals : Z;
  history_keep_s : float;
  max_history : nat;
  active : list (string * ActiveAlert);
  history : list Event;
  heartbeat_seen : option Z;
  heartbeats : Z;
  notifications : Z
}.
Definition book_init (rule : string) (expected_s : float) (missed : Z) (keep_s : float) (max_history : nat) : AlertBook :=
  mkBook rule expected_s missed keep_s max_history [] [] None 0 0.

Definition set_active (b : AlertBook) a :=
  mkBook (heartbeat_rule b) (heartbeat_expected_s b) (heartbeat_missed_intervals b) (history_keep_s b) (max_history b) a (history b)
    (heartbeat_seen b) (heartbeats b) (notifications b).
Definition set_heartbeat (b : AlertBook) now :=
  mkBook (heartbeat_rule b) (heartbeat_expected_s b) (heartbeat_missed_intervals b) (history_keep_s b) (max_history b) (active b) (history b)
    (Some now) (heartbeats b + 1) (notifications b).
Definition count_notification (b : AlertBook) :=
  mkBook (heartbeat_rule b) (heartbeat_expected_s b) (heartbeat_missed_intervals b) (history_keep_s b) (max_history b) (active b) (history b)
    (heartbeat_seen b) (heartbeats b) (notifications b + 1).

(** [history] is a [deque(maxlen=max_history)]. *)
Definition _remember (b : AlertBook) (events : list Event) : AlertBook :=
  mkBook (heartbeat_rule b) (heartbeat_expected_s b) (heartbeat_missed_intervals b) (history_keep_s b) (max_history b) (active b)
    (last_n (max_history b) (history b ++ events)) (heartbeat_seen b) (heartbeats b) (notifications b).

Definition _is_heartbeat (b : AlertBook) (a : Alert) : bool :=
  bool_decide (od_get "kind" (labels a) = Some "heartbeat") || bool_decide (rule_uid a = Some (heartbeat_rule b))
  || String.eqb (al_name a) (heartbeat_rule b).

(** One alert of [receive]. *)
Definition receive_one (now : Z) (acc : AlertBook * list Event) (a : Alert) : AlertBook * list Event :=
  let '(b, events) := acc in
  if _is_heartbeat b a then
    match al_status a with Firing => (set_heartbeat b now, events) | Resolved => acc end
  else
    match al_status a, od_get (fingerprint a) (active b) with
    | Firing, None =>
        (set_active b (od_set (fingerprint a) (mkActive a now now None None None []) (active b)),
         events ++ [mkEvent KFiring a now None None])
    | Firing, Some e =>
        (set_active b (od_set (fingerprint a)
           (mkActive (aa_alert e) (first_seen e) now (acked_at e) (acked_by e) (note e) (last_notified e)) (active b)), events)
    | Resolved, Some _ => (set_active b (od_del (fingerprint a) (active b)), events ++ [mkEvent KResolved a now None None])
    | Resolved, None => acc
    end.

Definition receive (b : AlertBook) (alerts : list Alert) (now : Z) : AlertBook * list Event :=
  let '(b, events) := fold_left (receive_one now) alerts (count_notification b, []) in
  (_remember b events, events).

(** [ack]: the event returned, and those remembered. *)
Definition ack (b : AlertBook) (fp by_ : string) (note : option string) (now : Z) : AlertBook * option Event * list Event :=
  match od_get fp (active b) with
  | None => (b, None, [])
  | Some e =>
      let e := mkActive (aa_alert e) (first_seen e) (last_seen e) (Some now) (Some by_) note (last_notified e) in
      let event := mkEvent KAck (aa_alert e) now (Some by_) note in
      let b := _remember (set_active b (od_set fp e (active b))) [event] in
      if String.eqb (al_name (aa_alert e)) TEST_ALERT_NAME then
        let resolved := mkEvent KResolved (aa_alert e) now None None in
        (_remember (set_active b (od_del fp (active b))) [resolved], Some event, [event; resolved])
      else (b, Some event, [event])
  end.

(** [raise_test]; [hhmmss] is [now.strftime("%H%M%S")]. *)
Definition test_alert (severity hhmmss : string) (now : Z) : Alert :=
  let text := "Test alert (" +:+ severity +:+ ") — acknowledge to clear" in
  mkAlert ("test-" +:+ hhmmss) TEST_ALERT_NAME Firing severity now
    [("alertname", TEST_ALERT_NAME); ("severity", severity)] [("summary", text)] None text.
Definition raise_test (b : AlertBook) (severity hhmmss : string) (now : Z) : AlertBook * list Event :=
  receive b [test_alert severity hhmmss now] now.

Definition unacknowledged (b : AlertBook) : list ActiveAlert :=
  List.filter (fun e => negb (acknowledged e)) (active b).*2.

Definition heartbeat_age_s (b : AlertBook) (now : Z) : option float :=
  (fun seen => fmax f0 (total_seconds (now - seen))) <$> heartbeat_seen b.
Definition heartbeat_ok (b : AlertBook) (now : Z) : option bool :=
  (fun age => fleb age (fmul (heartbeat_expected_s b) (f_of_Z (heartbeat_missed_intervals b)))) <$> heartbeat_age_s b now.

(** [snapshot]: what the page shows. The alerts most severe first and the
    older first within a severity, how many critical ones nobody acknowledged,
    the last hundred events no older than [history_keep_s]. *)
Definition page_before (a b : ActiveAlert) : bool :=
  let ra := severity_rank (al_severity (aa_alert a)) in
  let rb := severity_rank (al_severity (aa_alert b)) in
  (rb <? ra) || ((ra =? rb) && (started_at (aa_alert a) <=? started_at (aa_alert b))).
Definition page_active (b : AlertBook) : list ActiveAlert := sort_by page_before (active b).*2.
Definition unacknowledged_critical (b : AlertBook) : nat :=
  length (List.filter (fun e => negb (acknowledged e) && String.eqb (al_severity (aa_alert e)) "critical") (page_active b)).
Definition page_history (b : AlertBook) (now : Z) : list Event :=
  let cutoff := fsub (total_seconds now) (history_keep_s b) in
  last_n 100 (List.filter (fun e => fleb cutoff (total_seconds (ev_at e))) (history b)).

(** * Delivery ([channels.py]) *)

Record Message := mkMessage {
  ms_kind : kind;
  ms_title : string;
  ms_body : string;
  ms_severity : string;
  ms_fingerprint : string;
  ms_at : Z;
  ms_url : option string
}.

Definition kind_label (k : kind) : string :=
  match k with KFiring => "FIRING" | KResolved => "resolved" | KRepeat => "STILL FIRING" | KAck => "ack" end.

Definition render (e : Event) : Message :=
  let a := ev_alert e in
  let body := summary a +:+ " (" +:+ al_severity a +:+ ")" in
  let body := match ev_by e with Some (String _ _ as by_) => body +:+ " — acknowledged by " +:+ by_ | _ => body end in
  let body := match ev_note e with Some (String _ _ as note) => body +:+ ": " +:+ note | _ => body end in
  mkMessage (ev_kind e) (kind_label (ev_kind e) +:+ ": " +:+ summary a) body (al_severity a) (fingerprint a) (ev_at e)
    (od_get "runbook_url" (annotations a)).

Record Channel := mkChannel { ch_name : string; min_severity : string; repeat_s : option float }.

(** What [deliver] does: return, raise [Retryable], or raise anything else. *)
Inductive answer := Delivers | RetryLater | Breaks.

Record _Pending := mkPending { pd_channel : Channel; pd_message : Message; attempts : nat; due_at : float; deadline : float }.

Record Dispatcher := mkDispatcher {
  channels : list Channel;
  retry_deadline_s : float;
  _queue : list _Pending;
  delivered : Z;
  failed : Z;
  expired : Z;
  per_channel : list (string * Z);
  d_tries : nat;
  d_reads : nat
}.
Definition dispatcher_init (channels : list Channel) (retry_deadline_s : float) : Dispatcher :=
  mkDispatcher channels retry_deadline_s [] 0 0 0 [] 0 0.

Definition tried (d : Dispatcher) : Dispatcher :=
  mkDispatcher (channels d) (retry_deadline_s d) (_queue d) (delivered d) (failed d) (expired d) (per_channel d) (S (d_tries d)) (d_reads d).
Definition clock_read (d : Dispatcher) : Dispatcher :=
  mkDispatcher (channels d) (retry_deadline_s d) (_queue d) (delivered d) (failed d) (expired d) (per_channel d) (d_tries d) (S (d_reads d)).
Definition set_queue (d : Dispatcher) q : Dispatcher :=
  mkDispatcher (channels d) (retry_deadline_s d) q (delivered d) (failed d) (expired d) (per_channel d) (d_tries d) (d_reads d).
Definition count_failed (d : Dispatcher) : Dispatcher :=
  mkDispatcher (channels d) (retry_deadline_s d) (_queue d) (delivered d) (failed d + 1) (expired d) (per_channel d) (d_tries d) (d_reads d).
Definition count_expired (d : Dispatcher) : Dispatcher :=
  mkDispatcher (channels d) (retry_deadline_s d) (_queue d) (delivered d) (failed d) (expired d + 1) (per_channel d) (d_tries d) (d_reads d).
Definition count_delivered (d : Dispatcher) (name : string) : Dispatcher :=
  mkDispatcher (channels d) (retry_deadline_s d) (_queue d) (delivered d + 1) (failed d) (expired d)
    (od_set name (default 0 (od_get name (per_channel d)) + 1) (per_channel d)) (d_tries d) (d_reads d).

(** [_BACKOFF_S[min(attempts, 4)]]. *)
Definition _BACKOFF_S : list Z := [2; 5; 15; 30; 60].
Definition backoff (attempts : nat) : float := f_of_Z (nth (attempts `min` 4) _BACKOFF_S 60).

Section Delivery.
Context (answers : nat -> answer) (mono : nat -> float).

(** [_attempt] of a message not tried before. [deadline or now]. *)
Definition _attempt (d : Dispatcher) (c : Channel) (m : Message) : Dispatcher * bool :=
  let d' := tried d in
  match answers (d_tries d) with
  | Delivers => (count_delivered d' (ch_name c), true)
  | Breaks => (count_failed d', false)
  | RetryLater =>
      let now := mono (d_reads d) in
      let deadline := fadd now (retry_deadline_s d) in
      (set_queue (clock_read d') (_queue d ++ [mkPending c m 1 (fadd now (backoff 0)) (if ftruthy deadline then deadline else now)]), false)
  end.

(** [_note_notified], for any book entry. *)
Definition notify_entry (e : ActiveAlert) (name : string) (at_ : Z) : ActiveAlert :=
  mkActive (aa_alert e) (first_seen e) (last_seen e) (acked_at e) (acked_by e) (note e) (od_set name at_ (last_notified e)).
Definition _note_notified (b : AlertBook) (e : Event) (c : Channel) : AlertBook :=
  let fp := fingerprint (ev_alert e) in
  match od_get fp (active b) with
  | None => b
  | Some entry => set_active b (od_set fp (notify_entry entry (ch_name c) (ev_at e)) (active b))
  end.

Definition wants (c : Channel) (a : Alert) : bool := severity_rank (min_severity c) <=? severity_rank (al_severity a).

(** The loop of [announce]. *)
Fixpoint announce_to (cs : list Channel) (d : Dispatcher) (b : AlertBook) (e : Event) : Dispatcher * AlertBook :=
  match cs with
  | [] => (d, b)
  | c :: cs =>
      if wants c (ev_alert e) then
        let '(d, ok) := _attempt d c (render e) in
        announce_to cs d (if ok then _note_notified b e c else b) e
      else announce_to cs d b e
  end.
Definition announce (d : Dispatcher) (b : AlertBook) (e : Event) : Dispatcher * AlertBook := announce_to (channels d) d b e.
Fixpoint announce_all (d : Dispatcher) (b : AlertBook) (events : list Event) : Dispatcher * AlertBook :=
  match events with
  | [] => (d, b)
  | e :: events => let '(d, b) := announce d b e in announce_all d b events
  end.

(** The repeat is due: never told, or told long enough ago. *)
Definition repeat_is_due (c : Channel) (entry : ActiveAlert) (now : Z) : bool :=
  match repeat_s c with
  | None => false
  | Some every =>
      wants c (aa_alert entry) &&
      match od_get (ch_name c) (last_notified entry) with
      | None => true
      | Some last => fleb every (total_seconds (now - last))
      end
  end.

(** The inner loop of [repeat_due], on one entry. *)
Fixpoint repeat_on (cs : list Channel) (d : Dispatcher) (entry : ActiveAlert) (now : Z) (repeated : list Event)
    : Dispatcher * ActiveAlert * list Event :=
  match cs with
  | [] => (d, entry, repeated)
  | c :: cs =>
      if repeat_is_due c entry now then
        let event := mkEvent KRepeat (aa_alert entry) now None None in
        match _attempt d c (render event) with
        | (d, true) => repeat_on cs d (notify_entry entry (ch_name c) now) now (repeated ++ [event])
        | (d, false) => repeat_on cs d entry now repeated
        end
      else repeat_on cs d entry now repeated
  end.

(** The outer loop, over the entries in the order of the book. *)
Fixpoint repeat_entries (entries : list (string * ActiveAlert)) (d : Dispatcher) (now : Z) (repeated : list Event)
    : Dispatcher * list (string * ActiveAlert) * list Event :=
  match entries with
  | [] => (d, [], repeated)
  | (fp, entry) :: entries =>
      if acknowledged entry then
        let '(d, entries, repeated) := repeat_entries entries d now repeated in (d, (fp, entry) :: entries, repeated)
      else
        let '(d, entry, repeated) := repeat_on (channels d) d entry now repeated in
        let '(d, entries, repeated) := repeat_entries entries d now repeated in
        (d, (fp, entry) :: entries, repeated)
  end.
Definition repeat_due (d : Dispatcher) (b : AlertBook) (now : Z) : Dispatcher * AlertBook * list Event :=
  let '(d, entries, repeated) := repeat_entries (active b) d now [] in (d, set_active b entries, repeated).

(** [_retry]. *)
Definition _retry (d : Dispatcher) (item : _Pending) : Dispatcher * bool :=
  let d' := tried d in
  match answers (d_tries d) with
  | Delivers => (count_delivered d' (ch_name (pd_channel item)), true)
  | Breaks => (count_failed d', false)
  | RetryLater =>
      (set_queue (clock_read d') (_queue d ++ [mkPending (pd_channel item) (pd_message item) (S (attempts item))
         (fadd (mono (d_reads d)) (backoff (attempts item))) (deadline item)]), false)
  end.

(** The loop of [pump] over what was due. *)
Fixpoint pump_items (items : list _Pending) (d : Dispatcher) (now : float) (n : nat) : Dispatcher * nat :=
  match items with
  | [] => (d, n)
  | item :: items =>
      if fltb (deadline item) now then pump_items items (count_expired d) now n
      else
        match _retry d item with
        | (d, true) => pump_items items d now (S n)
        | (d, false) => pump_items items d now n
        end
  end.
Definition pump (d : Dispatcher) : Dispatcher * nat :=
  let now := mono (d_reads d) in
  let d := clock_read d in
  let is_due item := fleb (due_at item) now in
  pump_items (List.filter is_due (_queue d)) (set_queue d (List.filter (fun i => negb (is_due i)) (_queue d))) now 0.
End Delivery.

(** * The ledger ([ledger.py]) *)

Record AlertLedger := mkLedger {
  alert_events : list Event;
  alert_acks : list (string * Z * (Z * option string * option string));
  ld_errors : Z;
  written : Z
}.

Definition is_row (e : Event) : bool := match ev_kind e with KFiring | KResolved => true | _ => false end.
Definition is_ack (e : Event) : bool := match ev_kind e with KAck => true | _ => false end.

(** [ON CONFLICT (fingerprint, started_at) DO UPDATE]. *)
Definition upsert_ack (acks : list (string * Z * (Z * option string * option string))) (e : Event) :=
  od_set (fingerprint (ev_alert e), started_at (ev_alert e)) (ev_at e, ev_by e, ev_note e) acks.

(** [record]; [ok] is whether the transaction commits. *)
Definition record (l : AlertLedger) (events : list Event) (ok : bool) : AlertLedger * Z :=
  let rows := List.filter is_row events in
  let acks := List.filter is_ack events in
  let n := Z.of_nat (length rows + length acks) in
  if n =? 0 then (l, 0)
  else if ok then (mkLedger (alert_events l ++ rows) (fold_left upsert_ack acks (alert_acks l)) (ld_errors l) (written l + n), n)
  else (mkLedger (alert_events l) (alert_acks l) (ld_errors l + 1) (written l), 0).

(** * The service ([service.py]) *)

Record NotifierService := mkNotifier { book : AlertBook; dispatcher : Dispatcher; ledger : option AlertLedger }.

Section Service.
Context (fromisoformat : string -> option (Z * Z)) (labels_digest : list (string * string) -> string).
Context (answers : nat -> answer) (mono : nat -> float).

(** [_after]; the snapshot pushed to the page is not modelled. *)
Definition _after (l : option AlertLedger) (events : list Event) (ok : bool) : option AlertLedger :=
  match l, events with
  | Some l, _ :: _ => Some (record l events ok).1
  | l, _ => l
  end.

Definition service_receive (v : NotifierService) (payload : obj) (now : Z) (ok : bool) : NotifierService * nat :=
  let alerts := parse_notification fromisoformat labels_digest payload now in
  let '(b, events) := receive (book v) alerts now in
  let '(d, b) := announce_all answers mono (dispatcher v) b events in
  (mkNotifier b d (_after (ledger v) events ok), length alerts).

Definition service_ack (v : NotifierService) (fp by_ : string) (note : option string) (now : Z) (ok : bool)
    : NotifierService * option Event :=
  let '(b, event, _) := ack (book v) fp by_ note now in
  match event with
  | None => (mkNotifier b (dispatcher v) (ledger v), None)
  | Some e =>
      let '(d, b) := announce answers mono (dispatcher v) b e in
      (mkNotifier b d (_after (ledger v) [e] ok), Some e)
  end.

Definition service_raise_test (v : NotifierService) (severity hhmmss : string) (now : Z) (ok : bool)
    : NotifierService * list Event :=
  let '(b, events) := raise_test (book v) severity hhmmss now in
  let '(d, b) := announce_all answers mono (dispatcher v) b events in
  (mkNotifier b d (_after (ledger v) events ok), events).

Definition service_tick (v : NotifierService) (now : Z) : NotifierService :=
  let '(d, b, _) := repeat_due answers mono (dispatcher v) (book v) now in
  let '(d, _) := pump answers mono d in
  mkNotifier b d (ledger v).

(** [do_POST] once the origin is permitted and the body is an object: the
    status it answers. *)
Definition _MAX_ACK_NAME_CHARS : nat := 40.
Definition _MAX_ACK_NOTE_CHARS : nat := 200.
Definition do_POST (v : NotifierService) (path : string) (body : list (string * obj)) (hhmmss : string) (now : Z) (ok : bool)
    : NotifierService * Z :=
  if String.eqb path "/grafana-alerts" then ((service_receive v (ODict body) now ok).1, 200)
  else if String.eqb path "/ack" then
    match oget "fingerprint" body, oget "by" body with
    | OStr fp, OStr by_ =>
        if String.eqb (strip by_) "" then (v, 400)
        else
          let note_text := match oget "note" body with
            | OStr (String _ _ as note) => Some (str_take _MAX_ACK_NOTE_CHARS note) | _ => None end in
          match service_ack v fp (str_take _MAX_ACK_NAME_CHARS (strip by_)) note_text now ok with
          | (v, None) => (v, 404)
          | (v, Some _) => (v, 200)
          end
    | _, _ => (v, 400)
    end
  else if String.eqb path "/test" then
    match default (OStr "critical") (od_get "severity" body) with
    | OStr severity =>
        if negb (bool_decide (severity ∈ SEVERITIES)) || String.eqb severity "none" then (v, 400)
        else ((service_raise_test v severity hhmmss now ok).1, 200)
    | _ => (v, 400)
    end
  else (v, 404).
End Service.
