(* ===== verification/NotifierRuns.v ===== *)
(** Runs of the notifier: whatever notifications, acknowledgements, test
    alerts and ticks come, each alert's remembered events are whole lives, the
    dispatcher accounts for every message, and the ledger holds what the book
    remembers. *)

From S2P Require Import Prelude PyFloat Stats PyText Notifier.

Local Open Scope Z_scope.

(** * Runs and what they do *)

Section Runs.
Context (fromisoformat : string -> option (Z * Z)) (labels_digest : list (string * string) -> string).
Context (answers : nat -> answer) (mono : nat -> float).

(** The calls a request or the tick makes; [ok] is whether the ledger commits. *)
Inductive call :=
  | CReceive (payload : obj) (now : Z) (ok : bool)
  | CAck (fp by_ : string) (note : option string) (now : Z) (ok : bool)
  | CTest (severity hhmmss : string) (now : Z) (ok : bool)
  | CTick (now : Z).

Definition service_step (v : NotifierService) (c : call) : NotifierService :=
  match c with
  | CReceive payload now ok => (service_receive fromisoformat labels_digest answers mono v payload now ok).1
  | CAck fp by_ note now ok => (service_ack answers mono v fp by_ note now ok).1
  | CTest severity hhmmss now ok => (service_raise_test answers mono v severity hhmmss now ok).1
  | CTick now => service_tick answers mono v now
  end.
Definition service_run (v : NotifierService) (calls : list call) : NotifierService := fold_left service_step calls v.

(** The book's new state before the channels are told, and the events it
    remembers. *)
Definition book_call (b : AlertBook) (c : call) : AlertBook * list Event :=
  match c with
  | CReceive payload now _ => receive b (parse_notification fromisoformat labels_digest payload now) now
  | CAck fp by_ note now _ => let '(b, _, events) := ack b fp by_ note now in (b, events)
  | CTest severity hhmmss now _ => raise_test b severity hhmmss now
  | CTick _ => (b, [])
  end.

(** Everything the book remembers in a run. *)
Fixpoint remembered (v : NotifierService) (calls : list call) : list Event :=
  match calls with
  | [] => []
  | c :: calls => (book_call (book v) c).2 ++ remembered (service_step v c) calls
  end.

(** ... and in the calls whose ledger transaction commits. *)
Definition commits (c : call) : bool :=
  match c with CReceive _ _ ok | CAck _ _ _ _ ok | CTest _ _ _ ok => ok | CTick _ => true end.
Fixpoint committed (v : NotifierService) (calls : list call) : list Event :=
  match calls with
  | [] => []
  | c :: calls => (if commits c then (book_call (book v) c).2 else []) ++ committed (service_step v c) calls
  end.

(** The messages a call must offer to channels: an event to every channel that
    wants its severity, a tick the repeats that are due. *)
Definition told (b : AlertBook) (c : call) : list Event :=
  match c with
  | CAck fp by_ note now _ => match (ack b fp by_ note now).1.2 with Some e => [e] | None => [] end
  | _ => (book_call b c).2
  end.
Definition offered (v : NotifierService) (c : call) : nat :=
  let d := dispatcher v in
  match c with
  | CTick now =>
      list_sum ((fun e => length (List.filter (fun ch => repeat_is_due ch e now) (channels d))) <$> unacknowledged (book v))
  | _ => list_sum ((fun e => length (List.filter (fun ch => wants ch (ev_alert e)) (channels d))) <$> told (book v) c)
  end.
Fixpoint offered_all (v : NotifierService) (calls : list call) : nat :=
  match calls with
  | [] => 0
  | c :: calls => offered v c + offered_all (service_step v c) calls
  end.
End Runs.

(** * The life of an alert *)

(** An alert is absent, or active and acknowledged or not. *)
Fixpoint lifecycle (st : option bool) (events : list Event) : option (option bool) :=
  match events with
  | [] => Some st
  | e :: events =>
      match st, ev_kind e with
      | None, KFiring => lifecycle (Some false) events
      | Some _, KAck => lifecycle (Some true) events
      | Some _, KResolved => lifecycle None events
      | _, _ => None
      end
  end.

Definition about (fp : string) : list Event -> list Event :=
  List.filter (fun e => String.eqb (fingerprint (ev_alert e)) fp).
Definition entry_state (b : AlertBook) (fp : string) : option bool := acknowledged <$> od_get fp (active b).

Lemma lifecycle_app st es es' st' : lifecycle st es = Some st' -> lifecycle st (es ++ es') = lifecycle st' es'.
Proof.
  revert st; induction es as [|e es IH]; intros st; cbn [lifecycle app]; [by intros [= ->]|].
  destruct st, (ev_kind e); try done; apply IH.
Qed.

Lemma about_app fp es es' : about fp (es ++ es') = about fp es ++ about fp es'.
Proof. apply List.filter_app. Qed.

(** Entries stand under their own fingerprint and none is a heartbeat. *)
Definition book_ok (b : AlertBook) : Prop :=
  forall fp e, od_get fp (active b) = Some e -> fingerprint (aa_alert e) = fp /\ _is_heartbeat b (aa_alert e) = false.

(** From [b] to [b'] the events [es] happened. *)
Record leads (b : AlertBook) (es : list Event) (b' : AlertBook) : Prop := Leads {
  leads_ok : book_ok b';
  leads_rule : heartbeat_rule b' = heartbeat_rule b;
  leads_beat : Forall (fun e => _is_heartbeat b (ev_alert e) = false) es;
  leads_life : forall fp, lifecycle (entry_state b fp) (about fp es) = Some (entry_state b' fp)
}.

Lemma is_heartbeat_rule b b' a : heartbeat_rule b' = heartbeat_rule b -> _is_heartbeat b' a = _is_heartbeat b a.
Proof. unfold _is_heartbeat. by intros ->. Qed.

Lemma leads_refl b : book_ok b -> leads b [] b.
Proof. by split. Qed.

Lemma leads_trans b es b1 es' b2 : leads b es b1 -> leads b1 es' b2 -> leads b (es ++ es') b2.
Proof.
  intros [_ Hr1 Hb1 Hl1] [Hok Hr2 Hb2 Hl2]; split; [done|congruence| |].
  - apply Forall_app; split; [done|]. eapply Forall_impl; [exact Hb2|]. intros e; cbn beta; by rewrite (is_heartbeat_rule b b1) by done.
  - intros fp. by rewrite about_app, (lifecycle_app _ _ _ _ (Hl1 fp)).
Qed.

(** A change of one entry, with the event that tells of it. *)
Lemma leads_set b fp e es :
  book_ok b -> fingerprint (aa_alert e) = fp -> _is_heartbeat b (aa_alert e) = false ->
  Forall (fun ev => fingerprint (ev_alert ev) = fp /\ _is_heartbeat b (ev_alert ev) = false) es ->
  lifecycle (entry_state b fp) es = Some (Some (acknowledged e)) ->
  leads b es (set_active b (od_set fp e (active b))).
Proof.
  intros Hok Hfp Hbeat Hes Hlife; split; [|done|by eapply Forall_impl; [exact Hes|intros ? []]|].
  - intros fp' e'; cbn [active set_active]. destruct (decide (fp' = fp)) as [->|Hne].
    + rewrite od_get_set_eq. by intros [= <-].
    + rewrite od_get_set_ne by done. apply Hok.
  - intros fp'. unfold entry_state at 2; cbn [active set_active]. destruct (decide (fp' = fp)) as [->|Hne].
    + rewrite od_get_set_eq. cbn. rewrite <- Hlife. f_equal. clear Hlife; induction Hes as [|x l [Hx _] _ IH]; [done|].
      cbn [about List.filter]. rewrite Hx, String.eqb_refl. f_equal. apply IH.
    + rewrite od_get_set_ne by done. replace (about fp' es) with (@nil Event); [done|].
      clear Hlife; induction Hes as [|x l [Hx _] _ IH]; [done|]. cbn [about List.filter].
      rewrite Hx, (proj2 (String.eqb_neq _ _)) by done. apply IH.
Qed.

Lemma leads_del b fp ev :
  book_ok b -> fingerprint (ev_alert ev) = fp -> _is_heartbeat b (ev_alert ev) = false -> ev_kind ev = KResolved ->
  od_get fp (active b) <> None -> leads b [ev] (set_active b (od_del fp (active b))).
Proof.
  intros Hok Hfp Hbeat Hkind Hin; split; [|done|by repeat constructor|].
  - intros fp' e'; cbn [active set_active]. destruct (decide (fp' = fp)) as [->|Hne]; [by rewrite od_get_del_eq|].
    rewrite od_get_del_ne by done. apply Hok.
  - intros fp'. unfold entry_state at 2; cbn [active set_active about List.filter]. rewrite Hfp.
    destruct (decide (fp' = fp)) as [->|Hne].
    + rewrite od_get_del_eq, String.eqb_refl. unfold entry_state. destruct (od_get fp (active b)); [|done].
      cbn [lifecycle fmap option_fmap option_map]. by rewrite Hkind.
    + rewrite od_get_del_ne, (proj2 (String.eqb_neq _ _)) by done. done.
Qed.

(** Counters, the history and the heartbeat are not part of it. *)
Lemma leads_same_active b es b1 b2 :
  active b2 = active b1 -> heartbeat_rule b2 = heartbeat_rule b1 -> leads b es b1 -> leads b es b2.
Proof.
  intros Ha Hr [Hok Hr1 Hb Hl]; split; [|congruence|done|].
  - intros fp e. rewrite Ha, (is_heartbeat_rule b1 b2) by done. apply Hok.
  - intros fp. unfold entry_state at 2. rewrite Ha. apply Hl.
Qed.

Lemma receive_one_leads now b es a :
  book_ok b -> exists new, (receive_one now (b, es) a).2 = es ++ new /\ leads b new (receive_one now (b, es) a).1.
Proof.
  intros Hok; unfold receive_one. destruct (_is_heartbeat b a) eqn:Hbeat.
  - exists []. rewrite app_nil_r. destruct (al_status a); (split; [done|]); [|by apply leads_refl].
    by apply (leads_same_active b [] b); [..|apply leads_refl].
  - destruct (al_status a) eqn:Hst, (od_get (fingerprint a) (active b)) as [e|] eqn:Hg; cbn [fst snd].
    + exists []. rewrite app_nil_r; split; [done|]. destruct (Hok _ _ Hg) as [Hfp Hb].
      apply leads_set; [done..|constructor|]. unfold entry_state. by rewrite Hg.
    + eexists; split; [done|]. apply leads_set; [done..|by repeat constructor|]. unfold entry_state. by rewrite Hg.
    + eexists; split; [done|]. apply leads_del; [done..|]. by rewrite Hg.
    + exists []. rewrite app_nil_r; split; [done|]. by apply leads_refl.
Qed.

Lemma receive_leads b alerts now : book_ok b -> leads b (receive b alerts now).2 (receive b alerts now).1.
Proof.
  intros Hok. unfold receive.
  assert (H : forall alerts b1 es, leads b es b1 ->
    leads b (fold_left (receive_one now) alerts (b1, es)).2 (fold_left (receive_one now) alerts (b1, es)).1).
  { clear alerts; induction alerts as [|a alerts IH]; intros b1 es Hl; [done|]; cbn [fold_left].
    destruct (receive_one_leads now b1 es a (leads_ok _ _ _ Hl)) as (new & Hnew & Hstep).
    destruct (receive_one now (b1, es) a) as [b2 es2]. cbn [fst snd] in *. rewrite Hnew. apply IH. by eapply leads_trans. }
  specialize (H alerts (count_notification b) []).
  destruct (fold_left (receive_one now) alerts (count_notification b, [])) as [b1 es]. cbn [fst snd] in *.
  apply (leads_same_active b es b1); [done..|]. apply H. by apply (leads_same_active b [] b); [..|apply leads_refl].
Qed.

Lemma ack_leads b fp by_ note now : book_ok b -> leads b (ack b fp by_ note now).2 (ack b fp by_ note now).1.1.
Proof.
  intros Hok. unfold ack. destruct (od_get fp (active b)) as [e|] eqn:Hg; [|by apply leads_refl].
  destruct (Hok _ _ Hg) as [Hfp Hbeat].
  set (e' := mkActive (aa_alert e) _ _ _ _ _ _). set (event := mkEvent KAck _ _ _ _).
  assert (H1 : leads b [event] (_remember (set_active b (od_set fp e' (active b))) [event])).
  { apply (leads_same_active b [event] (set_active b (od_set fp e' (active b)))); [done..|].
    apply leads_set; [done..|by repeat constructor|]. unfold entry_state. by rewrite Hg. }
  destruct (String.eqb (al_name (aa_alert e')) TEST_ALERT_NAME); [|exact H1]. cbn [fst snd].
  set (b1 := _remember (set_active b (od_set fp e' (active b))) [event]) in *.
  set (resolved := mkEvent KResolved (aa_alert e) now None None).
  apply (leads_trans b [event] b1 [resolved]); [done|].
  apply (leads_same_active b1 [resolved] (set_active b1 (od_del fp (active b1)))); [done..|].
  apply leads_del; [apply (leads_ok _ _ _ H1)|done| |done|].
  - by rewrite (is_heartbeat_rule b b1).
  - cbn. by rewrite od_get_set_eq.
Qed.

(** ** What a delivery changes in the book: only who was told *)

Definition quiet (e : ActiveAlert) : ActiveAlert :=
  mkActive (aa_alert e) (first_seen e) (last_seen e) (acked_at e) (acked_by e) (note e) [].
Definition quiet_book (b : AlertBook) : AlertBook := set_active b (prod_map id quiet <$> active b).

Lemma od_get_quiet fp (d : list (string * ActiveAlert)) : od_get fp (prod_map id quiet <$> d) = quiet <$> od_get fp d.
Proof. induction d as [|[k e] d IH]; cbn; [done|]. by case_decide. Qed.

Lemma quiet_same b b' : quiet_book b' = quiet_book b ->
  (prod_map id quiet <$> active b') = (prod_map id quiet <$> active b) /\ heartbeat_rule b' = heartbeat_rule b.
Proof. intros H; split; [apply (f_equal active H) | apply (f_equal heartbeat_rule H)]. Qed.

Lemma leads_quiet b es b1 b2 : quiet_book b2 = quiet_book b1 -> leads b es b1 -> leads b es b2.
Proof.
  intros [Ha Hr]%quiet_same [Hok Hr1 Hb Hl].
  assert (Hg : forall fp, quiet <$> od_get fp (active b2) = quiet <$> od_get fp (active b1)).
  { intros fp. by rewrite <- !od_get_quiet, Ha. }
  split; [|congruence|done|].
  - intros fp e He. specialize (Hg fp); rewrite He in Hg; cbn in Hg.
    destruct (od_get fp (active b1)) as [e1|] eqn:He1; [|done]. injection Hg as Hal _ _ _ _ _. rewrite Hal.
    rewrite (is_heartbeat_rule b1 b2) by done. by apply Hok.
  - intros fp. rewrite Hl. f_equal. unfold entry_state. specialize (Hg fp).
    destruct (od_get fp (active b1)), (od_get fp (active b2)); try done. cbn in *. unfold acknowledged. by injection Hg as _ _ _ -> _ _.
Qed.

Lemma note_notified_quiet b e c : quiet_book (_note_notified b e c) = quiet_book b.
Proof.
  unfold _note_notified. set (fp := fingerprint (ev_alert e)). destruct (od_get fp (active b)) as [en|] eqn:Hg; [|done].
  unfold quiet_book; cbn [active set_active]. f_equal.
  induction (active b) as [|[k e1] d IH]; [done|]. cbn [od_get od_set] in *.
  case_decide; cbn; [by injection Hg as ->|]. f_equal. by apply IH.
Qed.

(** * What becomes of the messages *)

Definition accounted (d : Dispatcher) : Z := delivered d + failed d + expired d + Z.of_nat (length (_queue d)).
Definition tally (l : list (string * Z)) : Z := foldr Z.add 0 l.*2.

(** The dispatcher took on [n] messages; every delivery is some channel's. *)
Record grows (d : Dispatcher) (n : nat) (d' : Dispatcher) : Prop := Grows {
  grows_channels : channels d' = channels d;
  grows_total : accounted d' = accounted d + Z.of_nat n;
  grows_tally : tally (per_channel d') - delivered d' = tally (per_channel d) - delivered d
}.

Lemma grows_refl d : grows d 0 d.
Proof. split; [done|lia|done]. Qed.

Lemma grows_trans d n d1 m d2 : grows d n d1 -> grows d1 m d2 -> grows d (n + m) d2.
Proof. intros [H1 H2 H3] [K1 K2 K3]; split; [congruence|lia|lia]. Qed.

Lemma tally_bump name l : tally (od_set name (default 0 (od_get name l) + 1) l) = tally l + 1.
Proof.
  unfold tally; induction l as [|[k z] l IH]; cbn [od_get od_set fmap list_fmap foldr snd default]; [done|].
  case_decide; cbn; cbn in IH; lia.
Qed.

Ltac count_up :=
  unfold accounted; cbn [fst snd delivered failed expired _queue per_channel count_delivered count_failed count_expired tried clock_read set_queue];
  rewrite ?length_app, ?tally_bump; cbn [length]; lia.

(** * The service's runs *)

Section RunLemmas.
Context (fromisoformat : string -> option (Z * Z)) (labels_digest : list (string * string) -> string).
Context (answers : nat -> answer) (mono : nat -> float).

Lemma attempt_grows d c m : grows d 1 (_attempt answers mono d c m).1.
Proof. unfold _attempt. destruct (answers (d_tries d)); split; try done; count_up. Qed.

Lemma retry_grows d item : grows d 1 (_retry answers mono d item).1.
Proof. unfold _retry. destruct (answers (d_tries d)); split; try done; count_up. Qed.

Lemma announce_to_spec cs d b e :
  let '(d', b') := announce_to answers mono cs d b e in
  grows d (length (List.filter (fun c => wants c (ev_alert e)) cs)) d' /\ quiet_book b' = quiet_book b.
Proof.
  revert d b; induction cs as [|c cs IH]; intros d b; cbn [announce_to List.filter]; [split; [apply grows_refl|done]|].
  destruct (wants c (ev_alert e)); [|apply IH].
  pose proof (attempt_grows d c (render e)) as Hg. destruct (_attempt answers mono d c (render e)) as [d1 sent].
  specialize (IH d1 (if sent then _note_notified b e c else b)).
  destruct (announce_to answers mono cs d1 _ e) as [d2 b2]. destruct IH as [Hg2 Hb2]; split.
  - by apply (grows_trans d 1 d1).
  - rewrite Hb2. destruct sent; [apply note_notified_quiet|done].
Qed.

Lemma announce_all_spec events d b :
  let '(d', b') := announce_all answers mono d b events in
  grows d (list_sum ((fun e => length (List.filter (fun c => wants c (ev_alert e)) (channels d))) <$> events)) d' /\
  quiet_book b' = quiet_book b.
Proof.
  revert d b; induction events as [|e events IH]; intros d b; cbn [announce_all fmap list_fmap list_sum foldr]; [split; [apply grows_refl|done]|].
  unfold announce. pose proof (announce_to_spec (channels d) d b e) as H1.
  destruct (announce_to answers mono (channels d) d b e) as [d1 b1]. destruct H1 as [Hg1 Hb1].
  specialize (IH d1 b1). destruct (announce_all answers mono d1 b1 events) as [d2 b2]. destruct IH as [Hg2 Hb2].
  rewrite (grows_channels _ _ _ Hg1) in Hg2. split; [by eapply grows_trans|congruence].
Qed.

Lemma repeat_is_due_other c name at_ e now :
  ch_name c <> name -> repeat_is_due c (notify_entry e name at_) now = repeat_is_due c e now.
Proof. intros Hne. unfold repeat_is_due; cbn [last_notified notify_entry aa_alert]. by rewrite od_get_set_ne. Qed.

Lemma filter_due_other cs name at_ e now :
  name ∉ map ch_name cs ->
  List.filter (fun c => repeat_is_due c (notify_entry e name at_) now) cs = List.filter (fun c => repeat_is_due c e now) cs.
Proof.
  induction cs as [|c cs IH]; [done|]; cbn [map List.filter]. intros [Hne Hni]%not_elem_of_cons.
  rewrite repeat_is_due_other by done. by rewrite IH.
Qed.

Lemma repeat_on_quiet cs d e now repeated : quiet (repeat_on answers mono cs d e now repeated).1.2 = quiet e.
Proof.
  revert d e repeated; induction cs as [|c cs IH]; intros d e repeated; cbn [repeat_on]; [done|].
  destruct (repeat_is_due c e now); [|by apply IH].
  destruct (_attempt answers mono d c _) as [d1 [|]]; by rewrite IH.
Qed.

Lemma repeat_entries_quiet entries d now repeated :
  (prod_map id quiet <$> (repeat_entries answers mono entries d now repeated).1.2) = (prod_map id quiet <$> entries).
Proof.
  revert d repeated; induction entries as [|[fp e] entries IH]; intros d repeated; cbn [repeat_entries]; [done|].
  destruct (acknowledged e).
  - specialize (IH d repeated). destruct (repeat_entries answers mono entries d now repeated) as [[d1 entries1] r1].
    cbn [fmap list_fmap fst snd] in *. by f_equal.
  - pose proof (repeat_on_quiet (channels d) d e now repeated) as He.
    destruct (repeat_on answers mono (channels d) d e now repeated) as [[d1 e1] r1].
    specialize (IH d1 r1). destruct (repeat_entries answers mono entries d1 now r1) as [[d2 entries2] r2].
    cbn [fmap list_fmap fst snd] in *. f_equal; [|done]. unfold prod_map; cbn. by rewrite He.
Qed.

Lemma repeat_on_grows cs d e now repeated :
  NoDup (map ch_name cs) ->
  grows d (length (List.filter (fun c => repeat_is_due c e now) cs)) (repeat_on answers mono cs d e now repeated).1.1.
Proof.
  revert d e repeated; induction cs as [|c cs IH]; intros d e repeated; cbn [map repeat_on List.filter];
    [intros _; apply grows_refl|].
  intros [Hni Hnd]%NoDup_cons. destruct (repeat_is_due c e now); [|by apply IH].
  set (m := render _). pose proof (attempt_grows d c m) as Hg. destruct (_attempt answers mono d c m) as [d1 [|]].
  - rewrite <- (filter_due_other cs (ch_name c) now e now) by done. apply (grows_trans d 1 d1); [done|]. by apply IH.
  - apply (grows_trans d 1 d1); [done|]. by apply IH.
Qed.

(** The repeats due for the alerts nobody acknowledged. *)
Definition repeats (cs : list Channel) (now : Z) (entries : list ActiveAlert) : nat :=
  list_sum ((fun e => length (List.filter (fun c => repeat_is_due c e now) cs)) <$> entries).

Lemma repeat_entries_grows entries d now repeated :
  NoDup (map ch_name (channels d)) ->
  grows d (repeats (channels d) now (List.filter (fun e => negb (acknowledged e)) entries.*2))
    (repeat_entries answers mono entries d now repeated).1.1.
Proof.
  revert d repeated; induction entries as [|[fp e] entries IH]; intros d repeated Hnd; cbn [repeat_entries fmap list_fmap snd List.filter];
    [apply grows_refl|].
  destruct (acknowledged e); cbn [negb].
  - specialize (IH d repeated Hnd). by destruct (repeat_entries answers mono entries d now repeated) as [[d1 entries1] r1].
  - pose proof (repeat_on_grows (channels d) d e now repeated Hnd) as Hg1.
    destruct (repeat_on answers mono (channels d) d e now repeated) as [[d1 e1] r1]. cbn [fst] in Hg1.
    rewrite <- (grows_channels _ _ _ Hg1) in Hnd. specialize (IH d1 r1 Hnd). rewrite (grows_channels _ _ _ Hg1) in IH.
    destruct (repeat_entries answers mono entries d1 now r1) as [[d2 entries2] r2].
    by apply (grows_trans d _ d1).
Qed.

Lemma pump_items_grows items d now n : grows d (length items) (pump_items answers mono items d now n).1.
Proof.
  revert d n; induction items as [|item items IH]; intros d n; cbn [pump_items length]; [apply grows_refl|].
  destruct (fltb (deadline item) now).
  - apply (grows_trans d 1 (count_expired d)); [split; [done|count_up|done]|apply IH].
  - pose proof (retry_grows d item) as Hg. destruct (_retry answers mono d item) as [d1 [|]]; by apply (grows_trans d 1 d1).
Qed.

Lemma filter_split_length {A : Type} (f : A -> bool) l :
  (length (List.filter f l) + length (List.filter (fun x => negb (f x)) l))%nat = length l.
Proof. induction l as [|x l IH]; cbn; [done|]. destruct (f x); cbn; lia. Qed.

Lemma pump_grows d : grows d 0 (pump answers mono d).1.
Proof.
  unfold pump. set (now := mono (d_reads d)). set (due := fun i => fleb (due_at i) now).
  destruct (pump_items_grows (List.filter due (_queue (clock_read d)))
    (set_queue (clock_read d) (List.filter (fun i => negb (due i)) (_queue (clock_read d)))) now 0) as [Hc Ht Hs].
  split; [exact Hc| |exact Hs]. etransitivity; [exact Ht|]. pose proof (filter_split_length due (_queue d)).
  unfold accounted; cbn [delivered failed expired _queue set_queue clock_read]. lia.
Qed.

(** ** One call *)

(** The goal is about the channels' state after they were told. *)
Ltac told_all events v b :=
  let H := fresh in pose proof (announce_all_spec events (dispatcher v) b) as H;
  destruct (announce_all answers mono (dispatcher v) b events); apply H.
Ltac told_one e v b :=
  let H := fresh in pose proof (announce_to_spec (channels (dispatcher v)) (dispatcher v) b e) as H;
  destruct (announce_to answers mono (channels (dispatcher v)) (dispatcher v) b e); apply H.

Lemma book_call_leads b c : book_ok b -> leads b (book_call fromisoformat labels_digest b c).2 (book_call fromisoformat labels_digest b c).1.
Proof.
  intros Hok. destruct c as [payload now ok|fp by_ note now ok|severity hhmmss now ok|now]; cbn [book_call].
  - by apply receive_leads.
  - pose proof (ack_leads b fp by_ note now Hok). by destruct (ack b fp by_ note now) as [[b' o] events].
  - by apply receive_leads.
  - by apply leads_refl.
Qed.

(** The channels are told after the book has changed, and nothing else of it
    changes then. *)
Lemma service_step_book v c :
  quiet_book (book (service_step fromisoformat labels_digest answers mono v c)) =
  quiet_book (book_call fromisoformat labels_digest (book v) c).1.
Proof.
  destruct c as [payload now ok|fp by_ note now ok|severity hhmmss now ok|now]; cbn [service_step book_call].
  - unfold service_receive. destruct (receive _ _ now) as [b events]. told_all events v b.
  - unfold service_ack. destruct (ack (book v) fp by_ note now) as [[b [e|]] events]; [|done].
    unfold announce. told_one e v b.
  - unfold service_raise_test. destruct (raise_test _ _ _ _) as [b events]. told_all events v b.
  - unfold service_tick, repeat_due.
    pose proof (repeat_entries_quiet (active (book v)) (dispatcher v) now []) as H.
    destruct (repeat_entries answers mono (active (book v)) (dispatcher v) now []) as [[d entries] r].
    destruct (pump answers mono d) as [d' n]. unfold quiet_book; cbn [book active set_active fst snd] in *. by rewrite H.
Qed.

Lemma service_step_grows v c :
  NoDup (map ch_name (channels (dispatcher v))) ->
  grows (dispatcher v) (offered fromisoformat labels_digest v c) (dispatcher (service_step fromisoformat labels_digest answers mono v c)).
Proof.
  intros Hnd.
  destruct c as [payload now ok|fp by_ note now ok|severity hhmmss now ok|now]; cbn [service_step offered told book_call].
  - unfold service_receive. destruct (receive _ _ now) as [b events]. told_all events v b.
  - unfold service_ack. destruct (ack (book v) fp by_ note now) as [[b [e|]] events]; [|apply grows_refl].
    cbn [fst snd fmap list_fmap list_sum foldr]. rewrite Nat.add_0_r.
    unfold announce. told_one e v b.
  - unfold service_raise_test. destruct (raise_test _ _ _ _) as [b events]. told_all events v b.
  - unfold service_tick, repeat_due.
    pose proof (repeat_entries_grows (active (book v)) (dispatcher v) now [] Hnd) as H.
    destruct (repeat_entries answers mono (active (book v)) (dispatcher v) now []) as [[d entries] r].
    pose proof (pump_grows d) as Hp. destruct (pump answers mono d) as [d' n]. cbn [fst dispatcher] in *.
    rewrite <- (Nat.add_0_r (list_sum _)). by apply (grows_trans _ _ d).
Qed.
End RunLemmas.

(** ** The history and the ledger *)

Definition ledger_init : AlertLedger := mkLedger [] [] 0 0.

Lemma receive_history b alerts now :
  let '(b', es) := receive b alerts now in
  max_history b' = max_history b /\ history b' = last_n (max_history b) (history b ++ es).
Proof.
  unfold receive.
  assert (H : forall alerts b1 es, history (fold_left (receive_one now) alerts (b1, es)).1 = history b1 /\
    max_history (fold_left (receive_one now) alerts (b1, es)).1 = max_history b1).
  { clear; induction alerts as [|a alerts IH]; intros b1 es; [done|]; cbn [fold_left].
    assert (E : history (receive_one now (b1, es) a).1 = history b1 /\ max_history (receive_one now (b1, es) a).1 = max_history b1).
    { unfold receive_one. destruct (_is_heartbeat b1 a), (al_status a), (od_get (fingerprint a) (active b1)); done. }
    destruct (receive_one now (b1, es) a) as [b2 es2]. destruct E as [<- <-]. apply IH. }
  specialize (H alerts (count_notification b) []).
  destruct (fold_left (receive_one now) alerts (count_notification b, [])) as [b1 es]. destruct H as [Hh Hm].
  cbn [fst] in *. unfold _remember; cbn [history max_history]. by rewrite Hh, Hm.
Qed.

Lemma ack_history b fp by_ note now :
  let '(b', _, es) := ack b fp by_ note now in
  (length (history b) <= max_history b)%nat ->
  max_history b' = max_history b /\ history b' = last_n (max_history b) (history b ++ es).
Proof.
  unfold ack. destruct (od_get fp (active b)) as [e|]; [|intros H; by rewrite app_nil_r, last_n_all].
  destruct (String.eqb _ _); intros _; split; try done. cbn [history _remember set_active max_history].
  by rewrite last_n_app, <- app_assoc.
Qed.

Section Ledger.
Context (fromisoformat : string -> option (Z * Z)) (labels_digest : list (string * string) -> string).
Context (answers : nat -> answer) (mono : nat -> float).

Local Abbreviation step := (service_step fromisoformat labels_digest answers mono).
Local Abbreviation call_of := (book_call fromisoformat labels_digest).

Lemma service_step_history v c :
  (length (history (book v)) <= max_history (book v))%nat ->
  max_history (book (step v c)) = max_history (book v) /\
  history (book (step v c)) = last_n (max_history (book v)) (history (book v) ++ (call_of (book v) c).2).
Proof.
  intros Hlen. pose proof (service_step_book fromisoformat labels_digest answers mono v c) as Hq.
  pose proof (f_equal history Hq) as Hh. pose proof (f_equal max_history Hq) as Hm.
  cbn [history max_history quiet_book set_active] in Hh, Hm. rewrite Hh, Hm. clear Hq Hh Hm.
  destruct c as [payload now ok|fp by_ note now ok|severity hhmmss now ok|now]; cbn [book_call].
  - pose proof (receive_history (book v) (parse_notification fromisoformat labels_digest payload now) now) as H.
    by destruct (receive _ _ now) as [b es].
  - pose proof (ack_history (book v) fp by_ note now) as H. destruct (ack _ _ _ _ now) as [[b o] es]. by apply H.
  - pose proof (receive_history (book v) [test_alert severity hhmmss now] now) as H. unfold raise_test.
    by destruct (receive _ _ now) as [b es].
  - by rewrite app_nil_r, last_n_all.
Qed.

(** A call writes what its channels were told. *)
Lemma service_step_ledger v c :
  ledger (step v c) = _after (ledger v) (told fromisoformat labels_digest (book v) c) (commits c).
Proof.
  destruct c as [payload now ok|fp by_ note now ok|severity hhmmss now ok|now]; cbn [service_step told book_call commits].
  - unfold service_receive. destruct (receive _ _ now) as [b es].
    by destruct (announce_all answers mono (dispatcher v) b es) as [d b'].
  - unfold service_ack. destruct (ack (book v) fp by_ note now) as [[b [e|]] es]; [|by destruct (ledger v)].
    by destruct (announce answers mono (dispatcher v) b e) as [d b'].
  - unfold service_raise_test. destruct (raise_test _ _ _ _) as [b es].
    by destruct (announce_all answers mono (dispatcher v) b es) as [d b'].
  - unfold service_tick. destruct (repeat_due answers mono (dispatcher v) (book v) now) as [[d b] r].
    destruct (pump answers mono d) as [d' n]. by destruct (ledger v).
Qed.

Lemma record_spec (l : AlertLedger) (es : list Event) (ok : bool) :
  let kept := if ok then es else [] in
  let l' := (record l es ok).1 in
  alert_events l' = alert_events l ++ List.filter is_row kept /\
  alert_acks l' = fold_left upsert_ack (List.filter is_ack kept) (alert_acks l) /\
  written l' = written l + Z.of_nat (length (List.filter is_row kept) + length (List.filter is_ack kept)).
Proof.
  unfold record. cbv zeta. destruct (Z.eqb_spec (Z.of_nat (length (List.filter is_row es) + length (List.filter is_ack es))) 0) as [Hz|Hz].
  - assert (Hr : List.filter is_row (if ok then es else []) = []) by (destruct ok; [apply nil_length_inv; lia|done]).
    assert (Ha : List.filter is_ack (if ok then es else []) = []) by (destruct ok; [apply nil_length_inv; lia|done]).
    rewrite Hr, Ha. cbn. rewrite app_nil_r. split_and!; [done..|lia].
  - destruct ok; cbn; [done|]. rewrite app_nil_r. split_and!; [done..|lia].
Qed.

Lemma after_record (l : AlertLedger) (es : list Event) (ok : bool) : _after (Some l) es ok = Some (record l es ok).1.
Proof. by destruct es. Qed.

(** The alerts Grafana raised: not the delivery drill's. *)
Definition drill (e : Event) : bool := String.eqb (al_name (ev_alert e)) TEST_ALERT_NAME.
Definition real_rows (es : list Event) : list Event := List.filter (fun e => negb (drill e)) (List.filter is_row es).

Lemma real_rows_app es es' : real_rows (es ++ es') = real_rows es ++ real_rows es'.
Proof. unfold real_rows. by rewrite !List.filter_app. Qed.

(** What the channels are told and the ledger gets is what the book remembers,
    but for the resolution of a drill. *)
Lemma told_remembered b c :
  real_rows (told fromisoformat labels_digest b c) = real_rows (call_of b c).2 /\
  List.filter is_ack (told fromisoformat labels_digest b c) = List.filter is_ack (call_of b c).2.
Proof.
  destruct c as [payload now ok|fp by_ note now ok|severity hhmmss now ok|now]; cbn [told book_call]; try done.
  unfold ack. destruct (od_get fp (active b)) as [e|]; [|done]. cbn [aa_alert].
  destruct (String.eqb (al_name (aa_alert e)) TEST_ALERT_NAME) eqn:Hn; [|done]. cbn [fst snd]; split; [|done].
  unfold real_rows, drill. cbn. by rewrite Hn.
Qed.

Lemma service_run_ledger calls v l :
  ledger v = Some l ->
  exists l', ledger (service_run fromisoformat labels_digest answers mono v calls) = Some l' /\
    let es := committed fromisoformat labels_digest answers mono v calls in
    real_rows (alert_events l') = real_rows (alert_events l) ++ real_rows es /\
    alert_acks l' = fold_left upsert_ack (List.filter is_ack es) (alert_acks l) /\
    written l' - Z.of_nat (length (alert_events l')) =
      written l - Z.of_nat (length (alert_events l)) + Z.of_nat (length (List.filter is_ack es)).
Proof.
  revert v l; induction calls as [|c calls IH]; intros v l Hl; cbn [committed service_run fold_left].
  - exists l. cbn. rewrite app_nil_r. split_and!; [done..|lia].
  - set (now_told := told fromisoformat labels_digest (book v) c).
    destruct (IH (step v c) (record l now_told (commits c)).1) as (l' & Hl' & Hrows & Hacks & Hn).
    { by rewrite service_step_ledger, Hl, after_record. }
    exists l'. split; [exact Hl'|]. cbv zeta in *.
    destruct (record_spec l now_told (commits c)) as (Re & Ra & Rw). destruct (told_remembered (book v) c) as [Tr Ta].
    fold now_told in Tr, Ta. rewrite real_rows_app, List.filter_app, fold_left_app, length_app.
    rewrite Hrows, Hacks, Re, Ra, real_rows_app, <- app_assoc.
    rewrite Rw, Re, length_app in Hn.
    assert (Hid : forall l : list Event, real_rows (List.filter is_row l) = real_rows l).
    { intros k. unfold real_rows. f_equal. induction k as [|x k IHk]; [done|]. cbn.
      destruct (is_row x) eqn:E; cbn; rewrite ?E; [by f_equal|done]. }
    rewrite Hid. destruct (commits c); [rewrite Tr, Ta; rewrite Ta in Hn|]; (split; [done|split; [done|cbn [List.filter length] in *; lia]]).
Qed.
End Ledger.

(** * What a notification can carry *)

Definition fits (t : string) : Prop := (String.length t <= MAX_TEXT_CHARS)%nat.
Definition fits_map (m : list (string * string)) : Prop :=
  (length m <= MAX_LABELS)%nat /\ Forall (fun kv => fits kv.1 /\ fits kv.2) m.

Lemma text_fits v : fits (_text v).
Proof.
  unfold fits, _text. destruct v as [|[]|z|x|s|l|d]; try apply str_take_length; apply Nat.leb_le; reflexivity.
Qed.

Lemma or_fits t u : fits t -> fits u -> fits (str_or t u).
Proof. by destruct t. Qed.

Lemma set_fits key v m :
  fits key -> fits v -> Forall (fun kv => fits kv.1 /\ fits kv.2) m ->
  Forall (fun kv => fits kv.1 /\ fits kv.2) (od_set key v m) /\ (length (od_set key v m) <= S (length m))%nat.
Proof.
  intros Hk Hv; induction m as [|[k w] m IH]; cbn [od_set]; intros Hm; [split; [by apply Forall_singleton|done]|].
  apply Forall_cons in Hm as [Hkw Hm]. case_decide.
  - split; [constructor; [by destruct Hkw|done]|cbn; lia].
  - destruct (IH Hm) as [IHm Hlen]. split; [by constructor|cbn; lia].
Qed.

Lemma string_map_fits items m : fits_map m -> fits_map (string_map items m).
Proof.
  revert m; induction items as [|[key item] items IH]; intros m Hm; cbn [string_map]; [done|].
  destruct (Nat.leb_spec MAX_LABELS (length m)) as [|Hlt]; [done|]. apply IH.
  destruct (String.eqb key ""); [done|]. destruct Hm as [Hlen Hm].
  destruct (set_fits (str_take MAX_TEXT_CHARS key) (_text item) m) as [Hf Hl]; [apply str_take_length|apply text_fits|done|].
  split; [lia|done].
Qed.

Lemma labels_fit v : fits_map (_string_map v).
Proof. destruct v; try (by split; [apply Nat.leb_le|]). apply string_map_fits. by split; [apply Nat.leb_le|]. Qed.

Lemma get_fits m key : fits_map m -> fits (default "" (od_get key m)).
Proof.
  intros [_ Hm]. destruct (od_get key m) as [t|] eqn:E; [|by apply Nat.leb_le].
  apply od_get_In in E. rewrite Forall_forall in Hm. by apply Hm in E as [_ ?].
Qed.

Lemma span_uid_length s : (String.length (span_uid s).1 <= String.length s)%nat.
Proof.
  induction s as [|c s IH]; [done|]. cbn [span_uid String.length]. case_bool_decide; [cbn; lia|].
  destruct (span_uid s) as [u r]. cbn in *. lia.
Qed.

Lemma substring_length n m s : (String.length (String.substring n m s) <= String.length s)%nat.
Proof.
  revert n m; induction s as [|c s IH]; intros [|n] [|m]; cbn; try lia; [specialize (IH 0%nat m)|specialize (IH n 0%nat)|specialize (IH n (S m))]; lia.
Qed.

Lemma generator_uid_length s u : _GENERATOR_UID s = Some u -> (String.length u <= String.length s)%nat.
Proof.
  assert (Hat : forall s u, uid_at s = Some u -> (String.length u <= String.length s)%nat).
  { clear; intros s u. unfold uid_at. destruct (String.prefix uid_prefix s); [|done].
    set (rest := String.substring _ _ s). assert (Hr : (String.length rest <= String.length s)%nat) by apply substring_length.
    pose proof (span_uid_length rest) as Hs. destruct (span_uid rest) as [uid r]. cbn [fst] in Hs.
    destruct (_ && _); [intros [= <-]; lia|done]. }
  induction s as [|c s IH]; cbn [_GENERATOR_UID].
  - destruct (uid_at EmptyString) eqn:E; [intros [= <-]; by apply Hat|done].
  - destruct (uid_at (String c s)) eqn:E; [intros [= <-]; by apply Hat|]. intros H%IH. cbn; lia.
Qed.

Lemma omap_length_le {A B : Type} (f : A -> option B) (l : list A) : (length (omap f l) <= length l)%nat.
Proof. induction l as [|x l IH]; cbn; [done|]. destruct (f x); cbn; lia. Qed.

(** An alert of bounded texts and labels and of a known severity. *)
Record bounded_alert (a : Alert) : Prop := BoundedAlert {
  ba_fingerprint : fits (fingerprint a);
  ba_name : fits (al_name a);
  ba_severity : al_severity a ∈ SEVERITIES;
  ba_labels : fits_map (labels a);
  ba_annotations : fits_map (annotations a);
  ba_rule : forall uid, rule_uid a = Some uid -> fits uid;
  ba_summary : fits (summary a)
}.

Lemma parse_alert_bounded fromisoformat labels_digest raw now a :
  (forall m, fits (labels_digest m)) -> parse_alert fromisoformat labels_digest raw now = Some a -> bounded_alert a.
Proof.
  intros Hdigest. unfold parse_alert.
  set (ls := _string_map (oget "labels" raw)). set (ans := _string_map (oget "annotations" raw)).
  assert (Hls : fits_map ls) by apply labels_fit. assert (Hans : fits_map ans) by apply labels_fit.
  assert (Hname : fits (str_or (default "" (od_get "alertname" ls)) "unnamed")).
  { apply or_fits; [by apply get_fits|by apply Nat.leb_le]. }
  intros (st & _ & Ha)%bind_Some. injection Ha as <-. split; cbn; try done.
  - apply or_fits; [apply text_fits|apply Hdigest].
  - case_bool_decide; [done|]. unfold SEVERITIES. set_solver.
  - intros uid Huid.
    assert (Hgen : _GENERATOR_UID (_text (oget "generatorURL" raw)) = Some uid -> fits uid).
    { intros H%generator_uid_length. pose proof (text_fits (oget "generatorURL" raw)). unfold fits in *; lia. }
    pose proof (get_fits ls "__alert_rule_uid__" Hls) as Hget.
    destruct (od_get "__alert_rule_uid__" ls) as [[|c s]|]; [by apply Hgen| |by apply Hgen]. by injection Huid as <-.
  - apply or_fits; [by apply get_fits|done].
Qed.

(** * The properties *)

Section Properties.
Context (fromisoformat : string -> option (Z * Z)) (labels_digest : list (string * string) -> string).
Context (answers : nat -> answer) (mono : nat -> float).

Local Abbreviation run := (service_run fromisoformat labels_digest answers mono).

Lemma service_run_leads calls v :
  book_ok (book v) -> leads (book v) (remembered fromisoformat labels_digest answers mono v calls) (book (run v calls)).
Proof.
  revert v; induction calls as [|c calls IH]; intros v Hok; cbn [remembered service_run fold_left]; [by apply leads_refl|].
  pose proof (book_call_leads fromisoformat labels_digest (book v) c Hok) as H1.
  pose proof (service_step_book fromisoformat labels_digest answers mono v c) as Hq.
  pose proof (leads_quiet _ _ _ _ Hq H1) as H2. eapply leads_trans; [exact H2|]. apply IH, (leads_ok _ _ _ H2).
Qed.

Lemma service_run_history calls v :
  (length (history (book v)) <= max_history (book v))%nat ->
  history (book (run v calls)) =
  last_n (max_history (book v)) (history (book v) ++ remembered fromisoformat labels_digest answers mono v calls).
Proof.
  revert v; induction calls as [|c calls IH]; intros v Hlen; cbn [remembered service_run fold_left].
  - by rewrite app_nil_r, last_n_all.
  - destruct (service_step_history fromisoformat labels_digest answers mono v c Hlen) as [Hm Hh].
    etransitivity; [apply IH; rewrite Hm, Hh, last_n_length; lia|]. by rewrite Hm, Hh, last_n_app, <- app_assoc.
Qed.

Lemma service_run_grows calls v :
  NoDup (map ch_name (channels (dispatcher v))) ->
  grows (dispatcher v) (offered_all fromisoformat labels_digest answers mono v calls) (dispatcher (run v calls)).
Proof.
  revert v; induction calls as [|c calls IH]; intros v Hnd; cbn [offered_all service_run fold_left]; [apply grows_refl|].
  pose proof (service_step_grows fromisoformat labels_digest answers mono v c Hnd) as H1.
  eapply grows_trans; [exact H1|]. apply IH. by rewrite (grows_channels _ _ _ H1).
Qed.

(** C34. Whatever notifications, acknowledgements, drills and ticks come, and
    whatever the channels answer: the events remembered of one alert are whole
    lives (fired when it was not active, acknowledged only while active,
    resolved once), the alert is active exactly while the last life is open and
    acknowledged exactly when that life was, no event is a heartbeat's, and the
    history is the last [max_history] events. *)
Theorem alerts_have_whole_lives rule expected_s missed keep_s max d l calls :
  let v := mkNotifier (book_init rule expected_s missed keep_s max) d l in
  let es := remembered fromisoformat labels_digest answers mono v calls in
  let b := book (run v calls) in
  (forall fp, lifecycle None (about fp es) = Some (entry_state b fp)) /\
  Forall (fun e => _is_heartbeat b (ev_alert e) = false) es /\
  history b = last_n max es.
Proof.
  intros v es b. assert (Hok : book_ok (book v)) by (intros ? ? [=]).
  destruct (service_run_leads calls v Hok) as [_ Hr Hb Hl]. split; [exact Hl|split].
  - eapply Forall_impl; [exact Hb|]. intros e; cbn beta. by rewrite (is_heartbeat_rule (book v) b).
  - apply (service_run_history calls v). apply Nat.le_0_l.
Qed.


(** The ledger holds what the book remembers: over any run, the rows are the
    firing and resolved events of the calls whose transaction committed, in
    order (the drills' aside), the acknowledgements the latest of each alert's
    start, and [written] counts both. *)
Theorem ledger_holds_the_history b d calls :
  let v := mkNotifier b d (Some ledger_init) in
  let es := committed fromisoformat labels_digest answers mono v calls in
  exists l, ledger (run v calls) = Some l /\
    List.filter (fun e => negb (drill e)) (List.filter is_row (alert_events l)) =
      List.filter (fun e => negb (drill e)) (List.filter is_row es) /\
    alert_acks l = fold_left upsert_ack (List.filter is_ack es) [] /\
    written l = Z.of_nat (length (alert_events l)) + Z.of_nat (length (List.filter is_ack es)).
Proof.
  intros v es. destruct (service_run_ledger fromisoformat labels_digest answers mono calls v ledger_init eq_refl)
    as (l & Hl & Hrows & Hacks & Hn). exists l. split; [exact Hl|]. split; [exact Hrows|]. split; [exact Hacks|].
  fold es in Hn. cbn in Hn. lia.
Qed.

(** A notification, whatever it holds, gives at most fifty alerts, each of a
    known severity, with texts of at most 240 characters and at most 32 labels
    and annotations. *)
Theorem notification_is_bounded payload now :
  (forall m, fits (labels_digest m)) ->
  let alerts := parse_notification fromisoformat labels_digest payload now in
  (length alerts <= MAX_ALERTS_PER_NOTIFICATION)%nat /\ Forall bounded_alert alerts.
Proof.
  intros Hdigest alerts. unfold alerts, parse_notification.
  destruct payload as [| | | | |?|p]; try (by split; [apply Nat.leb_le|]).
  destruct (oget "alerts" p) as [| | | | |raws|]; try (by split; [apply Nat.leb_le|]). split.
  - etransitivity; [apply omap_length_le|]. rewrite length_take. lia.
  - apply Forall_forall. intros a (raw & _ & Hraw)%list_elem_of_omap. destruct raw; try discriminate Hraw.
    by apply (parse_alert_bounded _ _ _ _ _ Hdigest Hraw).
Qed.
End Properties.

Lemma filter_length_perm {A : Type} (f : A -> bool) l l' : l ≡ₚ l' -> length (List.filter f l) = length (List.filter f l').
Proof.
  induction 1 as [|x l l' _ IH|x y l|l l1 l2 _ IH1 _ IH2]; cbn; [done| | |congruence].
  - destruct (f x); cbn; congruence.
  - by destruct (f x), (f y).
Qed.

Lemma filter_and {A : Type} (f g : A -> bool) l :
  List.filter (fun x => f x && g x) l = List.filter g (List.filter f l).
Proof. induction l as [|x l IH]; cbn; [done|]. destruct (f x); cbn; [|done]. destruct (g x); by rewrite IH. Qed.

(** The page shows every active alert once, the more severe first and the older
    first within a severity, and its critical count is that of the book. *)
Theorem page_shows_every_alert b :
  page_active b ≡ₚ (active b).*2 /\ sorted_by page_before (page_active b) /\
  unacknowledged_critical b =
    length (List.filter (fun e => String.eqb (al_severity (aa_alert e)) "critical") (unacknowledged b)).
Proof.
  assert (Hp : page_active b ≡ₚ (active b).*2) by apply sort_by_perm. split; [exact Hp|split].
  - apply sort_by_sorted.
    + intros x y. unfold page_before. set (rx := severity_rank _); set (ry := severity_rank _). lia.
    + intros x y z. unfold page_before. set (rx := severity_rank _); set (ry := severity_rank _); set (rz := severity_rank _). lia.
  - unfold unacknowledged_critical, unacknowledged. by rewrite (filter_length_perm _ _ _ Hp), filter_and.
Qed.

(** * Concrete runs *)

Module Scenario.
(** One channel that is told of critical alerts and repeats every minute. *)
Definition phone : Channel := mkChannel "phone" "critical" (Some (f_of_Z 60)).
Definition log : Channel := mkChannel "log" "none" None.
Definition iso (s : string) : option (Z * Z) := None.
Definition digest (m : list (string * string)) : string := "0123456789abcdef".
(** The phone's network is down for good, or for the first two attempts. *)
Definition down (n : nat) : answer := RetryLater.
Definition down_twice (n : nat) : answer := if (n <? 2)%nat then RetryLater else Delivers.
(** A network that comes and goes. *)
Definition patchy (n : nat) : answer := nth (n mod 3) [RetryLater; Breaks; Delivers] Delivers.
(** A monotonic clock that advances a second with every reading. *)
Definition clock (n : nat) : float := f_of_Z (1000 + Z.of_nat n).

Definition payload (status : string) : obj :=
  ODict [("alerts", OList [ODict [("status", OStr status); ("fingerprint", OStr "f1");
    ("labels", ODict [("alertname", OStr "OilPressure"); ("severity", OStr "critical")])]])].
Definition book0 : AlertBook := book_init "notifier-heartbeat" (f_of_Z 60) 3 (f_of_Z 3600) 500.
Definition start (cs : list Channel) : NotifierService :=
  mkNotifier book0 (dispatcher_init cs (f_of_Z 1800)) (Some ledger_init).
Definition at_s (s : Z) : Z := (1700000000 + s) * 1000000.
End Scenario.
Import Scenario.

Definition lived : list call :=
  [CReceive (payload "firing") (at_s 0) true; CTick (at_s 1); CTick (at_s 61);
   CAck "f1" "ann" None (at_s 62) true; CTick (at_s 130); CReceive (payload "resolved") (at_s 140) true].


Lemma notification_is_bounded_witness :
  (forall m, fits (digest m)) /\
  length (parse_notification iso digest (payload "firing") (at_s 0)) = 1%nat /\
  Forall bounded_alert (parse_notification iso digest (payload "firing") (at_s 0)).
Proof.
  assert (H : forall m, fits (digest m)) by (intros m; apply Nat.leb_le; vm_compute; reflexivity).
  split; [exact H|]. split; [vm_compute; reflexivity|]. apply (notification_is_bounded iso digest (payload "firing") (at_s 0) H).
Defined.

(** ** Where the code does something else than its documents say *)

(** A repeat that could not be delivered is not noted, so the alert is due
    again at the next one-second tick: while the phone cannot be reached every
    tick offers and queues the alert once more, whatever [repeat_s] is. *)
Example unreachable_phone_fills_the_queue :
  let ticks := map (fun n => CTick (at_s (Z.of_nat n))) (seq 1 3) in
  let v := service_run iso digest down clock (start [phone]) (CReceive (payload "firing") (at_s 0) true :: ticks) in
  length (_queue (dispatcher v)) = 4%nat /\ repeat_s phone = Some (f_of_Z 60).
Proof. vm_compute. split; reflexivity. Qed.

(** Acknowledging and resolving stop new repeats, not those waiting for a
    retry: once the network is back the phone still hears of it. *)
Definition answered_late : list call :=
  [CReceive (payload "firing") (at_s 0) true; CTick (at_s 1); CAck "f1" "ann" None (at_s 2) true;
   CReceive (payload "resolved") (at_s 3) true].
Definition later (n : nat) : float := f_of_Z (if (n <? 3)%nat then 1000 else 1010).
Example acknowledged_alert_is_still_sent :
  let v := service_run iso digest down_twice later (start [phone]) answered_late in
  active (book v) = [] /\ delivered (dispatcher v) = 2 /\
  map (fun p => ms_kind (pd_message p)) (_queue (dispatcher v)) = [KFiring; KRepeat] /\
  delivered (dispatcher (service_run iso digest down_twice later v [CTick (at_s 4); CTick (at_s 5)])) = 4.
Proof. vm_compute. split_and!; reflexivity. Qed.

(** The resolution of an acknowledged drill is remembered but neither told nor
    written: the ledger's last row of the drill says firing. *)
Example drill_resolution_is_not_recorded :
  let v := service_run iso digest (fun _ => Delivers) clock (start [log])
    [CTest "critical" "120000" (at_s 0) true; CAck "test-120000" "ann" None (at_s 1) true] in
  active (book v) = [] /\ map ev_kind (history (book v)) = [KFiring; KAck; KResolved] /\
  option_map (fun l => map ev_kind (alert_events l)) (ledger v) = Some [KFiring].
Proof. vm_compute. split_and!; reflexivity. Qed.

(** The service's handler answers 400 to an acknowledgement by nobody, 404 to
    one of an alert that is not active. *)
Example ack_is_checked :
  let post := do_POST iso digest (fun _ => Delivers) clock in
  let v := (post (start [log]) "/grafana-alerts" (match payload "firing" with ODict d => d | _ => [] end) "" (at_s 0) true).1 in
  (post v "/ack" [("fingerprint", OStr "f1"); ("by", OStr "  ")] "" (at_s 1) true).2 = 400 /\
  (post v "/ack" [("fingerprint", OStr "f2"); ("by", OStr "ann")] "" (at_s 1) true).2 = 404 /\
  (post v "/ack" [("fingerprint", OStr "f1"); ("by", OStr "ann")] "" (at_s 1) true).2 = 200.
Proof. vm_compute. split_and!; reflexivity. Qed.
