(* ===== verification/Limiter.v ===== *)
(** Live gauges: the view configuration and the conflating limiter
    ([src/pit/live_decoder/config.py], [limiter.py]), composed as
    [_handle_message] of [service.py] composes them.

    [defaultdict(int)] counters are finite maps read with a default of 0; the
    limiter's channel table is a dictionary in insertion order. *)

From S2P Require Import Prelude PyFloat Glob Wire RegistryCache.

Local Open Scope Z_scope.

(** * The view configuration *)

Record LiveDefaults := mkDefaults { max_hz : float; total_max_hz : float }.
Record ChannelRule := mkRule { cr_match : string; cr_max_hz : option float }.
Record LiveConfig := mkLive {
  lc_vehicle : option string;
  defaults : LiveDefaults;
  lc_channels : list ChannelRule
}.

Definition rule_for (self : LiveConfig) (channel : string) : option ChannelRule :=
  List.find (fun rule => fnmatchcase channel (cr_match rule)) (lc_channels self).

Definition max_hz_for (self : LiveConfig) (channel : string) : option float :=
  match rule_for self channel with
  | None => None
  | Some rule => Some (match cr_max_hz rule with None => max_hz (defaults self) | Some hz => hz end)
  end.

Definition unmatched_rules (self : LiveConfig) (registry : ChannelRegistry) : list string :=
  let names := map c_name (r_channels registry) in
  map cr_match (List.filter (fun rule => negb (existsb (fun name => fnmatchcase name (cr_match rule)) names))
                 (lc_channels self)).

(** * The limiter *)

Definition _EPSILON : float := f_of_ratio 1 1000000000.

Record LiveUpdate := mkUpdate {
  lu_channel : string;
  lu_capture_unix_ms : float;
  lu_value : option SampleValue;
  lu_conflate : bool
}.

Record _ChannelState := mkChan {
  interval_s : float;
  pending : option LiveUpdate;
  next_due : option float;
  last_published : option float
}.

Record ConflatingLimiter := mkLimiter {
  config : LiveConfig;
  suppressed : gmap string Z;
  published : gmap string Z;
  aggregate_sheds : Z;
  _states : list (string * _ChannelState);
  _aggregate_at : option float;
  _aggregate_tokens : float
}.

Definition limiter_init (config : LiveConfig) : ConflatingLimiter := mkLimiter config ∅ ∅ 0 [] None f0.

Definition count_of (m : gmap string Z) (c : string) : Z := default 0 (m !! c).
Definition add_count (m : gmap string Z) (c : string) : gmap string Z := <[c := count_of m c + 1]> m.

Definition set_states (self : ConflatingLimiter) (s : list (string * _ChannelState)) : ConflatingLimiter :=
  mkLimiter (config self) (suppressed self) (published self) (aggregate_sheds self) s
    (_aggregate_at self) (_aggregate_tokens self).
Definition suppress (self : ConflatingLimiter) (c : string) : ConflatingLimiter :=
  mkLimiter (config self) (add_count (suppressed self) c) (published self) (aggregate_sheds self) (_states self)
    (_aggregate_at self) (_aggregate_tokens self).
Definition set_chan (self : ConflatingLimiter) (c : string) (s : _ChannelState) : ConflatingLimiter :=
  set_states self (od_set c s (_states self)).
Definition fresh_chan (interval : float) : _ChannelState := mkChan interval None None None.
Definition with_pending (s : _ChannelState) (p : option LiveUpdate) : _ChannelState :=
  mkChan (interval_s s) p (next_due s) (last_published s).

Definition reconfigure (self : ConflatingLimiter) (config : LiveConfig) : ConflatingLimiter :=
  mkLimiter config (suppressed self) (published self) (aggregate_sheds self) [] None f0.

(** [now + _EPSILON >= next_due]. *)
Definition due (now : float) (next : float) : bool := fleb next (fadd now _EPSILON).

(** A value that supersedes a pending one suppresses it. *)
Definition supersede (self : ConflatingLimiter) (s : _ChannelState) (c : string) : ConflatingLimiter :=
  match pending s with Some _ => suppress self c | None => self end.

Definition update_of (hz : float) (sample : DecodedSample) : LiveUpdate :=
  mkUpdate (c_name (ds_channel sample)) (ds_capture_unix_ms sample) (ds_value sample) (negb (feqb hz f0)).

Definition limiter_offer (self : ConflatingLimiter) (sample : DecodedSample) (now : float)
    : ConflatingLimiter * list LiveUpdate :=
  let c := c_name (ds_channel sample) in
  match max_hz_for (config self) c with
  | None => (self, [])
  | Some hz =>
      let update := update_of hz sample in
      let state := match od_get c (_states self) with Some s => s | None => fresh_chan f0 end in
      let self := set_chan self c state in
      if feqb hz f0 then (self, [update])
      else
        let interval := fdiv_ieee (f_of_Z 1) hz in
        let state := if feqb (interval_s state) interval then state else fresh_chan interval in
        let self := set_chan self c state in
        let publishable := match next_due state with None => true | Some next => due now next end in
        if publishable then (set_chan (supersede self state c) c (with_pending state None), [update])
        else (set_chan (supersede self state c) c (with_pending state (Some update)), [])
  end.

(** A pending value whose time has come leaves the table. *)
Definition drain_chan (now : float) (kv : string * _ChannelState) : (string * _ChannelState) * list LiveUpdate :=
  let '(c, s) := kv in
  match pending s, next_due s with
  | Some update, Some next => if due now next then ((c, with_pending s None), [update]) else (kv, [])
  | _, _ => (kv, [])
  end.

Definition _last_published (self : ConflatingLimiter) (update : LiveUpdate) : res float :=
  match od_get (lu_channel update) (_states self) with
  | None => raise KeyError (lu_channel update)
  | Some s => Ok (match last_published s with Some t => t | None => fninf end)
  end.

(** [sort(key=(last published, channel), reverse=True)]: the keys first, then
    a stable descending sort. *)
Definition rank_ltb (a b : float * string) : bool :=
  if feqb a.1 b.1 then String.ltb a.2 b.2 else fltb a.1 b.1.
Definition ranked (self : ConflatingLimiter) (l : list LiveUpdate) : res (list LiveUpdate) :=
  keyed ← res_map (fun u => t ← _last_published self u; Ok ((t, lu_channel u), u)) l;
  Ok (map snd (sort_by (fun a b => negb (rank_ltb a.1 b.1)) keyed)).

Definition limiter_drain (self : ConflatingLimiter) (now : float) : ConflatingLimiter * res (list LiveUpdate) :=
  let l := map (drain_chan now) (_states self) in
  let self := set_states self (map fst l) in
  (self, ranked self (concat (map snd l))).

(** The last same-channel update takes the place of the first. *)
Fixpoint replace_limited (c : string) (u : LiveUpdate) (l : list LiveUpdate) : option (list LiveUpdate) :=
  match l with
  | [] => None
  | v :: l =>
      if lu_conflate v && String.eqb (lu_channel v) c then Some (u :: l)
      else (fun l => v :: l) <$> replace_limited c u l
  end.

Definition conflate_one (acc : ConflatingLimiter * list LiveUpdate) (update : LiveUpdate)
    : ConflatingLimiter * list LiveUpdate :=
  let '(self, conflated) := acc in
  if negb (lu_conflate update) then (self, conflated ++ [update])
  else
    match replace_limited (lu_channel update) update conflated with
    | None => (self, conflated ++ [update])
    | Some conflated => (suppress self (lu_channel update), conflated)
    end.

Definition conflate_candidates (self : ConflatingLimiter) (candidates : list LiveUpdate)
    : ConflatingLimiter * list LiveUpdate :=
  fold_left conflate_one candidates (self, []).

Definition set_tokens (self : ConflatingLimiter) (at_s : option float) (tokens : float) : ConflatingLimiter :=
  mkLimiter (config self) (suppressed self) (published self) (aggregate_sheds self) (_states self) at_s tokens.

Definition _refill_aggregate (self : ConflatingLimiter) (now limit : float) : ConflatingLimiter :=
  if feqb limit f0 then self
  else
    let capacity := fmax (f_of_Z 1) limit in
    let full := match _aggregate_at self with None => true | Some t => fltb now t end in
    let tokens :=
      match _aggregate_at self with
      | Some t => if full then capacity
                  else fmin capacity (fadd (_aggregate_tokens self) (fmul (fsub now t) limit))
      | None => capacity
      end in
    set_tokens self (Some now) tokens.

Definition publish_one (now : float) (self : ConflatingLimiter) (update : LiveUpdate) : ConflatingLimiter :=
  let c := lu_channel update in
  let states :=
    match od_get c (_states self) with
    | Some s => od_set c (mkChan (interval_s s) (pending s) (Some (fadd now (interval_s s))) (Some now)) (_states self)
    | None => _states self
    end in
  mkLimiter (config self) (suppressed self) (add_count (published self) c) (aggregate_sheds self) states
    (_aggregate_at self) (_aggregate_tokens self).

Definition shed_one (self : ConflatingLimiter) (update : LiveUpdate) : ConflatingLimiter :=
  mkLimiter (config self) (add_count (suppressed self) (lu_channel update)) (published self)
    (aggregate_sheds self + 1) (_states self) (_aggregate_at self) (_aggregate_tokens self).

(** How many of [n] candidates the budget lets through. *)
Definition available (self : ConflatingLimiter) (limit : float) (n : nat) : res nat :=
  if feqb limit f0 then Ok n
  else k ← f_trunc (fadd (_aggregate_tokens self) _EPSILON); Ok (Nat.min n (Z.to_nat (Z.max 0 k))).

Definition admit_updates (self : ConflatingLimiter) (candidates : list LiveUpdate) (now : float)
    : ConflatingLimiter * res (list LiveUpdate) :=
  match ranked self candidates with
  | Raise e => (self, Raise e)
  | Ok candidates =>
      let limit := total_max_hz (defaults (config self)) in
      let self := _refill_aggregate self now limit in
      match available self limit (length candidates) with
      | Raise e => (self, Raise e)
      | Ok n =>
          let accepted := take n candidates in
          let self := fold_left (publish_one now) accepted self in
          let self := fold_left shed_one (drop n candidates) self in
          let tokens := _aggregate_tokens self in
          (if feqb limit f0 then self
           else set_tokens self (_aggregate_at self) (fsub tokens (f_of_Z (Z.of_nat (length accepted)))), Ok accepted)
      end
  end.

(** * One message, as the service feeds it *)

Definition offer_all (self : ConflatingLimiter) (samples : list DecodedSample) (now : float)
    : ConflatingLimiter * list LiveUpdate :=
  fold_left (fun acc sample => let '(self, out) := limiter_offer acc.1 sample now in (self, acc.2 ++ out))
    samples (self, []).

Definition handle_batch (self : ConflatingLimiter) (samples : list DecodedSample) (now : float)
    : ConflatingLimiter * res (list LiveUpdate) :=
  let '(self, offered) := offer_all self samples now in
  match limiter_drain self now with
  | (self, Raise e) => (self, Raise e)
  | (self, Ok drained) =>
      let '(self, candidates) := conflate_candidates self (offered ++ drained) in
      admit_updates self candidates now
  end.

(** * Counting

    [live] is what has become of the updates offered to a channel: published,
    suppressed, or waiting. *)

Definition cnt (c : string) (l : list LiveUpdate) : Z :=
  Z.of_nat (length (filter (fun u => lu_channel u = c) l)).
Definition waiting (s : _ChannelState) : Z := match pending s with Some _ => 1 | None => 0 end.
Definition pend (self : ConflatingLimiter) (c : string) : Z :=
  match od_get c (_states self) with Some s => waiting s | None => 0 end.
Definition live (self : ConflatingLimiter) (c : string) : Z :=
  count_of (published self) c + count_of (suppressed self) c + pend self c.
Definition one (c c' : string) : Z := if decide (c = c') then 1 else 0.

Lemma count_add m c c' : count_of (add_count m c) c' = count_of m c' + one c c'.
Proof.
  unfold count_of at 1, add_count, one. case_decide as E.
  - subst. by rewrite lookup_insert_eq.
  - rewrite lookup_insert_ne by done. fold (count_of m c'). lia.
Qed.

Lemma cnt_app c l l' : cnt c (l ++ l') = cnt c l + cnt c l'.
Proof. unfold cnt; rewrite filter_app, length_app; lia. Qed.
Lemma cnt_cons c u l : cnt c (u :: l) = one (lu_channel u) c + cnt c l.
Proof. unfold cnt, one; rewrite filter_cons. case_decide; simpl; lia. Qed.
Lemma cnt_nil c : cnt c [] = 0.
Proof. done. Qed.
Lemma cnt_perm c l l' : l ≡ₚ l' -> cnt c l = cnt c l'.
Proof. intros H; unfold cnt; by rewrite H. Qed.

Lemma pend_set self c s c' :
  pend (set_chan self c s) c' = if decide (c = c') then waiting s else pend self c'.
Proof.
  unfold pend, set_chan; simpl. case_decide as E; [subst; by rewrite od_get_set_eq|].
  by rewrite od_get_set_ne by done.
Qed.

Lemma live_suppress self c c' : live (suppress self c) c' = live self c' + one c c'.
Proof. unfold live; simpl. rewrite count_add. unfold pend; simpl; lia. Qed.

Lemma live_set self c s c' :
  live (set_chan self c s) c' = live self c' + (if decide (c = c') then waiting s - pend self c else 0).
Proof.
  unfold live. rewrite pend_set. simpl. case_decide; subst; lia.
Qed.

(** * The table's invariant *)

(** Every selected rate is a number that is not negative (the field's type). *)
Definition config_ok (cfg : LiveConfig) : Prop :=
  forall c hz, max_hz_for cfg c = Some hz -> fleb f0 hz = true.

Definition chan_wf (cfg : LiveConfig) (c : string) (s : _ChannelState) : Prop :=
  exists hz, max_hz_for cfg c = Some hz /\
    (if feqb hz f0 then pending s = None else interval_s s = fdiv_ieee (f_of_Z 1) hz) /\
    (forall u, pending s = Some u -> lu_channel u = c /\ lu_conflate u = true /\ is_Some (next_due s)).

Definition limiter_wf (self : ConflatingLimiter) : Prop :=
  od_wf (_states self) /\
  forall c s, od_get c (_states self) = Some s -> chan_wf (config self) c s.

Lemma set_chan_wf self c s :
  limiter_wf self -> chan_wf (config self) c s -> limiter_wf (set_chan self c s).
Proof.
  intros [Hnd Hall] Hs; split; simpl; [by apply od_set_wf|].
  intros c' s'. destruct (decide (c' = c)) as [->|Hne].
  - rewrite od_get_set_eq. by intros [= <-].
  - rewrite od_get_set_ne by done. apply Hall.
Qed.

Lemma interval_self hz :
  fleb f0 hz = true -> feqb hz f0 = false -> feqb (fdiv_ieee (f_of_Z 1) hz) (fdiv_ieee (f_of_Z 1) hz) = true.
Proof.
  intros H0 Hz. assert (is_nan (fdiv_ieee (f_of_Z 1) hz) = false).
  { apply fdiv_numeric; [done| exact (proj2 (fleb_nan_l _ _ H0)) | done]. }
  forder.
Qed.

(** A zero interval (an infinite rate) is the one the table starts with. *)
Lemma interval_zero hz :
  fleb f0 hz = true -> feqb hz f0 = false -> feqb f0 (fdiv_ieee (f_of_Z 1) hz) = true ->
  fdiv_ieee (f_of_Z 1) hz = f0.
Proof.
  intros H0 Hz He. pose proof (interval_self hz H0 Hz) as Hn.
  destruct (fdiv_sign (f_of_Z 1) hz) as [Hs|Hs]; [exfalso; forder|].
  assert (Hh : fsign hz = false) by (by destruct hz as [[]|[]| |[] ? ?]).
  rewrite Hh in Hs. by destruct (fdiv_ieee (f_of_Z 1) hz) as [[]|[]| |[] ? ?].
Qed.

Definition chan (self : ConflatingLimiter) (c : string) : option _ChannelState := od_get c (_states self).
Definition pending_of (self : ConflatingLimiter) (c : string) : option LiveUpdate := chan self c ≫= pending.
Definition next_of (self : ConflatingLimiter) (c : string) : option float := chan self c ≫= next_due.

(** Whether the channel's interval is over at [now]. *)
Definition is_due (self : ConflatingLimiter) (c : string) (now : float) : bool :=
  match next_of self c with None => true | Some next => due now next end.

Lemma pend_of self c : pend self c = match pending_of self c with Some _ => 1 | None => 0 end.
Proof. unfold pend, pending_of, chan, waiting. by destruct (od_get c _). Qed.

Lemma chan_set self c s c' : chan (set_chan self c s) c' = if decide (c = c') then Some s else chan self c'.
Proof.
  unfold chan, set_chan; simpl. case_decide; [subst; apply od_get_set_eq | by apply od_get_set_ne].
Qed.

(** The update a sample makes, when its channel is selected. *)
Definition selected (cfg : LiveConfig) (sample : DecodedSample) : option LiveUpdate :=
  (fun hz => update_of hz sample) <$> max_hz_for cfg (c_name (ds_channel sample)).

(** What offering one sample does to the channels. *)
Record offered (self : ConflatingLimiter) (update : option LiveUpdate) (now : float)
    (self' : ConflatingLimiter) (out : list LiveUpdate) : Prop := {
  of_wf : limiter_wf self';
  of_config : config self' = config self;
  of_next : forall c, next_of self' c = next_of self c;
  of_known : forall c, is_Some (chan self c) -> is_Some (chan self' c);
  of_other : forall c, (match update with Some u => lu_channel u <> c | None => True end) ->
    pending_of self' c = pending_of self c;
  of_live : forall c, live self' c + cnt c out =
    live self c + match update with Some u => one (lu_channel u) c | None => 0 end;
  of_update : match update with
    | None => out = []
    | Some u =>
        is_Some (chan self' (lu_channel u)) /\
        if lu_conflate u then
          if is_due self (lu_channel u) now then out = [u] /\ pending_of self' (lu_channel u) = None
          else out = [] /\ pending_of self' (lu_channel u) = Some u
        else out = [u]
    end
}.

Lemma live_supersede self s c c' :
  live (supersede self s c) c' = live self c' + (if decide (c = c') then waiting s else 0).
Proof.
  unfold supersede, waiting. destruct (pending s); [rewrite live_suppress; unfold one|]; case_decide; lia.
Qed.

Lemma supersede_states self s c :
  _states (supersede self s c) = _states self /\ config (supersede self s c) = config self.
Proof. unfold supersede; by destruct (pending s). Qed.

(** Putting a state with the same schedule in place of the channel's own. *)
Lemma set_offered self update now c s out :
  limiter_wf self -> chan_wf (config self) c s ->
  lu_channel update = c -> next_due s = next_of self c ->
  (if lu_conflate update then
     if is_due self c now then out = [update] /\ pending s = None else out = [] /\ pending s = Some update
   else out = [update] /\ pending s = pending_of self c) ->
  forall base, _states base = _states self -> config base = config self ->
  (forall c', live base c' = live self c' +
     (if decide (c = c') then if lu_conflate update then match pending_of self c with Some _ => 1 | None => 0 end else 0 else 0)) ->
  offered self (Some update) now (set_chan base c s) out.
Proof.
  intros Hwf Hs Hc Hn Hout base Hst Hcf Hlive.
  assert (Hb : limiter_wf base) by (unfold limiter_wf; rewrite Hst, Hcf; exact Hwf).
  assert (Hch : forall c', chan (set_chan base c s) c' = if decide (c = c') then Some s else chan self c')
    by (intros c'; rewrite chan_set; unfold chan; by rewrite Hst).
  assert (Hpb : forall c', pending_of (set_chan base c s) c' = if decide (c = c') then pending s else pending_of self c')
    by (intros c'; unfold pending_of; rewrite Hch; by case_decide).
  split; [by apply set_chan_wf; [|rewrite Hcf] | done | | | | | ].
  - intros c'. unfold next_of at 1. rewrite Hch. case_decide as E; [|done]. subst c'; simpl. by rewrite Hn.
  - intros c'. rewrite Hch. by case_decide.
  - intros c' Hne. rewrite Hpb, decide_False by congruence. done.
  - intros c'. rewrite live_set, Hlive. unfold pend. rewrite Hst. fold (pend self c). rewrite pend_of, Hc.
    unfold waiting, one. destruct (decide (c = c')) as [<-|Hne].
    + destruct (lu_conflate update); [destruct (is_due self c now)|]; destruct Hout as [-> ->];
        rewrite ?cnt_cons, ?cnt_nil, ?Hc; unfold one; rewrite ?decide_True by done;
        repeat case_match; lia.
    + destruct (lu_conflate update); [destruct (is_due self c now)|]; destruct Hout as [-> _];
        rewrite ?cnt_cons, ?cnt_nil, ?Hc; unfold one; rewrite ?decide_False by done; lia.
  - rewrite Hc, Hch, Hpb, !decide_True by done. split; [done|].
    destruct (lu_conflate update); [by destruct (is_due self c now) | by destruct Hout].
Qed.

Lemma set_chan_again self c st st' s :
  set_chan (supersede (set_chan (set_chan self c st) c st') st' c) c s = set_chan (supersede self st' c) c s.
Proof.
  unfold set_chan, set_states, supersede, suppress. destruct (pending st'); simpl; f_equal; by rewrite !od_set_set.
Qed.

Lemma offer_spec self sample now :
  config_ok (config self) -> limiter_wf self ->
  offered self (selected (config self) sample) now (limiter_offer self sample now).1 (limiter_offer self sample now).2.
Proof.
  intros Hcfg Hwf. unfold limiter_offer, selected. set (c := c_name (ds_channel sample)).
  destruct (max_hz_for (config self) c) as [hz|] eqn:Ehz; cbn -[fdiv_ieee f_of_Z].
  2: { by split. }
  pose proof (Hcfg c hz Ehz) as Hhz.
  set (update := update_of hz sample). assert (Hu : lu_channel update = c) by done.
  set (st := match od_get c (_states self) with Some s => s | None => fresh_chan f0 end).
  assert (Hnext : next_due st = next_of self c) by (unfold st, next_of, chan; by destruct (od_get c _)).
  assert (Hpend : pending st = pending_of self c) by (unfold st, pending_of, chan; by destruct (od_get c _)).
  assert (Hold : od_get c (_states self) = None \/ chan_wf (config self) c st).
  { unfold st. destruct (od_get c (_states self)) as [s|] eqn:E; [right; by apply Hwf | by left]. }
  destruct (feqb hz f0) eqn:Ez; cbn -[fdiv_ieee f_of_Z].
  - (* an unlimited channel *)
    assert (Hcw : chan_wf (config self) c st).
    { destruct Hold as [Hold|Hold]; [|done]. unfold st; rewrite Hold. exists hz; rewrite Ez. by split_and!. }
    apply (set_offered self update now c st [update]); try done.
    + unfold update, update_of; simpl; rewrite Ez. by split.
    + intros c'. unfold update, update_of; simpl; rewrite Ez; simpl. case_decide; lia.
  - (* a limited one *)
    set (interval := fdiv_ieee (f_of_Z 1) hz).
    set (st' := if feqb (interval_s st) interval then st else fresh_chan interval).
    assert (Hst' : interval_s st' = interval /\ pending st' = pending st /\ next_due st' = next_due st).
    { unfold st'. destruct Hold as [Hold|(hz' & Hhz' & Hi & _)].
      - unfold st. rewrite Hold. simpl. destruct (feqb f0 interval) eqn:E; [|done].
        split_and!; try done. symmetry; by apply interval_zero.
      - rewrite Ehz in Hhz'. injection Hhz' as <-. rewrite Ez in Hi. rewrite Hi.
        unfold interval. by rewrite interval_self. }
    destruct Hst' as (Hi' & Hp' & Hn'). rewrite Hpend in Hp'. rewrite Hnext in Hn'.
    clearbody st'.
    assert (Hcw : forall p, (forall u, p = Some u -> lu_channel u = c /\ lu_conflate u = true /\ is_Some (next_due st')) ->
              chan_wf (config self) c (with_pending st' p)).
    { intros p Hp. exists hz; rewrite Ez. by split_and!. }
    assert (Hcu : lu_conflate update = true) by (unfold update, update_of; simpl; by rewrite Ez).
    assert (Hlive : forall c', live (supersede self st' c) c' = live self c' +
      (if decide (c = c') then if lu_conflate update then match pending_of self c with Some _ => 1 | None => 0 end else 0 else 0)).
    { intros c'. rewrite live_supersede, Hcu. unfold waiting. rewrite Hp'. by case_decide. }
    destruct (supersede_states self st' c) as [Hss Hsc].
    destruct (is_due self c now) eqn:Edue; pose proof Edue as Edue'; unfold is_due in Edue';
      rewrite Hn', Edue'; cbn [fst snd]; rewrite set_chan_again; apply (set_offered self update now c); try done.
    + by apply Hcw.
    + by rewrite Hcu, Edue.
    + apply Hcw. intros u [= <-]. split_and!; [done..|]. rewrite Hn'. by destruct (next_of self c).
    + by rewrite Hcu, Edue.
Qed.

(** The updates a list of samples makes. *)
Definition updates (cfg : LiveConfig) (samples : list DecodedSample) : list LiveUpdate :=
  omap (selected cfg) samples.
Definition of_channel (c : string) (l : list LiveUpdate) : list LiveUpdate := filter (fun u => lu_channel u = c) l.

Definition limited (cfg : LiveConfig) (c : string) : Prop :=
  exists hz, max_hz_for cfg c = Some hz /\ feqb hz f0 = false.

Definition classed (cfg : LiveConfig) (l : list LiveUpdate) : Prop :=
  Forall (fun u => lu_conflate u = true <-> limited cfg (lu_channel u)) l.

Lemma selected_classed cfg sample u :
  selected cfg sample = Some u -> lu_conflate u = true <-> limited cfg (lu_channel u).
Proof.
  unfold selected, limited. destruct (max_hz_for cfg _) as [hz|] eqn:E; [|done]. intros [= <-]; simpl.
  rewrite negb_true_iff. split; [intros; by exists hz | intros (hz' & H & ?); congruence].
Qed.

(** Among a channel's limited updates, the one that is left. *)
Definition newest (old : option LiveUpdate) (l : list LiveUpdate) : option LiveUpdate :=
  match last l with Some u => Some u | None => old end.

Lemma newest_snoc old l u : newest old (l ++ [u]) = Some u.
Proof. unfold newest. by rewrite last_snoc. Qed.

(** What offering a list of samples does. *)
Record offered_all (self : ConflatingLimiter) (ups : list LiveUpdate) (now : float)
    (self' : ConflatingLimiter) (out : list LiveUpdate) : Prop := {
  oa_wf : limiter_wf self';
  oa_config : config self' = config self;
  oa_next : forall c, next_of self' c = next_of self c;
  oa_known : Forall (fun u => is_Some (chan self' (lu_channel u))) out;
  oa_classed : classed (config self) out;
  oa_live : forall c, live self' c + cnt c out = live self c + cnt c ups;
  oa_limited : forall c, limited (config self) c ->
    if is_due self c now
    then of_channel c out = of_channel c ups /\
         pending_of self' c = match of_channel c ups with [] => pending_of self c | _ => None end
    else of_channel c out = [] /\ pending_of self' c = newest (pending_of self c) (of_channel c ups)
}.

Lemma of_channel_app c l l' : of_channel c (l ++ l') = of_channel c l ++ of_channel c l'.
Proof. apply filter_app. Qed.
Lemma of_channel_one c u : of_channel c [u] = if decide (lu_channel u = c) then [u] else [].
Proof. done. Qed.

Lemma cnt_one c u : cnt c [u] = one (lu_channel u) c.
Proof. rewrite cnt_cons, cnt_nil; lia. Qed.

Lemma offered_snoc self ups now self1 out self2 out2 u :
  (forall u', u = Some u' -> lu_conflate u' = true <-> limited (config self) (lu_channel u')) ->
  offered_all self ups now self1 out -> offered self1 u now self2 out2 ->
  offered_all self (ups ++ opt_list u) now self2 (out ++ out2).
Proof.
  intros Hcl [H1 H2 H3 H4 H5 H6 H7] [G1 G2 G3 G4 G5 G6 G7]. split; [done | by rewrite G2 | | | | |].
  - intros c. by rewrite G3, H3.
  - apply Forall_app; split; [eapply Forall_impl; [exact H4|]; auto|].
    destruct u as [u|]; [|by subst]. destruct G7 as [Hk G7].
    assert (out2 = [u] \/ out2 = []) as [-> | ->] by (repeat case_match; naive_solver); by repeat constructor.
  - apply Forall_app; split; [done|]. destruct u as [u|]; [|by subst]. destruct G7 as [Hk G7].
    assert (out2 = [u] \/ out2 = []) as [-> | ->] by (repeat case_match; naive_solver); [|constructor].
    by constructor; [apply Hcl | constructor].
  - intros c. rewrite !cnt_app. specialize (H6 c). specialize (G6 c).
    destruct u as [u|]; simpl; rewrite ?cnt_one, ?cnt_nil in *; lia.
  - intros c Hc. specialize (H7 c Hc). rewrite !of_channel_app. specialize (G5 c).
    destruct u as [u|]; simpl.
    2: { subst out2. rewrite (G5 I). change (of_channel c []) with (@nil LiveUpdate). by rewrite !app_nil_r. }
    rewrite of_channel_one. destruct G7 as [Hk G7]. case_decide as Eu.
    + subst c. rewrite (proj2 (Hcl u eq_refl) Hc) in G7. unfold is_due in G7, H7 |- *. rewrite H3 in G7.
      destruct (match next_of self (lu_channel u) with Some _ => _ | None => _ end); destruct G7 as [-> Gp], H7 as [Ho Hp].
      * rewrite of_channel_one, decide_True, Ho, Gp by done. split; [done|].
        by destruct (of_channel (lu_channel u) ups).
      * rewrite Ho, Gp, newest_snoc. done.
    + rewrite (G5 Eu), !app_nil_r.
      assert (Hn : of_channel c out2 = []).
      { assert (out2 = [u] \/ out2 = []) as [-> | ->] by (repeat case_match; naive_solver); [|done].
        by rewrite of_channel_one, decide_False. }
      by rewrite Hn, app_nil_r.
Qed.

Lemma offer_all_spec self samples now :
  config_ok (config self) -> limiter_wf self ->
  offered_all self (updates (config self) samples) now (offer_all self samples now).1 (offer_all self samples now).2.
Proof.
  intros Hcfg Hwf; unfold offer_all. induction samples as [|sample samples IH] using rev_ind; simpl.
  - split; simpl; try done; try constructor; try lia. intros c _. by destruct (is_due self c now).
  - rewrite fold_left_app; simpl. set (acc := fold_left _ samples _) in *.
    pose proof (oa_config _ _ _ _ _ IH) as Hcf.
    pose proof (offer_spec acc.1 sample now ltac:(by rewrite Hcf) (oa_wf _ _ _ _ _ IH)) as Hone.
    rewrite Hcf in Hone. unfold updates. rewrite omap_app.
    replace (omap (selected (config self)) [sample]) with (opt_list (selected (config self) sample))
      by (unfold omap; cbn [list_omap]; by destruct (selected _ sample)).
    destruct (limiter_offer acc.1 sample now) as [s2 o2]. simpl in *.
    eapply offered_snoc; [|exact IH | exact Hone]. intros u Hu. by eapply selected_classed.
Qed.

(** * Draining *)

Lemma drain_chan_key now kv : (drain_chan now kv).1.1 = kv.1.
Proof. destruct kv as [c s]; simpl. by repeat case_match. Qed.

Lemma drain_list now l c :
  od_wf l -> (forall c s u, (c, s) ∈ l -> pending s = Some u -> lu_channel u = c) ->
  od_get c (map fst (map (drain_chan now) l)) = (fun s => (drain_chan now (c, s)).1.2) <$> od_get c l /\
  of_channel c (concat (map snd (map (drain_chan now) l))) =
    match od_get c l with Some s => (drain_chan now (c, s)).2 | None => [] end.
Proof.
  unfold od_wf, od_keys. induction l as [|[c' s'] l IH]; [done|]. intros Hnd Hch.
  apply NoDup_cons in Hnd as [Hni Hnd]. cbn [map concat]. rewrite of_channel_app.
  destruct IH as [IH1 IH2]; [done | intros; eapply Hch; [by right|done] |].
  assert (Hown : of_channel c (drain_chan now (c', s')).2 = if decide (c = c') then (drain_chan now (c', s')).2 else []).
  { simpl. destruct (pending s') as [u|] eqn:Ep; [|by case_decide]. destruct (next_due s') as [n|]; [|by case_decide].
    destruct (due now n); [|by case_decide]. assert (lu_channel u = c') by (eapply Hch; [by left|done]).
    simpl. rewrite of_channel_one. repeat case_decide; congruence. }
  rewrite Hown, IH2. cbn [od_get]. pose proof (drain_chan_key now (c', s')) as Hk.
  destruct (drain_chan now (c', s')) as [[k' s''] out] eqn:Ed. simpl in Hk; subst k'. cbn [fst snd od_get].
  case_decide as E; [subst c'|by rewrite IH1].
  rewrite (proj2 (od_get_None c l) Hni). cbn [fmap option_fmap option_map]. rewrite Ed, app_nil_r. done.
Qed.

Lemma drain_chan_wf cfg now c s : chan_wf cfg c s -> chan_wf cfg c (drain_chan now (c, s)).1.2.
Proof.
  intros Hs. assert (Hn : chan_wf cfg c (with_pending s None)).
  { destruct Hs as (hz & H1 & H2 & H3). exists hz; split_and!; [done| |done]. by destruct (feqb hz f0). }
  unfold drain_chan. destruct (pending s); [|done]. destruct (next_due s); [|done]. by destruct (due now _).
Qed.

(** What draining does, before the candidates are ranked. *)
Lemma drain_spec self now :
  limiter_wf self ->
  let self' := (limiter_drain self now).1 in
  let out := concat (map snd (map (drain_chan now) (_states self))) in
  limiter_wf self' /\ config self' = config self /\
  (forall c, next_of self' c = next_of self c) /\
  (forall c, is_Some (chan self c) -> is_Some (chan self' c)) /\
  (forall c, of_channel c out =
     if is_due self c now then opt_list (pending_of self c) else []) /\
  (forall c, pending_of self' c = if is_due self c now then None else pending_of self c) /\
  (forall c, live self' c + cnt c out = live self c).
Proof.
  intros [Hnd Hall] self' out.
  assert (Hin : forall c s u, (c, s) ∈ _states self -> pending s = Some u -> lu_channel u = c).
  { intros c s u Hs Hu. apply (od_In_get c s) in Hs; [|done]. destruct (Hall c s Hs) as (hz & _ & _ & H).
    by destruct (H u Hu). }
  assert (Hkeys : od_keys (_states self') = od_keys (_states self)).
  { unfold self', od_keys, limiter_drain, set_states; cbn [fst _states]. clear. unfold fmap.
    induction (_states self) as [|kv l IH]; [done|]; cbn [map list_fmap]. by rewrite drain_chan_key, IH. }
  assert (Hd : forall c, chan self' c = (fun s => (drain_chan now (c, s)).1.2) <$> chan self c /\
            of_channel c out = match chan self c with Some s => (drain_chan now (c, s)).2 | None => [] end)
    by (intros c; by apply drain_list).
  assert (Hone : forall c, of_channel c out = if is_due self c now then opt_list (pending_of self c) else []).
  { intros c. rewrite (proj2 (Hd c)). unfold is_due, next_of, pending_of. destruct (chan self c) as [s|] eqn:E; [|done].
    simpl. destruct (Hall c s E) as (hz & _ & _ & Hp). destruct (pending s) as [u|]; simpl.
    - destruct (Hp u eq_refl) as (_ & _ & [n ->]). by destruct (due now n).
    - destruct (next_due s) as [n|]; [by destruct (due now n) | done]. }
  assert (Hpend : forall c, pending_of self' c = if is_due self c now then None else pending_of self c).
  { intros c. unfold pending_of at 1. rewrite (proj1 (Hd c)). unfold is_due, next_of, pending_of.
    destruct (chan self c) as [s|] eqn:E; [|done].
    simpl. destruct (Hall c s E) as (hz & _ & _ & Hp). destruct (pending s) as [u|] eqn:Eu; simpl.
    - destruct (Hp u eq_refl) as (_ & _ & [n ->]). by destruct (due now n); rewrite ?Eu.
    - rewrite Eu. by repeat case_match. }
  split_and!; [split | done | | | done | done |].
  - unfold od_wf. by rewrite Hkeys.
  - intros c s Hs. change (chan self' c = Some s) in Hs. rewrite (proj1 (Hd c)) in Hs.
    destruct (chan self c) as [s0|] eqn:E; [|done]. injection Hs as <-.
    by apply drain_chan_wf, Hall.
  - intros c. unfold next_of. rewrite (proj1 (Hd c)). destruct (chan self c) as [s|]; [|done]. simpl.
    destruct (pending s); [|done]. destruct (next_due s) as [n|] eqn:En; [destruct (due now n)|]; simpl; by rewrite ?En.
  - intros c [s Hs]. rewrite (proj1 (Hd c)), Hs. eauto.
  - intros c. unfold live. rewrite !pend_of, Hpend. unfold cnt. fold (of_channel c out). rewrite Hone. simpl.
    destruct (is_due self c now); [destruct (pending_of self c)|]; simpl; lia.
Qed.

(** * Ranking only reorders *)

Lemma ranked_ok self l :
  Forall (fun u => is_Some (chan self (lu_channel u))) l -> exists l', ranked self l = Ok l' /\ l' ≡ₚ l.
Proof.
  intros Hk. unfold ranked.
  assert (exists keyed, res_map (fun u => t ← _last_published self u; Ok ((t, lu_channel u), u)) l = Ok keyed /\
            map snd keyed = l) as (keyed & -> & <-).
  { induction Hk as [|u l [s Hs] _ IH]; [by exists []|]. destruct IH as (k & Hk & Hl).
    assert (exists t, _last_published self u = Ok t) as [t Ht]
      by (unfold _last_published, chan in *; rewrite Hs; eauto).
    cbn [res_map]. rewrite Ht.
    cbn [mbind res_bind]. rewrite Hk. cbn [mbind res_bind]. eexists; split; [done|]. simpl. by rewrite Hl. }
  eexists; split; [done|]. change (map snd) with (fmap (M := list) (@snd (float * string) LiveUpdate)). by rewrite sort_by_perm.
Qed.

Lemma of_channel_perm c l l' : l ≡ₚ l' -> of_channel c l ≡ₚ of_channel c l'.
Proof. intros H; unfold of_channel; by rewrite H. Qed.

(** * Conflating *)

Lemma replace_limited_spec c u l :
  match replace_limited c u l with
  | Some l' => exists a v b, l = a ++ v :: b /\ l' = a ++ u :: b /\ lu_conflate v = true /\ lu_channel v = c
  | None => Forall (fun v => ~ (lu_conflate v = true /\ lu_channel v = c)) l
  end.
Proof.
  induction l as [|v l IH]; simpl; [constructor|].
  destruct (lu_conflate v && String.eqb (lu_channel v) c) eqn:E.
  - apply andb_true_iff in E as [E1 E2%String.eqb_eq]. by exists [], v, l.
  - assert (Hv : ~ (lu_conflate v = true /\ lu_channel v = c)).
    { intros [H1 H2]. rewrite H1, H2, String.eqb_refl in E. done. }
    destruct (replace_limited c u l) as [l'|]; simpl; [|by constructor].
    destruct IH as (a & v' & b & -> & -> & H). by exists (v :: a), v', b.
Qed.

(** What conflating does to the candidates. *)
Record conflated (cfg : LiveConfig) (self : ConflatingLimiter) (l : list LiveUpdate)
    (self' : ConflatingLimiter) (out : list LiveUpdate) : Prop := {
  cf_config : config self' = config self;
  cf_states : _states self' = _states self;
  cf_sub : forall u, u ∈ out -> u ∈ l;
  cf_live : forall c, live self' c + cnt c out = live self c + cnt c l;
  cf_last : forall c, limited cfg c -> of_channel c out = opt_list (last (of_channel c l))
}.

Lemma conflated_one cfg self l self1 out u :
  classed cfg (l ++ [u]) -> conflated cfg self l self1 out ->
  conflated cfg self (l ++ [u]) (conflate_one (self1, out) u).1 (conflate_one (self1, out) u).2.
Proof.
  intros [Hl Hu]%Forall_app [H1 H2 H3 H4 H5]. apply Forall_inv in Hu.
  assert (Hlast : forall c, last (of_channel c (l ++ [u])) =
            if decide (lu_channel u = c) then Some u else last (of_channel c l)).
  { intros c. rewrite of_channel_app, of_channel_one. case_decide; [by rewrite last_snoc | by rewrite app_nil_r]. }
  unfold conflate_one. destruct (lu_conflate u) eqn:Ec; cbn [negb].
  - pose proof (replace_limited_spec (lu_channel u) u out) as Hr.
    destruct (replace_limited _ u out) as [out'|].
    + destruct Hr as (a & v & b & -> & -> & Hv & Hc). split; cbn [fst snd]; [done | done | | |].
      * intros w. rewrite !elem_of_app, !elem_of_cons. specialize (H3 w). rewrite elem_of_app, elem_of_cons in H3. naive_solver.
      * intros c. specialize (H4 c). rewrite live_suppress. rewrite !cnt_app, !cnt_cons in *. rewrite cnt_nil.
        rewrite Hc in H4. lia.
      * intros c Hlim. rewrite Hlast. specialize (H5 c Hlim). rewrite !of_channel_app in *.
        change (v :: b) with ([v] ++ b) in H5. change (u :: b) with ([u] ++ b). rewrite of_channel_app, of_channel_one in *.
        rewrite Hc in H5. case_decide; [|done].
        destruct (last (of_channel c l)) as [w|]; simpl in H5; [|by destruct (of_channel c a)].
        destruct (of_channel c a) as [|? [|]]; simpl in H5; try done. by injection H5 as _ ->.
    + split; cbn [fst snd]; [done | done | | |].
      * intros w. rewrite !elem_of_app. specialize (H3 w). tauto.
      * intros c. rewrite !cnt_app. specialize (H4 c). lia.
      * intros c Hlim. rewrite Hlast, of_channel_app, of_channel_one. specialize (H5 c Hlim). case_decide as E; [|by rewrite app_nil_r].
        rewrite H5. destruct (last (of_channel c l)) as [w|] eqn:El; [|done]. exfalso.
        assert (Hw : w ∈ of_channel c out) by (rewrite H5; left). apply list_elem_of_filter in Hw as [Hwc Hw].
        rewrite Forall_forall in Hr. apply (Hr w Hw). split; [|congruence].
        assert (Hwl : w ∈ l) by auto. unfold classed in Hl. rewrite Forall_forall in Hl. apply (Hl w Hwl). by rewrite Hwc.
  - split; cbn [fst snd]; [done | done | | |].
    + intros w. rewrite !elem_of_app. specialize (H3 w). tauto.
    + intros c. rewrite !cnt_app. specialize (H4 c). lia.
    + intros c Hlim. rewrite Hlast, of_channel_app, of_channel_one. specialize (H5 c Hlim).
      case_decide as E; [|by rewrite app_nil_r]. subst c. by apply Hu in Hlim.
Qed.

Lemma conflate_spec cfg self l :
  classed cfg l -> conflated cfg self l (conflate_candidates self l).1 (conflate_candidates self l).2.
Proof.
  unfold conflate_candidates. induction l as [|u l IH] using rev_ind; intros Hcl.
  - split; simpl; try done; intros; lia.
  - rewrite fold_left_app; cbn [fold_left]. apply Forall_app in Hcl as Hcl'. destruct Hcl' as [Hl _].
    specialize (IH Hl). destruct (fold_left _ l _) as [self1 out]. by apply conflated_one.
Qed.

(** * Admission *)

Definition interval_of (self : ConflatingLimiter) (c : string) : option float := interval_s <$> chan self c.

(** What publishing a list of updates does to the table and the counters. *)
Record published_all (now : float) (self : ConflatingLimiter) (l : list LiveUpdate) (self' : ConflatingLimiter)
    : Prop := {
  pa_wf : limiter_wf self';
  pa_config : config self' = config self;
  pa_pending : forall c, pending_of self' c = pending_of self c;
  pa_interval : forall c, interval_of self' c = interval_of self c;
  pa_next : forall c, next_of self' c =
    match of_channel c l with [] => next_of self c | _ => fadd now <$> interval_of self c end;
  pa_live : forall c, live self' c = live self c + cnt c l
}.

Lemma chan_publish now self u c :
  chan (publish_one now self u) c =
  if decide (lu_channel u = c)
  then (fun s => mkChan (interval_s s) (pending s) (Some (fadd now (interval_s s))) (Some now)) <$> chan self c
  else chan self c.
Proof.
  unfold chan, publish_one; simpl. destruct (od_get (lu_channel u) (_states self)) as [s|] eqn:E.
  - case_decide as Ec; [subst c; by rewrite od_get_set_eq, E | by rewrite od_get_set_ne].
  - case_decide as Ec; [subst c; by rewrite E | done].
Qed.

Lemma publish_all now self l : limiter_wf self -> published_all now self l (fold_left (publish_one now) l self).
Proof.
  intros Hwf. induction l as [|u l IH] using rev_ind; [split; simpl; try done; intros; rewrite cnt_nil; lia|].
  rewrite fold_left_app; cbn [fold_left]. set (mid := fold_left _ l self) in *. destruct IH as [H1 H2 H3 H4 H5 H6].
  pose proof (chan_publish now mid u) as Hch. split.
  - destruct H1 as [Hnd Hall]. split.
    + unfold publish_one; simpl. destruct (od_get _ _); [by apply od_set_wf | done].
    + intros c s Hs. change (chan (publish_one now mid u) c = Some s) in Hs. rewrite Hch in Hs.
      case_decide; [|by apply Hall]. destruct (chan mid c) as [s0|] eqn:E; [|done]. injection Hs as <-.
      destruct (Hall c s0 E) as (hz & G1 & G2 & G3). exists hz; split_and!; [done | done |].
      intros v Hv. by destruct (G3 v Hv) as (? & ? & _).
  - by simpl.
  - intros c. rewrite <- H3. unfold pending_of. rewrite Hch. case_decide; [|done]. by destruct (chan mid c).
  - intros c. rewrite <- H4. unfold interval_of. rewrite Hch. case_decide; [|done]. by destruct (chan mid c).
  - intros c. rewrite of_channel_app, of_channel_one. unfold next_of at 1. rewrite Hch. case_decide.
    + rewrite <- H4. unfold interval_of. destruct (chan mid c); by destruct (of_channel c l).
    + rewrite app_nil_r. fold (next_of mid c). apply H5.
  - intros c. unfold live. cbn [publish_one published suppressed]. rewrite count_add, cnt_app, cnt_one.
    replace (pend (publish_one now mid u) c) with (pend mid c); [unfold live in H6; specialize (H6 c); lia|].
    rewrite !pend_of. replace (pending_of (publish_one now mid u) c) with (pending_of mid c); [done|].
    unfold pending_of. rewrite Hch. case_decide; [|done]. by destruct (chan mid c).
Qed.

Lemma shed_all self l :
  let self' := fold_left shed_one l self in
  config self' = config self /\ _states self' = _states self /\ forall c, live self' c = live self c + cnt c l.
Proof.
  simpl. revert self; induction l as [|u l IH]; intros self; simpl; [split_and!; [done..|]; intros; rewrite cnt_nil; lia|].
  destruct (IH (shed_one self u)) as (H1 & H2 & H3). rewrite H1, H2. split_and!; [done..|].
  intros c. rewrite H3, cnt_cons. unfold live; simpl. rewrite count_add. unfold pend; simpl. lia.
Qed.

(** The budget before the candidates are taken: no limit, or a token count
    the conversion to an integer accepts. *)
Definition tokens_at (self : ConflatingLimiter) (now : float) : float :=
  fadd (_aggregate_tokens (_refill_aggregate self now (total_max_hz (defaults (config self))))) _EPSILON.
Definition budget_ok (self : ConflatingLimiter) (now : float) : bool :=
  feqb (total_max_hz (defaults (config self))) f0 || is_finite (tokens_at self now).

(** At most this many updates leave in one admission. *)
Definition within_budget (self : ConflatingLimiter) (now : float) (n : nat) : Prop :=
  feqb (total_max_hz (defaults (config self))) f0 = true \/
  exists k, f_trunc (tokens_at self now) = Ok k /\ Z.of_nat n <= Z.max 0 k.

Lemma refill_same self now limit :
  config (_refill_aggregate self now limit) = config self /\
  _states (_refill_aggregate self now limit) = _states self /\
  forall c, live (_refill_aggregate self now limit) c = live self c.
Proof. unfold _refill_aggregate. by destruct (feqb limit f0). Qed.

(** What admission does with known candidates. *)
Record admitted (now : float) (self : ConflatingLimiter) (l : list LiveUpdate) (self' : ConflatingLimiter)
    (accepted : list LiveUpdate) : Prop := {
  ad_wf : limiter_wf self';
  ad_config : config self' = config self;
  ad_pending : forall c, pending_of self' c = pending_of self c;
  ad_next : forall c, next_of self' c =
    match of_channel c accepted with [] => next_of self c | _ => fadd now <$> interval_of self c end;
  ad_live : forall c, live self' c = live self c + cnt c l;
  ad_one : forall c u, of_channel c l = opt_list u -> of_channel c accepted = [] \/ of_channel c accepted = opt_list u;
  ad_budget : within_budget self now (length accepted)
}.

Lemma take_of_channel c n l l' u :
  l' ≡ₚ l -> of_channel c l = opt_list u -> of_channel c (take n l') = [] \/ of_channel c (take n l') = opt_list u.
Proof.
  intros Hp Hl. pose proof (of_channel_perm c _ _ Hp) as Hc. rewrite Hl in Hc.
  rewrite <- (take_drop n l') in Hc. rewrite of_channel_app in Hc.
  destruct u as [u|]; simpl in *.
  - apply Permutation_singleton_r in Hc. destruct (of_channel c (take n l')) as [|? [|]]; [by left | | done].
    right. by destruct (of_channel c (drop n l')); injection Hc as ->.
  - apply Permutation_nil_r in Hc. apply app_eq_nil in Hc as [-> _]. by left.
Qed.

Lemma available_ok self limit n :
  feqb limit f0 = true \/ is_finite (fadd (_aggregate_tokens self) _EPSILON) = true ->
  exists k, available self limit n = Ok k /\ (k <= n)%nat /\
    (feqb limit f0 = true \/
     exists z, f_trunc (fadd (_aggregate_tokens self) _EPSILON) = Ok z /\ Z.of_nat k <= Z.max 0 z).
Proof.
  unfold available. intros H. destruct (feqb limit f0); [exists n; auto|].
  destruct H as [H|H]; [done|]. unfold f_trunc, int_guard.
  destruct (fadd _ _); try done; simpl; eexists; (split; [done|]); (split; [lia|]); right; eexists; (split; [done|]); lia.
Qed.

Lemma admit_spec self l now :
  limiter_wf self -> budget_ok self now = true ->
  Forall (fun u => is_Some (chan self (lu_channel u))) l ->
  exists self' accepted, admit_updates self l now = (self', Ok accepted) /\ admitted now self l self' accepted.
Proof.
  intros Hwf Hb Hk. unfold admit_updates. destruct (ranked_ok self l Hk) as (l' & -> & Hp).
  set (limit := total_max_hz _). destruct (refill_same self now limit) as (R1 & R2 & R3).
  set (base := _refill_aggregate self now limit) in *.
  destruct (available_ok base limit (length l')) as (n & -> & Hn & Hlim).
  { unfold budget_ok, tokens_at in Hb. fold limit base in Hb. by apply orb_true_iff in Hb. }
  assert (Hwfb : limiter_wf base) by (unfold limiter_wf; rewrite R1, R2; exact Hwf).
  destruct (publish_all now base (take n l') Hwfb) as [P1 P2 P3 P4 P5 P6].
  set (mid := fold_left (publish_one now) (take n l') base) in *.
  destruct (shed_all mid (drop n l')) as (S1 & S2 & S3).
  set (shed := fold_left shed_one (drop n l') mid) in *.
  set (last := if feqb limit f0 then shed else _).
  assert (Hlast : config last = config shed /\ _states last = _states shed /\ forall c, live last c = live shed c)
    by (unfold last; by destruct (feqb limit f0)).
  destruct Hlast as (L1 & L2 & L3). exists last, (take n l'). split; [done|].
  assert (Hch : forall c, chan last c = chan mid c) by (intros c; unfold chan; by rewrite L2, S2).
  assert (Hbase : forall c, chan base c = chan self c) by (intros c; unfold chan; by rewrite R2).
  split.
  - unfold limiter_wf. rewrite L1, L2, S1, S2. exact P1.
  - by rewrite L1, S1, P2, R1.
  - intros c. unfold pending_of at 1. rewrite Hch. fold (pending_of mid c). rewrite P3. unfold pending_of. by rewrite Hbase.
  - intros c. unfold next_of at 1. rewrite Hch. fold (next_of mid c). rewrite P5. unfold next_of, interval_of. by rewrite Hbase.
  - intros c. rewrite L3, S3, P6, R3. rewrite (cnt_perm c l l') by done.
    rewrite <- (take_drop n l') at 3. rewrite cnt_app. lia.
  - intros c u Hu. by apply (take_of_channel c n l l').
  - unfold within_budget, tokens_at. fold limit base. destruct Hlim as [?|(z & Hz & Hle)]; [by left | right].
    exists z; split; [done|]. rewrite length_take. lia.
Qed.

(** * One message through the limiter *)

(** The budget is only touched by admission. *)
Definition same_budget (self self' : ConflatingLimiter) : Prop :=
  config self' = config self /\ _aggregate_at self' = _aggregate_at self /\
  _aggregate_tokens self' = _aggregate_tokens self.

Lemma same_budget_refl self : same_budget self self.
Proof. done. Qed.
Lemma same_budget_trans a b c : same_budget a b -> same_budget b c -> same_budget a c.
Proof. intros (? & ? & ?) (? & ? & ?); split_and!; congruence. Qed.

Lemma offer_budget self sample now : same_budget self (limiter_offer self sample now).1.
Proof. unfold limiter_offer, supersede. by repeat case_match. Qed.

Lemma offer_all_budget self samples now : same_budget self (offer_all self samples now).1.
Proof.
  unfold offer_all. induction samples as [|x l IH] using rev_ind; [done|].
  rewrite fold_left_app; cbn [fold_left]. set (acc := fold_left _ l _) in *.
  pose proof (offer_budget acc.1 x now) as H. destruct (limiter_offer acc.1 x now).
  by eapply same_budget_trans.
Qed.

Lemma conflate_budget self l : same_budget self (conflate_candidates self l).1.
Proof.
  unfold conflate_candidates. induction l as [|x l IH] using rev_ind; [done|].
  rewrite fold_left_app; cbn [fold_left]. destruct (fold_left _ l _) as [s out]. simpl in IH.
  unfold conflate_one. by repeat case_match.
Qed.

Lemma budget_same self self' now :
  same_budget self self' -> budget_ok self' now = budget_ok self now /\ tokens_at self' now = tokens_at self now.
Proof.
  intros (H1 & H2 & H3). unfold budget_ok, tokens_at, _refill_aggregate. rewrite H1, H2, H3.
  by destruct (feqb (total_max_hz _) f0); simpl; rewrite ?H3.
Qed.

(** A channel's candidates after a message: the newest one if it is due. *)
Definition candidate (self : ConflatingLimiter) (ups : list LiveUpdate) (now : float) (c : string) : option LiveUpdate :=
  if is_due self c now then newest (pending_of self c) (of_channel c ups) else None.

(** Everything before admission. *)
Lemma handle_candidates self samples now :
  config_ok (config self) -> limiter_wf self ->
  let ups := updates (config self) samples in
  exists mid l,
    handle_batch self samples now = admit_updates mid l now /\
    same_budget self mid /\ limiter_wf mid /\
    Forall (fun u => is_Some (chan mid (lu_channel u))) l /\
    (forall c, live mid c + cnt c l = live self c + cnt c ups) /\
    (forall c, next_of mid c = next_of self c) /\
    (forall c, limited (config self) c ->
       of_channel c l = opt_list (candidate self ups now c) /\
       pending_of mid c = if is_due self c now then None else newest (pending_of self c) (of_channel c ups)).
Proof.
  intros Hcfg Hwf ups. unfold handle_batch.
  destruct (offer_all_spec self samples now Hcfg Hwf) as [A1 A2 A3 A4 A5 A6 A7].
  pose proof (offer_all_budget self samples now) as AB. fold ups in A6, A7.
  destruct (offer_all self samples now) as [s1 out]. cbn [fst snd] in *.
  destruct (drain_spec s1 now A1) as (D1 & D2 & D3 & D4 & D5 & D6 & D7).
  unfold limiter_drain in *. cbn [fst] in *.
  set (s2 := set_states s1 _) in *. set (raw := concat _) in *.
  assert (Hraw : Forall (fun u => is_Some (chan s1 (lu_channel u)) /\ (lu_conflate u = true <-> limited (config self) (lu_channel u))) raw).
  { apply Forall_forall. intros u Hu.
    assert (Hc : u ∈ of_channel (lu_channel u) raw) by (apply list_elem_of_filter; done).
    rewrite D5 in Hc. destruct (is_due s1 _ now); [|by apply elem_of_nil in Hc].
    unfold pending_of in Hc. destruct (chan s1 (lu_channel u)) as [s|] eqn:E; [|by apply elem_of_nil in Hc].
    simpl in Hc. destruct (pending s) as [v|] eqn:Ev; [|by apply elem_of_nil in Hc].
    apply list_elem_of_singleton in Hc. subst v. split; [done|].
    destruct A1 as [_ Hall]. destruct (Hall _ _ E) as (hz & H1 & H2 & H3). rewrite A2 in H1.
    destruct (H3 u Ev) as (_ & -> & _). split; [|done]. intros _. exists hz. split; [done|].
    destruct (feqb hz f0); [by rewrite Ev in H2 | done]. }
  destruct (ranked_ok s2 raw) as (drained & Hdr & Hperm).
  { eapply Forall_impl; [exact Hraw|]. intros u [Hu _]. by apply D4. }
  rewrite Hdr. assert (Hcl : classed (config self) (out ++ drained)).
  { apply Forall_app; split; [done|]. unfold classed. rewrite Hperm. eapply Forall_impl; [exact Hraw|]. by intros u [_ Hu]. }
  pose proof (conflate_spec (config self) s2 (out ++ drained) Hcl) as [C1 C2 C3 C4 C5].
  pose proof (conflate_budget s2 (out ++ drained)) as CB.
  destruct (conflate_candidates s2 (out ++ drained)) as [s3 l]. cbn [fst snd] in *. exists s3, l.
  assert (Hchan : forall c, chan s3 c = chan s2 c) by (intros c; unfold chan; by rewrite C2).
  split_and!; [done | | | | | |].
  - eapply same_budget_trans; [exact AB|]. by eapply same_budget_trans; [|exact CB].
  - unfold limiter_wf. rewrite C1, C2. exact D1.
  - apply Forall_forall. intros u Hu. rewrite Hchan. apply D4. apply C3 in Hu. apply elem_of_app in Hu as [Hu|Hu].
    + rewrite Forall_forall in A4. auto.
    + rewrite Hperm in Hu. rewrite Forall_forall in Hraw. by apply Hraw.
  - intros c. rewrite C4, cnt_app. rewrite (cnt_perm c drained raw) by done. specialize (A6 c). specialize (D7 c). lia.
  - intros c. unfold next_of at 1. rewrite Hchan. fold (next_of s2 c). by rewrite D3, A3.
  - intros c Hc. specialize (A7 c Hc). rewrite (C5 c Hc), of_channel_app.
    replace (pending_of s3 c) with (pending_of s2 c) by (unfold pending_of; by rewrite Hchan). rewrite D6.
    unfold candidate. assert (Hdue : is_due s1 c now = is_due self c now) by (unfold is_due; by rewrite A3).
    pose proof (of_channel_perm c _ _ Hperm) as Hpc. rewrite D5 in Hpc. rewrite Hdue in Hpc |- *.
    destruct (is_due self c now); destruct A7 as [-> Hp].
    + rewrite Hp in Hpc. split; [|done]. unfold newest. destruct (of_channel c ups) as [|x r] eqn:Eu.
      * destruct (pending_of self c) as [p|]; simpl in Hpc.
        -- by apply Permutation_singleton_r in Hpc as ->.
        -- by apply Permutation_nil_r in Hpc as ->.
      * apply Permutation_nil_r in Hpc as ->. rewrite app_nil_r. by destruct (last (x :: r)) eqn:El; [|apply last_None in El].
    + apply Permutation_nil_r in Hpc as ->. by rewrite Hp.
Qed.

(** Every value offered to a selected channel is published, suppressed or
    waiting, exactly once: one message adds to a channel's three counts just
    what it brought, and publishes no more than the aggregate budget. *)
Theorem limiter_accounts self samples now :
  config_ok (config self) -> limiter_wf self -> budget_ok self now = true ->
  exists self' accepted, handle_batch self samples now = (self', Ok accepted) /\
    limiter_wf self' /\ config self' = config self /\ within_budget self now (length accepted) /\
    forall c, live self' c = live self c + cnt c (updates (config self) samples).
Proof.
  intros Hcfg Hwf Hb. destruct (handle_candidates self samples now Hcfg Hwf) as (mid & l & -> & Hsb & Hm & Hk & Hl & _).
  destruct (budget_same self mid now Hsb) as [Hb1 Hb2]. rewrite Hb in Hb1.
  destruct (admit_spec mid l now Hm Hb1 Hk) as (self' & accepted & -> & [W1 W2 W3 W4 W5 W6 W7]).
  destruct Hsb as (Hc & _ & _). exists self', accepted. split_and!; [done | done | congruence | | ].
  - unfold within_budget in *. by rewrite Hc, Hb2 in W7.
  - intros c. rewrite W5, Hl. done.
Qed.

(** A limited channel publishes at most one value per message, only once its
    interval is over, and it is the newest one it has seen; before that the
    newest waits and replaces what was waiting. *)
Theorem limiter_publishes_newest self samples now self' accepted c :
  config_ok (config self) -> limiter_wf self -> budget_ok self now = true -> limited (config self) c ->
  handle_batch self samples now = (self', Ok accepted) ->
  let newest := newest (pending_of self c) (of_channel c (updates (config self) samples)) in
  if is_due self c now then
    pending_of self' c = None /\
    (of_channel c accepted = [] \/
     exists u interval, newest = Some u /\ of_channel c accepted = [u] /\
       max_hz_for (config self) c ≫= (fun hz => Some (fdiv_ieee (f_of_Z 1) hz)) = Some interval /\
       next_of self' c = Some (fadd now interval))
  else of_channel c accepted = [] /\ pending_of self' c = newest /\ next_of self' c = next_of self c.
Proof.
  intros Hcfg Hwf Hb Hc Heq. destruct (handle_candidates self samples now Hcfg Hwf) as (mid & l & Hh & Hsb & Hm & Hk & _ & Hn & Hl).
  rewrite Hh in Heq. destruct (budget_same self mid now Hsb) as [Hb1 Hb2]. rewrite Hb in Hb1.
  destruct (admit_spec mid l now Hm Hb1 Hk) as (s & acc & Ha & [W1 W2 W3 W4 W5 W6 W7]).
  rewrite Heq in Ha. injection Ha as <- <-. destruct (Hl c Hc) as [Hcand Hpend].
  pose proof (W6 c _ Hcand) as Hacc. rewrite W3, Hpend, W4, Hn. unfold candidate in Hacc. simpl.
  destruct (is_due self c now) eqn:Edue.
  - split; [done|]. destruct Hacc as [->|Hacc]; [by left|].
    destruct (newest _ _) as [u|] eqn:Eu; [|rewrite Hacc; by left]. right. rewrite Hacc. exists u.
    destruct Hc as (hz & Hhz & Hz). exists (fdiv_ieee (f_of_Z 1) hz). split_and!; [done | done | by rewrite Hhz |].
    assert (Hul : u ∈ of_channel c l) by (rewrite Hcand; unfold candidate; rewrite Edue, Eu; left).
    apply list_elem_of_filter in Hul as [Huc Hin].
    rewrite Forall_forall in Hk. destruct (Hk u Hin) as [st Hst]. rewrite Huc in Hst.
    destruct Hm as [_ Hall]. destruct (Hall c st Hst) as (hz' & G1 & G2 & _). destruct Hsb as (Hcf & _).
    rewrite Hcf, Hhz in G1. injection G1 as <-. rewrite Hz in G2. unfold interval_of. rewrite Hst. simpl. by rewrite G2.
  - simpl in Hacc. by destruct Hacc as [-> | ->].
Qed.

(** One gauge at 10 Hz: the first value goes out, and of the two that follow
    within the tenth of a second the newer one waits. *)
Module Gauges.
Definition cfg : LiveConfig := mkLive None (mkDefaults (f_of_Z 10) (f_of_Z 500)) [mkRule "engine.*" None].
Definition rpm : Channel := mkChannel 1 "engine.rpm" "can0:x" "rpm" DOUBLE f0 f0.
Definition sample (v : Z) : DecodedSample := mkDecoded (f_of_Z v) rpm (Some (VInt v)).
Definition start : ConflatingLimiter := (handle_batch (limiter_init cfg) [sample 1] (f_of_Z 100)).1.
Definition soon : float := fadd (f_of_Z 100) (f_of_ratio 1 20).
Definition waited : ConflatingLimiter * res (list LiveUpdate) := handle_batch start [sample 2; sample 3] soon.
Definition shown : list LiveUpdate := match waited.2 with Ok l => l | Raise _ => [] end.

Lemma cfg_ok : config_ok cfg.
Proof.
  intros c hz. unfold max_hz_for, rule_for, cfg. cbn [lc_channels List.find].
  destruct (fnmatchcase c _); [|done]. by intros [= <-].
Qed.
Lemma start_wf : limiter_wf start.
Proof.
  split; [repeat constructor; set_solver|]. intros c s.
  unfold start; vm_compute _states; unfold od_get. case_decide as E; [|done]. intros [= <-]. subst c.
  exists (f_of_Z 10). split_and!; [reflexivity | reflexivity | done].
Qed.
End Gauges.

Lemma limiter_accounts_witness :
  budget_ok Gauges.start Gauges.soon = true /\
  exists self' accepted, handle_batch Gauges.start [Gauges.sample 2; Gauges.sample 3] Gauges.soon = (self', Ok accepted) /\
    limiter_wf self' /\ config self' = config Gauges.start /\
    within_budget Gauges.start Gauges.soon (length accepted) /\
    forall c, live self' c = live Gauges.start c +
      cnt c (updates (config Gauges.start) [Gauges.sample 2; Gauges.sample 3]).
Proof.
  split; [vm_compute; reflexivity|].
  apply (limiter_accounts Gauges.start [Gauges.sample 2; Gauges.sample 3] Gauges.soon Gauges.cfg_ok Gauges.start_wf).
  vm_compute; reflexivity.
Defined.

Lemma limiter_publishes_newest_witness :
  is_due Gauges.start "engine.rpm" Gauges.soon = false /\
  of_channel "engine.rpm" Gauges.shown = [] /\
  pending_of Gauges.waited.1 "engine.rpm" = Some (mkUpdate "engine.rpm" (f_of_Z 3) (Some (VInt 3)) true).
Proof.
  assert (Hlim : limited (config Gauges.start) "engine.rpm") by (exists (f_of_Z 10); split; vm_compute; reflexivity).
  pose proof (limiter_publishes_newest Gauges.start [Gauges.sample 2; Gauges.sample 3] Gauges.soon
    Gauges.waited.1 Gauges.shown "engine.rpm" Gauges.cfg_ok Gauges.start_wf
    ltac:(vm_compute; reflexivity) Hlim ltac:(vm_compute; reflexivity)) as H.
  assert (Hd : is_due Gauges.start "engine.rpm" Gauges.soon = false) by (vm_compute; reflexivity).
  rewrite Hd in H. destruct H as (H1 & H2 & _). split_and!; [exact Hd | exact H1 | rewrite H2; vm_compute; reflexivity].
Defined.
