(* ===== verification/Session.v ===== *)
(** Session identity across restarts ([src/agent/session.py]).

    The store holds the last session payload and the file it is persisted to.
    [json.loads] and [json.dumps] are parameters; reading and replacing the
    file succeed or fail as the environment decides. *)

From S2P Require Import Prelude PyFloat TimingCore TimingApp.

Local Open Scope Z_scope.

(** What opening the state file finds. *)
Inductive session_file :=
  | sf_missing
  | sf_unreadable
  | sf_not_utf8
  | sf_text (text : string).

Record SessionStore := mkStore {
  ss_file : session_file;
  _current : list (string * obj);
  malformed_updates : Z
}.

Definition newline : string := String (ascii_of_nat 10) EmptyString.

Section Session.
Context (json_loads : string -> option obj) (json_dumps : obj -> string).

(** [_load]; text that is not UTF-8 is the one failure it does not absorb. *)
Definition _load (file : session_file) : res (list (string * obj)) :=
  match file with
  | sf_missing | sf_unreadable => Ok []
  | sf_not_utf8 => raise ValueError "UnicodeDecodeError"
  | sf_text text =>
      match json_loads text with
      | Some (ODict decoded) => Ok decoded
      | _ => Ok []
      end
  end.

Definition store_init (file : session_file) : res SessionStore :=
  current ← _load file; Ok (mkStore file current 0).

(** The atomic replacement happens or the old file stays. *)
Definition _persist_locked (self : SessionStore) (can_write : bool) : SessionStore :=
  if can_write then mkStore (sf_text (json_dumps (ODict (_current self)) +:+ newline)) (_current self) (malformed_updates self)
  else self.

Definition store_update (self : SessionStore) (state : list (string * obj)) (can_write : bool) : SessionStore :=
  _persist_locked (mkStore (ss_file self) state (malformed_updates self)) can_write.

Definition update_from_bytes (self : SessionStore) (payload : string) (can_write : bool)
    : SessionStore * option (list (string * obj)) :=
  match json_loads payload with
  | Some (ODict decoded) => (store_update self decoded can_write, Some decoded)
  | _ => (mkStore (ss_file self) (_current self) (malformed_updates self + 1), None)
  end.

(** Commands received in one run of the agent, each with whether the file
    could be written. *)
Definition store_run (self : SessionStore) (commands : list (string * bool)) : SessionStore :=
  fold_left (fun s c => (update_from_bytes s c.1 c.2).1) commands self.

(** Values JSON gives back as they were. *)
Definition scalar_value (v : obj) : Prop :=
  match v with OList _ | ODict _ => False | _ => True end.

(** What [json.dumps] with sorted keys and [json.loads] do to one object: the
    members are the same, in another order. *)
Definition json_keeps (d : list (string * obj)) : Prop :=
  exists d', json_loads (json_dumps (ODict d) +:+ newline) = Some (ODict d') /\
    forall key, scalar_value (oget key d) -> oget key d' = oget key d.

Definition accepted (c : string * bool) : bool :=
  match json_loads c.1 with Some (ODict _) => true | _ => false end.

Lemma stamps_agree d d' e :
  (forall key, key ∈ _SESSION_STAMP_KEYS -> oget key d' = oget key d) ->
  _encode_event json_dumps d' e = _encode_event json_dumps d e.
Proof.
  intros H. unfold _encode_event. do 2 f_equal.
  match goal with |- fold_left _ _ ?p = _ => generalize p end.
  revert H. generalize _SESSION_STAMP_KEYS as keys. induction keys as [|k keys IH]; intros H p; [done|]. simpl.
  rewrite (H k) by left. apply IH. intros; apply H; by right.
Qed.

(** A malformed command changes nothing but the count. *)
Lemma malformed_keeps self c :
  accepted c = false ->
  (update_from_bytes self c.1 c.2).1 = mkStore (ss_file self) (_current self) (malformed_updates self + 1).
Proof. unfold accepted, update_from_bytes. by repeat case_match. Qed.

Lemma run_rejected commands : forall self,
  Forall (fun c => accepted c = false) commands ->
  store_run self commands =
    mkStore (ss_file self) (_current self) (malformed_updates self + Z.of_nat (length commands)).
Proof.
  induction commands as [|c l IH]; intros self Hall; simpl.
  - destruct self; simpl; f_equal; lia.
  - apply Forall_cons in Hall as [Hc Hl]. unfold store_run; cbn [fold_left]. fold (store_run (update_from_bytes self c.1 c.2).1 l).
    rewrite IH, malformed_keeps by done. simpl. f_equal. lia.
Qed.

(** An agent that restarts stamps lap events exactly as before it went down:
    the last accepted command is the session, malformed ones after it are
    counted and change nothing, and once persisted it is what a new store
    loads. *)
Theorem session_survives_restart self before payload decoded rejected e :
  json_loads payload = Some (ODict decoded) -> json_keeps decoded ->
  Forall (fun key => scalar_value (oget key decoded)) _SESSION_STAMP_KEYS ->
  Forall (fun c => accepted c = false) rejected ->
  let s := store_run self (before ++ (payload, true) :: rejected) in
  _current s = decoded /\
  malformed_updates s = malformed_updates (store_run self before) + Z.of_nat (length rejected) /\
  exists s', store_init (ss_file s) = Ok s' /\
    _encode_event json_dumps (_current s') e = _encode_event json_dumps (_current s) e.
Proof.
  intros Hp (d' & Hd' & Hkeep) Hscalar Hrej s.
  assert (Hs : s = mkStore (sf_text (json_dumps (ODict decoded) +:+ newline)) decoded
                    (malformed_updates (store_run self before) + Z.of_nat (length rejected))).
  { unfold s, store_run. rewrite fold_left_app; cbn [fold_left fst snd]. fold (store_run self before).
    unfold update_from_bytes at 2. rewrite Hp. cbn [fst].
    exact (run_rejected rejected (store_update (store_run self before) decoded true) Hrej). }
  rewrite Hs. split_and!; [done..|]. exists (mkStore (sf_text (json_dumps (ODict decoded) +:+ newline)) d' 0).
  unfold store_init, _load. cbn [ss_file]. rewrite Hd'. split; [done|]. cbn [_current].
  apply stamps_agree. intros key Hk. apply Hkeep. rewrite Forall_forall in Hscalar. auto.
Qed.
End Session.

Module Restart.
Definition session : list (string * obj) := [("session_id", OStr "s1"); ("driver", OStr "ann")].
Definition sorted : list (string * obj) := [("driver", OStr "ann"); ("session_id", OStr "s1")].
Definition dumps (o : obj) : string :=
  match o with ODict ((k, _) :: _) => if String.eqb k "session_id" then "session" else "event" | _ => "" end.
Definition loads (s : string) : option obj :=
  if String.eqb s "cmd" then Some (ODict session)
  else if String.eqb s ("session" +:+ newline) then Some (ODict sorted) else None.
Definition lap : TimingEvent := mkEvent LAP_COMPLETED f0 "S/F" f0 f0 1 0 f0 f0 true "clockwise" on_track.
Definition down : SessionStore := store_run loads dumps (mkStore sf_missing [] 0) [("cmd", true); ("garbage", true)].
End Restart.

Lemma session_survives_restart_witness :
  _current Restart.down = Restart.session /\ malformed_updates Restart.down = 0 + 1 /\
  exists s', store_init Restart.loads (ss_file Restart.down) = Ok s' /\
    _encode_event Restart.dumps (_current s') Restart.lap = _encode_event Restart.dumps (_current Restart.down) Restart.lap.
Proof.
  apply (session_survives_restart Restart.loads Restart.dumps (mkStore sf_missing [] 0) [] "cmd" Restart.session
    [("garbage", true)] Restart.lap).
  - reflexivity.
  - exists Restart.sorted. split; [reflexivity|]. intros key _. unfold oget, ogetd; simpl. by repeat case_decide; subst.
  - repeat constructor.
  - repeat constructor.
Defined.
