(* ===== verification/Agent.v ===== *)
(** The vehicle agent ([src/agent/agent.py]): collectors, queues, the pipeline
    thread, the publisher and the health loop that supervises them.

    The threads interleave at the steps of [agent_step]. The pipeline thread's
    [_drain_and_flush] is cut where it touches something shared: the session
    inbox, one queue at a time, each sample handed to the pipeline, each batch
    handed to the publisher. The joins of [stop] are taken to end within their
    timeouts, so the last drain runs when nothing else does. *)

From S2P Require Import Prelude PyFloat Stats PyText Config Wire Catalog Batcher Queues Pipeline Publisher Session.

Local Open Scope Z_scope.

(** * Settings *)

Record AgentSettings := mkSettings {
  profile_dir : string;
  hardware_path : option string;
  nats_url : string;
  nats_creds : option string;
  set_vehicle_id : option string;
  tick_ms : Z;
  queue_maxlen : Z;
  publish_window : Z;
  publish_buffer_bytes : Z;
  tele_max_age_s : float;
  tele_max_bytes : Z;
  registry_interval_s : float;
  state_dir : option string;
  raw_capture_dir : option string
}.

Definition DEFAULT_TELE_MAX_AGE_S : float := f_of_Z (72 * 3600).
Definition DEFAULT_TELE_MAX_BYTES : Z := 8 * 1024 * 1024 * 1024.
Definition DEFAULT_REGISTRY_INTERVAL_S : float := f_of_Z 300.

(** [int] and [float] of a text. *)
Definition parse_int (text : string) : res Z :=
  match py_int text with Some z => Ok z | None => raise ValueError ("invalid literal for int() with base 10: " +:+ repr_str text) end.
Definition parse_float (text : string) : res float :=
  match py_float text with Some x => Ok x | None => raise ValueError ("could not convert string to float: " +:+ repr_str text) end.

(** [take]: a variable that is unset or blank leaves the default. *)
Definition take_env {A : Type} (env : list (string * string)) (env_key : string) (parse : string -> res A) (unset : A) : res A :=
  match od_get env_key env with
  | None | Some EmptyString => Ok unset
  | Some value =>
      match parse value with
      | Ok a => Ok a
      | Raise e =>
          match exn_kind e with
          | ValueError => raise ValueError (env_key +:+ "=" +:+ repr_str value +:+ ": " +:+ exn_msg e)
          | _ => Raise e
          end
      end
  end.

Definition some_text (text : string) : res (option string) := Ok (Some text).
Definition or_env (given : option string) (env : list (string * string)) (key : string) : option string :=
  match given with Some _ => given | None => od_get key env end.

Definition from_env (env : list (string * string)) (profile hardware : option string) : res AgentSettings :=
  match or_env profile env "OPENLAPS_PROFILE" with
  | None | Some EmptyString => raise ValueError "no profile: pass a profile directory or set OPENLAPS_PROFILE"
  | Some profile =>
      let hardware := match or_env hardware env "OPENLAPS_HARDWARE" with Some (String _ _ as h) => Some h | _ => None end in
      url ← take_env env "OPENLAPS_NATS_URL" Ok "nats://127.0.0.1:4222";
      creds ← take_env env "OPENLAPS_NATS_CREDS" some_text None;
      vehicle ← take_env env "OPENLAPS_VEHICLE_ID" some_text None;
      tick ← take_env env "OPENLAPS_TICK_MS" parse_int 20;
      maxlen ← take_env env "OPENLAPS_QUEUE_SIZE" parse_int DEFAULT_MAXLEN;
      window ← take_env env "OPENLAPS_PUBLISH_WINDOW" parse_int (Z.of_nat DEFAULT_WINDOW);
      buffer ← take_env env "OPENLAPS_PUBLISH_BUFFER_BYTES" parse_int DEFAULT_BUFFER_BYTES;
      age ← take_env env "OPENLAPS_TELE_MAX_AGE_H" (fun hours => x ← parse_float hours; Ok (fmul x (f_of_Z 3600))) DEFAULT_TELE_MAX_AGE_S;
      bytes ← take_env env "OPENLAPS_TELE_MAX_BYTES" parse_int DEFAULT_TELE_MAX_BYTES;
      registry ← take_env env "OPENLAPS_REGISTRY_REPUBLISH_S" parse_float DEFAULT_REGISTRY_INTERVAL_S;
      state ← take_env env "OPENLAPS_STATE_DIR" some_text None;
      raw ← take_env env "OPENLAPS_RAW_CAPTURE_DIR" some_text None;
      Ok (mkSettings profile hardware url creds vehicle tick maxlen window buffer age bytes registry state raw)
  end.

(** A variable the template leaves blank is as good as one that is not there. *)
Definition filled (kv : string * string) : bool := negb (String.eqb kv.2 "").

Lemma get_filled env k :
  od_wf env -> od_get k (List.filter filled env) = match od_get k env with Some EmptyString => None | v => v end.
Proof.
  induction env as [|[k' v] env IH]; intros Hwf; [done|]. apply NoDup_cons in Hwf as [Hn Hwf]. specialize (IH Hwf).
  cbn [List.filter od_get]. unfold filled at 1; cbn [snd].
  destruct (decide (k = k')) as [->|Hk].
  - destruct v as [|c v]; cbn [String.eqb negb].
    + assert (od_get k' env = None) as H by (by apply od_get_None). by rewrite IH, H.
    + cbn [od_get]. by rewrite decide_True.
  - destruct (negb _); [cbn [od_get]; by rewrite decide_False|done].
Qed.

Lemma take_env_filled {A : Type} env key (parse : string -> res A) unset :
  od_wf env -> take_env (List.filter filled env) key parse unset = take_env env key parse unset.
Proof. intros Hwf; unfold take_env; rewrite get_filled by done. by destruct (od_get key env) as [[|]|]. Qed.

Theorem blank_is_unset (env : list (string * string)) (profile hardware : option string) :
  od_wf env -> from_env (List.filter filled env) profile hardware = from_env env profile hardware.
Proof.
  intros Hwf. unfold from_env, or_env. rewrite !get_filled, !take_env_filled by done.
  destruct profile as [[|]|], hardware as [[|]|]; try done;
    destruct (od_get "OPENLAPS_PROFILE" env) as [[|]|], (od_get "OPENLAPS_HARDWARE" env) as [[|]|]; done.
Qed.

(** * The channels the agent adds to the registry *)

Definition STATUS_CHANNELS : list DerivedChannel := [
  mkDerived "sys.agent.status" STRING "";
  mkDerived "sys.agent.unmapped_refs" INT64 "";
  mkDerived "sys.agent.rbe_suppressed" INT64 "";
  mkDerived "sys.agent.encode_failures" INT64 "";
  mkDerived "sys.agent.publish_drops" INT64 "";
  mkDerived "sys.agent.publish_lag_ms" DOUBLE "ms"
].
(** [fusion] is the fusion application's own list, when it runs. *)
Definition agent_derived_channels (collector_names : list string) (fusion : list DerivedChannel) : list DerivedChannel :=
  DEFAULT_DERIVED_CHANNELS ++ STATUS_CHANNELS
  ++ map (fun name => mkDerived ("sys.agent.drops." +:+ name) INT64 "") collector_names ++ fusion.

Definition collector_names (vehicle : VehicleConfig) : list string :=
  map bus_name (buses vehicle) ++ map ser_name (serial vehicle) ++ (if host_enabled (host vehicle) then ["host"] else []).

(** * The agent *)

Definition _RESTART_BACKOFF_START_S : float := f_of_Z 1.
Definition _RESTART_BACKOFF_MAX_S : float := f_of_Z 30.

(** One collector under the health loop: [running] is whether its thread is alive. *)
Record _Supervised := mkSupervised {
  queue : SampleQueue Sample;
  running : bool;
  restarts : Z;
  backoff_s : float;
  next_restart_mono : float;
  expected : bool
}.

(** Who runs [_drain_and_flush]: the loop, its [finally] (with the exception
    that ended the loop), or [_publish_final_status]. *)
Inductive owner := Loop | Finally (because : option exn) | FinalStatus.

Section Agent.
Context `{Codec} (fusion timing : TapApp).
(** [LapTimingApp.apply_session], [json] and the length of a payload. *)
Context (adopt : app_state timing -> list (string * obj) -> app_state timing).
Context (json_loads : string -> option obj) (json_dumps status_dumps : obj -> string) (size : payload -> Z).
Context (wall_clock : Z -> float) (fuel : nat).

Abbreviation session_t := (list (string * obj)).
Abbreviation queued_t := (_QueuedBatch (P := payload)).

(** Where the thread that drives the pipeline is: between ticks; about to drain
    the queue of an index (the agent's own after the collectors', then the
    flush); feeding what it drained; submitting what it flushed; at its end. *)
Inductive pipeline_at :=
  | Resting
  | Next (o : owner) (i : nat)
  | Feeding (o : owner) (i : nat) (todo : list Sample)
  | Submitting (o : owner) (todo : list TickBatch)
  | Ended (because : option exn)
  | Stopped (because : option exn).

(** [fed], [lost], [adopted], [flushed], [submitted] and [acked] are the history
    of the run: what each queue gave the pipeline, what an exception left
    behind of a queue drained, the sessions the timing application took, the
    batches flushed, handed to the publisher and acked. *)
Record VehicleAgent := mkAgent {
  vehicle_id : string;
  _supervised : list _Supervised;
  _agent_queue : SampleQueue Sample;
  _session_inbox : option session_t;
  session_store : SessionStore;
  pipeline : Pipeline fusion timing;
  publisher : JetStreamPublisher (P := payload);
  _stop : bool;
  at_ : pipeline_at;
  fed : list (nat * Sample);
  lost : list (nat * Sample);
  adopted : list session_t;
  flushed : list TickBatch;
  submitted : list queued_t;
  acked : list queued_t
}.

(** Writers, one per group of fields a step changes. *)
Definition with_supervised (a : VehicleAgent) (l : list _Supervised) : VehicleAgent :=
  mkAgent (vehicle_id a) l (_agent_queue a) (_session_inbox a) (session_store a) (pipeline a) (publisher a) (_stop a) (at_ a)
    (fed a) (lost a) (adopted a) (flushed a) (submitted a) (acked a).
Definition with_agent_queue (a : VehicleAgent) (q : SampleQueue Sample) : VehicleAgent :=
  mkAgent (vehicle_id a) (_supervised a) q (_session_inbox a) (session_store a) (pipeline a) (publisher a) (_stop a) (at_ a)
    (fed a) (lost a) (adopted a) (flushed a) (submitted a) (acked a).
Definition with_session (a : VehicleAgent) (store : SessionStore) (inbox : option session_t) : VehicleAgent :=
  mkAgent (vehicle_id a) (_supervised a) (_agent_queue a) inbox store (pipeline a) (publisher a) (_stop a) (at_ a)
    (fed a) (lost a) (adopted a) (flushed a) (submitted a) (acked a).
Definition with_pipeline (a : VehicleAgent) (p : Pipeline fusion timing) : VehicleAgent :=
  mkAgent (vehicle_id a) (_supervised a) (_agent_queue a) (_session_inbox a) (session_store a) p (publisher a) (_stop a) (at_ a)
    (fed a) (lost a) (adopted a) (flushed a) (submitted a) (acked a).
Definition with_at (a : VehicleAgent) (at' : pipeline_at) : VehicleAgent :=
  mkAgent (vehicle_id a) (_supervised a) (_agent_queue a) (_session_inbox a) (session_store a) (pipeline a) (publisher a) (_stop a) at'
    (fed a) (lost a) (adopted a) (flushed a) (submitted a) (acked a).
Definition with_stop (a : VehicleAgent) : VehicleAgent :=
  mkAgent (vehicle_id a) (_supervised a) (_agent_queue a) (_session_inbox a) (session_store a) (pipeline a) (publisher a) true (at_ a)
    (fed a) (lost a) (adopted a) (flushed a) (submitted a) (acked a).
Definition with_publisher (a : VehicleAgent) (p : JetStreamPublisher (P := payload)) (sent done : list queued_t) : VehicleAgent :=
  mkAgent (vehicle_id a) (_supervised a) (_agent_queue a) (_session_inbox a) (session_store a) (pipeline a) p (_stop a) (at_ a)
    (fed a) (lost a) (adopted a) (flushed a) (submitted a ++ sent) (acked a ++ done).
Definition with_history (a : VehicleAgent) (more_fed more_lost : list (nat * Sample)) (more_adopted : list session_t)
    (more_flushed : list TickBatch) : VehicleAgent :=
  mkAgent (vehicle_id a) (_supervised a) (_agent_queue a) (_session_inbox a) (session_store a) (pipeline a) (publisher a) (_stop a) (at_ a)
    (fed a ++ more_fed) (lost a ++ more_lost) (adopted a ++ more_adopted) (flushed a ++ more_flushed) (submitted a) (acked a).

(** * Construction

    [loads] says whether the DBC files of a bus load. The exceptions leave the
    constructor, so a bad profile stops the agent before it starts. *)

Definition fresh_supervised (maxlen : Z) (name : string) : res _Supervised :=
  q ← queue_init name maxlen; Ok (mkSupervised q false 0 _RESTART_BACKOFF_START_S f0 true).

Definition agent_init (settings : AgentSettings) (vehicle : VehicleConfig) (catalog : RuntimeCatalog) (registry_seq : Z)
    (state_file : session_file) (timing_app : option (app_state timing)) (fusion_app : option (app_state fusion))
    (loads : string -> res ()) : res VehicleAgent :=
  store ← store_init json_loads state_file;
  let timing_app := (fun app => adopt app (_current store)) <$> timing_app in
  p ← pipeline_init fusion timing catalog registry_seq (tick_ms settings) timing_app fusion_app;
  pub ← publisher_init (Z.to_nat (publish_window settings)) (publish_buffer_bytes settings);
  supervised ← res_map (fun name => s ← fresh_supervised (queue_maxlen settings) name; _ ← loads name; Ok s) (collector_names vehicle);
  own ← queue_init DERIVED_SOURCE_CLASS (queue_maxlen settings);
  Ok (mkAgent (str_or (default "" (set_vehicle_id settings)) (Config.vehicle_id vehicle)) supervised own None store p pub false Resting
        [] [] (match timing_app with Some _ => [_current store] | None => [] end) [] [] []).

(** [start]: the threads of the collectors come up. *)
Definition set_running (s : _Supervised) (on : bool) : _Supervised :=
  mkSupervised (queue s) on (restarts s) (backoff_s s) (next_restart_mono s) (expected s).
Definition agent_start (a : VehicleAgent) : VehicleAgent := with_supervised a (map (fun s => set_running s true) (_supervised a)).

(** * The pipeline thread *)

Definition source_class (a : VehicleAgent) (i : nat) : string :=
  match _supervised a !! i with Some s => q_source_class (queue s) | None => DERIVED_SOURCE_CLASS end.

(** Draining the queue of an index: [None] past the agent's own. *)
Definition set_queue (s : _Supervised) (q : SampleQueue Sample) : _Supervised :=
  mkSupervised q (running s) (restarts s) (backoff_s s) (next_restart_mono s) (expected s).
Definition drain_queue (a : VehicleAgent) (i : nat) : option (VehicleAgent * list Sample) :=
  match _supervised a !! i with
  | Some s => let '(q, l) := drain (queue s) in Some (with_supervised a (<[i := set_queue s q]> (_supervised a)), l)
  | None =>
      if (i =? length (_supervised a))%nat then let '(q, l) := drain (_agent_queue a) in Some (with_agent_queue a q, l)
      else None
  end.

(** The head of [_drain_and_flush]: the session inbox. *)
Definition begin (a : VehicleAgent) (o : owner) : VehicleAgent :=
  let a' := with_at (with_session a (session_store a) None) (Next o 0) in
  match _session_inbox a, pl_timing fusion timing (pipeline a) with
  | Some session, Some app => with_history (with_pipeline a' (set_timing fusion timing (pipeline a) (adopt app session))) [] [] [session] []
  | _, _ => a'
  end.

(** [_drain_and_flush] ends, or raises. *)
Definition drained (a : VehicleAgent) (o : owner) : VehicleAgent :=
  with_at a (match o with Loop => Resting | Finally e => Ended e | FinalStatus => Stopped None end).
Definition raised (a : VehicleAgent) (o : owner) (e : exn) : VehicleAgent :=
  match o with
  | Loop => begin a (Finally (Some e))
  | Finally _ => with_at a (Ended (Some e))
  | FinalStatus => with_at a (Stopped (Some e))
  end.

(** [submit] of one batch. *)
Definition queued (a : VehicleAgent) (b : TickBatch) (now : Z) : queued_t :=
  mkQueued ("tele." +:+ vehicle_id a +:+ "." +:+ tb_source_class b) (tb_payload b) (tb_msg_id b) now.

(** A recursion past [fuel] is Python's own limit. *)
Definition feed_one (a : VehicleAgent) (i : nat) (s : Sample) : Pipeline fusion timing * res () :=
  match ingest fusion timing fuel (pipeline a) (source_class a i) s with
  | Some r => r
  | None => (pipeline a, raise RuntimeError "maximum recursion depth exceeded")
  end.

Definition pipeline_turn (a : VehicleAgent) (now : Z) : VehicleAgent :=
  match at_ a with
  | Resting => begin a (if _stop a then Finally None else Loop)
  | Next o i =>
      match drain_queue a i with
      | Some (a, todo) => with_at a (Feeding o i todo)
      | None =>
          match flush fusion timing wall_clock (pipeline a) with
          | (p, Ok batches) => with_at (with_history (with_pipeline a p) [] [] [] batches) (Submitting o batches)
          | (p, Raise e) => raised (with_pipeline a p) o e
          end
      end
  | Feeding o i [] => with_at a (Next o (S i))
  | Feeding o i (s :: todo) =>
      let '(p, r) := feed_one a i s in
      let a := with_history (with_pipeline a p) [(i, s)] [] [] [] in
      match r with
      | Ok _ => with_at a (Feeding o i todo)
      | Raise e => raised (with_history a [] (map (pair i) todo) [] []) o e
      end
  | Submitting o [] => drained a o
  | Submitting o (b :: todo) =>
      let q := queued a b now in
      with_at (with_publisher a (submit size (publisher a) q) [q] []) (Submitting o todo)
  | Ended _ | Stopped _ => a
  end.

(** * The health loop *)

Definition set_restart (s : _Supervised) (now : float) (up : bool) : _Supervised :=
  mkSupervised (queue s) up (restarts s + 1) (doubled (backoff_s s) _RESTART_BACKOFF_MAX_S) (fadd now (backoff_s s)) (expected s).
Definition set_backoff (s : _Supervised) : _Supervised :=
  mkSupervised (queue s) (running s) (restarts s) _RESTART_BACKOFF_START_S (next_restart_mono s) (expected s).

(** [up]: whether [start] brought the thread up. *)
Definition supervise_one (now : float) (s : _Supervised) (up : bool) : _Supervised :=
  if negb (expected s) || running s then if running s then set_backoff s else s
  else if fltb now (next_restart_mono s) then s
  else set_restart s now up.

Fixpoint supervise_all (now : float) (ups : nat -> bool) (l : list _Supervised) : list _Supervised :=
  match l with [] => [] | s :: l => supervise_one now s (ups 0%nat) :: supervise_all now (fun i => ups (S i)) l end.
Definition _supervise_collectors (a : VehicleAgent) (now : float) (ups : nat -> bool) : VehicleAgent :=
  with_supervised a (supervise_all now ups (_supervised a)).

(** The clocks and the connection a health sample reads. *)
Record health_env := mkHealthEnv { h_mono_ns : Z; h_uptime : float; h_connected : bool; h_lag_mono_ns : Z }.

Definition _status_payload (a : VehicleAgent) (state : string) (env : health_env) : string :=
  status_dumps (ODict [
    ("state", OStr state);
    ("uptime_s", OFloat (f_round_digits (h_uptime env) 1));
    ("nats_connected", OBool (h_connected env));
    ("encode_failures", OInt (pl_encode_failures fusion timing (pipeline a)));
    ("collectors", ODict (fold_left (fun d s =>
        od_set (q_source_class (queue s)) (ODict [("running", OBool (running s)); ("restarts", OInt (restarts s))]) d) (_supervised a) []))]).

Definition health_readings (a : VehicleAgent) (status : string) (env : health_env) : list (string * SampleValue) := [
    ("sys.agent.status", VStr (_status_payload a status env));
    ("sys.agent.unmapped_refs", VInt (pl_unmapped_refs fusion timing (pipeline a)));
    ("sys.agent.rbe_suppressed", VInt (Rbe.suppressed_count (pl_rbe fusion timing (pipeline a))));
    ("sys.agent.encode_failures", VInt (pl_encode_failures fusion timing (pipeline a)));
    ("sys.agent.publish_drops", VInt (_publish_drops (publisher a)));
    ("sys.agent.publish_lag_ms", VFloat (publish_lag_ms (publisher a) (h_lag_mono_ns env)))]
  ++ map (fun s => ("sys.agent.drops." +:+ q_source_class (queue s), VInt (Z.of_nat (q_dropped (queue s))))) (_supervised a).

Definition health_samples (a : VehicleAgent) (status : string) (env : health_env) : list Sample :=
  map (fun nv => mkSample ("derived:" +:+ nv.1) (h_mono_ns env) (wall_clock (h_mono_ns env)) nv.2) (health_readings a status env).

Definition _emit_health_samples (a : VehicleAgent) (status : string) (env : health_env) : VehicleAgent :=
  with_agent_queue a (fold_left put (health_samples a status env) (_agent_queue a)).

(** * Callbacks of the publisher's thread *)

Definition _on_session_payload (a : VehicleAgent) (payload : string) (can_write : bool) : VehicleAgent :=
  match update_from_bytes json_loads json_dumps (session_store a) payload can_write with
  | (store, Some session) => with_session a store (Some session)
  | (store, None) => with_session a store (_session_inbox a)
  end.

(** * Steps *)

Inductive agent_step :=
  | AEmit (i : nat) (s : Sample)
  | AEnds (i : nat)
  | ASession (payload : string) (can_write : bool)
  | APipeline (now : Z)
  | AHealth (now : float) (ups : nat -> bool) (env : health_env)
  | APublisher (o : pub_op (P := payload))
  | AStop
  | AStopCollector (i : nat)
  | AFinalStatus (env : health_env).

Definition on_supervised (a : VehicleAgent) (i : nat) (f : _Supervised -> _Supervised) : VehicleAgent :=
  match _supervised a !! i with Some s => with_supervised a (<[i := f s]> (_supervised a)) | None => a end.

(** A collector that was told to stop is not expected any more, and its thread
    has been joined. *)
Definition stopped (s : _Supervised) : _Supervised :=
  mkSupervised (queue s) false (restarts s) (backoff_s s) (next_restart_mono s) false.
Definition all_stopped (a : VehicleAgent) : bool := forallb (fun s => negb (running s) && negb (expected s)) (_supervised a).

Definition agent_turn (a : VehicleAgent) (st : agent_step) : VehicleAgent :=
  match st with
  | AEmit i s => on_supervised a i (fun c => if running c then set_queue c (put (queue c) s) else c)
  | AEnds i => on_supervised a i (fun c => set_running c false)
  | ASession payload can_write => _on_session_payload a payload can_write
  | APipeline now => pipeline_turn a now
  | AHealth now ups env =>
      if _stop a then a else _emit_health_samples (_supervise_collectors a now ups) "running" env
  | APublisher (PSubmit _) => a
  | APublisher o =>
      with_publisher a (pub_step size (publisher a) o) [] (match o with PAck => take 1 (pending (publisher a)) | _ => [] end)
  | AStop => with_stop a
  | AStopCollector i => if _stop a then on_supervised a i stopped else a
  | AFinalStatus env =>
      match at_ a with
      | Ended _ => if _stop a && all_stopped a then begin (_emit_health_samples a "stopping" env) FinalStatus else a
      | _ => a
      end
  end.

Definition agent_run (a : VehicleAgent) (sts : list agent_step) : VehicleAgent := fold_left agent_turn sts a.
End Agent.
