(* ===== verification/AgentRuns.v ===== *)
(** Runs of the vehicle agent ([Agent]): what becomes of every sample, batch and
    session however its threads interleave, and how collectors are restarted. *)

From S2P Require Import Prelude PyFloat Stats PyText Config Wire Catalog Batcher Queues Pipeline Publisher TimingCore TimingApp Session Agent.

Local Open Scope Z_scope.

Section Runs.
Context `{Codec} (fusion timing : TapApp).
Context (adopt : app_state timing -> list (string * obj) -> app_state timing).
Context (json_loads : string -> option obj) (json_dumps status_dumps : obj -> string) (size : payload -> Z).
Context (size_nonneg : forall p, 0 <= size p).
Context (wall_clock : Z -> float) (fuel : nat).

Abbreviation Agent := (VehicleAgent fusion timing).
Abbreviation turn := (agent_turn fusion timing adopt json_loads json_dumps status_dumps size wall_clock fuel).
Abbreviation run := (agent_run fusion timing adopt json_loads json_dumps status_dumps size wall_clock fuel).
Abbreviation supervised := (_supervised fusion timing).
Abbreviation own_queue := (_agent_queue fusion timing).
Abbreviation a_fed := (fed fusion timing).
Abbreviation a_lost := (lost fusion timing).
Abbreviation a_at := (at_ fusion timing).
Abbreviation a_pipeline := (pipeline fusion timing).
Abbreviation a_publisher := (publisher fusion timing).
Abbreviation a_stop := (_stop fusion timing).
Abbreviation a_submitted := (submitted fusion timing).
Abbreviation a_flushed := (flushed fusion timing).
Abbreviation a_acked := (acked fusion timing).
Abbreviation step := (agent_step (H := _)).

(** * Where a queue's samples are *)

(** The queue of an index: the collectors', then the agent's own. *)
Definition queue_at (a : Agent) (i : nat) : option (SampleQueue Sample) :=
  match supervised a !! i with
  | Some s => Some (queue s)
  | None => if (i =? length (supervised a))%nat then Some (own_queue a) else None
  end.

Definition of_index {A : Type} (i : nat) (l : list (nat * A)) : list A := omap (fun x => if (x.1 =? i)%nat then Some x.2 else None) l.
Definition todo_of (i : nat) (at' : pipeline_at) : list Sample :=
  match at' with Feeding _ j l => if (j =? i)%nat then l else [] | _ => [] end.
Definition unsent (at' : pipeline_at) : list TickBatch := match at' with Submitting _ l => l | _ => [] end.

(** What a step puts into the queue of an index, and a run. *)
Definition put_in (a : Agent) (st : step) (i : nat) : list Sample :=
  match st with
  | AEmit j s => match supervised a !! j with Some c => if running c && (i =? j)%nat then [s] else [] | None => [] end
  | AHealth now ups env =>
      if (i =? length (supervised a))%nat && negb (a_stop a) then
        health_samples fusion timing status_dumps wall_clock (_supervise_collectors fusion timing a now ups) "running" env
      else []
  | AFinalStatus env =>
      match a_at a with
      | Ended _ => if a_stop a && all_stopped fusion timing a && (i =? length (supervised a))%nat then health_samples fusion timing status_dumps wall_clock a "stopping" env else []
      | _ => []
      end
  | _ => []
  end.
Fixpoint put_run (a : Agent) (sts : list step) (i : nat) : list Sample :=
  match sts with [] => [] | st :: sts => put_in a st i ++ put_run (turn a st) sts i end.

(** The samples of one source: its queue has drained [drained], of which the
    pipeline was fed all but what an exception left behind. *)
Definition source_ok (maxlen : nat) (a : Agent) (i : nat) (puts : list Sample) : Prop :=
  exists q drained, queue_at a i = Some q /\ accounted maxlen (q, drained) puts /\
    (of_index i (a_fed a) ++ todo_of i (a_at a)) `sublist_of` drained /\
    length drained = (length (of_index i (a_fed a)) + length (todo_of i (a_at a)) + length (of_index i (a_lost a)))%nat.

(** The fields [source_ok] reads. *)
Definition same_sources (a b : Agent) (i : nat) : Prop :=
  queue_at a i = queue_at b i /\ a_fed a = a_fed b /\ a_lost a = a_lost b /\ todo_of i (a_at a) = todo_of i (a_at b).

Lemma source_ok_same m a b i puts : same_sources a b i -> source_ok m a i puts -> source_ok m b i puts.
Proof.
  intros (E1 & E2 & E3 & E4) (q & drained & Hq & Ha & Hs & Hl). exists q, drained. rewrite <- E1, <- E2, <- E3, <- E4. done.
Qed.

Lemma accounted_puts {A : Type} m (q : SampleQueue A) out all l :
  accounted m (q, out) all -> accounted m (fold_left put l q, out) (all ++ l).
Proof.
  revert q all; induction l as [|x l IH]; intros q all Hq; cbn [fold_left]; [by rewrite app_nil_r|].
  change (x :: l) with ([x] ++ l). rewrite app_assoc. by apply IH, accounted_put.
Qed.

Lemma of_index_app {A : Type} i (l l' : list (nat * A)) : of_index i (l ++ l') = of_index i l ++ of_index i l'.
Proof. apply omap_app. Qed.
Lemma of_index_all {A : Type} i j (l : list A) : of_index i (map (pair j) l) = if (j =? i)%nat then l else [].
Proof.
  induction l as [|x l IH]; cbn; [by destruct (j =? i)%nat|]. fold (of_index i (map (pair j) l)). rewrite IH.
  by destruct (j =? i)%nat.
Qed.

(** ** Steps that move no sample *)

Lemma queue_at_insert a j c c' i :
  supervised a !! j = Some c ->
  queue_at (with_supervised fusion timing a (<[j := c']> (supervised a))) i = if decide (i = j) then Some (queue c') else queue_at a i.
Proof.
  intros Hj. unfold queue_at; cbn [_supervised with_supervised _agent_queue]. rewrite length_insert. case_decide as E.
  - subst. rewrite list_lookup_insert_eq by (by eapply lookup_lt_Some). done.
  - by rewrite list_lookup_insert_ne.
Qed.

Lemma begin_fields a o :
  let b := begin fusion timing adopt a o in
  supervised b = supervised a /\ own_queue b = own_queue a /\ a_fed b = a_fed a /\ a_lost b = a_lost a /\ a_at b = Next o 0 /\
  a_publisher b = a_publisher a /\ a_submitted b = a_submitted a /\ a_flushed b = a_flushed a /\ a_acked b = a_acked a /\
  a_stop b = a_stop a /\ vehicle_id fusion timing b = vehicle_id fusion timing a /\
  pl_staged fusion timing (a_pipeline b) = pl_staged fusion timing (a_pipeline a).
Proof. unfold begin; destruct (_session_inbox fusion timing a), (pl_timing fusion timing (a_pipeline a)); cbn; rewrite ?app_nil_r; done. Qed.

Lemma begin_sources a o i : todo_of i (a_at a) = [] -> same_sources a (begin fusion timing adopt a o) i.
Proof.
  intros Ht. destruct (begin_fields a o) as (E1 & E2 & E3 & E4 & E5 & _).
  unfold same_sources, queue_at. by rewrite E1, E2, E3, E4, E5, Ht.
Qed.

Lemma raised_sources a o e i : todo_of i (a_at a) = [] -> same_sources a (raised fusion timing adopt a o e) i.
Proof. intros Ht; destruct o; [by apply begin_sources|by split_and!..]. Qed.

(** ** Steps of the pipeline thread *)

Lemma drain_sources m a a' o j l i puts :
  a_at a = Next o j -> drain_queue fusion timing a j = Some (a', l) -> source_ok m a i puts ->
  source_ok m (with_at fusion timing a' (Feeding o j l)) i puts.
Proof.
  intros Hat Hd (q & drained & Hq & Ha & Hs & Hl). rewrite Hat in Hs, Hl; cbn in Hs, Hl. rewrite app_nil_r in Hs.
  assert (supervised a' !! i = None -> supervised a !! i = None) as Hnone.
  { unfold drain_queue in Hd. destruct (supervised a !! j) as [c|] eqn:Ec.
    - injection Hd as <- <-. cbn. rewrite !lookup_ge_None, length_insert. done.
    - destruct (_ =? _)%nat; [by injection Hd as <- <-|done]. }
  assert (a_fed a' = a_fed a /\ a_lost a' = a_lost a /\
          ((j =? i)%nat = true /\ queue_at a' i = Some (drain q).1 /\ l = q_queue q \/ (j =? i)%nat = false /\ queue_at a' i = queue_at a i))
    as (Ef & El & Hcase).
  { unfold drain_queue in Hd. destruct (supervised a !! j) as [c|] eqn:Ec.
    - injection Hd as <- <-. split_and!; [done..|]. rewrite (queue_at_insert a j c) by done. destruct (Nat.eqb_spec j i) as [->|E].
      + left. unfold queue_at in Hq. rewrite Ec in Hq. injection Hq as <-. by rewrite decide_True.
      + right. by rewrite decide_False.
    - destruct (Nat.eqb_spec j (length (supervised a))) as [->|]; [|done]. injection Hd as <- <-. split_and!; [done..|].
      unfold queue_at; cbn [_supervised with_agent_queue _agent_queue]. destruct (Nat.eqb_spec (length (supervised a)) i) as [<-|E].
      + left. unfold queue_at in Hq. rewrite Ec, Nat.eqb_refl in *. injection Hq as <-. done.
      + right. destruct (supervised a !! i); [done|]. by rewrite (proj2 (Nat.eqb_neq i _)). }
  destruct Hcase as [(E & Eq & ->)|(E & Eq)].
  - exists (drain q).1, (drained ++ q_queue q). split_and!; cbn [a_at at_ with_at todo_of fed lost]; rewrite ?E, ?Ef, ?El.
    + done.
    + by apply accounted_drain.
    + by apply sublist_app.
    + rewrite length_app. lia.
  - exists q, drained. split_and!; cbn [a_at at_ with_at todo_of fed lost]; rewrite ?E, ?Ef, ?El, ?app_nil_r; [by rewrite <- Hq, <- Eq|done..].
Qed.

Abbreviation handed a p j s := (with_history fusion timing (with_pipeline fusion timing a p) [(j, s)] [] [] []).

Lemma feed_sources m a o j s todo i puts p :
  a_at a = Feeding o j (s :: todo) -> source_ok m a i puts -> source_ok m (with_at fusion timing (handed a p j s) (Feeding o j todo)) i puts.
Proof.
  intros Hat (q & drained & Hq & Ha & Hs & Hl). rewrite Hat in Hs, Hl; cbn [todo_of] in Hs, Hl.
  exists q, drained. split_and!; [done|done|..];
    cbn [with_at with_history with_pipeline fed lost at_ todo_of]; rewrite !of_index_app, (of_index_all i j [s] : of_index i [(j, s)] = _), ?app_nil_r.
  - destruct (j =? i)%nat; [by rewrite <- app_assoc|]. by rewrite !app_nil_r in *.
  - rewrite Hl, length_app. destruct (j =? i)%nat; cbn; lia.
Qed.

Lemma feed_raised_sources m a o j s todo i puts p e :
  a_at a = Feeding o j (s :: todo) -> source_ok m a i puts ->
  source_ok m (raised fusion timing adopt (with_history fusion timing (handed a p j s) [] (map (pair j) todo) [] []) o e) i puts.
Proof.
  intros Hat (q & drained & Hq & Ha & Hs & Hl). rewrite Hat in Hs, Hl; cbn [todo_of] in Hs, Hl.
  set (b := with_history _ _ (handed a p j s) _ _ _ _).
  assert (source_ok m (with_at fusion timing b Resting) i puts) as Hok.
  { exists q, drained. split_and!; [done|done|..]; unfold b;
      cbn [with_at with_history with_pipeline fed lost at_ todo_of]; rewrite !of_index_app, ?(of_index_all i j todo), (of_index_all i j [s] : of_index i [(j, s)] = _); cbn [of_index omap list_omap]; rewrite ?app_nil_r.
    - etransitivity; [|exact Hs]. destruct (j =? i)%nat; rewrite ?app_nil_r; [|done].
      apply sublist_app; [done|]. apply sublist_skip, sublist_nil_l.
    - rewrite Hl, !length_app. destruct (j =? i)%nat; cbn; lia. }
  destruct o; cbn [raised]; [|exact Hok..].
  eapply source_ok_same; [|exact Hok].
  destruct (begin_fields b (Finally (Some e))) as (E1 & E2 & E3 & E4 & E5 & _).
  unfold same_sources, queue_at. by rewrite E1, E2, E3, E4, E5.
Qed.

Lemma pipeline_sources m a now i puts : source_ok m a i puts -> source_ok m (pipeline_turn fusion timing adopt size wall_clock fuel a now) i puts.
Proof.
  intros Hok. unfold pipeline_turn. destruct (a_at a) as [|o j|o j [|s todo]|o [|b todo]|e|e] eqn:Hat; try done.
  - eapply source_ok_same; [|exact Hok]. apply begin_sources. by rewrite Hat.
  - destruct (drain_queue fusion timing a j) as [[a' l]|] eqn:Hd; [by eapply drain_sources|].
    destruct (flush _ _ _ _) as [p [batches|e]].
    + eapply source_ok_same; [|exact Hok]. split_and!; [done|..]; cbn; rewrite ?app_nil_r; [done..|by rewrite Hat].
    + eapply source_ok_same; [apply raised_sources; by cbn; rewrite Hat|]. eapply source_ok_same; [|exact Hok]. done.
  - eapply source_ok_same; [|exact Hok]. split_and!; [done..|]. rewrite Hat. cbn. by destruct (_ =? _)%nat.
  - destruct (feed_one _ _ _ a j s) as [p [u|e]]; [by apply (feed_sources m a)|by apply (feed_raised_sources m a)].
  - eapply source_ok_same; [|exact Hok]. split_and!; [done..|]. rewrite Hat. by destruct o.
  - eapply source_ok_same; [|exact Hok]. split_and!; [done..|]. by rewrite Hat.
Qed.

(** ** Every step *)

Lemma supervise_lookup now ups l i : supervise_all now ups l !! i = (fun s => supervise_one now s (ups i)) <$> l !! i.
Proof. revert ups i; induction l as [|s l IH]; intros ups [|i]; cbn; [done..|]. by rewrite IH. Qed.
Lemma supervise_length now ups l : length (supervise_all now ups l) = length l.
Proof. revert ups; induction l as [|s l IH]; intros ups; cbn; [done|]. by rewrite IH. Qed.
Lemma supervise_queue now s up : queue (supervise_one now s up) = queue s.
Proof. unfold supervise_one; repeat case_match; done. Qed.

Lemma supervise_queue_at a now ups i : queue_at (_supervise_collectors fusion timing a now ups) i = queue_at a i.
Proof.
  unfold queue_at; cbn [_supervised _supervise_collectors with_supervised _agent_queue].
  rewrite supervise_lookup, supervise_length. destruct (supervised a !! i); cbn; [by rewrite supervise_queue|done].
Qed.

Lemma own_put_sources m a l i puts :
  source_ok m a i puts ->
  source_ok m (with_agent_queue fusion timing a (fold_left put l (own_queue a))) i
    (puts ++ if (i =? length (supervised a))%nat then l else []).
Proof.
  intros (q & drained & Hq & Ha & Hs). unfold source_ok, queue_at in *; cbn [_supervised with_agent_queue _agent_queue fed lost at_] in *.
  destruct (supervised a !! i) as [c|] eqn:Ec.
  - pose proof (lookup_lt_Some _ _ _ Ec). destruct (Nat.eqb_spec i (length (supervised a))); [lia|]. rewrite app_nil_r. by exists q, drained.
  - destruct (Nat.eqb_spec i (length (supervised a))); [|done]. injection Hq as <-. eexists _, drained. split; [done|].
    split; [by apply accounted_puts|exact Hs].
Qed.

Lemma on_supervised_sources m a j f l i puts :
  (forall c, supervised a !! j = Some c -> queue (f c) = fold_left put l (queue c)) -> source_ok m a i puts ->
  source_ok m (on_supervised fusion timing a j f) i (puts ++ if (i =? j)%nat && bool_decide (is_Some (supervised a !! j)) then l else []).
Proof.
  intros Hf (q & drained & Hq & Ha & Hs). unfold on_supervised. destruct (supervised a !! j) as [c|] eqn:Ec.
  - exists (if (i =? j)%nat then fold_left put l q else q), drained. rewrite (queue_at_insert a j c) by done.
    rewrite bool_decide_eq_true_2 by done. destruct (Nat.eqb_spec i j) as [->|E]; cbn [andb].
    + rewrite decide_True by done. unfold queue_at in Hq; rewrite Ec in Hq; injection Hq as <-.
      rewrite (Hf c) by done. split; [done|]. split; [by apply accounted_puts|exact Hs].
    + rewrite decide_False by done. rewrite app_nil_r. done.
  - rewrite bool_decide_eq_false_2 by (by intros []). rewrite andb_false_r, app_nil_r. by exists q, drained.
Qed.

Lemma turn_sources m a st i puts : source_ok m a i puts -> source_ok m (turn a st) i (puts ++ put_in a st i).
Proof.
  intros Hok. assert (source_ok m a i (puts ++ [])) as Hsame by (by rewrite app_nil_r).
  destruct st as [j s|j|payload w|now|now ups env|o| |j|env]; cbn [agent_turn put_in].
  - destruct (supervised a !! j) as [c|] eqn:Ec; [|unfold on_supervised; by rewrite Ec].
    pose proof (on_supervised_sources m a j (fun c => if running c then set_queue c (put (queue c) s) else c) (if running c then [s] else []) i puts) as Hj.
    rewrite Ec, bool_decide_eq_true_2, andb_true_r in Hj by done.
    replace (if running c && (i =? j)%nat then [s] else []) with (if (i =? j)%nat then if running c then [s] else [] else [])
      by (destruct (running c), (i =? j)%nat; done).
    apply Hj; [|done]. intros c' [= <-]. by destruct (running c).
  - rewrite <- (app_nil_r puts). rewrite app_nil_r at 1.
    pose proof (on_supervised_sources m a j (fun c => set_running c false) [] i puts) as Hj. destruct (_ && _) in Hj; by apply Hj.
  - unfold _on_session_payload. destruct (update_from_bytes _ _ _ _ _) as [store [session|]]; eapply source_ok_same; [|done| |done]; done.
  - rewrite app_nil_r. by apply pipeline_sources.
  - destruct (a_stop a); cbn [negb]; rewrite ?andb_false_r, ?andb_true_r; [done|].
    unfold _emit_health_samples.
    pose proof (own_put_sources m (_supervise_collectors fusion timing a now ups)
      (health_samples fusion timing status_dumps wall_clock (_supervise_collectors fusion timing a now ups) "running" env) i puts) as Ho.
    cbn [_supervised _supervise_collectors with_supervised] in Ho. rewrite supervise_length in Ho. apply Ho.
    eapply source_ok_same; [|exact Hok]. split_and!; [symmetry; apply supervise_queue_at|done..].
  - destruct o; eapply source_ok_same; [|done| |done| |done| |done]; done.
  - eapply source_ok_same; [|done]; done.
  - destruct (a_stop a); [|done].
    pose proof (on_supervised_sources m a j stopped [] i puts) as Hj. rewrite app_nil_r. destruct (_ && _) in Hj; rewrite app_nil_r in Hj; by apply Hj.
  - destruct (a_at a) eqn:Hat; try done. destruct (a_stop a && all_stopped _ _ a); [|done]. cbn [andb].
    eapply source_ok_same; [apply begin_sources; by cbn; rewrite Hat|]. by apply own_put_sources.
Qed.

Lemma run_sources m a sts i puts : source_ok m a i puts -> source_ok m (run a sts) i (puts ++ put_run a sts i).
Proof.
  revert a puts; induction sts as [|st sts IH]; intros a puts Hok; cbn; [by rewrite app_nil_r|].
  rewrite app_assoc. by apply IH, turn_sources.
Qed.

(** * Batches *)

Definition batch_line (vehicle : string) (b : TickBatch) : string * payload * string :=
  ("tele." +:+ vehicle +:+ "." +:+ tb_source_class b, tb_payload b, tb_msg_id b).
Definition queued_line (q : _QueuedBatch (P := payload)) : string * payload * string := (q_subject q, q_payload q, q_msg_id q).

(** Every batch flushed is submitted, in order, but for those in hand; and the
    publisher accounts for every batch submitted. *)
Record batches_ok (a : Agent) : Prop := BatchesOk {
  sent_flushed : map queued_line (a_submitted a) ++ map (batch_line (vehicle_id fusion timing a)) (unsent (a_at a))
                 = map (batch_line (vehicle_id fusion timing a)) (a_flushed a);
  sent_published : pub_inv size (a_publisher a) (a_acked a) (a_submitted a)
}.

Lemma batches_same a b :
  vehicle_id fusion timing a = vehicle_id fusion timing b -> a_submitted a = a_submitted b -> a_flushed a = a_flushed b ->
  a_publisher a = a_publisher b -> a_acked a = a_acked b -> unsent (a_at a) = unsent (a_at b) -> batches_ok a -> batches_ok b.
Proof. intros E1 E2 E3 E4 E5 E6 [H1 H2]. split; congruence. Qed.

Lemma begin_batches a o : unsent (a_at a) = [] -> batches_ok a -> batches_ok (begin fusion timing adopt a o).
Proof.
  intros Hu. destruct (begin_fields a o) as (_ & _ & _ & _ & Ea & Ep & Es & Ef & Ek & _ & Ev & _).
  apply batches_same; try done. by rewrite Ea, Hu.
Qed.

Lemma raised_batches a o e : unsent (a_at a) = [] -> batches_ok a -> batches_ok (raised fusion timing adopt a o e).
Proof. intros Hu Hok. destruct o; [by apply begin_batches|by apply (batches_same a)..]. Qed.

Lemma pipeline_batches a now : batches_ok a -> batches_ok (pipeline_turn fusion timing adopt size wall_clock fuel a now).
Proof.
  intros Hok. unfold pipeline_turn. destruct (a_at a) as [|o j|o j [|s todo]|o [|b todo]|e|e] eqn:Hat; try done.
  - apply begin_batches; [by rewrite Hat|done].
  - destruct (drain_queue fusion timing a j) as [[a' l]|] eqn:Hd.
    + unfold drain_queue in Hd. destruct (supervised a !! j); [|destruct (_ =? _)%nat; [|done]];
        injection Hd as <- <-; apply (batches_same a); try done; by rewrite Hat.
    + destruct (flush _ _ _ _) as [p [batches|e]].
      * destruct Hok as [H1 H2]. split; [|exact H2]. cbn. rewrite Hat in H1; cbn in H1. rewrite app_nil_r in H1. by rewrite H1, map_app.
      * apply raised_batches; [by cbn; rewrite Hat|]. by apply (batches_same a).
  - apply (batches_same a); try done. by rewrite Hat.
  - destruct (feed_one _ _ _ a j s) as [p [u|e]].
    + apply (batches_same a); try done; cbn; [by rewrite app_nil_r|by rewrite Hat].
    + apply raised_batches; [by cbn; rewrite Hat|]. apply (batches_same a); try done. cbn. by rewrite !app_nil_r.
  - unfold drained. apply (batches_same a); try done. rewrite Hat. by destruct o.
  - destruct Hok as [H1 H2]. rewrite Hat in H1; cbn in H1. split; cbn.
    + rewrite map_app, <- app_assoc. exact H1.
    + rewrite app_nil_r. by apply submit_inv.
Qed.

Lemma on_supervised_batches a j f : batches_ok a -> batches_ok (on_supervised fusion timing a j f).
Proof. intros Hok. unfold on_supervised. destruct (_ !! _); [by apply (batches_same a)|done]. Qed.

Lemma turn_batches a st : batches_ok a -> batches_ok (turn a st).
Proof.
  intros Hok. destruct st as [j s|j|payload w|now|now ups env|o| |j|env]; cbn [agent_turn].
  - by apply on_supervised_batches.
  - by apply on_supervised_batches.
  - unfold _on_session_payload. destruct (update_from_bytes _ _ _ _ _) as [store [session|]]; by apply (batches_same a).
  - by apply pipeline_batches.
  - destruct (a_stop a); [done|]. by apply (batches_same a).
  - destruct o as [item| | |]; [done|..]; destruct Hok as [H1 H2]; split; cbn; rewrite ?app_nil_r; try exact H1;
      [by apply fill_inv|by apply ack_inv|by apply requeue_inv].
  - by apply (batches_same a).
  - destruct (a_stop a); [by apply on_supervised_batches|done].
  - destruct (a_at a) eqn:Hat; try done. destruct (_ && _); [|done]. apply begin_batches; [by cbn; rewrite Hat|]. by apply (batches_same a).
Qed.

Lemma on_supervised_length a j f : length (supervised (on_supervised fusion timing a j f)) = length (supervised a).
Proof. unfold on_supervised. destruct (_ !! _); [cbn; apply length_insert|done]. Qed.

Lemma pipeline_length a now : length (supervised (pipeline_turn fusion timing adopt size wall_clock fuel a now)) = length (supervised a).
Proof.
  assert (forall b o, supervised (begin fusion timing adopt b o) = supervised b) as Hb by (intros b o; apply begin_fields).
  assert (forall b o e, supervised (raised fusion timing adopt b o e) = supervised b) as Hr by (intros b [] e; [apply Hb|done..]).
  unfold pipeline_turn. destruct (a_at a) as [|o j|o j [|s todo]|o [|b todo]|e|e]; try done.
  - by rewrite Hb.
  - unfold drain_queue. destruct (supervised a !! j); [cbn; apply length_insert|]. destruct (_ =? _)%nat; [done|].
    destruct (flush _ _ _ _) as [p [batches|e]]; [done|by rewrite Hr].
  - destruct (feed_one _ _ _ a j s) as [p [u|e]]; [done|by rewrite Hr].
Qed.

Lemma turn_length a st : length (supervised (turn a st)) = length (supervised a).
Proof.
  destruct st as [j s|j|payload w|now|now ups env|o| |j|env]; cbn [agent_turn]; try apply on_supervised_length; try done.
  - unfold _on_session_payload. by destruct (update_from_bytes _ _ _ _ _) as [store [session|]].
  - apply pipeline_length.
  - destruct (a_stop a); [done|]. apply supervise_length.
  - by destruct o.
  - destruct (a_stop a); [apply on_supervised_length|done].
  - destruct (a_at a); try done. destruct (_ && _); [|done]. by rewrite (proj1 (begin_fields _ _)).
Qed.

(** * From the start *)

Abbreviation init := (agent_init fusion timing adopt json_loads).

Lemma names_supervised maxlen (loads : string -> res ()) names l :
  res_map (fun name => s ← fresh_supervised maxlen name; _ ← loads name; Ok s) names = Ok l ->
  Forall2 (fun name s => fresh_supervised maxlen name = Ok s) names l.
Proof. apply res_map_Forall2. intros name s (s' & Hs & (u & _ & [= <-])%res_bind_Ok)%res_bind_Ok. exact Hs. Qed.

Lemma init_shape settings vehicle catalog seq file tapp fapp loads a :
  init settings vehicle catalog seq file tapp fapp loads = Ok a ->
  Forall2 (fun name s => fresh_supervised (queue_maxlen settings) name = Ok s) (collector_names vehicle) (supervised a) /\
  queue_init DERIVED_SOURCE_CLASS (queue_maxlen settings) = Ok (own_queue a) /\
  publisher_init (Z.to_nat (publish_window settings)) (publish_buffer_bytes settings) = Ok (a_publisher a) /\
  a_at a = Resting /\ a_fed a = [] /\ a_lost a = [] /\ a_flushed a = [] /\ a_submitted a = [] /\ a_acked a = [] /\
  (exists store, store_init json_loads file = Ok store /\ session_store fusion timing a = store /\ _session_inbox fusion timing a = None /\
     pipeline_init fusion timing catalog seq (tick_ms settings) ((fun app => adopt app (_current store)) <$> tapp) fapp = Ok (a_pipeline a) /\
     Agent.adopted fusion timing a = match tapp with Some _ => [_current store] | None => [] end).
Proof.
  unfold agent_init. intros (store & Hs & (p & Hp & (pub & Hpub & (l & Hl%names_supervised & (own & Ho & [= <-])%res_bind_Ok)%res_bind_Ok)%res_bind_Ok)%res_bind_Ok)%res_bind_Ok.
  split_and!; try done. exists store. split_and!; try done. by destruct tapp.
Qed.

Lemma queue_init_accounted name m q : queue_init (A := Sample) name m = Ok q -> accounted (Z.to_nat m) (q, []) [].
Proof. intros Hq. exact (qrun_accounted name m q [] Hq). Qed.

Lemma init_sources settings vehicle catalog seq file tapp fapp loads a i :
  init settings vehicle catalog seq file tapp fapp loads = Ok a -> (i <= length (collector_names vehicle))%nat ->
  source_ok (Z.to_nat (queue_maxlen settings)) (agent_start fusion timing a) i [].
Proof.
  intros (Hs & Ho & _ & Hat & Hf & Hl & _)%init_shape Hi. pose proof (Forall2_length _ _ _ Hs) as Hn.
  assert (exists q name, queue_at (agent_start fusion timing a) i = Some q /\ queue_init name (queue_maxlen settings) = Ok q) as (q & name & Hq & Hinit).
  { unfold queue_at, agent_start; cbn [_supervised with_supervised _agent_queue]. rewrite list_lookup_fmap, length_map.
    destruct (supervised a !! i) as [s|] eqn:Es; cbn.
    - destruct (Forall2_lookup_r _ _ _ _ _ Hs Es) as (name & _ & (q & Hq & [= <-])%res_bind_Ok). cbn. eauto.
    - apply lookup_ge_None in Es. destruct (Nat.eqb_spec i (length (supervised a))); [|lia]. eauto. }
  exists q, []. split_and!; [done|by eapply queue_init_accounted|..]; cbn; rewrite Hat, Hf, ?Hl; done.
Qed.

(** * Shutdown *)

Lemma flush_windows_staged n p l acc : pl_staged fusion timing (flush_windows fusion timing n wall_clock p l acc).1 = pl_staged fusion timing p.
Proof.
  revert p l acc; induction n as [|n IH]; intros p [|x l] acc; cbn [flush_windows]; [done..|].
  destruct (f_round _); [|done]. destruct (take_window _ _ _) as [w rest]. destruct (add_all _ w) as [b [u|e]]; [|done].
  destruct (tick b _ _) as [b' [out|e]]; [by rewrite IH|]. destruct (exn_kind e); try done; rewrite IH; cbn [pl_staged note_encode_failure];
    by destruct (note_failure_same fusion timing (set_batcher fusion timing p b') ("encode:" +:+ exn_msg e)) as (_ & _ & _ & -> & _).
Qed.

Lemma flush_staged p : pl_staged fusion timing (flush fusion timing wall_clock p).1 = [].
Proof. unfold flush. destruct (pl_staged _ _ p) eqn:E; [done|]. by rewrite flush_windows_staged. Qed.

(** What the last drain has done so far. *)
Definition empty_below (a : Agent) (k : nat) : Prop := forall i q, (i < k)%nat -> queue_at a i = Some q -> q_queue q = [].
Definition quiet (a : Agent) : Prop := a_stop a = true /\ all_stopped fusion timing a = true.
Definition final_ok (a : Agent) : Prop :=
  match a_at a with
  | Next FinalStatus j => quiet a /\ empty_below a j
  | Feeding FinalStatus j _ => quiet a /\ empty_below a (S j)
  | Submitting FinalStatus _ | Stopped None =>
      quiet a /\ empty_below a (S (length (supervised a))) /\ pl_staged fusion timing (a_pipeline a) = []
  | _ => True
  end.

Lemma final_same a b :
  supervised a = supervised b -> own_queue a = own_queue b -> a_stop a = a_stop b -> a_at a = a_at b ->
  pl_staged fusion timing (a_pipeline a) = pl_staged fusion timing (a_pipeline b) -> final_ok a -> final_ok b.
Proof.
  intros E1 E2 E3 E4 E5 Hok. unfold final_ok, quiet, empty_below, queue_at, all_stopped in *. rewrite <- E1, <- E2, <- E3, <- E4, <- E5. exact Hok.
Qed.

Lemma final_not a o : a_at a = Resting \/ a_at a = Ended o \/ (exists e, a_at a = Stopped (Some e)) -> final_ok a.
Proof. unfold final_ok. by intros [->|[->|[e ->]]]. Qed.

Lemma begin_final a o : (o = FinalStatus -> quiet a) -> final_ok (begin fusion timing adopt a o).
Proof.
  intros Hq. destruct (begin_fields a o) as (E1 & _ & _ & _ & E5 & _ & _ & _ & _ & E10 & _).
  unfold final_ok, quiet, all_stopped. rewrite E5, E1, E10. destruct o; try done. split; [by apply Hq|]. intros i q Hi; lia.
Qed.

Lemma raised_final a o e : final_ok (raised fusion timing adopt a o e).
Proof. destruct o; [by apply begin_final|done..]. Qed.

Lemma drain_queue_final a o j a' l :
  a_at a = Next o j -> final_ok a -> drain_queue fusion timing a j = Some (a', l) ->
  final_ok (with_at fusion timing a' (Feeding o j l)) /\ length (supervised a') = length (supervised a) /\ a_stop a' = a_stop a /\
  (j <= length (supervised a))%nat.
Proof.
  intros Hat Hok Hd. unfold drain_queue in Hd.
  assert (forall i, queue_at a' i = if (i =? j)%nat then (fun q => (drain q).1) <$> queue_at a i else queue_at a i) as Hqueue.
  { intros i. destruct (supervised a !! j) as [c|] eqn:Ec.
    - injection Hd as <- <-. rewrite (queue_at_insert a j c) by done. destruct (Nat.eqb_spec i j) as [->|E];
        [rewrite decide_True by done|by rewrite decide_False]. unfold queue_at. by rewrite Ec.
    - destruct (Nat.eqb_spec j (length (supervised a))) as [->|]; [|done]. injection Hd as <- <-.
      unfold queue_at; cbn [_supervised with_agent_queue _agent_queue]. destruct (Nat.eqb_spec i (length (supervised a))) as [->|E]; [by rewrite Ec|].
      done. }
  assert (length (supervised a') = length (supervised a) /\ a_stop a' = a_stop a /\ all_stopped fusion timing a' = all_stopped fusion timing a /\
          (j <= length (supervised a))%nat) as (El & Es & Ea & Hj).
  { destruct (supervised a !! j) as [c|] eqn:Ec.
    - injection Hd as <- <-. cbn. rewrite length_insert. split_and!; [done..| |by apply Nat.lt_le_incl; eapply lookup_lt_Some].
      unfold all_stopped; cbn.
      rewrite <- (take_drop_middle (supervised a) j c) by done. rewrite insert_app_r_alt by (rewrite length_take; lia).
      rewrite length_take_le by (apply Nat.lt_le_incl; by eapply lookup_lt_Some). rewrite Nat.sub_diag; cbn.
      by rewrite !forallb_app.
    - destruct (Nat.eqb_spec j (length (supervised a))) as [->|]; [|done]. injection Hd as <- <-. done. }
  split_and!; [|done..]. unfold final_ok in *; cbn [at_ with_at]; rewrite Hat in Hok. destruct o; [done..|].
  destruct Hok as [[H1 H2] H3]. split.
  - split; [by rewrite <- H1, <- Es|by rewrite <- H2, <- Ea].
  - intros i q Hi Hq. change (queue_at (with_at _ _ _ _) i) with (queue_at a' i) in Hq. rewrite Hqueue in Hq.
    destruct (Nat.eqb_spec i j) as [->|E].
    + destruct (queue_at a j); [|done]. by injection Hq as <-.
    + apply (H3 i q); [lia|done].
Qed.

Lemma pipeline_final a now : final_ok a -> final_ok (pipeline_turn fusion timing adopt size wall_clock fuel a now).
Proof.
  intros Hok. unfold pipeline_turn. destruct (a_at a) as [|o j|o j [|s todo]|o [|b todo]|e|e] eqn:Hat; try done.
  - apply begin_final. by destruct (a_stop a).
  - destruct (drain_queue fusion timing a j) as [[a' l]|] eqn:Hd; [by apply (drain_queue_final a)|].
    pose proof (flush_staged (a_pipeline a)) as Hst.
    destruct (flush _ _ _ _) as [p [batches|e]]; [|apply raised_final].
    unfold final_ok in *; rewrite Hat in Hok. destruct o; [done..|]. cbn. destruct Hok as [H1 H2]. split_and!; [done| |done].
    intros i q Hi Hq. assert (i < j \/ j <= i)%nat as [Hl|Hl] by lia; [by apply (H2 i)|exfalso].
    unfold drain_queue in Hd. destruct (supervised a !! j) as [c|] eqn:Ec; [done|].
    destruct (Nat.eqb_spec j (length (supervised a))); [done|]. apply lookup_ge_None in Ec. cbn in Hi. lia.
  - unfold final_ok in *; rewrite Hat in Hok. by destruct o.
  - unfold final_ok in Hok; rewrite Hat in Hok. destruct (feed_one _ _ _ a j s) as [p [u|e]]; [|apply raised_final]. by destruct o.
  - unfold final_ok in Hok; rewrite Hat in Hok. by destruct o.
  - unfold final_ok in Hok; rewrite Hat in Hok. by destruct o.
Qed.

(** A quiet agent's collectors put nothing. *)
Lemma on_supervised_quiet a j f :
  all_stopped fusion timing a = true -> (forall c, running c = false -> expected c = false -> queue (f c) = queue c /\ running (f c) = false /\ expected (f c) = false) ->
  all_stopped fusion timing (on_supervised fusion timing a j f) = true /\ (forall i, queue_at (on_supervised fusion timing a j f) i = queue_at a i) /\
  length (supervised (on_supervised fusion timing a j f)) = length (supervised a).
Proof.
  intros Ha Hf. unfold on_supervised. destruct (supervised a !! j) as [c|] eqn:Ec; [|done].
  assert (forall c, c ∈ supervised a -> running c = false /\ expected c = false) as Hall.
  { intros c' Hc'. unfold all_stopped in Ha. rewrite forallb_forall in Ha. specialize (Ha c' (proj1 (list_elem_of_In _ _) Hc')).
    by destruct (running c'), (expected c'). }
  destruct (Hall c (list_elem_of_lookup_2 _ _ _ Ec)) as [Hr He]. destruct (Hf c Hr He) as (Hq & Hr' & He'). split_and!.
  - unfold all_stopped; cbn. apply forallb_forall. intros c' Hc'%list_elem_of_In. apply list_elem_of_lookup in Hc' as [i Hi].
    destruct (decide (i = j)) as [->|E].
    + rewrite list_lookup_insert_eq in Hi by (by eapply lookup_lt_Some). injection Hi as <-. by rewrite Hr', He'.
    + rewrite list_lookup_insert_ne in Hi by done. destruct (Hall c' (list_elem_of_lookup_2 _ _ _ Hi)) as [-> ->]. done.
  - intros i. rewrite (queue_at_insert a j c) by done. case_decide; [|done]. subst. unfold queue_at. by rewrite Ec, Hq.
  - cbn. by rewrite length_insert.
Qed.

Lemma on_supervised_final a j f :
  (forall c, running c = false -> expected c = false -> queue (f c) = queue c /\ running (f c) = false /\ expected (f c) = false) ->
  final_ok a -> final_ok (on_supervised fusion timing a j f).
Proof.
  intros Hf Hok. assert (a_at (on_supervised fusion timing a j f) = a_at a /\ a_stop (on_supervised fusion timing a j f) = a_stop a /\
    a_pipeline (on_supervised fusion timing a j f) = a_pipeline a) as (E1 & E2 & E3) by (unfold on_supervised; by destruct (_ !! _)).
  assert (forall k k', quiet a -> empty_below a k -> k = k' -> quiet (on_supervised fusion timing a j f) /\ empty_below (on_supervised fusion timing a j f) k') as Hk.
  { intros k k' [Q1 Q2] He <-. destruct (on_supervised_quiet a j f Q2 Hf) as (Q3 & Q4 & _). split; [by split; [rewrite E2|]|].
    intros i q Hi. rewrite Q4. by apply He. }
  unfold final_ok in *. rewrite E1, E3. destruct (a_at a) as [|o i|o i l|o l|e|e] eqn:Hat; try done; try destruct o; try destruct e; try done;
    try (destruct Hok as [Q1 Q2]; by eapply Hk).
  all: destruct Hok as (Q1 & Q2 & Q3), (on_supervised_quiet a j f (proj2 Q1) Hf) as (_ & _ & El); rewrite El;
    by destruct (Hk _ _ Q1 Q2 eq_refl).
Qed.

Lemma turn_final a st : final_ok a -> final_ok (turn a st).
Proof.
  intros Hok. destruct st as [j s|j|payload w|now|now ups env|o| |j|env]; cbn [agent_turn].
  - apply on_supervised_final; [|done]. intros c Hr. by rewrite Hr.
  - by apply on_supervised_final.
  - unfold _on_session_payload. destruct (update_from_bytes _ _ _ _ _) as [store [session|]]; by apply (final_same a).
  - by apply pipeline_final.
  - destruct (a_stop a) eqn:Es; [done|]. unfold final_ok, quiet in *; cbn. rewrite Es in *.
    destruct (a_at a) as [|[] |[]|[]| |[]]; try done; destruct Hok as [[? _] _]; done.
  - destruct o; [done|by apply (final_same a)..].
  - unfold final_ok, quiet in *; cbn. destruct (a_at a) as [|[] |[]|[]| |[]]; try done; by destruct Hok as [[_ ?] ?].
  - destruct (a_stop a); [|done]. by apply on_supervised_final.
  - destruct (a_at a) eqn:Hat; try done. destruct (a_stop a && all_stopped _ _ a) eqn:E; [|done].
    apply andb_prop in E as [E1 E2]. by apply begin_final.
Qed.

Lemma run_keeps (P : Agent -> Prop) a sts : (forall b st, P b -> P (turn b st)) -> P a -> P (run a sts).
Proof. intros Hstep. revert a; induction sts as [|st sts IH]; intros a Ha; [done|]. apply IH. by apply Hstep. Qed.

(** C3. However collectors, health loop, pipeline thread, publisher and broker
    interleave, and whatever raises: of every source (each collector, and the
    agent's own health samples) the samples put are the ones the pipeline was
    fed, those in hand or queued, and the ones counted as dropped or left
    behind by an exception, and the first keep their order; the queue keeps its
    bound; every batch flushed is submitted in order or in hand; and of those
    submitted the acked, the window and the buffer are all but the ones counted
    as shed. *)
Theorem agent_accounts (settings : AgentSettings) (vehicle : VehicleConfig) (catalog : RuntimeCatalog) (seq : Z) (file : session_file)
    (tapp : option (app_state timing)) (fapp : option (app_state fusion)) (loads : string -> res ()) (a : Agent) (sts : list step) :
  0 <= publish_buffer_bytes settings -> init settings vehicle catalog seq file tapp fapp loads = Ok a ->
  let a0 := agent_start fusion timing a in
  let b := run a0 sts in
  (forall i, (i <= length (collector_names vehicle))%nat -> exists q, queue_at b i = Some q /\
    (length (q_queue q) <= Z.to_nat (queue_maxlen settings))%nat /\
    (of_index i (a_fed b) ++ todo_of i (a_at b) ++ q_queue q) `sublist_of` put_run a0 sts i /\
    length (put_run a0 sts i) =
      (length (of_index i (a_fed b)) + length (todo_of i (a_at b)) + length (q_queue q) + q_dropped q + length (of_index i (a_lost b)))%nat) /\
  map queued_line (a_submitted b) ++ map (batch_line (vehicle_id fusion timing b)) (unsent (a_at b))
    = map (batch_line (vehicle_id fusion timing b)) (a_flushed b) /\
  (a_acked b ++ pending (a_publisher b) ++ _buffer (a_publisher b)) `sublist_of` a_submitted b /\
  Z.of_nat (length (a_submitted b)) =
    Z.of_nat (length (a_acked b ++ pending (a_publisher b) ++ _buffer (a_publisher b))) + _publish_drops (a_publisher b).
Proof.
  intros Hbytes Hinit a0 b. split.
  - intros i Hi. destruct (run_sources _ a0 sts i [] (init_sources _ _ _ _ _ _ _ _ _ i Hinit Hi)) as (q & drained & Hq & Ha & Hs & Hl).
    destruct Ha as ([_ Hlen] & Hm & Hcount & Hsub & _); cbn [fst snd] in *. exists q. split_and!; [done|by rewrite <- Hm| |].
    + etransitivity; [|exact Hsub]. rewrite app_assoc. by apply sublist_app.
    + cbn [app] in Hcount. fold a0 b in Hl. rewrite Hcount. fold a0 b. lia.
  - assert (batches_ok b) as [H1 [H2 H3 H4 H5]].
    { apply run_keeps; [apply turn_batches|].
      destruct (init_shape _ _ _ _ _ _ _ _ _ Hinit) as (_ & _ & Hp & Hat & _ & _ & Hf & Hs & Hk & _).
      split; cbn; rewrite ?Hat, ?Hf, ?Hs, ?Hk; [done|]. by eapply init_inv. }
    split_and!; [exact H1|exact H3|]. rewrite !length_app. lia.
Qed.

(** C4. When a stop has run to its end, every sample any collector put before it was
    stopped, and every health sample, has been fed to the pipeline but for
    those counted as dropped or left behind by an exception before; nothing is
    queued, nothing is staged, and every batch is with the publisher. *)
Theorem stop_leaves_nothing (settings : AgentSettings) (vehicle : VehicleConfig) (catalog : RuntimeCatalog) (seq : Z) (file : session_file)
    (tapp : option (app_state timing)) (fapp : option (app_state fusion)) (loads : string -> res ()) (a : Agent) (sts : list step) :
  0 <= publish_buffer_bytes settings -> init settings vehicle catalog seq file tapp fapp loads = Ok a ->
  let a0 := agent_start fusion timing a in
  let b := run a0 sts in
  a_at b = Stopped None ->
  (forall i, (i <= length (collector_names vehicle))%nat -> exists q, queue_at b i = Some q /\ q_queue q = [] /\
    of_index i (a_fed b) `sublist_of` put_run a0 sts i /\
    length (put_run a0 sts i) = (length (of_index i (a_fed b)) + q_dropped q + length (of_index i (a_lost b)))%nat) /\
  pl_staged fusion timing (a_pipeline b) = [] /\
  map queued_line (a_submitted b) = map (batch_line (vehicle_id fusion timing b)) (a_flushed b).
Proof.
  intros Hbytes Hinit a0 b Hat. destruct (agent_accounts settings vehicle catalog seq file tapp fapp loads a sts Hbytes Hinit) as (Hsrc & Hb & _).
  fold a0 b in Hsrc, Hb. rewrite Hat in *; cbn [unsent map todo_of] in *. rewrite app_nil_r in Hb.
  pose proof (init_shape _ _ _ _ _ _ _ _ _ Hinit) as (Hn%Forall2_length & _ & _ & Hat0 & _).
  assert (final_ok b /\ length (supervised b) = length (collector_names vehicle)) as [Hf El].
  { apply (run_keeps (fun b => final_ok b /\ length (supervised b) = length (collector_names vehicle))).
    - intros c st [H1 H2]. split; [by apply turn_final|]. rewrite <- H2. apply turn_length.
    - split; [by unfold final_ok, a0, agent_start; cbn; rewrite Hat0|]. cbn. by rewrite length_map. }
  unfold final_ok in Hf; rewrite Hat in Hf. destruct Hf as (_ & He & Hst). split_and!; [|done|done].
  intros i Hi. destruct (Hsrc i Hi) as (q & Hq & _ & Hs & Hl). exists q. assert (q_queue q = []) as E by (apply (He i q); [lia|done]).
  rewrite E in *; cbn in *. rewrite app_nil_r in Hs. split_and!; [done..|]. rewrite Hl. lia.
Qed.

(** ** A stop ends *)

Section Drain.
Context (now : Z) (n : nat).
Abbreviation pturn := (pipeline_turn fusion timing adopt size wall_clock fuel).

Definition at_end (a : Agent) : Prop := match a_at a with Ended _ | Stopped _ => True | _ => False end.
Definition reaches (a : Agent) : Prop := exists k, at_end (run a (repeat (APipeline now) k)).
Definition stopping (a : Agent) : Prop := a_stop a = true /\ length (supervised a) = n.

Lemma reaches_step a : reaches (pturn a now) -> reaches a.
Proof. intros [k Hk]. by exists (S k). Qed.
Lemma reaches_end a : at_end a -> reaches a.
Proof. intros Ha. by exists 0%nat. Qed.

Lemma stopping_turn a : stopping a -> stopping (pturn a now).
Proof.
  intros [H1 H2]. split; [|by rewrite pipeline_length]. rewrite <- H1.
  assert (forall b o, a_stop (begin fusion timing adopt b o) = a_stop b) as Hb by (intros b o; apply begin_fields).
  assert (forall b o e, a_stop (raised fusion timing adopt b o e) = a_stop b) as Hr by (intros b [] e; [apply Hb|done..]).
  unfold pipeline_turn. destruct (a_at a) as [|o j|o j [|s todo]|o [|b todo]|e|e]; try done.
  - unfold drain_queue. destruct (supervised a !! j); [done|]. destruct (_ =? _)%nat; [done|].
    destruct (flush _ _ _ _) as [p [batches|e]]; [done|by rewrite Hr].
  - destruct (feed_one _ _ _ a j s) as [p [u|e]]; [done|by rewrite Hr].
Qed.

Context (o : owner).
Context (Hraised : forall b e, stopping (raised fusion timing adopt b o e) -> reaches (raised fusion timing adopt b o e)).
Context (Hdrained : forall b, stopping b -> a_at b = a_at (drained fusion timing b o) -> reaches b).

Lemma submitting_reaches todo a : stopping a -> a_at a = Submitting o todo -> reaches a.
Proof.
  revert a; induction todo as [|x todo IH]; intros a Hs Hat; apply reaches_step; pose proof (stopping_turn a Hs) as Ht.
  - apply Hdrained; [done|]. unfold pipeline_turn. by rewrite Hat.
  - apply IH; [done|]. unfold pipeline_turn. by rewrite Hat.
Qed.

Lemma feeding_reaches todo j a :
  (forall b, stopping b -> a_at b = Next o (S j) -> reaches b) -> stopping a -> a_at a = Feeding o j todo -> reaches a.
Proof.
  intros Hnext. revert a; induction todo as [|x todo IH]; intros a Hs Hat; apply reaches_step; pose proof (stopping_turn a Hs) as Ht;
    unfold pipeline_turn in *; rewrite Hat in *.
  - by apply Hnext.
  - destruct (feed_one _ _ _ a j x) as [p [u|e]]; [by apply IH|by apply Hraised].
Qed.

Lemma next_reaches k j a : (n + 1 - j <= k)%nat -> stopping a -> a_at a = Next o j -> reaches a.
Proof.
  revert j a; induction k as [|k IH]; intros j a Hk Hs Hat; apply reaches_step; pose proof (stopping_turn a Hs) as Ht;
    unfold pipeline_turn in *; rewrite Hat in *;
    (destruct (drain_queue fusion timing a j) as [[a' l]|] eqn:Hd;
      [|destruct (flush _ _ _ _) as [p [batches|e]]; [by eapply submitting_reaches|by apply Hraised]]).
  - exfalso. destruct Hs as [_ Hn]. unfold drain_queue in Hd.
    assert (supervised a !! j = None) as E by (apply lookup_ge_None; lia). rewrite E in Hd.
    destruct (Nat.eqb_spec j (length (supervised a))); [lia|done].
  - eapply (feeding_reaches l j); [|exact Ht|done]. intros b Hb Hat'. apply (IH (S j)); [lia|done..].
Qed.
End Drain.

Lemma final_reaches now n o a j :
  match o with Loop => False | _ => True end -> stopping n a -> a_at a = Next o j -> reaches now a.
Proof.
  intros Ho Hs Hat. eapply (next_reaches now n o); [| |reflexivity|exact Hs|exact Hat].
  - intros b e _. apply reaches_end. by destruct o.
  - intros b _ Hb. apply reaches_end. unfold at_end. rewrite Hb. by destruct o.
Qed.

(** Once [stop] is called the pipeline thread comes to its end, from wherever it
    is and whatever raises: after finitely many of its own turns it has left
    its loop and run the last drain. *)
Theorem pipeline_thread_ends (a : Agent) (now : Z) :
  a_stop a = true -> reaches now a.
Proof.
  intros Hstop. set (n := length (supervised a)). assert (stopping n a) as Hs by done. clearbody n.
  assert (forall b, stopping n b -> a_at b = Resting -> reaches now b) as Hrest.
  { intros b Hb Hat. apply reaches_step. pose proof (stopping_turn now n b Hb) as Ht. unfold pipeline_turn in *. rewrite Hat, (proj1 Hb) in *.
    eapply (final_reaches now n (Finally None)); [done|exact Ht|apply begin_fields]. }
  assert (forall o b e, stopping n (raised fusion timing adopt b o e) -> reaches now (raised fusion timing adopt b o e)) as Hraised.
  { intros [] b e Hb; cbn [raised] in *; [|by apply reaches_end..].
    eapply (final_reaches now n (Finally (Some e))); [done|exact Hb|apply begin_fields]. }
  assert (forall o b, stopping n b -> a_at b = a_at (drained fusion timing b o) -> reaches now b) as Hdrained.
  { intros [] b Hb Hat; [by apply Hrest|by apply reaches_end; unfold at_end; rewrite Hat..]. }
  assert (forall o k b j, stopping n b -> a_at b = Next o j -> (n + 1 - j <= k)%nat -> reaches now b) as Hnext.
  { intros o k b j Hb Hat Hk. exact (next_reaches now n o (Hraised o) (Hdrained o) k j b Hk Hb Hat). }
  destruct (a_at a) as [|o j|o j todo|o todo|e|e] eqn:Hat; [by apply Hrest|by apply (Hnext o (n + 1 - j)%nat a j)| | |by apply reaches_end; unfold at_end; rewrite Hat..].
  - exact (feeding_reaches now n o (Hraised o) todo j a (fun b Hb Hj => Hnext o _ b (S j) Hb Hj (le_n _)) Hs Hat).
  - exact (submitting_reaches now n o (Hdrained o) todo a Hs Hat).
Qed.

(** * Sessions *)

Abbreviation timed p := (is_Some (pl_timing fusion timing p)).

Lemma note_failure_timed p k : timed p -> timed (_note_failure fusion timing p k).
Proof. by destruct (note_failure_same fusion timing p k) as (_ & _ & _ & _ & -> & _). Qed.

Lemma tap_fusion_timed p ch s : timed p -> timed (tap_fusion fusion timing p ch s).1.
Proof. unfold tap_fusion. repeat case_match; done. Qed.
Lemma tap_timing_timed p ch s : timed p -> timed (tap_timing fusion timing p ch s).1.
Proof. unfold tap_timing. repeat case_match; done. Qed.
Lemma stage_timed p c ch pol s : timed p -> timed (filter_and_stage fusion timing p c ch pol s).1.
Proof.
  intros Hp. unfold filter_and_stage. destruct (Rbe.accept _ _ _ _) as [r [[]|e]]; try done.
  destruct (exn_kind e); try done. by apply note_failure_timed.
Qed.

Lemma each_timed (f : Pipeline fusion timing -> Sample -> option (Pipeline fusion timing * res ())) l p p' r :
  (forall p s p' r, timed p -> f p s = Some (p', r) -> timed p') -> timed p -> each fusion timing f p l = Some (p', r) -> timed p'.
Proof.
  intros Hf. revert p; induction l as [|s l IH]; intros p Hp; cbn; [by intros [= <- <-]|].
  destruct (f p s) as [[q [u|e]]|] eqn:Eq; [|intros [= <- <-]; eauto|done]. apply IH. eauto.
Qed.

Lemma ingest_timed n p c s p' r : timed p -> ingest fusion timing n p c s = Some (p', r) -> timed p'.
Proof.
  revert p c s p' r; induction n as [|n IH]; intros p c s p' r Hp; cbn [ingest]; [done|].
  assert (forall q s q' r, timed q -> ingest fusion timing n q DERIVED_SOURCE_CLASS s = Some (q', r) -> timed q') as Hf
    by (intros q s1 q' r1 Hq Hr; exact (IH q _ s1 q' r1 Hq Hr)).
  destruct (pl_source_map _ _ p !! _) as [[id pol]|]; [|by intros [= <- <-]].
  pose proof (tap_fusion_timed p id s Hp) as H1. destruct (tap_fusion _ _ p id s) as [p1 [l1|e]]; [|by intros [= <- <-]].
  destruct (each _ _ _ p1 l1) as [[p2 [u2|e2]]|] eqn:E2; [|intros [= <- <-]; exact (each_timed _ _ _ _ _ Hf H1 E2)|done].
  assert (timed p2) as H2 by (exact (each_timed _ _ _ _ _ Hf H1 E2)).
  pose proof (tap_timing_timed p2 id s H2) as H3. destruct (tap_timing _ _ p2 id s) as [p3 [l3|e]]; [|by intros [= <- <-]].
  destruct (each _ _ _ p3 l3) as [[p4 [u4|e4]]|] eqn:E4; [|intros [= <- <-]; exact (each_timed _ _ _ _ _ Hf H3 E4)|done].
  assert (timed p4) as H4 by (exact (each_timed _ _ _ _ _ Hf H3 E4)).
  pose proof (stage_timed p4 c id pol s H4) as H5. intros [= Heq]. by rewrite Heq in H5.
Qed.

Lemma flush_timed p : timed p -> timed (flush fusion timing wall_clock p).1.
Proof.
  assert (forall n p l acc, timed p -> timed (flush_windows fusion timing n wall_clock p l acc).1) as Hw.
  { induction n as [|n IH]; intros q [|x l] acc Hq; cbn [flush_windows]; try done.
    destruct (f_round _); [|done]. destruct (take_window _ _ _) as [w rest]. destruct (add_all _ w) as [b [u|e]]; [|done].
    destruct (tick b _ _) as [b' [out|e]]; [by apply IH|]. destruct (exn_kind e); try done; apply IH; by apply note_failure_timed. }
  intros Hp. unfold flush. destruct (pl_staged _ _ p); [done|]. by apply Hw.
Qed.

Abbreviation a_inbox := (_session_inbox fusion timing).
Abbreviation a_adopted := (Agent.adopted fusion timing).
Abbreviation held := (fun a : Agent => _current (session_store fusion timing a)).

Definition accepted_in (st : step) : list (list (string * obj)) :=
  match st with ASession payload _ => match json_loads payload with Some (ODict d) => [d] | _ => [] end | _ => [] end.

Record session_inv (a : Agent) (all : list (list (string * obj))) : Prop := SessionInv {
  ses_timed : timed (a_pipeline a);
  ses_newest : match a_inbox a with Some s => s = held a | None => last (a_adopted a) = Some (held a) end;
  ses_order : (a_adopted a ++ opt_list (a_inbox a)) `sublist_of` all
}.

Lemma session_same a b all :
  (timed (a_pipeline a) -> timed (a_pipeline b)) -> a_inbox a = a_inbox b -> held a = held b -> a_adopted a = a_adopted b ->
  session_inv a all -> session_inv b all.
Proof. intros E1 E2 E3 E4 [H1 H2 H3]. split; [auto|..]; by rewrite <- ?E2, <- ?E3, <- ?E4. Qed.

Lemma begin_session a o all : session_inv a all -> session_inv (begin fusion timing adopt a o) all.
Proof.
  intros [[app Ht] H2 H3]. unfold begin. rewrite Ht. destruct (a_inbox a) as [s|] eqn:Ei.
  - split; cbn; [by eexists|by rewrite last_snoc, H2|by rewrite app_nil_r].
  - split; cbn; [by eexists|done|done].
Qed.

Lemma raised_session a o e all : session_inv a all -> session_inv (raised fusion timing adopt a o e) all.
Proof. intros Hi. destruct o; [by apply begin_session|by apply (session_same a)..]. Qed.

Lemma pipeline_session a now all : session_inv a all -> session_inv (pipeline_turn fusion timing adopt size wall_clock fuel a now) all.
Proof.
  intros Hi. unfold pipeline_turn. destruct (a_at a) as [|o j|o j [|s todo]|o [|b todo]|e|e]; try done.
  - by apply begin_session.
  - unfold drain_queue. destruct (supervised a !! j); [by apply (session_same a)|]. destruct (_ =? _)%nat; [by apply (session_same a)|].
    pose proof (flush_timed (a_pipeline a)) as Hp. destruct (flush _ _ _ _) as [p [batches|e]]; [|apply raised_session];
      apply (session_same a); try done; cbn; by rewrite ?app_nil_r.
  - by apply (session_same a).
  - assert (forall p r, feed_one fusion timing fuel a j s = (p, r) -> timed (a_pipeline a) -> timed p) as Hf.
    { intros p r. unfold feed_one. destruct (ingest _ _ _ _ _ _) as [x|] eqn:Ex; [intros ->|by intros [= <- <-]]. intros Hp. by eapply ingest_timed. }
    destruct (feed_one _ _ _ a j s) as [p [u|e]]; [|apply raised_session]; apply (session_same a); try done; try (by eapply Hf); cbn; by rewrite ?app_nil_r.
  - by apply (session_same a).
  - by apply (session_same a).
Qed.

Lemma on_supervised_session a j f all : session_inv a all -> session_inv (on_supervised fusion timing a j f) all.
Proof. intros Hi. unfold on_supervised. destruct (_ !! _); [by apply (session_same a)|done]. Qed.

Lemma turn_session a st all : session_inv a all -> session_inv (turn a st) (all ++ accepted_in st).
Proof.
  intros Hi. destruct st as [j s|j|payload w|now|now ups env|o| |j|env]; cbn [agent_turn accepted_in]; rewrite ?app_nil_r.
  - by apply on_supervised_session.
  - by apply on_supervised_session.
  - unfold _on_session_payload, update_from_bytes. destruct Hi as [H1 H2 H3].
    assert (forall u, session_inv (with_session fusion timing a (mkStore (ss_file (session_store fusion timing a)) (held a) u) (a_inbox a)) (all ++ [])) as Hkeep.
    { intros u. rewrite app_nil_r. by split. }
    destruct (json_loads payload) as [[| | | | | |d]|]; try (by apply Hkeep).
    split; cbn; [done|by destruct w|]. apply sublist_app; [|done]. etransitivity; [|exact H3]. by apply sublist_inserts_r.
  - by apply pipeline_session.
  - destruct (a_stop a); [done|by apply (session_same a)].
  - destruct o; [done|by apply (session_same a)..].
  - by apply (session_same a).
  - destruct (a_stop a); [by apply on_supervised_session|done].
  - destruct (a_at a); try done. destruct (_ && _); [|done]. apply begin_session. by apply (session_same a).
Qed.

Lemma run_session a sts all : session_inv a all -> session_inv (run a sts) (all ++ concat (map accepted_in sts)).
Proof.
  revert a all; induction sts as [|st sts IH]; intros a all Hi; cbn; [by rewrite app_nil_r|]. rewrite app_assoc. by apply IH, turn_session.
Qed.

(** The lap timer works under the session the car was last told of: whatever the
    threads do, the newest session the timing application has taken is the one
    the store holds, unless that one waits in the inbox for the pipeline's next
    turn; sessions are taken in the order they came, older ones skipped. *)
Theorem lap_timer_follows_the_session (settings : AgentSettings) (vehicle : VehicleConfig) (catalog : RuntimeCatalog) (seq : Z)
    (file : session_file) (app : app_state timing) (fapp : option (app_state fusion)) (loads : string -> res ()) (a : Agent) (sts : list step) :
  init settings vehicle catalog seq file (Some app) fapp loads = Ok a ->
  let b := run (agent_start fusion timing a) sts in
  match a_inbox b with Some s => s = held b | None => last (a_adopted b) = Some (held b) end /\
  (a_adopted b ++ opt_list (a_inbox b)) `sublist_of` held a :: concat (map accepted_in sts).
Proof.
  intros Hinit b. pose proof (init_shape _ _ _ _ _ _ _ _ _ Hinit) as (_ & _ & _ & _ & _ & _ & _ & _ & _ & store & _ & Es & Ei & Ep & Ea).
  assert (session_inv (agent_start fusion timing a) [held a]) as Hi.
  { split; cbn.
    - unfold pipeline_init in Ep. apply res_bind_Ok in Ep as (bt & _ & [= <-]). by eexists.
    - by rewrite Ei, Ea, Es.
    - by rewrite Ei, Ea, Es. }
  destruct (run_session _ sts _ Hi) as [_ H2 H3]. by split.
Qed.

(** * Restarts *)

(** The waits a collector goes through: doubled from one second, thirty at most. *)
Definition waits : list float := [f_of_Z 1; f_of_Z 2; f_of_Z 4; f_of_Z 8; f_of_Z 16; f_of_Z 30].

Lemma waits_doubled w : w ∈ waits -> doubled w _RESTART_BACKOFF_MAX_S ∈ waits.
Proof.
  assert (map (fun w => doubled w _RESTART_BACKOFF_MAX_S) waits = [f_of_Z 2; f_of_Z 4; f_of_Z 8; f_of_Z 16; f_of_Z 30; f_of_Z 30]) as E
    by (vm_compute; reflexivity).
  intros Hw. assert (doubled w _RESTART_BACKOFF_MAX_S ∈ map (fun w => doubled w _RESTART_BACKOFF_MAX_S) waits) as Hin
    by (apply list_elem_of_In, (in_map (fun w => doubled w _RESTART_BACKOFF_MAX_S)), list_elem_of_In, Hw).
  rewrite E in Hin. revert Hin. unfold waits. rewrite !elem_of_cons. tauto.
Qed.

Definition restart_in (a : Agent) (st : step) (i : nat) : list float :=
  match st, supervised a !! i, supervised (turn a st) !! i with
  | AHealth now _ _, Some s, Some s' => if restarts s' =? restarts s then [] else [now]
  | _, _, _ => []
  end.
Fixpoint restart_times (a : Agent) (sts : list step) (i : nat) : list float :=
  match sts with [] => [] | st :: sts => restart_in a st i ++ restart_times (turn a st) sts i end.

(** A collector's pace: after a restart at [t] the next is not due before [t]
    plus one of the waits. *)
Definition paced (s : _Supervised) (previous : option float) : Prop :=
  backoff_s s ∈ waits /\
  match previous with Some t => exists w, w ∈ waits /\ next_restart_mono s = fadd t w | None => next_restart_mono s = f0 end.

Lemma keeps_pace s s' previous :
  restarts s' = restarts s -> backoff_s s' = backoff_s s -> next_restart_mono s' = next_restart_mono s -> paced s previous -> paced s' previous.
Proof. unfold paced. by intros _ -> ->. Qed.

Definition due_after (previous : option float) (t : float) : Prop :=
  match previous with Some p => exists w, w ∈ waits /\ fltb t (fadd p w) = false | None => True end.
Fixpoint linked (previous : option float) (ts : list float) : Prop :=
  match ts with [] => True | t :: ts => due_after previous t /\ linked (Some t) ts end.

(** What one step does to the pace of a collector: nothing, or a restart. *)
Definition pace_step (s s' : _Supervised) (times : list float) (previous : option float) : Prop :=
  paced s previous -> linked previous times /\ paced s' (last (opt_list previous ++ times)).

Lemma pace_kept s s' previous :
  restarts s' = restarts s -> backoff_s s' = backoff_s s -> next_restart_mono s' = next_restart_mono s -> pace_step s s' [] previous.
Proof. intros E1 E2 E3 Hp. split; [done|]. rewrite app_nil_r. destruct previous; by eapply keeps_pace. Qed.

Lemma supervise_pace now s up previous :
  pace_step s (supervise_one now s up) (if restarts (supervise_one now s up) =? restarts s then [] else [now]) previous.
Proof.
  unfold supervise_one. destruct (negb (expected s) || running s).
  - destruct (running s); cbn; rewrite Z.eqb_refl; [|by apply pace_kept]. intros [Hw Hn]. split; [done|]. rewrite app_nil_r.
    destruct previous; (split; [|done]); cbn; apply elem_of_cons; by left.
  - destruct (fltb now (next_restart_mono s)) eqn:Ed; cbn; [rewrite Z.eqb_refl; by apply pace_kept|].
    destruct (Z.eqb_spec (restarts s + 1) (restarts s)); [lia|]. intros [Hw Hn]. split.
    + split; [|done]. destruct previous as [t|]; [|done]. destruct Hn as (w & Hin & Hn). exists w. by rewrite <- Hn.
    + rewrite last_snoc. split; cbn; [by apply waits_doubled|]. by eexists.
Qed.

Lemma on_supervised_pace a j f i s previous :
  (forall c, restarts (f c) = restarts c /\ backoff_s (f c) = backoff_s c /\ next_restart_mono (f c) = next_restart_mono c) ->
  supervised a !! i = Some s ->
  exists s', supervised (on_supervised fusion timing a j f) !! i = Some s' /\ pace_step s s' [] previous.
Proof.
  intros Hf Hs. unfold on_supervised. destruct (supervised a !! j) as [c|] eqn:Ec; [|exists s; split; [done|by apply pace_kept]].
  cbn. destruct (decide (j = i)) as [->|E].
  - rewrite list_lookup_insert_eq by (by eapply lookup_lt_Some). rewrite Hs in Ec. injection Ec as <-.
    eexists; split; [done|]. destruct (Hf s) as (? & ? & ?). by apply pace_kept.
  - rewrite list_lookup_insert_ne by done. exists s. split; [done|by apply pace_kept].
Qed.

Lemma pipeline_pace a now i s previous :
  supervised a !! i = Some s ->
  exists s', supervised (pipeline_turn fusion timing adopt size wall_clock fuel a now) !! i = Some s' /\ pace_step s s' [] previous.
Proof.
  intros Hs. assert (exists s', supervised a !! i = Some s' /\ pace_step s s' [] previous) as Hsame by (exists s; split; [done|by apply pace_kept]).
  assert (forall b o, supervised (begin fusion timing adopt b o) = supervised b) as Hb by (intros b o; apply begin_fields).
  assert (forall b o e, supervised (raised fusion timing adopt b o e) = supervised b) as Hr by (intros b [] e; [apply Hb|done..]).
  unfold pipeline_turn. destruct (a_at a) as [|o j|o j [|x todo]|o [|x todo]|e|e]; try done.
  - by rewrite Hb.
  - unfold drain_queue. destruct (supervised a !! j) as [c|] eqn:Ec.
    + pose proof (on_supervised_pace a j (fun c => set_queue c (drain (queue c)).1) i s previous) as Hj.
      unfold on_supervised in Hj. rewrite Ec in Hj. by apply Hj.
    + destruct (_ =? _)%nat; [done|]. destruct (flush _ _ _ _) as [p [batches|e]]; [done|by rewrite Hr].
  - destruct (feed_one _ _ _ a j x) as [p [u|e]]; [done|by rewrite Hr].
Qed.

Lemma turn_pace a st i s previous :
  supervised a !! i = Some s ->
  exists s', supervised (turn a st) !! i = Some s' /\ pace_step s s' (restart_in a st i) previous.
Proof.
  intros Hs. assert (exists s', supervised a !! i = Some s' /\ pace_step s s' [] previous) as Hsame by (exists s; split; [done|by apply pace_kept]).
  unfold restart_in; rewrite Hs. destruct st as [j x|j|payload w|now|now ups env|o| |j|env]; cbn [agent_turn].
  - apply on_supervised_pace; [|done]. intros c. by destruct (running c).
  - by apply on_supervised_pace.
  - unfold _on_session_payload. by destruct (update_from_bytes _ _ _ _ _) as [store [session|]].
  - by apply pipeline_pace.
  - destruct (a_stop a); [exists s; rewrite Hs, Z.eqb_refl; split; [done|by apply pace_kept]|].
    unfold _emit_health_samples, _supervise_collectors; cbn [_supervised with_agent_queue with_supervised].
    rewrite supervise_lookup, Hs; cbn [fmap option_fmap option_map]. eexists; split; [done|]. apply supervise_pace.
  - by destruct o.
  - done.
  - destruct (a_stop a); [by apply on_supervised_pace|done].
  - destruct (a_at a); try done. destruct (_ && _); [|done]. rewrite (proj1 (begin_fields _ _)). done.
Qed.

Lemma run_pace a sts i s previous :
  supervised a !! i = Some s -> paced s previous ->
  exists s', supervised (run a sts) !! i = Some s' /\ linked previous (restart_times a sts i) /\
    paced s' (last (opt_list previous ++ restart_times a sts i)).
Proof.
  revert a s previous; induction sts as [|st sts IH]; intros a s previous Hs Hp; cbn [restart_times agent_run fold_left].
  - exists s. rewrite app_nil_r. by destruct previous.
  - destruct (turn_pace a st i s previous Hs) as (s1 & Hs1 & Hstep). destruct (Hstep Hp) as [Hl Hp1].
    destruct (IH _ s1 _ Hs1 Hp1) as (s' & Hs' & Hl' & Hp'). exists s'. split; [done|].
    assert (length (restart_in a st i) <= 1)%nat as Hone by (unfold restart_in; repeat case_match; cbn; lia).
    destruct (restart_in a st i) as [|t [|]]; [| |cbn in Hone; lia].
    + rewrite app_nil_r in *. destruct previous as [p|]; cbn in *; by split.
    + rewrite last_snoc in *. destruct Hl as [Hl _]. split; [by split|]. cbn [opt_list app] in Hp'. by destruct previous.
Qed.

(** C5. Collectors that die are restarted, and never in a hurry: each restart comes
    no sooner than a second after the one before (two, four, and so on up to
    thirty when they follow one another), and a check that finds a collector
    down that long after its last restart starts it. *)
Theorem restarts_are_paced (settings : AgentSettings) (vehicle : VehicleConfig) (catalog : RuntimeCatalog) (seq : Z) (file : session_file)
    (tapp : option (app_state timing)) (fapp : option (app_state fusion)) (loads : string -> res ()) (a : Agent) (sts : list step) (i : nat) :
  init settings vehicle catalog seq file tapp fapp loads = Ok a -> (i < length (collector_names vehicle))%nat ->
  let a0 := agent_start fusion timing a in
  let ts := restart_times a0 sts i in
  exists s, supervised (run a0 sts) !! i = Some s /\ linked None ts /\
    forall now up, running s = false -> expected s = true ->
      match last ts with Some t => forall w, w ∈ waits -> fltb now (fadd t w) = false | None => fltb now f0 = false end ->
      restarts (supervise_one now s up) = restarts s + 1 /\ running (supervise_one now s up) = up.
Proof.
  intros (Hs & _)%init_shape Hi a0 ts.
  destruct (lookup_lt_is_Some_2 _ _ Hi) as [name Hn]. destruct (Forall2_lookup_l _ _ _ _ _ Hs Hn) as (s0 & Hs0 & (q & _ & [= <-])%res_bind_Ok).
  destruct (run_pace a0 sts i (set_running (mkSupervised q false 0 _RESTART_BACKOFF_START_S f0 true) true) None) as (s & Hs' & Hl & Hw & Hp).
  - unfold a0, agent_start; cbn [_supervised with_supervised]. by rewrite list_lookup_fmap, Hs0.
  - split; [cbn; apply elem_of_cons; by left|done].
  - exists s. split_and!; [done..|]. intros now up Hr He Hdue. fold ts in Hp. cbn [opt_list app] in Hp.
    assert (fltb now (next_restart_mono s) = false) as Hnext.
    { destruct (last ts) as [t|]; [destruct Hp as (w & Hin & ->); by apply Hdue|by rewrite Hp]. }
    unfold supervise_one. by rewrite He, Hr, Hnext.
Qed.

(** * Health samples *)

Definition classes (a : Agent) : list string := map (fun s => q_source_class (queue s)) (supervised a).

Lemma on_supervised_classes a j f :
  (forall c, q_source_class (queue (f c)) = q_source_class (queue c)) -> classes (on_supervised fusion timing a j f) = classes a.
Proof.
  intros Hf. unfold on_supervised, classes. destruct (supervised a !! j) as [c|] eqn:Ec; [|done]. cbn.
  rewrite list_fmap_insert, Hf. apply list_insert_id. by rewrite list_lookup_fmap, Ec.
Qed.

Lemma put_class {A : Type} (q : SampleQueue A) s : q_source_class (put q s) = q_source_class q.
Proof. unfold put. by case_decide. Qed.

Lemma pipeline_classes a now : classes (pipeline_turn fusion timing adopt size wall_clock fuel a now) = classes a.
Proof.
  assert (forall b o, classes (begin fusion timing adopt b o) = classes b) as Hb by (intros b o; unfold classes; by rewrite (proj1 (begin_fields b o))).
  assert (forall b o e, classes (raised fusion timing adopt b o e) = classes b) as Hr by (intros b [] e; [apply Hb|done..]).
  unfold pipeline_turn. destruct (a_at a) as [|o j|o j [|x todo]|o [|x todo]|e|e]; try done.
  - unfold drain_queue. destruct (supervised a !! j) as [c|] eqn:Ec.
    + pose proof (on_supervised_classes a j (fun c => set_queue c (drain (queue c)).1)) as Hj.
      unfold on_supervised in Hj. rewrite Ec in Hj. by apply Hj.
    + destruct (_ =? _)%nat; [done|]. destruct (flush _ _ _ _) as [p [batches|e]]; [done|by rewrite Hr].
  - destruct (feed_one _ _ _ a j x) as [p [u|e]]; [done|by rewrite Hr].
Qed.

Lemma turn_classes a st : classes (turn a st) = classes a.
Proof.
  destruct st as [j s|j|payload w|now|now ups env|o| |j|env]; cbn [agent_turn].
  - apply on_supervised_classes. intros c. destruct (running c); [apply put_class|done].
  - by apply on_supervised_classes.
  - unfold _on_session_payload. by destruct (update_from_bytes _ _ _ _ _) as [store [session|]].
  - apply pipeline_classes.
  - destruct (a_stop a); [done|]. unfold classes; cbn. apply list_eq. intros i. rewrite !list_lookup_fmap, supervise_lookup.
    destruct (supervised a !! i); cbn; [by rewrite supervise_queue|done].
  - by destruct o.
  - done.
  - destruct (a_stop a); [by apply on_supervised_classes|done].
  - destruct (a_at a); try done. destruct (_ && _); [|done]. unfold classes. by rewrite (proj1 (begin_fields _ _)).
Qed.

Lemma init_classes settings vehicle catalog seq file tapp fapp loads a :
  init settings vehicle catalog seq file tapp fapp loads = Ok a -> classes (agent_start fusion timing a) = collector_names vehicle.
Proof.
  intros (Hs & _)%init_shape. unfold classes, agent_start; cbn [_supervised with_supervised]. rewrite map_map; cbn.
  induction Hs as [|name s names l (q & Hq & [= <-])%res_bind_Ok _ IH]; cbn; [done|]. f_equal; [|exact IH].
  unfold queue_init in Hq. destruct (_ <=? _); [done|]. by injection Hq as <-.
Qed.

(** The agent's own telemetry is telemetry: whenever the health loop reports,
    each of its samples is a channel of the registry the agent was built with,
    and a value of the type that channel declares. *)
Theorem health_samples_are_mapped (settings : AgentSettings) (vehicle : VehicleConfig) (channels : channels_t) (own : list DerivedChannel)
    (catalog : RuntimeCatalog) (seq : Z) (file : session_file) (tapp : option (app_state timing)) (fapp : option (app_state fusion))
    (loads : string -> res ()) (a : Agent) (sts : list step) (status : string) (env : health_env) (s : Sample) :
  build channels (agent_derived_channels (collector_names vehicle) own) = Ok catalog ->
  init settings vehicle catalog seq file tapp fapp loads = Ok a ->
  s ∈ health_samples fusion timing status_dumps wall_clock (run (agent_start fusion timing a) sts) status env ->
  exists id pol, source_map catalog !! s_source_ref s = Some (id, pol) /\ value_fits (pol_value_type pol) (s_value s).
Proof.
  intros Hbuild Hinit Hs.
  assert (classes (run (agent_start fusion timing a) sts) = collector_names vehicle) as Hc.
  { apply run_keeps; [intros b st <-; apply turn_classes|by eapply init_classes]. }
  revert Hs Hc. generalize (run (agent_start fusion timing a) sts); intros b Hs Hc.
  unfold health_samples in Hs. apply list_elem_of_fmap in Hs as ([name v] & -> & Hin). cbn [s_source_ref s_value fst snd].
  assert (exists d, d ∈ agent_derived_channels (collector_names vehicle) own /\ der_name d = name /\ value_fits (der_value_type d) v) as (d & Hd & <- & Hv).
  { unfold health_readings in Hin. unfold agent_derived_channels. apply elem_of_app in Hin as [Hin|Hin].
    - assert (forall d, d ∈ STATUS_CHANNELS -> d ∈ DEFAULT_DERIVED_CHANNELS ++ STATUS_CHANNELS ++
        map (fun name => mkDerived ("sys.agent.drops." +:+ name) INT64 "") (collector_names vehicle) ++ own) as Hst
        by (intros d Hd; rewrite !elem_of_app; tauto).
      unfold STATUS_CHANNELS in Hst. rewrite !elem_of_cons in Hin.
      destruct Hin as [Hin|[Hin|[Hin|[Hin|[Hin|[Hin|Hin]]]]]]; [| | | | | |by apply elem_of_nil in Hin]; injection Hin as -> ->;
        [exists (mkDerived "sys.agent.status" STRING "")|exists (mkDerived "sys.agent.unmapped_refs" INT64 "")
        |exists (mkDerived "sys.agent.rbe_suppressed" INT64 "")|exists (mkDerived "sys.agent.encode_failures" INT64 "")
        |exists (mkDerived "sys.agent.publish_drops" INT64 "")|exists (mkDerived "sys.agent.publish_lag_ms" DOUBLE "ms")];
        (split; [apply Hst; rewrite !elem_of_cons; tauto|done]).
    - apply list_elem_of_fmap in Hin as (c & [= -> ->] & Hc'). exists (mkDerived ("sys.agent.drops." +:+ q_source_class (queue c)) INT64 "").
      split; [|done]. rewrite !elem_of_app. right; right; left. apply list_elem_of_fmap. eexists; split; [done|].
      rewrite <- Hc. apply list_elem_of_fmap. by exists c. }
  destruct (build_derived_mapped _ _ _ _ Hbuild Hd) as [id Hm]. by eexists id, _.
Qed.
End Runs.

(** * A car with one bus

    Channel 1 is a temperature scaled to a tenth of a degree; the application
    counts its samples. *)

#[local] Existing Instance TaggedCodec.

Module Car.
Definition settings : AgentSettings :=
  mkSettings "profiles/demo" None "nats://127.0.0.1:4222" None None 20 3 1000 DEFAULT_BUFFER_BYTES DEFAULT_TELE_MAX_AGE_S DEFAULT_TELE_MAX_BYTES
    DEFAULT_REGISTRY_INTERVAL_S None None.
Definition vehicle : VehicleConfig :=
  mkVehicleConfig "demo" [mkBusConfig "can0" "vcan0" 1000000 [mkDbcConfig "ecu" "ecu.dbc"]] [] (mkHostConfig false "5s" []).
Definition channels : channels_t :=
  [("engine.temp", mkChannelConfig "can0:ecu.ENG.TEMP" "degC" ch_double None (Some (mkEncodeConfig enc_int (lit 1 10) f0)))].
Definition catalog : RuntimeCatalog :=
  match build channels (agent_derived_channels (collector_names vehicle) [mkDerived "count" INT64 ""]) with Ok c => c | Raise _ => empty_catalog end.

Lemma build_ok : build channels (agent_derived_channels (collector_names vehicle) [mkDerived "count" INT64 ""]) = Ok catalog.
Proof. vm_compute. reflexivity. Qed.

Definition loads_json (s : string) : option obj := if String.eqb s "session" then Some (ODict [("session_id", OStr "s1")]) else None.
Definition dumps (o : obj) : string := match o with ODict (("state", OStr s) :: _) => s | _ => "{}" end.
Definition wall (t : Z) : float := f_of_Z (t / 1000000).
Definition size (_ : payload) : Z := 100.
Lemma size_nonneg p : 0 <= size p.
Proof. unfold size. lia. Qed.
Definition adopt (a : app_state CountApp) (_ : list (string * obj)) : app_state CountApp := a.

Definition car : VehicleAgent NoApp CountApp :=
  match agent_init NoApp CountApp adopt loads_json settings vehicle catalog 1 sf_missing (Some 0) None (fun _ => Ok tt) with
  | Ok a => a
  | Raise _ => mkAgent NoApp CountApp "" [] (mkQueue "" 0 [] 0) None (mkStore sf_missing [] 0) Demo.empty
                 (mkPublisher 1 0 [] 0 None 0 0 []) false Resting [] [] [] [] [] []
  end.
Lemma car_ok : agent_init NoApp CountApp adopt loads_json settings vehicle catalog 1 sf_missing (Some 0) None (fun _ => Ok tt) = Ok car.
Proof. vm_compute. reflexivity. Qed.

Abbreviation drive := (agent_run NoApp CountApp adopt loads_json dumps dumps size wall 3).
Definition temp (ms : Z) (v : SampleValue) : Sample := mkSample "can0:ecu.ENG.TEMP" (ms * 1000000) (f_of_Z ms) v.
Definition turns (n : nat) : list agent_step := repeat (APipeline 0) n.
Definition env (ms : Z) : health_env := mkHealthEnv (ms * 1000000) (f_of_Z (ms / 1000)) true (ms * 1000000).

(** Five samples into a queue of three, a session, one tick, a collector that
    dies and is restarted, an acked batch, a sample while stopping. *)
Definition shift : list agent_step :=
  map (fun i => AEmit 0 (temp (100 + i) (VFloat (f_of_Z i)))) [1; 2; 3; 4; 5]
  ++ [ASession "session" true] ++ turns 15
  ++ [APublisher PFill; APublisher PAck; AEnds 0; AHealth (f_of_Z 2) (fun _ => true) (env 200); AEnds 0; AHealth (f_of_Z 3) (fun _ => true) (env 300)]
  ++ [AStop; AEmit 0 (temp 310 (VFloat (f_of_Z 9)))] ++ turns 40 ++ [AStopCollector 0; AFinalStatus (env 400)] ++ turns 40.
Definition after : VehicleAgent NoApp CountApp := drive (agent_start NoApp CountApp car) shift.
End Car.

Lemma agent_accounts_witness :
  0 <= publish_buffer_bytes Car.settings /\
  (exists q, queue_at NoApp CountApp Car.after 0 = Some q /\ q_dropped q = 2%nat /\
     length (put_run NoApp CountApp Car.adopt Car.loads_json Car.dumps Car.dumps Car.size Car.wall 3 (agent_start NoApp CountApp Car.car) Car.shift 0) = 6%nat /\
     length (of_index 0 (fed NoApp CountApp Car.after)) = 4%nat) /\
  length (submitted NoApp CountApp Car.after) = 6%nat.
Proof.
  split; [done|].
  destruct (agent_accounts NoApp CountApp Car.adopt Car.loads_json Car.dumps Car.dumps Car.size Car.size_nonneg Car.wall 3 Car.settings _ _ _ _ _ _ _ _ Car.shift
              ltac:(done) Car.car_ok) as (Hsrc & _ & _ & _).
  destruct (Hsrc 0%nat ltac:(vm_compute; lia)) as (q & Hq & _). split; [|vm_compute; reflexivity].
  exists q. split; [exact Hq|]. split; [|split; vm_compute; reflexivity]. revert Hq. vm_compute. by intros [= <-].
Defined.

Lemma stop_leaves_nothing_witness :
  at_ NoApp CountApp Car.after = Stopped None /\ pl_staged NoApp CountApp (pipeline NoApp CountApp Car.after) = [].
Proof.
  split; [vm_compute; reflexivity|].
  exact (proj1 (proj2 (stop_leaves_nothing NoApp CountApp Car.adopt Car.loads_json Car.dumps Car.dumps Car.size Car.size_nonneg Car.wall 3 Car.settings _ _ _ _ _ _ _ _
                         Car.shift ltac:(done) Car.car_ok ltac:(vm_compute; reflexivity)))).
Defined.

Lemma pipeline_thread_ends_witness :
  exists n, at_end NoApp CountApp (Car.drive (with_stop NoApp CountApp Car.car) (repeat (APipeline 7) n)).
Proof.
  exact (pipeline_thread_ends NoApp CountApp Car.adopt Car.loads_json Car.dumps Car.dumps Car.size Car.wall 3 (with_stop NoApp CountApp Car.car) 7
           ltac:(vm_compute; reflexivity)).
Defined.

Lemma lap_timer_follows_the_session_witness :
  last (adopted NoApp CountApp Car.after) = Some [("session_id", OStr "s1")] /\
  (adopted NoApp CountApp Car.after) `sublist_of` [[]; [("session_id", OStr "s1")]].
Proof.
  destruct (lap_timer_follows_the_session NoApp CountApp Car.adopt Car.loads_json Car.dumps Car.dumps Car.size Car.wall 3 Car.settings _ _ _ _ _ _ _ _ Car.shift Car.car_ok)
    as [Hlast Hsub].
  split; [vm_compute; reflexivity|]. revert Hsub. vm_compute. done.
Defined.

Lemma restarts_are_paced_witness :
  (0 < length (collector_names Car.vehicle))%nat /\
  linked None (restart_times NoApp CountApp Car.adopt Car.loads_json Car.dumps Car.dumps Car.size Car.wall 3 (agent_start NoApp CountApp Car.car) Car.shift 0) /\
  restart_times NoApp CountApp Car.adopt Car.loads_json Car.dumps Car.dumps Car.size Car.wall 3 (agent_start NoApp CountApp Car.car) Car.shift 0
    = [f_of_Z 2; f_of_Z 3].
Proof.
  assert (0 < length (collector_names Car.vehicle))%nat as Hn by (vm_compute; lia).
  destruct (restarts_are_paced NoApp CountApp Car.adopt Car.loads_json Car.dumps Car.dumps Car.size Car.wall 3 Car.settings _ _ _ _ _ _ _ _ Car.shift 0 Car.car_ok Hn)
    as (s & _ & Hl & _).
  split; [exact Hn|]. split; [exact Hl|vm_compute; reflexivity].
Defined.

Lemma health_samples_are_mapped_witness :
  exists id pol, source_map Car.catalog !! "derived:sys.agent.drops.can0" = Some (id, pol) /\ value_fits (pol_value_type pol) (VInt 2).
Proof.
  apply (health_samples_are_mapped NoApp CountApp Car.adopt Car.loads_json Car.dumps Car.dumps Car.size Car.wall 3 _ Car.vehicle Car.channels
           [mkDerived "count" INT64 ""] Car.catalog _ _ _ _ _ _ Car.shift "running" (Car.env 500)
           (mkSample "derived:sys.agent.drops.can0" 500000000 (Car.wall 500000000) (VInt 2)) Car.build_ok Car.car_ok).
  apply (list_elem_of_lookup_2 _ 6). vm_compute. reflexivity.
Defined.

(** An infinite reading on the scaled channel ends the pipeline thread, because
    the OverflowError of its encoding leaves [flush]. The collector goes on, its
    queue sheds, and the agent goes on saying that it is running. *)
Example dead_pipeline_looks_alive :
  let dead := Car.drive (agent_start NoApp CountApp Car.car) (AEmit 0 (Car.temp 100 (VFloat finf)) :: Car.turns 20) in
  let later := Car.drive dead (map (fun i => AEmit 0 (Car.temp (200 + i) (VFloat f0))) [1; 2; 3; 4; 5] ++ Car.turns 50
                               ++ [AHealth (f_of_Z 9) (fun _ => true) (Car.env 900)] ++ Car.turns 50) in
  at_ NoApp CountApp dead = Ended (Some (Exn OverflowError "cannot convert float infinity to integer")) /\
  length (fed NoApp CountApp later) = 1%nat /\ submitted NoApp CountApp later = [] /\
  map (fun s => (running s, restarts s, q_dropped (queue s))) (_supervised NoApp CountApp later) = [(true, 0, 2%nat)] /\
  _status_payload NoApp CountApp Car.dumps later "running" (Car.env 900) = "running".
Proof. vm_compute. split_and!; reflexivity. Qed.
