(* ===== verification/SessionState.v ===== *)
(** The session and driver-stint state machine of session control
    ([src/pit/session_control/state.py]).

    A transition either gives the new state and the payload to publish, or
    raises and leaves the state as it was: every guard stands before the first
    assignment. Times are integer milliseconds since the epoch; [stamp] is the
    formatted UTC minute, and the random part of a session's id is an argument.
    Texts are ASCII. *)

From S2P Require Import Prelude PyFloat Stats PyText.

Local Open Scope Z_scope.

Definition SESSION_TYPES : list string := ["practice"; "qualifying"; "race"; "test"].
Definition SESSION_TYPES_repr : string := "('practice', 'qualifying', 'race', 'test')".

Inductive status := SNone | SActive | SEnded.
#[export] Instance status_eq_dec : EqDecision status.
Proof. solve_decision. Defined.
Definition status_text (s : status) : string :=
  match s with SNone => "none" | SActive => "active" | SEnded => "ended" end.

(** A closed stint. *)
Record Stint := mkStint { sn_driver : string; sn_number : Z; start_ms : Z; end_ms : Z }.

Record SessionState := mkState {
  session_id : string;
  session_type : string;
  driver : string;
  track_name : string;
  car : string;
  stint_number : Z;
  session_start_ms : Z;
  stint_start_ms : Z;
  st_status : status;
  stints : list Stint
}.
Definition new_state : SessionState := mkState "" "" "" "" "" 0 0 0 SNone [].

#[export] Instance Stint_eq_dec : EqDecision Stint.
Proof. solve_decision. Defined.
#[export] Instance SessionState_eq_dec : EqDecision SessionState.
Proof. solve_decision. Defined.

(** [payload]; [now] is the time given or read. *)
Definition payload (s : SessionState) (now : Z) : list (string * obj) :=
  [("session_id", OStr (session_id s)); ("session_type", OStr (session_type s)); ("driver", OStr (driver s));
   ("track_name", OStr (track_name s)); ("car", OStr (car s)); ("stint_number", OInt (stint_number s));
   ("session_start", OInt (session_start_ms s)); ("stint_start", OInt (stint_start_ms s));
   ("status", OStr (status_text (st_status s))); ("timestamp", OInt now)].

(** The running stint, closed at [now]. *)
Definition close_stint (s : SessionState) (now : Z) : list Stint :=
  stints s ++ [mkStint (driver s) (stint_number s) (stint_start_ms s) now].

Section Start.
Context (stamp : Z -> string).

Definition start_session (s : SessionState) (type_ driver_ track car_ uuid : string) (now : Z)
    : res (SessionState * list (string * obj)) :=
  if decide (st_status s = SActive) then
    raise SessionError ("session " +:+ repr_str (session_id s) +:+ " is already active - end it first")
  else
    let type_ := str_lower (strip type_) in
    let driver_ := strip driver_ in
    if negb (bool_decide (type_ ∈ SESSION_TYPES)) then
      raise SessionError ("session_type must be one of " +:+ SESSION_TYPES_repr +:+ ", got " +:+ repr_str type_)
    else if String.eqb driver_ "" then raise SessionError "driver is required"
    else
      let s := mkState (stamp now +:+ "-" +:+ uuid +:+ "-" +:+ type_) type_ driver_ (strip track) (strip car_) 1 now now SActive [] in
      Ok (s, payload s now).
End Start.

Definition change_driver (s : SessionState) (driver_ : string) (now : Z) : res (SessionState * list (string * obj)) :=
  if decide (st_status s <> SActive) then raise SessionError "no active session - start one first"
  else
    let driver_ := strip driver_ in
    if String.eqb driver_ "" then raise SessionError "driver is required"
    else if String.eqb driver_ (driver s) then raise SessionError (repr_str driver_ +:+ " is already the active driver")
    else if now <? stint_start_ms s then raise SessionError "driver change cannot occur before the active stint started"
    else
      let s := mkState (session_id s) (session_type s) driver_ (track_name s) (car s) (stint_number s + 1)
                 (session_start_ms s) now SActive (close_stint s now) in
      Ok (s, payload s now).

(** [self.stints[-1]["end_ms"] = at_ms]. *)
Fixpoint set_last_end (l : list Stint) (at_ms : Z) : list Stint :=
  match l with
  | [] => []
  | [x] => [mkStint (sn_driver x) (sn_number x) (start_ms x) at_ms]
  | x :: l => x :: set_last_end l at_ms
  end.

Definition amend_stint_start (s : SessionState) (at_ms : Z) : res (SessionState * list (string * obj)) :=
  if decide (st_status s <> SActive) then raise SessionError "no active session - start one first"
  else if stint_number s <? 2 then raise SessionError "the first stint starts with the session and cannot be moved"
  else
    match last_opt (stints s) with
    | None => raise IndexError "list index out of range"
    | Some previous =>
        if at_ms <? start_ms previous then raise SessionError "stint start cannot move before the previous stint started"
        else
          let s := mkState (session_id s) (session_type s) (driver s) (track_name s) (car s) (stint_number s)
                     (session_start_ms s) at_ms SActive (set_last_end (stints s) at_ms) in
          Ok (s, payload s at_ms)
    end.

Definition end_session (s : SessionState) (now : Z) : res (SessionState * list (string * obj)) :=
  if decide (st_status s <> SActive) then raise SessionError "no active session to end"
  else if now <? stint_start_ms s then raise SessionError "session end cannot occur before the active stint started"
  else
    let s := mkState (session_id s) (session_type s) (driver s) (track_name s) (car s) (stint_number s)
               (session_start_ms s) (stint_start_ms s) SEnded (close_stint s now) in
    Ok (s, payload s now).

(** * Serialisation *)

Definition stint_dict (x : Stint) : list (string * obj) :=
  [("driver", OStr (sn_driver x)); ("stint_number", OInt (sn_number x)); ("start_ms", OInt (start_ms x)); ("end_ms", OInt (end_ms x))].
Definition to_dict (s : SessionState) (now : Z) : list (string * obj) :=
  payload s now ++ [("stints", OList (map (fun x => ODict (stint_dict x)) (stints s)))].

Definition _required_string (data : list (string * obj)) (key : string) : res string :=
  match oget key data with
  | OStr value => if String.eqb (strip value) "" then raise ValueError (key +:+ " must be a non-empty string") else Ok (strip value)
  | _ => raise ValueError (key +:+ " must be a non-empty string")
  end.
Definition _optional_string (data : list (string * obj)) (key : string) : res string :=
  match ogetd key (OStr "") data with
  | OStr value => Ok (strip value)
  | _ => raise TypeError (key +:+ " must be a string")
  end.
Definition _required_integer (data : list (string * obj)) (key : string) : res Z :=
  match oget key data with
  | OInt z => Ok z
  | _ => raise TypeError (key +:+ " must be an integer")
  end.

(** The loop over the closed stints: the stints and the last one's end. *)
Fixpoint read_stints (items : list obj) (expected_number previous_end : Z) : res (list Stint * Z) :=
  match items with
  | [] => Ok ([], previous_end)
  | ODict item :: items =>
      number ← _required_integer item "stint_number";
      start ← _required_integer item "start_ms";
      stop ← _required_integer item "end_ms";
      if negb (number =? expected_number) || (start <? previous_end) || (stop <? start) then
        raise ValueError "invalid stint ordering or timestamps"
      else
        driver_ ← _required_string item "driver";
        '(closed, last_end) ← read_stints items (expected_number + 1) stop;
        Ok (mkStint driver_ number start stop :: closed, last_end)
  | _ => raise TypeError "each stint must be an object"
  end.

(** What [from_dict] does for a status other than [none]. *)
Definition from_dict_live (data : list (string * obj)) (status_ : status) : res SessionState :=
  type_ ← _required_string data "session_type";
  let type_ := str_lower type_ in
  if negb (bool_decide (type_ ∈ SESSION_TYPES)) then raise ValueError ("session_type must be one of " +:+ SESSION_TYPES_repr)
  else
    session_start ← _required_integer data "session_start";
    stint_start ← _required_integer data "stint_start";
    number ← _required_integer data "stint_number";
    if (session_start <? 0) || (stint_start <? session_start) || (number <? 1) then
      raise ValueError "invalid session/stint start or stint number"
    else
      match ogetd "stints" (OList []) data with
      | OList items =>
          '(closed, previous_end) ← read_stints items 1 session_start;
          if negb (Z.of_nat (length closed) =? (if decide (status_ = SEnded) then number else number - 1)) then
            raise ValueError "stint history does not match current stint number"
          else
            driver_ ← _required_string data "driver";
            if bool_decide (status_ = SActive) && (stint_start <? previous_end) then
              raise ValueError "active stint starts before the previous stint ended"
            else
              _ ← (if decide (status_ = SEnded) then
                     match last_opt closed with
                     | None => raise IndexError "list index out of range"
                     | Some l => if negb (String.eqb driver_ (sn_driver l)) || negb (stint_start =? start_ms l) then
                                   raise ValueError "ended state does not match its final stint" else Ok tt
                     end
                   else Ok tt);
              id ← _required_string data "session_id";
              track ← _optional_string data "track_name";
              car_ ← _optional_string data "car";
              Ok (mkState id type_ driver_ track car_ number session_start stint_start status_ closed)
      | _ => raise TypeError "stints must be a list"
      end.

Definition from_dict (data : list (string * obj)) : res SessionState :=
  match ogetd "status" (OStr "none") data with
  | OStr value =>
      let status_ := str_lower (strip value) in
      if String.eqb status_ "none" then Ok new_state
      else if String.eqb status_ "active" then from_dict_live data SActive
      else if String.eqb status_ "ended" then from_dict_live data SEnded
      else raise ValueError ("invalid session status " +:+ repr_str status_)
  | _ => raise TypeError "status must be a string"
  end.

(** * The states a session can be in *)

Definition named (t : string) : Prop := trimmed t /\ t <> "".

(** The closed stints from number [n], none before [p], in order and apart. *)
Fixpoint chain (p n : Z) (l : list Stint) : Prop :=
  match l with
  | [] => True
  | x :: l => sn_number x = n /\ p <= start_ms x <= end_ms x /\ named (sn_driver x) /\ chain (end_ms x) (n + 1) l
  end.
Fixpoint chain_end (p : Z) (l : list Stint) : Z := match l with [] => p | x :: l => chain_end (end_ms x) l end.

Record live (s : SessionState) : Prop := Live {
  lv_type : session_type s ∈ SESSION_TYPES;
  lv_id : named (session_id s);
  lv_driver : named (driver s);
  lv_track : trimmed (track_name s);
  lv_car : trimmed (car s);
  lv_start : 0 <= session_start_ms s <= stint_start_ms s;
  lv_chain : chain (session_start_ms s) 1 (stints s);
  lv_status : match st_status s with
    | SActive => Z.of_nat (length (stints s)) = stint_number s - 1 /\ chain_end (session_start_ms s) (stints s) <= stint_start_ms s
    | SEnded => Z.of_nat (length (stints s)) = stint_number s /\
        exists x, last_opt (stints s) = Some x /\ sn_driver x = driver s /\ start_ms x = stint_start_ms s
    | SNone => False
    end
}.
Definition state_ok (s : SessionState) : Prop := s = new_state \/ live s.

Lemma chain_app p n l x :
  chain p n (l ++ [x]) <->
  chain p n l /\ sn_number x = n + Z.of_nat (length l) /\ chain_end p l <= start_ms x <= end_ms x /\ named (sn_driver x).
Proof.
  revert p n; induction l as [|y l IH]; intros p n; cbn [app chain chain_end length].
  - rewrite Z.add_0_r. tauto.
  - rewrite IH. replace (n + 1 + Z.of_nat (length l)) with (n + Z.of_nat (S (length l))) by lia. tauto.
Qed.

Lemma chain_end_app p l x : chain_end p (l ++ [x]) = end_ms x.
Proof. revert p; induction l as [|y l IH]; intros p; cbn; [done|apply IH]. Qed.

Lemma set_last_end_app l x at_ms :
  set_last_end (l ++ [x]) at_ms = l ++ [mkStint (sn_driver x) (sn_number x) (start_ms x) at_ms].
Proof. induction l as [|y l IH]; [done|]. cbn. rewrite IH. by destruct l. Qed.

Lemma last_opt_app {A : Type} (l : list A) x : last_opt (l ++ [x]) = Some x.
Proof. apply last_snoc. Qed.

Lemma live_active s : state_ok s -> st_status s = SActive -> live s.
Proof. by intros [->|?]. Qed.

Lemma chain_start_le p n l : chain p n l -> p <= chain_end p l.
Proof.
  revert p n; induction l as [|x l IH]; intros p n; cbn; [lia|]. intros (_ & H & _ & Hc). specialize (IH _ _ Hc). lia.
Qed.

Lemma strip_named t : String.eqb (strip t) "" = false -> named (strip t).
Proof. intros H. split; [apply strip_trimmed|]. by apply String.eqb_neq. Qed.

(** Closing the running stint keeps the chain, ending where it is closed. *)
Lemma close_chain s now :
  live s -> st_status s = SActive -> stint_start_ms s <= now ->
  chain (session_start_ms s) 1 (close_stint s now) /\ chain_end (session_start_ms s) (close_stint s now) = now /\
  Z.of_nat (length (close_stint s now)) = stint_number s.
Proof.
  intros [_ _ Hd _ _ _ Hc Hst] Ha Hnow. rewrite Ha in Hst. destruct Hst as [Hlen Hend].
  unfold close_stint. rewrite chain_app, chain_end_app, length_app. cbn. split_and!; try done; lia.
Qed.

Section Ops.
Context (stamp : Z -> string).
Hypothesis stamp_text : forall now, exists c t, stamp now = String c t /\ is_space c = false.

Lemma start_ok s type_ driver_ track car_ uuid now s' p :
  0 <= now -> start_session stamp s type_ driver_ track car_ uuid now = Ok (s', p) -> live s' /\ p = payload s' now.
Proof.
  intros Hnow. unfold start_session. destruct (decide _); [done|]. cbv zeta.
  set (ty := str_lower (strip type_)). case_bool_decide as Hty; [|done]. cbn [negb].
  destruct (String.eqb (strip driver_) "") eqn:Hd; [done|]. intros [= <- <-]. split; [|done].
  split; cbn; try done; try lia; try apply strip_trimmed; [|by apply strip_named].
  destruct (stamp_text now) as (c & t & -> & Hc).
  assert (Htail : rstrip is_space ty = ty /\ ty <> "").
  { clear - Hty. unfold SESSION_TYPES in Hty. rewrite !elem_of_cons in Hty. destruct Hty as [->|[->|[->|[->|Hn]]]]; [done..|].
    by apply not_elem_of_nil in Hn. }
  split; [|done]. cbn [session_id].
  assert (E : String c t +:+ "-" +:+ uuid +:+ "-" +:+ ty = String c (t +:+ "-" +:+ uuid +:+ "-") +:+ ty).
  { change (String c t +:+ "-" +:+ uuid +:+ "-" +:+ ty = (String c t +:+ "-" +:+ uuid +:+ "-") +:+ ty). by rewrite !str_app_assoc. }
  rewrite E. destruct Htail. by apply app_trimmed.
Qed.
End Ops.

Lemma change_ok s driver_ now s' p :
  state_ok s -> change_driver s driver_ now = Ok (s', p) -> live s' /\ p = payload s' now.
Proof.
  intros Hok. unfold change_driver. destruct (decide _) as [|Ha]; [done|]. apply dec_stable in Ha.
  pose proof (live_active s Hok Ha) as Hl. destruct (String.eqb (strip driver_) "") eqn:Hd; [done|].
  destruct (String.eqb (strip driver_) (driver s)); [done|]. destruct (Z.ltb_spec now (stint_start_ms s)) as [|Hnow]; [done|].
  intros [= <- <-]. destruct (close_chain s now Hl Ha Hnow) as (Hc & He & Hn). destruct Hl as [].
  split; [|done]. split; cbn; try done; try lia; by apply strip_named.
Qed.

Lemma amend_ok s at_ms s' p :
  state_ok s -> amend_stint_start s at_ms = Ok (s', p) -> live s' /\ p = payload s' at_ms.
Proof.
  intros Hok. unfold amend_stint_start. destruct (decide _) as [|Ha]; [done|]. apply dec_stable in Ha.
  pose proof (live_active s Hok Ha) as [Hty Hid Hd Htr Hcar Hst Hc Hs]. rewrite Ha in Hs. destruct Hs as [Hlen Hend].
  destruct (Z.ltb_spec (stint_number s) 2) as [|Hn]; [done|].
  destruct (stints s) as [|x l _] eqn:Hl using rev_ind; [cbn in Hlen; lia|].
  rewrite last_opt_app. destruct (Z.ltb_spec at_ms (start_ms x)) as [|Hat]; [done|]. intros [= <- <-].
  apply chain_app in Hc as (Hc & Hnum & Hx & Hdx). pose proof (chain_start_le _ _ _ Hc).
  split; [|done]. split; cbn; try done; rewrite ?set_last_end_app; try lia.
  - rewrite chain_app. cbn. split_and!; try done; lia.
  - rewrite length_app, chain_end_app in *. cbn in *. lia.
Qed.

Lemma end_ok s now s' p :
  state_ok s -> end_session s now = Ok (s', p) -> live s' /\ p = payload s' now.
Proof.
  intros Hok. unfold end_session. destruct (decide _) as [|Ha]; [done|]. apply dec_stable in Ha.
  pose proof (live_active s Hok Ha) as Hl. destruct (Z.ltb_spec now (stint_start_ms s)) as [|Hnow]; [done|].
  intros [= <- <-]. destruct (close_chain s now Hl Ha Hnow) as (Hc & He & Hn). destruct Hl as [].
  split; [|done]. split; cbn; try done. split; [done|]. eexists. split; [apply last_opt_app|done].
Qed.

(** * What is written is read back *)

(** Texts and numbers are found under their keys. *)
Lemma required_string_named data key t :
  oget key data = OStr t -> named t -> _required_string data key = Ok t.
Proof. unfold _required_string. intros -> [Ht Hne]. rewrite Ht. by rewrite (proj2 (String.eqb_neq t "")). Qed.

Lemma required_integer_is data key z : oget key data = OInt z -> _required_integer data key = Ok z.
Proof. unfold _required_integer. by intros ->. Qed.

Lemma optional_string_trimmed data key t : od_get key data = Some (OStr t) -> trimmed t -> _optional_string data key = Ok t.
Proof. unfold _optional_string, ogetd. by intros -> ->. Qed.

(** The same object up to the order of members, as JSON with sorted keys gives
    it back. *)
#[local] Unset Elimination Schemes.
Inductive json_same : obj -> obj -> Prop :=
  | same_scalar v : match v with OList _ | ODict _ => False | _ => True end -> json_same v v
  | same_list l l' : Forall2 json_same l l' -> json_same (OList l) (OList l')
  | same_dict d d' : (forall key, option_Forall2 json_same (od_get key d) (od_get key d')) -> json_same (ODict d) (ODict d').
#[local] Set Elimination Schemes.

Lemma json_same_get d v key w :
  json_same (ODict d) v -> od_get key d = Some w ->
  exists d' w', v = ODict d' /\ od_get key d' = Some w' /\ json_same w w'.
Proof.
  inversion 1 as [? Hv| |? d' Hs]; subst; [done|]. intros Hw. specialize (Hs key). rewrite Hw in Hs.
  inversion Hs; subst. eauto.
Qed.

Lemma same_text t w : json_same (OStr t) w -> w = OStr t.
Proof. by inversion 1. Qed.
Lemma same_int z w : json_same (OInt z) w -> w = OInt z.
Proof. by inversion 1. Qed.

Lemma same_oget d d' key w :
  json_same (ODict d) (ODict d') -> od_get key d = Some w ->
  (forall z, w = OInt z -> oget key d' = OInt z) /\ (forall t, w = OStr t -> od_get key d' = Some (OStr t) /\ oget key d' = OStr t).
Proof.
  intros Hs Hw. destruct (json_same_get d (ODict d') key w Hs Hw) as (d1 & w' & [= <-] & Hg & Hsame).
  unfold oget, ogetd. rewrite Hg. split; intros ? ->.
  - by apply same_int in Hsame.
  - apply same_text in Hsame. by subst.
Qed.

Lemma read_stints_back l items p n :
  chain p n l -> Forall2 json_same (map (fun x => ODict (stint_dict x)) l) items ->
  read_stints items n p = Ok (l, chain_end p l).
Proof.
  revert items p n; induction l as [|x l IH]; intros items p n; cbn [map chain].
  - intros _ H. inversion H; subst. done.
  - intros (Hn & Hx & Hd & Hc) H. inversion H as [|? item ? items' Hitem Hitems]; subst.
    inversion Hitem as [? Hv| |? d' Hs]; subst; [done|].
    destruct (same_oget _ d' "stint_number" _ Hitem eq_refl) as [Gn _].
    destruct (same_oget _ d' "start_ms" _ Hitem eq_refl) as [Gs _].
    destruct (same_oget _ d' "end_ms" _ Hitem eq_refl) as [Ge _].
    destruct (same_oget _ d' "driver" _ Hitem eq_refl) as [_ Gd]. destruct (Gd _ eq_refl) as [_ Gd'].
    cbn [read_stints]. rewrite (required_integer_is _ _ _ (Gn _ eq_refl)), (required_integer_is _ _ _ (Gs _ eq_refl)),
      (required_integer_is _ _ _ (Ge _ eq_refl)).
    cbn [mbind res_bind]. rewrite Z.eqb_refl.
    rewrite (proj2 (Z.ltb_ge _ _)), (proj2 (Z.ltb_ge _ _)) by lia. cbn [negb orb].
    rewrite (required_string_named _ _ _ Gd' Hd). cbn [mbind res_bind]. rewrite (IH _ _ _ Hc Hitems).
    cbn [mbind res_bind chain_end]. by destruct x.
Qed.

Lemma last_opt_in {A : Type} (l : list A) x : last_opt l = Some x -> exists l', l = l' ++ [x].
Proof. destruct l as [|y l _] using rev_ind; [done|]. rewrite last_opt_app. intros [= <-]. eauto. Qed.

Lemma live_back s now d' :
  live s -> json_same (ODict (to_dict s now)) (ODict d') -> from_dict_live d' (st_status s) = Ok s.
Proof.
  intros [Hty Hid Hd Htr Hcar Hst Hc Hs] Hsame.
  destruct (same_oget _ d' "session_type" _ Hsame eq_refl) as [_ Gty]. destruct (Gty _ eq_refl) as [_ Gty'].
  destruct (same_oget _ d' "session_start" _ Hsame eq_refl) as [Gss _].
  destruct (same_oget _ d' "stint_start" _ Hsame eq_refl) as [Gts _].
  destruct (same_oget _ d' "stint_number" _ Hsame eq_refl) as [Gn _].
  destruct (same_oget _ d' "driver" _ Hsame eq_refl) as [_ Gd]. destruct (Gd _ eq_refl) as [_ Gd'].
  destruct (same_oget _ d' "session_id" _ Hsame eq_refl) as [_ Gi]. destruct (Gi _ eq_refl) as [_ Gi'].
  destruct (same_oget _ d' "track_name" _ Hsame eq_refl) as [_ Gt]. destruct (Gt _ eq_refl) as [Gt' _].
  destruct (same_oget _ d' "car" _ Hsame eq_refl) as [_ Gc]. destruct (Gc _ eq_refl) as [Gc' _].
  destruct (json_same_get _ _ "stints" _ Hsame eq_refl) as (d1 & w & [= <-] & Gl & Hl).
  inversion Hl as [? Hv|? items Hitems|]; subst; [done|].
  assert (Hnty : named (session_type s) /\ str_lower (session_type s) = session_type s).
  { unfold SESSION_TYPES in Hty. rewrite !elem_of_cons in Hty. destruct Hty as [->|[->|[->|[->|Hn]]]]; [done..|].
    by apply not_elem_of_nil in Hn. }
  destruct Hnty as [Hnty Hlow].
  unfold from_dict_live. rewrite (required_string_named _ _ _ Gty' Hnty). cbn [mbind res_bind]. rewrite Hlow.
  rewrite bool_decide_true by done. cbn [negb].
  rewrite (required_integer_is _ _ _ (Gss _ eq_refl)), (required_integer_is _ _ _ (Gts _ eq_refl)), (required_integer_is _ _ _ (Gn _ eq_refl)).
  cbn [mbind res_bind].
  assert (Hnum : 1 <= stint_number s).
  { destruct (st_status s); [done|lia|]. destruct Hs as [Hlen (x & (l' & Hx)%last_opt_in & _)]. rewrite Hx, length_app in Hlen. cbn in Hlen. lia. }
  rewrite !(proj2 (Z.ltb_ge _ _)) by lia. cbn [orb].
  unfold ogetd at 1. rewrite Gl. rewrite (read_stints_back _ _ _ _ Hc Hitems). cbn [mbind res_bind].
  destruct (st_status s) eqn:Hstat; [done| |].
  - destruct Hs as [Hlen Hend]. rewrite decide_False by done. rewrite Hlen, Z.eqb_refl. cbn [negb].
    rewrite (required_string_named _ _ _ Gd' Hd). cbn [mbind res_bind].
    rewrite bool_decide_true, (proj2 (Z.ltb_ge _ _)) by (done || lia). cbn [andb].
    rewrite decide_False by done. cbn [mbind res_bind].
    rewrite (required_string_named _ _ _ Gi' Hid), (optional_string_trimmed _ _ _ Gt' Htr), (optional_string_trimmed _ _ _ Gc' Hcar).
    cbn [mbind res_bind]. rewrite <- Hstat. by destruct s.
  - destruct Hs as [Hlen (x & Hx & Hdx & Hsx)]. rewrite decide_True by done. rewrite Hlen, Z.eqb_refl. cbn [negb].
    rewrite (required_string_named _ _ _ Gd' Hd). cbn [mbind res_bind].
    rewrite bool_decide_false by done. cbn [andb]. rewrite decide_True, Hx, Hdx, Hsx, String.eqb_refl, Z.eqb_refl by done.
    cbn [negb orb mbind res_bind].
    rewrite (required_string_named _ _ _ Gi' Hid), (optional_string_trimmed _ _ _ Gt' Htr), (optional_string_trimmed _ _ _ Gc' Hcar).
    cbn [mbind res_bind]. rewrite <- Hstat. by destruct s.
Qed.

(** Any state written and read back through JSON is the same state. *)
Lemma from_dict_back s now d' :
  state_ok s -> json_same (ODict (to_dict s now)) (ODict d') -> from_dict d' = Ok s.
Proof.
  intros Hok Hsame. destruct (same_oget _ d' "status" _ Hsame eq_refl) as [_ G]. destruct (G _ eq_refl) as [G' _].
  unfold from_dict, ogetd. rewrite G'. destruct Hok as [->|Hl]; [done|].
  pose proof (live_back s now d' Hl Hsame) as Hb. destruct (st_status s) eqn:E; [|exact Hb..].
  destruct Hl as [_ _ _ _ _ _ _ Hs]. by rewrite E in Hs.
Qed.

Lemma stint_same x : json_same (ODict (stint_dict x)) (ODict (stint_dict x)).
Proof.
  apply same_dict. intros key. cbn. repeat case_decide; constructor; by apply same_scalar.
Qed.

Lemma dict_same s now : json_same (ODict (to_dict s now)) (ODict (to_dict s now)).
Proof.
  apply same_dict. intros key. cbn. repeat case_decide; constructor; try by apply same_scalar.
  apply same_list. induction (stints s); cbn; constructor; [apply stint_same|done].
Qed.

Lemma from_to_dict s now : state_ok s -> from_dict (to_dict s now) = Ok s.
Proof. intros H. apply (from_dict_back s now); [done|apply dict_same]. Qed.

(** ** Whatever is read is a state a session can be in *)

Lemma required_string_ok data key t : _required_string data key = Ok t -> named t.
Proof.
  unfold _required_string. destruct (oget key data) as [| | | |v| |]; try discriminate.
  destruct (String.eqb (strip v) "") eqn:E; [discriminate|]. intros [= <-]. by apply strip_named.
Qed.
Lemma optional_string_ok data key t : _optional_string data key = Ok t -> trimmed t.
Proof.
  unfold _optional_string. destruct (ogetd key (OStr "") data) as [| | | |v| |]; try discriminate.
  intros [= <-]. apply strip_trimmed.
Qed.

Lemma read_stints_ok items n p l e : read_stints items n p = Ok (l, e) -> chain p n l /\ e = chain_end p l.
Proof.
  revert n p l e; induction items as [|item items IH]; intros n p l e; cbn [read_stints]; [by intros [= <- <-]|].
  destruct item as [| | | | | |item]; try discriminate.
  intros (number & _ & (start & _ & (stop & _ & H)%res_bind_Ok)%res_bind_Ok)%res_bind_Ok.
  destruct (negb (number =? n) || (start <? p) || (stop <? start)) eqn:E; [discriminate H|].
  apply res_bind_Ok in H as (d & Hd & H). apply res_bind_Ok in H as ([l' e'] & Hl & H). injection H as <- <-.
  destruct (IH _ _ _ _ Hl) as [Hc ->]. cbn [chain chain_end sn_number start_ms end_ms sn_driver].
  apply required_string_ok in Hd. split; [|done]. split_and!; try done; lia.
Qed.

Lemma from_dict_live_ok data st s : st <> SNone -> from_dict_live data st = Ok s -> live s.
Proof.
  intros Hst. unfold from_dict_live. intros (ty & _ & H)%res_bind_Ok. case_bool_decide as Hty; [|discriminate H]. cbn [negb] in H.
  apply res_bind_Ok in H as (s0 & _ & H). apply res_bind_Ok in H as (t0 & _ & H). apply res_bind_Ok in H as (number & _ & H).
  destruct ((s0 <? 0) || (t0 <? s0) || (number <? 1)) eqn:Enum; [discriminate H|].
  destruct (ogetd "stints" (OList []) data) as [| | | | |items|]; try discriminate H.
  apply res_bind_Ok in H as ([closed e] & Hcl & H). destruct (read_stints_ok _ _ _ _ _ Hcl) as [Hch ->].
  destruct (negb _) eqn:Elen; [discriminate H|]. apply negb_false_iff, Z.eqb_eq in Elen.
  apply res_bind_Ok in H as (d & Hd%required_string_ok & H). destruct (_ && _) eqn:Eact; [discriminate H|].
  apply res_bind_Ok in H as (u & Hend & H). apply res_bind_Ok in H as (id & Hid%required_string_ok & H).
  apply res_bind_Ok in H as (tr & Htr%optional_string_ok & H). apply res_bind_Ok in H as (ca & Hca%optional_string_ok & H).
  injection H as <-. split; cbn; try done; [lia|]. destruct st; [done| |].
  - rewrite decide_False in Elen by done. rewrite bool_decide_true in Eact by done. cbn [andb] in Eact. split; lia.
  - rewrite decide_True in Elen by done. cbn in Hend. split; [done|]. destruct (last_opt closed) as [x|] eqn:El; [|discriminate Hend].
    destruct (negb (String.eqb d (sn_driver x)) || negb (t0 =? start_ms x)) eqn:E; [discriminate Hend|].
    apply orb_false_iff in E as [E1%negb_false_iff%String.eqb_eq E2%negb_false_iff%Z.eqb_eq]. exists x. split_and!; [exact El|congruence..].
Qed.

Lemma from_dict_ok data s : from_dict data = Ok s -> state_ok s.
Proof.
  unfold from_dict. destruct (ogetd "status" (OStr "none") data) as [| | | |v| |]; try discriminate.
  destruct (String.eqb _ "none"); [intros [= <-]; by left|].
  destruct (String.eqb _ "active"); [intros H; right; by apply (from_dict_live_ok data SActive)|].
  destruct (String.eqb _ "ended"); [intros H; right; by apply (from_dict_live_ok data SEnded)|discriminate].
Qed.

(** * Runs of transitions *)

Inductive transition :=
  | TStart (type_ driver_ track car_ uuid : string) (now : Z)
  | TChange (driver_ : string) (now : Z)
  | TAmend (at_ms : Z)
  | TEnd (now : Z).

Definition transit (stamp : Z -> string) (s : SessionState) (t : transition) : res (SessionState * list (string * obj)) :=
  match t with
  | TStart type_ driver_ track car_ uuid now => start_session stamp s type_ driver_ track car_ uuid now
  | TChange driver_ now => change_driver s driver_ now
  | TAmend at_ms => amend_stint_start s at_ms
  | TEnd now => end_session s now
  end.
(** A refused transition leaves the state. *)
Definition transit_or_stay (stamp : Z -> string) (s : SessionState) (t : transition) : SessionState :=
  match transit stamp s t with Ok (s', _) => s' | Raise _ => s end.
Definition transit_all (stamp : Z -> string) (s : SessionState) (ts : list transition) : SessionState :=
  fold_left (transit_or_stay stamp) ts s.

(** The clock of a start is past the epoch. *)
Definition clock_ok (t : transition) : Prop := match t with TStart _ _ _ _ _ now => 0 <= now | _ => True end.

(** The stints follow one another without a gap. *)
Fixpoint tiles (p : Z) (l : list Stint) : Prop :=
  match l with [] => True | x :: l => start_ms x = p /\ tiles (end_ms x) l end.
Definition tiled (s : SessionState) : Prop :=
  tiles (session_start_ms s) (stints s) /\
  (st_status s = SActive -> stint_start_ms s = chain_end (session_start_ms s) (stints s)).

Lemma tiles_app p l x : tiles p (l ++ [x]) <-> tiles p l /\ start_ms x = chain_end p l.
Proof. revert p; induction l as [|y l IH]; intros p; cbn; [tauto|]. rewrite IH. tauto. Qed.

Section RunProperties.
Context (stamp : Z -> string).
Hypothesis stamp_text : forall now, exists c t, stamp now = String c t /\ is_space c = false.

Lemma transit_ok s t s' p :
  state_ok s -> clock_ok t -> transit stamp s t = Ok (s', p) -> live s'.
Proof.
  intros Hok Ht. destruct t; cbn [transit]; intros H.
  - by apply (start_ok stamp stamp_text) in H as [? _].
  - by apply change_ok in H as [? _].
  - by apply amend_ok in H as [? _].
  - by apply end_ok in H as [? _].
Qed.

Lemma transit_all_ok ts : forall s, state_ok s -> Forall clock_ok ts -> state_ok (transit_all stamp s ts).
Proof.
  induction ts as [|t ts IH]; intros s Hok Hts; [done|]. apply Forall_cons in Hts as [Ht Hts]. apply IH; [|done].
  unfold transit_or_stay. destruct (transit stamp s t) as [[s' p]|] eqn:E; [|done]. right. by eapply transit_ok.
Qed.

Lemma close_tiled s now : tiled s -> st_status s = SActive -> tiles (session_start_ms s) (close_stint s now).
Proof. intros [Ht Ha] Hs. unfold close_stint. rewrite tiles_app. cbn. auto. Qed.

Lemma transit_tiled s t s' p : tiled s -> transit stamp s t = Ok (s', p) -> tiled s'.
Proof.
  intros Ht. destruct t; cbn [transit].
  - unfold start_session. destruct (decide _); [done|]. cbv zeta. destruct (negb _); [done|].
    destruct (String.eqb _ _); [done|]. intros [= <- <-]. by split.
  - unfold change_driver. destruct (decide _) as [|Ha]; [done|]. apply dec_stable in Ha.
    destruct (String.eqb (strip driver_) ""); [done|]. destruct (String.eqb _ _); [done|]. destruct (now <? _); [done|].
    intros [= <- <-]. split; cbn; [by apply close_tiled|]. intros _. unfold close_stint. by rewrite chain_end_app.
  - unfold amend_stint_start. destruct (decide _) as [|Ha]; [done|]. destruct (_ <? 2); [done|].
    destruct (last_opt (stints s)) as [x|] eqn:Hl; [|done]. apply last_opt_in in Hl as (l & Hl).
    destruct (at_ms <? start_ms x); [done|]. intros [= <- <-]. destruct Ht as [Ht _]. rewrite Hl in Ht.
    apply tiles_app in Ht as [Ht Hx]. unfold tiled. cbn. rewrite Hl, set_last_end_app, tiles_app, chain_end_app. cbn. auto.
  - unfold end_session. destruct (decide _) as [|Ha]; [done|]. apply dec_stable in Ha. destruct (now <? _); [done|].
    intros [= <- <-]. split; [exact (close_tiled s now Ht Ha)|done].
Qed.

Lemma transit_all_tiled ts : forall s, tiled s -> tiled (transit_all stamp s ts).
Proof.
  induction ts as [|t ts IH]; intros s Ht; [done|]. apply IH. unfold transit_or_stay.
  destruct (transit stamp s t) as [[s' p]|] eqn:E; [by eapply transit_tiled|done].
Qed.

(** Whatever is pressed, in whatever order and however late: the stints of the
    session are numbered from one, each after the other without gap or overlap,
    the running one last, and the state written to disk is read back as it was
    through any JSON that keeps the members. *)
Theorem session_state_round_trips ts now d' :
  Forall clock_ok ts ->
  let s := transit_all stamp new_state ts in
  json_same (ODict (to_dict s now)) (ODict d') ->
  from_dict d' = Ok s /\ tiled s /\ chain (session_start_ms s) 1 (stints s) /\
  (st_status s = SActive -> stint_number s = Z.of_nat (length (stints s)) + 1).
Proof.
  intros Hts s Hsame.
  assert (Hok : state_ok s) by (apply transit_all_ok; [by left|done]).
  split; [by apply (from_dict_back s now)|]. split; [apply transit_all_tiled; by split|].
  destruct Hok as [->|[_ _ _ _ _ _ Hc Hs]]; [done|]. split; [done|]. intros Ha. rewrite Ha in Hs. lia.
Qed.
End RunProperties.

Module RaceDay.
Definition stamp (now : Z) : string := "20260801-1200".
Definition pressed : list transition :=
  [TStart " Race " "ann" "Sandown " "33" "u1" 1000; TChange "bob" 5000; TChange "bob" 5500; TChange "cid" 9000; TAmend 8000; TEnd 12000].
End RaceDay.

Lemma session_state_round_trips_witness :
  let s := transit_all RaceDay.stamp new_state RaceDay.pressed in
  stints s = [mkStint "ann" 1 1000 5000; mkStint "bob" 2 5000 8000; mkStint "cid" 3 8000 12000] /\
  from_dict (to_dict s 13000) = Ok s /\ tiled s /\ chain (session_start_ms s) 1 (stints s) /\
  (st_status s = SActive -> stint_number s = Z.of_nat (length (stints s)) + 1).
Proof.
  split; [vm_compute; reflexivity|].
  apply (session_state_round_trips RaceDay.stamp) with (now := 13000) (d' := to_dict (transit_all RaceDay.stamp new_state RaceDay.pressed) 13000).
  - intros now. exists "2"%char, "0260801-1200"%string. by split.
  - by repeat constructor.
  - apply dict_same.
Defined.
