(* ===== verification/RacePlan.v ===== *)
(** The race plan the operator submits
    ([src/pit/session_control/plan.py]): validated into the one shape the HTTP
    layer, the database and the strategy service agree on, or refused with the
    reason. Texts are ASCII. *)

From S2P Require Import Prelude PyFloat Stats PyText.

Local Open Scope Z_scope.

Definition STOP_TYPES : list string := ["refuel"; "service"].
Definition DRIVER_LIMIT_KEYS : list string := ["max_continuous_min"; "max_total_min"; "min_rest_min"].
Definition _MAX_STOPS : nat := 50.
Definition _MAX_TEXT : nat := 80.

Record PlannedStop := mkStop { stop_type : string; at_lap : option Z; at_ms : option Z; driver_in : option string }.

Record RacePlan := mkPlan {
  race_end_at_ms : option Z;
  race_end_laps : option Z;
  end_authority : string;
  tank_l : float;
  usable_fuel_l : float;
  refuel_min_s : Z;
  service_typical_s : Z;
  driver_limits : list (string * Z);
  planned_stops : list PlannedStop;
  car_number : option string;
  updated_by : option string
}.

Definition opt_obj {A : Type} (f : A -> obj) (o : option A) : obj := match o with Some a => f a | None => ONone end.
(** The members that are not [None]. *)
Definition some_member {A : Type} (key : string) (f : A -> obj) (o : option A) : list (string * obj) :=
  match o with Some a => [(key, f a)] | None => [] end.

Definition stop_dict (x : PlannedStop) : list (string * obj) :=
  ("type", OStr (stop_type x)) :: some_member "at_lap" OInt (at_lap x) ++ some_member "at_ms" OInt (at_ms x)
    ++ some_member "driver_in" OStr (driver_in x).

Definition to_dict (p : RacePlan) : list (string * obj) :=
  [("race_end_at_ms", opt_obj OInt (race_end_at_ms p)); ("race_end_laps", opt_obj OInt (race_end_laps p));
   ("end_authority", OStr (end_authority p)); ("tank_l", OFloat (tank_l p)); ("usable_fuel_l", OFloat (usable_fuel_l p));
   ("refuel_min_s", OInt (refuel_min_s p)); ("service_typical_s", OInt (service_typical_s p));
   ("driver_limits", ODict (map (fun kv => (kv.1, OInt kv.2)) (driver_limits p)));
   ("planned_stops", OList (map (fun x => ODict (stop_dict x)) (planned_stops p)));
   ("car_number", opt_obj OStr (car_number p)); ("updated_by", opt_obj OStr (updated_by p))].

(** [value is None or value == ""]. *)
Definition blank (v : obj) : bool := match v with ONone | OStr EmptyString => true | _ => false end.

Definition _number (body : list (string * obj)) (key : string) (required : bool) : res (option float) :=
  let value := oget key body in
  if blank value then (if required then raise PlanError (key +:+ " is required") else Ok None)
  else
    match value with
    | OInt z => x ← float_of_int z; Ok (Some x)
    | OFloat x => if is_finite x then Ok (Some x) else raise PlanError (key +:+ " must be finite")
    | _ => raise PlanError (key +:+ " must be a number")
    end.

Definition _integer (body : list (string * obj)) (key : string) (required : bool) : res (option Z) :=
  value ← _number body key required;
  match value with
  | None => Ok None
  | Some x => if is_integer x then z ← f_trunc x; Ok (Some z) else raise PlanError (key +:+ " must be a whole number")
  end.

(** A required one: [assert value is not None]. *)
Definition asserted {A : Type} (o : option A) : res A :=
  match o with Some a => Ok a | None => raise AssertionError "" end.
Definition required_number (body : list (string * obj)) (key : string) : res float := x ← _number body key true; asserted x.
Definition required_integer (body : list (string * obj)) (key : string) : res Z := x ← _integer body key true; asserted x.

Definition _text (value : obj) (key : string) : res (option string) :=
  if blank value then Ok None
  else match value with
  | OStr s => Ok (match str_take _MAX_TEXT (strip s) with EmptyString => None | t => Some t end)
  | _ => raise PlanError (key +:+ " must be text")
  end.

(** [if condition: raise PlanError(...)]. *)
Definition refuse_if (condition : bool) (why : string) : res () := if condition then raise PlanError why else Ok tt.

Definition opt_le0 (o : option Z) : bool := match o with Some z => z <=? 0 | None => false end.

(** [end_authority], once something ends the race. *)
Definition read_authority (body : list (string * obj)) (end_at : option Z) (end_laps : option Z) : res string :=
  let given := oget "end_authority" body in
  let authority := if blank given then OStr (if is_some end_at then "time" else "laps") else given in
  match authority with
  | OStr a =>
      if String.eqb a "time" then
        _ ← refuse_if (negb (is_some end_at)) "end_authority is time but race_end_at_ms is missing"; Ok a
      else if String.eqb a "laps" then
        _ ← refuse_if (negb (is_some end_laps)) "end_authority is laps but race_end_laps is missing"; Ok a
      else raise PlanError "end_authority must be time or laps"
  | _ => raise PlanError "end_authority must be time or laps"
  end.

(** The loop over [driver_limits]. *)
Fixpoint read_limits (items : list (string * obj)) (limits : list (string * Z)) : res (list (string * Z)) :=
  match items with
  | [] => Ok limits
  | (key, value) :: items =>
      if negb (bool_decide (key ∈ DRIVER_LIMIT_KEYS)) then raise PlanError ("driver_limits." +:+ key +:+ " is not a known limit")
      else if blank value then read_limits items limits
      else
        minutes ← required_integer [(key, value)] key;
        if minutes <? 0 then raise PlanError ("driver_limits." +:+ key +:+ " cannot be negative")
        else read_limits items (od_set key minutes limits)
  end.

Definition read_stop (index : nat) (raw : obj) : res PlannedStop :=
  let at_ := "planned_stops[" +:+ pretty index +:+ "]" in
  match raw with
  | ODict raw =>
      match oget "type" raw with
      | OStr type_ =>
          if negb (bool_decide (type_ ∈ STOP_TYPES)) then raise PlanError (at_ +:+ ".type must be refuel or service")
          else
            lap ← _integer raw "at_lap" false;
            ms ← _integer raw "at_ms" false;
            if Bool.eqb (is_some lap) (is_some ms) then raise PlanError (at_ +:+ " needs exactly one of at_lap / at_ms")
            else if opt_le0 lap then raise PlanError (at_ +:+ ".at_lap must be positive")
            else driver_ ← _text (oget "driver_in" raw) "driver_in"; Ok (mkStop type_ lap ms driver_)
      | _ => raise PlanError (at_ +:+ ".type must be refuel or service")
      end
  | _ => raise PlanError (at_ +:+ " must be an object")
  end.
Fixpoint read_stops (index : nat) (raws : list obj) : res (list PlannedStop) :=
  match raws with
  | [] => Ok []
  | raw :: raws => x ← read_stop index raw; xs ← read_stops (S index) raws; Ok (x :: xs)
  end.

Definition validate_plan (body : list (string * obj)) : res RacePlan :=
  end_at ← _integer body "race_end_at_ms" false;
  end_laps ← _integer body "race_end_laps" false;
  _ ← refuse_if (negb (is_some end_at) && negb (is_some end_laps)) "the race needs an end: race_end_at_ms, race_end_laps, or both";
  _ ← refuse_if (opt_le0 end_laps) "race_end_laps must be positive";
  authority ← read_authority body end_at end_laps;
  tank ← required_number body "tank_l";
  usable ← required_number body "usable_fuel_l";
  _ ← refuse_if (fleb tank f0) "tank_l must be positive";
  _ ← refuse_if (fleb usable f0) "usable_fuel_l must be positive";
  _ ← refuse_if (fltb tank usable) "usable_fuel_l cannot exceed tank_l";
  refuel ← required_integer body "refuel_min_s";
  service ← required_integer body "service_typical_s";
  _ ← refuse_if ((refuel <? 0) || (service <? 0)) "stop durations cannot be negative";
  limits ← match ogetd "driver_limits" (ODict []) body with
    | ONone => Ok []
    | ODict items => read_limits items []
    | _ => raise PlanError "driver_limits must be an object"
    end;
  stops ← match ogetd "planned_stops" (OList []) body with
    | ONone => Ok []
    | OList raws =>
        if (_MAX_STOPS <? length raws)%nat then raise PlanError "planned_stops: at most 50 stops" else read_stops 0 raws
    | _ => raise PlanError "planned_stops must be a list"
    end;
  car ← _text (oget "car_number" body) "car_number";
  by_ ← _text (oget "updated_by" body) "updated_by";
  Ok (mkPlan end_at end_laps authority tank usable refuel service limits stops car by_).

(** * What an accepted plan is *)

Definition fits_text (o : option string) : Prop :=
  forall t, o = Some t -> t <> "" /\ (String.length t <= _MAX_TEXT)%nat.

Record stop_ok (x : PlannedStop) : Prop := StopOk {
  so_type : stop_type x ∈ STOP_TYPES;
  so_when : is_some (at_lap x) = negb (is_some (at_ms x));
  so_lap : opt_le0 (at_lap x) = false;
  so_driver : fits_text (driver_in x)
}.

(** A plan one can race to. *)
Record raceable (p : RacePlan) : Prop := Raceable {
  rp_laps : opt_le0 (race_end_laps p) = false;
  rp_end : end_authority p = "time" /\ is_some (race_end_at_ms p) = true \/ end_authority p = "laps" /\ is_some (race_end_laps p) = true;
  rp_tank : is_finite (tank_l p) = true;
  rp_fuel : fltb f0 (usable_fuel_l p) = true /\ fleb (usable_fuel_l p) (tank_l p) = true;
  rp_refuel : 0 <= refuel_min_s p;
  rp_service : 0 <= service_typical_s p;
  rp_limits : Forall (fun kv => kv.1 ∈ DRIVER_LIMIT_KEYS /\ 0 <= kv.2) (driver_limits p) /\ od_wf (driver_limits p);
  rp_stops : (length (planned_stops p) <= _MAX_STOPS)%nat /\ Forall stop_ok (planned_stops p);
  rp_car : fits_text (car_number p);
  rp_by : fits_text (updated_by p)
}.

(** Each step of a validation that succeeds. *)
Ltac passes H x Hx :=
  apply res_bind_Ok in H; destruct H as (x & Hx & H); cbv beta in H.

Lemma refuse_if_Ok c why u : refuse_if c why = Ok u -> c = false.
Proof. unfold refuse_if. by destruct c. Qed.

Lemma number_finite body key r x : _number body key r = Ok (Some x) -> is_finite x = true.
Proof.
  unfold _number. destruct (blank _); [by destruct r|]. destruct (oget key body); try done.
  - intros H; passes H y Hy. unfold float_of_int in Hy. destruct (is_finite (f_of_Z z)) eqn:E; [|done]. by simplify_eq.
  - destruct (is_finite x0) eqn:E; [|done]. by intros [= <-].
Qed.

Lemma required_finite body key x : required_number body key = Ok x -> is_finite x = true.
Proof.
  unfold required_number. intros H; passes H o Ho. destruct o as [y|]; [|done]. cbn in H. injection H as ->.
  by eapply number_finite.
Qed.

Lemma plan_text_fits v key o : _text v key = Ok o -> fits_text o.
Proof.
  unfold _text. destruct (blank v); [by intros [= <-]|]. destruct v; try done. intros Ho t Ht.
  pose proof (str_take_length _MAX_TEXT (strip s)) as Hlen. assert (Heq : o = match str_take _MAX_TEXT (strip s) with EmptyString => None | u => Some u end) by congruence.
  rewrite Ht in Heq. destruct (str_take _MAX_TEXT (strip s)) as [|c u]; [done|]. injection Heq as ->. by split.
Qed.

Lemma limits_ok items acc l :
  read_limits items acc = Ok l -> Forall (fun kv => kv.1 ∈ DRIVER_LIMIT_KEYS /\ 0 <= kv.2) acc /\ od_wf acc ->
  Forall (fun kv => kv.1 ∈ DRIVER_LIMIT_KEYS /\ 0 <= kv.2) l /\ od_wf l.
Proof.
  revert acc; induction items as [|[key v] items IH]; intros acc; cbn [read_limits]; [by intros [= <-]|].
  case_bool_decide as Hkey; [|done]. cbn [negb]. destruct (blank v); [apply IH|].
  intros H; passes H minutes Hm. destruct (Z.ltb_spec minutes 0) as [|Hpos]; [done|]. intros [Hacc Hwf].
  apply (IH _ H). split; [|by apply od_set_wf]. clear - Hacc Hkey Hpos.
  induction Hacc as [|[k z] acc [Hk Hz] Hacc IHacc]; cbn [od_set]; [by apply Forall_singleton|].
  case_decide; apply Forall_cons; (split; [done|done]).
Qed.

Lemma stop_read_ok index raw x : read_stop index raw = Ok x -> stop_ok x.
Proof.
  unfold read_stop. destruct raw as [| | | | | |raw]; try done. destruct (oget "type" raw) as [| | | |type_| |]; try done.
  case_bool_decide as Ht; [|done]. cbn [negb]. intros H; passes H lap Hlap; passes H ms Hms.
  destruct (Bool.eqb (is_some lap) (is_some ms)) eqn:E; [done|]. destruct (opt_le0 lap) eqn:El; [done|].
  passes H d Hd. injection H as <-. split; cbn; [done| |done|by eapply plan_text_fits].
  destruct (is_some lap), (is_some ms); done.
Qed.

Lemma stops_read_ok raws index xs : read_stops index raws = Ok xs -> length xs = length raws /\ Forall stop_ok xs.
Proof.
  revert index xs; induction raws as [|raw raws IH]; intros index xs; cbn [read_stops]; [by intros [= <-]|].
  intros H; passes H x Hx; passes H xs' Hxs. injection H as <-. destruct (IH _ _ Hxs) as [Hl Hall].
  split; [cbn; by rewrite Hl|]. constructor; [by eapply stop_read_ok|done].
Qed.

(** * ... and every such plan is accepted *)

Definition exact_int (z : Z) : Prop := Z.abs z < 2 ^ 53.
Definition opt_exact (o : option Z) : Prop := forall z, o = Some z -> exact_int z.
(** The integers of the plan are doubles. *)
Record plan_exact (p : RacePlan) : Prop := PlanExact {
  pe_at : opt_exact (race_end_at_ms p);
  pe_laps : opt_exact (race_end_laps p);
  pe_refuel : exact_int (refuel_min_s p);
  pe_service : exact_int (service_typical_s p);
  pe_limits : Forall (fun kv => exact_int kv.2) (driver_limits p);
  pe_stops : Forall (fun x => opt_exact (at_lap x) /\ opt_exact (at_ms x)) (planned_stops p)
}.
(** Its texts have no blanks at their ends. *)
Definition opt_trimmed (o : option string) : Prop := forall t, o = Some t -> trimmed t.
Definition plan_trimmed (p : RacePlan) : Prop :=
  opt_trimmed (car_number p) /\ opt_trimmed (updated_by p) /\ Forall (fun x => opt_trimmed (driver_in x)) (planned_stops p).

Lemma integer_back body key r z : oget key body = OInt z -> exact_int z -> _integer body key r = Ok (Some z).
Proof.
  intros Hg Hz. unfold _integer, _number. rewrite Hg. cbn [blank].
  destruct (f_of_Z_exact z Hz) as [Hf _]. destruct (f_of_Z_trunc z Hz) as [Hi Ht].
  unfold float_of_int. rewrite Hf. cbn [mbind res_bind]. rewrite Hi, Ht. done.
Qed.

Lemma opt_integer_back body key o : oget key body = opt_obj OInt o -> opt_exact o -> _integer body key false = Ok o.
Proof.
  destruct o as [z|]; cbn [opt_obj]; intros Hg Ho; [apply integer_back; [done|by apply Ho]|].
  unfold _integer, _number. by rewrite Hg.
Qed.

Lemma required_integer_back body key z : oget key body = OInt z -> exact_int z -> required_integer body key = Ok z.
Proof. intros Hg Hz. unfold required_integer. by rewrite (integer_back _ _ _ z). Qed.

Lemma required_number_back body key x : oget key body = OFloat x -> is_finite x = true -> required_number body key = Ok x.
Proof. intros Hg Hx. unfold required_number, _number. rewrite Hg. cbn [blank]. by rewrite Hx. Qed.

Lemma str_take_all n s : (String.length s <= n)%nat -> str_take n s = s.
Proof.
  revert s; induction n as [|n IH]; intros [|c s]; cbn; try done; try lia. intros H. rewrite IH by lia. done.
Qed.

Lemma text_back o key : fits_text o -> opt_trimmed o -> _text (opt_obj OStr o) key = Ok o.
Proof.
  destruct o as [t|]; cbn [opt_obj]; [|done]. intros Hf Ht. destruct (Hf t eq_refl) as [Hne Hlen].
  unfold _text. specialize (Ht t eq_refl). unfold trimmed in Ht. rewrite Ht, str_take_all by done. by destruct t.
Qed.

Lemma limits_back l : forall acc,
  Forall (fun kv => kv.1 ∈ DRIVER_LIMIT_KEYS /\ 0 <= kv.2) l -> Forall (fun kv => exact_int kv.2) l -> od_wf (acc ++ l) ->
  read_limits (map (fun kv => (kv.1, OInt kv.2)) l) acc = Ok (acc ++ l).
Proof.
  induction l as [|[k z] l IH]; intros acc Hl He Hwf; cbn [map read_limits fst snd]; [by rewrite app_nil_r|].
  apply Forall_cons in Hl as [[Hk Hz] Hl]. apply Forall_cons in He as [He1 He]. cbn [fst snd] in *.
  rewrite bool_decide_true by done. cbn [negb blank].
  rewrite (required_integer_back _ _ z); [|unfold oget, ogetd; cbn; by rewrite decide_True|done].
  cbn [mbind res_bind]. rewrite (proj2 (Z.ltb_ge z 0)) by lia.
  assert (Hset : od_set k z acc = acc ++ [(k, z)]).
  { assert (Hni : k ∉ od_keys acc).
    { unfold od_wf, od_keys in *. rewrite fmap_app in Hwf. apply NoDup_app in Hwf as (_ & Hd & _). intros Hin.
      apply (Hd k Hin). left. }
    clear - Hni. induction acc as [|[k' z'] acc IH]; [done|]. cbn [od_set app]. unfold od_keys in Hni. cbn in Hni.
    apply not_elem_of_cons in Hni as [Hne Hni]. rewrite decide_False by done. by rewrite IH. }
  rewrite Hset, IH, <- app_assoc; try done. by rewrite <- app_assoc.
Qed.

Lemma stop_back index x :
  stop_ok x -> opt_exact (at_lap x) -> opt_exact (at_ms x) -> opt_trimmed (driver_in x) ->
  read_stop index (ODict (stop_dict x)) = Ok x.
Proof.
  intros [Ht Hw Hl Hd] Hel Hem Htr. unfold read_stop. destruct x as [ty lap ms drv]; cbn in *.
  assert (Hgt : oget "type" (stop_dict (mkStop ty lap ms drv)) = OStr ty) by done.
  assert (Hgl : oget "at_lap" (stop_dict (mkStop ty lap ms drv)) = opt_obj OInt lap) by (by destruct lap, ms, drv).
  assert (Hgm : oget "at_ms" (stop_dict (mkStop ty lap ms drv)) = opt_obj OInt ms) by (by destruct lap, ms, drv).
  assert (Hgd : oget "driver_in" (stop_dict (mkStop ty lap ms drv)) = opt_obj OStr drv) by (by destruct lap, ms, drv).
  rewrite Hgt, bool_decide_true by done. cbn [negb].
  rewrite (opt_integer_back _ _ _ Hgl Hel). cbn [mbind res_bind]. rewrite (opt_integer_back _ _ _ Hgm Hem). cbn [mbind res_bind].
  rewrite Hw, Hl, Hgd, (text_back _ _ Hd Htr). by destruct (is_some ms).
Qed.

Lemma stops_back xs : forall index,
  Forall stop_ok xs -> Forall (fun x => opt_exact (at_lap x) /\ opt_exact (at_ms x)) xs ->
  Forall (fun x => opt_trimmed (driver_in x)) xs ->
  read_stops index (map (fun x => ODict (stop_dict x)) xs) = Ok xs.
Proof.
  induction xs as [|x xs IH]; intros index Hok He Ht; [done|]. cbn [map read_stops].
  apply Forall_cons in Hok as [Hx Hok]. apply Forall_cons in He as [[Hl Hm] He]. apply Forall_cons in Ht as [Hd Ht].
  rewrite (stop_back index x Hx Hl Hm Hd). cbn [mbind res_bind]. by rewrite IH.
Qed.

(** A plan that is accepted can be raced to: its end is set and positive in
    laps, the authority's end is there, the fuel is usable and within a finite
    tank, no duration or limit is negative, every limit is known and given once,
    and each of at most fifty stops is a refuel or a service at exactly one of a
    positive lap or a time; texts are bounded. *)
Theorem accepted_plan_is_raceable body plan : validate_plan body = Ok plan -> raceable plan.
Proof.
  unfold validate_plan. intros H.
  passes H e_at H1; passes H e_laps H2; passes H u1 H3; passes H u2 H4; passes H auth H5; passes H tank H6; passes H usable H7;
    passes H u3 H8; passes H u4 H9; passes H u5 H10; passes H refuel H11; passes H service H12; passes H u6 H13;
    passes H limits H14; passes H stops H15; passes H car H16; passes H by_ H17. injection H as <-.
  apply refuse_if_Ok in H3, H4, H8, H9, H10, H13.
  assert (Ht : is_nan tank = false /\ is_nan usable = false).
  { apply required_finite in H6, H7. clear - H6 H7. by destruct tank, usable. }
  split; cbn; [done| |by eapply required_finite| |lia|lia| | |by eapply plan_text_fits|by eapply plan_text_fits].
  - unfold read_authority in H5. destruct (if blank _ then _ else _) as [| | | |a| |]; try discriminate H5.
    destruct (String.eqb_spec a "time") as [E|_]; [|destruct (String.eqb_spec a "laps") as [E|_]; [|discriminate H5]];
      passes H5 u Hu; injection H5 as <-; apply refuse_if_Ok, negb_false_iff in Hu; auto.
  - destruct Ht as [Hnt Hnu]. pose proof f0_not_nan. clear - H8 H9 H10 Hnt Hnu H. split; forder.
  - destruct (ogetd "driver_limits" _ _) as [| | | | | |items]; try discriminate H14;
      [injection H14 as <-; split; [done|apply NoDup_nil_2]|].
    apply (limits_ok _ _ _ H14). split; [done|apply NoDup_nil_2].
  - destruct (ogetd "planned_stops" _ _) as [| | | | |raws|]; try discriminate H15;
      [injection H15 as <-; split; [apply Nat.le_0_l|done]|].
    destruct (Nat.ltb_spec _MAX_STOPS (length raws)) as [|Hlen]; [discriminate H15|]. destruct (stops_read_ok _ _ _ H15) as [Hl Hs].
    by rewrite Hl.
Qed.

(** Every plan one can race to is accepted as it stands, when its integers are
    doubles and its texts have no blanks at their ends: what [to_dict] gives is
    validated back to the same plan. *)
Theorem raceable_plan_is_accepted plan :
  raceable plan -> plan_exact plan -> plan_trimmed plan -> validate_plan (to_dict plan) = Ok plan.
Proof.
  intros [Hl He Htank [Hf Hfu] Hr Hs [Hlim Hwf] [Hlen Hstops] Hc Hb] [Ea El Er Es Elim Estops] (Tc & Tb & Tstops).
  assert (Hgt : forall key v, od_get key (to_dict plan) = Some v -> oget key (to_dict plan) = v).
  { intros key v Hg. unfold oget, ogetd. by rewrite Hg. }
  unfold validate_plan.
  rewrite (opt_integer_back _ _ (race_end_at_ms plan) (Hgt "race_end_at_ms" _ eq_refl) Ea). cbn [mbind res_bind].
  rewrite (opt_integer_back _ _ (race_end_laps plan) (Hgt "race_end_laps" _ eq_refl) El). cbn [mbind res_bind].
  assert (Hany : negb (is_some (race_end_at_ms plan)) && negb (is_some (race_end_laps plan)) = false).
  { destruct He as [[_ ->]|[_ ->]]; [done|apply andb_false_r]. }
  rewrite Hany, Hl. cbn [refuse_if mbind res_bind].
  assert (Hauth : read_authority (to_dict plan) (race_end_at_ms plan) (race_end_laps plan) = Ok (end_authority plan)).
  { unfold read_authority. rewrite (Hgt "end_authority" _ eq_refl). destruct He as [[-> ->]|[-> ->]]; done. }
  rewrite Hauth. cbn [mbind res_bind].
  assert (Hnum : is_finite (usable_fuel_l plan) = true).
  { clear - Htank Hf Hfu. by destruct (usable_fuel_l plan) as [| [] | |], (tank_l plan) as [| [] | |[] ]. }
  rewrite (required_number_back _ _ _ (Hgt "tank_l" _ eq_refl) Htank). cbn [mbind res_bind].
  rewrite (required_number_back _ _ _ (Hgt "usable_fuel_l" _ eq_refl) Hnum). cbn [mbind res_bind].
  assert (F1 : fleb (tank_l plan) f0 = false) by forder. assert (F2 : fleb (usable_fuel_l plan) f0 = false) by forder.
  assert (F3 : fltb (tank_l plan) (usable_fuel_l plan) = false) by forder. rewrite F1, F2, F3. cbn [refuse_if mbind res_bind].
  rewrite (required_integer_back _ _ _ (Hgt "refuel_min_s" _ eq_refl) Er). cbn [mbind res_bind].
  rewrite (required_integer_back _ _ _ (Hgt "service_typical_s" _ eq_refl) Es). cbn [mbind res_bind].
  rewrite !(proj2 (Z.ltb_ge _ _)) by done. cbn [orb refuse_if mbind res_bind].
  change (ogetd "driver_limits" (ODict []) (to_dict plan)) with (ODict (map (fun kv => (kv.1, OInt kv.2)) (driver_limits plan))).
  cbv iota. rewrite (limits_back (driver_limits plan) [] Hlim Elim Hwf). cbn [mbind res_bind app].
  change (ogetd "planned_stops" (OList []) (to_dict plan)) with (OList (map (fun x => ODict (stop_dict x)) (planned_stops plan))).
  cbv iota. rewrite length_map, (proj2 (Nat.ltb_ge _ _)), stops_back by done. cbn [mbind res_bind].
  rewrite (Hgt "car_number" _ eq_refl), (text_back _ _ Hc Tc). cbn [mbind res_bind].
  rewrite (Hgt "updated_by" _ eq_refl), (text_back _ _ Hb Tb). by destruct plan.
Qed.

Module Enduro.
Definition submitted : list (string * obj) :=
  [("race_end_laps", OInt 120); ("end_authority", OStr ""); ("tank_l", OInt 60); ("usable_fuel_l", OFloat (lit 575 10));
   ("refuel_min_s", OInt 180); ("service_typical_s", OFloat (f_of_Z 30)); ("driver_limits", ODict [("max_total_min", OInt 240); ("min_rest_min", ONone)]);
   ("planned_stops", OList [ODict [("type", OStr "refuel"); ("at_lap", OInt 40); ("driver_in", OStr " bob ")]]); ("car_number", OStr "33")].
Definition plan : RacePlan :=
  mkPlan None (Some 120) "laps" (f_of_Z 60) (lit 575 10) 180 30 [("max_total_min", 240)] [mkStop "refuel" (Some 40) None (Some "bob")]
    (Some "33") None.
End Enduro.

Lemma accepted_plan_is_raceable_witness : validate_plan Enduro.submitted = Ok Enduro.plan /\ raceable Enduro.plan.
Proof.
  assert (H : validate_plan Enduro.submitted = Ok Enduro.plan) by (vm_compute; reflexivity).
  split; [exact H|]. exact (accepted_plan_is_raceable _ _ H).
Defined.

Lemma raceable_plan_is_accepted_witness :
  raceable Enduro.plan /\ validate_plan (to_dict Enduro.plan) = Ok Enduro.plan.
Proof.
  assert (H : raceable Enduro.plan) by (apply (accepted_plan_is_raceable Enduro.submitted); vm_compute; reflexivity).
  split; [exact H|]. apply (raceable_plan_is_accepted Enduro.plan H).
  - split; cbn; try (intros ? [=]; subst); try done; repeat constructor; try (intros ? [=]; subst); done.
  - split_and!; cbn; [intros ? [= <-]; reflexivity|intros ? [=]|]. constructor; [intros ? [= <-]; reflexivity|constructor].
Defined.

(** An integer past the range of doubles raises what the endpoint does not
    catch as a bad plan: a 500, not a 400. *)
Example huge_integer_escapes :
  exists e, validate_plan [("race_end_laps", OInt (10 ^ 400))] = Raise e /\ exn_kind e = OverflowError.
Proof. eexists. split; vm_compute; reflexivity. Qed.

(** An odd integer past [2 ^ 53] is rounded without a word. *)
Example large_integer_is_rounded :
  _integer [("race_end_at_ms", OInt (2 ^ 53 + 1))] "race_end_at_ms" false = Ok (Some (2 ^ 53)).
Proof. vm_compute. reflexivity. Qed.
