(* ===== verification/SessionDatabase.v ===== *)
(** Session control's tables and its retry queue
    ([src/pit/session_control/database.py]).

    The tables hold what the transactions committed; SQL is written as the
    function it computes, [timestamptz] as microseconds. What becomes of a write
    is the environment's: it commits, it commits and the reply is lost, it is
    refused by a dead or slow connection, or the server rejects the data. The
    queue's file is replaced or the old one stays. [json] is a parameter, so is
    the text it makes. The class's lock makes each method one step. *)

From S2P Require Import Prelude PyFloat Stats PyText SessionState.

Local Open Scope Z_scope.

(** * Rows *)

Record SessionRow := mkSessionRow {
  sr_vehicle : string;
  sr_type : string;
  sr_track : option string;
  sr_car : option string;
  sr_started : Z;
  sr_ended : option Z;
  sr_status : string
}.
Record StintRow := mkStintRow { st_id : Z; st_driver : Z; st_started : Z; st_ended : option Z }.
Record LapRow := mkLapRow { lp_id : Z; lp_session : string; lp_crossed : Z; lp_stint : option Z }.

Record Tables := mkTables {
  drivers : list (string * Z);
  next_driver : Z;
  sessions : list (string * SessionRow);
  stint_rows : list ((string * Z) * StintRow);
  next_stint : Z;
  laps : list LapRow
}.
Definition no_tables : Tables := mkTables [] 1 [] [] 1 [].

Definition _as_str (value : obj) : string := match value with OStr s => s | _ => "" end.
Definition _required_str (data : list (string * obj)) (key : string) : res string :=
  let value := _as_str (oget key data) in
  if String.eqb value "" then raise ValueError (key +:+ " is required") else Ok value.
Definition _required_int (data : list (string * obj)) (key : string) : res Z :=
  match oget key data with OInt z => Ok z | _ => raise ValueError (key +:+ " must be an integer") end.

(** [datetime.fromtimestamp(epoch_ms / 1000.0, tz=UTC)]. *)
Definition _timestamp (epoch_ms : Z) : res Z :=
  x ← float_of_int epoch_ms; q ← fdiv x (f_of_Z 1000); fromtimestamp q.

Definition as_dict (item : obj) : res (list (string * obj)) :=
  match item with ODict d => Ok d | _ => raise TypeError "each stint must be an object" end.
Definition _closed_stints (value : obj) : res (list (list (string * obj))) :=
  match value with OList items => res_map as_dict items | _ => raise TypeError "stints must be a list" end.

(** [max(..., default=None)] over the stints' ends. *)
Fixpoint max_end (stints : list (list (string * obj))) (best : option Z) : res (option Z) :=
  match stints with
  | [] => Ok best
  | stint :: stints =>
      stop ← _required_int stint "end_ms";
      max_end stints (Some (match best with None => stop | Some b => if b <? stop then stop else b end))
  end.

(** [_timestamp(x) if x is not None else None]. *)
Definition opt_timestamp (o : option Z) : res (option Z) :=
  match o with None => Ok None | Some ms => t ← _timestamp ms; Ok (Some t) end.

(** [NULLIF(x, '')]. *)
Definition nullif (s : string) : option string := match s with EmptyString => None | s => Some s end.

(** [_upsert_driver]: the sequence advances whether or not the name is new. *)
Definition _upsert_driver (t : Tables) (name : string) : Tables * Z :=
  match od_get name (drivers t) with
  | Some i => (mkTables (drivers t) (next_driver t + 1) (sessions t) (stint_rows t) (next_stint t) (laps t), i)
  | None => (mkTables (od_set name (next_driver t) (drivers t)) (next_driver t + 1) (sessions t) (stint_rows t) (next_stint t) (laps t),
             next_driver t)
  end.

(** One stint of the snapshot. *)
Definition write_stint (sid : string) (t : Tables) (stint : list (string * obj)) : res Tables :=
  name ← _required_str stint "driver";
  let '(t, driver_id) := _upsert_driver t name in
  stop ← match od_get "end_ms" stint with
    | None => raise KeyError "'end_ms'"
    | Some (OInt z) => Ok (Some z)
    | Some (OBool b) => Ok (Some (if b then 1 else 0))
    | Some _ => Ok None
    end;
  number ← _required_int stint "stint_number";
  start ← _required_int stint "start_ms";
  started ← _timestamp start;
  ended ← opt_timestamp stop;
  let id := match od_get (sid, number) (stint_rows t) with Some r => st_id r | None => next_stint t end in
  Ok (mkTables (drivers t) (next_driver t) (sessions t) (od_set (sid, number) (mkStintRow id driver_id started ended) (stint_rows t))
        (next_stint t + 1) (laps t)).
Fixpoint write_stints (sid : string) (t : Tables) (stints : list (list (string * obj))) : res Tables :=
  match stints with
  | [] => Ok t
  | stint :: stints => t ← write_stint sid t stint; write_stints sid t stints
  end.

(** The closing [UPDATE laps]: a lap of the session that points at a stint goes
    to the stint its crossing falls in. *)
Definition in_window (r : StintRow) (crossed : Z) : bool :=
  (st_started r <=? crossed) && match st_ended r with None => true | Some e => crossed <? e end.
Definition rewindow (sid : string) (rows : list ((string * Z) * StintRow)) (l : LapRow) : LapRow :=
  match lp_stint l with
  | Some i =>
      if String.eqb (lp_session l) sid then
        match List.find (fun kr => String.eqb kr.1.1 sid && negb (st_id kr.2 =? i) && in_window kr.2 (lp_crossed l)) rows with
        | Some kr => mkLapRow (lp_id l) (lp_session l) (lp_crossed l) (Some (st_id kr.2))
        | None => l
        end
      else l
  | None => l
  end.

(** The running stint of an active session. *)
Definition running_stint (state : list (string * obj)) (status : string) : res (list (list (string * obj))) :=
  if String.eqb status "active" then
    name ← _required_str state "driver";
    number ← _required_int state "stint_number";
    start ← _required_int state "stint_start";
    Ok [[("driver", OStr name); ("stint_number", OInt number); ("start_ms", OInt start); ("end_ms", ONone)]]
  else Ok [].

Definition set_session (t : Tables) (sid : string) (r : SessionRow) : Tables :=
  mkTables (drivers t) (next_driver t) (od_set sid r (sessions t)) (stint_rows t) (next_stint t) (laps t).
Definition set_laps (t : Tables) (l : list LapRow) : Tables :=
  mkTables (drivers t) (next_driver t) (sessions t) (stint_rows t) (next_stint t) l.

(** [_write_state]: the tables its transaction commits. *)
Definition _write_state (vehicle_id : string) (t : Tables) (state : list (string * obj)) : res Tables :=
  sid ← _required_str state "session_id";
  status ← _required_str state "status";
  start ← _required_int state "session_start";
  started ← _timestamp start;
  closed ← _closed_stints (oget "stints" state);
  ended ← (if String.eqb status "ended" then max_end closed None else Ok None);
  ended_at ← opt_timestamp ended;
  type_ ← _required_str state "session_type";
  let row := mkSessionRow vehicle_id type_ (nullif (_as_str (oget "track_name" state))) (nullif (_as_str (oget "car" state)))
               started ended_at status in
  running ← running_stint state status;
  t ← write_stints sid (set_session t sid row) (closed ++ running);
  Ok (set_laps t (map (rewindow sid (stint_rows t)) (laps t))).

(** * The retry queue *)

(** What becomes of a write; [Rejected] is any other database error. *)
Inductive write := Committed | LostReply | Refused | Rejected.

Section Queue.
Context {text : Type} (json_dumps : obj -> text) (json_loads : text -> option obj).
Context (vehicle_id : string).

Record SessionDatabase := mkDatabase {
  connected : bool;
  _pending : list (string * list (string * obj));
  queue_file : option text;
  connects : Z;
  errors : Z;
  tables : Tables
}.

Definition set_pending (db : SessionDatabase) p : SessionDatabase :=
  mkDatabase (connected db) p (queue_file db) (connects db) (errors db) (tables db).
Definition set_tables (db : SessionDatabase) t : SessionDatabase :=
  mkDatabase (connected db) (_pending db) (queue_file db) (connects db) (errors db) t.
Definition count_error (db : SessionDatabase) : SessionDatabase :=
  mkDatabase (connected db) (_pending db) (queue_file db) (connects db) (errors db + 1) (tables db).
Definition _drop_connection (db : SessionDatabase) : SessionDatabase :=
  mkDatabase false (_pending db) (queue_file db) (connects db) (errors db) (tables db).

(** [_persist_pending]; [ok] is whether the file was replaced. *)
Definition _persist_pending (db : SessionDatabase) (ok : bool) : SessionDatabase * bool :=
  if ok then
    (mkDatabase (connected db) (_pending db) (Some (json_dumps (OList (map ODict (_pending db).*2)))) (connects db) (errors db) (tables db), true)
  else (db, false).

Definition connect_once (db : SessionDatabase) (reachable : bool) : SessionDatabase * bool :=
  if connected db then (db, true)
  else if reachable then (mkDatabase true (_pending db) (queue_file db) (connects db + 1) (errors db) (tables db), true)
  else (count_error db, false).

Definition _queue (db : SessionDatabase) (state : list (string * obj)) (persist_ok : bool) : SessionDatabase * res unit :=
  let sid := _as_str (oget "session_id" state) in
  let previous := od_get sid (_pending db) in
  let '(db', ok) := _persist_pending (set_pending db (od_set sid state (_pending db))) persist_ok in
  if ok then (db', Ok tt)
  else
    (set_pending db' (match previous with None => od_del sid (_pending db') | Some p => od_set sid p (_pending db') end),
     raise OSError "").

(** [record]: whether the snapshot was committed. *)
Definition record (db : SessionDatabase) (state : list (string * obj)) (now : Z) (w : write) (persist_ok : bool)
    : SessionDatabase * res bool :=
  match from_dict state with
  | Raise e => (db, Raise e)
  | Ok s =>
      let state := to_dict s now in
      let sid := _as_str (oget "session_id" state) in
      let queued db :=
        let '(db, r) := _queue db state persist_ok in
        (db, match r with Ok _ => Ok false | Raise e => Raise e end) in
      if String.eqb sid "" then (db, Ok true)
      else if connected db then
        match _write_state vehicle_id (tables db) state with
        | Raise e => (db, Raise e)
        | Ok t =>
            match w with
            | Committed =>
                let db := set_tables db t in
                match od_get sid (_pending db) with
                | None => (db, Ok true)
                | Some pending =>
                    let '(db, ok) := _persist_pending (set_pending db (od_del sid (_pending db))) persist_ok in
                    (if ok then db else set_pending db (od_set sid pending (_pending db)), Ok true)
                end
            | LostReply => queued (_drop_connection (count_error (set_tables db t)))
            | Refused => queued (_drop_connection (count_error db))
            | Rejected => (db, raise DatabaseError "")
            end
        end
      else queued db
  end.

(** [_flush_one]: whether a snapshot was written and taken off. *)
Definition _flush_one (db : SessionDatabase) (w : write) (persist_ok : bool) : SessionDatabase * res bool :=
  if negb (connected db) then (db, Ok false)
  else
    match _pending db with
    | [] => (db, Ok false)
    | (sid, state) :: _ =>
        match _write_state vehicle_id (tables db) state with
        | Raise e => (db, Raise e)
        | Ok t =>
            match w with
            | Committed =>
                let db := set_tables db t in
                let '(db, ok) := _persist_pending (set_pending db (od_del sid (_pending db))) persist_ok in
                if ok then (db, Ok true) else (set_pending (count_error db) (od_set sid state (_pending db)), Ok false)
            | LostReply => (_drop_connection (count_error (set_tables db t)), Ok false)
            | Refused => (_drop_connection (count_error db), Ok false)
            | Rejected => (db, raise DatabaseError "")
            end
        end
    end.

(** [_load_pending]: each snapshot is validated again. *)
Fixpoint load_items (items : list obj) (now : Z) (pending : list (string * list (string * obj))) : res (list (string * list (string * obj))) :=
  match items with
  | [] => Ok pending
  | ODict item :: items =>
      s ← from_dict item;
      let state := to_dict s now in
      load_items items now (od_set (_as_str (oget "session_id" state)) state pending)
  | _ => raise ValueError "retry queue items must be JSON objects"
  end.
Definition _load_pending (file : option text) (now : Z) : res (list (string * list (string * obj))) :=
  match file with
  | None => Ok []
  | Some t =>
      match json_loads t with
      | Some (OList items) => load_items items now []
      | Some _ => raise ValueError "retry queue must be a JSON array"
      | None => raise ValueError "invalid JSON"
      end
  end.

(** The constructor, on the file and the tables a former process left. *)
Definition database_init (file : option text) (t : Tables) (now : Z) : res SessionDatabase :=
  pending ← _load_pending file now; Ok (mkDatabase false pending file 0 0 t).
End Queue.
Arguments SessionDatabase : clear implicits.
