(* ===== verification/SessionQueue.v ===== *)
(** What session control's database holds: a written snapshot is found in the
    tables, and over whole runs of recording, flushing, outages and restarts the
    newest snapshot of every session is either in the tables or in the queue. *)

From S2P Require Import Prelude PyFloat Stats PyText SessionState SessionDatabase.

Local Open Scope Z_scope.

(** * The rows of a state *)

(** A stint as it is written: driver, number, start and end. *)
Record entry := mkEntry { en_name : string; en_number : Z; en_start : Z; en_stop : option Z }.
Definition entry_dict (e : entry) : list (string * obj) :=
  [("driver", OStr (en_name e)); ("stint_number", OInt (en_number e)); ("start_ms", OInt (en_start e));
   ("end_ms", match en_stop e with Some z => OInt z | None => ONone end)].
Definition entry_of (x : Stint) : entry := mkEntry (sn_driver x) (sn_number x) (start_ms x) (Some (end_ms x)).
Definition running (s : SessionState) : list entry :=
  match st_status s with SActive => [mkEntry (driver s) (stint_number s) (stint_start_ms s) None] | _ => [] end.
Definition entries (s : SessionState) : list entry := map entry_of (stints s) ++ running s.

Definition session_row (vehicle_id : string) (s : SessionState) : res SessionRow :=
  started ← _timestamp (session_start_ms s);
  ended ← opt_timestamp (match st_status s with SEnded => Some (chain_end (session_start_ms s) (stints s)) | _ => None end);
  Ok (mkSessionRow vehicle_id (session_type s) (nullif (track_name s)) (nullif (car s)) started ended (status_text (st_status s))).

Record entry_holds (sid : string) (t : Tables) (e : entry) (r : StintRow) : Prop := EntryHolds {
  eh_row : od_get (sid, en_number e) (stint_rows t) = Some r;
  eh_driver : od_get (en_name e) (drivers t) = Some (st_driver r);
  eh_started : _timestamp (en_start e) = Ok (st_started r);
  eh_ended : opt_timestamp (en_stop e) = Ok (st_ended r)
}.

(** The tables hold the snapshot of a state. *)
Record holds (vehicle_id : string) (t : Tables) (s : SessionState) : Prop := Holds {
  hd_session : exists r, od_get (session_id s) (sessions t) = Some r /\ session_row vehicle_id s = Ok r;
  hd_stints : Forall (fun e => exists r, entry_holds (session_id s) t e r) (entries s)
}.

(** What a write of one session leaves alone. *)
Record same_elsewhere (sid : string) (t t' : Tables) : Prop := SameElsewhere {
  se_sessions : forall k, k <> sid -> od_get k (sessions t') = od_get k (sessions t);
  se_stints : forall k n, k <> sid -> od_get (k, n) (stint_rows t') = od_get (k, n) (stint_rows t);
  se_drivers : forall name i, od_get name (drivers t) = Some i -> od_get name (drivers t') = Some i
}.

Lemma elsewhere_refl sid t : same_elsewhere sid t t.
Proof. by split. Qed.

Lemma elsewhere_trans sid t t1 t2 : same_elsewhere sid t t1 -> same_elsewhere sid t1 t2 -> same_elsewhere sid t t2.
Proof.
  intros [a b c] [a' b' c']; split; [intros k Hk|intros k n Hk|intros name i Hi]; [by rewrite a', a|by rewrite b', b|by apply c', c].
Qed.

Lemma holds_elsewhere vehicle_id sid t t' s :
  same_elsewhere sid t t' -> session_id s <> sid -> holds vehicle_id t s -> holds vehicle_id t' s.
Proof.
  intros [Hs Hst Hd] Hne [(r & Hr & Hrow) Hstints]; split.
  - exists r. by rewrite Hs.
  - eapply Forall_impl; [exact Hstints|]. intros e (row & [H1 H2 H3 H4]). exists row. split; [by rewrite Hst|by apply Hd|done..].
Qed.

Lemma upsert_spec t name :
  let '(t', i) := _upsert_driver t name in
  od_get name (drivers t') = Some i /\ sessions t' = sessions t /\ stint_rows t' = stint_rows t /\ laps t' = laps t /\
  (forall name' j, od_get name' (drivers t) = Some j -> od_get name' (drivers t') = Some j).
Proof.
  unfold _upsert_driver. destruct (od_get name (drivers t)) as [i|] eqn:E; cbn; [done|].
  split_and!; [apply od_get_set_eq|done..|]. intros name' j Hj. destruct (decide (name' = name)) as [->|Hne]; [by rewrite E in Hj|].
  by rewrite od_get_set_ne.
Qed.

Lemma write_entry sid t e t' :
  en_name e <> "" -> write_stint sid t (entry_dict e) = Ok t' ->
  (exists r, entry_holds sid t' e r) /\ same_elsewhere sid t t' /\ sessions t' = sessions t /\ laps t' = laps t /\
  (forall n, n <> en_number e -> od_get (sid, n) (stint_rows t') = od_get (sid, n) (stint_rows t)).
Proof.
  intros Hname. unfold write_stint.
  assert (Hn : _required_str (entry_dict e) "driver" = Ok (en_name e)).
  { unfold _required_str. cbn. by rewrite (proj2 (String.eqb_neq _ _)). }
  rewrite Hn. cbn [mbind res_bind].
  pose proof (upsert_spec t (en_name e)) as Hu. destruct (_upsert_driver t (en_name e)) as [t1 i]. destruct Hu as (Hi & Hs & Hr & Hlap & Hd).
  assert (Hstop : match od_get "end_ms" (entry_dict e) with
    | None => raise KeyError "'end_ms'" | Some (OInt z) => Ok (Some z) | Some (OBool b) => Ok (Some (if b then 1 else 0)) | Some _ => Ok None end
    = Ok (en_stop e)) by (by destruct e as [? ? ? []]).
  rewrite Hstop. cbn [mbind res_bind].
  change (_required_int (entry_dict e) "stint_number") with (Ok (en_number e) : res Z).
  change (_required_int (entry_dict e) "start_ms") with (Ok (en_start e) : res Z). cbn [mbind res_bind].
  intros (started & Hst & (ended & Hen & Ht)%res_bind_Ok)%res_bind_Ok. injection Ht as <-. split_and!.
  - eexists. split; cbn [stint_rows drivers st_driver st_started st_ended]; [apply od_get_set_eq|done..].
  - split; cbn [sessions stint_rows drivers]; [by rewrite Hs| |done].
    intros k n Hk. rewrite od_get_set_ne by congruence. by rewrite Hr.
  - done.
  - done.
  - intros n Hne. cbn [stint_rows]. rewrite od_get_set_ne by congruence. by rewrite Hr.
Qed.

Lemma write_entries sid es t t' :
  NoDup (map en_number es) -> Forall (fun e => en_name e <> "") es -> write_stints sid t (map entry_dict es) = Ok t' ->
  Forall (fun e => exists r, entry_holds sid t' e r) es /\ same_elsewhere sid t t' /\ sessions t' = sessions t /\ laps t' = laps t /\
  (forall n, n ∉ map en_number es -> od_get (sid, n) (stint_rows t') = od_get (sid, n) (stint_rows t)).
Proof.
  revert t; induction es as [|e es IH]; intros t; cbn [map write_stints].
  - intros _ _ [= <-]. split_and!; [done|apply elsewhere_refl|done..].
  - intros [Hni Hnd]%NoDup_cons [Hname Hnames]%Forall_cons (t1 & H1 & H2)%res_bind_Ok.
    destruct (write_entry sid t e t1 Hname H1) as ((r & [Er Ed Es Ee]) & Hel & Hse & Hla & Hnum).
    destruct (IH t1 Hnd Hnames H2) as (Hall & Hel2 & Hse2 & Hla2 & Hnum2). split_and!.
    + apply Forall_cons; split; [|done]. exists r. split; [by rewrite Hnum2|by apply (se_drivers _ _ _ Hel2)|done..].
    + by eapply elsewhere_trans.
    + by rewrite Hse2.
    + by rewrite Hla2.
    + intros n [Hne Hnin]%not_elem_of_cons. by rewrite Hnum2, Hnum.
Qed.

(** ** The numbers and the last end of a chain *)

Lemma chain_numbers p n l : chain p n l -> Forall (fun x => n <= sn_number x < n + Z.of_nat (length l)) l /\ NoDup (map sn_number l).
Proof.
  revert p n; induction l as [|x l IH]; intros p n; cbn [chain map length]; [intros _; split; [done|apply NoDup_nil_2]|].
  intros (Hn & _ & _ & Hc). destruct (IH _ _ Hc) as [Hall Hnd]. split.
  - constructor; [lia|]. eapply Forall_impl; [exact Hall|]. cbn; lia.
  - apply NoDup_cons; split; [|done]. intros (y & Hy & Hin)%list_elem_of_fmap. rewrite Forall_forall in Hall.
    apply Hall in Hin. lia.
Qed.

Lemma entries_distinct s : live s -> NoDup (map en_number (entries s)) /\ Forall (fun e => en_name e <> "") (entries s).
Proof.
  intros [_ _ [_ Hd] _ _ _ Hc Hs]. destruct (chain_numbers _ _ _ Hc) as [Hall Hnd]. unfold entries, running.
  assert (Hm : map en_number (map entry_of (stints s)) = map sn_number (stints s)) by (rewrite map_map; done).
  assert (Hnames : Forall (fun e => en_name e <> "") (map entry_of (stints s))).
  { clear - Hc. revert Hc. generalize (session_start_ms s), 1. induction (stints s) as [|x l IH]; intros p n; cbn; [done|].
    intros (_ & _ & [_ Hx] & Hc). constructor; [done|by eapply IH]. }
  rewrite map_app, Hm. destruct (st_status s); [done| |].
  - split; [|apply Forall_app; split; [done|by apply Forall_singleton]]. apply NoDup_app; split_and!; [done| |apply NoDup_singleton].
    intros n (x & -> & Hx)%list_elem_of_fmap Hin%list_elem_of_singleton. rewrite Forall_forall in Hall. apply Hall in Hx. cbn in Hin. lia.
  - cbn. by rewrite !app_nil_r.
Qed.

Lemma max_end_chain l p n best :
  chain p n l -> (forall b, best = Some b -> b <= p) ->
  max_end (map stint_dict l) best = Ok (match l with [] => best | _ => Some (chain_end p l) end).
Proof.
  revert p n best; induction l as [|x l IH]; intros p n best; cbn [chain map max_end]; [done|].
  intros (_ & Hx & _ & Hc) Hb. change (_required_int (stint_dict x) "end_ms") with (Ok (end_ms x) : res Z). cbn [mbind res_bind].
  assert (Hbest : Some (match best with None => end_ms x | Some b => if b <? end_ms x then end_ms x else b end) = Some (end_ms x)).
  { destruct best as [b|]; [|done]. specialize (Hb b eq_refl). destruct (Z.ltb_spec b (end_ms x)); [done|]. f_equal; lia. }
  rewrite Hbest, (IH _ _ _ Hc) by (intros b [= <-]; lia). cbn [chain_end]. by destruct l.
Qed.

Lemma closed_back s now : _closed_stints (oget "stints" (to_dict s now)) = Ok (map stint_dict (stints s)).
Proof.
  change (oget "stints" (to_dict s now)) with (OList (map (fun x => ODict (stint_dict x)) (stints s))). unfold _closed_stints.
  induction (stints s) as [|x l IH]; [done|]. cbn [map res_map as_dict mbind res_bind]. by rewrite IH.
Qed.

(** ** One write *)

Lemma write_state_spec vehicle_id t s now t' :
  live s -> _write_state vehicle_id t (to_dict s now) = Ok t' ->
  holds vehicle_id t' s /\ same_elsewhere (session_id s) t t' /\
  laps t' = map (rewindow (session_id s) (stint_rows t')) (laps t).
Proof.
  intros Hl. pose proof Hl as [Hty [_ Hid] [_ Hdr] _ _ _ Hc Hs]. destruct (entries_distinct s Hl) as [Hnd Hnames]. unfold _write_state.
  assert (Hstr : forall key v, od_get key (to_dict s now) = Some (OStr v) -> v <> "" -> _required_str (to_dict s now) key = Ok v).
  { intros key v Hg Hv. unfold _required_str, oget, ogetd. rewrite Hg. cbn. by rewrite (proj2 (String.eqb_neq _ _)). }
  rewrite (Hstr "session_id" _ eq_refl Hid). cbn [mbind res_bind].
  rewrite (Hstr "status" _ eq_refl) by (by destruct (st_status s)). cbn [mbind res_bind].
  change (_required_int (to_dict s now) "session_start") with (Ok (session_start_ms s) : res Z). cbn [mbind res_bind].
  intros (started & Hstart & H)%res_bind_Ok. rewrite closed_back in H. cbn [mbind res_bind] in H.
  assert (Hended : (if String.eqb (status_text (st_status s)) "ended" then max_end (map stint_dict (stints s)) None else Ok None) =
    Ok (match st_status s with SEnded => Some (chain_end (session_start_ms s) (stints s)) | _ => None end)).
  { destruct (st_status s) eqn:Est; cbn; [done|done|]. rewrite (max_end_chain _ _ _ _ Hc) by done.
    destruct Hs as [_ (x & Hx & _)]. by destruct (stints s). }
  rewrite Hended in H. cbn [mbind res_bind] in H. apply res_bind_Ok in H as (ended & Hen & H).
  assert (Htyne : session_type s <> "").
  { intros E. rewrite E in Hty. clear - Hty. unfold SESSION_TYPES in Hty. by repeat (apply elem_of_cons in Hty as [Hty|Hty]; [done|]); apply not_elem_of_nil in Hty. }
  rewrite (Hstr "session_type" _ eq_refl Htyne) in H. cbn [mbind res_bind] in H.
  assert (Hrun : running_stint (to_dict s now) (status_text (st_status s)) = Ok (map entry_dict (running s))).
  { unfold running_stint, running. destruct (st_status s); [done| |done]. cbn [String.eqb status_text].
    rewrite (Hstr "driver" _ eq_refl Hdr). done. }
  rewrite Hrun in H. cbn [mbind res_bind] in H.
  set (row := mkSessionRow vehicle_id _ _ _ started ended _) in H.
  assert (Hmap : map stint_dict (stints s) ++ map entry_dict (running s) = map entry_dict (entries s)).
  { unfold entries. by rewrite map_app, map_map. }
  rewrite Hmap in H. apply res_bind_Ok in H as (t1 & Hw & H). injection H as <-.
  destruct (write_entries _ _ _ _ Hnd Hnames Hw) as (Hall & Hel & Hse & Hla & _). split_and!; [split| |cbn; by rewrite Hla].
  - exists row. cbn [sessions set_laps]. rewrite Hse. split; [apply od_get_set_eq|]. unfold session_row. by rewrite Hstart; cbn [mbind res_bind]; rewrite Hen.
  - eapply Forall_impl; [exact Hall|]. intros e (r & [? ? ? ?]). exists r. by split.
  - apply (elsewhere_trans _ _ (set_session t (session_id s) row)).
    + split; cbn; [intros k Hk; by rewrite od_get_set_ne|done..].
    + destruct Hel. by split.
Qed.

(** ** Laps follow the stints *)

Lemma rewindow_keeps sid rows l :
  lp_id (rewindow sid rows l) = lp_id l /\ lp_session (rewindow sid rows l) = lp_session l /\
  lp_crossed (rewindow sid rows l) = lp_crossed l /\ (lp_stint (rewindow sid rows l) = None <-> lp_stint l = None) /\
  (lp_session l <> sid -> rewindow sid rows l = l).
Proof.
  unfold rewindow. destruct (lp_stint l) as [i|] eqn:E; [|done].
  destruct (String.eqb_spec (lp_session l) sid) as [Heq|Hne]; [|by rewrite E].
  destruct (List.find _ rows) as [kr|]; split_and!; cbn; rewrite ?E; try done; intros; congruence.
Qed.

(** A crossing falls in a stint: from its start, up to and not at its end. *)
Definition falls_in (r : StintRow) (crossed : Z) : Prop :=
  st_started r <= crossed /\ forall e, st_ended r = Some e -> crossed < e.

Lemma in_window_spec r crossed : in_window r crossed = true <-> falls_in r crossed.
Proof.
  unfold in_window, falls_in. rewrite andb_true_iff, Z.leb_le. destruct (st_ended r) as [e|].
  - rewrite Z.ltb_lt. split; [intros [? ?]; split; [done|by intros ? [= <-]]|intros [? H]; auto].
  - split; [intros [? _]|intros [? _]]; by split.
Qed.

Lemma rewindow_finds sid rows l k r i :
  lp_session l = sid -> (k, r) ∈ rows -> k.1 = sid -> in_window r (lp_crossed l) = true ->
  (forall k' r', (k', r') ∈ rows -> k'.1 = sid -> in_window r' (lp_crossed l) = true -> st_id r' = st_id r) ->
  lp_stint (rewindow sid rows l) = Some i -> i = st_id r.
Proof.
  intros Hsid Hin Hk Hw Huniq. unfold rewindow. destruct (lp_stint l) as [j|] eqn:Ej; [|by rewrite Ej].
  rewrite Hsid, String.eqb_refl. destruct (List.find _ rows) as [[k' r']|] eqn:Ef.
  - apply List.find_some in Ef as [Hin' Hf]. cbn in Hf. apply andb_true_iff in Hf as [Hf Hw']. apply andb_true_iff in Hf as [Hs _].
    cbn. intros [= <-]. apply (Huniq k'); [by apply list_elem_of_In|by apply String.eqb_eq|done].
  - intros Hi. rewrite Ej in Hi. injection Hi as ->. pose proof (List.find_none _ _ Ef (k, r)) as Hnone.
    apply list_elem_of_In in Hin. specialize (Hnone Hin). cbn in Hnone. rewrite Hk, String.eqb_refl, Hw, andb_true_r in Hnone. cbn in Hnone.
    apply negb_false_iff, Z.eqb_eq in Hnone. congruence.
Qed.

(** A late driver change or correction moves a stint boundary after laps were
    given to the stint the car knew. Writing the snapshot gives every lap of
    the session that has a stint the one its crossing falls in, when only one
    does; it adds, drops and renumbers no lap, and leaves those of other
    sessions and those without a stint as they were. *)
Theorem laps_follow_the_stints vehicle_id t s now t' :
  live s -> _write_state vehicle_id t (to_dict s now) = Ok t' ->
  Forall2 (fun l l' => lp_id l' = lp_id l /\ lp_session l' = lp_session l /\ lp_crossed l' = lp_crossed l /\
                       (lp_stint l' = None <-> lp_stint l = None) /\ (lp_session l <> session_id s -> l' = l)) (laps t) (laps t') /\
  forall l' i k r, l' ∈ laps t' -> lp_session l' = session_id s -> lp_stint l' = Some i ->
    (k, r) ∈ stint_rows t' -> k.1 = session_id s -> falls_in r (lp_crossed l') ->
    (forall k' r', (k', r') ∈ stint_rows t' -> k'.1 = session_id s -> falls_in r' (lp_crossed l') -> st_id r' = st_id r) ->
    i = st_id r.
Proof.
  intros Hl Hw. destruct (write_state_spec vehicle_id t s now t' Hl Hw) as (_ & _ & Hlaps). rewrite Hlaps. split.
  - clear Hlaps. induction (laps t) as [|l ls IH]; [constructor|]. cbn [map]. constructor; [apply rewindow_keeps|exact IH].
  - intros l' i k r (l & -> & Hin)%list_elem_of_fmap. destruct (rewindow_keeps (session_id s) (stint_rows t') l) as (_ & Hs & Hc & _).
    rewrite Hs, Hc. intros Hsid Hi Hr Hk Hwin%in_window_spec Huniq.
    eapply rewindow_finds; try done. by intros k' r' H1 H2 H3%in_window_spec; eapply Huniq.
Qed.

(** * Runs of the queue *)

Section QueueRuns.
Context {text : Type} (json_dumps : obj -> text) (json_loads : text -> option obj) (vehicle_id : string).

(** A call of the controller, a turn of the background loop, or a restart of
    the service on the files and tables left. *)
Inductive queue_step :=
  | QRecord (s : SessionState) (told now : Z) (w : write) (persist_ok : bool)
  | QFlush (w : write) (persist_ok : bool)
  | QConnect (reachable : bool)
  | QRestart (now : Z).

(** The database and the newest snapshot accepted of each session. *)
Definition queue_state : Type := SessionDatabase text * list (string * SessionState).
Definition queue_turn (v : queue_state) (st : queue_step) : queue_state :=
  let '(db, newest) := v in
  match st with
  | QRecord s told now w persist_ok =>
      let '(db', r) := record json_dumps vehicle_id db (to_dict s told) now w persist_ok in
      (db', match r with Ok _ => od_set (session_id s) s newest | Raise _ => newest end)
  | QFlush w persist_ok => ((_flush_one json_dumps vehicle_id db w persist_ok).1, newest)
  | QConnect reachable => ((connect_once db reachable).1, newest)
  | QRestart now =>
      match database_init json_loads (queue_file db) (tables db) now with Ok db' => (db', newest) | Raise _ => (db, newest) end
  end.
Definition queue_run (v : queue_state) (sts : list queue_step) : queue_state := fold_left queue_turn sts v.

(** The snapshots are of live sessions, and the queue's file is writable when
    it must drop a snapshot just committed, or take one whose commit may have
    happened. *)
Definition clean (db : SessionDatabase text) (st : queue_step) : Prop :=
  match st with
  | QRecord s _ _ w persist_ok =>
      live s /\
      (connected db = true ->
       match w with
       | Committed => persist_ok = true \/ od_get (session_id s) (_pending db) = None
       | LostReply => persist_ok = true
       | _ => True
       end)
  | _ => True
  end.
Fixpoint clean_run (v : queue_state) (sts : list queue_step) : Prop :=
  match sts with
  | [] => True
  | st :: sts => clean v.1 st /\ clean_run (queue_turn v st) sts
  end.

Definition snapshot_of (s : SessionState) (d : list (string * obj)) : Prop := exists now, d = to_dict s now.

(** A queue whose entries are snapshots of live sessions under their ids. *)
Definition queue_ok (p : list (string * list (string * obj))) : Prop :=
  od_wf p /\ Forall (fun kd => exists s, snapshot_of s kd.2 /\ live s /\ session_id s = kd.1) p.
(** The same sessions wait, with the same states. *)
Definition same_snapshot (d d' : list (string * obj)) : Prop := exists s, live s /\ snapshot_of s d /\ snapshot_of s d'.
Definition same_queue (p q : list (string * list (string * obj))) : Prop :=
  forall sid, option_Forall2 same_snapshot (od_get sid p) (od_get sid q).

Lemma queue_ok_set p sid d s :
  queue_ok p -> snapshot_of s d -> live s -> session_id s = sid -> queue_ok (od_set sid d p).
Proof.
  intros [Hwf Hall] Hd Hl Hs. split; [by apply od_set_wf|]. clear Hwf. induction Hall as [|[k d'] p Hk Hall IH]; cbn [od_set].
  - apply Forall_singleton. by exists s.
  - case_decide; apply Forall_cons; (split; [|done]); [|done]. subst; cbn in *. by exists s.
Qed.

Lemma queue_ok_del p sid : queue_ok p -> queue_ok (od_del sid p).
Proof. intros [Hwf Hall]. split; [by apply od_del_wf|]. unfold od_del. rewrite Forall_forall in *. intros kd [_ Hin]%list_elem_of_filter. auto. Qed.

Lemma queue_ok_get p sid d : queue_ok p -> od_get sid p = Some d -> exists s, snapshot_of s d /\ live s /\ session_id s = sid.
Proof. intros [_ Hall] Hg%od_get_In. rewrite Forall_forall in Hall. by apply Hall in Hg. Qed.

Lemma snapshot_unique s s' d : live s -> live s' -> snapshot_of s d -> snapshot_of s' d -> s = s'.
Proof.
  intros Hl Hl' [n ->] [n' Heq]. assert (E : from_dict (to_dict s n) = from_dict (to_dict s' n')) by (by rewrite Heq).
  rewrite !from_to_dict in E by (by right). by injection E.
Qed.

Lemma same_queue_trans p q r : same_queue p q -> same_queue q r -> same_queue p r.
Proof.
  intros H1 H2 sid. specialize (H1 sid); specialize (H2 sid).
  destruct H1 as [d d1 (s & Hl & Hd & Hd1)|]; [|by inversion H2; constructor].
  inversion H2 as [? d2 (s' & Hl' & Hd1' & Hd2)|]; subst. constructor. exists s. split_and!; [done..|].
  by rewrite (snapshot_unique s s' d1).
Qed.

Lemma same_queue_map p q : queue_ok p -> (forall sid, od_get sid q = od_get sid p) -> same_queue p q.
Proof.
  intros Hp Heq sid. rewrite Heq. destruct (od_get sid p) as [d|] eqn:E; constructor.
  destruct (queue_ok_get p sid d Hp E) as (s & Hd & Hl & _). by exists s.
Qed.

Lemma same_queue_refl p : queue_ok p -> same_queue p p.
Proof. intros Hp. by apply same_queue_map. Qed.

Lemma id_of s d : snapshot_of s d -> _as_str (oget "session_id" d) = session_id s.
Proof. by intros [now ->]. Qed.

(** A queue read back from its file, onto what was read before. *)
Lemma load_items_same p items now acc :
  queue_ok p -> queue_ok acc -> Forall2 json_same (map ODict p.*2) items ->
  exists q, load_items items now acc = Ok q /\ queue_ok q /\
    forall sid, match od_get sid p with
      | Some d => exists d', od_get sid q = Some d' /\ same_snapshot d d'
      | None => od_get sid q = od_get sid acc
      end.
Proof.
  intros [Hwf Hall]; revert items acc; induction p as [|[k d] p IH]; intros items acc Hacc; cbn [fmap list_fmap map snd].
  - intros H; inversion H; subst. by exists acc.
  - intros H. inversion H as [|? item ? items' Hitem Hitems]; subst. apply NoDup_cons in Hwf as [Hni Hwf].
    apply Forall_cons in Hall as [(s & [n Hd] & Hl & Hsid) Hall]. cbn [fst snd] in *. subst k d.
    inversion Hitem as [? Hv| |? d' Hs]; subst; [done|]. cbn [load_items].
    rewrite (from_dict_back s n d') by (by right || done). cbn [mbind res_bind].
    change (_as_str (oget "session_id" (to_dict s now))) with (session_id s).
    destruct (IH Hwf Hall items' (od_set (session_id s) (to_dict s now) acc)) as (q & Hq & Hqok & Hget); [|done|].
    { apply (queue_ok_set _ _ _ s); [done|by exists now|done..]. }
    exists q. split; [done|]. split; [done|]. intros sid. cbn [od_get]. specialize (Hget sid). case_decide as Hsid.
    + subst sid. assert (Hnone : od_get (session_id s) p = None) by (by apply od_get_None). rewrite Hnone in Hget.
      exists (to_dict s now). rewrite Hget, od_get_set_eq. split; [done|]. exists s. split_and!; [done|by exists n|by exists now].
    + destruct (od_get sid p); [done|]. by rewrite Hget, od_get_set_ne.
Qed.

(** The file holds the queue. *)
Definition file_ok (file : option text) (p : list (string * list (string * obj))) : Prop :=
  match file with
  | None => forall sid, od_get sid p = None
  | Some t => exists q, t = json_dumps (OList (map ODict q.*2)) /\ queue_ok q /\ same_queue q p
  end.

Lemma file_ok_same file p p' : same_queue p p' -> file_ok file p -> file_ok file p'.
Proof.
  intros Heq. destruct file as [t|]; cbn.
  - intros (q & Ht & Hq & Hs). exists q. split_and!; [done..|by eapply same_queue_trans].
  - intros H sid. specialize (Heq sid). rewrite H in Heq. by inversion Heq.
Qed.

Lemma file_ok_persisted p : queue_ok p -> file_ok (Some (json_dumps (OList (map ODict p.*2)))) p.
Proof. intros Hp. exists p. split_and!; [done..|by apply same_queue_refl]. Qed.

Record queue_inv (v : queue_state) : Prop := QueueInv {
  qi_ok : queue_ok (_pending v.1);
  qi_newest : forall sid d, od_get sid (_pending v.1) = Some d -> exists s, od_get sid v.2 = Some s /\ snapshot_of s d;
  qi_live : forall sid s, od_get sid v.2 = Some s -> live s /\ session_id s = sid;
  qi_held : forall sid s, od_get sid v.2 = Some s -> od_get sid (_pending v.1) = None -> holds vehicle_id (tables v.1) s;
  qi_file : file_ok (queue_file v.1) (_pending v.1)
}.

(** One session's snapshot moves on: it is in the tables, or in the queue. *)
Lemma inv_moves v db' newest' sid s :
  queue_inv v -> same_elsewhere sid (tables v.1) (tables db') ->
  live s -> session_id s = sid -> od_get sid newest' = Some s -> (forall k, k <> sid -> od_get k newest' = od_get k v.2) ->
  queue_ok (_pending db') -> (forall k, k <> sid -> od_get k (_pending db') = od_get k (_pending v.1)) ->
  (od_get sid (_pending db') = None /\ holds vehicle_id (tables db') s \/ exists d, od_get sid (_pending db') = Some d /\ snapshot_of s d) ->
  file_ok (queue_file db') (_pending db') ->
  queue_inv (db', newest').
Proof.
  intros [Hok Hnew Hlive Hheld Hfile] Hel Hl Hsid Hs Hother Hok' Hp Hwhere Hfile'. split; cbn [fst snd]; [done|..|done].
  - intros k d Hk. destruct (decide (k = sid)) as [->|Hne].
    + destruct Hwhere as [[Hnone _]|(d' & Hd' & Hsnap)]; [congruence|]. exists s. split; [done|]. congruence.
    + rewrite Hp in Hk by done. rewrite Hother by done. by apply Hnew.
  - intros k s' Hk. destruct (decide (k = sid)) as [->|Hne]; [rewrite Hs in Hk; by injection Hk as <-|].
    rewrite Hother in Hk by done. by apply Hlive.
  - intros k s' Hk Hnone. destruct (decide (k = sid)) as [->|Hne].
    + rewrite Hs in Hk. injection Hk as <-. destruct Hwhere as [[_ Hh]|(d' & Hd' & _)]; [done|congruence].
    + rewrite Hother in Hk by done. rewrite Hp in Hnone by done. apply (holds_elsewhere vehicle_id sid (tables v.1)); [done| |by apply Hheld with k].
      by destruct (Hlive _ _ Hk) as [_ ->].
Qed.

(** Only the order of the queue, the counters or the connection changed. *)
Lemma inv_same v db' :
  queue_inv v -> queue_ok (_pending db') -> same_queue (_pending v.1) (_pending db') ->
  tables db' = tables v.1 -> file_ok (queue_file db') (_pending db') -> queue_inv (db', v.2).
Proof.
  intros [Hok Hnew Hlive Hheld Hfile] Hok' Hp Ht Hf. split; cbn [fst snd]; [done|..|done].
  - intros k d Hk. specialize (Hp k). rewrite Hk in Hp. inversion Hp as [d0 ? (s & Hl & Hd0 & Hd) E|]; subst. symmetry in E.
    destruct (Hnew _ _ E) as (s' & Hs' & Hd0'). destruct (Hlive _ _ Hs') as [Hl' _]. exists s'. split; [done|].
    by rewrite (snapshot_unique s' s d0).
  - done.
  - intros k s Hk Hnone. specialize (Hp k). rewrite Hnone in Hp. inversion Hp as [|E]. rewrite Ht. by apply (Hheld k).
Qed.

(** Queueing a snapshot, whose write may have happened. *)
Lemma queue_inv_queued v db s now persist_ok :
  queue_inv v -> live s -> _pending db = _pending v.1 -> queue_file db = queue_file v.1 ->
  same_elsewhere (session_id s) (tables v.1) (tables db) -> (persist_ok = false -> tables db = tables v.1) ->
  let '(db', r) := _queue json_dumps db (to_dict s now) persist_ok in
  queue_inv (db', match r with Ok _ => od_set (session_id s) s v.2 | Raise _ => v.2 end).
Proof.
  intros Hinv Hl Hp Hf Hel Hsame. unfold _queue. change (_as_str (oget "session_id" (to_dict s now))) with (session_id s).
  set (sid := session_id s) in *. rewrite Hp. pose proof (qi_ok _ Hinv) as Hok.
  assert (Hok' : queue_ok (od_set sid (to_dict s now) (_pending v.1))) by (apply (queue_ok_set _ _ _ s); [done|by exists now|done..]).
  destruct persist_ok; unfold _persist_pending; cbn [_pending set_pending].
  - apply (inv_moves v _ _ sid s); cbn [_pending tables queue_file]; try done; [apply od_get_set_eq| | | |].
    + intros k Hk. by rewrite od_get_set_ne.
    + intros k Hk. by rewrite od_get_set_ne.
    + right. exists (to_dict s now). split; [apply od_get_set_eq|by exists now].
    + by apply file_ok_persisted.
  - set (restored := match od_get sid (_pending v.1) with None => _ | Some p => _ end).
    assert (Hmap : forall k, od_get k restored = od_get k (_pending v.1)).
    { intros k. unfold restored. destruct (decide (k = sid)) as [->|Hne]; destruct (od_get sid (_pending v.1)) as [p|] eqn:E.
      - by rewrite od_get_set_eq.
      - by rewrite od_get_del_eq.
      - by rewrite !od_get_set_ne.
      - by rewrite od_get_del_ne, od_get_set_ne. }
    assert (Hrok : queue_ok restored).
    { unfold restored. destruct (od_get sid (_pending v.1)) as [p|] eqn:E; [|by apply queue_ok_del].
      destruct (queue_ok_get _ _ _ Hok E) as (s' & Hs' & Hl' & Hid). by apply (queue_ok_set _ _ _ s'). }
    apply (inv_same v); cbn [_pending tables queue_file set_pending]; [done|done|by apply same_queue_map|by apply Hsame|].
    rewrite Hf. apply (file_ok_same _ (_pending v.1)); [by apply same_queue_map|apply (qi_file _ Hinv)].
Qed.

Lemma record_inv db newest s told now w persist_ok :
  queue_inv (db, newest) -> clean db (QRecord s told now w persist_ok) ->
  queue_inv (queue_turn (db, newest) (QRecord s told now w persist_ok)).
Proof.
  intros Hinv [Hl Hclean]. cbn [queue_turn]. unfold record. rewrite (from_to_dict s told) by (by right).
  change (_as_str (oget "session_id" (to_dict s now))) with (session_id s). pose proof (lv_id s Hl) as [_ Hne].
  rewrite (proj2 (String.eqb_neq _ _) Hne). set (sid := session_id s) in *.
  assert (Hqueued : forall db1, _pending db1 = _pending db -> queue_file db1 = queue_file db ->
    same_elsewhere sid (tables db) (tables db1) -> (persist_ok = false -> tables db1 = tables db) ->
    queue_inv (let '(db', r) := (let '(db2, r) := _queue json_dumps db1 (to_dict s now) persist_ok in
                                 (db2, match r with Ok _ => Ok false | Raise e => Raise e end)) in
               (db', match r with Ok _ => od_set sid s newest | Raise _ => newest end))).
  { intros db1 H1 H2 H3 H4. pose proof (queue_inv_queued (db, newest) db1 s now persist_ok Hinv Hl H1 H2 H3 H4) as Hq.
    destruct (_queue json_dumps db1 (to_dict s now) persist_ok) as [db2 [u|e]]; exact Hq. }
  destruct (connected db) eqn:Hconn; [|by apply Hqueued; [..|apply elsewhere_refl|]].
  specialize (Hclean eq_refl).
  destruct (_write_state vehicle_id (tables db) (to_dict s now)) as [t|e] eqn:Hw; [|exact Hinv].
  destruct (write_state_spec vehicle_id (tables db) s now t Hl Hw) as (Hh & Hel & _). destruct w.
  - cbn [_pending set_tables]. destruct (od_get sid (_pending db)) as [p|] eqn:E.
    + destruct Hclean as [->|[=]]. cbn [_persist_pending set_pending _pending set_tables].
      apply (inv_moves (db, newest) _ _ sid s); cbn [_pending tables queue_file fst snd]; try done; [apply od_get_set_eq|..].
      * intros k Hk. by rewrite od_get_set_ne.
      * apply queue_ok_del, (qi_ok _ Hinv).
      * intros k Hk. by rewrite od_get_del_ne.
      * left. split; [apply od_get_del_eq|done].
      * apply file_ok_persisted, queue_ok_del, (qi_ok _ Hinv).
    + apply (inv_moves (db, newest) _ _ sid s); cbn [_pending tables queue_file set_tables fst snd]; try done; [apply od_get_set_eq|..].
      * intros k Hk. by rewrite od_get_set_ne.
      * apply (qi_ok _ Hinv).
      * by left.
      * apply (qi_file _ Hinv).
  - apply Hqueued; try done. intros ->. discriminate Hclean.
  - apply Hqueued; try done.
  - exact Hinv.
Qed.

Lemma queue_flush_inv db newest w persist_ok :
  queue_inv (db, newest) -> queue_inv (queue_turn (db, newest) (QFlush w persist_ok)).
Proof.
  intros Hinv. cbn [queue_turn]. unfold _flush_one. destruct (connected db); cbn [negb]; [|exact Hinv].
  destruct (_pending db) as [|[sid d] p] eqn:Ep; [exact Hinv|].
  assert (Hg : od_get sid (_pending db) = Some d) by (rewrite Ep; cbn; by rewrite decide_True).
  destruct (qi_newest _ Hinv _ _ Hg) as (s & Hs & now & ->). destruct (qi_live _ Hinv _ _ Hs) as [Hl Hid]. subst sid. cbn [snd] in Hs.
  destruct (_write_state vehicle_id (tables db) (to_dict s now)) as [t|e] eqn:Hw; [|exact Hinv].
  destruct (write_state_spec vehicle_id (tables db) s now t Hl Hw) as (Hh & Hel & _). pose proof (qi_ok _ Hinv) as Hok. cbn [fst] in Hok.
  destruct w; cbn [fst]; try exact Hinv.
  - cbn [_pending set_tables]. destruct persist_ok; cbn [_persist_pending set_pending _pending set_tables].
    + apply (inv_moves (db, newest) _ _ (session_id s) s); cbn [_pending tables queue_file fst snd]; try done.
      * by apply queue_ok_del.
      * intros k Hk. by rewrite od_get_del_ne.
      * left. split; [apply od_get_del_eq|done].
      * apply file_ok_persisted. by apply queue_ok_del.
    + apply (inv_moves (db, newest) _ _ (session_id s) s); cbn [_pending tables queue_file set_pending count_error fst snd]; try done.
      * apply (queue_ok_set _ _ _ s); [by apply queue_ok_del|by exists now|done..].
      * intros k Hk. rewrite od_get_set_ne by done. by rewrite od_get_del_ne.
      * right. exists (to_dict s now). split; [apply od_get_set_eq|by exists now].
      * apply (file_ok_same _ (_pending db)); [|apply (qi_file _ Hinv)]. apply same_queue_map; [done|]. intros k.
        destruct (decide (k = session_id s)) as [->|Hk]; [by rewrite od_get_set_eq, Hg|].
        rewrite od_get_set_ne by done. by rewrite od_get_del_ne.
  - apply (inv_moves (db, newest) _ _ (session_id s) s); cbn [_pending tables queue_file _drop_connection count_error set_tables fst snd]; try done.
    + right. exists (to_dict s now). split; [done|by exists now].
    + apply (qi_file _ Hinv).
  - apply (inv_same (db, newest)); [done|done|by apply same_queue_refl|done|apply (qi_file _ Hinv)].
Qed.

Hypothesis json_law : forall p, queue_ok p ->
  exists items, json_loads (json_dumps (OList (map ODict p.*2))) = Some (OList items) /\ Forall2 json_same (map ODict p.*2) items.

Lemma queue_turn_inv v st : queue_inv v -> clean v.1 st -> queue_inv (queue_turn v st).
Proof.
  destruct v as [db newest]. intros Hinv Hclean. destruct st as [s told now w persist_ok|w persist_ok|reachable|now].
  - by apply record_inv.
  - by apply queue_flush_inv.
  - cbn [queue_turn]. unfold connect_once.
    destruct (connected db), reachable; try exact Hinv; (apply (inv_same (db, newest)); [done|apply (qi_ok _ Hinv)| |done|apply (qi_file _ Hinv)]);
      apply same_queue_refl, (qi_ok _ Hinv).
  - cbn [queue_turn]. unfold database_init, _load_pending. pose proof (qi_file _ Hinv) as Hfile. cbn [fst] in Hfile.
    destruct (queue_file db) as [t|] eqn:Ef; cbn in Hfile.
    + destruct Hfile as (q & -> & Hq & Hsame). destruct (json_law q Hq) as (items & -> & Hitems).
      destruct (load_items_same q items now [] Hq) as (p & -> & Hp & Hget); [split; [apply NoDup_nil_2|done]|done|].
      assert (Hback : same_queue q p).
      { intros sid. specialize (Hget sid). destruct (od_get sid q) as [d|]; [|rewrite Hget; constructor].
        destruct Hget as (d' & -> & Hd). by constructor. }
      assert (Hforth : same_queue p q).
      { intros sid. destruct (Hback sid) as [d d' (s & Hl & Hd & Hd')|]; constructor. by exists s. }
      assert (Hback2 : same_queue (_pending db) q).
      { intros sid. destruct (Hsame sid) as [d d' (s & Hl & Hd & Hd')|]; constructor. by exists s. }
      apply (inv_same (db, newest)); cbn [fst _pending tables queue_file]; [done|done|by apply (same_queue_trans _ q)|done|by exists q].
    + apply (inv_same (db, newest)); cbn [fst _pending tables queue_file]; [done|split; [apply NoDup_nil_2|done]| |done|done].
      intros sid. rewrite Hfile. constructor.
Qed.

Lemma queue_run_inv sts v : queue_inv v -> clean_run v sts -> queue_inv (queue_run v sts).
Proof.
  revert v; induction sts as [|st sts IH]; intros v Hinv; cbn [clean_run queue_run fold_left]; [done|].
  intros [Hc Hcs]. apply IH; [by apply queue_turn_inv|done].
Qed.

(** C21. Recording, background flushing, outages, lost replies and restarts in any
    order: the newest snapshot accepted of every session is in the tables, its
    stints under their drivers with their times, or it waits in the queue; once
    the queue is empty the tables hold them all. *)
Theorem newest_snapshot_settles t sts :
  let v := (mkDatabase false [] None 0 0 t, []) in
  clean_run v sts ->
  let '(db, newest) := queue_run v sts in
  forall sid s, od_get sid newest = Some s ->
    (exists d, od_get sid (_pending db) = Some d /\ from_dict d = Ok s) \/
    (od_get sid (_pending db) = None /\ holds vehicle_id (tables db) s).
Proof.
  intros v Hclean. assert (Hv : queue_inv v) by (split; cbn; try done; split; [apply NoDup_nil_2|done]).
  pose proof (queue_run_inv sts v Hv Hclean) as Hinv. destruct (queue_run v sts) as [db newest]. intros sid s Hs.
  destruct (qi_live _ Hinv _ _ Hs) as [Hl _]. destruct (od_get sid (_pending db)) as [d|] eqn:E.
  - left. exists d. split; [done|]. destruct (qi_newest _ Hinv _ _ E) as (s' & Hs' & n & ->). cbn [snd] in *.
    rewrite Hs in Hs'. injection Hs' as <-. apply from_to_dict. by right.
  - right. split; [done|]. by apply (qi_held _ Hinv sid).
Qed.
End QueueRuns.

(** * A race weekend *)

Module Weekend.
(** JSON, as the object it carries. *)
Definition dumps (v : obj) : obj := v.
Definition loads (t : obj) : option obj := Some t.
Definition started : SessionState := transit_all RaceDay.stamp new_state [TStart "race" "ann" "Sandown" "33" "u1" 1000].
Definition changed : SessionState := transit_all RaceDay.stamp started [TChange "bob" 5000].
Definition finished : SessionState := transit_all RaceDay.stamp started [TChange "bob" 5000; TEnd 9000].
Definition opening (t : Tables) : queue_state (text := obj) := (mkDatabase false [] None 0 0 t, []).
Definition lap_at (i ms : Z) : LapRow := mkLapRow i (session_id started) (ms * 1000) (Some 1).
(** Two laps the car gave to the first stint; the second was driven in the second. *)
Definition before_change : Tables := set_laps no_tables [lap_at 1 4000; lap_at 2 6000].
Definition outage : list (queue_step) :=
  [QConnect false; QRecord started 1000 1001 Committed true; QConnect true; QFlush Committed true; QRecord changed 7000 7001 LostReply true;
   QRestart 8000; QConnect true; QRecord finished 9000 9001 Committed true].
(** The state of the table's row and of the stints it has. *)
Definition shown (db : SessionDatabase obj) : list (string * option Z) * list (Z * option Z) * nat :=
  (map (fun kr => (sr_status kr.2, sr_ended kr.2)) (sessions (tables db)),
   map (fun kr => (kr.1.2, st_ended kr.2)) (stint_rows (tables db)), length (_pending db)).
Lemma json_law p : queue_ok p ->
  exists items, loads (dumps (OList (map ODict p.*2))) = Some (OList items) /\ Forall2 json_same (map ODict p.*2) items.
Proof.
  intros [_ Hall]. exists (map ODict p.*2). split; [done|].
  induction Hall as [|[k d] p (s & [now Hd] & _) _ IH]; [constructor|]. cbn in *. subst d. constructor; [apply dict_same|done].
Qed.
Lemma stamped now : exists c t, RaceDay.stamp now = String c t /\ is_space c = false.
Proof. by exists "2"%char, "0260801-1200"%string. Qed.
Lemma started_live : live started.
Proof. by destruct (transit_all_ok RaceDay.stamp stamped [TStart "race" "ann" "Sandown" "33" "u1" 1000] new_state) as [?|?]; [left|repeat constructor| |]. Qed.
Lemma changed_live : live changed.
Proof. by destruct (transit_all_ok RaceDay.stamp stamped [TChange "bob" 5000] started) as [?|?]; [right; apply started_live|repeat constructor| |]. Qed.
Lemma finished_live : live finished.
Proof. by destruct (transit_all_ok RaceDay.stamp stamped [TChange "bob" 5000; TEnd 9000] started) as [?|?]; [right; apply started_live|repeat constructor| |]. Qed.
End Weekend.
Import Weekend.

Lemma newest_snapshot_settles_witness :
  let '(db, newest) := queue_run dumps loads "car1" (opening before_change) outage in
  (shown db = ([("ended", Some 9000000)], [(1, Some 5000000); (2, Some 9000000)], 0%nat) /\ map snd newest = [finished]) /\
  forall sid s, od_get sid newest = Some s ->
    (exists d, od_get sid (_pending db) = Some d /\ from_dict d = Ok s) \/
    (od_get sid (_pending db) = None /\ holds "car1" (tables db) s).
Proof.
  assert (Hclean : clean_run dumps loads "car1" (opening before_change) outage).
  { cbn [clean_run outage]. split_and!; try exact I; (split; [first [exact started_live|exact changed_live|exact finished_live]|]);
      intros _; try (by left); try (by right); reflexivity. }
  pose proof (newest_snapshot_settles dumps loads "car1" json_law before_change outage Hclean) as H.
  assert (Hshown : let '(db, newest) := queue_run dumps loads "car1" (opening before_change) outage in
    shown db = ([("ended", Some 9000000)], [(1, Some 5000000); (2, Some 9000000)], 0%nat) /\ map snd newest = [finished])
    by (vm_compute; split; reflexivity).
  change (mkDatabase false [] None 0 0 before_change, []) with (opening before_change) in H.
  destruct (queue_run dumps loads "car1" (opening before_change) outage) as [db newest]. exact (conj Hshown H).
Defined.

Lemma laps_follow_the_stints_witness :
  exists t', _write_state "car1" before_change (to_dict changed 7000) = Ok t' /\
    map lp_stint (laps before_change) = [Some 1; Some 1] /\ map lp_stint (laps t') = [Some 1; Some 2] /\
    Forall2 (fun l l' => lp_id l' = lp_id l /\ lp_session l' = lp_session l /\ lp_crossed l' = lp_crossed l /\
                         (lp_stint l' = None <-> lp_stint l = None) /\ (lp_session l <> session_id changed -> l' = l))
      (laps before_change) (laps t').
Proof.
  assert (H : exists t', _write_state "car1" before_change (to_dict changed 7000) = Ok t' /\ map lp_stint (laps t') = [Some 1; Some 2])
    by (eexists; split; [vm_compute; reflexivity|reflexivity]).
  destruct H as (t' & Hw & Hlaps). exists t'. split; [exact Hw|]. split; [reflexivity|]. split; [exact Hlaps|].
  apply (laps_follow_the_stints "car1" before_change changed 7000 t' changed_live Hw).
Defined.

(** Keeping the queued snapshot when the queue's file cannot be rewritten after
    a commit is not harmless: the snapshot is older than the one committed, and
    its replay puts the session that ended back to active. *)
Example stale_snapshot_reopens_the_session :
  let steps := [QRecord started 1000 1001 Committed true; QConnect true; QRecord finished 9000 9001 Committed false] in
  let '(db, newest) := queue_run dumps loads "car1" (opening no_tables) steps in
  let '(db', _) := queue_run dumps loads "car1" (db, newest) [QFlush Committed true] in
  map snd newest = [finished] /\
  shown db = ([("ended", Some 9000000)], [(1, Some 5000000); (2, Some 9000000)], 1%nat) /\
  shown db' = ([("active", None)], [(1, None); (2, Some 9000000)], 0%nat).
Proof. vm_compute. split_and!; reflexivity. Qed.
