(* ===== verification/SessionControl.v ===== *)
(** The session controller, its state file, the publisher of the latest session
    and the HTTP endpoints ([src/pit/session_control/service.py],
    [publisher.py]).

    The controller's lock makes an action one step. What its awaits and its
    files answer is an argument of the step: the clock, whether the file was
    replaced, what the recorder did, and whether the HTTP layer's five-second
    timeout cancelled the action while it waited for the recorder. The recorder
    is the class [DatabaseRecorder], of which the retry queue is an instance. *)

From S2P Require Import Prelude PyFloat Stats PyText SessionState RacePlan SessionDatabase SessionQueue.

Local Open Scope Z_scope.

(** * The latest-value publisher ([publisher.py]) *)

Section Publisher.
Context {payload_bytes : Type} `{EqDecision payload_bytes}.

(** [sending] is the payload of a publish that has not been answered;
    [delivered] is what the stream got, newest first. *)
Record LatestSessionPublisher := mkPublisher {
  pub_pending : option payload_bytes;
  sending : option payload_bytes;
  published : Z;
  pub_errors : Z;
  delivered : list payload_bytes
}.
Definition publisher_init : LatestSessionPublisher := mkPublisher None None 0 0 [].

Definition submit (p : LatestSessionPublisher) (payload : payload_bytes) : LatestSessionPublisher :=
  mkPublisher (Some payload) (sending p) (published p) (pub_errors p) (delivered p).

(** A turn of [_publish_loop] up to the await. *)
Definition publish_begin (p : LatestSessionPublisher) : LatestSessionPublisher :=
  match sending p, pub_pending p with
  | None, Some payload => mkPublisher (pub_pending p) (Some payload) (published p) (pub_errors p) (delivered p)
  | _, _ => p
  end.
(** The ack arrives. *)
Definition publish_acked (p : LatestSessionPublisher) : LatestSessionPublisher :=
  match sending p with
  | None => p
  | Some payload =>
      mkPublisher (if decide (pub_pending p = Some payload) then None else pub_pending p) None (published p + 1) (pub_errors p)
        (payload :: delivered p)
  end.
(** The publish fails; the stream may have got it all the same. *)
Definition publish_failed (p : LatestSessionPublisher) (arrived : bool) : LatestSessionPublisher :=
  match sending p with
  | None => p
  | Some payload =>
      mkPublisher (pub_pending p) None (published p) (pub_errors p + 1) (if arrived then payload :: delivered p else delivered p)
  end.
End Publisher.
Arguments LatestSessionPublisher : clear implicits.

Definition _BACKOFF_START_S : float := lit 5 10.
Definition _BACKOFF_MAX_S : float := f_of_Z 15.
Definition retry_backoff (current : float) (made_progress : bool) : float :=
  if made_progress then _BACKOFF_START_S else fmin (fmul current (f_of_Z 2)) _BACKOFF_MAX_S.

(** * The recorder the controller needs *)

(** [record] now or queue for a retry, or raise; [W] is what the environment
    does to the call. *)
Class DatabaseRecorder (D W : Type) := db_record : D -> list (string * obj) -> Z -> W -> D * res bool.

#[export] Instance queue_recorder {text : Type} (json_dumps : obj -> text) (vehicle_id : string) :
  DatabaseRecorder (SessionDatabase text) (write * bool) :=
  fun db state now w => record json_dumps vehicle_id db state now w.1 w.2.

(** * The controller *)

(** [_text]. *)
Definition body_text (body : list (string * obj)) (key : string) : string := _as_str (oget key body).

Section Control.
Context {text D W : Type} {recorder : DatabaseRecorder D W}.
Context (json_dumps : obj -> text) (json_loads : text -> option obj) (stamp : Z -> string).
Context (default_track : string).

(** What opening the state file finds. *)
Inductive state_file := file_missing | file_unreadable | file_text (t : text).

(** [StateFile.load]. *)
Definition load (f : state_file) : SessionState :=
  match f with
  | file_missing | file_unreadable => new_state
  | file_text t =>
      match json_loads t with
      | Some (ODict d) => match from_dict d with Ok s => s | Raise _ => new_state end
      | _ => new_state
      end
  end.
(** [StateFile.save]. *)
Definition save (f : state_file) (s : SessionState) (now : Z) (ok : bool) : state_file * bool :=
  if ok then (file_text (json_dumps (ODict (SessionState.to_dict s now))), true) else (f, false).

Record SessionController := mkController {
  sc_state : SessionState;
  sc_file : state_file;
  sc_database : D;
  sc_publisher : LatestSessionPublisher text
}.

(** What happens around one action. *)
Record surroundings := mkSurroundings {
  clock_ms : Z;
  uuid : string;
  saved : bool;
  recorder_does : W;
  cancelled : option bool;  (* cancelled while recording; whether the recorder had done its work *)
  saved_back : bool
}.

Inductive outcome := Answered (payload : list (string * obj)) | Failed (e : exn) | CancelledAct.

(** [at] of the body: absent, or a time in the past. *)
Definition backdated (action : string) (body : list (string * obj)) (clock : Z) : res (option Z) :=
  match oget "at" body with
  | ONone => Ok None
  | OInt at_ =>
      if String.eqb action "start" then raise SessionError "start cannot be backdated"
      else if clock <? at_ then raise SessionError "at cannot be in the future"
      else Ok (Some at_)
  | _ => raise SessionError "at must be epoch milliseconds"
  end.

(** The transition an action asks of the state. *)
Definition asked (s : SessionState) (action : string) (body : list (string * obj)) (env : surroundings)
    : res (SessionState * list (string * obj)) :=
  at_ ← backdated action body (clock_ms env);
  let now := match at_ with Some t => t | None => clock_ms env end in
  if String.eqb action "start" then
    start_session stamp s (body_text body "session_type") (body_text body "driver")
      (str_or (body_text body "track_name") default_track) (body_text body "car") (uuid env) now
  else if String.eqb action "driver" then
    let driver_ := strip (body_text body "driver") in
    match at_ with
    | Some t => if bool_decide (st_status s = SActive) && String.eqb driver_ (driver s) then amend_stint_start s t else change_driver s driver_ now
    | None => change_driver s driver_ now
    end
  else if String.eqb action "end" then end_session s now
  else raise SessionError ("unknown action " +:+ repr_str action).

(** [self.state = SessionState.from_dict(prior_state)]; [prior] as written
    before the transition. *)
Definition restored (prior : SessionState) (now : Z) : res SessionState := from_dict (SessionState.to_dict prior now).

Definition act (c : SessionController) (action : string) (body : list (string * obj)) (env : surroundings)
    : SessionController * outcome :=
  let now := clock_ms env in
  let prior := sc_state c in
  match asked (sc_state c) action body env with
  | Raise e => (c, Failed e)
  | Ok (s, payload_) =>
      let '(f, ok) := save (sc_file c) s now (saved env) in
      if negb ok then
        match restored prior now with
        | Ok s' => (mkController s' f (sc_database c) (sc_publisher c), Failed (Exn SessionPersistenceError "failed to persist session state"))
        | Raise e => (mkController s f (sc_database c) (sc_publisher c), Failed e)
        end
      else
        let '(db, recorded) := db_record (sc_database c) (SessionState.to_dict s now) now (recorder_does env) in
        match cancelled env with
        | Some landed => (mkController s f (if landed then db else sc_database c) (sc_publisher c), CancelledAct)
        | None =>
            match recorded with
            | Ok _ => (mkController s f db (submit (sc_publisher c) (json_dumps (ODict payload_))), Answered payload_)
            | Raise e =>
                match restored prior now with
                | Raise e' => (mkController s f db (sc_publisher c), Failed e')
                | Ok s' =>
                    let '(f, ok) := save f s' now (saved_back env) in
                    (mkController s' f db (sc_publisher c),
                     Failed (if negb ok then Exn RuntimeError "failed to roll back session after retry-queue failure"
                             else if decide (exn_kind e = OSError) then Exn SessionPersistenceError "failed to persist database retry queue"
                             else e))
                end
            end
        end
  end.

(** [republish_current], and the controller of a process that starts on what a
    former one left. *)
Definition republish_current (c : SessionController) (now : Z) : SessionController :=
  if decide (st_status (sc_state c) = SNone) then c
  else mkController (sc_state c) (sc_file c) (sc_database c) (submit (sc_publisher c) (json_dumps (ODict (payload (sc_state c) now)))).
Definition controller_init (f : state_file) (db : D) : SessionController := mkController (load f) f db publisher_init.

(** [plan_set] up to the database: the session the plan is for, and the plan. *)
Definition plan_set (c : SessionController) (body : list (string * obj)) : res (string * RacePlan) :=
  let sid := if decide (st_status (sc_state c) = SNone) then "" else session_id (sc_state c) in
  if String.eqb sid "" then raise SessionError "no session: start one before entering its race plan"
  else plan ← validate_plan body; Ok (sid, plan).

(** The status [do_POST] answers for what a coroutine raised. *)
Definition raised_status (e : exn) : Z :=
  match exn_kind e with
  | PlanError => 400
  | SessionPersistenceError | PlanUnavailable => 503
  | SessionError => 409
  | _ => 500
  end.
Definition outcome_status (o : outcome) : Z :=
  match o with Answered _ => 200 | Failed e => raised_status e | CancelledAct => 503 end.
End Control.
Arguments SessionController : clear implicits.
Arguments surroundings : clear implicits.

(** * The newest payload is published *)

Section PublisherRuns.
Context {A : Type} `{EqDecision A}.

Inductive publisher_step := PSubmit (a : A) | PBegin | PAcked | PFailed (arrived : bool).
Definition publisher_turn (p : LatestSessionPublisher A) (st : publisher_step) : LatestSessionPublisher A :=
  match st with PSubmit a => submit p a | PBegin => publish_begin p | PAcked => publish_acked p | PFailed arrived => publish_failed p arrived end.

(** [a] waits, or nothing does and [a] is what the stream got last. *)
Definition told (p : LatestSessionPublisher A) (a : A) : Prop :=
  pub_pending p = Some a \/ (pub_pending p = None /\ sending p = None /\ head (delivered p) = Some a).

Lemma told_turn p st a : told p a -> match st with PSubmit a' => told (publisher_turn p st) a' | _ => told (publisher_turn p st) a end.
Proof.
  unfold told. destruct p as [pp sd n e dl], st as [a'| | |arrived]; cbn; [by left|..]; destruct sd as [b|]; cbn; try tauto.
  - destruct pp; cbn; intuition discriminate.
  - intros [->|(_ & [=] & _)]. destruct (decide (Some a = Some b)) as [[= ->]|Hne]; auto.
  - intros [->|(_ & [=] & _)]. auto.
Qed.
End PublisherRuns.

(** * The controller's runs *)

Section ControlRuns.
Context {text D W : Type} `{EqDecision text} {recorder : DatabaseRecorder D W}.
Context (json_dumps : obj -> text) (json_loads : text -> option obj) (stamp : Z -> string) (default_track : string).
Hypothesis stamp_text : forall now, exists c t, stamp now = String c t /\ is_space c = false.

Lemma asked_transit s action body (env : surroundings W) s' p :
  asked stamp default_track s action body env = Ok (s', p) ->
  exists t, transit stamp s t = Ok (s', p) /\ (0 <= clock_ms env -> clock_ok t).
Proof.
  unfold asked. intros (at_ & Hat & H)%res_bind_Ok. destruct (String.eqb_spec action "start") as [->|Hns].
  - eexists (TStart _ _ _ _ _ _). split; [exact H|]. intros Hc. destruct at_ as [t|]; [|exact Hc].
    unfold backdated in Hat. destruct (oget "at" body); discriminate Hat.
  - destruct (String.eqb action "driver").
    + destruct at_ as [t|]; [destruct (_ && _); [by exists (TAmend t)|]|]; by eexists (TChange _ _).
    + destruct (String.eqb action "end"); [by eexists (TEnd _)|discriminate H].
Qed.

Lemma asked_live s action body (env : surroundings W) s' p :
  state_ok s -> 0 <= clock_ms env -> asked stamp default_track s action body env = Ok (s', p) ->
  live s' /\ exists now, p = payload s' now.
Proof.
  intros Hok Hc (t & Ht & Hclock)%asked_transit. specialize (Hclock Hc). destruct t; cbn [transit] in Ht.
  - apply (start_ok stamp stamp_text) in Ht as [Hl ->]; eauto.
  - apply change_ok in Ht as [Hl ->]; eauto.
  - apply amend_ok in Ht as [Hl ->]; eauto.
  - apply end_ok in Ht as [Hl ->]; eauto.
Qed.

(** C23. An action that is answered has reached the disk, the recorder and the
    publisher, in this order; one that fails leaves the session and the
    publisher as they were, and the disk too unless the rollback itself failed;
    a cancelled one has changed the session and told nobody. *)
Theorem act_is_all_or_nothing (c : SessionController text D) action body (env : surroundings W) :
  state_ok (sc_state c) -> 0 <= clock_ms env ->
  let '(c', o) := act json_dumps stamp default_track c action body env in
  let on_disk s := file_text (json_dumps (ODict (SessionState.to_dict s (clock_ms env)))) in
  state_ok (sc_state c') /\
  match o with
  | Answered p =>
      asked stamp default_track (sc_state c) action body env = Ok (sc_state c', p) /\ live (sc_state c') /\
      sc_file c' = on_disk (sc_state c') /\
      (exists landed, db_record (sc_database c) (SessionState.to_dict (sc_state c') (clock_ms env)) (clock_ms env) (recorder_does env) = (sc_database c', Ok landed)) /\
      sc_publisher c' = submit (sc_publisher c) (json_dumps (ODict p)) /\ exists now, p = payload (sc_state c') now
  | Failed e =>
      sc_state c' = sc_state c /\ sc_publisher c' = sc_publisher c /\
      (sc_file c' = sc_file c \/ sc_file c' = on_disk (sc_state c) \/ exn_kind e = RuntimeError)
  | CancelledAct =>
      (exists p, asked stamp default_track (sc_state c) action body env = Ok (sc_state c', p)) /\
      sc_publisher c' = sc_publisher c /\ sc_file c' = on_disk (sc_state c')
  end.
Proof.
  intros Hok Hc. unfold act. destruct (asked stamp default_track (sc_state c) action body env) as [[s p]|e] eqn:Ha; [|by auto].
  destruct (asked_live _ _ _ _ _ _ Hok Hc Ha) as [Hl Hp]. unfold restored. rewrite (from_to_dict (sc_state c)) by done.
  unfold save. destruct (saved env); cbn [negb sc_state sc_file sc_publisher sc_database]; [|by auto].
  destruct (db_record (sc_database c) _ _ _) as [db r] eqn:Hr.
  destruct (cancelled env) as [landed|]; cbn [sc_state sc_file sc_publisher].
  - split; [by right|]. eauto.
  - destruct r as [landed|e]; cbn [sc_state sc_file sc_publisher sc_database].
    + split; [by right|]. split_and!; eauto.
    + destruct (saved_back env); cbn [negb sc_state sc_file sc_publisher]; split_and!; auto.
Qed.

(** What happens in the life of the service: an action, a turn of the
    publisher, anything the recorder does in the background. *)
Inductive control_step :=
  | CAct (action : string) (body : list (string * obj)) (env : surroundings W)
  | CPublish (st : publisher_step (A := text))
  | CBackground (db : D).
Definition control_turn (c : SessionController text D) (st : control_step) : SessionController text D :=
  match st with
  | CAct action body env => (act json_dumps stamp default_track c action body env).1
  | CPublish (PSubmit _) => c
  | CPublish st => mkController (sc_state c) (sc_file c) (sc_database c) (publisher_turn (sc_publisher c) st)
  | CBackground db => mkController (sc_state c) (sc_file c) db (sc_publisher c)
  end.
Definition control_run (c : SessionController text D) (sts : list control_step) : SessionController text D := fold_left control_turn sts c.

Definition past_epoch (st : control_step) : Prop := match st with CAct _ _ env => 0 <= clock_ms env | _ => True end.
Definition uncancelled (st : control_step) : Prop := match st with CAct _ _ env => cancelled env = None | _ => True end.
Definition rolls_back (st : control_step) : Prop := match st with CAct _ _ env => saved_back env = true | _ => True end.

Lemma load_ok f : state_ok (load json_loads f).
Proof.
  destruct f as [| |t]; cbn; [by left|by left|]. destruct (json_loads t) as [[| | | | | |d]|]; try by left.
  destruct (from_dict d) as [s|e] eqn:E; [by eapply from_dict_ok|by left].
Qed.

Lemma turn_ok c st : state_ok (sc_state c) -> past_epoch st -> state_ok (sc_state (control_turn c st)).
Proof.
  intros Hok Hp. destruct st as [action body env|[]|db]; cbn [control_turn]; try done.
  pose proof (act_is_all_or_nothing c action body env Hok Hp) as H.
  destruct (act json_dumps stamp default_track c action body env) as [c' o]. by destruct H.
Qed.

(** The newest submission is the session held. *)
Definition tells (c : SessionController text D) : Prop :=
  st_status (sc_state c) = SNone \/ exists now, told (sc_publisher c) (json_dumps (ODict (payload (sc_state c) now))).

Lemma act_cancelled c action body (env : surroundings W) :
  cancelled env = None -> (act json_dumps stamp default_track c action body env).2 <> CancelledAct.
Proof.
  intros Hu. unfold act. destruct (asked _ _ _ _ _ _) as [[s p]|e]; [|done]. destruct (save _ _ _ _ _) as [f [|]]; cbn [negb].
  - rewrite Hu. destruct (db_record _ _ _ _) as [db [l|e]]; [done|]. destruct (restored _ _); [|done]. by destruct (save _ _ _ _ _).
  - by destruct (restored _ _).
Qed.

Lemma turn_tells c st : state_ok (sc_state c) -> past_epoch st -> uncancelled st -> tells c -> tells (control_turn c st).
Proof.
  intros Hok Hp Hu Ht. destruct st as [action body env|st|db]; cbn [control_turn uncancelled] in *; [| |exact Ht].
  - pose proof (act_is_all_or_nothing c action body env Hok Hp) as H. pose proof (act_cancelled c action body env Hu) as Hc.
    destruct (act json_dumps stamp default_track c action body env) as [c' [p|e|]]; [| |done].
    + destruct H as (_ & _ & _ & _ & _ & Hpub & now & Hp'). right. exists now. left. cbn [fst]. by rewrite Hpub, Hp'.
    + destruct H as (_ & Hs & Hpub & _). unfold tells. cbn [fst]. by rewrite Hs, Hpub.
  - destruct Ht as [Hn|(now & Hn)]; [left; by destruct st|]. right. exists now. pose proof (told_turn _ st _ Hn). by destruct st.
Qed.

Lemma run_tells sts : forall c,
  state_ok (sc_state c) -> tells c -> Forall past_epoch sts -> Forall uncancelled sts ->
  state_ok (sc_state (control_run c sts)) /\ tells (control_run c sts).
Proof.
  induction sts as [|st sts IH]; intros c Hok Ht; [done|]. intros [Hp Hps]%Forall_cons [Hu Hus]%Forall_cons.
  apply IH; [by apply turn_ok|by apply turn_tells|done..].
Qed.

(** C24. The car is told the session the pit holds. From the start of the service,
    whatever actions are pressed, accepted or refused, and however the publisher
    fares, as long as none was cancelled half way: the payload that waits, or
    the last the stream got when none waits, is that of the session held. *)
Theorem car_is_told_the_session f db now sts :
  Forall past_epoch sts -> Forall uncancelled sts ->
  let c := control_run (republish_current json_dumps (controller_init json_loads f db) now) sts in
  st_status (sc_state c) <> SNone ->
  exists at_, told (sc_publisher c) (json_dumps (ODict (payload (sc_state c) at_))).
Proof.
  intros Hp Hu c Hs. set (c0 := republish_current json_dumps (controller_init json_loads f db) now) in *.
  assert (H0 : state_ok (sc_state c0) /\ tells c0).
  { unfold c0, republish_current. cbn [sc_state controller_init]. destruct (decide _) as [Hn|Hn].
    - split; [apply load_ok|by left].
    - split; [apply load_ok|]. right. exists now. by left. }
  destruct H0 as [Hok Ht]. by destruct (run_tells sts c0 Hok Ht Hp Hu) as [_ [?|?]].
Qed.

Hypothesis json_law : forall s now, state_ok s ->
  exists d, json_loads (json_dumps (ODict (SessionState.to_dict s now))) = Some (ODict d) /\ json_same (ODict (SessionState.to_dict s now)) (ODict d).

Lemma load_saved s now : state_ok s -> load json_loads (file_text (json_dumps (ODict (SessionState.to_dict s now)))) = s.
Proof. intros Hs. unfold load. destruct (json_law s now Hs) as (d & -> & Hd). by rewrite (from_dict_back s now d). Qed.

Lemma turn_resumes c st :
  state_ok (sc_state c) -> past_epoch st -> rolls_back st -> load json_loads (sc_file c) = sc_state c ->
  load json_loads (sc_file (control_turn c st)) = sc_state (control_turn c st).
Proof.
  intros Hok Hp Hb Hl. destruct st as [action body env|[]|db]; cbn [control_turn rolls_back] in *; try done.
  unfold act. destruct (asked stamp default_track (sc_state c) action body env) as [[s p]|e] eqn:Ha; [|done].
  destruct (asked_live _ _ _ _ _ _ Hok Hp Ha) as [Hs _]. assert (Hsok : state_ok s) by (by right).
  unfold restored. rewrite (from_to_dict (sc_state c)) by done. unfold save. rewrite Hb.
  destruct (saved env); cbn [negb fst sc_file sc_state]; [|done].
  destruct (db_record (sc_database c) _ _ _) as [db r].
  destruct (cancelled env); cbn [fst sc_file sc_state]; [by apply load_saved|]. destruct r; by apply load_saved.
Qed.

(** A restart at any moment resumes the session held: whatever was accepted,
    refused, rolled back or cancelled before, reading the state file gives the
    controller's state. *)
Theorem restart_resumes_the_session f db sts :
  Forall past_epoch sts -> Forall rolls_back sts ->
  let c := control_run (controller_init json_loads f db) sts in
  load json_loads (sc_file c) = sc_state c.
Proof.
  intros Hp Hb.
  assert (H : forall c, state_ok (sc_state c) -> load json_loads (sc_file c) = sc_state c ->
    load json_loads (sc_file (control_run c sts)) = sc_state (control_run c sts)).
  { induction sts as [|st sts IH]; intros c Hok Hl; [done|].
    apply Forall_cons in Hp as [Hp Hps]. apply Forall_cons in Hb as [Hb Hbs]. apply IH; [done..|by apply turn_ok|by apply turn_resumes]. }
  apply H; [apply load_ok|done].
Qed.
End ControlRuns.

(** * With the retry queue as the recorder *)

Section Durable.
Context {text : Type} `{EqDecision text} (json_dumps : obj -> text) (json_loads : text -> option obj).
Context (vehicle_id : string) (stamp : Z -> string) (default_track : string).
Hypothesis stamp_text : forall now, exists c t, stamp now = String c t /\ is_space c = false.
Hypothesis state_law : forall s now, state_ok s ->
  exists d, json_loads (json_dumps (ODict (SessionState.to_dict s now))) = Some (ODict d) /\ json_same (ODict (SessionState.to_dict s now)) (ODict d).
Hypothesis queue_law : forall p, queue_ok p ->
  exists items, json_loads (json_dumps (OList (map ODict p.*2))) = Some (OList items) /\ Forall2 json_same (map ODict p.*2) items.

End Durable.

(** * A race weekend at the controls *)

Module Operator.
Abbreviation db := (SessionDatabase obj).
Definition rec : DatabaseRecorder db (write * bool) := queue_recorder Weekend.dumps "car1".
Definition env (clock : Z) (w : write) : surroundings (write * bool) := mkSurroundings clock "u1" true (w, true) None true.
Definition disk_full (clock : Z) : surroundings (write * bool) := mkSurroundings clock "u1" false (Committed, true) None true.
Definition timed_out (clock : Z) : surroundings (write * bool) := mkSurroundings clock "u1" true (Committed, true) (Some true) true.
Definition pressed (driver_ : string) : list (string * obj) := [("session_type", OStr "race"); ("driver", OStr driver_)].
Definition empty_db : db := mkDatabase false [] None 0 0 no_tables.
Definition fresh : SessionController obj db := controller_init Weekend.loads file_missing empty_db.
Definition session : list (control_step (text := obj) (D := db) (W := write * bool)) :=
  [CAct "start" (pressed "ann") (env 1000 Committed); CPublish PBegin; CAct "driver" (pressed "bob") (env 5000 Committed);
   CPublish PAcked; CAct "driver" (pressed "bob") (env 5500 Committed); CAct "end" [] (disk_full 6000);
   CAct "driver" [("driver", OStr "bob"); ("at", OInt 4000)] (env 7000 Committed); CPublish PBegin; CPublish (PFailed true)].
Definition run := control_run (recorder := rec) Weekend.dumps RaceDay.stamp "Sandown".
Definition do_act := act (recorder := rec) Weekend.dumps RaceDay.stamp "Sandown".
Lemma state_law s now : state_ok s ->
  exists d, Weekend.loads (Weekend.dumps (ODict (SessionState.to_dict s now))) = Some (ODict d) /\ json_same (ODict (SessionState.to_dict s now)) (ODict d).
Proof. intros _. eexists. split; [reflexivity|apply dict_same]. Qed.
End Operator.
Import Operator.

Lemma act_is_all_or_nothing_witness :
  let '(c', o) := do_act fresh "start" (pressed "ann") (env 1000 Committed) in
  sc_publisher c' = submit (sc_publisher fresh) (ODict (payload (sc_state c') 1000)) /\ state_ok (sc_state c').
Proof.
  pose proof (act_is_all_or_nothing (recorder := rec) Weekend.dumps RaceDay.stamp "Sandown" Weekend.stamped fresh "start" (pressed "ann")
    (env 1000 Committed) (or_introl eq_refl) (ltac:(discriminate) : 0 <= 1000)) as H.
  unfold do_act. assert (E : (act (recorder := rec) Weekend.dumps RaceDay.stamp "Sandown" fresh "start" (pressed "ann") (env 1000 Committed)).2 =
    Answered (payload (sc_state (act (recorder := rec) Weekend.dumps RaceDay.stamp "Sandown" fresh "start" (pressed "ann") (env 1000 Committed)).1) 1000))
    by (vm_compute; reflexivity).
  revert H E.
  destruct (act (recorder := rec) Weekend.dumps RaceDay.stamp "Sandown" fresh "start" (pressed "ann") (env 1000 Committed)) as [c' o].
  intros H E. cbn [fst snd] in E. subst o. destruct H as (Hok & _ & _ & _ & _ & Hpub & _). exact (conj Hpub Hok).
Defined.

Lemma car_is_told_the_session_witness :
  let c := run (republish_current Weekend.dumps fresh 900) session in
  (stint_number (sc_state c) = 2 /\ stints (sc_state c) = [mkStint "ann" 1 1000 4000] /\ pub_pending (sc_publisher c) <> None) /\
  exists at_, told (sc_publisher c) (Weekend.dumps (ODict (payload (sc_state c) at_))).
Proof.
  split; [vm_compute; split_and!; [reflexivity|reflexivity|discriminate]|].
  apply (car_is_told_the_session (recorder := rec) Weekend.dumps Weekend.loads RaceDay.stamp "Sandown" Weekend.stamped file_missing empty_db 900 session).
  - repeat constructor; discriminate.
  - repeat constructor.
  - vm_compute. discriminate.
Defined.

Lemma restart_resumes_the_session_witness :
  let c := run fresh session in
  stint_number (sc_state c) = 2 /\ load Weekend.loads (sc_file c) = sc_state c.
Proof.
  split; [vm_compute; reflexivity|].
  apply (restart_resumes_the_session (recorder := rec) Weekend.dumps Weekend.loads RaceDay.stamp "Sandown" Weekend.stamped state_law file_missing empty_db session).
  - repeat constructor; discriminate.
  - repeat constructor.
Defined.


(** ** Where the code does something else than it means to *)

(** The HTTP layer cancels an action after five seconds and answers that the
    service is busy. Cancelled while it waits for the recorder, the action is
    not rolled back ([CancelledError] is no [Exception]): the session has
    changed in memory and on disk, the car is never told, and pressing again is
    refused. *)
Example busy_answer_hides_a_change :
  let c := run fresh [CAct "start" (pressed "ann") (env 1000 Committed); CPublish PBegin; CPublish PAcked] in
  let '(c1, o) := do_act c "driver" (pressed "bob") (timed_out 5000) in
  outcome_status o = 503 /\ driver (sc_state c1) = "bob" /\ load Weekend.loads (sc_file c1) = sc_state c1 /\
  pub_pending (sc_publisher c1) = None /\
  head (delivered (sc_publisher c1)) = Some (ODict (payload (sc_state c) 1000)) /\
  outcome_status (do_act c1 "driver" (pressed "bob") (env 6000 Committed)).2 = 409.
Proof. vm_compute. split_and!; reflexivity. Qed.

(** When the retry queue cannot be written and neither can the state file, the
    refused session is what a restart resumes. *)
Example failed_rollback_is_resumed :
  let env := mkSurroundings 1000 "u1" true (Committed, false) None false in
  let '(c1, o) := do_act fresh "start" (pressed "ann") env in
  outcome_status o = 500 /\ sc_state c1 = new_state /\ driver (load Weekend.loads (sc_file c1)) = "ann".
Proof. vm_compute. split_and!; reflexivity. Qed.
