(* ===== verification/Strategy.v ===== *)
(** The race strategy arithmetic ([src/pit/strategy/model.py]): fuel
    remaining and its bounds, the burn, the pit window, the stop plan, the
    driver clock and the warnings.

    Instants are microseconds since the epoch, compared exactly; the rendering
    of an instant as text ([isoformat]) is left out, a simulated stop keeps
    the instant. Everything else is computed as the code computes it, in
    binary64. *)

From S2P Require Import Prelude PyFloat Stats.

Local Open Scope Z_scope.

Abbreviation json := (list (string * obj)).

(** * Inputs *)

Record PlanFacts := mkPlan {
  pl_revision : Z;
  race_end_at : option Z;
  race_end_laps : option Z;
  end_authority : string;
  tank_l : float;
  usable_fuel_l : float;
  refuel_min_s : Z;
  service_typical_s : Z;
  driver_limits : list (string * Z);
  planned_stops : list json
}.

Record LapFact := mkLapFact {
  lf_lap_number : Z;
  crossed_at : Z;
  lap_time_s : option float;
  lf_valid : bool;
  lf_pit_status : option string;
  lf_stint_number : option Z;
  fuel_used_l : option float;
  measurement_status : string
}.

Record StintFact := mkStint {
  stint_number : Z;
  driver : string;
  started : Z;
  ended : option Z;
  sample_count : Z;
  level_start_l : option float;
  level_end_l : option float
}.

Record StopFact := mkStop {
  entry_at : Z;
  exit_at : option Z;
  is_open : bool;
  stop_type : string
}.

Record RaceInputs := mkInputs {
  in_now : Z;
  in_vehicle_id : string;
  in_session_id : string;
  in_session_started : Z;
  in_plan : option PlanFacts;
  in_laps : list LapFact;
  in_stints : list StintFact;
  in_stops : list StopFact
}.

Record StrategyPolicy := mkSPolicy {
  burn_window_laps : Z;
  burn_sigma : float;
  outlier_fraction : float;
  driver_margin_s : float;
  plan_drift_laps : Z;
  short_fill_fraction : float;
  window_warn_laps : Z;
  max_simulated_stops : Z
}.

Definition default_policy : StrategyPolicy :=
  mkSPolicy 5 (lit 2 1) (lit 2 10) (lit 600 1) 3 (lit 10 100) 2 50.

Definition _REBASE_UNCERTAINTY_L (confidence : string) : res float :=
  if String.eqb confidence "key_on" then Ok (lit 3 10)
  else if String.eqb confidence "session_start" then Ok (lit 5 10)
  else if String.eqb confidence "moving" then Ok (lit 2 1)
  else if String.eqb confidence "plan" then Ok (lit 3 1)
  else if String.eqb confidence "none" then Ok f0
  else raise KeyError confidence.

(** * Outputs *)

Record Finding := mkSFinding {
  sf_monitor : string;
  sf_severity : string;
  sf_score : float;
  sf_summary : json
}.

(** One entry of the stop plan. *)
Record SimStop := mkSim {
  ss_lap : Z;
  ss_type : string;
  ss_driver_in : obj;
  ss_reason : string;
  ss_at : Z;
  ss_planned_lap : option Z;
  ss_delta_laps : option Z
}.

Record Drift := mkDrift {
  dr_planned : Z;
  dr_computed : Z;
  dr_max_abs_delta : Z;
  dr_first_delta : Z;
  dr_diverged : bool
}.

Record StrategyState := mkState {
  st_time : Z;
  st_vehicle_id : string;
  st_session_id : option string;
  st_trigger : string;
  st_lap_number : option Z;
  st_plan_revision : option Z;
  fuel_remaining_l : option float;
  fuel_remaining_lo_l : option float;
  fuel_remaining_hi_l : option float;
  rebase_confidence : string;
  rebase_level_l : option float;
  rebase_at : option Z;
  fuel_added_l : option float;
  burn_l_per_lap : option float;
  burn_sd : option float;
  burn_laps : Z;
  lap_time_ref_s : option float;
  laps_to_dry_lo : option float;
  laps_to_dry_hi : option float;
  time_to_dry_s_lo : option float;
  time_to_dry_s_hi : option float;
  laps_remaining : option Z;
  stops_needed : option Z;
  window_open_lap : option Z;
  window_close_lap : option Z;
  target_lap_s : option float;
  st_driver : option string;
  driver_time_remaining_s : option float;
  driver_total_remaining_s : option float;
  refuel_elapsed_s : option float;
  refuel_remaining_s : option float;
  refuel_release_at : option Z;
  stop_plan : list SimStop;
  plan_drift : option Drift;
  findings : list Finding
}.

Definition idle_state (now : Z) (vehicle_id : string) : StrategyState :=
  mkState now vehicle_id None "idle" None None None None None "none" None None None None None 0 None
    None None None None None None None None None None None None None None None [] None [].

(** * Dates and numbers *)

(** [date + timedelta]: out of the calendar raises. *)
Definition dt_add (t us : Z) : res Z :=
  let r := t + us in
  if (datetime_min_us <=? r) && (r <=? datetime_max_us) then Ok r
  else raise OverflowError "date value out of range".

Definition opt_truthy (x : option float) : bool := match x with Some x => ftruthy x | None => false end.

Fixpoint res_filter {A : Type} (f : A -> res bool) (l : list A) : res (list A) :=
  match l with
  | [] => Ok []
  | a :: l => keep ← f a; rest ← res_filter f l; Ok (if (keep : bool) then a :: rest else rest)
  end.

Fixpoint res_foldl {A B : Type} (f : B -> A -> res B) (l : list A) (acc : B) : res B :=
  match l with [] => Ok acc | a :: l => acc ← f acc a; res_foldl f l acc end.

(** * Laps and burn *)

Definition _lap_window (lap : LapFact) : res (option (Z * Z)) :=
  match lap_time_s lap with
  | None => Ok None
  | Some t =>
      if fleb t f0 then Ok None
      else us ← timedelta_us t; start ← dt_add (crossed_at lap) (- us); Ok (Some (start, crossed_at lap))
  end.

(** One stop against the lap's window. *)
Definition stop_in_window (start fin : Z) (stop : StopFact) : bool :=
  ((start <? entry_at stop) && (entry_at stop <=? fin)) ||
  match exit_at stop with Some x => (start <? x) && (x <=? fin) | None => false end ||
  ((entry_at stop <=? start) && match exit_at stop with None => true | Some x => fin <=? x end).

Definition _touches_pits (lap : LapFact) (stops : list StopFact) : res bool :=
  window ← _lap_window lap;
  match window with
  | None => Ok true
  | Some (start, fin) => Ok (existsb (stop_in_window start fin) stops)
  end.

Definition opt_pos (x : option float) : bool := match x with Some x => fltb f0 x | None => false end.

Definition racing (stops : list StopFact) (lap : LapFact) : res bool :=
  if lf_valid lap && opt_pos (lap_time_s lap) && String.eqb (measurement_status lap) "clean" &&
     opt_pos (fuel_used_l lap) && negb (bool_decide (lf_pit_status lap = Some "pit"))
  then touches ← _touches_pits lap stops; Ok (negb touches)
  else Ok false.

(** The lap times present and not zero. *)
Definition lap_times (laps : list LapFact) : list float :=
  omap (fun lap => match lap_time_s lap with Some t => if ftruthy t then Some t else None | None => None end) laps.

Definition clean_laps (laps : list LapFact) (stops : list StopFact) (policy : StrategyPolicy) : res (list LapFact) :=
  candidates ← res_filter (racing stops) laps;
  match candidates with
  | [] => Ok []
  | _ =>
      let recent := last_n (Z.to_nat (Z.max (burn_window_laps policy * 2) 1)) candidates in
      reference ← median (lap_times recent);
      let ceiling := fmul reference (fadd (lit 1 1) (outlier_fraction policy)) in
      Ok (List.filter (fun lap => match lap_time_s lap with Some t => fleb t ceiling | None => false end) candidates)
  end.

Record _Burn := mkBurn {
  b_mean : option float;
  b_sd : option float;
  b_laps : Z;
  b_lap_time_s : option float;
  b_lo : option float;
  b_hi : option float
}.

Definition _burn (clean : list LapFact) (policy : StrategyPolicy) : res _Burn :=
  let window := last_n (Z.to_nat (Z.max (burn_window_laps policy) 1)) clean in
  match window with
  | [] => Ok (mkBurn None None 0 None None None)
  | _ =>
      let burns := omap fuel_used_l window in
      mean ← fmean burns;
      sd ← (if (2 <=? length burns)%nat then x ← stdev burns; Ok (Some x) else Ok None);
      let spread := match sd with Some sd => fmul (burn_sigma policy) sd | None => f0 end in
      lap_time ← fmean (lap_times window);
      let lo := fmax (fsub mean spread) (fmul mean (lit 25 100)) in
      let hi := fadd mean spread in
      Ok (mkBurn (Some mean) sd (Z.of_nat (length window)) (Some lap_time) (Some lo) (Some hi))
  end.

(** * The re-base and fuel remaining *)

Record _Rebase := mkRebase {
  rb_level_l : option float;
  rb_at : option Z;
  rb_confidence : string;
  rb_fuel_added_l : option float
}.

Definition _stint_containing (stints : list StintFact) (at_us now : Z) : option StintFact :=
  List.find (fun stint => (started stint <=? at_us) && (at_us <=? match ended stint with Some e => e | None => now end))
    stints.

(** A refuelling stop that is over, with its exit. *)
Definition refuel_over (stop : StopFact) : option (StopFact * Z) :=
  if String.eqb (stop_type stop) "refuel" && negb (is_open stop)
  then (fun x => (stop, x)) <$> exit_at stop else None.

Definition last_refuel (stops : list StopFact) : option (StopFact * Z) := last (omap refuel_over stops).

Definition no_rebase : _Rebase := mkRebase None None "none" None.

(** The level before a stint: the latest earlier stint that ended with one. *)
Definition level_before (stints : list StintFact) (n : Z) : option float :=
  head (omap (fun s => if stint_number s <? n then level_end_l s else None) (reverse stints)).

(** The readings that are left when no stint began during the stop. *)
Definition rebase_current (current : option StintFact) (plan : option PlanFacts) (now since : Z) : _Rebase :=
  match current ≫= level_end_l with
  | Some level => mkRebase (Some level) (Some now) "moving" None
  | None =>
      match plan with
      | Some p => mkRebase (Some (tank_l p)) (Some since) "plan" None
      | None => no_rebase
      end
  end.

Definition _rebase (stints : list StintFact) (stops : list StopFact) (plan : option PlanFacts)
    (session_started now : Z) : _Rebase :=
  let current := last stints in
  match last_refuel stops with
  | Some (stop, exit) =>
      let key_on :=
        stint ← _stint_containing stints exit now;
        level ← (if entry_at stop <=? started stint then level_start_l stint else None);
        Some (stint, level) in
      match key_on with
      | Some (stint, level) =>
          let added := (fun before => fsub level before) <$> level_before stints (stint_number stint) in
          mkRebase (Some level) (Some (started stint)) "key_on" added
      | None => rebase_current current plan now exit
      end
  | None =>
      match head stints ≫= (fun first => level ← level_start_l first; Some (first, level)) with
      | Some (first, level) => mkRebase (Some level) (Some (started first)) "session_start" None
      | None => rebase_current current plan now session_started
      end
  end.

(** Seconds between two instants not spent inside a pit stop. *)
Definition _driven_seconds (start fin : Z) (stops : list StopFact) : float :=
  if fin <=? start then f0
  else
    let driven := fold_left (fun driven stop =>
      let stop_end := match exit_at stop with Some x => x | None => fin end in
      let overlap := total_seconds (Z.min fin stop_end - Z.max start (entry_at stop)) in
      if fltb f0 overlap then fsub driven overlap else driven) stops (total_seconds (fin - start)) in
    fmax driven f0.

(** One lap of the sum since the re-base: what it burned, or the rolling mean
    for the part driven, counted as substituted. *)
Definition lap_burn (at_us : Z) (stops : list StopFact) (burn : _Burn) (acc : float * Z) (lap : LapFact)
    : res (float * Z) :=
  let '(used, substituted) := acc in
  if crossed_at lap <=? at_us then Ok acc
  else
    match String.eqb (measurement_status lap) "clean", fuel_used_l lap with
    | true, Some fuel => Ok (fadd used fuel, substituted)
    | _, _ =>
        match b_mean burn with
        | None => Ok acc
        | Some mean =>
            window ← _lap_window lap;
            fraction ← match window with
              | None => Ok (lit 1 1)
              | Some (start, fin) =>
                  let driven := _driven_seconds (Z.max start at_us) fin stops in
                  let reference := match b_lap_time_s burn with
                    | Some t => if ftruthy t then t else total_seconds (fin - start)
                    | None => total_seconds (fin - start) end in
                  if fltb f0 reference
                  then share ← fdiv driven reference; Ok (fmin (fmax share f0) (lit 1 1))
                  else Ok (lit 1 1)
              end;
            Ok (fadd used (fmul mean fraction), substituted + 1)
        end
    end.

(** Fuel remaining with its lower and upper bound. *)
Definition _fuel_remaining (rebase : _Rebase) (laps : list LapFact) (stops : list StopFact) (burn : _Burn)
    : res (option (float * float * float)) :=
  match rb_level_l rebase, rb_at rebase with
  | Some level, Some at_us =>
      uncertainty ← _REBASE_UNCERTAINTY_L (rb_confidence rebase);
      if String.eqb (rb_confidence rebase) "moving"
      then Ok (Some (level, fsub level uncertainty, fadd level uncertainty))
      else
        total ← res_foldl (lap_burn at_us stops burn) laps (f0, 0);
        let '(used, substituted) := total : float * Z in
        let remaining := fsub level used in
        n ← float_of_int substituted;
        let mean := match b_mean burn with Some m => if ftruthy m then m else f0 | None => f0 end in
        let each := match b_sd burn with
          | Some sd => if ftruthy sd then sd else fmul mean (lit 25 100)
          | None => fmul mean (lit 25 100) end in
        let spread := fadd uncertainty (fmul n each) in
        Ok (Some (remaining, fsub remaining spread, fadd remaining spread))
  | _, _ => Ok None
  end.

(** * The race end, the window and the stop plan *)

Definition _laps_remaining (plan : option PlanFacts) (lap_count : Z) (lap_time_s : option float) (now : Z)
    : res (option Z) :=
  match plan with
  | None => Ok None
  | Some plan =>
      match String.eqb (end_authority plan) "laps", race_end_laps plan with
      | true, Some laps => Ok (Some (Z.max (laps - lap_count) 0))
      | _, _ =>
          match race_end_at plan, lap_time_s with
          | Some end_at, Some t =>
              if ftruthy t then
                x ← fdiv (total_seconds (end_at - now)) t; n ← f_ceil x; Ok (Some (Z.max n 0))
              else Ok None
          | _, _ => Ok None
          end
      end
  end.

(** [at_ms / 1000.0]. *)
Definition ms_seconds (at_ms : num) : res float := x ← num_float at_ms; fdiv x (lit 1000 1).

Definition _planned_lap (stop : json) (lap_count : Z) (lap_time_s : float) (now : Z) : res (option Z) :=
  match obj_num (oget "at_lap" stop) with
  | Some (NInt z) => Ok (Some z)
  | Some (NFloat x) => z ← f_trunc x; Ok (Some z)
  | None =>
      match obj_num (oget "at_ms" stop) with
      | Some at_ms =>
          if ftruthy lap_time_s then
            s ← ms_seconds at_ms;
            laps ← fdiv (fsub s (total_seconds now)) lap_time_s;
            n ← f_floor laps;
            Ok (Some (lap_count + Z.max n 0))
          else Ok None
      | None => Ok None
      end
  end.

(** Whether a planned stop is still ahead. *)
Definition still_planned (lap_count now : Z) (stop : json) : res bool :=
  match obj_num (oget "at_lap" stop) with
  | Some at_lap => Ok (num_ltb (NInt lap_count) at_lap)
  | None =>
      match obj_num (oget "at_ms" stop) with
      | Some at_ms => s ← ms_seconds at_ms; Ok (fltb (total_seconds now) s)
      | None => Ok false
      end
  end.

Definition _remaining_planned (plan : PlanFacts) (lap_count now : Z) : res (list json) :=
  res_filter (still_planned lap_count now) (planned_stops plan).

Definition _window_findings (lap_count window_open window_close : Z) (laps_lo : float) (policy : StrategyPolicy)
    : list Finding :=
  let laps_left := window_close - lap_count in
  let numbers := [("window_open_lap", OInt window_open); ("window_close_lap", OInt window_close);
                  ("laps_to_dry_lo", OFloat (f_round_digits laps_lo 2))] in
  if window_close <? window_open then
    [mkSFinding "strategy.pit_window" "critical" (lit 1 1)
       (("message", OStr ("the window has closed: stopping by lap " +:+ pretty window_close +:+
           " cannot reach the end with the planned stops (earliest lap " +:+ pretty window_open +:+ ")")) :: numbers)]
  else if laps_left <=? window_warn_laps policy then
    let dry := fltb laps_lo (lit 1 1) in
    [mkSFinding "strategy.pit_window" (if dry then "critical" else "warning")
       (if dry then lit 1 1 else fsub (lit 1 1) (f_of_ratio laps_left (Z.max (window_warn_laps policy + 1) 1)))
       (("message", OStr ("pit window closes at lap " +:+ pretty window_close +:+ ", " +:+ pretty laps_left +:+
           " lap(s) away")) :: numbers)]
  else [].

(** The state of the walk from now to the race end. *)
Record walk := mkWalk {
  w_fuel_laps : float;
  w_drive_left : option float;
  w_lap : Z;
  w_clock : Z;
  w_remaining : Z
}.

Section StopPlan.
Context (plan : PlanFacts) (planned : list json) (lap_count : Z) (full_range_lo lap_time_s : float)
        (limit_s : option float) (now : Z).

(** [max(math.floor(x), 0)]. *)
Definition whole_laps (x : float) : res Z := n ← f_floor x; Ok (Z.max n 0).

(** One turn of the walk: [None] when the car makes the end from here. *)
Definition walk_step (w : walk) (index : nat) : res (option (SimStop * walk)) :=
  laps_fuel ← whole_laps (w_fuel_laps w);
  laps_driver ← match w_drive_left w with
    | Some drive => x ← fdiv drive lap_time_s; n ← whole_laps x; Ok (Some n)
    | None => Ok None end;
  let can := match laps_driver with None => laps_fuel | Some d => Z.min laps_fuel d end in
  if w_remaining w <=? can then Ok None
  else
    let by_fuel := match laps_driver with None => true | Some d => laps_fuel <=? d end in
    can_f ← float_of_int can;
    let fuel_after := fsub (w_fuel_laps w) can_f in
    let refuel := by_fuel || num_ltb (NFloat fuel_after) (NInt (w_remaining w - can)) in
    let planned_stop := nth_error planned index in
    let driver_in := match planned_stop with Some s => oget "driver_in" s | None => ONone end in
    let stop_lap := w_lap w + can in
    let duration := if refuel then refuel_min_s plan else service_typical_s plan in
    d ← float_of_int duration;
    us ← timedelta_us (fadd (fmul can_f lap_time_s) d);
    clock ← dt_add (w_clock w) us;
    planned_lap ← match planned_stop with
      | Some s => _planned_lap s lap_count lap_time_s now | None => Ok None end;
    let stop := mkSim stop_lap (if refuel then "refuel" else "service") driver_in
                  (if by_fuel then "fuel" else "driver") clock planned_lap
                  ((fun p => stop_lap - p) <$> planned_lap) in
    let drive_left := match w_drive_left w, limit_s with
      | Some drive, Some limit =>
          Some (if obj_truthy driver_in || negb by_fuel then limit else fsub drive (fmul can_f lap_time_s))
      | drive, _ => drive end in
    remaining ← match String.eqb (end_authority plan) "time", race_end_at plan with
      | true, Some end_at =>
          x ← fdiv (total_seconds (end_at - clock)) lap_time_s; n ← f_ceil x; Ok (Z.max n 0)
      | _, _ => Ok (w_remaining w - can) end;
    Ok (Some (stop, mkWalk (if refuel then full_range_lo else fuel_after) drive_left stop_lap clock remaining)).

(** The loop; [room] is how many more stops may be simulated, so the limit on
    stops is what ends it. *)
Fixpoint walk_stops (room : nat) (w : walk) (index : nat) : res (list SimStop) :=
  match room with
  | O => Ok []
  | S room =>
      if w_remaining w <=? 0 then Ok []
      else
        step ← walk_step w index;
        match step with
        | None => Ok []
        | Some (stop, w) => rest ← walk_stops room w (S index); Ok (stop :: rest)
        end
  end.
End StopPlan.

Definition limit_seconds (minutes : option Z) : res (option float) :=
  match minutes with
  | Some m => if m =? 0 then Ok None else x ← float_of_int m; Ok (Some (fmul x (lit 60 1)))
  | None => Ok None
  end.

Definition _stop_plan (plan : PlanFacts) (lap_count : Z) (laps_remaining : option Z) (laps_lo full_range_lo lap_time_s : float)
    (driver_remaining_s : option float) (now : Z) (policy : StrategyPolicy) : res (list SimStop) :=
  match laps_remaining with
  | None => Ok []
  | Some remaining =>
      if fltb full_range_lo (lit 1 1) then Ok []
      else
        planned ← _remaining_planned plan lap_count now;
        limit_s ← limit_seconds (od_get "max_continuous_min" (driver_limits plan));
        let drive_left := match limit_s with Some _ => driver_remaining_s | None => None end in
        walk_stops plan planned lap_count full_range_lo lap_time_s limit_s now
          (Z.to_nat (max_simulated_stops policy)) (mkWalk laps_lo drive_left lap_count now remaining) 0
  end.

Definition _plan_drift (plan : PlanFacts) (stop_plan : list SimStop) (lap_count now : Z) (policy : StrategyPolicy)
    : res (option Drift) :=
  planned ← _remaining_planned plan lap_count now;
  match planned_stops plan with
  | [] => Ok None
  | _ =>
      let deltas := omap ss_delta_laps stop_plan in
      let max_abs := fold_left (fun m d => Z.max m (Z.abs d)) deltas 0 in
      Ok (Some (mkDrift (Z.of_nat (length planned)) (Z.of_nat (length stop_plan)) max_abs
        (match deltas with d :: _ => d | [] => 0 end)
        (negb (length planned =? length stop_plan)%nat || (plan_drift_laps policy <? max_abs))))
  end.

(** * Driver time, the target lap, the refuel clock *)

(** The tighter of the two limits the driver is close to. *)
Definition worst_limit (policy : StrategyPolicy) (candidates : list (string * option float * option Z))
    : res (option (string * float * float)) :=
  res_foldl (fun worst '(name, value, limit_min) =>
    match value, limit_min with
    | Some v, Some m =>
        if fleb v (driver_margin_s policy) &&
           match worst with None => true | Some (_, w, _) => fltb v w end
        then x ← float_of_int m; Ok (Some (name, v, fmul x (lit 60 1)))
        else Ok worst
    | _, _ => Ok worst
    end) candidates None.

Definition driver_finding (policy : StrategyPolicy) (who : string) (worst : string * float * float) : res Finding :=
  let '(name, value, limit_s) := worst in
  let over := fleb value f0 in
  score ← (if over then Ok (lit 1 1)
           else x ← fdiv value (fmax (driver_margin_s policy) (lit 1 1)); Ok (fsub (lit 1 1) x));
  let minutes x := fmt_fixed (fdiv_ieee x (lit 60 1)) 0 in
  Ok (mkSFinding "strategy.driver_time" (if over then "critical" else "warning") score
    [("message", OStr (who +:+ ": " +:+ name +:+ " drive time " +:+
        (if over then "exceeded by " +:+ minutes (fopp value) +:+ " min" else minutes value +:+ " min left") +:+
        " of " +:+ minutes limit_s));
     ("driver", OStr who); ("limit", OStr name); ("remaining_s", OFloat (f_round_digits value 1));
     ("limit_s", OFloat limit_s)]).

Definition _driver_time (stint : option StintFact) (stints : list StintFact) (plan : option PlanFacts) (now : Z)
    (policy : StrategyPolicy) : res (option float * option float * list Finding) :=
  match stint, plan with
  | Some stint, Some plan =>
      let continuous_s := total_seconds (now - started stint) in
      let own := List.filter (fun s => String.eqb (driver s) (driver stint)) stints in
      let total_s := sum_floats (map (fun s =>
        total_seconds (match ended s with Some e => e | None => now end - started s)) own) in
      let continuous_min := od_get "max_continuous_min" (driver_limits plan) in
      let total_min := od_get "max_total_min" (driver_limits plan) in
      continuous_limit ← limit_seconds continuous_min;
      total_limit ← limit_seconds total_min;
      let remaining := (fun l => fsub l continuous_s) <$> continuous_limit in
      let total_remaining := (fun l => fsub l total_s) <$> total_limit in
      worst ← worst_limit policy [("continuous", remaining, continuous_min); ("total", total_remaining, total_min)];
      fs ← match worst with Some w => f ← driver_finding policy (driver stint) w; Ok [f] | None => Ok [] end;
      Ok (remaining, total_remaining, fs)
  | _, _ => Ok (None, None, [])
  end.

Definition _target_lap (plan : option PlanFacts) (laps_lo : option float) (lap_count now : Z) : res (option float) :=
  match plan, laps_lo with
  | Some plan, Some lo =>
      if negb (ftruthy lo) || fleb lo f0 then Ok None
      else
        planned ← _remaining_planned plan lap_count now;
        moment ← match planned with
          | stop :: _ =>
              match obj_num (oget "at_ms" stop) with
              | Some at_ms => s ← ms_seconds at_ms; t ← fromtimestamp s; Ok (Some t)
              | None => Ok None
              end
          | [] => Ok (if String.eqb (end_authority plan) "time" then race_end_at plan else None)
          end;
        match moment with
        | None => Ok None
        | Some t =>
            let seconds := total_seconds (t - now) in
            if fleb seconds f0 then Ok None else x ← fdiv seconds lo; Ok (Some x)
        end
  | _, _ => Ok None
  end.

Definition _refuel_clock (stops : list StopFact) (plan : option PlanFacts) (now : Z)
    : res (option (float * float * Z)) :=
  match last (List.filter (fun stop => is_open stop && String.eqb (stop_type stop) "refuel") stops), plan with
  | Some stop, Some plan =>
      let elapsed := total_seconds (now - entry_at stop) in
      m ← float_of_int (refuel_min_s plan);
      release ← dt_add (entry_at stop) (refuel_min_s plan * 1000000);
      Ok (Some (elapsed, fmax (fsub m elapsed) f0, release))
  | _, _ => Ok None
  end.

Definition _round (value : option float) (digits : Z) : option float :=
  (fun x => f_round_digits x digits) <$> value.

(** * The evaluation *)

(** [max(x - unusable, 0.0)]: the part of a level the car can burn. *)
Definition usable_part (plan : PlanFacts) (x : float) : float :=
  fmax (fsub x (fsub (tank_l plan) (usable_fuel_l plan))) f0.

(** A bound as the evaluation takes it: [bound or fuel], so a bound of zero
    counts as absent. *)
Definition bound_or (bound fuel : float) : float := if ftruthy bound then bound else fuel.

(** The usable fuel's lower and upper bound. *)
Definition usable_bounds (plan : option PlanFacts) (fuel : option (float * float * float)) : option (float * float) :=
  match plan, fuel with
  | Some plan, Some (x, lo, hi) => Some (usable_part plan (bound_or lo x), usable_part plan (bound_or hi x))
  | _, _ => None
  end.

(** [x / y if y else None]. *)
Definition div_if (x : float) (y : option float) : res (option float) :=
  match y with
  | Some y => if ftruthy y then q ← fdiv x y; Ok (Some q) else Ok None
  | None => Ok None
  end.

(** Laps to dry, lower and upper. *)
Definition laps_to_dry (usable : option (float * float)) (burn : _Burn) : res (option float * option float) :=
  match usable with
  | Some (lo, hi) =>
      if opt_truthy (b_mean burn) then
        laps_lo ← div_if lo (b_hi burn);
        laps_hi ← div_if hi (b_lo burn);
        Ok (laps_lo, laps_hi)
      else Ok (None, None)
  | None => Ok (None, None)
  end.

(** The same in seconds, when both are known and a lap time is. *)
Definition time_to_dry (laps : option float * option float) (burn : _Burn) : option float * option float :=
  match b_lap_time_s burn, laps with
  | Some t, (Some lo, Some hi) => if ftruthy t then (Some (fmul lo t), Some (fmul hi t)) else (None, None)
  | _, _ => (None, None)
  end.

Definition is_refuel (stop : json) : bool :=
  match oget "type" stop with OStr s => String.eqb s "refuel" | _ => false end.

(** The stops needed and the window the next one must fall in. *)
Record Window := mkWindow {
  wd_needed : option Z;
  wd_open : option Z;
  wd_close : option Z;
  wd_full_range_lo : option float;
  wd_findings : list Finding
}.

Definition pit_window (plan : option PlanFacts) (burn : _Burn) (laps_lo : option float) (remaining : option Z)
    (lap_count now : Z) (policy : StrategyPolicy) : res Window :=
  match plan, b_hi burn, laps_lo, remaining with
  | Some plan, Some hi, Some lo, Some remaining =>
      if negb (ftruthy hi) then Ok (mkWindow None None None None [])
      else
        full ← fdiv (usable_fuel_l plan) hi;
        planned ← _remaining_planned plan lap_count now;
        let planned_refuels := Z.of_nat (length (List.filter is_refuel planned)) in
        if num_leb (NInt remaining) (NFloat lo) then Ok (mkWindow (Some 0) None None (Some full) [])
        else if fleb (lit 1 1) full then
          rem_f ← float_of_int remaining;
          legs ← fdiv (fsub rem_f lo) full;
          needed ← f_ceil legs;
          let total := Z.max needed planned_refuels in
          whole ← f_floor lo;
          total_f ← float_of_int total;
          end_f ← float_of_int (lap_count + remaining);
          opens ← f_ceil (fsub end_f (fmul total_f full));
          let window_close := lap_count + whole in
          let window_open := Z.max lap_count opens in
          Ok (mkWindow (Some needed) (Some window_open) (Some window_close) (Some full)
                (_window_findings lap_count window_open window_close lo policy))
        else Ok (mkWindow None None None (Some full) [])
  | _, _, _, _ => Ok (mkWindow None None None None [])
  end.

(** [n / d] of two ints, [d > 0]. *)
Definition int_ratio (n d : Z) : res float :=
  let x := f_of_ratio n d in
  if is_finite x then Ok x else raise OverflowError "integer division result too large for a float".

Definition drift_finding (policy : StrategyPolicy) (d : Drift) : res (list Finding) :=
  if dr_diverged d then
    ratio ← int_ratio (dr_max_abs_delta d) (Z.max (plan_drift_laps policy) 1);
    Ok [mkSFinding "strategy.plan_drift" "warning" (fmin (lit 1 1) ratio)
      [("message", OStr ("the numbers now say " +:+ pretty (dr_computed d) +:+ " stop(s); the plan says " +:+
          pretty (dr_planned d) +:+ ", first stop off by " +:+ fmt_plus (dr_first_delta d) +:+ " lap(s)"));
       ("planned", OInt (dr_planned d)); ("computed", OInt (dr_computed d));
       ("max_abs_delta", OInt (dr_max_abs_delta d)); ("first_delta", OInt (dr_first_delta d));
       ("diverged", OBool (dr_diverged d))]]
  else Ok [].

(** The stop plan, what the operator's plan says otherwise, and the warning. *)
Definition planned_stints (plan : option PlanFacts) (burn : _Burn) (laps_lo full_range_lo : option float)
    (remaining : option Z) (driver_remaining : option float) (lap_count now : Z) (policy : StrategyPolicy)
    : res (list SimStop * option Drift * list Finding) :=
  match plan, laps_lo, b_lap_time_s burn, full_range_lo with
  | Some plan, Some lo, Some t, Some full =>
      if ftruthy t && ftruthy full then
        stops ← _stop_plan plan lap_count remaining lo full t driver_remaining now policy;
        drift ← _plan_drift plan stops lap_count now policy;
        fs ← match drift with Some d => drift_finding policy d | None => Ok [] end;
        Ok (stops, drift, fs)
      else Ok ([], None, [])
  | _, _, _, _ => Ok ([], None, [])
  end.

(** A level read after a fill well under the tank's size. *)
Definition short_fill (rebase : _Rebase) (plan : option PlanFacts) (policy : StrategyPolicy) : res (list Finding) :=
  match String.eqb (rb_confidence rebase) "key_on", plan, rb_level_l rebase with
  | true, Some plan, Some level =>
      let expected := tank_l plan in
      if fltb level (fmul expected (fsub (lit 1 1) (short_fill_fraction policy))) then
        short ← fdiv (fsub expected level) expected;
        Ok [mkSFinding "strategy.short_fill" "warning" (fmin (lit 1 1) short)
          [("message", OStr ("level after refuel " +:+ fmt_fixed level 1 +:+ " L against a " +:+
              fmt_fixed expected 1 +:+ " L tank"));
           ("expected_l", OFloat expected); ("observed_l", OFloat level);
           ("fuel_added_l", match rb_fuel_added_l rebase with Some x => OFloat x | None => ONone end)]]
      else Ok []
  | _, _, _ => Ok []
  end.

Definition by_key {A : Type} (key : A -> Z) : list A -> list A := sort_by (fun a b => key a <=? key b).

Definition evaluate (inputs : RaceInputs) (policy : StrategyPolicy) (trigger : string) : res StrategyState :=
  let now := in_now inputs in
  let plan := in_plan inputs in
  let laps := by_key crossed_at (in_laps inputs) in
  let lap_count := Z.of_nat (length laps) in
  let stints := by_key stint_number (in_stints inputs) in
  let stops := by_key entry_at (in_stops inputs) in
  clean ← clean_laps laps stops policy;
  burn ← _burn clean policy;
  let rebase := _rebase stints stops plan (in_session_started inputs) now in
  fuel ← _fuel_remaining rebase laps stops burn;
  dry ← laps_to_dry (usable_bounds plan fuel) burn;
  let '(laps_lo, laps_hi) := dry : option float * option float in
  let '(time_lo, time_hi) := time_to_dry dry burn in
  remaining ← _laps_remaining plan lap_count (b_lap_time_s burn) now;
  window ← pit_window plan burn laps_lo remaining lap_count now policy;
  let stint := last stints in
  time ← _driver_time stint stints plan now policy;
  let '(driver_remaining, total_remaining, driver_fs) := time : option float * option float * list Finding in
  planned ← planned_stints plan burn laps_lo (wd_full_range_lo window) remaining driver_remaining lap_count now policy;
  let '(stop_plan, plan_drift, drift_fs) := planned : list SimStop * option Drift * list Finding in
  target ← _target_lap plan laps_lo lap_count now;
  clock ← _refuel_clock stops plan now;
  fill_fs ← short_fill rebase plan policy;
  let fuel_x := (fun f : float * float * float => f.1.1) <$> fuel in
  let fuel_lo := (fun f : float * float * float => f.1.2) <$> fuel in
  let fuel_hi := (fun f : float * float * float => f.2) <$> fuel in
  Ok {|
    st_time := now;
    st_vehicle_id := in_vehicle_id inputs;
    st_session_id := Some (in_session_id inputs);
    st_trigger := trigger;
    st_lap_number := if lap_count =? 0 then None else Some lap_count;
    st_plan_revision := pl_revision <$> plan;
    fuel_remaining_l := _round fuel_x 2;
    fuel_remaining_lo_l := _round fuel_lo 2;
    fuel_remaining_hi_l := _round fuel_hi 2;
    rebase_confidence := rb_confidence rebase;
    rebase_level_l := _round (rb_level_l rebase) 2;
    rebase_at := rb_at rebase;
    fuel_added_l := _round (rb_fuel_added_l rebase) 2;
    burn_l_per_lap := _round (b_mean burn) 4;
    burn_sd := _round (b_sd burn) 4;
    burn_laps := b_laps burn;
    lap_time_ref_s := _round (b_lap_time_s burn) 2;
    laps_to_dry_lo := _round laps_lo 2;
    laps_to_dry_hi := _round laps_hi 2;
    time_to_dry_s_lo := _round time_lo 1;
    time_to_dry_s_hi := _round time_hi 1;
    laps_remaining := remaining;
    stops_needed := wd_needed window;
    window_open_lap := wd_open window;
    window_close_lap := wd_close window;
    target_lap_s := _round target 2;
    st_driver := driver <$> stint;
    driver_time_remaining_s := _round driver_remaining 1;
    driver_total_remaining_s := _round total_remaining 1;
    refuel_elapsed_s := _round ((fun c : float * float * Z => c.1.1) <$> clock) 1;
    refuel_remaining_s := _round ((fun c : float * float * Z => c.1.2) <$> clock) 1;
    refuel_release_at := (fun c : float * float * Z => c.2) <$> clock;
    stop_plan := stop_plan;
    plan_drift := plan_drift;
    findings := wd_findings window ++ driver_fs ++ drift_fs ++ fill_fs
  |}.

(** * Every stint of the stop plan is one the fuel allows *)

(** The legs of a plan, each from a lap with the fuel then carried, in laps:
    a leg is no longer than the whole laps carried, a refuel fills to the full
    range, a service stop carries on with what is left. *)
Fixpoint legs_feasible (full_range fuel : float) (lap : Z) (stops : list SimStop) : Prop :=
  match stops with
  | [] => True
  | s :: rest =>
      exists whole driven,
        f_floor fuel = Ok whole /\ lap <= ss_lap s <= lap + Z.max whole 0 /\
        float_of_int (ss_lap s - lap) = Ok driven /\
        legs_feasible full_range
          (if String.eqb (ss_type s) "refuel" then full_range else fsub fuel driven) (ss_lap s) rest
  end.

(** The lap the last stop leaves from, with the fuel carried out of it. *)
Fixpoint last_leg (full_range fuel : float) (lap : Z) (stops : list SimStop) : Z * float :=
  match stops with
  | [] => (lap, fuel)
  | s :: rest =>
      last_leg full_range
        (if String.eqb (ss_type s) "refuel" then full_range
         else match float_of_int (ss_lap s - lap) with Ok driven => fsub fuel driven | Raise _ => fuel end)
        (ss_lap s) rest
  end.

Definition reaches (fuel : float) (lap fin : Z) : Prop :=
  fin <= lap \/ exists whole, f_floor fuel = Ok whole /\ fin <= lap + Z.max whole 0.

Section Feasible.
Context (plan : PlanFacts) (planned : list json) (lap_count : Z) (full_range_lo lap_time_s : float)
        (limit_s : option float) (now : Z).

Abbreviation turn := (walk_step plan planned lap_count full_range_lo lap_time_s limit_s now).
Abbreviation stops_from := (walk_stops plan planned lap_count full_range_lo lap_time_s limit_s now).

Lemma whole_laps_inv x n : whole_laps x = Ok n -> exists whole, f_floor x = Ok whole /\ n = Z.max whole 0.
Proof. unfold whole_laps; intros (w & Hw & [= <-])%res_bind_Ok; eauto. Qed.

(** What one turn of the walk decides. *)
Lemma walk_step_inv w index r :
  turn w index = Ok r ->
  exists whole can,
    f_floor (w_fuel_laps w) = Ok whole /\ 0 <= can <= Z.max whole 0 /\
    match r with
    | None => w_remaining w <= can
    | Some (s, w') =>
        ss_lap s = w_lap w + can /\ w_lap w' = ss_lap s /\
        (exists driven, float_of_int can = Ok driven /\
          w_fuel_laps w' = if String.eqb (ss_type s) "refuel" then full_range_lo else fsub (w_fuel_laps w) driven) /\
        (end_authority plan <> "time"%string \/ race_end_at plan = None -> w_remaining w' = w_remaining w - can)
    end.
Proof.
  unfold walk_step. intros (n & (whole & Hf & ->)%whole_laps_inv & H)%res_bind_Ok.
  apply res_bind_Ok in H as (d & Hd & H). cbv zeta in H.
  set (can := match d with None => _ | Some _ => _ end) in H.
  assert (0 <= can <= Z.max whole 0) as Hcan.
  { subst can. destruct d as [d|]; [|lia]. destruct (w_drive_left w); [|discriminate].
    apply res_bind_Ok in Hd as (x & _ & (n & (v & _ & ->)%whole_laps_inv & [= <-])%res_bind_Ok). lia. }
  exists whole, can; split_and!; [done | lia | lia |]. clearbody can.
  destruct (w_remaining w <=? can) eqn:E; [injection H as <-; lia|].
  apply res_bind_Ok in H as (cf & Hcf & H). set (refuel := _ || _) in H.
  repeat (apply res_bind_Ok in H as (? & ? & H)). injection H as <-. cbn.
  split_and!; [done | done | |].
  - exists cf; split; [done|]. by destruct refuel.
  - intros Hend. destruct (String.eqb (end_authority plan) "time") eqn:E1; [|congruence].
    destruct (race_end_at plan); [|congruence]. apply String.eqb_eq in E1. naive_solver.
Qed.

Lemma walk_stops_length room w index stops :
  stops_from room w index = Ok stops -> (length stops <= room)%nat.
Proof.
  revert w index stops; induction room as [|room IH]; intros w index stops; simpl; [intros [= <-]; simpl; lia|].
  destruct (w_remaining w <=? 0); [intros [= <-]; simpl; lia|]. intros ([[s w']|] & _ & H)%res_bind_Ok.
  - apply res_bind_Ok in H as (rest & Hr & [= <-]). simpl. apply IH in Hr. lia.
  - injection H as <-; simpl; lia.
Qed.

Lemma walk_stops_feasible room w index stops :
  stops_from room w index = Ok stops -> legs_feasible full_range_lo (w_fuel_laps w) (w_lap w) stops.
Proof.
  revert w index stops; induction room as [|room IH]; intros w index stops; simpl; [by intros [= <-]|].
  destruct (w_remaining w <=? 0); [by intros [= <-]|]. intros ([[s w']|] & Hs & H)%res_bind_Ok; [|by injection H as <-].
  apply res_bind_Ok in H as (rest & Hr & [= <-]).
  apply walk_step_inv in Hs as (whole & can & Hf & Hcan & Hl & Hw & (d & Hd & Hfuel) & _).
  apply IH in Hr. rewrite Hfuel, Hw in Hr. exists whole, d. rewrite Hl in *.
  replace (w_lap w + can - w_lap w) with can by lia. split_and!; [done | lia | lia | done | done].
Qed.

Lemma walk_stops_reaches room w index stops :
  end_authority plan <> "time"%string \/ race_end_at plan = None ->
  stops_from room w index = Ok stops -> (length stops < room)%nat ->
  let '(lap, fuel) := last_leg full_range_lo (w_fuel_laps w) (w_lap w) stops in
  reaches fuel lap (w_lap w + w_remaining w).
Proof.
  intros Hend; revert w index stops; induction room as [|room IH]; intros w index stops; simpl; [lia|].
  destruct (w_remaining w <=? 0) eqn:E; [intros [= <-] _; simpl; left; lia|].
  intros ([[s w']|] & Hs & H)%res_bind_Ok;
    apply walk_step_inv in Hs as (whole & can & Hf & Hcan & Hs).
  - destruct Hs as (Hl & Hw & (d & Hd & Hfuel) & Hrem). specialize (Hrem Hend).
    apply res_bind_Ok in H as (rest & Hr & [= <-]). simpl; intros Hlen.
    specialize (IH _ _ _ Hr ltac:(lia)). rewrite Hl in *.
    replace (w_lap w + can - w_lap w) with can by lia. rewrite Hd, <- Hfuel, <- Hw.
    replace (w_lap w + w_remaining w) with (w_lap w' + w_remaining w') by lia. done.
  - injection H as <-. intros _; simpl. right; exists whole; split; [done | lia].
Qed.
End Feasible.

(** C16. The plan the evaluation publishes: every stint within the fuel carried
    into it, no more stops than the policy allows and, in a race counted in
    laps, once the walk ends by itself the last stint reaches the flag. *)
Theorem stop_plan_feasible plan lap_count remaining laps_lo full t driver_remaining now policy stops :
  _stop_plan plan lap_count (Some remaining) laps_lo full t driver_remaining now policy = Ok stops ->
  fleb (lit 1 1) full = true ->
  legs_feasible full laps_lo lap_count stops /\
  Z.of_nat (length stops) <= Z.max 0 (max_simulated_stops policy) /\
  (end_authority plan <> "time"%string \/ race_end_at plan = None ->
   Z.of_nat (length stops) < max_simulated_stops policy ->
   let '(lap, fuel) := last_leg full laps_lo lap_count stops in reaches fuel lap (lap_count + remaining)).
Proof.
  unfold _stop_plan. intros H Hfull. assert (fltb full (lit 1 1) = false) as E by forder. rewrite E in H.
  apply res_bind_Ok in H as (planned & _ & H). apply res_bind_Ok in H as (limit & _ & H). cbv zeta in H.
  split_and!.
  - exact (walk_stops_feasible _ _ _ _ _ _ _ _ _ _ _ H).
  - apply walk_stops_length in H. lia.
  - intros Hend Hlen. assert (length stops < Z.to_nat (max_simulated_stops policy))%nat as Hl by lia.
    exact (walk_stops_reaches _ _ _ _ _ _ _ _ _ _ _ Hend H Hl).
Qed.

(** * The re-base is never older than the last fill *)

(** Refuelling stops over, as the model takes them. *)
Definition fill_over (stop : StopFact) (exit : Z) : Prop :=
  stop_type stop = "refuel"%string /\ is_open stop = false /\ exit_at stop = Some exit.

Lemma refuel_over_spec stop r : refuel_over stop = Some r <-> r.1 = stop /\ fill_over stop r.2.
Proof.
  unfold refuel_over, fill_over. destruct r as [s x]; simpl.
  destruct (String.eqb_spec (stop_type stop) "refuel"), (is_open stop), (exit_at stop); naive_solver.
Qed.

Lemma last_refuel_spec stops r : last_refuel stops = Some r -> r.1 ∈ stops /\ fill_over r.1 r.2.
Proof.
  unfold last_refuel. intros (s & Hs & [<- Hf]%refuel_over_spec)%last_Some_elem_of%list_elem_of_omap. done.
Qed.

Lemma last_omap_latest {A B : Type} (f : A -> option B) (key : A -> Z) (keyb : B -> Z) (l : list A) (a : A) (b : B) :
  (forall a b, f a = Some b -> keyb b = key a) ->
  sorted_by (fun a b => key a <=? key b) l -> a ∈ l -> f a = Some b ->
  exists b', last (omap f l) = Some b' /\ keyb b <= keyb b'.
Proof.
  intros Hkey; induction l as [|c l IH]; intros Hsort Hin Hf; [by apply not_elem_of_nil in Hin|].
  destruct Hsort as [Hc Hsort]. rewrite Forall_forall in Hc.
  apply elem_of_cons in Hin as [<-|Hin].
  - cbn. rewrite Hf. rewrite last_cons. destruct (last (omap f l)) as [b'|] eqn:E; [|eexists; split; [done | lia]].
    exists b'; split; [done|]. apply last_Some_elem_of, list_elem_of_omap in E as (a' & Ha' & E).
    apply Hc in Ha'. rewrite (Hkey _ _ Hf), (Hkey _ _ E). lia.
  - destruct (IH Hsort Hin Hf) as (b' & Hb & Hle). exists b'; split; [|done].
    cbn. destruct (f c); [|done]. by rewrite last_cons, Hb.
Qed.

Lemma last_refuel_latest stops s x :
  sorted_by (fun a b => entry_at a <=? entry_at b) stops -> s ∈ stops -> fill_over s x ->
  exists s' x', last_refuel stops = Some (s', x') /\ entry_at s <= entry_at s'.
Proof.
  intros Hsort Hin Hfill. assert (refuel_over s = Some (s, x)) as Hf by by apply refuel_over_spec.
  destruct (last_omap_latest refuel_over entry_at (fun b => entry_at b.1) stops s (s, x)) as ([s' x'] & H & Hle);
    [| done.. | by exists s', x'].
  by intros a b [-> _]%refuel_over_spec.
Qed.

Lemma rebase_current_at current plan now since t :
  rb_at (rebase_current current plan now since) = Some t -> t = now \/ t = since.
Proof. unfold rebase_current. repeat case_match; cbn; intros [= <-]; auto. Qed.

Lemma rebase_at_after_refuel stints stops plan started_at now s x t :
  (forall s x, s ∈ stops -> fill_over s x -> entry_at s <= x <= now) ->
  sorted_by (fun a b => entry_at a <=? entry_at b) stops -> s ∈ stops -> fill_over s x ->
  rb_at (_rebase stints stops plan started_at now) = Some t -> entry_at s <= t.
Proof.
  intros Hnow Hsort Hin Hfill. destruct (last_refuel_latest _ _ _ Hsort Hin Hfill) as (s' & x' & Hl & Hle).
  unfold _rebase. rewrite Hl. apply last_refuel_spec in Hl as (Hin' & Hl). simpl in Hin', Hl. apply Hnow in Hl; [|done].
  destruct (_stint_containing stints x' now) as [st|]; cbn.
  - destruct (entry_at s' <=? started st) eqn:E; cbn; [destruct (level_start_l st); cbn; [intros [= <-]; lia|]|];
      intros [-> | ->]%rebase_current_at; lia.
  - intros [-> | ->]%rebase_current_at; lia.
Qed.

Lemma by_key_sorted {A : Type} (key : A -> Z) l : sorted_by (fun a b => key a <=? key b) (by_key key l).
Proof. apply sort_by_sorted; intros ?; intros; lia. Qed.

Lemma evaluate_rebase_at inputs policy trigger st :
  evaluate inputs policy trigger = Ok st ->
  rebase_at st = rb_at (_rebase (by_key stint_number (in_stints inputs)) (by_key entry_at (in_stops inputs))
                         (in_plan inputs) (in_session_started inputs) (in_now inputs)).
Proof.
  unfold evaluate. cbv zeta. intros H.
  repeat first [apply res_bind_Ok in H as (? & _ & H) | match type of H with (let '(_, _) := ?x in _) = _ => destruct x end].
  by injection H as <-.
Qed.

(** Once a refuelling stop is over, the level the fuel model starts from was
    read no earlier than that stop's entry. *)
Theorem rebase_after_last_refuel inputs policy trigger st s x t :
  evaluate inputs policy trigger = Ok st ->
  (forall s x, s ∈ in_stops inputs -> fill_over s x -> entry_at s <= x <= in_now inputs) ->
  s ∈ in_stops inputs -> fill_over s x ->
  rebase_at st = Some t -> entry_at s <= t.
Proof.
  intros ->%evaluate_rebase_at Hnow Hin Hfill.
  apply rebase_at_after_refuel with (x := x); [| apply by_key_sorted | | done].
  - intros s' x' Hs'%sort_by_elem. by apply Hnow.
  - by apply sort_by_elem.
Qed.

(** * The laps the burn is computed from *)

(** A racing lap, as the policy means it: valid, timed, cleanly measured,
    positive burn, outside the pits, and with no pit crossing inside its
    window nor a stop spanning it. *)
Definition racing_lap (stops : list StopFact) (lap : LapFact) : Prop :=
  lf_valid lap = true /\ measurement_status lap = "clean"%string /\ lf_pit_status lap <> Some "pit"%string /\
  (exists used, fuel_used_l lap = Some used /\ fltb f0 used = true) /\
  exists seconds us, lap_time_s lap = Some seconds /\ fltb f0 seconds = true /\ timedelta_us seconds = Ok us /\
    let start := crossed_at lap - us in
    forall stop, stop ∈ stops ->
      ~ (start < entry_at stop <= crossed_at lap) /\
      (forall x, exit_at stop = Some x -> ~ (start < x <= crossed_at lap)) /\
      ~ (entry_at stop <= start /\ (forall x, exit_at stop = Some x -> crossed_at lap <= x)).

Lemma stop_in_window_false start fin stop :
  stop_in_window start fin stop = false <->
  ~ (start < entry_at stop <= fin) /\
  (forall x, exit_at stop = Some x -> ~ (start < x <= fin)) /\
  ~ (entry_at stop <= start /\ (forall x, exit_at stop = Some x -> fin <= x)).
Proof.
  unfold stop_in_window. rewrite !orb_false_iff, !andb_false_iff. destruct (exit_at stop) as [x|].
  - split; [intros ([H1 H2] & H3) | intros (H1 & H2 & H3)].
    + split_and!; [lia | intros ? [= <-]; lia | intros (? & H); specialize (H _ eq_refl); lia].
    + specialize (H2 _ eq_refl). rewrite !Z.ltb_ge, !Z.leb_gt. split_and!; [lia | lia |].
      destruct (decide (entry_at stop <= start)); [|lia]. right. destruct (decide (fin <= x)); [|lia].
      exfalso; apply H3; split; [done | by intros ? [= <-]].
  - split; [intros ([H1 _] & H3) | intros (H1 & _ & H3)].
    + split_and!; [lia | done | intros (? & _); destruct H3 as [?|?]; [lia | done]].
    + split_and!; [lia | done |]. left. apply Z.leb_gt. destruct (decide (entry_at stop <= start)); [|lia].
      exfalso; apply H3; done.
Qed.

Lemma touches_false stops lap seconds :
  lap_time_s lap = Some seconds -> fltb f0 seconds = true -> _touches_pits lap stops = Ok false <->
  exists us start, timedelta_us seconds = Ok us /\ dt_add (crossed_at lap) (- us) = Ok start /\
    Forall (fun stop => stop_in_window start (crossed_at lap) stop = false) stops.
Proof.
  intros Ht Hpos. unfold _touches_pits, _lap_window. rewrite Ht.
  assert (fleb seconds f0 = false) as -> by forder.
  destruct (timedelta_us seconds) as [us|e]; cbn; [|split; [done | by intros (? & ? & ? & _)]].
  destruct (dt_add (crossed_at lap) (- us)) as [start|e] eqn:Est; cbn; [|split; [done | intros (? & ? & [= <-] & ? & _); congruence]].
  split.
  - intros [= H]. exists us, start; split_and!; [done..|]. apply Forall_forall; intros s Hs.
    apply not_true_iff_false; intros Hc. assert (existsb (stop_in_window start (crossed_at lap)) stops = true); [|congruence].
    apply existsb_exists. exists s; by rewrite <- list_elem_of_In.
  - intros (? & ? & [= <-] & H & Hall). assert (start = x0) as -> by congruence. clear H; f_equal. apply not_true_iff_false; intros (s & Hs & Hc)%existsb_exists.
    rewrite Forall_forall in Hall. rewrite Hall in Hc; [done | by apply list_elem_of_In].
Qed.

Lemma opt_pos_true o : opt_pos o = true <-> exists x, o = Some x /\ fltb f0 x = true.
Proof. destruct o; simpl; naive_solver. Qed.

Lemma racing_true stops lap b :
  racing stops lap = Ok b -> b = true <-> racing_lap stops lap.
Proof.
  unfold racing, racing_lap. destruct (_ && _) eqn:E.
  - rewrite !andb_true_iff, !opt_pos_true, String.eqb_eq, negb_true_iff, bool_decide_eq_false in E.
    destruct E as ((((Hv & (t & Ht & Hpos)) & Hm) & Hu) & Hp).
    intros (touches & Hb & [= <-])%res_bind_Ok. rewrite negb_true_iff. split.
    + intros ->. split_and!; try done.
      destruct (proj1 (touches_false stops lap t Ht Hpos) Hb) as (us & start & Hus & Hst & Hall).
      exists t, us; split_and!; try done. cbv zeta.
      unfold dt_add in Hst. destruct (_ && _) in Hst; [injection Hst as <-|discriminate].
      rewrite Forall_forall in Hall. intros s Hs. by apply stop_in_window_false, Hall.
    + intros (_ & _ & _ & _ & t' & us & Ht' & _ & Hus & Hall). assert (t' = t) as -> by congruence.
      destruct touches; [|done]. revert Hb. unfold _touches_pits, _lap_window. rewrite Ht.
      assert (fleb t f0 = false) as -> by forder. rewrite Hus. cbn.
      unfold dt_add. destruct (_ && _); [|done]. cbn. intros [= (s & Hs & Hc)%existsb_exists].
      apply list_elem_of_In in Hs. specialize (Hall s Hs). apply stop_in_window_false in Hall.
      unfold Z.sub in Hall. congruence.
  - intros [= <-]. split; [done|]. intros (Hv & Hm & Hp & Hu & t & us & Ht & Hpos & _).
    rewrite <- E, !andb_true_iff, !opt_pos_true, String.eqb_eq, negb_true_iff, bool_decide_eq_false. naive_solver.
Qed.

Lemma res_filter_spec {A : Type} (f : A -> res bool) l r :
  res_filter f l = Ok r -> r = List.filter (fun a => match f a with Ok b => b | Raise _ => false end) l /\
  forall a, a ∈ l -> is_ok (f a) = true.
Proof.
  revert r; induction l as [|a l IH]; intros r; simpl.
  - intros [= <-]; split; [done | by intros a ?%not_elem_of_nil].
  - intros (b & Hb & (rest & Hr & [= <-])%res_bind_Ok)%res_bind_Ok. apply IH in Hr as [-> Hok].
    rewrite Hb. split; [done|]. intros a' [->|Ha]%elem_of_cons; [by rewrite Hb | auto].
Qed.

Lemma ftruthy_pos x : fltb f0 x = true -> ftruthy x = true.
Proof. by destruct x. Qed.

Lemma lap_times_all l :
  (forall lap, lap ∈ l -> exists t, lap_time_s lap = Some t /\ fltb f0 t = true) ->
  lap_times l = omap lap_time_s l.
Proof.
  intros H. apply list_omap_ext, Forall_Forall2_diag, Forall_forall. intros lap Hin; simpl.
  destruct (H lap Hin) as (t & -> & Ht). by rewrite ftruthy_pos.
Qed.

(** The laps kept: the racing laps, then of those the ones no slower than
    the ceiling above the median of the recent ones. *)
Theorem clean_laps_are_racing_laps laps stops policy kept :
  clean_laps laps stops policy = Ok kept ->
  exists keep : LapFact -> bool,
    (forall lap, lap ∈ laps -> keep lap = true <-> racing_lap stops lap) /\
    let candidates := List.filter keep laps in
    let recent := last_n (Z.to_nat (Z.max (burn_window_laps policy * 2) 1)) candidates in
    (candidates = [] /\ kept = []) \/
    exists reference, median (omap lap_time_s recent) = Ok reference /\
      kept = List.filter (fun lap =>
        match lap_time_s lap with
        | Some t => fleb t (fmul reference (fadd (lit 1 1) (outlier_fraction policy)))
        | None => false end) candidates.
Proof.
  unfold clean_laps. intros (cands & [-> Hok]%res_filter_spec & H)%res_bind_Ok.
  set (keep := fun a => match racing stops a with Ok b => b | Raise _ => false end) in *.
  assert (forall lap, lap ∈ laps -> keep lap = true <-> racing_lap stops lap) as Hkeep.
  { intros lap Hin. apply Hok in Hin. unfold keep. destruct (racing stops lap) as [b|] eqn:E; [|done].
    exact (racing_true _ _ _ E). }
  exists keep; split; [done|]. cbv zeta.
  destruct (List.filter keep laps) as [|c cs] eqn:E; [left; split; congruence|]. right.
  apply res_bind_Ok in H as (reference & Hm & [= <-]). exists reference; split; [|done].
  rewrite <- Hm. f_equal. symmetry. apply lap_times_all. intros lap Hin.
  assert (lap ∈ List.filter keep laps) as Hc.
  { rewrite E. rewrite <- (take_drop (length (c :: cs) - Z.to_nat (Z.max (burn_window_laps policy * 2) 1)) (c :: cs)).
    apply elem_of_app; right. exact Hin. }
  apply list_elem_of_In, filter_In in Hc as [Hl Hk]. apply Hkeep in Hk; [|by apply list_elem_of_In].
  destruct Hk as (_ & _ & _ & _ & t & _ & Ht & Hpos & _). eauto.
Qed.

(** * Garage: a forty-lap race *)
Module Garage.

Definition sec (n : Z) : Z := n * 1000000.

Definition plan : PlanFacts :=
  mkPlan 1 None (Some 40) "laps" (lit 60 1) (lit 60 1) 180 60 [("max_continuous_min", 60)]
    [[("at_lap", OInt 20); ("type", OStr "refuel"); ("driver_in", OStr "B")]].

Definition lap (n : Z) : LapFact :=
  mkLapFact n (sec (100 * n)) (Some (lit 100 1)) true None (Some 1) (Some (lit 2 1)) "clean".

(** Five racing laps on a tank read at [level] tenths of a litre. *)
Definition inputs (level : Z) : RaceInputs :=
  mkInputs (sec 500) "car" "s" 0 (Some plan) (map lap [1; 2; 3; 4; 5])
    [mkStint 1 "A" 0 None 10 (Some (lit level 10)) None] [].

(** A refuelling stop from 510 s to 700 s, the new stint keyed on in it. *)
Definition fill : StopFact := mkStop (sec 510) (Some (sec 700)) false "refuel".
Definition refuelled : RaceInputs :=
  mkInputs (sec 800) "car" "s" 0 (Some plan) (map lap [1; 2; 3; 4; 5])
    [mkStint 1 "A" 0 (Some (sec 600)) 10 (Some (lit 400 10)) (Some (lit 300 10));
     mkStint 2 "B" (sec 600) None 10 (Some (lit 580 10)) None] [fill].

Definition result (r : res StrategyState) : StrategyState :=
  match r with Ok st => st | Raise _ => idle_state 0 "" end.
End Garage.

(** The lower bound on fuel is exactly zero here, and the projection takes the
    central half litre for it: a quarter of a lap is promised, not none. *)
Theorem zero_lower_bound_reads_as_mean :
  let st := Garage.result (evaluate (Garage.inputs 105) default_policy "lap") in
  fuel_remaining_lo_l st = Some f0 /\ fuel_remaining_l st = Some (lit 1 2) /\ burn_sd st = Some f0 /\
  laps_to_dry_lo st = Some (lit 1 4) /\
  laps_to_dry (Some (usable_part Garage.plan f0, f0)) (mkBurn (Some (lit 2 1)) (Some f0) 5 None (Some (lit 2 1)) (Some (lit 2 1)))
    = Ok (Some f0, Some f0).
Proof. vm_compute. done. Qed.

Lemma stop_plan_feasible_witness :
  exists stops,
    _stop_plan Garage.plan 5 (Some 35) (lit 29 2) (lit 30 1) (lit 100 1) (Some (lit 3000 1)) (Garage.sec 500)
      default_policy = Ok stops /\
    length stops = 1%nat /\
    legs_feasible (lit 30 1) (lit 29 2) 5 stops /\
    let '(lap, fuel) := last_leg (lit 30 1) (lit 29 2) 5 stops in reaches fuel lap 40.
Proof.
  eexists; split; [vm_compute; reflexivity|]. split; [reflexivity|].
  edestruct (stop_plan_feasible Garage.plan 5 35 (lit 29 2) (lit 30 1) (lit 100 1) (Some (lit 3000 1)) (Garage.sec 500)
    default_policy) as (Hl & _ & Hr); [vm_compute; reflexivity | vm_compute; reflexivity |].
  split; [exact Hl|]. apply Hr; [left; discriminate | vm_compute; reflexivity].
Defined.

Lemma rebase_after_last_refuel_witness :
  rebase_at (Garage.result (evaluate Garage.refuelled default_policy "lap")) = Some (Garage.sec 600) /\
  entry_at Garage.fill <= Garage.sec 600.
Proof.
  assert (rebase_at (Garage.result (evaluate Garage.refuelled default_policy "lap")) = Some (Garage.sec 600)) as H
    by (vm_compute; reflexivity).
  split; [exact H|].
  apply (rebase_after_last_refuel Garage.refuelled default_policy "lap"
    (Garage.result (evaluate Garage.refuelled default_policy "lap")) Garage.fill (Garage.sec 700)).
  - vm_compute; reflexivity.
  - intros s x ->%list_elem_of_singleton (_ & _ & [= <-]). vm_compute; split; discriminate.
  - apply list_elem_of_singleton; reflexivity.
  - split_and!; reflexivity.
  - exact H.
Defined.

Lemma clean_laps_are_racing_laps_witness :
  exists kept, clean_laps (map Garage.lap [1; 2; 3]) [mkStop (Garage.sec 150) (Some (Garage.sec 160)) false "service"]
    default_policy = Ok kept /\ kept = map Garage.lap [1; 3].
Proof.
  destruct (clean_laps (map Garage.lap [1; 2; 3]) [mkStop (Garage.sec 150) (Some (Garage.sec 160)) false "service"]
    default_policy) as [kept|] eqn:E; [|vm_compute in E; discriminate].
  exists kept; split; [done|].
  destruct (clean_laps_are_racing_laps _ _ _ _ E) as (keep & _ & _).
  vm_compute in E. injection E as <-. reflexivity.
Defined.
