(* ===== verification/TimingDisplay.v ===== *)
(** Lap times as a pit wall reads them ([src/pit/timing_display.py]): the
    [display] string the two MQTT publishers put beside a timing value.

    A time is rounded once, to tenths or milliseconds, and then split into
    minutes and seconds; [lap_time_display_reads] says that the text denotes
    exactly the rounded time, with the seconds always two digits below 60. *)

From S2P Require Import Prelude PyFloat Stats.

Local Open Scope Z_scope.

Definition _LIVE_TENTHS : list string := ["timing.lap_elapsed"; "timing.predicted_lap"].
Definition _DEFINITIVE_MILLIS : list string := ["lap.last_time"; "lap.best_time"].
Definition _SIGNED_TENTHS : list string := ["timing.delta_best"].

(** The em dash, in UTF-8. *)
Definition GATED_DISPLAY : string :=
  String (ascii_of_N 226) (String (ascii_of_N 128) (String (ascii_of_N 148) EmptyString)).

(** [f"{x:0{width}.{digits}f}"] of a number that is not negative. *)
Definition fmt_padded (width digits : nat) (x : float) : string :=
  let s := fmt_fixed x digits in pad_zeros (width - String.length s) s.

Definition lap_time_display (seconds : float) (decimals : nat) : res string :=
  let sign := if fltb seconds f0 then "-" else "" in
  let scale := 10 ^ Z.of_nat decimals in
  total ← f_round (fmul (fabs seconds) (f_of_Z scale));
  let '(minutes, rest) := (total / (60 * scale), total mod (60 * scale)) in
  Ok (sign +:+ pretty minutes +:+ ":" +:+ fmt_padded (3 + decimals) decimals (f_of_ratio rest scale)).

(** [f"{x:+.1f}"]. *)
Definition fmt_signed_tenths (x : float) : string := (if fsign x then "" else "+") +:+ fmt_fixed x 1.

Definition display_for (channel : string) (value : obj) : res (option string) :=
  match obj_num value with
  | None => Ok None
  | Some n =>
      x ← num_float n;
      if negb (is_finite x) then Ok None
      else if bool_decide (channel ∈ _LIVE_TENTHS) then Some <$> lap_time_display x 1
      else if bool_decide (channel ∈ _DEFINITIVE_MILLIS) then Some <$> lap_time_display x 3
      else if bool_decide (channel ∈ _SIGNED_TENTHS) then Ok (Some (fmt_signed_tenths x))
      else Ok None
  end.

Definition pit_clock_display (value : option float) (status : string) : res string :=
  match value with
  | None => Ok GATED_DISPLAY
  | Some x => lap_time_display x (if String.eqb status "authoritative" then 3 else 1)
  end.

(** * The double nearest a short decimal

    [n / d] with [n] below [2 ^ 50] is a double within half of [1 / d] of it,
    so formatting it to [d]'s decimals gives [n] back. *)

Lemma shr_1_half r : 0 <= shr_m r -> shr_m (shr_1 r) = shr_m r / 2.
Proof.
  destruct r as [m rb sb]; cbn [shr_m]; intros Hm.
  destruct m as [|[p|p|]|]; try lia; cbn [shr_1 shr_m]; try done.
  - rewrite Pos2Z.inj_xI. replace (2 * Z.pos p + 1) with (1 + Z.pos p * 2) by lia. by rewrite Z.div_add by lia.
  - rewrite Pos2Z.inj_xO. replace (2 * Z.pos p) with (Z.pos p * 2) by lia. by rewrite Z.div_mul by lia.
Qed.

Lemma shr_m_of_loc m l : shr_m (shr_record_of_loc m l) = m.
Proof. by destruct l as [|[]]. Qed.

Lemma digits2_exact p k : 0 < k -> 2 ^ (k - 1) <= Z.pos p < 2 ^ k -> Z.pos (digits2_pos p) = k.
Proof.
  intros Hk [H1 H2]. destruct (digits2_bound p) as [D1 D2]. set (j := Z.pos (digits2_pos p)) in *.
  destruct (Z.lt_trichotomy j k) as [Hlt|[->|Hgt]]; [exfalso | done | exfalso].
  - assert (2 ^ j <= 2 ^ (k - 1)) by (apply Z.pow_le_mono_r; lia). lia.
  - assert (2 ^ k <= 2 ^ (j - 1)) by (apply Z.pow_le_mono_r; lia). lia.
Qed.

(** A mantissa of 53 binary digits stays, one of 54 is halved. *)
Lemma shr_fexp_near q e l :
  2 ^ 52 <= q < 2 ^ 54 -> -1000 <= e ->
  exists r e', shr_fexp 53 1024 q e l = (r, e') /\
    ((e' = e /\ shr_m r = q /\ q < 2 ^ 53) \/ (e' = e + 1 /\ shr_m r = q / 2 /\ 2 ^ 53 <= q)).
Proof.
  intros Hq He. destruct q as [|p|p]; [lia | | lia].
  unfold shr_fexp, fexp, emin; cbn [Zdigits2].
  destruct (Z.lt_ge_cases (Z.pos p) (2 ^ 53)).
  - rewrite (digits2_exact p 53) by (simpl; lia). replace (Z.max (53 + e - 53) (3 - 1024 - 53) - e) with 0 by lia.
    eexists _, _; split; [done|]. left. by rewrite shr_m_of_loc.
  - rewrite (digits2_exact p 54) by (simpl; lia). replace (Z.max (54 + e - 53) (3 - 1024 - 53) - e) with 1 by lia.
    eexists _, _; split; [done|]. right. cbn [iter_pos]. rewrite shr_1_half; rewrite shr_m_of_loc; [done | lia].
Qed.

Lemma round_even_near m l : round_nearest_even m l = m \/ round_nearest_even m l = m + 1.
Proof. unfold round_nearest_even. repeat case_match; tauto. Qed.

Lemma round_near q e l :
  2 ^ 52 <= q < 2 ^ 54 -> -1000 <= e <= 900 ->
  exists m e', binary_round_aux 53 1024 false q e l = S754_finite false m e' /\
    e <= e' <= e + 2 /\ q - 1 <= Z.pos m * 2 ^ (e' - e) <= q + 2.
Proof.
  intros Hq He. unfold binary_round_aux.
  destruct (shr_fexp_near q e l Hq ltac:(lia)) as (r & e1 & -> & H1).
  set (m1 := round_nearest_even _ _). assert (Hm1 : m1 = shr_m r \/ m1 = shr_m r + 1) by apply round_even_near.
  clearbody m1. pose proof (Z.div_mod q 2 ltac:(lia)). pose proof (Z.mod_pos_bound q 2 ltac:(lia)).
  assert (Hb : 2 ^ 52 <= m1 < 2 ^ 54) by (destruct H1 as [(-> & H1 & ?)|(-> & H1 & ?)]; lia).
  destruct (shr_fexp_near m1 e1 loc_Exact Hb ltac:(lia)) as (r2 & e2 & -> & H2).
  pose proof (Z.div_mod m1 2 ltac:(lia)). pose proof (Z.mod_pos_bound m1 2 ltac:(lia)).
  assert (Hpos : 0 < shr_m r2) by lia. destruct (shr_m r2) as [|m|] eqn:Em; [lia | | lia].
  rewrite (proj2 (Z.leb_le e2 (1024 - 53))) by lia. exists m, e2. split; [done|]. split; [lia|].
  destruct H1 as [(-> & H1 & ?)|(-> & H1 & ?)], H2 as [(-> & H2 & ?)|(-> & H2 & ?)].
  - replace (e - e) with 0 by lia. lia.
  - replace (e + 1 - e) with 1 by lia. lia.
  - replace (e + 1 - e) with 1 by lia. lia.
  - replace (e + 1 + 1 - e) with 2 by lia. change (2 ^ 2) with 4. lia.
Qed.

Lemma div_core_near n d :
  0 < n < 2 ^ 50 -> 0 < d < 2 ^ 100 ->
  exists q s l, SFdiv_core_binary 53 1024 n 0 d 0 = (q, - s, l) /\ 3 <= s <= 153 /\
    2 ^ 52 <= q < 2 ^ 54 /\ q * d <= n * 2 ^ s < (q + 1) * d /\ 8 * d <= 2 ^ s.
Proof.
  intros Hn Hd. destruct n as [|n|]; [lia | | lia]. destruct d as [|d|]; [lia | | lia].
  destruct (digits2_bound n) as [N1 N2], (digits2_bound d) as [D1 D2].
  set (d1 := Z.pos (digits2_pos n)) in *. set (d2 := Z.pos (digits2_pos d)) in *.
  assert (B1 : 1 <= d1 <= 50).
  { split; [lia|]. destruct (Z.le_gt_cases d1 50); [done|].
    assert (2 ^ 50 <= 2 ^ (d1 - 1)) by (apply Z.pow_le_mono_r; lia). lia. }
  assert (B2 : 1 <= d2 <= 100).
  { split; [lia|]. destruct (Z.le_gt_cases d2 100); [done|].
    assert (2 ^ 100 <= 2 ^ (d2 - 1)) by (apply Z.pow_le_mono_r; lia). lia. }
  set (s := 53 + d2 - d1). unfold SFdiv_core_binary. cbn [Zdigits2]. fold d1 d2.
  replace (fexp 53 1024 (d1 + 0 - (d2 + 0)) `min` (0 - 0)) with (- s) by (unfold fexp, emin; lia).
  replace (0 - 0 - - s) with s by lia. replace (match s with 0 => Z.pos n | Z.pos _ => Z.pos n ≪ s | Z.neg _ => 0 end) with (Z.pos n * 2 ^ s).
  2:{ destruct s as [|s'|s'] eqn:Es; [lia | by rewrite Z.shiftl_mul_pow2 by lia | lia]. }
  pose proof (Z_div_mod (Z.pos n * 2 ^ s) (Z.pos d) ltac:(lia)) as Hqr.
  destruct (Z.div_eucl _ _) as [q r]. destruct Hqr as [Hqr Hr].
  eexists q, s, _. split; [done|]. split; [lia|].
  assert (P1 : 2 ^ (d1 - 1) * 2 ^ s = 2 ^ (52 + d2)) by (rewrite <- Z.pow_add_r by lia; f_equal; lia).
  assert (P2 : 2 ^ d1 * 2 ^ s = 2 ^ (54 + (d2 - 1))) by (rewrite <- Z.pow_add_r by lia; f_equal; lia).
  rewrite Z.pow_add_r in P1, P2 by lia. assert (Q1 : 2 ^ 52 <= q) by nia. assert (Q2 : q < 2 ^ 54) by nia.
  split; [done|]. split; [nia|].
  assert (2 ^ (3 + d2) <= 2 ^ s) by (apply Z.pow_le_mono_r; lia). rewrite Z.pow_add_r in H by lia. lia.
Qed.

Lemma rne_div_near a d n : 0 < d -> 2 * Z.abs (a - n * d) < d -> rne_div a d = n.
Proof.
  intros Hd Ha. pose proof (Z.div_mod a d ltac:(lia)). pose proof (Z.mod_pos_bound a d Hd).
  unfold rne_div. destruct (Z.compare_spec (2 * (a mod d)) d).
  - exfalso. assert (a / d = n \/ a / d = n - 1 \/ a / d < n - 1 \/ n < a / d) as [E|[E|[E|E]]] by lia; rewrite ?E in *; nia.
  - nia.
  - nia.
Qed.

(** The double nearest [n / d] formats back to [n] [d]-ths. *)
Lemma f_of_ratio_reads n d :
  0 <= n < 2 ^ 50 -> 0 < d < 2 ^ 100 ->
  is_finite (f_of_ratio n d) = true /\ fsign (f_of_ratio n d) = false /\
  rne_div (Z.abs (fnum (f_of_ratio n d)) * d) (fden (f_of_ratio n d)) = n.
Proof.
  intros Hn Hd. destruct (decide (n = 0)) as [->|Hn0].
  { unfold f_of_ratio. split_and!; [done | done |]. cbn [f0 fnum fden]. apply rne_div_near; lia. }
  unfold f_of_ratio. destruct n as [|n|]; [lia | | lia]. destruct d as [|d|]; [lia | | lia].
  destruct (div_core_near (Z.pos n) (Z.pos d) ltac:(lia) ltac:(lia)) as (q & s & l & HE & Hs & Hq & Hb & H8).
  change (Z.abs (Z.pos n)) with (Z.pos n). rewrite HE. replace (Z.pos n <? 0) with false by lia.
  destruct (round_near q (- s) l Hq ltac:(lia)) as (m & e & -> & He & Hm).
  split; [done|]. split; [done|]. cbn [fnum fden cond_Zopp].
  set (k := 2 ^ (e - - s)) in *. assert (Hk : 0 < k) by (apply Z.pow_pos_nonneg; lia).
  assert (Hpow : 2 ^ s = 2 ^ (- e) * k \/ - e <= 0).
  { destruct (Z.le_gt_cases (- e) 0); [by right | left]. unfold k. rewrite <- Z.pow_add_r by lia. f_equal; lia. }
  destruct Hpow as [Hpow|Hpow].
  - replace (Z.max e 0) with 0 by (destruct (Z.le_gt_cases e 0); [lia|]; lia).
    replace (Z.max (- e) 0) with (- e) by lia.
    apply rne_div_near; [apply Z.pow_pos_nonneg; lia|]. rewrite Z.pow_0_r, Z.mul_1_r. cbn [Z.abs]. nia.
  - exfalso. lia.
Qed.

(** * What the text denotes *)

(** Digits of [n], at least [width] of them. *)
Definition digits (width : nat) (n : Z) : string :=
  let s : string := pretty n in pad_zeros (width - String.length s) s.

Lemma pad_zeros_length n s : String.length (pad_zeros n s) = (n + String.length s)%nat.
Proof. induction n; simpl; [done|]. by rewrite IHn. Qed.
Lemma string_length_app s t : String.length (s +:+ t) = (String.length s + String.length t)%nat.
Proof. induction s; simpl; [done|]. by rewrite IHs. Qed.
Lemma pad_zeros_app n s t : pad_zeros n s +:+ t = pad_zeros n (s +:+ t).
Proof. induction n; simpl; [done|]. by rewrite <- IHn. Qed.

Lemma pretty_N_go_length k : forall n s, (n < 10 ^ N.of_nat k)%N -> (String.length (pretty_N_go n s) <= k + String.length s)%nat.
Proof.
  induction k as [|k IH]; intros n s Hn.
  - replace n with 0%N by (simpl in Hn; lia). by rewrite pretty_N_go_0.
  - destruct (decide (n = 0)%N) as [->|Hn0]; [rewrite pretty_N_go_0; lia|].
    rewrite pretty_N_go_step by lia. rewrite Nat2N.inj_succ, N.pow_succ_r' in Hn.
    specialize (IH (n `div` 10)%N (String (pretty_N_char (n `mod` 10)) s) ltac:(apply N.Div0.div_lt_upper_bound; lia)).
    simpl in IH. lia.
Qed.

(** A number below [10 ^ k] has at most [k] digits. *)
Lemma pretty_length k n : 0 <= n < 10 ^ Z.of_nat k -> (0 < k)%nat -> (String.length (pretty n) <= k)%nat.
Proof.
  intros Hn Hk. destruct n as [|n|n]; [destruct k; simpl; lia | | lia].
  change (pretty (Z.pos n)) with (pretty (N.pos n)). unfold pretty, pretty_N.
  destruct (decide _) as [E|_]; [discriminate|].
  rewrite <- (Nat.add_0_r k). apply (pretty_N_go_length k (N.pos n) ""). apply N2Z.inj_lt. rewrite N2Z.inj_pow, nat_N_Z. simpl. lia.
Qed.

(** What is displayed is the rounded time, read as minutes, seconds and
    decimals: the seconds are two digits below 60, the decimals are all there,
    and together they make up exactly the number of tenths (or of the chosen
    decimals) the time was rounded to. The sign is that of the time. *)
Theorem lap_time_display_reads (seconds : float) (decimals : nat) :
  (0 < decimals <= 12)%nat ->
  is_finite (fmul (fabs seconds) (f_of_Z (10 ^ Z.of_nat decimals))) = true ->
  exists total minutes secs frac,
    f_round (fmul (fabs seconds) (f_of_Z (10 ^ Z.of_nat decimals))) = Ok total /\
    total = (minutes * 60 + secs) * 10 ^ Z.of_nat decimals + frac /\
    0 <= minutes /\ 0 <= secs < 60 /\ 0 <= frac < 10 ^ Z.of_nat decimals /\
    lap_time_display seconds decimals =
      Ok ((if fltb seconds f0 then "-" else "") +:+ pretty minutes +:+ ":" +:+ digits 2 secs +:+ "." +:+ digits decimals frac).
Proof.
  intros Hd Hfin. unfold lap_time_display.
  set (scale := 10 ^ Z.of_nat decimals) in *. set (x := fmul _ _) in *.
  assert (Hscale : 0 < scale) by (apply Z.pow_pos_nonneg; lia).
  assert (Hs12 : scale <= 10 ^ 12) by (apply Z.pow_le_mono_r; lia).
  assert (Hr : exists total, f_round x = Ok total) by (unfold f_round; destruct x; try done; eexists; reflexivity).
  destruct Hr as [total Hr]. assert (Ht : 0 <= total).
  { assert (Hx : fsign x = false).
    { destruct (fmul_sign (fabs seconds) (f_of_Z scale)) as [E|E]; fold x in E; [by destruct x|].
      rewrite E. rewrite (proj2 (f_of_Z_sign scale ltac:(lia))). by destruct seconds. }
    unfold f_round in Hr. pose proof (fnum_nonneg x Hx). pose proof (fden_pos x).
    assert (0 <= rne_div (fnum x) (fden x)) by (unfold rne_div; pose proof (Z.div_pos (fnum x) (fden x)); repeat case_match; lia).
    by destruct x; simplify_eq/=. }
  rewrite Hr. simpl mbind. unfold res_bind.
  assert (Hmin : 0 <= total / (60 * scale)) by (apply Z.div_pos; lia).
  set (rest := total mod (60 * scale)). pose proof (Z.mod_pos_bound total (60 * scale) ltac:(lia)) as Hrest. fold rest in Hrest.
  pose proof (Z.mod_pos_bound rest scale Hscale) as Hfrac.
  exists total, (total / (60 * scale)), (rest / scale), (rest mod scale).
  assert (Hsec : 0 <= rest / scale < 60) by (split; [apply Z.div_pos; lia | apply Z.div_lt_upper_bound; lia]).
  split_and!; try done || lia.
  - pose proof (Z.div_mod total (60 * scale) ltac:(lia)). pose proof (Z.div_mod rest scale ltac:(lia)). fold rest in H. nia.
  - do 3 f_equal. destruct (f_of_ratio_reads rest scale) as (F1 & F2 & F3); [lia|lia|].
    unfold fmt_padded. set (y := f_of_ratio rest scale) in *.
    assert (E : fmt_fixed y decimals = pretty (rest / scale) +:+ "." +:+ digits decimals (rest mod scale)).
    { unfold fmt_fixed. fold scale. rewrite F2, F3. destruct decimals; [lia|]. by destruct y. }
    rewrite E. set (tail := "." +:+ _). unfold digits. rewrite pad_zeros_app. do 2 f_equal.
    rewrite string_length_app. unfold tail. rewrite string_length_app. unfold digits. rewrite pad_zeros_length.
    pose proof (pretty_length 2 (rest / scale) ltac:(simpl; lia) ltac:(lia)).
    pose proof (pretty_length decimals (rest mod scale) ltac:(lia) ltac:(lia)). cbn [String.length]. lia.
Qed.

(** 59.96 s is a minute, not 60.0 seconds. *)
Lemma lap_time_display_reads_witness :
  lap_time_display (f_of_ratio 5996 100) 1 = Ok "1:00.0" /\
  exists total minutes secs frac,
    f_round (fmul (fabs (f_of_ratio 5996 100)) (f_of_Z (10 ^ Z.of_nat 1))) = Ok total /\
    total = (minutes * 60 + secs) * 10 ^ Z.of_nat 1 + frac /\
    0 <= minutes /\ 0 <= secs < 60 /\ 0 <= frac < 10 ^ Z.of_nat 1 /\
    lap_time_display (f_of_ratio 5996 100) 1 =
      Ok ((if fltb (f_of_ratio 5996 100) f0 then "-" else "") +:+ pretty minutes +:+ ":" +:+ digits 2 secs +:+ "." +:+ digits 1 frac).
Proof.
  split; [vm_compute; reflexivity|].
  apply (lap_time_display_reads (f_of_ratio 5996 100) 1); [lia | vm_compute; reflexivity].
Defined.

(** A time too long to count in milliseconds has no display: the rounding
    raises what is neither a [TypeError] nor a [ValueError]. *)
Example huge_time_overflows :
  is_finite (f_of_Z (2 ^ 1020)) = true /\
  display_for "lap.last_time" (OFloat (f_of_Z (2 ^ 1020))) = raise OverflowError "cannot convert float infinity to integer".
Proof. split; vm_compute; reflexivity. Qed.
