(* ===== verification/MqttSink.v ===== *)
(** The live decoder's way out ([MqttSink], [mqtt_message] and [HealthState]
    of [src/pit/live_decoder]): a bounded queue between the event loop and a
    broker that comes and goes.

    [run] is a state machine whose steps end at the awaits: opening the
    connection, one pass of the loop up to the publish, the publish's answer,
    leaving the connection after an error, the end. [submit] runs between any
    two of them. Every step says what became of the updates it disposed of;
    [sink_accounts] says nothing is forgotten, and [sink_never_goes_back] that
    a channel's values leave in the order they came. *)

From S2P Require Import Prelude PyFloat Wire Limiter TimingDisplay.

Local Open Scope Z_scope.

(** * Health *)

Inductive health_count :=
  | H_aggregate_sheds | H_mqtt_drops | H_mqtt_reconnects | H_nats_reconnects | H_registries
  | H_bad_version_batches | H_unknown_seq_batches | H_malformed_payloads | H_invalid_values | H_config_reloads.
#[export] Instance health_count_eq : EqDecision health_count.
Proof. solve_decision. Defined.

Record HealthState := mkHealth {
  counts : health_count -> Z;
  h_published : gmap string Z;
  h_suppressed : gmap string Z;
  config_mtime_ns : Z;
  h_unmatched_rules : list string;
  h_stream : string;
  h_subject_filter : string;
  publish_rate : float;
  _started : float;
  _window_publishes : Z;
  _window_start : float
}.

Definition health_init (now : float) : HealthState :=
  mkHealth (fun _ => 0) ∅ ∅ 0 [] "" "" f0 now 0 now.

Definition set_count (k : health_count) (n : Z) (h : HealthState) : HealthState :=
  mkHealth (fun k' => if decide (k' = k) then n else counts h k') (h_published h) (h_suppressed h)
    (config_mtime_ns h) (h_unmatched_rules h) (h_stream h) (h_subject_filter h) (publish_rate h) (_started h)
    (_window_publishes h) (_window_start h).
(** [self.health.k += 1]. *)
Definition bump_health (k : health_count) (h : HealthState) : HealthState := set_count k (counts h k + 1) h.

Definition note_publish (channel : string) (h : HealthState) : HealthState :=
  mkHealth (counts h) (add_count (h_published h) channel) (h_suppressed h) (config_mtime_ns h) (h_unmatched_rules h)
    (h_stream h) (h_subject_filter h) (publish_rate h) (_started h) (_window_publishes h + 1) (_window_start h).

Definition roll (current : float) (h : HealthState) : HealthState :=
  let elapsed := fsub current (_window_start h) in
  if fleb elapsed f0 then h
  else
    mkHealth (counts h) (h_published h) (h_suppressed h) (config_mtime_ns h) (h_unmatched_rules h) (h_stream h)
      (h_subject_filter h) (fdiv_ieee (f_of_Z (_window_publishes h)) elapsed) (_started h) 0 current.

Definition with_suppressed (m : gmap string Z) (h : HealthState) : HealthState :=
  mkHealth (counts h) (h_published h) m (config_mtime_ns h) (h_unmatched_rules h) (h_stream h) (h_subject_filter h)
    (publish_rate h) (_started h) (_window_publishes h) (_window_start h).
Definition with_unmatched (l : list string) (h : HealthState) : HealthState :=
  mkHealth (counts h) (h_published h) (h_suppressed h) (config_mtime_ns h) l (h_stream h) (h_subject_filter h)
    (publish_rate h) (_started h) (_window_publishes h) (_window_start h).
Definition with_mtime (n : Z) (h : HealthState) : HealthState :=
  mkHealth (counts h) (h_published h) (h_suppressed h) n (h_unmatched_rules h) (h_stream h) (h_subject_filter h)
    (publish_rate h) (_started h) (_window_publishes h) (_window_start h).
Definition with_names (stream subject : string) (h : HealthState) : HealthState :=
  mkHealth (counts h) (h_published h) (h_suppressed h) (config_mtime_ns h) (h_unmatched_rules h) stream subject
    (publish_rate h) (_started h) (_window_publishes h) (_window_start h).

(** [sorted(set(...) | set(...))]. *)
Definition str_leb (a b : string) : bool := bool_decide (a = b) || String.ltb a b.
Definition sorted_names (s : gset string) : list string := sort_by str_leb (elements s).

Definition snapshot (current : float) (h : HealthState) : list (string * obj) :=
  let channels := sorted_names (dom (h_published h) ∪ dom (h_suppressed h)) in
  [("uptime_s", OFloat (f_round_digits (fmax f0 (fsub current (_started h))) 1));
   ("stream", OStr (h_stream h));
   ("subject_filter", OStr (h_subject_filter h));
   ("publish_rate", OFloat (f_round_digits (publish_rate h) 1));
   ("channels", ODict (map (fun c =>
      (c, ODict [("published", OInt (count_of (h_published h) c)); ("suppressed", OInt (count_of (h_suppressed h) c))]))
      channels));
   ("aggregate_sheds", OInt (counts h H_aggregate_sheds));
   ("mqtt_drops", OInt (counts h H_mqtt_drops));
   ("mqtt_reconnects", OInt (counts h H_mqtt_reconnects));
   ("nats_reconnects", OInt (counts h H_nats_reconnects));
   ("registries", OInt (counts h H_registries));
   ("unknown_seq_batches", OInt (counts h H_unknown_seq_batches));
   ("bad_version_batches", OInt (counts h H_bad_version_batches));
   ("malformed_payloads", OInt (counts h H_malformed_payloads));
   ("invalid_values", OInt (counts h H_invalid_values));
   ("config_reloads", OInt (counts h H_config_reloads));
   ("config_mtime_ns", OInt (config_mtime_ns h));
   ("unmatched_rules", OList (map OStr (h_unmatched_rules h)))].

(** * One publication *)

Definition value_obj (v : option SampleValue) : obj :=
  match v with
  | Some (VFloat x) => OFloat x
  | Some (VInt z) => OInt z
  | Some (VBool b) => OBool b
  | Some (VStr s) => OStr s
  | None => ONone
  end.

(** [allow_nan=False]. *)
Fixpoint json_compliant (v : obj) : bool :=
  match v with
  | OFloat x => is_finite x
  | OList l => forallb json_compliant l
  | ODict d => forallb (fun '(_, v) => json_compliant v) d
  | _ => true
  end.

Section Sink.
Context (json_dumps : obj -> string).

Definition strict_dumps (v : obj) : res string :=
  if json_compliant v then Ok (json_dumps v) else raise ValueError "Out of range float values are not JSON compliant".

Definition mqtt_message (vehicle : string) (update : LiveUpdate) : res (string * string) :=
  let topic := "openlaps/" +:+ vehicle +:+ "/" +:+ lu_channel update in
  let value := value_obj (lu_value update) in
  display ← display_for (lu_channel update) value;
  let document := [("time", OFloat (lu_capture_unix_ms update)); ("value", value)] ++
    match display with Some d => [("display", OStr d)] | None => [] end in
  payload ← strict_dumps (ODict document);
  Ok (topic, payload).

(** * The queue *)

Record MqttSink := mkSink {
  vehicle : string;
  mqtt_queue_size : Z;
  health : HealthState;
  connected : bool;
  sk_suppressed : gmap string Z;
  _limited : list (string * LiveUpdate);
  _unlimited : list LiveUpdate
}.

Definition sink_init (vehicle : string) (size : Z) (h : HealthState) : MqttSink := mkSink vehicle size h false ∅ [] [].

Definition with_health (f : HealthState -> HealthState) (s : MqttSink) : MqttSink :=
  mkSink (vehicle s) (mqtt_queue_size s) (f (health s)) (connected s) (sk_suppressed s) (_limited s) (_unlimited s).
Definition with_queues (limited : list (string * LiveUpdate)) (unlimited : list LiveUpdate) (s : MqttSink) : MqttSink :=
  mkSink (vehicle s) (mqtt_queue_size s) (health s) (connected s) (sk_suppressed s) limited unlimited.
Definition set_connected (b : bool) (s : MqttSink) : MqttSink :=
  mkSink (vehicle s) (mqtt_queue_size s) (health s) b (sk_suppressed s) (_limited s) (_unlimited s).
Definition sink_suppress (c : string) (s : MqttSink) : MqttSink :=
  mkSink (vehicle s) (mqtt_queue_size s) (health s) (connected s) (add_count (sk_suppressed s) c) (_limited s) (_unlimited s).

Definition pending_count (s : MqttSink) : Z := Z.of_nat (length (_limited s) + length (_unlimited s)).

(** What became of an update. [Failed] is the one whose publish raised,
    [Escaped] the one whose message could not be built for a reason the loop
    does not expect. *)
Inductive fate := Published | Dropped | Superseded | Invalid | Failed | Escaped.
#[export] Instance fate_eq : EqDecision fate.
Proof. solve_decision. Defined.
Abbreviation fates := (list (fate * LiveUpdate)).

(** A drop is counted for the service and for the channel. *)
Definition drop_update (s : MqttSink) (u : LiveUpdate) : MqttSink :=
  sink_suppress (lu_channel u) (with_health (bump_health H_mqtt_drops) s).

Definition submit (s : MqttSink) (u : LiveUpdate) : MqttSink * fates :=
  let c := lu_channel u in
  if negb (connected s) then (drop_update s u, [(Dropped, u)])
  else
    match (if lu_conflate u then od_get c (_limited s) else None) with
    | Some old =>
        (sink_suppress c (with_queues (od_set c u (_limited s)) (_unlimited s) s), [(Superseded, old)])
    | None =>
        if mqtt_queue_size s <=? pending_count s then (drop_update s u, [(Dropped, u)])
        else if lu_conflate u then (with_queues (od_set c u (_limited s)) (_unlimited s) s, [])
        else (with_queues (_limited s) (_unlimited s ++ [u]) s, [])
    end.

(** Unlimited updates leave first, then the oldest channel's. *)
Definition _next_pending (s : MqttSink) : MqttSink * option LiveUpdate :=
  match _unlimited s, _limited s with
  | u :: rest, limited => (with_queues limited rest s, Some u)
  | [], (_, u) :: rest => (with_queues rest [] s, Some u)
  | [], [] => (s, None)
  end.

Definition queued_updates (s : MqttSink) : list LiveUpdate := _unlimited s ++ (_limited s).*2.

Definition _drop_queued (s : MqttSink) : MqttSink * fates :=
  let updates := queued_updates s in
  (fold_left drop_update updates (with_queues [] [] s), map (pair Dropped) updates).

(** * The connection *)

Definition _CONNECT_BACKOFF_START_S : float := f_of_ratio 1 2.
Definition _CONNECT_BACKOFF_MAX_S : float := f_of_Z 15.

(** Where [run] is waiting: for the broker, for an update, for a publish, for
    the client's exit after an error, or nowhere any more. *)
Inductive sink_at :=
  | Offline
  | Serving
  | Publishing (u : LiveUpdate)
  | Leaving
  | Ended.

Record SinkRun := mkRun {
  sink : MqttSink;
  at_ : sink_at;
  backoff : float;
  connected_once : bool
}.

Definition sink_run_init (s : MqttSink) : SinkRun := mkRun s Offline _CONNECT_BACKOFF_START_S false.

(** The handler of the outer [except]: the queue goes, and the next attempt
    waits twice as long. *)
Definition unavailable (r : SinkRun) : SinkRun * fates :=
  let '(s, f) := _drop_queued (set_connected false (sink r)) in
  (mkRun s Offline (doubled (backoff r) _CONNECT_BACKOFF_MAX_S) (connected_once r), f).

Inductive sink_step :=
  | Submit (u : LiveUpdate)
  | Opened
  | Refused
  | Turn
  | Answered (ok : bool)
  | Left
  | Halt.

(** What the inner [except] takes for an unpublishable value. *)
Definition unpublishable (e : exn) : bool :=
  match exn_kind e with TypeError | ValueError => true | _ => false end.

Definition turn (r : SinkRun) : SinkRun * fates :=
  match _next_pending (sink r) with
  | (_, None) => (r, [])
  | (s, Some u) =>
      match mqtt_message (vehicle s) u with
      | Ok _ => (mkRun s (Publishing u) (backoff r) (connected_once r), [])
      | Raise e =>
          if unpublishable e
          then (mkRun (with_health (bump_health H_invalid_values) s) Serving (backoff r) (connected_once r), [(Invalid, u)])
          else (mkRun s Leaving (backoff r) (connected_once r), [(Escaped, u)])
      end
  end.

Definition run_step (r : SinkRun) (st : sink_step) : SinkRun * fates :=
  match st, at_ r with
  | Submit u, _ => let '(s, f) := submit (sink r) u in (mkRun s (at_ r) (backoff r) (connected_once r), f)
  | Opened, Offline =>
      let s := if connected_once r then with_health (bump_health H_mqtt_reconnects) (sink r) else sink r in
      (mkRun (set_connected true s) Serving _CONNECT_BACKOFF_START_S true, [])
  | Refused, Offline => unavailable r
  | Turn, Serving => turn r
  | Answered true, Publishing u =>
      (mkRun (with_health (note_publish (lu_channel u)) (sink r)) Serving (backoff r) (connected_once r), [(Published, u)])
  | Answered false, Publishing u =>
      (mkRun (with_health (bump_health H_mqtt_drops) (sink r)) Leaving (backoff r) (connected_once r), [(Failed, u)])
  | Left, Leaving => unavailable r
  | Halt, (Offline | Serving | Leaving) =>
      let '(s, f) := _drop_queued (set_connected false (sink r)) in
      (mkRun s Ended (backoff r) (connected_once r), f)
  | _, _ => (r, [])
  end.

Definition sink_run (r : SinkRun) (sts : list sink_step) : SinkRun * fates :=
  fold_left (fun acc st => let '(r, f) := run_step acc.1 st in (r, acc.2 ++ f)) sts (r, []).

(** * Counting *)

Definition total (k : fate) (f : fates) : Z := Z.of_nat (length (filter (fun p => p.1 = k) f)).
Definition tally (k : fate) (c : string) (f : fates) : Z :=
  Z.of_nat (length (filter (fun p => p.1 = k /\ lu_channel p.2 = c) f)).

Lemma total_app k f g : total k (f ++ g) = total k f + total k g.
Proof. unfold total; rewrite filter_app, length_app; lia. Qed.
Lemma tally_app k c f g : tally k c (f ++ g) = tally k c f + tally k c g.
Proof. unfold tally; rewrite filter_app, length_app; lia. Qed.
Lemma total_one k k' u : total k [(k', u)] = if decide (k' = k) then 1 else 0.
Proof. unfold total; rewrite filter_cons; cbn [fst]; by case_decide. Qed.
Lemma tally_one k c k' u : tally k c [(k', u)] = if decide (k' = k) then one (lu_channel u) c else 0.
Proof. unfold tally, one; rewrite filter_cons; cbn [fst snd]; repeat case_decide; naive_solver. Qed.
Lemma total_nil k : total k [] = 0.
Proof. done. Qed.
Lemma tally_nil k c : tally k c [] = 0.
Proof. done. Qed.
Lemma total_cons k p f : total k (p :: f) = total k [p] + total k f.
Proof. apply (total_app k [p] f). Qed.
Lemma tally_cons k c p f : tally k c (p :: f) = tally k c [p] + tally k c f.
Proof. apply (tally_app k c [p] f). Qed.

(** What the counters say of the fates. *)
Record counted (s s' : MqttSink) (f : fates) : Prop := {
  cn_drops : counts (health s') H_mqtt_drops = counts (health s) H_mqtt_drops + total Dropped f + total Failed f;
  cn_invalid : counts (health s') H_invalid_values = counts (health s) H_invalid_values + total Invalid f;
  cn_published c : count_of (h_published (health s')) c = count_of (h_published (health s)) c + tally Published c f;
  cn_suppressed c : count_of (sk_suppressed s') c =
    count_of (sk_suppressed s) c + tally Dropped c f + tally Superseded c f
}.

Lemma counted_refl s : counted s s [].
Proof. split; intros; rewrite ?Z.add_0_r; done. Qed.

Lemma counted_trans s1 s2 s3 f g : counted s1 s2 f -> counted s2 s3 g -> counted s1 s3 (f ++ g).
Proof.
  intros [A1 A2 A3 A4] [B1 B2 B3 B4]. split; [rewrite B1, A1, !total_app; lia | rewrite B2, A2, total_app; lia | |];
    intros c; [rewrite B3, A3, tally_app; lia | rewrite B4, A4, !tally_app; lia].
Qed.

(** A step that only moves updates about. *)
Lemma counted_quiet s s' :
  counts (health s') = counts (health s) -> h_published (health s') = h_published (health s) ->
  sk_suppressed s' = sk_suppressed s -> counted s s' [].
Proof. intros H1 H2 H3. split; intros; rewrite ?H1, ?H2, ?H3; unfold total, tally; simpl; lia. Qed.

Ltac by_tally :=
  split; intros; cbn -[total tally count_of add_count];
  rewrite ?count_add, ?total_one, ?tally_one, ?total_nil, ?tally_nil; repeat case_decide; try done; unfold one; repeat case_decide; try done; try lia.

Lemma drop_counted s u : counted s (drop_update s u) [(Dropped, u)].
Proof. by_tally. Qed.

Lemma drop_all l : forall s,
  let s' := fold_left drop_update l s in
  counted s s' (map (pair Dropped) l) /\ vehicle s' = vehicle s /\ mqtt_queue_size s' = mqtt_queue_size s /\
  connected s' = connected s /\ _limited s' = _limited s /\ _unlimited s' = _unlimited s.
Proof.
  induction l as [|u l IH]; intros s; simpl; [split; [apply counted_refl | done]|].
  destruct (IH (drop_update s u)) as (H1 & H2 & H3 & H4 & H5 & H6). split; [|by split_and!].
  apply (counted_trans s (drop_update s u) _ [(Dropped, u)]); [apply drop_counted | done].
Qed.

(** * The queue's shape *)

Definition in_flight (r : SinkRun) : list LiveUpdate := match at_ r with Publishing u => [u] | _ => [] end.
Definition held (r : SinkRun) : list LiveUpdate := in_flight r ++ queued_updates (sink r).

Definition queue_wf (s : MqttSink) : Prop :=
  od_wf (_limited s) /\
  Forall (fun kv => lu_channel kv.2 = kv.1 /\ lu_conflate kv.2 = true) (_limited s) /\
  Forall (fun u => lu_conflate u = false) (_unlimited s) /\
  (0 <= mqtt_queue_size s -> pending_count s <= mqtt_queue_size s) /\
  (connected s = false -> _limited s = [] /\ _unlimited s = []).

Definition run_wf (r : SinkRun) : Prop :=
  queue_wf (sink r) /\ (connected (sink r) = true <-> at_ r <> Offline /\ at_ r <> Ended).

(** The updates of a channel, limited or not, in order. *)
Definition line (c : string) (k : bool) (l : list LiveUpdate) : list LiveUpdate :=
  filter (fun u => lu_channel u = c /\ lu_conflate u = k) l.
Definition published_in (f : fates) : list LiveUpdate :=
  omap (fun p => if decide (p.1 = Published) then Some p.2 else None) f.

Lemma line_app c k l m : line c k (l ++ m) = line c k l ++ line c k m.
Proof. apply filter_app. Qed.
Lemma published_app f g : published_in (f ++ g) = published_in f ++ published_in g.
Proof. apply omap_app. Qed.

(** What one step does with the updates it meets. *)
Record moved (r r' : SinkRun) (f : fates) (new : list LiveUpdate) : Prop := {
  mv_wf : run_wf r';
  mv_all : f.*2 ++ held r' ≡ₚ held r ++ new;
  mv_order c k : (line c k (published_in f ++ held r')) `sublist_of` (line c k (held r ++ new));
  mv_counted : counted (sink r) (sink r') f;
  mv_vehicle : vehicle (sink r') = vehicle (sink r)
}.

Lemma od_set_place {K V : Type} `{EqK : EqDecision K} (k : K) (v w : V) d :
  od_wf d -> od_get k d = Some v ->
  exists A B, d = A ++ (k, v) :: B /\ od_set k w d = A ++ (k, w) :: B /\ (k ∉ od_keys A) /\ (k ∉ od_keys B).
Proof.
  unfold od_wf, od_keys; induction d as [|[k' v'] d IH]; [done|]. simpl. intros [Hni Hnd]%NoDup_cons.
  case_decide as E.
  - intros [= ->]. subst k'. exists [], d. split_and!; try done. apply not_elem_of_nil.
  - intros Hg. destruct (IH Hnd Hg) as (A & B & -> & -> & H1 & H2). exists ((k', v') :: A), B.
    split_and!; [done | done | | done]. simpl. rewrite not_elem_of_cons. by split.
Qed.

Lemma od_set_absent {K V : Type} `{EqK : EqDecision K} (k : K) (v : V) d :
  od_get k d = None -> od_set k v d = d ++ [(k, v)].
Proof. induction d as [|[k' v'] d IH]; simpl; [done|]. case_decide; [done|]. intros Hg; by rewrite IH. Qed.

Lemma line_sublist c k l m : l `sublist_of` m -> (line c k l) `sublist_of` (line c k m).
Proof.
  unfold line. induction 1 as [|x l m H IH|x l m H IH]; [done| |]; rewrite ?filter_cons; case_decide; try done.
  - by constructor.
  - by constructor.
Qed.
Lemma line_one c k u : line c k [u] = if decide (lu_channel u = c /\ lu_conflate u = k) then [u] else [].
Proof. done. Qed.
Lemma line_cons c k u l : line c k (u :: l) = line c k [u] ++ line c k l.
Proof. apply (line_app c k [u] l). Qed.

(** The table holds no unlimited update. *)
Lemma line_limited c d :
  Forall (fun kv : string * LiveUpdate => lu_channel kv.2 = kv.1 /\ lu_conflate kv.2 = true) d -> line c false d.*2 = [].
Proof.
  induction d as [|[k' u] d IH]; [done|]. intros [[_ H1] H2]%Forall_cons. rewrite fmap_cons, line_cons, IH by done.
  rewrite line_one, decide_False; [done|]. cbn [snd] in *. intros [_ Hc]. congruence.
Qed.

(** No update of the channel in a table without its key. *)
Lemma line_absent c d :
  Forall (fun kv : string * LiveUpdate => lu_channel kv.2 = kv.1 /\ lu_conflate kv.2 = true) d ->
  c ∉ od_keys d -> forall k, line c k d.*2 = [].
Proof.
  unfold od_keys. induction d as [|[k' u] d IH]; [done|]. intros [[H1 _] H2]%Forall_cons Hni k.
  simpl in Hni. apply not_elem_of_cons in Hni as [Hne Hni]. cbn [fst snd] in H1. unfold line. rewrite fmap_cons, filter_cons.
  rewrite decide_False; [by apply IH|]. cbn [snd]. intros [Hc _]. congruence.
Qed.

(** * One step *)

(** A step of the queue alone: the update in flight is not touched. *)
Lemma queue_moved r s f new :
  run_wf r -> connected s = connected (sink r) -> vehicle s = vehicle (sink r) -> queue_wf s ->
  f.*2 ++ queued_updates s ≡ₚ queued_updates (sink r) ++ new ->
  (forall c k, (line c k (queued_updates s)) `sublist_of` (line c k (queued_updates (sink r) ++ new))) ->
  published_in f = [] -> counted (sink r) s f ->
  moved r (mkRun s (at_ r) (backoff r) (connected_once r)) f new.
Proof.
  intros [_ Hc] E1 E2 E3 E4 E5 E6 E7. split; cbn [sink]; [split; cbn; [done|by rewrite E1] | | | done | done];
    unfold held; cbn [sink]; unfold in_flight; cbn [at_]; fold (in_flight r).
  - rewrite <- app_assoc, <- E4, !app_assoc. f_equiv. apply Permutation_app_comm.
  - intros c k. rewrite E6. simpl. rewrite <- app_assoc, !(line_app c k (in_flight r)). by apply sublist_app.
Qed.

Lemma submit_moved r u :
  run_wf r -> let '(r', f) := run_step r (Submit u) in moved r r' f [u].
Proof.
  intros Hwf. pose proof Hwf as [(W1 & W2 & W3 & W4 & W5) Hc]. cbn [run_step]. unfold submit.
  assert (Hdrop : moved r (mkRun (drop_update (sink r) u) (at_ r) (backoff r) (connected_once r)) [(Dropped, u)] [u]).
  { apply queue_moved; try done; [apply (Permutation_app_comm [u]) | | apply drop_counted].
    intros c k. rewrite line_app. by apply sublist_inserts_r. }
  destruct (connected (sink r)) eqn:Econ; cbn [negb]; [|exact Hdrop].
  destruct (if lu_conflate u then _ else None) as [old|] eqn:Eold.
  - destruct (lu_conflate u) eqn:Ecf; [|done].
    destruct (od_set_place _ old u _ W1 Eold) as (A & B & EL & ES & HA & HB).
    rewrite EL in W2. apply Forall_app in W2 as [WA [[Hold _] WB]%Forall_cons]. cbn [fst snd] in Hold.
    apply queue_moved; try done.
    + split_and!; cbn [_limited _unlimited with_queues sink_suppress mqtt_queue_size connected]; try done; [by apply od_set_wf | | |].
      * rewrite ES. apply Forall_app; split; [done|]. by constructor.
      * intros H. specialize (W4 H). revert W4. unfold pending_count. cbn. rewrite ES, EL, !length_app. simpl. lia.
      * by rewrite Econ.
    + unfold queued_updates; cbn [_limited _unlimited with_queues sink_suppress]. rewrite ES, EL, !fmap_app, !fmap_cons. cbn [snd fmap list_fmap].
      solve_Permutation.
    + intros c k. unfold queued_updates; cbn [_limited _unlimited with_queues sink_suppress].
      rewrite ES, EL, !fmap_app, !fmap_cons, !line_app. cbn [snd]. rewrite <- !app_assoc. apply sublist_app; [done|].
      rewrite (line_cons c k u B.*2), (line_cons c k old).
      destruct (decide (lu_channel u = c /\ lu_conflate u = k)) as [[<- _]|Hno].
      * rewrite (line_absent _ A WA HA), (line_absent _ B WB HB). simpl. rewrite app_nil_r. rewrite line_one.
        by apply sublist_inserts_l.
      * rewrite (line_one c k u), decide_False by done. rewrite app_nil_r. simpl. apply sublist_app; [done|]. by apply sublist_inserts_l.
    + split; intros; cbn -[total tally count_of add_count]; rewrite ?count_add, ?total_one, ?tally_one, ?Hold; repeat case_decide; done || lia.
  - destruct (mqtt_queue_size (sink r) <=? pending_count (sink r)) eqn:Efull; [exact Hdrop|].
    destruct (lu_conflate u) eqn:Ecf.
    + rewrite (od_set_absent _ _ _ Eold). apply queue_moved; try done.
      * split_and!; cbn [_limited _unlimited with_queues mqtt_queue_size connected]; try done.
        -- rewrite <- od_set_absent by done. by apply od_set_wf.
        -- apply Forall_app; split; [done|]. by repeat constructor.
        -- apply Z.leb_gt in Efull. unfold pending_count in *. cbn [_limited _unlimited with_queues]. rewrite length_app. cbn [length]. lia.
        -- by rewrite Econ.
      * unfold queued_updates; cbn [_limited _unlimited with_queues]. by rewrite fmap_app, (app_assoc (_unlimited (sink r))).
      * intros c k. unfold queued_updates; cbn [_limited _unlimited with_queues]. by rewrite fmap_app, app_assoc.
      * by apply counted_quiet.
    + apply queue_moved; try done.
      * split_and!; cbn [_limited _unlimited with_queues mqtt_queue_size connected]; try done.
        -- apply Forall_app; split; [done|]. by repeat constructor.
        -- apply Z.leb_gt in Efull. unfold pending_count in *. cbn [_limited _unlimited with_queues]. rewrite length_app. cbn [length]. lia.
        -- by rewrite Econ.
      * unfold queued_updates; cbn [_limited _unlimited with_queues]. solve_Permutation.
      * intros c k. unfold queued_updates; cbn [_limited _unlimited with_queues].
        rewrite !line_app, <- !app_assoc. apply sublist_app; [done|]. rewrite line_one. case_decide as E; [|by rewrite app_nil_r].
        destruct E as [<- <-]. rewrite Ecf, (line_limited _ _ W2). done.
      * by apply counted_quiet.
Qed.

Lemma moved_refl r : run_wf r -> moved r r [] [].
Proof. intros Hwf. split; [done | by rewrite app_nil_r | intros c k; by rewrite app_nil_r | apply counted_refl | done]. Qed.

(** The queue is given up: all of it is dropped, and nothing is published. *)
Lemma drop_moved r at' b once :
  run_wf r -> in_flight r = [] -> at' = Offline \/ at' = Ended ->
  let '(s, f) := _drop_queued (set_connected false (sink r)) in moved r (mkRun s at' b once) f [].
Proof.
  intros _ Hfl Hat. unfold _drop_queued.
  set (s0 := with_queues [] [] (set_connected false (sink r))). set (l := queued_updates (set_connected false (sink r))).
  destruct (drop_all l s0) as (H1 & H2 & H3 & H4 & H5 & H6). set (s' := fold_left _ l s0) in *.
  assert (Hq : queued_updates s' = []) by (unfold queued_updates; by rewrite H5, H6).
  assert (Hin : in_flight (mkRun s' at' b once) = []) by (unfold in_flight; by destruct Hat as [-> | ->]).
  assert (Hp : published_in (map (pair Dropped) l) = []) by (clear; induction l; done).
  assert (Hsnd : (map (pair Dropped) l).*2 = l) by (clear; induction l as [|u l IH]; [done|]; cbn [map]; by rewrite fmap_cons, IH).
  split; cbn [sink].
  - split; cbn [sink at_]; [split_and!|].
    + rewrite H5. constructor.
    + by rewrite H5.
    + by rewrite H6.
    + unfold pending_count. rewrite H5, H6. simpl. lia.
    + by rewrite H5, H6.
    + rewrite H4. cbn. split; [done|]. intros [? ?]. by destruct Hat.
  - rewrite Hsnd. unfold held. rewrite Hin, Hfl. cbn [sink]. by rewrite Hq, !app_nil_r.
  - intros c k. rewrite Hp. unfold held. rewrite Hin. cbn [sink]. rewrite Hq. apply sublist_nil_l.
  - by apply (counted_trans _ s0 _ []); [apply counted_quiet|].
  - by rewrite H2.
Qed.

(** The update that leaves the queue. *)
Lemma next_spec s s' o :
  queue_wf s -> _next_pending s = (s', o) ->
  match o with
  | None => s' = s
  | Some u => queue_wf s' /\ queued_updates s = u :: queued_updates s' /\ health s' = health s /\
      sk_suppressed s' = sk_suppressed s /\ connected s' = connected s /\ vehicle s' = vehicle s
  end.
Proof.
  intros (W1 & W2 & W3 & W4 & W5). unfold _next_pending, queued_updates. destruct (_unlimited s) as [|u rest] eqn:EU.
  - destruct (_limited s) as [|[c u] rest] eqn:EL; intros [= <- <-]; [done|].
    split; [|done]. split_and!; cbn [with_queues _limited _unlimited mqtt_queue_size connected]; try done.
    + by apply NoDup_cons in W1 as [_ W1].
    + by apply Forall_cons in W2 as [_ W2].
    + intros H. specialize (W4 H). unfold pending_count in *. rewrite EL, EU in W4. cbn in *. lia.
    + intros H. by destruct (W5 H).
  - intros [= <- <-]. split; [|done].
    split_and!; cbn [with_queues _limited _unlimited mqtt_queue_size connected]; try done.
    + by apply Forall_cons in W3 as [_ W3].
    + intros H. specialize (W4 H). unfold pending_count in *. rewrite EU in W4. cbn in *. lia.
    + intros H. by destruct (W5 H).
Qed.

(** The update in flight, or at the head of the queue, gets its fate; if it is
    not published the queue behind it is untouched all the same. *)
Lemma head_moved r s at' b once f u :
  run_wf r -> at_ r <> Offline -> at_ r <> Ended -> held r = u :: queued_updates s -> queue_wf s ->
  connected s = connected (sink r) -> vehicle s = vehicle (sink r) ->
  (f.*2 ++ in_flight (mkRun s at' b once) = [u] /\ published_in f ++ in_flight (mkRun s at' b once) `sublist_of` [u]) ->
  at' <> Offline -> at' <> Ended -> counted (sink r) s f -> moved r (mkRun s at' b once) f [].
Proof.
  intros [_ Hc] N1 N2 Hh Hwf E1 E2 [H1 H2] M1 M2 Hcn. split; cbn [sink]; try done.
  - split; cbn [sink at_]; [done|]. rewrite E1, Hc. tauto.
  - unfold held at 1. cbn [sink]. by rewrite app_assoc, H1, Hh, app_nil_r.
  - intros c k. unfold held at 1. cbn [sink]. rewrite app_assoc, line_app, Hh, app_nil_r, line_cons.
    apply sublist_app; [|done]. by apply line_sublist.
Qed.

Definition submitted (st : sink_step) : list LiveUpdate := match st with Submit u => [u] | _ => [] end.

Lemma turn_moved r : run_wf r -> at_ r = Serving -> let '(r', f) := turn r in moved r r' f [].
Proof.
  intros Hwf Hat. unfold turn. destruct (_next_pending (sink r)) as [s o] eqn:En.
  pose proof (next_spec _ _ _ (proj1 Hwf) En) as Hn. destruct o as [u|]; [|by apply moved_refl].
  destruct Hn as (N1 & N2 & N3 & N4 & N5 & N6).
  assert (Hh : held r = u :: queued_updates s) by (unfold held, in_flight; by rewrite Hat, N2).
  assert (Hq : forall f : HealthState -> HealthState, queued_updates (with_health f s) = queued_updates s) by done.
  destruct (mqtt_message (vehicle s) u) as [m|e]; [|destruct (unpublishable e)].
  - eapply head_moved; eauto; rewrite ?Hat; try done. apply counted_quiet; by rewrite ?N3.
  - eapply head_moved; rewrite ?Hat; eauto; try done. cbn. split; [done | apply sublist_nil_l].
    by_tally; rewrite ?N3, ?N4; lia.
  - eapply head_moved; rewrite ?Hat; eauto; try done. cbn. split; [done | apply sublist_nil_l].
    by_tally; rewrite ?N3, ?N4; lia.
Qed.

Lemma run_step_moved r st : run_wf r -> let '(r', f) := run_step r st in moved r r' f (submitted st).
Proof.
  intros Hwf. pose proof (submit_moved r) as Hsub. pose proof (moved_refl r Hwf) as Hrefl.
  pose proof (turn_moved r Hwf) as Hturn.
  pose proof (fun at' b once => drop_moved r at' b once Hwf) as Hdrop. unfold in_flight in Hdrop.
  destruct st as [u| | | |ok| |].
  - by apply Hsub.
  - cbn [run_step submitted]. destruct (at_ r) eqn:Hat; try exact Hrefl.
    destruct Hwf as [(W1 & W2 & W3 & W4 & W5) Hc].
    assert (Hoff : connected (sink r) = false) by (apply not_true_iff_false; rewrite Hc, Hat; naive_solver).
    destruct (W5 Hoff) as [L1 L2]. split; cbn [sink].
    + split; [split_and!|]; destruct (connected_once r); cbn; done.
    + unfold held, in_flight, queued_updates. rewrite Hat. by destruct (connected_once r); cbn; rewrite L1, L2.
    + intros c k. unfold held, in_flight, queued_updates. rewrite Hat. by destruct (connected_once r); cbn; rewrite L1, L2.
    + destruct (connected_once r); [by_tally | by apply counted_quiet].
    + by destruct (connected_once r).
  - cbn [run_step submitted]. destruct (at_ r) eqn:Hat; try exact Hrefl. unfold unavailable.
    specialize (Hdrop Offline (doubled (backoff r) _CONNECT_BACKOFF_MAX_S) (connected_once r) eq_refl (or_introl eq_refl)).
    by destruct (_drop_queued _).
  - cbn [run_step submitted]. destruct (at_ r) eqn:Hat; try exact Hrefl. by apply Hturn.
  - cbn [run_step submitted]. destruct (at_ r) as [| |u| |] eqn:Hat; try by destruct ok.
    assert (Hh : held r = u :: queued_updates (sink r)) by (unfold held, in_flight; by rewrite Hat).
    pose proof (proj1 Hwf) as Hq.
    destruct ok; eapply head_moved; rewrite ?Hat; eauto; try done; try (cbn; split; [done | first [done | apply sublist_nil_l]]); by_tally.
  - cbn [run_step submitted]. destruct (at_ r) eqn:Hat; try exact Hrefl. unfold unavailable.
    specialize (Hdrop Offline (doubled (backoff r) _CONNECT_BACKOFF_MAX_S) (connected_once r) eq_refl (or_introl eq_refl)).
    by destruct (_drop_queued _).
  - cbn [run_step submitted]. specialize (Hdrop Ended (backoff r) (connected_once r)).
    destruct (at_ r) eqn:Hat; try exact Hrefl; specialize (Hdrop eq_refl (or_intror eq_refl)); by destruct (_drop_queued _).
Qed.

(** The bound of the queue never changes. *)
Lemma drop_all_size s : mqtt_queue_size (_drop_queued s).1 = mqtt_queue_size s.
Proof. unfold _drop_queued. cbn [fst]. by destruct (drop_all (queued_updates s) (with_queues [] [] s)) as (_ & _ & -> & _). Qed.

Lemma next_size s : mqtt_queue_size (_next_pending s).1 = mqtt_queue_size s.
Proof. unfold _next_pending. by repeat case_match. Qed.

Lemma run_step_size r st : mqtt_queue_size (sink (run_step r st).1) = mqtt_queue_size (sink r).
Proof.
  pose proof (drop_all_size (set_connected false (sink r))) as Hd. pose proof (next_size (sink r)) as Hn.
  unfold run_step, submit, unavailable, turn. destruct (_drop_queued _), (_next_pending _). cbn in Hd, Hn.
  by repeat (case_match; simplify_eq/=).
Qed.

Lemma moved_trans r1 r2 r3 f g new1 new2 :
  moved r1 r2 f new1 -> moved r2 r3 g new2 -> moved r1 r3 (f ++ g) (new1 ++ new2).
Proof.
  intros [A1 A2 A3 A4 A5] [B1 B2 B3 B4 B5]. split; [done | | | by eapply counted_trans | congruence].
  - by rewrite fmap_app, <- app_assoc, B2, !app_assoc, A2.
  - intros c k. rewrite published_app, <- app_assoc, line_app.
    etransitivity; [apply sublist_app; [reflexivity | apply B3]|].
    rewrite <- line_app, !app_assoc, (line_app _ _ _ new2), (line_app _ _ (held r1 ++ new1)). by apply sublist_app.
Qed.

Definition submissions (sts : list sink_step) : list LiveUpdate := concat (map submitted sts).

Lemma sink_run_snoc r sts st :
  sink_run r (sts ++ [st]) =
  let '(r1, f) := run_step (sink_run r sts).1 st in (r1, (sink_run r sts).2 ++ f).
Proof. unfold sink_run. by rewrite fold_left_app. Qed.

Lemma sink_run_moved r sts : run_wf r -> moved r (sink_run r sts).1 (sink_run r sts).2 (submissions sts).
Proof.
  intros Hwf. induction sts as [|st sts IH] using rev_ind; [by apply moved_refl|].
  rewrite sink_run_snoc. pose proof (run_step_moved _ st (mv_wf _ _ _ _ IH)) as Hst.
  destruct (run_step _ st) as [r1 f]. cbn [fst snd]. unfold submissions. rewrite map_app, concat_app. cbn [map concat].
  rewrite app_nil_r. by eapply moved_trans.
Qed.

Lemma init_run_wf name size h : 0 <= size -> run_wf (sink_run_init (sink_init name size h)).
Proof.
  intros Hs. split; [split_and!; cbn; try done|].
  - constructor.
  - split; [done|]. by intros [H _].
Qed.

Lemma sink_run_size r sts : mqtt_queue_size (sink (sink_run r sts).1) = mqtt_queue_size (sink r).
Proof.
  induction sts as [|st sts IH] using rev_ind; [done|]. rewrite sink_run_snoc.
  pose proof (run_step_size (sink_run r sts).1 st) as H. destruct (run_step _ st); simpl in *. congruence.
Qed.

(** Whatever the broker does, every update submitted is published, dropped,
    superseded, invalid, failed, escaped, in flight or queued, exactly once;
    the queue keeps its bound; and the counters say which: a drop is counted
    for the service and its channel, a superseded value for its channel, a
    failed publish for the service alone, and an escaped one nowhere. *)
Theorem sink_accounts name size now sts :
  0 <= size ->
  let '(r, f) := sink_run (sink_run_init (sink_init name size (health_init now))) sts in
  f.*2 ++ held r ≡ₚ submissions sts /\
  pending_count (sink r) <= size /\
  counts (health (sink r)) H_mqtt_drops = total Dropped f + total Failed f /\
  counts (health (sink r)) H_invalid_values = total Invalid f /\
  (forall c, count_of (h_published (health (sink r))) c = tally Published c f) /\
  (forall c, count_of (sk_suppressed (sink r)) c = tally Dropped c f + tally Superseded c f).
Proof.
  intros Hs. set (r0 := sink_run_init _). pose proof (sink_run_moved r0 sts (init_run_wf name size _ Hs)) as [M1 M2 M3 [C1 C2 C3 C4] M5].
  pose proof (sink_run_size r0 sts) as Hsz. destruct (sink_run r0 sts) as [r f]. cbn [fst snd] in *.
  split_and!; [done | | done | done | done | done].
  destruct M1 as [(_ & _ & _ & W4 & _) _]. rewrite Hsz in W4. by apply W4.
Qed.

(** A channel's values leave in the order they came: what is published of it,
    then what is in flight and queued, is a subsequence of what was submitted. *)
Theorem sink_never_goes_back name size now sts c k :
  0 <= size ->
  let '(r, f) := sink_run (sink_run_init (sink_init name size (health_init now))) sts in
  (line c k (published_in f ++ held r)) `sublist_of` (line c k (submissions sts)).
Proof.
  intros Hs. set (r0 := sink_run_init _). pose proof (sink_run_moved r0 sts (init_run_wf name size _ Hs)) as [_ _ M3 _ _].
  destruct (sink_run r0 sts) as [r f]. exact (M3 c k).
Qed.
End Sink.

(** * A bridge at work *)
Module Bridge.
Definition dumps (o : obj) : string := "{}".
Definition gauge (v : Z) : LiveUpdate := mkUpdate "engine.rpm" (f_of_Z 1000) (Some (VInt v)) true.
Definition fix_ (v : Z) : LiveUpdate := mkUpdate "gps.fix" (f_of_Z 1000) (Some (VInt v)) false.
Definition huge : LiveUpdate := mkUpdate "lap.last_time" (f_of_Z 1000) (Some (VFloat (f_of_Z (2 ^ 1020)))) false.
Definition start : SinkRun := sink_run_init (sink_init "car" 2 (health_init f0)).
Definition steps : list sink_step :=
  [Submit (gauge 1); Opened; Submit (gauge 2); Submit (gauge 3); Submit (fix_ 1); Submit (fix_ 2);
   Turn; Answered true; Turn; Submit (gauge 4); Answered false; Left].
End Bridge.

(** Offline, the first value is dropped; the third supersedes the second; the
    queue is full for the second fix; the fix leaves first; and the value
    whose publish fails takes the queue with it. *)
Lemma sink_accounts_witness :
  (sink_run Bridge.dumps Bridge.start Bridge.steps).2 =
    [(Dropped, Bridge.gauge 1); (Superseded, Bridge.gauge 2); (Dropped, Bridge.fix_ 2); (Published, Bridge.fix_ 1);
     (Failed, Bridge.gauge 3); (Dropped, Bridge.gauge 4)] /\
  let '(r, f) := sink_run Bridge.dumps Bridge.start Bridge.steps in
  f.*2 ++ held r ≡ₚ submissions Bridge.steps /\
  pending_count (sink r) <= 2 /\
  counts (health (sink r)) H_mqtt_drops = total Dropped f + total Failed f /\
  counts (health (sink r)) H_invalid_values = total Invalid f /\
  (forall c, count_of (h_published (health (sink r))) c = tally Published c f) /\
  (forall c, count_of (sk_suppressed (sink r)) c = tally Dropped c f + tally Superseded c f).
Proof. split; [vm_compute; reflexivity|]. apply (sink_accounts Bridge.dumps "car" 2 f0 Bridge.steps). lia. Defined.

Lemma sink_never_goes_back_witness :
  let '(r, f) := sink_run Bridge.dumps Bridge.start Bridge.steps in
  (line "engine.rpm" true (published_in f ++ held r)) `sublist_of` (line "engine.rpm" true (submissions Bridge.steps)).
Proof. apply (sink_never_goes_back Bridge.dumps "car" 2 f0 Bridge.steps "engine.rpm" true). lia. Defined.

(** A finite lap time too large for its display leaves the loop as a broker
    failure: the connection and the queue behind it are lost, and the value
    itself is counted nowhere. *)
Example huge_lap_time_drops_the_connection :
  let '(r, f) := sink_run Bridge.dumps Bridge.start [Opened; Submit Bridge.huge; Submit (Bridge.gauge 1); Turn; Left] in
  f = [(Escaped, Bridge.huge); (Dropped, Bridge.gauge 1)] /\ at_ r = Offline /\
  counts (health (sink r)) H_mqtt_drops = 1 /\ counts (health (sink r)) H_invalid_values = 0 /\
  count_of (sk_suppressed (sink r)) "lap.last_time" = 0.
Proof. vm_compute. repeat split. Qed.
