(* ===== verification/PitSettings.v ===== *)
(** What the pit services read from their environment: each [from_env] of
    [src/pit], with [pit/db/dsn.py].

    An environment is a dictionary of strings. [psycopg.conninfo] and
    [ipaddress] are parameters: the connection string of some parts, and
    whether a text is an address of the loopback network ([None] where the
    text is no address). A path is its text. *)

From S2P Require Import Prelude PyFloat PyText Strategy.

Local Open Scope Z_scope.

Abbreviation environ := (list (string * string)).

(** [env.get(key, default)], bare, stripped, and with blank for unset. *)
Definition env_get (env : environ) (key unset : string) : string := default unset (od_get key env).
Definition env_strip (env : environ) (key unset : string) : string := strip (env_get env key unset).
Definition or_none (s : string) : option string := match s with EmptyString => None | _ => Some s end.
Definition is_blank (s : string) : bool := String.eqb s "".

Definition int_of (text : string) : res Z :=
  match py_int text with Some z => Ok z | None => raise ValueError ("invalid literal for int() with base 10: " +:+ repr_str text) end.
Definition float_of (text : string) : res float :=
  match py_float text with Some x => Ok x | None => raise ValueError ("could not convert string to float: " +:+ repr_str text) end.

Definition check (ok : bool) (msg : string) : res unit := if ok then Ok () else raise ValueError msg.
Definition in_range (lo n hi : Z) : bool := (lo <=? n) && (n <=? hi).

(** [number]: a blank variable is the default; what is not positive is
    refused where it has to be. *)
Definition number (env : environ) (name unset : string) (positive : bool) : res float :=
  value ← float_of (str_or (env_strip env name unset) unset);
  if positive && fleb value f0 then raise ValueError (name +:+ " must be positive") else Ok value.

(** The timing feed's says what was wrong in its own words. *)
Definition feed_number (env : environ) (name unset : string) (positive : bool) : res float :=
  match float_of (str_or (env_strip env name unset) unset) with
  | Raise e => match exn_kind e with ValueError => raise ValueError (name +:+ " must be a number") | _ => Raise e end
  | Ok value => if positive && fleb value f0 then raise ValueError (name +:+ " must be positive") else Ok value
  end.

(** * The database's connection string *)

Section Settings.
Context (make_conninfo : list (string * string) -> string) (conninfo_to_dict : string -> option (list (string * string))).
Context (ip_is_loopback : string -> option bool).

Definition DEFAULT_DB_PORT : string := "5432".

Definition dsn_from_env (env : environ) : res string :=
  let dsn := env_strip env "TIMESCALE_DSN" "" in
  if negb (is_blank dsn) then Ok dsn
  else
    let host := env_strip env "TIMESCALE_HOST" "" in
    let port := str_or (env_strip env "TIMESCALE_PORT" "") DEFAULT_DB_PORT in
    let dbname := env_strip env "TIMESCALE_DB" "" in
    let user := env_strip env "TIMESCALE_USER" "" in
    let password := env_get env "TIMESCALE_PASSWORD" "" in
    let required := [("TIMESCALE_HOST", host); ("TIMESCALE_DB", dbname); ("TIMESCALE_USER", user)] in
    let missing := map fst (List.filter (fun kv => is_blank kv.2) required) in
    match missing with
    | _ :: _ =>
        raise ValueError ("TimescaleDB is not configured: set TIMESCALE_DSN, or all of " +:+ join ", " missing +:+
          " (see example.env)")
    | [] =>
        Ok (make_conninfo ([("host", host); ("port", port); ("dbname", dbname); ("user", user)] ++
              (if is_blank password then [] else [("password", password)])))
    end.

Definition redacted (dsn : string) : string :=
  match conninfo_to_dict dsn with
  | None => "<unparseable dsn>"
  | Some parts =>
      make_conninfo (match od_get "password" parts with
                     | None => parts
                     | Some _ => od_del "password" parts ++ [("password", "***")]
                     end)
  end.

(** * The services *)

Definition VEHICLE_KEY : string := "OPENLAPS_VEHICLE_ID".
Definition required_vehicle (env : environ) (msg : string) : res string :=
  let vehicle := env_strip env VEHICLE_KEY "" in
  if is_blank vehicle then raise ValueError msg else Ok vehicle.

Record WriterSettings := mkWriter {
  w_nats_url : string;
  w_vehicle_id : string;
  w_dsn : string;
  w_stream : string;
  w_durable : string;
  w_creds_path : option string;
  w_batch_rows : Z;
  w_flush_interval_s : float;
  w_fetch_batch : Z;
  w_max_ack_pending : Z;
  w_max_buffered_rows : Z;
  w_ack_wait_s : float;
  w_health_port : Z
}.

Definition writer_from_env (env : environ) : res WriterSettings :=
  vehicle ← required_vehicle env "OPENLAPS_VEHICLE_ID is required (see example.env)";
  let nats := env_strip env "OPENLAPS_NATS_URL" "nats://127.0.0.1:4222" in
  dsn ← dsn_from_env env;
  batch_rows ← int_of (env_get env "OPENLAPS_INGEST_BATCH_ROWS" "5000");
  flush_ms ← int_of (env_get env "OPENLAPS_INGEST_FLUSH_MS" "200");
  flush ← float_of_int flush_ms;
  fetch_batch ← int_of (env_get env "OPENLAPS_INGEST_FETCH_BATCH" "500");
  max_ack ← int_of (env_get env "OPENLAPS_INGEST_MAX_ACK_PENDING" "2000");
  max_rows ← int_of (env_get env "OPENLAPS_INGEST_MAX_BUFFERED_ROWS" "200000");
  ack_wait ← float_of (env_get env "OPENLAPS_INGEST_ACK_WAIT_S" "30");
  health_port ← int_of (env_get env "OPENLAPS_INGEST_HEALTH_PORT" "8081");
  Ok (mkWriter nats vehicle dsn (env_strip env "OPENLAPS_INGEST_STREAM" "TELE_VEHICLE")
        (env_strip env "OPENLAPS_INGEST_DURABLE" "ingest-writer") (or_none (env_strip env "OPENLAPS_NATS_CREDS" ""))
        batch_rows (fdiv_ieee flush (f_of_Z 1000)) fetch_batch max_ack max_rows ack_wait health_port).

Record LiveDecoderSettings := mkLiveSettings {
  l_config_path : string;
  l_nats_url : string;
  l_stream : string;
  l_mqtt_host : string;
  l_mqtt_port : Z;
  l_nats_creds_path : option string;
  l_mqtt_username : option string;
  l_mqtt_password : option string;
  l_health_port : Z;
  l_config_poll_s : float;
  l_mqtt_queue_size : Z;
  l_vehicle_id : option string
}.

(** [a or b]. *)
Definition given_or (given : option string) (other : string) : string :=
  match given with Some (String _ _ as g) => g | _ => other end.

Definition live_from_env (env : environ) (config_path : option string) : res LiveDecoderSettings :=
  let configured := given_or config_path (env_get env "OPENLAPS_LIVE_CONFIG" "deploy/pit-config/live-decoder.yaml") in
  poll_s ← float_of (env_get env "OPENLAPS_LIVE_CONFIG_POLL_S" "5");
  queue_size ← int_of (env_get env "OPENLAPS_LIVE_MQTT_QUEUE_SIZE" "1000");
  port ← int_of (env_get env "OPENLAPS_MQTT_PORT" "1883");
  health_port ← int_of (env_get env "OPENLAPS_LIVE_HEALTH_PORT" "8082");
  let stream := env_strip env "OPENLAPS_LIVE_STREAM" "TELE_VEHICLE" in
  _ ← check (negb (is_blank stream)) "OPENLAPS_LIVE_STREAM must name the pit's sourced stream";
  _ ← check (negb (fleb poll_s f0)) "OPENLAPS_LIVE_CONFIG_POLL_S must be greater than zero";
  _ ← check (0 <? queue_size) "OPENLAPS_LIVE_MQTT_QUEUE_SIZE must be greater than zero";
  _ ← check (in_range 1 port 65535) "OPENLAPS_MQTT_PORT must be between 1 and 65535";
  _ ← check (in_range 0 health_port 65535) "OPENLAPS_LIVE_HEALTH_PORT must be between 0 and 65535";
  Ok (mkLiveSettings configured (env_strip env "OPENLAPS_NATS_URL" "nats://127.0.0.1:4222") stream
        (env_strip env "OPENLAPS_MQTT_HOST" "127.0.0.1") port (or_none (env_strip env "OPENLAPS_NATS_CREDS" ""))
        (or_none (env_strip env "OPENLAPS_MQTT_USERNAME" "")) (or_none (env_get env "OPENLAPS_MQTT_PASSWORD" ""))
        health_port poll_s queue_size (or_none (env_strip env VEHICLE_KEY ""))).

Record TimingServiceSettings := mkTimingSettings {
  x_config_path : string;
  x_nats_url : string;
  x_stream : string;
  x_nats_creds_path : option string;
  x_mqtt_host : string;
  x_mqtt_port : Z;
  x_mqtt_username : option string;
  x_mqtt_password : option string;
  x_health_port : Z;
  x_vehicle_id : option string
}.

Definition extrapolator_from_env (env : environ) (config_path : option string) : res TimingServiceSettings :=
  let stream := env_strip env "OPENLAPS_TIMING_STREAM" "TELE_VEHICLE" in
  _ ← check (negb (is_blank stream)) "OPENLAPS_TIMING_STREAM must name the pit sourced stream";
  port ← int_of (env_get env "OPENLAPS_MQTT_PORT" "1883");
  health_port ← int_of (env_get env "OPENLAPS_TIMING_HEALTH_PORT" "8084");
  _ ← check (in_range 1 port 65535) "OPENLAPS_MQTT_PORT must be between 1 and 65535";
  _ ← check (in_range 0 health_port 65535) "OPENLAPS_TIMING_HEALTH_PORT must be between 0 and 65535";
  Ok (mkTimingSettings
        (given_or config_path (env_get env "OPENLAPS_TIMING_CONFIG" "deploy/pit-config/timing-extrapolator.yaml"))
        (env_strip env "OPENLAPS_NATS_URL" "nats://127.0.0.1:4222") stream (or_none (env_strip env "OPENLAPS_NATS_CREDS" ""))
        (env_strip env "OPENLAPS_MQTT_HOST" "127.0.0.1") port (or_none (env_strip env "OPENLAPS_MQTT_USERNAME" ""))
        (or_none (env_get env "OPENLAPS_MQTT_PASSWORD" "")) health_port (or_none (env_strip env VEHICLE_KEY ""))).

Record WatchSettings := mkWatchSettings {
  a_config : string;
  a_vehicle : string;
  a_dsn : string;
  a_nats_url : string;
  a_stream : string;
  a_nats_creds : option string;
  a_mqtt_host : string;
  a_mqtt_port : Z;
  a_mqtt_username : option string;
  a_mqtt_password : option string;
  a_health_port : Z
}.

Definition watch_from_env (env : environ) : res WatchSettings :=
  vehicle ← required_vehicle env "OPENLAPS_VEHICLE_ID is required";
  dsn ← dsn_from_env env;
  port ← int_of (env_get env "OPENLAPS_MQTT_PORT" "1883");
  health_port ← int_of (env_get env "OPENLAPS_WATCH_HEALTH_PORT" "8090");
  Ok (mkWatchSettings (env_get env "OPENLAPS_WATCH_CONFIG" ("profiles/" +:+ vehicle +:+ "/watch.yaml")) vehicle dsn
        (env_get env "OPENLAPS_NATS_URL" "nats://127.0.0.1:4222") (env_get env "OPENLAPS_WATCH_STREAM" "TELE_VEHICLE")
        (or_none (env_get env "OPENLAPS_NATS_CREDS" "")) (env_get env "OPENLAPS_MQTT_HOST" "127.0.0.1") port
        (or_none (env_get env "OPENLAPS_MQTT_USERNAME" "")) (or_none (env_get env "OPENLAPS_MQTT_PASSWORD" "")) health_port).

Record NtripSettings := mkNtrip {
  n_nats_url : string;
  n_vehicle_id : string;
  n_host : string;
  n_port : Z;
  n_mountpoint : string;
  n_username : string;
  n_password : string;
  n_stream : string;
  n_creds_path : option string;
  n_enable_gga : bool;
  n_gga_interval_s : float;
  n_idle_timeout_s : float;
  n_health_port : Z
}.

Definition ntrip_from_env (env : environ) : res NtripSettings :=
  vehicle ← required_vehicle env "OPENLAPS_VEHICLE_ID is required (see example.env)";
  let host := env_strip env "NTRIP_HOST" "" in
  _ ← check (negb (is_blank host)) "NTRIP_HOST is required (see example.env)";
  let mountpoint := env_strip env "NTRIP_MOUNTPOINT" "" in
  _ ← check (negb (is_blank mountpoint)) "NTRIP_MOUNTPOINT is required (see example.env)";
  let stream := env_strip env "OPENLAPS_NTRIP_STREAM" "TELE_VEHICLE" in
  _ ← check (negb (is_blank stream)) "OPENLAPS_NTRIP_STREAM must name the pit's sourced stream";
  port ← int_of (str_or (env_get env "NTRIP_PORT" "2101") "2101");
  gga ← float_of (env_get env "NTRIP_GGA_INTERVAL_S" "10");
  idle ← float_of (env_get env "NTRIP_IDLE_TIMEOUT_S" "30");
  health_port ← int_of (env_get env "OPENLAPS_NTRIP_HEALTH_PORT" "8083");
  Ok (mkNtrip (env_strip env "OPENLAPS_NATS_URL" "nats://127.0.0.1:4222") vehicle host port mountpoint
        (env_strip env "NTRIP_USER" "") (env_strip env "NTRIP_PASSWORD" "") stream
        (or_none (env_strip env "OPENLAPS_NATS_CREDS" ""))
        (bool_decide (str_lower (env_strip env "NTRIP_ENABLE_GGA" "0") ∈ ["1"; "true"; "yes"])) gga idle health_port).

Record PitMonitorSettings := mkMonitor {
  m_dsn : string;
  m_interval_s : float;
  m_health_port : Z;
  m_disk_path : string;
  m_http_timeout_s : float;
  m_ntrip_health_url : option string;
  m_nats_monitor_url : option string
}.

Definition monitor_from_env (env : environ) : res PitMonitorSettings :=
  interval ← float_of (str_or (env_get env "OPENLAPS_PIT_MONITOR_INTERVAL_S" "5") "5");
  _ ← check (negb (fleb interval f0)) "OPENLAPS_PIT_MONITOR_INTERVAL_S must be positive";
  dsn ← dsn_from_env env;
  health_port ← int_of (str_or (env_get env "OPENLAPS_PIT_MONITOR_HEALTH_PORT" "8085") "8085");
  timeout ← float_of (str_or (env_get env "OPENLAPS_PIT_MONITOR_HTTP_TIMEOUT_S" "3") "3");
  Ok (mkMonitor dsn interval health_port (str_or (env_strip env "OPENLAPS_PIT_MONITOR_DISK_PATH" "/") "/") timeout
        (or_none (env_strip env "OPENLAPS_PIT_MONITOR_NTRIP_URL" "http://127.0.0.1:8083/health"))
        (or_none (env_strip env "OPENLAPS_PIT_MONITOR_NATS_URL" "http://127.0.0.1:8222"))).

Record StrategySettings := mkStrategy {
  s_dsn : string;
  s_vehicle_id : string;
  s_policy : StrategyPolicy;
  s_poll_s : float;
  s_pit_interval_s : float;
  s_max_interval_s : float;
  s_health_port : Z;
  s_mqtt_host : string;
  s_mqtt_port : Z;
  s_mqtt_username : option string;
  s_mqtt_password : option string
}.

(** [int(number(...))]. *)
Definition whole (env : environ) (name unset : string) (positive : bool) : res Z :=
  x ← number env name unset positive; f_trunc x.

Definition policy_from_env (env : environ) : res StrategyPolicy :=
  window ← whole env "OPENLAPS_STRATEGY_BURN_WINDOW_LAPS" "5" true;
  sigma ← number env "OPENLAPS_STRATEGY_BURN_SIGMA" "2" true;
  outlier ← number env "OPENLAPS_STRATEGY_OUTLIER_FRACTION" "0.2" true;
  margin ← number env "OPENLAPS_STRATEGY_DRIVER_MARGIN_S" "600" true;
  drift ← whole env "OPENLAPS_STRATEGY_PLAN_DRIFT_LAPS" "3" false;
  short ← number env "OPENLAPS_STRATEGY_SHORT_FILL_FRACTION" "0.1" true;
  warn ← whole env "OPENLAPS_STRATEGY_WINDOW_WARN_LAPS" "2" false;
  Ok (mkSPolicy window sigma outlier margin drift short warn (max_simulated_stops default_policy)).

Definition strategy_from_env (env : environ) : res StrategySettings :=
  vehicle ← required_vehicle env "OPENLAPS_VEHICLE_ID must name the car the pit watches";
  policy ← policy_from_env env;
  port ← whole env "OPENLAPS_MQTT_PORT" "1883" true;
  health_port ← whole env "OPENLAPS_STRATEGY_HEALTH_PORT" "8088" false;
  _ ← check (in_range 1 port 65535) "OPENLAPS_MQTT_PORT must be between 1 and 65535";
  _ ← check (in_range 0 health_port 65535) "OPENLAPS_STRATEGY_HEALTH_PORT must be between 0 and 65535";
  dsn ← dsn_from_env env;
  poll ← number env "OPENLAPS_STRATEGY_POLL_S" "2" true;
  pit ← number env "OPENLAPS_STRATEGY_PIT_INTERVAL_S" "5" true;
  most ← number env "OPENLAPS_STRATEGY_MAX_INTERVAL_S" "30" true;
  Ok (mkStrategy dsn vehicle policy poll pit most health_port
        (str_or (env_strip env "OPENLAPS_MQTT_HOST" "127.0.0.1") "127.0.0.1") port
        (or_none (env_strip env "OPENLAPS_MQTT_USERNAME" "")) (or_none (env_get env "OPENLAPS_MQTT_PASSWORD" ""))).

Record SessionControlSettings := mkControl {
  c_nats_url : string;
  c_vehicle_id : string;
  c_dsn : string;
  c_vehicle_js_domain : option string;
  c_creds_path : option string;
  c_state_file : string;
  c_roster_file : string;
  c_default_track : string;
  c_http_host : string;
  c_http_port : Z;
  c_api_key : option string
}.

Definition _is_loopback_host (host : string) : bool :=
  String.eqb (str_lower host) "localhost" || match ip_is_loopback host with Some b => b | None => false end.

Definition control_from_env (env : environ) : res SessionControlSettings :=
  vehicle ← required_vehicle env "OPENLAPS_VEHICLE_ID is required (see example.env)";
  let domain := env_strip env "OPENLAPS_VEHICLE_JS_DOMAIN" "veh" in
  let http_host := str_or (env_strip env "OPENLAPS_SESSION_HOST" "127.0.0.1") "127.0.0.1" in
  let api_key := or_none (env_strip env "OPENLAPS_SESSION_API_KEY" "") in
  _ ← check (_is_loopback_host http_host || match api_key with Some _ => true | None => false end)
        "OPENLAPS_SESSION_API_KEY is required for non-loopback HTTP binding";
  port ← int_of (env_get env "OPENLAPS_SESSION_PORT" "8080");
  _ ← check ((0 <? port) && (port <? 65536)) "OPENLAPS_SESSION_PORT must be between 1 and 65535";
  dsn ← dsn_from_env env;
  Ok (mkControl (env_strip env "OPENLAPS_NATS_URL" "nats://127.0.0.1:4222") vehicle dsn (or_none domain)
        (or_none (env_strip env "OPENLAPS_NATS_CREDS" ""))
        (env_get env "OPENLAPS_SESSION_STATE_FILE" "/data/session-state.json")
        (env_get env "OPENLAPS_SESSION_ROSTER" "/config/roster.json")
        (env_strip env "OPENLAPS_SESSION_DEFAULT_TRACK" "") http_host port api_key).

Record NotifierSettings := mkNotifierSettings {
  o_config_path : string;
  o_dsn : option string;
  o_host : string;
  o_port : Z;
  o_vehicle_id : option string;
  o_public_url : option string;
  o_ntfy_token : option string;
  o_discord_webhook : option string
}.

(** No database is a degraded notifier, not a dead one. *)
Definition notifier_from_env (env : environ) (config_path : option string) : res NotifierSettings :=
  port ← int_of (env_get env "OPENLAPS_NOTIFIER_PORT" "8086");
  _ ← check (in_range 0 port 65535) "OPENLAPS_NOTIFIER_PORT must be between 0 and 65535";
  dsn ← match dsn_from_env env with
        | Ok dsn => Ok (Some dsn)
        | Raise e => match exn_kind e with ValueError => Ok None | _ => Raise e end
        end;
  Ok (mkNotifierSettings (given_or config_path (env_get env "OPENLAPS_NOTIFIER_CONFIG" "deploy/pit-config/notifier.yaml")) dsn
        (str_or (env_strip env "OPENLAPS_NOTIFIER_HOST" "127.0.0.1") "127.0.0.1") port (or_none (env_strip env VEHICLE_KEY ""))
        (or_none (env_strip env "OPENLAPS_NOTIFIER_PUBLIC_URL" "")) (or_none (env_strip env "OPENLAPS_NTFY_TOKEN" ""))
        (or_none (env_strip env "OPENLAPS_DISCORD_WEBHOOK" ""))).

Definition DEFAULT_FEED_HOST : string := "natsoft.com.au".
Definition SOURCE_KINDS : list string := ["natsoft"; "replay"; "none"].

Record TimingFeedSettings := mkFeed {
  f_dsn : string;
  f_vehicle_id : string;
  f_source_kind : string;
  f_feed_host : string;
  f_feed_port : Z;
  f_replay_file : option string;
  f_replay_paced : bool;
  f_replay_speed : float;
  f_capture_dir : option string;
  f_http_port : Z;
  f_http_host : string;
  f_reconcile_s : float;
  f_lap_tolerance : Z;
  f_connect_timeout_s : float;
  f_idle_timeout_s : float
}.

Definition feed_whole (env : environ) (name unset : string) (positive : bool) : res Z :=
  x ← feed_number env name unset positive; f_trunc x.

Definition feed_from_env (env : environ) : res TimingFeedSettings :=
  vehicle ← required_vehicle env "OPENLAPS_VEHICLE_ID must name the car the pit watches";
  let kind := str_lower (str_or (env_strip env "OPENLAPS_TIMING_FEED_SOURCE" "natsoft") "natsoft") in
  _ ← check (bool_decide (kind ∈ SOURCE_KINDS)) ("OPENLAPS_TIMING_FEED_SOURCE must be one of " +:+ join ", " SOURCE_KINDS);
  feed_port ← feed_whole env "OPENLAPS_TIMING_FEED_HOST_PORT" "8889" true;
  http_port ← feed_whole env "OPENLAPS_TIMING_FEED_PORT" "8089" false;
  _ ← check (in_range 1 feed_port 65535) "OPENLAPS_TIMING_FEED_HOST_PORT must be between 1 and 65535";
  _ ← check (in_range 0 http_port 65535) "OPENLAPS_TIMING_FEED_PORT must be between 0 and 65535";
  let replay := or_none (env_strip env "OPENLAPS_TIMING_FEED_REPLAY_FILE" "") in
  _ ← check (negb (String.eqb kind "replay") || match replay with Some _ => true | None => false end)
        "OPENLAPS_TIMING_FEED_REPLAY_FILE is required for a replay source";
  let paced := str_lower (str_or (env_strip env "OPENLAPS_TIMING_FEED_REPLAY_PACED" "1") "1") in
  dsn ← dsn_from_env env;
  speed ← feed_number env "OPENLAPS_TIMING_FEED_REPLAY_SPEED" "1" true;
  reconcile ← feed_number env "OPENLAPS_TIMING_FEED_RECONCILE_S" "10" true;
  tolerance ← feed_whole env "OPENLAPS_TIMING_FEED_LAP_TOLERANCE" "1" false;
  connect ← feed_number env "OPENLAPS_TIMING_FEED_CONNECT_TIMEOUT_S" "10" true;
  idle ← feed_number env "OPENLAPS_TIMING_FEED_IDLE_TIMEOUT_S" "120" true;
  Ok (mkFeed dsn vehicle kind
        (str_or (env_strip env "OPENLAPS_TIMING_FEED_HOST" DEFAULT_FEED_HOST) DEFAULT_FEED_HOST) feed_port replay
        (negb (bool_decide (paced ∈ ["0"; "false"; "no"]))) speed (or_none (env_strip env "OPENLAPS_TIMING_FEED_CAPTURE_DIR" ""))
        http_port (env_strip env "OPENLAPS_TIMING_FEED_HTTP_HOST" "") reconcile tolerance connect idle).

(** * What a service that starts has *)

Ltac started H := repeat (apply res_bind_Ok in H as (?x & ? & H)); injection H as <-.

Lemma check_ok b msg u : check b msg = Ok u -> b = true.
Proof. unfold check. by destruct b. Qed.

Lemma in_range_ok lo n hi : in_range lo n hi = true -> lo <= n <= hi.
Proof. unfold in_range. lia. Qed.

Lemma or_none_some s k : or_none s = Some k -> k = s /\ k <> "".
Proof. destruct s; [done|]. by intros [= <-]. Qed.

Definition names_vehicle (env : environ) (vehicle : string) : Prop :=
  vehicle = env_strip env VEHICLE_KEY "" /\ vehicle <> "".

Lemma required_vehicle_ok env msg v : required_vehicle env msg = Ok v -> names_vehicle env v.
Proof.
  unfold required_vehicle, names_vehicle, is_blank. destruct (String.eqb_spec (env_strip env VEHICLE_KEY "") ""); [done|].
  by intros [= <-].
Qed.

Hint Resolve required_vehicle_ok : core.

(** The pit names its car once: every service that needs a vehicle refuses to
    start without one, those that start from the same environment have the
    same one, and the services that can do without take it from the same
    place. *)
Theorem one_vehicle (env : environ) :
  (forall s, writer_from_env env = Ok s -> names_vehicle env (w_vehicle_id s)) /\
  (forall s, watch_from_env env = Ok s -> names_vehicle env (a_vehicle s)) /\
  (forall s, ntrip_from_env env = Ok s -> names_vehicle env (n_vehicle_id s)) /\
  (forall s, strategy_from_env env = Ok s -> names_vehicle env (s_vehicle_id s)) /\
  (forall s, control_from_env env = Ok s -> names_vehicle env (c_vehicle_id s)) /\
  (forall s, feed_from_env env = Ok s -> names_vehicle env (f_vehicle_id s)) /\
  (forall s path v, live_from_env env path = Ok s -> l_vehicle_id s = Some v -> names_vehicle env v) /\
  (forall s path v, extrapolator_from_env env path = Ok s -> x_vehicle_id s = Some v -> names_vehicle env v) /\
  (forall s path v, notifier_from_env env path = Ok s -> o_vehicle_id s = Some v -> names_vehicle env v).
Proof.
  split_and!; intros s.
  1-6: intros H; started H; eauto.
  all: intros path v H; started H; by intros [-> ?]%or_none_some.
Qed.

(** A session-control that can be reached from another machine has a key. *)
Theorem exposed_needs_key (env : environ) (s : SessionControlSettings) :
  control_from_env env = Ok s ->
  1 <= c_http_port s <= 65535 /\
  (_is_loopback_host (c_http_host s) = true \/ exists key, c_api_key s = Some key /\ key <> "").
Proof.
  intros H. unfold control_from_env in H. started H. cbn [c_http_port c_http_host c_api_key].
  repeat match goal with H : check _ _ = Ok _ |- _ => apply check_ok in H end. split; [lia|].
  destruct (_is_loopback_host _); [by left | right]. destruct (or_none _) as [k|] eqn:E; [|done].
  exists k; split; [done|]. by apply or_none_some in E as [_ ?].
Qed.

(** What the other services refuse: a port no socket has, a queue that holds
    nothing, and a poll that is not positive. *)
Theorem live_settings_in_range (env : environ) (path : option string) (s : LiveDecoderSettings) :
  live_from_env env path = Ok s ->
  1 <= l_mqtt_port s <= 65535 /\ 0 <= l_health_port s <= 65535 /\ 0 < l_mqtt_queue_size s /\
  fleb (l_config_poll_s s) f0 = false /\ l_stream s <> "".
Proof.
  intros H. unfold live_from_env in H. started H. cbn [l_mqtt_port l_health_port l_mqtt_queue_size l_config_poll_s l_stream].
  repeat match goal with H : check _ _ = Ok _ |- _ => apply check_ok in H end.
  repeat match goal with H : in_range _ _ _ = true |- _ => apply in_range_ok in H end.
  split_and!; try lia; try by apply negb_true_iff.
  intros E. by rewrite E in *.
Qed.

(** A connection string is never built from half of its parts. *)
Theorem dsn_is_complete (env : environ) (dsn : string) :
  dsn_from_env env = Ok dsn ->
  (dsn = env_strip env "TIMESCALE_DSN" "" /\ dsn <> "") \/
  (env_strip env "TIMESCALE_DSN" "" = "" /\
   Forall (fun key => env_strip env key "" <> "") ["TIMESCALE_HOST"; "TIMESCALE_DB"; "TIMESCALE_USER"]).
Proof.
  unfold dsn_from_env, is_blank. destruct (String.eqb_spec (env_strip env "TIMESCALE_DSN" "") "") as [Hd|Hd]; cbn [negb].
  - intros H. right. split; [done|]. cbn [List.filter snd] in H.
    destruct (String.eqb_spec (env_strip env "TIMESCALE_HOST" "") ""); [done|].
    destruct (String.eqb_spec (env_strip env "TIMESCALE_DB" "") ""); [done|].
    destruct (String.eqb_spec (env_strip env "TIMESCALE_USER" "") ""); [done|]. by repeat constructor.
  - intros [= <-]. by left.
Qed.

(** What is logged of a connection string has no password in it. *)
Theorem redacted_hides_password (dsn : string) (parts : list (string * string)) :
  conninfo_to_dict dsn = Some parts -> od_wf parts ->
  exists shown, redacted dsn = make_conninfo shown /\
    forall w, ("password", w) ∈ shown -> w = "***".
Proof.
  intros Hp Hwf. unfold redacted. rewrite Hp. eexists; split; [done|]. intros w.
  destruct (od_get "password" parts) as [v|] eqn:E.
  - rewrite elem_of_app, list_elem_of_singleton. intros [H|H]; [|by injection H].
    unfold od_del in H. apply list_elem_of_filter in H as [H _]. by destruct H.
  - intros H. apply (od_In_get _ _ _ Hwf) in H. congruence.
Qed.
End Settings.

(** A pit's environment. *)
Module Desk.
Definition conninfo (parts : list (string * string)) : string := join " " (map (fun kv => kv.1 +:+ "=" +:+ kv.2) parts).
Definition loopback (host : string) : option bool :=
  if String.eqb host "127.0.0.1" then Some true else if String.eqb host "0.0.0.0" then Some false else None.
Definition dict (dsn : string) : option (list (string * string)) :=
  if String.eqb dsn "user=pit password=s3cret" then Some [("user", "pit"); ("password", "s3cret")] else None.
Definition env : environ := [("OPENLAPS_VEHICLE_ID", " car7 "); ("TIMESCALE_DSN", "dbname=pit"); ("NTRIP_HOST", "caster");
  ("NTRIP_MOUNTPOINT", "RTCM"); ("OPENLAPS_SESSION_HOST", "0.0.0.0"); ("OPENLAPS_SESSION_API_KEY", "k")].
End Desk.

Lemma one_vehicle_witness :
  (exists s, writer_from_env Desk.conninfo Desk.env = Ok s /\ w_vehicle_id s = "car7" /\ names_vehicle Desk.env (w_vehicle_id s)) /\
  (exists s, feed_from_env Desk.conninfo Desk.env = Ok s /\ f_vehicle_id s = "car7" /\ names_vehicle Desk.env (f_vehicle_id s)) /\
  (exists s, live_from_env Desk.env None = Ok s /\ l_vehicle_id s = Some "car7" /\ names_vehicle Desk.env "car7").
Proof.
  destruct (one_vehicle Desk.conninfo Desk.loopback Desk.env) as (H1 & _ & _ & _ & _ & H6 & H7 & _).
  split_and!; eexists; (split; [vm_compute; reflexivity|]); (split; [reflexivity|]).
  - apply H1. vm_compute. reflexivity.
  - apply H6. vm_compute. reflexivity.
  - apply (H7 (match live_from_env Desk.env None with Ok s => s | Raise _ => mkLiveSettings "" "" "" "" 0 None None None 0 f0 0 None end) None); vm_compute; reflexivity.
Defined.

Lemma exposed_needs_key_witness :
  exists s, control_from_env Desk.conninfo Desk.loopback Desk.env = Ok s /\ c_http_host s = "0.0.0.0" /\
    1 <= c_http_port s <= 65535 /\
    (_is_loopback_host Desk.loopback (c_http_host s) = true \/ exists key, c_api_key s = Some key /\ key <> "").
Proof.
  eexists; split; [vm_compute; reflexivity|]; split; [reflexivity|].
  apply (exposed_needs_key Desk.conninfo Desk.loopback Desk.env). vm_compute. reflexivity.
Defined.

Lemma live_settings_in_range_witness :
  exists s, live_from_env Desk.env None = Ok s /\
    1 <= l_mqtt_port s <= 65535 /\ 0 <= l_health_port s <= 65535 /\ 0 < l_mqtt_queue_size s /\
    fleb (l_config_poll_s s) f0 = false /\ l_stream s <> "".
Proof.
  eexists; split; [vm_compute; reflexivity|]. apply (live_settings_in_range Desk.env None). vm_compute. reflexivity.
Defined.

Lemma dsn_is_complete_witness :
  (("dbname=pit" = env_strip Desk.env "TIMESCALE_DSN" "" /\ "dbname=pit" <> "") \/
  (env_strip Desk.env "TIMESCALE_DSN" "" = "" /\
   Forall (fun key => env_strip Desk.env key "" <> "") ["TIMESCALE_HOST"; "TIMESCALE_DB"; "TIMESCALE_USER"])).
Proof. apply (dsn_is_complete Desk.conninfo Desk.env). vm_compute. reflexivity. Defined.

Lemma redacted_hides_password_witness :
  redacted Desk.conninfo Desk.dict "user=pit password=s3cret" = "user=pit password=***" /\
  exists shown, redacted Desk.conninfo Desk.dict "user=pit password=s3cret" = Desk.conninfo shown /\
    forall w, ("password", w) ∈ shown -> w = "***".
Proof.
  split; [vm_compute; reflexivity|].
  apply (redacted_hides_password Desk.conninfo Desk.dict _ [("user", "pit"); ("password", "s3cret")]); [reflexivity|].
  repeat constructor; set_solver.
Defined.

(** A number that is not one passes for positive, in the services whose
    [from_env] promises that a bad value is a startup error. *)
Example nan_is_positive :
  number [("OPENLAPS_STRATEGY_POLL_S", "nan")] "OPENLAPS_STRATEGY_POLL_S" "2" true = Ok S754_nan /\
  feed_number [("OPENLAPS_TIMING_FEED_RECONCILE_S", "nan")] "OPENLAPS_TIMING_FEED_RECONCILE_S" "10" true = Ok S754_nan /\
  exists s, monitor_from_env Desk.conninfo (("OPENLAPS_PIT_MONITOR_INTERVAL_S", "nan") :: Desk.env) = Ok s /\ m_interval_s s = S754_nan.
Proof. split_and!; [vm_compute; reflexivity..|]. eexists; split; [vm_compute; reflexivity | reflexivity]. Qed.
