(* ===== verification/LiveService.v ===== *)
(** The live decoder as a service ([LiveDecoder] of
    [src/pit/live_decoder/service.py] with [reload.py]): messages from the
    stream, the registry cache, the limiter and the MQTT sink, composed.

    The event loop runs one handler at a time: a message, an idle poll, the
    config file's poll, and the sink's own steps between them.
    [live_accounts] follows every value of a selected channel from the decoded
    batch to the broker, across reloads. *)

From S2P Require Import Prelude PyFloat Wire RegistryCache Limiter TimingDisplay MqttSink PitSettings.

Local Open Scope Z_scope.

(** * Reloading the view *)

(** What the file system says when polled: the file's time, and what loading
    it gives. *)
Record ConfigReloader := mkReloader {
  poll_interval_s : float;
  rl_config : LiveConfig;
  mtime_ns : Z;
  _next_poll : float;
  _forced : bool
}.

Definition reloader_init (poll_interval_s : float) (config : LiveConfig) (mtime : Z) : res ConfigReloader :=
  if fleb poll_interval_s f0 then raise ValueError "poll_interval_s must be greater than zero"
  else Ok (mkReloader poll_interval_s config mtime poll_interval_s false).

Definition request_reload (self : ConfigReloader) : ConfigReloader :=
  mkReloader (poll_interval_s self) (rl_config self) (mtime_ns self) (_next_poll self) true.

(** [OSError] from the stat and [ConfigError] from the load keep the previous
    config; anything else goes on up. *)
Definition poll (self : ConfigReloader) (now : float) (stat : res Z) (load : res LiveConfig)
    : ConfigReloader * res (option LiveConfig) :=
  if negb (_forced self) && fltb now (_next_poll self) then (self, Ok None)
  else
    let forced := _forced self in
    let self := mkReloader (poll_interval_s self) (rl_config self) (mtime_ns self) (fadd now (poll_interval_s self)) false in
    match stat with
    | Raise e => (self, match exn_kind e with OSError => Ok None | _ => Raise e end)
    | Ok mtime =>
        if negb forced && (mtime =? mtime_ns self) then (self, Ok None)
        else
          match load with
          | Raise e => (self, match exn_kind e with ConfigError => Ok None | _ => Raise e end)
          | Ok loaded =>
              (mkReloader (poll_interval_s self) loaded mtime (_next_poll self) (_forced self), Ok (Some loaded))
          end
    end.

(** * The service *)

Definition _resolve_vehicle (settings : LiveDecoderSettings) (config : LiveConfig) : res string :=
  match lc_vehicle config, l_vehicle_id settings with
  | None, None => raise ValueError ("no vehicle id: set OPENLAPS_VEHICLE_ID, or name one in " +:+ l_config_path settings)
  | None, Some expected => Ok expected
  | Some v, None => Ok v
  | Some v, Some expected =>
      if String.eqb expected v then Ok v
      else raise ValueError (l_config_path settings +:+ ": vehicle " +:+ v +:+ " disagrees with OPENLAPS_VEHICLE_ID=" +:+ expected)
  end.

Record LiveDecoder := mkDecoder {
  settings : LiveDecoderSettings;
  reloader : ConfigReloader;
  live_config : LiveConfig;
  live_vehicle : string;
  cache : RegistryCache;
  limiter : ConflatingLimiter;
  out : SinkRun;
  messages_seen : Z;
  _last_registry : option ChannelRegistry
}.

Definition subject_filter (vehicle : string) : string := "tele." +:+ vehicle +:+ ".>".

Definition decoder_init (settings : LiveDecoderSettings) (config : LiveConfig) (mtime : Z) (now : float) : res LiveDecoder :=
  reloader ← reloader_init (l_config_poll_s settings) config mtime;
  vehicle ← _resolve_vehicle settings config;
  let health := with_names (l_stream settings) (subject_filter vehicle) (with_mtime mtime (health_init now)) in
  Ok (mkDecoder settings reloader config vehicle cache_init (limiter_init config)
        (sink_run_init (sink_init vehicle (l_mqtt_queue_size settings) health)) 0 None).

(** The sink and the service share one [HealthState]. *)
Definition live_health (s : LiveDecoder) : HealthState := health (sink (out s)).
Definition with_out (f : SinkRun -> SinkRun) (s : LiveDecoder) : LiveDecoder :=
  mkDecoder (settings s) (reloader s) (live_config s) (live_vehicle s) (cache s) (limiter s) (f (out s))
    (messages_seen s) (_last_registry s).
Definition on_sink (f : MqttSink -> MqttSink) (r : SinkRun) : SinkRun := mkRun (f (sink r)) (at_ r) (backoff r) (connected_once r).
Definition note (f : HealthState -> HealthState) (s : LiveDecoder) : LiveDecoder := with_out (on_sink (with_health f)) s.
Definition with_limiter (l : ConflatingLimiter) (s : LiveDecoder) : LiveDecoder :=
  mkDecoder (settings s) (reloader s) (live_config s) (live_vehicle s) (cache s) l (out s) (messages_seen s) (_last_registry s).
Definition with_cache (c : RegistryCache) (s : LiveDecoder) : LiveDecoder :=
  mkDecoder (settings s) (reloader s) (live_config s) (live_vehicle s) c (limiter s) (out s) (messages_seen s) (_last_registry s).
Definition with_reloader (r : ConfigReloader) (s : LiveDecoder) : LiveDecoder :=
  mkDecoder (settings s) r (live_config s) (live_vehicle s) (cache s) (limiter s) (out s) (messages_seen s) (_last_registry s).
Definition with_config (c : LiveConfig) (s : LiveDecoder) : LiveDecoder :=
  mkDecoder (settings s) (reloader s) c (live_vehicle s) (cache s) (limiter s) (out s) (messages_seen s) (_last_registry s).
Definition with_registry (r : ChannelRegistry) (s : LiveDecoder) : LiveDecoder :=
  mkDecoder (settings s) (reloader s) (live_config s) (live_vehicle s) (cache s) (limiter s) (out s) (messages_seen s) (Some r).
Definition saw (s : LiveDecoder) : LiveDecoder :=
  mkDecoder (settings s) (reloader s) (live_config s) (live_vehicle s) (cache s) (limiter s) (out s)
    (messages_seen s + 1) (_last_registry s).

Definition _refresh_unmatched_rules (s : LiveDecoder) : LiveDecoder :=
  match _last_registry s with
  | None => s
  | Some registry => note (with_unmatched (unmatched_rules (live_config s) registry)) s
  end.

(** [_publish]: each update goes to the sink in turn. *)
Definition _publish (s : LiveDecoder) (updates : list LiveUpdate) : LiveDecoder * list (fate * LiveUpdate) :=
  fold_left (fun acc u =>
      let '(k, f) := submit (sink (out acc.1)) u in (with_out (on_sink (fun _ => k)) acc.1, acc.2 ++ f))
    updates (s, []).

Section Service.
Context `{CD : Codec}.

Record Msg := mkMsg { msg_headers : option (list (string * string)); msg_data : payload }.

Definition _add_registry (s : LiveDecoder) (data : payload) : LiveDecoder :=
  match parse_registry data with
  | None => note (bump_health H_malformed_payloads) s
  | Some registry =>
      let was_known := cache_known (cache s) (r_registry_seq registry) in
      let s := with_registry registry (with_cache (add_registry (cache s) registry) s) in
      let s := if was_known then s else note (bump_health H_registries) s in
      _refresh_unmatched_rules s
  end.

(** [headers.get(MSG_TYPE_HEADER, "batch")]. *)
Definition msg_kind (m : Msg) : string := default "batch" (od_get MSG_TYPE_HEADER (default [] (msg_headers m))).

(** What a message leaves in the service, and the samples it carries. *)
Definition take_message (s : LiveDecoder) (m : Msg) : LiveDecoder * list DecodedSample :=
  let s := saw s in
  if String.eqb (msg_kind m) MSG_TYPE_REGISTRY then (_add_registry s (msg_data m), [])
  else
    match decode_or_reason (cache s) (msg_data m) with
    | (_, Raise _) => (note (bump_health H_malformed_payloads) s, [])
    | (cache, Ok decoded) =>
        let s := with_cache cache s in
        let s := note (set_count H_unknown_seq_batches (unknown_seq_batches cache)) s in
        let s := note (set_count H_bad_version_batches (bad_version_batches cache)) s in
        (s, match decoded with inl d => db_samples d | inr _ => [] end)
    end.

(** The message's samples go through the limiter with what is due, and what
    it lets through goes to the sink. *)
Definition _handle_message (s : LiveDecoder) (m : Msg) (now : float) : LiveDecoder * res (list (fate * LiveUpdate)) :=
  let '(s, samples) := take_message s m in
  match handle_batch (limiter s) samples now with
  | (l, Raise e) => (with_limiter l s, Raise e)
  | (l, Ok accepted) => let '(s, f) := _publish (with_limiter l s) accepted in (s, Ok f)
  end.

(** No message within the poll: what is due goes out. *)
Definition idle (s : LiveDecoder) (now : float) : LiveDecoder * res (list (fate * LiveUpdate)) :=
  match limiter_drain (limiter s) now with
  | (l, Raise e) => (with_limiter l s, Raise e)
  | (l, Ok drained) =>
      match admit_updates l drained now with
      | (l, Raise e) => (with_limiter l s, Raise e)
      | (l, Ok accepted) => let '(s, f) := _publish (with_limiter l s) accepted in (s, Ok f)
      end
  end.

Definition _reload (s : LiveDecoder) (now : float) (stat : res Z) (load : res LiveConfig) : LiveDecoder * res unit :=
  match poll (reloader s) now stat load with
  | (r, Raise e) => (with_reloader r s, Raise e)
  | (r, Ok None) => (with_reloader r s, Ok ())
  | (r, Ok (Some loaded)) =>
      let moves := match lc_vehicle loaded with Some v => negb (String.eqb v (live_vehicle s)) | None => false end in
      if moves
      then (with_reloader (mkReloader (poll_interval_s r) (live_config s) (mtime_ns r) (_next_poll r) (_forced r)) s, Ok ())
      else
        let s := with_limiter (reconfigure (limiter s) loaded) (with_config loaded (with_reloader r s)) in
        let s := note (with_mtime (mtime_ns r)) (note (bump_health H_config_reloads) s) in
        (_refresh_unmatched_rules s, Ok ())
  end.

(** The two suppression counts of every channel, added. *)
Definition channel_sum (a b : gmap string Z) : gmap string Z :=
  set_to_map (fun c => (c, count_of a c + count_of b c)) (dom a ∪ dom b).

Definition _sync_limiter_health (s : LiveDecoder) : LiveDecoder :=
  let suppressed := channel_sum (suppressed (limiter s)) (sk_suppressed (sink (out s))) in
  note (set_count H_aggregate_sheds (aggregate_sheds (limiter s))) (note (with_suppressed suppressed) s).

(** The registries of the stream, before anything is consumed. *)
Definition scan_registries (s : LiveDecoder) (messages : list Msg) : LiveDecoder :=
  fold_left (fun s m => _add_registry (saw s) (msg_data m)) messages s.

(** One turn of [_consume] after the wait: the message or the idle poll, the
    config file, the health page. *)
Definition consume (s : LiveDecoder) (message : option Msg) (now : float) (stat : res Z) (load : res LiveConfig)
    : LiveDecoder * res (list (fate * LiveUpdate)) :=
  match (match message with Some m => _handle_message s m now | None => idle s now end) with
  | (s, Raise e) => (s, Raise e)
  | (s, Ok f) =>
      match _reload s now stat load with
      | (s, Raise e) => (s, Raise e)
      | (s, Ok _) => (_sync_limiter_health s, Ok f)
      end
  end.

(** * Runs *)

Inductive live_step :=
  | Consume (message : option Msg) (now : float) (stat : res Z) (load : res LiveConfig)
  | Broker (st : sink_step)
  | Hup
  | Report (now : float)
  | Reconnected.

Context (json_dumps : obj -> string).

(** The sink's steps are its own; what is submitted comes from the service. *)
Definition broker (s : LiveDecoder) (st : sink_step) : LiveDecoder * list (fate * LiveUpdate) :=
  match st with
  | Submit _ => (s, [])
  | st => let '(r, f) := run_step json_dumps (out s) st in (with_out (fun _ => r) s, f)
  end.

Definition live_turn (s : LiveDecoder) (st : live_step) : LiveDecoder * res (list (fate * LiveUpdate)) :=
  match st with
  | Consume m now stat load => consume s m now stat load
  | Broker st => let '(s, f) := broker s st in (s, Ok f)
  | Hup => (with_reloader (request_reload (reloader s)) s, Ok [])
  | Report now => (note (roll now) s, Ok [])
  | Reconnected => (note (bump_health H_nats_reconnects) s, Ok [])
  end.

(** An exception ends the service. *)
Fixpoint live_run (s : LiveDecoder) (steps : list live_step) : res (LiveDecoder * list (fate * LiveUpdate)) :=
  match steps with
  | [] => Ok (s, [])
  | st :: steps =>
      match live_turn s st with
      | (_, Raise e) => Raise e
      | (s, Ok f) => '(s, more) ← live_run s steps; Ok (s, f ++ more)
      end
  end.

(** * What a step is offered, and what a reload forgets *)

Definition offered_by (s : LiveDecoder) (st : live_step) : list LiveUpdate :=
  match st with
  | Consume (Some m) _ _ _ => updates (config (limiter s)) (take_message s m).2
  | _ => []
  end.

(** The limiter's waiting values. *)
Definition waiting_list (l : ConflatingLimiter) : list LiveUpdate := omap (fun kv => pending kv.2) (_states l).

Definition forgotten_in (s : LiveDecoder) (now : float) (stat : res Z) (load : res LiveConfig) : list LiveUpdate :=
  match poll (reloader s) now stat load with
  | (_, Ok (Some loaded)) =>
      match lc_vehicle loaded with
      | Some v => if String.eqb v (live_vehicle s) then waiting_list (limiter s) else []
      | None => waiting_list (limiter s)
      end
  | _ => []
  end.

Definition forgotten_by (s : LiveDecoder) (st : live_step) : list LiveUpdate :=
  match st with
  | Consume m now stat load =>
      forgotten_in (match m with Some m => (_handle_message s m now).1 | None => (idle s now).1 end) now stat load
  | _ => []
  end.

Fixpoint over_run (g : LiveDecoder -> live_step -> list LiveUpdate) (s : LiveDecoder) (steps : list live_step)
    : list LiveUpdate :=
  match steps with
  | [] => []
  | st :: steps => g s st ++ over_run g (live_turn s st).1 steps
  end.

(** Rates the config's types allow. *)
Definition rates_ok (cfg : LiveConfig) : bool :=
  fleb f0 (max_hz (defaults cfg)) &&
  forallb (fun r => match cr_max_hz r with Some hz => fleb f0 hz | None => true end) (lc_channels cfg).

Lemma rates_config_ok cfg : rates_ok cfg = true -> config_ok cfg.
Proof.
  unfold rates_ok, config_ok, max_hz_for, rule_for. intros [Hd Hr]%andb_true_iff c hz.
  destruct (List.find _ (lc_channels cfg)) as [r|] eqn:E; [|done]. intros [= <-].
  apply List.find_some in E as [Hin _]. rewrite forallb_forall in Hr. specialize (Hr r Hin). by destruct (cr_max_hz r).
Qed.

(** The files fail only as [poll] expects, and a config that loads is valid. *)
Definition file_ok {A : Type} (kind : exn_class) (valid : A -> bool) (r : res A) : bool :=
  match r with Ok a => valid a | Raise e => bool_decide (exn_kind e = kind) end.

Definition turn_ok (s : LiveDecoder) (st : live_step) : bool :=
  match st with
  | Consume _ now stat load =>
      budget_ok (limiter s) now && file_ok OSError (fun _ => true) stat && file_ok ConfigError rates_ok load
  | _ => true
  end.
Fixpoint run_ok (s : LiveDecoder) (steps : list live_step) : bool :=
  match steps with
  | [] => true
  | st :: steps => turn_ok s st && run_ok (live_turn s st).1 steps
  end.

(** * Publishing from the service *)

Lemma publish_is_run s ups :
  exists r f, sink_run json_dumps (out s) (map Submit ups) = (r, f) /\ _publish s ups = (with_out (fun _ => r) s, f).
Proof.
  unfold _publish, sink_run. rewrite <- (rev_involutive ups). induction (rev ups) as [|u l IH]; cbn [rev].
  - exists (out s), []. split; [done|]. by destruct s.
  - destruct IH as (r & f & H1 & H2). rewrite map_app, !fold_left_app. cbn [map fold_left]. rewrite H1, H2. cbn [fst snd].
    cbn [run_step]. change (sink (out (with_out _ s))) with (sink r). destruct (submit (sink r) u) as [k f'].
    eexists _, _. split; [reflexivity|]. done.
Qed.

Lemma submissions_map ups : submissions (map Submit ups) = ups.
Proof. unfold submissions. induction ups as [|u l IH]; [done|]. cbn. by rewrite IH. Qed.

Lemma publish_spec s ups s' f :
  run_wf (out s) -> _publish s ups = (s', f) ->
  s' = with_out (fun _ => out s') s /\ moved (out s) (out s') f ups.
Proof.
  intros Hwf Hp. destruct (publish_is_run s ups) as (r & f0' & H1 & H2). rewrite Hp in H2. injection H2 as -> ->.
  split; [by destruct s|]. pose proof (sink_run_moved json_dumps (out s) (map Submit ups) Hwf) as H.
  rewrite H1, submissions_map in H. exact H.
Qed.

(** * The limiter's published counts *)

Definition same_published (a b : ConflatingLimiter) : Prop := published b = published a.

Lemma offer_published self sample now : published (limiter_offer self sample now).1 = published self.
Proof. unfold limiter_offer, supersede. by repeat case_match. Qed.

Lemma offer_all_published self samples now : published (offer_all self samples now).1 = published self.
Proof.
  unfold offer_all. induction samples as [|x l IH] using rev_ind; [done|].
  rewrite fold_left_app; cbn [fold_left]. set (acc := fold_left _ l _) in *.
  pose proof (offer_published acc.1 x now) as H. destruct (limiter_offer acc.1 x now). cbn in *. congruence.
Qed.

Lemma conflate_published self l : published (conflate_candidates self l).1 = published self.
Proof.
  unfold conflate_candidates. induction l as [|x l IH] using rev_ind; [done|].
  rewrite fold_left_app; cbn [fold_left]. destruct (fold_left _ l _) as [s o]. simpl in IH.
  unfold conflate_one. by repeat case_match.
Qed.

Lemma admit_published self l now self' accepted c :
  admit_updates self l now = (self', Ok accepted) ->
  count_of (published self') c = count_of (published self) c + cnt c accepted.
Proof.
  unfold admit_updates. destruct (ranked self l) as [l'|]; [|done].
  set (base := _refill_aggregate _ _ _). assert (Hb : published base = published self) by (unfold base, _refill_aggregate; by case_match).
  destruct (available _ _ _) as [n|]; [|done].
  assert (Hp : forall m s, count_of (published (fold_left (publish_one now) m s)) c = count_of (published s) c + cnt c m).
  { induction m as [|u m IH]; intros s; cbn [fold_left]; [rewrite cnt_nil; lia|].
    rewrite IH, cnt_cons. cbn [publish_one published]. rewrite count_add. lia. }
  assert (Hs : forall m s, published (fold_left shed_one m s) = published s)
    by (induction m as [|u m IH]; intros s; cbn [fold_left]; [done | by rewrite IH]).
  intros [= <- <-]. rewrite <- Hb, <- Hp. by case_match; cbn [published set_tokens]; rewrite Hs.
Qed.

Lemma handle_published self samples now self' accepted c :
  handle_batch self samples now = (self', Ok accepted) ->
  count_of (published self') c = count_of (published self) c + cnt c accepted.
Proof.
  unfold handle_batch. pose proof (offer_all_published self samples now) as H1. destruct (offer_all self samples now) as [s1 o].
  destruct (limiter_drain s1 now) as [s2 [dr|]] eqn:Ed; [|done].
  assert (H2 : published s2 = published s1) by (unfold limiter_drain in Ed; by injection Ed as <- _).
  pose proof (conflate_published s2 (o ++ dr)) as H3. destruct (conflate_candidates s2 (o ++ dr)) as [s3 cs].
  intros H%(admit_published _ _ _ _ _ c). cbn in *. by rewrite H, H3, H2, H1.
Qed.

(** What is due leaves the table and is admitted: nothing is lost in between. *)
Lemma idle_spec self now :
  limiter_wf self -> budget_ok self now = true ->
  exists mid l self' accepted, limiter_drain self now = (mid, Ok l) /\ admit_updates mid l now = (self', Ok accepted) /\
    limiter_wf self' /\ config self' = config self /\ (forall c, live self' c = live self c) /\
    (forall c, count_of (published self') c = count_of (published self) c + cnt c accepted).
Proof.
  intros Hwf Hb. destruct (drain_spec self now Hwf) as (D1 & D2 & _ & D4 & D5 & _ & D7).
  assert (Hsb : same_budget self (limiter_drain self now).1) by done.
  assert (Hpb : published (limiter_drain self now).1 = published self) by done.
  unfold limiter_drain in *. cbn [fst] in *. set (mid := set_states self _) in *. set (raw := concat _) in *.
  assert (Hk : Forall (fun u => is_Some (chan mid (lu_channel u))) raw).
  { apply Forall_forall. intros u Hu. apply D4.
    assert (Hc : u ∈ of_channel (lu_channel u) raw) by (apply list_elem_of_filter; done).
    rewrite D5 in Hc. destruct (is_due self _ now); [|by apply elem_of_nil in Hc].
    unfold pending_of in Hc. destruct (chan self (lu_channel u)) as [st|]; [done | by apply elem_of_nil in Hc]. }
  destruct (ranked_ok mid raw Hk) as (l & Hl & Hp).
  destruct (budget_same self mid now Hsb) as [Hb1 _]. rewrite Hb in Hb1.
  assert (Hkl : Forall (fun u => is_Some (chan mid (lu_channel u))) l) by (by rewrite Hp).
  destruct (admit_spec mid l now D1 Hb1 Hkl) as (self' & acc & Ha & [W1 W2 W3 W4 W5 W6 W7]).
  exists mid, l, self', acc. split_and!; [by rewrite Hl | done | done | congruence | |].
  - intros c. rewrite W5, (cnt_perm c l raw Hp). apply D7.
  - intros c. by rewrite (admit_published _ _ _ _ _ c Ha), Hpb.
Qed.

(** * The service's invariant *)

Record live_inv (s : LiveDecoder) : Prop := {
  li_wf : limiter_wf (limiter s);
  li_config : config (limiter s) = live_config s;
  li_rates : rates_ok (live_config s) = true;
  li_run : run_wf (out s)
}.

(** Changes that only touch counters and the registry cache. *)
Record quiet (s s' : LiveDecoder) : Prop := {
  qu_limiter : limiter s' = limiter s;
  qu_config : live_config s' = live_config s;
  qu_held : held (out s') = held (out s);
  qu_run : run_wf (out s) -> run_wf (out s');
  qu_published : h_published (live_health s') = h_published (live_health s)
}.

Lemma quiet_refl s : quiet s s.
Proof. done. Qed.
Lemma quiet_trans a b c : quiet a b -> quiet b c -> quiet a c.
Proof. intros [A1 A2 A3 A4 A5] [B1 B2 B3 B4 B5]. split; [congruence..| | congruence]. auto. Qed.

Lemma quiet_inv s s' : quiet s s' -> live_inv s -> live_inv s'.
Proof. intros [A1 A2 A3 A4 A5] [B1 B2 B3 B4]. split; rewrite ?A1, ?A2; auto. Qed.

Lemma note_quiet s f : (forall h, h_published (f h) = h_published h) -> quiet s (note f s).
Proof. intros Hf. split; [done | done | done | done | apply Hf]. Qed.

Ltac quiet_steps :=
  repeat first
    [ apply quiet_refl
    | match goal with |- quiet _ (note _ _) => eapply quiet_trans; [|by apply note_quiet] end ].

Lemma refresh_quiet s : quiet s (_refresh_unmatched_rules s).
Proof. unfold _refresh_unmatched_rules. destruct (_last_registry s); quiet_steps. Qed.

Lemma add_registry_quiet s data : quiet s (_add_registry s data).
Proof.
  unfold _add_registry. destruct (parse_registry data) as [r|]; [|quiet_steps].
  set (s1 := with_registry _ _). assert (H1 : quiet s s1) by done.
  eapply quiet_trans; [|apply refresh_quiet]. destruct (cache_known _ _); [done|].
  eapply quiet_trans; [exact H1|]. quiet_steps.
Qed.

Lemma take_quiet s m : quiet s (take_message s m).1.
Proof.
  unfold take_message. assert (H1 : quiet s (saw s)) by done.
  destruct (String.eqb _ _); cbn [fst]; [eapply quiet_trans; [exact H1 | apply add_registry_quiet]|].
  destruct (decode_or_reason _ _) as [c [d|e]]; cbn [fst]; [|eapply quiet_trans; [exact H1|]; quiet_steps].
  set (s1 := with_cache c (saw s)). assert (H2 : quiet s s1) by done. eapply quiet_trans; [exact H2|]. quiet_steps.
Qed.

Lemma sync_quiet s : quiet s (_sync_limiter_health s).
Proof. unfold _sync_limiter_health. quiet_steps. Qed.

(** What is on its way: suppressed by the limiter, waiting in it, queued for
    the broker or in flight. *)
Definition stock (s : LiveDecoder) (c : string) : Z :=
  count_of (suppressed (limiter s)) c + pend (limiter s) c + cnt c (held (out s)).

Record balanced (s s' : LiveDecoder) (f : list (fate * LiveUpdate)) (offered forgotten : list LiveUpdate) : Prop := {
  ba_stock c : stock s' c + cnt c f.*2 + cnt c forgotten = stock s c + cnt c offered;
  ba_published c : count_of (h_published (live_health s')) c = count_of (h_published (live_health s)) c + tally Published c f
}.

Lemma quiet_balanced s s' : quiet s s' -> balanced s s' [] [] [].
Proof. intros [A1 A2 A3 A4 A5]. split; intros c; unfold stock; rewrite ?A1, ?A3, ?A5, ?cnt_nil, ?tally_nil; cbn; rewrite ?cnt_nil; lia. Qed.

Lemma balanced_trans a b c f g o1 o2 k1 k2 :
  balanced a b f o1 k1 -> balanced b c g o2 k2 -> balanced a c (f ++ g) (o1 ++ o2) (k1 ++ k2).
Proof.
  intros [A1 A2] [B1 B2]. split; intros ch.
  - specialize (A1 ch). specialize (B1 ch). rewrite fmap_app, !cnt_app. lia.
  - rewrite B2, A2, tally_app. lia.
Qed.

(** What the limiter accepts goes to the sink, each once. *)
Lemma publish_balanced s l' accepted s' f off :
  run_wf (out s) -> _publish (with_limiter l' s) accepted = (s', f) ->
  (forall c, live l' c = live (limiter s) c + cnt c off) ->
  (forall c, count_of (published l') c = count_of (published (limiter s)) c + cnt c accepted) ->
  balanced s s' f off [] /\ run_wf (out s') /\ limiter s' = l' /\ live_config s' = live_config s.
Proof.
  intros Hrun Hp Hl Hpub. destruct (publish_spec (with_limiter l' s) accepted s' f Hrun Hp) as [Hs [M1 M2 M3 [C1 C2 C3 C4] M5]].
  cbn [out with_limiter] in *. split_and!; [|done | by rewrite Hs | by rewrite Hs].
  split; intros c; [|exact (C3 c)]. specialize (Hl c). specialize (Hpub c). unfold live in Hl.
  pose proof (cnt_perm c _ _ M2) as Hc. rewrite !cnt_app in Hc. unfold stock. rewrite cnt_nil.
  replace (limiter s') with l' by (by rewrite Hs). lia.
Qed.

Lemma handle_balanced s m now :
  live_inv s -> budget_ok (limiter s) now = true ->
  exists s' f, _handle_message s m now = (s', Ok f) /\ live_inv s' /\
    balanced s s' f (updates (config (limiter s)) (take_message s m).2) [].
Proof.
  intros Hinv Hb. unfold _handle_message. pose proof (take_quiet s m) as Hq. destruct (take_message s m) as [s1 samples].
  cbn [fst snd] in *. pose proof (quiet_inv _ _ Hq Hinv) as [I1 I2 I3 I4].
  pose proof (qu_limiter _ _ Hq) as Hlim.
  destruct (limiter_accounts (limiter s1) samples now) as (l' & acc & He & L1 & L2 & L3 & L4);
    [rewrite I2; by apply rates_config_ok | done | by rewrite Hlim|].
  rewrite He. destruct (_publish (with_limiter l' s1) acc) as [s2 f] eqn:Ep.
  destruct (publish_balanced s1 l' acc s2 f _ I4 Ep L4) as (P1 & P2 & P3 & P4).
  { intros c. by apply handle_published with samples now. }
  exists s2, f. split_and!; [done | |].
  - split; [by rewrite P3 | by rewrite P3, P4, L2 | by rewrite P4 | done].
  - rewrite <- Hlim. exact (balanced_trans _ _ _ [] f [] _ [] [] (quiet_balanced _ _ Hq) P1).
Qed.

Lemma idle_balanced s now :
  live_inv s -> budget_ok (limiter s) now = true ->
  exists s' f, idle s now = (s', Ok f) /\ live_inv s' /\ balanced s s' f [] [].
Proof.
  intros [I1 I2 I3 I4] Hb. unfold idle.
  destruct (idle_spec (limiter s) now I1 Hb) as (mid & l & l' & acc & Hd & Ha & L1 & L2 & L3 & L4).
  rewrite Hd, Ha. destruct (_publish (with_limiter l' s) acc) as [s2 f] eqn:Ep.
  destruct (publish_balanced s l' acc s2 f [] I4 Ep) as (P1 & P2 & P3 & P4); [intros c; rewrite cnt_nil, L3; lia | done|].
  exists s2, f. split_and!; [done | | done].
  split; [by rewrite P3 | by rewrite P3, P4, L2 | by rewrite P4 | done].
Qed.

(** The waiting values of a well-formed table are the ones its channels count. *)
Lemma waiting_count l c : limiter_wf l -> cnt c (waiting_list l) = pend l c.
Proof.
  intros [Hnd Hall]. unfold waiting_list, pend.
  assert (Hch : forall k st, (k, st) ∈ _states l -> forall u, pending st = Some u -> lu_channel u = k).
  { intros k st Hin u Hu. apply (od_In_get k st) in Hin; [|done]. destruct (Hall k st Hin) as (hz & _ & _ & Hp). by destruct (Hp u Hu). }
  clear Hall. revert Hnd Hch. generalize (_states l) as d. induction d as [|[k st] d IH]; intros Hnd Hch; [done|].
  apply NoDup_cons in Hnd as [Hni Hnd]. cbn [omap list_omap od_get snd].
  specialize (IH Hnd ltac:(intros k' st' Hin; apply Hch; by right)).
  pose proof (Hch k st ltac:(left)) as Hk. unfold waiting.
  assert (Hrest : k = c -> cnt c (omap (fun kv : string * _ChannelState => pending kv.2) d) = 0).
  { intros <-. rewrite IH. by rewrite (proj2 (od_get_None k d)). }
  destruct (pending st) as [u|] eqn:Eu.
  - rewrite cnt_cons. unfold one. rewrite (Hk u eq_refl). case_decide as E; case_decide as E2; try congruence.
    + rewrite Hrest by done. rewrite Eu. done.
    + rewrite IH. done.
  - case_decide as E; [rewrite Hrest, Eu by done; done | apply IH].
Qed.

Lemma fresh_wf l cfg : limiter_wf (reconfigure l cfg).
Proof. split; [constructor | done]. Qed.

Lemma poll_ok r now stat load r' o :
  file_ok OSError (fun _ => true) stat = true -> file_ok ConfigError rates_ok load = true ->
  poll r now stat load = (r', o) -> exists c, o = Ok c /\ forall loaded, c = Some loaded -> rates_ok loaded = true.
Proof.
  unfold poll. intros Hs Hl. destruct (_ && _); [intros [= _ <-]; by eexists|].
  destruct stat as [m|e]; cbn [file_ok] in Hs; [|apply bool_decide_eq_true in Hs; rewrite Hs; intros [= _ <-]; by eexists].
  destruct (_ && _); [intros [= _ <-]; by eexists|].
  destruct load as [c|e]; cbn [file_ok] in Hl; [|apply bool_decide_eq_true in Hl; rewrite Hl; intros [= _ <-]; by eexists].
  intros [= _ <-]. eexists; split; [done|]. by intros ? [= <-].
Qed.

Lemma reload_balanced s now stat load :
  live_inv s -> file_ok OSError (fun _ => true) stat = true -> file_ok ConfigError rates_ok load = true ->
  exists s', _reload s now stat load = (s', Ok ()) /\ live_inv s' /\ balanced s s' [] [] (forgotten_in s now stat load).
Proof.
  intros Hinv Hs Hl. unfold _reload, forgotten_in. destruct (poll (reloader s) now stat load) as [r o] eqn:Ep.
  destruct (poll_ok _ _ _ _ _ _ Hs Hl Ep) as (c & -> & Hc).
  assert (Hsame : forall r', quiet s (with_reloader r' s)) by done.
  assert (Hkept : forall r', live_inv (with_reloader r' s) /\ balanced s (with_reloader r' s) [] [] [])
    by (intros r'; split; [by eapply quiet_inv | by apply quiet_balanced]).
  destruct c as [loaded|]; [|destruct (Hkept r); eexists; split_and!; done].
  specialize (Hc loaded eq_refl).
  set (s1 := with_limiter (reconfigure (limiter s) loaded) (with_config loaded (with_reloader r s))).
  set (s2 := _refresh_unmatched_rules _).
  assert (Hq : quiet s1 s2) by (eapply quiet_trans; [|apply refresh_quiet]; quiet_steps).
  assert (H1 : live_inv s1 /\ balanced s s1 [] [] (waiting_list (limiter s))).
  { destruct Hinv as [I1 I2 I3 I4]. split; [by split; [apply fresh_wf | | |]|].
    split; intros c; [|by rewrite tally_nil, Z.add_0_r]. unfold stock. cbn [fmap list_fmap]. rewrite !cnt_nil, (waiting_count _ _ I1).
    change (pend (limiter s1) c) with 0. change (suppressed (limiter s1)) with (suppressed (limiter s)). change (out s1) with (out s). lia. }
  assert (Hmove : live_inv s2 /\ balanced s s2 [] [] (waiting_list (limiter s))).
  { destruct H1 as [H1 H2]. split; [by eapply quiet_inv|].
    pose proof (balanced_trans _ _ _ _ _ _ _ _ _ H2 (quiet_balanced _ _ Hq)) as H. rewrite !app_nil_r in H. exact H. }
  destruct (lc_vehicle loaded) as [v|]; [destruct (String.eqb v (live_vehicle s)); cbn [negb]|].
  - eexists; split_and!; [done | apply Hmove | apply Hmove].
  - destruct (Hkept (mkReloader (poll_interval_s r) (live_config s) (mtime_ns r) (_next_poll r) (_forced r))).
    eexists; split_and!; [done | done | done].
  - eexists; split_and!; [done | apply Hmove | apply Hmove].
Qed.

Lemma turn_balanced s st :
  live_inv s -> turn_ok s st = true ->
  exists s' f, live_turn s st = (s', Ok f) /\ live_inv s' /\ balanced s s' f (offered_by s st) (forgotten_by s st).
Proof.
  intros Hinv Hok. destruct st as [m now stat load|st| |now|]; cbn [live_turn offered_by forgotten_by].
  - cbn [turn_ok] in Hok. apply andb_true_iff in Hok as [[Hb Hs]%andb_true_iff Hl]. unfold consume.
    assert (Hfirst : exists s1 f, match m with Some m => _handle_message s m now | None => idle s now end = (s1, Ok f) /\
              live_inv s1 /\ balanced s s1 f (offered_by s (Consume m now stat load)) []).
    { destruct m as [m|]; [by apply handle_balanced | by apply idle_balanced]. }
    destruct Hfirst as (s1 & f & He & Hi1 & Hb1).
    assert (Hst : match m with Some m => (_handle_message s m now).1 | None => (idle s now).1 end = s1)
      by (destruct m; by rewrite He).
    rewrite He, Hst. destruct (reload_balanced s1 now stat load Hi1 Hs Hl) as (s2 & -> & Hi2 & Hb2).
    pose proof (sync_quiet s2) as Hq. exists (_sync_limiter_health s2), f. split_and!; [done | by eapply quiet_inv |].
    pose proof (balanced_trans _ _ _ _ _ _ _ _ _ (balanced_trans _ _ _ _ _ _ _ _ _ Hb1 Hb2) (quiet_balanced _ _ Hq)) as H.
    rewrite !app_nil_r in H. by destruct m.
  - assert (Hst : forall st', (forall u, st' <> Submit u) ->
              exists s' f, (let '(s0, f) := (let '(r, f) := run_step json_dumps (out s) st' in (with_out (fun _ => r) s, f)) in (s0, Ok f)) = (s', Ok f) /\
                live_inv s' /\ balanced s s' f [] []).
    { intros st' Hno. pose proof (run_step_moved json_dumps (out s) st' (li_run s Hinv)) as Hm.
      destruct (run_step _ _ _) as [r f]. destruct Hm as [M1 M2 M3 [C1 C2 C3 C4] M5].
      assert (Hsub : submitted st' = []) by (destruct st'; try done; by destruct (Hno u)). rewrite Hsub, app_nil_r in M2.
      eexists _, _; split_and!; [done | |].
      - destruct Hinv. by split.
      - split; intros c; [|exact (C3 c)]. pose proof (cnt_perm c _ _ M2) as Hc. rewrite cnt_app in Hc.
        unfold stock. cbn [limiter with_out out]. rewrite cnt_nil. lia. }
    destruct st; try (by apply Hst). eexists _, _; split_and!; [done | done | apply quiet_balanced, quiet_refl].
  - eexists _, _; split_and!; [done | by apply (quiet_inv s) | by apply quiet_balanced].
  - assert (Hq : quiet s (note (roll now) s)) by (apply note_quiet; intros h; unfold roll; by case_match).
    eexists _, _; split_and!; [done | by eapply quiet_inv | by apply quiet_balanced].
  - assert (Hq : quiet s (note (bump_health H_nats_reconnects) s)) by (by apply note_quiet).
    eexists _, _; split_and!; [done | by eapply quiet_inv | by apply quiet_balanced].
Qed.

Lemma run_balanced steps : forall s,
  live_inv s -> run_ok s steps = true ->
  exists s' f, live_run s steps = Ok (s', f) /\ live_inv s' /\
    balanced s s' f (over_run offered_by s steps) (over_run forgotten_by s steps).
Proof.
  induction steps as [|st steps IH]; intros s Hinv Hok; cbn [live_run over_run run_ok] in *.
  - eexists _, _; split_and!; [done | done | apply quiet_balanced, quiet_refl].
  - apply andb_true_iff in Hok as [Ht Hr]. destruct (turn_balanced s st Hinv Ht) as (s1 & f & He & Hi & Hb).
    rewrite He in *. cbn [fst] in *. destruct (IH s1 Hi Hr) as (s2 & g & -> & Hi2 & Hb2).
    exists s2, (f ++ g). split_and!; [done | done |]. by eapply balanced_trans.
Qed.

Lemma live_init_inv settings0 cfg mtime now s :
  0 <= l_mqtt_queue_size settings0 -> rates_ok cfg = true -> decoder_init settings0 cfg mtime now = Ok s ->
  live_inv s /\ (forall c, stock s c = 0) /\ h_published (live_health s) = ∅.
Proof.
  unfold decoder_init. intros Hsz Hr H. apply res_bind_Ok in H as (r & _ & H). apply res_bind_Ok in H as (v & _ & [= <-]).
  split_and!; [|done | done]. split; [split; [constructor | done] | done | done | by apply init_run_wf].
Qed.

(** C14. From the decoded batch to the broker, across reloads, outages and idle
    polls: every value of a selected channel is suppressed by the limiter,
    waiting in it, forgotten by a reload, published, dropped, superseded,
    invalid, failed or escaped at the sink, queued there or in flight, exactly
    once; and a channel's published count is the number published. The service
    runs on as long as the rates are ones the config's types allow and the
    aggregate budget is a number. *)
Theorem live_accounts settings0 cfg mtime now0 s steps :
  0 <= l_mqtt_queue_size settings0 -> rates_ok cfg = true -> decoder_init settings0 cfg mtime now0 = Ok s ->
  run_ok s steps = true ->
  exists s' f, live_run s steps = Ok (s', f) /\
    forall c,
      cnt c (over_run offered_by s steps) =
        count_of (suppressed (limiter s')) c + cnt c (waiting_list (limiter s')) + cnt c (over_run forgotten_by s steps) +
        cnt c f.*2 + cnt c (held (out s')) /\
      count_of (h_published (live_health s')) c = tally Published c f.
Proof.
  intros Hsz Hr Hi Hok. destruct (live_init_inv _ _ _ _ _ Hsz Hr Hi) as (H0 & Hst & Hpub).
  destruct (run_balanced steps s H0 Hok) as (s' & f & He & Hinv & [B1 B2]). exists s', f. split; [done|]. intros c.
  specialize (B1 c). specialize (B2 c). rewrite Hst in B1. rewrite Hpub in B2. rewrite (waiting_count _ _ (li_wf _ Hinv)).
  unfold stock in B1. split; [lia|]. rewrite B2. unfold count_of. by rewrite lookup_empty.
Qed.

(** * The car the service is for *)

(** What a subscriber and a dashboard see of it, and the view's own word. *)
Record for_car (v : string) (s : LiveDecoder) : Prop := {
  fc_vehicle : live_vehicle s = v;
  fc_topics : vehicle (sink (out s)) = v;
  fc_subject : h_subject_filter (live_health s) = subject_filter v;
  fc_config : forall w, lc_vehicle (live_config s) = Some w -> w = v;
  fc_reloader : rl_config (reloader s) = live_config s
}.

Definition same_names (a b : MqttSink) : Prop :=
  vehicle b = vehicle a /\ h_subject_filter (health b) = h_subject_filter (health a).

Lemma drop_names l : forall s, same_names s (fold_left drop_update l s).
Proof. induction l as [|u l IH]; intros s; [done|]. cbn [fold_left]. destruct (IH (drop_update s u)) as [H1 H2]. done. Qed.

Lemma submit_names s u : same_names s (submit s u).1.
Proof. unfold submit. by repeat case_match. Qed.

Lemma next_names s : same_names s (_next_pending s).1.
Proof. unfold _next_pending. by repeat case_match. Qed.

Lemma run_step_names r st : same_names (sink r) (sink (run_step json_dumps r st).1).
Proof.
  assert (Hd : forall s', same_names (sink r) s' -> same_names (sink r) (_drop_queued s').1).
  { intros s' [H1 H2]. destruct (drop_names (queued_updates s') (with_queues [] [] s')) as [D1 D2]. unfold _drop_queued. cbn [fst].
    split; [by rewrite D1 | by rewrite D2]. }
  pose proof (Hd (set_connected false (sink r)) ltac:(done)) as Hdrop. pose proof (next_names (sink r)) as Hn.
  destruct st as [u| | | |ok| |]; cbn [run_step].
  - pose proof (submit_names (sink r) u). by destruct (submit (sink r) u).
  - by destruct (at_ r), (connected_once r).
  - by destruct (at_ r).
  - destruct (at_ r); try done. unfold turn. destruct (_next_pending (sink r)) as [s' [u|]]; [|done]. by repeat case_match.
  - destruct ok; by destruct (at_ r).
  - by destruct (at_ r).
  - by destruct (at_ r).
Qed.

Lemma with_out_car v s r : for_car v s -> same_names (sink (out s)) (sink r) -> for_car v (with_out (fun _ => r) s).
Proof. intros [C1 C2 C3 C4 C5] [N1 N2]. split; cbn; unfold live_health in *; cbn in *; try done; congruence. Qed.

Lemma note_car v s f :
  (forall h, h_subject_filter (f h) = h_subject_filter h) -> for_car v s -> for_car v (note f s).
Proof. intros Hf [C1 C2 C3 C4 C5]. split; cbn; try done. unfold live_health in *; cbn. by rewrite Hf. Qed.

Lemma publish_car v s ups : for_car v s -> for_car v (_publish s ups).1.
Proof.
  unfold _publish. intros Hc. induction ups as [|u l IH] using rev_ind; [done|]. rewrite fold_left_app. cbn [fold_left].
  destruct (fold_left _ l _) as [s1 f]. cbn [fst snd] in *. pose proof (submit_names (sink (out s1)) u) as Hn.
  destruct (submit (sink (out s1)) u) as [k g]. cbn [fst]. by apply (with_out_car v s1 (on_sink (fun _ => k) (out s1))).
Qed.

Ltac car_notes := repeat (apply note_car; [done|]).

Lemma refresh_car v s : for_car v s -> for_car v (_refresh_unmatched_rules s).
Proof. unfold _refresh_unmatched_rules. intros Hc. destruct (_last_registry s); [|done]. by car_notes. Qed.

Lemma take_car v s m : for_car v s -> for_car v (take_message s m).1.
Proof.
  intros Hc. assert (H1 : for_car v (saw s)) by (by destruct Hc). unfold take_message, _add_registry.
  destruct (String.eqb _ _); cbn [fst].
  - destruct (parse_registry _) as [r|]; [|by car_notes]. apply refresh_car.
    assert (H2 : for_car v (with_registry r (with_cache (add_registry (cache (saw s)) r) (saw s)))) by (by destruct Hc).
    destruct (cache_known _ _); [done|]. by car_notes.
  - destruct (decode_or_reason _ _) as [c [d|e]]; cbn [fst]; car_notes; by destruct Hc.
Qed.

Lemma handle_car v s m now : for_car v s -> for_car v (_handle_message s m now).1.
Proof.
  intros Hc. pose proof (take_car v s m Hc) as H1. unfold _handle_message. destruct (take_message s m) as [s1 samples]. cbn [fst] in H1.
  destruct (handle_batch _ _ _) as [l [acc|e]]; [|by destruct H1].
  assert (H2 : for_car v (with_limiter l s1)) by (by destruct H1). pose proof (publish_car v _ acc H2). by destruct (_publish _ acc).
Qed.

Lemma idle_car v s now : for_car v s -> for_car v (idle s now).1.
Proof.
  intros H1. unfold idle. destruct (limiter_drain _ _) as [l [d|e]]; [|by destruct H1].
  destruct (admit_updates l d now) as [l2 [acc|e]]; [|by destruct H1].
  assert (H2 : for_car v (with_limiter l2 s)) by (by destruct H1). pose proof (publish_car v _ acc H2). by destruct (_publish _ acc).
Qed.

Lemma poll_config r now stat load r' c :
  poll r now stat load = (r', Ok c) -> match c with Some loaded => rl_config r' = loaded | None => rl_config r' = rl_config r end.
Proof. unfold poll. intros H. by repeat (case_match; simplify_eq/=). Qed.

Lemma poll_raises r now stat load r' e : poll r now stat load = (r', Raise e) -> rl_config r' = rl_config r.
Proof. unfold poll. intros H. by repeat (case_match; simplify_eq/=). Qed.

Lemma reload_car v s now stat load : for_car v s -> for_car v (_reload s now stat load).1.
Proof.
  intros Hc. pose proof Hc as [C1 C2 C3 C4 C5]. unfold _reload. destruct (poll (reloader s) now stat load) as [r [[loaded|]|e]] eqn:Ep.
  - pose proof (poll_config _ _ _ _ _ _ Ep) as Hr. cbn in Hr.
    assert (Hmove : (forall w, lc_vehicle loaded = Some w -> w = v) ->
              for_car v (_refresh_unmatched_rules (note (with_mtime (mtime_ns r)) (note (bump_health H_config_reloads)
                (with_limiter (reconfigure (limiter s) loaded) (with_config loaded (with_reloader r s))))))).
    { intros Hw. apply refresh_car. car_notes. by split. }
    destruct (lc_vehicle loaded) as [w|] eqn:El.
    + destruct (String.eqb_spec w (live_vehicle s)) as [->|Hne]; cbn [negb fst]; [|by split].
      apply Hmove. intros ? [= <-]. done.
    + apply Hmove. done.
  - pose proof (poll_config _ _ _ _ _ _ Ep) as Hr. cbn in Hr. split; cbn; congruence || done.
  - pose proof (poll_raises _ _ _ _ _ _ Ep) as Hr. split; cbn; congruence || done.
Qed.

Lemma turn_car v s st : for_car v s -> for_car v (live_turn s st).1.
Proof.
  intros Hc. destruct st as [m now stat load|st| |now|]; cbn [live_turn].
  - unfold consume. assert (H1 : for_car v (match m with Some m => _handle_message s m now | None => idle s now end).1)
      by (destruct m; [by apply handle_car | by apply idle_car]).
    destruct (match m with Some _ => _ | None => _ end) as [s1 [f|e]]; [|done]. cbn [fst] in H1.
    pose proof (reload_car v s1 now stat load H1) as H2. destruct (_reload s1 now stat load) as [s2 [u|e]]; [|done].
    unfold _sync_limiter_health. cbn [fst] in *. by car_notes.
  - unfold broker. pose proof (run_step_names (out s) st) as Hn.
    destruct st; try done; cbn [fst] in *; destruct (run_step _ _ _); cbn [fst] in *; by apply with_out_car.
  - by destruct Hc.
  - apply note_car; [|done]. intros h. unfold roll. by case_match.
  - by apply note_car.
Qed.

(** The service is for one car from start to end: whatever is reloaded, the
    subject it reads, the topics it writes and the view in force are those of
    the car it resolved at the start, and where the environment and the view
    both named a car they named the same one. *)
Theorem vehicle_never_moves settings0 cfg mtime now0 s steps s' f :
  decoder_init settings0 cfg mtime now0 = Ok s -> live_run s steps = Ok (s', f) ->
  for_car (live_vehicle s) s' /\
  (forall w, l_vehicle_id settings0 = Some w -> live_vehicle s = w) /\
  (forall w, lc_vehicle cfg = Some w -> live_vehicle s = w).
Proof.
  intros Hi Hrun. unfold decoder_init in Hi. apply res_bind_Ok in Hi as (r & Hr & Hi). apply res_bind_Ok in Hi as (v & Hv & [= <-]).
  cbn [live_vehicle].
  assert (Hagree : (forall w, l_vehicle_id settings0 = Some w -> v = w) /\ (forall w, lc_vehicle cfg = Some w -> v = w)).
  { revert Hv. unfold _resolve_vehicle. destruct (lc_vehicle cfg) as [c|], (l_vehicle_id settings0) as [e|]; try done;
      try (intros [= ->]; split; by intros ? [= <-]).
    destruct (String.eqb_spec e c); [|done]. subst. intros [= ->]. split; by intros ? [= <-]. }
  split; [|exact Hagree].
  match type of Hrun with live_run ?s0 _ = _ => assert (H0 : for_car v s0) end.
  { destruct Hagree as [_ Ha]. split; try done; cbn; [intros w Hw; by rewrite (Ha w Hw)|].
    unfold reloader_init in Hr. by destruct (fleb _ _); simplify_eq/=. }
  clear -H0 Hrun. match type of Hrun with live_run ?s0 _ = _ => generalize dependent s0 end. revert s' f.
  induction steps as [|st steps IH]; intros s' f s0 Hrun H0; cbn [live_run] in Hrun; [by injection Hrun as <- _|].
  pose proof (turn_car v s0 st H0) as H1. destruct (live_turn s0 st) as [s1 [g|e]]; [|done]. cbn [fst] in H1.
  apply res_bind_Ok in Hrun as ([s2 more] & Hrun & [= -> _]). by eapply IH.
Qed.
End Service.

(** A pit watching one gauge: a registry, two values in the same tenth of a
    second, an outage at the broker, a reload that raises the rate, and one
    that names another car. *)
Module Pit.
#[local] Existing Instance TaggedCodec.
Definition rpm : Channel := mkChannel 1 "engine.rpm" "can0:x" "rpm" DOUBLE f0 f0.
Definition view (hz : Z) (car : option string) : LiveConfig :=
  mkLive car (mkDefaults (f_of_Z hz) (f_of_Z 500)) [mkRule "engine.*" None].
Definition registry : Msg := mkMsg (Some [(MSG_TYPE_HEADER, MSG_TYPE_REGISTRY)]) (inr (mkRegistry 7 "car7" 0 [rpm])).
Definition batch (v : Z) : Msg := mkMsg None (inl (mkSampleBatch 7 1000 0 [mkPbSample 1 0 (Some (W_i v))] 1)).
Definition env_settings : LiveDecoderSettings :=
  mkLiveSettings "live.yaml" "nats" "TELE_VEHICLE" "broker" 1883 None None None 8082 (f_of_Z 5) 1000 (Some "car7").
Definition start : LiveDecoder :=
  match decoder_init env_settings (view 10 None) 1 f0 with Ok s => s | Raise _ => mkDecoder env_settings (mkReloader f0 (view 10 None) 0 f0 false) (view 10 None) "" cache_init (limiter_init (view 10 None)) (sink_run_init (sink_init "" 0 (health_init f0))) 0 None end.
Definition at_ms (n : Z) : float := f_of_ratio n 1000.
Definition same : res Z := Ok 1.
Definition no_load : res LiveConfig := raise ConfigError "unread".
Definition steps : list live_step :=
  [Consume (Some registry) (at_ms 1000) same no_load; Broker Opened;
   Consume (Some (batch 900)) (at_ms 2000) same no_load; Broker Turn; Broker (Answered true);
   Consume (Some (batch 901)) (at_ms 2050) same no_load;
   Consume (Some (batch 902)) (at_ms 2060) same no_load;
   Consume None (at_ms 2100) same no_load; Broker Turn; Broker (Answered false); Broker Left;
   Consume (Some (batch 903)) (at_ms 2150) same no_load;
   Consume None (at_ms 7000) (Ok 2) (Ok (view 20 None)); Hup;
   Consume None (at_ms 7100) (Ok 3) (Ok (view 50 (Some "car8")))].
Definition dumps (o : obj) : string := "{}".
Definition after : LiveDecoder * list (fate * LiveUpdate) :=
  match live_run dumps start steps with Ok r => r | Raise _ => (start, []) end.
End Pit.

Lemma live_accounts_witness :
  map (fun p => (p.1, lu_value p.2)) Pit.after.2 =
    [(Published, Some (VInt 900)); (Failed, Some (VInt 902)); (Dropped, Some (VInt 903))] /\
  exists s' f, live_run (CD := TaggedCodec) Pit.dumps Pit.start Pit.steps = Ok (s', f) /\
    forall c,
      cnt c (over_run (CD := TaggedCodec) Pit.dumps (offered_by (CD := TaggedCodec)) Pit.start Pit.steps) =
        count_of (suppressed (limiter s')) c + cnt c (waiting_list (limiter s')) +
        cnt c (over_run (CD := TaggedCodec) Pit.dumps (forgotten_by (CD := TaggedCodec)) Pit.start Pit.steps) +
        cnt c f.*2 + cnt c (held (out s')) /\
      count_of (h_published (live_health s')) c = tally Published c f.
Proof.
  split; [vm_compute; reflexivity|].
  apply (live_accounts (CD := TaggedCodec) Pit.dumps Pit.env_settings (Pit.view 10 None) 1 f0 Pit.start Pit.steps);
    [cbn; lia | vm_compute; reflexivity..].
Defined.

Lemma vehicle_never_moves_witness :
  max_hz (defaults (live_config Pit.after.1)) = f_of_Z 20 /\
  for_car "car7" Pit.after.1 /\
  (forall w, l_vehicle_id Pit.env_settings = Some w -> live_vehicle Pit.start = w) /\
  (forall w, lc_vehicle (Pit.view 10 None) = Some w -> live_vehicle Pit.start = w).
Proof.
  split; [vm_compute; reflexivity|].
  apply (vehicle_never_moves (CD := TaggedCodec) Pit.dumps Pit.env_settings (Pit.view 10 None) 1 f0 Pit.start Pit.steps
    Pit.after.1 Pit.after.2); vm_compute; reflexivity.
Defined.

(** A value that waits when the view is reloaded is counted nowhere: not
    published, not suppressed, gone. *)
Example reload_forgets_a_waiting_value :
  let steps := [Consume (Some Pit.registry) (Pit.at_ms 1000) Pit.same Pit.no_load; Broker Opened;
                Consume (Some (Pit.batch 900)) (Pit.at_ms 6000) Pit.same Pit.no_load;
                Consume (Some (Pit.batch 901)) (Pit.at_ms 6050) Pit.same Pit.no_load; Hup;
                Consume None (Pit.at_ms 6060) (Ok 2) (Ok (Pit.view 20 None))] in
  match live_run (CD := TaggedCodec) Pit.dumps Pit.start steps with
  | Ok (s, f) =>
      count_of (published (limiter s)) "engine.rpm" = 1 /\ count_of (suppressed (limiter s)) "engine.rpm" = 0 /\
      waiting_list (limiter s) = [] /\ map lu_value (held (out s)) = [Some (VInt 900)]
  | Raise _ => False
  end.
Proof. vm_compute. repeat split. Qed.
