(* ===== verification/ExtraService.v ===== *)
(** The pit's elapsed clocks as a service ([TimingService] of
    [src/pit/timing_extrapolator/service.py], with [config.py] and
    [health.py]): messages in, a two-place outbox, and the MQTT loop that
    empties it.

    The loop's steps end at its awaits, as in [MqttSink]; ticks and messages
    fill the outbox between them. The outbox may lose values, but
    [outbox_keeps_the_newest] says never the newest of a clock. *)

From S2P Require Import Prelude PyFloat PyText Wire RegistryCache Limiter Extrapolator TimingDisplay MqttSink PitSettings.

Local Open Scope Z_scope.

Record TimingConfig := mkTimingConfig {
  tc_vehicle : option string;
  tc_publish_hz : float;
  tc_max_clock_offset_s : float;
  tc_max_clock_stratum : Z;
  tc_allowed_clock_sources : list string;
  tc_best_lap_multiple : float;
  tc_fallback_max_lap_s : float
}.
Definition output_channels : list string := ["timing.lap_elapsed_pit"; "timing.sector_elapsed_pit"].

(** [TimingConfig]'s field constraints. *)
Definition positive_rate (x : float) : bool := fltb f0 x && is_finite x.
Definition timing_config_ok (c : TimingConfig) : bool :=
  match tc_vehicle c with Some v => negb (is_blank v) | None => true end &&
  positive_rate (tc_publish_hz c) && positive_rate (tc_max_clock_offset_s c) && (1 <=? tc_max_clock_stratum c) &&
  forallb (fun s => negb (is_blank s)) (tc_allowed_clock_sources c) &&
  positive_rate (tc_best_lap_multiple c) && positive_rate (tc_fallback_max_lap_s c).

Definition policy_of (c : TimingConfig) : ClockPolicy :=
  mkPolicy (tc_fallback_max_lap_s c) (tc_max_clock_offset_s c) (tc_max_clock_stratum c)
    (map str_upper (tc_allowed_clock_sources c)) (tc_best_lap_multiple c).

(** * Health *)

Record XHealth := mkXHealth {
  xh_stream : string;
  xh_subject_filter : string;
  mqtt_connected : bool;
  xh_mqtt_drops : Z;
  xh_mqtt_reconnects : Z;
  xh_nats_reconnects : Z;
  xh_registries : Z;
  xh_unknown_seq_batches : Z;
  xh_bad_version_batches : Z;
  xh_malformed_payloads : Z;
  xh_malformed_events : Z;
  xh_published : gmap string Z;
  xh_status : gmap string string;
  xh_reason : gmap string (option string)
}.

Definition xhealth_init (stream subject : string) : XHealth := mkXHealth stream subject false 0 0 0 0 0 0 0 0 ∅ ∅ ∅.

Definition x_note_publish (channel : string) (v : ClockValue) (h : XHealth) : XHealth :=
  mkXHealth (xh_stream h) (xh_subject_filter h) (mqtt_connected h) (xh_mqtt_drops h) (xh_mqtt_reconnects h)
    (xh_nats_reconnects h) (xh_registries h) (xh_unknown_seq_batches h) (xh_bad_version_batches h)
    (xh_malformed_payloads h) (xh_malformed_events h) (add_count (xh_published h) channel)
    (<[channel := cv_status v]> (xh_status h)) (<[channel := cv_reason v]> (xh_reason h)).
Definition x_mqtt (up : bool) (drops reconnects : Z) (h : XHealth) : XHealth :=
  mkXHealth (xh_stream h) (xh_subject_filter h) up (xh_mqtt_drops h + drops) (xh_mqtt_reconnects h + reconnects)
    (xh_nats_reconnects h) (xh_registries h) (xh_unknown_seq_batches h) (xh_bad_version_batches h)
    (xh_malformed_payloads h) (xh_malformed_events h) (xh_published h) (xh_status h) (xh_reason h).
Definition x_input (registries payloads events : Z) (h : XHealth) : XHealth :=
  mkXHealth (xh_stream h) (xh_subject_filter h) (mqtt_connected h) (xh_mqtt_drops h) (xh_mqtt_reconnects h)
    (xh_nats_reconnects h) (xh_registries h + registries) (xh_unknown_seq_batches h) (xh_bad_version_batches h)
    (xh_malformed_payloads h + payloads) (xh_malformed_events h + events) (xh_published h) (xh_status h) (xh_reason h).
Definition x_cache (c : RegistryCache) (h : XHealth) : XHealth :=
  mkXHealth (xh_stream h) (xh_subject_filter h) (mqtt_connected h) (xh_mqtt_drops h) (xh_mqtt_reconnects h)
    (xh_nats_reconnects h) (xh_registries h) (unknown_seq_batches c) (bad_version_batches c)
    (xh_malformed_payloads h) (xh_malformed_events h) (xh_published h) (xh_status h) (xh_reason h).

(** * The outbox *)

(** A clock's channel, its value and the time it was computed for. *)
Record item := mkItem { it_channel : string; it_value : ClockValue; it_at : float }.

Definition _OUTBOX_SIZE : nat := 2.

(** [put_nowait] until the queue is full. *)
Definition put_all (l : list item) : list item := take _OUTBOX_SIZE l.

(** A full outbox keeps one value per channel, the newest. *)
Definition by_channel (retained : list item) (new : item) : list (string * item) :=
  od_set (it_channel new) new (fold_left (fun d i => od_set (it_channel i) i d) retained []).

Definition queue_publish (outbox : list item) (new : item) : res (list item * Z) :=
  if negb (bool_decide (it_channel new ∈ output_channels)) then raise ValueError ("refusing non-pit output " +:+ it_channel new)
  else if (_OUTBOX_SIZE <=? length outbox)%nat then Ok (put_all (by_channel outbox new).*2, 1)
  else Ok (outbox ++ [new], 0).

Section Clock.
Context (json_dumps : obj -> string).

Definition opt_float (x : option float) : obj := match x with Some x => OFloat x | None => ONone end.

Definition clock_message (vehicle channel : string) (now_s : float) (v : ClockValue) : res (string * string) :=
  if negb (bool_decide (channel ∈ output_channels)) then raise ValueError ("refusing to publish non-pit timing channel " +:+ channel)
  else
    time ← f_round (fmul now_s (f_of_Z 1000));
    display ← pit_clock_display (cv_value v) (cv_status v);
    let document := [("time", OInt time); ("value", opt_float (cv_value v)); ("display", OStr display);
                     ("status", OStr (cv_status v)); ("source", OStr "pit")] ++
      match cv_reason v with Some r => [("reason", OStr r)] | None => [] end in
    payload ← strict_dumps json_dumps (ODict document);
    Ok ("openlaps/" +:+ vehicle +:+ "/" +:+ channel, payload).

(** * The service *)

(** Where the MQTT loop waits: for the broker, for the outbox, for a publish,
    or out a failure. *)
Inductive loop_at := Connecting | Waiting | Sending (i : item) | Resting.

Record TimingService := mkService {
  xs_vehicle : string;
  engine : TimingExtrapolator;
  xs_cache : RegistryCache;
  xs_health : XHealth;
  _outbox : list item;
  xs_at : loop_at
}.

Definition service_vehicle (settings : TimingServiceSettings) (config : TimingConfig) : res string :=
  match tc_vehicle config, x_vehicle_id settings with
  | None, None => raise ValueError ("no vehicle id: set OPENLAPS_VEHICLE_ID, or name one in " +:+ x_config_path settings)
  | None, Some v => Ok v
  | Some v, Some w =>
      if String.eqb w v then Ok v
      else raise ValueError (x_config_path settings +:+ ": vehicle " +:+ repr_str v +:+ " disagrees with OPENLAPS_VEHICLE_ID=" +:+ repr_str w)
  | Some v, None => Ok v
  end.

Definition service_init (settings : TimingServiceSettings) (config : TimingConfig) : res TimingService :=
  vehicle ← service_vehicle settings config;
  Ok (mkService vehicle (extrapolator_init (policy_of config)) cache_init
        (xhealth_init (x_stream settings) ("tele." +:+ vehicle +:+ ".>")) [] Connecting).

Definition with_xhealth (f : XHealth -> XHealth) (s : TimingService) : TimingService :=
  mkService (xs_vehicle s) (engine s) (xs_cache s) (f (xs_health s)) (_outbox s) (xs_at s).
Definition with_engine (e : TimingExtrapolator) (s : TimingService) : TimingService :=
  mkService (xs_vehicle s) e (xs_cache s) (xs_health s) (_outbox s) (xs_at s).
Definition with_xcache (c : RegistryCache) (s : TimingService) : TimingService :=
  mkService (xs_vehicle s) (engine s) c (xs_health s) (_outbox s) (xs_at s).
Definition with_box (l : list item) (at_ : loop_at) (s : TimingService) : TimingService :=
  mkService (xs_vehicle s) (engine s) (xs_cache s) (xs_health s) l at_.

Definition _queue_publish (s : TimingService) (new : item) : TimingService * res unit :=
  match queue_publish (_outbox s) new with
  | Raise e => (s, Raise e)
  | Ok (box, drops) => (with_xhealth (x_mqtt (mqtt_connected (xs_health s)) drops 0) (with_box box (xs_at s) s), Ok ())
  end.

Fixpoint _emit (s : TimingService) (values : list (string * ClockValue)) (now_s : float) : TimingService * res unit :=
  match values with
  | [] => (s, Ok ())
  | (channel, v) :: values =>
      match _queue_publish s (mkItem channel v now_s) with
      | (s, Raise e) => (s, Raise e)
      | (s, Ok _) => _emit s values now_s
      end
  end.

Context (json_loads : string -> option obj) (py_str : obj -> string).
Context (float_of_str : string -> res float) (int_of_str : string -> res Z).

Definition _publish_tick (s : TimingService) (now_s : float) : TimingService * res unit :=
  match tick py_str float_of_str int_of_str (engine s) now_s with
  | Raise e => (s, Raise e)
  | Ok values => _emit s values now_s
  end.

Fixpoint handle_decoded (s : TimingService) (samples : list DecodedSample) : TimingService * res unit :=
  match samples with
  | [] => (s, Ok ())
  | d :: samples =>
      let channel := c_name (ds_channel d) in
      if negb (bool_decide (channel ∈ _INPUT_CHANNELS)) then handle_decoded s samples
      else
        match observe json_loads py_str float_of_str int_of_str (engine s) channel (value_obj (ds_value d)) with
        | (e, Raise x) =>
            let s := with_engine e s in
            if refused x then handle_decoded (with_xhealth (x_input 0 0 1) s) samples else (s, Raise x)
        | (e, Ok values) =>
            match _emit (with_engine e s) values (fdiv_ieee (ds_capture_unix_ms d) (f_of_Z 1000)) with
            | (s, Raise x) => (s, Raise x)
            | (s, Ok _) => handle_decoded s samples
            end
        end
  end.

Context `{CD : Codec}.

Definition _handle_message (s : TimingService) (headers : list (string * string)) (data : payload)
    : TimingService * res unit :=
  if String.eqb (default "batch" (od_get MSG_TYPE_HEADER headers)) MSG_TYPE_REGISTRY then
    match parse_registry data with
    | None => (with_xhealth (x_input 0 1 0) s, Ok ())
    | Some registry => (with_xhealth (x_input 1 0 0) (with_xcache (add_registry (xs_cache s) registry) s), Ok ())
    end
  else
    match decode_or_reason (xs_cache s) data with
    | (_, Raise _) => (with_xhealth (x_input 0 1 0) s, Ok ())
    | (cache, Ok decoded) =>
        let s := with_xhealth (x_cache cache) (with_xcache cache s) in
        match decoded with inl d => handle_decoded s (db_samples d) | inr _ => (s, Ok ()) end
    end.

(** * Runs *)

Inductive x_step :=
  | Message (headers : list (string * string)) (data : payload)
  | Tick (now_s : float)
  | XOpened
  | XRefused
  | XTake
  | XAnswered (ok : bool)
  | XRested.

(** The handler of the loop's [except]: a second's rest, and another attempt
    counted. *)
Definition x_failed (s : TimingService) : TimingService := with_xhealth (x_mqtt false 0 1) (with_box (_outbox s) Resting s).

(** A step of the service; with it, the item it takes from the outbox. A
    message or a tick that raises leaves what it had put. *)
Definition x_turn (s : TimingService) (st : x_step) : TimingService * list item :=
  match st, xs_at s with
  | Message headers data, _ => ((_handle_message s headers data).1, [])
  | Tick now, _ => ((_publish_tick s now).1, [])
  | XOpened, Connecting => (with_xhealth (x_mqtt true 0 0) (with_box (_outbox s) Waiting s), [])
  | XRefused, Connecting => (x_failed s, [])
  | XTake, Waiting =>
      match _outbox s with
      | [] => (s, [])
      | i :: rest =>
          let s := with_box rest Waiting s in
          match clock_message (xs_vehicle s) (it_channel i) (it_at i) (it_value i) with
          | Raise _ => (x_failed s, [i])
          | Ok _ => (with_box rest (Sending i) s, [i])
          end
      end
  | XAnswered true, Sending i => (with_xhealth (x_note_publish (it_channel i) (it_value i)) (with_box (_outbox s) Waiting s), [])
  | XAnswered false, Sending _ => (x_failed s, [])
  | XRested, Resting => (with_box (_outbox s) Connecting s, [])
  | _, _ => (s, [])
  end.

Fixpoint x_run (s : TimingService) (steps : list x_step) : TimingService * list item :=
  match steps with
  | [] => (s, [])
  | st :: steps => let '(s, taken) := x_turn s st in let '(s, more) := x_run s steps in (s, taken ++ more)
  end.

(** * What is put in the outbox *)

(** The items [_emit] is asked to put. *)
Definition items_of (values : list (string * ClockValue)) (now_s : float) : list item :=
  map (fun cv => mkItem cv.1 cv.2 now_s) values.

Fixpoint decoded_items (e : TimingExtrapolator) (samples : list DecodedSample) : list item :=
  match samples with
  | [] => []
  | d :: samples =>
      let channel := c_name (ds_channel d) in
      if negb (bool_decide (channel ∈ _INPUT_CHANNELS)) then decoded_items e samples
      else
        match observe json_loads py_str float_of_str int_of_str e channel (value_obj (ds_value d)) with
        | (e, Raise x) => if refused x then decoded_items e samples else []
        | (e, Ok values) => items_of values (fdiv_ieee (ds_capture_unix_ms d) (f_of_Z 1000)) ++ decoded_items e samples
        end
  end.

Definition put_by (s : TimingService) (st : x_step) : list item :=
  match st with
  | Tick now =>
      match tick py_str float_of_str int_of_str (engine s) now with Ok values => items_of values now | Raise _ => [] end
  | Message headers data =>
      if String.eqb (default "batch" (od_get MSG_TYPE_HEADER headers)) MSG_TYPE_REGISTRY then []
      else match decode_or_reason (xs_cache s) data with
           | (_, Ok (inl d)) => decoded_items (engine s) (db_samples d)
           | _ => []
           end
  | _ => []
  end.

Fixpoint put_in (s : TimingService) (steps : list x_step) : list item :=
  match steps with [] => [] | st :: steps => put_by s st ++ put_in (x_turn s st).1 steps end.

(** Every clock the engine gives is one of the two. *)
Lemma engine_channels e channel v e' values now :
  observe json_loads py_str float_of_str int_of_str e channel v = (e', Ok values) ->
  Forall (fun i => it_channel i ∈ output_channels) (items_of values now).
Proof.
  intros H. apply Forall_map. revert H. unfold observe, observe_event, observe_sector, observe_lap, authoritative.
  repeat (case_match; simplify_eq/=; try done); intros; simplify_eq; repeat constructor; cbn; set_solver.
Qed.

Lemma tick_channels e now values :
  tick py_str float_of_str int_of_str e now = Ok values ->
  Forall (fun i => it_channel i ∈ output_channels) (items_of values now).
Proof.
  unfold tick. intros (r & _ & [= <-])%res_bind_Ok. unfold items_of. apply Forall_map.
  cbn [omap list_omap]. destruct (_lap_started_at e), (_sector_started_at e); repeat constructor; cbn; set_solver.
Qed.

(** * The newest value of a clock is never the one lost *)

Definition of_clock (c : string) (l : list item) : list item := filter (fun i => it_channel i = c) l.

Record fresh (puts taken box : list item) : Prop := {
  fr_size : (length box <= _OUTBOX_SIZE)%nat;
  fr_known : Forall (fun i => it_channel i ∈ output_channels) box;
  fr_order c : (of_clock c (taken ++ box)) `sublist_of` (of_clock c puts);
  fr_newest c : last (of_clock c (taken ++ box)) = last (of_clock c puts)
}.

Lemma of_clock_app c l m : of_clock c (l ++ m) = of_clock c l ++ of_clock c m.
Proof. apply filter_app. Qed.
Lemma of_clock_one c i : of_clock c [i] = if decide (it_channel i = c) then [i] else [].
Proof. done. Qed.
Lemma of_clock_cons c i l : of_clock c (i :: l) = of_clock c [i] ++ of_clock c l.
Proof. apply (of_clock_app c [i] l). Qed.

Ltac each := repeat (apply Forall_cons_2; [done|]); apply Forall_nil_2.

(** What replacing does to a full outbox. *)
Lemma full_box box new :
  length box = 2%nat -> Forall (fun i => it_channel i ∈ output_channels) box -> it_channel new ∈ output_channels ->
  let box' := put_all (by_channel box new).*2 in
  (length box' <= _OUTBOX_SIZE)%nat /\ Forall (fun i => it_channel i ∈ output_channels) box' /\
  of_clock (it_channel new) box' = [new] /\
  forall c, c <> it_channel new ->
    (of_clock c box') `sublist_of` (of_clock c box) /\ last (of_clock c box') = last (of_clock c box).
Proof.
  destruct box as [|a [|b [|? ?]]]; try done. intros _ Hk Hn. inversion_clear Hk as [|? ? Ha Hk']. inversion_clear Hk' as [|? ? Hb _].
  unfold put_all, by_channel. cbn [fold_left od_set].
  assert (Htwo : forall x y z : string, x ∈ output_channels -> y ∈ output_channels -> z ∈ output_channels ->
            x <> y -> z = x \/ z = y) by (intros x y z; unfold output_channels; set_solver).
  destruct (decide (it_channel b = it_channel a)) as [Eab|Nab]; cbn [od_set].
  - destruct (decide (it_channel new = it_channel a)) as [Ena|Nna]; cbn [od_set fmap list_fmap fst snd take _OUTBOX_SIZE].
    + split_and!; [unfold _OUTBOX_SIZE; simpl; lia | by each | by rewrite of_clock_one, decide_True |].
      intros c Hc. rewrite (of_clock_cons c a [b]), !of_clock_one, !decide_False by congruence. done.
    + split_and!; [unfold _OUTBOX_SIZE; simpl; lia | by each | rewrite (of_clock_cons _ _ [_]), !of_clock_one, decide_False, decide_True by congruence; done |].
      intros c Hc. rewrite (of_clock_cons c b [new]), (of_clock_cons c a [b]), !of_clock_one, (decide_False (P := it_channel new = c)) by congruence.
      destruct (decide (it_channel b = c)); [rewrite decide_True by congruence | rewrite decide_False by congruence]; [|done].
      split; [by apply sublist_cons | done].
  - assert (it_channel new = it_channel a \/ it_channel new = it_channel b) as [E|E] by (apply Htwo; auto).
    + rewrite (decide_True (P := it_channel new = it_channel a)) by done. cbn [fmap list_fmap fst snd take _OUTBOX_SIZE].
      split_and!; [unfold _OUTBOX_SIZE; simpl; lia | by each | rewrite (of_clock_cons _ _ [_]), !of_clock_one, decide_True, decide_False by congruence; done |].
      intros c Hc. rewrite (of_clock_cons c new [b]), (of_clock_cons c a [b]), !of_clock_one, (decide_False (P := it_channel new = c)), (decide_False (P := it_channel a = c)) by congruence. done.
    + rewrite (decide_False (P := it_channel new = it_channel a)) by congruence. rewrite decide_True by done.
      cbn [fmap list_fmap fst snd take _OUTBOX_SIZE].
      split_and!; [unfold _OUTBOX_SIZE; simpl; lia | by each | rewrite (of_clock_cons _ _ [_]), !of_clock_one, decide_False, decide_True by congruence; done |].
      intros c Hc. rewrite (of_clock_cons c a [new]), (of_clock_cons c a [b]), !of_clock_one, (decide_False (P := it_channel new = c)), (decide_False (P := it_channel b = c)) by congruence. done.
Qed.

Lemma put_fresh puts taken box new :
  fresh puts taken box -> it_channel new ∈ output_channels ->
  exists box' d, queue_publish box new = Ok (box', d) /\ fresh (puts ++ [new]) taken box'.
Proof.
  intros [F1 F2 F3 F4] Hn. unfold queue_publish. rewrite bool_decide_true by done. cbn [negb].
  destruct (_OUTBOX_SIZE <=? length box)%nat eqn:E.
  - apply Nat.leb_le in E. destruct (full_box box new ltac:(unfold _OUTBOX_SIZE in *; lia) F2 Hn) as (B1 & B2 & B3 & B4).
    set (box' := put_all _) in *. exists box', 1. split; [done|]. split; [done | done | |]; intros c;
      rewrite !of_clock_app, of_clock_one; specialize (F3 c); specialize (F4 c); rewrite of_clock_app in F3, F4.
    + case_decide as Ec; [|destruct (B4 c) as [Hs _]; [congruence|]; rewrite app_nil_r; etransitivity; [|exact F3]; by apply sublist_app].
      subst c. rewrite B3. apply sublist_app; [|done]. etransitivity; [|exact F3]. by apply sublist_inserts_r.
    + case_decide as Ec; [subst c; by rewrite B3, !last_snoc|]. destruct (B4 c) as [_ Hl]; [congruence|].
      rewrite app_nil_r, <- F4, !last_app, Hl. done.
  - apply Nat.leb_gt in E. exists (box ++ [new]), 0. split; [done|]. split.
    + rewrite length_app. unfold _OUTBOX_SIZE in *. simpl. lia.
    + apply Forall_app; split; [done|]. by each.
    + intros c. specialize (F3 c). rewrite app_assoc, !of_clock_app in *. by apply sublist_app.
    + intros c. specialize (F4 c). rewrite app_assoc, (of_clock_app c (taken ++ box)), (of_clock_app c puts), !last_app. by rewrite F4.
Qed.

(** A whole batch of clocks is put, and none is refused. *)
Lemma emit_fresh now values : forall s puts taken,
  fresh puts taken (_outbox s) -> Forall (fun i => it_channel i ∈ output_channels) (items_of values now) ->
  exists s', _emit s values now = (s', Ok ()) /\ fresh (puts ++ items_of values now) taken (_outbox s') /\
    engine s' = engine s /\ xs_at s' = xs_at s /\ xs_vehicle s' = xs_vehicle s.
Proof.
  induction values as [|[c v] values IH]; intros s puts taken Hf Hk; cbn [_emit items_of map].
  - exists s. by rewrite app_nil_r.
  - inversion_clear Hk as [|? ? Hc Hk']. destruct (put_fresh _ _ _ (mkItem c v now) Hf Hc) as (box' & d & Hq & Hf').
    unfold _queue_publish. cbn [fst snd] in *. rewrite Hq.
    set (s1 := with_xhealth _ _). destruct (IH s1 (puts ++ [mkItem c v now]) taken Hf' Hk') as (s2 & He & F & E1 & E2 & E3).
    exists s2. rewrite <- app_assoc in F. done.
Qed.

Lemma decoded_fresh samples : forall s puts taken,
  fresh puts taken (_outbox s) ->
  let s' := (handle_decoded s samples).1 in
  fresh (puts ++ decoded_items (engine s) samples) taken (_outbox s') /\ xs_at s' = xs_at s.
Proof.
  induction samples as [|d samples IH]; intros s puts taken Hf; cbn [handle_decoded decoded_items].
  - by rewrite app_nil_r.
  - destruct (negb _); [by apply IH|]. set (ch := c_name _). set (v := value_obj _).
    destruct (observe json_loads py_str float_of_str int_of_str (engine s) ch v) as [e [values|x]] eqn:Eo.
    + destruct (emit_fresh (fdiv_ieee (ds_capture_unix_ms d) (f_of_Z 1000)) values (with_engine e s) puts taken Hf (engine_channels _ _ _ _ _ _ Eo))
        as (s1 & -> & F & E1 & E2 & _).
      destruct (IH s1 _ taken F) as [G1 G2]. rewrite E1 in G1. rewrite app_assoc. split; [exact G1 | by rewrite G2, E2].
    + destruct (refused x); [by apply (IH (with_xhealth (x_input 0 0 1) (with_engine e s)))|]. by rewrite app_nil_r.
Qed.

Lemma take_fresh puts taken i rest : fresh puts taken (i :: rest) -> fresh puts (taken ++ [i]) rest.
Proof.
  intros [F1 F2 F3 F4]. split; [unfold _OUTBOX_SIZE in *; simpl in F1; lia | by apply Forall_cons in F2 as [_ F2] | |];
    intros c; rewrite <- app_assoc; [apply F3 | apply F4].
Qed.

Lemma turn_fresh s st puts taken :
  fresh puts taken (_outbox s) ->
  fresh (puts ++ put_by s st) (taken ++ (x_turn s st).2) (_outbox (x_turn s st).1).
Proof.
  intros Hf. destruct st as [headers data|now| | | |ok|]; cbn [x_turn put_by].
  - rewrite app_nil_r. unfold _handle_message. destruct (String.eqb _ _).
    { rewrite app_nil_r. by destruct (parse_registry data). }
    destruct (decode_or_reason (xs_cache s) data) as [c [[d|r]|e]]; cbn [fst snd]; rewrite ?app_nil_r; try done.
    set (s1 := with_xhealth _ _). by apply (decoded_fresh (db_samples d) s1).
  - rewrite app_nil_r. unfold _publish_tick. destruct (tick _ _ _ (engine s) now) as [values|e] eqn:Et; cbn [fst];
      [|by rewrite app_nil_r].
    destruct (emit_fresh now values s puts taken Hf (tick_channels _ _ _ Et)) as (s1 & -> & F & _). exact F.
  - destruct (xs_at s); by rewrite !app_nil_r.
  - destruct (xs_at s); by rewrite !app_nil_r.
  - rewrite app_nil_r. destruct (xs_at s); rewrite ?app_nil_r; try done.
    destruct (_outbox s) as [|i rest] eqn:Eb; cbn [fst snd]; [by rewrite Eb, app_nil_r|].
    apply take_fresh in Hf. by destruct (clock_message _ _ _ _).
  - destruct ok, (xs_at s); by rewrite !app_nil_r.
  - destruct (xs_at s); by rewrite !app_nil_r.
Qed.

Lemma run_fresh steps : forall s puts taken,
  fresh puts taken (_outbox s) ->
  fresh (puts ++ put_in s steps) (taken ++ (x_run s steps).2) (_outbox (x_run s steps).1).
Proof.
  induction steps as [|st steps IH]; intros s puts taken Hf; cbn [x_run put_in]; [by rewrite !app_nil_r|].
  pose proof (turn_fresh s st puts taken Hf) as H1. destruct (x_turn s st) as [s1 t]. cbn [fst snd] in *.
  specialize (IH s1 _ _ H1). destruct (x_run s1 steps) as [s2 more]. cbn [fst snd] in *. by rewrite !app_assoc.
Qed.

(** Whatever the broker does and however the clocks come, the outbox holds at
    most two values, a clock's values leave it in the order they came, and the
    newest value of each clock is the last one taken from it or still in it:
    what the full outbox gives up is only ever superseded. *)
Theorem outbox_keeps_the_newest settings config s steps :
  service_init settings config = Ok s ->
  fresh (put_in s steps) (x_run s steps).2 (_outbox (x_run s steps).1).
Proof.
  intros Hi. unfold service_init in Hi. apply res_bind_Ok in Hi as (v & _ & [= <-]).
  apply (run_fresh steps _ [] []). split; [unfold _OUTBOX_SIZE; simpl; lia | constructor | done | done].
Qed.
End Clock.

(** A lap comes in while the broker is away: the crossing, then ticks of two
    clocks into two places. *)
Module Clocks.
#[local] Existing Instance TaggedCodec.
Definition config : TimingConfig := mkTimingConfig None (f_of_Z 10) (f_of_ratio 1 10) 4 ["GPS"] (f_of_Z 3) (f_of_Z 300).
Definition settings : TimingServiceSettings :=
  mkTimingSettings "timing.yaml" "nats" "TELE_VEHICLE" None "broker" 1883 None None 8084 (Some "car7").
Definition start : TimingService :=
  match service_init settings config with Ok s => s
  | Raise _ => mkService "" (extrapolator_init Garage.policy) cache_init (xhealth_init "" "") [] Connecting end.
Definition event : Channel := mkChannel 1 "lap.event" "derived" "" STRING f0 f0.
Definition registry : SampleBatch + ChannelRegistry := inr (mkRegistry 7 "car7" 0 [event]).
Definition lap : SampleBatch + ChannelRegistry := inl (mkSampleBatch 7 1000000 0 [mkPbSample 1 0 (Some (W_s "lap"))] 1).
Definition dumps (o : obj) : string := "{}".
Definition run := x_run (CD := TaggedCodec) dumps Garage.loads Garage.str_of Garage.no_float Garage.no_int.
Definition puts := put_in (CD := TaggedCodec) dumps Garage.loads Garage.str_of Garage.no_float Garage.no_int.
Definition steps : list (x_step (CD := TaggedCodec)) :=
  [Message (CD := TaggedCodec) [(MSG_TYPE_HEADER, MSG_TYPE_REGISTRY)] registry; Message (CD := TaggedCodec) [] lap;
   Tick (f_of_Z 1001); Tick (f_of_Z 1002); XOpened; XTake; XAnswered true; XTake; XAnswered false].
End Clocks.

Lemma outbox_keeps_the_newest_witness :
  map (fun i => (it_channel i, it_at i)) (Clocks.run Clocks.start Clocks.steps).2 =
    [("timing.lap_elapsed_pit", f_of_Z 1002); ("timing.sector_elapsed_pit", f_of_Z 1002)] /\
  fresh (Clocks.puts Clocks.start Clocks.steps) (Clocks.run Clocks.start Clocks.steps).2
    (_outbox (Clocks.run Clocks.start Clocks.steps).1).
Proof.
  split; [vm_compute; reflexivity|].
  apply (outbox_keeps_the_newest (CD := TaggedCodec) Clocks.dumps Garage.loads Garage.str_of Garage.no_float Garage.no_int
    Clocks.settings Clocks.config). vm_compute. reflexivity.
Defined.

(** Two values of one clock give way to a third at the price of one drop. *)
Example two_lost_one_counted :
  let v := mkClock None "gated" None in
  let lap at_s := mkItem "timing.lap_elapsed_pit" v (f_of_Z at_s) in
  queue_publish [lap 1; lap 2] (lap 3) = Ok ([lap 3], 1).
Proof. reflexivity. Qed.

(** A lap time that is not a number cannot be displayed: the value is lost and
    the connection with it, as if the broker had failed. *)
Example nan_lap_drops_the_connection :
  let i := mkItem "timing.lap_elapsed_pit" (mkClock (Some S754_nan) "authoritative" None) (f_of_Z 1000) in
  let s := mkService "car7" (extrapolator_init Garage.policy) cache_init (xhealth_init "" "") [i] Waiting in
  let '(s', taken) := Clocks.run s [XTake] in
  taken = [i] /\ xs_at s' = Resting /\ _outbox s' = [] /\ xh_mqtt_reconnects (xs_health s') = 1 /\
  xh_mqtt_drops (xs_health s') = 0.
Proof. vm_compute. repeat split. Qed.
