(* ===== verification/Ntrip.v ===== *)
(** The correction stream's pit end ([src/pit/ntrip_client]): the caster's
    handshake ([ntrip.py]), the position sentence sent upstream ([gga.py]),
    and the service that relays the caster's bytes ([service.py],
    [health.py]).

    The caster is what it answers: the lines of its header, the chunks of its
    stream. Base64 is a parameter. A handler of [run] that raises ends the
    service, as nothing above it catches; the position task is on its own. *)

From S2P Require Import Prelude PyFloat Stats PyText Wire RegistryCache Limiter MqttSink TimingDisplay PitSettings Nmea.

Local Open Scope Z_scope.

(** * The position sentence *)

(** [f"{n:0{width}d}"] of a number that is not negative. *)
Definition fmt_int (width : nat) (n : Z) : string := let s : string := pretty n in pad_zeros (width - String.length s) s.

(** A UTC time of day. *)
Record clock_time := mkTime { ct_hour : Z; ct_minute : Z; ct_second : Z; ct_microsecond : Z }.

Definition degrees_minutes (width : nat) (x : float) : res string :=
  whole ← f_trunc x;
  Ok (fmt_int width whole +:+ fmt_padded 7 4 (fmul (fsub x (f_of_Z whole)) (f_of_Z 60))).

Definition gga_body (lat lon : float) (t : clock_time) : res string :=
  let time_field := fmt_int 2 (ct_hour t) +:+ fmt_int 2 (ct_minute t) +:+ fmt_int 2 (ct_second t) +:+ "." +:+
                    fmt_int 2 (ct_microsecond t / 10000) in
  let '(ns, alat) := if fleb f0 lat then ("N", lat) else ("S", fopp lat) in
  let '(ew, alon) := if fleb f0 lon then ("E", lon) else ("W", fopp lon) in
  lat_field ← degrees_minutes 2 alat;
  lon_field ← degrees_minutes 3 alon;
  Ok (join "," ["GPGGA"; time_field; lat_field; ns; lon_field; ew; "1"; "08"; "1.0"; "0.0"; "M"; "0.0"; "M"; ""; ""]).

Definition CRLF : string := String (ascii_of_N 13) (String (ascii_of_N 10) EmptyString).

Definition build_gga (lat lon : float) (t : clock_time) : res string :=
  body ← gga_body lat lon t;
  Ok (String "$" (body +:+ String "*" (hex2 (xor_checksum body))) +:+ CRLF).

(** * The handshake *)

(** What [connect] ends in: a connection, the two refusals it names, or an
    exception of something it called. *)
Inductive connected_as :=
  | Streaming
  | AuthError (why : string)
  | CasterError (why : string)
  | Raised (e : exn).

Definition is_line_space (c : ascii) : bool := let n := N_of_ascii c in ((9 <=? n)%N && (n <=? 13)%N) || (n =? 32)%N.

Fixpoint span (f : ascii -> bool) (s : string) : string * string :=
  match s with
  | EmptyString => (EmptyString, EmptyString)
  | String c s' => if f c then let '(a, b) := span f s' in (String c a, b) else (EmptyString, s)
  end.

Definition strip_str (p s : string) : option string :=
  if String.prefix p s then Some (str_drop (String.length p) s) else None.

(** [^(?:ICY|HTTP/\d\.\d|SOURCETABLE)\s+(\d+)]. *)
Definition status_prefix (line : string) : option string :=
  match strip_str "ICY" line with
  | Some rest => Some rest
  | None =>
      match strip_str "HTTP/" line with
      | Some (String a (String b (String c rest))) =>
          if is_digit a && Ascii.eqb b "." && is_digit c then Some rest else None
      | Some _ => None
      | None => strip_str "SOURCETABLE" line
      end
  end.
Definition status_digits (line : string) : option string :=
  rest ← status_prefix line;
  match span is_line_space rest with
  | (EmptyString, _) => None
  | (_, rest) => match span is_digit rest with (EmptyString, _) => None | (digits, _) => Some digits end
  end.

Definition is_blank_line (line : string) : bool :=
  String.eqb line CRLF || String.eqb line (String (ascii_of_N 10) EmptyString) || is_blank line.

(** The header's lines up to the blank one; a read that raises goes on up, and
    a caster that says no more is timed out. *)
Fixpoint skip_header (lines : list (res string)) : res (list (res string)) :=
  match lines with
  | [] => raise OSError "TimeoutError"
  | Raise e :: _ => Raise e
  | Ok line :: lines => if is_blank_line line then Ok lines else skip_header lines
  end.

Section Client.
Context (b64 : string -> string).

Definition USER_AGENT : string := "NTRIP openlaps/0.1".
Definition line_of (s : string) : string := s +:+ CRLF.
Definition request (host : string) (port : Z) (mountpoint username password : string) : string :=
  line_of ("GET /" +:+ mountpoint +:+ " HTTP/1.1") +:+ line_of ("Host: " +:+ host +:+ ":" +:+ pretty port) +:+
  line_of "Ntrip-Version: Ntrip/2.0" +:+ line_of ("User-Agent: " +:+ USER_AGENT) +:+
  line_of ("Authorization: Basic " +:+ b64 (username +:+ ":" +:+ password)) +:+ CRLF.

(** [opened] is what opening the socket gives, [lines] what it then answers. *)
Definition connect (s : NtripSettings) (opened : res unit) (lines : list (res string)) : connected_as :=
  match opened with
  | Raise e => Raised e
  | Ok _ =>
      let req := request (n_host s) (n_port s) (n_mountpoint s) (n_username s) (n_password s) in
      if negb (str_all is_ascii req) then Raised (Exn ValueError "'ascii' codec can't encode")
      else
        match lines with
        | [] => Raised (Exn OSError "TimeoutError")
        | Raise e :: _ => Raised e
        | Ok status :: lines =>
            match status_digits status with
            | None => CasterError "unrecognised caster response"
            | Some digits =>
                match py_int digits with
                | None => Raised (Exn ValueError "Exceeds the limit for integer string conversion")
                | Some code =>
                    match skip_header lines with
                    | Raise e => Raised e
                    | Ok _ =>
                        if code =? 401 then AuthError "caster rejected credentials"
                        else if negb (code =? 200) then CasterError ("caster returned status " +:+ pretty code)
                        else Streaming
                    end
                end
            end
        end
  end.

(** * Health *)

Record NtripHealth := mkNHealth {
  nh_connected : bool;
  bytes_from_caster : Z;
  nh_publishes : Z;
  nh_reconnects : Z;
  auth_errors : Z;
  gga_sends : Z;
  bytes_per_s : float;
  publishes_per_s : float;
  last_byte_mono : option float;
  nh_window_start : float;
  nh_window_bytes : Z;
  nh_window_publishes : Z
}.

Definition nhealth_init (now : float) : NtripHealth := mkNHealth false 0 0 0 0 0 f0 f0 None now 0 0.

Definition observe_chunk (size : Z) (now : float) (h : NtripHealth) : NtripHealth :=
  mkNHealth (nh_connected h) (bytes_from_caster h + size) (nh_publishes h + 1) (nh_reconnects h) (auth_errors h)
    (gga_sends h) (bytes_per_s h) (publishes_per_s h) (Some now) (nh_window_start h) (nh_window_bytes h + size)
    (nh_window_publishes h + 1).
Definition nh_roll (now : float) (h : NtripHealth) : NtripHealth :=
  let elapsed := fsub now (nh_window_start h) in
  if fleb elapsed f0 then h
  else
    mkNHealth (nh_connected h) (bytes_from_caster h) (nh_publishes h) (nh_reconnects h) (auth_errors h) (gga_sends h)
      (fdiv_ieee (f_of_Z (nh_window_bytes h)) elapsed) (fdiv_ieee (f_of_Z (nh_window_publishes h)) elapsed)
      (last_byte_mono h) now 0 0.
Definition nh_note (up : bool) (reconnects auth ggas : Z) (h : NtripHealth) : NtripHealth :=
  mkNHealth up (bytes_from_caster h) (nh_publishes h) (nh_reconnects h + reconnects) (auth_errors h + auth)
    (gga_sends h + ggas) (bytes_per_s h) (publishes_per_s h) (last_byte_mono h) (nh_window_start h) (nh_window_bytes h)
    (nh_window_publishes h).

Definition last_byte_age_s (now : float) (h : NtripHealth) : option float :=
  (fun t => f_round_digits (fsub now t) 1) <$> last_byte_mono h.

(** * The relay *)

Definition _RECONNECT_START_S : float := f_of_Z 1.
Definition _RECONNECT_MAX_S : float := f_of_Z 30.
Definition _AUTH_ERROR_RETRY_S : float := f_of_Z 30.

(** Where the caster loop is: about to dial, out a wait, on a stream whose
    next position is due at a time, or ended by an exception. *)
Inductive caster_at :=
  | Dialing
  | Waiting (delay : float)
  | OnStream (gga_due : float)
  | Down (e : exn).

Record NtripService := mkNtripService {
  ntrip_settings : NtripSettings;
  nt_health : NtripHealth;
  _last_lat : option float;
  _last_lon : option float;
  nt_backoff : float;
  nt_at : caster_at
}.

Definition service_init (settings : NtripSettings) (now : float) : NtripService :=
  mkNtripService settings (nhealth_init now) None None _RECONNECT_START_S Dialing.

Definition nt_goto (at_ : caster_at) (backoff : float) (h : NtripHealth) (s : NtripService) : NtripService :=
  mkNtripService (ntrip_settings s) h (_last_lat s) (_last_lon s) backoff at_.
Definition _position (s : NtripService) : option (float * float) :=
  match _last_lat s, _last_lon s with Some lat, Some lon => Some (lat, lon) | _, _ => None end.

(** One attempt to connect: the wrong password is not worth hurrying over,
    anything else that cannot be reached backs off. *)
Definition dial (s : NtripService) (opened : res unit) (lines : list (res string)) (now : float) : NtripService :=
  let h := nt_health s in
  let unreachable := nt_goto (Waiting (nt_backoff s)) (doubled (nt_backoff s) _RECONNECT_MAX_S) (nh_note (nh_connected h) 1 0 0 h) s in
  match connect (ntrip_settings s) opened lines with
  | AuthError _ => nt_goto (Waiting _AUTH_ERROR_RETRY_S) (nt_backoff s) (nh_note (nh_connected h) 0 1 0 h) s
  | CasterError _ => unreachable
  | Raised e => match exn_kind e with OSError => unreachable | _ => nt_goto (Down e) (nt_backoff s) h s end
  | Streaming =>
      nt_goto (OnStream (fadd now (n_gga_interval_s (ntrip_settings s)))) _RECONNECT_START_S (nh_note true 0 0 0 h) s
  end.

(** The connection is closed however the stream ends. *)
Definition hang_up (at_ : caster_at) (h : NtripHealth) (s : NtripService) : NtripService :=
  nt_goto at_ (nt_backoff s) (nh_note false 0 0 0 h) s.

(** One turn of [_stream]: the chunk read ("" for an idle caster or its end),
    the publish, and the position when it is due; [sent] is what writing it
    gives. With the state, what was published and what was written. *)
Definition stream_turn (s : NtripService) (gga_due : float) (chunk : res string) (publish : res unit) (sent : res unit)
    (now : float) (t : clock_time) : NtripService * list string * list string :=
  let h := nt_health s in
  match chunk with
  | Raise e => (hang_up (Down e) h s, [], [])
  | Ok EmptyString => (hang_up Dialing h s, [], [])
  | Ok chunk =>
      match publish with
      | Raise e => (hang_up (Down e) h s, [], [])
      | Ok _ =>
          let h := observe_chunk (Z.of_nat (String.length chunk)) now h in
          let stay h due := nt_goto (OnStream due) (nt_backoff s) h s in
          let later := fadd now (n_gga_interval_s (ntrip_settings s)) in
          if negb (n_enable_gga (ntrip_settings s)) || fltb now gga_due then (stay h gga_due, [chunk], [])
          else
            match _position s with
            | None => (stay h later, [chunk], [])
            | Some (lat, lon) =>
                match build_gga lat lon t with
                | Raise e => (hang_up (Down e) h s, [chunk], [])
                | Ok sentence =>
                    match sent with
                    | Raise e => (hang_up (Down e) h s, [chunk], [])
                    | Ok _ => (stay (nh_note (nh_connected h) 0 0 1 h) later, [chunk], [sentence])
                    end
                end
            end
      end
  end.

(** * The position feed *)

Definition POSITION_LAT_CHANNEL : string := "position.lat".
Definition POSITION_LON_CHANNEL : string := "position.lon".

(** [float(sample.value)]. *)
Definition float_value (v : option SampleValue) : res float :=
  match v with
  | None => raise TypeError "float() argument must be a string or a real number, not 'NoneType'"
  | Some (VFloat x) => Ok x
  | Some (VInt z) => float_of_int z
  | Some (VBool b) => Ok (if b then f_of_Z 1 else f0)
  | Some (VStr text) => match py_float text with Some x => Ok x | None => raise ValueError "could not convert string to float" end
  end.

Definition set_position (lat lon : option float) (s : NtripService) : NtripService :=
  mkNtripService (ntrip_settings s) (nt_health s) lat lon (nt_backoff s) (nt_at s).

Fixpoint note_samples (s : NtripService) (samples : list DecodedSample) : NtripService * res unit :=
  match samples with
  | [] => (s, Ok ())
  | d :: samples =>
      let channel := c_name (ds_channel d) in
      if String.eqb channel POSITION_LAT_CHANNEL then
        match float_value (ds_value d) with
        | Raise e => (s, Raise e)
        | Ok x => note_samples (set_position (Some x) (_last_lon s) s) samples
        end
      else if String.eqb channel POSITION_LON_CHANNEL then
        match float_value (ds_value d) with
        | Raise e => (s, Raise e)
        | Ok x => note_samples (set_position (_last_lat s) (Some x) s) samples
        end
      else note_samples s samples
  end.

Context `{CD : Codec}.

Definition ends_with (suffix s : string) : bool :=
  (String.length suffix <=? String.length s)%nat && String.eqb (str_drop (String.length s - String.length suffix) s) suffix.

(** One message of [_consume_position]; what it raises ends the task, and
    nothing looks at the task. *)
Definition position_message (s : NtripService) (cache : RegistryCache) (headers : list (string * string)) (subject : string)
    (data : payload) : NtripService * RegistryCache * res unit :=
  let registry := match od_get MSG_TYPE_HEADER headers with Some k => String.eqb k MSG_TYPE_REGISTRY | None => false end in
  if registry || ends_with ("." +:+ REGISTRY_SOURCE_CLASS) subject then
    match parse_registry data with
    | None => (s, cache, raise DecodeError "Error parsing message")
    | Some r => (s, add_registry cache r, Ok ())
    end
  else
    match decode_or_reason cache data with
    | (cache, Raise e) => (s, cache, Raise e)
    | (cache, Ok (inr _)) => (s, cache, Ok ())
    | (cache, Ok (inl d)) => let '(s, r) := note_samples s (db_samples d) in (s, cache, r)
    end.

(** * Runs *)

Record NtripWorld := mkWorld {
  nw_service : NtripService;
  nw_cache : RegistryCache;
  nw_tracking : bool
}.

Inductive ntrip_step :=
  | Dial (opened : res unit) (lines : list (res string)) (now : float)
  | Woken
  | Chunk (chunk : res string) (publish : res unit) (sent : res unit) (now : float) (t : clock_time)
  | Position (headers : list (string * string)) (subject : string) (data : payload)
  | NRoll (now : float).

Definition world_init (settings : NtripSettings) (now : float) : NtripWorld :=
  mkWorld (service_init settings now) cache_init (n_enable_gga settings).

Definition with_service (s : NtripService) (w : NtripWorld) : NtripWorld := mkWorld s (nw_cache w) (nw_tracking w).

Definition ntrip_turn (w : NtripWorld) (st : ntrip_step) : NtripWorld * list string * list string :=
  let s := nw_service w in
  match st, nt_at s with
  | Dial opened lines now, Dialing => (with_service (dial s opened lines now) w, [], [])
  | Woken, Waiting _ => (with_service (nt_goto Dialing (nt_backoff s) (nt_health s) s) w, [], [])
  | Chunk chunk publish sent now t, OnStream due =>
      let '(s, out, up) := stream_turn s due chunk publish sent now t in (with_service s w, out, up)
  | Position headers subject data, _ =>
      if negb (nw_tracking w) then (w, [], [])
      else
        let '(s, cache, r) := position_message s (nw_cache w) headers subject data in
        (mkWorld s cache (is_ok r), [], [])
  | NRoll now, _ => (with_service (nt_goto (nt_at s) (nt_backoff s) (nh_roll now (nt_health s)) s) w, [], [])
  | _, _ => (w, [], [])
  end.

(** The chunks published and the sentences written. *)
Fixpoint ntrip_run (w : NtripWorld) (steps : list ntrip_step) : NtripWorld * list string * list string :=
  match steps with
  | [] => (w, [], [])
  | st :: steps =>
      let '(w, out, up) := ntrip_turn w st in
      let '(w, out', up') := ntrip_run w steps in (w, out ++ out', up ++ up')
  end.
End Client.

(** * The sentence reads back *)

(** Neither the separator of fields nor the checksum's star. *)
Definition plain (s : string) : bool := str_all (fun c => negb (Ascii.eqb c "," || Ascii.eqb c "*")) s.

Lemma plain_app s t : plain (s +:+ t) = plain s && plain t.
Proof. induction s as [|c s IH]; [done|]. rewrite str_cons_app. unfold plain in *. cbn [str_all]. rewrite IH. apply andb_assoc. Qed.

Lemma plain_no_star s : plain s = true -> char_in "*" s = false.
Proof.
  induction s as [|c s IH]; [done|]. unfold plain. cbn [str_all]. rewrite char_in_cons. intros [Hc Hs]%andb_true_iff.
  apply orb_false_iff. split; [|by apply IH]. rewrite negb_true_iff, orb_false_iff in Hc. rewrite Ascii.eqb_sym. apply Hc.
Qed.

Lemma pretty_N_go_plain x s : plain s = true -> plain (pretty_N_go x s) = true.
Proof.
  revert s. induction (N.lt_wf_0 x) as [x _ IH]. intros s Hs.
  destruct (decide (x = 0)%N) as [->|]; [by rewrite pretty_N_go_0|]. rewrite pretty_N_go_step by lia. apply IH.
  - apply N.div_lt; lia.
  - unfold plain in *. cbn [str_all]. rewrite Hs, andb_true_r. unfold pretty_N_char. by repeat case_match.
Qed.

Lemma pretty_Z_plain (z : Z) : plain (pretty z) = true.
Proof.
  assert (HN : forall n : N, plain (pretty n) = true)
    by (intros n; unfold pretty, pretty_N; case_decide; [done|]; by apply pretty_N_go_plain).
  destruct z; [done| |]; unfold pretty, pretty_Z; [apply HN|]. unfold plain. cbn [str_all]. apply HN.
Qed.

Lemma pad_zeros_plain n s : plain (pad_zeros n s) = plain s.
Proof. induction n as [|n IH]; [done|]. unfold plain in *. cbn [pad_zeros str_all]. by rewrite IH. Qed.

Lemma fmt_int_plain w n : plain (fmt_int w n) = true.
Proof. unfold fmt_int. by rewrite pad_zeros_plain, pretty_Z_plain. Qed.

Lemma fmt_fixed_plain x d : plain (fmt_fixed x d) = true.
Proof.
  assert (Hs : plain (if fsign x then "-" else "") = true) by (by destruct (fsign x)). unfold fmt_fixed.
  destruct x; rewrite ?plain_app, ?Hs, ?pretty_Z_plain; try done; (destruct d; [done|]); by rewrite plain_app, pad_zeros_plain, pretty_Z_plain.
Qed.

Lemma degrees_minutes_plain w x s : degrees_minutes w x = Ok s -> plain s = true.
Proof.
  unfold degrees_minutes. intros (d & _ & [= <-])%res_bind_Ok. unfold fmt_padded. cbn zeta.
  by rewrite plain_app, fmt_int_plain, pad_zeros_plain, fmt_fixed_plain.
Qed.

Lemma split_plain s t : plain s = true -> str_split "," (s +:+ String "," t) = s :: str_split "," t.
Proof.
  induction s as [|c s IH]; [done|]. unfold plain in *. cbn [str_all]. intros [Hc Hs]%andb_true_iff.
  rewrite str_cons_app. cbn [str_split]. rewrite negb_true_iff, orb_false_iff in Hc. destruct Hc as [-> _]. by rewrite IH.
Qed.

Lemma split_plain_end s : plain s = true -> str_split "," s = [s].
Proof.
  induction s as [|c s IH]; [done|]. unfold plain in *. cbn [str_all]. intros [Hc Hs]%andb_true_iff.
  cbn [str_split]. rewrite negb_true_iff, orb_false_iff in Hc. destruct Hc as [-> _]. by rewrite IH.
Qed.

Lemma split_join fields : fields <> [] -> Forall (fun f => plain f = true) fields -> str_split "," (join "," fields) = fields.
Proof.
  induction fields as [|f [|g fields] IH]; [done| |]; intros _ [Hf H]%Forall_cons; [by apply split_plain_end|].
  change (join "," (f :: g :: fields)) with (f +:+ String "," (join "," (g :: fields))). rewrite split_plain by done.
  by rewrite IH.
Qed.

Lemma star_free_app s t : char_in "*" s = false -> char_in "*" t = false -> char_in "*" (s +:+ t) = false.
Proof. induction s as [|c s IH]; [done|]. rewrite str_cons_app, !char_in_cons, !orb_false_iff. intros [? ?] ?. eauto. Qed.

Lemma join_no_star fields : Forall (fun f => plain f = true) fields -> char_in "*" (join "," fields) = false.
Proof.
  induction fields as [|f [|g fields] IH]; [done| |]; intros [Hf H]%Forall_cons; [by apply plain_no_star|].
  change (join "," (f :: g :: fields)) with (f +:+ String "," (join "," (g :: fields))).
  apply star_free_app; [by apply plain_no_star|]. rewrite char_in_cons. by apply IH.
Qed.

(** The fifteen fields the decoder of [GGA] will see. *)
Definition gga_fields (lat lon : float) (t : clock_time) : res (list string) :=
  lat_field ← degrees_minutes 2 (if fleb f0 lat then lat else fopp lat);
  lon_field ← degrees_minutes 3 (if fleb f0 lon then lon else fopp lon);
  Ok ["GPGGA";
      fmt_int 2 (ct_hour t) +:+ fmt_int 2 (ct_minute t) +:+ fmt_int 2 (ct_second t) +:+ "." +:+ fmt_int 2 (ct_microsecond t / 10000);
      lat_field; (if fleb f0 lat then "N" else "S"); lon_field; (if fleb f0 lon then "E" else "W");
      "1"; "08"; "1.0"; "0.0"; "M"; "0.0"; "M"; ""; ""].

Lemma gga_fields_join lat lon t : gga_body lat lon t = (fields ← gga_fields lat lon t; Ok (join "," fields)).
Proof.
  unfold gga_body, gga_fields. destruct (fleb f0 lat), (fleb f0 lon); cbv beta iota zeta;
  (destruct (degrees_minutes 2 _) as [a|e]; [|reflexivity]); (destruct (degrees_minutes 3 _) as [b|e]; reflexivity).
Qed.

Lemma gga_fields_plain lat lon t fields : gga_fields lat lon t = Ok fields -> Forall (fun f => plain f = true) fields.
Proof.
  unfold gga_fields. intros (a & Ha & (b & Hb & [= <-])%res_bind_Ok)%res_bind_Ok.
  repeat apply Forall_cons_2; try apply Forall_nil_2; try done; try (by eapply degrees_minutes_plain).
  - by rewrite !plain_app, !fmt_int_plain.
  - by destruct (fleb f0 lat).
  - by destruct (fleb f0 lon).
Qed.

(** The sentence written upstream is one the vehicle's own decoder accepts: its
    checksum is right, and its body splits into the fifteen fields built. *)
Lemma sentence_reads_back lat lon t s :
  build_gga lat lon t = Ok s ->
  exists fields body, gga_fields lat lon t = Ok fields /\ s = framed body +:+ CRLF /\
    _validated_body (framed body) = Ok body /\ str_split "," body = fields.
Proof.
  unfold build_gga. rewrite gga_fields_join. intros (body & (fields & Hf & [= <-])%res_bind_Ok & [= <-])%res_bind_Ok.
  pose proof (gga_fields_plain _ _ _ _ Hf) as Hp. exists fields, (join "," fields). split_and!; [done..| |].
  - by apply framed_validates, join_no_star.
  - apply split_join; [|done]. intros ->. unfold gga_fields in Hf. by apply res_bind_Ok in Hf as (? & _ & (? & _ & ?)%res_bind_Ok).
Qed.

(** * The relay's books *)

Definition total_length (l : list string) : Z := foldr (fun c n => Z.of_nat (String.length c) + n) 0 l.

(** A position sentence: fifteen fields under a checksum that holds. *)
Definition a_sentence (s : string) : Prop :=
  exists body, s = framed body +:+ CRLF /\ _validated_body (framed body) = Ok body /\
    length (str_split "," body) = 15%nat /\ head (str_split "," body) = Some "GPGGA".

Lemma sentence_is_one lat lon t s : build_gga lat lon t = Ok s -> a_sentence s.
Proof.
  intros (fields & body & Hf & -> & Hv & Hs)%sentence_reads_back. exists body. rewrite Hs. split_and!; [done..| |].
  all: unfold gga_fields in Hf; by apply res_bind_Ok in Hf as (? & _ & (? & _ & [= <-])%res_bind_Ok).
Qed.

Definition at_rest (p : caster_at) : Prop :=
  match p with Waiting d => fleb d _RECONNECT_MAX_S = true | _ => True end.
Definition streaming (p : caster_at) : bool := match p with OnStream _ => true | _ => false end.

(** What one turn adds: to the chunks published and their bytes, to the
    sentences written, out of the chunk read. *)
Record relayed (settings : NtripSettings) (s s' : NtripService) (read out up : list string) : Prop := {
  rl_settings : ntrip_settings s' = settings;
  rl_out : out `sublist_of` read;
  rl_some : Forall (fun c => c <> "") out;
  rl_bytes : bytes_from_caster (nt_health s') = bytes_from_caster (nt_health s) + total_length out;
  rl_count : nh_publishes (nt_health s') = nh_publishes (nt_health s) + Z.of_nat (length out);
  rl_sends : gga_sends (nt_health s') = gga_sends (nt_health s) + Z.of_nat (length up);
  rl_up : Forall a_sentence up;
  rl_off : n_enable_gga settings = false -> up = []
}.

(** Between turns: connected is being on a stream, and no wait is longer than
    thirty seconds. *)
Record settled (s : NtripService) : Prop := {
  st_connected : nh_connected (nt_health s) = streaming (nt_at s);
  st_rest : at_rest (nt_at s);
  st_backoff : fleb (nt_backoff s) _RECONNECT_MAX_S = true
}.

Lemma total_length_app a b : total_length (a ++ b) = total_length a + total_length b.
Proof. induction a as [|c a IH]; [done|]. cbn [app foldr total_length] in *. unfold total_length in *. cbn [foldr]. lia. Qed.

Lemma relayed_trans settings s1 s2 s3 r r' o o' u u' :
  relayed settings s1 s2 r o u -> relayed settings s2 s3 r' o' u' -> relayed settings s1 s3 (r ++ r') (o ++ o') (u ++ u').
Proof.
  intros [A1 A2 A3 A4 A5 A6 A7 A8] [B1 B2 B3 B4 B5 B6 B7 B8]. split; [done|by apply sublist_app|by apply Forall_app| | | |by apply Forall_app|].
  - rewrite B4, A4, total_length_app. lia.
  - rewrite B5, A5, length_app. lia.
  - rewrite B6, A6, length_app. lia.
  - intros E. by rewrite A8, B8.
Qed.

(** A turn that publishes and writes nothing, and counts neither. *)
Lemma relayed_quiet settings s s' r :
  ntrip_settings s' = settings -> bytes_from_caster (nt_health s') = bytes_from_caster (nt_health s) ->
  nh_publishes (nt_health s') = nh_publishes (nt_health s) -> gga_sends (nt_health s') = gga_sends (nt_health s) ->
  relayed settings s s' r [] [].
Proof. intros E1 E2 E3 E4. split; cbn; try done; try apply sublist_nil_l; try apply Forall_nil_2; lia. Qed.

Ltac quiet := apply relayed_quiet; cbn; try done; lia.

Lemma relayed_refl s r : relayed (ntrip_settings s) s s r [] [].
Proof. by apply relayed_quiet. Qed.

Section Books.
Context (b64 : string -> string) {CD : Codec}.

Definition read_of (st : ntrip_step) : list string := match st with Chunk (Ok chunk) _ _ _ _ => [chunk] | _ => [] end.

(** The correction a turn owes the car: what a stream read, once the broker
    took it. *)
Definition owed (w : NtripWorld) (st : ntrip_step) : list string :=
  match st, nt_at (nw_service w) with
  | Chunk (Ok (String c chunk)) (Ok _) _ _ _, OnStream _ => [String c chunk]
  | _, _ => []
  end.
Fixpoint all_owed (w : NtripWorld) (steps : list ntrip_step) : list string :=
  match steps with [] => [] | st :: steps => owed w st ++ all_owed (ntrip_turn b64 w st).1.1 steps end.

Lemma turn_owed w st : (ntrip_turn b64 w st).1.2 = owed w st.
Proof.
  unfold ntrip_turn, owed. destruct st as [opened lines now| |chunk publish sent now t|headers subject data|now]; try (by destruct (nt_at _)).
  - destruct (nt_at _) as [|d|due|e]; try (by destruct chunk as [[]|], publish). unfold stream_turn.
    destruct chunk as [[|c chunk]|]; [done| |done]. destruct publish; [|done]. destruct (_ || _); [done|].
    destruct (_position _) as [[lat lon]|]; [|done]. destruct (build_gga lat lon t); [|done]. by destruct sent.
  - destruct (negb _); [done|]. by destruct (position_message _ _ _ _ _) as [[? ?] ?].
Qed.

Lemma run_owed steps : forall w, (ntrip_run b64 w steps).1.2 = all_owed w steps.
Proof.
  induction steps as [|st steps IH]; intros w; [done|]. cbn [ntrip_run all_owed]. rewrite <- (turn_owed w st).
  destruct (ntrip_turn b64 w st) as [[w1 out] up]. cbn. rewrite <- IH. by destruct (ntrip_run b64 w1 steps) as [[w2 out'] up'].
Qed.

Lemma dial_books s opened lines now :
  nt_at s = Dialing -> settled s ->
  relayed (ntrip_settings s) s (dial b64 s opened lines now) [] [] [] /\ settled (dial b64 s opened lines now).
Proof.
  intros Ea [Hc Hr Hb]. rewrite Ea in Hc. unfold dial.
  assert (Hd : fleb (doubled (nt_backoff s) _RECONNECT_MAX_S) _RECONNECT_MAX_S = true) by (by apply doubled_bounded).
  assert (Hone : fleb _RECONNECT_START_S _RECONNECT_MAX_S = true) by (vm_compute; reflexivity).
  assert (Hthirty : fleb _AUTH_ERROR_RETRY_S _RECONNECT_MAX_S = true) by (vm_compute; reflexivity).
  destruct (connect b64 (ntrip_settings s) opened lines) as [|why|why|e]; [| | |destruct (exn_kind e)];
    (split; [quiet|by split]).
Qed.

Lemma stream_books s due chunk publish sent now t :
  nt_at s = OnStream due -> settled s ->
  match stream_turn s due chunk publish sent now t with
  | (s', out, up) =>
      relayed (ntrip_settings s) s s' (match chunk with Ok c => [c] | Raise _ => [] end) out up /\ settled s'
  end.
Proof.
  intros Ea [Hc Hr Hb]. rewrite Ea in Hc. unfold stream_turn.
  assert (Hup : forall at_ h, at_rest at_ -> streaming at_ = false -> settled (hang_up at_ h s)) by (intros at_ h H1 H2; by split).
  destruct chunk as [c|e]; [|split; [quiet|by apply Hup]].
  destruct c as [|a c]; [split; [quiet|by apply Hup]|].
  destruct publish as [[]|e]; [|split; [quiet|by apply Hup]].
  set (chunk := String a c).
  assert (Hp : forall up h at_, bytes_from_caster h = bytes_from_caster (nt_health s) + Z.of_nat (String.length chunk) ->
    nh_publishes h = nh_publishes (nt_health s) + 1 -> gga_sends h = gga_sends (nt_health s) + Z.of_nat (length up) ->
    Forall a_sentence up -> (n_enable_gga (ntrip_settings s) = false -> up = []) ->
    relayed (ntrip_settings s) s (nt_goto at_ (nt_backoff s) h s) [chunk] [chunk] up).
  { intros up h at_ H1 H2 H3 H4 H5. split; cbn [nt_goto nt_health ntrip_settings total_length foldr length]; try done; try (by apply Forall_singleton); lia. }
  assert (Hs : forall h d, nh_connected h = true -> settled (nt_goto (OnStream d) (nt_backoff s) h s)) by (intros h d H; by split).
  destruct (n_enable_gga (ntrip_settings s)) eqn:Eg; cbn [negb orb].
  2: { split; [apply Hp; cbn; try done; lia|by apply Hs]. }
  destruct (fltb now due); [split; [apply Hp; cbn; try done; lia|by apply Hs]|].
  destruct (_position s) as [[lat lon]|]; [|split; [apply Hp; cbn; try done; lia|by apply Hs]].
  destruct (build_gga lat lon t) as [sentence|e] eqn:Es.
  2: { split; [apply Hp; cbn; try done; lia|by apply Hup]. }
  destruct sent as [[]|e]; [|split; [apply Hp; cbn; try done; lia|by apply Hup]].
  split; [|by apply Hs]. apply Hp; cbn; try done; try lia. apply Forall_singleton. by eapply sentence_is_one.
Qed.

Lemma position_books s cache headers subject data :
  match position_message s cache headers subject data with
  | (s', _, _) => nt_health s' = nt_health s /\ nt_at s' = nt_at s /\ nt_backoff s' = nt_backoff s /\ ntrip_settings s' = ntrip_settings s
  end.
Proof.
  assert (Hn : forall samples s0, nt_health (note_samples s0 samples).1 = nt_health s0 /\ nt_at (note_samples s0 samples).1 = nt_at s0 /\
    nt_backoff (note_samples s0 samples).1 = nt_backoff s0 /\ ntrip_settings (note_samples s0 samples).1 = ntrip_settings s0).
  { induction samples as [|d samples IH]; intros s0; [done|]. cbn [note_samples].
    destruct (String.eqb _ POSITION_LAT_CHANNEL); [destruct (float_value _); [apply (IH (set_position _ _ _))|done]|].
    destruct (String.eqb _ POSITION_LON_CHANNEL); [destruct (float_value _); [apply (IH (set_position _ _ _))|done]|]. apply IH. }
  unfold position_message. destruct (_ || _); [by destruct (parse_registry data)|].
  destruct (decode_or_reason cache data) as [cache' [[d|]|]]; [|done..].
  pose proof (Hn (db_samples d) s) as H. by destruct (note_samples s (db_samples d)).
Qed.

Lemma turn_relayed w st : settled (nw_service w) ->
  match ntrip_turn b64 w st with
  | (w', out, up) =>
      relayed (ntrip_settings (nw_service w)) (nw_service w) (nw_service w') (read_of st) out up /\ settled (nw_service w')
  end.
Proof.
  intros Hs. pose proof Hs as [Hc Hr Hb]. set (s := nw_service w) in *.
  assert (Hsame : relayed (ntrip_settings s) s s (read_of st) [] [] /\ settled s) by (split; [by apply relayed_refl|done]).
  unfold ntrip_turn. fold s. destruct st as [opened lines now| |chunk publish sent now t|headers subject data|now].
  1-3: (destruct (nt_at s) as [|d|due|e] eqn:Ea; try exact Hsame).
  - by apply dial_books.
  - split; [quiet|]. by split.
  - pose proof (stream_books s due chunk publish sent now t Ea Hs) as H.
    destruct (stream_turn s due chunk publish sent now t) as [[s' out] up]. exact H.
  - clear Hsame. destruct (negb (nw_tracking w)); [split; [by apply relayed_refl|done]|].
    pose proof (position_books s (nw_cache w) headers subject data) as H.
    destruct (position_message s (nw_cache w) headers subject data) as [[s' cache] r]. destruct H as (E1 & E2 & E3 & E4).
    split; [apply relayed_quiet; cbn; by rewrite ?E1, ?E4|]. destruct Hs. split; cbn [nw_service]; by rewrite ?E1, ?E2, ?E3.
  - assert (Hroll : nh_connected (nh_roll now (nt_health s)) = nh_connected (nt_health s) /\
      bytes_from_caster (nh_roll now (nt_health s)) = bytes_from_caster (nt_health s) /\
      nh_publishes (nh_roll now (nt_health s)) = nh_publishes (nt_health s) /\
      gga_sends (nh_roll now (nt_health s)) = gga_sends (nt_health s)) by (unfold nh_roll; by destruct (fleb _ f0)).
    destruct Hroll as (E1 & E2 & E3 & E4). split; [quiet|]. split; cbn; by rewrite ?E1.
Qed.

Lemma run_relayed steps : forall w, settled (nw_service w) ->
  match ntrip_run b64 w steps with
  | (w', out, up) =>
      relayed (ntrip_settings (nw_service w)) (nw_service w) (nw_service w') (concat (map read_of steps)) out up /\
      settled (nw_service w')
  end.
Proof.
  induction steps as [|st steps IH]; intros w Hs; [split; [by apply relayed_refl|done]|].
  cbn [ntrip_run map]. pose proof (turn_relayed w st Hs) as H. destruct (ntrip_turn b64 w st) as [[w1 out] up]. destruct H as [Hr Hs1].
  pose proof (IH w1 Hs1) as H. destruct (ntrip_run b64 w1 steps) as [[w2 out'] up']. destruct H as [Hr' Hs2].
  split; [|done]. cbn [concat]. rewrite (rl_settings _ _ _ _ _ _ Hr) in Hr'. by eapply relayed_trans.
Qed.

End Books.

(** * A day at the pit wall *)

Module Caster.
#[local] Existing Instance TaggedCodec.
Definition b64 (s : string) : string := "b64".
Definition settings : NtripSettings :=
  mkNtrip "nats" "car7" "caster" 2101 "RTCM" "pit" "secret" "TELE_VEHICLE" None true (f_of_Z 10) (f_of_Z 30) 8083.
Definition sec (n : Z) : float := f_of_Z n.
Definition noon : clock_time := mkTime 12 35 19 340000.
Definition said (lines : list string) : list (res string) := map Ok lines.
Definition icy : list (res string) := said [line_of "ICY 200 OK"; CRLF].
Definition registry : ntrip_step :=
  Position [(MSG_TYPE_HEADER, MSG_TYPE_REGISTRY)] "tele.car7.reg"
    (inr (mkRegistry 3 "car7" 0 [mkChannel 1 POSITION_LAT_CHANNEL "gps" "deg" DOUBLE f0 f0;
                                 mkChannel 2 POSITION_LON_CHANNEL "gps" "deg" DOUBLE f0 f0])).
Definition place (id : Z) (x : wire_value) : ntrip_step :=
  Position [] "tele.car7.gps" (inl (mkSampleBatch 3 1000 0 [mkPbSample id 0 (Some x)] 1)).
Definition fix_ : list ntrip_step := [registry; place 1 (W_d (f_of_ratio (-33515) 1000)); place 2 (W_d (f_of_ratio 15125 100))].
Definition read (s : string) (now : Z) : ntrip_step := Chunk (Ok s) (Ok ()) (Ok ()) (sec now) noon.
Definition run (steps : list ntrip_step) : NtripWorld * list string * list string :=
  ntrip_run b64 (world_init settings f0) steps.
Definition where_ (steps : list ntrip_step) : caster_at := nt_at (nw_service (run steps).1.1).
Definition books (steps : list ntrip_step) : NtripHealth := nt_health (nw_service (run steps).1.1).
End Caster.

(** The handshake, two chunks, the position due at ten seconds, a caster that
    goes quiet. *)
Example a_session :
  let steps := Caster.fix_ ++ [Dial (Ok ()) Caster.icy f0; Caster.read "abc" 1; Caster.read "de" 10; Caster.read "" 41] in
  (Caster.run steps).1.2 = ["abc"; "de"] /\ (Caster.run steps).2 = ["$GPGGA,123519.34,3330.9000,S,15115.0000,E,1,08,1.0,0.0,M,0.0,M,,*49" +:+ CRLF] /\
  Caster.where_ steps = Dialing /\ bytes_from_caster (Caster.books steps) = 5 /\ gga_sends (Caster.books steps) = 1.
Proof. vm_compute. repeat split. Qed.

(** Nothing listening, a wrong password, then a mountpoint the caster has. *)
Example backs_off :
  Caster.where_ [Dial (raise OSError "refused") [] f0] = Waiting (f_of_Z 1) /\
  Caster.where_ [Dial (raise OSError "refused") [] f0; Woken; Dial (Ok ()) (Caster.said [line_of "HTTP/1.1 404 Not Found"; CRLF]) f0] =
    Waiting (f_of_Z 2) /\
  Caster.where_ [Dial (Ok ()) (Caster.said [line_of "HTTP/1.1 401 Unauthorized"; CRLF]) f0] = Waiting (f_of_Z 30).
Proof. vm_compute. repeat split. Qed.

(** The table a caster answers an unknown mountpoint with is taken for the
    stream, and relayed to the car. *)
Example sourcetable_is_relayed :
  let steps := [Dial (Ok ()) (Caster.said [line_of "SOURCETABLE 200 OK"; line_of "Content-Type: text/plain"; CRLF]) f0;
                Caster.read "STR;OTHER;ENDSOURCETABLE" 1] in
  (Caster.run steps).1.2 = ["STR;OTHER;ENDSOURCETABLE"] /\ nh_connected (Caster.books steps) = true.
Proof. vm_compute. repeat split. Qed.

(** A caster that accepts and hangs up is dialled again at once, every time,
    and no reconnect is counted. *)
Example hang_up_is_redialled_at_once :
  let steps := [Dial (Ok ()) Caster.icy f0; Caster.read "" 0; Dial (Ok ()) Caster.icy f0; Caster.read "" 0] in
  Caster.where_ steps = Dialing /\ nh_reconnects (Caster.books steps) = 0.
Proof. vm_compute. repeat split. Qed.

(** A connection reset while streaming, unlike one refused, ends the service. *)
Example reset_ends_the_service :
  let steps := [Dial (Ok ()) Caster.icy f0; Chunk (raise OSError "ConnectionResetError") (Ok ()) (Ok ()) f0 Caster.noon;
                Dial (Ok ()) Caster.icy f0; Caster.read "abc" 1] in
  Caster.where_ steps = Down (Exn OSError "ConnectionResetError") /\ (Caster.run steps).1.2 = [].
Proof. vm_compute. repeat split. Qed.

(** Minutes of 59.99999 are written as sixty, which the vehicle's own reader of
    coordinates refuses. *)
Example minutes_round_to_sixty :
  degrees_minutes 2 (f_of_ratio 4799999999 100000000) = Ok "4760.0000" /\
  _coordinate "4760.0000" "N" 2 = raise ValueError "invalid NMEA coordinate minutes".
Proof. vm_compute. repeat split. Qed.

(** A position that is text ends the position task without a word: the last
    good place goes on being reported. *)
Example stale_position :
  let steps := Caster.fix_ ++ [Caster.place 1 (W_s "no fix"); Caster.place 1 (W_d (f_of_Z 50))] in
  nw_tracking (Caster.run steps).1.1 = false /\
  _last_lat (nw_service (Caster.run steps).1.1) = Some (f_of_ratio (-33515) 1000).
Proof. vm_compute. repeat split. Qed.
