(* ===== verification/Migrate.v ===== *)
(** The pit database's migrations ([src/pit/db/migrate.py]): the files still
    missing are applied in the order of their names, each in a transaction that
    records it, under a lock that other appliers wait for.

    A step of an applier ends where its transaction does. What a script does to
    the schema and whether the database answers are parameters; the lock is the
    advisory lock of the server, which one session holds at a time and which
    goes with the session. The files are the same for every applier. *)

From S2P Require Import Prelude PyText Wire MqttSink PitSettings Ntrip.

Section Migrate.
Context {Schema : Type} (files : list string) (script : string -> res string)
  (exec : option (string * string) -> Schema -> string -> res Schema) (env : environ).

(** [sorted(directory.glob("*.sql"))]: the files have one directory. *)
Definition discover : list string := sort_by str_leb (filter (fun f => ends_with ".sql" f = true) files).

Record Database := mkDb {
  schema : Schema;
  recorded : list string;
  has_table : bool;
  lock_holder : option nat
}.

Definition with_table (db : Database) : Database := mkDb (schema db) (recorded db) true (lock_holder db).
Definition with_lock (holder : option nat) (db : Database) : Database := mkDb (schema db) (recorded db) (has_table db) holder.

(** The list is read once the table is there. *)
Definition applied_versions (db : Database) (answer : res unit) : Database * res (list string) :=
  match answer with
  | Ok _ => let db := with_table db in (db, Ok (recorded db))
  | Raise e => (db, Raise e)
  end.

Definition pending (db : Database) (answer : res unit) : Database * res (list string) :=
  match applied_versions db answer with
  | (db, Ok done) => (db, Ok (filter (fun v => v ∉ done) discover))
  | (db, Raise e) => (db, Raise e)
  end.

Definition _configure_grafana_role : res (string * string) :=
  let user := env_get env "GRAFANA_DB_USER" "grafana_ro" in
  let password := env_get env "GRAFANA_DB_PASSWORD" "" in
  match user, password with
  | EmptyString, _ => raise ValueError "GRAFANA_DB_USER must not be empty while migration 002 is pending"
  | _, EmptyString => raise ValueError "GRAFANA_DB_PASSWORD is required while migration 002 is pending"
  | _, _ => Ok (user, password)
  end.
Definition needs_role (v : string) : bool := str_leb "002_" v.

(** The script and its record, both or neither. *)
Definition apply_file (role : option (string * string)) (db : Database) (v : string) (answer : res unit) : Database * res unit :=
  match
    text ← script v;
    s ← exec role (schema db) text;
    (if decide (v ∈ recorded db) then raise DatabaseError "duplicate key value violates unique constraint" else Ok ());;
    answer;; Ok s
  with
  | Ok s => (mkDb s (recorded db ++ [v]) (has_table db) (lock_holder db), Ok ())
  | Raise e => (db, Raise e)
  end.

(** * Appliers *)

(** Where [apply_migrations] is. *)
Inductive applier_at :=
  | Begin
  | AtLock
  | Locked
  | Applying (role : option (string * string)) (todo applied : list string)
  | Leaving (r : res (list string))
  | Finished (r : res (list string)).

Inductive event := Turn (answer : res unit) | Killed.

(** One step of applier [i]; a dead session's lock is released. *)
Definition apply_step (i : nat) (db : Database) (p : applier_at) (ev : event) : Database * applier_at :=
  let release db := if decide (lock_holder db = Some i) then with_lock None db else db in
  match p, ev with
  | Finished _, _ => (db, p)
  | _, Killed => (release db, Finished (raise OSError "killed"))
  | Begin, Turn answer =>
      match pending db answer with
      | (db, Raise e) => (db, Finished (Raise e))
      | (db, Ok []) => (db, Finished (Ok []))
      | (db, Ok _) => (db, AtLock)
      end
  | AtLock, Turn (Raise e) => (db, Finished (Raise e))
  | AtLock, Turn (Ok _) => match lock_holder db with None => (with_lock (Some i) db, Locked) | Some _ => (db, AtLock) end
  | Locked, Turn answer =>
      match pending db answer with
      | (db, Raise e) => (db, Leaving (Raise e))
      | (db, Ok todo) =>
          if existsb needs_role todo then
            match _configure_grafana_role with
            | Raise e => (db, Leaving (Raise e))
            | Ok role => (db, Applying (Some role) todo [])
            end
          else (db, Applying None todo [])
      end
  | Applying role [] applied, Turn _ => (db, Leaving (Ok applied))
  | Applying role (v :: todo) applied, Turn answer =>
      match apply_file role db v answer with
      | (db, Ok _) => (db, Applying role todo (applied ++ [v]))
      | (db, Raise e) => (db, Leaving (Raise e))
      end
  | Leaving r, Turn (Ok _) => (release db, Finished r)
  | Leaving r, Turn (Raise e) => (release db, Finished (Raise e))
  end.

(** Several appliers, in any order. *)
Definition system : Type := Database * list applier_at.
Definition sys_step (s : system) (who : nat * event) : system :=
  match s.2 !! who.1 with
  | Some p => let '(db, p) := apply_step who.1 s.1 p who.2 in (db, <[who.1 := p]> s.2)
  | None => s
  end.
Definition sys_run (s : system) (schedule : list (nat * event)) : system := fold_left sys_step schedule s.

(** * What the database went through *)

Context (r0 : list string) (s0 : Schema) {Hfiles : NoDup files}.

(** What was missing when it all began. *)
Definition missing : list string := filter (fun v => v ∉ r0) discover.

(** A schema made of whole scripts, each run with the role it may name. *)
Inductive built : list string -> Schema -> Prop :=
  | built_none : built [] s0
  | built_more done s v text role s' :
      built done s -> script v = Ok text -> exec role s text = Ok s' ->
      (needs_role v = true -> exists r, _configure_grafana_role = Ok r /\ role = Some r) ->
      built (done ++ [v]) s'.

Definition role_ready (role : option (string * string)) (todo : list string) : Prop :=
  forall v, v ∈ todo -> needs_role v = true -> exists r, _configure_grafana_role = Ok r /\ role = Some r.

(** An applier that holds the lock knows exactly what is missing; one that
    says it succeeded leaves nothing missing. *)
Definition fits (i : nat) (lock : option nat) (rest : list string) (p : applier_at) : Prop :=
  match p with
  | Begin | AtLock => lock <> Some i
  | Locked => lock = Some i
  | Applying role todo _ => lock = Some i /\ todo = rest /\ role_ready role todo
  | Leaving r => lock = Some i /\ (is_ok r = true -> rest = [])
  | Finished r => lock <> Some i /\ (is_ok r = true -> rest = [])
  end.

Record migrating (s : system) (done rest : list string) : Prop := {
  mi_split : missing = done ++ rest;
  mi_recorded : recorded s.1 = r0 ++ done;
  mi_built : built done (schema s.1);
  mi_fits : forall i p, s.2 !! i = Some p -> fits i (lock_holder s.1) rest p
}.

Lemma missing_NoDup : NoDup missing.
Proof. apply NoDup_filter. unfold discover. rewrite sort_by_perm. by apply NoDup_filter. Qed.

Lemma filter_out (l r : list string) : NoDup (l ++ r) -> filter (fun v => v ∉ l) (l ++ r) = r.
Proof.
  intros (_ & Hd & _)%NoDup_app. rewrite filter_app.
  assert (Hl : forall k : list string, k ⊆ l -> filter (fun v => v ∉ l) k = []).
  { induction k as [|v k IH]; [done|]. intros Hk. rewrite filter_cons_False by (intros Hv; apply Hv; set_solver). apply IH. set_solver. }
  assert (Hr : forall k : list string, (forall v, v ∈ k -> v ∉ l) -> filter (fun v => v ∉ l) k = k).
  { induction k as [|v k IH]; [done|]. intros Hk. rewrite filter_cons_True by (apply Hk; set_solver). f_equal. apply IH. set_solver. }
  rewrite Hl, Hr; [done| |done]. intros v Hv Hv'. by apply (Hd v).
Qed.

Lemma filter_twice (l r D : list string) : filter (fun v => v ∉ r ++ l) D = filter (fun v => v ∉ l) (filter (fun v => v ∉ r) D).
Proof.
  induction D as [|v D IH]; [done|]. destruct (decide (v ∈ r)) as [Hr|Hr].
  - rewrite (filter_cons_False (fun v => v ∉ r)) by tauto. rewrite filter_cons_False by set_solver. exact IH.
  - rewrite (filter_cons_True (fun v => v ∉ r)) by done. destruct (decide (v ∈ l)) as [Hl|Hl].
    + rewrite !filter_cons_False by set_solver. exact IH.
    + rewrite !filter_cons_True by set_solver. by rewrite IH.
Qed.

Lemma pending_is_rest done rest : missing = done ++ rest -> filter (fun v => v ∉ r0 ++ done) discover = rest.
Proof.
  intros E. rewrite filter_twice. fold missing. rewrite E. apply filter_out. rewrite <- E. apply missing_NoDup.
Qed.

(** What a step of [i] may do: release or take the lock, and land migrations
    only while it holds it. *)
Record lawful (i : nat) (db db' : Database) (p' : applier_at) (done rest done' rest' : list string) : Prop := {
  lw_split : missing = done' ++ rest';
  lw_recorded : recorded db' = r0 ++ done';
  lw_built : built done' (schema db');
  lw_rest : rest = [] -> rest' = [];
  lw_owner : lock_holder db = Some i \/ rest' = rest;
  lw_lock : lock_holder db' = lock_holder db \/ (lock_holder db = Some i /\ lock_holder db' = None) \/
            (lock_holder db = None /\ lock_holder db' = Some i);
  lw_fits : fits i (lock_holder db') rest' p'
}.

Lemma apply_file_lawful i role db v rest done applied answer :
  missing = done ++ v :: rest -> recorded db = r0 ++ done -> built done (schema db) ->
  lock_holder db = Some i -> role_ready role (v :: rest) ->
  match apply_file role db v answer with
  | (db', Ok _) => lawful i db db' (Applying role rest (applied ++ [v])) done (v :: rest) (done ++ [v]) rest
  | (db', Raise e) => db' = db
  end.
Proof.
  intros Hm Hr Hb Hl Hrole. unfold apply_file. destruct (script v) as [text|e] eqn:Es; [|done]. cbn [mbind res_bind].
  destruct (exec role (schema db) text) as [s'|e] eqn:Ee; [|done]. destruct (decide _); [done|]. destruct answer; [|done].
  assert (Hready : role_ready role rest) by (intros w Hw; apply Hrole; set_solver).
  split; cbn; try done.
  - by rewrite <- app_assoc.
  - by rewrite Hr, app_assoc.
  - eapply built_more; try done. apply Hrole. set_solver.
  - by left.
  - by left.
Qed.

Lemma release_lawful i db p' done rest :
  missing = done ++ rest -> recorded db = r0 ++ done -> built done (schema db) ->
  fits i None rest p' -> (lock_holder db <> Some i -> fits i (lock_holder db) rest p') ->
  lawful i db (if decide (lock_holder db = Some i) then with_lock None db else db) p' done rest done rest.
Proof. intros Hm Hr Hb Hn Ho. destruct (decide _) as [E|E]; split; cbn; auto. Qed.

Lemma keep_lawful i db db' p' done rest :
  missing = done ++ rest -> recorded db' = r0 ++ done -> built done (schema db') -> lock_holder db' = lock_holder db ->
  fits i (lock_holder db) rest p' -> lawful i db db' p' done rest done rest.
Proof. intros Hm Hr Hb El Hf. split; rewrite ?El; auto. Qed.

Ltac kept := apply keep_lawful; cbn [fits is_ok]; try done; try congruence; split_and?; try done; congruence.

Lemma applier_lawful i db p ev done rest :
  missing = done ++ rest -> recorded db = r0 ++ done -> built done (schema db) -> fits i (lock_holder db) rest p ->
  match apply_step i db p ev with
  | (db', p') => exists done' rest', lawful i db db' p' done rest done' rest'
  end.
Proof.
  intros Hm Hr Hb Hf. pose proof (pending_is_rest _ _ Hm) as Hp. rewrite <- Hr in Hp.
  assert (Hpend : forall q, match pending db q with
    | (db', Ok todo) => db' = with_table db /\ todo = rest | (db', Raise _) => db' = db end).
  { intros [[]|e]; [|done]. unfold pending, applied_versions. by rewrite <- Hp. }
  assert (Hdead : lawful i db (if decide (lock_holder db = Some i) then with_lock None db else db) (Finished (raise OSError "killed")) done rest done rest)
    by (apply release_lawful; [done..| |]; by split).
  destruct p as [| | |role [|v todo] applied|r|r]; destruct ev as [answer|]; cbn [apply_step fits] in *;
    try (exists done, rest; exact Hdead); try (exists done, rest; kept).
  - specialize (Hpend answer). destruct (pending db answer) as [db' [todo|e]]; [destruct Hpend as [-> ->]|subst db'].
    + destruct rest; exists done; eexists; kept.
    + exists done, rest. kept.
  - destruct answer; [|exists done, rest; kept]. destruct (lock_holder db) eqn:El; exists done, rest; [kept|].
    split; cbn; try done; rewrite ?El; auto.
  - specialize (Hpend answer). destruct (pending db answer) as [db' [todo|e]]; [destruct Hpend as [-> ->]|subst db'].
    2: { exists done, rest. kept. }
    destruct (existsb needs_role rest) eqn:En; [destruct _configure_grafana_role as [role|e] eqn:Ec|]; exists done, rest.
    + apply keep_lawful; try done. split_and!; [done..|]. intros v _ _. by eexists.
    + kept.
    + apply keep_lawful; try done. split_and!; [done..|]. intros v Hv Hn. exfalso.
      assert (existsb needs_role rest = true) by (apply existsb_exists; exists v; split; [by apply list_elem_of_In|done]). congruence.
  - exists done, rest. destruct Hf as (Hl & <- & _). kept.
  - destruct Hf as (Hl & <- & Hrole). pose proof (apply_file_lawful i role db v todo done applied answer Hm Hr Hb Hl Hrole) as H.
    destruct (apply_file role db v answer) as [db' [[]|e]]; [by exists (done ++ [v]), todo|]. subst db'.
    exists done, (v :: todo). kept.
  - destruct Hf as [Hl Hok]. destruct answer; exists done, rest; apply release_lawful; try done; by split.
Qed.

Lemma others_fit i j db db' p' q done rest done' rest' :
  i <> j -> lawful i db db' p' done rest done' rest' -> fits j (lock_holder db) rest q -> fits j (lock_holder db') rest' q.
Proof.
  intros Hij [_ _ _ Hr Ho Hl _] Hf.
  assert (Hkeep : lock_holder db = Some j -> lock_holder db' = Some j /\ rest' = rest) by (destruct Ho, Hl as [|[[]|[]]]; intros; split; congruence).
  assert (Hnot : lock_holder db <> Some j -> lock_holder db' <> Some j) by (destruct Hl as [|[[]|[]]]; congruence).
  destruct q as [| | |role todo applied|r|r]; cbn [fits] in *.
  1-2: by apply Hnot.
  - by apply Hkeep.
  - destruct Hf as (H1 & -> & H3). destruct (Hkeep H1) as [E ->]. by split_and!.
  - destruct Hf as (H1 & H2). destruct (Hkeep H1) as [E ->]. by split.
  - destruct Hf as (H1 & H2). split; auto.
Qed.

Lemma step_migrating sys who done rest :
  migrating sys done rest -> exists done' rest', migrating (sys_step sys who) done' rest' /\ (rest = [] -> rest' = []).
Proof.
  intros [Hm Hr Hb Hf]. destruct sys as [db apps], who as [i ev]. unfold sys_step. cbn [fst snd] in *.
  destruct (apps !! i) as [p|] eqn:Ep; [|exists done, rest; by split].
  pose proof (applier_lawful i db p ev done rest Hm Hr Hb (Hf _ _ Ep)) as H.
  destruct (apply_step i db p ev) as [db' p']. destruct H as (done' & rest' & H).
  exists done', rest'. split; [|apply (lw_rest _ _ _ _ _ _ _ _ H)]. pose proof H as [H1 H2 H3 _ _ _ H7]. split; cbn; try done.
  intros j q. destruct (decide (i = j)) as [<-|Hij].
  - rewrite list_lookup_insert_eq by (by eapply lookup_lt_Some). by intros [= <-].
  - rewrite list_lookup_insert_ne by done. intros Hq. by eapply others_fit; [done..|]; apply Hf.
Qed.

Lemma run_migrating schedule : forall sys done rest,
  migrating sys done rest -> exists done' rest', migrating (sys_run sys schedule) done' rest'.
Proof.
  induction schedule as [|who schedule IH]; intros sys done rest H; [by exists done, rest|].
  destruct (step_migrating sys who done rest H) as (done' & rest' & H' & _). by apply (IH _ done' rest').
Qed.

End Migrate.

(** * A boot *)

Module Boot.
Definition files : list string := ["003_c.sql"; "README.md"; "001_a.sql"; "002_b.sql"].
Definition script (v : string) : res string := Ok ("run " +:+ v).
Definition exec (role : option (string * string)) (s : list string) (text : string) : res (list string) :=
  if String.eqb text "run 003_c.sql" && (length s <? 2)%nat then raise DatabaseError "relation does not exist" else Ok (s ++ [text]).
Definition env : environ := [("GRAFANA_DB_PASSWORD", "pw")].
Definition ok : event := Turn (Ok ()).
Definition lost : event := Turn (raise DatabaseError "connection lost").
(** Two services boot at once: the first is killed after one migration, the
    second has waited. *)
Definition schedule : list (nat * event) :=
  [(0, ok); (1, ok); (0, ok); (1, ok); (0, ok); (1, ok); (0, ok); (0, Killed); (1, ok); (1, ok); (1, ok); (1, ok); (1, ok); (1, ok)]%nat.
Definition run (env : environ) (schedule : list (nat * event)) : @Database (list string) * list applier_at :=
  sys_run files script exec env (mkDb [] [] false None, repeat Begin 2) schedule.
End Boot.


(** Without the dashboard's password nothing lands, not even the migrations
    before the role's. *)
Example no_password_no_schema :
  let s := Boot.run [] [(0%nat, Boot.ok); (0%nat, Boot.ok); (0%nat, Boot.ok); (0%nat, Boot.ok)] in
  recorded s.1 = [] /\ lock_holder s.1 = None /\
  s.2 = [Finished (raise ValueError "GRAFANA_DB_PASSWORD is required while migration 002 is pending"); Begin].
Proof. vm_compute. repeat split. Qed.

(** The table of versions is made before the lock is asked for: two appliers
    can both be making it. *)
Example table_made_without_the_lock :
  let s := Boot.run Boot.env [(0%nat, Boot.ok); (1%nat, Boot.ok)] in
  has_table s.1 = true /\ lock_holder s.1 = None /\ s.2 = [AtLock; AtLock].
Proof. vm_compute. repeat split. Qed.

(** A lost answer leaves the migration out, and the next boot applies it. *)
Example lost_answer_is_retried :
  let s := Boot.run Boot.env [(0, Boot.ok); (0, Boot.ok); (0, Boot.ok); (0, Boot.ok); (0, Boot.lost); (0, Boot.ok);
                              (1, Boot.ok); (1, Boot.ok); (1, Boot.ok); (1, Boot.ok); (1, Boot.ok); (1, Boot.ok); (1, Boot.ok)]%nat in
  recorded s.1 = ["001_a.sql"; "002_b.sql"; "003_c.sql"] /\
  s.2 = [Finished (raise DatabaseError "connection lost"); Finished (Ok ["002_b.sql"; "003_c.sql"])].
Proof. vm_compute. repeat split. Qed.
