(* ===== verification/PitMonitor.v ===== *)
(** The pit's view of itself ([src/pit/pit_monitor]): three probes, each free to
    fail ([probes.py]), a poll that writes what they yielded in one transaction
    ([service.py], [store.py]), and the counters ([health.py]).

    A generator is what it yields and what it raises in the end. The documents
    the probes fetch, the machine the host's reader looks at and the answers of
    the database are the inputs of a poll. Names are ASCII. *)

From S2P Require Import Prelude PyFloat PyText Wire Config Limiter MqttSink Ntrip HostMetrics PitSettings.

Local Open Scope Z_scope.

(** * Readings *)

Record reading := mkReading { r_source : string; r_metric : string; r_value : SampleValue }.
Definition gauge (source metric : string) (x : float) : reading := mkReading source metric (VFloat x).
Definition label (source metric s : string) : reading := mkReading source metric (VStr s).

Definition sanitize (name : string) : string := str_or (_sanitize name) "unknown".

Definition DURATION_SCALE : list (string * float) :=
  [("ns", f_of_ratio 1 1000000000); ("us", f_of_ratio 1 1000000); ("µs", f_of_ratio 1 1000000); ("ms", f_of_ratio 1 1000);
   ("s", f_of_Z 1); ("m", f_of_Z 60); ("h", f_of_Z 3600)].

Definition is_figure (c : ascii) : bool := is_digit c || Ascii.eqb c ".".
(** [^\s*([0-9.]+)\s*(ns|us|µs|ms|s|m|h)\s*$]; the figure may still not be a
    number. *)
Definition parse_duration_s (text : string) : res (option float) :=
  match span is_figure (strip text) with
  | (EmptyString, _) => Ok None
  | (figure, unit_) =>
      match od_get (strip unit_) DURATION_SCALE with
      | None => Ok None
      | Some scale => x ← float_of figure; Ok (Some (fmul x scale))
      end
  end.

Definition fetch_json (document : res obj) : res (list (string * obj)) :=
  match document with
  | Ok (ODict d) => Ok d
  | Ok _ => raise ValueError "did not return a JSON object"
  | Raise e => Raise e
  end.

Definition _numeric (v : obj) : res (option float) :=
  match v with
  | OBool b => Ok (Some (if b then f_of_Z 1 else f0))
  | OInt z => x ← float_of_int z; Ok (Some x)
  | OFloat x => Ok (Some x)
  | _ => Ok None
  end.

(** * Probes *)

Record gen := mkGen { yielded : list reading; ended : option exn }.
Definition yields (l : list reading) : gen := mkGen l None.
Definition stops (e : exn) : gen := mkGen [] (Some e).
Definition gen_seq (g h : gen) : gen :=
  match ended g with Some _ => g | None => mkGen (yielded g ++ yielded h) (ended h) end.
Definition gen_bind {A : Type} (r : res A) (k : A -> gen) : gen := match r with Ok a => k a | Raise e => stops e end.
(** [for x in l: yield from f(x)]. *)
Fixpoint gen_each {A : Type} (f : A -> gen) (l : list A) : gen :=
  match l with [] => yields [] | a :: l => gen_seq (f a) (gen_each f l) end.

(** [v.get(...)]: only a dict has one. *)
Definition a_dict (v : obj) : res (list (string * obj)) :=
  match v with ODict d => Ok d | _ => raise AttributeError "object has no attribute 'get'" end.
(** [for x in v or []]. *)
Definition or_empty (v : obj) : res (list obj) :=
  if negb (obj_truthy v) then Ok []
  else
    match v with
    | OList l => Ok l
    | ODict d => Ok (map (fun kv => OStr kv.1) d)
    | OStr s => Ok (map (fun c => OStr (String c EmptyString)) (String.list_ascii_of_string s))
    | _ => raise TypeError "object is not iterable"
    end.
(** [v or {}]. *)
Definition or_dict (v : obj) : res (list (string * obj)) := if obj_truthy v then a_dict v else Ok [].

(** The numbers of some keys, each under a prefix. *)
Definition numbers (source prefix : string) (keys : list string) (d : list (string * obj)) : gen :=
  gen_each (fun key => gen_bind (_numeric (oget key d)) (fun x =>
    match x with Some x => yields [gauge source (prefix +:+ key) x] | None => yields [] end)) keys.

Definition split_host_reading (source_ref : string) : string * string :=
  let metric := match strip_str "host:" source_ref with Some m => m | None => source_ref end in
  match strip_str "clock_" metric with Some m => ("chrony", m) | None => ("host", metric) end.

(** The reader under it keeps what its groups yielded. *)
Definition host_read (reader : HostMetricsReader) (m : machine) : HostMetricsReader * gen :=
  let '(reader, readings) := HostMetrics.read reader m in
  (reader,
   yields (map (fun rv => let '(source, metric) := split_host_reading rv.1 in mkReading source metric rv.2) readings ++
           [gauge "host" "probe_failures" (f_of_Z (HostMetrics.probe_failures reader))])).

Definition by_key (l : list (string * obj)) : list (string * obj) := sort_by (fun x y => str_leb x.1 y.1) l.
Definition ntrip_read (health : res obj) : gen :=
  gen_bind (fetch_json health) (fun d =>
    gen_each (fun kv =>
      match kv.2 with
      | ONone => yields []
      | OStr s => yields [label "ntrip" kv.1 s]
      | raw => gen_bind (_numeric raw) (fun x => match x with Some x => yields [gauge "ntrip" kv.1 x] | None => yields [] end)
      end) (by_key d)).

Definition _VARZ_METRICS : list string :=
  ["connections"; "total_connections"; "routes"; "remotes"; "leafnodes"; "subscriptions"; "slow_consumers"; "in_msgs"; "out_msgs";
   "in_bytes"; "out_bytes"; "mem"; "cpu"].
Definition _JSZ_METRICS : list string := ["streams"; "consumers"; "messages"; "bytes"; "memory"; "storage"].
Definition _STREAM_STATE_METRICS : list string := ["messages"; "bytes"; "consumer_count"; "first_seq"; "last_seq"].
Definition _CONSUMER_METRICS : list string := ["num_pending"; "num_ack_pending"; "num_redelivered"; "num_waiting"].
Definition _LEAF_METRICS : list string := ["in_msgs"; "out_msgs"; "in_bytes"; "out_bytes"; "subscriptions"].

Definition _read_varz (document : res obj) : gen :=
  gen_bind (fetch_json document) (fun varz =>
    gen_seq (numbers "nats" "" _VARZ_METRICS varz)
      (gen_each (fun key => match oget key varz with OStr (String _ _ as s) => yields [label "nats" key s] | _ => yields [] end)
         ["server_name"; "version"])).

Definition _read_consumer (stream : string) (consumer : obj) : gen :=
  gen_bind (a_dict consumer) (fun d =>
    numbers "nats" ("consumer." +:+ stream +:+ "." +:+ sanitize (py_str (ogetd "name" (OStr "") d)) +:+ ".") _CONSUMER_METRICS d).

Definition _read_stream (stream : obj) : gen :=
  gen_bind (a_dict stream) (fun d =>
    let name := sanitize (py_str (ogetd "name" (OStr "") d)) in
    gen_bind (or_dict (oget "state" d)) (fun state =>
      gen_seq (numbers "nats" ("stream." +:+ name +:+ ".") _STREAM_STATE_METRICS state)
        (gen_bind (or_empty (oget "consumer_detail" d)) (gen_each (_read_consumer name))))).

Definition _read_jsz (document : res obj) : gen :=
  gen_bind (fetch_json document) (fun jsz =>
    gen_seq (numbers "nats" "js." _JSZ_METRICS jsz)
      (gen_bind (or_empty (oget "account_details" jsz)) (gen_each (fun account =>
        gen_bind (a_dict account) (fun d => gen_bind (or_empty (oget "stream_detail" d)) (gen_each _read_stream)))))).

Definition leaf_label (index : Z) (d : list (string * obj)) (raw_name : string) : string :=
  sanitize (str_or raw_name (py_str (ogetd "ip" (OStr "") d) +:+ "_" +:+ py_str (ogetd "port" (OInt index) d))).

Definition read_leaf (il : Z * obj) : gen :=
  gen_bind (a_dict il.2) (fun d =>
    let raw_name := let v := oget "name" d in if obj_truthy v then py_str v else "" in
    let prefix := "leaf." +:+ leaf_label il.1 d raw_name +:+ "." in
    gen_seq (yields [label "nats" (prefix +:+ "name") (str_or raw_name "unnamed")])
      (gen_seq
         (match oget "rtt" d with
          | OStr rtt => gen_bind (parse_duration_s rtt) (fun s =>
              match s with Some s => yields [gauge "nats" (prefix +:+ "rtt_s") s] | None => yields [] end)
          | _ => yields []
          end)
         (numbers "nats" prefix _LEAF_METRICS d))).

(** [len] and [enumerate] of the same list. *)
Definition _read_leafz (document : res obj) : gen :=
  gen_bind (fetch_json document) (fun leafz =>
    gen_bind (or_empty (oget "leafs" leafz)) (fun leafs =>
      gen_seq (yields [gauge "nats" "leafz.count" (f_of_Z (Z.of_nat (length leafs)))])
        (gen_each read_leaf (imap (fun i l => (Z.of_nat i, l)) leafs)))).

(** The three documents of the server. *)
Record nats_documents := mkDocuments { varz_doc : res obj; jsz_doc : res obj; leafz_doc : res obj }.
Definition nats_read (d : nats_documents) : gen :=
  gen_seq (_read_varz (varz_doc d)) (gen_seq (_read_jsz (jsz_doc d)) (_read_leafz (leafz_doc d))).

(** * Health *)

Record MonitorHealth := mkMHealth {
  mh_polls : Z;
  rows_written : Z;
  db_errors : Z;
  mh_probe_failures : gmap string Z;
  last_error : option string;
  _last_write_mono : option float
}.
Definition mhealth_init : MonitorHealth := mkMHealth 0 0 0 ∅ None None.

Definition observe_write (rows : Z) (now : float) (h : MonitorHealth) : MonitorHealth :=
  mkMHealth (mh_polls h + 1) (rows_written h + rows) (db_errors h) (mh_probe_failures h) (last_error h) (Some now).
Definition observe_probe_failure (probe : string) (e : exn) (h : MonitorHealth) : MonitorHealth :=
  mkMHealth (mh_polls h) (rows_written h) (db_errors h) (add_count (mh_probe_failures h) probe)
    (Some (probe +:+ ": " +:+ exn_msg e)) (_last_write_mono h).
Definition observe_db_error (e : exn) (h : MonitorHealth) : MonitorHealth :=
  mkMHealth (mh_polls h) (rows_written h) (db_errors h + 1) (mh_probe_failures h)
    (Some ("database: " +:+ exn_msg e)) (_last_write_mono h).
Definition last_write_age_s (now : float) (h : MonitorHealth) : option float :=
  (fun t => f_round_digits (fsub now t) 1) <$> _last_write_mono h.

(** * Rows *)

Record MetricRow := mkRow { row_source : string; row_metric : string; row_time : float; row_value : option float; row_text : option string }.

Definition value_column (v : SampleValue) : res (option float * option string) :=
  match v with
  | VStr s => Ok (None, Some s)
  | VFloat x => Ok (Some x, None)
  | VInt z => x ← float_of_int z; Ok (Some x, None)
  | VBool b => Ok (Some (if b then f_of_Z 1 else f0), None)
  end.
Definition to_row (stamp : float) (r : reading) : res MetricRow :=
  c ← value_column (r_value r); Ok (mkRow (r_source r) (r_metric r) stamp c.1 c.2).
Definition to_rows (readings : list reading) (stamp : float) : res (list MetricRow) := res_map (to_row stamp) readings.

(** What the database says to a poll: whether a connection that is held has
    been closed under it, the dial, the insert. *)
Record database_says := mkSays { was_closed : bool; dialled : res unit; inserted : res unit }.

(** [write] of a store that holds a connection or not; with it, what the
    transaction committed. *)
Definition write (conn : bool) (rows : list MetricRow) (db : database_says) : bool * list MetricRow * res Z :=
  match rows with
  | [] => (conn, [], Ok 0)
  | _ =>
      match (if conn && negb (was_closed db) then Ok () else dialled db) with
      | Raise e => (conn, [], Raise e)
      | Ok _ =>
          match inserted db with
          | Ok _ => (true, rows, Ok (Z.of_nat (length rows)))
          | Raise e => (match exn_kind e with DatabaseError => false | _ => true end, [], Raise e)
          end
      end
  end.

(** * The service *)

Inductive probe := P_host | P_ntrip | P_nats.
Definition probe_name (p : probe) : string := match p with P_host => "host" | P_ntrip => "ntrip" | P_nats => "nats" end.

Record PitMonitorService := mkMonitorService {
  pm_settings : PitMonitorSettings;
  pm_health : MonitorHealth;
  pm_conn : bool;
  pm_probes : list probe;
  pm_reader : HostMetricsReader
}.

Definition some_url (o : option string) : bool := match o with Some (String _ _) => true | _ => false end.
Definition _build_probes (s : PitMonitorSettings) : list probe :=
  P_host :: (if some_url (m_ntrip_health_url s) then [P_ntrip] else []) ++ (if some_url (m_nats_monitor_url s) then [P_nats] else []).

Definition monitor_init (s : PitMonitorSettings) (primed : option exn) : PitMonitorService :=
  mkMonitorService s mhealth_init false (_build_probes s) (HostMetrics.reader_init [] primed).

(** What the probes find at a poll. *)
Record pit_state := mkPit { pit_machine : machine; ntrip_doc : res obj; nats_docs : nats_documents }.

Definition probe_read (pit : pit_state) (reader : HostMetricsReader) (p : probe) : HostMetricsReader * gen :=
  match p with
  | P_host => host_read reader (pit_machine pit)
  | P_ntrip => (reader, ntrip_read (ntrip_doc pit))
  | P_nats => (reader, nats_read (nats_docs pit))
  end.

Definition collect_one (pit : pit_state) (st : HostMetricsReader * MonitorHealth * list reading) (p : probe)
    : HostMetricsReader * MonitorHealth * list reading :=
  let '(reader, h, readings) := st in
  let '(reader, g) := probe_read pit reader p in
  (reader, match ended g with Some e => observe_probe_failure (probe_name p) e h | None => h end, readings ++ yielded g).
Definition collect (s : PitMonitorService) (pit : pit_state) : HostMetricsReader * MonitorHealth * list reading :=
  fold_left (collect_one pit) (pm_probes s) (pm_reader s, pm_health s, []).

Definition poll (s : PitMonitorService) (pit : pit_state) (stamp : float) (db : database_says) (now : float)
    : PitMonitorService * list MetricRow * res Z :=
  let '(reader, h, readings) := collect s pit in
  let with_ h conn := mkMonitorService (pm_settings s) h conn (pm_probes s) reader in
  match to_rows readings stamp with
  | Raise e => (with_ h (pm_conn s), [], Raise e)
  | Ok rows =>
      match write (pm_conn s) rows db with
      | (conn, committed, Ok n) => (with_ (observe_write n now h) conn, committed, Ok n)
      | (conn, committed, Raise e) => (with_ (observe_db_error e h) conn, committed, Ok 0)
      end
  end.

(** [run]'s pace: a poll that overran its slot is not made up for. *)
Definition next_poll_after (s : PitMonitorService) (due now now' : float) : float * float :=
  let due := fadd due (m_interval_s (pm_settings s)) in
  let delay := fsub due now in
  if fleb delay f0 then (now', f0) else (due, delay).

(** The polls of a run; one that raises is the last. *)
Record poll_input := mkPoll { in_pit : pit_state; in_stamp : float; in_db : database_says; in_now : float }.
Fixpoint monitor_run (s : PitMonitorService) (ins : list poll_input) : PitMonitorService * list MetricRow * res unit :=
  match ins with
  | [] => (s, [], Ok ())
  | i :: ins =>
      match poll s (in_pit i) (in_stamp i) (in_db i) (in_now i) with
      | (s, committed, Raise e) => (s, committed, Raise e)
      | (s, committed, Ok _) => let '(s, more, r) := monitor_run s ins in (s, committed ++ more, r)
      end
  end.

(** * What a poll writes *)

Definition failed (pit : pit_state) (p : probe) : bool :=
  match p with
  | P_host => false
  | P_ntrip => match ended (ntrip_read (ntrip_doc pit)) with Some _ => true | None => false end
  | P_nats => match ended (nats_read (nats_docs pit)) with Some _ => true | None => false end
  end.
(** Everything the probes yielded before they were done or failed. *)
Definition snapshot (reader : HostMetricsReader) (probes : list probe) (pit : pit_state) : list reading :=
  concat (map (fun p => yielded (probe_read pit reader p).2) probes).

Definition one_column (row : MetricRow) : Prop :=
  (exists x, row_value row = Some x /\ row_text row = None) \/ (exists t, row_value row = None /\ row_text row = Some t).

Lemma to_row_column stamp r row : to_row stamp r = Ok row -> one_column row /\ row_time row = stamp.
Proof.
  unfold to_row. intros ([v t] & Hc & [= <-])%res_bind_Ok. split; [|done]. unfold one_column. cbn.
  destruct (r_value r) as [x|z|b|text]; cbn [value_column] in Hc;
    [injection Hc as <- <-; left; by eexists| |injection Hc as <- <-; left; by eexists|injection Hc as <- <-; right; by eexists].
  apply res_bind_Ok in Hc as (x & _ & [= <- <-]). left. by eexists.
Qed.

Lemma to_row_refused stamp r e : to_row stamp r = Raise e -> exn_kind e = OverflowError.
Proof.
  unfold to_row. destruct (r_value r) as [x|z|b|text]; try discriminate. cbn [value_column]. unfold float_of_int.
  destruct (is_finite (f_of_Z z)); [discriminate|]. by intros [= <-].
Qed.

Lemma to_rows_refused stamp l e : to_rows l stamp = Raise e -> exn_kind e = OverflowError.
Proof.
  induction l as [|r l IH]; [discriminate|]. unfold to_rows in *. cbn [res_map]. destruct (to_row stamp r) as [row|e'] eqn:E.
  - cbn. destruct (res_map (to_row stamp) l) as [rows|e']; [discriminate|]. intros [= <-]. by apply IH.
  - intros [= <-]. by eapply to_row_refused.
Qed.

(** The failures counted under a probe's name. *)
Definition fault (pit : pit_state) (probes : list probe) (name : string) : Z :=
  Z.of_nat (length (List.filter (fun p => failed pit p && String.eqb (probe_name p) name) probes)).

Lemma probe_ended pit reader p : failed pit p = match ended (probe_read pit reader p).2 with Some _ => true | None => false end.
Proof. destruct p; [|done..]. cbn. unfold host_read. by destruct (HostMetrics.read reader (pit_machine pit)). Qed.

Lemma collect_spec pit probes : NoDup probes -> forall reader h readings,
  match fold_left (collect_one pit) probes (reader, h, readings) with
  | (reader', h', readings') =>
      readings' = readings ++ snapshot reader probes pit /\
      mh_polls h' = mh_polls h /\ rows_written h' = rows_written h /\ db_errors h' = db_errors h /\
      forall name, count_of (mh_probe_failures h') name = count_of (mh_probe_failures h) name + fault pit probes name
  end.
Proof.
  induction probes as [|p probes IH]; intros Hnd reader h readings.
  - cbn. rewrite app_nil_r. split_and!; try done. intros name. unfold fault. cbn. lia.
  - apply NoDup_cons in Hnd as [Hp Hnd]. cbn [fold_left collect_one]. pose proof (probe_ended pit reader p) as Hf.
    destruct (probe_read pit reader p) as [reader1 g] eqn:Eg. cbn [snd] in Hf.
    set (h1 := match ended g with Some e => observe_probe_failure (probe_name p) e h | None => h end).
    specialize (IH Hnd reader1 h1 (readings ++ yielded g)).
    destruct (fold_left (collect_one pit) probes (reader1, h1, readings ++ yielded g)) as [[reader2 h2] readings2].
    destruct IH as (E1 & E2 & E3 & E4 & E5).
    assert (Hr : snapshot reader1 probes pit = snapshot reader probes pit).
    { unfold snapshot. f_equal. apply map_ext_in. intros q Hq%list_elem_of_In. destruct q; [|done..].
      destruct p; [by destruct Hp| |]; cbn in Eg; by injection Eg as <- _. }
    assert (Hh : mh_polls h1 = mh_polls h /\ rows_written h1 = rows_written h /\ db_errors h1 = db_errors h /\
      forall name, count_of (mh_probe_failures h1) name =
        count_of (mh_probe_failures h) name + (if failed pit p && String.eqb (probe_name p) name then 1 else 0)).
    { unfold h1. rewrite Hf. destruct (ended g); split_and!; try done; intros name; cbn [andb]; [|lia]. cbn [observe_probe_failure mh_probe_failures].
      destruct (String.eqb_spec (probe_name p) name) as [<-|Hn]; unfold add_count, count_of;
        [by rewrite lookup_insert_eq|rewrite lookup_insert_ne by done; lia]. }
    destruct Hh as (H1 & H2 & H3 & H4). rewrite E2, E3, E4. split_and!; try done.
    + rewrite E1, Hr, <- app_assoc. unfold snapshot. cbn [map concat]. by rewrite Eg.
    + intros name. rewrite E5, H4. unfold fault. cbn [List.filter]. destruct (_ && _); cbn [length]; lia.
Qed.

Definition db_failed (db : database_says) : bool := negb (is_ok (dialled db) && is_ok (inserted db)).
(** A poll's rows: all of them, or none when the database failed. *)
Definition whole_or_nothing (probes : list probe) (i : poll_input) (part : list MetricRow) : Prop :=
  (part = [] /\ db_failed (in_db i) = true) \/ exists reader, to_rows (snapshot reader probes (in_pit i)) (in_stamp i) = Ok part.

Definition tally (probes : list probe) (name : string) (ins : list poll_input) : Z :=
  foldr (fun i n => fault (in_pit i) probes name + n) 0 ins.

(** What some polls add to the books. *)
Record polled (s s' : PitMonitorService) (ins : list poll_input) (parts : list (list MetricRow)) : Prop := {
  pd_probes : pm_probes s' = pm_probes s;
  pd_parts : Forall2 (whole_or_nothing (pm_probes s)) ins parts;
  pd_rows : rows_written (pm_health s') = rows_written (pm_health s) + Z.of_nat (length (concat parts));
  pd_count : mh_polls (pm_health s') + db_errors (pm_health s') =
             mh_polls (pm_health s) + db_errors (pm_health s) + Z.of_nat (length ins);
  pd_faults : forall name, count_of (mh_probe_failures (pm_health s')) name =
                count_of (mh_probe_failures (pm_health s)) name + tally (pm_probes s) name ins
}.

Lemma polled_trans s1 s2 s3 ins ins' parts parts' :
  polled s1 s2 ins parts -> polled s2 s3 ins' parts' -> polled s1 s3 (ins ++ ins') (parts ++ parts').
Proof.
  intros [A1 A2 A3 A4 A5] [B1 B2 B3 B4 B5]. rewrite A1 in *. split.
  - done.
  - by apply Forall2_app.
  - rewrite B3, A3, concat_app, length_app. lia.
  - rewrite B4, A4, length_app. lia.
  - intros name. rewrite B5, A5. clear. induction ins as [|i ins IH]; cbn [app tally foldr] in *; unfold tally in *; cbn [foldr]; lia.
Qed.

Lemma write_whole conn rows db :
  match write conn rows db with
  | (_, committed, Ok n) => committed = rows /\ n = Z.of_nat (length rows)
  | (_, committed, Raise _) => committed = [] /\ db_failed db = true
  end.
Proof.
  unfold write, db_failed. destruct rows as [|row rows]; [done|]. destruct (conn && negb (was_closed db)).
  - destruct (inserted db); [done|]. by rewrite andb_false_r.
  - destruct (dialled db); [|done]. by destruct (inserted db).
Qed.

Lemma poll_polled s pit stamp db now : NoDup (pm_probes s) ->
  match poll s pit stamp db now with
  | (s', committed, Ok _) => polled s s' [mkPoll pit stamp db now] [committed]
  | (s', committed, Raise e) => committed = [] /\ exn_kind e = OverflowError
  end.
Proof.
  intros Hnd. unfold poll, collect. pose proof (collect_spec pit (pm_probes s) Hnd (pm_reader s) (pm_health s) []) as H.
  destruct (fold_left _ _ _) as [[reader h] readings]. destruct H as (-> & E1 & E2 & E3 & E4). cbn [app].
  destruct (to_rows _ stamp) as [rows|e] eqn:Er; [|split; [done|by eapply to_rows_refused]].
  pose proof (write_whole (pm_conn s) rows db) as Hw. destruct (write (pm_conn s) rows db) as [[conn committed] [n|e]].
  - destruct Hw as [-> ->]. split; cbn; rewrite ?app_nil_r; try done; try lia.
    + apply Forall2_cons. split; [|by constructor]. right. by eexists.
    + intros name. rewrite E4. lia.
  - destruct Hw as [-> Hd]. split; cbn; try done; try lia.
    + apply Forall2_cons. split; [by left; split|by constructor].
    + intros name. rewrite E4. lia.
Qed.

Lemma monitor_run_polled ins : forall s, NoDup (pm_probes s) ->
  match monitor_run s ins with
  | (s', out, Ok _) => exists parts, out = concat parts /\ polled s s' ins parts
  | (_, out, Raise e) => exn_kind e = OverflowError
  end.
Proof.
  induction ins as [|i ins IH]; intros s Hnd.
  - exists []. split; [done|]. split; cbn; try done; try lia.
  - cbn [monitor_run]. pose proof (poll_polled s (in_pit i) (in_stamp i) (in_db i) (in_now i) Hnd) as Hp.
    destruct (poll s (in_pit i) (in_stamp i) (in_db i) (in_now i)) as [[s1 committed] [n|e]]; [|by apply Hp].
    specialize (IH s1). rewrite (pd_probes _ _ _ _ Hp) in IH. specialize (IH Hnd).
    destruct (monitor_run s1 ins) as [[s2 out] [[]|e]]; [|done]. destruct IH as (parts & -> & Hq).
    exists ([committed] ++ parts). split; [done|]. replace (i :: ins) with ([mkPoll (in_pit i) (in_stamp i) (in_db i) (in_now i)] ++ ins) by (by destruct i).
    by eapply polled_trans.
Qed.

Lemma build_probes_NoDup s : NoDup (_build_probes s).
Proof.
  unfold _build_probes. destruct (some_url _), (some_url _); cbn; repeat (apply NoDup_cons; split; [set_solver|]); constructor.
Qed.

Lemma whole_columns probes i part : whole_or_nothing probes i part -> Forall (fun row => one_column row /\ row_time row = in_stamp i) part.
Proof.
  intros [[-> _]|(reader & H)]; [constructor|]. unfold to_rows in H. revert part H. generalize (snapshot reader probes (in_pit i)).
  intros l. induction l as [|r l IH]; intros part; [intros [= <-]; constructor|]. cbn [res_map].
  intros (row & Hr & (rows & Hl & [= <-])%res_bind_Ok)%res_bind_Ok. apply Forall_cons. split; [by apply to_row_column in Hr|by apply IH].
Qed.

(** However the probes and the database fail: a poll is in the table whole, or
    not at all when the database would not have it, every row of it at its own time with a number or a text and not
    both, a probe that fails costs the others nothing and is counted, the rows
    written are counted exactly, and every poll is counted as one that was
    committed or one that was not. *)
Theorem monitor_accounts (settings : PitMonitorSettings) (primed : option exn) (ins : list poll_input) :
  match monitor_run (monitor_init settings primed) ins with
  | (s, table, Ok _) =>
      exists parts, table = concat parts /\
        Forall2 (whole_or_nothing (_build_probes settings)) ins parts /\
        Forall2 (fun i part => Forall (fun row => one_column row /\ row_time row = in_stamp i) part) ins parts /\
        rows_written (pm_health s) = Z.of_nat (length table) /\
        mh_polls (pm_health s) + db_errors (pm_health s) = Z.of_nat (length ins) /\
        forall name, count_of (mh_probe_failures (pm_health s)) name = tally (_build_probes settings) name ins
  | (_, _, Raise e) => exn_kind e = OverflowError
  end.
Proof.
  pose proof (monitor_run_polled ins (monitor_init settings primed) (build_probes_NoDup settings)) as H.
  destruct (monitor_run (monitor_init settings primed) ins) as [[s table] [[]|e]]; [|done].
  destruct H as (parts & -> & [H1 H2 H3 H4 H5]). exists parts. split_and!; [done..| | | |].
  - eapply Forall2_impl; [exact H2|]. intros i part. by apply whole_columns.
  - exact H3.
  - exact H4.
  - exact H5.
Qed.

(** * A pit *)

Module Pitwall.
Definition settings : PitMonitorSettings := mkMonitor "dbname=pit" (f_of_Z 5) 8085 "/" (f_of_Z 3) (Some "http://ntrip") (Some "http://nats").
Definition up : database_says := mkSays false (Ok ()) (Ok ()).
Definition down : database_says := mkSays false (Ok ()) (raise DatabaseError "server closed the connection").
Definition refused {A : Type} : res A := raise OSError "Connection refused".
Definition health : res obj :=
  Ok (ODict [("publishes", OInt 3); ("connected", OBool true); ("last_byte_age_s", ONone); ("mountpoint", OStr "RTCM")]).
Definition varz : res obj := Ok (ODict [("connections", OInt 4); ("server_name", OStr "pit")]).
Definition leaf (name : string) (rtt : string) : obj := ODict [("name", OStr name); ("rtt", OStr rtt)].
Definition pit (ntrip : res obj) (jsz leafz : res obj) : pit_state := mkPit HostMetrics.Sbc.quiet ntrip (mkDocuments varz jsz leafz).
Definition numbers_of (table : list MetricRow) : list (string * string) := map (fun row => (row_source row, row_metric row)) table.
Definition poll_at (n : Z) (p : pit_state) (db : database_says) : poll_input := mkPoll p (f_of_Z n) db (f_of_Z n).
End Pitwall.

(** The stream's server is restarting: what it had yielded is kept, and the
    next poll, refused by the database, is missing whole. *)
Example a_bad_minute :
  match monitor_run (monitor_init Pitwall.settings None)
          [Pitwall.poll_at 5 (Pitwall.pit Pitwall.health Pitwall.refused Pitwall.refused) Pitwall.up;
           Pitwall.poll_at 10 (Pitwall.pit Pitwall.refused (Ok (ODict [])) (Ok (ODict []))) Pitwall.down] with
  | (s, table, r) =>
      r = Ok () /\
      Pitwall.numbers_of table = [("host", "probe_failures"); ("ntrip", "connected"); ("ntrip", "mountpoint"); ("ntrip", "publishes");
                                  ("nats", "connections"); ("nats", "server_name")] /\
      mh_polls (pm_health s) = 1 /\ db_errors (pm_health s) = 1 /\ pm_conn s = false /\
      count_of (mh_probe_failures (pm_health s)) "nats" = 1 /\ count_of (mh_probe_failures (pm_health s)) "ntrip" = 1 /\
      last_error (pm_health s) = Some "database: server closed the connection"
  end.
Proof. vm_compute. repeat split. Qed.

(** Two leaves whose names differ only in what a metric's name may not hold
    report under one name. *)
Example leaves_collide :
  map r_metric (List.filter (fun r => String.eqb (r_metric r) "leaf.car_7.rtt_s")
    (yielded (_read_leafz (Ok (ODict [("leafs", OList [Pitwall.leaf "car-7" "1.5ms"; Pitwall.leaf "car.7" "2ms"])]))))) =
  ["leaf.car_7.rtt_s"; "leaf.car_7.rtt_s"].
Proof. vm_compute. reflexivity. Qed.

(** A round trip of a minute or more, written in two units, is no reading; one
    that only looks like a number costs the rest of the probe. *)
Example long_round_trips :
  parse_duration_s "1.53ms" = Ok (Some (fmul (f_of_ratio 153 100) (f_of_ratio 1 1000))) /\ parse_duration_s "1m30s" = Ok None /\
  parse_duration_s "1.5.3s" = raise ValueError "could not convert string to float: '1.5.3'".
Proof. vm_compute. repeat split. Qed.
