(* ===== verification/StrategyService.v ===== *)
(** The strategy service ([src/pit/strategy/service.py], [database.py],
    [publisher.py], [health.py]): when the race is evaluated again, the state
    and its findings written in one transaction, and the numbers published to
    the pit's displays.

    A poll's reads are what the views answer, in the order they are asked;
    SQL text and the rows' conversion to facts are not modelled. The findings
    table and its reconciliation are [FieldService]'s, whose statements are the
    same. Naming a wall clock time is a parameter. *)

From S2P Require Import Prelude PyFloat Stats PyText FieldService Strategy TimingDisplay MqttSink PitSettings Ntrip.

Local Open Scope Z_scope.

(** * What the displays show ([publisher.py]) *)

Definition OUTPUT_CHANNELS : list string :=
  ["strategy.fuel_remaining_l"; "strategy.burn_l_per_lap"; "strategy.laps_to_dry"; "strategy.time_to_dry_s";
   "strategy.pit_window_open_lap"; "strategy.pit_window_close_lap"; "strategy.target_lap_s"; "strategy.driver_time_remaining_s";
   "strategy.refuel_release_at"].

Definition _clock (seconds : option float) : res string :=
  match seconds with
  | None => Ok "--:--"
  | Some seconds =>
      whole ← f_round seconds;
      let hours := whole / 3600 in
      let rest := whole mod 3600 in
      Ok (if negb (hours =? 0) then pretty hours +:+ ":" +:+ fmt_int 2 (rest / 60) +:+ ":" +:+ fmt_int 2 (rest mod 60)
          else pretty (rest / 60) +:+ ":" +:+ fmt_int 2 (rest mod 60))
  end.

(** [divmod(x, 60)] of a float: the remainder is exact. *)
Definition divmod_minutes (x : float) : float * float :=
  if negb (is_finite x) then (S754_nan, S754_nan)
  else
    let r := f_of_ratio (Z.rem (fnum x) (60 * fden x)) (fden x) in
    let '(r, q) :=
      let q := fdiv_ieee (fsub x r) (f_of_Z 60) in
      if fltb r f0 then (fadd r (f_of_Z 60), fsub q (f_of_Z 1)) else (r, q) in
    let n := f_of_Z (fnum q / fden q) in
    (if fltb (f_of_ratio 1 2) (fsub q n) then fadd n (f_of_Z 1) else n, r).

Definition _lap_time (seconds : option float) : res string :=
  match seconds with
  | None => Ok "--:--.-"
  | Some seconds =>
      let '(minutes, rest) := divmod_minutes seconds in
      n ← f_trunc minutes;
      Ok (pretty n +:+ ":" +:+ fmt_padded 4 1 rest)
  end.

Definition _number (value : option float) (digits : nat) (suffix : string) : string :=
  match value with None => "--" | Some x => fmt_fixed x digits +:+ suffix end.

(** [timestamp()] of an instant in microseconds. *)
Definition timestamp (t : Z) : float := f_of_ratio t 1000000.
Definition opt_json (x : option float) : obj := match x with Some x => OFloat x | None => ONone end.
Definition lap_value (n : option Z) : res (option float) :=
  match n with None => Ok None | Some n => x ← float_of_int n; Ok (Some x) end.
Definition lap_display (n : option Z) : string := match n with None => "--" | Some n => pretty n end.

Section Publish.
Context (json_dumps : obj -> string) (wall : Z -> string).

Definition messages (s : StrategyState) : res (list (string * obj)) :=
  stamp ← f_round (fmul (timestamp (st_time s)) (f_of_Z 1000));
  dry ← _clock (time_to_dry_s_lo s);
  open_ ← lap_value (window_open_lap s);
  close_ ← lap_value (window_close_lap s);
  target ← _lap_time (target_lap_s s);
  driver ← _clock (driver_time_remaining_s s);
  let document value display := ODict [("time", OInt stamp); ("value", opt_json value); ("display", OStr display)] in
  Ok [("strategy.fuel_remaining_l", document (fuel_remaining_l s) (_number (fuel_remaining_l s) 1 " L"));
      ("strategy.burn_l_per_lap", document (burn_l_per_lap s) (_number (burn_l_per_lap s) 2 " L/lap"));
      ("strategy.laps_to_dry", document (laps_to_dry_lo s) (_number (laps_to_dry_lo s) 1 ""));
      ("strategy.time_to_dry_s", document (time_to_dry_s_lo s) dry);
      ("strategy.pit_window_open_lap", document open_ (lap_display (window_open_lap s)));
      ("strategy.pit_window_close_lap", document close_ (lap_display (window_close_lap s)));
      ("strategy.target_lap_s", document (target_lap_s s) target);
      ("strategy.driver_time_remaining_s", document (driver_time_remaining_s s) driver);
      ("strategy.refuel_release_at",
        document ((fun t => fmul (timestamp t) (f_of_Z 1000)) <$> refuel_release_at s)
          (match refuel_release_at s with None => "--:--:--" | Some t => wall t end))].

Definition strategy_message (vehicle channel : string) (document : obj) : res (string * string) :=
  if negb (bool_decide (channel ∈ OUTPUT_CHANNELS)) then raise ValueError ("refusing to publish non-strategy channel " +:+ channel)
  else payload ← strict_dumps json_dumps document; Ok ("openlaps/" +:+ vehicle +:+ "/" +:+ channel, payload).

(** * The service ([service.py]) *)

Record Probe := mkProbe {
  p_session_id : option string;
  p_session_started : option Z;
  p_last_crossed_at : option Z;
  p_plan_revision : option Z;
  p_in_pits : bool
}.

Record SHealth := mkSHealth {
  evaluations : Z;
  sh_db_errors : Z;
  sh_mqtt_connected : bool;
  sh_mqtt_reconnects : Z;
  sh_mqtt_published : Z;
  sh_session_id : option string;
  last_trigger : option string;
  sh_findings_open : Z;
  sh_last_error : option string
}.
Definition shealth_init : SHealth := mkSHealth 0 0 false 0 0 None None 0 None.

Definition observe_evaluation (session : option string) (trigger : string) (open_ : Z) (h : SHealth) : SHealth :=
  mkSHealth (evaluations h + 1) (sh_db_errors h) (sh_mqtt_connected h) (sh_mqtt_reconnects h) (sh_mqtt_published h)
    session (Some trigger) open_ (sh_last_error h).
Definition observe_db_error (e : exn) (h : SHealth) : SHealth :=
  mkSHealth (evaluations h) (sh_db_errors h + 1) (sh_mqtt_connected h) (sh_mqtt_reconnects h) (sh_mqtt_published h)
    (sh_session_id h) (last_trigger h) (sh_findings_open h) (Some ("database: " +:+ exn_msg e)).
Definition note_mqtt (up : bool) (reconnects published : Z) (h : SHealth) : SHealth :=
  mkSHealth (evaluations h) (sh_db_errors h) up (sh_mqtt_reconnects h + reconnects) (sh_mqtt_published h + published)
    (sh_session_id h) (last_trigger h) (sh_findings_open h) (sh_last_error h).

(** The rows committed, of both tables. *)
Record Tables := mkTables { states : list StrategyState; finding_rows : list FindingRow }.

(** Where the MQTT loop waits. *)
Inductive mqtt_at := Connecting | Waiting | Sending (item : string * string) | Resting.

Record StrategyService := mkStrategyService {
  ss_settings : StrategySettings;
  ss_health : SHealth;
  ss_tables : Tables;
  open_findings : list (string * positive);
  _last_probe : option Probe;
  _last_evaluated_mono : option float;
  _adopted : bool;
  _outbox : list (string * string);
  ss_at : mqtt_at;
  ss_down : option exn
}.

Definition service_init (settings : StrategySettings) (tables : Tables) : StrategyService :=
  mkStrategyService settings shealth_init tables [] None None false [] Connecting None.

Definition with_health (f : SHealth -> SHealth) (s : StrategyService) : StrategyService :=
  mkStrategyService (ss_settings s) (f (ss_health s)) (ss_tables s) (open_findings s) (_last_probe s) (_last_evaluated_mono s) (_adopted s)
    (_outbox s) (ss_at s) (ss_down s).
Definition with_db (tables : Tables) (held : list (string * positive)) (adopted : bool) (s : StrategyService) : StrategyService :=
  mkStrategyService (ss_settings s) (ss_health s) tables held (_last_probe s) (_last_evaluated_mono s) adopted (_outbox s) (ss_at s) (ss_down s).
Definition with_probe (p : Probe) (mono : float) (s : StrategyService) : StrategyService :=
  mkStrategyService (ss_settings s) (ss_health s) (ss_tables s) (open_findings s) (Some p) (Some mono) (_adopted s) (_outbox s) (ss_at s) (ss_down s).
Definition with_box (box : list (string * string)) (at_ : mqtt_at) (s : StrategyService) : StrategyService :=
  mkStrategyService (ss_settings s) (ss_health s) (ss_tables s) (open_findings s) (_last_probe s) (_last_evaluated_mono s) (_adopted s) box at_ (ss_down s).
Definition down (e : exn) (s : StrategyService) : StrategyService :=
  mkStrategyService (ss_settings s) (ss_health s) (ss_tables s) (open_findings s) (_last_probe s) (_last_evaluated_mono s) (_adopted s)
    (_outbox s) (ss_at s) (Some e).

Definition _trigger (s : StrategyService) (probe : Probe) (mono : float) : option string :=
  match _last_probe s with
  | None => Some "start"
  | Some previous =>
      if negb (bool_decide (p_session_id probe = p_session_id previous)) then
        Some (match p_session_id probe with None => "idle" | Some _ => "start" end)
      else
        match p_session_id probe with
        | None => None
        | Some _ =>
            if negb (bool_decide (p_last_crossed_at probe = p_last_crossed_at previous)) then Some "lap"
            else if negb (bool_decide (p_plan_revision probe = p_plan_revision previous)) then Some "plan"
            else
              let since := fsub mono (match _last_evaluated_mono s with Some t => t | None => f0 end) in
              if p_in_pits probe && fleb (s_pit_interval_s (ss_settings s)) since then Some "pit"
              else if fleb (s_max_interval_s (ss_settings s)) since then Some "timer"
              else None
        end
  end.

(** A poll: what the database answers to each read, the clocks, the ids drawn,
    and how many statements of the write succeed. *)
Record poll_says := mkPollSays {
  adopt_says : res unit;
  probe_says : res Probe;
  plan_says : res (option PlanFacts);
  laps_say : res (list LapFact);
  stints_say : res (list StintFact);
  stops_say : res (list StopFact);
  clock_now : Z;
  mono_now : float;
  mono_after : float;
  fresh_ids : list positive;
  statements : option nat
}.

(** The findings of an evaluation, as rows know them. *)
Definition as_row_finding (f : Strategy.Finding) : Reconcile.Finding :=
  Reconcile.mkFinding (sf_monitor f) (sf_severity f) (sf_score f) (sf_summary f).
Definition MONITORS : list string :=
  ["strategy.driver_time"; "strategy.pit_window"; "strategy.plan_drift"; "strategy.short_fill"].
Definition adopt (rows : list FindingRow) : list (string * positive) :=
  fold_left (fun d r =>
    if bool_decide (closed_at r = None) && bool_decide (fr_monitor r ∈ MONITORS) then od_set (fr_monitor r) (finding_id r) d else d)
    rows [].

(** [write]: the state's row, then the findings; a failure leaves the tables. *)
Definition write (s : StrategyService) (state : StrategyState) (says : poll_says) : StrategyService * res unit :=
  let failed held := (with_db (ss_tables s) held (_adopted s) s, raise DatabaseError "") in
  match statements says with
  | Some O => failed (open_findings s)
  | left_ =>
      let '(rows, held, committed) :=
        reconcile_findings (finding_rows (ss_tables s)) (open_findings s) (map as_row_finding (findings state)) (st_time state)
          (fresh_ids says) (match left_ with Some n => Some (pred n) | None => None end) in
      if (committed : bool) then (with_db (mkTables (states (ss_tables s) ++ [state]) rows) held (_adopted s) s, Ok ())
      else failed held
  end.

Definition read_inputs (vehicle session : string) (session_started now : Z) (says : poll_says) : res RaceInputs :=
  plan ← plan_says says;
  laps ← laps_say says;
  stints ← stints_say says;
  stops ← stops_say says;
  Ok (mkInputs now vehicle session session_started plan laps stints stops).

Definition evaluated (s : StrategyService) (probe : Probe) (trigger : string) (says : poll_says) : res StrategyState :=
  match p_session_id probe, p_session_started probe with
  | Some session, Some started =>
      inputs ← read_inputs (s_vehicle_id (ss_settings s)) session started (clock_now says) says;
      evaluate inputs (s_policy (ss_settings s)) trigger
  | _, _ => Ok (idle_state (clock_now says) (s_vehicle_id (ss_settings s)))
  end.

Definition adopt_once (s : StrategyService) (says : poll_says) : StrategyService * res unit :=
  if _adopted s then (s, Ok ())
  else
    match adopt_says says with
    | Raise e => (s, Raise e)
    | Ok _ => (with_db (ss_tables s) (adopt (finding_rows (ss_tables s))) true s, Ok ())
    end.

Definition step (s : StrategyService) (says : poll_says) : StrategyService * res (option StrategyState) :=
  match adopt_once s says with
  | (s, Raise e) => (s, Raise e)
  | (s, Ok _) =>
      match probe_says says with
      | Raise e => (s, Raise e)
      | Ok probe =>
          match _trigger s probe (mono_now says) with
          | None => (s, Ok None)
          | Some trigger =>
              match evaluated s probe trigger says with
              | Raise e => (s, Raise e)
              | Ok state =>
                  match write s state says with
                  | (s, Raise e) => (s, Raise e)
                  | (s, Ok _) =>
                      (with_health (observe_evaluation (st_session_id state) trigger (Z.of_nat (length (open_findings s))))
                         (with_probe probe (mono_after says) s), Ok (Some state))
                  end
              end
          end
      end
  end.

(** A full outbox gives up its oldest. *)
Definition OUTBOX_SIZE : nat := 64.
Definition put_item (box : list (string * string)) (item : string * string) : list (string * string) :=
  (if (OUTBOX_SIZE <=? length box)%nat then tail box else box) ++ [item].

(** [_publish]: the messages before one that cannot be made are queued. *)
Fixpoint publish_all (vehicle : string) (l : list (string * obj)) (box : list (string * string)) : list (string * string) * res unit :=
  match l with
  | [] => (box, Ok ())
  | (channel, document) :: l =>
      match strategy_message vehicle channel document with
      | Raise e => (box, Raise e)
      | Ok item => publish_all vehicle l (put_item box item)
      end
  end.
Definition _publish (s : StrategyService) (state : StrategyState) : StrategyService * res unit :=
  match messages state with
  | Raise e => (s, Raise e)
  | Ok l => let '(box, r) := publish_all (s_vehicle_id (ss_settings s)) l (_outbox s) in (with_box box (ss_at s) s, r)
  end.

(** A turn of [run]: only the evaluation is guarded. *)
Definition poll (s : StrategyService) (says : poll_says) : StrategyService :=
  match step s says with
  | (s, Raise e) => with_health (observe_db_error e) s
  | (s, Ok None) => s
  | (s, Ok (Some state)) => match _publish s state with (s, Raise e) => down e s | (s, Ok _) => s end
  end.

Inductive service_step :=
  | SPoll (says : poll_says)
  | SOpened
  | SRefused
  | STake
  | SAnswered (ok : bool)
  | SRested.

Definition mqtt_failed (s : StrategyService) : StrategyService := with_health (note_mqtt false 1 0) (with_box (_outbox s) Resting s).

(** A step, and what was taken from the outbox. Once an exception has left
    [run] nothing more happens. *)
Definition service_turn (s : StrategyService) (st : service_step) : StrategyService * list (string * string) :=
  match ss_down s with
  | Some _ => (s, [])
  | None =>
      match st, ss_at s with
      | SPoll says, _ => (poll s says, [])
      | SOpened, Connecting => (with_health (note_mqtt true 0 0) (with_box (_outbox s) Waiting s), [])
      | SRefused, Connecting => (mqtt_failed s, [])
      | STake, Waiting =>
          match _outbox s with
          | [] => (s, [])
          | item :: rest => (with_box rest (Sending item) s, [item])
          end
      | SAnswered true, Sending _ => (with_health (note_mqtt (sh_mqtt_connected (ss_health s)) 0 1) (with_box (_outbox s) Waiting s), [])
      | SAnswered false, Sending _ => (mqtt_failed s, [])
      | SRested, Resting => (with_box (_outbox s) Connecting s, [])
      | _, _ => (s, [])
      end
  end.
Fixpoint service_run (s : StrategyService) (steps : list service_step) : StrategyService * list (string * string) :=
  match steps with
  | [] => (s, [])
  | st :: steps =>
      let '(s, taken) := service_turn s st in
      let '(s, more) := service_run s steps in (s, taken ++ more)
  end.

(** * No change is missed *)

(** What a poll came to. *)
Inductive poll_fate := Evaluated (p : Probe) (st : StrategyState) | Quiet | Failed.
Definition fate_of (s : StrategyService) (says : poll_says) : poll_fate :=
  match (step s says).2, probe_says says with
  | Ok (Some st), Ok p => Evaluated p st
  | Ok _, _ => Quiet
  | Raise _, _ => Failed
  end.
Definition fates_by (s : StrategyService) (st : service_step) : list poll_fate :=
  match st, ss_down s with SPoll says, None => [fate_of s says] | _, _ => [] end.
Fixpoint fates (s : StrategyService) (steps : list service_step) : list poll_fate :=
  match steps with [] => [] | st :: steps => fates_by s st ++ fates (service_turn s st).1 steps end.

Definition new_states (l : list poll_fate) : list StrategyState :=
  flat_map (fun f => match f with Evaluated _ st => [st] | _ => [] end) l.
Definition probes_done (l : list poll_fate) : list Probe :=
  flat_map (fun f => match f with Evaluated p _ => [p] | _ => [] end) l.
Definition failures (l : list poll_fate) : list poll_fate :=
  List.filter (fun f => match f with Failed => true | _ => false end) l.

Lemma write_spec s state says :
  match write s state says with
  | (s', r) =>
      _last_probe s' = _last_probe s /\ ss_health s' = ss_health s /\ ss_settings s' = ss_settings s /\ ss_down s' = ss_down s /\
      _outbox s' = _outbox s /\ ss_at s' = ss_at s /\ _adopted s' = _adopted s /\
      match r with
      | Ok _ => states (ss_tables s') = states (ss_tables s) ++ [state]
      | Raise _ => ss_tables s' = ss_tables s
      end
  end.
Proof.
  unfold write. destruct (statements says) as [[|n]|]; [done|..];
    destruct (reconcile_findings _ _ _ _ _ _) as [[rows held] committed]; by destruct committed.
Qed.

(** The fields a poll's reads leave alone. *)
Record same_service (s s' : StrategyService) : Prop := {
  sv_settings : ss_settings s' = ss_settings s;
  sv_down : ss_down s' = ss_down s;
  sv_outbox : _outbox s' = _outbox s;
  sv_at : ss_at s' = ss_at s;
  sv_errors : sh_db_errors (ss_health s') = sh_db_errors (ss_health s)
}.
Record same_books (s s' : StrategyService) : Prop := {
  sb_tables : ss_tables s' = ss_tables s;
  sb_evaluations : evaluations (ss_health s') = evaluations (ss_health s);
  sb_probe : _last_probe s' = _last_probe s
}.

Lemma adopt_spec s says : same_service s (adopt_once s says).1 /\ same_books s (adopt_once s says).1.
Proof. unfold adopt_once. destruct (_adopted s); [by repeat split|]. by destruct (adopt_says says). Qed.

(** The probe still agrees with the one evaluated last. *)
Definition unchanged (p q : Probe) : Prop :=
  p_session_id p = p_session_id q /\
  (is_Some (p_session_id p) -> p_last_crossed_at p = p_last_crossed_at q /\ p_plan_revision p = p_plan_revision q).

Lemma trigger_none s p mono : _trigger s p mono = None -> exists q, _last_probe s = Some q /\ unchanged p q.
Proof.
  unfold _trigger, unchanged. destruct (_last_probe s) as [q|]; [|done]. intros H. exists q. split; [done|].
  destruct (bool_decide_reflect (p_session_id p = p_session_id q)) as [E|E]; cbn [negb] in H; [|done]. split; [done|].
  intros [session Es]. rewrite Es in H.
  destruct (bool_decide_reflect (p_last_crossed_at p = p_last_crossed_at q)); cbn [negb] in H; [|done].
  by destruct (bool_decide_reflect (p_plan_revision p = p_plan_revision q)).
Qed.

(** One evaluation: committed whole, not needed, or failed with nothing
    changed that the next poll relies on. *)
Lemma step_spec s says :
  match step s says with
  | (s', r) =>
      same_service s s' /\
      match r with
      | Ok (Some st) =>
          states (ss_tables s') = states (ss_tables s) ++ [st] /\ evaluations (ss_health s') = evaluations (ss_health s) + 1 /\
          exists p, probe_says says = Ok p /\ _last_probe s' = Some p
      | Ok None => same_books s s' /\ exists p q, probe_says says = Ok p /\ _last_probe s = Some q /\ unchanged p q
      | Raise _ => same_books s s'
      end
  end.
Proof.
  unfold step. destruct (adopt_spec s says) as [[A1 A2 A3 A4 A5] [B1 B2 B3]].
  destruct (adopt_once s says) as [s1 [[]|e]]; cbn [fst] in *; [|by repeat split].
  destruct (probe_says says) as [p|e]; [|by repeat split].
  destruct (_trigger s1 p (mono_now says)) as [trigger|] eqn:Et.
  2: { split; [by repeat split|]. apply trigger_none in Et as (q & Hq & Hu). split; [by repeat split|].
       exists p, q. by rewrite <- B3. }
  destruct (evaluated s1 p trigger says) as [st|e]; [|by repeat split].
  pose proof (write_spec s1 st says) as Hw. destruct (write s1 st says) as [s2 [[]|e]];
    destruct Hw as (W1 & W2 & W3 & W4 & W5 & W6 & W7 & W8).
  - split; [split; cbn; congruence|]. cbn [with_health with_probe ss_tables ss_health observe_evaluation evaluations _last_probe].
    rewrite W8, W2, B1, B2. split_and!; [done..|]. by exists p.
  - split; split; congruence.
Qed.

(** Over a run: what was committed, counted and remembered. *)
Record strategy_books (s : StrategyService) (before : list StrategyState) (l : list poll_fate) : Prop := {
  bk_states : states (ss_tables s) = before ++ new_states l;
  bk_evaluations : evaluations (ss_health s) = Z.of_nat (length (new_states l));
  bk_errors : sh_db_errors (ss_health s) = Z.of_nat (length (failures l));
  bk_probe : _last_probe s = last (probes_done l)
}.

Lemma publish_keeps s st :
  match _publish s st with
  | (s', _) => same_books s s' /\ sh_db_errors (ss_health s') = sh_db_errors (ss_health s) /\ ss_down s' = ss_down s
  end.
Proof. unfold _publish. destruct (messages st) as [l|e]; [|done]. by destruct (publish_all _ _ _). Qed.

Lemma poll_books s says before l :
  strategy_books s before l -> strategy_books (poll s says) before (l ++ [fate_of s says]).
Proof.
  intros [K1 K2 K3 K4]. unfold poll, fate_of. pose proof (step_spec s says) as H.
  destruct (step s says) as [s1 [[st|]|e]]; cbn [snd]; destruct H as [[A1 A2 A3 A4 A5] H].
  - destruct H as (H1 & H2 & p & Hp & Hl). rewrite Hp. pose proof (publish_keeps s1 st) as Hq.
    assert (Hb : strategy_books s1 before (l ++ [Evaluated p st])).
    { split; unfold new_states, failures, probes_done in *; rewrite ?flat_map_app, ?List.filter_app, ?length_app; cbn.
      - by rewrite H1, K1, app_assoc.
      - rewrite H2, K2. lia.
      - rewrite A5, K3. lia.
      - by rewrite Hl, last_snoc. }
    destruct Hb as [K5 K6 K7 K8].
    destruct (_publish s1 st) as [s2 [[]|e]]; destruct Hq as ([Q1 Q2 Q3] & Q4 & _); split; cbn; congruence.
  - destruct H as ([B1 B2 B3] & p & q & Hp & Hq & Hu).
    split; unfold new_states, failures, probes_done in *; rewrite ?flat_map_app, ?List.filter_app, ?app_nil_r; cbn; rewrite ?app_nil_r; congruence.
  - destruct H as [B1 B2 B3].
    split; unfold new_states, failures, probes_done in *; rewrite ?flat_map_app, ?List.filter_app, ?app_nil_r, ?length_app; cbn; rewrite ?app_nil_r; try congruence.
    rewrite A5, K3. lia.
Qed.

Lemma turn_books s st before l :
  strategy_books s before l -> strategy_books (service_turn s st).1 before (l ++ fates_by s st).
Proof.
  intros Hk. unfold service_turn, fates_by. destruct (ss_down s); [destruct st; by rewrite app_nil_r|].
  destruct st as [says| | | |ok|]; cbn [fst]; [by apply poll_books|..]; rewrite app_nil_r; destruct Hk as [K1 K2 K3 K4];
    destruct (ss_at s); try done; try (by destruct ok); by destruct (_outbox s).
Qed.

Lemma run_books steps : forall s before l,
  strategy_books s before l -> strategy_books (service_run s steps).1 before (l ++ fates s steps).
Proof.
  induction steps as [|st steps IH]; intros s before l Hk; [cbn; by rewrite app_nil_r|].
  cbn [service_run fates]. pose proof (turn_books s st before l Hk) as H1. destruct (service_turn s st) as [s1 taken]. cbn [fst] in *.
  specialize (IH s1 before _ H1). destruct (service_run s1 steps) as [s2 more]. cbn [fst] in *. by rewrite app_assoc.
Qed.

(** C33. Whatever the database refuses and the broker does: the states written are
    those of the polls that committed, in order, each counted once, and every
    failed poll is counted; the probe held is that of the last one committed.
    So a poll that evaluates nothing has read the session, the last lap and the
    plan of that one, and what a failed poll did not write the next sees as
    changed still. *)
Theorem strategy_misses_nothing (settings : StrategySettings) (tables : Tables) (steps : list service_step) (says : poll_says) :
  let s := (service_run (service_init settings tables) steps).1 in
  let l := fates (service_init settings tables) steps in
  states (ss_tables s) = states tables ++ new_states l /\
  evaluations (ss_health s) = Z.of_nat (length (new_states l)) /\
  sh_db_errors (ss_health s) = Z.of_nat (length (failures l)) /\
  _last_probe s = last (probes_done l) /\
  match fate_of s says with
  | Evaluated p st => states (ss_tables (step s says).1) = states (ss_tables s) ++ [st] /\ _last_probe (step s says).1 = Some p
  | Quiet => exists p q, probe_says says = Ok p /\ last (probes_done l) = Some q /\ unchanged p q
  | Failed => ss_tables (step s says).1 = ss_tables s /\ _last_probe (step s says).1 = _last_probe s
  end.
Proof.
  assert (Hi : strategy_books (service_init settings tables) (states tables) []) by (split; cbn; try done; by rewrite app_nil_r).
  pose proof (run_books steps _ _ _ Hi) as [K1 K2 K3 K4]. cbn [app] in *. cbn zeta. split_and!; try done.
  set (s := (service_run (service_init settings tables) steps).1) in *. unfold fate_of. pose proof (step_spec s says) as H.
  destruct (step s says) as [s1 [[st|]|e]]; cbn [snd fst]; destruct H as [_ H].
  - destruct H as (H1 & _ & p & Hp & Hl). by rewrite Hp.
  - destruct H as (_ & p & q & Hp & Hq & Hu). exists p, q. by rewrite <- K4.
  - destruct H as [B1 B2 B3]. done.
Qed.

(** * The outbox *)

(** What a poll asks to be put: every message before one that cannot be made. *)
Fixpoint made (vehicle : string) (l : list (string * obj)) : list (string * string) :=
  match l with
  | [] => []
  | (channel, document) :: l =>
      match strategy_message vehicle channel document with Raise _ => [] | Ok item => item :: made vehicle l end
  end.
Definition put_by (s : StrategyService) (st : service_step) : list (string * string) :=
  match st, ss_down s with
  | SPoll says, None =>
      match (step s says).2 with
      | Ok (Some state) => match messages state with Ok l => made (s_vehicle_id (ss_settings s)) l | Raise _ => [] end
      | _ => []
      end
  | _, _ => []
  end.
Fixpoint put_in (s : StrategyService) (steps : list service_step) : list (string * string) :=
  match steps with [] => [] | st :: steps => put_by s st ++ put_in (service_turn s st).1 steps end.

(** The outbox is the newest of what was put, and leaves in order. *)
Record boxed (puts taken box : list (string * string)) : Prop := {
  bx_size : (length box <= OUTBOX_SIZE)%nat;
  bx_suffix : exists older, puts = older ++ box;
  bx_order : (taken ++ box) `sublist_of` puts
}.

Lemma put_boxed puts taken box item : boxed puts taken box -> boxed (puts ++ [item]) taken (put_item box item).
Proof.
  intros [H1 (older & H2) H3]. unfold put_item. destruct (Nat.leb_spec OUTBOX_SIZE (length box)).
  - destruct box as [|x box]; [unfold OUTBOX_SIZE in *; cbn in *; lia|]. cbn [tail]. split.
    + rewrite length_app. cbn in *. lia.
    + exists (older ++ [x]). by rewrite H2, <- !app_assoc.
    + rewrite app_assoc. apply sublist_app; [|done]. etransitivity; [|exact H3]. apply sublist_app; [done|]. by apply sublist_cons.
  - split.
    + rewrite length_app. cbn. lia.
    + exists older. by rewrite H2, app_assoc.
    + rewrite app_assoc. by apply sublist_app.
Qed.

Lemma publish_boxed vehicle l : forall puts taken box,
  boxed puts taken box -> boxed (puts ++ made vehicle l) taken (publish_all vehicle l box).1.
Proof.
  induction l as [|[channel document] l IH]; intros puts taken box Hb; cbn [publish_all made fst]; [by rewrite app_nil_r|].
  destruct (strategy_message vehicle channel document) as [item|e]; cbn [fst]; [|by rewrite app_nil_r].
  change (item :: made vehicle l) with ([item] ++ made vehicle l). rewrite app_assoc. by apply IH, put_boxed.
Qed.

Lemma turn_boxed s st puts taken :
  boxed puts taken (_outbox s) ->
  boxed (puts ++ put_by s st) (taken ++ (service_turn s st).2) (_outbox (service_turn s st).1).
Proof.
  intros Hb. unfold service_turn, put_by. destruct (ss_down s); [destruct st; by rewrite !app_nil_r|].
  destruct st as [says| | | |ok|]; cbn [fst snd].
  2-6: rewrite app_nil_r; destruct (ss_at s); try (destruct ok); rewrite ?app_nil_r; try done.
  - rewrite app_nil_r. unfold poll. pose proof (step_spec s says) as H. destruct (step s says) as [s1 [[st|]|e]]; cbn [snd fst] in *.
    2,3: destruct H as [[A1 A2 A3 A4 A5] _]; cbn; by rewrite app_nil_r, A3.
    destruct H as [[A1 A2 A3 A4 A5] _]. unfold _publish. destruct (messages st) as [l|e].
    + rewrite <- A1, <- A3 in *. pose proof (publish_boxed (s_vehicle_id (ss_settings s1)) l _ _ _ Hb) as H.
      destruct (publish_all _ l _) as [box [[]|e]]; exact H.
    + cbn. by rewrite app_nil_r, A3.
  - destruct (_outbox s) as [|item rest] eqn:Eo; cbn [fst snd]; [by rewrite app_nil_r, Eo|].
    destruct Hb as [H1 (older & H2) H3]. split; cbn in *.
    + lia.
    + exists (older ++ [item]). by rewrite H2, <- app_assoc.
    + by rewrite <- app_assoc.
Qed.

Lemma run_boxed steps : forall s puts taken,
  boxed puts taken (_outbox s) ->
  boxed (puts ++ put_in s steps) (taken ++ (service_run s steps).2) (_outbox (service_run s steps).1).
Proof.
  induction steps as [|st steps IH]; intros s puts taken Hb; [cbn; by rewrite !app_nil_r|].
  cbn [service_run put_in]. pose proof (turn_boxed s st puts taken Hb) as H1. destruct (service_turn s st) as [s1 out]. cbn [fst snd] in *.
  specialize (IH s1 _ _ H1). destruct (service_run s1 steps) as [s2 more]. cbn [fst snd] in *. by rewrite !app_assoc.
Qed.

(** The outbox holds at most sixty-four messages, always the newest put, and
    they leave it in the order they were put, none twice. *)
Theorem outbox_is_the_newest (settings : StrategySettings) (tables : Tables) (steps : list service_step) :
  let s0 := service_init settings tables in
  let '(s, taken) := service_run s0 steps in
  (length (_outbox s) <= OUTBOX_SIZE)%nat /\ (exists older, put_in s0 steps = older ++ _outbox s) /\
  (taken ++ _outbox s) `sublist_of` put_in s0 steps.
Proof.
  assert (Hb : boxed [] [] (_outbox (service_init settings tables))) by (split; cbn; [lia|by exists []|done]).
  pose proof (run_boxed steps _ _ _ Hb) as H. cbn zeta. destruct (service_run _ steps) as [s taken]. cbn [fst snd app] in H.
  by destruct H as [H1 H2 H3].
Qed.
End Publish.

(** * An evening *)

Module Evening.
Definition dumps (o : obj) : string := "{}".
Definition wall (t : Z) : string := "21:00:00".
Definition settings : StrategySettings :=
  mkStrategy "dbname=pit" "car7" default_policy (f_of_Z 2) (f_of_Z 5) (f_of_Z 30) 8088 "broker" 1883 None None.
Definition probe (lap : Z) : Probe := mkProbe (Some "s1") (Some 0) (Some lap) (Some 1) false.
Definition says (p : Probe) (mono : Z) (left_ : option nat) : poll_says :=
  mkPollSays (Ok ()) (Ok p) (Ok None) (Ok []) (Ok []) (Ok []) 1000000 (f_of_Z mono) (f_of_Z mono) [] left_.
Definition run (steps : list service_step) : StrategyService * list (string * string) :=
  service_run dumps wall (service_init settings (mkTables [] [])) steps.
End Evening.

(** The lap that was not committed is evaluated by the next poll; a poll that
    sees nothing new writes nothing, until thirty seconds have gone. *)
Example a_failed_lap_is_not_missed :
  let s := (Evening.run [SPoll (Evening.says (Evening.probe 1) 10 None); SPoll (Evening.says (Evening.probe 2) 12 (Some 1%nat));
                         SPoll (Evening.says (Evening.probe 2) 14 None); SPoll (Evening.says (Evening.probe 2) 16 None);
                         SPoll (Evening.says (Evening.probe 2) 46 None)]).1 in
  map st_trigger (states (ss_tables s)) = ["start"; "lap"; "timer"] /\ sh_db_errors (ss_health s) = 1 /\ length (_outbox s) = 27%nat.
Proof. vm_compute. repeat split. Qed.

(** A driver ninety seconds over the limit reads as two hours over. *)
Example overtime_reads_as_two_hours : _clock (Some (f_of_Z (-90))) = Ok "-1:58:30".
Proof. vm_compute. reflexivity. Qed.

(** Seconds that round up to sixty are shown as sixty. *)
Example lap_time_shows_sixty : _lap_time (Some (f_of_ratio 11997 100)) = Ok "1:60.0".
Proof. vm_compute. reflexivity. Qed.

(** A number that is not finite raises out of [_publish], which nothing guards:
    the service ends. *)
Definition endless (s : StrategyState) : StrategyState :=
  mkState (st_time s) (st_vehicle_id s) (st_session_id s) (st_trigger s) (st_lap_number s) (st_plan_revision s) (Some (S754_nan)) None None
    "none" None None None None None 0 None None None None None None None None None None None None None None None None [] None [].
Example nan_state_ends_the_service :
  let s := service_init Evening.settings (mkTables [] []) in
  is_ok (_publish Evening.dumps Evening.wall s (endless (idle_state 0 "car7"))).2 = false.
Proof. vm_compute. reflexivity. Qed.
