(* ===== verification/Watch.v ===== *)
(** The watch's monitors ([src/pit/watch/engine.py], class [Envelope], and
    [src/pit/watch/monitors.py]): the per-second envelope, the per-lap drift,
    the ratio and the counter, each with its baseline, its score and the one
    finding it may have open.

    [math.expm1] is libm's and a parameter; [uuid4] is the [fresh] identifier
    a tick may draw. A checkpoint is the record [snapshot] writes. The
    whole-car monitor is numpy and is not here: the engine takes any monitor
    of the class [Monitor] ([WatchEngine]). *)

From S2P Require Import Prelude PyFloat Stats.

Local Open Scope Z_scope.

Abbreviation json := (list (string * obj)).

(** * Configuration ([src/pit/watch/config.py]) *)

Record Condition := mkCondition { c_channel : string; bins : float; active_above : option float }.
#[export] Instance Condition_pyeq : PyEq Condition :=
  fun a b => py_eqb (c_channel a, bins a, active_above a) (c_channel b, bins b, active_above b).

(** A gate on one channel. *)
Record When := mkWhen {
  w_channel : string;
  above : option float;
  below : option float;
  between : option (float * float);
  equals : option float
}.
#[export] Instance When_pyeq : PyEq When := fun a b =>
  py_eqb (w_channel a, above a, below a, between a, equals a) (w_channel b, above b, below b, between b, equals b).

Definition holds (w : When) (value : float) : bool :=
  match above w with Some a => fltb a value | None => true end &&
  match below w with Some b => fltb value b | None => true end &&
  match between w with Some (lo, hi) => fleb lo value && fleb value hi | None => true end &&
  match equals w with Some e => feqb value e | None => true end.

(** [model_validator(mode="after")] of [When]. *)
Definition one_bound (w : When) : res When :=
  match above w, below w, between w, equals w with
  | None, None, None, None => raise ValueError "a `when` needs above, below, between or equals"
  | _, _, Some (lo, hi), _ =>
      if fleb hi lo then raise ValueError "`between` needs a lower bound below its upper bound" else Ok w
  | _, _, _, _ => Ok w
  end.

Record EnvelopeConfig := mkEnvelopeConfig {
  ec_target : string;
  conditioned_on : list Condition;
  ec_baseline : string;
  ec_stored_file : option string;
  ec_baseline_seconds : Z;
  min_bin_samples : Z;
  ec_residual_sigma : float;
  ec_min_scale : float;
  ec_score_window : float;
  ec_open_finding_above : float;
  ec_severity : string;
  ec_gate : string
}.
#[export] Instance EnvelopeConfig_pyeq : PyEq EnvelopeConfig :=
  let fields c := (ec_target c, conditioned_on c, ec_baseline c, ec_stored_file c, ec_baseline_seconds c,
    min_bin_samples c, ec_residual_sigma c, ec_min_scale c, ec_score_window c, ec_open_finding_above c,
    ec_severity c, ec_gate c) in
  fun a b => py_eqb (fields a) (fields b).
Definition ec_channels (c : EnvelopeConfig) : list string := ec_target c :: map c_channel (conditioned_on c).

Record DriftConfig := mkDriftConfig {
  dc_target : string;
  dc_when : list When;
  dc_baseline : string;
  dc_stored_file : option string;
  dc_baseline_laps : Z;
  min_lap_samples : Z;
  dc_min_scale : float;
  cusum_k : float;
  cusum_h : float;
  dc_direction : string;
  dc_severity : string;
  dc_gate : string
}.
#[export] Instance DriftConfig_pyeq : PyEq DriftConfig :=
  let fields c := (dc_target c, dc_when c, dc_baseline c, dc_stored_file c, dc_baseline_laps c, min_lap_samples c,
    dc_min_scale c, cusum_k c, cusum_h c, dc_direction c, dc_severity c, dc_gate c) in
  fun a b => py_eqb (fields a) (fields b).
Definition dc_channels (c : DriftConfig) : list string := dc_target c :: map w_channel (dc_when c).

(** [denominator]: one channel, or a list that is averaged. *)
Inductive Denominator := DenomOne (c : string) | DenomList (cs : list string).
#[export] Instance Denominator_pyeq : PyEq Denominator := fun a b =>
  match a, b with
  | DenomOne a, DenomOne b => py_eqb a b
  | DenomList a, DenomList b => py_eqb a b
  | _, _ => false
  end.

Record RatioConfig := mkRatioConfig {
  numerator : string;
  denominator : Denominator;
  per : option string;
  rc_when : list When;
  rc_baseline : string;
  rc_stored_file : option string;
  rc_baseline_seconds : Z;
  min_group_samples : Z;
  rc_residual_sigma : float;
  rc_min_scale : float;
  rc_score_window : float;
  rc_open_finding_above : float;
  low_means : option string;
  high_means : option string;
  rc_severity : string;
  rc_gate : string
}.
#[export] Instance RatioConfig_pyeq : PyEq RatioConfig :=
  let fields c := (numerator c, denominator c, per c, rc_when c, rc_baseline c, rc_stored_file c,
    rc_baseline_seconds c, min_group_samples c, rc_residual_sigma c, rc_min_scale c, rc_score_window c,
    rc_open_finding_above c, low_means c, high_means c, rc_severity c, rc_gate c) in
  fun a b => py_eqb (fields a) (fields b).
Definition denominators (c : RatioConfig) : list string :=
  match denominator c with DenomOne d => [d] | DenomList ds => ds end.

(** The grouping channel, when it is named and not empty. *)
Definition grouped_by (c : RatioConfig) : option string :=
  match per c with Some "" | None => None | Some p => Some p end.
Definition rc_channels (c : RatioConfig) : list string :=
  numerator c :: denominators c ++ opt_list (grouped_by c) ++ map w_channel (rc_when c).

Record CounterConfig := mkCounterConfig {
  cc_channel : string;
  cc_when : list When;
  cc_baseline : string;
  cc_score_window : float;
  cc_open_finding_above : float;
  cc_severity : string;
  cc_gate : string
}.
#[export] Instance CounterConfig_pyeq : PyEq CounterConfig :=
  let fields c := (cc_channel c, cc_when c, cc_baseline c, cc_score_window c, cc_open_finding_above c,
    cc_severity c, cc_gate c) in
  fun a b => py_eqb (fields a) (fields b).
Definition cc_channels (c : CounterConfig) : list string := cc_channel c :: map w_channel (cc_when c).

(** * Readings, rows and findings *)

Record Reading := mkReading { rd_value : float; rd_time : float; rd_unit : string }.
Abbreviation readings := (gmap string Reading).

(** [readings[c]]. *)
Definition reading (rs : readings) (c : string) : res Reading :=
  match rs !! c with Some r => Ok r | None => raise KeyError c end.

(** [{c: readings[c].unit for c in channels}]. *)
Definition units_of (rs : readings) (channels : list string) : res (gmap string string) :=
  pairs ← res_map (fun c => r ← reading rs c; Ok (c, rd_unit r)) channels;
  Ok (list_to_map (reverse pairs)).

(** [self.units and units != self.units]. *)
Definition unit_mismatch (known units : gmap string string) : bool :=
  negb (bool_decide (known = ∅)) && negb (bool_decide (units = known)).

Fixpoint _holds (whens : list When) (rs : readings) : res bool :=
  match whens with
  | [] => Ok true
  | w :: whens => r ← reading rs (w_channel w); if holds w (rd_value r) then _holds whens rs else Ok false
  end.

Record Finding := mkWFinding {
  finding_id : string;
  opened_at : num;
  closed_at : option num;
  wf_severity : string;
  peak_score : float;
  wf_summary : json
}.

(** The row of one second. *)
Record Row := mkRow {
  rw_time : Z;
  rw_score : option float;
  rw_residual : option float;
  rw_expected : option float;
  rw_observed : option float;
  baseline_status : string;
  rw_finding : option Finding
}.

Definition _row (at_s : Z) (status : string) : Row := mkRow at_s None None None None status None.

Definition row_status (status : string) (r : Row) : Row :=
  mkRow (rw_time r) (rw_score r) (rw_residual r) (rw_expected r) (rw_observed r) status (rw_finding r).
Definition row_observed (x : float) (r : Row) : Row :=
  mkRow (rw_time r) (rw_score r) (rw_residual r) (rw_expected r) (Some x) (baseline_status r) (rw_finding r).

(** Open, update and close one finding at a time: the finding kept, and the
    one the row reports. *)
Definition _transition (held : option Finding) (fresh : string) (at_s : num) (open_now : bool) (score : float)
    (summary : json) (severity : string) : option Finding * option Finding :=
  if open_now then
    let f := match held with Some f => f | None => mkWFinding fresh at_s None severity score summary end in
    let f := if fleb (peak_score f) score
             then mkWFinding (finding_id f) (opened_at f) (closed_at f) (wf_severity f) score summary else f in
    (Some f, Some f)
  else
    match held with
    | Some f => (None, Some (mkWFinding (finding_id f) (opened_at f) (Some at_s) (wf_severity f) (peak_score f) (wf_summary f)))
    | None => (None, None)
    end.

Definition opt_str (s : option string) : obj := match s with Some s => OStr s | None => ONone end.
Definition opt_float (x : option float) : obj := match x with Some x => OFloat x | None => ONone end.

(** * Learned bins: [freeze] of the envelope and of the ratio *)

Record BinStats := mkBin { bs_median : float; bs_mad : float; bs_count : Z }.

Definition bin_stats (values : list float) : res BinStats :=
  center ← median values;
  mad ← median (map (fun v => fabs (fsub v center)) values);
  Ok (mkBin center mad (Z.of_nat (length values))).

Fixpoint freeze_bins (learned : list (string * list float)) (table : list (string * BinStats))
    : res (list (string * BinStats)) :=
  match learned with
  | [] => Ok table
  | (key, values) :: learned => s ← bin_stats values; freeze_bins learned (od_set key s table)
  end.

(** [bins.setdefault(key, []).append(x)]. *)
Definition bank (key : string) (x : float) (learned : list (string * list float)) : list (string * list float) :=
  od_set key (match od_get key learned with Some vs => vs | None => [] end ++ [x]) learned.

Section Smoothing.
Context (expm1 : float -> float).

(** [score += -math.expm1(-1 / window) * (value - score)]. *)
Definition smooth (window score value : float) : res float :=
  x ← fdiv (f_of_Z (-1)) window;
  Ok (fadd score (fmul (fopp (expm1 x)) (fsub value score))).

(** * Envelope *)

Record Envelope := mkEnvelope {
  e_config : EnvelopeConfig;
  e_learned : Z;
  e_frozen : bool;
  e_bins : list (string * list float);
  e_table : list (string * BinStats);
  e_units : gmap string string;
  e_score : float;
  e_finding : option Finding;
  e_source_session : option string
}.

Definition envelope_init (c : EnvelopeConfig) : Envelope := mkEnvelope c 0 false [] [] ∅ f0 None None.

Record EnvelopeModel := mkEnvelopeModel {
  em_version : Z;
  em_config : EnvelopeConfig;
  em_learned : Z;
  em_frozen : bool;
  em_bins : list (string * list float);
  em_table : list (string * BinStats);
  em_units : gmap string string;
  em_score : float;
  em_finding : option Finding;
  em_source_session : option string
}.

Definition envelope_snapshot (s : Envelope) : EnvelopeModel :=
  mkEnvelopeModel 1 (e_config s) (e_learned s) (e_frozen s) (e_bins s) (e_table s) (e_units s) (e_score s)
    (e_finding s) (e_source_session s).

Definition envelope_restore (s : Envelope) (m : EnvelopeModel) : res Envelope :=
  if negb (em_version m =? 1) || negb (py_eqb (em_config m) (e_config s))
  then raise ValueError "baseline configuration changed; fit a matching baseline"
  else Ok (mkEnvelope (e_config s) (em_learned m) (em_frozen m) (em_bins m) (em_table m) (em_units m) (em_score m)
             (em_finding m) (em_source_session m)).

Definition e_set_units (s : Envelope) (u : gmap string string) : Envelope :=
  mkEnvelope (e_config s) (e_learned s) (e_frozen s) (e_bins s) (e_table s) u (e_score s) (e_finding s) (e_source_session s).
Definition e_set_score (s : Envelope) (x : float) : Envelope :=
  mkEnvelope (e_config s) (e_learned s) (e_frozen s) (e_bins s) (e_table s) (e_units s) x (e_finding s) (e_source_session s).
Definition e_set_finding (s : Envelope) (f : option Finding) : Envelope :=
  mkEnvelope (e_config s) (e_learned s) (e_frozen s) (e_bins s) (e_table s) (e_units s) (e_score s) f (e_source_session s).

Definition envelope_freeze (s : Envelope) : res Envelope :=
  table ← freeze_bins (e_bins s) (e_table s);
  Ok (mkEnvelope (e_config s) (e_learned s) true [] table (e_units s) (e_score s) (e_finding s) (e_source_session s)).

(** One more second of baseline; the last one freezes it. *)
Definition envelope_learn (s : Envelope) (key : string) (observed : float) : Envelope * res unit :=
  let s := mkEnvelope (e_config s) (e_learned s + 1) (e_frozen s) (bank key observed (e_bins s)) (e_table s)
             (e_units s) (e_score s) (e_finding s) (e_source_session s) in
  if ec_baseline_seconds (e_config s) <=? e_learned s
  then match envelope_freeze s with Ok s => (s, Ok ()) | Raise e => (s, Raise e) end
  else (s, Ok ()).

(** The bin a condition's channel is in. *)
Definition bin_index (rs : readings) (c : Condition) : res Z :=
  r ← reading rs (c_channel c);
  match active_above c with
  | Some a => Ok (Z.b2z (fltb a (rd_value r)))
  | None => q ← fdiv (rd_value r) (bins c); f_floor q
  end.

Definition bin_key (indices : list Z) : string := String.concat "," (map pretty indices).

(** One entry of the summary's [bins]. *)
Definition bin_summary (rs : readings) (units : gmap string string) (ci : Condition * Z) : res obj :=
  let '(c, i) := ci in
  r ← reading rs (c_channel c);
  bounds ← match active_above c with
    | None => lo ← float_of_int i; hi ← float_of_int (i + 1); Ok (OFloat (fmul lo (bins c)), OFloat (fmul hi (bins c)))
    | Some _ => Ok (ONone, ONone) end;
  let '(lower, upper) := bounds : obj * obj in
  Ok (ODict [("channel", OStr (c_channel c)); ("lower", lower); ("upper", upper); ("bin_index", OInt i);
             ("observed", OFloat (rd_value r)); ("unit", opt_str (units !! c_channel c));
             ("active_above", opt_float (active_above c));
             ("on", match active_above c with Some _ => OBool (negb (i =? 0)) | None => ONone end)]).

(** The residual of an observation against a bin, in scales. *)
Definition bin_residual (min_scale observed : float) (stats : BinStats) : res float :=
  fdiv (fsub observed (bs_median stats)) (fmax min_scale (fmul (lit 14826 10000) (bs_mad stats))).

Definition envelope_judge (s : Envelope) (fresh : string) (at_s : Z) (rs : readings) (units : gmap string string)
    (observed : float) (indices : list Z) (stats : BinStats) : Envelope * res Row :=
  let cfg := e_config s in
  let outcome :=
    residual ← bin_residual (ec_min_scale cfg) observed stats;
    let outside := if fltb (ec_residual_sigma cfg) (fabs residual) then f_of_Z 1 else f0 in
    score ← smooth (ec_score_window cfg) (e_score s) outside;
    Ok (residual, score) in
  match outcome with
  | Raise e => (s, Raise e)
  | Ok (residual, score) =>
      let s := e_set_score s score in
      match res_map (bin_summary rs units) (combine (conditioned_on cfg) indices) with
      | Raise e => (s, Raise e)
      | Ok bin_list =>
          let summary :=
            [("target", OStr (ec_target cfg)); ("expected", OFloat (bs_median stats)); ("observed", OFloat observed);
             ("unit", opt_str (units !! ec_target cfg)); ("baseline", OStr (ec_baseline cfg));
             ("baseline_session", opt_str (e_source_session s)); ("baseline_samples", OInt (bs_count stats));
             ("median", OFloat (bs_median stats)); ("mad", OFloat (bs_mad stats)); ("residual", OFloat residual);
             ("bins", OList bin_list)] in
          let '(kept, reported) := _transition (e_finding s) fresh (NInt at_s)
            (fltb (ec_open_finding_above cfg) score) score summary (ec_severity cfg) in
          (e_set_finding s kept,
           Ok (mkRow at_s (Some score) (Some residual) (Some (bs_median stats)) (Some observed) "ready" reported))
      end
  end.

Definition envelope_evaluate (s : Envelope) (fresh : string) (at_s : Z) (rs : readings) (valid : bool)
    : Envelope * res Row :=
  let cfg := e_config s in
  let result := _row at_s "gated" in
  if negb valid then (s, Ok result)
  else
    match units_of rs (ec_channels cfg) with
    | Raise e => (s, Raise e)
    | Ok units =>
        if unit_mismatch (e_units s) units then (s, Ok (row_status "unit_mismatch" result))
        else
          let s := e_set_units s units in
          match (r ← reading rs (ec_target cfg); indices ← res_map (bin_index rs) (conditioned_on cfg);
                 Ok (rd_value r, indices)) with
          | Raise e => (s, Raise e)
          | Ok (observed, indices) =>
              let key := bin_key indices in
              let result := row_observed observed result in
              if negb (e_frozen s)
              then let '(s, r) := envelope_learn s key observed in
                   (s, _ ← r; Ok (row_status "learning" result))
              else
                match od_get key (e_table s) with
                | None => (s, Ok (row_status "insufficient_bin" result))
                | Some stats =>
                    if bs_count stats <? min_bin_samples cfg
                    then (s, Ok (row_status "insufficient_bin" result))
                    else envelope_judge s fresh at_s rs units observed indices stats
                end
          end
    end.
End Smoothing.

(** * Drift *)

Definition _MAX_LAP_SERIES : nat := 200.

(** A baseline lap, as banked. *)
Record BankedLap := mkBanked { bl_lap_number : obj; bl_at : float; bl_mean : float; bl_n : Z }.

(** A lap judged against the baseline. *)
Record JudgedLap := mkJudged {
  jl_lap_number : obj;
  jl_at : float;
  jl_mean : float;
  jl_n : Z;
  jl_residual : float;
  jl_cusum : float
}.

Record Drift := mkDriftMonitor {
  d_config : DriftConfig;
  d_frozen : bool;
  d_learned : Z;
  d_units : gmap string string;
  d_source_session : option string;
  d_baseline_laps : list BankedLap;
  d_mean : option float;
  d_scale : option float;
  d_laps : list JudgedLap;
  cusum_up : float;
  cusum_down : float;
  d_score : float;
  d_calm : Z;
  d_sum : float;
  d_n : Z;
  d_dirty : bool;
  d_pending : option Finding;
  d_finding : option Finding
}.

Definition drift_init (c : DriftConfig) : Drift :=
  mkDriftMonitor c false 0 ∅ None [] None None [] f0 f0 f0 0 f0 0 false None None.

Record DriftModel := mkDriftModel {
  dm_version : Z;
  dm_config : DriftConfig;
  dm_learned : Z;
  dm_frozen : bool;
  dm_units : gmap string string;
  dm_source_session : option string;
  dm_baseline_laps : list BankedLap;
  dm_mean : option float;
  dm_scale : option float;
  dm_laps : list JudgedLap;
  dm_cusum_up : float;
  dm_cusum_down : float;
  dm_score : float;
  dm_calm : Z;
  dm_finding : option Finding;
  dm_lap_sum : float;
  dm_lap_n : Z;
  dm_lap_dirty : bool
}.

Definition drift_snapshot (s : Drift) : DriftModel :=
  mkDriftModel 1 (d_config s) (d_learned s) (d_frozen s) (d_units s) (d_source_session s) (d_baseline_laps s)
    (d_mean s) (d_scale s) (last_n _MAX_LAP_SERIES (d_laps s)) (cusum_up s) (cusum_down s) (d_score s) (d_calm s)
    (d_finding s) (d_sum s) (d_n s) (d_dirty s).

Definition drift_restore (s : Drift) (m : DriftModel) : res Drift :=
  if negb (dm_version m =? 1) || negb (py_eqb (dm_config m) (d_config s))
  then raise ValueError "baseline configuration changed; fit a matching baseline"
  else Ok (mkDriftMonitor (d_config s) (dm_frozen m) (dm_learned m) (dm_units m) (dm_source_session m)
             (dm_baseline_laps m) (dm_mean m) (dm_scale m) (dm_laps m) (dm_cusum_up m) (dm_cusum_down m) (dm_score m)
             (dm_calm m) (dm_lap_sum m) (dm_lap_n m) (dm_lap_dirty m) (d_pending s) (dm_finding m)).

Definition drift_freeze (s : Drift) : res Drift :=
  let means := map bl_mean (d_baseline_laps s) in
  n ← float_of_int (Z.of_nat (length means));
  mean ← fdiv (sum_floats means) n;
  sd ← pstdev means;
  Ok (mkDriftMonitor (d_config s) true (d_learned s) (d_units s) (d_source_session s) (d_baseline_laps s) (Some mean)
        (Some (fmax (dc_min_scale (d_config s)) sd)) (d_laps s) (cusum_up s) (cusum_down s) (d_score s) (d_calm s)
        (d_sum s) (d_n s) (d_dirty s) (d_pending s) (d_finding s)).

Definition d_set_lap (s : Drift) (sum : float) (n : Z) (dirty : bool) : Drift :=
  mkDriftMonitor (d_config s) (d_frozen s) (d_learned s) (d_units s) (d_source_session s) (d_baseline_laps s) (d_mean s)
    (d_scale s) (d_laps s) (cusum_up s) (cusum_down s) (d_score s) (d_calm s) sum n dirty (d_pending s) (d_finding s).
Definition d_set_units (s : Drift) (u : gmap string string) : Drift :=
  mkDriftMonitor (d_config s) (d_frozen s) (d_learned s) u (d_source_session s) (d_baseline_laps s) (d_mean s)
    (d_scale s) (d_laps s) (cusum_up s) (cusum_down s) (d_score s) (d_calm s) (d_sum s) (d_n s) (d_dirty s)
    (d_pending s) (d_finding s).
Definition d_set_pending (s : Drift) (p : option Finding) : Drift :=
  mkDriftMonitor (d_config s) (d_frozen s) (d_learned s) (d_units s) (d_source_session s) (d_baseline_laps s) (d_mean s)
    (d_scale s) (d_laps s) (cusum_up s) (cusum_down s) (d_score s) (d_calm s) (d_sum s) (d_n s) (d_dirty s)
    p (d_finding s).

(** The car is in the pits: the lap is an in-lap or an out-lap. *)
Definition drift_on_pit (s : Drift) : Drift := d_set_lap s (d_sum s) (d_n s) true.

(** Bank a clean lap of the baseline. *)
Definition drift_bank (s : Drift) (lap : BankedLap) : Drift * res unit :=
  let laps := d_baseline_laps s ++ [lap] in
  let s := mkDriftMonitor (d_config s) (d_frozen s) (Z.of_nat (length laps)) (d_units s) (d_source_session s) laps
             (d_mean s) (d_scale s) (d_laps s) (cusum_up s) (cusum_down s) (d_score s) (d_calm s) (d_sum s) (d_n s)
             (d_dirty s) (d_pending s) (d_finding s) in
  if dc_baseline_laps (d_config s) <=? d_learned s
  then match drift_freeze s with Ok s => (s, Ok ()) | Raise e => (s, Raise e) end
  else (s, Ok ()).

(** [d in ds]. *)
Definition direction_in (d : string) (ds : list string) : bool := existsb (String.eqb d) ds.

(** [{...}.model_dump(exclude_none=True)] of a gate. *)
Definition when_dump (w : When) : obj :=
  ODict (("channel", OStr (w_channel w)) ::
    map (fun x => ("above", OFloat x)) (opt_list (above w)) ++ map (fun x => ("below", OFloat x)) (opt_list (below w)) ++
    map (fun b => ("between", OList [OFloat b.1; OFloat b.2])) (opt_list (between w)) ++
    map (fun x => ("equals", OFloat x)) (opt_list (equals w))).

Definition judged_obj (l : JudgedLap) : obj :=
  ODict [("lap_number", jl_lap_number l); ("at", OFloat (jl_at l)); ("mean", OFloat (jl_mean l)); ("n", OInt (jl_n l));
         ("residual", OFloat (jl_residual l)); ("cusum", OFloat (jl_cusum l))].

(** Judge a clean lap: the two sums, the calm count and the reset it brings,
    the score, the series and the finding. *)
Definition drift_judge (s : Drift) (fresh : string) (lap_number : obj) (at_s lap_mean : float) (n : Z) (mean scale : float)
    : res Drift :=
  let cfg := d_config s in
  residual ← fdiv (fsub lap_mean mean) scale;
  let up := if direction_in (dc_direction cfg) ["both"; "up"]
            then fmax f0 (fsub (fadd (cusum_up s) residual) (cusum_k cfg)) else cusum_up s in
  let down := if direction_in (dc_direction cfg) ["both"; "down"]
              then fmax f0 (fsub (fsub (cusum_down s) residual) (cusum_k cfg)) else cusum_down s in
  let statistic := fmax up down in
  let calm := if fleb (fabs residual) (f_of_Z 1) then d_calm s + 1 else 0 in
  let reset := match d_finding s with Some _ => 3 <=? calm | None => false end in
  let '(up, down, statistic) := if reset then (f0, f0, f0) else (up, down, statistic) in
  ratio ← fdiv statistic (cusum_h cfg);
  let score := fmin (f_of_Z 1) ratio in
  let laps := last_n _MAX_LAP_SERIES (d_laps s ++ [mkJudged lap_number at_s lap_mean n residual statistic]) in
  let direction := if fleb down up then "up" else "down" in
  let unit_text := match d_units s !! dc_target cfg with Some u => u | None => "" end in
  let summary :=
    [("kind", OStr "drift"); ("target", OStr (dc_target cfg)); ("expected", OFloat mean); ("observed", OFloat lap_mean);
     ("unit", OStr unit_text); ("baseline", OStr (dc_baseline cfg)); ("baseline_session", opt_str (d_source_session s));
     ("baseline_laps", OInt (Z.of_nat (length (d_baseline_laps s)))); ("baseline_scale", OFloat scale);
     ("residual", OFloat residual); ("cusum", OFloat statistic); ("cusum_h", OFloat (cusum_h cfg));
     ("direction", OStr direction); ("lap_number", lap_number); ("when", OList (map when_dump (dc_when cfg)));
     ("series", OList (map judged_obj (last_n 30 laps)));
     ("message", OStr (dc_target cfg +:+ " per lap " +:+ direction +:+ " from " +:+ fmt_g 3 mean +:+ " to " +:+
        fmt_g 3 lap_mean +:+ " " +:+ unit_text +:+ " over " +:+ pretty (Z.of_nat (length laps)) +:+ " lap(s); CUSUM " +:+
        fmt_fixed statistic 1 +:+ " of " +:+ py_repr (cusum_h cfg)))] in
  let '(kept, reported) := _transition (d_finding s) fresh (NFloat at_s) (fleb (cusum_h cfg) statistic) score summary
                             (dc_severity cfg) in
  Ok (mkDriftMonitor cfg (d_frozen s) (d_learned s) (d_units s) (d_source_session s) (d_baseline_laps s) (d_mean s)
        (d_scale s) laps up down score calm (d_sum s) (d_n s) (d_dirty s) reported kept).

(** A [lap_completed] event: bank the lap's mean, or judge it. *)
Definition drift_on_lap (s : Drift) (fresh : string) (event : json) (at_s : float) : Drift * res unit :=
  let n := d_n s in
  let total := d_sum s in
  let dirty := d_dirty s in
  let s := d_set_lap s f0 0 false in
  let clean := obj_truthy (ogetd "valid" (OBool true) event) && negb dirty && (min_lap_samples (d_config s) <=? n) in
  let lap_number := oget "lap_number" event in
  if negb clean then (s, Ok ())
  else
    match (nf ← float_of_int n; fdiv total nf) with
    | Raise e => (s, Raise e)
    | Ok lap_mean =>
        if negb (d_frozen s) then drift_bank s (mkBanked lap_number at_s lap_mean n)
        else
          match d_mean s, d_scale s with
          | Some mean, Some scale =>
              match drift_judge s fresh lap_number at_s lap_mean n mean scale with
              | Ok s => (s, Ok ())
              | Raise e => (s, Raise e)
              end
          | _, _ => (s, raise AssertionError "")
          end
    end.

Definition drift_evaluate (s : Drift) (at_s : Z) (rs : readings) (valid : bool) : Drift * res Row :=
  let cfg := d_config s in
  let result := mkRow at_s None None None None "gated" (d_pending s) in
  let s := d_set_pending s None in
  if negb valid then (s, Ok result)
  else
    match units_of rs (dc_channels cfg) with
    | Raise e => (s, Raise e)
    | Ok units =>
        if unit_mismatch (d_units s) units then (s, Ok (row_status "unit_mismatch" result))
        else
          let s := d_set_units s units in
          match (r ← reading rs (dc_target cfg); h ← _holds (dc_when cfg) rs; Ok (rd_value r, h)) with
          | Raise e => (s, Raise e)
          | Ok (observed, h) =>
              let s := if (h : bool) then d_set_lap s (fadd (d_sum s) observed) (d_n s + 1) (d_dirty s) else s in
              let result := row_observed observed result in
              if negb (d_frozen s) then (s, Ok (row_status "learning" result))
              else (s, Ok (mkRow at_s (Some (d_score s)) (jl_residual <$> last (d_laps s)) (d_mean s) (Some observed)
                             "ready" (rw_finding result)))
          end
    end.

(** * Ratio *)

Section RatioSmoothing.
Context (expm1 : float -> float).

Record Ratio := mkRatio {
  r_config : RatioConfig;
  r_learned : Z;
  r_frozen : bool;
  r_groups : list (string * list float);
  r_table : list (string * BinStats);
  r_units : gmap string string;
  r_score : float;
  r_finding : option Finding;
  r_source_session : option string
}.

Definition ratio_init (c : RatioConfig) : Ratio := mkRatio c 0 false [] [] ∅ f0 None None.

Record RatioModel := mkRatioModel {
  rm_version : Z;
  rm_config : RatioConfig;
  rm_learned : Z;
  rm_frozen : bool;
  rm_groups : list (string * list float);
  rm_table : list (string * BinStats);
  rm_units : gmap string string;
  rm_score : float;
  rm_finding : option Finding;
  rm_source_session : option string
}.

Definition ratio_snapshot (s : Ratio) : RatioModel :=
  mkRatioModel 1 (r_config s) (r_learned s) (r_frozen s) (r_groups s) (r_table s) (r_units s) (r_score s)
    (r_finding s) (r_source_session s).

Definition ratio_restore (s : Ratio) (m : RatioModel) : res Ratio :=
  if negb (rm_version m =? 1) || negb (py_eqb (rm_config m) (r_config s))
  then raise ValueError "baseline configuration changed; fit a matching baseline"
  else Ok (mkRatio (r_config s) (rm_learned m) (rm_frozen m) (rm_groups m) (rm_table m) (rm_units m) (rm_score m)
             (rm_finding m) (rm_source_session m)).

Definition r_set_units (s : Ratio) (u : gmap string string) : Ratio :=
  mkRatio (r_config s) (r_learned s) (r_frozen s) (r_groups s) (r_table s) u (r_score s) (r_finding s) (r_source_session s).
Definition r_set_score (s : Ratio) (x : float) : Ratio :=
  mkRatio (r_config s) (r_learned s) (r_frozen s) (r_groups s) (r_table s) (r_units s) x (r_finding s) (r_source_session s).
Definition r_set_finding (s : Ratio) (f : option Finding) : Ratio :=
  mkRatio (r_config s) (r_learned s) (r_frozen s) (r_groups s) (r_table s) (r_units s) (r_score s) f (r_source_session s).

Definition ratio_freeze (s : Ratio) : res Ratio :=
  table ← freeze_bins (r_groups s) (r_table s);
  Ok (mkRatio (r_config s) (r_learned s) true [] table (r_units s) (r_score s) (r_finding s) (r_source_session s)).

Definition _ratio (s : Ratio) (rs : readings) : res (option float) :=
  values ← res_map (fun c => r ← reading rs c; Ok (rd_value r)) (denominators (r_config s));
  n ← float_of_int (Z.of_nat (length values));
  denominator ← fdiv (sum_floats values) n;
  if fleb denominator f0 then Ok None
  else r ← reading rs (numerator (r_config s)); q ← fdiv (rd_value r) denominator; Ok (Some q).

(** The integer the grouping channel reads, when there is one. *)
Definition group_value (cfg : RatioConfig) (rs : readings) : res (option (string * Z)) :=
  match grouped_by cfg with
  | Some c => r ← reading rs c; n ← f_trunc (rd_value r); Ok (Some (c, n))
  | None => Ok None
  end.

Definition ratio_learn (s : Ratio) (key : string) (observed : float) : Ratio * res unit :=
  let s := mkRatio (r_config s) (r_learned s + 1) (r_frozen s) (bank key observed (r_groups s)) (r_table s)
             (r_units s) (r_score s) (r_finding s) (r_source_session s) in
  if rc_baseline_seconds (r_config s) <=? r_learned s
  then match ratio_freeze s with Ok s => (s, Ok ()) | Raise e => (s, Raise e) end
  else (s, Ok ()).

Definition truthy_str (s : option string) : option string :=
  match s with Some "" | None => None | Some s => Some s end.

Definition ratio_message (cfg : RatioConfig) (group : option (string * Z)) (observed expected : float)
    (direction : string) (meaning : option string) : string :=
  numerator cfg +:+ " / " +:+ String.concat " + " (denominators cfg) +:+
  match group with Some (k, v) => " in " +:+ k +:+ " " +:+ pretty v | None => "" end +:+
  " is " +:+ fmt_g 4 observed +:+ ", expected " +:+ fmt_g 4 expected +:+ " (" +:+ direction +:+
  match truthy_str meaning with Some m => ": " +:+ m | None => "" end +:+ ")".

Definition ratio_judge (s : Ratio) (fresh : string) (at_s : Z) (rs : readings) (units : gmap string string)
    (observed : float) (group : option (string * Z)) (stats : BinStats) : Ratio * res Row :=
  let cfg := r_config s in
  let outcome :=
    residual ← bin_residual (rc_min_scale cfg) observed stats;
    let outside := if fltb (rc_residual_sigma cfg) (fabs residual) then f_of_Z 1 else f0 in
    score ← smooth expm1 (rc_score_window cfg) (r_score s) outside;
    Ok (residual, score) in
  match outcome with
  | Raise e => (s, Raise e)
  | Ok (residual, score) =>
      let s := r_set_score s score in
      let expected := bs_median stats in
      let direction := if fltb observed expected then "low" else "high" in
      let meaning := if fltb observed expected then low_means cfg else high_means cfg in
      match (r ← reading rs (numerator cfg);
             ds ← res_map (fun c => r ← reading rs c; Ok (c, OFloat (rd_value r))) (denominators cfg);
             Ok (rd_value r, ds)) with
      | Raise e => (s, Raise e)
      | Ok (numerator_value, ds) =>
          let summary :=
            [("kind", OStr "ratio"); ("target", OStr (numerator cfg)); ("numerator", OStr (numerator cfg));
             ("denominator", OList (map OStr (denominators cfg))); ("expected", OFloat expected);
             ("observed", OFloat observed); ("unit", OStr ""); ("baseline", OStr (rc_baseline cfg));
             ("baseline_session", opt_str (r_source_session s)); ("baseline_samples", OInt (bs_count stats));
             ("median", OFloat expected); ("mad", OFloat (bs_mad stats)); ("residual", OFloat residual);
             ("direction", OStr direction); ("meaning", opt_str meaning);
             ("group", ODict (map (fun g => (g.1, OInt g.2)) (opt_list group)));
             ("numerator_value", OFloat numerator_value);
             ("denominator_values", ODict (fold_left (fun d kv => od_set kv.1 kv.2 d) ds []));
             ("value_unit", opt_str (units !! numerator cfg));
             ("message", OStr (ratio_message cfg group observed expected direction meaning))] in
          let '(kept, reported) := _transition (r_finding s) fresh (NInt at_s)
            (fltb (rc_open_finding_above cfg) score) score summary (rc_severity cfg) in
          (r_set_finding s kept,
           Ok (mkRow at_s (Some score) (Some residual) (Some expected) (Some observed) "ready" reported))
      end
  end.

Definition ratio_evaluate (s : Ratio) (fresh : string) (at_s : Z) (rs : readings) (valid : bool) : Ratio * res Row :=
  let cfg := r_config s in
  let result := _row at_s "gated" in
  if negb valid then (s, Ok result)
  else
    match _holds (rc_when cfg) rs with
    | Raise e => (s, Raise e)
    | Ok false => (s, Ok result)
    | Ok true =>
        match units_of rs (rc_channels cfg) with
        | Raise e => (s, Raise e)
        | Ok units =>
            if unit_mismatch (r_units s) units then (s, Ok (row_status "unit_mismatch" result))
            else
              let s := r_set_units s units in
              match _ratio s rs with
              | Raise e => (s, Raise e)
              | Ok None => (s, Ok result)
              | Ok (Some observed) =>
                  match group_value cfg rs with
                  | Raise e => (s, Raise e)
                  | Ok group =>
                      let key := match group with Some (_, n) => pretty n | None => "all" end in
                      let result := row_observed observed result in
                      if negb (r_frozen s)
                      then let '(s, r) := ratio_learn s key observed in (s, _ ← r; Ok (row_status "learning" result))
                      else
                        match od_get key (r_table s) with
                        | None => (s, Ok (row_status "insufficient_group" result))
                        | Some stats =>
                            if bs_count stats <? min_group_samples cfg
                            then (s, Ok (row_status "insufficient_group" result))
                            else ratio_judge s fresh at_s rs units observed group stats
                        end
                  end
              end
        end
    end.
End RatioSmoothing.

(** * Counter *)

Definition _MAX_COUNTER_HISTORY : nat := 3600.

Record Counter := mkCounter {
  k_config : CounterConfig;
  k_units : gmap string string;
  k_source_session : option string;
  k_history : list (Z * float);
  k_score : float;
  k_finding : option Finding
}.

Definition counter_init (c : CounterConfig) : Counter := mkCounter c ∅ None [] f0 None.

Record CounterModel := mkCounterModel {
  km_version : Z;
  km_config : CounterConfig;
  km_units : gmap string string;
  km_history : list (Z * float);
  km_score : float;
  km_finding : option Finding;
  km_source_session : option string
}.

Definition counter_snapshot (s : Counter) : CounterModel :=
  mkCounterModel 1 (k_config s) (k_units s) (k_history s) (k_score s) (k_finding s) (k_source_session s).

Definition counter_restore (s : Counter) (m : CounterModel) : res Counter :=
  if negb (km_version m =? 1) || negb (py_eqb (km_config m) (k_config s))
  then raise ValueError "baseline configuration changed; fit a matching baseline"
  else Ok (mkCounter (k_config s) (km_units m) (km_source_session m) (last_n _MAX_COUNTER_HISTORY (km_history m))
             (km_score m) (km_finding m)).

Definition k_set_units (s : Counter) (u : gmap string string) : Counter :=
  mkCounter (k_config s) u (k_source_session s) (k_history s) (k_score s) (k_finding s).
Definition k_set_history (s : Counter) (h : list (Z * float)) : Counter :=
  mkCounter (k_config s) (k_units s) (k_source_session s) h (k_score s) (k_finding s).
Definition k_set_score (s : Counter) (x : float) (f : option Finding) : Counter :=
  mkCounter (k_config s) (k_units s) (k_source_session s) (k_history s) x f.

(** Drop the observations older than the window. *)
Fixpoint drop_old (at_s : Z) (window : float) (h : list (Z * float)) : list (Z * float) :=
  match h with
  | [] => []
  | (t, v) :: rest => if num_ltb (NFloat window) (NInt (at_s - t)) then drop_old at_s window rest else h
  end.

(** [deque.append] on a deque of at most [_MAX_COUNTER_HISTORY]. *)
Definition history_push (h : list (Z * float)) (x : Z * float) : list (Z * float) :=
  last_n _MAX_COUNTER_HISTORY (h ++ [x]).

Definition counter_judge (s : Counter) (fresh : string) (at_s : Z) (units : gmap string string) (observed first_value : float)
    (span : Z) : res (Counter * Row) :=
  let cfg := k_config s in
  span_f ← float_of_int span;
  let rise := fmax f0 (fsub observed first_value) in
  rate_per_min ← fdiv (fmul rise (f_of_Z 60)) span_f;
  ratio ← fdiv rate_per_min (cc_open_finding_above cfg);
  let score := fmin (f_of_Z 1) ratio in
  let summary :=
    [("kind", OStr "counter"); ("target", OStr (cc_channel cfg)); ("expected", OFloat first_value);
     ("observed", OFloat observed); ("unit", opt_str (units !! cc_channel cfg)); ("baseline", OStr "unchanged");
     ("baseline_session", opt_str (k_source_session s)); ("residual", OFloat rise);
     ("rate_per_min", OFloat rate_per_min); ("limit_per_min", OFloat (cc_open_finding_above cfg));
     ("window_s", OInt span);
     ("message", OStr (cc_channel cfg +:+ " rose by " +:+ fmt_g 6 rise +:+ " in " +:+ fmt_fixed span_f 0 +:+ " s (" +:+
        fmt_fixed rate_per_min 2 +:+ "/min; limit " +:+ fmt_g 6 (cc_open_finding_above cfg) +:+ "/min)"))] in
  let '(kept, reported) := _transition (k_finding s) fresh (NInt at_s)
    (fleb (cc_open_finding_above cfg) rate_per_min) score summary (cc_severity cfg) in
  Ok (k_set_score s score kept,
      mkRow at_s (Some score) (Some rise) (Some first_value) (Some observed) "ready" reported).

Definition counter_evaluate (s : Counter) (fresh : string) (at_s : Z) (rs : readings) (valid : bool)
    : Counter * res Row :=
  let cfg := k_config s in
  let result := _row at_s "gated" in
  if negb valid then (s, Ok result)
  else
    match _holds (cc_when cfg) rs with
    | Raise e => (s, Raise e)
    | Ok false => (s, Ok result)
    | Ok true =>
        match (units ← units_of rs (cc_channels cfg); r ← reading rs (cc_channel cfg); Ok (units, rd_value r)) with
        | Raise e => (s, Raise e)
        | Ok (units, observed) =>
            let s := k_set_units s units in
            let history := drop_old at_s (cc_score_window cfg) (history_push (k_history s) (at_s, observed)) in
            let s := k_set_history s history in
            match history with
            | [] => (s, raise IndexError "deque index out of range")
            | (first_at, first_value) :: _ =>
                let span := at_s - first_at in
                if num_ltb (NInt span) (NFloat (fmin (cc_score_window cfg) (f_of_Z 10)))
                then (s, Ok (mkRow at_s None None (Some first_value) (Some observed) "warming" None))
                else
                  match counter_judge s fresh at_s units observed first_value span with
                  | Ok (s, row) => (s, Ok row)
                  | Raise e => (s, Raise e)
                  end
            end
        end
    end.

(** * One finding at a time *)

(** What one report says of the finding held before and after it: nothing is
    reported and nothing moves; a finding opens under the identifier drawn;
    the one held goes on under its identifier with a peak no lower; or the one
    held is closed, its peak and summary kept, and none is held. *)
Inductive report (fresh : string) (at_s : num) : option Finding -> option Finding -> option Finding -> Prop :=
  | report_none held : report fresh at_s held None held
  | report_open score summary severity :
      let f := mkWFinding fresh at_s None severity score summary in
      report fresh at_s None (Some f) (Some f)
  | report_update f f' :
      finding_id f' = finding_id f -> opened_at f' = opened_at f -> closed_at f' = closed_at f ->
      wf_severity f' = wf_severity f -> (f' = f \/ fleb (peak_score f) (peak_score f') = true) ->
      report fresh at_s (Some f) (Some f') (Some f')
  | report_close f :
      report fresh at_s (Some f)
        (Some (mkWFinding (finding_id f) (opened_at f) (Some at_s) (wf_severity f) (peak_score f) (wf_summary f))) None.

Lemma transition_report held fresh at_s open_now score summary severity :
  report fresh at_s held (_transition held fresh at_s open_now score summary severity).2
    (_transition held fresh at_s open_now score summary severity).1.
Proof.
  unfold _transition. destruct open_now, held as [f|]; simpl.
  - destruct (fleb (peak_score f) score) eqn:E; apply report_update; auto.
  - destruct (fleb score score); exact (report_open _ _ score summary severity).
  - apply report_close.
  - apply report_none.
Qed.

Lemma transition_held_open held fresh at_s open_now score summary severity :
  (forall f, held = Some f -> closed_at f = None) ->
  forall f, (_transition held fresh at_s open_now score summary severity).1 = Some f -> closed_at f = None.
Proof.
  unfold _transition; intros Hh f. destruct open_now; [|destruct held; discriminate].
  destruct held as [h|]; simpl; intros [= <-]; case_match; simpl; auto.
Qed.

(** * Scores *)

Definition unit_score (x : float) : Prop := fleb f0 x = true /\ fleb x (f_of_Z 1) = true.

(** [min(1.0, x)] of a number that is not negative, or of a NaN. *)
Lemma fmin_unit x : fltb x f0 = false -> unit_score (fmin (f_of_Z 1) x).
Proof.
  intros Hx. assert (Ho : fleb f0 (f_of_Z 1) = true) by reflexivity.
  unfold fmin, unit_score. destruct (fltb x (f_of_Z 1)) eqn:E; split; [forder | forder | done | reflexivity].
Qed.

Lemma fmax0_nonneg x : fleb f0 (fmax f0 x) = true.
Proof. unfold fmax. destruct (fltb f0 x) eqn:E; [forder | reflexivity]. Qed.

Lemma fdiv_not_negative x y q : fleb f0 x = true -> fleb f0 y = true -> fdiv x y = Ok q -> fltb q f0 = false.
Proof.
  intros Hx Hy Hq. assert (E : fdiv x y = Ok (fdiv_ieee x y)) by by destruct y.
  rewrite E in Hq. injection Hq as <-.
  destruct x as [s|[]| |[] m e], y as [s'|[]| |[] m' e']; try discriminate; try (by destruct s); try done.
  destruct (fdiv_sign (S754_finite false m e) (S754_finite false m' e')) as [Hn|Hn];
    destruct (fdiv_ieee _ _) as [[]|[]| |[] m1 e1]; done.
Qed.

(** Not below zero, or no number. *)
Definition not_negative (x : float) : Prop := is_nan x = true \/ fleb f0 x = true.

Lemma not_negative_ltb x : fltb x f0 = false <-> not_negative x.
Proof.
  unfold not_negative. destruct (is_nan x) eqn:En; [destruct x; try discriminate; split; auto|].
  split; [intros H; right; unfold is_nan in En; forder | intros [H|H]; [discriminate | forder]].
Qed.

Lemma fdiv_not_negative' x y q : not_negative x -> fleb f0 y = true -> fdiv x y = Ok q -> not_negative q.
Proof.
  intros [Hx|Hx] Hy Hq; [|by apply not_negative_ltb, (fdiv_not_negative x y q)].
  destruct x; try discriminate. left. destruct y; try discriminate; injection Hq as <-; done.
Qed.

(** A share of a positive limit, capped at one. *)
Lemma capped_share x limit q :
  fleb f0 x = true -> fltb f0 limit = true -> fdiv x limit = Ok q -> unit_score (fmin (f_of_Z 1) q).
Proof. intros. eapply fmin_unit, fdiv_not_negative; [done | by apply fltb_fleb | done]. Qed.

(** * What a second of each kind keeps *)

(** An evaluation's row is of its second and its finding is a report. *)
Definition reported (fresh : string) (t : Z) (held kept : option Finding) (r : res Row) : Prop :=
  match r with
  | Ok row => rw_time row = t /\ report fresh (NInt t) held (rw_finding row) kept
  | Raise _ => kept = held
  end.

Lemma reported_none fresh t held row :
  rw_time row = t -> rw_finding row = None -> reported fresh t held held (Ok row).
Proof. intros Ht Hf; split; [done|]. rewrite Hf; constructor. Qed.

Section EnvelopeFacts.
Context (expm1 : float -> float).

Lemma envelope_learn_keeps s key observed :
  let s' := (envelope_learn s key observed).1 in
  e_config s' = e_config s /\ e_finding s' = e_finding s.
Proof.
  unfold envelope_learn, envelope_freeze. cbv zeta. destruct (ec_baseline_seconds _ <=? _); [|done].
  match goal with |- context [freeze_bins ?a ?b] => destruct (freeze_bins a b) end; done.
Qed.

Lemma envelope_judge_report s fresh t rs units observed indices stats :
  let p := envelope_judge expm1 s fresh t rs units observed indices stats in
  e_config p.1 = e_config s /\ reported fresh t (e_finding s) (e_finding p.1) p.2.
Proof.
  unfold envelope_judge. cbv zeta.
  destruct (_ ≫= _) as [[residual score]|e]; [|done].
  destruct (res_map _ _) as [bin_list|e]; [|done].
  cbn [e_config e_finding e_set_score e_source_session].
  match goal with |- context [_transition ?a ?b ?c ?d ?e ?f ?g] =>
    pose proof (transition_report a b c d e f g) as H; destruct (_transition a b c d e f g) end.
  done.
Qed.

Lemma envelope_evaluate_report s fresh t rs valid :
  let p := envelope_evaluate expm1 s fresh t rs valid in
  e_config p.1 = e_config s /\ reported fresh t (e_finding s) (e_finding p.1) p.2.
Proof.
  unfold envelope_evaluate. cbv zeta. destruct valid; [|split; [done | by apply reported_none]]. cbn [negb].
  destruct (units_of rs _) as [units|e]; [|done].
  destruct (unit_mismatch _ _); [split; [done | by apply reported_none]|].
  destruct (_ ≫= _) as [[observed indices]|e]; [|done]. cbn [e_frozen e_set_units e_table].
  destruct (e_frozen s); cbn [negb].
  - destruct (od_get _ _) as [stats|]; [|split; [done | by apply reported_none]].
    destruct (_ <? _); [split; [done | by apply reported_none]|]. apply (envelope_judge_report (e_set_units s units)).
  - destruct (envelope_learn _ _ _) as [s' r] eqn:E. pose proof (envelope_learn_keeps (e_set_units s units) (bin_key indices) observed) as H.
    rewrite E in H. destruct H as [Hc Hf]. cbn in Hc, Hf |- *. split; [done|]. rewrite Hf.
    destruct r; [by apply reported_none | done].
Qed.
End EnvelopeFacts.

Section RatioFacts.
Context (expm1 : float -> float).

Lemma ratio_learn_keeps s key observed :
  let s' := (ratio_learn s key observed).1 in
  r_config s' = r_config s /\ r_finding s' = r_finding s.
Proof.
  unfold ratio_learn, ratio_freeze. cbv zeta. destruct (rc_baseline_seconds _ <=? _); [|done].
  match goal with |- context [freeze_bins ?a ?b] => destruct (freeze_bins a b) end; done.
Qed.

Lemma ratio_judge_report s fresh t rs units observed group stats :
  let p := ratio_judge expm1 s fresh t rs units observed group stats in
  r_config p.1 = r_config s /\ reported fresh t (r_finding s) (r_finding p.1) p.2.
Proof.
  unfold ratio_judge. cbv zeta.
  destruct (_ ≫= _) as [[residual score]|e]; [|done].
  destruct (_ ≫= _) as [[nv ds]|e]; [|done].
  cbn [r_config r_finding r_set_score r_source_session].
  match goal with |- context [_transition ?a ?b ?c ?d ?e ?f ?g] =>
    pose proof (transition_report a b c d e f g) as H; destruct (_transition a b c d e f g) end.
  done.
Qed.

Lemma ratio_evaluate_report s fresh t rs valid :
  let p := ratio_evaluate expm1 s fresh t rs valid in
  r_config p.1 = r_config s /\ reported fresh t (r_finding s) (r_finding p.1) p.2.
Proof.
  unfold ratio_evaluate. cbv zeta. destruct valid; [|split; [done | by apply reported_none]]. cbn [negb].
  destruct (_holds _ rs) as [[]|e]; [|split; [done | by apply reported_none]|done].
  destruct (units_of rs _) as [units|e]; [|done].
  destruct (unit_mismatch _ _); [split; [done | by apply reported_none]|].
  destruct (_ratio _ rs) as [[observed|]|e]; [|split; [done | by apply reported_none]|done].
  destruct (group_value _ rs) as [group|e]; [|done]. cbn [r_frozen r_set_units r_table].
  destruct (r_frozen s); cbn [negb].
  - destruct (od_get _ _) as [stats|]; [|split; [done | by apply reported_none]].
    destruct (_ <? _); [split; [done | by apply reported_none]|]. apply (ratio_judge_report (r_set_units s units)).
  - set (key := match group with Some _ => _ | None => _ end).
    destruct (ratio_learn _ _ _) as [s' r] eqn:E. pose proof (ratio_learn_keeps (r_set_units s units) key observed) as H.
    rewrite E in H. destruct H as [Hc Hf]. cbn in Hc, Hf |- *. split; [done|]. rewrite Hf.
    destruct r; [by apply reported_none | done].
Qed.
End RatioFacts.

(** * The counter *)

Definition row_unit (r : res Row) : Prop :=
  match r with Ok row => match rw_score row with Some x => unit_score x | None => True end | Raise _ => True end.

Lemma drop_old_length t w h : (length (drop_old t w h) <= length h)%nat.
Proof. induction h as [|[t' v] h IH]; simpl; [lia|]. destruct (num_ltb _ _); simpl; lia. Qed.

Lemma history_push_length h x : (length (history_push h x) <= _MAX_COUNTER_HISTORY)%nat.
Proof. unfold history_push. rewrite last_n_length. lia. Qed.

Lemma int_ge_pos z x : fltb f0 x = true -> num_ltb (NInt z) (NFloat x) = false -> 0 < z.
Proof.
  intros Hx. unfold num_ltb, num_cmp, Z_cmp_float. destruct x as [|[]| |[] m e]; try discriminate.
  pose proof (fden_pos (S754_finite false m e)). cbn [fnum cond_Zopp] in *.
  assert (0 < Zpos m * 2 ^ Z.max e 0) by (apply Z.mul_pos_pos; lia).
  destruct (_ ?= _) eqn:E; [|done|]; intros _; [apply Z.compare_eq in E | apply Z.compare_gt_iff in E]; nia.
Qed.

Lemma fmin_pos x y : fltb f0 x = true -> fltb f0 y = true -> fltb f0 (fmin x y) = true.
Proof. unfold fmin. by destruct (fltb y x). Qed.

Lemma float_of_int_nonneg z x : 0 <= z -> float_of_int z = Ok x -> fleb f0 x = true.
Proof.
  intros Hz Hx. pose proof (float_of_int_sign _ _ Hz Hx). apply sign_nonneg; [|done].
  revert Hx. unfold float_of_int. destruct (is_finite (f_of_Z z)) eqn:E; [|done]. intros [= <-]. by destruct (f_of_Z z).
Qed.

Definition counter_wf (s : Counter) : Prop :=
  fltb f0 (cc_open_finding_above (k_config s)) = true /\ fltb f0 (cc_score_window (k_config s)) = true /\
  (length (k_history s) <= _MAX_COUNTER_HISTORY)%nat /\ unit_score (k_score s).

Lemma counter_judge_facts s fresh t units observed first_value span s' row :
  counter_judge s fresh t units observed first_value span = Ok (s', row) ->
  k_config s' = k_config s /\ k_history s' = k_history s /\ rw_time row = t /\
  report fresh (NInt t) (k_finding s) (rw_finding row) (k_finding s') /\
  (0 < span -> counter_wf s -> counter_wf s' /\ row_unit (Ok row)).
Proof.
  intros H. unfold counter_judge in H. cbv zeta in H.
  apply res_bind_Ok in H as (sf & Hsf & H). apply res_bind_Ok in H as (rate & Hrate & H).
  apply res_bind_Ok in H as (q & Hq & H).
  match type of H with context [_transition ?a ?b ?c ?d ?e ?f ?g] =>
    pose proof (transition_report a b c d e f g) as Ht; destruct (_transition a b c d e f g) end.
  injection H as <- <-. split_and!; [done..|]. intros Hspan (Hl & Hw & Hh & Hs).
  assert (unit_score (fmin (f_of_Z 1) q)) as Hunit; [|by split_and!].
  apply fmin_unit, not_negative_ltb. eapply fdiv_not_negative', Hq; [|by apply fltb_fleb].
  eapply fdiv_not_negative', Hrate; [|apply (float_of_int_nonneg span); [lia | done]].
  exact (fmul_nonneg _ (f_of_Z 60) (fmax0_nonneg _) eq_refl).
Qed.

Lemma counter_evaluate_facts s fresh t rs valid :
  let p := counter_evaluate s fresh t rs valid in
  k_config p.1 = k_config s /\ reported fresh t (k_finding s) (k_finding p.1) p.2 /\
  ((length (k_history s) <= _MAX_COUNTER_HISTORY)%nat -> (length (k_history p.1) <= _MAX_COUNTER_HISTORY)%nat) /\
  (counter_wf s -> counter_wf p.1 /\ row_unit p.2).
Proof.
  unfold counter_evaluate. cbv zeta. destruct valid; [|split_and!; [done | by apply reported_none | done | done]].
  cbn [negb]. destruct (_holds _ rs) as [[]|e]; [|split_and!; [done | by apply reported_none | done | done]|done].
  destruct (_ ≫= _) as [[units observed]|e]; [|done].
  set (h := drop_old _ _ _). assert (length h <= _MAX_COUNTER_HISTORY)%nat as Hh.
  { pose proof (drop_old_length t (cc_score_window (k_config s)) (history_push (k_history (k_set_units s units)) (t, observed))).
    pose proof (history_push_length (k_history (k_set_units s units)) (t, observed)). unfold h. lia. }
  clearbody h. set (s1 := k_set_history _ _).
  assert (counter_wf s -> counter_wf s1) as Hs1 by (intros (? & ? & _ & ?); by split_and!).
  destruct h as [|[first_at first_value] h]; [split_and!; [done | done | done | intros H; split; [by apply Hs1|done]]|].
  destruct (num_ltb _ _) eqn:Espan.
  { split_and!; [done | by apply reported_none | done | intros H; split; [by apply Hs1|done]]. }
  destruct (counter_judge _ _ _ _ _ _ _) as [[s' row]|e] eqn:Ej;
    [|split_and!; [done | done | done | intros H; split; [by apply Hs1|done]]].
  apply counter_judge_facts in Ej as (Hc & Hhist & Ht & Hr & Hw). split_and!; [done | by split | by cbn [fst]; rewrite Hhist |].
  intros Hwf. apply Hw; [|by apply Hs1]. eapply int_ge_pos, Espan. apply fmin_pos; [apply Hwf | done].
Qed.

(** * The drift *)

Definition drift_wf (s : Drift) : Prop :=
  fltb f0 (cusum_h (d_config s)) = true /\ (length (d_laps s) <= _MAX_LAP_SERIES)%nat /\
  fleb f0 (cusum_up s) = true /\ fleb f0 (cusum_down s) = true /\ unit_score (d_score s).

Lemma fmax_nonneg x y : fleb f0 x = true -> fleb f0 y = true -> fleb f0 (fmax x y) = true.
Proof. unfold fmax. by destruct (fltb x y). Qed.

Lemma last_n_series {A : Type} (l : list A) : (length (last_n _MAX_LAP_SERIES l) <= _MAX_LAP_SERIES)%nat.
Proof. rewrite last_n_length. lia. Qed.

(** What a judged lap leaves, and the report it holds for the next row. *)
Lemma drift_judge_facts s fresh lap_number t lap_mean n mean scale s' :
  drift_judge s fresh lap_number t lap_mean n mean scale = Ok s' ->
  d_config s' = d_config s /\ report fresh (NFloat t) (d_finding s) (d_pending s') (d_finding s') /\
  (length (d_laps s') <= _MAX_LAP_SERIES)%nat /\ (drift_wf s -> drift_wf s').
Proof.
  unfold drift_judge. cbv zeta. intros (residual & _ & H)%res_bind_Ok.
  set (up := if direction_in _ ["both"; "up"] then _ else _) in H.
  set (down := if direction_in _ ["both"; "down"] then _ else _) in H.
  assert (drift_wf s -> fleb f0 up = true /\ fleb f0 down = true) as Hud.
  { intros (_ & _ & Hu & Hd & _). split; [unfold up | unfold down]; case direction_in; try apply fmax0_nonneg; done. }
  clearbody up down. set (reset := match d_finding s with Some _ => _ | None => _ end) in H. clearbody reset.
  set (triple := if reset then (f0, f0, f0) else (up, down, fmax up down)) in H.
  assert (drift_wf s -> fleb f0 triple.1.1 = true /\ fleb f0 triple.1.2 = true /\ fleb f0 triple.2 = true) as Htr.
  { intros [Hu Hd]%Hud. subst triple. destruct reset; [done|]. split_and!; [done..|]. by apply fmax_nonneg. }
  destruct triple as [[up' down'] statistic]. apply res_bind_Ok in H as (q & Hq & H).
  match type of H with context [_transition ?a ?b ?c ?d ?e ?f ?g] =>
    pose proof (transition_report a b c d e f g) as Ht; destruct (_transition a b c d e f g) as [kept reported] end.
  injection H as <-. split_and!; [done | done | apply last_n_series |]. intros Hwf. destruct (Htr Hwf) as (H1 & H2 & H3).
  destruct Hwf as (Hh & _). split_and!; [done | apply last_n_series | done | done |].
  by eapply capped_share.
Qed.

Lemma drift_bank_facts s lap :
  let s' := (drift_bank s lap).1 in
  d_config s' = d_config s /\ d_pending s' = d_pending s /\ d_finding s' = d_finding s /\ d_laps s' = d_laps s /\
  (drift_wf s -> drift_wf s').
Proof.
  unfold drift_bank, drift_freeze. cbv zeta. destruct (dc_baseline_laps _ <=? _); [|done].
  destruct (_ ≫= _) as [s'|e] eqn:E; [|done]. repeat (apply res_bind_Ok in E as (? & _ & E)). by injection E as <-.
Qed.

(** A completed lap is not judged, and what is held and pending stays, or is
    judged and leaves one report pending. *)
Lemma drift_on_lap_facts s fresh event t :
  let s' := (drift_on_lap s fresh event t).1 in
  d_config s' = d_config s /\ (drift_wf s -> drift_wf s') /\
  ((length (d_laps s) <= _MAX_LAP_SERIES)%nat -> (length (d_laps s') <= _MAX_LAP_SERIES)%nat) /\
  ((d_pending s' = d_pending s /\ d_finding s' = d_finding s) \/
   report fresh (NFloat t) (d_finding s) (d_pending s') (d_finding s')).
Proof.
  unfold drift_on_lap. cbv zeta. set (s1 := d_set_lap s f0 0 false).
  assert (d_config s1 = d_config s /\ (drift_wf s -> drift_wf s1) /\
    ((length (d_laps s) <= _MAX_LAP_SERIES)%nat -> (length (d_laps s1) <= _MAX_LAP_SERIES)%nat) /\
    ((d_pending s1 = d_pending s /\ d_finding s1 = d_finding s) \/
     report fresh (NFloat t) (d_finding s) (d_pending s1) (d_finding s1))) as Hs1 by (split_and!; auto).
  set (clean := _ && _). destruct clean; [|exact Hs1]. cbn [negb].
  destruct (_ ≫= _) as [lap_mean|e]; [|exact Hs1]. destruct (d_frozen s1); cbn [negb]; [|].
  2: { pose proof (drift_bank_facts s1 (mkBanked (oget "lap_number" event) t lap_mean (d_n s))) as (Hc & Hp & Hf & Hl & Hw).
    split_and!; [exact Hc | intros H; apply Hw, H | by rewrite Hl | left; split; [exact Hp | exact Hf]]. }
  destruct (d_mean s1), (d_scale s1); try exact Hs1.
  destruct (drift_judge _ _ _ _ _ _ _ _) as [s'|e] eqn:E; [|exact Hs1].
  apply drift_judge_facts in E as (Hc & Hr & Hl & Hw). split_and!; [exact Hc | exact Hw | done | right; exact Hr].
Qed.

(** The lap starts again with no sample, and a lap with too few is not judged. *)
Lemma drift_judge_n s fresh lap_number t lap_mean n mean scale s' :
  drift_judge s fresh lap_number t lap_mean n mean scale = Ok s' -> d_n s' = d_n s.
Proof.
  unfold drift_judge. cbv zeta. intros (residual & _ & H)%res_bind_Ok.
  match type of H with context [if ?b then (f0, f0, f0) else ?t] => destruct (if b then (f0, f0, f0) else t) as [[up down] st] end.
  apply res_bind_Ok in H as (q & _ & H). destruct (_transition _ _ _ _ _ _ _). by injection H as <-.
Qed.

Lemma drift_on_lap_n s fresh event t : d_n (drift_on_lap s fresh event t).1 = 0.
Proof.
  unfold drift_on_lap. cbv zeta. set (s1 := d_set_lap s f0 0 false). assert (d_n s1 = 0) as Hs1 by done.
  set (clean := _ && _). destruct clean; [|exact Hs1]. cbn [negb].
  destruct (_ ≫= _) as [lap_mean|e]; [|exact Hs1]. destruct (d_frozen s1); cbn [negb].
  - destruct (d_mean s1), (d_scale s1); try exact Hs1.
    destruct (drift_judge _ _ _ _ _ _ _ _) as [s'|e] eqn:E; [|exact Hs1]. apply drift_judge_n in E. by rewrite <- Hs1.
  - unfold drift_bank, drift_freeze. cbv zeta. destruct (dc_baseline_laps _ <=? _); [|done].
    destruct (_ ≫= _) as [s'|e] eqn:E; [|done]. repeat (apply res_bind_Ok in E as (? & _ & E)). by injection E as <-.
Qed.

Lemma drift_on_lap_few s fresh event t :
  d_n s < min_lap_samples (d_config s) ->
  let s' := (drift_on_lap s fresh event t).1 in d_pending s' = d_pending s /\ d_finding s' = d_finding s.
Proof.
  intros Hn. cbv zeta. unfold drift_on_lap. cbv zeta. cbn [d_config d_set_lap].
  assert ((min_lap_samples (d_config s) <=? d_n s) = false) as -> by lia. by rewrite andb_false_r.
Qed.

Lemma drift_evaluate_facts s t rs valid :
  let p := drift_evaluate s t rs valid in
  d_config p.1 = d_config s /\ d_finding p.1 = d_finding s /\ d_pending p.1 = None /\ d_laps p.1 = d_laps s /\
  (drift_wf s -> drift_wf p.1 /\ row_unit p.2) /\
  match p.2 with Ok row => rw_time row = t /\ rw_finding row = d_pending s | Raise _ => True end.
Proof.
  unfold drift_evaluate. cbv zeta. set (s1 := d_set_pending s None). destruct valid; [|done]. cbn [negb].
  destruct (units_of rs _) as [units|e]; [|done]. destruct (unit_mismatch _ _); [done|].
  destruct (_ ≫= _) as [[observed h]|e]; [|done].
  set (s2 := if h then _ else _).
  assert (d_config s2 = d_config s /\ d_finding s2 = d_finding s /\ d_pending s2 = None /\ d_laps s2 = d_laps s /\
          (drift_wf s -> drift_wf s2) /\ d_score s2 = d_score s) as (Hc & Hf & Hp & Hl & Hw & Hs) by (subst s2; by destruct h).
  clearbody s2. destruct (negb _); split_and!; try done; [by intros H; split; [by apply Hw|]|].
  intros H; split; [by apply Hw|]. simpl. rewrite Hs. apply H.
Qed.

(** * The baseline of the envelope *)

(** The values banked under a key, in order. *)
Definition banked_under (key : string) (obs : list (string * float)) : list float :=
  map snd (List.filter (fun ko => String.eqb ko.1 key) obs).

Lemma bank_get key k x learned :
  od_get key (bank k x learned) =
    if decide (key = k) then Some (match od_get k learned with Some vs => vs | None => [] end ++ [x])
    else od_get key learned.
Proof.
  unfold bank. destruct (decide (key = k)) as [->|Hne]; [apply od_get_set_eq | by apply od_get_set_ne].
Qed.

Lemma freeze_bins_get learned table table' :
  od_wf learned -> freeze_bins learned table = Ok table' ->
  forall key, match od_get key learned with
    | Some vs => exists st, od_get key table' = Some st /\ bin_stats vs = Ok st
    | None => od_get key table' = od_get key table end.
Proof.
  revert table; induction learned as [|[k vs] l IH]; intros table Hwf; [by intros [= <-] key|].
  apply NoDup_cons in Hwf as [Hni Hwf]. intros (st & Hst & H)%res_bind_Ok key.
  specialize (IH _ Hwf H key). cbn [od_get]. destruct (decide (key = k)) as [->|Hne].
  - apply od_get_None in Hni. cbn [fst] in Hni. rewrite Hni in IH. exists st; split; [|done]. rewrite IH. apply od_get_set_eq.
  - destruct (od_get key l); [done|]. rewrite IH. by apply od_get_set_ne.
Qed.

Section Baseline.
Context (expm1 : float -> float).

(** One call: the identifier drawn, the second, the readings and the gate. *)
Abbreviation second := (string * Z * readings * bool)%type.

Fixpoint envelope_run (s : Envelope) (seconds : list second) : res Envelope :=
  match seconds with
  | [] => Ok s
  | (fresh, t, rs, valid) :: seconds =>
      let '(s, r) := envelope_evaluate expm1 s fresh t rs valid in
      match r with Ok _ => envelope_run s seconds | Raise e => Raise e end
  end.

(** The observations a baseline may learn from: the seconds the gate is open
    and the units are those of the first one, with the bin they fall in. *)
Fixpoint observations (cfg : EnvelopeConfig) (known : gmap string string) (seconds : list second)
    : list (string * float) :=
  match seconds with
  | [] => []
  | (_, _, rs, false) :: seconds => observations cfg known seconds
  | (_, _, rs, true) :: seconds =>
      match units_of rs (ec_channels cfg), reading rs (ec_target cfg), res_map (bin_index rs) (conditioned_on cfg) with
      | Ok units, Ok r, Ok indices =>
          if unit_mismatch known units then observations cfg known seconds
          else (bin_key indices, rd_value r) :: observations cfg units seconds
      | _, _, _ => observations cfg known seconds
      end
  end.

(** What has been learned from the observations so far. *)
Definition learned_from (s : Envelope) (obs : list (string * float)) : Prop :=
  e_learned s = Z.of_nat (length obs) /\
  if e_frozen s then
    Z.of_nat (length obs) = ec_baseline_seconds (e_config s) /\ e_bins s = [] /\
    forall key, match banked_under key obs with
      | [] => od_get key (e_table s) = None
      | vs => exists st, od_get key (e_table s) = Some st /\ bin_stats vs = Ok st end
  else
    Z.of_nat (length obs) < ec_baseline_seconds (e_config s) /\ e_table s = [] /\ od_wf (e_bins s) /\
    forall key, od_get key (e_bins s) = match banked_under key obs with [] => None | vs => Some vs end.

Lemma banked_snoc key obs k x :
  banked_under key (obs ++ [(k, x)]) = banked_under key obs ++ (if String.eqb k key then [x] else []).
Proof. unfold banked_under. rewrite List.filter_app, map_app. f_equal. simpl. by destruct (String.eqb k key). Qed.

Lemma envelope_learn_step s key observed s' obs :
  e_frozen s = false -> learned_from s obs -> envelope_learn s key observed = (s', Ok ()) ->
  learned_from s' (obs ++ [(key, observed)]) /\ e_config s' = e_config s /\ e_units s' = e_units s.
Proof.
  intros Hf [Hn H] E. rewrite Hf in H. destruct H as (Hlt & Ht & Hwf & Hb).
  assert (forall k, od_get k (bank key observed (e_bins s)) =
    match banked_under k (obs ++ [(key, observed)]) with [] => None | vs => Some vs end) as Hb'.
  { intros k. rewrite bank_get, banked_snoc. destruct (decide (k = key)) as [->|Hne].
    - rewrite String.eqb_refl, Hb. by destruct (banked_under key obs).
    - assert (String.eqb key k = false) as -> by (apply String.eqb_neq; congruence). rewrite app_nil_r. apply Hb. }
  assert (od_wf (bank key observed (e_bins s))) as Hwf' by by apply od_set_wf.
  unfold envelope_learn, envelope_freeze in E. cbv zeta in E.
  cbn [e_config e_learned e_bins e_table] in E.
  unfold learned_from. rewrite length_app, Nat2Z.inj_add. cbn [length Z.of_nat].
  destruct (ec_baseline_seconds (e_config s) <=? e_learned s + 1) eqn:El.
  - destruct (freeze_bins _ (e_table s)) as [table|e] eqn:Efr; [|discriminate]. injection E as <-.
    cbn [e_learned e_frozen e_bins e_table e_config e_units].
    split_and!; [lia | lia | done | | done | done]. intros k.
    pose proof (freeze_bins_get _ _ _ Hwf' Efr k) as Hg. rewrite Hb' in Hg.
    destruct (banked_under k _); [by rewrite Hg, Ht | done].
  - injection E as <-. cbn [e_learned e_frozen e_bins e_table e_config e_units]. rewrite Hf. split_and!; [lia | lia | done.. ].
Qed.

(** A frozen baseline stays as it is. *)
Lemma envelope_judge_baseline s fresh t rs units observed indices stats :
  let s' := (envelope_judge expm1 s fresh t rs units observed indices stats).1 in
  e_config s' = e_config s /\ e_learned s' = e_learned s /\ e_frozen s' = e_frozen s /\ e_bins s' = e_bins s /\
  e_table s' = e_table s /\ e_units s' = e_units s.
Proof.
  unfold envelope_judge. cbv zeta. destruct (_ ≫= _) as [[residual score]|e]; [|done].
  destruct (res_map _ _) as [bin_list|e]; [|done]. by destruct (_transition _ _ _ _ _ _ _).
Qed.

(** One second: what it observes, if anything, is banked until the baseline is
    full. *)
Lemma envelope_evaluate_step s fresh t rs valid s' row obs seconds :
  envelope_evaluate expm1 s fresh t rs valid = (s', Ok row) -> learned_from s obs ->
  exists obs', learned_from s' obs' /\ e_config s' = e_config s /\
    let n := Z.to_nat (ec_baseline_seconds (e_config s)) in
    take n (obs ++ observations (e_config s) (e_units s) ((fresh, t, rs, valid) :: seconds)) =
    take n (obs' ++ observations (e_config s) (e_units s') seconds).
Proof.
  intros E Hl. assert (forall o1 o2, e_frozen s = true ->
    take (Z.to_nat (ec_baseline_seconds (e_config s))) (obs ++ o1) =
    take (Z.to_nat (ec_baseline_seconds (e_config s))) (obs ++ o2)) as Hfull.
  { intros o1 o2 Hf. destruct Hl as [_ Hl]. rewrite Hf in Hl. destruct Hl as [Hl _].
    rewrite !take_app_le by lia. done. }
  unfold envelope_evaluate in E. cbv zeta in E. cbn [observations].
  destruct valid; cbn [negb] in E; [|injection E as <- <-; by exists obs].
  destruct (units_of rs (ec_channels (e_config s))) as [units|e]; [|discriminate].
  destruct (unit_mismatch (e_units s) units) eqn:Eu.
  { injection E as <- <-. exists obs. split_and!; [done..|].
    destruct (reading _ _); [|done]. by destruct (res_map _ _). }
  destruct (reading rs (ec_target (e_config s))) as [r|e]; [|discriminate]. cbn [mbind res_bind] in E.
  destruct (res_map (bin_index rs) (conditioned_on (e_config s))) as [indices|e]; [|discriminate].
  cbn [mbind res_bind e_frozen e_set_units e_table] in E.
  destruct (e_frozen s) eqn:Ef; cbn [negb] in E.
  - assert (e_config s' = e_config s /\ e_learned s' = e_learned s /\ e_frozen s' = e_frozen s /\
      e_bins s' = e_bins s /\ e_table s' = e_table s /\ e_units s' = units) as (Hc & Hn & Hfr & Hb & Ht & Hu).
    { destruct (od_get _ _) as [stats|]; [|by injection E as <- <-].
      destruct (_ <? _); [by injection E as <- <-|].
      pose proof (envelope_judge_baseline (e_set_units s units) fresh t rs units (rd_value r) indices stats) as H.
      rewrite E in H. exact H. }
    exists obs. rewrite Hc, Hu. split_and!; [|done|by apply Hfull].
    unfold learned_from in *. rewrite Hc, Hn, Hfr, Hb, Ht. done.
  - destruct (envelope_learn _ _ _) as [s1 r1] eqn:El. destruct r1 as [[]|e]; [|discriminate]. injection E as <- <-.
    apply (envelope_learn_step _ _ _ _ obs) in El as (H1 & H2 & H3); [|done|exact Hl].
    eexists; split_and!; [exact H1 | exact H2 |]. rewrite H3, <- app_assoc. done.
Qed.

Lemma envelope_run_learned s seconds s' obs :
  envelope_run s seconds = Ok s' -> learned_from s obs ->
  exists obs', learned_from s' obs' /\ e_config s' = e_config s /\
    let n := Z.to_nat (ec_baseline_seconds (e_config s)) in
    take n (obs ++ observations (e_config s) (e_units s) seconds) = take n obs'.
Proof.
  revert s obs; induction seconds as [|[[[fresh t] rs] valid] seconds IH]; intros s obs; cbn [envelope_run].
  - intros [= <-] Hl. exists obs. split_and!; [done..|]. cbn [observations]. by rewrite app_nil_r.
  - destruct (envelope_evaluate _ _ _ _ _ _) as [s1 [row|e]] eqn:E; [|discriminate]. intros Hrun Hl.
    destruct (envelope_evaluate_step _ _ _ _ _ _ _ _ seconds E Hl) as (obs1 & Hl1 & Hc1 & Htake).
    destruct (IH _ _ Hrun Hl1) as (obs' & Hl' & Hc' & Htake'). exists obs'. rewrite Hc' , Hc1 in *.
    split_and!; [done..|]. cbv zeta in *. by rewrite Htake.
Qed.

(** The envelope's baseline is exactly its first [baseline_seconds] eligible
    observations: until they are all in, each is banked under its bin; then
    the table holds the median, the spread and the count of each bin of them,
    and no later second changes it. *)
Theorem baseline_is_first_seconds (cfg : EnvelopeConfig) (seconds : list second) (s : Envelope)
    (Hbaseline : 1 <= ec_baseline_seconds cfg) (Hrun : envelope_run (envelope_init cfg) seconds = Ok s) :
  let all := observations cfg ∅ seconds in
  let obs := take (Z.to_nat (ec_baseline_seconds cfg)) all in
  e_learned s = Z.of_nat (length obs) /\
  (e_frozen s = true <-> ec_baseline_seconds cfg <= Z.of_nat (length all)) /\
  forall key, if e_frozen s
    then match banked_under key obs with
         | [] => od_get key (e_table s) = None
         | vs => exists st, od_get key (e_table s) = Some st /\ bin_stats vs = Ok st end
    else od_get key (e_bins s) = match banked_under key obs with [] => None | vs => Some vs end.
Proof.
  destruct (envelope_run_learned _ _ _ [] Hrun) as (obs' & [Hn Hl] & Hc & Htake).
  { split; [done|]. cbn [envelope_init e_frozen e_config e_table e_bins]. split_and!; [simpl; lia | done | constructor | done]. }
  cbv zeta in *. cbn [envelope_init e_config e_units app] in Htake, Hc. rewrite Hc in Hl.
  assert (length obs' = length (take (Z.to_nat (ec_baseline_seconds cfg)) obs')) as Hlen.
  { rewrite length_take. destruct (e_frozen s); lia. }
  assert (take (Z.to_nat (ec_baseline_seconds cfg)) obs' = obs') as Hobs.
  { apply take_ge. rewrite length_take in Hlen. lia. }
  rewrite Htake, Hobs. split; [done|].
  assert (length obs' = (Z.to_nat (ec_baseline_seconds cfg) `min` length (observations cfg ∅ seconds))%nat) as Hm.
  { rewrite <- length_take, Htake, Hobs. done. }
  destruct (e_frozen s); split.
  - destruct Hl as [Hl _]. split; [lia | done].
  - intros key. apply Hl.
  - destruct Hl as [Hl _]. split; [done | lia].
  - intros key. apply Hl.
Qed.
End Baseline.

(** * Bench: an oil temperature against engine speed *)
Module Bench.

(** A stand-in for libm's [expm1], below zero on the arguments met here. *)
Definition expm1 (x : float) : float := if fltb x f0 then lit (-1) 2 else f0.

Definition oil : EnvelopeConfig :=
  mkEnvelopeConfig "oil.temp" [mkCondition "car.rpm" (lit 1000 1) None] "session_start" None 3 2 (lit 3 1) (lit 1 100)
    (lit 30 1) (lit 8 10) "warning" "on_track".

Definition second_of (t rpm oil_temp : Z) (valid : bool) : string * Z * readings * bool :=
  ("f", t, <["car.rpm" := mkReading (lit rpm 1) (f_of_Z t) "rpm"]>
             (<["oil.temp" := mkReading (lit oil_temp 1) (f_of_Z t) "C"]> ∅), valid).

(** Five seconds, the second of them gated; the fourth eligible one finds the
    baseline full. *)
Definition seconds : list (string * Z * readings * bool) :=
  [second_of 1 3200 90 true; second_of 2 9000 10 false; second_of 3 3400 92 true; second_of 4 4100 95 true;
   second_of 5 3300 91 true].
End Bench.

Lemma baseline_is_first_seconds_witness :
  exists s, envelope_run Bench.expm1 (envelope_init Bench.oil) Bench.seconds = Ok s /\
    e_frozen s = true /\ e_learned s = 3 /\
    exists st, od_get "3" (e_table s) = Some st /\ bin_stats [lit 90 1; lit 92 1] = Ok st.
Proof.
  destruct (envelope_run Bench.expm1 (envelope_init Bench.oil) Bench.seconds) as [s|] eqn:E;
    [|vm_compute in E; discriminate].
  exists s. split; [done|].
  destruct (baseline_is_first_seconds Bench.expm1 Bench.oil Bench.seconds s ltac:(vm_compute; discriminate) E)
    as (Hn & Hf & Hk).
  assert (e_frozen s = true) as Hfr by (apply Hf; vm_compute; discriminate).
  split_and!; [done | rewrite Hn; vm_compute; reflexivity |].
  specialize (Hk "3"). rewrite Hfr in Hk. exact Hk.
Defined.
