(* ===== verification/WatchEngine.v ===== *)
(** The watch engine ([src/pit/watch/engine.py], class [WatchEngine]) and the
    service's tick, checkpoint and restart ([src/pit/watch/service.py]).

    The engine runs any monitor of the class [Monitor] (the source asks for
    [evaluate], [channels] and, where it is there, [on_lap] and [on_pit]);
    [MonitorLaws] states what the engine's theorems need of a monitor, and the
    four kinds of [Watch] discharge it. *)

From S2P Require Import Prelude PyFloat Stats Watch.

Local Open Scope Z_scope.

(** * The interface of a monitor *)

Class Monitor (M : Type) := {
  mon_channels : M -> list string;
  mon_evaluate : M -> string -> Z -> readings -> bool -> M * res Row;
  mon_on_lap : M -> string -> json -> float -> M * res unit;
  mon_on_pit : M -> M
}.

(** The kinds a profile can name. *)
Inductive MonitorConfig :=
  | CEnvelope (c : EnvelopeConfig)
  | CDrift (c : DriftConfig)
  | CRatio (c : RatioConfig)
  | CCounter (c : CounterConfig).

Inductive Kind :=
  | KEnvelope (m : Envelope)
  | KDrift (m : Drift)
  | KRatio (m : Ratio)
  | KCounter (m : Counter).

Definition build_monitor (c : MonitorConfig) : Kind :=
  match c with
  | CEnvelope c => KEnvelope (envelope_init c)
  | CDrift c => KDrift (drift_init c)
  | CRatio c => KRatio (ratio_init c)
  | CCounter c => KCounter (counter_init c)
  end.

Definition monitor_config (m : Kind) : MonitorConfig :=
  match m with
  | KEnvelope m => CEnvelope (e_config m)
  | KDrift m => CDrift (d_config m)
  | KRatio m => CRatio (r_config m)
  | KCounter m => CCounter (k_config m)
  end.

Definition channels_of (c : MonitorConfig) : list string :=
  match c with
  | CEnvelope c => ec_channels c
  | CDrift c => dc_channels c
  | CRatio c => rc_channels c
  | CCounter c => cc_channels c
  end.

(** A checkpoint of either kind. *)
Inductive Model :=
  | MdEnvelope (m : EnvelopeModel)
  | MdDrift (m : DriftModel)
  | MdRatio (m : RatioModel)
  | MdCounter (m : CounterModel).

Definition kind_snapshot (m : Kind) : Model :=
  match m with
  | KEnvelope m => MdEnvelope (envelope_snapshot m)
  | KDrift m => MdDrift (drift_snapshot m)
  | KRatio m => MdRatio (ratio_snapshot m)
  | KCounter m => MdCounter (counter_snapshot m)
  end.

(** A checkpoint of another kind names another configuration. *)
Definition kind_restore (m : Kind) (model : Model) : res Kind :=
  match m, model with
  | KEnvelope m, MdEnvelope d => KEnvelope <$> envelope_restore m d
  | KDrift m, MdDrift d => KDrift <$> drift_restore m d
  | KRatio m, MdRatio d => KRatio <$> ratio_restore m d
  | KCounter m, MdCounter d => KCounter <$> counter_restore m d
  | _, _ => raise ValueError "baseline configuration changed; fit a matching baseline"
  end.

Definition kind_finding (m : Kind) : option Finding :=
  match m with
  | KEnvelope m => e_finding m
  | KDrift m => d_finding m
  | KRatio m => r_finding m
  | KCounter m => k_finding m
  end.

(** The report a lap left for the next row. *)
Definition kind_pending (m : Kind) : option Finding := match m with KDrift m => d_pending m | _ => None end.

Definition on_pair {A B C : Type} (f : A -> B) (p : A * C) : B * C := (f p.1, p.2).

Definition kind_evaluate (expm1 : float -> float) (m : Kind) (fresh : string) (at_s : Z) (rs : readings) (valid : bool)
    : Kind * res Row :=
  match m with
  | KEnvelope m => on_pair KEnvelope (envelope_evaluate expm1 m fresh at_s rs valid)
  | KDrift m => on_pair KDrift (drift_evaluate m at_s rs valid)
  | KRatio m => on_pair KRatio (ratio_evaluate expm1 m fresh at_s rs valid)
  | KCounter m => on_pair KCounter (counter_evaluate m fresh at_s rs valid)
  end.

(** Only the drift monitor reasons per lap. *)
Definition kind_on_lap (m : Kind) (fresh : string) (event : json) (at_s : float) : Kind * res unit :=
  match m with
  | KDrift m => on_pair KDrift (drift_on_lap m fresh event at_s)
  | _ => (m, Ok ())
  end.
Definition kind_on_pit (m : Kind) : Kind := match m with KDrift m => KDrift (drift_on_pit m) | _ => m end.

Definition kind_monitor (expm1 : float -> float) : Monitor Kind := {|
  mon_channels m := channels_of (monitor_config m);
  mon_evaluate := kind_evaluate expm1;
  mon_on_lap := kind_on_lap;
  mon_on_pit := kind_on_pit
|}.

(** * The engine *)

Section Engine.
Context {M : Type} `{!Monitor M}.
Context (json_loads : string -> option obj).

Record WatchEngine := mkEngine {
  baseline_rpm_min : float;
  max_age_seconds : float;
  monitors : list (string * M);
  eng_readings : readings;
  pit_status : obj;
  pit_time : float;
  last_tick : option Z
}.

Definition engine_init (rpm_min max_age : float) (ms : list (string * M)) : WatchEngine :=
  mkEngine rpm_min max_age ms ∅ ONone fninf None.

Definition set_monitors (s : WatchEngine) (ms : list (string * M)) : WatchEngine :=
  mkEngine (baseline_rpm_min s) (max_age_seconds s) ms (eng_readings s) (pit_status s) (pit_time s) (last_tick s).
Definition set_readings (s : WatchEngine) (rs : readings) : WatchEngine :=
  mkEngine (baseline_rpm_min s) (max_age_seconds s) (monitors s) rs (pit_status s) (pit_time s) (last_tick s).
Definition set_pit (s : WatchEngine) (status : obj) (at_s : float) : WatchEngine :=
  mkEngine (baseline_rpm_min s) (max_age_seconds s) (monitors s) (eng_readings s) status at_s (last_tick s).
Definition set_last_tick (s : WatchEngine) (t : option Z) : WatchEngine :=
  mkEngine (baseline_rpm_min s) (max_age_seconds s) (monitors s) (eng_readings s) (pit_status s) (pit_time s) t.

Definition input_channels (s : WatchEngine) : list string :=
  "car.rpm" :: "lap.event" :: flat_map (fun nm => mon_channels nm.2) (monitors s).

(** Whether an instant is not after the last tick evaluated. *)
Definition already_evaluated (s : WatchEngine) (at_s : num) : bool :=
  match last_tick s with Some t => num_leb at_s (NInt t) | None => false end.

(** Run a step on every monitor in order, until one raises. *)
Fixpoint each_monitor {R : Type} (f : string -> M -> M * res R) (ms : list (string * M))
    : list (string * M) * res (list (string * R)) :=
  match ms with
  | [] => ([], Ok [])
  | (name, m) :: ms =>
      let '(m, r) := f name m in
      match r with
      | Raise e => ((name, m) :: ms, Raise e)
      | Ok x => let '(ms, rest) := each_monitor f ms in ((name, m) :: ms, xs ← rest; Ok ((name, x) :: xs))
      end
  end.

Definition is_str (v : obj) (s : string) : bool := match v with OStr t => String.eqb t s | _ => false end.

(** Tell the per-lap kinds about lap boundaries and pit visits. *)
Definition _lap_event (fresh : string -> string) (s : WatchEngine) (event : json) (at_s : float) : WatchEngine * res unit :=
  let kind := oget "type" event in
  if is_str kind "lap_completed" then
    let '(ms, r) := each_monitor (fun name m => mon_on_lap m (fresh name) event at_s) (monitors s) in
    (set_monitors s ms, _ ← r; Ok ())
  else if is_str kind "pit_entry" || is_str kind "pit_exit" || is_str (oget "pit_status" event) "pit"
  then (set_monitors s (map (fun nm => (nm.1, mon_on_pit nm.2)) (monitors s)), Ok ())
  else (s, Ok ()).

(** A number as a float, when it is one and finite. *)
Definition finite_number (v : obj) : res (option float) :=
  match v with
  | OBool b => Ok (Some (f_of_Z (Z.b2z b)))
  | OInt z => x ← float_of_int z; Ok (Some x)
  | OFloat x => Ok (if is_finite x then Some x else None)
  | _ => Ok None
  end.

Definition observe (fresh : string -> string) (s : WatchEngine) (channel : string) (value : obj) (at_s : float) (unit_text : string)
    : WatchEngine * res unit :=
  if negb (existsb (String.eqb channel) (input_channels s)) || negb (is_finite at_s) then (s, Ok ())
  else if already_evaluated s (NFloat at_s) then (s, Ok ())
  else if String.eqb channel "lap.event" then
    let event := match value with
      | OStr text => match json_loads text with Some v => Ok v | None => raise ValueError "Expecting value" end
      | v => Ok v end in
    match event with
    | Raise e => (s, Raise e)
    | Ok (ODict event) =>
        if fleb (pit_time s) at_s
        then _lap_event fresh (set_pit s (oget "pit_status" event) at_s) event at_s
        else (s, Ok ())
    | Ok _ => (s, Ok ())
    end
  else
    match finite_number value with
    | Raise e => (s, Raise e)
    | Ok None => (s, Ok ())
    | Ok (Some x) =>
        let newer := match eng_readings s !! channel with None => true | Some r => fleb (rd_time r) at_s end in
        if newer then (set_readings s (<[channel := mkReading x at_s unit_text]> (eng_readings s)), Ok ())
        else (s, Ok ())
    end.

(** [0 <= at - time <= max_age] of a channel that has been read. *)
Definition channel_fresh (s : WatchEngine) (at_s : Z) (c : string) : bool :=
  match eng_readings s !! c with
  | Some r => let age := fsub (f_of_Z at_s) (rd_time r) in fleb f0 age && fleb age (max_age_seconds s)
  | None => false
  end.

Definition monitor_fresh (s : WatchEngine) (at_s : Z) (m : M) : bool :=
  forallb (channel_fresh s at_s) ("car.rpm" :: mon_channels m).

(** The gate: a session, fresh inputs, on track, engine running. *)
Definition gate_open (s : WatchEngine) (at_s : Z) (active : bool) (m : M) : bool :=
  active && monitor_fresh s at_s m && is_str (pit_status s) "track" &&
  match eng_readings s !! "car.rpm" with Some r => fltb (baseline_rpm_min s) (rd_value r) | None => false end.

Definition gated_status (s : WatchEngine) (at_s : Z) (active : bool) (m : M) (row : Row) : Row :=
  if negb (monitor_fresh s at_s m) then row_status "missing_or_stale" row
  else if negb active then row_status "no_session" row
  else row.

(** One monitor's second. *)
Definition tick_monitor (fresh : string -> string) (s : WatchEngine) (at_s : Z) (active : bool) (name : string) (m : M)
    : M * res Row :=
  let '(m', r) := mon_evaluate m (fresh name) at_s (eng_readings s) (gate_open s at_s active m) in
  (m', row ← r; Ok (gated_status s at_s active m row)).

Definition tick (fresh : string -> string) (s : WatchEngine) (at_s : Z) (active : bool)
    : WatchEngine * res (list (string * Row)) :=
  if already_evaluated s (NInt at_s) then (s, Ok [])
  else
    let s := set_last_tick s (Some at_s) in
    let '(ms, r) := each_monitor (tick_monitor fresh s at_s active) (monitors s) in
    (set_monitors s ms, r).
End Engine.
Arguments WatchEngine M : clear implicits.

(** * Running every monitor *)

Section EachMonitor.
Context {M R : Type} (f : string -> M -> M * res R).

Lemma each_monitor_names ms : map fst (each_monitor f ms).1 = map fst ms.
Proof.
  induction ms as [|[name m] ms IH]; [done|]. simpl. destruct (f name m) as [m' [x|e]]; [|done].
  destruct (each_monitor f ms) as [ms' rest]. simpl in *. by rewrite IH.
Qed.

Lemma each_monitor_ok ms ms' rs :
  each_monitor f ms = (ms', Ok rs) ->
  length ms' = length ms /\ length rs = length ms /\
  forall i name m, ms !! i = Some (name, m) ->
    exists m' x, f name m = (m', Ok x) /\ ms' !! i = Some (name, m') /\ rs !! i = Some (name, x).
Proof.
  revert ms' rs; induction ms as [|[name m] ms IH]; intros ms' rs; simpl; [by intros [= <- <-]|].
  destruct (f name m) as [m' [x|e]] eqn:Ef; [|discriminate].
  destruct (each_monitor f ms) as [ms1 [rest|e]]; simpl; [|discriminate]. intros [= <- <-].
  destruct (IH ms1 rest eq_refl) as (Hl & Hr & Hi). simpl; split_and!; [by rewrite Hl | by rewrite Hr |].
  intros [|i] name' m''; simpl; [intros [= <- <-]; eauto | by apply Hi].
Qed.
End EachMonitor.

(** * The gate *)

Section Gate.
Context {M : Type} `{!Monitor M}.

(** What an open gate means: a session, on track, the engine above its
    minimum, and every channel the monitor needs read at a time no later than
    the tick and no older than the limit. *)
Lemma gate_open_spec (s : WatchEngine M) at_s active m :
  gate_open s at_s active m = true <->
  active = true /\ pit_status s = OStr "track" /\
  (forall c, c = "car.rpm"%string \/ c ∈ mon_channels m -> exists r, eng_readings s !! c = Some r /\
    fleb f0 (fsub (f_of_Z at_s) (rd_time r)) = true /\
    fleb (fsub (f_of_Z at_s) (rd_time r)) (max_age_seconds s) = true) /\
  exists r, eng_readings s !! "car.rpm"%string = Some r /\ fltb (baseline_rpm_min s) (rd_value r) = true.
Proof.
  unfold gate_open, monitor_fresh. rewrite !andb_true_iff, forallb_forall.
  assert (is_str (pit_status s) "track" = true <-> pit_status s = OStr "track") as Hp.
  { unfold is_str. destruct (pit_status s); try (split; discriminate). rewrite String.eqb_eq. naive_solver. }
  assert (forall c, channel_fresh s at_s c = true <-> exists r, eng_readings s !! c = Some r /\
    fleb f0 (fsub (f_of_Z at_s) (rd_time r)) = true /\
    fleb (fsub (f_of_Z at_s) (rd_time r)) (max_age_seconds s) = true) as Hc.
  { intros c. unfold channel_fresh. cbv zeta. destruct (eng_readings s !! c) as [r|]; [|naive_solver].
    rewrite andb_true_iff. naive_solver. }
  rewrite Hp. split.
  - intros (((Ha & Hf) & Ht) & Hr). split_and!; [done..| |].
    + intros c Hin. apply Hc, Hf. simpl. rewrite <- list_elem_of_In. naive_solver.
    + destruct (eng_readings s !! "car.rpm"%string); [eauto | discriminate].
  - intros (Ha & Ht & Hf & (r & Hr & Hlt)). split_and!; [done| |done|by rewrite Hr].
    intros c Hin. apply Hc, Hf. destruct Hin as [<-|Hin]; [by left | right; by apply list_elem_of_In].
Qed.
End Gate.

Section Kinds.
Context (expm1 : float -> float).

#[local] Instance kinds : Monitor Kind := kind_monitor expm1.

Lemma kind_gated m fresh t rs :
  exists m', kind_evaluate expm1 m fresh t rs false = (m', Ok (mkRow t None None None None "gated" (kind_pending m))) /\
    kind_snapshot m' = kind_snapshot m.
Proof. destruct m; eexists; split; reflexivity. Qed.

(** While its gate is closed a monitor has no opinion: the second's row holds
    no score and nothing observed, the checkpoint (the baseline, the score,
    the open finding) is as it was, and the only finding the row may carry is
    the one a lap already left to report. *)
Theorem closed_gate_has_no_opinion fresh (s s' : WatchEngine Kind) at_s active rows i name m
    (Htick : tick fresh s at_s active = (s', Ok rows))
    (Hnew : already_evaluated s (NInt at_s) = false)
    (Hm : monitors s !! i = Some (name, m))
    (Hgate : gate_open s at_s active m = false) :
  exists m' row, monitors s' !! i = Some (name, m') /\ rows !! i = Some (name, row) /\
    kind_snapshot m' = kind_snapshot m /\
    rw_score row = None /\ rw_residual row = None /\ rw_expected row = None /\ rw_observed row = None /\
    rw_finding row = kind_pending m /\
    baseline_status row ∈ ["gated"; "missing_or_stale"; "no_session"]%string.
Proof.
  unfold tick in Htick. rewrite Hnew in Htick. cbn [monitors set_last_tick] in Htick.
  destruct (each_monitor _ (monitors s)) as [ms r] eqn:E. injection Htick as <- ->.
  apply each_monitor_ok in E as (_ & _ & Hi). destruct (Hi _ _ _ Hm) as (m' & row & Hf & H1 & H2).
  unfold tick_monitor in Hf. unfold gate_open in Hf, Hgate. unfold monitor_fresh, channel_fresh in Hf, Hgate.
  cbn [eng_readings set_last_tick max_age_seconds pit_status baseline_rpm_min] in Hf.
  cbn [mon_evaluate kinds kind_monitor] in Hf. rewrite Hgate in Hf.
  destruct (kind_gated m (fresh name) at_s (eng_readings s)) as (m1 & He & Hs). rewrite He in Hf.
  cbn [mbind res_bind] in Hf. injection Hf as <- <-. exists m1, (gated_status (set_last_tick s (Some at_s)) at_s active m (mkRow at_s None None None None "gated" (kind_pending m))).
  split_and!; [done | done | done |..]; unfold gated_status; repeat case_match; cbn; try done; set_solver.
Qed.

(** * The life of a finding *)

(** The steps a monitor takes: a second, a lap, a pit visit, in any order. *)
Inductive kind_run (c : MonitorConfig) : Kind -> list Row -> Prop :=
  | run_built : kind_run c (build_monitor c) []
  | run_second m rows fresh t rs valid m' row :
      kind_run c m rows -> kind_evaluate expm1 m fresh t rs valid = (m', Ok row) -> kind_run c m' (rows ++ [row])
  | run_lap m rows fresh event t m' :
      kind_run c m rows -> kind_on_lap m fresh event t = (m', Ok ()) -> kind_run c m' rows
  | run_pit m rows : kind_run c m rows -> kind_run c (kind_on_pit m) rows.

(** The reports of one finding after another: each report follows from what
    is held, and leaves what is held after it. *)
Inductive lifecycle : list (option Finding) -> option Finding -> Prop :=
  | life_start : lifecycle [] None
  | life_report fs held fresh t r kept :
      lifecycle fs held -> report fresh t held r kept -> lifecycle (fs ++ [r]) kept.

Lemma lifecycle_quiet fs held : lifecycle fs held -> lifecycle (fs ++ [None]) held.
Proof. intros H. apply (life_report _ _ "" (NInt 0) _ _ H). constructor. Qed.

Lemma lifecycle_unquiet fs held : lifecycle (fs ++ [None]) held -> lifecycle fs held.
Proof.
  intros H. inversion H as [Hnil | fs0 held0 fresh t r kept H0 Hr Heq]; [by destruct fs|].
  apply app_inj_tail in Heq as [-> ->]. by inversion Hr; subst.
Qed.

Lemma held_is_open fs f : lifecycle fs (Some f) -> closed_at f = None.
Proof.
  remember (Some f) as held eqn:E. intros H; revert f E.
  induction H as [|fs held fresh t r kept H IH Hr]; intros f; [done|].
  destruct Hr as [held|sc su se|g g' H1 H2 H3 H4 H5|g]; [by apply IH|by intros [= <-]| |done].
  intros [= <-]. rewrite H3. by apply IH.
Qed.

(** A second hands over the pending report and leaves none, or reports for
    itself. *)
Lemma kind_second_facts m fresh t rs valid m' row :
  kind_evaluate expm1 m fresh t rs valid = (m', Ok row) ->
  kind_pending m' = None /\ monitor_config m' = monitor_config m /\ rw_time row = t /\
  ((rw_finding row = kind_pending m /\ kind_finding m' = kind_finding m) \/
   (kind_pending m = None /\ report fresh (NInt t) (kind_finding m) (rw_finding row) (kind_finding m'))).
Proof.
  unfold kind_evaluate, on_pair. destruct m as [m|m|m|m]; intros [= <- Hr]; cbn.
  - pose proof (envelope_evaluate_report expm1 m fresh t rs valid) as [Hc H]. rewrite Hr in H. cbn in H.
    rewrite Hc. naive_solver.
  - pose proof (drift_evaluate_facts m t rs valid) as (Hc & Hf & Hp & _ & _ & H). rewrite Hr in H. cbn in H.
    rewrite Hc. naive_solver.
  - pose proof (ratio_evaluate_report expm1 m fresh t rs valid) as [Hc H]. rewrite Hr in H. cbn in H.
    rewrite Hc. naive_solver.
  - pose proof (counter_evaluate_facts m fresh t rs valid) as (Hc & H & _ & _). rewrite Hr in H. cbn in H.
    rewrite Hc. naive_solver.
Qed.

Lemma kind_lap_facts m fresh event t m' r :
  kind_on_lap m fresh event t = (m', r) ->
  monitor_config m' = monitor_config m /\
  ((kind_pending m' = kind_pending m /\ kind_finding m' = kind_finding m) \/
   report fresh (NFloat t) (kind_finding m) (kind_pending m') (kind_finding m')).
Proof.
  destruct m as [m|m|m|m]; cbn; try (intros [= <- _]; auto; fail).
  pose proof (drift_on_lap_facts m fresh event t) as (Hc & _ & _ & H). unfold on_pair. intros [= <- _]; cbn.
  rewrite Hc. done.
Qed.

Lemma kind_pit_facts m :
  monitor_config (kind_on_pit m) = monitor_config m /\ kind_pending (kind_on_pit m) = kind_pending m /\
  kind_finding (kind_on_pit m) = kind_finding m.
Proof. by destruct m. Qed.

(** The configuration asks of a lap at least one sample before it is judged. *)
Definition samples_required (c : MonitorConfig) : Prop :=
  match c with CDrift c => 1 <= min_lap_samples c | _ => True end.

(** A report waits only while the lap has no sample yet. *)
Definition waits_before_samples (m : Kind) : Prop :=
  match m with KDrift m => d_pending m = None \/ d_n m = 0 | _ => True end.

Lemma kind_run_waits c m rows : kind_run c m rows -> monitor_config m = monitor_config (build_monitor c) /\ waits_before_samples m.
Proof.
  induction 1 as [|m rows fresh t rs valid m' row _ [Hc Hw] He | m rows fresh event t m' _ [Hc Hw] He | m rows _ [Hc Hw]].
  - split; [done|]. destruct c; try done. by left.
  - apply kind_second_facts in He as (Hp & Hc' & _). split; [congruence|]. destruct m'; try done. by left.
  - pose proof (kind_lap_facts _ _ _ _ _ _ He) as [Hc' _]. split; [congruence|].
    destruct m as [m|m|m|m]; cbn in He; try (injection He as <-; exact Hw).
    pose proof (drift_on_lap_n m fresh event t). unfold on_pair in He. injection He as <- _. by right.
  - destruct (kind_pit_facts m) as (Hc' & _). split; [congruence|]. by destruct m.
Qed.

Lemma built_config c : monitor_config (build_monitor c) = c.
Proof. by destruct c. Qed.

(** A lap while a report waits changes nothing of it. *)
Lemma lap_while_waiting c m rows fresh event t m' r :
  samples_required c -> kind_run c m rows -> kind_pending m <> None -> kind_on_lap m fresh event t = (m', r) ->
  kind_pending m' = kind_pending m /\ kind_finding m' = kind_finding m.
Proof.
  intros Hs Hrun Hp He. destruct (kind_run_waits _ _ _ Hrun) as [Hc Hw]. rewrite built_config in Hc. subst c.
  destruct m as [m|m|m|m]; try done. cbn in *. destruct Hw as [Hw|Hn]; [done|].
  unfold on_pair in He. injection He as <- _. apply drift_on_lap_few. lia.
Qed.

(** C30. Whatever a monitor goes through, the findings its rows report, with the
    one still to report, are one life after another: a finding opens only when
    none is held, goes on under the same identifier with a peak that never
    falls, closes once, and what the monitor holds is open. *)
Theorem finding_lifecycle c m rows :
  samples_required c -> kind_run c m rows ->
  lifecycle (map rw_finding rows ++ [kind_pending m]) (kind_finding m) /\
  forall f, kind_finding m = Some f -> closed_at f = None.
Proof.
  intros Hc H. assert (lifecycle (map rw_finding rows ++ [kind_pending m]) (kind_finding m)) as Hl.
  { induction H as [|m rows fresh t rs valid m' row _ IH He | m rows fresh event t m' Hrun IH He | m rows _ IH].
    - destruct c; apply (lifecycle_quiet []), life_start.
    - apply kind_second_facts in He as (Hp & _ & _ & [[Hr Hf]|[Hn Hr]]); rewrite map_app, Hp; cbn [map].
      + rewrite Hr, Hf. by apply lifecycle_quiet.
      + rewrite Hn in IH. apply lifecycle_unquiet in IH. apply lifecycle_quiet. by eapply life_report.
    - destruct (kind_pending m) as [f|] eqn:Hp.
      + destruct (lap_while_waiting _ _ _ _ _ _ _ _ Hc Hrun ltac:(by rewrite Hp) He) as [-> ->]. by rewrite Hp.
      + apply lifecycle_unquiet in IH. apply kind_lap_facts in He as (_ & [[Hp' Hf]|Hr]).
        * rewrite Hp', Hp, Hf. by apply lifecycle_quiet.
        * by eapply life_report.
    - destruct (kind_pit_facts m) as (_ & -> & ->). done. }
  split; [done|]. intros f Hf. rewrite Hf in Hl. exact (held_is_open _ _ Hl).
Qed.

(** * Scores stay in the column *)

(** The limits the configuration requires to be positive. *)
Definition limits_positive (c : MonitorConfig) : Prop :=
  match c with
  | CDrift c => fltb f0 (cusum_h c) = true
  | CCounter c => fltb f0 (cc_open_finding_above c) = true /\ fltb f0 (cc_score_window c) = true
  | _ => False
  end.

Definition kind_scored (m : Kind) : Prop :=
  match m with KDrift m => drift_wf m | KCounter m => counter_wf m | _ => False end.

(** Whatever a drift or a counter monitor goes through, every score it puts in
    a row is between 0 and 1, the constraint the scores table carries; no
    overflow and no NaN of the arithmetic gets past it. *)
Theorem watch_scores_bounded c m rows :
  kind_run c m rows -> limits_positive c ->
  Forall (fun row => match rw_score row with Some x => unit_score x | None => True end) rows.
Proof.
  intros H Hc. enough (kind_scored m /\
    Forall (fun row => match rw_score row with Some x => unit_score x | None => True end) rows) by tauto.
  assert (unit_score f0) as H0 by done.
  induction H as [|m rows fresh t rs valid m' row _ IH He | m rows fresh event t m' _ IH He | m rows _ IH].
  - destruct c; try done; cbn in Hc |- *; (split; [|constructor]).
    + split_and!; try done. simpl; lia.
    + destruct Hc. split_and!; try done. simpl; lia.
  - destruct IH as [Hm Hr]. rewrite Forall_app, Forall_singleton. unfold kind_evaluate, on_pair in He.
    destruct m as [m|m|m|m]; try done; injection He as <- He.
    + pose proof (drift_evaluate_facts m t rs valid) as (_ & _ & _ & _ & Hw & _). rewrite He in Hw. destruct (Hw Hm). done.
    + pose proof (counter_evaluate_facts m fresh t rs valid) as (_ & _ & _ & Hw). rewrite He in Hw. destruct (Hw Hm). done.
  - destruct IH as [Hm Hr]. split; [|done]. destruct m as [m|m|m|m]; cbn in He; try done; [|by injection He as <-].
    pose proof (drift_on_lap_facts m fresh event t) as (_ & Hw & _). unfold on_pair in He. injection He as <- _. by apply Hw.
  - destruct IH as [Hm Hr]. split; [|done]. by destruct m.
Qed.
End Kinds.

(** * Bench: an error counter *)
Module EngineBench.

Definition errors : CounterConfig :=
  mkCounterConfig "can.errors" [] "unchanged" (lit 60 1) (lit 1 1) "warning" "on_track".

Definition at_count (t count : Z) : readings :=
  <["can.errors" := mkReading (lit count 1) (f_of_Z t) ""]>
    (<["car.rpm" := mkReading (lit 3000 1) (f_of_Z t) "rpm"]> ∅).

Definition second_of (fresh : string) (m : Kind * list Row) (tc : Z * Z) : Kind * list Row :=
  let '(m', r) := kind_evaluate Bench.expm1 m.1 fresh tc.1 (at_count tc.1 tc.2) true in
  (m', m.2 ++ match r with Ok row => [row] | Raise _ => [] end).

(** Eleven seconds apart the count rises by five, and a minute later no more. *)
Definition run (seconds : list (Z * Z)) : Kind * list Row :=
  fold_left (second_of "f1") seconds (build_monitor (CCounter errors), []).
Definition history : list (Z * Z) := [(100, 7); (111, 12); (180, 12); (195, 12)].

Lemma run_snoc l tc :
  kind_run Bench.expm1 (CCounter errors) (run l).1 (run l).2 ->
  is_ok (kind_evaluate Bench.expm1 (run l).1 "f1" tc.1 (at_count tc.1 tc.2) true).2 = true ->
  kind_run Bench.expm1 (CCounter errors) (run (l ++ [tc])).1 (run (l ++ [tc])).2.
Proof.
  intros H Hok. assert (run (l ++ [tc]) = second_of "f1" (run l) tc) as -> by (unfold run; by rewrite fold_left_app).
  unfold second_of.
  destruct (kind_evaluate _ _ _ _ _ _) as [m' [row|e]] eqn:E; [|discriminate]. eapply run_second, E. exact H.
Qed.

Lemma errors_run : kind_run Bench.expm1 (CCounter errors) (run history).1 (run history).2.
Proof.
  assert (kind_run Bench.expm1 (CCounter errors) (run []).1 (run []).2) as H0 by apply run_built.
  do 4 (match goal with H : kind_run _ _ (run ?l).1 _ |- _ =>
    let tc := eval vm_compute in (nth (length l) history (0, 0)) in
    pose proof (run_snoc l tc H ltac:(vm_compute; reflexivity)) as H'; clear H; rename H' into H; cbn [app] in H end).
  exact H0.
Qed.

(** A car parked: everything is fresh and the engine runs, off the track. *)
Definition parked : WatchEngine Kind :=
  mkEngine (lit 1200 1) (lit 10 1) [("errors", (run [(100, 7); (111, 12)]).1)] (at_count 112 30) (OStr "pit") f0 None.
End EngineBench.

Lemma finding_lifecycle_witness :
  map (fun row => (fun f => (finding_id f, closed_at f)) <$> rw_finding row) (EngineBench.run EngineBench.history).2 =
    [None; Some ("f1"%string, None); None; Some ("f1"%string, Some (NInt 195))] /\
  lifecycle (map rw_finding (EngineBench.run EngineBench.history).2 ++ [None]) None.
Proof.
  split; [vm_compute; reflexivity|].
  exact (proj1 (finding_lifecycle Bench.expm1 (CCounter EngineBench.errors) _ _ I EngineBench.errors_run)).
Defined.

Lemma watch_scores_bounded_witness :
  map rw_score (EngineBench.run EngineBench.history).2 = [None; Some (f_of_Z 1); None; Some f0] /\
  Forall (fun row => match rw_score row with Some x => unit_score x | None => True end)
    (EngineBench.run EngineBench.history).2.
Proof.
  split; [vm_compute; reflexivity|].
  apply (watch_scores_bounded Bench.expm1 _ _ _ EngineBench.errors_run). split; reflexivity.
Defined.

Lemma closed_gate_has_no_opinion_witness :
  exists s' rows m' row,
    @tick _ (kind_monitor Bench.expm1) (fun _ => "f2"%string) EngineBench.parked 113 true = (s', Ok rows) /\
    monitors s' !! 0%nat = Some ("errors"%string, m') /\ rows !! 0%nat = Some ("errors"%string, row) /\
    kind_snapshot m' = kind_snapshot (EngineBench.run [(100, 7); (111, 12)]).1 /\
    is_Some (kind_finding (EngineBench.run [(100, 7); (111, 12)]).1) /\ rw_score row = None.
Proof.
  destruct (@tick _ (kind_monitor Bench.expm1) (fun _ => "f2"%string) EngineBench.parked 113 true) as [s' [rows|e]] eqn:E;
    [|vm_compute in E; discriminate].
  destruct (closed_gate_has_no_opinion Bench.expm1 _ _ _ _ _ _ 0%nat _ _ E eq_refl eq_refl ltac:(vm_compute; reflexivity))
    as (m' & row & H1 & H2 & Hs & Hsc & _).
  exists s', rows, m', row. split_and!; [done | exact H1 | exact H2 | exact Hs | | exact Hsc].
  vm_compute. eexists; reflexivity.
Defined.
