(* ===== verification/WatchService.v ===== *)
(** The watch service ([src/pit/watch/service.py] and the statements of
    [src/pit/watch/store.py]): the bounded buffer of decoded samples, the tick
    that observes, evaluates and checkpoints in one transaction, and the
    change of session, of stint and the restart.

    The database is the tables the statements write, for the one vehicle of
    the service; whether a statement commits is the environment's and a
    parameter of each step. A stored baseline file is read by [stored]. *)

From S2P Require Import Prelude PyFloat Wire RegistryCache Watch WatchEngine.

Local Open Scope Z_scope.

(** * What the service asks of a monitor, beyond [Monitor] *)

Class Checkpointed (M Mo : Type) := {
  mon_snapshot : M -> Mo;
  mon_restore : M -> Mo -> res M;
  mon_fresh : M -> M;
  mon_baseline : M -> string;
  mon_frozen : M -> bool;
  mon_clear : M -> M;
  mon_set_session : M -> string -> M;
  mon_set_stint : M -> Z -> M;
  mon_finding : M -> option Finding
}.

(** * The database *)

Record FindingRow := mkFindingRow {
  fr_monitor : string;
  fr_finding : Finding;
  fr_closed_reason : option string
}.

Record Store (Mo : Type) := mkStore {
  watch_scores : gmap (Z * string) Row;
  watch_findings : gmap string FindingRow;
  watch_baselines : gmap (string * string * Z) (Mo * Z)
}.
Arguments mkStore {Mo} _ _ _.
Arguments watch_scores {Mo} _.
Arguments watch_findings {Mo} _.
Arguments watch_baselines {Mo} _.

Definition BACKFILL_MAX_AGE_S : float := lit 30 1.
Definition FUTURE_TOLERANCE_S : float := lit 5 1.
Definition MAX_PENDING : Z := 50000.

Record Health := mkHealth {
  h_malformed : Z;
  h_dropped : Z;
  h_unknown_registry : Z;
  h_bad_version : Z;
  h_backfill_skipped : Z
}.

(** A buffered sample with its capture time and arrival number. *)
Abbreviation Pending := (float * Z * DecodedSample)%type.

(** The order of the heap: capture time, then arrival. *)
Definition pending_leb (a b : Pending) : bool :=
  fltb a.1.1 b.1.1 || (feqb a.1.1 b.1.1 && (a.1.2 <=? b.1.2)).

Section Service.
Context {M Mo : Type} `{!Monitor M} `{!Checkpointed M Mo}.
Context (json_loads : string -> option obj).

Record Service := mkService {
  sv_engine : WatchEngine M;
  sv_cache : RegistryCache;
  sv_health : Health;
  sv_session : option string;
  sv_stint : Z;
  sv_initialized : bool;
  sv_pending : list Pending;
  sv_sequence : Z;
  sv_store : Store Mo;
  (** The monitors the configuration builds. *)
  sv_built : list (string * M)
}.

Definition service_init (rpm_min max_age : float) (built : list (string * M)) (db : Store Mo) : Service :=
  mkService (engine_init rpm_min max_age built) cache_init (mkHealth 0 0 0 0 0) None 0 false [] 0 db built.

Definition sv_set_engine (s : Service) (e : WatchEngine M) : Service :=
  mkService e (sv_cache s) (sv_health s) (sv_session s) (sv_stint s) (sv_initialized s) (sv_pending s) (sv_sequence s)
    (sv_store s) (sv_built s).
Definition sv_set_pending (s : Service) (p : list Pending) : Service :=
  mkService (sv_engine s) (sv_cache s) (sv_health s) (sv_session s) (sv_stint s) (sv_initialized s) p (sv_sequence s)
    (sv_store s) (sv_built s).
Definition sv_set_health (s : Service) (h : Health) : Service :=
  mkService (sv_engine s) (sv_cache s) h (sv_session s) (sv_stint s) (sv_initialized s) (sv_pending s) (sv_sequence s)
    (sv_store s) (sv_built s).
Definition sv_set_cache (s : Service) (c : RegistryCache) : Service :=
  mkService (sv_engine s) c (sv_health s) (sv_session s) (sv_stint s) (sv_initialized s) (sv_pending s) (sv_sequence s)
    (sv_store s) (sv_built s).
Definition sv_set_store (s : Service) (db : Store Mo) : Service :=
  mkService (sv_engine s) (sv_cache s) (sv_health s) (sv_session s) (sv_stint s) (sv_initialized s) (sv_pending s)
    (sv_sequence s) db (sv_built s).
Definition sv_set_context (s : Service) (session : option string) (stint : Z) (db : Store Mo) : Service :=
  mkService (sv_engine s) (sv_cache s) (sv_health s) session stint true (sv_pending s) (sv_sequence s) db (sv_built s).
Definition sv_push (s : Service) (at_s : float) (d : DecodedSample) : Service :=
  let n := sv_sequence s + 1 in
  mkService (sv_engine s) (sv_cache s) (sv_health s) (sv_session s) (sv_stint s) (sv_initialized s)
    (ins pending_leb (at_s, n, d) (sv_pending s)) n (sv_store s) (sv_built s).

Definition count_malformed (h : Health) : Health :=
  mkHealth (h_malformed h + 1) (h_dropped h) (h_unknown_registry h) (h_bad_version h) (h_backfill_skipped h).
Definition count_dropped (h : Health) : Health :=
  mkHealth (h_malformed h) (h_dropped h + 1) (h_unknown_registry h) (h_bad_version h) (h_backfill_skipped h).
Definition count_backfill (h : Health) : Health :=
  mkHealth (h_malformed h) (h_dropped h) (h_unknown_registry h) (h_bad_version h) (h_backfill_skipped h + 1).
Definition count_refused (h : Health) (c : RegistryCache) : Health :=
  mkHealth (h_malformed h) (h_dropped h) (unknown_seq_batches c) (bad_version_batches c) (h_backfill_skipped h).

(** Outside the live window. *)
Definition out_of_window (now at_s : float) : bool :=
  fltb at_s (fsub now BACKFILL_MAX_AGE_S) || fltb (fadd now FUTURE_TOLERANCE_S) at_s.

(** One decoded sample of a batch. *)
Definition accept_sample (now : float) (s : Service) (d : DecodedSample) : Service :=
  if negb (existsb (String.eqb (c_name (ds_channel d))) (input_channels (sv_engine s))) then s
  else
    let at_s := fdiv_ieee (ds_capture_unix_ms d) (f_of_Z 1000) in
    if out_of_window now at_s then sv_set_health s (count_dropped (sv_health s))
    else if MAX_PENDING <=? Z.of_nat (length (sv_pending s)) then sv_set_health s (count_dropped (sv_health s))
    else sv_push s at_s d.

(** A message, by its type header, as the protobuf runtime parses it. *)
Definition handle (s : Service) (now : float) (message : option ChannelRegistry + option SampleBatch) : Service :=
  match message with
  | inl (Some registry) => sv_set_cache s (add_registry (sv_cache s) registry)
  | inl None | inr None => sv_set_health s (count_malformed (sv_health s))
  | inr (Some raw) =>
      if out_of_window now (f_of_ratio (b_epoch_unix_ms raw) 1000)
      then sv_set_health s (count_backfill (sv_health s))
      else
        let '(cache, r) := decode_batch (sv_cache s) raw in
        let s := sv_set_health (sv_set_cache s cache) (count_refused (sv_health s) cache) in
        match r with
        | inr _ => s
        | inl batch => fold_left (accept_sample now) (db_samples batch) s
        end
  end.

(** * Session, stint and restart *)

(** The checkpoint slot of a monitor: the stint for a per-stint baseline. *)
Definition slot_of (m : M) (stint : Z) : Z := if String.eqb (mon_baseline m) "stint_start" then stint else 0.

(** Restore a freshly built monitor from its checkpoint or its stored file. *)
Definition _fresh_monitor (stored : string -> res Mo) (db : Store Mo) (session : option string) (stint : Z)
    (name : string) (m : M) : M * res (option (Mo * Z)) :=
  match session ≫= fun sid => watch_baselines db !! (name, sid, slot_of m stint) with
  | Some (model, last) =>
      match mon_restore m model with
      | Ok m => (m, Ok (Some (model, last)))
      | Raise e => (m, Raise e)
      end
  | None =>
      let '(m, r) :=
        if String.eqb (mon_baseline m) "stored" then
          match (model ← stored name; mon_restore m model) with
          | Raise e => (m, Raise e)
          | Ok m =>
              if negb (mon_frozen m) then (m, raise ValueError "stored baseline is not frozen") else (mon_clear m, Ok ())
          end
        else (m, Ok ()) in
      match r with
      | Raise e => (m, Raise e)
      | Ok _ =>
          let m := match session with
            | Some sid =>
                if String.eqb (mon_baseline m) "session_start" || String.eqb (mon_baseline m) "stint_start"
                then mon_set_session m sid else m
            | None => m end in
          (if String.eqb (mon_baseline m) "stint_start" then mon_set_stint m stint else m, Ok None)
      end
  end.

(** The same for the monitors of a per-stint baseline, built anew; the others
    are left alone. *)
Definition refresh_stint (stored : string -> res Mo) (db : Store Mo) (session : option string) (stint : Z)
    (name : string) (m : M) : M * res unit :=
  if String.eqb (mon_baseline m) "stint_start"
  then let '(m, r) := _fresh_monitor stored db session stint name (mon_fresh m) in (m, _ ← r; Ok ())
  else (m, Ok ()).

(** The ticks the restored checkpoints carry. *)
Definition restored_ticks (rs : list (string * option (Mo * Z))) : list Z := omap (fun r => snd <$> r.2) rs.

(** The identifiers of the findings the monitors hold open. *)
Definition held_findings (ms : list (string * M)) : list string :=
  omap (fun nm => finding_id <$> mon_finding nm.2) ms.

(** [UPDATE watch_findings SET closed_at ... WHERE ... AND NOT (id = ANY(keep))]. *)
Definition close_previous (db : Store Mo) (names : list string) (at_s : Z) (keep : list string) (reason : string) : Store Mo :=
  mkStore (watch_scores db)
    (map_imap (fun id row =>
      let f := fr_finding row in
      if existsb (String.eqb (fr_monitor row)) names && negb (existsb (String.eqb id) keep) &&
         match closed_at f with None => true | Some _ => false end
      then Some (mkFindingRow (fr_monitor row)
             (mkWFinding (finding_id f) (opened_at f) (Some (NInt at_s)) (wf_severity f) (peak_score f) (wf_summary f))
             (Some reason))
      else Some row) (watch_findings db))
    (watch_baselines db).

Definition max_tick (lasts : list Z) : option Z :=
  match lasts with [] => None | t :: ts => Some (fold_left Z.max ts t) end.

(** [session] and [stint] are what the database answers, [committed] whether
    the closing statement commits. *)
Definition _context (stored : string -> res Mo) (s : Service) (at_s : Z) (session : option string) (stint : Z)
    (committed : bool) : Service * res unit :=
  if sv_initialized s && bool_decide (session = sv_session s) then
    if stint =? sv_stint s then (s, Ok ())
    else
      (* a driver change: the stint_start monitors start again *)
      let engine := sv_engine s in
      let '(ms, r) := each_monitor (refresh_stint stored (sv_store s) session stint) (monitors engine) in
      let s := sv_set_engine s (set_monitors engine ms) in
      let changed := map fst (filter (fun nm => is_true (String.eqb (mon_baseline nm.2) "stint_start")) ms) in
      match r with
      | Raise e => (s, Raise e)
      | Ok _ =>
          if bool_decide (changed = []) then (sv_set_context s session stint (sv_store s), Ok ())
          else if committed
          then (sv_set_context s session stint
                  (close_previous (sv_store s) changed at_s (held_findings ms) "stint_changed"), Ok ())
          else (s, raise DatabaseError "close_previous")
      end
  else
    let '(ms, r) := each_monitor (_fresh_monitor stored (sv_store s) session stint) (sv_built s) in
    match r with
    | Raise e => (s, Raise e)
    | Ok restored =>
        if committed then
          let engine := engine_init (baseline_rpm_min (sv_engine s)) (max_age_seconds (sv_engine s)) ms in
          (sv_set_engine
             (sv_set_context s session stint
                (close_previous (sv_store s) (map fst ms) at_s (held_findings ms) "session_changed"))
             (set_last_tick engine (max_tick (restored_ticks restored))), Ok ())
        else (s, raise DatabaseError "close_previous")
    end.

(** * The tick *)

Definition obj_of_value (v : option SampleValue) : obj :=
  match v with
  | Some (VFloat x) => OFloat x
  | Some (VInt z) => OInt z
  | Some (VBool b) => OBool b
  | Some (VStr t) => OStr t
  | None => ONone
  end.

(** Observe the buffered samples up to the tick; a malformed one is counted. *)
Fixpoint observe_pending (fresh : string -> string) (at_s : Z) (s : Service) (queue : list Pending) : Service * res unit :=
  match queue with
  | [] => (sv_set_pending s [], Ok ())
  | (t, n, d) :: queue =>
      if num_leb (NFloat t) (NInt at_s) then
        let '(engine, r) := observe json_loads fresh (sv_engine s) (c_name (ds_channel d)) (obj_of_value (ds_value d))
                              (fdiv_ieee (ds_capture_unix_ms d) (f_of_Z 1000)) (c_units (ds_channel d)) in
        let s := sv_set_engine s engine in
        match r with
        | Ok _ => observe_pending fresh at_s s queue
        | Raise e =>
            match exn_kind e with
            | ValueError | TypeError => observe_pending fresh at_s (sv_set_health s (count_malformed (sv_health s))) queue
            | _ => (sv_set_pending s queue, Raise e)
            end
        end
      else (sv_set_pending s ((t, n, d) :: queue), Ok ())
  end.

(** One finding of a row into the table: a known identifier keeps its first
    columns. *)
Definition upsert_finding (name : string) (f : Finding) (table : gmap string FindingRow) : gmap string FindingRow :=
  let row := match table !! finding_id f with
    | Some old =>
        mkFindingRow (fr_monitor old)
          (mkWFinding (finding_id f) (opened_at (fr_finding old)) (closed_at f) (wf_severity (fr_finding old))
             (peak_score f) (wf_summary f)) (fr_closed_reason old)
    | None => mkFindingRow name f None
    end in
  <[finding_id f := row]> table.

(** The transaction of one tick. *)
Definition write_row (session : option string) (stint : Z) (ms : list (string * M)) (at_s : Z) (db : Store Mo)
    (nr : string * Row) : Store Mo :=
  let '(name, row) := nr in
  let scores := match watch_scores db !! (rw_time row, name) with
    | Some _ => watch_scores db | None => <[(rw_time row, name) := row]> (watch_scores db) end in
  let found := match rw_finding row with
    | Some f => upsert_finding name f (watch_findings db) | None => watch_findings db end in
  let baselines := match session, od_get name ms with
    | Some sid, Some m => <[(name, sid, slot_of m stint) := (mon_snapshot m, at_s)]> (watch_baselines db)
    | _, _ => watch_baselines db end in
  mkStore scores found baselines.

Definition write_tick (session : option string) (stint : Z) (ms : list (string * M)) (at_s : Z)
    (rows : list (string * Row)) (db : Store Mo) : Store Mo :=
  fold_left (write_row session stint ms at_s) rows db.

(** Evaluate and checkpoint; a transaction that fails puts the engine back. *)
Definition evaluate_and_write (fresh : string -> string) (s : Service) (at_s : Z) (committed : bool)
    : Service * res (list (string * Row)) :=
  let previous := sv_engine s in
  let '(engine, r) := tick fresh previous at_s (bool_decide (is_Some (sv_session s))) in
  match r with
  | Raise e => (sv_set_engine s engine, Raise e)
  | Ok [] => (sv_set_engine s engine, Ok [])
  | Ok rows =>
      if committed
      then (sv_set_engine (sv_set_store s (write_tick (sv_session s) (sv_stint s) (monitors engine) at_s rows (sv_store s)))
              engine, Ok rows)
      else (s, raise DatabaseError "write_tick")
  end.

(** What the database answers to one tick: the session and the stint, and
    whether the two writes commit. *)
Record Answers := mkAnswers { an_session : option string; an_stint : Z; an_close : bool; an_write : bool }.

Definition service_tick (stored : string -> res Mo) (fresh : string -> string) (s : Service) (at_s : Z) (db : option Answers)
    : Service * res (list (string * Row)) :=
  match db with
  | None => (s, raise DatabaseError "session")
  | Some a =>
      let '(s, r) := _context stored s at_s (an_session a) (an_stint a) (an_close a) in
      match r with
      | Raise e => (s, Raise e)
      | Ok _ =>
          let '(s, r) := observe_pending fresh at_s s (sv_pending s) in
          match r with
          | Raise e => (s, Raise e)
          | Ok _ => evaluate_and_write fresh s at_s (an_write a)
          end
      end
  end.
End Service.
Arguments Service M Mo : clear implicits.

(** * The laws of a checkpointed monitor

    [mon_wf] is what running keeps; [mon_fresh] is the monitor as its
    configuration builds it, which every operation leaves the same. *)
Class CheckpointLaws (M Mo : Type) `{!Monitor M} `{!Checkpointed M Mo} := {
  mon_wf : M -> Prop;
  model_ok : Mo -> Prop;
  evaluate_wf m fresh t rs valid :
    mon_wf m -> let p := mon_evaluate m fresh t rs valid in mon_wf p.1 /\ mon_fresh p.1 = mon_fresh m;
  evaluate_settles m fresh t rs valid m' row :
    mon_wf m -> mon_evaluate m fresh t rs valid = (m', Ok row) -> mon_restore (mon_fresh m) (mon_snapshot m') = Ok m';
  on_lap_wf m fresh event t :
    mon_wf m -> let p := mon_on_lap m fresh event t in mon_wf p.1 /\ mon_fresh p.1 = mon_fresh m;
  on_pit_wf m : mon_wf m -> mon_wf (mon_on_pit m) /\ mon_fresh (mon_on_pit m) = mon_fresh m;
  restore_wf m model m' :
    mon_wf m -> model_ok model -> mon_restore m model = Ok m' -> mon_wf m' /\ mon_fresh m' = mon_fresh m;
  snapshot_ok m : mon_wf m -> model_ok (mon_snapshot m);
  fresh_wf m : mon_wf m -> mon_wf (mon_fresh m) /\ mon_fresh (mon_fresh m) = mon_fresh m;
  fresh_baseline m : mon_baseline (mon_fresh m) = mon_baseline m;
  clear_wf m : mon_wf m -> mon_wf (mon_clear m) /\ mon_fresh (mon_clear m) = mon_fresh m;
  set_session_wf m sid : mon_wf m -> mon_wf (mon_set_session m sid) /\ mon_fresh (mon_set_session m sid) = mon_fresh m;
  set_stint_wf m n : mon_wf m -> mon_wf (mon_set_stint m n) /\ mon_fresh (mon_set_stint m n) = mon_fresh m
}.

Section Restart.
Context {M Mo : Type} `{!Monitor M} `{!Checkpointed M Mo} `{!CheckpointLaws M Mo}.
Context (json_loads : string -> option obj) (stored : string -> res Mo)
  (Hstored : forall name model, stored name = Ok model -> model_ok model).

(** The monitors run are those built, gone on. *)
Definition goes_on (b m : string * M) : Prop := b.1 = m.1 /\ mon_wf m.2 /\ mon_fresh m.2 = mon_fresh b.2.
Definition tracks (built ms : list (string * M)) : Prop := Forall2 goes_on built ms.

Definition store_ok (db : Store Mo) : Prop :=
  forall k model t, watch_baselines db !! k = Some (model, t) -> model_ok model.

Definition built_ok (built : list (string * M)) : Prop :=
  NoDup (map fst built) /\ Forall (fun b => mon_wf b.2 /\ mon_fresh b.2 = b.2) built.

Definition service_wf (s : Service M Mo) : Prop :=
  built_ok (sv_built s) /\ tracks (sv_built s) (monitors (sv_engine s)) /\ store_ok (sv_store s).

Lemma tracks_refl built : built_ok built -> tracks built built.
Proof. intros [_ H]. apply Forall_Forall2_diag. eapply Forall_impl; [exact H|]. intros [n m] [Hw Hf]; by split_and!. Qed.

Lemma tracks_names built ms : tracks built ms -> map fst ms = map fst built.
Proof. induction 1 as [|b m built ms (Hn & _) _ IH]; [done|]. simpl. by rewrite Hn, IH. Qed.

(** Every way of stepping each monitor keeps them going on. *)
Lemma each_tracks {R : Type} (f : string -> M -> M * res R) built ms :
  (forall name m, mon_wf m -> mon_wf (f name m).1 /\ mon_fresh (f name m).1 = mon_fresh m) ->
  tracks built ms -> tracks built (each_monitor f ms).1.
Proof.
  intros Hf; induction 1 as [|b [name m] built ms (Hn & Hw & Hfr) Hrest IH]; [constructor|]. simpl in *.
  destruct (Hf name m Hw) as [Hw' Hfr']. destruct (f name m) as [m' [x|e]]; simpl in *.
  - destruct (each_monitor f ms) as [ms' r]. constructor; [|exact IH]. split_and!; [done..|]; simpl; congruence.
  - constructor; [|done]. split_and!; [done..|]; simpl; congruence.
Qed.

Lemma map_pit_tracks built ms :
  tracks built ms -> tracks built (map (fun nm => (nm.1, mon_on_pit nm.2)) ms).
Proof.
  induction 1 as [|b [name m] built ms (Hn & Hw & Hfr) Hrest IH]; [constructor|]. simpl in *.
  destruct (on_pit_wf m Hw). constructor; [|done]. split_and!; [done..|]; simpl; congruence.
Qed.

Lemma observe_tracks built fresh (e : WatchEngine M) channel value t u :
  tracks built (monitors e) -> tracks built (monitors (observe json_loads fresh e channel value t u).1).
Proof.
  intros H. unfold observe. destruct (_ || _); [done|]. destruct (already_evaluated _ _); [done|].
  destruct (String.eqb _ _).
  - set (event := match value with OStr _ => _ | _ => _ end). destruct event as [[]|]; try done.
    destruct (fleb _ _); [|done]. unfold _lap_event. destruct (is_str _ "lap_completed").
    + pose proof (each_tracks (fun name m => mon_on_lap m (fresh name) d t) built (monitors e)
        (fun name m => on_lap_wf m (fresh name) d t) H) as H'.
      cbn [monitors set_pit]. destruct (each_monitor _ (monitors e)) as [ms r]. exact H'.
    + destruct (_ || _); [|done]. by apply map_pit_tracks.
  - destruct (finite_number _) as [[x|]|]; try done. by destruct (eng_readings e !! channel); [case_match|].
Qed.

Lemma observe_pending_keeps fresh t (s : Service M Mo) queue :
  tracks (sv_built s) (monitors (sv_engine s)) ->
  let s' := (observe_pending json_loads fresh t s queue).1 in
  tracks (sv_built s') (monitors (sv_engine s')) /\ sv_built s' = sv_built s /\ sv_store s' = sv_store s /\
  sv_session s' = sv_session s /\ sv_stint s' = sv_stint s.
Proof.
  revert s; induction queue as [|[[at_s n] d] queue IH]; intros s H; [done|]. cbn [observe_pending].
  destruct (num_leb _ _); [|done].
  match goal with |- context [observe json_loads fresh ?e ?c ?v ?a ?u] =>
    pose proof (observe_tracks (sv_built s) fresh e c v a u H) as Ho; destruct (observe json_loads fresh e c v a u) as [e' r] end.
  destruct r as [[]|ex]; [by apply (IH (sv_set_engine s e'))|].
  destruct (exn_kind ex); try done; by apply (IH (sv_set_health (sv_set_engine s e') _)).
Qed.

(** A monitor restored, or left fresh with its source noted. *)
Lemma fresh_monitor_wf db session stint name m :
  store_ok db -> mon_wf m ->
  let p := _fresh_monitor stored db session stint name m in mon_wf p.1 /\ mon_fresh p.1 = mon_fresh m.
Proof.
  intros Hdb Hw. cbv zeta. unfold _fresh_monitor.
  destruct (session ≫= _) as [[model last]|] eqn:Ec.
  - apply bind_Some in Ec as (sid & _ & Hget). destruct (mon_restore m model) as [m'|e] eqn:Er; [|done].
    exact (restore_wf m model m' Hw (Hdb _ _ _ Hget) Er).
  - set (q := if String.eqb (mon_baseline m) "stored" then _ else _).
    assert (mon_wf q.1 /\ mon_fresh q.1 = mon_fresh m) as [Hq Hqf].
    { subst q. case String.eqb; [|done]. destruct (model ← stored name; mon_restore m model) as [m'|e] eqn:E; [|done].
      apply res_bind_Ok in E as (model & Hs & Er).
      destruct (restore_wf m model m' Hw (Hstored _ _ Hs) Er) as [Hw' Hf'].
      destruct (negb (mon_frozen m')); [done|]. simpl. destruct (clear_wf m' Hw'). split; [done | congruence]. }
    clearbody q. destruct q as [m1 r1]. cbn [fst] in Hq, Hqf. destruct r1 as [u|e]; [|done].
    set (m2 := match session with Some _ => _ | None => _ end).
    assert (mon_wf m2 /\ mon_fresh m2 = mon_fresh m) as [H2 H2f].
    { subst m2. destruct session as [sid|]; [|done]. destruct (_ || _); [|done].
      destruct (set_session_wf m1 sid Hq). split; [done | congruence]. }
    clearbody m2. cbn [fst]. destruct (String.eqb (mon_baseline m2) "stint_start"); [|done].
    destruct (set_stint_wf m2 stint H2). split; [done | congruence].
Qed.

Lemma refresh_stint_wf db session stint name m :
  store_ok db -> mon_wf m ->
  let p := refresh_stint stored db session stint name m in mon_wf p.1 /\ mon_fresh p.1 = mon_fresh m.
Proof.
  intros Hdb Hw. cbv zeta. unfold refresh_stint. destruct (String.eqb _ _); [|done].
  destruct (fresh_wf m Hw) as [Hw' Hf']. pose proof (fresh_monitor_wf db session stint name (mon_fresh m) Hdb Hw') as H.
  destruct (_fresh_monitor _ _ _ _ _ _) as [m' r]. cbv zeta in H. cbn [fst] in *. destruct H. split; [done | congruence].
Qed.

Lemma context_wf (s : Service M Mo) t session stint committed :
  service_wf s ->
  let p := _context stored s t session stint committed in
  service_wf p.1 /\ sv_built p.1 = sv_built s /\
  (p.2 = Ok () -> sv_session p.1 = session /\ sv_stint p.1 = stint).
Proof.
  intros (Hb & Ht & Hdb). cbv zeta. unfold _context.
  destruct (sv_initialized s && bool_decide (session = sv_session s)) eqn:Esame.
  - apply andb_true_iff in Esame as [_ Hsame%bool_decide_eq_true].
    destruct (stint =? sv_stint s) eqn:Est; [apply Z.eqb_eq in Est; by split_and!|].
    pose proof (each_tracks (refresh_stint stored (sv_store s) session stint) _ _
      (fun name m => refresh_stint_wf (sv_store s) session stint name m Hdb) Ht) as H'.
    cbv zeta. destruct (each_monitor _ (monitors (sv_engine s))) as [ms r]. cbn [fst] in H'.
    assert (service_wf (sv_set_engine s (set_monitors (sv_engine s) ms))) as Hs1 by by split_and!.
    destruct r as [xs|e]; [|done].
    destruct (bool_decide _); [done|]. by destruct committed.
  - pose proof (each_tracks (_fresh_monitor stored (sv_store s) session stint) _ _
      (fun name m => fresh_monitor_wf (sv_store s) session stint name m Hdb) (tracks_refl _ Hb)) as H'.
    destruct (each_monitor _ (sv_built s)) as [ms r]. cbn [fst] in H'.
    assert (service_wf s) as Hs by by split_and!.
    destruct r as [xs|e]; [|done]. by destruct committed.
Qed.

(** * The checkpoints of a committed tick *)

Lemma write_tick_baselines sid stint ms t rows (db : Store Mo) name m :
  od_get name ms = Some m ->
  name ∈ map fst rows \/ watch_baselines db !! (name, sid, slot_of m stint) = Some (mon_snapshot m, t) ->
  watch_baselines (write_tick (Some sid) stint ms t rows db) !! (name, sid, slot_of m stint) = Some (mon_snapshot m, t).
Proof.
  intros Hget. unfold write_tick. revert db; induction rows as [|[n row] rows IH]; intros db H; cbn [fold_left map] in *.
  - destruct H as [H|H]; [by apply not_elem_of_nil in H | done].
  - apply IH. rewrite elem_of_cons in H. cbn [fst] in H.
    destruct (decide (name = n)) as [<-|Hne].
    + right. cbn. rewrite Hget. by rewrite lookup_insert_eq.
    + destruct H as [[Heq|Hin]|H]; [done | by left | right].
      cbn. destruct (od_get n ms); [|done]. rewrite lookup_insert_ne; [done | congruence].
Qed.

Lemma write_tick_ok session stint ms t rows (db : Store Mo) :
  (forall name m, od_get name ms = Some m -> mon_wf m) -> store_ok db -> store_ok (write_tick session stint ms t rows db).
Proof.
  intros Hms. unfold write_tick. revert db; induction rows as [|[n row] rows IH]; intros db H; cbn [fold_left]; [done|].
  apply IH. intros k model at_s. cbn. destruct session as [sid|]; [|apply H]. destruct (od_get n ms) as [m|] eqn:E; [|apply H].
  rewrite lookup_insert_Some. intros [[_ [= <- _]]|[_ Hk]]; [eapply snapshot_ok, Hms, E | by eapply H].
Qed.

Lemma tracks_get built ms name m : tracks built ms -> od_get name ms = Some m -> mon_wf m.
Proof.
  intros Ht Hget%od_get_In. apply list_elem_of_lookup in Hget as (i & Hi).
  destruct (Forall2_lookup_r _ _ _ _ _ Ht Hi) as (b & _ & _ & Hw & _). exact Hw.
Qed.

(** What an evaluated tick leaves: monitors that go on, each of them the one
    its checkpoint restores. *)
Lemma tick_settles fresh (e e' : WatchEngine M) t active rows built :
  tracks built (monitors e) -> tick fresh e t active = (e', Ok rows) -> rows <> [] ->
  tracks built (monitors e') /\ map fst rows = map fst (monitors e') /\ last_tick e' = Some t /\
  Forall2 (fun b m => mon_restore (mon_fresh b.2) (mon_snapshot m.2) = Ok m.2) built (monitors e').
Proof.
  intros Ht E Hrows. unfold tick in E. destruct (already_evaluated e (NInt t)); [injection E as _ <-; done|].
  cbn [monitors set_last_tick] in E.
  set (f := tick_monitor fresh (set_last_tick e (Some t)) t active) in E.
  assert (forall name m, mon_wf m -> mon_wf (f name m).1 /\ mon_fresh (f name m).1 = mon_fresh m) as Hf.
  { intros name m Hw. subst f. unfold tick_monitor.
    match goal with |- context [mon_evaluate m ?a ?b ?c ?d] =>
      pose proof (evaluate_wf m a b c d Hw) as H; destruct (mon_evaluate m a b c d) end. exact H. }
  pose proof (each_tracks f built (monitors e) Hf Ht) as Ht'.
  destruct (each_monitor f (monitors e)) as [ms r] eqn:Eeach. injection E as <- ->. cbn [monitors set_monitors last_tick].
  pose proof (each_monitor_names f (monitors e)) as Hn. rewrite Eeach in Hn. cbn [fst] in *.
  apply each_monitor_ok in Eeach as (Hlen & Hlr & Hi). split_and!; [exact Ht' | | done |].
  - rewrite Hn. apply list_eq; intros i. rewrite !list_lookup_fmap.
    destruct (monitors e !! i) as [[name m]|] eqn:Em.
    + destruct (Hi _ _ _ Em) as (m' & x & _ & _ & ->). done.
    + apply lookup_ge_None in Em. by rewrite (proj2 (lookup_ge_None rows i)) by lia.
  - apply Forall2_lookup. intros i. destruct (built !! i) as [[name b]|] eqn:Eb.
    + destruct (Forall2_lookup_l _ _ _ _ _ Ht Eb) as ([name' m] & Em & Hname & Hw & Hfr). cbn in Hname, Hw, Hfr. subst name'.
      destruct (Hi _ _ _ Em) as (m' & x & Hfm & -> & _). constructor. cbn [snd].
      subst f. unfold tick_monitor in Hfm.
      match type of Hfm with context [mon_evaluate m ?a ?b ?c ?d] =>
        destruct (mon_evaluate m a b c d) as [m1 r1] eqn:Ee end.
      destruct r1 as [row|]; [|discriminate]. injection Hfm as <- _.
      rewrite <- Hfr. by eapply evaluate_settles.
    + apply lookup_ge_None in Eb. apply Forall2_length in Ht. rewrite (proj2 (lookup_ge_None ms i)) by lia. constructor.
Qed.

(** * Runs, and the restart *)

Lemma accept_sample_keeps now (s : Service M Mo) d :
  let s' := accept_sample now s d in
  sv_engine s' = sv_engine s /\ sv_built s' = sv_built s /\ sv_store s' = sv_store s.
Proof. cbv zeta. unfold accept_sample. cbv zeta. by repeat case_match. Qed.

Lemma handle_keeps (s : Service M Mo) now message :
  let s' := handle s now message in
  sv_engine s' = sv_engine s /\ sv_built s' = sv_built s /\ sv_store s' = sv_store s.
Proof.
  cbv zeta. unfold handle. destruct message as [[registry|]|[raw|]]; try done.
  destruct (out_of_window _ _); [done|]. destruct (decode_batch _ _) as [cache [batch|]]; [|done].
  cbv zeta. match goal with |- context [fold_left _ _ ?s0] => set (s1 := s0) end.
  assert (sv_engine s1 = sv_engine s /\ sv_built s1 = sv_built s /\ sv_store s1 = sv_store s) as H1 by done.
  clearbody s1. revert s1 H1; induction (db_samples batch) as [|d ds IH]; intros s1 H1; [done|]. cbn [fold_left].
  apply IH. destruct (accept_sample_keeps now s1 d) as (-> & -> & ->). done.
Qed.

Lemma evaluate_and_write_wf fresh (s : Service M Mo) t committed :
  service_wf s -> let s' := (evaluate_and_write fresh s t committed).1 in service_wf s' /\ sv_built s' = sv_built s.
Proof.
  intros (Hb & Ht & Hdb). cbv zeta. unfold evaluate_and_write.
  destruct (tick fresh (sv_engine s) t _) as [e r] eqn:E.
  assert (tracks (sv_built s) (monitors e)) as He.
  { unfold tick in E. destruct (already_evaluated _ _); [by injection E as <- _|]. cbn [monitors set_last_tick] in E.
    match type of E with context [each_monitor ?f _] => pose proof (each_tracks f (sv_built s) (monitors (sv_engine s))) as H;
      destruct (each_monitor f _) as [ms r1] end.
    injection E as <- _. apply H; [|done]. intros name m Hw. unfold tick_monitor.
    match goal with |- context [mon_evaluate m ?a ?b ?c ?d] =>
      pose proof (evaluate_wf m a b c d Hw) as H0; destruct (mon_evaluate m a b c d) end. exact H0. }
  destruct r as [[|row rows]|ex]; [done | | done]. destruct committed; [|done]. split; [|done]. split_and!; [done | done |].
  apply write_tick_ok; [|done]. intros name m. by eapply tracks_get.
Qed.

Inductive service_run (rpm_min max_age : float) (built : list (string * M)) (db0 : Store Mo) : Service M Mo -> Prop :=
  | run_start : service_run rpm_min max_age built db0 (service_init rpm_min max_age built db0)
  | run_handle s now message :
      service_run rpm_min max_age built db0 s -> service_run rpm_min max_age built db0 (handle s now message)
  | run_tick s fresh t db :
      service_run rpm_min max_age built db0 s ->
      service_run rpm_min max_age built db0 (service_tick json_loads stored fresh s t db).1.

Lemma service_run_wf rpm_min max_age built db0 s :
  built_ok built -> store_ok db0 -> service_run rpm_min max_age built db0 s -> service_wf s /\ sv_built s = built.
Proof.
  intros Hb Hdb H. induction H as [|s now message _ [(Hb' & Ht & Hdb') IH]|s fresh t db _ [Hwf IH]].
  - split; [|done]. split_and!; [done | by apply tracks_refl | done].
  - destruct (handle_keeps s now message) as (He & Hbu & Hs). split; [|congruence].
    unfold service_wf. rewrite He, Hbu, Hs. by split_and!.
  - unfold service_tick. destruct db as [a|]; [|done].
    pose proof (context_wf s t (an_session a) (an_stint a) (an_close a) Hwf) as (Hwf1 & Hb1 & _).
    destruct (_context _ _ _ _ _ _) as [s1 r]. cbn [fst] in *. destruct r as [u|e]; [|split; [done | cbn [fst]; congruence]].
    destruct Hwf1 as (Hbo & Ht1 & Hdb1).
    pose proof (observe_pending_keeps fresh t s1 (sv_pending s1) Ht1) as (Ht2 & Hb2 & Hs2 & _).
    destruct (observe_pending _ _ _ _ _) as [s2 r2]. cbn [fst] in *.
    assert (service_wf s2) as Hwf2.
    { unfold service_wf. rewrite Hs2, Hb2 in *. by split_and!. }
    destruct r2 as [u2|e]; [|split; [done | cbn [fst]; congruence]].
    destruct (evaluate_and_write_wf fresh s2 t (an_write a) Hwf2) as [Hwf3 Hb3]. split; [done | cbn [fst]; congruence].
Qed.

Lemma fold_max_same t ts : Forall (eq t) ts -> fold_left Z.max ts t = t.
Proof. induction 1 as [|x ts <- _ IH]; [done|]. cbn [fold_left]. by rewrite Z.max_id. Qed.

Lemma restored_all db sid stint built ms t :
  (forall name m, (name, m) ∈ ms -> watch_baselines db !! (name, sid, slot_of m stint) = Some (mon_snapshot m, t)) ->
  tracks built ms -> Forall2 (fun b m => mon_restore (mon_fresh b.2) (mon_snapshot m.2) = Ok m.2) built ms ->
  Forall (fun b => mon_fresh b.2 = b.2) built ->
  exists rs, each_monitor (_fresh_monitor stored db (Some sid) stint) built = (ms, Ok rs) /\
    length rs = length ms /\ Forall (eq t) (restored_ticks rs) /\ length (restored_ticks rs) = length rs.
Proof.
  intros Hdb Ht; revert Hdb; induction Ht as [|[n b] [n' m] built ms (Hn & Hw & Hf) Ht IH]; intros Hdb Hr Hb.
  - by exists [].
  - cbn in Hn, Hw, Hf. subst n'. inversion Hr as [|? ? ? ? Hrm Hrest]; subst. inversion Hb as [|? ? Hbm Hbrest]; subst.
    cbn [snd] in Hrm, Hbm. rewrite Hbm in Hrm, Hf.
    destruct IH as (rs & IH & Hlen & Hts & Hlt); [|done|done|].
    { intros name m' Hin. apply Hdb. by right. }
    exists ((n, Some (mon_snapshot m, t)) :: rs). cbn [each_monitor]. unfold _fresh_monitor at 1.
    assert (slot_of b stint = slot_of m stint) as Hslot.
    { unfold slot_of. rewrite <- Hf, fresh_baseline. done. }
    rewrite Hslot. cbn [mbind option_bind]. rewrite (Hdb n m) by left. rewrite Hrm, IH. cbn.
    split_and!; [done | by rewrite Hlen | by constructor | f_equal; exact Hlt].
Qed.

(** C15. A restart loses nothing of what the last committed tick knew: in any run,
    once a tick commits in a session, a service built anew on the database
    and asked for the same session and stint holds exactly the monitors of the
    one that stopped (baselines, scores, sums, series and open findings) and
    its last tick, and leaves the rows of the findings held as they are. *)
Theorem watch_restart_resumes rpm_min max_age built db0 s fresh t a sid s' rows
    (Hbuilt : built_ok built) (Hdb0 : store_ok db0) (Hrun : service_run rpm_min max_age built db0 s)
    (Htick : service_tick json_loads stored fresh s t (Some a) = (s', Ok rows))
    (Hsession : an_session a = Some sid) (Hrows : rows <> []) :
  forall t', exists s2,
    _context stored (service_init rpm_min max_age built (sv_store s')) t' (Some sid) (an_stint a) true = (s2, Ok ()) /\
    monitors (sv_engine s2) = monitors (sv_engine s') /\ last_tick (sv_engine s2) = Some t /\
    last_tick (sv_engine s') = Some t /\
    forall id, id ∈ held_findings (monitors (sv_engine s')) ->
      watch_findings (sv_store s2) !! id = watch_findings (sv_store s') !! id.
Proof.
  destruct (service_run_wf _ _ _ _ _ Hbuilt Hdb0 Hrun) as [Hwf Hb]. unfold service_tick in Htick.
  pose proof (context_wf s t (an_session a) (an_stint a) (an_close a) Hwf) as (Hwf1 & Hb1 & Hctx).
  destruct (_context _ _ _ _ _ _) as [s1 r]. cbn [fst snd] in *. destruct r as [[]|e]; [|discriminate].
  destruct (Hctx eq_refl) as [Hsid Hstint]. rewrite Hsession in Hsid. destruct Hwf1 as (Hbo & Ht1 & Hdb1).
  pose proof (observe_pending_keeps fresh t s1 (sv_pending s1) Ht1) as (Ht2 & Hb2 & Hs2 & Hse2 & Hst2).
  destruct (observe_pending _ _ _ _ _) as [s2 r2]. cbn [fst] in *. destruct r2 as [u2|e]; [|discriminate].
  unfold evaluate_and_write in Htick. destruct (tick fresh (sv_engine s2) t _) as [e r3] eqn:Etick.
  destruct r3 as [[|row rest]|ex]; [congruence | | discriminate]. destruct (an_write a); [|discriminate].
  injection Htick as <- <-. cbn [sv_store sv_engine sv_set_engine sv_set_store].
  assert (sv_built s2 = built) as Hb2' by congruence. rewrite Hb2' in Ht2.
  apply tick_settles with (built := built) in Etick as (Ht3 & Hnames & Hlast & Hsettled); [|done|done].
  rewrite Hse2, Hsid, Hst2, Hstint. set (db := write_tick _ _ _ _ _ _).
  assert (od_wf (monitors e)) as Hnd.
  { unfold od_wf, od_keys. change ((monitors e).*1) with (map fst (monitors e)). rewrite (tracks_names _ _ Ht3). apply Hbuilt. }
  destruct (restored_all db sid (an_stint a) built (monitors e) t) as (rs & Hrs & Hlen & Hts & Hlt); [|done|done| |].
  { intros name m Hin. assert (name ∈ map fst (row :: rest)) as Hn.
    { rewrite Hnames. apply list_elem_of_fmap. by exists (name, m). }
    unfold db. apply (write_tick_baselines sid (an_stint a) (monitors e) t (row :: rest)); [by apply od_In_get | by left]. }
  { eapply Forall_impl; [apply Hbuilt|]. by intros b [_ H]. }
  intros t'. unfold _context. cbn [sv_initialized service_init andb sv_built sv_store]. rewrite Hrs.
  eexists; split; [reflexivity|]. cbn [sv_engine sv_set_engine sv_store sv_set_context monitors set_last_tick last_tick engine_init].
  split_and!; [done | | done |].
  - assert (length (restored_ticks rs) <> 0%nat) as Hne.
    { rewrite Hlt, Hlen. assert (length (row :: rest) = length (monitors e)) as <-; [|done].
      apply (f_equal length) in Hnames. by rewrite !length_map in Hnames. }
    unfold max_tick. destruct (restored_ticks rs) as [|t0 ts]; [done|]. inversion Hts as [|? ? <- Hts']; subst.
    by rewrite fold_max_same.
  - intros id Hid. cbn [watch_findings close_previous]. rewrite map_lookup_imap.
    destruct (watch_findings db !! id) as [fr|]; [|done]. cbn.
    assert (existsb (String.eqb id) (held_findings (monitors e)) = true) as ->.
    { apply existsb_exists. exists id. rewrite <- list_elem_of_In, String.eqb_refl. done. }
    by rewrite andb_false_r.
Qed.
End Restart.

(** * The kinds, as checkpointed monitors *)

Definition kind_fresh (m : Kind) : Kind := build_monitor (monitor_config m).

Definition config_baseline (c : MonitorConfig) : string :=
  match c with
  | CEnvelope c => ec_baseline c
  | CDrift c => dc_baseline c
  | CRatio c => rc_baseline c
  | CCounter c => cc_baseline c
  end.

Definition kind_frozen (m : Kind) : bool :=
  match m with KEnvelope m => e_frozen m | KDrift m => d_frozen m | KRatio m => r_frozen m | KCounter _ => true end.

(** [monitor.score, monitor.finding = 0.0, None]. *)
Definition kind_clear (m : Kind) : Kind :=
  match m with
  | KEnvelope m => KEnvelope (e_set_finding (e_set_score m f0) None)
  | KDrift m =>
      KDrift (mkDriftMonitor (d_config m) (d_frozen m) (d_learned m) (d_units m) (d_source_session m) (d_baseline_laps m)
        (d_mean m) (d_scale m) (d_laps m) (cusum_up m) (cusum_down m) f0 (d_calm m) (d_sum m) (d_n m) (d_dirty m)
        (d_pending m) None)
  | KRatio m => KRatio (r_set_finding (r_set_score m f0) None)
  | KCounter m => KCounter (k_set_score m f0 None)
  end.

(** [monitor.source_session = session]. *)
Definition kind_set_session (m : Kind) (sid : string) : Kind :=
  match m with
  | KEnvelope m =>
      KEnvelope (mkEnvelope (e_config m) (e_learned m) (e_frozen m) (e_bins m) (e_table m) (e_units m) (e_score m)
        (e_finding m) (Some sid))
  | KDrift m =>
      KDrift (mkDriftMonitor (d_config m) (d_frozen m) (d_learned m) (d_units m) (Some sid) (d_baseline_laps m)
        (d_mean m) (d_scale m) (d_laps m) (cusum_up m) (cusum_down m) (d_score m) (d_calm m) (d_sum m) (d_n m) (d_dirty m)
        (d_pending m) (d_finding m))
  | KRatio m =>
      KRatio (mkRatio (r_config m) (r_learned m) (r_frozen m) (r_groups m) (r_table m) (r_units m) (r_score m)
        (r_finding m) (Some sid))
  | KCounter m =>
      KCounter (mkCounter (k_config m) (k_units m) (Some sid) (k_history m) (k_score m) (k_finding m))
  end.

(** None of the four kinds keeps the stint of its baseline. *)
#[export] Instance kind_checkpointed : Checkpointed Kind Model := {|
  mon_snapshot := kind_snapshot;
  mon_restore := kind_restore;
  mon_fresh := kind_fresh;
  mon_baseline m := config_baseline (monitor_config m);
  mon_frozen := kind_frozen;
  mon_clear := kind_clear;
  mon_set_session := kind_set_session;
  mon_set_stint m _ := m;
  mon_finding := kind_finding
|}.

(** The configuration equals its own dump (it holds no NaN, which its
    validation refuses), and the bounded series are within their bounds. *)
Definition config_comparable (c : MonitorConfig) : Prop :=
  match c with
  | CEnvelope c => py_eqb c c = true
  | CDrift c => py_eqb c c = true
  | CRatio c => py_eqb c c = true
  | CCounter c => py_eqb c c = true
  end.
Definition series_bounded (m : Kind) : Prop :=
  match m with
  | KDrift m => (length (d_laps m) <= _MAX_LAP_SERIES)%nat
  | KCounter m => (length (k_history m) <= _MAX_COUNTER_HISTORY)%nat
  | _ => True
  end.
Definition kind_wf (m : Kind) : Prop := config_comparable (monitor_config m) /\ series_bounded m.
Definition kind_model_ok (model : Model) : Prop :=
  match model with MdDrift d => (length (dm_laps d) <= _MAX_LAP_SERIES)%nat | _ => True end.

Section KindLaws.
Context (expm1 : float -> float).
#[local] Instance kinds : Monitor Kind := kind_monitor expm1.

Lemma kind_evaluate_keeps m fresh t rs valid :
  kind_wf m -> let p := kind_evaluate expm1 m fresh t rs valid in kind_wf p.1 /\ monitor_config p.1 = monitor_config m.
Proof.
  intros [Hc Hs]. destruct m as [m|m|m|m]; cbn in Hc, Hs |- *; unfold kind_wf; cbn.
  - pose proof (envelope_evaluate_report expm1 m fresh t rs valid) as [-> _]. done.
  - pose proof (drift_evaluate_facts m t rs valid) as (-> & _ & _ & -> & _). done.
  - pose proof (ratio_evaluate_report expm1 m fresh t rs valid) as [-> _]. done.
  - pose proof (counter_evaluate_facts m fresh t rs valid) as (-> & _ & H & _). by split_and!; [|apply H|].
Qed.

Lemma kind_evaluate_settles m fresh t rs valid m' row :
  kind_wf m -> kind_evaluate expm1 m fresh t rs valid = (m', Ok row) ->
  kind_restore (kind_fresh m) (kind_snapshot m') = Ok m'.
Proof.
  intros Hwf E. pose proof (kind_evaluate_keeps m fresh t rs valid Hwf) as [[Hc' Hs'] Hcfg]. rewrite E in *.
  cbn [fst] in *. destruct Hwf as [Hc _]. unfold kind_evaluate, on_pair in E. destruct m as [m|m|m|m]; injection E as <- _.
  - unfold kind_fresh, kind_restore. cbn in *. injection Hcfg as Hcfg.
    unfold envelope_restore. cbn. rewrite Hcfg, Hc. cbn. rewrite <- Hcfg. by destruct (envelope_evaluate _ _ _ _ _ _).1.
  - pose proof (drift_evaluate_facts m t rs valid) as (_ & _ & Hp & _).
    unfold kind_fresh, kind_restore. cbn in *. injection Hcfg as Hcfg.
    unfold drift_restore. cbn. rewrite Hcfg, Hc. cbn. rewrite <- Hcfg. unfold last_n.
    destruct (drift_evaluate m t rs valid).1 as [?? ? ? ? ? ? ? laps ?????? ??]. cbn in *. subst.
    by replace (length laps - _MAX_LAP_SERIES)%nat with 0%nat by lia.
  - unfold kind_fresh, kind_restore. cbn in *. injection Hcfg as Hcfg.
    unfold ratio_restore. cbn. rewrite Hcfg, Hc. cbn. rewrite <- Hcfg. by destruct (ratio_evaluate _ _ _ _ _ _).1.
  - unfold kind_fresh, kind_restore. cbn in *. injection Hcfg as Hcfg.
    unfold counter_restore. cbn. rewrite Hcfg, Hc. cbn. rewrite <- Hcfg.
    destruct (counter_evaluate m fresh t rs valid).1 as [?? ? hist ??]. cbn in *. unfold last_n.
    by replace (length hist - _MAX_COUNTER_HISTORY)%nat with 0%nat by lia.
Qed.

Lemma kind_restore_keeps m model m' :
  kind_wf m -> kind_model_ok model -> kind_restore m model = Ok m' ->
  kind_wf m' /\ monitor_config m' = monitor_config m.
Proof.
  intros [Hc Hs] Hm H. unfold kind_restore, envelope_restore, drift_restore, ratio_restore, counter_restore in H.
  destruct m as [m|m|m|m], model as [d|d|d|d]; try discriminate; destruct (_ || _); try discriminate;
    injection H as <-; cbn in Hc, Hs, Hm |- *; (split; [split; [done|] | done]); try done.
  cbn. rewrite last_n_length. lia.
Qed.

#[local] Instance kind_laws : CheckpointLaws Kind Model.
Proof.
  refine {| mon_wf := kind_wf; model_ok := kind_model_ok |}; cbn [mon_evaluate mon_on_lap mon_on_pit mon_fresh mon_restore
    mon_snapshot mon_baseline mon_clear mon_set_session mon_set_stint kinds kind_monitor kind_checkpointed].
  - intros m fresh t rs valid Hwf. destruct (kind_evaluate_keeps m fresh t rs valid Hwf) as [H1 H2].
    split; [done|]. unfold kind_fresh. by rewrite H2.
  - intros m fresh t rs valid m' row. apply kind_evaluate_settles.
  - intros m fresh event t [Hc Hs]. destruct m as [m|m|m|m]; try done. cbn in *.
    pose proof (drift_on_lap_facts m fresh event t) as (Hcfg & _ & Hl & _). unfold kind_wf, kind_fresh; cbn.
    rewrite Hcfg. split_and!; [done | by apply Hl | done].
  - intros m [Hc Hs]. by destruct m.
  - intros m model m' Hwf Hm Hr. destruct (kind_restore_keeps m model m' Hwf Hm Hr) as [H1 H2].
    split; [done|]. unfold kind_fresh. by rewrite H2.
  - intros m [_ Hs]. destruct m as [m|m|m|m]; try done. cbn in *. rewrite last_n_length. lia.
  - intros m [Hc _]. unfold kind_wf, kind_fresh. destruct m as [m|m|m|m]; cbn in *; split_and!; try done; lia.
  - intros m. by destruct m.
  - intros m [Hc Hs]. by destruct m.
  - intros m sid [Hc Hs]. by destruct m.
  - done.
Defined.
End KindLaws.

(** * Bench: a second on track, checkpointed, and a restart *)
Module ServiceBench.

Definition loads (text : string) : option obj := Some (ODict [("type", OStr text); ("pit_status", OStr "track")]).
Definition stored (name : string) : res Model := raise ValueError name.
Definition built : list (string * Kind) := [("errors", build_monitor (CCounter EngineBench.errors))].
Definition registry : ChannelRegistry :=
  mkRegistry 1 "car" 0 [mkChannel 1 "car.rpm" "r" "rpm" DOUBLE f0 f0; mkChannel 2 "can.errors" "e" "" INT64 f0 f0;
                        mkChannel 3 "lap.event" "l" "" STRING f0 f0].
Definition batch : SampleBatch :=
  mkSampleBatch 1 100000 0 [mkPbSample 1 0 (Some (W_d (lit 3000 1))); mkPbSample 2 0 (Some (W_i 7));
                            mkPbSample 3 0 (Some (W_s "sector"))] 1.
Definition empty_store : Store Model := mkStore ∅ ∅ ∅.

#[local] Instance kinds : Monitor Kind := kind_monitor Bench.expm1.

Definition started : Service Kind Model := service_init (lit 1200 1) (lit 10 1) built empty_store.
Definition fed : Service Kind Model :=
  handle (handle started (lit 101 1) (inl (Some registry))) (lit 101 1) (inr (Some batch)).
Definition answers : Answers := mkAnswers (Some "s1") 0 true true.
Definition ticked : Service Kind Model * res (list (string * Row)) :=
  service_tick loads stored (fun _ => "f1"%string) fed 101 (Some answers).

Lemma fed_run : service_run loads stored (lit 1200 1) (lit 10 1) built empty_store fed.
Proof. apply run_handle, run_handle, run_start. Qed.
End ServiceBench.

Lemma watch_restart_resumes_witness :
  exists s', fst ServiceBench.ticked = s' /\
    (exists m, monitors (sv_engine s') = [("errors"%string, KCounter m)] /\ k_history m = [(101, lit 7 1)]) /\
    exists s2, _context ServiceBench.stored
      (service_init (lit 1200 1) (lit 10 1) ServiceBench.built (sv_store s')) 110 (Some "s1"%string) 0 true = (s2, Ok ()) /\
      monitors (sv_engine s2) = monitors (sv_engine s') /\ last_tick (sv_engine s2) = Some 101.
Proof.
  destruct ServiceBench.ticked as [s' r] eqn:E. exists s'. split; [done|].
  assert (exists rows, r = Ok rows /\ rows <> []) as (rows & -> & Hrows).
  { vm_compute in E. injection E as <- <-. eexists; split; [reflexivity | discriminate]. }
  split.
  { vm_compute in E. injection E as <- <-. eexists; split; [reflexivity | vm_compute; reflexivity]. }
  destruct (@watch_restart_resumes _ _ (kind_monitor Bench.expm1) _ (kind_laws Bench.expm1) ServiceBench.loads
    ServiceBench.stored ltac:(intros ? ? H; discriminate H) (lit 1200 1) (lit 10 1) ServiceBench.built ServiceBench.empty_store
    ServiceBench.fed (fun _ => "f1"%string) 101 ServiceBench.answers "s1" s' rows) with (t' := 110)
    as (s2 & H1 & H2 & H3 & _); [| | apply ServiceBench.fed_run | exact E | reflexivity | exact Hrows |].
  - split; [apply NoDup_singleton|]. apply Forall_singleton. split; [split; [reflexivity | cbn; lia] | reflexivity].
  - intros k model t Hk. cbn [watch_baselines ServiceBench.empty_store] in Hk. by rewrite lookup_empty in Hk.
  - exists s2. split_and!; [exact H1 | exact H2 | exact H3].
Defined.
